(* ===== verification/_CoqProject ===== *)
-Q . S2P
Prelude.v
Types.v
MatchAlgo.v
MatchAlgoFacts.v
MatchAlgoPriority.v
MatchAlgoTheorems.v
Books.v
Trackers.v
Engine.v
EngineInvariant.v
EngineRules.v
EngineFills.v
EngineMatch.v
EngineLoop.v
EngineOrders.v
EngineEntry.v
EngineTheorems.v
Exchanges.v
ExchangeTheorems.v
Auction.v
AuctionRun.v
AuctionTheorems.v
EngineModify.v
EngineImplied.v
IntrusiveList.v
BookHeap.v
ObjectPool.v
Spread.v
SpreadTheorems.v
SpreadBook.v
SpreadInvariant.v
SpreadMatching.v
SpreadBookTheorems.v
SpreadImplied.v
RingBuffer.v
Wire.v
Doubles.v
Text.v
Fast.v
FastTheorems.v
Impact.v
ImpactTheorems.v
Sbe.v
ILink3Messages.v
ILink3.v
ILink3Theorems.v
ILink3Publisher.v
Mdp3Messages.v
Mdp3.v
Mdp3Theorems.v
Products.v
Gtbpr.v
ExchangeSimulator.v
SimulatorTheorems.v
Fix.v
FixGateway.v
FixTheorems.v
SimClient.v
FixDelivery.v
FixReports.v
Strategies.v
Trader.v
Journal.v
JournalTheorems.v
TestRunner.v
OrderbookState.v
Display.v
ObserverFeeds.v
Secdef.v
Tcp.v
Observer.v
Capture.v
Reconciler.v
VenueSimulators.v
VenueTheorems.v
SpreadSimulator.v
SpreadSimulatorTheorems.v
KrxSimulator.v
KrxTheorems.v
SimulatorDemo.v
