(* ===== verification/Prelude.v ===== *)
(** * The exchange simulator: a verification library

    The program simulates futures exchanges.  Its core is the header-only
    matching engine of [src/exchange-core/], a class template over the order
    and market-data listeners, the matching algorithm and the pool sizes, from
    which the exchange classes of [src/cme/], [src/ice/] and [src/krx/] are
    derived by CRTP.  A client sends requests ([new_order], [cancel_order],
    [modify_order], ...); the engine updates two price-ordered books of FIFO
    queues (live orders and parked stop orders), its object pools, its order
    index and its trackers, and reports everything by listener callbacks.
    A simulator per venue owns one engine for each product, walks them through
    the trading day and, beside them, keeps spread books whose orders trade
    against the engines of their legs.  Around them are the venues' wire formats: gateways that decode
    requests, and publishers, listeners themselves, that encode execution
    reports and market data.  On the other side are a trading client with its
    strategies, a market data observer, and a harness that records, replays and
    reconciles journals of a run.

    ** Files

    - [Prelude]: sums over lists, machine integer ranges, the state-and-error
      monad [M] with its total-correctness rules [wp], shared tactics.
    - [Types]: [types.h], [events.h] and the configuration and request structs
      of [matching_engine.h].
    - [MatchAlgo] ([match_algo.h]): the seven matching algorithms, and
      [MatchAlgorithm], the interface through which the engine uses one of
      them.  [MatchAlgoFacts], [MatchAlgoPriority]: every algorithm meets the
      interface.  [MatchAlgoTheorems]: what each algorithm promises.
    - [Books] ([orderbook.cc], [stop_book.cc]): a side of a book as a sorted
      list of levels, each a queue of orders; insertion, removal, update.
    - [Trackers] ([trade_registry.h], [position_tracker.h], [rate_tracker.h],
      [ohlcv.h], [order_persistence.h]): state, operations, properties.
    - [Engine] ([matching_engine.h]): the state record [engine], the class
      [Hooks] of the CRTP hooks, one definition per method.
    - [EngineInvariant]: the invariant [inv] and its preservation by the
      elementary moves.  [EngineRules]: proof rules of the helpers, and
      cancelling.  [EngineFills], [EngineMatch], [EngineLoop]:
      the fills of a level, self match prevention, the matching loop and
      [match_order]; here is [HooksOk], what the engine relies on in a derived
      class.  [EngineOrders]: insertion, stop parking and the stop cascade.
      [EngineEntry]: [new_order] as a whole.  [EngineTheorems]: the engine's
      guarantees and their instances.
    - [Exchanges] ([cme_exchange.h], [ice_exchange.h], [krx_exchange.h]): the
      members and hooks of the derived classes, each with its [HooksOk].
      [ExchangeTheorems]: what they promise.
    - [Auction], [AuctionRun], [AuctionTheorems]: the
      equilibrium price and [execute_auction].  [EngineModify]: [modify_order].
      [EngineImplied]: [apply_implied_fills].
    - [IntrusiveList] ([intrusive_list.h]), [BookHeap] ([orderbook.cc],
      [stop_book.cc]) and [ObjectPool] ([object_pool.h]): the same books and
      pools with their pointers, and the proofs that they hold and compute the
      lists of [Books] and the free lists of [Engine].
    - [Spread] ([spread_strategy.h], [implied_price_engine.h],
      [circular_guard.h], [spread_strategy_registry.h] of
      [src/exchange-sim/spread_book/]) and [SpreadTheorems]: strategies and
      implied prices.  [SpreadBook] ([spread_book.h]): the book of a spread
      instrument over the class [Outrights] of its three callbacks;
      [SpreadInvariant], [SpreadMatching], [SpreadBookTheorems] for its own
      orders, [SpreadImplied] for matching against the outrights, proved
      against the laws [OutrightsTotal].
    - [Products] ([cme_products.h], [cme_spreads.h], [ice_spreads.h],
      [krx_products.h], [krx_spreads.h], [spread_instrument_config.h]): the
      tables, row by row.  [ExchangeSimulator] ([exchange_simulator.h]): the
      map from instruments to engines; [SimulatorTheorems] its rules.
      [VenueSimulators] ([cme_simulator.h], [ice_simulator.h]) with
      [VenueTheorems]; [KrxSimulator] ([krx_simulator.h]) with [KrxTheorems].
      [SpreadSimulator] ([spread_simulator.h], [multi_leg_coordinator.h]):
      spread books over the engines that [EngineLookup] reaches;
      [SpreadSimulatorTheorems] shows that engines keep the laws
      [OutrightsTotal].  [SimulatorDemo]: the theorems about simulators at
      concrete markets, and concrete runs that show some of the findings.
    - [RingBuffer] ([spsc_ring_buffer.h]): the queue between threads, as atomic
      actions of two threads.
    - [Wire]: little-endian fields, packed structs, char arrays.
    - [Fast] and [FastTheorems] ([src/krx/fast/]): the KRX market data.
    - [Impact] and [ImpactTheorems] ([src/ice/impact/]): the ICE market data.
    - [Sbe] ([src/cme/codec/sbe_header.h] and the steps its users share):
      headers, optional fields, groups, and decoding with [take_struct],
      [take_block] and [take_group], each with the laws [recovers] and
      [in_bounds].  [ILink3Messages], [ILink3], [ILink3Theorems],
      [ILink3Publisher]: CME order entry.  [Mdp3Messages], [Mdp3],
      [Mdp3Theorems]: CME market data.
    - [Doubles]: binary64 arithmetic, the Standard Library's [SpecFloat] as an
      executable model with the error and exactness lemmas the code needs.
      [Text]: numbers as text, printed and read as the C library does.
    - [Gtbpr] ([gtbpr_match.h]): ICE's time weighted pro rata, in doubles.
    - [Fix] ([fix_parser.cc], [fix_encoder.h]), [FixTheorems]: FIX messages.
      [FixGateway] ([ice_fix_gateway.h], [krx_fix_gateway.h], the execution
      publishers): ICE and KRX order entry.  [FixDelivery]: what a client asked
      for is what the engine is called with.  [FixReports]: what the publisher
      reports is what the client reads.
    - [SimClient] ([src/tools/sim_client.h]): the client over the class
      [ProtocolCodec], with its CME and its ICE codec.  [Strategies]
      ([trading_strategy.h]); [Trader] ([exchange_trader.cc]): the main loop.
    - [Tcp] ([tcp_server.cc], [tcp_client.h]): framed messages over TCP, as a
      system that steps with the network.  [Capture] ([pcap_reader.h],
      [mdp3_replayer.h], [ilink3_replayer.h]): capture files and their replay.
    - [Journal] ([journal_parser.cc], [journal_writer.cc], [recorded_event.cc])
      and [JournalTheorems]: the text format of the harness.  [TestRunner]
      ([test_runner.cc], [build_entry] of the generators): recording and
      replay against the engine.
    - [OrderbookState] ([src/tools/orderbook_state.cc]): the book rebuilt from
      the events of an engine; what the composite and shared memory listeners
      pass on of them.
    - [Display] ([display_state.h] and the journal lines of
      [exchange_observer.cc]): five levels, ten trades and a price summary.
      [ObserverFeeds]: what the messages of each venue do to them, and recovery
      from a snapshot
      ([cme_recovery.h], [ice_recovery.h], [krx_recovery.h]).  [Secdef]
      ([cme_secdef.h], [ice_secdef.h], [krx_secdef.h]): discovery of the
      instruments.  [Observer] ([exchange_observer.cc]): options, choice of the
      instrument and the receive loop, its datagrams and the passing of a
      second being inputs, and what it shows.
    - [Reconciler] ([journal_reconciler.h]): the journals of the traders
      against that of the observer.

    ** How state and operations correspond

    An [Order*] is a [loc], the number of its slot in the order pool; an order
    that is linked into a book is a pair of slot and [Order] record in the
    queue of its [PriceLevel], so dereferencing a pointer is a search for its
    slot.  [BookHeap] justifies this: [book_rep] relates the nodes and their
    links to these lists, and every operation on the nodes refines the one on
    the lists.  The free slots of the pools, with the stale contents the C++ code
    leaves in them, are the lists [order_free] and [level_free];
    [order_index_] is the map [order_index].  A method is a computation in the
    monad [M (engine D)], over the members [D] of the derived class; the
    listener callbacks append to the field [trace].  The result [UB] stands for
    what the C++ code may not do (dereference null, unlink an order from a list
    that does not hold it, write past the fill array), [Fuel] for a loop cut
    off by its bound.

    Prices, quantities and times are [Z].  The arithmetic is that of the code,
    [Z.quot] and [Z.rem] for C++ division; [prorata_product_bounds] says where
    the 64-bit arithmetic of the algorithms leaves its range.

    ** Bounds on loops

    The unbounded loops of order entry are [match_order]'s and the stop cascade's.  Their
    fuel is compared with [loop_measure] (the order's remaining quantity and
    the number of orders facing it) and [stop_count]; [budget] bounds all of
    the matching one request can cause.  The theorems prove that fuel of this
    size is enough: a result is always produced.  The auction loops are bounded
    by the volume to trade, the walks along linked nodes by the number of nodes
    in memory, the implied matching loops by the quantity resting on the spread
    side, and the decoders of a byte stream by the length of the stream,
    since every message takes at least one byte; each is proved enough by the
    theorem about the loop.

    ** What the theorems show

    - Order entry: from every well-formed state [new_order] returns, without
      undefined behaviour, in a well-formed state; it accepts exactly the valid
      requests; it leaves the book uncrossed.
    - Matching: trades respect the limit, never exceed the order and account
      for what is left; fill-or-kill is all or nothing; immediate orders do
      not rest; the stop cascade ends and leaves no stop due.
    - Cancelling one order, an account's orders, all orders or the expired
      orders removes exactly these.
    - The matching algorithms allocate exactly the quantity there is to
      allocate, and keep the priority or the fairness each is named for.
    - The trackers count what they are told to count and limit what they are
      told to limit.
    - Auctions: the price is optimal in the code's four criteria, exactly the
      auction volume is traded at it, and without hidden quantity the book is
      uncrossed afterwards.  A modification is refused, applied in place or a
      cancel and new entry, and never loses the order.
    - Memory: the pointer-level books and pools refine the lists; no null
      pointer is followed and no slot is handed out twice.  The ring buffer is a
      bounded queue under every interleaving and across counter wrap-around.
    - Spreads: the computed tick and lot are the greatest and least possible;
      a spread order trades exactly what crosses it; implied matching ends and
      every fill is the largest feasible one, covered by leg fills at the
      outrights' best prices.  Over real engines, implied fills are accepted
      exactly when they are valid, every reachable state of a spread simulator
      is well formed, and the coordinator applies all of a batch or nothing.
    - Simulators: requests reach the engine of their instrument and no other;
      the order in which the instruments are visited does not matter; the
      opening and the closing of a market trade exactly the auction volumes and
      end in the session they announce, with no day order left at the end of
      the day; the two sessions of KRX are isolated from each other.
    - Wire formats: what an encoder wrote, a decoder recovers, from a message,
      a packet or a stream, and a truncated message is refused; a receiver of a
      feed sees the engine's events in order and numbered; decoders read within
      their buffers; a gateway makes the call the message asks for.
    - TCP and captures: the server's callback gets exactly the messages that were
      framed, however their bytes are cut; no capture file makes its reader read
      outside it; a capture of a CME feed replays completely.
    - FIX: a message comes back from its text, an altered byte is noticed; new
      orders, cancels and replaces reach the engines of both venues with exact
      price and quantity; reports are numbered without gaps and read by the
      client up to one unit of price, the loss of reading them as doubles.
    - GTBPR: the shares computed in doubles and the lots handed out after them
      add up exactly, within stated bounds on quantities and ages.
    - The client: a strategy's orders are on the tick grid, on their side of the
      reference and within the limits that are checked; no more messages go
      out in a second than the rate allows.
    - Journals: what is written is read back; a recorded run passes its replay,
      and only the events of that run do.  A reconciliation passes exactly when
      the journals of traders and observer agree on trades, levels, deletes and
      times.
    - The observers: as long as calls do not trade, a book rebuilt from the
      events is that of the engine; the CME observer shows exactly the
      published book, trades and price summary, recovers it from a snapshot and
      discovers exactly the products announced.
    - The exchanges: price bands, tiered limits, circuit breaker; and one
      configuration under which matching does not return.

    ** Not modelled

    The system calls of sockets, shared memory, files and clocks, terminal
    display and its log of transitions, the dashboard, latency and event logs,
    process glue and the command lines other than the observer's; the scenarios
    with which the journal generators are filled and the end-to-end runners.  GTBPR is not an instance of [MatchAlgorithm], since it needs bounds
    on sizes and ages that the interface does not ask for: the ICE simulator
    takes the algorithms of its two pools as parameters.  Of the C++ library,
    [strtod] is the correctly rounded one of the "C" locale, products and sums
    of doubles are not contracted, and the walk of a hash map is any
    permutation of its entries; random numbers are an arbitrary stream.  The
    journal file and the connection of the client are not modelled, only what
    it sends and how it reads answers.  Negating the least [int64_t] and
    assertions are outside the bounds the theorems ask for.  [SpreadFill] of [spread_events.h] is
    declared by the code and never used.  The host is little-endian; the deal number of the
    iMpact publisher does not wrap; the atomic actions of the ring buffer are
    sequentially consistent. *)

From stdpp Require Export prelude fin_maps gmap sorting.

#[global] Open Scope Z_scope.
#[global] Set Default Proof Using "Type".

(** ** Sums over lists

    Quantities are accumulated over queues, fill lists and accounts; every
    conservation statement of the development is phrased with [sum_by]. *)

Fixpoint sum_by {A} (f : A → Z) (l : list A) : Z :=
  match l with
  | [] => 0
  | x :: l' => f x + sum_by f l'
  end.

Lemma sum_by_nil {A} (f : A → Z) : sum_by f [] = 0.
Proof. reflexivity. Qed.

Lemma sum_by_cons {A} (f : A → Z) x l : sum_by f (x :: l) = f x + sum_by f l.
Proof. reflexivity. Qed.

Lemma sum_by_app {A} (f : A → Z) l k : sum_by f (l ++ k) = sum_by f l + sum_by f k.
Proof. induction l as [|x l IH]; cbn; [lia|]. rewrite IH. lia. Qed.

Lemma sum_by_nonneg {A} (f : A → Z) l : Forall (λ x, 0 <= f x) l → 0 <= sum_by f l.
Proof. induction 1; cbn; lia. Qed.

Lemma sum_by_ext {A} (f g : A → Z) l :
  Forall (λ x, f x = g x) l → sum_by f l = sum_by g l.
Proof. induction 1; cbn; lia. Qed.

Lemma sum_by_mono {A} (f g : A → Z) l :
  Forall (λ x, f x <= g x) l → sum_by f l <= sum_by g l.
Proof. induction 1; cbn; lia. Qed.

Lemma sum_by_perm {A} (f : A → Z) l k : l ≡ₚ k → sum_by f l = sum_by f k.
Proof. induction 1; cbn in *; lia. Qed.

#[global] Instance sum_by_proper {A} (f : A → Z) : Proper ((≡ₚ) ==> (=)) (sum_by f).
Proof. intros l k. apply sum_by_perm. Qed.

Lemma sum_by_fmap {A B} (f : B → Z) (g : A → B) l :
  sum_by f (g <$> l) = sum_by (λ x, f (g x)) l.
Proof. induction l as [|x l IH]; cbn in *; lia. Qed.

Lemma sum_by_add {A} (f g : A → Z) l :
  sum_by (λ x, f x + g x) l = sum_by f l + sum_by g l.
Proof. induction l as [|x l IH]; cbn in *; lia. Qed.

Lemma sum_by_elem_le {A} (f : A → Z) l x :
  Forall (λ y, 0 <= f y) l → x ∈ l → f x <= sum_by f l.
Proof.
  induction 1 as [|y l Hy Hl IH]; [intros Hx; inversion Hx|].
  apply sum_by_nonneg in Hl. intros Hx. apply elem_of_cons in Hx as [->|Hx]; cbn; [lia|].
  specialize (IH Hx). lia.
Qed.

Lemma sum_by_pos {A} (f : A → Z) l :
  Forall (λ x, 0 < f x) l → l ≠ [] → 0 < sum_by f l.
Proof.
  destruct l as [|x l]; [done|]. intros [Hx Hl]%Forall_cons _. cbn.
  assert (0 <= sum_by f l); [|lia].
  apply sum_by_nonneg. eapply Forall_impl; [exact Hl|]. cbn. lia.
Qed.

(** ** Lists up to order *)

Lemma elem_of_perm {A} (l k : list A) x : l ≡ₚ k → x ∈ l ↔ x ∈ k.
Proof. by intros ->. Qed.

Section filter_in.
Context {A : Type} (P Q : A → Prop) `{!∀ x, Decision (P x), !∀ x, Decision (Q x)}.

Lemma filter_ext_in (l : list A) :
  (∀ x, x ∈ l → P x ↔ Q x) → filter P l = filter Q l.
Proof.
  induction l as [|x l IH]; [done|]. intros Hl. rewrite !filter_cons.
  rewrite IH by (intros y Hy; apply Hl; by right).
  assert (P x ↔ Q x) by (apply Hl; by left).
  destruct (decide (P x)), (decide (Q x)); tauto.
Qed.

Lemma filter_all (l : list A) : (∀ x, x ∈ l → P x) → filter P l = l.
Proof.
  induction l as [|x l IH]; [done|]. intros Hl. rewrite filter_cons_True by (apply Hl; by left).
  f_equal. apply IH. intros y Hy. apply Hl. by right.
Qed.
End filter_in.

(** ** Machine integers

    [Price], [Quantity] and [Timestamp] are [int64_t], identifiers are
    [uint64_t]; the models compute in [Z] and the bounds theorems state when
    the C++ arithmetic stays in these ranges. *)

Definition int64_min : Z := - 2 ^ 63.
Definition int64_max : Z := 2 ^ 63 - 1.
Definition uint64_mod : Z := 2 ^ 64.
Definition in_int64 (z : Z) : Prop := int64_min <= z <= int64_max.
Definition in_uint64 (z : Z) : Prop := 0 <= z < uint64_mod.
Definition wrap_u64 (z : Z) : Z := z mod uint64_mod.
Definition wrap_s64 (z : Z) : Z := (z + 2 ^ 63) mod uint64_mod - 2 ^ 63.

Lemma wrap_u64_id z : in_uint64 z → wrap_u64 z = z.
Proof. apply Z.mod_small. Qed.

Lemma wrap_s64_id z : in_int64 z → wrap_s64 z = z.
Proof.
  unfold in_int64, wrap_s64, int64_min, int64_max, uint64_mod. intros ?.
  rewrite Z.mod_small; lia.
Qed.

(** ** Computations with failure

    [Fuel] is a loop cut off by its bound, [UB] is an access the C++ program
    is not allowed to make (null dereference, write past an array, unlinking
    a node from a list that does not hold it). *)

Inductive res (A : Type) : Type :=
  | Ok (a : A)
  | Fuel
  | UB.
Arguments Ok {A} a.
Arguments Fuel {A}.
Arguments UB {A}.

(** A stateful computation over the state type [S]. *)
Definition M (S A : Type) : Type := S → res (A * S).

#[global] Instance M_ret {S} : MRet (M S) := λ A a s, Ok (a, s).
#[global] Instance M_bind {S} : MBind (M S) := λ A B k m s,
  match m s with
  | Ok (a, s') => k a s'
  | Fuel => Fuel
  | UB => UB
  end.

Definition get {S} : M S S := λ s, Ok (s, s).
Definition modify {S} (f : S → S) : M S unit := λ s, Ok (tt, f s).
Definition ub {S A} : M S A := λ _, UB.
Definition out_of_fuel {S A} : M S A := λ _, Fuel.
Definition deref {S A} (o : option A) : M S A :=
  match o with Some a => mret a | None => ub end.

Fixpoint forM_ {S A} (l : list A) (body : A → M S unit) : M S unit :=
  match l with
  | [] => mret tt
  | x :: l' => body x ;; forM_ l' body
  end.

(** Total correctness: [m] returns from [s] and its result satisfies [Q]. *)
Definition wp {S A} (m : M S A) (Q : A → S → Prop) (s : S) : Prop :=
  match m s with Ok (a, s') => Q a s' | _ => False end.

Section wp_rules.
Context {S : Type}.

Lemma wp_ret {A} (a : A) (Q : A → S → Prop) s : Q a s → wp (mret a) Q s.
Proof. done. Qed.

Lemma wp_bind {A B} (m : M S A) (k : A → M S B) Q s :
  wp m (λ a, wp (k a) Q) s → wp (m ≫= k) Q s.
Proof.
  unfold wp, mbind, M_bind. by destruct (m s) as [[a s']| |].
Qed.

Lemma wp_bind_inv {A B} (m : M S A) (k : A → M S B) Q s :
  wp (m ≫= k) Q s → wp m (λ a, wp (k a) Q) s.
Proof. unfold wp, mbind, M_bind. by destruct (m s) as [[a s']| |]. Qed.

Lemma wp_get (Q : S → S → Prop) s : Q s s → wp get Q s.
Proof. done. Qed.

Lemma wp_modify f (Q : unit → S → Prop) s : Q tt (f s) → wp (modify f) Q s.
Proof. done. Qed.

Lemma wp_mono {A} (m : M S A) (Q R : A → S → Prop) s :
  wp m Q s → (∀ a s', Q a s' → R a s') → wp m R s.
Proof. unfold wp. destruct (m s) as [[a s']| |]; auto. Qed.

Lemma wp_deref {A} (o : option A) (a : A) (Q : A → S → Prop) s :
  o = Some a → Q a s → wp (deref o) Q s.
Proof. by intros ->. Qed.

Lemma wp_conj {A} (m : M S A) (Q R : A → S → Prop) s :
  wp m Q s → wp m R s → wp m (λ a s', Q a s' ∧ R a s') s.
Proof. unfold wp. by destruct (m s) as [[a s']| |]. Qed.

(** A loop over a list establishes any invariant its body preserves. *)
Lemma wp_forM {A} (l : list A) (body : A → M S unit) (I : list A → S → Prop) s :
  I l s →
  (∀ x l' s', I (x :: l') s' → wp (body x) (λ _ s'', I l' s'') s') →
  wp (forM_ l body) (λ _ s', I [] s') s.
Proof.
  intros HI Hbody. revert s HI.
  induction l as [|x l IH]; intros s HI; cbn; [done|].
  apply wp_bind. eapply wp_mono; [by apply Hbody|]. cbn. eauto.
Qed.

Lemma wp_eq {A} (m : M S A) (Q : A → S → Prop) s :
  wp m Q s → ∃ a s', m s = Ok (a, s') ∧ Q a s'.
Proof. unfold wp. destruct (m s) as [[a s']| |]; [eauto|done..]. Qed.

Lemma wp_eq_unit (m : M S unit) (Q : S → Prop) s :
  wp m (λ _, Q) s → ∃ s', m s = Ok (tt, s') ∧ Q s'.
Proof. intros H. destruct (wp_eq _ _ _ H) as ([] & s' & ? & ?). by exists s'. Qed.
End wp_rules.

(** ** Tactics *)

(** Case analysis on every boolean test of the goal or of hypothesis [H],
    turning comparisons of integers into propositions. *)
Ltac zbool :=
  repeat match goal with
  | H : _ && _ = true |- _ => apply andb_true_iff in H as [? ?]
  | H : _ || _ = false |- _ => apply orb_false_iff in H as [? ?]
  | H : negb _ = true |- _ => apply negb_true_iff in H
  | H : negb _ = false |- _ => apply negb_false_iff in H
  | H : (_ <? _) = true |- _ => apply Z.ltb_lt in H
  | H : (_ <? _) = false |- _ => apply Z.ltb_ge in H
  | H : (_ <=? _) = true |- _ => apply Z.leb_le in H
  | H : (_ <=? _) = false |- _ => apply Z.leb_gt in H
  | H : (_ >? _) = true |- _ => rewrite Z.gtb_ltb in H; apply Z.ltb_lt in H
  | H : (_ >? _) = false |- _ => rewrite Z.gtb_ltb in H; apply Z.ltb_ge in H
  | H : (_ >=? _) = true |- _ => rewrite Z.geb_leb in H; apply Z.leb_le in H
  | H : (_ >=? _) = false |- _ => rewrite Z.geb_leb in H; apply Z.leb_gt in H
  | H : (_ =? _) = true |- _ => apply Z.eqb_eq in H
  | H : (_ =? _) = false |- _ => apply Z.eqb_neq in H
  | H : bool_decide _ = true |- _ => apply bool_decide_eq_true in H
  | H : bool_decide _ = false |- _ => apply bool_decide_eq_false in H
  end.

Tactic Notation "case_if" "as" ident(H) :=
  match goal with
  | |- context [if ?b then _ else _] =>
      match type of b with bool => destruct b eqn:H end
  end.

Ltac case_ifs := repeat (let H := fresh "Hif" in case_if as H; zbool).

(** Step through a monadic program from its first statement. *)
Ltac wp_step :=
  lazymatch goal with
  | |- wp (_ ≫= _) _ _ => apply wp_bind
  | |- wp (mret _) _ _ => apply wp_ret
  | |- wp get _ _ => apply wp_get; cbv beta
  | |- wp (modify _) _ _ => apply wp_modify; cbv beta
  end.

Ltac wp_steps := repeat wp_step.

Create HintDb exch.
#[export] Hint Resolve sum_by_nonneg : exch.
