(* ===== verification/Types.v ===== *)
(** * Data of the engine: [types.h], [events.h] and the request structs

    Enumerations, the [Order] and [FillResult] structs, the event structs the
    listeners receive, and the configuration and request structs declared at
    the head of [matching_engine.h].  An [Order*] or [PriceLevel*] is the
    number of its pool slot ([loc]).  The list hooks [prev]/[next] and the
    back-pointer [level] are not fields here: they are the heap cells of
    [IntrusiveList] and [BookHeap], and the position in the owning queue in
    [Books]. *)

From S2P Require Import Prelude.

Abbreviation Price := Z (only parsing).
Abbreviation Quantity := Z (only parsing).
Abbreviation OrderId := Z (only parsing).
Abbreviation TradeId := Z (only parsing).
Abbreviation Timestamp := Z (only parsing).
Abbreviation loc := nat (only parsing).

Definition PRICE_SCALE : Z := 10000.

Inductive Side : Type :=
  | Buy
  | Sell.
#[global] Instance Side_eq_dec : EqDecision Side.
Proof. solve_decision. Defined.

Inductive OrderType : Type :=
  | Limit
  | Market
  | Stop
  | StopLimit.
#[global] Instance OrderType_eq_dec : EqDecision OrderType.
Proof. solve_decision. Defined.

Inductive TimeInForce : Type :=
  | DAY
  | GTC
  | IOC
  | FOK
  | GTD.
#[global] Instance TimeInForce_eq_dec : EqDecision TimeInForce.
Proof. solve_decision. Defined.

Inductive SmpAction : Type :=
  | CancelNewest
  | CancelOldest
  | CancelBoth
  | Decrement
  | SmpNone.
#[global] Instance SmpAction_eq_dec : EqDecision SmpAction.
Proof. solve_decision. Defined.

Inductive ModifyPolicy : Type :=
  | CancelReplace
  | AmendDown
  | RejectModify.
#[global] Instance ModifyPolicy_eq_dec : EqDecision ModifyPolicy.
Proof. solve_decision. Defined.

Inductive SessionState : Type :=
  | Closed
  | PreOpen
  | OpeningAuction
  | Continuous
  | PreClose
  | ClosingAuction
  | Halt
  | VolatilityAuction
  | LockLimit.
#[global] Instance SessionState_eq_dec : EqDecision SessionState.
Proof. solve_decision. Defined.

Inductive RejectReason : Type :=
  | PoolExhausted
  | InvalidPrice
  | InvalidQuantity
  | InvalidTif
  | InvalidSide
  | UnknownOrder
  | PriceBandViolation
  | RLevelPoolExhausted
  | MaxOrderSizeExceeded
  | RateThrottled
  | LockLimitUp
  | LockLimitDown
  | PositionLimitExceeded
  | RExchangeSpecific.
#[global] Instance RejectReason_eq_dec : EqDecision RejectReason.
Proof. solve_decision. Defined.

Inductive CancelReason : Type :=
  | UserRequested
  | IOCRemainder
  | FOKFailed
  | Expired
  | SelfMatchPrevention
  | CLevelPoolExhausted
  | MassCancelled.
#[global] Instance CancelReason_eq_dec : EqDecision CancelReason.
Proof. solve_decision. Defined.

Inductive BustReason : Type :=
  | ErroneousTrade
  | SystemError
  | Regulatory
  | BExchangeSpecific.
#[global] Instance BustReason_eq_dec : EqDecision BustReason.
Proof. solve_decision. Defined.

Definition opposite (s : Side) : Side :=
  match s with Buy => Sell | Sell => Buy end.

(** The [Order] struct without its list hooks. *)
Record Order : Type := mkOrder {
  o_id : OrderId;
  o_client_order_id : Z;
  o_account_id : Z;
  o_price : Price;
  o_quantity : Quantity;
  o_filled_quantity : Quantity;
  o_remaining_quantity : Quantity;
  o_side : Side;
  o_type : OrderType;
  o_tif : TimeInForce;
  o_timestamp : Timestamp;
  o_gtd_expiry : Timestamp;
  o_display_qty : Quantity;
  o_total_qty : Quantity;
  o_is_market_maker : bool;
  o_is_top_order : bool
}.

Definition set_o_price (v : Price) (r : Order) : Order :=
  mkOrder (r.(o_id)) (r.(o_client_order_id)) (r.(o_account_id)) v (r.(o_quantity)) (r.(o_filled_quantity)) (r.(o_remaining_quantity)) (r.(o_side)) (r.(o_type)) (r.(o_tif)) (r.(o_timestamp)) (r.(o_gtd_expiry)) (r.(o_display_qty)) (r.(o_total_qty)) (r.(o_is_market_maker)) (r.(o_is_top_order)).

Definition set_o_quantity (v : Quantity) (r : Order) : Order :=
  mkOrder (r.(o_id)) (r.(o_client_order_id)) (r.(o_account_id)) (r.(o_price)) v (r.(o_filled_quantity)) (r.(o_remaining_quantity)) (r.(o_side)) (r.(o_type)) (r.(o_tif)) (r.(o_timestamp)) (r.(o_gtd_expiry)) (r.(o_display_qty)) (r.(o_total_qty)) (r.(o_is_market_maker)) (r.(o_is_top_order)).

Definition set_o_filled_quantity (v : Quantity) (r : Order) : Order :=
  mkOrder (r.(o_id)) (r.(o_client_order_id)) (r.(o_account_id)) (r.(o_price)) (r.(o_quantity)) v (r.(o_remaining_quantity)) (r.(o_side)) (r.(o_type)) (r.(o_tif)) (r.(o_timestamp)) (r.(o_gtd_expiry)) (r.(o_display_qty)) (r.(o_total_qty)) (r.(o_is_market_maker)) (r.(o_is_top_order)).

Definition set_o_remaining_quantity (v : Quantity) (r : Order) : Order :=
  mkOrder (r.(o_id)) (r.(o_client_order_id)) (r.(o_account_id)) (r.(o_price)) (r.(o_quantity)) (r.(o_filled_quantity)) v (r.(o_side)) (r.(o_type)) (r.(o_tif)) (r.(o_timestamp)) (r.(o_gtd_expiry)) (r.(o_display_qty)) (r.(o_total_qty)) (r.(o_is_market_maker)) (r.(o_is_top_order)).

Definition set_o_type (v : OrderType) (r : Order) : Order :=
  mkOrder (r.(o_id)) (r.(o_client_order_id)) (r.(o_account_id)) (r.(o_price)) (r.(o_quantity)) (r.(o_filled_quantity)) (r.(o_remaining_quantity)) (r.(o_side)) v (r.(o_tif)) (r.(o_timestamp)) (r.(o_gtd_expiry)) (r.(o_display_qty)) (r.(o_total_qty)) (r.(o_is_market_maker)) (r.(o_is_top_order)).

Definition set_o_timestamp (v : Timestamp) (r : Order) : Order :=
  mkOrder (r.(o_id)) (r.(o_client_order_id)) (r.(o_account_id)) (r.(o_price)) (r.(o_quantity)) (r.(o_filled_quantity)) (r.(o_remaining_quantity)) (r.(o_side)) (r.(o_type)) (r.(o_tif)) v (r.(o_gtd_expiry)) (r.(o_display_qty)) (r.(o_total_qty)) (r.(o_is_market_maker)) (r.(o_is_top_order)).

(** [order->filled_quantity += q; order->remaining_quantity -= q]. *)
Definition fill_order (q : Quantity) (o : Order) : Order :=
  set_o_remaining_quantity (o.(o_remaining_quantity) - q)
    (set_o_filled_quantity (o.(o_filled_quantity) + q) o).

(** A [PriceLevel] together with the orders its [head]/[tail] list links, in
    list order; [lv_slot] is the address of the struct. *)
Record PriceLevel : Type := mkLevel {
  lv_slot : loc;
  lv_price : Price;
  lv_total_quantity : Quantity;
  lv_order_count : Z;
  lv_queue : list (loc * Order)
}.

Definition set_lv_total_quantity (v : Quantity) (r : PriceLevel) : PriceLevel :=
  mkLevel (r.(lv_slot)) (r.(lv_price)) v (r.(lv_order_count)) (r.(lv_queue)).

Definition set_lv_order_count (v : Z) (r : PriceLevel) : PriceLevel :=
  mkLevel (r.(lv_slot)) (r.(lv_price)) (r.(lv_total_quantity)) v (r.(lv_queue)).

Definition set_lv_queue (v : list (loc * Order)) (r : PriceLevel) : PriceLevel :=
  mkLevel (r.(lv_slot)) (r.(lv_price)) (r.(lv_total_quantity)) (r.(lv_order_count)) v.

Record FillResult : Type := mkFill {
  f_resting_order : loc;
  f_price : Price;
  f_quantity : Quantity;
  f_resting_remaining : Quantity
}.

Definition set_f_quantity (v : Quantity) (r : FillResult) : FillResult :=
  mkFill (r.(f_resting_order)) (r.(f_price)) v (r.(f_resting_remaining)).

Definition set_f_resting_remaining (v : Quantity) (r : FillResult) : FillResult :=
  mkFill (r.(f_resting_order)) (r.(f_price)) (r.(f_quantity)) v.

(** ** Events

    One constructor per event struct, with the struct's fields in order.  The
    engine calls its order listener and its market-data listener
    synchronously; a trace is the list of all calls in the order made. *)
Inductive DepthAction : Type := DepthAdd | DepthUpd | DepthRemove.
Inductive BookAction : Type := ActAdd | ActModify | ActCancel | ActFill.

Inductive event : Type :=
  | OrderAccepted (id : OrderId) (client_order_id : Z) (ts : Timestamp)
  | OrderRejected (client_order_id : Z) (ts : Timestamp) (reason : RejectReason)
  | OrderFilled (aggressor_id resting_id : OrderId) (price : Price) (quantity : Quantity) (ts : Timestamp)
  | OrderPartiallyFilled (aggressor_id resting_id : OrderId) (price : Price) (quantity aggressor_remaining resting_remaining : Quantity) (ts : Timestamp)
  | OrderCancelled (id : OrderId) (ts : Timestamp) (reason : CancelReason)
  | OrderCancelRejected (id : OrderId) (client_order_id : Z) (ts : Timestamp) (reason : RejectReason)
  | OrderModified (id : OrderId) (client_order_id : Z) (new_price : Price) (new_qty : Quantity) (ts : Timestamp)
  | OrderModifyRejected (id : OrderId) (client_order_id : Z) (ts : Timestamp) (reason : RejectReason)
  | TradeBusted (trade_id : TradeId) (aggressor_id resting_id : OrderId) (price : Price) (quantity : Quantity) (reason : BustReason) (ts : Timestamp)
  | TopOfBook (best_bid : Price) (bid_qty : Quantity) (best_ask : Price) (ask_qty : Quantity) (ts : Timestamp)
  | DepthUpdate (side : Side) (price : Price) (total_qty : Quantity) (order_count : Z) (action : DepthAction) (ts : Timestamp)
  | OrderBookAction (id : OrderId) (side : Side) (price : Price) (qty : Quantity) (action : BookAction) (ts : Timestamp)
  | Trade (price : Price) (quantity : Quantity) (aggressor_id resting_id : OrderId) (aggressor_side : Side) (ts : Timestamp)
  | MarketStatus (state : SessionState) (ts : Timestamp)
  | IndicativePrice (price : Price) (matched_volume buy_surplus sell_surplus : Quantity) (ts : Timestamp)
  | LockLimitTriggered (side : Side) (limit_price last_trade_price : Price) (ts : Timestamp).
#[global] Instance DepthAction_eq_dec : EqDecision DepthAction.
Proof. solve_decision. Defined.
#[global] Instance BookAction_eq_dec : EqDecision BookAction.
Proof. solve_decision. Defined.
#[global] Instance event_eq_dec : EqDecision event.
Proof. solve_decision. Defined.

(** ** Configuration and requests *)

Record ThrottleConfig : Type := mkThrottle {
  max_messages_per_interval : Z;
  interval_ns : Z
}.

Record VolatilityConfig : Type := mkVolatility {
  vi_threshold_ticks : Z;
  vi_auction_duration_ns : Z
}.

Record EngineConfig : Type := mkConfig {
  tick_size : Price;
  lot_size : Quantity;
  price_band_low : Price;
  price_band_high : Price;
  max_order_size : Quantity;
  daily_limit_high : Price;
  daily_limit_low : Price;
  throttle : ThrottleConfig;
  vi : VolatilityConfig
}.

Definition set_daily_limit_high (v : Price) (r : EngineConfig) : EngineConfig :=
  mkConfig (r.(tick_size)) (r.(lot_size)) (r.(price_band_low)) (r.(price_band_high)) (r.(max_order_size)) v (r.(daily_limit_low)) (r.(throttle)) (r.(vi)).

Definition set_daily_limit_low (v : Price) (r : EngineConfig) : EngineConfig :=
  mkConfig (r.(tick_size)) (r.(lot_size)) (r.(price_band_low)) (r.(price_band_high)) (r.(max_order_size)) (r.(daily_limit_high)) v (r.(throttle)) (r.(vi)).

Record OrderRequest : Type := mkRequest {
  r_client_order_id : Z;
  r_account_id : Z;
  r_side : Side;
  r_type : OrderType;
  r_tif : TimeInForce;
  r_price : Price;
  r_quantity : Quantity;
  r_stop_price : Price;
  r_timestamp : Timestamp;
  r_gtd_expiry : Timestamp;
  r_display_qty : Quantity;
  r_is_market_maker : bool
}.

Record ModifyRequest : Type := mkModify {
  m_order_id : OrderId;
  m_client_order_id : Z;
  m_new_price : Price;
  m_new_quantity : Quantity;
  m_timestamp : Timestamp
}.

Record AuctionResult : Type := mkAuction {
  a_price : Price;
  a_matched_volume : Quantity;
  a_buy_surplus : Quantity;
  a_sell_surplus : Quantity;
  a_has_price : bool
}.

Record LegFill : Type := mkLegFill {
  leg_order_id : OrderId;
  leg_fill_price : Price;
  leg_fill_qty : Quantity
}.

