(* ===== verification/MatchAlgo.v ===== *)
(** * Matching algorithms at one price level: [match_algo.h]

    Every [match] of [match_algo.h] as a function of the level, the
    aggressor's remaining quantity and the fills recorded so far; it returns
    the updated queue, the remaining quantity and the fill list, or [None]
    where the C++ code divides by zero.  [match_ok] is the contract the
    matching engine relies on; the class [MatchAlgorithm] packages an
    algorithm with a proof of it. *)

From S2P Require Import Prelude Types.

Abbreviation entry := (nat * Order)%type (only parsing).
Abbreviation match_out := (list entry * Z * list FillResult)%type (only parsing).

(** ** The fill array *)

(** [results[i].resting_order == order] for some [i]. *)
Definition has_fill (l : loc) (fs : list FillResult) : bool :=
  existsb (λ f, f.(f_resting_order) =? l)%nat fs.

(** The search loops that add [q] to the first entry of an order. *)
Fixpoint bump_fill (l : loc) (q : Quantity) (fs : list FillResult) : list FillResult :=
  match fs with
  | [] => []
  | f :: fs' =>
      if (f.(f_resting_order) =? l)%nat
      then set_f_quantity (f.(f_quantity) + q) f :: fs'
      else f :: bump_fill l q fs'
  end.

(** [already]: the quantity of the first entry of an order, 0 if none. *)
Fixpoint first_qty (l : loc) (fs : list FillResult) : Quantity :=
  match fs with
  | [] => 0
  | f :: fs' => if (f.(f_resting_order) =? l)%nat then f.(f_quantity) else first_qty l fs'
  end.

(** Add [q] to the order's entry, or open a new entry for it. *)
Definition add_fill (price : Price) (l : loc) (q : Quantity) (fs : list FillResult)
    : list FillResult :=
  if has_fill l fs then bump_fill l q fs else fs ++ [mkFill l price q 0].

(** Write through an [Order*] that points into the queue. *)
Definition update_entry (l : loc) (g : Order → Order) (q : list entry) : list entry :=
  (λ e, if (e.1 =? l)%nat then (e.1, g e.2) else e) <$> q.

(** Read through an [Order*] that points into the queue. *)
Fixpoint find_entry (l : loc) (q : list entry) : option Order :=
  match q with
  | [] => None
  | (k, o) :: q' => if (k =? l)%nat then Some o else find_entry l q'
  end.

Definition entry_remaining (l : loc) (q : list entry) : Quantity :=
  match find_entry l q with Some o => o.(o_remaining_quantity) | None => 0 end.

(** ** FifoMatch *)

Fixpoint fifo_loop (price : Price) (q : list entry) (remaining : Quantity)
    (results : list FillResult) : match_out :=
  match q with
  | [] => ([], remaining, results)
  | (l, o) :: q' =>
      if remaining >? 0 then
        let fill_qty := Z.min remaining o.(o_remaining_quantity) in
        let o' := fill_order fill_qty o in
        let f := mkFill l price fill_qty o'.(o_remaining_quantity) in
        let '(q'', r, res) := fifo_loop price q' (remaining - fill_qty) (results ++ [f]) in
        ((l, o') :: q'', r, res)
      else ((l, o) :: q', remaining, results)
  end.

Definition FifoMatch (level : PriceLevel) (remaining : Quantity)
    (results : list FillResult) : option match_out :=
  Some (fifo_loop level.(lv_price) level.(lv_queue) remaining results).

(** ** ProRataMatch *)

(** [if (remaining <= 0 || level.head == nullptr) return;] *)
Definition nothing_to_do (level : PriceLevel) (remaining : Quantity) : bool :=
  (remaining <=? 0) || match level.(lv_queue) with [] => true | _ => false end.

(** Phase 1: the orders whose proportional share is accepted by [keep]. *)
Fixpoint base_alloc (price : Price) (to_fill total : Quantity) (keep : Quantity → bool)
    (q : list entry) : list FillResult :=
  match q with
  | [] => []
  | (l, o) :: q' =>
      let alloc := Z.quot (o.(o_remaining_quantity) * to_fill) total in
      if keep alloc
      then mkFill l price alloc 0 :: base_alloc price to_fill total keep q'
      else base_alloc price to_fill total keep q'
  end.

(** Phase 2: one lot each, in list order, while any remainder is left. *)
Fixpoint lot_remainder (price : Price) (q : list entry) (remainder : Quantity)
    (fs : list FillResult) : list FillResult :=
  match q with
  | [] => fs
  | (l, _) :: q' =>
      if remainder >? 0 then
        lot_remainder price q' (remainder - 1) (add_fill price l 1 fs)
      else fs
  end.

(** Phase 3: apply the fills to the orders, in result order. *)
Fixpoint apply_results (q : list entry) (fs : list FillResult)
    : list entry * list FillResult :=
  match fs with
  | [] => (q, [])
  | f :: fs' =>
      let l := f.(f_resting_order) in
      let q1 := update_entry l (fill_order f.(f_quantity)) q in
      let f1 := set_f_resting_remaining (entry_remaining l q1) f in
      let '(q2, fs2) := apply_results q1 fs' in (q2, f1 :: fs2)
  end.

Definition ProRataMatch (level : PriceLevel) (remaining : Quantity)
    (results : list FillResult) : option match_out :=
  let q := level.(lv_queue) in
  let total := level.(lv_total_quantity) in
  if nothing_to_do level remaining then Some (q, remaining, results)
  else if total =? 0 then None
  else
    let to_fill := Z.min remaining total in
    let base := base_alloc level.(lv_price) to_fill total (λ a, a >? 0) q in
    let allocated := sum_by f_quantity base in
    let fs := lot_remainder level.(lv_price) q (to_fill - allocated) base in
    let '(q', fs') := apply_results q fs in
    Some (q', remaining - to_fill, results ++ fs').

(** ** ThresholdProRataMatch *)

(** Phase 2 of the threshold variant: the remainder goes in list order, each
    order taking as much as it still has room for. *)
Fixpoint fifo_remainder (price : Price) (q : list entry) (rem : Quantity)
    (fs : list FillResult) : list FillResult :=
  match q with
  | [] => fs
  | (l, o) :: q' =>
      if rem >? 0 then
        let fifo_fill := Z.min rem o.(o_remaining_quantity) in
        if has_fill l fs then
          let cap := o.(o_remaining_quantity) - first_qty l fs in
          let add := Z.min fifo_fill cap in
          fifo_remainder price q' (rem - add) (bump_fill l add fs)
        else if fifo_fill >? 0 then
          fifo_remainder price q' (rem - fifo_fill) (fs ++ [mkFill l price fifo_fill 0])
        else fifo_remainder price q' rem fs
      else fs
  end.

Definition ThresholdProRataMatch (MinThreshold : Quantity) (level : PriceLevel)
    (remaining : Quantity) (results : list FillResult) : option match_out :=
  let q := level.(lv_queue) in
  let total := level.(lv_total_quantity) in
  if nothing_to_do level remaining then Some (q, remaining, results)
  else if total =? 0 then None
  else
    let to_fill := Z.min remaining total in
    let base := base_alloc level.(lv_price) to_fill total
                  (λ a, (a >=? MinThreshold) && (a >? 0)) q in
    let allocated := sum_by f_quantity base in
    let fs := fifo_remainder level.(lv_price) q (to_fill - allocated) base in
    let '(q', fs') := apply_results q fs in
    Some (q', remaining - to_fill, results ++ fs').

(** ** AllocationMatch *)

(** The inner scan: the order of largest (original) remaining quantity among
    those with capacity left, the first of them on ties. *)
Fixpoint largest_with_capacity (q : list entry) (fs : list FillResult)
    (best : option loc) (best_qty : Quantity) : option loc :=
  match q with
  | [] => best
  | (l, o) :: q' =>
      let already := first_qty l fs in
      let capacity := o.(o_remaining_quantity) - already in
      if (capacity >? 0) && (o.(o_remaining_quantity) >? best_qty)
      then largest_with_capacity q' fs (Some l) o.(o_remaining_quantity)
      else largest_with_capacity q' fs best best_qty
  end.

(** Phase 2: [while (remainder > 0)], one lot per turn; the counter is the
    remainder itself. *)
Fixpoint largest_remainder (n : nat) (price : Price) (q : list entry)
    (fs : list FillResult) : list FillResult :=
  match n with
  | O => fs
  | S n' =>
      match largest_with_capacity q fs None (-1) with
      | None => fs
      | Some l => largest_remainder n' price q (add_fill price l 1 fs)
      end
  end.

Definition AllocationMatch (level : PriceLevel) (remaining : Quantity)
    (results : list FillResult) : option match_out :=
  let q := level.(lv_queue) in
  let total := level.(lv_total_quantity) in
  if nothing_to_do level remaining then Some (q, remaining, results)
  else if total =? 0 then None
  else
    let to_fill := Z.min remaining total in
    let base := base_alloc level.(lv_price) to_fill total (λ a, a >? 0) q in
    let allocated := sum_by f_quantity base in
    let fs := largest_remainder (Z.to_nat (to_fill - allocated)) level.(lv_price) q base in
    let '(q', fs') := apply_results q fs in
    Some (q', remaining - to_fill, results ++ fs').

(** ** SplitFifoProRataMatch *)

(** Phase 1: first-in-first-out over [fifo_left]; zero fills are skipped. *)
Fixpoint split_fifo (price : Price) (q : list entry) (fifo_left : Quantity)
    (results : list FillResult) : list entry * list FillResult :=
  match q with
  | [] => ([], results)
  | (l, o) :: q' =>
      if fifo_left >? 0 then
        let fill := Z.min fifo_left o.(o_remaining_quantity) in
        if fill >? 0 then
          let o' := fill_order fill o in
          let f := mkFill l price fill o'.(o_remaining_quantity) in
          let '(q'', res) := split_fifo price q' (fifo_left - fill) (results ++ [f]) in
          ((l, o') :: q'', res)
        else
          let '(q'', res) := split_fifo price q' fifo_left results in ((l, o) :: q'', res)
      else ((l, o) :: q', results)
  end.

Definition live_entries (q : list entry) : list entry :=
  filter (λ e : entry, 0 < e.2.(o_remaining_quantity)) q.

(** The pro-rata remainder of the split variant: in list order, over orders
    with quantity left, up to each order's free capacity. *)
Fixpoint split_remainder (price : Price) (q : list entry) (rem : Quantity)
    (fs : list FillResult) : list FillResult :=
  match q with
  | [] => fs
  | (l, o) :: q' =>
      if rem >? 0 then
        if o.(o_remaining_quantity) >? 0 then
          let already := first_qty l fs in
          let cap := o.(o_remaining_quantity) - already in
          let add := Z.min rem cap in
          if add >? 0
          then split_remainder price q' (rem - add) (add_fill price l add fs)
          else split_remainder price q' rem fs
        else split_remainder price q' rem fs
      else fs
  end.

Definition SplitFifoProRataMatch (FifoPct : Z) (level : PriceLevel)
    (remaining : Quantity) (results : list FillResult) : option match_out :=
  let q := level.(lv_queue) in
  if nothing_to_do level remaining then Some (q, remaining, results)
  else
    let price := level.(lv_price) in
    let to_fill := Z.min remaining level.(lv_total_quantity) in
    let fifo_qty := Z.quot (to_fill * FifoPct) 100 in
    let prorata_qty := to_fill - fifo_qty in
    let '(q1, res1) := split_fifo price q fifo_qty results in
    let level_remaining := sum_by (λ e : entry, e.2.(o_remaining_quantity)) q1 in
    if (prorata_qty >? 0) && (level_remaining >? 0) then
      let pr_to_fill := Z.min prorata_qty level_remaining in
      let base := base_alloc price pr_to_fill level_remaining (λ a, a >? 0)
                    (live_entries q1) in
      let pr_allocated := sum_by f_quantity base in
      let fs := split_remainder price q1 (pr_to_fill - pr_allocated) base in
      let '(q2, fs') := apply_results q1 fs in
      Some (q2, remaining - to_fill, res1 ++ fs')
    else Some (q1, remaining - to_fill, res1).

(** ** FifoLmmMatch *)

(** Total resting quantity of market-maker orders at the level. *)
Definition mm_resting (q : list entry) : Quantity :=
  sum_by (λ e : entry, if e.2.(o_is_market_maker) then e.2.(o_remaining_quantity) else 0) q.

(** Merge a fill into the first entry of the order. *)
Fixpoint merge_fill (l : loc) (fill rem : Quantity) (fs : list FillResult) : list FillResult :=
  match fs with
  | [] => []
  | f :: fs' =>
      if (f.(f_resting_order) =? l)%nat
      then mkFill f.(f_resting_order) f.(f_price) (f.(f_quantity) + fill) rem :: fs'
      else f :: merge_fill l fill rem fs'
  end.

(** The backward search [for (i = count; i > 0; --i)]. *)
Definition merge_last (l : loc) (fill rem : Quantity) (fs : list FillResult) : list FillResult :=
  reverse (merge_fill l fill rem (reverse fs)).

(** Merge into the entry the search [merge] finds, or open a new one. *)
Definition record_fill (merge : loc → Quantity → Quantity → list FillResult → list FillResult)
    (price : Price) (l : loc) (fill rem : Quantity) (fs : list FillResult) : list FillResult :=
  if has_fill l fs then merge l fill rem fs else fs ++ [mkFill l price fill rem].

(** Priority pass of [FifoLmmMatch]: market makers only, in list order. *)
Fixpoint lmm_priority (price : Price) (q : list entry) (mm_left remaining : Quantity)
    (results : list FillResult) : match_out :=
  match q with
  | [] => ([], remaining, results)
  | (l, o) :: q' =>
      if mm_left >? 0 then
        if o.(o_is_market_maker) then
          let fill := Z.min mm_left o.(o_remaining_quantity) in
          let o' := fill_order fill o in
          let f := mkFill l price fill o'.(o_remaining_quantity) in
          let '(q'', r, res) :=
            lmm_priority price q' (mm_left - fill) (remaining - fill) (results ++ [f]) in
          ((l, o') :: q'', r, res)
        else
          let '(q'', r, res) := lmm_priority price q' mm_left remaining results in
          ((l, o) :: q'', r, res)
      else ((l, o) :: q', remaining, results)
  end.

(** Closing pass of both LMM variants: every order with quantity left, in
    list order, merging with an earlier fill of the same order. *)
Fixpoint merge_fifo (merge : loc → Quantity → Quantity → list FillResult → list FillResult)
    (price : Price) (q : list entry) (remaining : Quantity)
    (results : list FillResult) : match_out :=
  match q with
  | [] => ([], remaining, results)
  | (l, o) :: q' =>
      if remaining >? 0 then
        if o.(o_remaining_quantity) >? 0 then
          let fill := Z.min remaining o.(o_remaining_quantity) in
          let o' := fill_order fill o in
          let rem := o'.(o_remaining_quantity) in
          let results' := record_fill merge price l fill rem results in
          let '(q'', r, res) := merge_fifo merge price q' (remaining - fill) results' in
          ((l, o') :: q'', r, res)
        else
          let '(q'', r, res) := merge_fifo merge price q' remaining results in
          ((l, o) :: q'', r, res)
      else ((l, o) :: q', remaining, results)
  end.

Definition FifoLmmMatch (MmPriorityPct : Z) (level : PriceLevel)
    (remaining : Quantity) (results : list FillResult) : option match_out :=
  let q := level.(lv_queue) in
  if nothing_to_do level remaining then Some (q, remaining, results)
  else
    let price := level.(lv_price) in
    let mm_alloc := Z.min (Z.quot (remaining * MmPriorityPct) 100) (mm_resting q) in
    let '(q1, rem1, res1) :=
      if mm_alloc >? 0 then lmm_priority price q mm_alloc remaining results
      else (q, remaining, results) in
    Some (merge_fifo merge_last price q1 rem1 res1).

(** ** FifoTopLmmMatch *)

(** Phase 1: the first order flagged [is_top_order]; one fill, then [break]. *)
Fixpoint top_phase (price : Price) (q : list entry) (top_alloc remaining : Quantity)
    (fs : list FillResult) : match_out :=
  match q with
  | [] => ([], remaining, fs)
  | (l, o) :: q' =>
      if top_alloc >? 0 then
        if o.(o_is_top_order) then
          let fill := Z.min top_alloc o.(o_remaining_quantity) in
          let o' := fill_order fill o in
          ((l, o') :: q', remaining - fill,
           fs ++ [mkFill l price fill o'.(o_remaining_quantity)])
        else
          let '(q'', r, res) := top_phase price q' top_alloc remaining fs in
          ((l, o) :: q'', r, res)
      else ((l, o) :: q', remaining, fs)
  end.

(** Phase 2: market makers with quantity left, merging with the top fill. *)
Fixpoint top_lmm_phase (price : Price) (q : list entry) (mm_left remaining : Quantity)
    (fs : list FillResult) : match_out :=
  match q with
  | [] => ([], remaining, fs)
  | (l, o) :: q' =>
      if mm_left >? 0 then
        if o.(o_is_market_maker) && (o.(o_remaining_quantity) >? 0) then
          let fill := Z.min mm_left o.(o_remaining_quantity) in
          let o' := fill_order fill o in
          let rem := o'.(o_remaining_quantity) in
          let fs' := record_fill merge_fill price l fill rem fs in
          let '(q'', r, res) := top_lmm_phase price q' (mm_left - fill) (remaining - fill) fs' in
          ((l, o') :: q'', r, res)
        else
          let '(q'', r, res) := top_lmm_phase price q' mm_left remaining fs in
          ((l, o) :: q'', r, res)
      else ((l, o) :: q', remaining, fs)
  end.

Definition FifoTopLmmMatch (TopPct MmPriorityPct : Z) (level : PriceLevel)
    (remaining : Quantity) (results : list FillResult) : option match_out :=
  let q := level.(lv_queue) in
  if nothing_to_do level remaining then Some (q, remaining, results)
  else
    let price := level.(lv_price) in
    let original_aggressor := remaining in
    let top_alloc := Z.quot (original_aggressor * TopPct) 100 in
    let '(q1, rem1, fs1) :=
      if top_alloc >? 0 then top_phase price q top_alloc remaining []
      else (q, remaining, []) in
    let mm_alloc := Z.quot (original_aggressor * MmPriorityPct) 100 in
    let '(q2, rem2, fs2) :=
      if (mm_alloc >? 0) && (rem1 >? 0) then
        let mm_alloc' := Z.min (Z.min mm_alloc (mm_resting q1)) rem1 in
        top_lmm_phase price q1 mm_alloc' rem1 fs1
      else (q1, rem1, fs1) in
    let '(q3, rem3, fs3) := merge_fifo merge_fill price q2 rem2 fs2 in
    Some (q3, rem3, results ++ fs3).

(** ** The contract of a matching algorithm *)

(** Quantity the fill list gives to order [l]. *)
Definition qty_of (l : loc) (fs : list FillResult) : Quantity :=
  sum_by (λ f, if (f.(f_resting_order) =? l)%nat then f.(f_quantity) else 0) fs.

(** The queue after every order received its fills. *)
Definition fill_all (fs : list FillResult) (q : list entry) : list entry :=
  (λ e : entry, (e.1, fill_order (qty_of e.1 fs) e.2)) <$> q.

(** A level the engine hands to an algorithm: distinct orders with quantity
    left, and an accurate total. *)
Record level_ok (lv : PriceLevel) : Prop := {
  lo_nodup : NoDup lv.(lv_queue).*1;
  lo_pos : Forall (λ e : entry, 0 < e.2.(o_remaining_quantity)) lv.(lv_queue);
  lo_total : lv.(lv_total_quantity)
             = sum_by (λ e : entry, e.2.(o_remaining_quantity)) lv.(lv_queue);
  lo_nonempty : lv.(lv_queue) ≠ []
}.

(** One fill: at the level's price, of positive size, against an order of the
    level, no larger than what the order has, reporting what it keeps. *)
Definition fill_sound (lv : PriceLevel) (f : FillResult) : Prop :=
  f.(f_price) = lv.(lv_price) ∧ 0 < f.(f_quantity) ∧
  ∃ o, (f.(f_resting_order), o) ∈ lv.(lv_queue) ∧
       f.(f_quantity) <= o.(o_remaining_quantity) ∧
       f.(f_resting_remaining) = o.(o_remaining_quantity) - f.(f_quantity).

(** What the engine needs of [match(level, remaining, results, 0)]: one entry
    per filled order, every entry sound, the orders changed by exactly their
    entries, and all of the matchable quantity allocated. *)
Record match_ok (lv : PriceLevel) (remaining : Quantity)
    (q' : list entry) (remaining' : Quantity) (fs : list FillResult) : Prop := {
  mo_queue : q' = fill_all fs lv.(lv_queue);
  mo_nodup : NoDup (f_resting_order <$> fs);
  mo_fills : Forall (fill_sound lv) fs;
  mo_total : sum_by f_quantity fs = Z.min remaining lv.(lv_total_quantity);
  mo_remaining : remaining' = remaining - sum_by f_quantity fs
}.

Class MatchAlgorithm : Type := {
  algo_match : PriceLevel → Quantity → list FillResult → option match_out;
  algo_match_ok : ∀ lv remaining, level_ok lv → 0 < remaining →
    ∃ q' remaining' fs,
      algo_match lv remaining [] = Some (q', remaining', fs) ∧
      match_ok lv remaining q' remaining' fs
}.
