(* ===== verification/MatchAlgoFacts.v ===== *)
(** * Correctness of the matching algorithms

    Every algorithm of [MatchAlgo] meets [match_ok]; first the lemmas on fill
    lists they share, then one section per algorithm. *)

From S2P Require Import Prelude Types MatchAlgo.

#[local] Arguments qty_of : simpl never.

(** ** Fill lists *)

Section fills.
Implicit Types (fs : list FillResult) (l k : nat) (q : list entry).

Lemma qty_of_cons l f fs :
  qty_of l (f :: fs) = (if (f.(f_resting_order) =? l)%nat then f.(f_quantity) else 0)
                       + qty_of l fs.
Proof. reflexivity. Qed.

Lemma qty_of_app l fs gs : qty_of l (fs ++ gs) = qty_of l fs + qty_of l gs.
Proof. apply sum_by_app. Qed.

Lemma has_fill_true l fs : has_fill l fs = true ↔ l ∈ f_resting_order <$> fs.
Proof.
  unfold has_fill. rewrite existsb_exists, list_elem_of_fmap.
  setoid_rewrite <- list_elem_of_In. setoid_rewrite Nat.eqb_eq. firstorder eauto.
Qed.

Lemma has_fill_false l fs : has_fill l fs = false ↔ l ∉ f_resting_order <$> fs.
Proof. rewrite <- has_fill_true. by destruct (has_fill l fs). Qed.

Lemma qty_of_not_in l fs : l ∉ f_resting_order <$> fs → qty_of l fs = 0.
Proof.
  induction fs as [|f fs IH]; cbn; [done|].
  intros [Hne Hni]%not_elem_of_cons. rewrite qty_of_cons, IH by done.
  destruct (Nat.eqb_spec (f_resting_order f) l); [congruence|lia].
Qed.

Lemma qty_of_first l fs : NoDup (f_resting_order <$> fs) → qty_of l fs = first_qty l fs.
Proof.
  induction fs as [|f fs IH]; cbn; [done|]. intros [Hni Hnd]%NoDup_cons.
  rewrite qty_of_cons.
  destruct (Nat.eqb_spec (f_resting_order f) l) as [<-|]; [|rewrite IH; done].
  rewrite qty_of_not_in by done. lia.
Qed.

Lemma qty_of_elem f fs :
  NoDup (f_resting_order <$> fs) → f ∈ fs → qty_of f.(f_resting_order) fs = f.(f_quantity).
Proof.
  intros Hnd Hf. rewrite qty_of_first by done.
  induction Hf as [f fs|f g fs Hf IH]; cbn in *; apply NoDup_cons in Hnd as [Hni Hnd].
  - by rewrite Nat.eqb_refl.
  - destruct (Nat.eqb_spec (f_resting_order g) (f_resting_order f)) as [He|]; [|auto].
    destruct Hni. rewrite He. by apply list_elem_of_fmap_2.
Qed.

Lemma bump_fill_locs l a fs :
  f_resting_order <$> bump_fill l a fs = f_resting_order <$> fs.
Proof. induction fs as [|f fs IH]; cbn; [done|]. case_if as H; cbn; by rewrite ?IH. Qed.

Lemma bump_fill_qty l k a fs :
  l ∈ f_resting_order <$> fs →
  qty_of k (bump_fill l a fs) = qty_of k fs + (if (l =? k)%nat then a else 0).
Proof.
  induction fs as [|f fs IH]; cbn; [intros Hin; inversion Hin|].
  destruct (Nat.eqb_spec (f_resting_order f) l) as [<-|Hne]; intros Hin;
    rewrite !qty_of_cons; cbn.
  - case_if as H; lia.
  - apply elem_of_cons in Hin as [?|Hin]; [congruence|]. rewrite IH by done. lia.
Qed.

Lemma bump_fill_sum l a fs :
  l ∈ f_resting_order <$> fs →
  sum_by f_quantity (bump_fill l a fs) = sum_by f_quantity fs + a.
Proof.
  induction fs as [|f fs IH]; cbn; [intros Hin; inversion Hin|].
  destruct (Nat.eqb_spec (f_resting_order f) l) as [<-|Hne]; intros Hin; cbn; [lia|].
  apply elem_of_cons in Hin as [?|Hin]; [congruence|]. rewrite IH by done. lia.
Qed.

Lemma add_fill_qty p l k a fs :
  qty_of k (add_fill p l a fs) = qty_of k fs + (if (l =? k)%nat then a else 0).
Proof.
  unfold add_fill. destruct (has_fill l fs) eqn:H.
  - apply bump_fill_qty. by apply has_fill_true.
  - rewrite qty_of_app, qty_of_cons. change (qty_of k []) with 0. cbn. lia.
Qed.

Lemma add_fill_sum p l a fs :
  sum_by f_quantity (add_fill p l a fs) = sum_by f_quantity fs + a.
Proof.
  unfold add_fill. destruct (has_fill l fs) eqn:H.
  - apply bump_fill_sum. by apply has_fill_true.
  - rewrite sum_by_app. cbn. lia.
Qed.

Lemma add_fill_nodup p l a fs :
  NoDup (f_resting_order <$> fs) → NoDup (f_resting_order <$> add_fill p l a fs).
Proof.
  unfold add_fill. destruct (has_fill l fs) eqn:H; intros Hnd.
  - by rewrite bump_fill_locs.
  - apply has_fill_false in H. rewrite fmap_app. cbn.
    apply NoDup_app. split_and!; [done| |apply NoDup_singleton].
    intros x Hx ->%list_elem_of_singleton. done.
Qed.
End fills.

(** ** Queues *)

Section queues.
Implicit Types (fs : list FillResult) (l k : nat) (q : list entry) (o : Order).

Lemma fill_order_0 o : fill_order 0 o = o.
Proof. destruct o; unfold fill_order, set_o_remaining_quantity; cbn. f_equal; lia. Qed.

Lemma fill_order_add a b o : fill_order a (fill_order b o) = fill_order (b + a) o.
Proof. destruct o; unfold fill_order, set_o_remaining_quantity; cbn. f_equal; lia. Qed.

Lemma fill_all_locs fs q : (fill_all fs q).*1 = q.*1.
Proof. unfold fill_all. rewrite <- list_fmap_compose. by apply list_fmap_ext. Qed.

Lemma fill_all_nil q : fill_all [] q = q.
Proof.
  unfold fill_all. transitivity (id <$> q); [|by rewrite list_fmap_id].
  apply list_fmap_ext. intros i [l o] _. cbn. by rewrite fill_order_0.
Qed.

Lemma update_entry_locs l g q : (update_entry l g q).*1 = q.*1.
Proof.
  unfold update_entry. rewrite <- list_fmap_compose. apply list_fmap_ext.
  intros i [k o] _. cbn. by destruct (k =? l)%nat.
Qed.

Lemma find_entry_elem l o q : NoDup q.*1 → (l, o) ∈ q → find_entry l q = Some o.
Proof.
  induction q as [|[k o'] q IH]; cbn; [intros _ Hin; inversion Hin|].
  intros [Hni Hnd]%NoDup_cons [He|Hin]%elem_of_cons.
  - injection He as -> ->. by rewrite Nat.eqb_refl.
  - destruct (Nat.eqb_spec k l) as [->|]; [|auto].
    destruct Hni. by apply list_elem_of_fmap_2 with (f := fst) in Hin.
Qed.

Lemma elem_unique l o o' q : NoDup q.*1 → (l, o) ∈ q → (l, o') ∈ q → o = o'.
Proof. intros Hnd H1%find_entry_elem H2%find_entry_elem; [congruence|done..]. Qed.

Lemma update_entry_elem_ne l g k o q : l ≠ k → (k, o) ∈ update_entry l g q ↔ (k, o) ∈ q.
Proof.
  intros Hne. unfold update_entry. rewrite list_elem_of_fmap. split.
  - intros ([k' o'] & He & Hin). cbn in He. destruct (Nat.eqb_spec k' l); naive_solver.
  - intros Hin. exists (k, o). split; [|done]. cbn.
    destruct (Nat.eqb_spec k l); [congruence|done].
Qed.

Lemma update_entry_elem_eq l g o q :
  (l, o) ∈ q → (l, g o) ∈ update_entry l g q.
Proof.
  intros Hin. unfold update_entry. apply list_elem_of_fmap. exists (l, o).
  split; [|done]. cbn. by rewrite Nat.eqb_refl.
Qed.

Lemma fill_all_cons f fs q :
  f.(f_resting_order) ∉ f_resting_order <$> fs →
  fill_all fs (update_entry f.(f_resting_order) (fill_order f.(f_quantity)) q)
  = fill_all (f :: fs) q.
Proof.
  intros Hni. unfold fill_all, update_entry. rewrite <- list_fmap_compose.
  apply list_fmap_ext. intros i [k o] _. cbn. rewrite qty_of_cons, (Nat.eqb_sym k).
  destruct (Nat.eqb_spec (f_resting_order f) k) as [<-|Hne]; cbn; [|done].
  rewrite qty_of_not_in, fill_order_0 by done. do 2 f_equal. lia.
Qed.

Lemma entry_remaining_elem l o q :
  NoDup q.*1 → (l, o) ∈ q → entry_remaining l q = o.(o_remaining_quantity).
Proof. intros Hnd Hin. unfold entry_remaining. by rewrite (find_entry_elem _ o). Qed.

(** The remaining quantity left at a level after its fills. *)
Lemma fill_all_remaining fs q :
  sum_by (λ e : entry, e.2.(o_remaining_quantity)) (fill_all fs q)
  = sum_by (λ e : entry, e.2.(o_remaining_quantity)) q
    - sum_by (λ e : entry, qty_of e.1 fs) q.
Proof.
  unfold fill_all. rewrite sum_by_fmap. induction q as [|e q IH]; [done|].
  rewrite !sum_by_cons, IH. cbn. lia.
Qed.

(** Fills of orders of the queue account for the whole fill list. *)
Lemma sum_qty_of fs q :
  NoDup q.*1 → Forall (λ f, f.(f_resting_order) ∈ q.*1) fs →
  sum_by (λ e : entry, qty_of e.1 fs) q = sum_by f_quantity fs.
Proof.
  intros Hnd. induction 1 as [|f fs Hf _ IH]; cbn.
  - clear. induction q as [|e q IH]; [done|]. cbn. rewrite IH. done.
  - rewrite <- IH. clear IH.
    rewrite (sum_by_ext _ (λ e : entry,
      (if (f.(f_resting_order) =? e.1)%nat then f.(f_quantity) else 0) + qty_of e.1 fs))
      by (apply Forall_true; intros; apply qty_of_cons).
    rewrite sum_by_add. f_equal.
    induction q as [|e q IH]; cbn in *; [inversion Hf|].
    apply NoDup_cons in Hnd as [Hni Hnd].
    destruct (Nat.eqb_spec (f_resting_order f) e.1) as [He|Hne].
    + rewrite He in *. clear -Hni.
      enough (sum_by (λ e0 : entry, if (e.1 =? e0.1)%nat then f_quantity f else 0) q = 0) by lia.
      induction q as [|e' q IH]; cbn in *; [done|].
      apply not_elem_of_cons in Hni as [? ?]. rewrite IH by done.
      destruct (Nat.eqb_spec e.1 e'.1); [congruence|lia].
    + apply elem_of_cons in Hf as [?|Hf]; [congruence|]. rewrite IH by done. lia.
Qed.
End queues.

(** ** Allocations: fill lists before they are applied *)

(** Distinct orders of the queue, positive amounts, nobody over-allocated. *)
Record allocation (price : Price) (q : list entry) (fs : list FillResult) : Prop := {
  al_nodup : NoDup (f_resting_order <$> fs);
  al_fills : Forall (λ f, f.(f_price) = price ∧ 0 < f.(f_quantity) ∧
                          f.(f_resting_order) ∈ q.*1) fs;
  al_cap : Forall (λ e : entry, qty_of e.1 fs <= e.2.(o_remaining_quantity)) q
}.

Section allocations.
Implicit Types (fs : list FillResult) (l k : nat) (q : list entry) (o : Order).

Lemma add_fill_allocation price q fs l o a :
  allocation price q fs → NoDup q.*1 → (l, o) ∈ q → 0 < a →
  qty_of l fs + a <= o.(o_remaining_quantity) →
  allocation price q (add_fill price l a fs).
Proof.
  intros [Hnd Hfs Hcap] Hq Hin Ha Hle. split.
  - by apply add_fill_nodup.
  - assert (l ∈ q.*1) as Hl by (by apply list_elem_of_fmap_2 with (f := fst) in Hin).
    unfold add_fill. destruct (has_fill l fs) eqn:H.
    + clear Hcap Hnd H Hle. induction Hfs as [|f fs Hf Hfs IH]; cbn; [done|].
      case_if as H'; (apply Forall_cons; split); [|done..].
      destruct Hf as (?&?&?). cbn. split_and!; [done|lia|done].
    + apply Forall_app. split; [done|]. repeat constructor; cbn; [lia|done].
  - rewrite Forall_forall in *. intros [k o'] Hk. rewrite add_fill_qty. cbn.
    specialize (Hcap _ Hk). cbn in Hcap.
    destruct (Nat.eqb_spec l k) as [<-|]; [|lia].
    rewrite (elem_unique l o' o q) by done. lia.
Qed.

Lemma qty_of_nonneg price q l fs : allocation price q fs → 0 <= qty_of l fs.
Proof.
  intros [_ Hfs _]. apply sum_by_nonneg. eapply Forall_impl; [exact Hfs|].
  cbn. intros f (_&?&_). case_if as Hf; lia.
Qed.

Lemma apply_results_spec price q fs :
  NoDup q.*1 → allocation price q fs →
  apply_results q fs =
    (fill_all fs q,
     (λ f, set_f_resting_remaining (entry_remaining f.(f_resting_order) q - f.(f_quantity)) f)
       <$> fs).
Proof.
  intros Hq [Hnd Hfs _]. revert q Hq Hfs.
  induction fs as [|f fs IH]; intros q Hq Hfs; cbn.
  { by rewrite fill_all_nil. }
  apply Forall_cons in Hfs as [(_ & _ & Hf) Hfs]. cbn in Hnd.
  apply NoDup_cons in Hnd as [Hni Hnd].
  rewrite IH; [|done|by rewrite update_entry_locs|by rewrite update_entry_locs].
  rewrite fill_all_cons by done. apply list_elem_of_fmap in Hf as ([l o] & Hl & Ho).
  cbn in Hl. rewrite Hl in *. do 2 f_equal.
  - erewrite !entry_remaining_elem; [|done|done|by rewrite update_entry_locs|
      by apply update_entry_elem_eq]. done.
  - apply list_fmap_ext. intros i g Hg%list_elem_of_lookup_2. f_equal. f_equal.
    assert (f_resting_order g ≠ l).
    { intros He. destruct Hni. rewrite <- He. by apply list_elem_of_fmap_2. }
    rewrite Forall_forall in Hfs. destruct (Hfs g Hg) as (_ & _ & Hin).
    apply list_elem_of_fmap in Hin as ([k o'] & Hk & Hin). cbn in Hk. rewrite Hk in *.
    erewrite !entry_remaining_elem; [done| | |rewrite update_entry_locs|
      rewrite update_entry_elem_ne]; done.
Qed.

(** An allocation of all that can be filled, once applied, is a match. *)
Lemma allocation_match_ok lv remaining fs :
  level_ok lv → allocation lv.(lv_price) lv.(lv_queue) fs →
  sum_by f_quantity fs = Z.min remaining lv.(lv_total_quantity) →
  ∃ q' fs', apply_results lv.(lv_queue) fs = (q', fs') ∧
    match_ok lv remaining q' (remaining - Z.min remaining lv.(lv_total_quantity)) fs'.
Proof.
  intros Hlv Hal Hsum. pose proof (lo_nodup _ Hlv) as Hnd.
  rewrite (apply_results_spec _ _ _ Hnd Hal). eexists _, _. split; [done|].
  set (g := λ f, set_f_resting_remaining _ f).
  assert (Hqty : ∀ l, qty_of l (g <$> fs) = qty_of l fs).
  { intros l. unfold qty_of. by rewrite sum_by_fmap. }
  split.
  - unfold fill_all. apply list_fmap_ext. intros i e _. by rewrite Hqty.
  - rewrite <- list_fmap_compose. exact (al_nodup _ _ _ Hal).
  - apply Forall_fmap. destruct Hal as [Hndf Hfs Hcap].
    rewrite Forall_forall in Hcap. rewrite Forall_forall in Hfs |- *. intros f Hf.
    destruct (Hfs f Hf) as (Hp & Hpos & Hin).
    apply list_elem_of_fmap in Hin as ([l o] & Hl & Hin). cbn in Hl.
    repeat split; cbn; try done. exists o. rewrite Hl. split_and!; [done| |].
    + specialize (Hcap _ Hin). cbn in Hcap. rewrite <- Hl in Hcap.
      by rewrite qty_of_elem in Hcap.
    + by erewrite entry_remaining_elem.
  - rewrite sum_by_fmap. exact Hsum.
  - rewrite sum_by_fmap. cbn. change (remaining - Z.min remaining (lv_total_quantity lv)
      = remaining - sum_by f_quantity fs). lia.
Qed.
End allocations.

(** ** Proportional base allocation *)

Section base.
Context (price : Price) (F T : Z) (keep : Z → bool).
Hypothesis HF : 0 < F <= T.
Hypothesis Hkeep : ∀ a, keep a = true → 0 < a.
Implicit Types (q : list entry) (fs : list FillResult).

(** Floor of the exact proportional share. *)
Definition share (o : Order) : Z := Z.quot (o.(o_remaining_quantity) * F) T.

Lemma share_bounds o : 0 < o.(o_remaining_quantity) →
  0 <= share o <= o.(o_remaining_quantity) ∧
  T * share o <= o.(o_remaining_quantity) * F < T * share o + T ∧
  (F < T → share o < o.(o_remaining_quantity)).
Proof using HF.
  intros Ho. unfold share. rewrite Z.quot_div_nonneg by nia.
  set (r := o_remaining_quantity o) in *.
  assert (T * (r * F / T) <= r * F < T * (r * F / T) + T).
  { pose proof (Z.mul_div_le (r * F) T). pose proof (Z.mul_succ_div_gt (r * F) T). lia. }
  assert (0 <= r * F / T) by (apply Z.div_pos; nia).
  split_and!; nia.
Qed.

Lemma base_alloc_locs q f :
  f ∈ base_alloc price F T keep q →
  f.(f_price) = price ∧ 0 < f.(f_quantity) ∧
  ∃ o, (f.(f_resting_order), o) ∈ q ∧ f.(f_quantity) = share o.
Proof using Hkeep.
  induction q as [|[l o] q IH]; cbn; [intros Hf; inversion Hf|].
  case_if as Hk; [intros [->|Hf]%elem_of_cons|intros Hf].
  - cbn. split_and!; [done|by apply Hkeep|]. exists o. split; [by left|done].
  - destruct (IH Hf) as (?&?&o'&?&?). split_and!; [done..|]. exists o'. split; [by right|done].
  - destruct (IH Hf) as (?&?&o'&?&?). split_and!; [done..|]. exists o'. split; [by right|done].
Qed.

Lemma base_alloc_sublist q :
  f_resting_order <$> base_alloc price F T keep q `sublist_of` q.*1.
Proof.
  induction q as [|[l o] q IH]; cbn; [constructor|]. case_if as Hk; cbn; by constructor.
Qed.

Lemma base_alloc_qty q l o :
  NoDup q.*1 → (l, o) ∈ q →
  qty_of l (base_alloc price F T keep q) = if keep (share o) then share o else 0.
Proof.
  induction q as [|[k o'] q IH]; cbn; [intros _ Hin; inversion Hin|].
  intros [Hni Hnd]%NoDup_cons Hin.
  assert (Hsub : ∀ x, x ∉ q.*1 → qty_of x (base_alloc price F T keep q) = 0).
  { intros x Hx. apply qty_of_not_in. intros Hx'. apply Hx.
    eapply elem_of_sublist; [exact Hx'|]. apply base_alloc_sublist. }
  fold (share o'). apply elem_of_cons in Hin as [[= -> ->]|Hin].
  - destruct (keep (share o')); rewrite ?qty_of_cons; cbn; rewrite ?Nat.eqb_refl, Hsub; [lia|done..].
  - assert (k ≠ l).
    { intros ->. apply Hni. by apply list_elem_of_fmap_2 with (f := fst) in Hin. }
    destruct (keep (share o')); rewrite ?qty_of_cons; cbn; [|by apply IH].
    destruct (Nat.eqb_spec k l); [done|]. by apply IH.
Qed.

Lemma base_alloc_allocation q :
  NoDup q.*1 → Forall (λ e : entry, 0 < e.2.(o_remaining_quantity)) q →
  allocation price q (base_alloc price F T keep q).
Proof using HF Hkeep.
  intros Hnd Hpos. split.
  - eapply sublist_NoDup; [done|apply base_alloc_sublist].
  - apply Forall_forall. intros f (?&?&o&Hin&_)%base_alloc_locs. split_and!; [done..|].
    by apply list_elem_of_fmap_2 with (f := fst) in Hin.
  - apply Forall_forall. intros [l o] Hin. cbn. rewrite (base_alloc_qty _ _ _ Hnd Hin).
    rewrite Forall_forall in Hpos. specialize (Hpos _ Hin). cbn in Hpos.
    pose proof (share_bounds o Hpos). destruct (keep (share o)); lia.
Qed.

Lemma base_alloc_sum_le q :
  Forall (λ e : entry, 0 < e.2.(o_remaining_quantity)) q →
  0 <= sum_by f_quantity (base_alloc price F T keep q) ∧
  T * sum_by f_quantity (base_alloc price F T keep q)
    <= F * sum_by (λ e : entry, e.2.(o_remaining_quantity)) q.
Proof using HF.
  induction 1 as [|[l o] q Ho _ IH]; cbn in *; [lia|].
  pose proof (share_bounds o Ho). fold (share o). destruct (keep (share o)); cbn; nia.
Qed.
End base.

(** With every positive share kept, the rounding loss is less than one lot per
    order. *)
Lemma base_alloc_loss price F T q :
  0 < F <= T → Forall (λ e : entry, 0 < e.2.(o_remaining_quantity)) q →
  F * sum_by (λ e : entry, e.2.(o_remaining_quantity)) q
    <= T * sum_by f_quantity (base_alloc price F T (λ a, a >? 0) q)
       + (T - 1) * Z.of_nat (length q).
Proof.
  intros HF. induction 1 as [|[l o] q Ho _ IH]; cbn -[Z.of_nat] in *; [lia|].
  pose proof (share_bounds F T HF o Ho). fold (share F T o) in *.
  case_if as Hk; zbool; cbn -[Z.of_nat]; nia.
Qed.

(** When everything is wanted, everything is allocated. *)
Lemma base_alloc_full price T q :
  0 < T → Forall (λ e : entry, 0 < e.2.(o_remaining_quantity)) q →
  sum_by f_quantity (base_alloc price T T (λ a, a >? 0) q)
  = sum_by (λ e : entry, e.2.(o_remaining_quantity)) q.
Proof.
  intros HT. induction 1 as [|[l o] q Ho _ IH]; cbn in *; [done|].
  rewrite Z.quot_mul by lia. case_if as Hk; zbool; cbn; lia.
Qed.

Lemma level_total_pos lv : level_ok lv → 0 < lv.(lv_total_quantity).
Proof. intros []. rewrite lo_total. by apply sum_by_pos. Qed.

Lemma level_ready lv remaining :
  level_ok lv → 0 < remaining → nothing_to_do lv remaining = false.
Proof.
  intros [] ?. unfold nothing_to_do. destruct (lv_queue lv); [done|].
  rewrite orb_false_r. apply Z.leb_gt. lia.
Qed.

(** ** ProRataMatch *)

Section prorata.
Context (price : Price) (q0 : list entry).
Hypothesis Hq0 : NoDup q0.*1.

(** One lot to each of the first [R] orders that have room for it. *)
Lemma lot_remainder_spec q R fs :
  NoDup q.*1 → q ⊆ q0 → allocation price q0 fs →
  0 <= R <= Z.of_nat (length q) →
  (0 < R → Forall (λ e : entry, qty_of e.1 fs < e.2.(o_remaining_quantity)) q) →
  allocation price q0 (lot_remainder price q R fs) ∧
  sum_by f_quantity (lot_remainder price q R fs) = sum_by f_quantity fs + R.
Proof using Hq0.
  revert R fs. induction q as [|[l o] q IH]; intros R fs Hnd Hsub Hal HR Hroom; cbn.
  { cbn in HR. split; [done|lia]. }
  cbn in Hnd. apply NoDup_cons in Hnd as [Hni Hnd]. cbn in HR.
  destruct (R >? 0) eqn:HR0; zbool; [|split; [done|lia]].
  apply Forall_cons in Hroom as [Ho Hroom]; [|lia]. cbn in Ho.
  destruct (IH (R - 1) (add_fill price l 1 fs)) as [Hal' Hsum]; [done| | |lia| |].
  - intros x Hx. apply Hsub. by right.
  - apply add_fill_allocation with (o := o); [done|done| |lia|lia]. apply Hsub. by left.
  - intros _. rewrite Forall_forall in Hroom |- *. intros [k o'] Hk.
    specialize (Hroom _ Hk). cbn in *. rewrite add_fill_qty.
    destruct (Nat.eqb_spec l k) as [<-|]; [|lia].
    destruct Hni. by apply list_elem_of_fmap_2 with (f := fst) in Hk.
  - split; [done|]. rewrite Hsum, add_fill_sum. lia.
Qed.
End prorata.

Lemma prorata_match_ok lv remaining :
  level_ok lv → 0 < remaining →
  ∃ q' remaining' fs, ProRataMatch lv remaining [] = Some (q', remaining', fs) ∧
    match_ok lv remaining q' remaining' fs.
Proof.
  intros Hlv Hr. pose proof (level_total_pos _ Hlv) as HT.
  unfold ProRataMatch. rewrite level_ready by done.
  set (q := lv_queue lv) in *. set (T := lv_total_quantity lv) in *.
  destruct (T =? 0) eqn:E; zbool; [lia|]. clear E.
  set (F := Z.min remaining T). assert (0 < F <= T) as HF by (subst F; lia).
  set (base := base_alloc _ _ _ _ _). pose proof Hlv as [Hnd Hpos Htot Hne].
  fold q in Hnd, Hpos, Htot. fold T in Htot.
  assert (Hkeep : ∀ a : Z, (a >? 0) = true → 0 < a) by (intros; zbool; lia).
  pose proof (base_alloc_allocation lv.(lv_price) F T _ HF Hkeep q Hnd Hpos) as Hal.
  pose proof (base_alloc_sum_le lv.(lv_price) F T (λ a, a >? 0) HF q Hpos) as [Hs0 Hs1].
  pose proof (base_alloc_loss lv.(lv_price) F T q HF Hpos) as Hloss.
  rewrite <- Htot in *. fold base in Hal, Hs0, Hs1, Hloss.
  set (A := sum_by f_quantity base) in *.
  destruct (lot_remainder_spec lv.(lv_price) q Hnd q (F - A) base) as [Hal' Hsum];
    [done|reflexivity|done|nia| |].
  - intros HR. assert (F < T).
    { destruct (decide (F = T)); [|lia]. exfalso.
      pose proof (base_alloc_full lv.(lv_price) T q HT Hpos) as Hfull.
      subst A base. rewrite e in *. lia. }
    apply Forall_forall. intros [l o] Hin. cbn. unfold base.
    rewrite (base_alloc_qty lv.(lv_price) F T _ q l o Hnd Hin).
    rewrite Forall_forall in Hpos. specialize (Hpos _ Hin). cbn in Hpos.
    pose proof (share_bounds F T HF o Hpos) as (?&?&?). case_if as Hk; zbool; lia.
  - destruct (allocation_match_ok lv remaining _ Hlv Hal') as (q'&fs'&Happ&Hok).
    { rewrite Hsum. fold T F. lia. }
    fold q in Happ. rewrite Happ. eauto 10.
Qed.

(** ** ThresholdProRataMatch and AllocationMatch *)

(** What the first phase of the pro-rata family leaves for the second. *)
Lemma base_ready lv remaining keep :
  level_ok lv → 0 < remaining → (∀ a, keep a = true → 0 < a) →
  let T := lv.(lv_total_quantity) in
  let F := Z.min remaining T in
  let base := base_alloc lv.(lv_price) F T keep lv.(lv_queue) in
  0 < F <= T ∧ allocation lv.(lv_price) lv.(lv_queue) base ∧
  0 <= sum_by f_quantity base <= F.
Proof.
  intros Hlv Hr Hkeep T F base. pose proof (level_total_pos _ Hlv) as HT. fold T in HT.
  assert (0 < F <= T) as HF by (subst F; lia).
  destruct Hlv as [Hnd Hpos Htot Hne]. fold T in Htot. split_and!; [lia..| | |].
  - by apply base_alloc_allocation.
  - by apply base_alloc_sum_le.
  - pose proof (base_alloc_sum_le lv.(lv_price) F T keep HF _ Hpos) as [_ Hs].
    rewrite <- Htot in Hs. fold base in Hs. nia.
Qed.

Definition capacity (fs : list FillResult) (q : list entry) : Z :=
  sum_by (λ e : entry, e.2.(o_remaining_quantity) - qty_of e.1 fs) q.

Lemma capacity_cons fs e q :
  capacity fs (e :: q) = e.2.(o_remaining_quantity) - qty_of e.1 fs + capacity fs q.
Proof. reflexivity. Qed.

#[local] Arguments capacity : simpl never.

Lemma capacity_total price q fs :
  NoDup q.*1 → allocation price q fs →
  capacity fs q = sum_by (λ e : entry, e.2.(o_remaining_quantity)) q - sum_by f_quantity fs.
Proof.
  intros Hnd [_ Hfs _]. rewrite <- (sum_qty_of fs q Hnd).
  - unfold capacity. clear. induction q as [|e q IH]; cbn in *; lia.
  - eapply Forall_impl; [exact Hfs|]. by intros f (_&_&?).
Qed.

Lemma capacity_nonneg price q0 q fs :
  allocation price q0 fs → q ⊆ q0 → 0 <= capacity fs q.
Proof.
  intros [_ _ Hcap] Hsub. rewrite Forall_forall in Hcap.
  apply sum_by_nonneg, Forall_forall. intros e He. specialize (Hcap e (Hsub e He)). lia.
Qed.

Lemma capacity_add_fill price l a fs q :
  l ∉ q.*1 → capacity (add_fill price l a fs) q = capacity fs q.
Proof.
  intros Hni. apply sum_by_ext, Forall_forall. intros [k o] Hk. cbn.
  rewrite add_fill_qty. destruct (Nat.eqb_spec l k) as [->|]; [|lia].
  destruct Hni. by apply list_elem_of_fmap_2 with (f := fst) in Hk.
Qed.

Lemma bump_fill_0 l fs : bump_fill l 0 fs = fs.
Proof.
  induction fs as [|[] fs IH]; cbn; [done|]. rewrite IH. case_if as H; [|done].
  unfold set_f_quantity. cbn. by rewrite Z.add_0_r.
Qed.

Section remainder.
Context (price : Price) (q0 : list entry).
Hypothesis Hq0 : NoDup q0.*1.
Hypothesis Hpos0 : Forall (λ e : entry, 0 < e.2.(o_remaining_quantity)) q0.

(** One step of [fifo_remainder] adds what fits and goes on. *)
Lemma fifo_remainder_step l o q R fs :
  allocation price q0 fs → (l, o) ∈ q0 → 0 < R →
  let add := Z.min R (o.(o_remaining_quantity) - qty_of l fs) in
  fifo_remainder price ((l, o) :: q) R fs
  = fifo_remainder price q (R - add) (if add >? 0 then add_fill price l add fs else fs).
Proof using Hpos0.
  intros Hal Hin HR add. cbn [fifo_remainder].
  rewrite Forall_forall in Hpos0. pose proof (Hpos0 _ Hin) as Ho. cbn in Ho.
  pose proof (al_cap _ _ _ Hal) as Hcap. rewrite Forall_forall in Hcap.
  specialize (Hcap _ Hin). cbn in Hcap.
  assert ((R >? 0) = true) as -> by lia. unfold add_fill.
  rewrite <- qty_of_first by apply Hal. destruct (has_fill l fs) eqn:Hf.
  - pose proof (qty_of_nonneg _ _ l _ Hal).
    assert (Z.min (Z.min R (o_remaining_quantity o)) (o_remaining_quantity o - qty_of l fs) = add)
      as -> by (subst add; lia).
    destruct (add >? 0) eqn:Ha; [done|]. zbool.
    assert (add = 0) as -> by lia. by rewrite bump_fill_0.
  - apply has_fill_false in Hf. pose proof (qty_of_not_in l fs Hf).
    assert (add = Z.min R (o_remaining_quantity o)) as -> by (subst add; lia).
    case_if as Hfit; [done|]. zbool. lia.
Qed.

Lemma fifo_remainder_spec q R fs :
  NoDup q.*1 → q ⊆ q0 → allocation price q0 fs → 0 <= R <= capacity fs q →
  allocation price q0 (fifo_remainder price q R fs) ∧
  sum_by f_quantity (fifo_remainder price q R fs) = sum_by f_quantity fs + R.
Proof using Hpos0 Hq0.
  revert R fs. induction q as [|[l o] q IH]; intros R fs Hnd Hsub Hal HR.
  { unfold capacity in HR. cbn in *. split; [done|lia]. }
  cbn in Hnd. apply NoDup_cons in Hnd as [Hni Hnd].
  assert ((l, o) ∈ q0) as Hin by (apply Hsub; by left).
  assert (q ⊆ q0) by (intros x Hx; apply Hsub; by right).
  destruct (decide (R = 0)) as [->|]; [cbn; split; [done|lia]|].
  rewrite fifo_remainder_step by (done || lia).
  set (add := Z.min _ _). rewrite capacity_cons in HR. cbn in HR.
  pose proof (al_cap _ _ _ Hal) as Hcap. rewrite Forall_forall in Hcap.
  specialize (Hcap _ Hin). cbn in Hcap.
  destruct (add >? 0) eqn:Ha; zbool.
  - destruct (IH (R - add) (add_fill price l add fs)) as [? Hs]; [done..| | |].
    + apply add_fill_allocation with (o := o); [done..|lia|lia].
    + rewrite capacity_add_fill by done.
      pose proof (capacity_nonneg _ q0 q _ Hal ltac:(done)). lia.
    + split; [done|]. rewrite Hs, add_fill_sum. lia.
  - assert (add = 0 ∧ o_remaining_quantity o - qty_of l fs = 0) as [Ha0 Hc] by (subst add; lia).
    destruct (IH (R - add) fs) as [? Hs]; [done..|lia|]. split; [done|]. lia.
Qed.

(** The scan returns an order with room, if there is one. *)
Lemma largest_with_capacity_spec fs q best bq :
  match largest_with_capacity q fs best bq with
  | Some l => best = Some l ∨
      ∃ o, (l, o) ∈ q ∧ first_qty l fs < o.(o_remaining_quantity)
  | None => best = None ∧
      Forall (λ e : entry, e.2.(o_remaining_quantity) <= bq ∨
                           e.2.(o_remaining_quantity) <= first_qty e.1 fs) q
  end.
Proof.
  revert best bq. induction q as [|[l o] q IH]; intros best bq; cbn.
  { destruct best; [by left|]. split; [done|constructor]. }
  destruct ((o_remaining_quantity o - first_qty l fs >? 0) && (o_remaining_quantity o >? bq)) eqn:E.
  - specialize (IH (Some l) (o_remaining_quantity o)). zbool.
    destruct (largest_with_capacity _ _ _ _) as [k|]; [|by destruct IH].
    right. destruct IH as [[= ->]|(o'&?&?)].
    + exists o. split; [by left|lia].
    + exists o'. split; [by right|done].
  - specialize (IH best bq). destruct (largest_with_capacity _ _ _ _) as [k|].
    + destruct IH as [|(o'&?&?)]; [by left|]. right. exists o'. split; [by right|done].
    + destruct IH as [? Hall]. split; [done|]. constructor; [|done]. cbn.
      apply andb_false_iff in E as [E|E]; zbool; lia.
Qed.

Lemma largest_remainder_spec n fs :
  allocation price q0 fs → Z.of_nat n <= capacity fs q0 →
  allocation price q0 (largest_remainder n price q0 fs) ∧
  sum_by f_quantity (largest_remainder n price q0 fs)
    = sum_by f_quantity fs + Z.of_nat n.
Proof using Hpos0 Hq0.
  revert fs. induction n as [|n IH]; intros fs Hal Hn; cbn [largest_remainder].
  { split; [done|lia]. }
  pose proof (largest_with_capacity_spec fs q0 None (-1)) as Hscan.
  destruct (largest_with_capacity q0 fs None (-1)) as [l|].
  - destruct Hscan as [|(o&Hin&Hlt)]; [done|]. rewrite <- qty_of_first in Hlt by apply Hal.
    assert (Hal' : allocation price q0 (add_fill price l 1 fs)).
    { apply add_fill_allocation with (o := o); [done..|lia|lia]. }
    destruct (IH (add_fill price l 1 fs)) as [? Hs]; [done| |].
    + rewrite (capacity_total price) in Hn |- * by done. rewrite add_fill_sum. lia.
    + split; [done|]. rewrite Hs, add_fill_sum. lia.
  - exfalso. destruct Hscan as [_ Hall]. assert (capacity fs q0 <= 0); [|lia].
    unfold capacity. clear Hn IH. pose proof (al_nodup _ _ _ Hal) as Hnd. clear Hal Hq0.
    revert Hpos0. induction Hall as [|e q He Hall IH]; [done|].
    intros [He' Hq]%Forall_cons. specialize (IH Hq). cbn in *.
    rewrite (qty_of_first e.1) by done. lia.
Qed.
End remainder.

Lemma threshold_match_ok m lv remaining :
  level_ok lv → 0 < remaining →
  ∃ q' remaining' fs, ThresholdProRataMatch m lv remaining [] = Some (q', remaining', fs) ∧
    match_ok lv remaining q' remaining' fs.
Proof.
  intros Hlv Hr. destruct (base_ready lv remaining (λ a, (a >=? m) && (a >? 0)))
    as (HF & Hal & Hs); [done..|intros; zbool; lia|].
  unfold ThresholdProRataMatch. rewrite level_ready by done.
  assert ((lv_total_quantity lv =? 0) = false) as -> by lia.
  pose proof (lo_nodup _ Hlv) as Hnd. pose proof (lo_total _ Hlv) as Htot.
  destruct (fifo_remainder_spec lv.(lv_price) _ Hnd (lo_pos _ Hlv) lv.(lv_queue)
    (Z.min remaining lv.(lv_total_quantity) - sum_by f_quantity (base_alloc lv.(lv_price)
       (Z.min remaining lv.(lv_total_quantity)) lv.(lv_total_quantity)
       (λ a, (a >=? m) && (a >? 0)) lv.(lv_queue))) _ Hnd (reflexivity _) Hal) as [Hal' Hsum].
  { rewrite (capacity_total lv.(lv_price)) by done. lia. }
  destruct (allocation_match_ok lv remaining _ Hlv Hal') as (q'&fs'&Happ&Hok); [lia|].
  rewrite Happ. eauto 10.
Qed.

Lemma allocation_algo_match_ok lv remaining :
  level_ok lv → 0 < remaining →
  ∃ q' remaining' fs, AllocationMatch lv remaining [] = Some (q', remaining', fs) ∧
    match_ok lv remaining q' remaining' fs.
Proof.
  intros Hlv Hr. destruct (base_ready lv remaining (λ a, a >? 0))
    as (HF & Hal & Hs); [done..|intros; zbool; lia|].
  unfold AllocationMatch. rewrite level_ready by done.
  assert ((lv_total_quantity lv =? 0) = false) as -> by lia.
  pose proof (lo_nodup _ Hlv) as Hnd. pose proof (lo_total _ Hlv) as Htot.
  set (base := base_alloc _ _ _ _ _) in *.
  destruct (largest_remainder_spec lv.(lv_price) _ Hnd (lo_pos _ Hlv)
    (Z.to_nat (Z.min remaining lv.(lv_total_quantity) - sum_by f_quantity base)) base Hal)
    as [Hal' Hsum].
  { rewrite (capacity_total lv.(lv_price)) by done. lia. }
  destruct (allocation_match_ok lv remaining _ Hlv Hal') as (q'&fs'&Happ&Hok); [lia|].
  rewrite Happ. eauto 10.
Qed.
