(* ===== verification/MatchAlgoPriority.v ===== *)
(** * Time-priority algorithms: FIFO, LMM, top order, and the FIFO/pro-rata split

    These algorithms write the orders while they walk the list; [accounted]
    relates the queue reached at any point of a walk to the fills recorded so
    far, and one step lemma serves every pass. *)

From S2P Require Import Prelude Types MatchAlgo MatchAlgoFacts.

#[local] Arguments qty_of : simpl never.

Abbreviation rem_of := (λ e : entry, e.2.(o_remaining_quantity)) (only parsing).

(** ** Merging fills *)

Section merging.
Implicit Types (fs gs : list FillResult).

Lemma merge_fill_not_in l a r fs : l ∉ f_resting_order <$> fs → merge_fill l a r fs = fs.
Proof.
  induction fs as [|f fs IH]; cbn; [done|]. intros [Hne Hni]%not_elem_of_cons.
  rewrite IH by done. destruct (Nat.eqb_spec (f_resting_order f) l); congruence.
Qed.

Lemma merge_fill_app_l l a r fs gs :
  l ∈ f_resting_order <$> fs → merge_fill l a r (fs ++ gs) = merge_fill l a r fs ++ gs.
Proof.
  induction fs as [|f fs IH]; cbn; [intros Hin; inversion Hin|]. intros Hin.
  destruct (Nat.eqb_spec (f_resting_order f) l) as [|Hne]; [done|].
  apply elem_of_cons in Hin as [?|?]; [congruence|]. cbn. by rewrite IH.
Qed.

Lemma merge_fill_app_r l a r fs gs :
  l ∉ f_resting_order <$> fs → merge_fill l a r (fs ++ gs) = fs ++ merge_fill l a r gs.
Proof.
  induction fs as [|f fs IH]; cbn; [done|]. intros [Hne Hni]%not_elem_of_cons.
  rewrite IH by done. destruct (Nat.eqb_spec (f_resting_order f) l); congruence.
Qed.

(** Searching from the back finds the same entry when entries are distinct. *)
Lemma merge_last_eq l a r fs :
  NoDup (f_resting_order <$> fs) → merge_last l a r fs = merge_fill l a r fs.
Proof.
  unfold merge_last. induction fs as [|f fs IH]; [done|]. rewrite fmap_cons.
  intros [Hni Hnd]%NoDup_cons. rewrite reverse_cons. cbn [merge_fill].
  assert (Hrev : ∀ k, k ∈ f_resting_order <$> reverse fs ↔ k ∈ f_resting_order <$> fs).
  { intros k. by rewrite fmap_reverse, elem_of_reverse. }
  destruct (Nat.eqb_spec (f_resting_order f) l) as [<-|Hne].
  - rewrite merge_fill_app_r by (by rewrite Hrev). cbn. rewrite Nat.eqb_refl.
    by rewrite reverse_app, reverse_involutive.
  - rewrite <- IH by done. destruct (decide (l ∈ f_resting_order <$> reverse fs)).
    + by rewrite merge_fill_app_l, reverse_app by done.
    + rewrite merge_fill_app_r by done. cbn.
      destruct (Nat.eqb_spec (f_resting_order f) l); [done|].
      by rewrite reverse_app, merge_fill_not_in by done.
Qed.

Definition strip fs : list FillResult := set_f_resting_remaining 0 <$> fs.

Lemma strip_locs fs : f_resting_order <$> strip fs = f_resting_order <$> fs.
Proof. unfold strip. by rewrite <- list_fmap_compose. Qed.

Lemma strip_qty l fs : qty_of l (strip fs) = qty_of l fs.
Proof. unfold qty_of, strip. by rewrite sum_by_fmap. Qed.

Lemma strip_sum fs : sum_by f_quantity (strip fs) = sum_by f_quantity fs.
Proof. unfold strip. by rewrite sum_by_fmap. Qed.

Lemma strip_allocation price q fs : allocation price q (strip fs) ↔ allocation price q fs.
Proof.
  split; intros [Hnd Hfs Hcap]; split.
  all: rewrite ?strip_locs in *; try done.
  - unfold strip in Hfs. by rewrite Forall_fmap in Hfs.
  - eapply Forall_impl; [exact Hcap|]. intros e; cbv beta; by rewrite strip_qty.
  - unfold strip. by rewrite Forall_fmap.
  - eapply Forall_impl; [exact Hcap|]. intros e; cbv beta; by rewrite strip_qty.
Qed.

(** Up to the reported remainders, recording a fill is [add_fill]. *)
Lemma strip_record_fill price l a r fs :
  strip (record_fill merge_fill price l a r fs) = add_fill price l a (strip fs).
Proof.
  unfold record_fill, add_fill.
  assert (has_fill l (strip fs) = has_fill l fs) as ->.
  { apply eq_true_iff_eq. by rewrite !has_fill_true, strip_locs. }
  destruct (has_fill l fs); [|unfold strip; by rewrite fmap_app].
  unfold strip. induction fs as [|f fs IH]; cbn; [done|].
  destruct (f_resting_order f =? l)%nat; cbn; [done|]. by rewrite IH.
Qed.

Lemma record_fill_sum price l a r fs :
  sum_by f_quantity (record_fill merge_fill price l a r fs) = sum_by f_quantity fs + a.
Proof. rewrite <- strip_sum, strip_record_fill, add_fill_sum, strip_sum. done. Qed.

Lemma record_fill_qty price l k a r fs :
  qty_of k (record_fill merge_fill price l a r fs)
  = qty_of k fs + (if (l =? k)%nat then a else 0).
Proof. rewrite <- strip_qty, strip_record_fill, add_fill_qty, strip_qty. done. Qed.

Lemma record_fill_elem price l a r fs f :
  f ∈ record_fill merge_fill price l a r fs →
  f ∈ fs ∨ f.(f_resting_order) = l ∧ f.(f_resting_remaining) = r.
Proof.
  unfold record_fill. destruct (has_fill l fs).
  - induction fs as [|g fs IH]; cbn; [by left|].
    destruct (Nat.eqb_spec (f_resting_order g) l); intros [->|Hin]%elem_of_cons.
    + by right.
    + left. by right.
    + left. by left.
    + destruct (IH Hin); [left; by right|by right].
  - intros [?| ->%list_elem_of_singleton]%elem_of_app; [by left|by right].
Qed.
End merging.

(** ** The accounting invariant of a walk *)

Record accounted (price : Price) (q0 q : list entry) (fs : list FillResult) : Prop := {
  ac_queue : q = fill_all fs q0;
  ac_alloc : allocation price q0 fs;
  ac_rem : Forall (λ f, ∀ o, (f.(f_resting_order), o) ∈ q0 →
             f.(f_resting_remaining) = o.(o_remaining_quantity) - f.(f_quantity)) fs
}.

Section accounting.
Context (price : Price) (q0 : list entry).
Hypothesis Hnd0 : NoDup q0.*1.
Implicit Types (fs : list FillResult) (q : list entry).

Lemma accounted_entry q fs l o :
  accounted price q0 q fs → (l, o) ∈ q →
  ∃ o0, (l, o0) ∈ q0 ∧ o = fill_order (qty_of l fs) o0.
Proof.
  intros [-> _ _] Hin. unfold fill_all in Hin.
  apply list_elem_of_fmap in Hin as ([k o0] & [= -> ->] & Hin). eauto.
Qed.

Lemma accounted_locs q fs : accounted price q0 q fs → q.*1 = q0.*1.
Proof. intros [-> _ _]. apply fill_all_locs. Qed.

Lemma accounted_rem q fs :
  accounted price q0 q fs →
  sum_by rem_of q = sum_by rem_of q0 - sum_by f_quantity fs.
Proof using Hnd0.
  intros [-> [_ Hfs _] _]. rewrite fill_all_remaining, sum_qty_of; [done..|].
  eapply Forall_impl; [exact Hfs|]. by intros f (_&_&?).
Qed.

Lemma accounted_nonneg q fs :
  accounted price q0 q fs → Forall (λ e : entry, 0 <= e.2.(o_remaining_quantity)) q.
Proof.
  intros [-> [_ _ Hcap] _]. unfold fill_all. apply Forall_fmap.
  eapply Forall_impl; [exact Hcap|]. intros e He. cbn in *. lia.
Qed.

Lemma accounted_init :
  Forall (λ e : entry, 0 < e.2.(o_remaining_quantity)) q0 → accounted price q0 q0 [].
Proof.
  intros Hpos. split; [by rewrite fill_all_nil| |constructor].
  split; [constructor|constructor|]. eapply Forall_impl; [exact Hpos|].
  intros e He. cbn in *. change (qty_of e.1 []) with 0. lia.
Qed.

(** Filling one order of the queue keeps the books straight. *)
Lemma accounted_step done l o todo fs a :
  accounted price q0 (done ++ (l, o) :: todo) fs → 0 < a <= o.(o_remaining_quantity) →
  accounted price q0 (done ++ (l, fill_order a o) :: todo)
    (record_fill merge_fill price l a (o.(o_remaining_quantity) - a) fs).
Proof using Hnd0.
  intros Hacc Ha. assert ((l, o) ∈ done ++ (l, o) :: todo) as Hin.
  { apply elem_of_app. right. by left. }
  destruct (accounted_entry _ _ _ _ Hacc Hin) as (o0 & Hin0 & Ho).
  pose proof (accounted_locs _ _ Hacc) as Hlocs.
  destruct Hacc as [Hq Hal Hrem]. split.
  - unfold fill_all in *. rewrite (list_fmap_ext _
      (λ e : entry, if (e.1 =? l)%nat then (e.1, fill_order a (fill_order (qty_of e.1 fs) e.2))
                    else (e.1, fill_order (qty_of e.1 fs) e.2))).
    2:{ intros i e _. rewrite record_fill_qty, (Nat.eqb_sym l).
        destruct (Nat.eqb_spec e.1 l); [by rewrite fill_order_add|by rewrite Z.add_0_r]. }
    rewrite (list_fmap_ext _ ((λ e : entry, if (e.1 =? l)%nat then (e.1, fill_order a e.2) else e)
      ∘ (λ e : entry, (e.1, fill_order (qty_of e.1 fs) e.2)))) by done.
    rewrite list_fmap_compose, <- Hq. rewrite <- Hlocs, fmap_app in Hnd0.
    apply NoDup_app in Hnd0 as (_ & Hdis & Hnd). cbn in Hnd, Hdis.
    apply NoDup_cons in Hnd as [Hni _]. rewrite fmap_app. cbn. rewrite Nat.eqb_refl.
    assert (Hid : ∀ k, l ∉ k.*1 → (λ e : entry, if (e.1 =? l)%nat then (e.1, fill_order a e.2)
                                            else e) <$> k = k).
    { intros k Hk. rewrite <- (list_fmap_id k) at 2. apply list_fmap_ext.
      intros i e He%list_elem_of_lookup_2. destruct (Nat.eqb_spec e.1 l) as [<-|]; [|done].
      destruct Hk. by apply list_elem_of_fmap_2. }
    rewrite !Hid; [done|done|]. intros Hl. apply (Hdis _ Hl). by left.
  - apply strip_allocation. rewrite strip_record_fill.
    apply add_fill_allocation with (o := o0); [by apply strip_allocation|done|done|lia|].
    rewrite strip_qty. subst o. cbn in Ha. lia.
  - apply Forall_forall. intros f Hf o' Hin'. pose proof Hf as Hf'.
    apply record_fill_elem in Hf as [Hf|[Hl Hr]].
    + destruct (decide (f_resting_order f = l)) as [Hl|Hl].
      * (* the entry was merged: an old copy cannot survive, amounts differ *)
        exfalso. assert (NoDup (f_resting_order <$> record_fill merge_fill price l a
                   (o_remaining_quantity o - a) fs)) as Hnd'.
        { rewrite <- strip_locs, strip_record_fill. apply add_fill_nodup.
          rewrite strip_locs. apply Hal. }
        pose proof (qty_of_elem _ _ Hnd' Hf') as H1. rewrite record_fill_qty, Hl in H1.
        pose proof (qty_of_elem _ _ (al_nodup _ _ _ Hal) Hf) as H2. rewrite Hl in H2.
        rewrite Nat.eqb_refl in H1. lia.
      * rewrite Forall_forall in Hrem. by apply Hrem.
    + rewrite Hl in Hin'. rewrite (elem_unique _ _ _ _ Hnd0 Hin' Hin0), Hr, Ho.
      assert (NoDup (f_resting_order <$> record_fill merge_fill price l a
                 (o_remaining_quantity o - a) fs)) as Hnd'.
      { rewrite <- strip_locs, strip_record_fill. apply add_fill_nodup.
        rewrite strip_locs. apply Hal. }
      rewrite <- (qty_of_elem _ _ Hnd' Hf'), record_fill_qty, Hl, Nat.eqb_refl. cbn. lia.
Qed.
End accounting.

(** ** The passes *)

Section passes.
Context (price : Price) (q0 : list entry).
Hypothesis Hnd0 : NoDup q0.*1.
Implicit Types (fs : list FillResult) (q : list entry).

(** A search that finds the only entry of an order. *)
Definition merge_like
    (merge : loc → Quantity → Quantity → list FillResult → list FillResult) : Prop :=
  ∀ l a r fs, NoDup (f_resting_order <$> fs) → merge l a r fs = merge_fill l a r fs.

Lemma record_fill_like merge l a r fs q :
  merge_like merge → accounted price q0 q fs →
  record_fill merge price l a r fs = record_fill merge_fill price l a r fs.
Proof. intros Hm Hacc. unfold record_fill. rewrite Hm; [done|apply Hacc]. Qed.

(** The closing pass takes everything the level still has, up to [r]. *)
Lemma merge_fifo_spec merge done todo r fs :
  merge_like merge → accounted price q0 (done ++ todo) fs → 0 <= r →
  ∃ todo' r' fs', merge_fifo merge price todo r fs = (todo', r', fs') ∧
    accounted price q0 (done ++ todo') fs' ∧
    r' = r - Z.min r (sum_by rem_of todo) ∧
    sum_by f_quantity fs' = sum_by f_quantity fs + (r - r').
Proof using Hnd0.
  intros Hm. revert done r fs.
  induction todo as [|[l o] todo IH]; intros done r fs Hacc Hr; cbn.
  { eexists _, _, _. split; [done|]. split_and!; [done|lia|lia]. }
  pose proof (accounted_nonneg _ _ _ _ Hacc) as Hnn.
  apply Forall_app in Hnn as [_ [Ho Hnn]%Forall_cons]. cbn in Ho.
  apply sum_by_nonneg in Hnn.
  destruct (r >? 0) eqn:Hr0; zbool.
  2:{ eexists _, _, _. split; [done|]. split_and!; [done|lia|lia]. }
  destruct (o_remaining_quantity o >? 0) eqn:Ho0; zbool.
  - set (a := Z.min r (o_remaining_quantity o)). assert (0 < a <= o_remaining_quantity o) by lia.
    rewrite (record_fill_like _ _ _ _ _ _ Hm Hacc).
    pose proof (accounted_step price q0 Hnd0 done l o todo fs a Hacc ltac:(done)) as Hstep.
    cbn. set (fs1 := record_fill merge_fill _ _ _ _ _) in *.
    destruct (IH (done ++ [(l, fill_order a o)]) (r - a) fs1)
      as (todo' & r' & fs' & -> & Hacc' & Hr' & Hs'); [by rewrite <- app_assoc|lia|].
    eexists _, _, _. split; [done|]. rewrite <- app_assoc in Hacc'.
    split_and!; [done|lia|]. rewrite Hs'. unfold fs1. rewrite record_fill_sum. lia.
  - destruct (IH (done ++ [(l, o)]) r fs)
      as (todo' & r' & fs' & -> & Hacc' & Hr' & Hs'); [by rewrite <- app_assoc|lia|].
    eexists _, _, _. split; [done|]. rewrite <- app_assoc in Hacc'.
    split_and!; [done|lia|done].
Qed.

(** The market-maker pass takes at most its allowance. *)
Lemma top_lmm_phase_spec done todo mm r fs :
  accounted price q0 (done ++ todo) fs → 0 <= mm →
  ∃ todo' r' fs', top_lmm_phase price todo mm r fs = (todo', r', fs') ∧
    accounted price q0 (done ++ todo') fs' ∧ 0 <= r - r' <= mm ∧
    sum_by f_quantity fs' = sum_by f_quantity fs + (r - r').
Proof using Hnd0.
  revert done mm r fs.
  induction todo as [|[l o] todo IH]; intros done mm r fs Hacc Hmm; cbn.
  { eexists _, _, _. split; [done|]. split_and!; [done|lia|lia|lia]. }
  destruct (mm >? 0) eqn:Hr0; zbool.
  2:{ eexists _, _, _. split; [done|]. split_and!; [done|lia|lia|lia]. }
  destruct (o_is_market_maker o && (o_remaining_quantity o >? 0)) eqn:Ho0; zbool.
  - set (a := Z.min mm (o_remaining_quantity o)). assert (0 < a <= o_remaining_quantity o) by lia.
    pose proof (accounted_step price q0 Hnd0 done l o todo fs a Hacc ltac:(done)) as Hstep.
    cbn. set (fs1 := record_fill merge_fill _ _ _ _ _) in *.
    destruct (IH (done ++ [(l, fill_order a o)]) (mm - a) (r - a) fs1)
      as (todo' & r' & fs' & -> & Hacc' & Hr' & Hs'); [by rewrite <- app_assoc|lia|].
    eexists _, _, _. split; [done|]. rewrite <- app_assoc in Hacc'.
    split_and!; [done|lia|lia|]. rewrite Hs'. unfold fs1. rewrite record_fill_sum. lia.
  - destruct (IH (done ++ [(l, o)]) mm r fs)
      as (todo' & r' & fs' & -> & Hacc' & Hr' & Hs'); [by rewrite <- app_assoc|lia|].
    eexists _, _, _. split; [done|]. rewrite <- app_assoc in Hacc'.
    split_and!; [done|lia|lia|done].
Qed.

(** The top-order pass makes at most one fill. *)
Lemma top_phase_spec done todo top r :
  accounted price q0 (done ++ todo) [] → 0 <= top →
  Forall (λ e : entry, 0 < e.2.(o_remaining_quantity)) todo →
  ∃ todo' r' fs', top_phase price todo top r [] = (todo', r', fs') ∧
    accounted price q0 (done ++ todo') fs' ∧ 0 <= r - r' <= top ∧
    sum_by f_quantity fs' = r - r'.
Proof using Hnd0.
  revert done. induction todo as [|[l o] todo IH]; intros done Hacc Htop Hpos; cbn.
  { eexists _, _, _. split; [done|]. split_and!; [done|lia|lia|cbn; lia]. }
  apply Forall_cons in Hpos as [Ho Hpos]. cbn in Ho.
  destruct (top >? 0) eqn:Ht; zbool.
  2:{ eexists _, _, _. split; [done|]. split_and!; [done|lia|lia|cbn; lia]. }
  destruct (o_is_top_order o).
  - set (a := Z.min top (o_remaining_quantity o)).
    pose proof (accounted_step price q0 Hnd0 done l o todo [] a Hacc ltac:(lia)) as Hstep.
    eexists _, _, _. split; [done|]. split_and!; [exact Hstep|lia|lia|cbn; lia].
  - destruct (IH (done ++ [(l, o)]))
      as (todo' & r' & fs' & -> & Hacc' & Hr' & Hs'); [by rewrite <- app_assoc|done..|].
    eexists _, _, _. split; [done|]. rewrite <- app_assoc in Hacc'.
    split_and!; [done|lia|lia|done].
Qed.
End passes.

(** On orders with no fill yet, plain FIFO is the closing pass and the LMM
    priority pass is the merging one. *)
Definition fresh (fs : list FillResult) (q : list entry) : Prop :=
  Forall (λ e : entry, 0 < e.2.(o_remaining_quantity) ∧ e.1 ∉ f_resting_order <$> fs) q.

Lemma fresh_append price l a r fs q :
  l ∉ q.*1 → fresh fs q → fresh (fs ++ [mkFill l price a r]) q.
Proof.
  intros Hni Hf. unfold fresh in *. rewrite Forall_forall in Hf |- *.
  intros e He. destruct (Hf e He) as [? Hne]. split; [done|].
  rewrite fmap_app. intros [?|Hl%list_elem_of_singleton]%elem_of_app; [done|].
  apply Hni. cbn in Hl; rewrite <- Hl. by apply list_elem_of_fmap_2.
Qed.

Lemma fresh_nil q :
  Forall (λ e : entry, 0 < e.2.(o_remaining_quantity)) q → fresh [] q.
Proof. intros H. eapply Forall_impl; [exact H|]. intros e He. split; [done|apply not_elem_of_nil]. Qed.

Lemma fifo_loop_merge merge price q r fs :
  NoDup q.*1 → fresh fs q → fifo_loop price q r fs = merge_fifo merge price q r fs.
Proof.
  revert r fs. induction q as [|[l o] q IH]; intros r fs Hnd Hf; cbn; [done|].
  cbn in Hnd. apply NoDup_cons in Hnd as [Hni Hnd].
  apply Forall_cons in Hf as [[Ho Hl%has_fill_false] Hf]. cbn in Ho, Hl.
  assert ((o_remaining_quantity o >? 0) = true) as -> by lia.
  unfold record_fill. rewrite Hl. cbn. rewrite IH; [done..|]. by apply fresh_append.
Qed.

Lemma lmm_priority_merge price q mm r fs :
  NoDup q.*1 → fresh fs q → lmm_priority price q mm r fs = top_lmm_phase price q mm r fs.
Proof.
  revert mm r fs. induction q as [|[l o] q IH]; intros mm r fs Hnd Hf; cbn; [done|].
  cbn in Hnd. apply NoDup_cons in Hnd as [Hni Hnd].
  apply Forall_cons in Hf as [[Ho Hl%has_fill_false] Hf]. cbn in Ho, Hl.
  assert ((o_remaining_quantity o >? 0) = true) as -> by lia. rewrite andb_true_r.
  unfold record_fill. rewrite Hl. cbn.
  rewrite (IH _ _ (fs ++ _)) by (done || by apply fresh_append). by rewrite IH.
Qed.

Lemma accounted_match_ok lv remaining q' fs :
  level_ok lv → accounted lv.(lv_price) lv.(lv_queue) q' fs →
  sum_by f_quantity fs = Z.min remaining lv.(lv_total_quantity) →
  match_ok lv remaining q' (remaining - sum_by f_quantity fs) fs.
Proof.
  intros Hlv [Hq [Hnd Hfs Hcap] Hrem] Hsum. split; [done|done| |done|done].
  rewrite Forall_forall in Hcap. rewrite Forall_forall in Hfs, Hrem |- *. intros f Hf.
  destruct (Hfs f Hf) as (Hp & Hpos & Hin).
  apply list_elem_of_fmap in Hin as ([l o] & Hl & Hin). cbn in Hl.
  repeat split; try done. exists o. rewrite Hl. split_and!; [done| |].
  - specialize (Hcap _ Hin). cbn in Hcap. rewrite <- Hl in Hcap. by rewrite qty_of_elem in Hcap.
  - apply Hrem; [done|]. by rewrite Hl.
Qed.

(** ** FIFO, LMM and top-order algorithms meet the contract *)

Lemma merge_fill_like : merge_like merge_fill.
Proof. done. Qed.

Lemma merge_last_like : merge_like merge_last.
Proof. intros l a r fs. apply merge_last_eq. Qed.

(** The closing pass completes any accounted prefix to a full match. *)
Lemma merge_fifo_match_ok merge lv remaining q1 r1 fs1 :
  merge_like merge → level_ok lv →
  accounted lv.(lv_price) lv.(lv_queue) q1 fs1 →
  r1 = remaining - sum_by f_quantity fs1 → 0 <= r1 →
  ∃ q' r' fs', merge_fifo merge lv.(lv_price) q1 r1 fs1 = (q', r', fs') ∧
    match_ok lv remaining q' r' fs'.
Proof.
  intros Hm Hlv Hacc Hr1 Hr.
  pose proof (accounted_rem _ _ (lo_nodup _ Hlv) _ _ Hacc) as Hq1.
  rewrite <- (lo_total _ Hlv) in Hq1.
  destruct (merge_fifo_spec _ _ (lo_nodup _ Hlv) merge [] q1 r1 fs1 Hm Hacc Hr)
    as (q' & r' & fs' & Heq & Hacc' & Hr' & Hs').
  exists q', r', fs'. split; [done|].
  assert (r' = remaining - sum_by f_quantity fs') as -> by lia.
  apply accounted_match_ok; [done|done|]. lia.
Qed.

Lemma fifo_match_ok lv remaining :
  level_ok lv → 0 < remaining →
  ∃ q' remaining' fs, FifoMatch lv remaining [] = Some (q', remaining', fs) ∧
    match_ok lv remaining q' remaining' fs.
Proof.
  intros Hlv Hr. unfold FifoMatch.
  rewrite (fifo_loop_merge merge_fill) by (apply Hlv || apply fresh_nil, Hlv).
  destruct (merge_fifo_match_ok merge_fill lv remaining lv.(lv_queue) remaining [])
    as (q' & r' & fs' & -> & Hok); [done|done| |cbn; lia|lia|eauto 10].
  apply accounted_init, Hlv.
Qed.

Lemma pct_bounds r pct : 0 < r → 0 <= pct <= 100 → 0 <= Z.quot (r * pct) 100 <= r.
Proof. intros. rewrite Z.quot_div_nonneg by nia. split; [apply Z.div_pos; nia|]. apply Z.div_le_upper_bound; nia. Qed.

Lemma lmm_match_ok pct lv remaining :
  0 <= pct <= 100 → level_ok lv → 0 < remaining →
  ∃ q' remaining' fs, FifoLmmMatch pct lv remaining [] = Some (q', remaining', fs) ∧
    match_ok lv remaining q' remaining' fs.
Proof.
  intros Hp Hlv Hr. unfold FifoLmmMatch. rewrite level_ready by done.
  pose proof (pct_bounds remaining pct Hr Hp) as Hb.
  pose proof (accounted_init lv.(lv_price) _ (lo_pos _ Hlv)) as Hinit.
  set (mm := Z.min _ _).
  assert (∃ q1 r1 fs1, (if mm >? 0 then lmm_priority lv.(lv_price) lv.(lv_queue) mm remaining []
                        else (lv.(lv_queue), remaining, [])) = (q1, r1, fs1) ∧
          accounted lv.(lv_price) lv.(lv_queue) q1 fs1 ∧
          r1 = remaining - sum_by f_quantity fs1 ∧ 0 <= r1) as (q1 & r1 & fs1 & -> & Hacc & Hr1 & Hr1').
  { destruct (mm >? 0) eqn:Hmm; zbool; [|eexists _, _, _; split; [done|]; cbn; split_and!; [done|lia|lia]].
    rewrite lmm_priority_merge by (apply Hlv || apply fresh_nil, Hlv).
    destruct (top_lmm_phase_spec _ _ (lo_nodup _ Hlv) [] lv.(lv_queue) mm remaining [] Hinit)
      as (q1 & r1 & fs1 & -> & Hacc & Hr1 & Hs1); [lia|].
    eexists _, _, _. split; [done|]. cbn in Hs1. split_and!; [done|lia|lia]. }
  destruct (merge_fifo_match_ok merge_last lv remaining q1 r1 fs1)
    as (q' & r' & fs' & -> & Hok); eauto 10 using merge_last_like.
Qed.

Lemma top_lmm_match_ok top pct lv remaining :
  0 <= top <= 100 → 0 <= pct <= 100 → level_ok lv → 0 < remaining →
  ∃ q' remaining' fs, FifoTopLmmMatch top pct lv remaining [] = Some (q', remaining', fs) ∧
    match_ok lv remaining q' remaining' fs.
Proof.
  intros Ht Hp Hlv Hr. unfold FifoTopLmmMatch. rewrite level_ready by done.
  pose proof (pct_bounds remaining pct Hr Hp) as Hb.
  pose proof (pct_bounds remaining top Hr Ht) as Hbt.
  pose proof (accounted_init lv.(lv_price) _ (lo_pos _ Hlv)) as Hinit.
  set (mm := Z.quot (remaining * pct) 100) in *. set (tp := Z.quot (remaining * top) 100) in *.
  assert (∃ q1 r1 fs1, (if tp >? 0 then top_phase lv.(lv_price) lv.(lv_queue) tp remaining []
                        else (lv.(lv_queue), remaining, [])) = (q1, r1, fs1) ∧
          accounted lv.(lv_price) lv.(lv_queue) q1 fs1 ∧
          r1 = remaining - sum_by f_quantity fs1 ∧ 0 <= r1) as (q1 & r1 & fs1 & -> & Hacc & Hr1 & Hr1').
  { destruct (tp >? 0) eqn:Htp; zbool; [|eexists _, _, _; split; [done|]; cbn; split_and!; [done|lia|lia]].
    destruct (top_phase_spec _ _ (lo_nodup _ Hlv) [] lv.(lv_queue) tp remaining Hinit)
      as (q1 & r1 & fs1 & -> & Hacc & Hr1 & Hs1); [lia|apply Hlv|].
    eexists _, _, _. split; [done|]. split_and!; [done|lia|lia]. }
  set (c2 := if (mm >? 0) && (r1 >? 0) then _ else _).
  assert (∃ q2 r2 fs2, c2 = (q2, r2, fs2) ∧ accounted lv.(lv_price) lv.(lv_queue) q2 fs2 ∧
          r2 = remaining - sum_by f_quantity fs2 ∧ 0 <= r2) as (q2 & r2 & fs2 & -> & Hacc2 & Hr2 & Hr2').
  { subst c2. destruct (_ && _) eqn:Hmm; zbool; [|eauto 10].
    assert (0 <= mm_resting q1) as Hmr.
    { apply sum_by_nonneg. eapply Forall_impl; [exact (accounted_nonneg _ _ _ _ Hacc)|].
      intros e He. cbn in *. destruct (o_is_market_maker e.2); lia. }
    destruct (top_lmm_phase_spec _ _ (lo_nodup _ Hlv) [] q1 (Z.min (Z.min mm (mm_resting q1)) r1) r1 fs1 Hacc)
      as (q2 & r2 & fs2 & -> & Hacc2 & Hr2 & Hs2); [lia|].
    eexists _, _, _. split; [done|]. split_and!; [done|lia|lia]. }
  destruct (merge_fifo_match_ok merge_fill lv remaining q2 r2 fs2)
    as (q' & r' & fs' & -> & Hok); eauto 10 using merge_fill_like.
Qed.

(** ** Instances of the engine's interface *)

#[global] Instance fifo_algorithm : MatchAlgorithm :=
  {| algo_match := FifoMatch; algo_match_ok := fifo_match_ok |}.
Definition prorata_algorithm : MatchAlgorithm :=
  {| algo_match := ProRataMatch; algo_match_ok := prorata_match_ok |}.
Definition threshold_algorithm (m : Quantity) : MatchAlgorithm :=
  {| algo_match := ThresholdProRataMatch m; algo_match_ok := threshold_match_ok m |}.
Definition allocation_algorithm : MatchAlgorithm :=
  {| algo_match := AllocationMatch; algo_match_ok := allocation_algo_match_ok |}.
Definition lmm_algorithm (pct : Z) (H : 0 <= pct <= 100) : MatchAlgorithm :=
  {| algo_match := FifoLmmMatch pct; algo_match_ok lv r := lmm_match_ok pct lv r H |}.
Definition top_lmm_algorithm (top pct : Z) (Ht : 0 <= top <= 100) (Hp : 0 <= pct <= 100)
    : MatchAlgorithm :=
  {| algo_match := FifoTopLmmMatch top pct;
     algo_match_ok lv r := top_lmm_match_ok top pct lv r Ht Hp |}.
