(* ===== verification/MatchAlgoTheorems.v ===== *)
(** * Properties of the matching algorithms

    The guarantees [match_algo.h] documents for each algorithm. *)

From S2P Require Import Prelude Types MatchAlgo MatchAlgoFacts MatchAlgoPriority.

#[local] Arguments qty_of : simpl never.

(** ** All single-entry algorithms *)

(** The instantiations of the [MatchAlgoT] template parameter whose fill list
    holds at most one entry per order. *)
Inductive policy : Type :=
  | PFifo
  | PProRata
  | PThreshold (MinThreshold : Quantity)
  | PAllocation
  | PLmm (MmPriorityPct : Z)
  | PTopLmm (TopPct MmPriorityPct : Z).

(** The [static_assert]s on the template arguments. *)
Definition policy_valid (p : policy) : Prop :=
  match p with
  | PLmm m => 0 <= m <= 100
  | PTopLmm t m => 0 <= t <= 100 ∧ 0 <= m <= 100
  | _ => True
  end.

Definition policy_match (p : policy) : PriceLevel → Quantity → list FillResult → option match_out :=
  match p with
  | PFifo => FifoMatch
  | PProRata => ProRataMatch
  | PThreshold m => ThresholdProRataMatch m
  | PAllocation => AllocationMatch
  | PLmm m => FifoLmmMatch m
  | PTopLmm t m => FifoTopLmmMatch t m
  end.


(** *** A concrete level for the witnesses: three resting sell orders *)

Definition sample_order (id : OrderId) (qty : Quantity) (mm : bool) : Order :=
  mkOrder id 0 0 1005000 qty 0 qty Sell Limit GTC 0 0 0 qty mm false.

Definition sample_level : PriceLevel :=
  mkLevel 0 1005000 60000 3
    [(1%nat, sample_order 1 10000 false); (2%nat, sample_order 2 20000 true);
     (3%nat, sample_order 3 30000 false)].

Lemma sample_level_ok : level_ok sample_level.
Proof. split; [|repeat constructor|reflexivity|discriminate]. by apply (bool_decide_unpack _). Defined.


(** ** FIFO *)

Lemma fifo_loop_qty price q r fs k :
  NoDup q.*1 → k ∉ q.*1 → qty_of k (fifo_loop price q r fs).2 = qty_of k fs.
Proof.
  revert r fs. induction q as [|[l o] q IH]; intros r fs Hnd Hk; cbn; [done|].
  cbn in Hnd, Hk. apply NoDup_cons in Hnd as [Hni Hnd]. apply not_elem_of_cons in Hk as [Hkl Hk].
  destruct (r >? 0); [|done].
  specialize (IH (r - Z.min r (o_remaining_quantity o))
    (fs ++ [mkFill l price (Z.min r (o_remaining_quantity o))
              (o_remaining_quantity (fill_order (Z.min r (o_remaining_quantity o)) o))]) Hnd Hk).
  destruct (fifo_loop price q _ _) as [[q' r'] fs'] eqn:E. cbn in IH |- *. rewrite IH.
  rewrite qty_of_app, qty_of_cons. cbn.
  destruct (Nat.eqb_spec l k); [congruence|]. change (qty_of k []) with 0. lia.
Qed.

Lemma qty_of_snoc k fs l price a r :
  qty_of k (fs ++ [mkFill l price a r]) = qty_of k fs + (if (l =? k)%nat then a else 0).
Proof. rewrite qty_of_app, qty_of_cons. change (qty_of k []) with 0. cbn. lia. Qed.

(** Closed form: an order gets what is left after the orders ahead of it. *)
Lemma fifo_loop_share price pre l o post r fs :
  NoDup (pre ++ (l, o) :: post).*1 →
  Forall (λ e : entry, 0 < e.2.(o_remaining_quantity)) (pre ++ (l, o) :: post) →
  qty_of l (fifo_loop price (pre ++ (l, o) :: post) r fs).2
  = qty_of l fs + Z.max 0 (Z.min o.(o_remaining_quantity)
                             (r - sum_by (λ e : entry, e.2.(o_remaining_quantity)) pre)).
Proof.
  revert r fs. induction pre as [|[k ok] pre IH]; intros r fs Hnd Hpos.
  - cbn [app sum_by] in *. rewrite fmap_cons in Hnd. apply NoDup_cons in Hnd as [Hni Hnd].
    apply Forall_cons in Hpos as [Ho _]. cbn in Ho. cbn [fifo_loop].
    destruct (r >? 0) eqn:Hr; zbool; [|cbn; lia].
    set (a := Z.min r (o_remaining_quantity o)). set (f := mkFill _ _ _ _).
    pose proof (fifo_loop_qty price post (r - a) (fs ++ [f]) l Hnd Hni) as Hl.
    destruct (fifo_loop price post _ _) as [[? ?] ?]. cbn [snd] in *. subst f.
    rewrite Hl, qty_of_snoc, Nat.eqb_refl. lia.
  - cbn [app] in *. rewrite fmap_cons in Hnd. apply NoDup_cons in Hnd as [Hni Hnd].
    apply Forall_cons in Hpos as [Hk Hpos]. cbn in Hk, Hni.
    rewrite sum_by_cons. cbn [fifo_loop snd].
    assert (0 <= sum_by (λ e : entry, o_remaining_quantity e.2) pre).
    { apply sum_by_nonneg. apply Forall_app in Hpos as [Hpos _].
      eapply Forall_impl; [exact Hpos|]. cbn. lia. }
    destruct (r >? 0) eqn:Hr; zbool; [|cbn; lia].
    set (a := Z.min r (o_remaining_quantity ok)). set (f := mkFill _ _ _ _).
    specialize (IH (r - a) (fs ++ [f]) Hnd Hpos).
    destruct (fifo_loop price _ _ _) as [[? ?] ?]. cbn [snd] in *. subst f.
    rewrite IH, qty_of_snoc. destruct (Nat.eqb_spec k l) as [->|]; [|lia].
    destruct Hni. rewrite fmap_app. apply elem_of_app. right. by left.
Qed.

(** C25: time priority.  If FIFO matching gives anything to an order, every
    order ahead of it in the queue has been filled completely. *)
Theorem fifo_time_priority price pre l o mid l' o' post remaining q' r' fs :
  let q := pre ++ (l, o) :: mid ++ (l', o') :: post in
  NoDup q.*1 → Forall (λ e : entry, 0 < e.2.(o_remaining_quantity)) q →
  FifoMatch (mkLevel 0 price (sum_by (λ e : entry, e.2.(o_remaining_quantity)) q)
               (Z.of_nat (length q)) q) remaining [] = Some (q', r', fs) →
  0 < qty_of l' fs → qty_of l fs = o.(o_remaining_quantity).
Proof.
  intros q Hnd Hpos [= Hloop] Hgot. cbn in Hloop.
  pose proof (fifo_loop_share price pre l o (mid ++ (l', o') :: post) remaining [] Hnd Hpos) as H1.
  pose proof (fifo_loop_share price (pre ++ (l, o) :: mid) l' o' post remaining []) as H2.
  rewrite <- app_assoc in H2. cbn [app] in H2. fold q in H1, H2. specialize (H2 Hnd Hpos).
  rewrite Hloop in H1, H2. cbn [snd] in H1, H2.
  change (qty_of l []) with 0 in H1. change (qty_of l' []) with 0 in H2.
  rewrite sum_by_app, sum_by_cons in H2. cbn in H2.
  apply Forall_app in Hpos as [_ [Ho [Hpos _]%Forall_app]%Forall_cons]. cbn in Ho.
  assert (0 <= sum_by (λ e : entry, o_remaining_quantity e.2) mid); [|lia].
  apply sum_by_nonneg.
  eapply Forall_impl; [exact Hpos|]. cbn. lia.
Qed.

Lemma fifo_time_priority_witness :
  qty_of 1 [mkFill 1 1005000 10000 0; mkFill 2 1005000 5000 15000] = 10000.
Proof.
  refine (fifo_time_priority 1005000 [] 1 (sample_order 1 10000 false) []
    2 (sample_order 2 20000 true) [(3%nat, sample_order 3 30000 false)] 15000 _ _ _ _ _ _ _).
  - by apply (bool_decide_unpack _).
  - repeat constructor.
  - vm_compute. reflexivity.
  - vm_compute. reflexivity.
Defined.

(** ** Pro-rata fairness *)

Lemma lot_remainder_qty price q R fs k :
  NoDup q.*1 →
  qty_of k fs <= qty_of k (lot_remainder price q R fs) <= qty_of k fs + 1 ∧
  (k ∉ q.*1 → qty_of k (lot_remainder price q R fs) = qty_of k fs).
Proof.
  revert R fs. induction q as [|[l o] q IH]; intros R fs Hnd; cbn; [split; [lia|done]|].
  cbn in Hnd. apply NoDup_cons in Hnd as [Hni Hnd].
  destruct (R >? 0); [|split; [lia|done]].
  destruct (IH (R - 1) (add_fill price l 1 fs) Hnd) as [H1 H2].
  rewrite add_fill_qty in H1, H2. destruct (Nat.eqb_spec l k) as [->|Hne].
  - rewrite H2 by done. split; [lia|]. intros Hk. destruct Hk. by left.
  - split; [lia|]. intros [_ Hk]%not_elem_of_cons. rewrite H2 by done. lia.
Qed.

(** pro-rata fairness.  Every resting order receives its proportional
    share of the filled quantity rounded down, or one lot more. *)
Theorem prorata_fair lv remaining q' r' fs l o :
  level_ok lv → 0 < remaining →
  ProRataMatch lv remaining [] = Some (q', r', fs) → (l, o) ∈ lv.(lv_queue) →
  let to_fill := Z.min remaining lv.(lv_total_quantity) in
  let exact := o.(o_remaining_quantity) * to_fill / lv.(lv_total_quantity) in
  exact <= qty_of l fs <= exact + 1.
Proof.
  intros Hlv Hr Hm Hin to_fill exact.
  destruct (base_ready lv remaining (λ a, a >? 0)) as (HF & Hal & _); [done..|intros; zbool; lia|].
  fold to_fill in HF, Hal. unfold ProRataMatch in Hm. rewrite level_ready in Hm by done.
  assert ((lv_total_quantity lv =? 0) = false) as E by lia. rewrite E in Hm. fold to_fill in Hm.
  set (base := base_alloc _ _ _ _ _) in *. set (fs0 := lot_remainder _ _ _ _) in Hm.
  pose proof (lo_nodup _ Hlv) as Hnd. pose proof (lo_pos _ Hlv) as Hpos.
  rewrite Forall_forall in Hpos. specialize (Hpos _ Hin). cbn in Hpos.
  assert (qty_of l fs = qty_of l fs0) as ->.
  { destruct (apply_results (lv_queue lv) fs0) as [q2 fs2] eqn:Happ. injection Hm as _ _ <-.
    clear -Happ. revert q2 fs2 Happ. generalize (lv_queue lv).
    induction fs0 as [|f fs0 IH]; intros q q2 fs2; cbn; [by intros [= _ <-]|].
    destruct (apply_results _ fs0) as [q3 fs3] eqn:E. intros [= _ <-].
    rewrite !qty_of_cons. cbn. by rewrite (IH _ _ _ E). }
  pose proof (lot_remainder_qty lv.(lv_price) lv.(lv_queue)
    (to_fill - sum_by f_quantity base) base l Hnd) as [Hlot _]. fold fs0 in Hlot.
  assert (qty_of l base = exact) as Hb; [|lia].
  unfold base. rewrite (base_alloc_qty _ _ _ _ _ _ _ Hnd Hin).
  unfold share. rewrite Z.quot_div_nonneg by nia. fold exact.
  assert (0 <= exact) by (apply Z.div_pos; nia).
  case_if as Hk; zbool; lia.
Qed.

Lemma prorata_fair_witness :
  30000 * 25000 / 60000 <= qty_of 3 [mkFill 1 1005000 4167 5833; mkFill 2 1005000 8333 11667;
                                      mkFill 3 1005000 12500 17500] <= 30000 * 25000 / 60000 + 1.
Proof.
  refine (prorata_fair sample_level 25000 _ _ _ 3 (sample_order 3 30000 false)
            sample_level_ok eq_refl _ _).
  - vm_compute. reflexivity.
  - cbn. right. right. left.
Defined.

(** the arithmetic of the proportional share.  With a level total up to
    [3037000499] (the integer square root of [INT64_MAX], 303 700 lots) no
    intermediate product overflows [int64_t]; one unit more and it can. *)
Theorem prorata_product_bounds :
  (∀ lv remaining l o, level_ok lv → 0 < remaining → lv.(lv_total_quantity) <= 3037000499 →
     (l, o) ∈ lv.(lv_queue) →
     in_int64 (o.(o_remaining_quantity) * Z.min remaining lv.(lv_total_quantity))) ∧
  (∃ lv remaining l o, level_ok lv ∧ in_int64 remaining ∧ lv.(lv_total_quantity) = 3037000500 ∧
     (l, o) ∈ lv.(lv_queue) ∧
     ¬ in_int64 (o.(o_remaining_quantity) * Z.min remaining lv.(lv_total_quantity))).
Proof.
  split.
  - intros lv remaining l o Hlv Hr HT Hin. destruct Hlv as [Hnd Hpos Htot _].
    assert (0 < o_remaining_quantity o <= lv_total_quantity lv).
    { rewrite Htot. split; [rewrite Forall_forall in Hpos; by apply (Hpos _ Hin)|].
      apply (sum_by_elem_le (λ e : entry, e.2.(o_remaining_quantity)) _ (l, o)); [|done].
      eapply Forall_impl; [exact Hpos|]. cbn. lia. }
    unfold in_int64, int64_min, int64_max. nia.
  - exists (mkLevel 0 1 3037000500 1 [(1%nat, sample_order 1 3037000500 false)]), 3037000500, 1%nat,
      (sample_order 1 3037000500 false).
    split; [split; [by apply (bool_decide_unpack _)|repeat constructor|reflexivity|discriminate]|].
    split; [by unfold in_int64, int64_min, int64_max; lia|]. split; [reflexivity|].
    split; [by left|]. unfold in_int64, int64_min, int64_max. cbn. lia.
Qed.

(** ** Lead market maker *)

(** the two degenerate cases the header documents.  With a priority of
    0 %, or with no market maker at the level, LMM matching is FIFO. *)
Theorem lmm_degenerates_to_fifo pct lv remaining :
  level_ok lv → 0 < remaining → 0 <= pct <= 100 →
  pct = 0 ∨ Forall (λ e : entry, e.2.(o_is_market_maker) = false) lv.(lv_queue) →
  FifoLmmMatch pct lv remaining [] = FifoMatch lv remaining [].
Proof.
  intros Hlv Hr Hp Hdeg. unfold FifoLmmMatch, FifoMatch. rewrite level_ready by done.
  assert (Z.min (Z.quot (remaining * pct) 100) (mm_resting lv.(lv_queue)) <= 0) as Hz.
  { destruct Hdeg as [->|Hno]; [rewrite Z.mul_0_r, Z.quot_0_l by done; lia|].
    assert (mm_resting lv.(lv_queue) = 0); [|lia]. unfold mm_resting.
    induction Hno as [|e q He _ IH]; [done|]. rewrite sum_by_cons, He, IH. done. }
  assert ((Z.min (Z.quot (remaining * pct) 100) (mm_resting lv.(lv_queue)) >? 0) = false) as -> by lia.
  by rewrite (fifo_loop_merge merge_last) by (apply Hlv || apply fresh_nil, Hlv).
Qed.

Lemma lmm_degenerates_to_fifo_witness :
  FifoLmmMatch 0 sample_level 25000 [] = FifoMatch sample_level 25000 [].
Proof. apply lmm_degenerates_to_fifo; [apply sample_level_ok|lia|lia|by left]. Defined.

Lemma mm_resting_cons e q :
  mm_resting (e :: q)
  = (if e.2.(o_is_market_maker) then e.2.(o_remaining_quantity) else 0) + mm_resting q.
Proof. reflexivity. Qed.

#[local] Arguments mm_resting : simpl never.

Lemma mm_resting_nonneg q :
  Forall (λ e : entry, 0 <= e.2.(o_remaining_quantity)) q → 0 <= mm_resting q.
Proof.
  intros Hq. apply sum_by_nonneg. eapply Forall_impl; [exact Hq|].
  intros e He. cbn in *. destruct (o_is_market_maker e.2); lia.
Qed.

Lemma lmm_priority_takes price q mm r fs :
  0 <= mm → Forall (λ e : entry, 0 <= e.2.(o_remaining_quantity)) q →
  let '(q', _, _) := lmm_priority price q mm r fs in
  mm_resting q' = mm_resting q - Z.min mm (mm_resting q) ∧
  Forall (λ e : entry, 0 <= e.2.(o_remaining_quantity)) q'.
Proof.
  intros Hmm Hq. revert mm r fs Hmm.
  induction Hq as [|[l o] q Ho Hq IH]; intros mm r fs Hmm; cbn [lmm_priority].
  { change (mm_resting []) with 0. split; [lia|constructor]. }
  pose proof (mm_resting_nonneg _ Hq) as Hnn. cbn in Ho.
  destruct (mm >? 0) eqn:E; zbool.
  2:{ rewrite mm_resting_cons. cbn. split; [destruct (o_is_market_maker o); lia|by constructor]. }
  destruct (o_is_market_maker o) eqn:Eo.
  - set (a := Z.min mm (o_remaining_quantity o)).
    specialize (IH (mm - a) (r - a) (fs ++ [mkFill l price a (o_remaining_quantity (fill_order a o))])
                   ltac:(lia)).
    destruct (lmm_priority _ _ _ _ _) as [[q' r'] fs']. destruct IH as [IH1 IH2].
    rewrite !mm_resting_cons. cbn. rewrite Eo. split; [lia|]. constructor; [cbn; lia|done].
  - specialize (IH mm r fs Hmm). destruct (lmm_priority _ _ _ _ _) as [[q' r'] fs'].
    destruct IH as [IH1 IH2]. rewrite !mm_resting_cons. cbn. rewrite Eo. split; [lia|by constructor].
Qed.

Lemma merge_fifo_mm merge price q r fs :
  Forall (λ e : entry, 0 <= e.2.(o_remaining_quantity)) q →
  let '(q', _, _) := merge_fifo merge price q r fs in mm_resting q' <= mm_resting q.
Proof.
  intros Hq. revert r fs.
  induction Hq as [|[l o] q Ho Hq IH]; intros r fs; cbn [merge_fifo]; [lia|]. cbn in Ho.
  destruct (r >? 0) eqn:E; zbool; [|lia].
  destruct (o_remaining_quantity o >? 0) eqn:E2; zbool.
  - set (a := Z.min r (o_remaining_quantity o)). set (res := record_fill _ _ _ _ _ _).
    specialize (IH (r - a) res). destruct (merge_fifo _ _ _ _ _) as [[q' r'] fs'].
    rewrite !mm_resting_cons. cbn. destruct (o_is_market_maker o); lia.
  - specialize (IH r fs). destruct (merge_fifo _ _ _ _ _) as [[q' r'] fs'].
    rewrite !mm_resting_cons. lia.
Qed.

(** the market-maker guarantee.  LMM matching gives the market makers of
    the level, together, at least the reserved percentage of the aggressor's
    quantity, or everything they have when they have less. *)
Theorem lmm_guarantee pct lv remaining q' r' fs :
  level_ok lv → 0 < remaining → 0 <= pct <= 100 →
  FifoLmmMatch pct lv remaining [] = Some (q', r', fs) →
  Z.min (remaining * pct / 100) (mm_resting lv.(lv_queue))
  <= mm_resting lv.(lv_queue) - mm_resting q'.
Proof.
  intros Hlv Hr Hp. unfold FifoLmmMatch. rewrite level_ready by done.
  pose proof (pct_bounds remaining pct Hr Hp) as Hb.
  rewrite <- Z.quot_div_nonneg by nia. set (mm := Z.min _ _).
  assert (Forall (λ e : entry, 0 <= e.2.(o_remaining_quantity)) lv.(lv_queue)) as Hnn.
  { eapply Forall_impl; [apply Hlv|]. cbn. lia. }
  destruct (mm >? 0) eqn:E; zbool.
  - pose proof (lmm_priority_takes lv.(lv_price) lv.(lv_queue) mm remaining [] ltac:(lia) Hnn) as H1.
    destruct (lmm_priority _ _ _ _ _) as [[q1 r1] fs1]. destruct H1 as [H1 Hq1].
    pose proof (merge_fifo_mm merge_last lv.(lv_price) q1 r1 fs1 Hq1) as H2.
    destruct (merge_fifo _ _ _ _ _) as [[q2 r2] fs2]. intros [= <- <- <-]. lia.
  - pose proof (merge_fifo_mm merge_last lv.(lv_price) lv.(lv_queue) remaining [] Hnn) as H2.
    destruct (merge_fifo _ _ _ _ _) as [[q2 r2] fs2]. intros [= <- <- <-].
    pose proof (mm_resting_nonneg _ Hnn). lia.
Qed.

Lemma lmm_guarantee_witness :
  Z.min (25000 * 40 / 100) 20000 <= 20000 - mm_resting
    [(1%nat, fill_order 10000 (sample_order 1 10000 false));
     (2%nat, fill_order 15000 (sample_order 2 20000 true));
     (3%nat, sample_order 3 30000 false)].
Proof.
  refine (lmm_guarantee 40 sample_level 25000 _ _ _ sample_level_ok _ _ _); [lia|lia|].
  vm_compute. reflexivity.
Defined.

(** ** Allocation: remainder to the largest order *)

Lemma largest_scan_spec q fs best bq l :
  largest_with_capacity q fs best bq = Some l →
  (best = Some l ∧ Forall (λ e : entry, first_qty e.1 fs < e.2.(o_remaining_quantity) →
                                        e.2.(o_remaining_quantity) <= bq) q) ∨
  ∃ pre o post, q = pre ++ (l, o) :: post ∧ first_qty l fs < o.(o_remaining_quantity) ∧
    bq < o.(o_remaining_quantity) ∧
    Forall (λ e : entry, first_qty e.1 fs < e.2.(o_remaining_quantity) →
                         e.2.(o_remaining_quantity) < o.(o_remaining_quantity)) pre ∧
    Forall (λ e : entry, first_qty e.1 fs < e.2.(o_remaining_quantity) →
                         e.2.(o_remaining_quantity) <= o.(o_remaining_quantity)) post.
Proof.
  revert best bq. induction q as [|[k o] q IH]; intros best bq; cbn.
  { intros ->. left. split; [done|constructor]. }
  destruct (_ && _) eqn:E; zbool; intros Hs; apply IH in Hs as
    [[Hb Hall]|(pre & o' & post & -> & H1 & H2 & H3 & H4)].
  - injection Hb as ->. right. exists [], o, q. split_and!; [done|lia|lia|constructor|done].
  - right. exists ((k, o) :: pre), o', post. split_and!; [done|done|lia| |done].
    constructor; [cbn; lia|done].
  - left. split; [done|]. constructor; [cbn|done]. apply andb_false_iff in E as [E|E]; zbool; lia.
  - right. exists ((k, o) :: pre), o', post. split_and!; [done|done|done| |done].
    constructor; [cbn|done]. apply andb_false_iff in E as [E|E]; zbool; lia.
Qed.

(** size priority of the allocation algorithm.  A remainder lot goes to
    an order with room for it whose resting size is the largest among the
    orders with room, and to the oldest of these. *)
Theorem allocation_lot_goes_to_largest q fs l :
  largest_with_capacity q fs None (-1) = Some l →
  ∃ pre o post, q = pre ++ (l, o) :: post ∧ first_qty l fs < o.(o_remaining_quantity) ∧
    Forall (λ e : entry, first_qty e.1 fs < e.2.(o_remaining_quantity) →
                         e.2.(o_remaining_quantity) < o.(o_remaining_quantity)) pre ∧
    Forall (λ e : entry, first_qty e.1 fs < e.2.(o_remaining_quantity) →
                         e.2.(o_remaining_quantity) <= o.(o_remaining_quantity)) post.
Proof.
  intros [[? _]|(pre & o & post & ? & ? & _ & ? & ?)]%largest_scan_spec; [done|].
  by exists pre, o, post.
Qed.

Lemma allocation_lot_goes_to_largest_witness :
  largest_with_capacity sample_level.(lv_queue) [] None (-1) = Some 3%nat ∧
  ∃ pre o post, sample_level.(lv_queue) = pre ++ (3%nat, o) :: post ∧
    first_qty 3 [] < o.(o_remaining_quantity) ∧
    Forall (λ e : entry, first_qty e.1 [] < e.2.(o_remaining_quantity) →
                         e.2.(o_remaining_quantity) < o.(o_remaining_quantity)) pre ∧
    Forall (λ e : entry, first_qty e.1 [] < e.2.(o_remaining_quantity) →
                         e.2.(o_remaining_quantity) <= o.(o_remaining_quantity)) post.
Proof.
  split; [reflexivity|]. apply (allocation_lot_goes_to_largest sample_level.(lv_queue) [] 3).
  reflexivity.
Defined.

(** ** FIFO/pro-rata split *)

Lemma split_fifo_loop price q r fs :
  Forall (λ e : entry, 0 < e.2.(o_remaining_quantity)) q →
  split_fifo price q r fs = ((fifo_loop price q r fs).1.1, (fifo_loop price q r fs).2).
Proof.
  intros Hq. revert r fs. induction Hq as [|[l o] q Ho _ IH]; intros r fs; cbn; [done|].
  cbn in Ho. destruct (r >? 0) eqn:E; zbool; [|done].
  assert ((Z.min r (o_remaining_quantity o) >? 0) = true) as -> by lia.
  rewrite IH. by destruct (fifo_loop price q _ _) as [[? ?] ?].
Qed.

Lemma split_remainder_spec price q0 q R fs :
  NoDup q0.*1 → NoDup q.*1 → q ⊆ q0 → allocation price q0 fs → 0 <= R <= capacity fs q →
  allocation price q0 (split_remainder price q R fs) ∧
  sum_by f_quantity (split_remainder price q R fs) = sum_by f_quantity fs + R.
Proof.
  intros Hnd0. revert R fs. induction q as [|[l o] q IH]; intros R fs Hnd Hsub Hal HR.
  { unfold capacity in HR. cbn in *. split; [done|lia]. }
  rewrite fmap_cons in Hnd. apply NoDup_cons in Hnd as [Hni Hnd]. cbn in Hni.
  assert ((l, o) ∈ q0) as Hin by (apply Hsub; by left).
  assert (q ⊆ q0) as Hsub' by (intros x Hx; apply Hsub; by right).
  pose proof (al_cap _ _ _ Hal) as Hcap. rewrite Forall_forall in Hcap.
  specialize (Hcap _ Hin). cbn in Hcap.
  pose proof (qty_of_nonneg _ _ l _ Hal) as Hnn. rewrite capacity_cons in HR. cbn in HR.
  cbn [split_remainder]. rewrite <- qty_of_first by apply Hal.
  set (add := Z.min R (o_remaining_quantity o - qty_of l fs)).
  destruct (R >? 0) eqn:ER; zbool; [|split; [done|lia]].
  destruct (o_remaining_quantity o >? 0) eqn:Eo; zbool; [destruct (add >? 0) eqn:Ea; zbool|].
  - destruct (IH (R - add) (add_fill price l add fs)) as [Hal' Hs]; [done|done| | |].
    + apply add_fill_allocation with (o := o); [done|done|done|done|lia].
    + rewrite capacity_add_fill by done. pose proof (capacity_nonneg _ q0 q _ Hal Hsub'). lia.
    + split; [done|]. rewrite Hs, add_fill_sum. lia.
  - apply IH; [done..|]. subst add. lia.
  - apply IH; [done..|]. lia.
Qed.

Lemma live_entries_allocation price q fs :
  Forall (λ e : entry, 0 <= e.2.(o_remaining_quantity)) q → NoDup q.*1 →
  allocation price (live_entries q) fs → allocation price q fs.
Proof.
  intros Hnn Hnd [H1 H2 H3]. unfold live_entries in *. split; [done| |].
  - eapply Forall_impl; [exact H2|]. intros f (?&?&Hin). split_and!; [done..|].
    apply list_elem_of_fmap in Hin as (e & -> & [_ He]%list_elem_of_filter).
    by apply list_elem_of_fmap_2.
  - rewrite Forall_forall in H3, Hnn |- *. intros [l o] Hin. cbn.
    destruct (decide (0 < o_remaining_quantity o)).
    + apply (H3 (l, o)). by apply list_elem_of_filter.
    + rewrite qty_of_not_in; [by apply (Hnn (l, o))|]. intros Hl.
      apply list_elem_of_fmap in Hl as (f & Hl & Hf). rewrite Forall_forall in H2.
      destruct (H2 f Hf) as (_ & _ & Hin'). rewrite <- Hl in Hin'.
      apply list_elem_of_fmap in Hin' as ([l' o''] & Hl' & [Hp He]%list_elem_of_filter).
      cbn in Hl', Hp. subst l'. rewrite (elem_unique _ _ _ _ Hnd Hin He) in n. done.
Qed.

Lemma live_entries_sublist q : (live_entries q).*1 `sublist_of` q.*1.
Proof.
  unfold live_entries. induction q as [|e q IH]; [done|].
  rewrite filter_cons. case_decide; cbn; by constructor.
Qed.

Lemma live_entries_sum q :
  Forall (λ e : entry, 0 <= e.2.(o_remaining_quantity)) q →
  sum_by (λ e : entry, e.2.(o_remaining_quantity)) (live_entries q)
  = sum_by (λ e : entry, e.2.(o_remaining_quantity)) q.
Proof.
  unfold live_entries. induction 1 as [|e q He _ IH]; [done|].
  rewrite filter_cons. case_decide; rewrite ?sum_by_cons, IH; lia.
Qed.

Lemma fill_all_twice fs gs q : fill_all gs (fill_all fs q) = fill_all (fs ++ gs) q.
Proof.
  unfold fill_all. rewrite <- list_fmap_compose. apply list_fmap_ext. intros i e _. cbn.
  by rewrite fill_order_add, qty_of_app.
Qed.

Lemma apply_results_qty q fs q' fs' l :
  apply_results q fs = (q', fs') →
  qty_of l fs' = qty_of l fs ∧ sum_by f_quantity fs' = sum_by f_quantity fs.
Proof.
  revert q q' fs'. induction fs as [|f fs IH]; intros q q' fs'; cbn; [by intros [= <- <-]|].
  destruct (apply_results _ fs) as [q2 fs2] eqn:E. intros [= <- <-].
  destruct (IH _ _ _ E) as [H1 H2]. rewrite !qty_of_cons. cbn. by rewrite H1, H2.
Qed.

(** The pro-rata phase of the split on the queue the FIFO phase left. *)
Lemma split_prorata_phase price q1 want :
  NoDup q1.*1 → Forall (λ e : entry, 0 <= e.2.(o_remaining_quantity)) q1 →
  let have := sum_by (λ e : entry, e.2.(o_remaining_quantity)) q1 in
  let F := Z.min want have in
  let base := base_alloc price F have (λ a, a >? 0) (live_entries q1) in
  let fs := split_remainder price q1 (F - sum_by f_quantity base) base in
  0 < want → 0 < have →
  allocation price q1 fs ∧ sum_by f_quantity fs = F.
Proof.
  intros Hnd Hnn have F base fs Hw Hh. assert (0 < F <= have) as HF by lia.
  assert (Forall (λ e : entry, 0 < e.2.(o_remaining_quantity)) (live_entries q1)) as Hlive.
  { apply Forall_forall. by intros e [? _]%list_elem_of_filter. }
  assert (NoDup (live_entries q1).*1) as HndL.
  { eapply sublist_NoDup; [exact Hnd|]. apply live_entries_sublist. }
  assert (allocation price q1 base) as Hal.
  { apply live_entries_allocation; [done..|].
    apply base_alloc_allocation; [done| |done..]. intros; zbool; lia. }
  pose proof (base_alloc_sum_le price F have (λ a, a >? 0) HF _ Hlive) as [Hs0 Hs1].
  rewrite live_entries_sum in Hs1 by done. fold have base in Hs0, Hs1.
  destruct (split_remainder_spec price q1 q1 (F - sum_by f_quantity base) base) as [Hal' Hs];
    [done|done|reflexivity|done| |].
  - rewrite (capacity_total price) by done. fold have. nia.
  - split; [done|]. unfold fs. lia.
Qed.

(** the split algorithm.  For every percentage, the FIFO and pro-rata
    passes together allocate exactly [min(remaining, level total)]; the orders
    change by exactly their fills (an order may have one in each pass) and
    none is filled beyond its quantity. *)
Theorem split_allocates_exactly pct lv remaining :
  level_ok lv → 0 < remaining → 0 <= pct <= 100 →
  ∃ q' r' fs, SplitFifoProRataMatch pct lv remaining [] = Some (q', r', fs) ∧
    q' = fill_all fs lv.(lv_queue) ∧
    sum_by f_quantity fs = Z.min remaining lv.(lv_total_quantity) ∧
    r' = remaining - sum_by f_quantity fs ∧
    Forall (λ e : entry, 0 <= e.2.(o_remaining_quantity)) q'.
Proof.
  intros Hlv Hr Hp. pose proof (level_total_pos _ Hlv) as HT.
  unfold SplitFifoProRataMatch. rewrite level_ready by done.
  set (F := Z.min remaining (lv_total_quantity lv)). assert (0 < F) by lia.
  pose proof (pct_bounds F pct ltac:(lia) Hp) as Hf. set (fq := Z.quot (F * pct) 100) in *.
  rewrite split_fifo_loop by apply Hlv.
  rewrite (fifo_loop_merge merge_fill) by (apply Hlv || apply fresh_nil, Hlv).
  pose proof (accounted_init lv.(lv_price) _ (lo_pos _ Hlv)) as Hinit.
  destruct (merge_fifo_spec lv.(lv_price) _ (lo_nodup _ Hlv) merge_fill [] lv.(lv_queue) fq []
    merge_fill_like Hinit) as (q1 & r1 & fs1 & -> & Hacc & Hr1 & Hs1); [lia|]. cbn [fst snd app] in *.
  rewrite <- (lo_total _ Hlv) in Hr1. cbn in Hs1.
  pose proof (accounted_rem _ _ (lo_nodup _ Hlv) _ _ Hacc) as Hq1.
  rewrite <- (lo_total _ Hlv) in Hq1.
  pose proof (accounted_nonneg _ _ _ _ Hacc) as Hnn.
  assert (NoDup q1.*1) as Hnd1 by (rewrite (accounted_locs _ _ _ _ Hacc); apply Hlv).
  destruct Hacc as [Hq1f _ _].
  destruct ((F - fq >? 0) && _) eqn:E.
  - zbool. destruct (split_prorata_phase lv.(lv_price) q1 (F - fq)) as [Hal Hs]; [done..|].
    pose proof (apply_results_spec _ _ _ Hnd1 Hal) as Happ.
    destruct (apply_results q1 _) as [q2 fs2] eqn:E2. injection Happ as -> _.
    pose proof (λ l, apply_results_qty _ _ _ _ l E2) as Hqty.
    eexists _, _, _. split; [done|].
    assert (sum_by f_quantity (fs1 ++ fs2) = F) as Hsum.
    { rewrite sum_by_app, (proj2 (Hqty 0%nat)), Hs. lia. }
    split_and!; [|done|lia|].
    + rewrite <- fill_all_twice, <- Hq1f. unfold fill_all. apply list_fmap_ext. intros i e _.
      by rewrite (proj1 (Hqty e.1)).
    + unfold fill_all. apply Forall_fmap. eapply Forall_impl; [apply Hal|].
      intros e He. cbn in *. lia.
  - eexists _, _, _. split; [done|]. assert (sum_by f_quantity fs1 = F).
    { apply andb_false_iff in E as [E|E]; zbool; lia. }
    split_and!; [done|done|lia|done].
Qed.

Lemma split_allocates_exactly_witness :
  ∃ q' r' fs, SplitFifoProRataMatch 40 sample_level 25000 [] = Some (q', r', fs) ∧
    q' = fill_all fs sample_level.(lv_queue) ∧
    sum_by f_quantity fs = Z.min 25000 sample_level.(lv_total_quantity) ∧
    r' = 25000 - sum_by f_quantity fs ∧
    Forall (λ e : entry, 0 <= e.2.(o_remaining_quantity)) q'.
Proof. apply (split_allocates_exactly 40 sample_level 25000 sample_level_ok); lia. Defined.
