(* ===== verification/Books.v ===== *)
(** * Sorted price levels: the contents of [OrderBook] and [StopBook]

    One side of a book is the list of its price levels from best to worst,
    each with its queue.  The operations below are those of [orderbook.cc] and
    [stop_book.cc] read on that list; [BookHeap] has the same operations on
    linked nodes and proves that they compute these.  The invariants are
    stated through [entries] (the orders linked on a side), [keys] (slot and
    identifier of each) and [slots] (the level structs in use). *)

From S2P Require Import Prelude Types MatchAlgo MatchAlgoFacts.

(** ** Definitions *)

(** [a] comes before [b] on the side: the tests [lv->price > cur->price]
    (bids, sell stops) and [lv->price < cur->price] (asks, buy stops) of the
    two [link_level] functions. *)
Definition higher_first (a b : Price) : bool := a >? b.
Definition lower_first (a b : Price) : bool := a <? b.

(** The lists of the order book and of the stop book, by side. *)
Definition book_before (side : Side) : Price → Price → bool :=
  match side with Buy => higher_first | Sell => lower_first end.
Definition stop_before (side : Side) : Price → Price → bool :=
  match side with Buy => lower_first | Sell => higher_first end.

(** [find_level]: the first level at the price. *)
Fixpoint find_level (price : Price) (levels : list PriceLevel) : option PriceLevel :=
  match levels with
  | [] => None
  | lv :: rest => if lv.(lv_price) =? price then Some lv else find_level price rest
  end.

(** [link_level]: before the first level that [lv] precedes, or at the back. *)
Fixpoint link_level (before : Price → Price → bool) (lv : PriceLevel)
    (levels : list PriceLevel) : list PriceLevel :=
  match levels with
  | [] => [lv]
  | cur :: rest =>
      if before lv.(lv_price) cur.(lv_price) then lv :: cur :: rest
      else cur :: link_level before lv rest
  end.

(** Append an order to a level and update its totals. *)
Definition append_order (e : entry) (lv : PriceLevel) : PriceLevel :=
  mkLevel lv.(lv_slot) lv.(lv_price)
    (lv.(lv_total_quantity) + e.2.(o_remaining_quantity))
    (lv.(lv_order_count) + 1) (lv.(lv_queue) ++ [e]).

(** Replace the first level at the price. *)
Fixpoint at_level (price : Price) (g : PriceLevel → PriceLevel)
    (levels : list PriceLevel) : list PriceLevel :=
  match levels with
  | [] => []
  | lv :: rest =>
      if lv.(lv_price) =? price then g lv :: rest else lv :: at_level price g rest
  end.

(** [insert_order]/[insert_stop] with [new_slot] the level struct supplied by
    the caller; the boolean is [used == new_level_if_needed]. *)
Definition insert_order (before : Price → Price → bool) (e : entry) (new_slot : loc)
    (levels : list PriceLevel) : list PriceLevel * bool :=
  let price := e.2.(o_price) in
  match find_level price levels with
  | Some _ => (at_level price (append_order e) levels, false)
  | None =>
      (at_level price (append_order e)
         (link_level before (mkLevel new_slot price 0 0 []) levels), true)
  end.

(** Unlink an order from its level's list. *)
Fixpoint remove_entry (l : loc) (q : list entry) : list entry :=
  match q with
  | [] => []
  | e :: q' => if (e.1 =? l)%nat then q' else e :: remove_entry l q'
  end.

Definition detach_order (l : loc) (rem : Quantity) (lv : PriceLevel) : PriceLevel :=
  mkLevel lv.(lv_slot) lv.(lv_price) (lv.(lv_total_quantity) - rem)
    (lv.(lv_order_count) - 1) (remove_entry l lv.(lv_queue)).

(** [remove_order]/[remove_stop] of the order at [l]: the order, and the level
    struct if it became empty and was unlinked.  [None]: the order is not
    linked on this side. *)
Fixpoint remove_order (l : loc) (levels : list PriceLevel)
    : option (list PriceLevel * Order * option loc) :=
  match levels with
  | [] => None
  | lv :: rest =>
      match find_entry l lv.(lv_queue) with
      | Some o =>
          let lv' := detach_order l o.(o_remaining_quantity) lv in
          if lv'.(lv_order_count) =? 0 then Some (rest, o, Some lv.(lv_slot))
          else Some (lv' :: rest, o, None)
      | None =>
          match remove_order l rest with
          | Some (rest', o, freed) => Some (lv :: rest', o, freed)
          | None => None
          end
      end
  end.

(** The order an [Order*] points to, and its [order->level]. *)
Fixpoint find_order (l : loc) (levels : list PriceLevel) : option (Order * PriceLevel) :=
  match levels with
  | [] => None
  | lv :: rest =>
      match find_entry l lv.(lv_queue) with
      | Some o => Some (o, lv)
      | None => find_order l rest
      end
  end.

(** Write to the order at [l] and to its level. *)
Fixpoint update_order (l : loc) (g : Order → Order) (h : PriceLevel → PriceLevel)
    (levels : list PriceLevel) : list PriceLevel :=
  match levels with
  | [] => []
  | lv :: rest =>
      match find_entry l lv.(lv_queue) with
      | Some _ => h (set_lv_queue (update_entry l g lv.(lv_queue)) lv) :: rest
      | None => lv :: update_order l g h rest
      end
  end.

Definition add_total (d : Quantity) (lv : PriceLevel) : PriceLevel :=
  set_lv_total_quantity (lv.(lv_total_quantity) + d) lv.

(** [list_remove(lv->head, lv->tail, order); list_push_back(...)]. *)
Definition move_to_back (l : loc) (lv : PriceLevel) : PriceLevel :=
  match find_entry l lv.(lv_queue) with
  | Some o => set_lv_queue (remove_entry l lv.(lv_queue) ++ [(l, o)]) lv
  | None => lv
  end.

(** ** What a side holds *)

Definition entries (levels : list PriceLevel) : list entry :=
  levels ≫= lv_queue.
Definition key (e : entry) : loc * OrderId := (e.1, e.2.(o_id)).
Definition keys (levels : list PriceLevel) : list (loc * OrderId) := key <$> entries levels.
Definition slots (levels : list PriceLevel) : list loc := lv_slot <$> levels.
Definition prices (levels : list PriceLevel) : list Price := lv_price <$> levels.

(** The level's bookkeeping agrees with its queue. *)
Record lv_ok (P : Price → Order → Prop) (lv : PriceLevel) : Prop := {
  lk_nonempty : lv.(lv_queue) ≠ [];
  lk_count : lv.(lv_order_count) = Z.of_nat (length lv.(lv_queue));
  lk_total : lv.(lv_total_quantity)
             = sum_by (λ e : entry, e.2.(o_remaining_quantity)) lv.(lv_queue);
  lk_orders : Forall (λ e : entry, P lv.(lv_price) e.2) lv.(lv_queue)
}.

(** Strictly sorted levels, every one in order. *)
Record side_ok (before : Price → Price → bool) (P : Price → Order → Prop)
    (levels : list PriceLevel) : Prop := {
  so_sorted : StronglySorted (λ a b, before a b = true) (prices levels);
  so_levels : Forall (lv_ok P) levels
}.

(** The two comparisons are strict total orders. *)
Class PriceOrder (before : Price → Price → bool) : Prop := {
  po_trans : ∀ a b c, before a b = true → before b c = true → before a c = true;
  po_irrefl : ∀ a, before a a = false;
  po_total : ∀ a b, a ≠ b → before a b = false → before b a = true
}.

#[global] Instance higher_first_order : PriceOrder higher_first.
Proof. unfold higher_first. split; intros; zbool; lia. Qed.
#[global] Instance lower_first_order : PriceOrder lower_first.
Proof. unfold lower_first. split; intros; zbool; lia. Qed.

Lemma entries_cons lv levels : entries (lv :: levels) = lv.(lv_queue) ++ entries levels.
Proof. reflexivity. Qed.

Lemma keys_cons lv levels : keys (lv :: levels) = (key <$> lv.(lv_queue)) ++ keys levels.
Proof. unfold keys. by rewrite entries_cons, fmap_app. Qed.

#[global] Arguments entries : simpl never.
#[global] Arguments keys : simpl never.

Lemma find_entry_Some l q o : find_entry l q = Some o → (l, o) ∈ q.
Proof.
  induction q as [|[k o'] q IH]; cbn; [done|].
  destruct (Nat.eqb_spec k l) as [->|]; [intros [= ->]; by left|]. intros H. right. auto.
Qed.

Lemma find_entry_None l q : find_entry l q = None ↔ l ∉ q.*1.
Proof.
  induction q as [|[k o'] q IH]; cbn; [split; [intros _; apply not_elem_of_nil|done]|].
  rewrite not_elem_of_cons. destruct (Nat.eqb_spec k l) as [->|]; [by split; [|intros []]|].
  rewrite IH. split; [by split|by intros []].
Qed.

Lemma remove_entry_perm l q o :
  find_entry l q = Some o → q ≡ₚ (l, o) :: remove_entry l q.
Proof.
  induction q as [|[k o'] q IH]; cbn; [done|].
  destruct (Nat.eqb_spec k l) as [->|]; [by intros [= ->]|].
  intros H. rewrite (IH H) at 1. apply Permutation_swap.
Qed.

Lemma remove_entry_length l q o :
  find_entry l q = Some o → length q = S (length (remove_entry l q)).
Proof. intros H. by rewrite (remove_entry_perm l q o H) at 1. Qed.

Lemma find_order_Some l levels o lv :
  find_order l levels = Some (o, lv) → lv ∈ levels ∧ (l, o) ∈ lv.(lv_queue).
Proof.
  induction levels as [|lv' levels IH]; cbn; [done|].
  destruct (find_entry l _) as [o'|] eqn:E.
  - intros [= -> ->]. split; [by left|]. by apply find_entry_Some.
  - intros H. destruct (IH H). split; [by right|done].
Qed.

Lemma find_order_None l levels : find_order l levels = None ↔ l ∉ (keys levels).*1.
Proof.
  induction levels as [|lv levels IH]; cbn.
  { split; [intros _; apply not_elem_of_nil|done]. }
  rewrite keys_cons, fmap_app, elem_of_app.
  assert ((key <$> lv_queue lv).*1 = (lv_queue lv).*1) as -> by (by rewrite <- list_fmap_compose).
  destruct (find_entry l _) as [o'|] eqn:E.
  - apply find_entry_Some, (list_elem_of_fmap_2 fst) in E. split; [done|]. intros []. by left.
  - apply find_entry_None in E. rewrite IH. split; [intros ? []; done|auto].
Qed.

Lemma find_order_elem l o lv levels :
  NoDup (keys levels).*1 → lv ∈ levels → (l, o) ∈ lv.(lv_queue) →
  find_order l levels = Some (o, lv).
Proof.
  induction levels as [|lv' levels IH]; [intros _ H; inversion H|].
  rewrite keys_cons, fmap_app. intros (Hnd1 & Hdis & Hnd2)%NoDup_app Hlv Hin. cbn.
  assert (Hk : (key <$> lv_queue lv').*1 = (lv_queue lv').*1) by (by rewrite <- list_fmap_compose).
  rewrite Hk in *. apply elem_of_cons in Hlv as [->|Hlv].
  - by rewrite (find_entry_elem l o).
  - rewrite (proj2 (find_entry_None l _)); [by apply IH|].
    intros Hl. apply (Hdis _ Hl). apply list_elem_of_fmap. exists (key (l, o)). split; [done|].
    apply list_elem_of_fmap_2. unfold entries. apply list_elem_of_bind. eauto.
Qed.

(** ** Insertion *)

Section insert.
Context (before : Price → Price → bool) `{!PriceOrder before}.
Context (P : Price → Order → Prop).
Implicit Types (levels : list PriceLevel).

Lemma find_level_Some price levels lv :
  find_level price levels = Some lv → lv ∈ levels ∧ lv.(lv_price) = price.
Proof.
  induction levels as [|lv' levels IH]; cbn; [done|]. case_if as E; zbool.
  - intros [= ->]. split; [by left|done].
  - intros H. destruct (IH H). split; [by right|done].
Qed.

Lemma find_level_None price levels : find_level price levels = None ↔ price ∉ prices levels.
Proof.
  induction levels as [|lv levels IH]; cbn; [split; [intros _; apply not_elem_of_nil|done]|].
  rewrite not_elem_of_cons. case_if as E; zbool.
  - split; [done|]. intros []. congruence.
  - rewrite IH. split; [|by intros []]. intros. split; [congruence|done].
Qed.

Lemma link_level_perm lv levels : link_level before lv levels ≡ₚ lv :: levels.
Proof.
  induction levels as [|cur levels IH]; cbn; [done|]. case_if as E; [done|].
  rewrite IH. apply Permutation_swap.
Qed.

Lemma link_level_sorted lv levels :
  StronglySorted (λ a b, before a b = true) (prices levels) →
  lv.(lv_price) ∉ prices levels →
  StronglySorted (λ a b, before a b = true) (prices (link_level before lv levels)).
Proof using PriceOrder0.
  unfold prices. induction levels as [|cur levels IH]; cbn; [repeat constructor|].
  intros [Hs Hall]%StronglySorted_inv [Hne Hni]%not_elem_of_cons. case_if as E; cbn.
  - constructor; [by constructor|]. constructor; [done|].
    eapply Forall_impl; [exact Hall|]. intros p Hp. by apply (po_trans _ (lv_price cur)).
  - constructor; [by apply IH|]. rewrite link_level_perm. cbn.
    constructor; [|done]. apply po_total; done.
Qed.

Lemma at_level_prices price g levels :
  (∀ lv, lv_price (g lv) = lv_price lv) → prices (at_level price g levels) = prices levels.
Proof.
  intros Hg. unfold prices. induction levels as [|lv levels IH]; cbn; [done|].
  case_if as E; cbn; by rewrite ?Hg, ?IH.
Qed.

Lemma at_level_slots price g levels :
  (∀ lv, lv_slot (g lv) = lv_slot lv) → slots (at_level price g levels) = slots levels.
Proof.
  intros Hg. unfold slots. induction levels as [|lv levels IH]; cbn; [done|].
  case_if as E; cbn; by rewrite ?Hg, ?IH.
Qed.

Lemma at_level_append_keys price e levels :
  price ∈ prices levels → keys (at_level price (append_order e) levels) ≡ₚ key e :: keys levels.
Proof.
  unfold prices. induction levels as [|lv levels IH]; cbn; [intros H; inversion H|].
  case_if as E; zbool; rewrite !keys_cons; cbn.
  - intros _. rewrite fmap_app, <- app_assoc. cbn. symmetry. apply Permutation_middle.
  - intros [?|Hin]%elem_of_cons; [congruence|]. rewrite IH by done.
    symmetry. apply Permutation_middle.
Qed.

Lemma append_order_ok e lv :
  lv_ok P lv → P lv.(lv_price) e.2 → lv_ok P (append_order e lv).
Proof.
  intros [Hne Hc Ht Ho] He. split; cbn.
  - by destruct (lv_queue lv).
  - rewrite length_app. cbn. lia.
  - rewrite sum_by_app. cbn. lia.
  - apply Forall_app. split; [done|]. by constructor.
Qed.

Lemma new_level_ok e slot :
  P e.2.(o_price) e.2 → lv_ok P (append_order e (mkLevel slot e.2.(o_price) 0 0 [])).
Proof. intros He. split; cbn; [done|lia|lia|by constructor]. Qed.

Lemma insert_order_prices e slot levels levels' new :
  insert_order before e slot levels = (levels', new) →
  new = bool_decide (e.2.(o_price) ∉ prices levels) ∧
  (prices levels' ≡ₚ if new then e.2.(o_price) :: prices levels else prices levels).
Proof.
  unfold insert_order. destruct (find_level _ levels) as [lv|] eqn:E; intros [= <- <-];
    rewrite at_level_prices by done.
  - apply find_level_Some in E as [Hin <-]. split; [|done].
    rewrite bool_decide_eq_false_2; [done|]. intros H. apply H. by apply list_elem_of_fmap_2.
  - apply find_level_None in E. rewrite bool_decide_eq_true_2 by done. split; [done|].
    unfold prices. by rewrite link_level_perm.
Qed.

Lemma insert_order_keys e slot levels levels' new :
  insert_order before e slot levels = (levels', new) → keys levels' ≡ₚ key e :: keys levels.
Proof.
  unfold insert_order. destruct (find_level _ levels) as [lv|] eqn:E; intros [= <- <-].
  - apply find_level_Some in E as [Hin <-]. apply at_level_append_keys.
    by apply list_elem_of_fmap_2.
  - rewrite at_level_append_keys by (unfold prices; rewrite link_level_perm; by left).
    constructor. unfold keys, entries. rewrite link_level_perm. done.
Qed.

Lemma insert_order_slots e slot levels levels' new :
  insert_order before e slot levels = (levels', new) →
  slots levels' ≡ₚ if new then slot :: slots levels else slots levels.
Proof.
  unfold insert_order. destruct (find_level _ levels) as [lv|] eqn:E; intros [= <- <-];
    rewrite at_level_slots by done; [done|]. unfold slots. by rewrite link_level_perm.
Qed.

Lemma insert_order_ok e slot levels levels' new :
  insert_order before e slot levels = (levels', new) →
  side_ok before P levels → P e.2.(o_price) e.2 → side_ok before P levels'.
Proof using PriceOrder0.
  intros Hins [Hs Hl] He. unfold insert_order in Hins.
  destruct (find_level _ levels) as [lv|] eqn:E; injection Hins as <- <-.
  - split; [by rewrite at_level_prices|]. clear E Hs.
    induction Hl as [|lv' levels Hlv Hl IH]; cbn; [done|]. case_if as E; zbool.
    + constructor; [|done]. apply append_order_ok; [done|]. by rewrite E.
    + by constructor.
  - apply find_level_None in E. split.
    { rewrite at_level_prices by done. by apply link_level_sorted. }
    clear Hs. revert E. unfold prices.
    induction Hl as [|cur levels Hcur Hl IH]; intros E; cbn.
    { rewrite Z.eqb_refl. constructor; [by apply new_level_ok|done]. }
    cbn in E. apply not_elem_of_cons in E as [Hne Hni].
    destruct (before (o_price e.2) (lv_price cur)); cbn.
    { rewrite Z.eqb_refl. constructor; [by apply new_level_ok|]. by constructor. }
    destruct (Z.eqb_spec (lv_price cur) (o_price e.2)); [congruence|].
    constructor; [done|]. by apply IH.
Qed.
End insert.

(** ** Removal *)

Section remove.
Context (before : Price → Price → bool) (P : Price → Order → Prop).
Implicit Types (levels : list PriceLevel).

(** Removal sees an order exactly when it is linked on the side. *)
Lemma remove_order_None l levels : remove_order l levels = None ↔ l ∉ (keys levels).*1.
Proof.
  rewrite <- find_order_None.
  induction levels as [|lv levels IH]; cbn; [done|]. destruct (find_entry l _).
  - case_if as E; split; done.
  - destruct (remove_order l levels) as [[[? ?] ?]|]; rewrite <- IH; split; done.
Qed.

Lemma remove_order_find l levels levels' o freed :
  remove_order l levels = Some (levels', o, freed) →
  ∃ lv, find_order l levels = Some (o, lv).
Proof.
  revert levels'. induction levels as [|lv levels IH]; intros levels'; cbn; [done|].
  destruct (find_entry l _) as [o'|]; [case_if as E; intros [= <- <- <-]; eauto|].
  destruct (remove_order l levels) as [[[rest o'] fr]|]; [|done].
  intros [= <- <- <-]. eauto.
Qed.

(** When the count reaches zero the queue is empty. *)
Lemma detach_empty l lv o :
  lv_ok P lv → find_entry l lv.(lv_queue) = Some o →
  lv_order_count (detach_order l o.(o_remaining_quantity) lv) = 0 →
  lv.(lv_queue) = [(l, o)].
Proof.
  intros Hlv E Hc. cbn in Hc. pose proof (remove_entry_length _ _ _ E) as Hlen.
  rewrite (lk_count _ _ Hlv) in Hc. apply find_entry_Some in E.
  destruct (lv_queue lv) as [|e [|e' q]]; cbn in *; [lia| |].
  - apply list_elem_of_singleton in E. by rewrite E.
  - lia.
Qed.

Lemma detach_order_ok l lv o :
  lv_ok P lv → find_entry l lv.(lv_queue) = Some o →
  lv_order_count (detach_order l o.(o_remaining_quantity) lv) ≠ 0 →
  lv_ok P (detach_order l o.(o_remaining_quantity) lv).
Proof.
  intros [Hne Hcnt Ht Ho] E Hc. cbn in Hc.
  pose proof (remove_entry_length _ _ _ E) as Hlen.
  pose proof (remove_entry_perm _ _ _ E) as Hp. split; cbn.
  - intros H. rewrite H in Hlen. cbn in Hlen. lia.
  - lia.
  - rewrite Ht, (sum_by_perm _ _ _ Hp). cbn. lia.
  - rewrite Hp in Ho. by apply Forall_cons in Ho as [_ ?].
Qed.

Lemma remove_order_entries l levels levels' o freed :
  Forall (lv_ok P) levels → remove_order l levels = Some (levels', o, freed) →
  entries levels ≡ₚ (l, o) :: entries levels'.
Proof.
  intros Hall. revert levels'.
  induction Hall as [|lv levels Hlv Hall IH]; intros levels'; cbn; [done|].
  rewrite entries_cons. destruct (find_entry l _) as [o'|] eqn:E.
  - case_if as Hc; zbool; intros [= <- <- <-].
    + by rewrite (detach_empty l lv o').
    + rewrite entries_cons. cbn. by rewrite (remove_entry_perm l _ _ E) at 1.
  - destruct (remove_order l levels) as [[[rest o'] fr]|] eqn:Er; [|done].
    intros [= <- <- <-]. rewrite entries_cons, (IH rest) by done.
    symmetry. apply Permutation_middle.
Qed.

Lemma remove_order_keys l levels levels' o freed :
  Forall (lv_ok P) levels → remove_order l levels = Some (levels', o, freed) →
  keys levels ≡ₚ key (l, o) :: keys levels'.
Proof. intros Hall Hr. unfold keys. by rewrite (remove_order_entries _ _ _ _ _ Hall Hr). Qed.

Lemma remove_order_slots l levels levels' o freed :
  remove_order l levels = Some (levels', o, freed) →
  slots levels ≡ₚ match freed with Some s => s :: slots levels' | None => slots levels' end.
Proof.
  revert levels'. unfold slots.
  induction levels as [|lv levels IH]; intros levels'; cbn; [done|].
  destruct (find_entry l _) as [o'|] eqn:E; [case_if as Hc; by intros [= <- <- <-]|].
  destruct (remove_order l levels) as [[[rest o'] fr]|] eqn:Er; [|done].
  intros [= <- <- <-]. rewrite (IH rest) by done. destruct fr; cbn; [apply Permutation_swap|done].
Qed.

Lemma remove_order_sublist l levels levels' o freed :
  remove_order l levels = Some (levels', o, freed) → prices levels' `sublist_of` prices levels.
Proof.
  revert levels'. unfold prices.
  induction levels as [|lv levels IH]; intros levels'; cbn; [done|].
  destruct (find_entry l _) as [o'|] eqn:E; [case_if as Hc; intros [= <- <- <-]; by constructor|].
  destruct (remove_order l levels) as [[[rest o'] fr]|] eqn:Er; [|done].
  intros [= <- <- <-]. cbn. constructor. by apply IH.
Qed.

Lemma sorted_sublist (l k : list Price) :
  l `sublist_of` k → StronglySorted (λ a b, before a b = true) k →
  StronglySorted (λ a b, before a b = true) l.
Proof.
  induction 1 as [|x l k Hsub IH|x l k Hsub IH]; [done| |];
    intros [Hs Hall]%StronglySorted_inv; [|by apply IH].
  constructor; [by apply IH|]. rewrite Forall_forall in Hall |- *.
  intros y Hy. apply Hall. by eapply elem_of_sublist.
Qed.

Lemma remove_order_ok l levels levels' o freed :
  remove_order l levels = Some (levels', o, freed) →
  side_ok before P levels → side_ok before P levels'.
Proof.
  intros Hr [Hs Hl]. split.
  { eapply sorted_sublist; [|exact Hs]. by eapply remove_order_sublist. }
  clear Hs. revert levels' Hr.
  induction Hl as [|lv levels Hlv Hl IH]; intros levels'; cbn; [done|].
  destruct (find_entry l _) as [o'|] eqn:E.
  - case_if as Hc; zbool; intros [= <- <- <-]; [done|]. constructor; [|done].
    by apply detach_order_ok.
  - destruct (remove_order l levels) as [[[rest o'] fr]|] eqn:Er; [|done].
    intros [= <- <- <-]. constructor; [done|]. by apply IH.
Qed.

(** What is removed was an order of the side. *)
Lemma remove_order_P l levels levels' o freed :
  remove_order l levels = Some (levels', o, freed) →
  side_ok before P levels → ∃ p, p ∈ prices levels ∧ P p o.
Proof.
  intros Hr [_ Hl]. apply remove_order_find in Hr as [lv [Hlv Hin]%find_order_Some].
  rewrite Forall_forall in Hl. destruct (Hl lv Hlv) as [_ _ _ Ho].
  rewrite Forall_forall in Ho. exists lv.(lv_price). split; [by apply list_elem_of_fmap_2|].
  by apply (Ho (l, o)).
Qed.
End remove.

(** ** In-place updates *)

Section update.
Context (before : Price → Price → bool) (P : Price → Order → Prop).
Implicit Types (levels : list PriceLevel).

Lemma update_entry_key l g q :
  (∀ o, o_id (g o) = o_id o) → key <$> update_entry l g q = key <$> q.
Proof.
  intros Hg. unfold update_entry. rewrite <- list_fmap_compose. apply list_fmap_ext.
  intros i [k o] _. cbn. destruct (k =? l)%nat; cbn; [|done]. unfold key. cbn. by rewrite Hg.
Qed.

Lemma update_order_keys l g h levels :
  (∀ o, o_id (g o) = o_id o) → (∀ lv, key <$> lv_queue (h lv) ≡ₚ key <$> lv_queue lv) →
  keys (update_order l g h levels) ≡ₚ keys levels.
Proof.
  intros Hg Hh. induction levels as [|lv levels IH]; cbn; [done|].
  destruct (find_entry l _) eqn:E; rewrite !keys_cons; [|by rewrite IH].
  rewrite Hh. cbn. by rewrite update_entry_key.
Qed.

Lemma update_order_slots l g h levels :
  (∀ lv, lv_slot (h lv) = lv_slot lv) → slots (update_order l g h levels) = slots levels.
Proof.
  intros Hh. unfold slots. induction levels as [|lv levels IH]; cbn; [done|].
  destruct (find_entry l _); cbn; [by rewrite Hh|by rewrite IH].
Qed.

Lemma update_order_prices l g h levels :
  (∀ lv, lv_price (h lv) = lv_price lv) → prices (update_order l g h levels) = prices levels.
Proof.
  intros Hh. unfold prices. induction levels as [|lv levels IH]; cbn; [done|].
  destruct (find_entry l _); cbn; [by rewrite Hh|by rewrite IH].
Qed.

Lemma move_to_back_perm l lv : lv_queue (move_to_back l lv) ≡ₚ lv_queue lv.
Proof.
  unfold move_to_back. destruct (find_entry l _) as [o|] eqn:E; [|done]. cbn.
  rewrite <- Permutation_cons_append. symmetry. by apply remove_entry_perm.
Qed.
End update.

(** ** Changing one order in place *)

Lemma update_entry_cons l g (e : entry) (q : list entry) :
  update_entry l g (e :: q) = (if (e.1 =? l)%nat then (e.1, g e.2) else e) :: update_entry l g q.
Proof. reflexivity. Qed.

Lemma update_entry_not_in l g (q : list entry) : l ∉ q.*1 → update_entry l g q = q.
Proof.
  induction q as [|[k o] q IH]; [done|]. rewrite update_entry_cons. cbn.
  rewrite not_elem_of_cons. intros [Hne Hni]. rewrite IH by done.
  destruct (Nat.eqb_spec k l); [congruence|done].
Qed.

Lemma find_entry_update l g (q : list entry) :
  find_entry l (update_entry l g q) = g <$> find_entry l q.
Proof.
  induction q as [|[k o] q IH]; [done|]. rewrite update_entry_cons. cbn.
  destruct (Nat.eqb_spec k l) as [->|Hne]; cbn; [by rewrite Nat.eqb_refl|].
  destruct (Nat.eqb_spec k l); [done|]. apply IH.
Qed.

Lemma sum_remaining_update l g d o (q : list entry) :
  NoDup q.*1 → (l, o) ∈ q → o_remaining_quantity (g o) = o.(o_remaining_quantity) + d →
  sum_by (λ e : entry, e.2.(o_remaining_quantity)) (update_entry l g q)
  = sum_by (λ e : entry, e.2.(o_remaining_quantity)) q + d.
Proof.
  intros Hnd Hin Hg. revert Hnd Hin. induction q as [|[k o'] q IH]; [intros _ H; inversion H|].
  intros [Hni Hnd]%NoDup_cons Hin. rewrite update_entry_cons. cbn.
  destruct (Nat.eqb_spec k l) as [->|Hne]; cbn.
  - apply elem_of_cons in Hin as [[= <-]|Hin].
    + rewrite update_entry_not_in by done. lia.
    + destruct Hni. by apply (list_elem_of_fmap_2 fst) in Hin.
  - apply elem_of_cons in Hin as [[= -> <-]|Hin]; [done|]. specialize (IH Hnd Hin). lia.
Qed.

Lemma Forall_update_entry (P : entry → Prop) l g o (q : list entry) :
  NoDup q.*1 → (l, o) ∈ q → Forall P q → P (l, g o) → Forall P (update_entry l g q).
Proof.
  intros Hnd Hin HP Hg. unfold update_entry. apply Forall_fmap. rewrite Forall_forall in HP |- *.
  intros [k o'] Hk. cbn. destruct (Nat.eqb_spec k l) as [->|]; [|by apply HP].
  by rewrite (elem_unique l o' o q).
Qed.

Lemma remove_entry_update l g (q : list entry) :
  NoDup q.*1 → remove_entry l (update_entry l g q) = remove_entry l q.
Proof.
  induction q as [|[k o] q IH]; [done|]. intros [Hni Hnd]%NoDup_cons. rewrite update_entry_cons. cbn.
  destruct (Nat.eqb_spec k l) as [->|Hne]; cbn.
  - rewrite Nat.eqb_refl. by apply update_entry_not_in.
  - destruct (Nat.eqb_spec k l); [done|]. f_equal. by apply IH.
Qed.

Lemma find_order_head k lv rest r :
  find_entry k (lv_queue lv) = Some r → find_order k (lv :: rest) = Some (r, lv).
Proof. intros H. cbn. by rewrite H. Qed.

Lemma update_order_resize before P l g d o lv levels :
  (∀ o, o_id (g o) = o_id o) →
  side_ok before P levels → NoDup (keys levels).*1 → find_order l levels = Some (o, lv) →
  P lv.(lv_price) (g o) → o_remaining_quantity (g o) = o.(o_remaining_quantity) + d →
  side_ok before P (update_order l g (add_total d) levels).
Proof.
  intros Hid [Hs Hl] Hnd Hf HP Hg. split; [by rewrite update_order_prices|]. clear Hs.
  induction Hl as [|lv0 levels Hlv Hl IH]; [done|].
  rewrite keys_cons, fmap_app in Hnd. apply NoDup_app in Hnd as (Hnd1 & _ & Hnd2).
  assert (Hk : (key <$> lv_queue lv0).*1 = (lv_queue lv0).*1) by (by rewrite <- list_fmap_compose).
  rewrite Hk in Hnd1. cbn in Hf |- *. destruct (find_entry l (lv_queue lv0)) as [o0|] eqn:E.
  - injection Hf as -> ->. apply find_entry_Some in E. constructor; [|done].
    destruct Hlv as [Hne Hc Ht Ho]. split; cbn.
    + intros Hq. apply (f_equal length) in Hq. unfold update_entry in Hq. rewrite length_fmap in Hq.
      by destruct (lv_queue lv).
    + unfold update_entry. by rewrite length_fmap.
    + by rewrite (sum_remaining_update l g d o), Ht.
    + by apply (Forall_update_entry _ l g o).
  - constructor; [done|]. by apply IH.
Qed.

Lemma update_order_keys_eq l g d levels :
  (∀ o, o_id (g o) = o_id o) → keys (update_order l g (add_total d) levels) = keys levels.
Proof.
  intros Hg. induction levels as [|lv levels IH]; cbn; [done|].
  destruct (find_entry l _) eqn:E; rewrite !keys_cons; [|by rewrite IH].
  cbn. by rewrite update_entry_key.
Qed.

Lemma update_order_find l g d o lv levels :
  find_order l levels = Some (o, lv) →
  find_order l (update_order l g (add_total d) levels)
  = Some (g o, add_total d (set_lv_queue (update_entry l g lv.(lv_queue)) lv)).
Proof.
  induction levels as [|lv0 levels IH]; cbn; [done|].
  destruct (find_entry l (lv_queue lv0)) as [o0|] eqn:E; cbn.
  - intros [= -> ->]. by rewrite find_entry_update, E.
  - rewrite E. exact IH.
Qed.

(** An order that is filled and removed leaves the side as its removal does. *)
Lemma remove_order_filled l o lv levels v o' freed :
  NoDup (keys levels).*1 → find_order l levels = Some (o, lv) → remove_order l levels = Some (v, o', freed) →
  remove_order l (update_order l (fill_order o.(o_remaining_quantity)) (add_total (- o.(o_remaining_quantity))) levels)
  = Some (v, fill_order o.(o_remaining_quantity) o, freed).
Proof.
  revert v. induction levels as [|lv0 levels IH]; intros v Hnd; cbn; [done|].
  rewrite keys_cons, fmap_app in Hnd. apply NoDup_app in Hnd as (Hnd1 & _ & Hnd2).
  assert (Hk : (key <$> lv_queue lv0).*1 = (lv_queue lv0).*1) by (by rewrite <- list_fmap_compose).
  rewrite Hk in Hnd1. destruct (find_entry l (lv_queue lv0)) as [o0|] eqn:E.
  - intros [= -> ->]. cbn. rewrite find_entry_update, E. cbn. unfold detach_order. cbn.
    rewrite remove_entry_update by done. replace (o_remaining_quantity o - o_remaining_quantity o) with 0 by lia.
    replace (lv_total_quantity lv + - o_remaining_quantity o - 0) with (lv_total_quantity lv - o_remaining_quantity o) by lia.
    by case_if as Ec; intros [= <- <- <-].
  - intros Hf. destruct (remove_order l levels) as [[[rest o1] fr]|] eqn:Er; [|done]. intros [= <- <- <-]. cbn.
    rewrite E. by rewrite (IH rest Hnd2 Hf eq_refl).
Qed.

(** A side is strictly sorted, so its first price bounds the others. *)
Lemma sorted_head before `{!PriceOrder before} lv levels p :
  StronglySorted (λ a b, before a b = true) (prices (lv :: levels)) → p ∈ prices (lv :: levels) →
  p = lv.(lv_price) ∨ before lv.(lv_price) p = true.
Proof.
  unfold prices. cbn. intros [_ Hall]%StronglySorted_inv [->|Hp]%elem_of_cons; [by left|].
  right. rewrite Forall_forall in Hall. by apply Hall.
Qed.

(** ** The orders after an insertion *)

Lemma at_level_append_entries price e levels : price ∈ prices levels →
  entries (at_level price (append_order e) levels) ≡ₚ e :: entries levels.
Proof.
  unfold prices. induction levels as [|lv levels IH]; cbn; [intros H; inversion H|].
  case_if as E; zbool; rewrite !entries_cons; cbn.
  - intros _. rewrite <- app_assoc. cbn. symmetry. apply Permutation_middle.
  - intros [?|Hin]%elem_of_cons; [congruence|]. rewrite IH by done. symmetry. apply Permutation_middle.
Qed.

Lemma insert_order_entries before e slot levels levels' new :
  insert_order before e slot levels = (levels', new) → entries levels' ≡ₚ e :: entries levels.
Proof.
  unfold insert_order. destruct (find_level _ levels) as [lv|] eqn:E; intros [= <- <-].
  - apply find_level_Some in E as [Hin <-]. apply at_level_append_entries. by apply list_elem_of_fmap_2.
  - rewrite at_level_append_entries by (unfold prices; rewrite link_level_perm; by left).
    constructor. unfold entries. by rewrite link_level_perm.
Qed.
