(* ===== verification/Trackers.v ===== *)
(** * Bookkeeping components of the engine

    [trade_registry.h], [position_tracker.h], [rate_tracker.h], [ohlcv.h] and
    [order_persistence.h], and what they promise.  Arrays indexed by an
    identifier are finite maps whose missing keys hold the array's initial
    value. *)

From S2P Require Import Prelude Types.

(** ** TradeRegistry *)

Record TradeRecord : Type := mkTradeRecord {
  t_trade_id : TradeId;
  t_aggressor_id : OrderId;
  t_resting_id : OrderId;
  t_price : Price;
  t_quantity : Quantity;
  t_ts : Timestamp;
  t_aggressor_side : Side;
  t_aggressor_account_id : Z;
  t_resting_account_id : Z;
  t_busted : bool
}.

Definition set_t_busted (b : bool) (r : TradeRecord) : TradeRecord :=
  mkTradeRecord r.(t_trade_id) r.(t_aggressor_id) r.(t_resting_id) r.(t_price) r.(t_quantity)
    r.(t_ts) r.(t_aggressor_side) r.(t_aggressor_account_id) r.(t_resting_account_id) b.

Definition empty_trade : TradeRecord := mkTradeRecord 0 0 0 0 0 0 Buy 0 0 false.

Record TradeRegistry : Type := mkRegistry {
  next_trade_id : TradeId;
  trades : gmap Z TradeRecord
}.

Definition empty_registry : TradeRegistry := mkRegistry 1 ∅.

(** [trades_[id]]. *)
Definition trade_at (r : TradeRegistry) (id : TradeId) : TradeRecord :=
  default empty_trade (r.(trades) !! id).

Section registry.
Context (MaxTrades : Z).

Definition record (aggressor_id resting_id : OrderId) (price : Price) (quantity : Quantity)
    (ts : Timestamp) (aggressor_side : Side) (aggressor_account resting_account : Z)
    (r : TradeRegistry) : TradeId * TradeRegistry :=
  if r.(next_trade_id) >=? MaxTrades then (0, r)
  else
    let id := r.(next_trade_id) in
    (id, mkRegistry (id + 1)
           (<[id := mkTradeRecord id aggressor_id resting_id price quantity ts
                      aggressor_side aggressor_account resting_account false]> r.(trades))).
End registry.

Definition lookup_trade (id : TradeId) (r : TradeRegistry) : option TradeRecord :=
  if (id =? 0) || (id >=? r.(next_trade_id)) then None else Some (trade_at r id).

Definition mark_busted (id : TradeId) (r : TradeRegistry) : bool * TradeRegistry :=
  if (id =? 0) || (id >=? r.(next_trade_id)) then (false, r)
  else if (trade_at r id).(t_busted) then (false, r)
  else (true, mkRegistry r.(next_trade_id)
                (<[id := set_t_busted true (trade_at r id)]> r.(trades))).

Definition trade_count (r : TradeRegistry) : Z := r.(next_trade_id) - 1.

(** ** PositionTracker *)

Abbreviation PositionTracker := (gmap Z Z) (only parsing).

(** [positions_[account_id]]. *)
Definition position_at (p : PositionTracker) (account_id : Z) : Z := default 0 (p !! account_id).

Section positions.
Context (MaxAccounts : Z).

(** [account_id == 0 || account_id >= MaxAccounts]. *)
Definition untracked (account_id : Z) : bool := (account_id =? 0) || (account_id >=? MaxAccounts).

Definition update_fill (account_id : Z) (side : Side) (qty : Quantity) (p : PositionTracker)
    : PositionTracker :=
  if untracked account_id then p
  else match side with
       | Buy => <[account_id := position_at p account_id + qty]> p
       | Sell => <[account_id := position_at p account_id - qty]> p
       end.

Definition reverse_fill (account_id : Z) (side : Side) (qty : Quantity) (p : PositionTracker)
    : PositionTracker :=
  if untracked account_id then p
  else match side with
       | Buy => <[account_id := position_at p account_id - qty]> p
       | Sell => <[account_id := position_at p account_id + qty]> p
       end.

Definition would_exceed_limit (account_id : Z) (side : Side) (qty limit : Quantity)
    (p : PositionTracker) : bool :=
  if limit <=? 0 then false
  else if untracked account_id then false
  else
    let pos := position_at p account_id in
    match side with
    | Buy => pos + qty >? limit
    | Sell => pos - qty <? - limit
    end.

Definition net_position (account_id : Z) (p : PositionTracker) : Z :=
  if untracked account_id then 0 else position_at p account_id.
End positions.

(** ** RateTracker *)

Record RateEntry : Type := mkRateEntry { window_start : Timestamp; rate_count : Z }.

Abbreviation RateTracker := (gmap Z RateEntry) (only parsing).

Definition rate_entry_at (t : RateTracker) (account_id : Z) : RateEntry :=
  default (mkRateEntry 0 0) (t !! account_id).

(** The part of [check_and_increment] that works on the account's entry. *)
Definition check_entry (cfg : ThrottleConfig) (ts : Timestamp) (e : RateEntry) : bool * RateEntry :=
  let window_end := e.(window_start) + cfg.(interval_ns) in
  if ts >=? window_end then (true, mkRateEntry ts 1)
  else if e.(rate_count) >=? cfg.(max_messages_per_interval) then (false, e)
  else (true, mkRateEntry e.(window_start) (e.(rate_count) + 1)).

Definition check_and_increment (MaxAccounts : Z) (cfg : ThrottleConfig) (account_id : Z)
    (ts : Timestamp) (t : RateTracker) : bool * RateTracker :=
  if (cfg.(max_messages_per_interval) <=? 0) || (cfg.(interval_ns) <=? 0) then (true, t)
  else if account_id =? 0 then (true, t)
  else if account_id >=? MaxAccounts then (false, t)
  else
    let '(ok, e) := check_entry cfg ts (rate_entry_at t account_id) in
    (ok, <[account_id := e]> t).

(** ** OhlcvStats *)

Record OhlcvStats : Type := mkOhlcv {
  v_open : Price;
  v_high : Price;
  v_low : Price;
  v_close : Price;
  v_volume : Quantity;
  v_turnover : Quantity;
  v_trade_count : Z;
  v_has_traded : bool
}.

Definition ohlcv_reset : OhlcvStats := mkOhlcv 0 0 0 0 0 0 0 false.

Definition ohlcv_on_trade (price : Price) (qty : Quantity) (s : OhlcvStats) : OhlcvStats :=
  let '(open, high, low) :=
    if s.(v_has_traded) then (s.(v_open), s.(v_high), s.(v_low)) else (price, price, price) in
  mkOhlcv open
    (if price >? high then price else high)
    (if price <? low then price else low)
    price (s.(v_volume) + qty)
    (s.(v_turnover) + Z.quot (price * qty) PRICE_SCALE)
    (s.(v_trade_count) + 1) true.

Definition vwap (s : OhlcvStats) : Price :=
  if s.(v_volume) =? 0 then 0 else Z.quot (s.(v_turnover) * PRICE_SCALE) s.(v_volume).

(** ** Order persistence *)

Record SerializedOrder : Type := mkSerialized {
  s_id : OrderId;
  s_client_order_id : Z;
  s_account_id : Z;
  s_price : Price;
  s_quantity : Quantity;
  s_filled_quantity : Quantity;
  s_remaining_quantity : Quantity;
  s_side : Side;
  s_type : OrderType;
  s_tif : TimeInForce;
  s_timestamp : Timestamp;
  s_gtd_expiry : Timestamp;
  s_display_qty : Quantity;
  s_total_qty : Quantity
}.

Definition serialize_order (o : Order) : SerializedOrder :=
  mkSerialized o.(o_id) o.(o_client_order_id) o.(o_account_id) o.(o_price) o.(o_quantity)
    o.(o_filled_quantity) o.(o_remaining_quantity) o.(o_side) o.(o_type) o.(o_tif)
    o.(o_timestamp) o.(o_gtd_expiry) o.(o_display_qty) o.(o_total_qty).

(** [deserialize_order(s, order)] into the slot whose old contents are
    [stale]: the two flags are not written. *)
Definition deserialize_order (s : SerializedOrder) (stale : Order) : Order :=
  mkOrder s.(s_id) s.(s_client_order_id) s.(s_account_id) s.(s_price) s.(s_quantity)
    s.(s_filled_quantity) s.(s_remaining_quantity) s.(s_side) s.(s_type) s.(s_tif)
    s.(s_timestamp) s.(s_gtd_expiry) s.(s_display_qty) s.(s_total_qty)
    stale.(o_is_market_maker) stale.(o_is_top_order).

(** * Properties *)

(** ** TradeRegistry *)

Definition registry_ok (r : TradeRegistry) : Prop := 1 <= r.(next_trade_id).

Lemma lookup_trade_eq id r :
  1 <= id < r.(next_trade_id) → lookup_trade id r = Some (trade_at r id).
Proof.
  intros. unfold lookup_trade. case_if as E; [|done].
  apply orb_true_iff in E as [?|?]; zbool; lia.
Qed.

Lemma lookup_trade_none id r :
  ¬ (1 <= id < r.(next_trade_id)) → 0 <= id → lookup_trade id r = None.
Proof. intros. unfold lookup_trade. case_if as E; [done|]. zbool. lia. Qed.

(** the trade registry.  Recording a trade while there is room returns the
    next sequential id, under which exactly that trade is found, not busted,
    and every other id answers as before; a recorded trade can be marked
    busted once, which changes nothing but its flag; a second bust is refused. *)
Theorem registry_record_then_bust MaxTrades agg rest price qty ts side acc1 acc2 r :
  registry_ok r → r.(next_trade_id) < MaxTrades →
  let id := r.(next_trade_id) in
  let t := mkTradeRecord id agg rest price qty ts side acc1 acc2 false in
  ∃ r' r'',
    record MaxTrades agg rest price qty ts side acc1 acc2 r = (id, r') ∧
    lookup_trade id r' = Some t ∧
    (∀ id', id' ≠ id → 0 <= id' → lookup_trade id' r' = lookup_trade id' r) ∧
    mark_busted id r' = (true, r'') ∧
    lookup_trade id r'' = Some (set_t_busted true t) ∧
    (∀ id', id' ≠ id → lookup_trade id' r'' = lookup_trade id' r') ∧
    mark_busted id r'' = (false, r'').
Proof.
  intros Hok Hroom id t. unfold registry_ok in Hok.
  set (r' := mkRegistry (id + 1) (<[id := t]> r.(trades))).
  assert (Hat : trade_at r' id = t) by (unfold trade_at; cbn; by rewrite lookup_insert_eq).
  set (r'' := mkRegistry (id + 1) (<[id := set_t_busted true t]> r'.(trades))).
  assert (Hat' : trade_at r'' id = set_t_busted true t)
    by (unfold trade_at; cbn; by rewrite lookup_insert_eq).
  exists r', r''. split_and!.
  - unfold record. by assert ((next_trade_id r >=? MaxTrades) = false) as -> by lia.
  - rewrite lookup_trade_eq; [by rewrite Hat|cbn; lia].
  - intros id' Hne Hpos. destruct (decide (1 <= id' < r.(next_trade_id))).
    + rewrite !lookup_trade_eq by (cbn; lia). f_equal. unfold trade_at. cbn.
      by rewrite lookup_insert_ne.
    + rewrite !lookup_trade_none; [done|lia|lia|cbn; lia|lia].
  - unfold mark_busted. assert ((id =? 0) || (id >=? next_trade_id r') = false) as ->.
    { cbn. apply orb_false_iff. split; lia. }
    by rewrite Hat.
  - rewrite lookup_trade_eq; [by rewrite Hat'|cbn; lia].
  - intros id' Hne. unfold lookup_trade, trade_at. cbn.
    by rewrite (lookup_insert_ne (<[id := t]> (trades r))).
  - unfold mark_busted. assert ((id =? 0) || (id >=? next_trade_id r'') = false) as ->.
    { cbn. apply orb_false_iff. split; lia. }
    by rewrite Hat'.
Qed.

Lemma registry_record_then_bust_witness :
  ∃ r' r'', record 100 7 3 1005000 10000 42 Buy 5 6 empty_registry = (1, r') ∧
    lookup_trade 1 r' = Some (mkTradeRecord 1 7 3 1005000 10000 42 Buy 5 6 false) ∧
    (∀ id', id' ≠ 1 → 0 <= id' → lookup_trade id' r' = lookup_trade id' empty_registry) ∧
    mark_busted 1 r' = (true, r'') ∧
    lookup_trade 1 r'' = Some (mkTradeRecord 1 7 3 1005000 10000 42 Buy 5 6 true) ∧
    (∀ id', id' ≠ 1 → lookup_trade id' r'' = lookup_trade id' r') ∧
    mark_busted 1 r'' = (false, r'').
Proof.
  apply (registry_record_then_bust 100 7 3 1005000 10000 42 Buy 5 6 empty_registry);
    unfold registry_ok; cbn; lia.
Defined.

(** ** PositionTracker *)

Lemma position_at_insert a b v p :
  position_at (<[a := v]> p) b = if decide (a = b) then v else position_at p b.
Proof. unfold position_at. rewrite lookup_insert. by case_decide. Qed.

Lemma update_fill_at MaxAccounts a side qty p b :
  position_at (update_fill MaxAccounts a side qty p) b
  = position_at p b + if decide (a = b) then
                        if untracked MaxAccounts a then 0
                        else match side with Buy => qty | Sell => - qty end
                      else 0.
Proof.
  unfold update_fill. destruct (untracked MaxAccounts a); [case_decide; lia|].
  destruct side; rewrite position_at_insert; case_decide; subst; lia.
Qed.

Lemma reverse_fill_at MaxAccounts a side qty p b :
  position_at (reverse_fill MaxAccounts a side qty p) b
  = position_at p b - if decide (a = b) then
                        if untracked MaxAccounts a then 0
                        else match side with Buy => qty | Sell => - qty end
                      else 0.
Proof.
  unfold reverse_fill. destruct (untracked MaxAccounts a); [case_decide; lia|].
  destruct side; rewrite position_at_insert; case_decide; subst; lia.
Qed.

(** position limits.  A fill that the pre-trade check lets through keeps
    an account that is within its limit within its limit, leaves every other
    account alone, and busting the trade restores all positions. *)
Theorem position_limit_safe MaxAccounts a side qty limit p :
  0 < limit → 0 <= qty → Z.abs (net_position MaxAccounts a p) <= limit →
  would_exceed_limit MaxAccounts a side qty limit p = false →
  let p' := update_fill MaxAccounts a side qty p in
  Z.abs (net_position MaxAccounts a p') <= limit ∧
  (∀ b, b ≠ a → net_position MaxAccounts b p' = net_position MaxAccounts b p) ∧
  (∀ b, net_position MaxAccounts b (reverse_fill MaxAccounts a side qty p')
        = net_position MaxAccounts b p).
Proof.
  intros Hl Hq Hin Hok p'. unfold net_position, would_exceed_limit in *.
  assert ((limit <=? 0) = false) as E by lia. rewrite E in Hok. split_and!.
  - subst p'. rewrite update_fill_at, decide_True by done.
    destruct (untracked MaxAccounts a); [lia|]. destruct side; zbool; lia.
  - intros b Hb. subst p'. rewrite update_fill_at, decide_False by done. by rewrite Z.add_0_r.
  - intros b. subst p'. rewrite reverse_fill_at, update_fill_at.
    destruct (untracked MaxAccounts b); [done|]. case_decide; lia.
Qed.

Lemma position_limit_safe_witness :
  let p' := update_fill 4096 7 Buy 30000 {[7 := 50000]} in
  Z.abs (net_position 4096 7 p') <= 100000 ∧
  (∀ b, b ≠ 7 → net_position 4096 b p' = net_position 4096 b {[7 := 50000]}) ∧
  (∀ b, net_position 4096 b (reverse_fill 4096 7 Buy 30000 p')
        = net_position 4096 b {[7 := 50000]}).
Proof.
  apply (position_limit_safe 4096 7 Buy 30000 100000 {[7 := 50000]}).
  - lia.
  - lia.
  - vm_compute. discriminate.
  - vm_compute. reflexivity.
Defined.

(** ** RateTracker *)

(** Messages of one account at the given times; how many are accepted. *)
Fixpoint accepted (cfg : ThrottleConfig) (times : list Timestamp) (e : RateEntry) : Z :=
  match times with
  | [] => 0
  | ts :: times' =>
      let '(ok, e') := check_entry cfg ts e in
      (if ok : bool then 1 else 0) + accepted cfg times' e'
  end.

Section rate.
Context (cfg : ThrottleConfig).
Hypothesis Hmax : 0 < cfg.(max_messages_per_interval).
Hypothesis Hint : 0 < cfg.(interval_ns).

(** Inside one window the count never passes the maximum. *)
Lemma accepted_one_window times e :
  Forall (λ ts, ts < e.(window_start) + cfg.(interval_ns)) times →
  accepted cfg times e <= Z.max 0 (cfg.(max_messages_per_interval) - e.(rate_count)).
Proof.
  intros Hts. revert e Hts. induction times as [|ts times IH]; intros e Hts; cbn; [lia|].
  apply Forall_cons in Hts as [Ht Hts]. unfold check_entry.
  destruct (ts >=? _) eqn:E1; zbool; [lia|].
  destruct (rate_count e >=? _) eqn:E2; zbool.
  - specialize (IH e Hts). lia.
  - specialize (IH (mkRateEntry (window_start e) (rate_count e + 1)) Hts). cbn in IH. lia.
Qed.

Lemma accepted_burst t0 times e :
  0 <= e.(rate_count) → Forall (λ ts, t0 <= ts < t0 + cfg.(interval_ns)) times →
  accepted cfg times e <= 2 * cfg.(max_messages_per_interval) - e.(rate_count)
  ∨ accepted cfg times e <= cfg.(max_messages_per_interval).
Proof using Hmax.
  intros Hc Hts. revert e Hc. induction times as [|ts times IH]; intros e Hc; cbn; [lia|].
  apply Forall_cons in Hts as [Ht Hts]. unfold check_entry.
  destruct (ts >=? _) eqn:E1; zbool.
  - right. assert (accepted cfg times (mkRateEntry ts 1)
      <= Z.max 0 (cfg.(max_messages_per_interval) - 1)); [|lia].
    apply (accepted_one_window times (mkRateEntry ts 1)).
    eapply Forall_impl; [exact Hts|]. cbn. lia.
  - destruct (rate_count e >=? _) eqn:E2; zbool; [destruct (IH Hts e Hc); lia|].
    destruct (IH Hts (mkRateEntry (window_start e) (rate_count e + 1))) as [H|H]; cbn in *; lia.
Qed.
End rate.

(** throttling.  Whatever the tracker's state, in any time span of one
    interval an account gets at most twice the configured number of messages
    through (the tumbling window can be straddled once), and at most the
    configured number if the span is a window of the tracker. *)
Theorem rate_limit_burst cfg t0 times e :
  0 < cfg.(max_messages_per_interval) → 0 < cfg.(interval_ns) → 0 <= e.(rate_count) →
  Forall (λ ts, t0 <= ts < t0 + cfg.(interval_ns)) times →
  accepted cfg times e <= 2 * cfg.(max_messages_per_interval) ∧
  (t0 = e.(window_start) → accepted cfg times e <= cfg.(max_messages_per_interval)).
Proof.
  intros Hm Hi Hc Hts. split.
  - destruct (accepted_burst cfg Hm t0 times e Hc Hts); lia.
  - intros ->. assert (accepted cfg times e
      <= Z.max 0 (cfg.(max_messages_per_interval) - e.(rate_count))); [|lia].
    apply accepted_one_window. eapply Forall_impl; [exact Hts|]. cbn. lia.
Qed.

Lemma rate_limit_burst_witness :
  accepted (mkThrottle 2 100) [50; 90; 100; 110; 120] (mkRateEntry 0 0) = 4 ∧
  accepted (mkThrottle 2 100) [50; 90; 100; 110; 120] (mkRateEntry 0 0) <= 2 * 2 ∧
  (50 = 0 → accepted (mkThrottle 2 100) [50; 90; 100; 110; 120] (mkRateEntry 0 0) <= 2).
Proof.
  split; [reflexivity|].
  apply (rate_limit_burst (mkThrottle 2 100) 50); cbn; [lia|lia|lia|repeat constructor; lia].
Defined.

(** ** OhlcvStats *)

Definition ohlcv_of (ts : list (Price * Quantity)) : OhlcvStats :=
  foldl (λ s t, ohlcv_on_trade t.1 t.2 s) ohlcv_reset ts.

Record ohlcv_ok (ts : list (Price * Quantity)) (s : OhlcvStats) : Prop := {
  ok_bounds : Forall (λ t, s.(v_low) <= t.1 <= s.(v_high)) ts;
  ok_open : head ts.*1 = if s.(v_has_traded) then Some s.(v_open) else None;
  ok_close : last ts.*1 = if s.(v_has_traded) then Some s.(v_close) else None;
  ok_volume : s.(v_volume) = sum_by snd ts;
  ok_turnover : s.(v_turnover) * PRICE_SCALE <= sum_by (λ t, t.1 * t.2) ts;
  ok_count : s.(v_trade_count) = Z.of_nat (length ts);
  ok_traded : s.(v_has_traded) = bool_decide (ts ≠ [])
}.

Lemma ohlcv_of_ok ts :
  Forall (λ t, 0 < t.1 ∧ 0 < t.2) ts → ohlcv_ok ts (ohlcv_of ts).
Proof.
  induction ts as [|t ts IH] using rev_ind; intros Hts; [by split; cbn|].
  apply Forall_app in Hts as [Hts [[Hp Hq] _]%Forall_cons]. specialize (IH Hts).
  unfold ohlcv_of in *. rewrite foldl_app. cbn [foldl]. set (s := foldl _ _ ts) in *.
  destruct IH as [Hb Ho Hc Hv Ht Hn Htr].
  assert (Hq0 : Z.quot (t.1 * t.2) PRICE_SCALE * PRICE_SCALE <= t.1 * t.2).
  { rewrite Z.quot_div_nonneg by (unfold PRICE_SCALE; nia).
    pose proof (Z.mul_div_le (t.1 * t.2) PRICE_SCALE). unfold PRICE_SCALE in *. lia. }
  unfold ohlcv_on_trade. destruct (v_has_traded s); split; cbn.
  - apply Forall_app. split; [eapply Forall_impl; [exact Hb|]|repeat constructor]; cbn; intros; case_ifs; lia.
  - rewrite fmap_app. destruct ts as [|? ?]; [done|]. exact Ho.
  - rewrite fmap_app. cbn. apply last_snoc.
  - rewrite sum_by_app. cbn. lia.
  - rewrite sum_by_app. cbn. lia.
  - rewrite length_app. cbn. lia.
  - by destruct ts.
  - destruct ts as [|? ?]; [|done]. repeat constructor; cbn; case_ifs; lia.
  - destruct ts as [|? ?]; [done|done].
  - rewrite fmap_app. cbn. apply last_snoc.
  - rewrite sum_by_app. cbn. lia.
  - rewrite sum_by_app. cbn. lia.
  - rewrite length_app. cbn. lia.
  - by destruct ts.
Qed.

(** session statistics.  After any sequence of trades with positive
    prices and sizes: open and close are the first and last price, every price
    lies between low and high, volume and count are exact, and the reported
    VWAP never exceeds the high. *)
Theorem ohlcv_correct ts :
  Forall (λ t : Price * Quantity, 0 < t.1 ∧ 0 < t.2) ts → ts ≠ [] →
  let s := ohlcv_of ts in
  head ts.*1 = Some s.(v_open) ∧ last ts.*1 = Some s.(v_close) ∧
  Forall (λ t, s.(v_low) <= t.1 <= s.(v_high)) ts ∧
  s.(v_volume) = sum_by snd ts ∧ s.(v_trade_count) = Z.of_nat (length ts) ∧
  vwap s <= s.(v_high).
Proof.
  intros Hts Hne s. destruct (ohlcv_of_ok ts Hts) as [Hb Ho Hc Hv Ht Hn Htr]. fold s in Hb, Ho, Hc, Hv, Ht, Hn, Htr.
  rewrite bool_decide_eq_true_2 in Htr by done. rewrite Htr in Ho, Hc. split_and!; try done.
  unfold vwap. assert (0 < v_volume s) as Hpos.
  { rewrite Hv. apply sum_by_pos; [|done]. eapply Forall_impl; [exact Hts|]. by intros ? []. }
  assert ((v_volume s =? 0) = false) as -> by lia.
  apply Z.quot_le_upper_bound; [done|]. etrans; [exact Ht|]. rewrite Hv.
  clear -Hb Hts. revert Hts Hb. generalize (v_low s), (v_high s). intros lo hi Hts.
  induction Hts as [|t ts [? ?] _ IH]; cbn; [lia|].
  intros [Ht Hb]%Forall_cons. specialize (IH Hb). nia.
Qed.

Lemma ohlcv_correct_witness :
  let s := ohlcv_of [(1000000, 10000); (1010000, 20000); (990000, 5000)] in
  Some 1000000 = Some s.(v_open) ∧ Some 990000 = Some s.(v_close) ∧
  Forall (λ t, s.(v_low) <= t.1 <= s.(v_high)) [(1000000, 10000); (1010000, 20000); (990000, 5000)] ∧
  s.(v_volume) = 35000 ∧ s.(v_trade_count) = 3 ∧ vwap s <= s.(v_high).
Proof.
  apply (ohlcv_correct [(1000000, 10000); (1010000, 20000); (990000, 5000)]);
    [repeat constructor|discriminate].
Defined.

(** ** Order persistence *)

(** persistence round trip.  Restoring a serialized order writes every
    field that was saved; the market-maker and top-order flags are those the
    pool slot held before, so they survive only if the slot agrees. *)
Theorem persistence_roundtrip o stale :
  serialize_order (deserialize_order (serialize_order o) stale) = serialize_order o ∧
  (deserialize_order (serialize_order o) stale = o ↔
     stale.(o_is_market_maker) = o.(o_is_market_maker) ∧
     stale.(o_is_top_order) = o.(o_is_top_order)).
Proof.
  destruct o, stale; unfold serialize_order, deserialize_order; cbn.
  split; [done|]. split; [by intros [= -> ->]|by intros [-> ->]].
Qed.
