(* ===== verification/Engine.v ===== *)
(** * The matching engine: [matching_engine.h]

    The state of a [MatchingEngine] object, its CRTP hooks as a type class,
    and every public and private operation as a computation in the state and
    failure monad of [Prelude].  An [Order*] is the pool slot of the order; an
    order linked in a book is found through its slot, an order being matched
    ([match_order]'s argument) is carried as a value until it is linked or its
    slot is freed.  [UB] results mark accesses the C++ code must not make;
    [EngineInvariant] proves that they do not happen from well-formed states. *)

From S2P Require Import Prelude Types MatchAlgo Books Trackers.

(** Template parameters of the class. *)
Class EngineParams : Type := {
  MaxOrders : nat;
  MaxPriceLevels : nat;
  MaxOrderIds : Z;
  MaxAccounts : Z
}.

(** The object's members.  [order_free] and [level_free] are the free lists of
    the two object pools, with the stale contents of the free order slots;
    [trace] is the sequence of listener calls made so far; [derived] holds the
    members a derived exchange class adds. *)
Record engine (D : Type) : Type := mkEngine {
  config : EngineConfig;
  current_state : SessionState;
  bids : list PriceLevel;
  asks : list PriceLevel;
  buy_stops : list PriceLevel;
  sell_stops : list PriceLevel;
  order_free : list (loc * Order);
  level_free : list loc;
  rate_tracker : gmap Z RateEntry;
  position_tracker : gmap Z Z;
  trade_registry : TradeRegistry;
  last_trade_price : Price;
  vi_reference_price : Price;
  next_order_id : OrderId;
  order_index : gmap Z loc;
  trace : list event;
  derived : D
}.
Arguments mkEngine {D}.
Arguments config {D}.
Arguments current_state {D}.
Arguments bids {D}.
Arguments asks {D}.
Arguments buy_stops {D}.
Arguments sell_stops {D}.
Arguments order_free {D}.
Arguments level_free {D}.
Arguments rate_tracker {D}.
Arguments position_tracker {D}.
Arguments trade_registry {D}.
Arguments last_trade_price {D}.
Arguments vi_reference_price {D}.
Arguments next_order_id {D}.
Arguments order_index {D}.
Arguments trace {D}.
Arguments derived {D}.

Section setters.
Context {D : Type}.
Implicit Type s : engine D.

Definition set_config (v : EngineConfig) s : engine D :=
  mkEngine v s.(current_state) s.(bids) s.(asks) s.(buy_stops) s.(sell_stops) s.(order_free) s.(level_free) s.(rate_tracker) s.(position_tracker) s.(trade_registry) s.(last_trade_price) s.(vi_reference_price) s.(next_order_id) s.(order_index) s.(trace) s.(derived).

Definition set_current_state (v : SessionState) s : engine D :=
  mkEngine s.(config) v s.(bids) s.(asks) s.(buy_stops) s.(sell_stops) s.(order_free) s.(level_free) s.(rate_tracker) s.(position_tracker) s.(trade_registry) s.(last_trade_price) s.(vi_reference_price) s.(next_order_id) s.(order_index) s.(trace) s.(derived).

Definition set_bids (v : list PriceLevel) s : engine D :=
  mkEngine s.(config) s.(current_state) v s.(asks) s.(buy_stops) s.(sell_stops) s.(order_free) s.(level_free) s.(rate_tracker) s.(position_tracker) s.(trade_registry) s.(last_trade_price) s.(vi_reference_price) s.(next_order_id) s.(order_index) s.(trace) s.(derived).

Definition set_asks (v : list PriceLevel) s : engine D :=
  mkEngine s.(config) s.(current_state) s.(bids) v s.(buy_stops) s.(sell_stops) s.(order_free) s.(level_free) s.(rate_tracker) s.(position_tracker) s.(trade_registry) s.(last_trade_price) s.(vi_reference_price) s.(next_order_id) s.(order_index) s.(trace) s.(derived).

Definition set_buy_stops (v : list PriceLevel) s : engine D :=
  mkEngine s.(config) s.(current_state) s.(bids) s.(asks) v s.(sell_stops) s.(order_free) s.(level_free) s.(rate_tracker) s.(position_tracker) s.(trade_registry) s.(last_trade_price) s.(vi_reference_price) s.(next_order_id) s.(order_index) s.(trace) s.(derived).

Definition set_sell_stops (v : list PriceLevel) s : engine D :=
  mkEngine s.(config) s.(current_state) s.(bids) s.(asks) s.(buy_stops) v s.(order_free) s.(level_free) s.(rate_tracker) s.(position_tracker) s.(trade_registry) s.(last_trade_price) s.(vi_reference_price) s.(next_order_id) s.(order_index) s.(trace) s.(derived).

Definition set_order_free (v : list (loc * Order)) s : engine D :=
  mkEngine s.(config) s.(current_state) s.(bids) s.(asks) s.(buy_stops) s.(sell_stops) v s.(level_free) s.(rate_tracker) s.(position_tracker) s.(trade_registry) s.(last_trade_price) s.(vi_reference_price) s.(next_order_id) s.(order_index) s.(trace) s.(derived).

Definition set_level_free (v : list loc) s : engine D :=
  mkEngine s.(config) s.(current_state) s.(bids) s.(asks) s.(buy_stops) s.(sell_stops) s.(order_free) v s.(rate_tracker) s.(position_tracker) s.(trade_registry) s.(last_trade_price) s.(vi_reference_price) s.(next_order_id) s.(order_index) s.(trace) s.(derived).

Definition set_rate_tracker (v : gmap Z RateEntry) s : engine D :=
  mkEngine s.(config) s.(current_state) s.(bids) s.(asks) s.(buy_stops) s.(sell_stops) s.(order_free) s.(level_free) v s.(position_tracker) s.(trade_registry) s.(last_trade_price) s.(vi_reference_price) s.(next_order_id) s.(order_index) s.(trace) s.(derived).

Definition set_position_tracker (v : gmap Z Z) s : engine D :=
  mkEngine s.(config) s.(current_state) s.(bids) s.(asks) s.(buy_stops) s.(sell_stops) s.(order_free) s.(level_free) s.(rate_tracker) v s.(trade_registry) s.(last_trade_price) s.(vi_reference_price) s.(next_order_id) s.(order_index) s.(trace) s.(derived).

Definition set_trade_registry (v : TradeRegistry) s : engine D :=
  mkEngine s.(config) s.(current_state) s.(bids) s.(asks) s.(buy_stops) s.(sell_stops) s.(order_free) s.(level_free) s.(rate_tracker) s.(position_tracker) v s.(last_trade_price) s.(vi_reference_price) s.(next_order_id) s.(order_index) s.(trace) s.(derived).

Definition set_last_trade_price (v : Price) s : engine D :=
  mkEngine s.(config) s.(current_state) s.(bids) s.(asks) s.(buy_stops) s.(sell_stops) s.(order_free) s.(level_free) s.(rate_tracker) s.(position_tracker) s.(trade_registry) v s.(vi_reference_price) s.(next_order_id) s.(order_index) s.(trace) s.(derived).

Definition set_vi_reference_price (v : Price) s : engine D :=
  mkEngine s.(config) s.(current_state) s.(bids) s.(asks) s.(buy_stops) s.(sell_stops) s.(order_free) s.(level_free) s.(rate_tracker) s.(position_tracker) s.(trade_registry) s.(last_trade_price) v s.(next_order_id) s.(order_index) s.(trace) s.(derived).

Definition set_next_order_id (v : OrderId) s : engine D :=
  mkEngine s.(config) s.(current_state) s.(bids) s.(asks) s.(buy_stops) s.(sell_stops) s.(order_free) s.(level_free) s.(rate_tracker) s.(position_tracker) s.(trade_registry) s.(last_trade_price) s.(vi_reference_price) v s.(order_index) s.(trace) s.(derived).

Definition set_order_index (v : gmap Z loc) s : engine D :=
  mkEngine s.(config) s.(current_state) s.(bids) s.(asks) s.(buy_stops) s.(sell_stops) s.(order_free) s.(level_free) s.(rate_tracker) s.(position_tracker) s.(trade_registry) s.(last_trade_price) s.(vi_reference_price) s.(next_order_id) v s.(trace) s.(derived).

Definition set_trace (v : list event) s : engine D :=
  mkEngine s.(config) s.(current_state) s.(bids) s.(asks) s.(buy_stops) s.(sell_stops) s.(order_free) s.(level_free) s.(rate_tracker) s.(position_tracker) s.(trade_registry) s.(last_trade_price) s.(vi_reference_price) s.(next_order_id) s.(order_index) v s.(derived).

Definition set_derived (v : D) s : engine D :=
  mkEngine s.(config) s.(current_state) s.(bids) s.(asks) s.(buy_stops) s.(sell_stops) s.(order_free) s.(level_free) s.(rate_tracker) s.(position_tracker) s.(trade_registry) s.(last_trade_price) s.(vi_reference_price) s.(next_order_id) s.(order_index) s.(trace) v.
End setters.

(** ** CRTP hooks

    The overridable members of the class; a hook may read the whole object.
    [on_daily_limit_hit] is the only one that writes to it. *)
Class Hooks (D : Type) : Type := {
  on_session_transition : engine D → SessionState → SessionState → Timestamp → bool;
  is_order_allowed_in_phase : engine D → OrderRequest → SessionState → bool;
  on_validate_order : engine D → OrderRequest → bool;
  on_validate_restore : engine D → SerializedOrder → bool;
  is_tif_valid : engine D → TimeInForce → bool;
  on_validate_bust : engine D → TradeId → TradeRecord → Timestamp → bool;
  is_position_check_enabled : engine D → bool;
  get_position_limit : engine D → Z → Quantity;
  is_rate_check_enabled : engine D → bool;
  is_market_maker : engine D → OrderRequest → bool;
  is_self_match : engine D → Order → Order → bool;
  get_smp_action : engine D → SmpAction;
  get_modify_policy : engine D → ModifyPolicy;
  get_min_display_qty : engine D → OrderRequest → Quantity;
  should_trigger_volatility_auction : engine D → Price → Price → bool;
  calculate_dynamic_bands : engine D → Price → Price * Price;
  on_daily_limit_hit : Side → Price → Timestamp → engine D → engine D
}.

(** The base class's own definitions of the hooks. *)
Definition default_hooks (D : Type) : Hooks D := {|
  on_session_transition _ _ _ _ := true;
  is_order_allowed_in_phase _ _ _ := true;
  on_validate_order _ _ := true;
  on_validate_restore _ _ := true;
  is_tif_valid _ _ := true;
  on_validate_bust _ _ _ _ := true;
  is_position_check_enabled _ := false;
  get_position_limit _ _ := 0;
  is_rate_check_enabled _ := false;
  is_market_maker _ _ := false;
  is_self_match _ _ _ := false;
  get_smp_action _ := CancelNewest;
  get_modify_policy _ := CancelReplace;
  get_min_display_qty _ _ := 0;
  should_trigger_volatility_auction _ _ _ := false;
  calculate_dynamic_bands s _ := (s.(config).(price_band_low), s.(config).(price_band_high));
  on_daily_limit_hit _ _ _ s := s
|}.

Section engine_ops.
Context {D : Type} {params : EngineParams} {hooks : Hooks D} {algo : MatchAlgorithm}.
Abbreviation E := (M (engine D)).
Implicit Types (s : engine D) (ts : Timestamp) (e : entry) (l : loc) (o : Order).

(** ** State access *)

Definition emit (ev : event) : E unit := modify (λ s, set_trace (s.(trace) ++ [ev]) s).
Definition when (b : bool) (m : E unit) : E unit := if b then m else mret tt.

(** [best_bid()]/[best_ask()] lists of the order book, by side. *)
Definition side_levels (side : Side) s : list PriceLevel :=
  match side with Buy => s.(bids) | Sell => s.(asks) end.
Definition set_side_levels (side : Side) (v : list PriceLevel) s : engine D :=
  match side with Buy => set_bids v s | Sell => set_asks v s end.

(** The stop book's lists, by side. *)
Definition stop_levels (side : Side) s : list PriceLevel :=
  match side with Buy => s.(buy_stops) | Sell => s.(sell_stops) end.
Definition set_stop_levels (side : Side) (v : list PriceLevel) s : engine D :=
  match side with Buy => set_buy_stops v s | Sell => set_sell_stops v s end.

Definition best_price (levels : list PriceLevel) : Price :=
  match levels with [] => 0 | lv :: _ => lv.(lv_price) end.

(** Dereference an [Order*] of a linked order. *)
Definition load_order (l : loc) s : option (Order * PriceLevel) :=
  match find_order l s.(bids) with
  | Some x => Some x
  | None =>
      match find_order l s.(asks) with
      | Some x => Some x
      | None =>
          match find_order l s.(buy_stops) with
          | Some x => Some x
          | None => find_order l s.(sell_stops)
          end
      end
  end.

(** Write through an [Order*] of a linked order, and to [order->level]. *)
Definition store_order (l : loc) (g : Order → Order) (h : PriceLevel → PriceLevel) s : engine D :=
  set_sell_stops (update_order l g h s.(sell_stops))
    (set_buy_stops (update_order l g h s.(buy_stops))
      (set_asks (update_order l g h s.(asks))
        (set_bids (update_order l g h s.(bids)) s))).

(** ** Object pools and the order index *)

Definition allocate_order : E (option entry) :=
  s ← get;
  match s.(order_free) with
  | [] => mret None
  | e :: free => modify (set_order_free free) ;; mret (Some e)
  end.
Definition deallocate_order (e : entry) : E unit :=
  modify (λ s, set_order_free (e :: s.(order_free)) s).
Definition allocate_level : E (option loc) :=
  s ← get;
  match s.(level_free) with
  | [] => mret None
  | l :: free => modify (set_level_free free) ;; mret (Some l)
  end.
Definition deallocate_level (l : loc) : E unit :=
  modify (λ s, set_level_free (l :: s.(level_free)) s).
Definition deallocate_if_freed (freed : option loc) : E unit :=
  match freed with Some l => deallocate_level l | None => mret tt end.
Definition index_set (id : OrderId) (l : loc) : E unit :=
  modify (λ s, set_order_index (<[id := l]> s.(order_index)) s).
Definition index_clear (id : OrderId) : E unit :=
  modify (λ s, set_order_index (delete id s.(order_index)) s).

(** [book_.remove_order(order)] and [stop_book_.remove_stop(order)]. *)
Definition book_remove (side : Side) (l : loc) : E (Order * option loc) :=
  s ← get;
  '(levels, o, freed) ← deref (remove_order l (side_levels side s));
  modify (set_side_levels side levels) ;;
  mret (o, freed).
Definition stop_remove (l : loc) : E (Order * option loc) :=
  s ← get;
  match remove_order l s.(buy_stops) with
  | Some (levels, o, freed) => modify (set_buy_stops levels) ;; mret (o, freed)
  | None =>
      '(levels, o, freed) ← deref (remove_order l s.(sell_stops));
      modify (set_sell_stops levels) ;;
      mret (o, freed)
  end.

(** ** Top of book *)

Definition fire_top_of_book ts : E unit :=
  s ← get;
  let '(best_bid, bid_qty) :=
    match s.(bids) with [] => (0, 0) | lv :: _ => (lv.(lv_price), lv.(lv_total_quantity)) end in
  let '(best_ask, ask_qty) :=
    match s.(asks) with [] => (0, 0) | lv :: _ => (lv.(lv_price), lv.(lv_total_quantity)) end in
  emit (TopOfBook best_bid bid_qty best_ask ask_qty ts).

Definition fire_top_of_book_if_changed ts (old_best_bid old_best_ask : Price) : E unit :=
  s ← get;
  when (negb (best_price s.(bids) =? old_best_bid) || negb (best_price s.(asks) =? old_best_ask))
    (fire_top_of_book ts).

(** [find_level_by_price]. *)
Definition find_level_by_price (side : Side) (price : Price) s : option PriceLevel :=
  find_level price (side_levels side s).

Definition fire_depth_after_remove (freed : option loc) (side : Side) (price : Price) ts : E unit :=
  match freed with
  | Some l => emit (DepthUpdate side price 0 0 DepthRemove ts) ;; deallocate_level l
  | None =>
      s ← get;
      match find_level_by_price side price s with
      | Some lv =>
          emit (DepthUpdate side price lv.(lv_total_quantity) lv.(lv_order_count) DepthUpd ts)
      | None => mret tt
      end
  end.

(** ** Resting an order *)

Definition insert_into_stop_book (e : entry) : E unit :=
  new_level ← allocate_level;
  match new_level with
  | None =>
      index_clear e.2.(o_id) ;;
      emit (OrderCancelled e.2.(o_id) e.2.(o_timestamp) CLevelPoolExhausted) ;;
      deallocate_order e
  | Some slot =>
      s ← get;
      let side := e.2.(o_side) in
      let '(levels, used_new) := insert_order (stop_before side) e slot (stop_levels side s) in
      modify (set_stop_levels side levels) ;;
      if used_new : bool then mret tt else deallocate_level slot
  end.

Definition insert_into_book (e : entry) ts : E unit :=
  new_level ← allocate_level;
  match new_level with
  | None =>
      index_clear e.2.(o_id) ;;
      emit (OrderCancelled e.2.(o_id) ts CLevelPoolExhausted) ;;
      deallocate_order e
  | Some slot =>
      s ← get;
      let side := e.2.(o_side) in
      let '(levels, is_new_level) := insert_order (book_before side) e slot (side_levels side s) in
      modify (set_side_levels side levels) ;;
      when (negb is_new_level) (deallocate_level slot) ;;
      emit (OrderBookAction e.2.(o_id) side e.2.(o_price) e.2.(o_remaining_quantity) ActAdd ts) ;;
      '(_, lv) ← deref (find_order e.1 levels);
      emit (DepthUpdate side lv.(lv_price) lv.(lv_total_quantity) lv.(lv_order_count)
              (if is_new_level : bool then DepthAdd else DepthUpd) ts)
  end.

(** Write through an [Order*] linked on a side of the order book, and to its
    [order->level]. *)
Definition store_side (side : Side) (l : loc) (g : Order → Order) (h : PriceLevel → PriceLevel)
    : E unit :=
  modify (λ s, set_side_levels side (update_order l g h (side_levels side s)) s).

(** Drop an order that is not linked: [order_index_[id] = nullptr;
    on_order_cancelled(...); order_pool_.deallocate(order)]. *)
Definition drop_order (e : entry) ts (reason : CancelReason) : E unit :=
  index_clear e.2.(o_id) ;;
  emit (OrderCancelled e.2.(o_id) ts reason) ;;
  deallocate_order e.

(** ** Icebergs *)

(** [display_qty > 0 && total_qty > filled_quantity]. *)
Definition has_hidden o : bool :=
  (o.(o_display_qty) >? 0) && (o.(o_total_qty) >? o.(o_filled_quantity)).
Definition next_tranche o : Quantity :=
  Z.min o.(o_display_qty) (o.(o_total_qty) - o.(o_filled_quantity)).

(** Show the next tranche of the order at [l], at the back of its queue. *)
Definition reveal_tranche (l : loc) (o : Order) ts : E unit :=
  let next := next_tranche o in
  store_side o.(o_side) l (set_o_remaining_quantity next)
    (λ lv, add_total next (move_to_back l lv)) ;;
  emit (OrderBookAction o.(o_id) o.(o_side) o.(o_price) next ActAdd ts) ;;
  s ← get;
  '(_, lv) ← deref (find_order l (side_levels o.(o_side) s));
  emit (DepthUpdate o.(o_side) lv.(lv_price) lv.(lv_total_quantity) lv.(lv_order_count)
          DepthUpd ts).

(** ** Session changes caused by trading *)

Definition check_daily_limit_hit ts : E bool :=
  s ← get;
  if bool_decide (s.(current_state) = LockLimit) then mret true
  else
    let hit_upper := (s.(config).(daily_limit_high) >? 0) &&
                     (s.(last_trade_price) >=? s.(config).(daily_limit_high)) in
    let hit_lower := (s.(config).(daily_limit_low) >? 0) &&
                     (s.(last_trade_price) <=? s.(config).(daily_limit_low)) in
    if negb hit_upper && negb hit_lower then mret false
    else
      let limit_side := if hit_upper then Buy else Sell in
      let limit_price := if hit_upper then s.(config).(daily_limit_high)
                         else s.(config).(daily_limit_low) in
      emit (LockLimitTriggered limit_side limit_price s.(last_trade_price) ts) ;;
      modify (set_current_state LockLimit) ;;
      emit (MarketStatus LockLimit ts) ;;
      modify (on_daily_limit_hit limit_side limit_price ts) ;;
      mret true.

Definition check_volatility_interruption ts : E bool :=
  s ← get;
  if negb (bool_decide (s.(current_state) = Continuous)) then mret false
  else if s.(vi_reference_price) =? 0 then mret false
  else if negb (should_trigger_volatility_auction s s.(last_trade_price) s.(vi_reference_price))
  then mret false
  else
    modify (set_current_state VolatilityAuction) ;;
    emit (MarketStatus VolatilityAuction ts) ;;
    mret true.

(** ** Matching *)

(** The price check of [match_order] and [compute_matchable_qty]: may the
    order trade at the level's price? *)
Definition matchable o (level_price : Price) : bool :=
  match o.(o_type), o.(o_side) with
  | Limit, Buy => negb (level_price >? o.(o_price))
  | Limit, Sell => negb (level_price <? o.(o_price))
  | _, _ => true
  end.

Fixpoint matchable_qty o (levels : list PriceLevel) : Quantity :=
  match levels with
  | [] => 0
  | lv :: rest =>
      if matchable o lv.(lv_price) then lv.(lv_total_quantity) + matchable_qty o rest else 0
  end.

Definition compute_matchable_qty o s : Quantity :=
  matchable_qty o (side_levels (opposite o.(o_side)) s).

(** [filled_quantity -= q; remaining_quantity += q]. *)
Definition unfill_order (q : Quantity) o : Order :=
  set_o_remaining_quantity (o.(o_remaining_quantity) + q)
    (set_o_filled_quantity (o.(o_filled_quantity) - q) o).

(** [undo_fills]; the aggressor is returned with its quantity given back. *)
Fixpoint undo_fills o (fs : list FillResult) : E Order :=
  match fs with
  | [] => mret o
  | f :: fs' =>
      store_side (opposite o.(o_side)) f.(f_resting_order) (unfill_order f.(f_quantity)) id ;;
      undo_fills (set_o_remaining_quantity (o.(o_remaining_quantity) + f.(f_quantity)) o) fs'
  end.

(** [apply_smp_action]; [false] when the aggressor was cancelled. *)
Definition apply_smp_action (aggressor : entry) (resting : loc) (fill : FillResult) ts : E bool :=
  s ← get;
  match get_smp_action s with
  | CancelNewest => drop_order aggressor ts SelfMatchPrevention ;; mret false
  | CancelOldest =>
      let side := opposite aggressor.2.(o_side) in
      '(r, _) ← deref (find_order resting (side_levels side s));
      '(_, freed) ← book_remove r.(o_side) resting;
      index_clear r.(o_id) ;;
      emit (OrderCancelled r.(o_id) ts SelfMatchPrevention) ;;
      emit (OrderBookAction r.(o_id) r.(o_side) fill.(f_price) r.(o_remaining_quantity)
              ActCancel ts) ;;
      match freed with
      | Some lv =>
          emit (DepthUpdate r.(o_side) fill.(f_price) 0 0 DepthRemove ts) ;;
          deallocate_level lv
      | None =>
          s' ← get;
          lv ← deref (find_level fill.(f_price) (side_levels side s'));
          emit (DepthUpdate r.(o_side) fill.(f_price) lv.(lv_total_quantity)
                  lv.(lv_order_count) DepthUpd ts)
      end ;;
      deallocate_order (resting, r) ;;
      mret true
  | CancelBoth =>
      let side := opposite aggressor.2.(o_side) in
      '(r, _) ← deref (find_order resting (side_levels side s));
      '(_, freed) ← book_remove r.(o_side) resting;
      index_clear r.(o_id) ;;
      emit (OrderCancelled r.(o_id) ts SelfMatchPrevention) ;;
      emit (OrderBookAction r.(o_id) r.(o_side) fill.(f_price) r.(o_remaining_quantity)
              ActCancel ts) ;;
      match freed with
      | Some lv =>
          emit (DepthUpdate r.(o_side) fill.(f_price) 0 0 DepthRemove ts) ;;
          deallocate_level lv
      | None => mret tt
      end ;;
      deallocate_order (resting, r) ;;
      drop_order aggressor ts SelfMatchPrevention ;;
      mret false
  | Decrement => mret true
  | SmpNone => mret true
  end.

Definition update_positions (account : Z) (side : Side) (qty : Quantity) : E unit :=
  modify (λ s, set_position_tracker (update_fill MaxAccounts account side qty s.(position_tracker)) s).

Definition record_trade (aggressor_id resting_id : OrderId) (price : Price) (qty : Quantity) ts
    (side : Side) (aggressor_account resting_account : Z) : E unit :=
  modify (λ s, set_trade_registry
    (record MaxOrderIds aggressor_id resting_id price qty ts side aggressor_account
       resting_account s.(trade_registry)).2 s).

(** The body of the fill loop for a fill that is not a self match: [o] is
    the aggressor, [r] the resting order, both already reduced by the
    algorithm. *)
Definition apply_fill o (f : FillResult) (r : Order) ts : E Order :=
  let o' := set_o_filled_quantity (o.(o_filled_quantity) + f.(f_quantity)) o in
  modify (set_last_trade_price f.(f_price)) ;;
  update_positions o.(o_account_id) o.(o_side) f.(f_quantity) ;;
  update_positions r.(o_account_id) r.(o_side) f.(f_quantity) ;;
  store_side r.(o_side) f.(f_resting_order) id (add_total (- f.(f_quantity))) ;;
  emit (if o.(o_remaining_quantity) =? 0
        then OrderFilled o.(o_id) r.(o_id) f.(f_price) f.(f_quantity) ts
        else OrderPartiallyFilled o.(o_id) r.(o_id) f.(f_price) f.(f_quantity)
               o.(o_remaining_quantity) f.(f_resting_remaining) ts) ;;
  emit (Trade f.(f_price) f.(f_quantity) o.(o_id) r.(o_id) o.(o_side) ts) ;;
  record_trade o.(o_id) r.(o_id) f.(f_price) f.(f_quantity) ts o.(o_side)
    o.(o_account_id) r.(o_account_id) ;;
  emit (OrderBookAction r.(o_id) r.(o_side) f.(f_price) f.(f_quantity) ActFill ts) ;;
  (if f.(f_resting_remaining) =? 0 then
     if has_hidden r then reveal_tranche f.(f_resting_order) r ts
     else
       '(_, freed) ← book_remove r.(o_side) f.(f_resting_order);
       emit (DepthUpdate r.(o_side) f.(f_price) 0 0 DepthRemove ts) ;;
       deallocate_if_freed freed ;;
       index_clear r.(o_id) ;;
       deallocate_order (f.(f_resting_order), r)
   else
     s ← get;
     '(_, lv) ← deref (find_order f.(f_resting_order) (side_levels r.(o_side) s));
     emit (DepthUpdate r.(o_side) lv.(lv_price) lv.(lv_total_quantity) lv.(lv_order_count)
             DepthUpd ts)) ;;
  mret o'.

(** The fill loop of [match_order]; returns the aggressor and whether it is
    alive. *)
Fixpoint process_fills (l : loc) o (fs : list FillResult) ts : E (Order * bool) :=
  match fs with
  | [] => mret (o, true)
  | f :: fs' =>
      s ← get;
      '(r, _) ← deref (find_order f.(f_resting_order) (side_levels (opposite o.(o_side)) s));
      if is_self_match s o r then
        o' ← undo_fills o (f :: fs');
        alive ← apply_smp_action (l, o') f.(f_resting_order) f ts;
        mret (o', alive)
      else
        o' ← apply_fill o f r ts;
        process_fills l o' fs' ts
  end.

(** Size of the [results] array. *)
Definition kMaxFills : nat := 256.

(** Run the matching algorithm on the best opposite level and store what it
    did to the queue.  More than [kMaxFills] entries overrun the array. *)
Definition match_level o (level : PriceLevel) (rest : list PriceLevel)
    : E (Order * list FillResult) :=
  '(q, rem, fs) ← deref (algo_match level o.(o_remaining_quantity) []);
  if (kMaxFills <? length fs)%nat then ub
  else
    modify (set_side_levels (opposite o.(o_side)) (set_lv_queue q level :: rest)) ;;
    mret (set_o_remaining_quantity rem o, fs).

(** The [while] loop of [match_order]. *)
Fixpoint match_loop (fuel : nat) (l : loc) o ts : E (Order * bool) :=
  if negb (o.(o_remaining_quantity) >? 0) then mret (o, true)
  else
    s ← get;
    match side_levels (opposite o.(o_side)) s with
    | [] => mret (o, true)
    | level :: rest =>
        if negb (matchable o level.(lv_price)) then mret (o, true)
        else
          match fuel with
          | O => out_of_fuel
          | S fuel' =>
              '(o1, fs) ← match_level o level rest;
              '(o2, alive) ← process_fills l o1 fs ts;
              hit ← check_daily_limit_hit ts;
              if hit : bool then mret (o2, alive)
              else
                vi_hit ← check_volatility_interruption ts;
                if vi_hit : bool then mret (o2, alive)
                else if alive : bool then match_loop fuel' l o2 ts
                else mret (o2, false)
          end
    end.

Definition post_match (e : entry) ts (old_best_bid old_best_ask : Price) : E unit :=
  let o := e.2 in
  if o.(o_remaining_quantity) =? 0 then
    index_clear o.(o_id) ;;
    deallocate_order e ;;
    fire_top_of_book_if_changed ts old_best_bid old_best_ask
  else if bool_decide (o.(o_type) = Market) then
    drop_order e ts IOCRemainder ;;
    fire_top_of_book_if_changed ts old_best_bid old_best_ask
  else if bool_decide (o.(o_tif) = IOC) then
    drop_order e ts IOCRemainder ;;
    fire_top_of_book_if_changed ts old_best_bid old_best_ask
  else if bool_decide (o.(o_tif) = FOK) then
    drop_order e ts FOKFailed ;;
    fire_top_of_book_if_changed ts old_best_bid old_best_ask
  else
    insert_into_book e ts ;;
    fire_top_of_book ts.

Definition match_order (fuel : nat) (e : entry) ts : E unit :=
  s ← get;
  let old_best_bid := best_price s.(bids) in
  let old_best_ask := best_price s.(asks) in
  if bool_decide (e.2.(o_tif) = FOK) &&
     (compute_matchable_qty e.2 s <? e.2.(o_remaining_quantity)) then
    drop_order e ts FOKFailed ;;
    fire_top_of_book_if_changed ts old_best_bid old_best_ask
  else
    '(o, alive) ← match_loop fuel e.1 e.2 ts;
    if alive : bool then post_match (e.1, o) ts old_best_bid old_best_ask
    else fire_top_of_book_if_changed ts old_best_bid old_best_ask.

(** ** Stop orders *)

Definition has_triggered_stops (last : Price) s : bool :=
  match s.(buy_stops) with lv :: _ => last >=? lv.(lv_price) | [] => false end ||
  match s.(sell_stops) with lv :: _ => last <=? lv.(lv_price) | [] => false end.

Definition level_head (levels : list PriceLevel) : option loc :=
  match levels with
  | lv :: _ => match lv.(lv_queue) with e :: _ => Some e.1 | [] => None end
  | [] => None
  end.

Definition next_triggered_stop (last : Price) s : option loc :=
  if match s.(buy_stops) with lv :: _ => last >=? lv.(lv_price) | [] => false end
  then level_head s.(buy_stops)
  else if match s.(sell_stops) with lv :: _ => last <=? lv.(lv_price) | [] => false end
  then level_head s.(sell_stops)
  else None.

(** Convert a triggered stop to a market or limit order. *)
Definition convert_stop o : Order :=
  if bool_decide (o.(o_type) = Stop) then set_o_price 0 (set_o_type Market o)
  else set_o_type Limit o.

Fixpoint check_and_trigger_stops (match_fuel fuel : nat) ts : E unit :=
  s ← get;
  if (s.(last_trade_price) >? 0) && has_triggered_stops s.(last_trade_price) s then
    match fuel, next_triggered_stop s.(last_trade_price) s with
    | _, None => mret tt
    | O, Some _ => out_of_fuel
    | S fuel', Some l =>
        '(o, freed) ← stop_remove l;
        deallocate_if_freed freed ;;
        match_order match_fuel (l, convert_stop o) ts ;;
        check_and_trigger_stops match_fuel fuel' ts
    end
  else mret tt.

(** ** Order entry *)

(** [rate_tracker_.check_and_increment(account, ts)]. *)
Definition rate_check (account : Z) ts : E bool :=
  s ← get;
  if negb (is_rate_check_enabled s) then mret true
  else
    let '(ok, t) := check_and_increment MaxAccounts s.(config).(throttle) account ts
                      s.(rate_tracker) in
    modify (set_rate_tracker t) ;;
    mret ok.

(** [config_.x > 0 && (v % config_.x) != 0]. *)
Definition off_grid (grid v : Z) : bool := (grid >? 0) && negb (Z.rem v grid =? 0).

Definition is_priced (ty : OrderType) : bool :=
  bool_decide (ty = Limit) || bool_decide (ty = StopLimit).
Definition is_stop (ty : OrderType) : bool :=
  bool_decide (ty = Stop) || bool_decide (ty = StopLimit).

(** The price checks [new_order] and [restore_order] share. *)
Definition check_price (price : Price) s : option RejectReason :=
  if price <=? 0 then Some InvalidPrice
  else if off_grid s.(config).(tick_size) price then Some InvalidPrice
  else
    let '(band_low, band_high) := calculate_dynamic_bands s s.(last_trade_price) in
    if (band_low >? 0) && (price <? band_low) then Some PriceBandViolation
    else if (band_high >? 0) && (price >? band_high) then Some PriceBandViolation
    else None.

Definition check_display (req : OrderRequest) s : option RejectReason :=
  if req.(r_display_qty) >? 0 then
    if req.(r_display_qty) >? req.(r_quantity) then Some InvalidQuantity
    else if off_grid s.(config).(lot_size) req.(r_display_qty) then Some InvalidQuantity
    else
      let min_display := get_min_display_qty s req in
      if (min_display >? 0) && (req.(r_display_qty) <? min_display) then Some InvalidQuantity
      else None
  else None.

Definition check_limits (req : OrderRequest) s : option RejectReason :=
  if is_priced req.(r_type) then
    match check_price req.(r_price) s with
    | Some r => Some r
    | None =>
        if (s.(config).(daily_limit_high) >? 0) &&
           (req.(r_price) >? s.(config).(daily_limit_high)) then Some LockLimitUp
        else if (s.(config).(daily_limit_low) >? 0) &&
                (req.(r_price) <? s.(config).(daily_limit_low)) then Some LockLimitDown
        else None
    end
  else None.

(** The validation sequence of [new_order] after the rate check: the reason
    of the first check that fails. *)
Definition validate_order (req : OrderRequest) s : option RejectReason :=
  if negb (on_validate_order s req) then Some RExchangeSpecific
  else if negb (is_tif_valid s req.(r_tif)) then Some InvalidTif
  else if req.(r_quantity) <=? 0 then Some InvalidQuantity
  else if off_grid s.(config).(lot_size) req.(r_quantity) then Some InvalidQuantity
  else match check_display req s with Some r => Some r | None =>
  if (s.(config).(max_order_size) >? 0) && (req.(r_quantity) >? s.(config).(max_order_size))
  then Some MaxOrderSizeExceeded
  else match check_limits req s with Some r => Some r | None =>
  if is_stop req.(r_type) && (req.(r_stop_price) <=? 0) then Some InvalidPrice
  else if bool_decide (s.(current_state) = Closed) then Some RExchangeSpecific
  else if negb (is_order_allowed_in_phase s req s.(current_state)) then Some InvalidTif
  else if is_position_check_enabled s &&
          would_exceed_limit MaxAccounts req.(r_account_id) req.(r_side) req.(r_quantity)
            (get_position_limit s req.(r_account_id)) s.(position_tracker)
  then Some PositionLimitExceeded
  else if s.(next_order_id) >=? MaxOrderIds then Some PoolExhausted
  else None
  end end.

(** The fields [new_order] writes; [is_top_order] keeps the slot's value. *)
Definition init_order (req : OrderRequest) (id : OrderId) (mm : bool) (stale : Order) : Order :=
  mkOrder id req.(r_client_order_id) req.(r_account_id)
    (if bool_decide (req.(r_type) = Stop) then req.(r_stop_price) else req.(r_price))
    req.(r_quantity) 0
    (if req.(r_display_qty) >? 0 then req.(r_display_qty) else req.(r_quantity))
    req.(r_side) req.(r_type) req.(r_tif) req.(r_timestamp) req.(r_gtd_expiry)
    req.(r_display_qty) req.(r_quantity) mm stale.(o_is_top_order).

Definition is_collection_phase (st : SessionState) : bool :=
  match st with
  | PreOpen | PreClose | VolatilityAuction | LockLimit => true
  | _ => false
  end.

(** Park a stop order under its stop price, then put the limit price back
    (the write reaches the slot also when the insertion freed it). *)
Definition park_stop (req : OrderRequest) (e : entry) : E unit :=
  insert_into_stop_book (e.1, set_o_price req.(r_stop_price) e.2) ;;
  when (bool_decide (req.(r_type) = StopLimit))
    (modify (λ s, store_order e.1 (set_o_price e.2.(o_price)) id s) ;;
     modify (λ s, set_order_free (update_entry e.1 (set_o_price e.2.(o_price)) s.(order_free)) s)).

(** Steps 11 to 13 of [new_order]. *)
Definition route_order (fuel : nat) (req : OrderRequest) (e : entry) : E unit :=
  s ← get;
  if is_stop req.(r_type) then park_stop req e
  else if is_collection_phase s.(current_state) then
    if bool_decide (req.(r_type) = Limit) then
      insert_into_book e req.(r_timestamp) ;;
      fire_top_of_book req.(r_timestamp)
    else drop_order e req.(r_timestamp) IOCRemainder
  else
    match_order fuel e req.(r_timestamp) ;;
    check_and_trigger_stops fuel fuel req.(r_timestamp).

Definition new_order (fuel : nat) (req : OrderRequest) : E unit :=
  let reject r := emit (OrderRejected req.(r_client_order_id) req.(r_timestamp) r) in
  rate_ok ← rate_check req.(r_account_id) req.(r_timestamp);
  if negb rate_ok then reject RateThrottled
  else
    s ← get;
    match validate_order req s with
    | Some r => reject r
    | None =>
        slot ← allocate_order;
        match slot with
        | None => reject PoolExhausted
        | Some (l, stale) =>
            let o := init_order req s.(next_order_id) (is_market_maker s req) stale in
            modify (set_next_order_id (s.(next_order_id) + 1)) ;;
            index_set o.(o_id) l ;;
            emit (OrderAccepted o.(o_id) o.(o_client_order_id) req.(r_timestamp)) ;;
            route_order fuel req (l, o)
        end
    end.

(** ** Cancel *)

Definition cancel_active_order (l : loc) ts (reason : CancelReason) : E unit :=
  s ← get;
  let old_best_bid := best_price s.(bids) in
  let old_best_ask := best_price s.(asks) in
  '(o, _) ← deref (load_order l s);
  if is_stop o.(o_type) then
    '(_, freed) ← stop_remove l;
    index_clear o.(o_id) ;;
    emit (OrderCancelled o.(o_id) ts reason) ;;
    deallocate_if_freed freed ;;
    deallocate_order (l, o)
  else
    '(_, freed) ← book_remove o.(o_side) l;
    index_clear o.(o_id) ;;
    emit (OrderCancelled o.(o_id) ts reason) ;;
    emit (OrderBookAction o.(o_id) o.(o_side) o.(o_price) o.(o_remaining_quantity) ActCancel ts) ;;
    fire_depth_after_remove freed o.(o_side) o.(o_price) ts ;;
    fire_top_of_book_if_changed ts old_best_bid old_best_ask ;;
    deallocate_order (l, o).

(** [id == 0 || id >= MaxOrderIds || order_index_[id] == nullptr] fails. *)
Definition index_lookup (id : OrderId) s : option loc :=
  if (id =? 0) || (id >=? MaxOrderIds) then None else s.(order_index) !! id.

Definition cancel_order (id : OrderId) ts : E unit :=
  s ← get;
  if bool_decide (s.(current_state) = Closed) then
    emit (OrderCancelRejected id 0 ts RExchangeSpecific)
  else
    match index_lookup id s with
    | None => emit (OrderCancelRejected id 0 ts UnknownOrder)
    | Some l =>
        '(o, _) ← deref (load_order l s);
        rate_ok ← rate_check o.(o_account_id) ts;
        if negb rate_ok then emit (OrderCancelRejected id 0 ts RateThrottled)
        else cancel_active_order l ts UserRequested
    end.

(** [for (size_t i = 1; i < next_order_id_; ++i)]. *)
Definition live_ids s : list OrderId := seqZ 1 (s.(next_order_id) - 1).

(** The loop the three scans share: cancel the orders [sel] accepts, count
    them. *)
Fixpoint cancel_scan (sel : Order → bool) (reason : CancelReason) ts (ids : list OrderId)
    (count : Z) : E Z :=
  match ids with
  | [] => mret count
  | i :: ids' =>
      s ← get;
      match s.(order_index) !! i with
      | None => cancel_scan sel reason ts ids' count
      | Some l =>
          '(o, _) ← deref (load_order l s);
          if sel o then
            cancel_active_order l ts reason ;;
            cancel_scan sel reason ts ids' (count + 1)
          else cancel_scan sel reason ts ids' count
      end
  end.

Definition should_expire (now : Timestamp) (tif : TimeInForce) o : bool :=
  bool_decide (o.(o_tif) = tif) &&
  match tif with
  | DAY => true
  | GTD => o.(o_gtd_expiry) <=? now
  | _ => false
  end.

Definition trigger_expiry (now : Timestamp) (tif : TimeInForce) : E unit :=
  s ← get;
  cancel_scan (should_expire now tif) Expired now (live_ids s) 0 ;;
  mret tt.

Definition mass_cancel (account_id : Z) ts : E Z :=
  s ← get;
  cancel_scan (λ o, o.(o_account_id) =? account_id) MassCancelled ts (live_ids s) 0.

Definition mass_cancel_all ts : E Z :=
  s ← get;
  cancel_scan (λ _, true) MassCancelled ts (live_ids s) 0.

(** ** Modify *)

Definition validate_modify (req : ModifyRequest) s : option RejectReason :=
  if req.(m_new_quantity) <=? 0 then Some InvalidQuantity
  else if req.(m_new_price) <=? 0 then Some InvalidPrice
  else if off_grid s.(config).(tick_size) req.(m_new_price) then Some InvalidPrice
  else if off_grid s.(config).(lot_size) req.(m_new_quantity) then Some InvalidQuantity
  else if bool_decide (get_modify_policy s = RejectModify) then Some RExchangeSpecific
  else None.

Definition amends_down (req : ModifyRequest) (o : Order) s : bool :=
  bool_decide (get_modify_policy s = AmendDown) &&
  (req.(m_new_price) =? o.(o_price)) &&
  (req.(m_new_quantity) <? o.(o_quantity)) &&
  (req.(m_new_quantity) >? o.(o_filled_quantity)).

Definition amend_down (req : ModifyRequest) (l : loc) (o : Order) : E unit :=
  let new_remaining := req.(m_new_quantity) - o.(o_filled_quantity) in
  modify (store_order l
            (λ o, set_o_remaining_quantity new_remaining (set_o_quantity req.(m_new_quantity) o))
            (add_total (- (o.(o_remaining_quantity) - new_remaining)))) ;;
  emit (OrderModified o.(o_id) req.(m_client_order_id) req.(m_new_price) req.(m_new_quantity)
          req.(m_timestamp)) ;;
  s ← get;
  '(_, lv) ← deref (load_order l s);
  emit (DepthUpdate o.(o_side) lv.(lv_price) lv.(lv_total_quantity) lv.(lv_order_count)
          DepthUpd req.(m_timestamp)).

Definition replaced_order (req : ModifyRequest) (o : Order) : Order :=
  set_o_timestamp req.(m_timestamp)
    (set_o_remaining_quantity (req.(m_new_quantity) - o.(o_filled_quantity))
      (set_o_quantity req.(m_new_quantity) (set_o_price req.(m_new_price) o))).

Definition cancel_replace (fuel : nat) (req : ModifyRequest) (l : loc) (o : Order) : E unit :=
  '(_, freed) ← book_remove o.(o_side) l;
  emit (OrderBookAction o.(o_id) o.(o_side) o.(o_price) o.(o_remaining_quantity) ActCancel
          req.(m_timestamp)) ;;
  fire_depth_after_remove freed o.(o_side) o.(o_price) req.(m_timestamp) ;;
  emit (OrderModified o.(o_id) req.(m_client_order_id) req.(m_new_price) req.(m_new_quantity)
          req.(m_timestamp)) ;;
  match_order fuel (l, replaced_order req o) req.(m_timestamp) ;;
  check_and_trigger_stops fuel fuel req.(m_timestamp).

Definition modify_order (fuel : nat) (req : ModifyRequest) : E unit :=
  let mod_reject r :=
    emit (OrderModifyRejected req.(m_order_id) req.(m_client_order_id) req.(m_timestamp) r) in
  s ← get;
  if bool_decide (s.(current_state) = Closed) then mod_reject RExchangeSpecific
  else
    match index_lookup req.(m_order_id) s with
    | None => mod_reject UnknownOrder
    | Some l =>
        '(o, _) ← deref (load_order l s);
        rate_ok ← rate_check o.(o_account_id) req.(m_timestamp);
        if negb rate_ok then mod_reject RateThrottled
        else
          s' ← get;
          match validate_modify req s' with
          | Some r => mod_reject r
          | None =>
              if amends_down req o s' then amend_down req l o
              else cancel_replace fuel req l o
          end
    end.

(** ** Restore *)

Definition validate_restore (so : SerializedOrder) ts s : option RejectReason :=
  if (so.(s_id) =? 0) || (so.(s_id) >=? MaxOrderIds) then Some RExchangeSpecific
  else if bool_decide (is_Some (s.(order_index) !! so.(s_id))) then Some RExchangeSpecific
  else if so.(s_remaining_quantity) <=? 0 then Some InvalidQuantity
  else if off_grid s.(config).(lot_size) so.(s_quantity) then Some InvalidQuantity
  else match (if is_priced so.(s_type) then check_price so.(s_price) s else None) with
  | Some r => Some r
  | None =>
  if bool_decide (so.(s_tif) = GTD) && (so.(s_gtd_expiry) <=? ts) then Some RExchangeSpecific
  else if negb (on_validate_restore s so) then Some RExchangeSpecific
  else None
  end.

Definition restore_order (so : SerializedOrder) ts : E unit :=
  let reject r := emit (OrderRejected so.(s_client_order_id) ts r) in
  s ← get;
  match validate_restore so ts s with
  | Some r => reject r
  | None =>
      slot ← allocate_order;
      match slot with
      | None => reject PoolExhausted
      | Some (l, stale) =>
          let o := deserialize_order so stale in
          index_set so.(s_id) l ;;
          when (so.(s_id) >=? s.(next_order_id)) (modify (set_next_order_id (so.(s_id) + 1))) ;;
          emit (OrderAccepted o.(o_id) o.(o_client_order_id) ts) ;;
          insert_into_book (l, o) ts ;;
          fire_top_of_book ts
      end
  end.

(** ** Trade busts *)

(** Give a busted quantity back to an order that is still alive. *)
Definition bust_restore (id : OrderId) (qty : Quantity) : E unit :=
  s ← get;
  match (if id <? MaxOrderIds then s.(order_index) !! id else None) with
  | None => mret tt
  | Some l => modify (store_order l (unfill_order qty) (add_total qty))
  end.

Definition reverse_position (account : Z) (side : Side) (qty : Quantity) : E unit :=
  modify (λ s, set_position_tracker (reverse_fill MaxAccounts account side qty s.(position_tracker)) s).

Definition bust_trade (trade_id : TradeId) (reason : BustReason) ts : E unit :=
  s ← get;
  if bool_decide (s.(current_state) = Closed) then mret tt
  else
    match lookup_trade trade_id s.(trade_registry) with
    | None => mret tt
    | Some rec =>
        if rec.(t_busted) then mret tt
        else if negb (on_validate_bust s trade_id rec ts) then mret tt
        else
          let '(marked, reg) := mark_busted trade_id s.(trade_registry) in
          modify (set_trade_registry reg) ;;
          if negb marked then mret tt
          else
            bust_restore rec.(t_aggressor_id) rec.(t_quantity) ;;
            bust_restore rec.(t_resting_id) rec.(t_quantity) ;;
            reverse_position rec.(t_aggressor_account_id) rec.(t_aggressor_side)
              rec.(t_quantity) ;;
            reverse_position rec.(t_resting_account_id) (opposite rec.(t_aggressor_side))
              rec.(t_quantity) ;;
            emit (TradeBusted trade_id rec.(t_aggressor_id) rec.(t_resting_id) rec.(t_price)
                    rec.(t_quantity) reason ts)
    end.

(** ** Session states *)

Definition set_session_state (new_state : SessionState) ts : E unit :=
  s ← get;
  if bool_decide (s.(current_state) = new_state) then mret tt
  else if negb (on_session_transition s s.(current_state) new_state ts) then mret tt
  else
    modify (set_current_state new_state) ;;
    emit (MarketStatus new_state ts) ;;
    when (bool_decide (new_state = Continuous) && (s.(last_trade_price) >? 0))
      (modify (set_vi_reference_price s.(last_trade_price))).

Definition unlock_limit ts : E unit :=
  s ← get;
  if negb (bool_decide (s.(current_state) = LockLimit)) then mret tt
  else
    modify (set_current_state Continuous) ;;
    emit (MarketStatus Continuous ts).

(** ** Auctions *)

(** [std::unique] on a sorted vector. *)
Fixpoint unique (ps : list Price) : list Price :=
  match ps with
  | p :: ((p' :: _) as rest) => if p =? p' then unique rest else p :: unique rest
  | _ => ps
  end.

Definition candidate_prices s : list Price :=
  unique (merge_sort Z.le (prices s.(bids) ++ prices s.(asks))).

(** Bids at [p] or better, asks at [p] or better. *)
Definition buy_volume (p : Price) (levels : list PriceLevel) : Quantity :=
  sum_by (λ lv, if lv.(lv_price) >=? p then lv.(lv_total_quantity) else 0) levels.
Definition sell_volume (p : Price) (levels : list PriceLevel) : Quantity :=
  sum_by (λ lv, if lv.(lv_price) <=? p then lv.(lv_total_quantity) else 0) levels.

(** The running best with its imbalance and distance to the reference. *)
Record auction_best : Type := mkBest {
  b_result : AuctionResult;
  b_imbalance : Quantity;
  b_ref_dist : Price
}.
Definition no_best : auction_best := mkBest (mkAuction 0 0 0 0 false) 0 0.

Definition is_better (best : auction_best) (p : Price) (matched imbalance : Quantity)
    (ref_dist : Price) : bool :=
  if negb best.(b_result).(a_has_price) then true
  else if matched >? best.(b_result).(a_matched_volume) then true
  else if matched =? best.(b_result).(a_matched_volume) then
    if imbalance <? best.(b_imbalance) then true
    else if imbalance =? best.(b_imbalance) then
      if ref_dist <? best.(b_ref_dist) then true
      else if ref_dist =? best.(b_ref_dist) then p >? best.(b_result).(a_price)
      else false
    else false
  else false.

(** One candidate of the loop. *)
Definition consider (reference_price : Price) s (best : auction_best) (p : Price) : auction_best :=
  let buy_vol := buy_volume p s.(bids) in
  let sell_vol := sell_volume p s.(asks) in
  let matched := Z.min buy_vol sell_vol in
  if matched =? 0 then best
  else
    let imbalance := Z.abs (buy_vol - sell_vol) in
    let ref_dist := Z.abs (p - reference_price) in
    if is_better best p matched imbalance ref_dist then
      mkBest (mkAuction p matched (buy_vol - matched) (sell_vol - matched) true)
        imbalance ref_dist
    else best.

Definition calculate_auction_price (reference_price : Price) s : AuctionResult :=
  (fold_left (consider reference_price s) (candidate_prices s) no_best).(b_result).

(** [order->next]. *)
Fixpoint successor (l : loc) (q : list entry) : option loc :=
  match q with
  | [] => None
  | e :: q' => if (e.1 =? l)%nat then fst <$> head q' else successor l q'
  end.

Definition auction_handle_filled_order (l : loc) (o : Order) ts : E (option loc) :=
  if has_hidden o then
    reveal_tranche l o ts ;;
    mret (Some l)
  else
    '(_, freed) ← book_remove o.(o_side) l;
    fire_depth_after_remove freed o.(o_side) o.(o_price) ts ;;
    index_clear o.(o_id) ;;
    deallocate_order (l, o) ;;
    mret None.

(** The quantity an order shows after a fill, its next tranche included. *)
Definition shown_remaining o : Quantity :=
  if (o.(o_remaining_quantity) =? 0) && has_hidden o then next_tranche o
  else o.(o_remaining_quantity).

(** One iteration of the inner loop of [execute_auction] on the orders at
    [b] and [a]; returns the quantity left and the next pair of pointers. *)
Definition auction_fill (auction_price : Price) ts (remaining : Quantity) (b a : loc)
    : E (Quantity * option loc * option loc) :=
  s ← get;
  '(bid0, _) ← deref (find_order b s.(bids));
  '(ask0, _) ← deref (find_order a s.(asks));
  let fill_qty := Z.min remaining (Z.min bid0.(o_remaining_quantity) ask0.(o_remaining_quantity)) in
  let bid := fill_order fill_qty bid0 in
  let ask := fill_order fill_qty ask0 in
  store_side Buy b (fill_order fill_qty) (add_total (- fill_qty)) ;;
  store_side Sell a (fill_order fill_qty) (add_total (- fill_qty)) ;;
  update_positions bid.(o_account_id) Buy fill_qty ;;
  update_positions ask.(o_account_id) Sell fill_qty ;;
  modify (set_last_trade_price auction_price) ;;
  let bid_done := (bid.(o_remaining_quantity) =? 0) && negb (has_hidden bid) in
  let ask_done := (ask.(o_remaining_quantity) =? 0) && negb (has_hidden ask) in
  emit (if bid_done && ask_done
        then OrderFilled bid.(o_id) ask.(o_id) auction_price fill_qty ts
        else OrderPartiallyFilled bid.(o_id) ask.(o_id) auction_price fill_qty
               (shown_remaining bid) (shown_remaining ask) ts) ;;
  emit (Trade auction_price fill_qty bid.(o_id) ask.(o_id) Buy ts) ;;
  record_trade bid.(o_id) ask.(o_id) auction_price fill_qty ts Buy
    bid.(o_account_id) ask.(o_account_id) ;;
  emit (OrderBookAction bid.(o_id) Buy auction_price fill_qty ActFill ts) ;;
  emit (OrderBookAction ask.(o_id) Sell auction_price fill_qty ActFill ts) ;;
  s' ← get;
  '(_, bid_level) ← deref (find_order b s'.(bids));
  '(_, ask_level) ← deref (find_order a s'.(asks));
  let next_bid := successor b bid_level.(lv_queue) in
  let next_ask := successor a ask_level.(lv_queue) in
  b' ← (if bid.(o_remaining_quantity) =? 0 then
          kept ← auction_handle_filled_order b bid ts;
          mret (match kept with Some l => Some l | None => next_bid end)
        else mret (Some b));
  a' ← (if ask.(o_remaining_quantity) =? 0 then
          kept ← auction_handle_filled_order a ask ts;
          mret (match kept with Some l => Some l | None => next_ask end)
        else mret (Some a));
  mret (remaining - fill_qty, b', a').

Fixpoint auction_inner (fuel : nat) (auction_price : Price) ts (remaining : Quantity)
    (bid ask : option loc) : E Quantity :=
  if negb (remaining >? 0) then mret remaining
  else
    match bid, ask with
    | Some b, Some a =>
        match fuel with
        | O => out_of_fuel
        | S fuel' =>
            '(remaining', b', a') ← auction_fill auction_price ts remaining b a;
            auction_inner fuel' auction_price ts remaining' b' a'
        end
    | _, _ => mret remaining
    end.

(** The level struct at [slot], if it is still linked. *)
Fixpoint level_at (slot : loc) (levels : list PriceLevel) : option PriceLevel :=
  match levels with
  | [] => None
  | lv :: rest => if (lv.(lv_slot) =? slot)%nat then Some lv else level_at slot rest
  end.

(** [book_.best_bid()]/[book_.best_ask()] as a pointer. *)
Definition best_slot (levels : list PriceLevel) : option loc := lv_slot <$> head levels.

(** Advance a level pointer after the inner loop: a level whose last order
    was removed has [order_count == 0], its struct is free and the pointer
    moves to the best level; a linked level is kept. *)
Definition advance_level (slot : loc) (too_far : Price → bool) (levels : list PriceLevel)
    : option loc :=
  match level_at slot levels with
  | None => best_slot levels
  | Some lv =>
      if (lv.(lv_order_count) =? 0) || bool_decide (lv.(lv_queue) = []) then best_slot levels
      else if too_far lv.(lv_price) then None
      else Some slot
  end.

(** The outer loop, on the level pointers. *)
Fixpoint auction_outer (inner_fuel fuel : nat) (auction_price : Price) ts (remaining : Quantity)
    (bid_level ask_level : option loc) : E unit :=
  if negb (remaining >? 0) then mret tt
  else
    match bid_level, ask_level with
    | Some bl, Some al =>
        s ← get;
        blv ← deref (level_at bl s.(bids));
        alv ← deref (level_at al s.(asks));
        if blv.(lv_price) <? auction_price then mret tt
        else if alv.(lv_price) >? auction_price then mret tt
        else
          match fuel with
          | O => out_of_fuel
          | S fuel' =>
              remaining' ← auction_inner inner_fuel auction_price ts remaining
                             (fst <$> head blv.(lv_queue)) (fst <$> head alv.(lv_queue));
              s' ← get;
              auction_outer inner_fuel fuel' auction_price ts remaining'
                (advance_level bl (λ p, p <? auction_price) s'.(bids))
                (advance_level al (λ p, p >? auction_price) s'.(asks))
          end
    | _, _ => mret tt
    end.

Definition execute_auction (fuel : nat) (reference_price : Price) ts : E unit :=
  s ← get;
  let result := calculate_auction_price reference_price s in
  if negb result.(a_has_price) || (result.(a_matched_volume) =? 0) then mret tt
  else
    auction_outer fuel fuel result.(a_price) ts result.(a_matched_volume)
      (best_slot s.(bids)) (best_slot s.(asks)) ;;
    fire_top_of_book ts ;;
    modify (set_vi_reference_price result.(a_price)).

Definition publish_indicative_price (reference_price : Price) ts : E unit :=
  s ← get;
  let result := calculate_auction_price reference_price s in
  when result.(a_has_price)
    (emit (IndicativePrice result.(a_price) result.(a_matched_volume)
             result.(a_buy_surplus) result.(a_sell_surplus) ts)).

(** ** Implied fills *)

Definition implied_fill_valid s (fill : LegFill) : bool :=
  match index_lookup fill.(leg_order_id) s with
  | None => false
  | Some l =>
      match load_order l s with
      | None => false
      | Some (o, _) =>
          negb (fill.(leg_fill_qty) <=? 0) &&
          negb (o.(o_remaining_quantity) <? fill.(leg_fill_qty))
      end
  end.

Definition apply_implied_fill ts (fill : LegFill) : E unit :=
  let price := fill.(leg_fill_price) in
  let qty := fill.(leg_fill_qty) in
  s ← get;
  l ← deref (s.(order_index) !! fill.(leg_order_id));
  '(o0, _) ← deref (load_order l s);
  let o := fill_order qty o0 in
  modify (store_order l (fill_order qty) (add_total (- qty))) ;;
  modify (set_last_trade_price price) ;;
  update_positions o.(o_account_id) o.(o_side) qty ;;
  let is_fully_filled := o.(o_remaining_quantity) =? 0 in
  emit (if is_fully_filled && negb (has_hidden o)
        then OrderFilled o.(o_id) o.(o_id) price qty ts
        else OrderPartiallyFilled o.(o_id) o.(o_id) price qty
               (shown_remaining o) (shown_remaining o) ts) ;;
  emit (Trade price qty o.(o_id) o.(o_id) o.(o_side) ts) ;;
  record_trade o.(o_id) o.(o_id) price qty ts o.(o_side) o.(o_account_id) o.(o_account_id) ;;
  emit (OrderBookAction o.(o_id) o.(o_side) price qty ActFill ts) ;;
  if is_fully_filled then
    if has_hidden o then reveal_tranche l o ts
    else
      '(_, freed) ← book_remove o.(o_side) l;
      fire_depth_after_remove freed o.(o_side) price ts ;;
      index_clear o.(o_id) ;;
      deallocate_order (l, o)
  else
    s' ← get;
    '(_, lv) ← deref (load_order l s');
    emit (DepthUpdate o.(o_side) lv.(lv_price) lv.(lv_total_quantity) lv.(lv_order_count)
            DepthUpd ts).

Definition apply_implied_fills (fills : list LegFill) ts : E bool :=
  s ← get;
  if forallb (implied_fill_valid s) fills then
    forM_ fills (apply_implied_fill ts) ;;
    fire_top_of_book ts ;;
    mret true
  else mret false.

(** ** Queries *)

Definition active_order_count s : nat := MaxOrders - length s.(order_free).
Definition available_order_slots s : nat := length s.(order_free).
Definition available_level_slots s : nat := length s.(level_free).

Definition should_trigger_stop (last_trade : Price) (stop : Order) (lv : PriceLevel) : bool :=
  match stop.(o_side) with
  | Buy => last_trade >=? lv.(lv_price)
  | Sell => last_trade <=? lv.(lv_price)
  end.

(** The calls [for_each_level] makes, in order. *)
Definition for_each_level (side : Side) s : list (Price * Quantity * Z) :=
  (λ lv, (lv.(lv_price), lv.(lv_total_quantity), lv.(lv_order_count))) <$> side_levels side s.

Definition best_order_id (side : Side) s : option OrderId :=
  match side_levels side s with
  | lv :: _ => match lv.(lv_queue) with e :: _ => Some e.2.(o_id) | [] => None end
  | [] => None
  end.

(** ** Construction

    [junk] is the unspecified initial contents of the order slots. *)
Definition init_engine (cfg : EngineConfig) (d : D) (junk : loc → Order) : engine D :=
  mkEngine cfg Continuous [] [] [] [] ((λ l, (l, junk l)) <$> seq 0 MaxOrders)
    (seq 0 MaxPriceLevels) ∅ ∅ empty_registry 0 0 1 ∅ [] d.
End engine_ops.
