(* ===== verification/EngineInvariant.v ===== *)
(** * The engine's invariant

    [inv fl s]: both books are sorted and their levels' totals are right, every
    order slot is in exactly one of the books, the free list or the list [fl]
    of orders being worked on, every level slot likewise, and [order_index_]
    points to exactly the live orders.  The lemmas say how the invariant moves
    when an order is detached from a book, attached to one, dropped or
    allocated; the proofs of the operations are built from them. *)

From S2P Require Import Prelude Types MatchAlgo MatchAlgoFacts Books Trackers Engine.

(** ** The four lists of levels *)

Inductive bk : Type := OnBook (side : Side) | OnStop (side : Side).

(** What an order resting in the order book, or parked in the stop book, is. *)
Definition book_order (side : Side) (p : Price) (o : Order) : Prop :=
  o.(o_side) = side ∧ o.(o_type) = Limit ∧ o.(o_price) = p ∧ 0 < p ∧ 0 < o.(o_remaining_quantity).
Definition stop_order (side : Side) (p : Price) (o : Order) : Prop :=
  o.(o_side) = side ∧ is_stop o.(o_type) = true ∧ 0 < o.(o_remaining_quantity) ∧
  (o.(o_type) = StopLimit → 0 < o.(o_price)).

Definition order_of (b : bk) : Price → Order → Prop :=
  match b with OnBook side => book_order side | OnStop side => stop_order side end.
Definition before_of (b : bk) : Price → Price → bool :=
  match b with OnBook side => book_before side | OnStop side => stop_before side end.

#[global] Instance book_before_order side : PriceOrder (book_before side).
Proof. destruct side; apply _. Qed.
#[global] Instance stop_before_order side : PriceOrder (stop_before side).
Proof. destruct side; apply _. Qed.
#[global] Instance before_of_order b : PriceOrder (before_of b).
Proof. destruct b; apply _. Qed.

Definition freed_slots (freed : option loc) : list loc :=
  match freed with Some l => [l] | None => [] end.

Section invariant.
Context {D : Type} {params : EngineParams}.
Implicit Types (s : engine D) (fl : list entry) (e : entry) (l : loc) (o : Order) (b : bk).

Definition levels_of b s : list PriceLevel :=
  match b with OnBook side => side_levels side s | OnStop side => stop_levels side s end.
Definition set_levels b (v : list PriceLevel) s : engine D :=
  match b with OnBook side => set_side_levels side v s | OnStop side => set_stop_levels side v s end.

(** The live orders of four lists of levels. *)
Definition all_keys (lb la lbs lss : list PriceLevel) : list (loc * OrderId) :=
  keys lb ++ keys la ++ keys lbs ++ keys lss.

Record inv_core (fl : list entry) (lb la lbs lss : list PriceLevel)
    (ofree : list entry) (lfree : list loc) (idx : gmap Z loc) (nid : Z) : Prop := {
  iv_bids : side_ok higher_first (book_order Buy) lb;
  iv_asks : side_ok lower_first (book_order Sell) la;
  iv_buy_stops : side_ok lower_first (stop_order Buy) lbs;
  iv_sell_stops : side_ok higher_first (stop_order Sell) lss;
  iv_orders : (all_keys lb la lbs lss).*1 ++ fl.*1 ++ ofree.*1 ≡ₚ seq 0 MaxOrders;
  iv_levels : slots lb ++ slots la ++ slots lbs ++ slots lss ++ lfree ≡ₚ seq 0 MaxPriceLevels;
  iv_index : ∀ id l, idx !! id = Some l ↔ (l, id) ∈ all_keys lb la lbs lss ++ (key <$> fl);
  iv_ids : ∀ id l, idx !! id = Some l → 0 < id < nid;
  iv_next : 1 <= nid <= Z.max 1 MaxOrderIds
}.

(** Stated on the fields, so that it does not see the others. *)
Definition inv fl s : Prop :=
  inv_core fl s.(bids) s.(asks) s.(buy_stops) s.(sell_stops) s.(order_free) s.(level_free)
    s.(order_index) s.(next_order_id).

(** The orders outside list [b]. *)
Definition other_keys b s : list (loc * OrderId) :=
  match b with
  | OnBook Buy => keys s.(asks) ++ keys s.(buy_stops) ++ keys s.(sell_stops)
  | OnBook Sell => keys s.(bids) ++ keys s.(buy_stops) ++ keys s.(sell_stops)
  | OnStop Buy => keys s.(bids) ++ keys s.(asks) ++ keys s.(sell_stops)
  | OnStop Sell => keys s.(bids) ++ keys s.(asks) ++ keys s.(buy_stops)
  end.
Definition other_slots b s : list loc :=
  match b with
  | OnBook Buy => slots s.(asks) ++ slots s.(buy_stops) ++ slots s.(sell_stops)
  | OnBook Sell => slots s.(bids) ++ slots s.(buy_stops) ++ slots s.(sell_stops)
  | OnStop Buy => slots s.(bids) ++ slots s.(asks) ++ slots s.(sell_stops)
  | OnStop Sell => slots s.(bids) ++ slots s.(asks) ++ slots s.(buy_stops)
  end.
Definition live_keys s : list (loc * OrderId) :=
  all_keys s.(bids) s.(asks) s.(buy_stops) s.(sell_stops).

Lemma live_keys_at b s : live_keys s ≡ₚ keys (levels_of b s) ++ other_keys b s.
Proof. unfold live_keys, all_keys. destruct b as [[]|[]]; cbn; solve_Permutation. Qed.

Lemma live_slots_at b s :
  slots s.(bids) ++ slots s.(asks) ++ slots s.(buy_stops) ++ slots s.(sell_stops)
    ≡ₚ slots (levels_of b s) ++ other_slots b s.
Proof. destruct b as [[]|[]]; cbn; solve_Permutation. Qed.

Lemma levels_of_set b v s : levels_of b (set_levels b v s) = v.
Proof. by destruct b as [[]|[]]. Qed.
Lemma other_keys_set b v s : other_keys b (set_levels b v s) = other_keys b s.
Proof. by destruct b as [[]|[]]. Qed.
Lemma other_slots_set b v s : other_slots b (set_levels b v s) = other_slots b s.
Proof. by destruct b as [[]|[]]. Qed.

(** The invariant seen from one list of levels. *)
Definition sides_ok s : Prop :=
  ∀ b, side_ok (before_of b) (order_of b) (levels_of b s).

Lemma inv_from fl s :
  sides_ok s →
  (live_keys s).*1 ++ fl.*1 ++ s.(order_free).*1 ≡ₚ seq 0 MaxOrders →
  slots s.(bids) ++ slots s.(asks) ++ slots s.(buy_stops) ++ slots s.(sell_stops)
    ++ s.(level_free) ≡ₚ seq 0 MaxPriceLevels →
  (∀ id l, s.(order_index) !! id = Some l ↔ (l, id) ∈ live_keys s ++ (key <$> fl)) →
  (∀ id l, s.(order_index) !! id = Some l → 0 < id < s.(next_order_id)) →
  1 <= s.(next_order_id) <= Z.max 1 MaxOrderIds →
  inv fl s.
Proof.
  intros Hs Ho Hl Hi Hid Hn. split; try done.
  - exact (Hs (OnBook Buy)).
  - exact (Hs (OnBook Sell)).
  - exact (Hs (OnStop Buy)).
  - exact (Hs (OnStop Sell)).
Qed.

Lemma inv_sides fl s b : inv fl s → side_ok (before_of b) (order_of b) (levels_of b s).
Proof. intros H. destruct b as [[]|[]]; apply H. Qed.

Lemma inv_orders_at b fl s :
  inv fl s →
  (keys (levels_of b s)).*1 ++ (other_keys b s).*1 ++ fl.*1 ++ s.(order_free).*1
    ≡ₚ seq 0 MaxOrders.
Proof.
  intros H. rewrite <- (iv_orders _ _ _ _ _ _ _ _ _ H). fold (live_keys s).
  by rewrite (live_keys_at b s), fmap_app, <- app_assoc.
Qed.

Lemma inv_slots_at b fl s :
  inv fl s →
  slots (levels_of b s) ++ other_slots b s ++ s.(level_free) ≡ₚ seq 0 MaxPriceLevels.
Proof.
  intros H. rewrite <- (iv_levels _ _ _ _ _ _ _ _ _ H).
  rewrite (app_assoc (slots (levels_of b s))), <- (live_slots_at b s). solve_Permutation.
Qed.

Lemma inv_index_at b fl s id l :
  inv fl s →
  s.(order_index) !! id = Some l
    ↔ (l, id) ∈ keys (levels_of b s) ++ other_keys b s ++ (key <$> fl).
Proof.
  intros H. rewrite (iv_index _ _ _ _ _ _ _ _ _ H). fold (live_keys s).
  by rewrite (live_keys_at b s), <- app_assoc.
Qed.

(** Rebuild the invariant after the list [b] was replaced. *)
Lemma inv_set_levels b v fl fl' s (ofr : list entry) (lf : list loc) (idx : gmap Z loc) nid :
  inv fl s →
  side_ok (before_of b) (order_of b) v →
  (keys v).*1 ++ (other_keys b s).*1 ++ fl'.*1 ++ ofr.*1 ≡ₚ seq 0 MaxOrders →
  slots v ++ other_slots b s ++ lf ≡ₚ seq 0 MaxPriceLevels →
  (∀ id l, idx !! id = Some l ↔ (l, id) ∈ keys v ++ other_keys b s ++ (key <$> fl')) →
  (∀ id l, idx !! id = Some l → 0 < id < nid) →
  1 <= nid <= Z.max 1 MaxOrderIds →
  inv fl' (set_order_free ofr (set_level_free lf (set_order_index idx (set_next_order_id nid
             (set_levels b v s))))).
Proof.
  intros H Hv Ho Hl Hi Hid Hn.
  set (s' := set_levels b v s).
  assert (Hk : live_keys s' ≡ₚ keys v ++ other_keys b s)
    by (rewrite (live_keys_at b s'); unfold s'; by rewrite levels_of_set, other_keys_set).
  apply inv_from; cbn.
  - intros b'. pose proof (inv_sides fl s b' H) as Hb'.
    destruct b as [[]|[]], b' as [[]|[]]; first [exact Hv|exact Hb'].
  - change (all_keys _ _ _ _) with (live_keys s'). rewrite Hk, fmap_app, <- app_assoc. exact Ho.
  - rewrite <- Hl. pose proof (live_slots_at b s') as Hs.
    replace (levels_of b s') with v in Hs by (symmetry; apply levels_of_set).
    replace (other_slots b s') with (other_slots b s) in Hs by (symmetry; apply other_slots_set).
    rewrite (app_assoc (slots v)), <- Hs.
    solve_Permutation.
  - intros id l. change (all_keys _ _ _ _) with (live_keys s').
    rewrite Hk, <- app_assoc. apply Hi.
  - done.
  - done.
Qed.

(** *** Distinctness *)

Lemma inv_locs_nodup fl s : inv fl s → NoDup ((live_keys s).*1 ++ fl.*1 ++ s.(order_free).*1).
Proof. intros H. rewrite (iv_orders _ _ _ _ _ _ _ _ _ H : _ ≡ₚ _). apply NoDup_seq. Qed.

Lemma inv_level_locs b fl s : inv fl s → NoDup (keys (levels_of b s)).*1.
Proof.
  intros H. pose proof (NoDup_seq 0 MaxOrders) as Hnd.
  rewrite <- (inv_orders_at b fl s H) in Hnd. by apply NoDup_app in Hnd as [? _].
Qed.

Lemma inv_key_unique fl s l l' id :
  inv fl s → (l, id) ∈ live_keys s ++ (key <$> fl) → (l', id) ∈ live_keys s ++ (key <$> fl) →
  l = l'.
Proof.
  intros H H1 H2. apply (iv_index _ _ _ _ _ _ _ _ _ H) in H1, H2. congruence.
Qed.

(** The slot of an order being worked on is not in use elsewhere. *)
Lemma inv_flight_fresh e fl s :
  inv (e :: fl) s → e.1 ∉ (live_keys s ++ (key <$> fl)).*1.
Proof.
  intros H. pose proof (NoDup_seq 0 MaxOrders) as Hnd.
  rewrite <- (iv_orders _ _ _ _ _ _ _ _ _ H : _ ≡ₚ _) in Hnd. fold (live_keys s) in Hnd.
  assert (Hp : (live_keys s).*1 ++ (e :: fl).*1 ++ s.(order_free).*1
                 ≡ₚ e.1 :: (live_keys s ++ (key <$> fl)).*1 ++ s.(order_free).*1).
  { rewrite fmap_app, <- (list_fmap_compose key fst). cbn. solve_Permutation. }
  rewrite Hp in Hnd. apply NoDup_cons in Hnd as [Hni _]. rewrite elem_of_app in Hni. tauto.
Qed.

(** *** In-place changes *)

(** Change the levels of one list without adding or removing an order. *)
Lemma inv_update b v fl s :
  inv fl s → side_ok (before_of b) (order_of b) v →
  keys v ≡ₚ keys (levels_of b s) → slots v ≡ₚ slots (levels_of b s) →
  inv fl (set_levels b v s).
Proof.
  intros H Hv Hk Hs.
  assert (Hr := inv_set_levels b v fl fl s s.(order_free) s.(level_free) s.(order_index)
                  s.(next_order_id) H Hv).
  rewrite Hk, Hs in Hr. specialize (Hr (inv_orders_at b fl s H) (inv_slots_at b fl s H)).
  assert (Hr' : inv fl (set_order_free s.(order_free) (set_level_free s.(level_free)
            (set_order_index s.(order_index) (set_next_order_id s.(next_order_id)
               (set_levels b v s)))))).
  { apply Hr; [|apply H..]. intros id l. rewrite Hk. by apply inv_index_at. }
  by destruct b as [[]|[]].
Qed.

(** *** Detaching and attaching orders *)

Lemma inv_detach b l v o o' freed fl s :
  inv fl s → remove_order l (levels_of b s) = Some (v, o, freed) → o_id o' = o_id o →
  inv ((l, o') :: fl)
    (set_level_free (freed_slots freed ++ s.(level_free)) (set_levels b v s)).
Proof.
  intros H Hr Hid.
  pose proof (inv_sides fl s b H) as Hok.
  pose proof (remove_order_keys _ _ _ _ _ _ (so_levels _ _ _ Hok) Hr) as Hk.
  pose proof (remove_order_slots _ _ _ _ _ Hr) as Hs.
  pose proof (remove_order_ok _ _ _ _ _ _ _ Hr Hok) as Hv.
  assert (Hr' := inv_set_levels b v fl ((l, o') :: fl) s s.(order_free)
           (freed_slots freed ++ s.(level_free)) s.(order_index) s.(next_order_id) H Hv).
  assert (Hr'' : inv ((l, o') :: fl) (set_order_free s.(order_free)
     (set_level_free (freed_slots freed ++ s.(level_free)) (set_order_index s.(order_index)
        (set_next_order_id s.(next_order_id) (set_levels b v s)))))).
  { apply Hr'; [| | |apply H..].
    - rewrite <- (inv_orders_at b fl s H), Hk. cbn. solve_Permutation.
    - rewrite <- (inv_slots_at b fl s H), Hs. destruct freed; cbn; solve_Permutation.
    - intros id k. rewrite (inv_index_at b fl s id k H), Hk. apply elem_of_perm. cbn.
      replace (key (l, o')) with (key (l, o)) by (unfold key; cbn; congruence).
      solve_Permutation. }
  by destruct b as [[]|[]].
Qed.

Lemma inv_attach b e slot lf fl s v new :
  inv (e :: fl) s → s.(level_free) = slot :: lf →
  insert_order (before_of b) e slot (levels_of b s) = (v, new) →
  order_of b e.2.(o_price) e.2 →
  inv fl (set_level_free (if new then lf else slot :: lf) (set_levels b v s)).
Proof.
  intros H Hlf Hi HP.
  pose proof (inv_sides _ s b H) as Hok.
  pose proof (insert_order_keys _ _ _ _ _ _ Hi) as Hk.
  pose proof (insert_order_slots _ _ _ _ _ _ Hi) as Hs.
  pose proof (insert_order_ok _ _ _ _ _ _ _ Hi Hok HP) as Hv.
  assert (Hr' := inv_set_levels b v (e :: fl) fl s s.(order_free)
           (if new then lf else slot :: lf) s.(order_index) s.(next_order_id) H Hv).
  assert (Hr'' : inv fl (set_order_free s.(order_free)
     (set_level_free (if new then lf else slot :: lf) (set_order_index s.(order_index)
        (set_next_order_id s.(next_order_id) (set_levels b v s)))))).
  { apply Hr'; [| | |apply H..].
    - rewrite <- (inv_orders_at b _ s H), Hk. cbn. solve_Permutation.
    - rewrite <- (inv_slots_at b _ s H), Hs, Hlf. destruct new; cbn; solve_Permutation.
    - intros id k. rewrite (inv_index_at b _ s id k H), Hk.
      apply elem_of_perm. cbn. solve_Permutation. }
  by destruct b as [[]|[]].
Qed.

(** Put a detached order, or another order in its slot, on the free list. *)
Lemma inv_drop e e' fl s :
  inv (e :: fl) s → e'.1 = e.1 →
  inv fl (set_order_free (e' :: s.(order_free))
            (set_order_index (delete e.2.(o_id) s.(order_index)) s)).
Proof.
  intros H He. pose proof (inv_flight_fresh _ _ _ H) as Hfresh. split; try apply H.
  - rewrite <- (iv_orders _ _ _ _ _ _ _ _ _ H). cbn. rewrite He. solve_Permutation.
  - intros id l. cbn. rewrite lookup_delete_Some, (iv_index _ _ _ _ _ _ _ _ _ H id l).
    fold (live_keys s). cbn. rewrite elem_of_app, elem_of_cons, elem_of_app. split.
    + intros [Hne [?|[[=]|?]]]; [by left| |by right]. by destruct Hne.
    + intros Hin. split; [|tauto]. intros <-. apply Hfresh.
      assert (l = e.1) as <-.
      { apply (inv_key_unique _ _ _ _ e.2.(o_id) H); cbn;
          rewrite elem_of_app, elem_of_cons; tauto. }
      apply list_elem_of_fmap. exists (l, e.2.(o_id)). by rewrite elem_of_app.
  - intros id l. cbn. rewrite lookup_delete_Some. intros [_ Hl].
    by apply (iv_ids _ _ _ _ _ _ _ _ _ H id l).
Qed.

(** *** Allocation *)

Lemma inv_allocate l stale o free fl s :
  inv fl s → s.(order_free) = (l, stale) :: free →
  s.(order_index) !! o.(o_id) = None → 0 < o.(o_id) < MaxOrderIds →
  inv ((l, o) :: fl)
    (set_order_free free (set_order_index (<[o.(o_id) := l]> s.(order_index))
       (set_next_order_id (Z.max s.(next_order_id) (o.(o_id) + 1)) s))).
Proof.
  intros H Hf Hnone Hid. pose proof (iv_next _ _ _ _ _ _ _ _ _ H) as Hn.
  split; try apply H; cbn.
  - rewrite <- (iv_orders _ _ _ _ _ _ _ _ _ H), Hf. cbn. solve_Permutation.
  - intros id k. rewrite elem_of_app, elem_of_cons, lookup_insert_Some.
    rewrite (iv_index _ _ _ _ _ _ _ _ _ H id k), elem_of_app. unfold key at 2. cbn. split.
    + intros [[<- <-]|[_ ?]]; [by right; left|tauto].
    + intros [Hin|[[= -> ->]|Hin]]; [right|by left|right]; (split; [|tauto]).
      all: intros <-; assert (Hs : s.(order_index) !! o.(o_id) = Some k)
        by (apply (iv_index _ _ _ _ _ _ _ _ _ H); rewrite elem_of_app; tauto); congruence.
  - intros id k. rewrite lookup_insert_Some.
    intros [[<- _]|[_ Hk]]; [lia|]. apply (iv_ids _ _ _ _ _ _ _ _ _ H) in Hk. lia.
  - lia.
Qed.
End invariant.

(** ** Finding live orders *)

Section lookup.
Context {D : Type} {params : EngineParams}.
Implicit Types (s : engine D) (fl : list entry) (l : loc) (o : Order) (b : bk).

Lemma load_order_at b l fl s x :
  inv fl s → find_order l (levels_of b s) = Some x → load_order l s = Some x.
Proof.
  intros H Hf.
  assert (Hin : l ∈ (keys (levels_of b s)).*1).
  { destruct (decide (l ∈ (keys (levels_of b s)).*1)) as [|Hni]; [done|].
    apply find_order_None in Hni. congruence. }
  pose proof (NoDup_seq 0 MaxOrders) as Hnd. rewrite <- (inv_orders_at b fl s H) in Hnd.
  apply NoDup_app in Hnd as (_ & Hdis & _). specialize (Hdis l Hin).
  rewrite elem_of_app in Hdis. unfold load_order.
  destruct b as [[]|[]]; cbn in *; rewrite ?fmap_app, ?elem_of_app in Hdis;
    rewrite ?(proj2 (find_order_None l _)) by tauto; by rewrite Hf.
Qed.

(** A live order is linked in one of the four lists, and can be unlinked. *)
Lemma inv_find b fl s l id :
  inv fl s → (l, id) ∈ keys (levels_of b s) →
  ∃ o lv v freed, find_order l (levels_of b s) = Some (o, lv) ∧ o_id o = id ∧
    remove_order l (levels_of b s) = Some (v, o, freed) ∧
    lv ∈ levels_of b s ∧ order_of b lv.(lv_price) o.
Proof.
  intros H Hin. pose proof (inv_level_locs b fl s H) as Hnd.
  assert (Hl : l ∈ (keys (levels_of b s)).*1) by (by apply (list_elem_of_fmap_2 fst) in Hin).
  destruct (remove_order l (levels_of b s)) as [[[v o] freed]|] eqn:Hr.
  2:{ by apply remove_order_None in Hr. }
  destruct (remove_order_find _ _ _ _ _ Hr) as [lv Hf].
  pose proof (find_order_Some _ _ _ _ Hf) as [Hlv Ho].
  destruct (inv_sides fl s b H) as [_ Hlvs]. rewrite Forall_forall in Hlvs.
  destruct (Hlvs lv Hlv) as [_ _ _ Hos]. rewrite Forall_forall in Hos.
  specialize (Hos _ Ho). cbn in Hos.
  exists o, lv, v, freed. split_and!; try done.
  assert (Hko : (l, o_id o) ∈ keys (levels_of b s)).
  { apply list_elem_of_fmap. exists (l, o). split; [done|]. apply list_elem_of_bind. eauto. }
  apply list_elem_of_lookup in Hin as [i Hi], Hko as [j Hj].
  assert (i = j) as ->.
  { apply (NoDup_lookup _ i j l Hnd); rewrite list_lookup_fmap; [by rewrite Hi|by rewrite Hj]. }
  congruence.
Qed.

Lemma inv_live fl s l id :
  inv fl s → (l, id) ∈ live_keys s → ∃ b, (l, id) ∈ keys (levels_of b s).
Proof.
  intros _. unfold live_keys, all_keys. rewrite !elem_of_app.
  intros [?|[?|[?|?]]];
    [exists (OnBook Buy)|exists (OnBook Sell)|exists (OnStop Buy)|exists (OnStop Sell)]; done.
Qed.

(** What [order_index_] points to. *)
Lemma inv_indexed s l id :
  inv [] s → s.(order_index) !! id = Some l →
  ∃ b o lv v freed, load_order l s = Some (o, lv) ∧ o_id o = id ∧
    find_order l (levels_of b s) = Some (o, lv) ∧
    remove_order l (levels_of b s) = Some (v, o, freed) ∧ order_of b lv.(lv_price) o.
Proof.
  intros H Hi. apply (iv_index _ _ _ _ _ _ _ _ _ H) in Hi.
  rewrite app_nil_r in Hi. destruct (inv_live [] s l id H Hi) as [b Hb].
  destruct (inv_find b [] s l id H Hb) as (o & lv & v & freed & ? & ? & ? & ? & ?).
  exists b, o, lv, v, freed. split_and!; try done. by eapply load_order_at.
Qed.

(** The constructor establishes the invariant. *)
Lemma inv_init (cfg : EngineConfig) (d : D) (junk : loc → Order) : inv [] (init_engine cfg d junk).
Proof.
  split; cbn; try (split; constructor).
  - rewrite <- list_fmap_compose. by rewrite list_fmap_id.
  - done.
  - intros id l. by rewrite lookup_empty, elem_of_nil.
  - intros id l. by rewrite lookup_empty.
  - lia.
Qed.
End lookup.
