(* ===== verification/EngineRules.v ===== *)
(** * Proof rules for the engine's operations

    One rule per helper operation, in continuation style: the helpers that
    only publish market data are summarised by the events they append, the
    helpers that move orders by the effect on the fields the invariant reads.
    Then [cancel_active_order], [cancel_order] and the three scans over
    [order_index_] ([trigger_expiry], [mass_cancel], [mass_cancel_all]). *)

From S2P Require Import Prelude Types MatchAlgo MatchAlgoFacts Books Trackers Engine.
From S2P Require Import EngineInvariant.

(** Market-data events: they report the state of the book and carry no trade,
    acceptance, rejection, cancellation or status change. *)
Definition mute (ev : event) : Prop :=
  match ev with TopOfBook _ _ _ _ _ | DepthUpdate _ _ _ _ _ _ | OrderBookAction _ _ _ _ _ _ => True | _ => False end.

Section rules.
Context {D : Type} {params : EngineParams} {hooks : Hooks D} {algo : MatchAlgorithm}.
Implicit Types (s : engine D) (ts : Timestamp) (e : entry) (l : loc) (o : Order) (b : bk).
Implicit Types (fl : list entry).

(** The listeners are called with [evs]. *)
Definition says (evs : list event) s : engine D := set_trace (s.(trace) ++ evs) s.

Lemma says_nil s : says [] s = s.
Proof. destruct s. unfold says, set_trace. cbn. by rewrite app_nil_r. Qed.

Lemma says_says evs evs' s : says evs' (says evs s) = says (evs ++ evs') s.
Proof. destruct s. unfold says, set_trace. cbn. by rewrite <- app_assoc. Qed.

Lemma set_level_free_id s : set_level_free s.(level_free) s = s.
Proof. by destruct s. Qed.

Lemma freed_none evs s :
  set_level_free (freed_slots None ++ s.(level_free)) (says evs s) = says evs s.
Proof. by destruct s. Qed.

Lemma inv_says fl evs s : inv fl s → inv fl (says evs s).
Proof. exact id. Qed.

Lemma wp_emit ev (Q : unit → engine D → Prop) s : Q tt (says [ev] s) → wp (emit ev) Q s.
Proof. done. Qed.

Lemma wp_when (c : bool) (m : M (engine D) unit) (Q : unit → engine D → Prop) s :
  (c = true → wp m Q s) → (c = false → Q tt s) → wp (when c m) Q s.
Proof. destruct c; [auto|]. intros _ H. by apply H. Qed.

Lemma wp_fire_top_of_book ts (Q : unit → engine D → Prop) s :
  (∀ ev, mute ev → Q tt (says [ev] s)) → wp (fire_top_of_book ts) Q s.
Proof.
  intros HQ. unfold fire_top_of_book. wp_steps.
  destruct (s.(bids)); destruct (s.(asks)); apply wp_emit; by apply HQ.
Qed.

Lemma wp_fire_top_of_book_if_changed ts ob oa (Q : unit → engine D → Prop) s :
  (∀ evs, Forall mute evs → Q tt (says evs s)) → wp (fire_top_of_book_if_changed ts ob oa) Q s.
Proof.
  intros HQ. unfold fire_top_of_book_if_changed. wp_steps. apply wp_when; intros _.
  - apply wp_fire_top_of_book. intros ev Hev. apply HQ. by constructor.
  - rewrite <- (says_nil s). by apply HQ.
Qed.

Lemma wp_deallocate_if_freed freed (Q : unit → engine D → Prop) s :
  Q tt (set_level_free (freed_slots freed ++ s.(level_free)) s) →
  wp (deallocate_if_freed freed) Q s.
Proof. destruct freed; [done|]. cbn. by rewrite set_level_free_id. Qed.

Lemma wp_fire_depth_after_remove freed side p ts (Q : unit → engine D → Prop) s :
  (∀ evs, Forall mute evs →
     Q tt (set_level_free (freed_slots freed ++ s.(level_free)) (says evs s))) →
  wp (fire_depth_after_remove freed side p ts) Q s.
Proof.
  intros HQ. unfold fire_depth_after_remove. destruct freed as [slot|].
  - wp_steps. apply wp_emit. apply wp_modify. apply (HQ [_]). by constructor.
  - wp_steps. destruct (find_level_by_price side p s) as [lv|].
    + apply wp_emit. rewrite <- freed_none. apply HQ. by constructor.
    + apply wp_ret. rewrite <- (says_nil s), <- freed_none. by apply HQ.
Qed.

Lemma wp_book_remove side l v o freed (Q : _ → engine D → Prop) s :
  remove_order l (side_levels side s) = Some (v, o, freed) →
  Q (o, freed) (set_side_levels side v s) → wp (book_remove side l) Q s.
Proof.
  intros Hr HQ. unfold book_remove. wp_steps. eapply wp_deref; [exact Hr|]. cbn. by wp_steps.
Qed.

(** [stop_remove] searches the right list. *)
Lemma wp_stop_remove side l v o freed fl (Q : _ → engine D → Prop) s :
  inv fl s → remove_order l (stop_levels side s) = Some (v, o, freed) →
  Q (o, freed) (set_stop_levels side v s) → wp (stop_remove l) Q s.
Proof.
  intros H Hr HQ. unfold stop_remove. wp_steps. destruct side; cbn in Hr.
  - rewrite Hr. by wp_steps.
  - rewrite (proj2 (remove_order_None l s.(buy_stops))).
    + wp_steps. eapply wp_deref; [exact Hr|]. cbn. by wp_steps.
    + intros Hin. apply remove_order_find in Hr as [lv Hf].
      pose proof (load_order_at (OnStop Sell) l fl s _ H Hf) as Hl.
      pose proof (NoDup_seq 0 MaxOrders) as Hnd.
      rewrite <- (inv_orders_at (OnStop Buy) fl s H) in Hnd.
      apply NoDup_app in Hnd as (_ & Hdis & _). apply (Hdis l Hin). cbn.
      rewrite !fmap_app, !elem_of_app. left. right. right.
      destruct (decide (l ∈ (keys s.(sell_stops)).*1)) as [|Hni]; [done|].
      apply find_order_None in Hni. congruence.
Qed.

(** An order that is not linked is cancelled. *)
Lemma wp_drop_order e ts reason fl (Q : unit → engine D → Prop) s :
  inv (e :: fl) s →
  (∀ s', inv fl s' →
     s' = set_order_free (e :: s.(order_free)) (says [OrderCancelled e.2.(o_id) ts reason]
            (set_order_index (delete e.2.(o_id) s.(order_index)) s)) → Q tt s') →
  wp (drop_order e ts reason) Q s.
Proof.
  intros H HQ. unfold drop_order, index_clear, deallocate_order. wp_steps. apply wp_emit.
  apply wp_modify. apply HQ; [|done]. exact (inv_drop e e fl s H eq_refl).
Qed.

(** *** Resting an order *)

Lemma find_order_inserted before e slot levels v new :
  insert_order before e slot levels = (v, new) → is_Some (find_order e.1 v).
Proof.
  intros Hi. destruct (find_order e.1 v) eqn:Hf; [done|]. apply find_order_None in Hf.
  destruct Hf. rewrite (insert_order_keys _ _ _ _ _ _ Hi). by left.
Qed.

(** The level pool is empty: the order is cancelled instead. *)
Definition dropped_for_level e ts s : engine D :=
  set_order_free (e :: s.(order_free)) (says [OrderCancelled e.2.(o_id) ts CLevelPoolExhausted]
    (set_order_index (delete e.2.(o_id) s.(order_index)) s)).

Lemma wp_insert_into_book e ts fl (Q : unit → engine D → Prop) s :
  inv (e :: fl) s → book_order e.2.(o_side) e.2.(o_price) e.2 →
  (s.(level_free) = [] → inv fl (dropped_for_level e ts s) → Q tt (dropped_for_level e ts s)) →
  (∀ slot lf v new evs s',
     s.(level_free) = slot :: lf →
     insert_order (book_before e.2.(o_side)) e slot (side_levels e.2.(o_side) s) = (v, new) →
     Forall mute evs →
     s' = set_level_free (if new then lf else slot :: lf)
            (says evs (set_side_levels e.2.(o_side) v s)) →
     inv fl s' → Q tt s') →
  wp (insert_into_book e ts) Q s.
Proof.
  intros H HP Hnone Hsome. unfold insert_into_book, allocate_level. wp_steps.
  destruct (s.(level_free)) as [|slot lf] eqn:Hlf.
  - wp_steps. apply wp_modify. apply wp_bind, wp_emit, wp_modify. apply Hnone; [done|].
    exact (inv_drop e e fl s H eq_refl).
  - wp_steps. change (side_levels ?x (set_level_free lf s)) with (side_levels x s).
    destruct (insert_order _ e slot _) as [v new] eqn:Hi.
    pose proof (inv_attach (OnBook e.2.(o_side)) e slot lf fl s v new H Hlf Hi HP) as Hinv.
    destruct (find_order_inserted _ _ _ _ _ _ Hi) as [[o' lv] Hf].
    wp_steps.
    set (s1 := if new then set_side_levels e.2.(o_side) v (set_level_free lf s)
               else set_level_free (slot :: lf)
                      (set_side_levels e.2.(o_side) v (set_level_free lf s))).
    assert (Hend : ∀ ev ev', mute ev → mute ev' → Q tt (says [ev'] (says [ev] s1))).
    { intros ev ev' Ha Hb. eapply (Hsome slot lf v new [ev; ev']); [done|done|by repeat constructor| |].
      - rewrite says_says. unfold s1. destruct s, new, (e.2.(o_side)); reflexivity.
      - unfold s1. destruct new, (e.2.(o_side)); exact Hinv. }
    assert (Htail : wp (emit (OrderBookAction e.2.(o_id) e.2.(o_side) e.2.(o_price)
                          e.2.(o_remaining_quantity) ActAdd ts) ;;
                        '(_, lv) ← deref (find_order e.1 v);
                        emit (DepthUpdate e.2.(o_side) lv.(lv_price) lv.(lv_total_quantity)
                          lv.(lv_order_count) (if new then DepthAdd else DepthUpd) ts)) Q s1).
    { apply wp_bind, wp_emit, wp_bind. eapply wp_deref; [exact Hf|]. apply wp_emit.
      by apply Hend. }
    apply wp_when; intros Hnew; destruct new; try done.
    apply wp_modify. unfold s1 in Htail. by destruct s, (e.2.(o_side)).
Qed.
End rules.

(** * Cancelling orders *)

Section cancel.
Context {D : Type} {params : EngineParams} {hooks : Hooks D} {algo : MatchAlgorithm}.
Implicit Types (s : engine D) (ts : Timestamp) (l : loc) (o : Order) (b : bk).

(** Every live order, with its slot. *)
Definition all_entries s : list entry :=
  entries s.(bids) ++ entries s.(asks) ++ entries s.(buy_stops) ++ entries s.(sell_stops).

Lemma live_keys_entries s : live_keys s = key <$> all_entries s.
Proof. unfold live_keys, all_keys, all_entries. by rewrite !fmap_app. Qed.

Lemma all_entries_remove b l v o freed s :
  inv [] s → remove_order l (levels_of b s) = Some (v, o, freed) →
  all_entries s ≡ₚ (l, o) :: all_entries (set_levels b v s).
Proof.
  intros H Hr. pose proof (inv_sides [] s b H) as [_ Hok].
  pose proof (remove_order_entries _ _ _ _ _ _ Hok Hr) as Hp. unfold all_entries.
  destruct b as [[]|[]]; cbn in *; rewrite Hp; solve_Permutation.
Qed.

Lemma indexed_entry s id l :
  inv [] s → s.(order_index) !! id = Some l ↔ ∃ o, (l, o) ∈ all_entries s ∧ o.(o_id) = id.
Proof.
  intros H. rewrite (iv_index _ _ _ _ _ _ _ _ _ H id l). fold (live_keys s). cbn.
  rewrite app_nil_r, live_keys_entries, list_elem_of_fmap. unfold key. split.
  - intros ([k o] & [= -> ->] & Hin). by exists o.
  - intros (o & Hin & <-). by exists (l, o).
Qed.

Lemma load_order_entry s l o lv : load_order l s = Some (o, lv) → (l, o) ∈ all_entries s.
Proof.
  unfold load_order, all_entries. intros Hl.
  assert (Hf : ∀ levels, find_order l levels = Some (o, lv) → (l, o) ∈ entries levels).
  { intros levels [Hlv Hin]%find_order_Some. apply list_elem_of_bind. eauto. }
  rewrite !elem_of_app.
  destruct (find_order l s.(bids)) eqn:E1; [left; apply Hf; congruence|].
  destruct (find_order l s.(asks)) eqn:E2; [right; left; apply Hf; congruence|].
  destruct (find_order l s.(buy_stops)) eqn:E3; [right; right; left; apply Hf; congruence|].
  right; right; right. by apply Hf.
Qed.

(** The outcome of cancelling the order [o] at [l]: that order is gone from
    the books, the index and the pool of live orders, nothing else moved,
    and the only order event is its cancellation. *)
Record cancelled (l : loc) (o : Order) ts (reason : CancelReason) s s' : Prop := {
  cn_inv : inv [] s';
  cn_entries : all_entries s ≡ₚ (l, o) :: all_entries s';
  cn_index : s'.(order_index) = delete o.(o_id) s.(order_index);
  cn_next : s'.(next_order_id) = s.(next_order_id);
  cn_trace : ∃ evs, s'.(trace) = s.(trace) ++ OrderCancelled o.(o_id) ts reason :: evs ∧
                    Forall mute evs;
  cn_trackers : s'.(position_tracker) = s.(position_tracker) ∧
                s'.(trade_registry) = s.(trade_registry) ∧
                s'.(last_trade_price) = s.(last_trade_price) ∧
                s'.(current_state) = s.(current_state);
  cn_config : s'.(config) = s.(config) ∧ s'.(derived) = s.(derived)
}.

Lemma wp_cancel_active_order l o lv ts reason s :
  inv [] s → s.(order_index) !! o.(o_id) = Some l → load_order l s = Some (o, lv) →
  wp (cancel_active_order l ts reason) (λ _ s', cancelled l o ts reason s s') s.
Proof.
  intros H Hi Hl.
  destruct (inv_indexed s l _ H Hi) as (b & o' & lv' & v & freed & Hl' & _ & _ & Hr & HP).
  rewrite Hl in Hl'. injection Hl' as <- <-.
  pose proof (all_entries_remove b l v o freed s H Hr) as Hent.
  pose proof (inv_drop (l, o) (l, o) [] _ (inv_detach b l v o o freed [] s H Hr eq_refl) eq_refl)
    as Hinv.
  unfold cancel_active_order. wp_steps. eapply wp_deref; [exact Hl|]. cbv beta iota.
  destruct b as [side|side].
  - destruct HP as (Hside & Hty & _). rewrite Hty, Hside. cbn.
    apply wp_bind. eapply wp_book_remove; [exact Hr|]. wp_steps. unfold index_clear. wp_steps.
    apply wp_emit, wp_bind, wp_emit, wp_bind, wp_fire_depth_after_remove. intros evs Hevs.
    apply wp_bind, wp_fire_top_of_book_if_changed. intros evs' Hevs'.
    apply wp_modify. destruct side; (split; [exact Hinv|exact Hent|done|done| |done|done]).
    all: cbn; rewrite <- !app_assoc; cbn; eexists; (split; [done|]).
    all: constructor; [done|]; apply Forall_app; done.
  - destruct HP as (_ & Hst & _). rewrite Hst.
    apply wp_bind. eapply (wp_stop_remove side); [exact H|exact Hr|].
    wp_steps. unfold index_clear. wp_steps.
    apply wp_emit, wp_bind, wp_deallocate_if_freed, wp_modify.
    destruct side; (split; [exact Hinv|exact Hent|done|done| |done|done]).
    all: by exists [].
Qed.

(** *** Scans *)

(** Orders a scan over [ids] leaves alone. *)
Definition kept (sel : Order → bool) (ids : list OrderId) (e : entry) : bool :=
  negb (bool_decide (e.2.(o_id) ∈ ids) && sel e.2).

Lemma filter_kept_skip sel i ids (es : list entry) :
  (∀ e, e ∈ es → e.2.(o_id) = i → sel e.2 = false) →
  filter (λ e, kept sel (i :: ids) e = true) es = filter (λ e, kept sel ids e = true) es.
Proof.
  intros Hne. apply filter_ext_in. intros e He. specialize (Hne e He). unfold kept.
  destruct (decide (e.2.(o_id) = i)) as [Heq|Hneq].
  - rewrite (Hne Heq), !andb_false_r. done.
  - by rewrite (bool_decide_ext (e.2.(o_id) ∈ i :: ids) (e.2.(o_id) ∈ ids))
      by (rewrite elem_of_cons; tauto).
Qed.

Lemma entry_at_loc s l o o' :
  inv [] s → (l, o) ∈ all_entries s → (l, o') ∈ all_entries s → o = o'.
Proof.
  intros H. apply elem_unique. pose proof (inv_locs_nodup [] s H) as Hnd.
  apply NoDup_app in Hnd as [Hnd _]. rewrite live_keys_entries in Hnd.
  by rewrite <- (list_fmap_compose key fst) in Hnd.
Qed.

(** What a scan reports: cancellations and market data. *)
Definition scan_event (ts : Timestamp) (reason : CancelReason) (ev : event) : Prop :=
  mute ev ∨ ∃ id, ev = OrderCancelled id ts reason.

(** What a scan leaves as it was, but for the orders it cancels. *)
Record scanned ts (reason : CancelReason) s s' : Prop := {
  sc_state : s'.(current_state) = s.(current_state);
  sc_config : s'.(config) = s.(config);
  sc_derived : s'.(derived) = s.(derived);
  sc_next : s'.(next_order_id) = s.(next_order_id);
  sc_trace : ∃ evs, s'.(trace) = s.(trace) ++ evs ∧ Forall (scan_event ts reason) evs
}.

Lemma scanned_refl ts reason s : scanned ts reason s s.
Proof. split; try done. exists []. by rewrite app_nil_r. Qed.

Lemma scanned_trans ts reason s1 s2 s3 :
  scanned ts reason s1 s2 → scanned ts reason s2 s3 → scanned ts reason s1 s3.
Proof.
  intros [H1 H2 H3 H4 (evs1 & Ht1 & He1)] [H1' H2' H3' H4' (evs2 & Ht2 & He2)].
  split; [congruence..|]. exists (evs1 ++ evs2).
  rewrite Ht2, Ht1, app_assoc. split; [done|]. by apply Forall_app.
Qed.

Lemma cancelled_scanned l o ts reason s s' : cancelled l o ts reason s s' → scanned ts reason s s'.
Proof.
  intros [_ _ _ Hn (evs & Ht & He) (_ & _ & _ & Hst) [Hc Hd]]. split; try done.
  eexists. split; [exact Ht|]. constructor; [right; eauto|].
  eapply Forall_impl; [exact He|]. by left.
Qed.

Lemma wp_cancel_scan sel reason ts ids count s :
  inv [] s → NoDup ids →
  wp (cancel_scan sel reason ts ids count)
    (λ n s', inv [] s' ∧ scanned ts reason s s' ∧
             all_entries s' ≡ₚ filter (λ e, kept sel ids e = true) (all_entries s) ∧
             n = count + Z.of_nat (length (all_entries s)) - Z.of_nat (length (all_entries s'))) s.
Proof.
  revert count s. induction ids as [|i ids IH]; intros count s H Hnd; cbn.
  { apply wp_ret. split_and!; [done|apply scanned_refl| |lia]. rewrite filter_all; [done|].
    intros e _. unfold kept. by rewrite bool_decide_eq_false_2 by apply not_elem_of_nil. }
  apply NoDup_cons in Hnd as [Hni Hnd]. wp_steps.
  destruct (s.(order_index) !! i) as [l|] eqn:Hi.
  - destruct (inv_indexed s l i H Hi) as (b & o & lv & v & freed & Hl & Ho & _ & Hr & HP).
    apply wp_bind. eapply wp_deref; [exact Hl|]. cbv beta iota.
    destruct (sel o) eqn:Hsel.
    + apply wp_bind. eapply wp_mono; [eapply wp_cancel_active_order; [done|by subst i|done]|].
      intros [] s1 Hc. pose proof (cancelled_scanned _ _ _ _ _ _ Hc) as Hsc. destruct Hc as [H1 Hent Hidx Hnext _ _ _]. clear Hnext. cbn.
      eapply wp_mono; [by apply IH|]. intros n s' (H' & Hn' & Hent' & ->).
      split_and!; [done|by eapply scanned_trans| |rewrite Hent; cbn; lia].
      rewrite Hent', Hent, filter_cons_False.
      2:{ unfold kept. cbn. rewrite Hsel, bool_decide_eq_true_2; [done|]. subst i. by left. }
      rewrite filter_kept_skip; [done|]. intros [k o'] He Heq. cbn in *.
      assert (Hk : s1.(order_index) !! i = Some k) by (apply indexed_entry; eauto).
      rewrite Hidx, Ho, lookup_delete_eq in Hk. done.
    + eapply wp_mono; [by apply IH|]. intros n s' (H' & Hn' & Hent' & ->).
      split_and!; [done|done| |lia]. rewrite Hent', filter_kept_skip; [done|].
      intros [k o'] He Heq. cbn in *.
      assert (k = l) as ->.
      { assert (s.(order_index) !! i = Some k) by (apply indexed_entry; eauto). congruence. }
      by rewrite (entry_at_loc s l o' o H He (load_order_entry s l o lv Hl)).
  - eapply wp_mono; [by apply IH|]. intros n s' (H' & Hn' & Hent' & ->).
    split_and!; [done|done| |lia]. rewrite Hent', filter_kept_skip; [done|].
    intros [k o'] He Heq. cbn in *.
    assert (s.(order_index) !! i = Some k) by (apply indexed_entry; eauto). congruence.
Qed.

(** A scan over all identifiers cancels exactly the orders selected. *)
Lemma wp_full_scan sel reason ts s :
  inv [] s →
  wp (cancel_scan sel reason ts (live_ids s) 0)
    (λ n s', inv [] s' ∧ scanned ts reason s s' ∧
             all_entries s' ≡ₚ filter (λ e, sel e.2 = false) (all_entries s) ∧
             n = Z.of_nat (length (filter (λ e, sel e.2 = true) (all_entries s)))) s.
Proof.
  intros H. eapply wp_mono; [apply wp_cancel_scan; [done|apply NoDup_seqZ]|].
  intros n s' (H' & Hsc & Hent & ->).
  assert (Hent' : all_entries s' ≡ₚ filter (λ e, sel e.2 = false) (all_entries s)).
  { rewrite Hent. rewrite (filter_ext_in _ (λ e, sel e.2 = false)); [done|].
    intros [k o] He. unfold kept. rewrite bool_decide_eq_true_2; cbn.
    - destruct (sel o); split; done.
    - assert (Hk : s.(order_index) !! o.(o_id) = Some k) by (apply indexed_entry; eauto).
      apply (iv_ids _ _ _ _ _ _ _ _ _ H) in Hk. apply elem_of_seqZ. lia. }
  split_and!; [done|done|done|]. rewrite Hent'. clear.
  induction (all_entries s) as [|e es IH]; [done|]. rewrite !filter_cons. cbn [length].
  destruct (sel e.2); repeat case_decide; try done; cbn [length]; lia.
Qed.
End cancel.
