(* ===== verification/EngineFills.v ===== *)
(** * Processing the fills of one level

    The matching algorithm reduces the orders of a level before the engine
    reads the fills one by one.  While fills are pending the level's total is
    ahead of its queue; [pending] relates the level to the one it stands for,
    in which the pending fills are not applied yet.  Each step of
    [process_fills] is then one fill of that level. *)

From S2P Require Import Prelude Types MatchAlgo MatchAlgoFacts Books Trackers Engine.
From S2P Require Import EngineInvariant EngineRules.

(** ** Queues *)

Lemma fill_all_cons_queue fs (e : entry) (q : list entry) :
  fill_all fs (e :: q) = (e.1, fill_order (qty_of e.1 fs) e.2) :: fill_all fs q.
Proof. reflexivity. Qed.

#[local] Arguments update_entry : simpl never.
#[local] Arguments fill_all : simpl never.
#[local] Arguments qty_of : simpl never.

Lemma update_entry_id l (q : list entry) : update_entry l id q = q.
Proof.
  induction q as [|[k o] q IH]; [done|]. rewrite update_entry_cons, IH. cbn. by case_if as E.
Qed.

Lemma remove_entry_not_in l (q : list entry) : l ∉ q.*1 → remove_entry l q = q.
Proof.
  induction q as [|[k o] q IH]; [done|]. cbn. rewrite not_elem_of_cons. intros [Hne Hni].
  destruct (Nat.eqb_spec k l); [congruence|]. by rewrite IH.
Qed.

Lemma find_entry_fill_all l fs (q : list entry) :
  find_entry l (fill_all fs q) = fill_order (qty_of l fs) <$> find_entry l q.
Proof.
  induction q as [|[k o] q IH]; [done|]. rewrite fill_all_cons_queue. cbn.
  destruct (Nat.eqb_spec k l) as [->|Hne]; [done|]. apply IH.
Qed.

Lemma remove_entry_fill_all l fs (q : list entry) :
  remove_entry l (fill_all fs q) = fill_all fs (remove_entry l q).
Proof.
  induction q as [|[k o] q IH]; [done|]. rewrite fill_all_cons_queue. cbn.
  destruct (Nat.eqb_spec k l) as [->|Hne]; [done|]. cbn. by rewrite IH.
Qed.

Lemma fill_all_app fs (q q' : list entry) : fill_all fs (q ++ q') = fill_all fs q ++ fill_all fs q'.
Proof. apply fmap_app. Qed.

Lemma fill_all_keys fs (q : list entry) : key <$> fill_all fs q = key <$> q.
Proof. unfold fill_all. rewrite <- list_fmap_compose. by apply list_fmap_ext. Qed.

Lemma remove_entry_locs l (q : list entry) : (remove_entry l q).*1 `sublist_of` q.*1.
Proof.
  induction q as [|[k o] q IH]; [done|]. cbn. destruct (k =? l)%nat; cbn.
  - by apply sublist_cons.
  - by apply sublist_skip.
Qed.

(** Undoing a fill that was applied last. *)
Lemma unfill_fill f fs (q : list entry) :
  f.(f_resting_order) ∉ f_resting_order <$> fs →
  update_entry f.(f_resting_order) (unfill_order f.(f_quantity)) (fill_all (f :: fs) q)
  = fill_all fs q.
Proof.
  intros Hni. unfold fill_all, update_entry. rewrite <- list_fmap_compose.
  apply list_fmap_ext. intros i [k o] _. cbn. rewrite qty_of_cons, (Nat.eqb_sym k).
  destruct (Nat.eqb_spec (f_resting_order f) k) as [<-|Hne]; cbn; [|done].
  rewrite qty_of_not_in, fill_order_0 by done. f_equal. destruct o.
  unfold unfill_order, fill_order, set_o_remaining_quantity, set_o_filled_quantity. cbn.
  f_equal; lia.
Qed.

(** ** One fill of a level *)

Section level.
Context (sd : Side) (lv : PriceLevel) (k : loc) (r : Order) (x : Quantity).
Hypothesis Hok : lv_ok (book_order sd) lv.
Hypothesis Hnd : NoDup lv.(lv_queue).*1.
Hypothesis Hin : (k, r) ∈ lv.(lv_queue).

(** The order keeps some quantity. *)
Definition reduced_level : PriceLevel :=
  set_lv_queue (update_entry k (fill_order x) lv.(lv_queue)) (add_total (- x) lv).

(** The order's visible tranche was consumed and the next one is shown. *)
Definition revealed_level : PriceLevel :=
  let r' := fill_order x r in
  set_lv_queue (remove_entry k lv.(lv_queue)
                  ++ [(k, set_o_remaining_quantity (next_tranche r') r')])
    (add_total (next_tranche r' - x) lv).

Lemma book_order_resized g :
  (∀ o, o_side (g o) = o_side o ∧ o_type (g o) = o_type o ∧ o_price (g o) = o_price o) →
  0 < o_remaining_quantity (g r) → book_order sd lv.(lv_price) (g r).
Proof using Hok Hin.
  intros Hg Hpos. destruct (Hg r) as (Hs & Ht & Hp). destruct Hok as [_ _ _ Ho].
  rewrite Forall_forall in Ho. destruct (Ho _ Hin) as (? & ? & ? & ? & ?). cbn in *.
  unfold book_order. rewrite Hs, Ht, Hp. done.
Qed.

Lemma reduced_level_ok : x < r.(o_remaining_quantity) → lv_ok (book_order sd) reduced_level.
Proof using Hok Hnd Hin.
  intros Hx. destruct Hok as [Hne Hc Ht Ho]. split; cbn.
  - intros Hnil. apply (f_equal length) in Hnil. unfold update_entry in Hnil.
    rewrite length_fmap in Hnil. by destruct (lv_queue lv).
  - unfold update_entry. by rewrite length_fmap.
  - rewrite (sum_remaining_update k (fill_order x) (- x) r) by (done || (cbn; lia)). lia.
  - apply (Forall_update_entry _ k _ r); try done. cbn.
    apply book_order_resized; [done|]. cbn. lia.
Qed.

Lemma reduced_level_keys : key <$> lv_queue reduced_level = key <$> lv_queue lv.
Proof. cbn. by apply update_entry_key. Qed.

Lemma next_tranche_pos o : has_hidden o = true → 0 < next_tranche o.
Proof. unfold has_hidden, next_tranche. intros. zbool. lia. Qed.

Lemma queue_split : lv_queue lv ≡ₚ (k, r) :: remove_entry k (lv_queue lv).
Proof using Hin Hnd. apply remove_entry_perm. by apply find_entry_elem. Qed.

Lemma revealed_level_ok :
  x = r.(o_remaining_quantity) → has_hidden (fill_order x r) = true →
  lv_ok (book_order sd) revealed_level.
Proof using Hok Hnd Hin.
  intros Hx Hh. apply next_tranche_pos in Hh. pose proof queue_split as Hp.
  destruct Hok as [Hne Hc Ht Ho]. rewrite Hp in Hc, Ht, Ho. cbn in Hc, Ht.
  apply Forall_cons in Ho as [_ Ho].
  split; cbn -[next_tranche].
  - by destruct (remove_entry k (lv_queue lv)).
  - rewrite length_app. cbn. lia.
  - rewrite sum_by_app. cbn -[next_tranche]. lia.
  - apply Forall_app. split; [done|]. constructor; [|done]. cbn -[next_tranche].
    apply (book_order_resized (λ o, set_o_remaining_quantity (next_tranche (fill_order x r))
                                      (fill_order x o))); [done|exact Hh].
Qed.

Lemma revealed_level_keys : key <$> lv_queue revealed_level ≡ₚ key <$> lv_queue lv.
Proof using Hnd Hin.
  transitivity (key <$> (k, r) :: remove_entry k (lv_queue lv)); [|by rewrite <- queue_split].
  cbn -[next_tranche]. rewrite fmap_app. symmetry. apply Permutation_cons_append.
Qed.

Lemma revealed_level_length : length (lv_queue revealed_level) = length (lv_queue lv).
Proof using Hnd Hin.
  transitivity (length ((k, r) :: remove_entry k (lv_queue lv))); [|by rewrite <- queue_split].
  cbn. rewrite length_app. cbn. lia.
Qed.
End level.

(** ** Pending fills *)

(** What a trade changes and what it leaves alone: the aggressor's own side,
    the stop book, the session and the configuration. *)
Record same_rest {D} (side : Side) (s s' : engine D) : Prop := {
  sr_own : side_levels side s' = side_levels side s;
  sr_buy_stops : s'.(buy_stops) = s.(buy_stops);
  sr_sell_stops : s'.(sell_stops) = s.(sell_stops);
  sr_next : s'.(next_order_id) = s.(next_order_id)
}.

Record same_session {D} (s s' : engine D) : Prop := {
  ss_config : s'.(config) = s.(config);
  ss_state : s'.(current_state) = s.(current_state);
  ss_vi : s'.(vi_reference_price) = s.(vi_reference_price);
  ss_derived : s'.(derived) = s.(derived)
}.

#[global] Instance same_rest_preorder {D} side : PreOrder (same_rest (D := D) side).
Proof. split; [by split|]. intros s1 s2 s3 [] []. split; congruence. Qed.
#[global] Instance same_session_preorder {D} : PreOrder (same_session (D := D)).
Proof. split; [by split|]. intros s1 s2 s3 [] []. split; congruence. Qed.

(** Quantity traded in a sequence of events. *)
Definition trade_qty (ev : event) : Quantity :=
  match ev with Trade _ q _ _ _ _ => q | _ => 0 end.
Definition traded (evs : list event) : Quantity := sum_by trade_qty evs.

(** Events of filling against a level at price [p]: trades are at [p], of
    positive size, with the aggressor's identifier and side; no status change,
    rejection or acceptance. *)
Definition fill_event (o : Order) (p : Price) (ev : event) : Prop :=
  match ev with
  | Trade q x agg _ side _ => q = p ∧ 0 < x ∧ agg = o.(o_id) ∧ side = o.(o_side)
  | MarketStatus _ _ | OrderRejected _ _ _ | OrderAccepted _ _ _ => False
  | _ => True
  end.

Lemma mute_fill_event o p ev : mute ev → fill_event o p ev.
Proof. by destruct ev. Qed.

Lemma traded_mute evs : Forall mute evs → traded evs = 0.
Proof.
  unfold traded. induction 1 as [|ev evs Hev _ IH]; [done|]. rewrite sum_by_cons, IH.
  by destruct ev.
Qed.

Section pending.
Context {D : Type} {params : EngineParams} {hooks : Hooks D} {algo : MatchAlgorithm}.
Implicit Types (s : engine D) (ts : Timestamp) (l k : loc) (o r : Order).
Implicit Types (f : FillResult) (fs : list FillResult) (lv : PriceLevel).

Lemma side_levels_set sd v s : side_levels sd (set_side_levels sd v s) = v.
Proof. by destruct sd. Qed.
Lemma set_side_set sd v w s :
  set_side_levels sd v (set_side_levels sd w s) = set_side_levels sd v s.
Proof. by destruct sd. Qed.
Lemma set_side_id sd s : set_side_levels sd (side_levels sd s) s = s.
Proof. by destruct sd, s. Qed.

Lemma inv_flight fl fl' s : key <$> fl = key <$> fl' → inv fl s → inv fl' s.
Proof.
  intros Hk [H1 H2 H3 H4 H5 H6 H7 H8 H9]. split; try done.
  - assert (Hf : fl'.*1 = fl.*1).
    { transitivity ((key <$> fl').*1); [by rewrite <- list_fmap_compose|].
      rewrite <- Hk. by rewrite <- list_fmap_compose. }
    by rewrite Hf.
  - by rewrite <- Hk.
Qed.

(** The best opposite level is [lv] with the fills [fs] already taken out of
    its queue but not out of its total. *)
Record pending l o fs lv (rest : list PriceLevel) s : Prop := {
  pd_levels : side_levels (opposite o.(o_side)) s
              = set_lv_queue (fill_all fs lv.(lv_queue)) lv :: rest;
  pd_inv : inv [(l, o)] (set_side_levels (opposite o.(o_side)) (lv :: rest) s);
  pd_fills : Forall (fill_sound lv) fs;
  pd_nodup : NoDup (f_resting_order <$> fs)
}.

Lemma virtual_level_ok fl sd lv rest s :
  inv fl (set_side_levels sd (lv :: rest) s) →
  lv_ok (book_order sd) lv ∧ NoDup lv.(lv_queue).*1.
Proof.
  intros H. split.
  - pose proof (inv_sides fl _ (OnBook sd) H) as [_ Hl]. cbn in Hl.
    rewrite side_levels_set in Hl. by apply Forall_cons in Hl as [Hl _].
  - pose proof (inv_level_locs (OnBook sd) fl _ H) as Hnd. cbn in Hnd.
    rewrite side_levels_set, keys_cons, fmap_app in Hnd. apply NoDup_app in Hnd as [Hnd _].
    by rewrite <- list_fmap_compose in Hnd.
Qed.

(** Replace the virtual level by one with the same orders. *)
Lemma virtual_update fl sd lv lv' rest s :
  inv fl (set_side_levels sd (lv :: rest) s) →
  lv_slot lv' = lv_slot lv → lv_price lv' = lv_price lv → lv_ok (book_order sd) lv' →
  key <$> lv_queue lv' ≡ₚ key <$> lv_queue lv →
  inv fl (set_side_levels sd (lv' :: rest) s).
Proof.
  intros H Hs Hp Hok Hk.
  pose proof (inv_sides fl _ (OnBook sd) H) as [Hsort Hl]. cbn in Hsort, Hl.
  rewrite side_levels_set in Hsort, Hl. apply Forall_cons in Hl as [_ Hl].
  assert (Hu := inv_update (OnBook sd) (lv' :: rest) fl _ H). cbn in Hu.
  rewrite side_levels_set, set_side_set in Hu. apply Hu.
  - split; [|by constructor]. cbn in *. by rewrite Hp.
  - by rewrite !keys_cons, Hk.
  - unfold slots. cbn. by rewrite Hs.
Qed.

Lemma pending_head l o f fs lv rest s :
  pending l o (f :: fs) lv rest s →
  ∃ r, (f.(f_resting_order), r) ∈ lv.(lv_queue) ∧
    f.(f_price) = lv.(lv_price) ∧ 0 < f.(f_quantity) <= r.(o_remaining_quantity) ∧
    f.(f_resting_remaining) = r.(o_remaining_quantity) - f.(f_quantity) ∧
    f.(f_resting_order) ∉ f_resting_order <$> fs ∧
    find_entry f.(f_resting_order) (fill_all (f :: fs) lv.(lv_queue))
      = Some (fill_order f.(f_quantity) r).
Proof.
  intros [_ Hinv Hf Hnd]. apply Forall_cons in Hf as [(Hp & Hq & r & Hin & Hle & Hrr) _].
  apply NoDup_cons in Hnd as [Hni _]. destruct (virtual_level_ok _ _ _ _ _ Hinv) as [_ Hndq].
  exists r. split_and!; try done.
  rewrite find_entry_fill_all, (find_entry_elem _ r) by done. cbn.
  rewrite qty_of_cons, Nat.eqb_refl, qty_of_not_in by done. do 2 f_equal. lia.
Qed.

Lemma fill_sound_other f fs lv lv' :
  f.(f_resting_order) ∉ f_resting_order <$> fs → lv_price lv' = lv_price lv →
  (∀ k r, k ≠ f.(f_resting_order) → (k, r) ∈ lv.(lv_queue) → (k, r) ∈ lv'.(lv_queue)) →
  Forall (fill_sound lv) fs → Forall (fill_sound lv') fs.
Proof.
  intros Hni Hp Hq Hf. rewrite Forall_forall in Hf |- *. intros g Hg.
  destruct (Hf g Hg) as (Hgp & Hgq & r & Hin & Hle & Hrr).
  split_and!; [congruence|done|]. exists r. split_and!; try done. apply Hq; [|done].
  intros Heq. apply Hni. rewrite <- Heq. by apply list_elem_of_fmap_2.
Qed.

Lemma fill_all_skip f fs (q : list entry) :
  f.(f_resting_order) ∉ q.*1 → fill_all (f :: fs) q = fill_all fs q.
Proof.
  induction q as [|[k o] q IH]; [done|]. cbn [fmap list_fmap fst].
  rewrite not_elem_of_cons. intros [Hne Hni]. rewrite !fill_all_cons_queue, IH by done.
  cbn. rewrite qty_of_cons. destruct (Nat.eqb_spec (f_resting_order f) k); [done|].
  do 3 f_equal.
Qed.
End pending.
