(* ===== verification/EngineMatch.v ===== *)
(** * Matching an order

    Total correctness of [process_fills], [match_loop], [post_match] and
    [match_order]: no undefined access, termination, the invariant, and what
    the trades are. *)

From S2P Require Import Prelude Types MatchAlgo MatchAlgoFacts Books Trackers Engine.
From S2P Require Import EngineInvariant EngineRules EngineFills.

#[local] Arguments update_entry : simpl never.
#[local] Arguments fill_all : simpl never.
#[local] Arguments qty_of : simpl never.
#[local] Arguments next_tranche : simpl never.

(** Run the engine's straight-line code. *)
Ltac eng_step := first [wp_step | apply wp_emit].
Ltac eng_steps := repeat eng_step.

(** A concrete list of market-data and cancellation events. *)
Ltac quiet_events :=
  cbn; repeat (apply Forall_cons; split; [first [by left | right; by eauto]|]); by constructor.

(** A level after some of its orders were reduced, moved or removed. *)
Definition accounts (lv : PriceLevel) : list Z := (λ e : entry, e.2.(o_account_id)) <$> lv.(lv_queue).

Record shrinks (lv lv' : PriceLevel) : Prop := {
  sh_price : lv_price lv' = lv_price lv;
  sh_length : (length (lv_queue lv') <= length (lv_queue lv))%nat;
  sh_accounts : ∀ a, a ∈ accounts lv' → a ∈ accounts lv
}.

#[global] Instance shrinks_preorder : PreOrder shrinks.
Proof. split; [by split|]. intros x y z [] []. split; [congruence|lia|auto]. Qed.

Lemma shrinks_reduced lv k x : shrinks lv (reduced_level lv k x).
Proof.
  split; [done| |].
  - cbn. unfold update_entry. by rewrite length_fmap.
  - intros a. unfold accounts. cbn. unfold update_entry. rewrite <- list_fmap_compose.
    rewrite (list_fmap_ext _ (λ e : entry, e.2.(o_account_id))); [done|].
    intros i [k' o] _. cbn. by destruct (k' =? k)%nat.
Qed.

Lemma shrinks_revealed lv k r x :
  NoDup (lv_queue lv).*1 → (k, r) ∈ lv_queue lv → shrinks lv (revealed_level lv k r x).
Proof.
  intros Hnd Hin. split; [done|by rewrite revealed_level_length|].
  intros a. unfold accounts. rewrite (queue_split lv k r Hnd Hin). cbn. rewrite fmap_app. cbn.
  by rewrite <- Permutation_cons_append.
Qed.

Lemma shrinks_detached lv k r x :
  find_entry k (lv_queue lv) = Some r → shrinks lv (detach_order k x lv).
Proof.
  intros Hf. split; [done| |].
  - cbn. pose proof (remove_entry_length _ _ _ Hf). lia.
  - intros a. unfold accounts. rewrite (remove_entry_perm _ _ _ Hf). cbn.
    rewrite elem_of_cons. auto.
Qed.

Section fill_tail.
Context {D : Type} {params : EngineParams} {hooks : Hooks D} {algo : MatchAlgorithm}.
Implicit Types (s : engine D) (ts : Timestamp) (l k : loc) (o r : Order).
Implicit Types (f : FillResult) (fs : list FillResult) (lv : PriceLevel).

(** The fills [fs] of the level [lv] remain to be processed; what is left of
    the level stands for [lv']. *)
Definition pend lv (rest : list PriceLevel) l o fs s : Prop :=
  (fs = [] ∧ side_levels (opposite o.(o_side)) s = rest ∧ inv [(l, o)] s) ∨
  (∃ lv', pending l o fs lv' rest s ∧ shrinks lv lv').

(** The fill [f] was booked in the level's total but its order was not
    touched yet. *)
Record mid l o f fs lv (rest : list PriceLevel) r s : Prop := {
  md_levels : side_levels (opposite o.(o_side)) s
              = set_lv_queue (fill_all (f :: fs) lv.(lv_queue))
                  (add_total (- f.(f_quantity)) lv) :: rest;
  md_inv : inv [(l, o)] (set_side_levels (opposite o.(o_side)) (lv :: rest) s);
  md_in : (f.(f_resting_order), r) ∈ lv.(lv_queue);
  md_side : r.(o_side) = opposite o.(o_side);
  md_qty : f.(f_quantity) <= r.(o_remaining_quantity);
  md_fills : Forall (fill_sound lv) fs;
  md_fresh : f.(f_resting_order) ∉ f_resting_order <$> fs;
  md_nodup : NoDup (f_resting_order <$> fs);
  md_find : find_entry f.(f_resting_order) (fill_all (f :: fs) lv.(lv_queue))
            = Some (fill_order f.(f_quantity) r)
}.

(** What the end of the loop body does: fills [fs] remain, only market data
    is published. *)
Definition fill_done l o fs lv (rest : list PriceLevel) s s' : Prop :=
  pend lv rest l o fs s' ∧
  same_rest o.(o_side) s s' ∧ same_session s s' ∧
  s'.(last_trade_price) = s.(last_trade_price) ∧
  ∃ evs, s'.(trace) = s.(trace) ++ evs ∧ Forall mute evs.

Lemma same_rest_set o v s :
  same_rest o.(o_side) s (set_side_levels (opposite o.(o_side)) v s).
Proof. by destruct (o_side o). Qed.
Lemma same_session_set sd v s : same_session s (set_side_levels sd v s).
Proof. by destruct sd. Qed.

Lemma trace_set_side sd v s : trace (set_side_levels sd v s) = trace s.
Proof. by destruct sd. Qed.

Lemma inv_virtual_says fl sd v evs s :
  inv fl (set_side_levels sd v s) → inv fl (set_side_levels sd v (says evs s)).
Proof. by destruct sd. Qed.

(** The resting order keeps some quantity. *)
Lemma wp_fill_partial l o f fs lv rest r ts s :
  mid l o f fs lv rest r s → f.(f_quantity) < r.(o_remaining_quantity) →
  wp (s' ← get;
      '(_, lv') ← deref (find_order f.(f_resting_order) (side_levels (opposite o.(o_side)) s'));
      emit (DepthUpdate (opposite o.(o_side)) lv'.(lv_price) lv'.(lv_total_quantity)
              lv'.(lv_order_count) DepthUpd ts))
    (λ _ s', fill_done l o fs lv rest s s') s.
Proof.
  intros [Hl Hinv Hin Hside Hqty Hf Hni Hnd Hfind] Hlt.
  destruct (virtual_level_ok _ _ _ _ _ Hinv) as [Hok Hndq].
  wp_steps. eapply wp_deref; [rewrite Hl; by apply find_order_head|]. apply wp_emit.
  split_and!; [|done|done|done|eexists; split; [done|by repeat constructor]].
  right. exists (reduced_level lv f.(f_resting_order) f.(f_quantity)).
  split; [|apply shrinks_reduced].
  - split; [| | |done].
    + cbn. rewrite fill_all_cons by done. exact Hl.
    + apply inv_virtual_says. eapply (virtual_update _ _ lv); [exact Hinv|done|done| |by rewrite reduced_level_keys].
      by eapply reduced_level_ok.
    + eapply (fill_sound_other f _ lv); [done|done| |done].
      intros k r' Hk Hr'. cbn. by apply update_entry_elem_ne.
Qed.

(** The visible tranche is consumed and the next one shown. *)
Lemma revealed_levels l o f fs lv rest r s :
  mid l o f fs lv rest r s →
  let r' := fill_order f.(f_quantity) r in
  update_order f.(f_resting_order) (set_o_remaining_quantity (next_tranche r'))
    (λ lv', add_total (next_tranche r') (move_to_back f.(f_resting_order) lv'))
    (side_levels (opposite o.(o_side)) s)
  = set_lv_queue (fill_all fs (lv_queue (revealed_level lv f.(f_resting_order) r f.(f_quantity))))
      (revealed_level lv f.(f_resting_order) r f.(f_quantity)) :: rest.
Proof.
  intros [Hl Hinv Hin Hside Hqty Hf Hni Hnd Hfind]. cbn.
  destruct (virtual_level_ok _ _ _ _ _ Hinv) as [Hok Hndq].
  assert (Hnotin : f.(f_resting_order) ∉ (remove_entry f.(f_resting_order) lv.(lv_queue)).*1).
  { pose proof (queue_split lv _ r Hndq Hin) as Hp. rewrite Hp in Hndq. cbn in Hndq.
    by apply NoDup_cons in Hndq as [? _]. }
  rewrite Hl. cbn. rewrite Hfind. f_equal. unfold move_to_back. cbn.
  rewrite find_entry_update, Hfind. cbn.
  rewrite remove_entry_update by (rewrite fill_all_locs; done).
  rewrite remove_entry_fill_all, fill_all_skip, fill_all_app by done.
  rewrite (fill_all_cons_queue fs (_, _)). cbn. rewrite qty_of_not_in, fill_order_0 by done.
  unfold add_total, set_lv_queue, set_lv_total_quantity. cbn. f_equal. lia.
Qed.

Lemma wp_fill_reveal l o f fs lv rest r ts s :
  mid l o f fs lv rest r s → f.(f_quantity) = r.(o_remaining_quantity) →
  has_hidden (fill_order f.(f_quantity) r) = true →
  wp (reveal_tranche f.(f_resting_order) (fill_order f.(f_quantity) r) ts)
    (λ _ s', fill_done l o fs lv rest s s') s.
Proof.
  intros Hmid Heq Hh. pose proof (revealed_levels _ _ _ _ _ _ _ _ Hmid) as Hlv. cbn in Hlv.
  destruct Hmid as [Hl Hinv Hin Hside Hqty Hf Hni Hnd Hfind].
  destruct (virtual_level_ok _ _ _ _ _ Hinv) as [Hok Hndq].
  set (rl := revealed_level lv f.(f_resting_order) r f.(f_quantity)) in *.
  unfold reveal_tranche, store_side. eng_steps.
  change (o_side (fill_order _ r)) with (o_side r). rewrite Hside, Hlv.
  destruct (find_entry f.(f_resting_order) (fill_all fs (lv_queue rl))) as [r'|] eqn:Hfr.
  2:{ apply find_entry_None in Hfr. destruct Hfr. rewrite fill_all_locs. cbn.
      rewrite fmap_app. apply elem_of_app. right. by left. }
  eapply wp_deref.
  { change (side_levels ?sd (says ?evs ?s')) with (side_levels sd s').
    rewrite side_levels_set. apply find_order_head. exact Hfr. }
  apply wp_emit. rewrite says_says.
  split_and!.
  - right. exists rl. split; [|by apply shrinks_revealed].
    split; [| | |done].
    + change (side_levels ?sd (says ?evs ?s')) with (side_levels sd s').
      by rewrite side_levels_set.
    + apply inv_virtual_says. rewrite set_side_set.
      eapply (virtual_update _ _ lv); [exact Hinv|done|done| |].
      * by eapply revealed_level_ok.
      * by apply revealed_level_keys.
    + eapply (fill_sound_other f _ lv); [done|done| |done].
      intros k r'' Hk Hr''. cbn. apply elem_of_app. left.
      rewrite (queue_split lv _ r Hndq Hin) in Hr''.
      by apply elem_of_cons in Hr'' as [[= -> ->]|?].
  - by destruct (o_side o).
  - by destruct (o_side o).
  - by destruct (o_side o).
  - eexists. split; [cbn; by rewrite trace_set_side|by repeat constructor].
Qed.

(** The order is done: it leaves the book. *)
Lemma wp_fill_remove l o f fs lv rest r ts s :
  mid l o f fs lv rest r s → f.(f_quantity) = r.(o_remaining_quantity) →
  wp ('(_, freed) ← book_remove (opposite o.(o_side)) f.(f_resting_order);
      emit (DepthUpdate (opposite o.(o_side)) f.(f_price) 0 0 DepthRemove ts) ;;
      deallocate_if_freed freed ;;
      index_clear r.(o_id) ;;
      deallocate_order (f.(f_resting_order), fill_order f.(f_quantity) r))
    (λ _ s', fill_done l o fs lv rest s s') s.
Proof.
  intros [Hl Hinv Hin Hside Hqty Hf Hni Hnd Hfind] Heq.
  destruct (virtual_level_ok _ _ _ _ _ Hinv) as [Hok Hndq].
  set (sd := opposite o.(o_side)) in *. set (k := f.(f_resting_order)) in *.
  pose proof (find_entry_elem k r _ Hndq Hin) as Hfv.
  (* the virtual removal *)
  set (lv' := detach_order k r.(o_remaining_quantity) lv).
  set (freed := if lv_order_count lv' =? 0 then Some lv.(lv_slot) else None).
  set (vs := if lv_order_count lv' =? 0 then rest else lv' :: rest).
  assert (Hrv : remove_order k (lv :: rest) = Some (vs, r, freed)).
  { unfold vs, freed, lv'. cbn. rewrite Hfv. cbn. by destruct (lv_order_count lv - 1 =? 0). }
  assert (Hinv' : inv [(l, o)] (set_order_free ((k, fill_order f.(f_quantity) r) :: s.(order_free))
            (set_order_index (delete r.(o_id) s.(order_index))
              (set_level_free (freed_slots freed ++ s.(level_free)) (set_side_levels sd vs s))))).
  { pose proof (inv_detach (OnBook sd) k vs r r freed [(l, o)] _ Hinv) as Hd. cbn in Hd.
    rewrite side_levels_set, set_side_set in Hd. specialize (Hd Hrv eq_refl).
    pose proof (inv_drop (k, r) (k, fill_order f.(f_quantity) r) _ _ Hd eq_refl) as Hd'.
    clear -Hd'. by destruct sd. }
  (* the concrete one *)
  set (cs := if lv_order_count lv' =? 0 then rest
             else set_lv_queue (fill_all fs (lv_queue lv')) lv' :: rest).
  assert (Hrc : remove_order k (side_levels sd s)
                = Some (cs, fill_order f.(f_quantity) r, freed)).
  { rewrite Hl. cbn. rewrite Hfind. cbn. unfold cs, freed, lv'. cbn.
    destruct (lv_order_count lv - 1 =? 0); [done|]. do 4 f_equal.
    unfold detach_order, set_lv_queue. cbn. f_equal; [lia|].
    rewrite remove_entry_fill_all, fill_all_skip; [done|].
    pose proof (queue_split lv _ r Hndq Hin) as Hp. fold k in Hp. fold k.
    rewrite Hp in Hndq. by apply NoDup_cons in Hndq as [? _]. }
  apply wp_bind. eapply wp_book_remove; [exact Hrc|]. apply wp_bind, wp_emit, wp_bind.
  apply wp_deallocate_if_freed. unfold index_clear, deallocate_order. eng_steps.
  assert (Hsd : sd = opposite o.(o_side)) by done.
  split_and!.
  - destruct (lv_order_count lv' =? 0) eqn:Hcount; zbool; unfold cs, vs, freed in *.
    + left. split_and!; [|by rewrite <- Hsd; destruct sd|by destruct sd].
      pose proof (detach_empty _ _ _ _ Hok Hfv Hcount) as Hq.
      destruct fs as [|g fs]; [done|]. exfalso.
      apply Forall_cons in Hf as [(_ & _ & r' & Hr' & _) _].
      rewrite Hq, list_elem_of_singleton in Hr'. injection Hr' as Hk _.
      apply Hni. cbn. rewrite Hk. by left.
    + right. exists lv'. split; [|by eapply shrinks_detached].
      * split; [by rewrite <- Hsd; destruct sd|by rewrite <- Hsd; destruct sd| |done].
        eapply (fill_sound_other f _ lv); [done|done| |done].
        intros k' r' Hk' Hr'. cbn. rewrite (queue_split lv _ r Hndq Hin) in Hr'.
        by apply elem_of_cons in Hr' as [[= -> ->]|?].
  - clear -Hsd. by destruct (o_side o); subst sd.
  - by destruct sd.
  - by destruct sd.
  - eexists. split; [cbn; by rewrite trace_set_side|by repeat constructor].
Qed.
End fill_tail.

(** ** What the engine relies on in a derived exchange

    The daily-limit hook changes only the session (state, configuration, the
    derived members) and publishes status changes; self matches are decided by
    the two account identifiers and answered by one of the three cancelling
    actions, as long as the derived members satisfy [derived_ok]. *)
Definition status_event (ev : event) : Prop :=
  match ev with MarketStatus _ _ | LockLimitTriggered _ _ _ _ => True | _ => False end.

Record session_change {D} (s s' : engine D) : Prop := {
  sc_bids : s'.(bids) = s.(bids);
  sc_asks : s'.(asks) = s.(asks);
  sc_buy_stops : s'.(buy_stops) = s.(buy_stops);
  sc_sell_stops : s'.(sell_stops) = s.(sell_stops);
  sc_order_free : s'.(order_free) = s.(order_free);
  sc_level_free : s'.(level_free) = s.(level_free);
  sc_index : s'.(order_index) = s.(order_index);
  sc_next : s'.(next_order_id) = s.(next_order_id);
  sc_trackers : s'.(position_tracker) = s.(position_tracker) ∧
                s'.(trade_registry) = s.(trade_registry) ∧
                s'.(last_trade_price) = s.(last_trade_price);
  sc_trace : ∃ evs, s'.(trace) = s.(trace) ++ evs ∧ Forall status_event evs
}.

#[global] Instance session_change_preorder {D} : PreOrder (session_change (D := D)).
Proof.
  split.
  - intros s. split; try done. exists []. by rewrite app_nil_r.
  - intros s1 s2 s3 [? ? ? ? ? ? ? ? (? & ? & ?) (e1 & T1 & F1)]
      [? ? ? ? ? ? ? ? (? & ? & ?) (e2 & T2 & F2)].
    split; try congruence; [split_and!; congruence|].
    exists (e1 ++ e2). rewrite T2, T1, app_assoc. split; [done|by apply Forall_app].
Qed.

Class HooksOk (D : Type) {hooks : Hooks D} : Type := {
  derived_ok : D → Prop;
  hk_limit : ∀ side p ts s, session_change s (on_daily_limit_hit side p ts s);
  hk_limit_ok : ∀ side p ts s,
    derived_ok s.(derived) → derived_ok (on_daily_limit_hit side p ts s).(derived);
  hk_accounts : ∀ s s' o o' r r', o_account_id o' = o_account_id o →
    o_account_id r' = o_account_id r → is_self_match s' o' r' = is_self_match s o r;
  hk_smp : ∀ s o r, derived_ok s.(derived) → is_self_match s o r = true →
    get_smp_action s = CancelNewest ∨ get_smp_action s = CancelOldest ∨
    get_smp_action s = CancelBoth
}.

Section process.
Context {D : Type} {params : EngineParams} {hooks : Hooks D} {algo : MatchAlgorithm}.
Implicit Types (s : engine D) (ts : Timestamp) (l k : loc) (o r : Order).
Implicit Types (f : FillResult) (fs : list FillResult) (lv : PriceLevel).

Definition add_filled (x : Quantity) o : Order :=
  set_o_filled_quantity (o.(o_filled_quantity) + x) o.

(** What a step of the fill loop publishes and leaves alone. *)
Record progress o (p : Price) (x : Quantity) s s' : Prop := {
  pg_rest : same_rest o.(o_side) s s';
  pg_session : same_session s s';
  pg_trace : ∃ evs, s'.(trace) = s.(trace) ++ evs ∧ Forall (fill_event o p) evs ∧
                    traded evs = x
}.

Lemma progress_trans o o' p x y s1 s2 s3 :
  o_id o' = o_id o → o_side o' = o_side o →
  progress o p x s1 s2 → progress o' p y s2 s3 → progress o p (x + y) s1 s3.
Proof.
  intros Hid Hsd [R1 S1 (e1 & T1 & F1 & Q1)] [R2 S2 (e2 & T2 & F2 & Q2)].
  split; [rewrite Hsd in R2; by etrans|by etrans|].
  exists (e1 ++ e2). split_and!.
  - by rewrite T2, T1, app_assoc.
  - apply Forall_app. split; [done|]. eapply Forall_impl; [exact F2|].
    intros ev. destruct ev; cbn; rewrite ?Hid, ?Hsd; done.
  - unfold traded in *. rewrite sum_by_app. lia.
Qed.

Lemma pend_resized lv0 rest l o o' fs s :
  o_id o' = o_id o → o_side o' = o_side o → pend lv0 rest l o fs s → pend lv0 rest l o' fs s.
Proof.
  intros Hid Hsd [(? & ? & Hi)|(lv & [Hl Hi Hf Hnd] & ?)].
  - left. rewrite Hsd. split_and!; try done. eapply inv_flight; [|exact Hi].
    unfold key. cbn. by rewrite Hid.
  - right. exists lv. split_and!; try done. split; rewrite ?Hsd; try done.
    eapply inv_flight; [|exact Hi]. unfold key. cbn. by rewrite Hid.
Qed.

Lemma wp_apply_fill l o f fs lv rest r ts s :
  pending l o (f :: fs) lv rest s → (f.(f_resting_order), r) ∈ lv.(lv_queue) →
  wp (apply_fill o f (fill_order f.(f_quantity) r) ts)
    (λ o' s', o' = add_filled f.(f_quantity) o ∧
       pend lv rest l o' fs s' ∧
       progress o (lv_price lv) f.(f_quantity) s s') s.
Proof.
  intros Hp Hin. destruct (pending_head _ _ _ _ _ _ _ Hp)
    as (r' & Hin' & Hprice & Hq & Hrr & Hni & Hfind).
  destruct Hp as [Hl Hinv Hf Hnd]. destruct (virtual_level_ok _ _ _ _ _ Hinv) as [Hok Hndq].
  rewrite (elem_unique _ r' r _ Hndq Hin' Hin) in *.
  apply Forall_cons in Hf as [_ Hf]. apply NoDup_cons in Hnd as [_ Hnd].
  assert (Hside : r.(o_side) = opposite o.(o_side)).
  { destruct Hok as [_ _ _ Ho]. rewrite Forall_forall in Ho. by destruct (Ho _ Hin). }
  unfold apply_fill, update_positions, store_side, record_trade.
  change (o_side (fill_order ?x r)) with (o_side r).
  change (o_account_id (fill_order ?x r)) with (o_account_id r).
  change (o_id (fill_order ?x r)) with (o_id r). rewrite Hside.
  do 8 (apply wp_bind; first [apply wp_modify|apply wp_emit]).
  match goal with |- wp _ _ ?st => set (s1 := st) end.
  assert (Hmid : mid l o f fs lv rest r s1).
  { split; try done; [|by unfold s1; destruct (o_side o)|lia].
    transitivity (update_order f.(f_resting_order) id (add_total (- f.(f_quantity)))
                    (side_levels (opposite o.(o_side)) s)).
    { unfold s1. by destruct (o_side o). }
    rewrite Hl. cbn. rewrite Hfind, update_entry_id. done. }
  assert (Hpg : progress o (lv_price lv) f.(f_quantity) s s1).
  { split; [by unfold s1; destruct (o_side o)|by unfold s1; destruct (o_side o)|].
    eexists. split_and!.
    - unfold s1. cbn. rewrite trace_set_side. cbn. by rewrite <- !app_assoc.
    - constructor; [by destruct (_ =? 0)|]. repeat constructor; [done|lia].
    - unfold traded. cbn. destruct (_ =? 0); cbn; lia. }
  clearbody s1.
  assert (Hend : ∀ s', fill_done l o fs lv rest s1 s' →
    wp (mret (set_o_filled_quantity (o.(o_filled_quantity) + f.(f_quantity)) o))
      (λ o' s', o' = add_filled f.(f_quantity) o ∧
       pend lv rest l o' fs s' ∧
       progress o (lv_price lv) f.(f_quantity) s s') s').
  { intros s' (Hpe & Hr & Hs & _ & evs & Ht & Hm). apply wp_ret. split_and!; [done| |].
    - by eapply pend_resized; [| |exact Hpe].
    - replace f.(f_quantity) with (f.(f_quantity) + 0) by lia.
      eapply progress_trans; [done|done|exact Hpg|]. split; [done|done|].
      exists evs. split_and!; [done| |by apply traded_mute].
      eapply Forall_impl; [exact Hm|]. intros ev. apply mute_fill_event. }
  apply wp_bind. destruct (f.(f_resting_remaining) =? 0) eqn:Hzero; zbool.
  - destruct (has_hidden _) eqn:Hh.
    + eapply wp_mono; [eapply wp_fill_reveal; [exact Hmid|lia|done]|eauto].
    + eapply wp_mono; [eapply wp_fill_remove; [exact Hmid|lia]|eauto].
  - eapply wp_mono; [eapply wp_fill_partial; [exact Hmid|lia]|eauto].
Qed.

Lemma set_lv_queue_id lv : set_lv_queue (lv_queue lv) lv = lv.
Proof. by destruct lv. Qed.

Lemma update_order_head k g h lv rest r :
  find_entry k (lv_queue lv) = Some r →
  update_order k g h (lv :: rest) = h (set_lv_queue (update_entry k g (lv_queue lv)) lv) :: rest.
Proof. intros H. cbn. by rewrite H. Qed.

Definition add_remaining (x : Quantity) o : Order :=
  set_o_remaining_quantity (o.(o_remaining_quantity) + x) o.

(** [undo_fills] restores the level the pending fills were taken from. *)
Lemma wp_undo_fills l o fs lv rest s :
  pending l o fs lv rest s →
  wp (undo_fills o fs)
    (λ o' s', o' = add_remaining (sum_by f_quantity fs) o ∧
              s' = set_side_levels (opposite o.(o_side)) (lv :: rest) s) s.
Proof.
  revert o s. induction fs as [|f fs IH]; intros o s Hp.
  - destruct Hp as [Hl _ _ _]. rewrite fill_all_nil, set_lv_queue_id in Hl. apply wp_ret.
    split; [|by rewrite <- Hl, set_side_id].
    unfold add_remaining. cbn. destruct o. unfold set_o_remaining_quantity. cbn. f_equal. lia.
  - destruct (pending_head _ _ _ _ _ _ _ Hp) as (r & _ & _ & _ & _ & Hni & Hfind).
    destruct Hp as [Hl Hinv Hf Hnd]. apply Forall_cons in Hf as [_ Hf].
    apply NoDup_cons in Hnd as [_ Hnd]. cbn. apply wp_bind. unfold store_side. apply wp_modify.
    rewrite Hl, (update_order_head _ _ _ _ _ (fill_order f.(f_quantity) r)) by exact Hfind.
    cbn [id lv_queue set_lv_queue]. rewrite unfill_fill by done.
    eapply wp_mono; [apply IH|].
    + split; cbn; [by rewrite side_levels_set| |done|done].
      rewrite set_side_set. eapply inv_flight; [|exact Hinv]. done.
    + cbn. intros o' s' [-> ->]. rewrite set_side_set. split; [|done].
      unfold add_remaining, set_o_remaining_quantity. cbn. f_equal. lia.
Qed.

(** What is left at the head of the opposite side: nothing, or the level
    with at most [n] orders. *)
Definition left_level (n : nat) lv (rest levels : list PriceLevel) : Prop :=
  levels = rest ∨
  ∃ lv', levels = lv' :: rest ∧ shrinks lv lv' ∧ (length (lv_queue lv') <= n)%nat.

Lemma remove_order_head k lv rest r :
  find_entry k (lv_queue lv) = Some r →
  ∃ vs freed, remove_order k (lv :: rest) = Some (vs, r, freed) ∧
    left_level (length (lv_queue lv) - 1) lv rest vs ∧
    (freed = None → is_Some (find_level lv.(lv_price) vs)).
Proof.
  intros Hf. cbn. rewrite Hf. cbn. pose proof (remove_entry_length _ _ _ Hf).
  destruct (lv_order_count lv - 1 =? 0); eexists _, _; (split; [done|]).
  - split; [by left|done].
  - split; [|cbn; by rewrite Z.eqb_refl]. right. eexists.
    split_and!; [done|by eapply shrinks_detached|cbn; lia].
Qed.

(** The resting order of a self match leaves the book; the aggressor's fate
    is [alive]. *)
Record smp_done l o lv (rest : list PriceLevel) (alive : bool) s s' : Prop := {
  sm_inv : inv (if alive then [(l, o)] else []) s';
  sm_left : left_level (if alive then length (lv_queue lv) - 1 else length (lv_queue lv)) lv rest
              (side_levels (opposite o.(o_side)) s');
  sm_progress : progress o (lv_price lv) 0 s s'
}.

Lemma progress_quiet o p evs s s' :
  same_rest o.(o_side) s s' → same_session s s' → s'.(trace) = s.(trace) ++ evs →
  Forall (λ ev, mute ev ∨ ∃ id ts reason, ev = OrderCancelled id ts reason) evs →
  progress o p 0 s s'.
Proof.
  intros Hr Hs Ht Hev. split; [done|done|]. exists evs. split_and!; [done| |].
  - eapply Forall_impl; [exact Hev|]. intros ev [?|(id & ts & reason & ->)]; [|done].
    by apply mute_fill_event.
  - unfold traded. clear -Hev. induction Hev as [|ev evs [Hm|(id & ts & reason & ->)] _ IH]; cbn; [done| |done].
    by destruct ev.
Qed.

Lemma wp_smp_cancel_newest l o lv rest ts k f s :
  inv [(l, o)] s → side_levels (opposite o.(o_side)) s = lv :: rest →
  get_smp_action s = CancelNewest →
  wp (apply_smp_action (l, o) k f ts) (λ alive s', smp_done l o lv rest alive s s') s.
Proof.
  intros Hinv Hl Ha. unfold apply_smp_action. wp_steps. rewrite Ha. wp_steps.
  eapply wp_drop_order; [exact Hinv|]. intros s' Hinv' ->. apply wp_ret. split; [done| |].
  - right. exists lv. split_and!; [by destruct (o_side o)|done|done].
  - eapply progress_quiet; [by destruct (o_side o)|done|done|]. quiet_events.
Qed.

Lemma wp_smp_cancel_resting l o lv rest ts k r f s :
  inv [(l, o)] s → side_levels (opposite o.(o_side)) s = lv :: rest →
  (k, r) ∈ lv.(lv_queue) → f.(f_price) = lv.(lv_price) →
  get_smp_action s = CancelOldest ∨ get_smp_action s = CancelBoth →
  wp (apply_smp_action (l, o) k f ts) (λ alive s', smp_done l o lv rest alive s s') s.
Proof.
  intros Hinv Hl Hin Hp Ha.
  destruct (virtual_level_ok [(l, o)] (opposite o.(o_side)) lv rest s) as [Hok Hnd].
  { by rewrite <- Hl, set_side_id. }
  pose proof (find_entry_elem k r _ Hnd Hin) as Hf.
  assert (Hside : r.(o_side) = opposite o.(o_side)).
  { destruct Hok as [_ _ _ Ho]. rewrite Forall_forall in Ho. by destruct (Ho _ Hin). }
  destruct (remove_order_head k lv rest r Hf) as (vs & freed & Hr & Hleft & Hsome).
  rewrite <- Hl in Hr.
  pose proof (inv_detach (OnBook _) k vs r r freed [(l, o)] s Hinv Hr eq_refl) as Hd.
  pose proof (inv_drop (k, r) (k, r) _ _ Hd eq_refl) as Hinv'. cbn in Hinv'.
  unfold apply_smp_action. wp_steps. destruct Ha as [Ha|Ha]; rewrite Ha;
    apply wp_bind; (eapply wp_deref; [cbn; rewrite Hl; by apply find_order_head|]);
    cbv beta iota; apply wp_bind; rewrite Hside;
    (eapply wp_book_remove; [exact Hr|]); unfold index_clear; eng_steps.
  - destruct freed as [slot|].
    + unfold deallocate_level, deallocate_order. eng_steps.
      split; [by destruct (o_side o)|by destruct (o_side o)|].
      eapply progress_quiet; [by destruct (o_side o)..|cbn; by rewrite trace_set_side, <- !app_assoc|].
      quiet_events.
    + unfold deallocate_order. destruct (Hsome eq_refl) as [lv' Hlv'].
      eng_steps. eapply wp_deref; [cbn [snd]; rewrite Hp; destruct (o_side o); exact Hlv'|]. eng_steps.
      split; [by destruct (o_side o)|by destruct (o_side o)|].
      eapply progress_quiet; [by destruct (o_side o)..|cbn; by rewrite trace_set_side, <- !app_assoc|].
      quiet_events.
  - destruct freed as [slot|]; unfold deallocate_level, deallocate_order; eng_steps.
    all: eapply wp_drop_order; [destruct (o_side o); exact Hinv'|]; intros s' Hinv'' ->;
      apply wp_ret; split; [done| |].
    2,4: eapply progress_quiet; [by destruct (o_side o)..|cbn; by rewrite trace_set_side, <- !app_assoc|];
      quiet_events.
    all: destruct Hleft as [Hv|(lv' & Hv & ? & ?)]; [left; by destruct (o_side o)|];
      right; exists lv'; split_and!; [by destruct (o_side o)|done|lia].
Qed.

Context {hooks_ok : HooksOk D}.

Definition resized (filled remaining : Quantity) o : Order :=
  set_o_remaining_quantity remaining (set_o_filled_quantity filled o).

(** No order of the level belongs to the aggressor's account. *)
Definition clean o lv : Prop :=
  ∀ s r, o_account_id r ∈ accounts lv → is_self_match s o r = false.

(** The outcome of the fill loop: [x] of the allocated quantity was traded,
    the rest was given back by a self match. *)
Record processed l o fs lv (rest : list PriceLevel) o' (alive : bool) (x : Quantity) (n : nat) s s'
    : Prop := {
  pc_inv : inv (if alive then [(l, o')] else []) s';
  pc_order : o' = resized (o.(o_filled_quantity) + x)
                    (o.(o_remaining_quantity) + (sum_by f_quantity fs - x)) o;
  pc_traded : 0 <= x <= sum_by f_quantity fs;
  pc_left : left_level n lv rest (side_levels (opposite o.(o_side)) s');
  pc_bound : (n <= length (lv_queue lv))%nat;
  pc_progress : progress o (lv_price lv) x s s';
  pc_step : x = sum_by f_quantity fs ∨ alive = false ∨ (n < length (lv_queue lv))%nat;
  pc_clean : clean o lv → x = sum_by f_quantity fs ∧ alive = true
}.

Lemma pend_weaken lv lv' rest l o fs s :
  shrinks lv lv' → pend lv' rest l o fs s → pend lv rest l o fs s.
Proof.
  intros Hs [?|(lv2 & ? & ?)]; [by left|]. right. exists lv2. split; [done|by etrans].
Qed.

Lemma pending_fills_pos l o fs lv rest s :
  pending l o fs lv rest s → 0 <= sum_by f_quantity fs.
Proof.
  intros [_ _ Hf _]. apply sum_by_nonneg. eapply Forall_impl; [exact Hf|].
  intros f (_ & ? & _). lia.
Qed.

Lemma left_level_weaken n m lv lv' rest levels :
  shrinks lv lv' → (n <= m)%nat → left_level n lv' rest levels → left_level m lv rest levels.
Proof.
  intros Hs Hle [?|(lv2 & ? & ? & ?)]; [by left|]. right. exists lv2.
  split_and!; [done|by etrans|lia].
Qed.

Lemma resized_id o : o = resized (o.(o_filled_quantity) + 0) (o.(o_remaining_quantity) + (0 - 0)) o.
Proof.
  destruct o. unfold resized, set_o_remaining_quantity, set_o_filled_quantity. cbn. f_equal; lia.
Qed.

(** A self match: the fills not processed yet are undone. *)
Lemma wp_process_self l o f fs lv0 lv rest r ts s :
  pending l o (f :: fs) lv rest s → shrinks lv0 lv → (f.(f_resting_order), r) ∈ lv.(lv_queue) →
  derived_ok s.(derived) → is_self_match s o (fill_order f.(f_quantity) r) = true →
  wp (o' ← undo_fills o (f :: fs);
      alive ← apply_smp_action (l, o') f.(f_resting_order) f ts;
      mret (o', alive))
    (λ res s', ∃ x n, processed l o (f :: fs) lv0 rest res.1 res.2 x n s s') s.
Proof.
  intros Hp Hsh Hin Hd Hself.
  pose proof (pending_fills_pos _ _ _ _ _ _ Hp) as Hpos.
  destruct (pending_head _ _ _ _ _ _ _ Hp) as (r' & _ & Hprice & _).
  apply wp_bind. eapply wp_mono; [by eapply wp_undo_fills|]. intros o' s1 [Ho' Hs1].
  destruct Hp as [_ Hinv _ _]. rewrite <- Hs1 in Hinv.
  assert (Hinv1 : inv [(l, o')] s1) by (eapply inv_flight; [|exact Hinv]; by subst o').
  assert (Hside : o_side o' = o_side o) by (by subst o').
  assert (Hl1 : side_levels (opposite o'.(o_side)) s1 = lv :: rest)
    by (rewrite Hside, Hs1; apply side_levels_set).
  assert (Hsmp : wp (apply_smp_action (l, o') f.(f_resting_order) f ts)
            (λ alive s', smp_done l o' lv rest alive s1 s') s1).
  { destruct (hk_smp s1 o (fill_order f.(f_quantity) r)) as [Ha|Ha].
    - rewrite Hs1. by destruct (opposite (o_side o)).
    - rewrite <- Hself. by apply hk_accounts.
    - by eapply wp_smp_cancel_newest.
    - by eapply wp_smp_cancel_resting. }
  apply wp_bind. eapply wp_mono; [exact Hsmp|]. intros alive s' [Hi' Hleft Hpg]. apply wp_ret.
  set (n := if alive then (length (lv_queue lv) - 1)%nat else length (lv_queue lv)) in *.
  pose proof (sh_length _ _ Hsh) as Hlen.
  assert (Hne : lv_queue lv ≠ []) by (intros Hq; rewrite Hq in Hin; inversion Hin).
  assert (Hn : (n <= length (lv_queue lv0))%nat ∧ (alive = false ∨ n < length (lv_queue lv0))%nat).
  { unfold n. destruct (lv_queue lv); [done|]. destruct alive; cbn in *; split; try lia; by left || (right; lia). }
  exists 0, n. cbn [fst snd]. split; [done| |lia| |by apply Hn| |right; apply Hn|].
  - subst o'. unfold add_remaining, resized, set_o_remaining_quantity, set_o_filled_quantity. cbn.
    f_equal; lia.
  - rewrite <- Hside. by eapply left_level_weaken.
  - rewrite <- (sh_price _ _ Hsh). destruct Hpg as [Hr Hs Ht]. split.
    + rewrite Hside in Hr. etrans; [|exact Hr]. rewrite Hs1. apply same_rest_set.
    + etrans; [|exact Hs]. rewrite Hs1. apply same_session_set.
    + destruct Ht as (evs & Ht & Hev & Hx). exists evs. split_and!; [|by subst o'|done].
      by rewrite Ht, Hs1, trace_set_side.
  - intros Hclean. rewrite (Hclean s (fill_order f.(f_quantity) r)) in Hself; [done|].
    apply (sh_accounts _ _ Hsh). unfold accounts. apply list_elem_of_fmap. by exists (f.(f_resting_order), r).
Qed.

Lemma wp_process_fills l o fs lv rest ts s :
  pend lv rest l o fs s → derived_ok s.(derived) →
  wp (process_fills l o fs ts)
    (λ res s', ∃ x n, processed l o fs lv rest res.1 res.2 x n s s') s.
Proof.
  revert o s. induction fs as [|f fs IH]; intros o s Hp Hd.
  - apply wp_ret. exists 0, (length (lv_queue lv)). cbn [fst snd].
    assert (Hpi : inv [(l, o)] s ∧ left_level (length (lv_queue lv)) lv rest
                    (side_levels (opposite o.(o_side)) s)).
    { destruct Hp as [(_ & Hl & Hi)|(lv' & [Hl Hi _ _] & Hs)]; [by split; [|left]|].
      rewrite fill_all_nil, set_lv_queue_id in Hl. rewrite <- Hl, set_side_id in Hi.
      split; [done|]. right. exists lv'. split_and!; [done|done|apply Hs]. }
    split; [apply Hpi|apply resized_id|cbn; lia|apply Hpi|done| |by left|done].
    split; [done|done|]. exists []. by rewrite app_nil_r.
  - destruct Hp as [(? & _)|(lv' & Hp & Hsh)]; [done|].
    destruct (pending_head _ _ _ _ _ _ _ Hp) as (r & Hin & Hprice & Hq & _ & _ & Hfind).
    cbn. apply wp_bind, wp_get, wp_bind.
    eapply wp_deref; [rewrite (pd_levels _ _ _ _ _ _ Hp); apply find_order_head; exact Hfind|].
    cbv beta iota. destruct (is_self_match s o _) eqn:Hself.
    { by eapply wp_process_self. }
    apply wp_bind. eapply wp_mono; [by eapply wp_apply_fill|].
    intros o1 s1 (Ho1 & Hp1 & Hpg1).
    eapply wp_mono; [apply IH|].
    + eapply pend_weaken; [exact Hsh|done].
    + destruct Hpg1 as [_ Hs _]. by rewrite (ss_derived _ _ Hs).
    + rewrite (sh_price _ _ Hsh) in Hpg1.
      intros [o2 alive] s' (x & n & [Hi Ho2 Hx Hleft Hb Hpg Hst Hcl]). cbn [fst snd] in *.
      exists (f.(f_quantity) + x), n.
      assert (Hside : o_side o1 = o_side o) by (by subst o1).
      split; [done| |rewrite sum_by_cons; lia|by rewrite <- Hside|done| | |].
      * rewrite Ho2, Ho1. unfold add_filled, resized, set_o_remaining_quantity,
          set_o_filled_quantity. rewrite sum_by_cons. cbn. f_equal; lia.
      * eapply progress_trans; [|exact Hside|done|done]. by subst o1.
      * rewrite sum_by_cons. destruct Hst as [->|?]; [by left|by right].
      * intros Hclean. rewrite sum_by_cons. destruct Hcl as [-> ->]; [|done].
        intros s2 r' Hr'. rewrite <- (Hclean s2 r' Hr'). apply hk_accounts; by subst o1.
Qed.

(** *** The loop *)

(** Entering: the algorithm's fills are pending. *)
Lemma wp_match_level l o lv rest s (Q : Order * list FillResult → engine D → Prop) :
  inv [(l, o)] s → side_levels (opposite o.(o_side)) s = lv :: rest →
  0 < o.(o_remaining_quantity) → (length (lv_queue lv) <= kMaxFills)%nat →
  (∀ fs s1, let o1 := set_o_remaining_quantity
                        (o.(o_remaining_quantity) - sum_by f_quantity fs) o in
     pend lv rest l o1 fs s1 → same_rest o.(o_side) s s1 → same_session s s1 →
     s1.(trace) = s.(trace) →
     sum_by f_quantity fs = Z.min o.(o_remaining_quantity) lv.(lv_total_quantity) →
     Q (o1, fs) s1) →
  wp (match_level o lv rest) Q s.
Proof.
  intros Hinv Hl Hpos Hlen HQ.
  destruct (virtual_level_ok [(l, o)] (opposite o.(o_side)) lv rest s) as [Hok Hnd].
  { by rewrite <- Hl, set_side_id. }
  destruct (algo_match_ok lv o.(o_remaining_quantity)) as (q & rem & fs & Ha & [Hq Hndf Hf Ht Hr]).
  { destruct Hok as [Hne Hc Htot Ho]. split; try done. eapply Forall_impl; [exact Ho|].
    by intros e (_ & _ & _ & _ & ?). }
  { done. }
  assert (Hfs : (length fs <= length (lv_queue lv))%nat).
  { rewrite <- (length_fmap f_resting_order fs), <- (length_fmap fst (lv_queue lv)).
    apply submseteq_length, NoDup_submseteq; [done|]. intros k Hk.
    apply list_elem_of_fmap in Hk as (f & -> & Hf'). rewrite Forall_forall in Hf.
    destruct (Hf f Hf') as (_ & _ & r & Hin & _). by apply (list_elem_of_fmap_2 fst) in Hin. }
  unfold match_level. apply wp_bind. eapply wp_deref; [exact Ha|]. cbv beta iota.
  replace (kMaxFills <? length fs)%nat with false by (symmetry; apply Nat.ltb_ge; lia).
  wp_steps. subst q rem. apply HQ.
  - right. exists lv. split; [|done]. split; cbn; [by rewrite side_levels_set| |done|done].
    rewrite set_side_set, <- Hl, set_side_id. by eapply inv_flight; [|exact Hinv].
  - by destruct (o_side o).
  - by destruct (o_side o).
  - apply trace_set_side.
  - done.
Qed.

(** A session change seen from the books. *)
Lemma inv_session fl s s' : session_change s s' → inv fl s → inv fl s'.
Proof.
  intros [E1 E2 E3 E4 E5 E6 E7 E8 _ _] Hi. unfold inv. by rewrite E1, E2, E3, E4, E5, E6, E7, E8.
Qed.

(** An event that does not report a change of the session. *)
Definition quiet (ev : event) : Prop := match ev with MarketStatus _ _ => False | _ => True end.

(** A session check: nothing happens, or the session changes with a status
    event (or is locked already). *)
Definition checked (hit : bool) s s' : Prop :=
  if hit then
    session_change s s' ∧ (derived_ok s.(derived) → derived_ok s'.(derived)) ∧
    (s.(current_state) = LockLimit ∨
     ∃ evs, s'.(trace) = s.(trace) ++ evs ∧ Forall status_event evs ∧ ¬ Forall quiet evs)
  else s' = s.

Lemma session_says s evs st :
  Forall status_event evs → session_change s (says evs (set_current_state st s)).
Proof. intros H. split; try done. by exists evs. Qed.

Lemma wp_check_daily_limit_hit ts s :
  wp (check_daily_limit_hit ts) (λ hit s', checked hit s s') s.
Proof.
  unfold check_daily_limit_hit. wp_steps. case_if as Hlock; zbool.
  { apply wp_ret. split_and!; [done|done|by left]. }
  case_if as Hhit; [by apply wp_ret|]. eng_steps.
  set (side := if _ : bool then Buy else Sell). set (p := if _ : bool then _ else _).
  set (s1 := says [LockLimitTriggered side p s.(last_trade_price) ts] s).
  set (s2 := says [MarketStatus LockLimit ts] (set_current_state LockLimit s1)).
  assert (H2 : session_change s s2).
  { split; try done. eexists [_; _]. unfold s2, s1. cbn. rewrite <- app_assoc.
    split; [done|by repeat constructor]. }
  split_and!.
  - etrans; [exact H2|apply hk_limit].
  - intros Hd. by apply hk_limit_ok.
  - right. destruct (hk_limit side p ts s2) as [_ _ _ _ _ _ _ _ _ (evs & Ht & Hev)].
    eexists. split_and!.
    + rewrite Ht. unfold s2, s1. cbn. by rewrite <- !app_assoc.
    + by repeat constructor.
    + intros Hq. apply Forall_cons in Hq as [_ Hq]. by apply Forall_cons in Hq as [? _].
Qed.

Lemma wp_check_volatility_interruption ts s :
  wp (check_volatility_interruption ts) (λ hit s', checked hit s s') s.
Proof.
  unfold check_volatility_interruption. wp_steps. case_ifs; try by apply wp_ret.
  eng_steps. split_and!; [apply session_says; by repeat constructor|done|].
  right. eexists [_]. split_and!; [done|by repeat constructor|].
  intros Hq. by apply Forall_cons in Hq as [? _].
Qed.
End process.
