(* ===== verification/EngineLoop.v ===== *)
(** * The matching loop and [match_order]

    What [match_loop] achieves on a well-formed book with enough fuel, then
    [post_match] and [match_order] as a whole. *)

From S2P Require Import Prelude Types MatchAlgo MatchAlgoFacts Books Trackers Engine.
From S2P Require Import EngineInvariant EngineRules EngineFills EngineMatch.

(** One side after matching against it: levels consumed from the front, what
    remains only shrank. *)
Record side_shrinks (levels levels' : list PriceLevel) : Prop := {
  ds_prices : prices levels' `sublist_of` prices levels;
  ds_levels : ∀ lv', lv' ∈ levels' → ∃ lv, lv ∈ levels ∧ shrinks lv lv';
  ds_count : (length (entries levels') <= length (entries levels))%nat
}.

#[global] Instance side_shrinks_preorder : PreOrder side_shrinks.
Proof.
  split; [intros l; split; [done|intros lv' ?; by exists lv'|done]|].
  intros l1 l2 l3 [P1 L1 C1] [P2 L2 C2]. split; [by etrans| |lia].
  intros lv3 H3. destruct (L2 _ H3) as (lv2 & H2 & S2). destruct (L1 _ H2) as (lv1 & H1 & S1).
  exists lv1. split; [done|by etrans].
Qed.

Lemma left_level_shrinks n lv rest levels :
  (n <= length (lv_queue lv))%nat → left_level n lv rest levels → side_shrinks (lv :: rest) levels.
Proof.
  intros Hn [->|(lv' & -> & Hs & Hl)].
  - split; [by apply sublist_cons| |].
    + intros lv' Hlv'. exists lv'. split; [by right|done].
    + rewrite entries_cons, length_app. lia.
  - split.
    + unfold prices. cbn. rewrite (sh_price _ _ Hs). done.
    + intros lv2 [->|H2]%elem_of_cons; [exists lv; by split; [left|]|].
      exists lv2. split; [by right|done].
    + rewrite !entries_cons, !length_app. lia.
Qed.

(** Events of matching the order [o]: every trade is one [o] may make. *)
Definition within_limit (o : Order) (p : Price) : Prop :=
  o.(o_type) = Limit →
  match o.(o_side) with Buy => p <= o.(o_price) | Sell => o.(o_price) <= p end.

Lemma matchable_within o p : matchable o p = true → within_limit o p.
Proof. unfold matchable, within_limit. intros H Ht. rewrite Ht in H. destruct (o_side o); lia. Qed.

Definition match_event (o : Order) (ev : event) : Prop :=
  match ev with
  | Trade p q agg _ side _ => within_limit o p ∧ 0 < q ∧ agg = o.(o_id) ∧ side = o.(o_side)
  | OrderRejected _ _ _ | OrderAccepted _ _ _ => False
  | _ => True
  end.

Lemma fill_match_event o p ev : matchable o p = true → fill_event o p ev → match_event o ev.
Proof. destruct ev; cbn; try done. intros ? (-> & ? & ? & ?). split; [by apply matchable_within|done]. Qed.

Lemma status_match_event o ev : status_event ev → match_event o ev ∧ trade_qty ev = 0.
Proof. by destruct ev. Qed.

Lemma fill_event_quiet o p evs : Forall (fill_event o p) evs → Forall quiet evs.
Proof. intros H. eapply Forall_impl; [exact H|]. by intros []. Qed.

Lemma traded_app evs evs' : traded (evs ++ evs') = traded evs + traded evs'.
Proof. apply sum_by_app. Qed.

Lemma traded_status evs : Forall status_event evs → traded evs = 0.
Proof.
  unfold traded. induction 1 as [|ev evs Hev _ IH]; [done|]. rewrite sum_by_cons, IH.
  by destruct ev.
Qed.

Section loop.
Context {D : Type} {params : EngineParams} {hooks : Hooks D} {algo : MatchAlgorithm}.
Context {hooks_ok : HooksOk D}.
Implicit Types (s : engine D) (ts : Timestamp) (l : loc) (o : Order) (evs : list event).

(** The other side of the book from the order's point of view. *)
Definition facing o s : list PriceLevel := side_levels (opposite o.(o_side)) s.

(** Every level the order can meet fits the engine's fill array. *)
Definition fits o s : Prop := ∀ lv, lv ∈ facing o s → (length (lv_queue lv) <= kMaxFills)%nat.

(** Nothing left to trade with. *)
Definition exhausted o s : Prop :=
  match facing o s with [] => True | lv :: _ => matchable o lv.(lv_price) = false end.

Record matched l o o' (alive : bool) evs s s' : Prop := {
  mt_inv : inv (if alive then [(l, o')] else []) s';
  mt_order : o' = resized (o.(o_filled_quantity) + traded evs)
                    (o.(o_remaining_quantity) - traded evs) o;
  mt_traded : 0 <= traded evs ∧ traded evs <= Z.max 0 o.(o_remaining_quantity);
  mt_rest : same_rest o.(o_side) s s';
  mt_facing : side_shrinks (facing o s) (facing o s');
  mt_trace : s'.(trace) = s.(trace) ++ evs;
  mt_events : Forall (match_event o) evs;
  mt_derived : derived_ok s'.(derived);
  mt_state : Forall quiet evs → s.(current_state) ≠ LockLimit →
             s'.(current_state) = s.(current_state);
  mt_done : alive = true → Forall quiet evs → s.(current_state) ≠ LockLimit →
            o'.(o_remaining_quantity) <= 0 ∨ exhausted o s';
  mt_full : (∀ lv, lv ∈ facing o s → clean o lv) →
            o.(o_remaining_quantity) <= compute_matchable_qty o s →
            Forall quiet evs → s.(current_state) ≠ LockLimit →
            alive = true ∧ o'.(o_remaining_quantity) <= 0
}.

(** The loop stops without another iteration. *)
Lemma matched_stop l o s :
  inv [(l, o)] s → derived_ok s.(derived) →
  o.(o_remaining_quantity) <= 0 ∨ exhausted o s → matched l o o true [] s s.
Proof.
  intros Hi Hd Hex. split; try done.
  - destruct o. unfold resized, set_o_remaining_quantity, set_o_filled_quantity, traded. cbn.
    f_equal; lia.
  - unfold traded. cbn. lia.
  - by rewrite app_nil_r.
  - intros _ Hq _ _. split; [done|]. destruct Hex as [?|Hex]; [done|].
    unfold exhausted, compute_matchable_qty, facing in *.
    destruct (side_levels _ s) as [|lv rest]; cbn in Hq; [done|]. by rewrite Hex in Hq.
Qed.

(** One iteration against the level [lv]. *)
Record iterated l o lv (rest : list PriceLevel) o' (alive : bool) evs (n : nat) s s' : Prop := {
  it_inv : inv (if alive then [(l, o')] else []) s';
  it_order : o' = resized (o.(o_filled_quantity) + traded evs)
                    (o.(o_remaining_quantity) - traded evs) o;
  it_traded : 0 <= traded evs <= o.(o_remaining_quantity);
  it_left : left_level n lv rest (facing o s');
  it_bound : (n <= length (lv_queue lv))%nat;
  it_rest : same_rest o.(o_side) s s';
  it_session : same_session s s';
  it_trace : s'.(trace) = s.(trace) ++ evs;
  it_events : Forall (fill_event o lv.(lv_price)) evs;
  it_step : 0 < traded evs ∨ alive = false ∨ (n < length (lv_queue lv))%nat;
  it_clean : clean o lv →
    alive = true ∧ traded evs = Z.min o.(o_remaining_quantity) lv.(lv_total_quantity)
}.

Lemma processed_iterated l o lv rest o' alive x n fs s s1 s' :
  let o1 := set_o_remaining_quantity (o.(o_remaining_quantity) - sum_by f_quantity fs) o in
  0 < sum_by f_quantity fs <= o.(o_remaining_quantity) →
  sum_by f_quantity fs = Z.min o.(o_remaining_quantity) lv.(lv_total_quantity) →
  same_rest o.(o_side) s s1 → same_session s s1 → s1.(trace) = s.(trace) →
  processed l o1 fs lv rest o' alive x n s1 s' →
  ∃ evs, iterated l o lv rest o' alive evs n s s'.
Proof using hooks_ok.
  intros o1 Hsum Hmin Hr Hs Ht [Hi Ho Hx Hl Hb [Pr Ps (evs & Pt & Pe & <-)] Hst Hcl].
  exists evs. cbn in *. split; try done.
  - rewrite Ho. unfold resized, set_o_remaining_quantity, set_o_filled_quantity. cbn.
    f_equal; lia.
  - lia.
  - by etrans.
  - by etrans.
  - by rewrite Pt, Ht.
  - destruct Hst as [->|[?|?]]; [left; lia|by right; left|by right; right].
  - intros Hc. destruct Hcl as [-> ->]; [|done].
    intros s2 r Hr2. rewrite <- (Hc s2 r Hr2). by apply hk_accounts.
Qed.

(** The iteration was the last one. *)
Lemma iterated_last l o lv rest o' alive evs n s s1 s2 hit :
  facing o s = lv :: rest → matchable o lv.(lv_price) = true →
  derived_ok s.(derived) →
  iterated l o lv rest o' alive evs n s s1 → checked hit s1 s2 → (hit = true ∨ alive = false) →
  ∃ evs', matched l o o' alive evs' s s2.
Proof.
  intros Hf Hm Hd [Hi Ho Hx Hl Hb Hr Hs Ht He Hst Hcl] Hc Hend.
  assert (Hsc : session_change s1 s2 ∧ derived_ok s2.(derived) ∧
            ∃ evs2, s2.(trace) = s1.(trace) ++ evs2 ∧ Forall status_event evs2 ∧
              (hit = true → s1.(current_state) = LockLimit ∨ ¬ Forall quiet evs2) ∧
              (hit = false → s2 = s1)).
  { rewrite <- (ss_derived _ _ Hs) in Hd. destruct hit; cbn in Hc.
    - destruct Hc as (H1 & H2 & [H3|(evs2 & H3 & H4 & H5)]).
      + split_and!; [done|by apply H2|]. destruct H1 as [_ _ _ _ _ _ _ _ _ (evs2 & ? & ?)].
        exists evs2. split_and!; [done..|by left|done].
      + split_and!; [done|by apply H2|]. exists evs2. split_and!; [done..|by right|done].
    - subst s2. split_and!; [done|done|]. exists []. by rewrite app_nil_r. }
  destruct Hsc as (Hsc & Hd2 & evs2 & Ht2 & He2 & Hhit & Hnohit).
  pose proof (traded_status _ He2) as Hz.
  assert (Hf2 : facing o s2 = facing o s1).
  { unfold facing. destruct (o_side o); cbn; apply Hsc. }
  assert (Hnot : alive = true → Forall quiet (evs ++ evs2) → s.(current_state) ≠ LockLimit → False).
  { intros Ha [_ Hq]%Forall_app Hlock. rewrite <- (ss_state _ _ Hs) in Hlock.
    destruct Hend as [Hh|Hh]; [|congruence]. by destruct (Hhit Hh). }
  exists (evs ++ evs2). split.
  - by eapply inv_session.
  - rewrite traded_app, Hz, Z.add_0_r. done.
  - rewrite traded_app, Hz. lia.
  - etrans; [exact Hr|]. destruct Hsc. split; [|done..|done]. destruct (o_side o); done.
  - rewrite Hf2, Hf. by eapply left_level_shrinks.
  - by rewrite Ht2, Ht, app_assoc.
  - apply Forall_app. split.
    + eapply Forall_impl; [exact He|]. intros ev. by apply fill_match_event.
    + eapply Forall_impl; [exact He2|]. intros ev Hev. by apply status_match_event.
  - done.
  - intros [_ Hq]%Forall_app Hlock. rewrite <- (ss_state _ _ Hs) in Hlock |- *.
    destruct hit; [by destruct (Hhit eq_refl)|]. by rewrite Hnohit.
  - intros Ha Hq Hlock. destruct (Hnot Ha Hq Hlock).
  - intros Hclean _ Hq Hlock. destruct Hcl as [Ha _]; [|by destruct (Hnot Ha Hq Hlock)].
    apply Hclean. rewrite Hf. by left.
Qed.

Lemma level_total_nonneg sd lv : lv_ok (book_order sd) lv → 0 <= lv.(lv_total_quantity).
Proof.
  intros [_ _ -> Ho]. apply sum_by_nonneg. eapply Forall_impl; [exact Ho|].
  intros e (_ & _ & _ & _ & ?). lia.
Qed.

Lemma facing_totals fl o s : inv fl s → Forall (λ lv, 0 <= lv.(lv_total_quantity)) (facing o s).
Proof.
  intros H. pose proof (inv_sides fl s (OnBook (opposite o.(o_side))) H) as [_ Hl].
  eapply Forall_impl; [exact Hl|]. intros lv. apply level_total_nonneg.
Qed.

Lemma matchable_qty_nonneg o levels :
  Forall (λ lv, 0 <= lv.(lv_total_quantity)) levels → 0 <= matchable_qty o levels.
Proof. induction 1; cbn; [lia|]. case_if as E; lia. Qed.

Lemma matchable_qty_resized a b o levels :
  matchable_qty (resized a b o) levels = matchable_qty o levels.
Proof. induction levels as [|lv levels IH]; [done|]. cbn. by rewrite <- IH. Qed.

(** Another iteration follows. *)
Lemma iterated_next l o lv rest o1 evs1 n s s1 o2 alive evs2 s2 :
  facing o s = lv :: rest → matchable o lv.(lv_price) = true →
  iterated l o lv rest o1 true evs1 n s s1 → matched l o1 o2 alive evs2 s1 s2 →
  matched l o o2 alive (evs1 ++ evs2) s s2.
Proof.
  intros Hf Hm [Hi Ho Hx Hl Hb Hr Hs Ht He Hst Hcl]
    [Mi Mo Mx Mr Mf Mt Me Md Mst Mdone Mfull].
  assert (Hev : Forall quiet evs1) by (by eapply fill_event_quiet).
  subst o1. cbn [o_side o_filled_quantity o_remaining_quantity resized set_o_remaining_quantity
                 set_o_filled_quantity] in *.
  split; try done.
  - rewrite Mo. unfold resized, set_o_remaining_quantity, set_o_filled_quantity. cbn.
    rewrite traded_app. f_equal; lia.
  - rewrite traded_app. lia.
  - by etrans.
  - etrans; [|exact Mf]. rewrite Hf. by eapply left_level_shrinks.
  - by rewrite Mt, Ht, app_assoc.
  - apply Forall_app. split; [|done]. eapply Forall_impl; [exact He|].
    intros ev. by apply fill_match_event.
  - intros [_ Hq]%Forall_app Hlock. rewrite <- (ss_state _ _ Hs) in Hlock |- *. by apply Mst.
  - intros Ha [_ Hq]%Forall_app Hlock. rewrite <- (ss_state _ _ Hs) in Hlock. by apply Mdone.
  - intros Hclean Hq [_ Hqu]%Forall_app Hlock. rewrite <- (ss_state _ _ Hs) in Hlock.
    destruct Hcl as [_ Hx2]; [apply Hclean; rewrite Hf; by left|].
    apply Mfull; [| |done|done].
    + intros lv1 Hlv1 s3 r Hr3. unfold facing in Hlv1, Hclean, Hl.
      destruct (ds_levels _ _ (left_level_shrinks _ _ _ _ Hb Hl) lv1 Hlv1) as (lv0 & H0 & Hsh).
      rewrite <- (Hclean lv0) with (s := s3) (r := r).
      * by apply hk_accounts.
      * unfold facing in Hf. rewrite Hf. exact H0.
      * by apply (sh_accounts _ _ Hsh).
    + pose proof (facing_totals _ o _ Hi) as Htot. unfold compute_matchable_qty, facing in *.
      cbn [o_side resized set_o_remaining_quantity set_o_filled_quantity] in *.
      rewrite Hf in Hq. cbn in Hq. rewrite Hm in Hq.
      rewrite matchable_qty_resized.
      pose proof (matchable_qty_nonneg o _ Htot).
      destruct Hl as [Hl|(lv1 & Hl & Hsh & _)]; rewrite Hl in Htot |- *; [rewrite Hl in *; lia|].
      apply Forall_cons in Htot as [Ht1 _]. rewrite Hl in *. cbn in *.
      rewrite (sh_price _ _ Hsh), Hm in *. lia.
Qed.

(** Iterations needed: each one trades at least one unit or removes an order. *)
Definition loop_measure o s : nat :=
  (Z.to_nat o.(o_remaining_quantity) + length (entries (facing o s)))%nat.

Lemma iterated_measure l o lv rest o1 evs n s s1 :
  facing o s = lv :: rest → iterated l o lv rest o1 true evs n s s1 →
  lv.(lv_queue) ≠ [] → 0 < o.(o_remaining_quantity) →
  (loop_measure o1 s1 < loop_measure o s)%nat.
Proof.
  intros Hf [Hi Ho Hx Hl Hb _ _ _ _ Hst _] Hne Hpos. unfold loop_measure.
  assert (Hfo : facing o1 s1 = facing o s1) by (by subst o1).
  rewrite Hfo, Hf. assert (Hrem : o1.(o_remaining_quantity) = o.(o_remaining_quantity) - traded evs)
    by (by subst o1).
  rewrite Hrem, entries_cons, length_app.
  assert (0 < length (lv_queue lv))%nat by (destruct (lv_queue lv); [done|cbn; lia]).
  destruct Hl as [->|(lv' & -> & _ & Hlen)]; [lia|].
  rewrite entries_cons, length_app. destruct Hst as [?|[?|?]]; [lia|done|lia].
Qed.

Lemma wp_match_loop fuel l o ts s :
  inv [(l, o)] s → derived_ok s.(derived) → fits o s → (loop_measure o s <= fuel)%nat →
  wp (match_loop fuel l o ts) (λ res s', ∃ evs, matched l o res.1 res.2 evs s s') s.
Proof.
  revert o s. induction fuel as [|fuel IH]; intros o s Hi Hd Hfit Hfuel.
  all: cbn [match_loop]; destruct (o.(o_remaining_quantity) >? 0) eqn:Hpos; cbn [negb]; zbool;
    [|apply wp_ret; exists []; cbn [fst snd]; apply matched_stop; [done|done|by left]].
  all: apply wp_bind, wp_get; fold (facing o s); destruct (facing o s) as [|lv rest] eqn:Hf;
    [apply wp_ret; exists []; cbn [fst snd]; apply matched_stop; [done|done|right; unfold exhausted; by rewrite Hf]|].
  all: destruct (matchable o lv.(lv_price)) eqn:Hm; cbn [negb];
    [|apply wp_ret; exists []; cbn [fst snd]; apply matched_stop;
      [done|done|right; unfold exhausted; by rewrite Hf]].
  { unfold loop_measure in Hfuel. lia. }
  assert (Hlen : (length (lv_queue lv) <= kMaxFills)%nat) by (apply Hfit; rewrite Hf; by left).
  destruct (virtual_level_ok [(l, o)] (opposite o.(o_side)) lv rest s) as [Hok _].
  { unfold facing in Hf. by rewrite <- Hf, set_side_id. }
  assert (Htot : 0 < lv.(lv_total_quantity)).
  { destruct Hok as [Hne _ -> Ho]. apply sum_by_pos; [|done].
    eapply Forall_impl; [exact Ho|]. by intros e (_ & _ & _ & _ & ?). }
  apply wp_bind. eapply wp_match_level; [done|done|done|done|].
  intros fs s0 o0 Hp Hr Hs Ht Hsum. apply wp_bind.
  eapply wp_mono; [apply wp_process_fills; [exact Hp|by rewrite (ss_derived _ _ Hs)]|].
  intros [o1 alive] s1 (x & n & Hpc). cbn [fst snd] in Hpc.
  destruct (processed_iterated l o lv rest o1 alive x n fs s s0 s1) as [evs Hit];
    [lia|done|done|done|done|done|]. clear Hpc Hp.
  apply wp_bind. eapply wp_mono; [apply wp_check_daily_limit_hit|].
  intros hit s2 Hck. destruct hit.
  { apply wp_ret. eapply iterated_last; [done..|exact Hit|exact Hck|by left]. }
  cbn in Hck. subst s2. apply wp_bind.
  eapply wp_mono; [apply wp_check_volatility_interruption|].
  intros hit s2 Hck. destruct hit.
  { apply wp_ret. eapply iterated_last; [done..|exact Hit|exact Hck|by left]. }
  destruct alive.
  2:{ apply wp_ret. eapply iterated_last; [done..|exact Hit|exact Hck|by right]. }
  cbn in Hck. subst s2.
  pose proof (iterated_measure _ _ _ _ _ _ _ _ _ Hf Hit (lk_nonempty _ _ Hok) Hpos) as Hdec.
  eapply wp_mono; [apply IH|].
  - by destruct Hit.
  - destruct Hit as [_ _ _ _ _ _ Hs1 _ _ _ _]. by rewrite (ss_derived _ _ Hs1).
  - destruct Hit as [_ Ho _ Hl Hb _ _ _ _ _ _]. intros lv1 Hlv1.
    assert (Hfo : facing o1 s1 = facing o s1) by (by subst o1). rewrite Hfo in Hlv1.
    destruct (ds_levels _ _ (left_level_shrinks _ _ _ _ Hb Hl) lv1 Hlv1) as (lv0 & H0 & Hsh).
    pose proof (sh_length _ _ Hsh). assert (length (lv_queue lv0) <= kMaxFills)%nat; [|lia].
    apply Hfit. by rewrite Hf.
  - lia.
  - intros [o2 alive] s2 (evs2 & Hm2). exists (evs ++ evs2). by eapply iterated_next.
Qed.

(** *** The whole of [match_order] *)

(** The order was appended to its side of the book. *)
Definition rests l o s s' : Prop :=
  ∃ slot v new, insert_order (book_before o.(o_side)) (l, o) slot (side_levels o.(o_side) s) = (v, new)
    ∧ side_levels o.(o_side) s' = v.

(** May a remainder of the order rest? *)
Definition can_rest o : Prop :=
  o.(o_type) ≠ Market ∧ o.(o_tif) ≠ IOC ∧ o.(o_tif) ≠ FOK.

(** The end of an order's matching: it left the engine, or it rests. *)
Record settled l o s s' : Prop := {
  st_inv : inv [] s';
  st_facing : facing o s' = facing o s;
  st_buy_stops : s'.(buy_stops) = s.(buy_stops);
  st_sell_stops : s'.(sell_stops) = s.(sell_stops);
  st_next : s'.(next_order_id) = s.(next_order_id);
  st_session : same_session s s';
  st_own : side_levels o.(o_side) s' = side_levels o.(o_side) s ∨
           (can_rest o ∧ rests l o s s' ∧ 0 < o.(o_remaining_quantity));
  st_trace : ∃ evs, s'.(trace) = s.(trace) ++ evs ∧ traded evs = 0 ∧
                    Forall (match_event o) evs ∧ Forall quiet evs
}.

Lemma mute_events o evs :
  Forall mute evs → traded evs = 0 ∧ Forall (match_event o) evs ∧ Forall quiet evs.
Proof.
  intros H. split_and!; [by apply traded_mute| |]; (eapply Forall_impl; [exact H|]);
    by intros [].
Qed.

(** The order is dropped, with or without a cancellation event. *)
Lemma settled_gone l o evs s s' :
  inv [] s' →
  (s'.(bids), s'.(asks), s'.(buy_stops), s'.(sell_stops), s'.(next_order_id))
    = (s.(bids), s.(asks), s.(buy_stops), s.(sell_stops), s.(next_order_id)) →
  same_session s s' → s'.(trace) = s.(trace) ++ evs →
  Forall (λ ev, mute ev ∨ ∃ id ts reason, ev = OrderCancelled id ts reason) evs →
  settled l o s s'.
Proof.
  intros Hi [= E1 E2 E3 E4 E5] Hs Ht He. split; try done.
  - unfold facing. destruct (o_side o); done.
  - left. destruct (o_side o); done.
  - exists evs. split_and!; [done| | |].
    + clear -He. unfold traded. induction He as [|ev evs [Hm|(id & ts & r & ->)] _ IH]; cbn; [done| |done].
      by destruct ev.
    + eapply Forall_impl; [exact He|]. intros ev [Hm|(id & ts & r & ->)]; [by destruct ev|done].
    + eapply Forall_impl; [exact He|]. intros ev [Hm|(id & ts & r & ->)]; [by destruct ev|done].
Qed.

Lemma mute_or_cancel evs :
  Forall mute evs → Forall (λ ev, mute ev ∨ ∃ id ts reason, ev = OrderCancelled id ts reason) evs.
Proof. intros H. eapply Forall_impl; [exact H|]. by left. Qed.

Lemma wp_drop_and_fire l o ts reason ob oa s :
  inv [(l, o)] s →
  wp (drop_order (l, o) ts reason ;; fire_top_of_book_if_changed ts ob oa)
    (λ _ s', settled l o s s') s.
Proof.
  intros Hi. apply wp_bind. eapply wp_drop_order; [exact Hi|]. intros s1 Hi1 ->.
  apply wp_fire_top_of_book_if_changed. intros evs He.
  eapply settled_gone; [exact Hi1|done|done|cbn; by rewrite <- app_assoc|].
  constructor; [right; eauto|]. by apply mute_or_cancel.
Qed.

Lemma wp_post_match l o ts ob oa s :
  inv [(l, o)] s → 0 <= o.(o_remaining_quantity) →
  (o.(o_type) = Market ∨ o.(o_type) = Limit ∧ 0 < o.(o_price)) →
  wp (post_match (l, o) ts ob oa) (λ _ s', settled l o s s') s.
Proof.
  intros Hi Hpos Hty. unfold post_match. cbn [snd]. case_if as Hz; zbool.
  { unfold index_clear, deallocate_order. wp_steps.
    apply wp_fire_top_of_book_if_changed. intros evs He.
    eapply settled_gone; [exact (inv_drop (l, o) (l, o) [] s Hi eq_refl)|done|done|done|].
    by apply mute_or_cancel. }
  case_if as Hm; zbool; [by apply wp_drop_and_fire|].
  case_if as Hioc; zbool; [by apply wp_drop_and_fire|].
  case_if as Hfok; zbool; [by apply wp_drop_and_fire|].
  destruct Hty as [?|[Hlim Hprice]]; [done|].
  apply wp_bind. eapply wp_insert_into_book; [exact Hi| | |].
  - cbn. split_and!; try done. lia.
  - intros _ Hi'. apply wp_fire_top_of_book. intros ev Hev.
    eapply settled_gone; [exact Hi'|done|done|cbn; by rewrite <- app_assoc|].
    constructor; [right; eauto|]. constructor; [by left|done].
  - intros slot lf v new evs s' _ Hins He Hs' Hi'. apply wp_fire_top_of_book. intros ev Hev.
    cbn [snd] in Hins, Hs'. subst s'. split.
    + exact Hi'.
    + unfold facing. by destruct (o_side o).
    + by destruct (o_side o).
    + by destruct (o_side o).
    + by destruct (o_side o).
    + by destruct (o_side o).
    + right. split_and!; [done| |lia]. exists slot, v, new. split; [done|].
      by destruct (o_side o).
    + exists (evs ++ [ev]). split; [cbn; by rewrite trace_set_side, app_assoc|].
      apply mute_events. apply Forall_app. split; [done|by constructor].
Qed.

(** The outcome of [match_order] for the order [o] at [l]. *)
Record executed l o evs s s' : Prop := {
  ex_inv : inv [] s';
  ex_facing : side_shrinks (facing o s) (facing o s');
  ex_own : side_levels o.(o_side) s' = side_levels o.(o_side) s ∨
           ∃ o', o' = resized (o.(o_filled_quantity) + traded evs)
                        (o.(o_remaining_quantity) - traded evs) o ∧
                 can_rest o ∧ rests l o' s s' ∧ 0 < o'.(o_remaining_quantity) ∧
                 (Forall quiet evs → s.(current_state) ≠ LockLimit → exhausted o s');
  ex_buy_stops : s'.(buy_stops) = s.(buy_stops);
  ex_sell_stops : s'.(sell_stops) = s.(sell_stops);
  ex_next : s'.(next_order_id) = s.(next_order_id);
  ex_derived : derived_ok s'.(derived);
  ex_state : Forall quiet evs → s.(current_state) ≠ LockLimit →
             s'.(current_state) = s.(current_state);
  ex_trace : s'.(trace) = s.(trace) ++ evs;
  ex_events : Forall (match_event o) evs;
  ex_traded : 0 <= traded evs <= o.(o_remaining_quantity);
  ex_fok : o.(o_tif) = FOK → (∀ lv, lv ∈ facing o s → clean o lv) →
           Forall quiet evs → s.(current_state) ≠ LockLimit →
           traded evs = 0 ∧ facing o s' = facing o s ∨ traded evs = o.(o_remaining_quantity)
}.

(** Orders [match_order] is called with. *)
Definition matchable_order o : Prop :=
  0 < o.(o_remaining_quantity) ∧
  (o.(o_type) = Market ∨ o.(o_type) = Limit ∧ 0 < o.(o_price)).

(** Nothing was traded. *)
Lemma settled_executed l o s s' :
  derived_ok s.(derived) → 0 < o.(o_remaining_quantity) → ¬ can_rest o →
  settled l o s s' → ∃ evs, executed l o evs s s'.
Proof.
  intros Hd Hpos Hno [Hi Hf H1 H2 H3 Hs Hown (evs & Ht & Hz & He & Hq)]. exists evs. split; try done.
  - by rewrite Hf.
  - destruct Hown as [?|(? & _)]; [by left|done].
  - by rewrite (ss_derived _ _ Hs).
  - intros _ _. apply Hs.
  - lia.
  - intros _ _ _ _. by left.
Qed.

Lemma rests_resized l o s s1 s' :
  same_rest o.(o_side) s s1 → rests l o s1 s' → rests l o s s'.
Proof.
  intros Hr (slot & v & new & Hi & Hv). rewrite (sr_own _ _ _ Hr) in Hi. by exists slot, v, new.
Qed.

(** The loop, then [post_match]. *)
Lemma matched_settled l o o' evs s s1 s' :
  matchable_order o → matched l o o' true evs s s1 → settled l o' s1 s' →
  (o.(o_tif) = FOK → o.(o_remaining_quantity) <= compute_matchable_qty o s) →
  ∃ evs', executed l o evs' s s'.
Proof.
  intros [Hpos Hty] [Mi Mo Mx Mr Mf Mt Me Md Mst Mdone Mfull]
    [Hi Hf H1 H2 H3 Hs Hown (evs2 & Ht & Hz & He & Hq)] Hfok.
  exists (evs ++ evs2). assert (Htr : traded (evs ++ evs2) = traded evs) by (rewrite traded_app; lia).
  assert (Hrem : o'.(o_remaining_quantity) = o.(o_remaining_quantity) - traded evs) by (by subst o').
  assert (Hfac : ∀ s2, facing o' s2 = facing o s2) by (by subst o').
  rewrite !Hfac in Hf. destruct Mr as [R1 R2 R3 R4]. split; try done.
  - by rewrite Hf.
  - rewrite Htr. assert (Hside : o_side o' = o_side o) by (by subst o'). rewrite Hside in Hown.
    destruct Hown as [Hown|(Hcan & Hrest & Hp)]; [left; congruence|]. right. exists o'.
    split_and!; [done|by subst o'| |lia|].
    + eapply rests_resized; [|exact Hrest]. rewrite Hside. by split.
    + intros [Hq1 _]%Forall_app Hlock. destruct (Mdone eq_refl Hq1 Hlock) as [?|Hex]; [lia|].
      unfold exhausted in *. by rewrite Hf.
  - congruence.
  - congruence.
  - congruence.
  - by rewrite (ss_derived _ _ Hs).
  - intros [Hq1 _]%Forall_app Hlock. rewrite (ss_state _ _ Hs). by apply Mst.
  - by rewrite Ht, Mt, app_assoc.
  - apply Forall_app. split; [done|]. eapply Forall_impl; [exact He|].
    intros ev. subst o'. by destruct ev.
  - lia.
  - intros Htif Hclean [Hq1 _]%Forall_app Hlock. right. rewrite Htr.
    destruct (Mfull Hclean (Hfok Htif) Hq1 Hlock) as [_ Hle]. lia.
Qed.

(** The aggressor was cancelled by self-match prevention. *)
Lemma matched_cancelled l o o' evs ts ob oa s s1 :
  matchable_order o → matched l o o' false evs s s1 →
  (o.(o_tif) = FOK → o.(o_remaining_quantity) <= compute_matchable_qty o s) →
  wp (fire_top_of_book_if_changed ts ob oa) (λ _ s', ∃ evs', executed l o evs' s s') s1.
Proof.
  intros [Hpos Hty] [Mi Mo Mx Mr Mf Mt Me Md Mst Mdone Mfull] Hfok.
  apply wp_fire_top_of_book_if_changed. intros evs2 Hm.
  destruct (mute_events o evs2 Hm) as (Hz & He & Hq).
  exists (evs ++ evs2). destruct Mr as [R1 R2 R3 R4]. split; try done.
  - by left.
  - intros [Hq1 _]%Forall_app Hlock. by apply Mst.
  - cbn. by rewrite Mt, app_assoc.
  - by apply Forall_app.
  - rewrite traded_app. lia.
  - intros Htif Hclean [Hq1 _]%Forall_app Hlock.
    by destruct (Mfull Hclean (Hfok Htif) Hq1 Hlock) as [? _].
Qed.

Lemma wp_match_order fuel l o ts s :
  inv [(l, o)] s → derived_ok s.(derived) → matchable_order o → fits o s →
  (loop_measure o s <= fuel)%nat →
  wp (match_order fuel (l, o) ts) (λ _ s', ∃ evs, executed l o evs s s') s.
Proof.
  intros Hi Hd Hok Hfit Hfuel. unfold match_order. cbn [fst snd]. apply wp_bind, wp_get.
  case_if as Hpre; zbool.
  { eapply wp_mono; [by apply wp_drop_and_fire|]. intros [] s' Hset.
    eapply settled_executed; [done|apply Hok|by intros (_ & _ & ?)|done]. }
  assert (Hfok : o.(o_tif) = FOK → o.(o_remaining_quantity) <= compute_matchable_qty o s).
  { intros Htif. rewrite bool_decide_eq_true_2 in Hpre by done. cbn in Hpre. by zbool. }
  apply wp_bind. eapply wp_mono; [by apply wp_match_loop|].
  intros [o' alive] s1 (evs & Hm). cbn [fst snd] in Hm. destruct alive.
  - eapply wp_mono; [apply wp_post_match|].
    + apply Hm.
    + destruct Hm as [_ -> Hx _ _ _ _ _ _ _ _]. cbn. destruct Hok. lia.
    + destruct Hm as [_ -> _ _ _ _ _ _ _ _ _]. apply Hok.
    + intros [] s' Hset. by eapply matched_settled.
  - by eapply matched_cancelled.
Qed.
End loop.
