(* ===== verification/EngineOrders.v ===== *)
(** * Order entry

    The stop cascade and [new_order]: bounds that keep the engine's fixed-size
    arrays and loops sufficient, safety and termination, and the uncrossed
    book. *)

From S2P Require Import Prelude Types MatchAlgo MatchAlgoFacts Books Trackers Engine.
From S2P Require Import EngineInvariant EngineRules EngineFills EngineMatch.
From S2P Require Import EngineLoop.

(** ** Insertion into a side *)

Lemma insert_order_lengths before e slot levels v new lv :
  insert_order before e slot levels = (v, new) → lv ∈ v →
  (length (lv_queue lv) <= 1)%nat ∨
  ∃ lv0, lv0 ∈ levels ∧ (length (lv_queue lv) <= length (lv_queue lv0) + 1)%nat.
Proof.
  unfold insert_order. intros Hi Hlv.
  assert (Happ : ∀ price ls, lv ∈ at_level price (append_order e) ls →
    ∃ lv0, lv0 ∈ ls ∧ (lv = lv0 ∨ lv = append_order e lv0)).
  { intros price ls. induction ls as [|lv0 ls IH]; cbn; [intros H; inversion H|].
    case_if as E; intros [->|H]%elem_of_cons.
    - exists lv0. split; [by left|by right].
    - exists lv. split; [by right|by left].
    - exists lv0. split; [by left|by left].
    - destruct (IH H) as (lv1 & ? & ?). exists lv1. split; [by right|done]. }
  assert (Hlen : ∀ lv0, length (lv_queue (append_order e lv0)) = (length (lv_queue lv0) + 1)%nat).
  { intros lv0. cbn. by rewrite length_app. }
  destruct (find_level _ levels) as [lv1|]; injection Hi as <- <-;
    apply Happ in Hlv as (lv0 & H0 & H1).
  - right. exists lv0. split; [done|]. destruct H1 as [->| ->]; rewrite ?Hlen; lia.
  - apply (elem_of_perm _ _ _ (link_level_perm _ _ _)), elem_of_cons in H0 as [->|H0].
    + left. destruct H1 as [->| ->]; rewrite ?Hlen; cbn; lia.
    + right. exists lv0. split; [done|]. destruct H1 as [->| ->]; rewrite ?Hlen; lia.
Qed.

Lemma insert_order_count before e slot levels v new :
  insert_order before e slot levels = (v, new) → length (entries v) = S (length (entries levels)).
Proof.
  intros Hi. apply insert_order_keys in Hi. apply Permutation_length in Hi.
  unfold keys in Hi. cbn in Hi. rewrite !length_fmap in Hi. exact Hi.
Qed.

Section orders.
Context {D : Type} {params : EngineParams} {hooks : Hooks D} {algo : MatchAlgorithm}.
Context {hooks_ok : HooksOk D}.
Implicit Types (s : engine D) (ts : Timestamp) (l : loc) (o : Order) (evs : list event).

(** ** Resource bounds *)

Definition stop_count s : nat := length (entries s.(buy_stops)) + length (entries s.(sell_stops)).

(** With [k] orders on their way, no level can outgrow the fill array even
    if every parked stop ends up in it. *)
Definition depth_ok (k : nat) s : Prop :=
  (k + stop_count s <= kMaxFills)%nat ∧
  ∀ lv, lv ∈ s.(bids) ++ s.(asks) → (length (lv_queue lv) + k + stop_count s <= kMaxFills)%nat.

Definition remaining_of (levels : list PriceLevel) : Z :=
  sum_by (λ e : entry, Z.max 0 e.2.(o_remaining_quantity)) (entries levels).

(** A bound on the iterations of every loop of one request. *)
Definition budget s : nat :=
  (Z.to_nat (remaining_of s.(buy_stops) + remaining_of s.(sell_stops))
   + length (all_entries s))%nat.

Lemma all_entries_length s :
  length (all_entries s) = (length (entries s.(bids)) + length (entries s.(asks)) + stop_count s)%nat.
Proof. unfold all_entries, stop_count. rewrite !length_app. lia. Qed.

Lemma remaining_of_nonneg levels : 0 <= remaining_of levels.
Proof. apply sum_by_nonneg, Forall_forall. intros. lia. Qed.

(** *** What matching does to the bounds *)

Lemma depth_fits o k s : depth_ok k s → fits o s.
Proof.
  intros [_ Hd] lv Hlv. assert (lv ∈ s.(bids) ++ s.(asks)) as H%Hd; [|lia].
  rewrite elem_of_app. unfold facing in Hlv. destruct (o_side o); cbn in Hlv; auto.
Qed.

Lemma executed_depth l o evs s s' :
  executed l o evs s s' → depth_ok 1 s → depth_ok 0 s'.
Proof.
  intros [_ [_ Hf _] Hown E1 E2 _ _ _ _ _ _ _] [Hk Hd].
  assert (Hc : stop_count s' = stop_count s) by (unfold stop_count; by rewrite E1, E2).
  split; [rewrite Hc; lia|]. rewrite Hc.
  assert (Hfac : ∀ lv, lv ∈ facing o s' → (length (lv_queue lv) + 0 + stop_count s <= kMaxFills)%nat).
  { intros lv Hlv. destruct (Hf lv Hlv) as (lv0 & H0 & Hs). pose proof (sh_length _ _ Hs).
    assert (H1 : lv0 ∈ s.(bids) ++ s.(asks)).
    { rewrite elem_of_app. unfold facing in H0. destruct (o_side o); cbn in H0; auto. }
    specialize (Hd _ H1). lia. }
  assert (Hme : ∀ lv, lv ∈ side_levels o.(o_side) s' →
            (length (lv_queue lv) + 0 + stop_count s <= kMaxFills)%nat).
  { assert (Hold : ∀ lv, lv ∈ side_levels o.(o_side) s →
              (length (lv_queue lv) + 1 + stop_count s <= kMaxFills)%nat).
    { intros lv Hlv. apply Hd. rewrite elem_of_app. destruct (o_side o); cbn in Hlv; auto. }
    intros lv Hlv. destruct Hown as [Heq|(o' & Ho' & _ & (slot & v & new & Hi & Hv) & _)].
    - rewrite Heq in Hlv. specialize (Hold _ Hlv). lia.
    - assert (Hside : o_side o' = o_side o) by (by subst o'). rewrite Hside in *.
      rewrite Hv in Hlv. destruct (insert_order_lengths _ _ _ _ _ _ _ Hi Hlv) as [?|(lv0 & H0 & ?)].
      + lia.
      + specialize (Hold _ H0). lia. }
  intros lv. rewrite elem_of_app. unfold facing in Hfac.
  destruct (o_side o); cbn in *; intros [?|?]; auto.
Qed.

Lemma executed_budget l o evs s s' : executed l o evs s s' → (budget s' <= budget s + 1)%nat.
Proof.
  intros [_ [_ _ Hf] Hown E1 E2 _ _ _ _ _ _ _]. unfold budget.
  rewrite !all_entries_length, E1, E2. unfold stop_count. rewrite E1, E2.
  assert (Hme : (length (entries (side_levels o.(o_side) s'))
                 <= length (entries (side_levels o.(o_side) s)) + 1)%nat).
  { destruct Hown as [->|(o' & Ho' & _ & (slot & v & new & Hi & Hv) & _)]; [lia|].
    assert (Hside : o_side o' = o_side o) by (by subst o'). rewrite Hside in *.
    rewrite Hv, (insert_order_count _ _ _ _ _ _ Hi). lia. }
  unfold facing in Hf. destruct (o_side o); cbn in *; lia.
Qed.

(** ** The uncrossed book *)

(** Every bid is below every ask. *)
Definition uncrossed s : Prop :=
  ∀ bid ask, bid ∈ prices s.(bids) → ask ∈ prices s.(asks) → bid < ask.

(** With nothing left to trade with, the order's price is on its own side of
    every opposite price. *)
Lemma exhausted_prices fl o s p :
  inv fl s → o.(o_type) = Limit → exhausted o s → p ∈ prices (facing o s) →
  match o.(o_side) with Buy => o.(o_price) < p | Sell => p < o.(o_price) end.
Proof.
  intros Hi Hty Hex Hp. pose proof (inv_sides fl s (OnBook (opposite o.(o_side))) Hi) as [Hs _].
  unfold exhausted in Hex. cbn in Hs. fold (facing o s) in Hs.
  destruct (facing o s) as [|lv rest]; [inversion Hp|].
  apply (sorted_head _ lv rest p Hs) in Hp. unfold matchable in Hex. rewrite Hty in Hex.
  destruct (o_side o); cbn in *; unfold higher_first, lower_first in Hp;
    destruct Hp as [->|Hp]; zbool; lia.
Qed.

Lemma executed_uncrossed l o evs s s' :
  executed l o evs s s' → matchable_order o → Forall quiet evs → s.(current_state) ≠ LockLimit →
  uncrossed s → uncrossed s'.
Proof.
  intros [Hi [Hp _ _] Hown _ _ _ _ _ _ _ _ _] [_ Hty] Hq Hlock Hun.
  assert (Hf : ∀ p, p ∈ prices (facing o s') → p ∈ prices (facing o s)).
  { intros p Hin. by eapply elem_of_sublist. }
  assert (Hme : ∀ p q, p ∈ prices (side_levels o.(o_side) s') → q ∈ prices (facing o s') →
            match o.(o_side) with Buy => p < q | Sell => q < p end).
  { assert (Hold : ∀ p q, p ∈ prices (side_levels o.(o_side) s) → q ∈ prices (facing o s') →
              match o.(o_side) with Buy => p < q | Sell => q < p end).
    { intros p q Hp' Hq'. apply Hf in Hq'. unfold facing in Hq'.
      destruct (o_side o); cbn in *; by apply Hun. }
    intros p q Hp' Hq'.
    destruct Hown as [Heq|(o' & Ho' & Hcan & (slot & v & new & Hins & Hv) & _ & Hex)].
    - rewrite Heq in Hp'. by apply Hold.
    - assert (Hside : o_side o' = o_side o) by (by subst o').
      assert (Hprice : o_price o' = o_price o) by (by subst o'). rewrite Hside in *.
      destruct Hty as [Hm|[Hlim _]]; [by destruct Hcan|].
      destruct (insert_order_prices _ _ _ _ _ _ Hins) as [_ Hperm]. cbn in Hperm.
      rewrite Hv in Hp'. apply (elem_of_perm _ _ _ Hperm) in Hp'.
      assert (p = o_price o ∨ p ∈ prices (side_levels o.(o_side) s)) as [->|?].
      { destruct new; [|by right]. rewrite Hprice in Hp'. by apply elem_of_cons in Hp'. }
      + by apply (exhausted_prices [] o s'); auto.
      + by apply Hold. }
  intros bid ask Hb Ha. unfold facing in Hme. destruct (o_side o); cbn in *.
  - by apply (Hme bid ask).
  - by apply (Hme ask bid).
Qed.

(** ** The stop cascade *)

(** Events that belong to orders already accepted. *)
Definition ongoing (ev : event) : Prop :=
  match ev with OrderAccepted _ _ _ | OrderRejected _ _ _ => False | _ => True end.

(** The engine worked on accepted orders and is idle again. *)
Record flows evs s s' : Prop := {
  fw_inv : inv [] s';
  fw_derived : derived_ok s'.(derived);
  fw_depth : depth_ok 0 s';
  fw_next : s'.(next_order_id) = s.(next_order_id);
  fw_trace : s'.(trace) = s.(trace) ++ evs;
  fw_events : Forall ongoing evs;
  fw_state : Forall quiet evs → s.(current_state) ≠ LockLimit →
             s'.(current_state) = s.(current_state);
  fw_uncrossed : Forall quiet evs → s.(current_state) ≠ LockLimit → uncrossed s → uncrossed s'
}.

Lemma flows_refl s : inv [] s → derived_ok s.(derived) → depth_ok 0 s → flows [] s s.
Proof. intros. split; try done. by rewrite app_nil_r. Qed.

Lemma flows_trans evs1 evs2 s1 s2 s3 :
  flows evs1 s1 s2 → flows evs2 s2 s3 → flows (evs1 ++ evs2) s1 s3.
Proof.
  intros [A1 B1 C1 D1 E1 F1 G1 H1] [A2 B2 C2 D2 E2 F2 G2 H2]. split; try done.
  - congruence.
  - by rewrite E2, E1, app_assoc.
  - by apply Forall_app.
  - intros [Q1 Q2]%Forall_app Hl. rewrite G2 by (done || by rewrite G1). by apply G1.
  - intros [Q1 Q2]%Forall_app Hl Hu. apply H2; [done|by rewrite G1|by apply H1].
Qed.

Lemma executed_flows l o evs s s' :
  executed l o evs s s' → matchable_order o → depth_ok 1 s → flows evs s s'.
Proof.
  intros He Ho Hd. pose proof (executed_depth _ _ _ _ _ He Hd).
  pose proof (executed_uncrossed _ _ _ _ _ He Ho). destruct He. split; auto.
  eapply Forall_impl; [eassumption|]. by intros [].
Qed.

(** *** One triggered stop *)

Lemma level_head_key levels l :
  level_head levels = Some l → ∃ id, (l, id) ∈ keys levels.
Proof.
  destruct levels as [|lv levels]; cbn; [done|]. destruct (lv_queue lv) as [|e q] eqn:E; [done|].
  intros [= <-]. exists e.2.(o_id). rewrite keys_cons, E. by left.
Qed.

Lemma triggered_stop last l s :
  inv [] s → next_triggered_stop last s = Some l →
  ∃ side o lv v freed, remove_order l (stop_levels side s) = Some (v, o, freed) ∧
    find_order l (stop_levels side s) = Some (o, lv) ∧ stop_order side lv.(lv_price) o ∧
    should_trigger_stop last o lv = true.
Proof.
  intros Hi Hn.
  assert (Hs : ∃ side, level_head (stop_levels side s) = Some l ∧
     match stop_levels side s with
     | lv :: _ => match side with Buy => last >=? lv.(lv_price) | Sell => last <=? lv.(lv_price) end
     | [] => false
     end = true).
  { unfold next_triggered_stop in Hn.
    destruct (match s.(buy_stops) with lv :: _ => _ | [] => _ end) eqn:E1; [exists Buy; done|].
    destruct (match s.(sell_stops) with lv :: _ => _ | [] => _ end) eqn:E2; [exists Sell; done|done]. }
  destruct Hs as (side & Hh & Htrig).
  destruct (level_head_key _ _ Hh) as [id Hid].
  destruct (inv_find (OnStop side) [] s l id Hi Hid) as (o & lv & v & freed & Hf & _ & Hr & _ & HP).
  exists side, o, lv, v, freed. split_and!; try done.
  assert (lv = hd lv (stop_levels side s)) as Hlv.
  { cbn in Hf. destruct (stop_levels side s) as [|lv0 rest]; [done|]. cbn in *.
    destruct (lv_queue lv0) as [|e q]; [done|]. cbn in Hf. injection Hh as <-.
    destruct e as [k o']. cbn in Hf. rewrite Nat.eqb_refl in Hf. congruence. }
  unfold should_trigger_stop. destruct HP as (-> & _).
  destruct (stop_levels side s) as [|lv0 rest]; [done|]. cbn in Hlv. subst lv0. done.
Qed.

Lemma stop_converted side p o :
  stop_order side p o → matchable_order (convert_stop o) ∧
    (convert_stop o).(o_id) = o.(o_id) ∧ (convert_stop o).(o_side) = side ∧
    (convert_stop o).(o_remaining_quantity) = o.(o_remaining_quantity).
Proof.
  intros (Hs & Hty & Hpos & Hprice). unfold convert_stop, matchable_order, is_stop in *.
  case_if as E; zbool; cbn; [split_and!; auto|].
  apply orb_true_iff in Hty as [?|?]; zbool; [done|]. split_and!; auto.
Qed.

(** Bounds after taking a stop order out of the stop book. *)
Lemma stop_taken side l v o freed s :
  inv [] s → remove_order l (stop_levels side s) = Some (v, o, freed) →
  depth_ok 0 s → 0 < o.(o_remaining_quantity) →
  let s1 := set_level_free (freed_slots freed ++ s.(level_free)) (set_stop_levels side v s) in
  depth_ok 1 s1 ∧ S (stop_count s1) = stop_count s ∧
  (budget s1 + 1 + Z.to_nat o.(o_remaining_quantity) = budget s)%nat.
Proof.
  intros Hi Hr [Hk Hd] Hpos s1.
  destruct (inv_sides [] s (OnStop side) Hi) as [_ Hok].
  pose proof (remove_order_entries _ _ _ _ _ _ Hok Hr) as Hp.
  assert (Hcount : S (stop_count s1) = stop_count s).
  { apply Permutation_length in Hp. cbn in Hp. unfold stop_count, s1. destruct side; cbn in *; lia. }
  split_and!; [|done|].
  - split; [lia|]. intros lv Hlv.
    assert (Hold : lv ∈ s.(bids) ++ s.(asks)) by (by destruct side). specialize (Hd lv Hold). lia.
  - assert (Hrem : remaining_of (stop_levels side s) = remaining_of v + o.(o_remaining_quantity)).
    { unfold remaining_of. cbn in Hp. rewrite Hp. cbn. lia. }
    unfold budget. rewrite !all_entries_length.
    pose proof (remaining_of_nonneg v).
    assert (Hs1 : entries s1.(bids) = entries s.(bids) ∧ entries s1.(asks) = entries s.(asks))
      by (by destruct side). destruct Hs1 as [-> ->].
    pose proof (remaining_of_nonneg s.(buy_stops)). pose proof (remaining_of_nonneg s.(sell_stops)).
    destruct side; cbn in *; lia.
Qed.

Lemma stop_remaining side l v o freed s :
  inv [] s → remove_order l (stop_levels side s) = Some (v, o, freed) →
  0 < o.(o_remaining_quantity) →
  (Z.to_nat o.(o_remaining_quantity) + length (entries s.(bids)) + length (entries s.(asks))
   <= budget s)%nat.
Proof.
  intros Hi Hr Hpos. destruct (inv_sides [] s (OnStop side) Hi) as [_ Hok].
  pose proof (remove_order_entries _ _ _ _ _ _ Hok Hr) as Hp. cbn in Hp.
  assert (Hrem : o.(o_remaining_quantity) <= remaining_of (stop_levels side s)).
  { unfold remaining_of. rewrite Hp. cbn. pose proof (remaining_of_nonneg v) as Hv.
    unfold remaining_of in Hv. lia. }
  unfold budget. rewrite all_entries_length.
  pose proof (remaining_of_nonneg s.(buy_stops)). pose proof (remaining_of_nonneg s.(sell_stops)).
  destruct side; cbn in *; lia.
Qed.

Lemma wp_trigger_one mfuel side l v o lv freed ts s :
  inv [] s → derived_ok s.(derived) → depth_ok 0 s → (budget s <= mfuel)%nat →
  remove_order l (stop_levels side s) = Some (v, o, freed) → stop_order side lv.(lv_price) o →
  wp ('(o, freed) ← stop_remove l;
      deallocate_if_freed freed ;;
      match_order mfuel (l, convert_stop o) ts)
    (λ _ s', ∃ evs, flows evs s s' ∧ S (stop_count s') = stop_count s ∧
                    (budget s' <= budget s)%nat) s.
Proof.
  intros Hi Hd Hdep Hb Hr HP. pose proof HP as (_ & _ & Hpos & _).
  destruct (stop_converted _ _ _ HP) as (Hm & Hid & Hside & Hrem).
  destruct (stop_taken _ _ _ _ _ _ Hi Hr Hdep Hpos) as (Hdep1 & Hc1 & Hb1).
  pose proof (stop_remaining _ _ _ _ _ _ Hi Hr Hpos) as Hloop.
  pose proof (inv_detach (OnStop side) l v o (convert_stop o) freed [] s Hi Hr Hid) as Hi1.
  cbn in Hi1. apply wp_bind. eapply (wp_stop_remove side); [exact Hi|exact Hr|].
  apply wp_bind, wp_deallocate_if_freed.
  match goal with |- wp _ _ ?st => set (s1 := st) end.
  assert (Hs1 : s1 = set_level_free (freed_slots freed ++ s.(level_free)) (set_stop_levels side v s))
    by (unfold s1; by destruct side).
  rewrite <- Hs1 in *. clearbody s1.
  assert (Hsame : s1.(bids) = s.(bids) ∧ s1.(asks) = s.(asks) ∧ s1.(trace) = s.(trace) ∧
            s1.(current_state) = s.(current_state) ∧ s1.(next_order_id) = s.(next_order_id) ∧
            s1.(derived) = s.(derived)) by (subst s1; by destruct side).
  destruct Hsame as (E1 & E2 & E3 & E4 & E5 & E6).
  eapply wp_mono; [apply wp_match_order|].
  - exact Hi1.
  - by rewrite E6.
  - done.
  - by eapply depth_fits.
  - unfold loop_measure. rewrite Hrem. unfold facing. rewrite Hside.
    destruct side; cbn; rewrite ?E1, ?E2; lia.
  - intros [] s2 [evs Hex]. exists evs. pose proof (executed_budget _ _ _ _ _ Hex).
    pose proof (executed_flows _ _ _ _ _ Hex Hm Hdep1) as [F1 F2 F3 F4 F5 F6 F7 F8].
    split_and!.
    + split; try done.
      * congruence.
      * by rewrite F5, E3.
      * by rewrite <- E4.
      * rewrite <- E4. intros ? ? Hu. apply F8; [done|done|]. unfold uncrossed. by rewrite E1, E2.
    + destruct Hex as [_ _ _ S1 S2 _ _ _ _ _ _ _]. unfold stop_count in *. by rewrite S1, S2.
    + lia.
Qed.

(** No parked stop is triggered by the last trade. *)
Definition no_stop_due s : Prop :=
  (s.(last_trade_price) >? 0) && has_triggered_stops s.(last_trade_price) s = false.

Lemma level_head_some b lv rest s :
  inv [] s → levels_of b s = lv :: rest → level_head (lv :: rest) ≠ None.
Proof.
  intros Hi Hl. destruct (inv_sides [] s b Hi) as [_ Hok]. rewrite Hl in Hok.
  apply Forall_cons in Hok as [[Hne _ _ _] _]. cbn. by destruct (lv_queue lv).
Qed.

Lemma triggered_exists last s :
  inv [] s → has_triggered_stops last s = true → next_triggered_stop last s ≠ None.
Proof.
  intros Hi Ht. unfold has_triggered_stops, next_triggered_stop in *.
  destruct (s.(buy_stops)) as [|lb rb] eqn:Eb.
  - cbn in Ht. rewrite Ht. destruct (s.(sell_stops)) as [|ls rs] eqn:Es; [done|].
    by eapply (level_head_some (OnStop Sell)).
  - case_if as E; [by eapply (level_head_some (OnStop Buy))|]. cbn in Ht. rewrite Ht.
    destruct (s.(sell_stops)) as [|ls rs] eqn:Es; [done|].
    by eapply (level_head_some (OnStop Sell)).
Qed.

Lemma wp_check_and_trigger_stops mfuel fuel ts s :
  inv [] s → derived_ok s.(derived) → depth_ok 0 s →
  (budget s <= mfuel)%nat → (stop_count s <= fuel)%nat →
  wp (check_and_trigger_stops mfuel fuel ts) (λ _ s', ∃ evs, flows evs s s' ∧ no_stop_due s') s.
Proof.
  revert s. induction fuel as [|fuel IH]; intros s Hi Hd Hdep Hb Hc;
    cbn [check_and_trigger_stops]; apply wp_bind, wp_get;
    (case_if as Htrig; [|apply wp_ret; exists []; split; [by apply flows_refl|done]]);
    destruct (next_triggered_stop _ s) as [l|] eqn:Hn;
    try (by destruct (triggered_exists _ _ Hi (proj2 (proj1 (andb_true_iff _ _) Htrig)) Hn)).
  - destruct (triggered_stop _ _ _ Hi Hn) as (side & o & lv & v & freed & Hr & _ & HP & _).
    destruct (stop_taken _ _ _ _ _ _ Hi Hr Hdep (proj1 (proj2 (proj2 HP)))) as (_ & ? & _). lia.
  - destruct (triggered_stop _ _ _ Hi Hn) as (side & o & lv & v & freed & Hr & _ & HP & _).
    pose proof (wp_trigger_one mfuel side l v o lv freed ts s Hi Hd Hdep Hb Hr HP) as Hone.
    apply wp_bind. eapply wp_mono; [exact (wp_bind_inv _ _ _ _ Hone)|]. intros [o' fr] s1 H1.
    apply wp_bind. eapply wp_mono; [exact (wp_bind_inv _ _ _ _ H1)|]. intros [] s2 H2.
    apply wp_bind. eapply wp_mono; [exact H2|]. intros [] s3 (evs & Hfl & Hsc & Hbu).
    eapply wp_mono; [apply IH; [apply Hfl..|lia|lia]|].
    intros [] s4 (evs2 & Hfl2 & Hend). exists (evs ++ evs2). split; [by eapply flows_trans|done].
Qed.

(** ** Parking a stop *)

Lemma update_order_absent l g h levels : l ∉ (keys levels).*1 → update_order l g h levels = levels.
Proof.
  induction levels as [|lv levels IH]; [done|]. rewrite keys_cons, fmap_app, not_elem_of_app.
  assert (Hk : (key <$> lv_queue lv).*1 = (lv_queue lv).*1) by (by rewrite <- list_fmap_compose).
  rewrite Hk. intros [Hni Hni']. cbn. rewrite (proj2 (find_entry_None l _) Hni). by rewrite IH.
Qed.

(** Writing through a pointer changes only the list that holds the order. *)
Lemma store_order_member b l g h fl s :
  inv fl s → l ∈ (keys (levels_of b s)).*1 →
  store_order l g h s = set_levels b (update_order l g h (levels_of b s)) s.
Proof.
  intros Hi Hin. pose proof (NoDup_seq 0 MaxOrders) as Hnd. rewrite <- (inv_orders_at b fl s Hi) in Hnd.
  apply NoDup_app in Hnd as (_ & Hdis & _). specialize (Hdis l Hin).
  rewrite elem_of_app in Hdis. unfold store_order.
  destruct b as [[]|[]]; cbn in *; rewrite ?fmap_app, ?elem_of_app in Hdis;
    rewrite ?(update_order_absent l g h s.(bids)) by tauto;
    rewrite ?(update_order_absent l g h s.(asks)) by tauto;
    rewrite ?(update_order_absent l g h s.(buy_stops)) by tauto;
    rewrite ?(update_order_absent l g h s.(sell_stops)) by tauto; by destruct s.
Qed.

Lemma store_order_absent l g h s : l ∉ (live_keys s).*1 → store_order l g h s = s.
Proof.
  unfold live_keys, all_keys. rewrite !fmap_app, !not_elem_of_app. intros (?&?&?&?).
  unfold store_order. rewrite !update_order_absent by done. by destruct s.
Qed.

(** Writes to an order that keep it in its place. *)
Lemma update_order_ok before P l g levels :
  (∀ p o, P p o → P p (g o)) →
  (∀ o, o_remaining_quantity (g o) = o_remaining_quantity o) →
  side_ok before P levels → side_ok before P (update_order l g id levels).
Proof.
  intros HP Hg [Hs Hl]. split; [by rewrite update_order_prices|]. clear Hs.
  induction Hl as [|lv levels [Hne Hc Ht Ho] Hl IH]; cbn; [done|].
  destruct (find_entry l (lv_queue lv)) as [o0|] eqn:E; (constructor; [|done]); [|by split].
  unfold id. split; cbn.
  - intros Hq. apply (f_equal length) in Hq. unfold update_entry in Hq. rewrite length_fmap in Hq.
    by destruct (lv_queue lv).
  - unfold update_entry. by rewrite length_fmap.
  - rewrite Ht. unfold update_entry. rewrite sum_by_fmap. apply sum_by_ext, Forall_forall.
    intros [k o] _. cbn. case_if as Ek; [|done]. cbn. by rewrite Hg.
  - unfold update_entry. apply Forall_fmap. eapply Forall_impl; [exact Ho|].
    intros [k o] Hko. cbn in *. case_if as Ek; [|done]. by apply HP.
Qed.

Lemma inv_store b l g fl s :
  inv fl s → l ∈ (keys (levels_of b s)).*1 → (∀ o, o_id (g o) = o_id o) →
  (∀ p o, order_of b p o → order_of b p (g o)) →
  (∀ o, o_remaining_quantity (g o) = o_remaining_quantity o) →
  inv fl (store_order l g id s).
Proof.
  intros Hi Hin Hid HP Hg. rewrite (store_order_member b l g id fl s Hi Hin).
  apply inv_update; [done| | |].
  - apply update_order_ok; [done|done|]. by eapply inv_sides.
  - by apply update_order_keys.
  - by rewrite update_order_slots.
Qed.

Lemma inv_free_update l g fl s :
  inv fl s → inv fl (set_order_free (update_entry l g s.(order_free)) s).
Proof.
  intros Hi. split; try apply Hi. cbn. rewrite update_entry_locs. apply Hi.
Qed.

(** A stop order was parked, or cancelled for lack of a level. *)
Record parked evs s s' : Prop := {
  pk_inv : inv [] s';
  pk_depth : depth_ok 0 s';
  pk_book : s'.(bids) = s.(bids) ∧ s'.(asks) = s.(asks);
  pk_session : same_session s s';
  pk_next : s'.(next_order_id) = s.(next_order_id);
  pk_trace : s'.(trace) = s.(trace) ++ evs;
  pk_events : Forall (λ ev, ∃ id ts, ev = OrderCancelled id ts CLevelPoolExhausted) evs
}.

Lemma parked_depth side e slot v new s s' :
  depth_ok 1 s → insert_order (stop_before side) e slot (stop_levels side s) = (v, new) →
  s'.(bids) = s.(bids) → s'.(asks) = s.(asks) → stop_levels side s' = v →
  stop_levels (opposite side) s' = stop_levels (opposite side) s → depth_ok 0 s'.
Proof.
  intros [Hk Hd] Hins E1 E2 E3 E4. pose proof (insert_order_count _ _ _ _ _ _ Hins) as Hc.
  assert (Hsc : stop_count s' = S (stop_count s)).
  { unfold stop_count. destruct side; cbn in *; rewrite E3, E4; lia. }
  split; [lia|]. rewrite E1, E2. intros lv Hlv. specialize (Hd lv Hlv). lia.
Qed.

Lemma wp_insert_into_stop_book e (Q : unit → engine D → Prop) s :
  inv [e] s → depth_ok 1 s → stop_order e.2.(o_side) e.2.(o_price) e.2 →
  (inv [] (dropped_for_level e e.2.(o_timestamp) s) → Q tt (dropped_for_level e e.2.(o_timestamp) s)) →
  (∀ s', parked [] s s' → e.1 ∈ (keys (stop_levels e.2.(o_side) s')).*1 →
     s'.(order_free) = s.(order_free) → Q tt s') →
  wp (insert_into_stop_book e) Q s.
Proof.
  intros Hi Hdep HP Hnone Hsome. unfold insert_into_stop_book, allocate_level. wp_steps.
  destruct (s.(level_free)) as [|slot lf] eqn:Hlf.
  { unfold index_clear, deallocate_order. eng_steps. apply Hnone.
    exact (inv_drop e e [] s Hi eq_refl). }
  wp_steps. change (stop_levels ?x (set_level_free lf s)) with (stop_levels x s).
  destruct (insert_order _ e slot _) as [v new] eqn:Hins.
  pose proof (inv_attach (OnStop e.2.(o_side)) e slot lf [] s v new Hi Hlf Hins HP) as Hinv.
  wp_steps. set (s1 := set_stop_levels e.2.(o_side) v (set_level_free lf s)).
  assert (Hin : e.1 ∈ (keys v).*1).
  { rewrite (insert_order_keys _ _ _ _ _ _ Hins). by left. }
  destruct new.
  - apply wp_ret. apply Hsome.
    + split; unfold s1; try by destruct (o_side e.2).
      * by eapply (parked_depth e.2.(o_side)); [done|exact Hins|destruct (o_side e.2)..].
      * cbn. rewrite app_nil_r. by destruct (o_side e.2).
    + unfold s1. by destruct (o_side e.2).
    + unfold s1. by destruct (o_side e.2).
  - apply wp_modify. apply Hsome.
    + split; unfold s1; try by destruct (o_side e.2).
      * by eapply (parked_depth e.2.(o_side)); [done|exact Hins|destruct (o_side e.2)..].
      * cbn. rewrite app_nil_r. by destruct (o_side e.2).
    + unfold s1. by destruct (o_side e.2).
    + unfold s1. by destruct (o_side e.2).
Qed.

Lemma depth_stores l g s : depth_ok 0 s → inv [] s →
  (∀ b, l ∈ (keys (levels_of b s)).*1 → ∃ side, b = OnStop side) → depth_ok 0 (store_order l g id s).
Proof.
  intros [Hk Hd] Hi Hb.
  assert (Habs : update_order l g id s.(bids) = s.(bids) ∧ update_order l g id s.(asks) = s.(asks)).
  { split; apply update_order_absent; intros Hin.
    - by destruct (Hb (OnBook Buy) Hin).
    - by destruct (Hb (OnBook Sell) Hin). }
  destruct Habs as [E1 E2].
  assert (Hlen : ∀ levels, length (entries (update_order l g id levels)) = length (entries levels)).
  { intros levels. clear. induction levels as [|lv levels IH]; cbn; [done|].
    destruct (find_entry _ _); rewrite !entries_cons, !length_app; cbn; [|lia].
    unfold update_entry. by rewrite length_fmap. }
  assert (Hc : stop_count (store_order l g id s) = stop_count s).
  { unfold stop_count. cbn. by rewrite !Hlen. }
  split; rewrite Hc; [done|]. cbn. by rewrite E1, E2.
Qed.

Lemma wp_park_stop req l o s :
  inv [(l, o)] s → depth_ok 1 s → o.(o_type) = req.(r_type) → is_stop req.(r_type) = true →
  0 < o.(o_remaining_quantity) → 0 < req.(r_stop_price) →
  (req.(r_type) = StopLimit → 0 < o.(o_price)) →
  wp (park_stop req (l, o)) (λ _ s', ∃ evs, parked evs s s') s.
Proof.
  intros Hi Hdep Hty Hstop Hpos Hsp Hpr. unfold park_stop. cbn [fst snd]. apply wp_bind.
  set (e := (l, set_o_price req.(r_stop_price) o)).
  assert (Hie : inv [e] s) by (by eapply inv_flight; [|exact Hi]).
  assert (HP : stop_order e.2.(o_side) e.2.(o_price) e.2).
  { unfold stop_order. cbn. rewrite Hty. split_and!; try done. }
  eapply wp_insert_into_stop_book; [exact Hie|exact Hdep|exact HP| |].
  - intros Hi'. set (s1 := dropped_for_level e e.2.(o_timestamp) s) in *.
    assert (Hfresh : l ∉ (live_keys s1).*1).
    { pose proof (inv_flight_fresh _ _ _ Hi) as Hf. rewrite fmap_app, not_elem_of_app in Hf.
      apply Hf. }
    assert (Hp1 : parked [OrderCancelled o.(o_id) o.(o_timestamp) CLevelPoolExhausted] s s1).
    { split; try done.
      - destruct Hdep as [Hk Hd]. split; [change (stop_count s1) with (stop_count s); lia|].
        intros lv Hlv. specialize (Hd lv Hlv). change (stop_count s1) with (stop_count s). lia.
      - constructor; [eauto|done]. }
    apply wp_when; intros Hsl; [|by eauto].
    wp_steps. rewrite store_order_absent by done. eexists. destruct Hp1.
    split; try done. by apply inv_free_update.
  - intros s1 Hp1 Hin _. apply wp_when; intros Hsl; zbool; [|by eauto].
    wp_steps. exists []. destruct Hp1 as [P1 P2 P3 P4 P5 P6 P7].
    assert (Hat := store_order_member (OnStop o.(o_side)) l (set_o_price o.(o_price)) id [] s1 P1 Hin).
    assert (Hin2 : inv [] (store_order l (set_o_price o.(o_price)) id s1)).
    { eapply (inv_store (OnStop o.(o_side))); [done|exact Hin|done| |done].
      intros p o' (H1 & H2 & H3 & H4). split_and!; try done. intros _. by apply Hpr. }
    assert (Hdep2 : depth_ok 0 (store_order l (set_o_price o.(o_price)) id s1)).
    { apply depth_stores; [done|done|]. intros b Hb.
      destruct b as [side|side]; [|by exists side]. exfalso.
      pose proof (inv_orders_at (OnBook side) [] s1 P1) as Hperm.
      pose proof (NoDup_seq 0 MaxOrders) as Hnd. rewrite <- Hperm in Hnd.
      apply NoDup_app in Hnd as (_ & Hdis & _). apply (Hdis l Hb).
      rewrite elem_of_app. left. cbn in Hin. destruct side, (o_side o); cbn in *;
        rewrite !fmap_app, !elem_of_app; tauto. }
    split.
    + by apply inv_free_update.
    + exact Hdep2.
    + rewrite Hat. destruct P3. destruct (o_side o); done.
    + rewrite Hat. destruct P4. destruct (o_side o); by split.
    + rewrite Hat. destruct (o_side o); done.
    + rewrite Hat. destruct (o_side o); done.
    + done.
Qed.
End orders.
