(* ===== verification/EngineEntry.v ===== *)
(** * [new_order] as a whole

    The declarative meaning of the validation sequence and the total
    correctness of [new_order]. *)

From S2P Require Import Prelude Types MatchAlgo MatchAlgoFacts Books Trackers Engine.
From S2P Require Import EngineInvariant EngineRules EngineFills EngineMatch.
From S2P Require Import EngineLoop EngineOrders.

Section entry.
Context {D : Type} {params : EngineParams} {hooks : Hooks D} {algo : MatchAlgorithm}.
Implicit Types (s : engine D) (ts : Timestamp) (l : loc) (o : Order) (evs : list event).
Implicit Types (req : OrderRequest).

(** ** What a valid request is *)

Definition on_grid (grid v : Z) : Prop := 0 < grid → (grid | v).
Definition within (low high v : Z) : Prop := (0 < low → low <= v) ∧ (0 < high → v <= high).

Record valid_request req s : Prop := {
  vr_hook : on_validate_order s req = true;
  vr_tif : is_tif_valid s req.(r_tif) = true;
  vr_quantity : 0 < req.(r_quantity);
  vr_lot : on_grid s.(config).(lot_size) req.(r_quantity);
  vr_display : 0 < req.(r_display_qty) →
    req.(r_display_qty) <= req.(r_quantity) ∧
    on_grid s.(config).(lot_size) req.(r_display_qty) ∧
    (0 < get_min_display_qty s req → get_min_display_qty s req <= req.(r_display_qty));
  vr_size : 0 < s.(config).(max_order_size) → req.(r_quantity) <= s.(config).(max_order_size);
  vr_price : is_priced req.(r_type) = true →
    0 < req.(r_price) ∧ on_grid s.(config).(tick_size) req.(r_price) ∧
    within (calculate_dynamic_bands s s.(last_trade_price)).1
           (calculate_dynamic_bands s s.(last_trade_price)).2 req.(r_price) ∧
    within s.(config).(daily_limit_low) s.(config).(daily_limit_high) req.(r_price);
  vr_stop : is_stop req.(r_type) = true → 0 < req.(r_stop_price);
  vr_open : s.(current_state) ≠ Closed;
  vr_phase : is_order_allowed_in_phase s req s.(current_state) = true;
  vr_position : is_position_check_enabled s = true →
    would_exceed_limit MaxAccounts req.(r_account_id) req.(r_side) req.(r_quantity)
      (get_position_limit s req.(r_account_id)) s.(position_tracker) = false;
  vr_id : s.(next_order_id) < MaxOrderIds
}.

Lemma off_grid_false grid v : off_grid grid v = false ↔ on_grid grid v.
Proof.
  unfold off_grid, on_grid. rewrite andb_false_iff, negb_false_iff, Z.gtb_ltb, Z.ltb_ge, Z.eqb_eq.
  split.
  - intros [?|Hr] ?; [lia|]. by apply Z.rem_divide; [lia|].
  - intros H. destruct (Z.le_gt_cases grid 0); [by left|right].
    apply Z.rem_divide; [lia|]. apply H. lia.
Qed.

Lemma check_display_None req s :
  check_display req s = None ↔ (0 < req.(r_display_qty) →
    req.(r_display_qty) <= req.(r_quantity) ∧
    on_grid s.(config).(lot_size) req.(r_display_qty) ∧
    (0 < get_min_display_qty s req → get_min_display_qty s req <= req.(r_display_qty))).
Proof.
  unfold check_display. case_if as H1; zbool; [|split; [lia|done]].
  case_if as H2; zbool; [split; [done|lia]|].
  case_if as H3.
  { split; [done|]. intros H. destruct (H ltac:(lia)) as (_ & Hg & _).
    apply off_grid_false in Hg. congruence. }
  apply off_grid_false in H3. case_if as H4; zbool; [split; [done|lia]|].
  split; [|done]. intros _ _. split_and!; [done|done|]. intros Hm.
  apply andb_false_iff in H4 as [?|?]; zbool; lia.
Qed.

Lemma check_price_None p s :
  check_price p s = None ↔
    0 < p ∧ on_grid s.(config).(tick_size) p ∧
    within (calculate_dynamic_bands s s.(last_trade_price)).1
           (calculate_dynamic_bands s s.(last_trade_price)).2 p.
Proof.
  unfold check_price, within. destruct (calculate_dynamic_bands _ _) as [lo hi]. cbn.
  case_if as H1; zbool; [split; [done|lia]|].
  case_if as H2; zbool.
  { split; [done|]. intros (_ & Hg & _). apply off_grid_false in Hg. congruence. }
  apply off_grid_false in H2.
  case_if as H3; zbool; [split; [done|lia]|].
  case_if as H4; zbool; [split; [done|lia]|].
  split; [|done]. intros _. split_and!; [lia|done| |]; intros;
    [apply andb_false_iff in H3 as [?|?]|apply andb_false_iff in H4 as [?|?]]; zbool; lia.
Qed.

Lemma check_limits_None req s :
  check_limits req s = None ↔ (is_priced req.(r_type) = true →
    0 < req.(r_price) ∧ on_grid s.(config).(tick_size) req.(r_price) ∧
    within (calculate_dynamic_bands s s.(last_trade_price)).1
           (calculate_dynamic_bands s s.(last_trade_price)).2 req.(r_price) ∧
    within s.(config).(daily_limit_low) s.(config).(daily_limit_high) req.(r_price)).
Proof.
  unfold check_limits. case_if as Hp; [|by split].
  destruct (check_price _ s) as [r|] eqn:Hc.
  { split; [done|]. intros H. destruct (H eq_refl) as (? & ? & ? & _).
    assert (check_price req.(r_price) s = None) by (by apply check_price_None). congruence. }
  apply check_price_None in Hc as (? & ? & ?). unfold within at 2.
  case_if as H3; zbool; [split; [done|intros H'; destruct (H' eq_refl); lia]|].
  case_if as H4; zbool; [split; [done|intros H'; destruct (H' eq_refl); lia]|].
  split; [|done]. intros _ _. split_and!; try done; intros;
    [apply andb_false_iff in H4 as [?|?]|apply andb_false_iff in H3 as [?|?]]; zbool; lia.
Qed.

Lemma guard_none (c : bool) (r : RejectReason) (x : option RejectReason) :
  (if c then Some r else x) = None ↔ c = false ∧ x = None.
Proof. destruct c; naive_solver. Qed.

Lemma guard_option (x y : option RejectReason) :
  match x with Some r => Some r | None => y end = None ↔ x = None ∧ y = None.
Proof. destruct x; naive_solver. Qed.

Lemma validate_order_None req s : validate_order req s = None ↔ valid_request req s.
Proof.
  unfold validate_order.
  rewrite !guard_none, guard_option, check_display_None, !guard_none, guard_option,
    check_limits_None, !guard_none, !negb_false_iff, off_grid_false.
  split.
  - intros (H1 & H2 & H3 & H4 & H5 & H6 & H7 & H8 & H9 & H10 & H11 & H12 & _).
    split; zbool; try done; try lia.
    + apply andb_false_iff in H8 as [?|?]; zbool; [congruence|lia].
    + apply andb_false_iff in H11 as [?|?]; [congruence|done].
  - intros [H1 H2 H3 H4 H5 H6 H7 H8 H9 H10 H11 H12]. split_and!; try done.
    + apply Z.leb_gt. lia.
    + apply andb_false_iff. rewrite Z.gtb_ltb, Z.ltb_ge, Z.gtb_ltb, Z.ltb_ge. lia.
    + apply andb_false_iff. rewrite Z.leb_gt. destruct (is_stop _); [right; by apply H8|by left].
    + by apply bool_decide_eq_false.
    + apply andb_false_iff. destruct (is_position_check_enabled s); [right; by apply H11|by left].
    + rewrite Z.geb_leb. apply Z.leb_gt. lia.
Qed.

Lemma wp_rate_check account ts (Q : bool → engine D → Prop) s :
  (∀ ok t, (is_rate_check_enabled s = false → ok = true ∧ t = s.(rate_tracker)) →
     Q ok (set_rate_tracker t s)) →
  wp (rate_check account ts) Q s.
Proof.
  intros HQ. unfold rate_check. wp_steps. case_if as H.
  - apply wp_ret. replace s with (set_rate_tracker s.(rate_tracker) s) by (by destruct s). by apply HQ.
  - destruct (check_and_increment _ _ _ _ _) as [ok t]. wp_steps. apply HQ.
    intros Hoff. by rewrite Hoff in H.
Qed.
End entry.

Section submit.
Context {D : Type} {params : EngineParams} {hooks : Hooks D} {algo : MatchAlgorithm}.
Context {hooks_ok : HooksOk D}.
Implicit Types (s : engine D) (ts : Timestamp) (l : loc) (o : Order) (evs : list event).
Implicit Types (req : OrderRequest).

(** An idle, well-formed engine with room for one more order. *)
Record ready s : Prop := {
  rd_inv : inv [] s;
  rd_derived : derived_ok s.(derived);
  rd_depth : depth_ok 1 s
}.

(** The outcome of [new_order]: a single rejection that changes nothing but
    the rate counters, or an acceptance followed by the order's processing. *)
Inductive submitted req s s' : Prop :=
  | submit_rejected (r : RejectReason) (t : gmap Z RateEntry) :
      (is_rate_check_enabled s = false → t = s.(rate_tracker)) →
      (is_rate_check_enabled s = true ∧ r = RateThrottled) ∨
      ¬ (valid_request req (set_rate_tracker t s) ∧ s.(order_free) ≠ []) →
      s' = says [OrderRejected req.(r_client_order_id) req.(r_timestamp) r] (set_rate_tracker t s) →
      submitted req s s'
  | submit_accepted (t : gmap Z RateEntry) evs :
      (is_rate_check_enabled s = false → t = s.(rate_tracker)) →
      valid_request req (set_rate_tracker t s) → s.(order_free) ≠ [] →
      s'.(trace) = s.(trace) ++
        OrderAccepted s.(next_order_id) req.(r_client_order_id) req.(r_timestamp) :: evs →
      Forall ongoing evs →
      inv [] s' → derived_ok s'.(derived) → depth_ok 0 s' →
      s'.(next_order_id) = s.(next_order_id) + 1 →
      (is_collection_phase s.(current_state) = false → Forall quiet evs → uncrossed s →
       uncrossed s') →
      submitted req s s'.

(** The state in which [route_order] runs. *)
Definition admitted (l : loc) (o : Order) (free : list entry) (t : gmap Z RateEntry) req s : engine D :=
  says [OrderAccepted o.(o_id) o.(o_client_order_id) req.(r_timestamp)]
    (set_order_index (<[o.(o_id) := l]> s.(order_index))
      (set_next_order_id (s.(next_order_id) + 1)
        (set_order_free free (set_rate_tracker t s)))).

Lemma admitted_inv l stale o free t req s :
  inv [] s → s.(order_free) = (l, stale) :: free → o.(o_id) = s.(next_order_id) →
  s.(next_order_id) < MaxOrderIds → inv [(l, o)] (admitted l o free t req s).
Proof.
  intros Hi Hf Hid Hmax.
  assert (Hnone : s.(order_index) !! o.(o_id) = None).
  { destruct (s.(order_index) !! o.(o_id)) as [k|] eqn:E; [|done].
    apply (iv_ids _ _ _ _ _ _ _ _ _ Hi) in E. lia. }
  pose proof (iv_next _ _ _ _ _ _ _ _ _ Hi) as Hn.
  pose proof (inv_allocate l stale o free [] s Hi Hf Hnone ltac:(lia)) as Ha.
  rewrite Z.max_r in Ha by lia. rewrite Hid in Ha at 2. exact Ha.
Qed.

(** The outcome of [route_order]. *)
Record routed evs s s' : Prop := {
  ro_inv : inv [] s';
  ro_derived : derived_ok s'.(derived);
  ro_depth : depth_ok 0 s';
  ro_next : s'.(next_order_id) = s.(next_order_id);
  ro_trace : s'.(trace) = s.(trace) ++ evs;
  ro_events : Forall ongoing evs;
  ro_uncrossed : is_collection_phase s.(current_state) = false → Forall quiet evs →
                 uncrossed s → uncrossed s'
}.

Lemma flows_routed evs s s' : flows evs s s' → routed evs s s'.
Proof.
  intros []. split; auto. intros Hc. assert (s.(current_state) ≠ LockLimit); [|auto].
  intros E. by rewrite E in Hc.
Qed.

Lemma parked_routed evs s s' : derived_ok s.(derived) → parked evs s s' → routed evs s s'.
Proof.
  intros Hd [P1 P2 [P3 P3'] P4 P5 P6 P7]. split; try done.
  - by rewrite (ss_derived _ _ P4).
  - eapply Forall_impl; [exact P7|]. by intros ev (id & ts & ->).
  - intros _ _. unfold uncrossed. by rewrite P3, P3'.
Qed.

Lemma depth_weaken s s' :
  depth_ok 1 s → s'.(bids) = s.(bids) → s'.(asks) = s.(asks) → stop_count s' = stop_count s →
  depth_ok 0 s'.
Proof.
  intros [Hk Hd] E1 E2 E3. split; [lia|]. rewrite E1, E2, E3. intros lv Hlv. specialize (Hd lv Hlv). lia.
Qed.

Lemma depth_inserted side e slot v new s s' :
  depth_ok 1 s → insert_order (book_before side) e slot (side_levels side s) = (v, new) →
  side_levels side s' = v → side_levels (opposite side) s' = side_levels (opposite side) s →
  stop_count s' = stop_count s → depth_ok 0 s'.
Proof.
  intros [Hk Hd] Hins E1 E2 E3. split; [lia|]. rewrite E3.
  assert (Hold : ∀ sd lv, lv ∈ side_levels sd s → (length (lv_queue lv) + 1 + stop_count s <= kMaxFills)%nat).
  { intros sd lv Hlv. apply Hd. rewrite elem_of_app. destruct sd; cbn in Hlv; auto. }
  intros lv Hlv.
  assert (Hin : lv ∈ side_levels side s' ∨ lv ∈ side_levels (opposite side) s').
  { rewrite elem_of_app in Hlv. destruct side; cbn; tauto. }
  rewrite E1, E2 in Hin. destruct Hin as [Hin|Hin].
  - destruct (insert_order_lengths _ _ _ _ _ _ _ Hins Hin) as [?|(lv0 & H0 & ?)]; [lia|].
    specialize (Hold _ _ H0). lia.
  - specialize (Hold _ _ Hin). lia.
Qed.

(** Collection phases: the order rests without matching. *)
Lemma wp_collect l o ts s :
  inv [(l, o)] s → derived_ok s.(derived) → depth_ok 1 s →
  is_collection_phase s.(current_state) = true → book_order o.(o_side) o.(o_price) o →
  wp (insert_into_book (l, o) ts ;; fire_top_of_book ts) (λ _ s', ∃ evs, routed evs s s') s.
Proof.
  intros Hi Hd Hdep Hc HP. apply wp_bind. eapply wp_insert_into_book; [exact Hi|exact HP| |].
  - intros _ Hi'. apply wp_fire_top_of_book. intros ev Hev. eexists. split.
    + exact Hi'.
    + done.
    + by eapply depth_weaken.
    + done.
    + cbn. by rewrite <- app_assoc.
    + constructor; [done|]. constructor; [by destruct ev|done].
    + congruence.
  - intros slot lf v new evs s' _ Hins He Hs' Hi'. apply wp_fire_top_of_book. intros ev Hev.
    exists (evs ++ [ev]). cbn [snd] in Hins, Hs'. subst s'. split.
    + exact Hi'.
    + by destruct (o_side o).
    + by eapply (depth_inserted o.(o_side)); [done|exact Hins|destruct (o_side o)..].
    + by destruct (o_side o).
    + cbn. by rewrite trace_set_side, app_assoc.
    + apply Forall_app. split; [|constructor; [by destruct ev|done]].
      eapply Forall_impl; [exact He|]. by intros [].
    + congruence.
Qed.

Lemma wp_route_order fuel req l o s :
  inv [(l, o)] s → derived_ok s.(derived) → depth_ok 1 s →
  o.(o_type) = req.(r_type) → 0 < o.(o_remaining_quantity) →
  (is_priced req.(r_type) = true → 0 < o.(o_price)) →
  (is_stop req.(r_type) = true → 0 < req.(r_stop_price)) →
  (Z.to_nat o.(o_remaining_quantity) + budget s + 1 <= fuel)%nat →
  wp (route_order fuel req (l, o)) (λ _ s', ∃ evs, routed evs s s') s.
Proof.
  intros Hi Hd Hdep Hty Hpos Hprice Hstop Hfuel. unfold route_order. apply wp_bind, wp_get.
  case_if as Hs.
  { eapply wp_mono; [apply wp_park_stop; try done; [by apply Hstop|]|].
    - intros Hsl. apply Hprice. unfold is_priced. rewrite Hsl. done.
    - intros [] s' [evs Hp]. exists evs. by apply parked_routed. }
  assert (Hkind : o.(o_type) = Market ∨ o.(o_type) = Limit ∧ 0 < o.(o_price)).
  { rewrite Hty. unfold is_stop, is_priced in *. destruct (r_type req); try done; [|by left].
    right. split; [done|]. by apply Hprice. }
  case_if as Hc.
  - case_if as Hl; zbool.
    + apply wp_collect; try done. rewrite Hty, Hl in Hkind.
      destruct Hkind as [?|[_ ?]]; [done|]. unfold book_order. rewrite Hty, Hl. done.
    + eapply wp_drop_order; [exact Hi|]. intros s' Hi' ->. eexists [_]. split; try done.
      * by eapply depth_weaken.
      * by constructor.
  - apply wp_bind. eapply wp_mono; [apply wp_match_order|].
    + done.
    + done.
    + by split.
    + by eapply depth_fits.
    + unfold loop_measure, budget in *. rewrite all_entries_length in Hfuel.
      unfold facing. destruct (o_side o); cbn; lia.
    + intros [] s1 [evs Hex]. pose proof (executed_budget _ _ _ _ _ Hex) as Hb.
      pose proof (executed_flows _ _ _ _ _ Hex (conj Hpos Hkind) Hdep) as Hfl.
      assert (Hsc : (stop_count s1 <= budget s1)%nat).
      { unfold budget. rewrite all_entries_length. lia. }
      eapply wp_mono; [apply wp_check_and_trigger_stops; [apply Hfl..|lia|lia]|].
      intros [] s2 (evs2 & Hfl2 & _). exists (evs ++ evs2). apply flows_routed. by eapply flows_trans.
Qed.

Lemma wp_new_order fuel req s :
  ready s → (Z.to_nat req.(r_quantity) + budget s + 1 <= fuel)%nat →
  wp (new_order fuel req) (λ _ s', submitted req s s') s.
Proof.
  intros [Hi Hd Hdep] Hfuel. unfold new_order. apply wp_bind, wp_rate_check. intros ok t Ht.
  assert (Ht' : is_rate_check_enabled s = false → t = s.(rate_tracker)) by (intros; by apply Ht).
  destruct ok; cbn [negb].
  2:{ apply wp_emit. eapply submit_rejected; [exact Ht'| |done]. left. split; [|done].
      destruct (is_rate_check_enabled s); [done|]. by destruct Ht. }
  apply wp_bind, wp_get.
  destruct (validate_order req _) as [r|] eqn:Hv.
  { apply wp_emit. eapply submit_rejected; [exact Ht'| |done]. right. intros [Hval _].
    apply validate_order_None in Hval. congruence. }
  apply validate_order_None in Hv. unfold allocate_order. wp_steps. cbn [order_free set_rate_tracker].
  destruct (s.(order_free)) as [|[l stale] free] eqn:Hfree; wp_steps.
  { apply wp_emit. eapply submit_rejected; [exact Ht'| |done]. right. by rewrite Hfree; intros [_ []]. }
  unfold index_set. eng_steps. cbn [next_order_id set_rate_tracker].
  set (o := init_order req s.(next_order_id) _ stale).
  match goal with |- wp _ _ ?st => change st with (admitted l o free t req s) end.
  pose proof (vr_quantity _ _ Hv) as Hq. pose proof (vr_id _ _ Hv) as Hid. cbn in Hid.
  assert (Hrem : 0 < o.(o_remaining_quantity) <= req.(r_quantity)).
  { pose proof (vr_display _ _ Hv) as Hdis. unfold o. cbn. case_if as Hdq; zbool; [|lia].
    destruct Hdis as [? _]; [lia|]. lia. }
  eapply wp_mono; [apply wp_route_order|].
  - by eapply admitted_inv.
  - done.
  - exact Hdep.
  - done.
  - lia.
  - intros Hp. unfold o. cbn. destruct (vr_price _ _ Hv Hp) as [? _].
    case_if as Hst; zbool; [|done]. rewrite Hst in Hp. done.
  - apply Hv.
  - change (budget (admitted l o free t req s)) with (budget s). lia.
  - intros [] s' [evs [R1 R2 R3 R4 R5 R6 R7]]. eapply (submit_accepted _ _ _ t evs); try done.
    { by rewrite Hfree. }
    rewrite R5. cbn. by rewrite <- app_assoc.
Qed.
End submit.
