(* ===== verification/EngineTheorems.v ===== *)
(** * The engine's guarantees

    The properties of [new_order], [match_order], the stop cascade and the
    cancel operations, each with an instance on a concrete engine. *)

From S2P Require Import Prelude Types MatchAlgo MatchAlgoFacts MatchAlgoPriority Books Trackers.
From S2P Require Import Engine EngineInvariant EngineRules EngineFills EngineMatch.
From S2P Require Import EngineLoop EngineOrders EngineEntry.

(** The base class's hooks meet what the engine relies on. *)
#[global] Instance default_hooks_ok (D : Type) : HooksOk D (hooks := default_hooks D).
Proof.
  refine {| derived_ok := λ _, True |}; cbn; try done.
Defined.

Section guarantees.
Context {D : Type} {params : EngineParams} {hooks : Hooks D} {algo : MatchAlgorithm}.
Context {hooks_ok : HooksOk D}.
Implicit Types (s : engine D) (ts : Timestamp) (l : loc) (o : Order) (req : OrderRequest).

(** C1: From a well-formed engine with room for one more order,
    [new_order] returns (no null dereference, no list corruption, no fill
    array overrun, and all its loops end within the bound), and the engine is
    well-formed again: sorted books with exact totals, every order and level
    slot in exactly one place, the index pointing to exactly the live orders. *)
Theorem new_order_total fuel req s :
  ready s → (Z.to_nat req.(r_quantity) + budget s + 1 <= fuel)%nat →
  ∃ s', new_order fuel req s = Ok (tt, s') ∧ inv [] s' ∧ derived_ok s'.(derived) ∧ depth_ok 0 s'.
Proof.
  intros Hr Hf. destruct (wp_eq _ _ _ (wp_new_order fuel req s Hr Hf)) as ([] & s' & Hrun & Hs).
  exists s'. split; [done|]. destruct Hr as [Hi Hd Hdep].
  destruct Hs as [r t _ _ ->|t evs _ _ _ _ _ ? ? ? _ _]; [|done].
  split_and!; [exact Hi|done|]. by eapply depth_weaken.
Qed.


(** C2: Outside the collection phases, as long as no session change is
    published, [new_order] (with every stop it triggers) keeps the book
    uncrossed: the best bid stays below the best ask. *)
Theorem new_order_keeps_uncrossed fuel req s :
  ready s → (Z.to_nat req.(r_quantity) + budget s + 1 <= fuel)%nat →
  is_collection_phase s.(current_state) = false → uncrossed s →
  ∃ s' evs, new_order fuel req s = Ok (tt, s') ∧ s'.(trace) = s.(trace) ++ evs ∧
    (Forall quiet evs → uncrossed s').
Proof.
  intros Hr Hf Hc Hu. destruct (wp_eq _ _ _ (wp_new_order fuel req s Hr Hf)) as ([] & s' & Hrun & Hs).
  destruct Hs as [r t _ _ Hs'|t evs _ _ _ Htr _ _ _ _ _ Hun]; eexists s', _.
  - split_and!; [done|by rewrite Hs'|]. intros _. rewrite Hs'. exact Hu.
  - split_and!; [done|done|]. intros [_ Hq]%Forall_cons. by apply Hun.
Qed.

(** C3: Matching an order trades only at prices within its limit, in
    positive amounts under its identifier and side, never more than it has;
    what it does not trade either leaves the engine or rests, and then the
    resting order holds exactly the quantity not traded. *)
Theorem match_order_conserves fuel l o ts s :
  inv [(l, o)] s → derived_ok s.(derived) → matchable_order o → fits o s →
  (loop_measure o s <= fuel)%nat →
  ∃ s' evs, match_order fuel (l, o) ts s = Ok (tt, s') ∧ inv [] s' ∧
    s'.(trace) = s.(trace) ++ evs ∧ Forall (match_event o) evs ∧
    0 <= traded evs <= o.(o_remaining_quantity) ∧
    (side_levels o.(o_side) s' = side_levels o.(o_side) s ∨
     can_rest o ∧ traded evs < o.(o_remaining_quantity) ∧
     rests l (resized (o.(o_filled_quantity) + traded evs)
                (o.(o_remaining_quantity) - traded evs) o) s s').
Proof.
  intros Hi Hd Hm Hfit Hf.
  destruct (wp_eq _ _ _ (wp_match_order fuel l o ts s Hi Hd Hm Hfit Hf)) as ([] & s' & Hrun & evs & Hex).
  exists s', evs. destruct Hex as [E1 _ Hown _ _ _ _ _ Htr Hev Htd _]. split_and!; try done; try lia.
  destruct Hown as [?|(o' & Ho' & Hcan & Hrest & Hp & _)]; [by left|]. right.
  subst o'. cbn in Hp. split_and!; [done|lia|done].
Qed.


(** Market, IOC and FOK orders never rest: after matching, the order's
    own side of the book is what it was. *)
Theorem immediate_orders_never_rest fuel l o ts s :
  inv [(l, o)] s → derived_ok s.(derived) → matchable_order o → fits o s →
  (loop_measure o s <= fuel)%nat → o.(o_type) = Market ∨ o.(o_tif) = IOC ∨ o.(o_tif) = FOK →
  ∃ s', match_order fuel (l, o) ts s = Ok (tt, s') ∧
    side_levels o.(o_side) s' = side_levels o.(o_side) s.
Proof.
  intros Hi Hd Hm Hfit Hf Hno.
  destruct (wp_eq _ _ _ (wp_match_order fuel l o ts s Hi Hd Hm Hfit Hf)) as ([] & s' & Hrun & evs & Hex).
  exists s'. split; [done|]. destruct (ex_own _ _ _ _ _ Hex) as [?|(o' & _ & (? & ? & ?) & _)]; [done|].
  tauto.
Qed.

(** No parked stop order is due. *)
Definition stops_waiting s : Prop :=
  0 < s.(last_trade_price) →
  (∀ lv, lv ∈ s.(buy_stops) → s.(last_trade_price) < lv.(lv_price)) ∧
  (∀ lv, lv ∈ s.(sell_stops) → lv.(lv_price) < s.(last_trade_price)).

Lemma first_bounds (R : Price → Price → bool) (Q : Price → Prop) levels :
  (∀ p p', R p p' = true → Q p → Q p') →
  StronglySorted (λ a b, R a b = true) (prices levels) →
  match levels with lv :: _ => Q lv.(lv_price) | [] => True end →
  ∀ lv, lv ∈ levels → Q lv.(lv_price).
Proof.
  intros HQ Hs H lv Hlv. destruct levels as [|lv0 rest]; [by apply elem_of_nil in Hlv|].
  apply StronglySorted_inv in Hs as [_ Hall]. rewrite Forall_forall in Hall.
  apply elem_of_cons in Hlv as [->|Hlv]; [done|]. eapply HQ; [|done]. apply Hall.
  by apply list_elem_of_fmap_2.
Qed.

Lemma no_stop_due_waiting s : inv [] s → no_stop_due s → stops_waiting s.
Proof.
  intros Hi Hn Hlast. unfold no_stop_due, has_triggered_stops in Hn.
  rewrite (proj2 (Z.gtb_lt _ _)) in Hn by lia. cbn in Hn. apply orb_false_iff in Hn as [Hbuy Hsell].
  destruct (iv_buy_stops _ _ _ _ _ _ _ _ _ Hi) as [Hsb _].
  destruct (iv_sell_stops _ _ _ _ _ _ _ _ _ Hi) as [Hss _].
  split.
  - apply (first_bounds lower_first (λ p, s.(last_trade_price) < p)); [unfold lower_first; lia|done|].
    destruct (buy_stops s); [done|lia].
  - apply (first_bounds higher_first (λ p, p < s.(last_trade_price))); [unfold higher_first; lia|done|].
    destruct (sell_stops s); [done|lia].
Qed.

(** C10: The stop cascade ends: every triggered stop is converted, matched
    and removed, at most one iteration per parked stop, and when it is over
    every parked buy stop is above the last trade price and every parked
    sell stop below it (if anything has traded). *)
Theorem stop_cascade_completes mfuel fuel ts s :
  inv [] s → derived_ok s.(derived) → depth_ok 0 s →
  (budget s <= mfuel)%nat → (stop_count s <= fuel)%nat →
  ∃ s', check_and_trigger_stops mfuel fuel ts s = Ok (tt, s') ∧ inv [] s' ∧ stops_waiting s'.
Proof.
  intros Hi Hd Hdep Hb Hc.
  destruct (wp_eq _ _ _ (wp_check_and_trigger_stops mfuel fuel ts s Hi Hd Hdep Hb Hc))
    as ([] & s' & Hrun & evs & Hfl & Hend).
  exists s'. split_and!; [done|apply Hfl|]. apply no_stop_due_waiting; [apply Hfl|done].
Qed.
End guarantees.

Section cancelling.
Context {D : Type} {params : EngineParams} {hooks : Hooks D} {algo : MatchAlgorithm}.
Implicit Types (s : engine D) (ts : Timestamp) (l : loc) (o : Order).


(** [mass_cancel] cancels exactly the live orders of the account, on
    both books, and returns their number; it reports cancellations and market
    data only. *)
Theorem mass_cancel_exact account ts s :
  inv [] s →
  ∃ n s', mass_cancel account ts s = Ok (n, s') ∧ inv [] s' ∧ scanned ts MassCancelled s s' ∧
    all_entries s' ≡ₚ filter (λ e, (e.2.(o_account_id) =? account) = false) (all_entries s) ∧
    n = Z.of_nat (length (filter (λ e, (e.2.(o_account_id) =? account) = true) (all_entries s))).
Proof.
  intros Hi.
  destruct (wp_eq _ _ _ (wp_full_scan (λ o, o.(o_account_id) =? account) MassCancelled ts s Hi))
    as (n & s' & Hrun & ? & ? & ? & ?).
  by exists n, s'.
Qed.

(** What expires: the order has the time in force that ends, and it is a DAY
    order, or a GTD order whose expiry has come. *)
Definition expired (now : Timestamp) (tif : TimeInForce) o : Prop :=
  o.(o_tif) = tif ∧ (tif = DAY ∨ tif = GTD ∧ o.(o_gtd_expiry) <= now).
#[global] Instance expired_dec now tif o : Decision (expired now tif o).
Proof. unfold expired. apply _. Defined.

Lemma should_expire_expired now tif o : should_expire now tif o = false ↔ ¬ expired now tif o.
Proof.
  rewrite <- not_true_iff_false. apply not_iff_compat. unfold should_expire, expired.
  rewrite andb_true_iff, bool_decide_eq_true.
  destruct tif; rewrite ?Z.leb_le; intuition congruence.
Qed.

Lemma wp_trigger_expiry now tif s :
  inv [] s →
  wp (trigger_expiry now tif) (λ _ s', inv [] s' ∧ scanned now Expired s s' ∧
    all_entries s' ≡ₚ filter (λ e, ¬ expired now tif e.2) (all_entries s)) s.
Proof.
  intros Hi. unfold trigger_expiry. apply wp_bind, wp_get, wp_bind.
  eapply wp_mono; [by apply wp_full_scan|]. intros n s' (Hi' & Hsc & He & _). apply wp_ret.
  split_and!; [done..|]. rewrite He. erewrite filter_ext_in; [done|].
  intros e _. apply should_expire_expired.
Qed.

(** C12: [trigger_expiry] cancels exactly the orders that expire: all DAY
    orders for DAY, the GTD orders whose time has come for GTD, and none for
    any other time in force.  It reports cancellations and market data only,
    and the session, the configuration and the members of the derived class
    stay. *)
Theorem trigger_expiry_exact now tif s :
  inv [] s →
  ∃ s', trigger_expiry now tif s = Ok (tt, s') ∧ inv [] s' ∧ scanned now Expired s s' ∧
    all_entries s' ≡ₚ filter (λ e, ¬ expired now tif e.2) (all_entries s).
Proof. intros Hi. apply wp_eq_unit. by apply wp_trigger_expiry. Qed.
End cancelling.

(** ** A concrete engine

    The base class's hooks, FIFO matching and small pools; the book is built
    by running [new_order] itself. *)

Definition demo_params : EngineParams :=
  {| MaxOrders := 8; MaxPriceLevels := 8; MaxOrderIds := 100; MaxAccounts := 16 |}.
#[local] Existing Instance demo_params.
#[local] Instance demo_hooks : Hooks unit := default_hooks unit.
#[local] Instance demo_hooks_ok : HooksOk unit := default_hooks_ok unit.
#[local] Instance demo_algorithm : MatchAlgorithm := fifo_algorithm.

Definition demo_config : EngineConfig :=
  mkConfig 1 1 0 0 0 0 0 (mkThrottle 0 0) (mkVolatility 0 0).
Definition blank_order : Order := mkOrder 0 0 0 0 0 0 0 Buy Limit DAY 0 0 0 0 false false.
Definition demo_request (account : Z) (side : Side) (ty : OrderType) (tif : TimeInForce)
    (price qty stop : Z) : OrderRequest :=
  mkRequest 7 account side ty tif price qty stop 1000 0 0 false.

Definition empty_engine : engine unit := init_engine demo_config tt (λ _, blank_order).

(** The state a computation ends in. *)
Definition run {A} (m : M (engine unit) A) (s : engine unit) : engine unit :=
  match m s with Ok (_, s') => s' | _ => s end.

Lemma run_wp {A} (m : M (engine unit) A) (R : engine unit → Prop) s :
  wp m (λ _ s', R s') s → R (run m s).
Proof. unfold wp, run. by destruct (m s) as [[a s']| |]. Qed.

Lemma depth_dec k (s : engine unit) :
  ((k + stop_count s <=? kMaxFills)%nat &&
   forallb (λ lv, (length (lv_queue lv) + k + stop_count s <=? kMaxFills)%nat) (s.(bids) ++ s.(asks)))
  = true → depth_ok k s.
Proof.
  intros [H1 H2]%andb_true_iff. split; [apply Nat.leb_le; by vm_compute|]. intros lv Hlv.
  rewrite forallb_forall in H2. apply Nat.leb_le, H2. by apply list_elem_of_In.
Qed.

Lemma empty_engine_ready : ready empty_engine.
Proof. split; [apply inv_init|done|apply depth_dec; by vm_compute]. Qed.

(** One resting sell order of ten at 100, and a parked buy stop at 100. *)
Definition sell_request : OrderRequest := demo_request 1 Sell Limit DAY 100 10 0.
Definition stop_request : OrderRequest := demo_request 2 Buy Stop DAY 0 3 100.
Definition book_engine : engine unit := run (new_order 50 sell_request) empty_engine.
Definition stop_engine : engine unit := run (new_order 50 stop_request) book_engine.

Lemma run_new_order fuel req s :
  ready s → (Z.to_nat req.(r_quantity) + budget s + 1 <= fuel)%nat →
  depth_ok 1 (run (new_order fuel req) s) → ready (run (new_order fuel req) s).
Proof.
  intros Hr Hf Hdep. split; [|done|done]. apply run_wp.
  eapply wp_mono; [by apply wp_new_order|].
  intros [] s' [r t _ _ ->|t evs _ _ _ _ _ ? _ _ _ _]; [apply Hr|done].
Qed.

Lemma book_engine_ready : ready book_engine.
Proof.
  apply run_new_order; [apply empty_engine_ready|apply Nat.leb_le; by vm_compute|apply depth_dec; by vm_compute].
Qed.

Lemma stop_engine_ready : ready stop_engine.
Proof.
  apply run_new_order; [apply book_engine_ready|apply Nat.leb_le; by vm_compute|apply depth_dec; by vm_compute].
Qed.

(** A buy order of four at 100 or better, admitted and about to be matched. *)
Definition flight_order (tif : TimeInForce) : Order :=
  mkOrder 2 7 3 100 4 0 4 Buy Limit tif 1000 0 0 4 false false.
Definition flight_engine (tif : TimeInForce) : engine unit :=
  admitted 1 (flight_order tif) (tail book_engine.(order_free)) ∅ sell_request book_engine.

Lemma flight_engine_inv tif : inv [(1%nat, flight_order tif)] (flight_engine tif).
Proof.
  unfold flight_engine.
  apply (admitted_inv 1 blank_order (flight_order tif) (tail book_engine.(order_free)) ∅ sell_request
           book_engine (rd_inv _ book_engine_ready)); by vm_compute.
Qed.

Lemma flight_engine_fits tif : fits (flight_order tif) (flight_engine tif).
Proof.
  apply (depth_fits _ 1), depth_dec. destruct tif; by vm_compute.
Qed.

Lemma new_order_total_witness :
  ∃ s', new_order 50 (demo_request 3 Buy Limit DAY 100 4 0) stop_engine = Ok (tt, s') ∧
    inv [] s' ∧ derived_ok s'.(derived) ∧ depth_ok 0 s'.
Proof. apply new_order_total; [apply stop_engine_ready|apply Nat.leb_le; by vm_compute]. Defined.


Lemma new_order_keeps_uncrossed_witness :
  ∃ s' evs, new_order 50 (demo_request 3 Buy Limit DAY 101 4 0) stop_engine = Ok (tt, s') ∧
    s'.(trace) = stop_engine.(trace) ++ evs ∧ (Forall quiet evs → uncrossed s').
Proof.
  apply new_order_keeps_uncrossed; [apply stop_engine_ready|apply Nat.leb_le; by vm_compute|by vm_compute|].
  intros bid ask Hb. inversion Hb.
Defined.

Lemma match_order_conserves_witness :
  ∃ s' evs, match_order 50 (1%nat, flight_order DAY) 1000 (flight_engine DAY) = Ok (tt, s') ∧
    inv [] s' ∧ s'.(trace) = (flight_engine DAY).(trace) ++ evs ∧
    Forall (match_event (flight_order DAY)) evs ∧ 0 <= traded evs <= 4 ∧
    (side_levels Buy s' = side_levels Buy (flight_engine DAY) ∨
     can_rest (flight_order DAY) ∧ traded evs < 4 ∧
     rests 1 (resized (0 + traded evs) (4 - traded evs) (flight_order DAY)) (flight_engine DAY) s').
Proof.
  apply (match_order_conserves 50 1 (flight_order DAY));
    [apply flight_engine_inv|exact I|split; [done|by right]|apply flight_engine_fits|apply Nat.leb_le; by vm_compute].
Defined.


Lemma immediate_orders_never_rest_witness :
  ∃ s', match_order 50 (1%nat, flight_order IOC) 1000 (flight_engine IOC) = Ok (tt, s') ∧
    side_levels Buy s' = side_levels Buy (flight_engine IOC).
Proof.
  apply (immediate_orders_never_rest 50 1 (flight_order IOC));
    [apply flight_engine_inv|exact I|split; [done|by right]|apply flight_engine_fits|apply Nat.leb_le; by vm_compute
    |by right; left].
Defined.

Lemma stop_cascade_completes_witness :
  ∃ s', check_and_trigger_stops 50 5 1000 (set_last_trade_price 100 stop_engine) = Ok (tt, s') ∧
    inv [] s' ∧ stops_waiting s'.
Proof.
  apply stop_cascade_completes; [exact (rd_inv _ stop_engine_ready)|exact I
    |apply depth_dec; by vm_compute|apply Nat.leb_le; by vm_compute|apply Nat.leb_le; by vm_compute].
Defined.


Lemma mass_cancel_exact_witness :
  ∃ n s', mass_cancel 2 1000 stop_engine = Ok (n, s') ∧ inv [] s' ∧
    scanned 1000 MassCancelled stop_engine s' ∧
    all_entries s' ≡ₚ filter (λ e, (e.2.(o_account_id) =? 2) = false) (all_entries stop_engine) ∧
    n = Z.of_nat (length (filter (λ e, (e.2.(o_account_id) =? 2) = true) (all_entries stop_engine))).
Proof. apply mass_cancel_exact, stop_engine_ready. Defined.

Lemma trigger_expiry_exact_witness :
  ∃ s', trigger_expiry 1000 DAY stop_engine = Ok (tt, s') ∧ inv [] s' ∧
    scanned 1000 Expired stop_engine s' ∧
    all_entries s' ≡ₚ filter (λ e, ¬ expired 1000 DAY e.2) (all_entries stop_engine).
Proof. apply trigger_expiry_exact, stop_engine_ready. Defined.
