(* ===== verification/Exchanges.v ===== *)
(** * The three exchanges: CME, ICE and KRX

    Each derived engine class is a record of the members it adds and an
    instance of [Hooks].  [cme_exchange.h], [ice_exchange.h] and
    [krx_exchange.h] are followed member by member; the instances of
    [HooksOk] discharge what the engine's theorems rely on. *)

From S2P Require Import Prelude Types MatchAlgo Books Trackers Engine EngineFills EngineMatch.

(** Self matches of two orders of one account, with and without the guard for
    the unset account. *)
Definition same_account (a r : Order) : bool := a.(o_account_id) =? r.(o_account_id).
Definition same_set_account (a r : Order) : bool :=
  negb (a.(o_account_id) =? 0) && (a.(o_account_id) =? r.(o_account_id)).

(** No IOC, FOK or market order. *)
Definition auction_eligible (req : OrderRequest) : bool :=
  if bool_decide (req.(r_tif) = IOC) || bool_decide (req.(r_tif) = FOK) then false
  else negb (bool_decide (req.(r_type) = Market)).

(** [reference * pct / 100]. *)
Definition percent_of (reference pct : Z) : Z := Z.quot (reference * pct) 100.

(** ** CME *)

Module Cme.
Record CmeExchange : Type := mkCme { band_pct : Z }.

Definition set_band_percentage (pct : Z) (s : engine CmeExchange) : engine CmeExchange :=
  set_derived (mkCme pct) s.

Definition is_order_allowed (req : OrderRequest) (state : SessionState) : bool :=
  match state with
  | Closed => false
  | PreOpen | PreClose | VolatilityAuction => auction_eligible req
  | _ => true
  end.

Definition dynamic_bands (s : engine CmeExchange) (reference : Price) : Price * Price :=
  if (reference <=? 0) || (s.(derived).(band_pct) <=? 0) then (0, 0)
  else
    let band := percent_of reference s.(derived).(band_pct) in
    (reference - band, reference + band).

Definition cme_hooks : Hooks CmeExchange := {|
  on_session_transition _ _ _ _ := true;
  is_order_allowed_in_phase _ := is_order_allowed;
  on_validate_order _ _ := true;
  on_validate_restore _ _ := true;
  is_tif_valid _ _ := true;
  on_validate_bust _ _ _ _ := true;
  is_position_check_enabled _ := false;
  get_position_limit _ _ := 0;
  is_rate_check_enabled _ := false;
  is_market_maker _ _ := false;
  is_self_match _ := same_account;
  get_smp_action _ := CancelNewest;
  get_modify_policy _ := CancelReplace;
  get_min_display_qty _ _ := 0;
  should_trigger_volatility_auction _ _ _ := false;
  calculate_dynamic_bands := dynamic_bands;
  on_daily_limit_hit _ _ _ s := s
|}.

#[global] Instance cme_hooks_ok : HooksOk CmeExchange (hooks := cme_hooks).
Proof.
  refine {| derived_ok := λ _, True |}; cbn; try done.
  - unfold same_account. intros s s' o o' r r' -> ->. done.
  - by left.
Defined.
End Cme.

(** ** ICE *)

Module Ice.
Record IceExchange : Type := mkIce {
  ipl_width : Price;
  smp_action : SmpAction;
  vwap_volume : Z;
  vwap_price_volume : Z;
  circuit_breaker_active : bool;
  circuit_breaker_resume_ts : Timestamp
}.

Definition initial : IceExchange := mkIce 0 CancelNewest 0 0 false 0.

Definition set_ipl_width (width : Price) (d : IceExchange) : IceExchange :=
  mkIce width d.(smp_action) d.(vwap_volume) d.(vwap_price_volume) d.(circuit_breaker_active)
    d.(circuit_breaker_resume_ts).
Definition set_smp_action (action : SmpAction) (d : IceExchange) : IceExchange :=
  mkIce d.(ipl_width) action d.(vwap_volume) d.(vwap_price_volume) d.(circuit_breaker_active)
    d.(circuit_breaker_resume_ts).
Definition reset_vwap (d : IceExchange) : IceExchange :=
  mkIce d.(ipl_width) d.(smp_action) 0 0 d.(circuit_breaker_active) d.(circuit_breaker_resume_ts).

Definition record_trade_for_vwap (price : Price) (qty : Quantity) (d : IceExchange) : IceExchange :=
  let contracts := Z.quot qty PRICE_SCALE in
  mkIce d.(ipl_width) d.(smp_action) (d.(vwap_volume) + contracts)
    (d.(vwap_price_volume) + price * contracts) d.(circuit_breaker_active)
    d.(circuit_breaker_resume_ts).

Definition calculate_settlement_price (d : IceExchange) : Price :=
  if d.(vwap_volume) =? 0 then 0 else Z.quot d.(vwap_price_volume) d.(vwap_volume).

Definition set_breaker (active : bool) (resume_ts : Timestamp) (d : IceExchange) : IceExchange :=
  mkIce d.(ipl_width) d.(smp_action) d.(vwap_volume) d.(vwap_price_volume) active resume_ts.

Definition is_order_allowed (req : OrderRequest) (state : SessionState) : bool :=
  match state with
  | Closed => false
  | PreOpen | PreClose => auction_eligible req
  | _ => true
  end.

Definition dynamic_bands (s : engine IceExchange) (reference : Price) : Price * Price :=
  let width := s.(derived).(ipl_width) in
  if (reference <=? 0) || (width <=? 0) then (0, 0) else (reference - width, reference + width).

Definition ice_hooks : Hooks IceExchange := {|
  on_session_transition _ _ _ _ := true;
  is_order_allowed_in_phase _ := is_order_allowed;
  on_validate_order _ _ := true;
  on_validate_restore _ _ := true;
  is_tif_valid _ _ := true;
  on_validate_bust _ _ _ _ := true;
  is_position_check_enabled _ := false;
  get_position_limit _ _ := 0;
  is_rate_check_enabled _ := false;
  is_market_maker _ _ := false;
  is_self_match _ := same_set_account;
  get_smp_action s := s.(derived).(smp_action);
  get_modify_policy _ := CancelReplace;
  get_min_display_qty _ _ := 0;
  should_trigger_volatility_auction _ _ _ := false;
  calculate_dynamic_bands := dynamic_bands;
  on_daily_limit_hit _ _ _ s := s
|}.

Section breaker.
Context {params : EngineParams}.
#[local] Existing Instance ice_hooks.

Definition trigger_circuit_breaker (hold_until ts : Timestamp) : M (engine IceExchange) unit :=
  modify (λ s, set_derived (set_breaker true hold_until s.(derived)) s) ;;
  set_session_state Halt ts.

Definition resume_from_circuit_breaker (ts : Timestamp) : M (engine IceExchange) unit :=
  s ← get;
  if negb s.(derived).(circuit_breaker_active) then mret tt
  else
    modify (λ s, set_derived (set_breaker false 0 s.(derived)) s) ;;
    set_session_state Continuous ts.
End breaker.

(** RTO, ATO and CABO, the actions [set_smp_action] is documented to take. *)
Definition documented_action (action : SmpAction) : Prop :=
  action = CancelNewest ∨ action = CancelOldest ∨ action = CancelBoth.

#[global] Instance ice_hooks_ok : HooksOk IceExchange (hooks := ice_hooks).
Proof.
  refine {| derived_ok := λ d, documented_action d.(smp_action) |}; cbn; try done.
  unfold same_set_account. intros s s' o o' r r' -> ->. done.
Defined.
End Ice.

(** ** KRX *)

Module Krx.
Record KrxExchange : Type := mkKrx {
  band_pct : Z;
  vi_dynamic_pct : Z;
  static_band_pct : Z;
  prior_close_price : Price;
  sidecar_active : bool;
  current_limit_tier : Z;
  reference_price : Price
}.

Definition initial : KrxExchange := mkKrx 5 3 10 0 false 0 0.

Definition kProgrammeAccountThreshold : Z := 10000.
Definition kMaxLimitTier : Z := 3.
(** [kLimitTierPct[tier - 1]]. *)
Definition kLimitTierPct (tier : Z) : Z :=
  if tier =? 1 then 8 else if tier =? 2 then 15 else 20.

Definition set_tier (tier : Z) (d : KrxExchange) : KrxExchange :=
  mkKrx d.(band_pct) d.(vi_dynamic_pct) d.(static_band_pct) d.(prior_close_price)
    d.(sidecar_active) tier d.(reference_price).
Definition set_reference (price : Price) (d : KrxExchange) : KrxExchange :=
  mkKrx d.(band_pct) d.(vi_dynamic_pct) d.(static_band_pct) d.(prior_close_price)
    d.(sidecar_active) d.(current_limit_tier) price.
Definition set_sidecar (active : bool) (d : KrxExchange) : KrxExchange :=
  mkKrx d.(band_pct) d.(vi_dynamic_pct) d.(static_band_pct) d.(prior_close_price)
    active d.(current_limit_tier) d.(reference_price).

Definition set_band_percentage (pct : Z) (d : KrxExchange) : KrxExchange :=
  mkKrx pct d.(vi_dynamic_pct) d.(static_band_pct) d.(prior_close_price)
    d.(sidecar_active) d.(current_limit_tier) d.(reference_price).
Definition set_vi_dynamic_percentage (pct : Z) (d : KrxExchange) : KrxExchange :=
  mkKrx d.(band_pct) pct d.(static_band_pct) d.(prior_close_price)
    d.(sidecar_active) d.(current_limit_tier) d.(reference_price).
Definition set_static_band_percentage (pct : Z) (d : KrxExchange) : KrxExchange :=
  mkKrx d.(band_pct) d.(vi_dynamic_pct) pct d.(prior_close_price)
    d.(sidecar_active) d.(current_limit_tier) d.(reference_price).
Definition set_prior_close_price (price : Price) (d : KrxExchange) : KrxExchange :=
  mkKrx d.(band_pct) d.(vi_dynamic_pct) d.(static_band_pct) price
    d.(sidecar_active) d.(current_limit_tier) d.(reference_price).

Definition apply_limit_tier (tier : Z) (s : engine KrxExchange) : engine KrxExchange :=
  if (tier <? 1) || (tier >? kMaxLimitTier) then s
  else if s.(derived).(reference_price) <=? 0 then s
  else
    let reference := s.(derived).(reference_price) in
    let band := percent_of reference (kLimitTierPct tier) in
    set_config (set_daily_limit_low (reference - band)
                 (set_daily_limit_high (reference + band) s.(config)))
      (set_derived (set_tier tier s.(derived)) s).

Definition set_reference_price (price : Price) (s : engine KrxExchange) : engine KrxExchange :=
  let s1 := set_derived (set_reference price s.(derived)) s in
  if (price >? 0) && (s1.(derived).(current_limit_tier) =? 0) then apply_limit_tier 1 s1 else s1.

Definition validate_sidecar (s : engine KrxExchange) (req : OrderRequest) : bool :=
  negb (s.(derived).(sidecar_active) && (req.(r_account_id) >=? kProgrammeAccountThreshold)).

Definition dynamic_bands (s : engine KrxExchange) (reference : Price) : Price * Price :=
  if (reference <=? 0) || (s.(derived).(band_pct) <=? 0) then (0, 0)
  else
    let band := percent_of reference s.(derived).(band_pct) in
    (reference - band, reference + band).

(** [deviation > threshold] for one reference, when it and the percentage
    are set. *)
Definition deviates (price reference pct : Z) : bool :=
  (reference >? 0) && (pct >? 0) &&
  ((if price >? reference then price - reference else reference - price)
     >? percent_of reference pct).

Definition should_trigger_vi (s : engine KrxExchange) (trade_price reference : Price) : bool :=
  if deviates trade_price reference s.(derived).(vi_dynamic_pct) then true
  else deviates trade_price s.(derived).(prior_close_price) s.(derived).(static_band_pct).

(** The hooks, over the daily-limit hook. *)
Definition krx_hooks_with (limit_hit : Side → Price → Timestamp → engine KrxExchange → engine KrxExchange)
    : Hooks KrxExchange := {|
  on_session_transition _ _ _ _ := true;
  is_order_allowed_in_phase _ := Cme.is_order_allowed;
  on_validate_order := validate_sidecar;
  on_validate_restore _ _ := true;
  is_tif_valid _ _ := true;
  on_validate_bust _ _ _ _ := true;
  is_position_check_enabled _ := false;
  get_position_limit _ _ := 0;
  is_rate_check_enabled _ := false;
  is_market_maker _ _ := false;
  is_self_match _ := same_set_account;
  get_smp_action _ := CancelNewest;
  get_modify_policy _ := CancelReplace;
  get_min_display_qty _ _ := 0;
  should_trigger_volatility_auction := should_trigger_vi;
  calculate_dynamic_bands := dynamic_bands;
  on_daily_limit_hit := limit_hit
|}.

(** [this->set_session_state(state, ts)]; of the hooks it calls only
    [on_session_transition]. *)
Definition change_session (state : SessionState) (ts : Timestamp) (s : engine KrxExchange)
    : engine KrxExchange :=
  match set_session_state (hooks := krx_hooks_with (λ _ _ _ s, s)) state ts s with
  | Ok (_, s') => s'
  | _ => s
  end.

Definition limit_hit (side : Side) (limit_price : Price) (ts : Timestamp) (s : engine KrxExchange)
    : engine KrxExchange :=
  if s.(derived).(reference_price) <=? 0 then s
  else if s.(derived).(current_limit_tier) >=? kMaxLimitTier then s
  else change_session Continuous ts (apply_limit_tier (s.(derived).(current_limit_tier) + 1) s).

Definition krx_hooks : Hooks KrxExchange := krx_hooks_with limit_hit.

Lemma change_session_frame state ts s : session_change s (change_session state ts s).
Proof.
  unfold change_session, set_session_state, mbind, M_bind, get. cbn.
  case_if as E; cbn; [reflexivity|]. unfold when.
  case_if as E2; cbn; (split; try done; eexists [_]; split; [done|by repeat constructor]).
Qed.

Lemma apply_limit_tier_frame tier s : session_change s (apply_limit_tier tier s).
Proof.
  unfold apply_limit_tier. case_ifs; try reflexivity.
  split; try done. exists []. by rewrite app_nil_r.
Qed.

#[global] Instance krx_hooks_ok : HooksOk KrxExchange (hooks := krx_hooks).
Proof.
  refine {| derived_ok := λ _, True |}; cbn; try done.
  - intros side p ts s. unfold limit_hit. case_ifs; try reflexivity.
    etrans; [apply apply_limit_tier_frame|apply change_session_frame].
  - unfold same_set_account. intros s s' o o' r r' -> ->. done.
  - by left.
Defined.
End Krx.
