(* ===== verification/ExchangeTheorems.v ===== *)
(** * Guarantees of the derived exchanges *)

From S2P Require Import Prelude Types MatchAlgo MatchAlgoFacts MatchAlgoPriority Books Trackers.
From S2P Require Import Engine EngineInvariant EngineRules EngineFills EngineMatch EngineLoop.
From S2P Require Import EngineOrders EngineEntry EngineTheorems Exchanges.

(** ** KRX tiered daily limits *)

Section krx.
#[local] Existing Instance Krx.krx_hooks.
Implicit Types (s : engine Krx.KrxExchange) (ts : Timestamp).

(** The configured limits are those of the active tier. *)
Definition tier_limits s : Prop :=
  let d := s.(derived) in
  0 < d.(Krx.reference_price) ∧ 1 <= d.(Krx.current_limit_tier) <= 3 ∧
  s.(config).(daily_limit_high)
    = d.(Krx.reference_price) + percent_of d.(Krx.reference_price) (Krx.kLimitTierPct d.(Krx.current_limit_tier)) ∧
  s.(config).(daily_limit_low)
    = d.(Krx.reference_price) - percent_of d.(Krx.reference_price) (Krx.kLimitTierPct d.(Krx.current_limit_tier)).

(** The last trade is at or beyond a limit. *)
Definition at_limit s : Prop :=
  (0 < s.(config).(daily_limit_high) ∧ s.(config).(daily_limit_high) <= s.(last_trade_price)) ∨
  (0 < s.(config).(daily_limit_low) ∧ s.(last_trade_price) <= s.(config).(daily_limit_low)).

Lemma percent_mono reference a b : 0 <= reference → 0 <= a <= b →
  percent_of reference a <= percent_of reference b.
Proof. intros. unfold percent_of. apply Z.quot_le_mono; nia. Qed.

Lemma at_limit_hit s :
  at_limit s →
  negb ((s.(config).(daily_limit_high) >? 0) && (s.(last_trade_price) >=? s.(config).(daily_limit_high))) &&
  negb ((s.(config).(daily_limit_low) >? 0) && (s.(last_trade_price) <=? s.(config).(daily_limit_low)))
  = false.
Proof. unfold at_limit. lia. Qed.

Lemma change_session_to_continuous ts s :
  s.(current_state) = LockLimit →
  (Krx.change_session Continuous ts s).(current_state) = Continuous ∧
  (Krx.change_session Continuous ts s).(config) = s.(config) ∧
  (Krx.change_session Continuous ts s).(derived) = s.(derived).
Proof.
  intros Hs. unfold Krx.change_session, set_session_state, mbind, M_bind, get. cbn.
  rewrite bool_decide_eq_false_2 by congruence. cbn. unfold when.
  by destruct (last_trade_price s >? 0).
Qed.

Lemma apply_limit_tier_eq tier s :
  1 <= tier <= 3 → 0 < s.(derived).(Krx.reference_price) →
  let band := percent_of s.(derived).(Krx.reference_price) (Krx.kLimitTierPct tier) in
  Krx.apply_limit_tier tier s
  = set_config (set_daily_limit_low (s.(derived).(Krx.reference_price) - band)
      (set_daily_limit_high (s.(derived).(Krx.reference_price) + band) s.(config)))
      (set_derived (Krx.set_tier tier s.(derived)) s).
Proof.
  intros Ht Hr. unfold Krx.apply_limit_tier, Krx.kMaxLimitTier.
  case_if as E1; [lia|]. case_if as E2; [lia|]. done.
Qed.

Lemma tier_pct_mono tier : 1 <= tier < 3 →
  0 <= Krx.kLimitTierPct tier <= Krx.kLimitTierPct (tier + 1).
Proof. intros. unfold Krx.kLimitTierPct. case_ifs; lia. Qed.

(** The hook on a session just locked. *)
Lemma limit_hit_spec side p ts s :
  tier_limits s → s.(current_state) = LockLimit →
  let s' := Krx.limit_hit side p ts s in
  tier_limits s' ∧
  s'.(config).(daily_limit_low) <= s.(config).(daily_limit_low) ∧
  s.(config).(daily_limit_high) <= s'.(config).(daily_limit_high) ∧
  s'.(derived).(Krx.current_limit_tier) = Z.min 3 (s.(derived).(Krx.current_limit_tier) + 1) ∧
  s'.(current_state) = (if s.(derived).(Krx.current_limit_tier) <? 3 then Continuous else LockLimit).
Proof.
  intros (Hr & Ht & Hh & Hl) Hst s'. unfold s', Krx.limit_hit, Krx.kMaxLimitTier.
  case_if as E1; [lia|]. case_if as E2.
  - assert (Krx.current_limit_tier (derived s) = 3) as Heq by lia.
    split_and!; [done..| |]; rewrite Heq; done.
  - set (tier := Krx.current_limit_tier (derived s)) in *.
    rewrite apply_limit_tier_eq by lia.
    match goal with |- context [Krx.change_session Continuous ts ?x] => set (s1 := x) end.
    destruct (change_session_to_continuous ts s1 Hst) as (-> & Hc & Hd).
    assert (0 <= Krx.reference_price (derived s)) as Hr0 by lia.
    pose proof (percent_mono _ _ _ Hr0 (tier_pct_mono tier ltac:(lia))) as Hmono.
    unfold tier_limits. rewrite Hc, Hd. unfold s1. cbn. rewrite Hh, Hl.
    split_and!; try done; try lia.
  by rewrite (proj2 (Z.ltb_lt _ _)) by lia.
Qed.

(** When a trade hits a KRX daily limit below the widest tier, the next
    tier becomes active with limits that contain the old ones and trading
    resumes in the continuous session; at the widest tier the limits stay and
    the session is locked. *)
Theorem krx_limit_hit_widens ts s :
  tier_limits s → at_limit s → s.(current_state) ≠ LockLimit →
  ∃ s', check_daily_limit_hit ts s = Ok (true, s') ∧ tier_limits s' ∧
    s'.(config).(daily_limit_low) <= s.(config).(daily_limit_low) ∧
    s.(config).(daily_limit_high) <= s'.(config).(daily_limit_high) ∧
    s'.(derived).(Krx.current_limit_tier) = Z.min 3 (s.(derived).(Krx.current_limit_tier) + 1) ∧
    s'.(current_state) = (if s.(derived).(Krx.current_limit_tier) <? 3 then Continuous else LockLimit).
Proof.
  intros Ht Hat Hst. unfold check_daily_limit_hit, mbind, M_bind, get. cbn -[Krx.limit_hit].
  rewrite bool_decide_eq_false_2, (at_limit_hit s Hat) by done.
  cbn -[Krx.limit_hit]. eexists. split; [done|].
  match goal with |- context [Krx.limit_hit ?side ?p ts ?x] =>
    exact (limit_hit_spec side p ts x Ht eq_refl) end.
Qed.
End krx.

(** A KRX engine on the first tier around 100, last traded at 108. *)
Definition krx_engine : engine Krx.KrxExchange :=
  set_last_trade_price 108
    (Krx.set_reference_price 100
       (init_engine (params := demo_params) demo_config Krx.initial (λ _, blank_order))).

Lemma krx_limit_hit_widens_witness :
  ∃ s', check_daily_limit_hit (hooks := Krx.krx_hooks) 7 krx_engine = Ok (true, s') ∧
    tier_limits s' ∧ s'.(config).(daily_limit_low) <= 92 ∧ 108 <= s'.(config).(daily_limit_high) ∧
    s'.(derived).(Krx.current_limit_tier) = Z.min 3 2 ∧
    s'.(current_state) = (if 1 <? 3 then Continuous else LockLimit).
Proof.
  apply (krx_limit_hit_widens 7 krx_engine);
    [repeat split; by vm_compute|left; split; by vm_compute|by vm_compute].
Defined.

(** ** CME price bands *)

Section cme.
Context {params : EngineParams} {algo : MatchAlgorithm}.
#[local] Existing Instance Cme.cme_hooks.
Implicit Types (s : engine Cme.CmeExchange) (req : OrderRequest).

(** The price is at most [band_pct] percent away from the last trade. *)
Definition in_band s (price : Price) : Prop :=
  let last := s.(last_trade_price) in
  last - percent_of last s.(derived).(Cme.band_pct) <= price <=
  last + percent_of last s.(derived).(Cme.band_pct).

Lemma out_of_band_invalid req s :
  0 < s.(last_trade_price) → 0 < s.(derived).(Cme.band_pct) →
  is_priced req.(r_type) = true → ¬ in_band s req.(r_price) → ¬ valid_request req s.
Proof.
  intros Hl Hb Hp Hout Hv. destruct (vr_price _ _ Hv Hp) as (Hpos & _ & Hw & _). apply Hout.
  revert Hw. cbn. unfold Cme.dynamic_bands. case_if as E; [lia|]. cbn. intros [Hlo Hhi].
  assert (0 <= percent_of (last_trade_price s) (Cme.band_pct (derived s))).
  { apply Z.quot_pos; lia. }
  unfold in_band. lia.
Qed.

(** With a last trade and a band percentage set, CME refuses every
    limit or stop-limit order priced outside the band around the last trade:
    one rejection is sent and nothing else happens. *)
Theorem cme_band_guard fuel req s :
  ready s → (Z.to_nat req.(r_quantity) + budget s + 1 <= fuel)%nat →
  0 < s.(last_trade_price) → 0 < s.(derived).(Cme.band_pct) →
  is_priced req.(r_type) = true → ¬ in_band s req.(r_price) →
  ∃ r, new_order fuel req s
       = Ok (tt, says [OrderRejected req.(r_client_order_id) req.(r_timestamp) r] s).
Proof.
  intros Hr Hf Hl Hb Hp Hout.
  destruct (wp_eq _ _ _ (wp_new_order fuel req s Hr Hf)) as ([] & s' & Hrun & Hs).
  assert (Hid : set_rate_tracker s.(rate_tracker) s = s) by (by destruct s).
  destruct Hs as [r t Ht _ ->|t evs Ht Hval _ _ _ _ _ _ _ _];
    rewrite (Ht eq_refl), Hid in *; [by exists r|].
  by destruct (out_of_band_invalid req s).
Qed.
End cme.

Definition cme_engine : engine Cme.CmeExchange :=
  set_last_trade_price 100
    (init_engine (params := demo_params) demo_config (Cme.mkCme 10) (λ _, blank_order)).

Lemma cme_band_guard_witness :
  ∃ r, new_order (params := demo_params) (hooks := Cme.cme_hooks) (algo := fifo_algorithm) 50
         (demo_request 1 Buy Limit DAY 111 5 0) cme_engine
       = Ok (tt, says [OrderRejected 7 1000 r] cme_engine).
Proof.
  apply (cme_band_guard (params := demo_params) (algo := fifo_algorithm) 50
           (demo_request 1 Buy Limit DAY 111 5 0) cme_engine).
  - split; [|done|split; [apply Nat.leb_le; by vm_compute|intros lv Hlv; by apply elem_of_nil in Hlv]].
    exact (inv_init (params := demo_params) demo_config (Cme.mkCme 10) (λ _, blank_order)).
  - apply Nat.leb_le. by vm_compute.
  - done.
  - done.
  - done.
  - intros [_ H]. by vm_compute in H.
Defined.


(** ** ICE *)

Section ice.
Context {params : EngineParams}.
#[local] Existing Instance Ice.ice_hooks.
Implicit Types (s : engine Ice.IceExchange) (ts : Timestamp).

Lemma set_session_state_to (st : SessionState) ts s :
  ∃ s', set_session_state st ts s = Ok (tt, s') ∧ s'.(current_state) = st ∧
    s'.(derived) = s.(derived) ∧ s'.(bids) = s.(bids) ∧ s'.(asks) = s.(asks) ∧
    s'.(trace) = s.(trace) ++
      (if bool_decide (s.(current_state) = st) then [] else [MarketStatus st ts]).
Proof.
  unfold set_session_state, mbind, M_bind, get. cbn.
  case_bool_decide as E; cbn; [exists s; rewrite app_nil_r; by split_and!|].
  unfold when. destruct (_ && _); eexists; by split_and!.
Qed.

(** The circuit breaker halts the market and records when it may
    resume; resuming reopens continuous trading and clears both, with the
    books as they were, and resuming again does nothing. *)
Theorem ice_breaker_cycle hold ts ts' s :
  s.(current_state) ≠ Halt →
  ∃ s1 s2, Ice.trigger_circuit_breaker hold ts s = Ok (tt, s1) ∧
    s1.(current_state) = Halt ∧ s1.(derived) = Ice.set_breaker true hold s.(derived) ∧
    Ice.resume_from_circuit_breaker ts' s1 = Ok (tt, s2) ∧
    s2.(current_state) = Continuous ∧ s2.(derived) = Ice.set_breaker false 0 s.(derived) ∧
    (s2.(bids), s2.(asks)) = (s.(bids), s.(asks)) ∧
    s2.(trace) = s.(trace) ++ [MarketStatus Halt ts; MarketStatus Continuous ts'] ∧
    Ice.resume_from_circuit_breaker ts' s2 = Ok (tt, s2).
Proof.
  intros Hst.
  destruct (set_session_state_to Halt ts (set_derived (Ice.set_breaker true hold s.(derived)) s))
    as (s1 & Hrun1 & Hst1 & Hd1 & Hb1 & Ha1 & Ht1).
  destruct (set_session_state_to Continuous ts' (set_derived (Ice.set_breaker false 0 s1.(derived)) s1))
    as (s2 & Hrun2 & Hst2 & Hd2 & Hb2 & Ha2 & Ht2).
  cbn in *. rewrite bool_decide_eq_false_2 in Ht1, Ht2 by congruence.
  exists s1, s2. rewrite Hd1 in Hd2. cbn in Hd2.
  split_and!; try done.
  - unfold Ice.resume_from_circuit_breaker, mbind, M_bind, get.
    assert (Ice.circuit_breaker_active (derived s1) = true) as -> by (by rewrite Hd1). exact Hrun2.
  - by rewrite Hb2, Ha2, Hb1, Ha1.
  - rewrite Ht2, Ht1. by rewrite <- app_assoc.
  - unfold Ice.resume_from_circuit_breaker, mbind, M_bind, get. by rewrite Hd2.
Qed.
End ice.

Definition ice_engine (action : SmpAction) : engine Ice.IceExchange :=
  init_engine (params := demo_params) demo_config (Ice.set_smp_action action Ice.initial)
    (λ _, blank_order).

Lemma ice_breaker_cycle_witness :
  ∃ s1 s2, Ice.trigger_circuit_breaker 50 7 (ice_engine CancelBoth) = Ok (tt, s1) ∧
    s1.(current_state) = Halt ∧
    s1.(derived) = Ice.set_breaker true 50 (ice_engine CancelBoth).(derived) ∧
    Ice.resume_from_circuit_breaker 60 s1 = Ok (tt, s2) ∧ s2.(current_state) = Continuous ∧
    s2.(derived) = Ice.set_breaker false 0 (ice_engine CancelBoth).(derived) ∧
    (s2.(bids), s2.(asks)) = ([], []) ∧
    s2.(trace) = [] ++ [MarketStatus Halt 7; MarketStatus Continuous 60] ∧
    Ice.resume_from_circuit_breaker 60 s2 = Ok (tt, s2).
Proof. by apply (ice_breaker_cycle 50 7 60 (ice_engine CancelBoth)). Defined.

(** The action [Decrement], which [set_smp_action] accepts as well. *)
Section decrement.
#[local] Existing Instance demo_params.
#[local] Existing Instance Ice.ice_hooks.
#[local] Instance decrement_algorithm : MatchAlgorithm := fifo_algorithm.

(** A resting sell order of account 1, and a buy order of the same account
    about to be matched against it. *)
Definition decrement_engine : engine Ice.IceExchange :=
  match new_order 5 sell_request (ice_engine Decrement) with
  | Ok (_, s) => s
  | _ => ice_engine Decrement
  end.
Definition own_order : Order := mkOrder 2 7 1 100 4 0 4 Buy Limit DAY 1000 0 0 4 false false.
Definition own_engine : engine Ice.IceExchange :=
  admitted 1 own_order (tail decrement_engine.(order_free)) ∅ sell_request decrement_engine.

Lemma decrement_level :
  ∃ level rest o1 fs s1,
    side_levels Sell own_engine = level :: rest ∧ matchable own_order level.(lv_price) = true ∧
    match_level own_order level rest own_engine = Ok ((o1, fs), s1) ∧
    process_fills 1 o1 fs 1000 s1 = Ok ((own_order, true), own_engine) ∧
    check_daily_limit_hit 1000 own_engine = Ok (false, own_engine) ∧
    check_volatility_interruption 1000 own_engine = Ok (false, own_engine).
Proof.
  do 5 eexists. split; [vm_compute; reflexivity|]. split; [vm_compute; reflexivity|].
  split; [vm_compute; reflexivity|]. split_and!; by vm_compute.
Qed.

Lemma decrement_step fuel :
  match_loop (S fuel) 1 own_order 1000 own_engine = match_loop fuel 1 own_order 1000 own_engine.
Proof.
  destruct decrement_level as (level & rest & o1 & fs & s1 & Hlv & Hm & Hmatch & Hfills & Hhit & Hvi).
  cbn [match_loop]. unfold mbind, M_bind, get.
  change (negb (o_remaining_quantity own_order >? 0)) with false. cbv beta iota.
  change (opposite (o_side own_order)) with Sell. rewrite Hlv, Hm. cbn [negb].
  rewrite Hmatch, Hfills, Hhit, Hvi. done.
Qed.

(** Under the action [Decrement] a self match never ends: whatever the
    number of iterations granted, matching the order has not returned. *)
Theorem ice_decrement_never_returns fuel :
  match_order fuel (1%nat, own_order) 1000 own_engine = Fuel.
Proof.
  assert (match_loop fuel 1 own_order 1000 own_engine = Fuel) as Hloop.
  { induction fuel as [|fuel IH]; [by vm_compute|]. by rewrite decrement_step. }
  unfold match_order, mbind, M_bind, get.
  cbn [fst snd]. rewrite bool_decide_eq_false_2 by done. cbn [andb]. cbv beta iota.
  by rewrite Hloop.
Qed.
End decrement.
