(* ===== verification/Auction.v ===== *)
(** * The auction price

    [calculate_auction_price] against its documentation: the price that
    maximises the volume, then minimises the imbalance, then the distance to
    the reference, then is the highest; and no price at all would trade more. *)

From S2P Require Import Prelude Types MatchAlgo Books Trackers Engine EngineInvariant.

(** ** Volumes *)

Lemma buy_volume_cons p lv levels :
  buy_volume p (lv :: levels)
  = (if lv.(lv_price) >=? p then lv.(lv_total_quantity) else 0) + buy_volume p levels.
Proof. done. Qed.
Lemma sell_volume_cons p lv levels :
  sell_volume p (lv :: levels)
  = (if lv.(lv_price) <=? p then lv.(lv_total_quantity) else 0) + sell_volume p levels.
Proof. done. Qed.

(** Levels hold no negative totals. *)
Definition totals_ok (levels : list PriceLevel) : Prop :=
  Forall (λ lv, 0 <= lv.(lv_total_quantity)) levels.

Lemma buy_volume_nonneg p levels : totals_ok levels → 0 <= buy_volume p levels.
Proof. intros H. apply sum_by_nonneg. eapply Forall_impl; [exact H|]. cbn. intros lv. case_ifs; lia. Qed.
Lemma sell_volume_nonneg p levels : totals_ok levels → 0 <= sell_volume p levels.
Proof. intros H. apply sum_by_nonneg. eapply Forall_impl; [exact H|]. cbn. intros lv. case_ifs; lia. Qed.

Lemma sell_volume_mono p q levels :
  totals_ok levels → p <= q → sell_volume p levels <= sell_volume q levels.
Proof.
  intros H Hpq. apply sum_by_mono. eapply Forall_impl; [exact H|]. cbn. intros lv.
  case_ifs; lia.
Qed.
Lemma buy_volume_mono p q levels :
  totals_ok levels → p <= q → buy_volume q levels <= buy_volume p levels.
Proof.
  intros H Hpq. apply sum_by_mono. eapply Forall_impl; [exact H|]. cbn. intros lv.
  case_ifs; lia.
Qed.

(** The volume at a price with buyers is that of some bid price above it. *)
Lemma buy_volume_step p levels :
  buy_volume p levels ≠ 0 →
  ∃ q, q ∈ prices levels ∧ p <= q ∧ buy_volume q levels = buy_volume p levels.
Proof.
  intros Hne.
  assert (H : ∃ q, q ∈ prices levels ∧ p <= q ∧
                ∀ r, r ∈ prices levels → p <= r → q <= r).
  { assert (Hex : ∃ q, q ∈ prices levels ∧ p <= q).
    { induction levels as [|lv levels IH]; [done|]. rewrite buy_volume_cons in Hne.
      unfold prices. cbn. destruct (lv_price lv >=? p) eqn:E.
      - exists (lv_price lv). split; [by left|lia].
      - destruct IH as (q & Hq & ?); [lia|]. exists q. split; [by right|done]. }
    clear Hne. destruct Hex as (q & Hq & Hpq). revert Hq Hpq.
    generalize (prices levels). intros ps. revert q.
    induction ps as [|r ps IH]; intros q Hq Hpq; [by apply elem_of_nil in Hq|].
    destruct (decide (Exists (λ x, p <= x) ps)) as [[x [Hx Hpx]]%Exists_exists|Hno].
    - destruct (IH x Hx Hpx) as (m & Hm & Hpm & Hmin).
      destruct (decide (p <= r ∧ r < m)) as [[? ?]|Hr].
      + exists r. split_and!; [by left|done|]. intros y [->|Hy]%elem_of_cons Hpy; [lia|].
        specialize (Hmin y Hy Hpy). lia.
      + exists m. split_and!; [by right|done|]. intros y [->|Hy]%elem_of_cons Hpy; [lia|].
        by apply Hmin.
    - exists q. split_and!; [done|done|]. rewrite Exists_exists in Hno.
      intros y [->|Hy]%elem_of_cons Hpy; [|destruct Hno; by exists y].
      apply elem_of_cons in Hq as [->|Hq]; [lia|destruct Hno; by exists q]. }
  destruct H as (q & Hq & Hpq & Hmin). exists q. split_and!; [done|done|].
  apply sum_by_ext, Forall_forall. intros lv Hlv.
  assert (Hp : lv.(lv_price) ∈ prices levels) by (by apply list_elem_of_fmap_2).
  specialize (Hmin _ Hp). case_ifs; lia.
Qed.

(** ** Candidate prices *)

Lemma unique_elem p ps : p ∈ unique ps ↔ p ∈ ps.
Proof.
  induction ps as [|q ps IH]; [done|]. destruct ps as [|q' ps]; [done|].
  change (unique (q :: q' :: ps))
    with (if q =? q' then unique (q' :: ps) else q :: unique (q' :: ps)).
  destruct (q =? q') eqn:E.
  - rewrite IH, !elem_of_cons. assert (q = q') by lia. naive_solver.
  - rewrite elem_of_cons, IH. by rewrite !elem_of_cons.
Qed.

Section price.
Context {D : Type}.
Implicit Types (s : engine D).

Lemma candidate_elem p s :
  p ∈ candidate_prices s ↔ p ∈ prices s.(bids) ∨ p ∈ prices s.(asks).
Proof.
  unfold candidate_prices. rewrite unique_elem.
  rewrite (merge_sort_Permutation Z.le). by rewrite elem_of_app.
Qed.

(** What would trade at a price, and how far the sides are apart. *)
Definition volume_at s (p : Price) : Quantity :=
  Z.min (buy_volume p s.(bids)) (sell_volume p s.(asks)).
Definition imbalance_at s (p : Price) : Quantity :=
  Z.abs (buy_volume p s.(bids) - sell_volume p s.(asks)).

(** The order of preference among prices. *)
Definition preferred s (reference p q : Price) : Prop :=
  volume_at s q < volume_at s p ∨
  volume_at s q = volume_at s p ∧
    (imbalance_at s p < imbalance_at s q ∨
     imbalance_at s p = imbalance_at s q ∧
       (Z.abs (p - reference) < Z.abs (q - reference) ∨
        Z.abs (p - reference) = Z.abs (q - reference) ∧ q < p)).

(** The best of the candidates seen so far. *)
Definition best_of s (reference : Price) (seen : list Price) (best : auction_best) : Prop :=
  if best.(b_result).(a_has_price) then
    let p := best.(b_result).(a_price) in
    p ∈ seen ∧ volume_at s p ≠ 0 ∧
    best.(b_result) = mkAuction p (volume_at s p) (buy_volume p s.(bids) - volume_at s p)
                        (sell_volume p s.(asks) - volume_at s p) true ∧
    best.(b_imbalance) = imbalance_at s p ∧ best.(b_ref_dist) = Z.abs (p - reference) ∧
    ∀ q, q ∈ seen → volume_at s q ≠ 0 → q = p ∨ preferred s reference p q
  else ∀ q, q ∈ seen → volume_at s q = 0.

Lemma is_better_spec s reference p m bs ss c :
  let best := mkBest (mkAuction p m bs ss true) (imbalance_at s p) (Z.abs (p - reference)) in
  m = volume_at s p →
  if is_better best c (volume_at s c) (imbalance_at s c) (Z.abs (c - reference))
  then preferred s reference c p else c = p ∨ preferred s reference p c.
Proof.
  intros best ->. unfold is_better, preferred, best. cbn. rewrite !Z.gtb_ltb.
  destruct (Z.ltb_spec (volume_at s p) (volume_at s c)); [lia|].
  destruct (Z.eqb_spec (volume_at s c) (volume_at s p)); [|lia].
  destruct (Z.ltb_spec (imbalance_at s c) (imbalance_at s p)); [lia|].
  destruct (Z.eqb_spec (imbalance_at s c) (imbalance_at s p)); [|lia].
  destruct (Z.ltb_spec (Z.abs (c - reference)) (Z.abs (p - reference))); [lia|].
  destruct (Z.eqb_spec (Z.abs (c - reference)) (Z.abs (p - reference))); [|lia].
  destruct (Z.ltb_spec p c); lia.
Qed.

Lemma preferred_trans s reference p q r :
  preferred s reference p q → preferred s reference q r → preferred s reference p r.
Proof. unfold preferred. lia. Qed.

Lemma consider_best s reference seen best c :
  best_of s reference seen best → best_of s reference (c :: seen) (consider reference s best c).
Proof.
  intros Hb. unfold consider. fold (volume_at s c) (imbalance_at s c).
  destruct (volume_at s c =? 0) eqn:Hz.
  - unfold best_of in *. destruct (a_has_price _).
    + destruct Hb as (? & ? & ? & ? & ? & Hall). split_and!; try done; [by right|].
      intros q [->|Hq]%elem_of_cons Hne; [lia|]. by apply Hall.
    + intros q [->|Hq]%elem_of_cons; [lia|]. by apply Hb.
  - destruct best as [[p m bs ss [|]] imb dist]; unfold best_of in Hb; cbn in Hb.
    + destruct Hb as (Hp & Hne & Heq & -> & -> & Hall). injection Heq as Hm Hbs Hss.
      pose proof (is_better_spec s reference p m bs ss c Hm) as Hcmp.
      destruct (is_better _ _ _ _ _); unfold best_of; cbn.
      * split_and!; [by left|lia|done..|]. intros q [->|Hq]%elem_of_cons Hq0; [by left|]. right.
        destruct (Hall q Hq Hq0) as [->|]; [done|]. by eapply preferred_trans.
      * split_and!; [by right|done|congruence|done..|].
        intros q [->|Hq]%elem_of_cons Hq0; [done|by apply Hall].
    + unfold best_of. cbn. split_and!; [by left|lia|done..|].
      intros q [->|Hq]%elem_of_cons Hq0; [by left|]. by destruct Hq0; apply Hb.
Qed.

Lemma fold_best s reference cs seen best :
  best_of s reference seen best →
  best_of s reference (rev cs ++ seen) (fold_left (consider reference s) cs best).
Proof.
  revert seen best. induction cs as [|c cs IH]; intros seen best Hb; [done|].
  cbn. rewrite <- app_assoc. cbn. apply IH. by apply consider_best.
Qed.

(** No price trades more than some candidate. *)
Lemma volume_candidate s p :
  totals_ok s.(bids) → totals_ok s.(asks) → volume_at s p ≠ 0 →
  ∃ q, q ∈ candidate_prices s ∧ volume_at s p <= volume_at s q.
Proof.
  intros Hb Ha Hv. unfold volume_at in *.
  pose proof (buy_volume_nonneg p _ Hb). pose proof (sell_volume_nonneg p _ Ha).
  destruct (buy_volume_step p s.(bids)) as (q & Hq & Hpq & Heq); [lia|].
  exists q. rewrite candidate_elem. split; [by left|].
  pose proof (sell_volume_mono p q _ Ha Hpq). lia.
Qed.

Lemma calculate_best s reference :
  ∃ best, best_of s reference (rev (candidate_prices s)) best ∧
    best.(b_result) = calculate_auction_price reference s.
Proof.
  eexists. split; [|done]. pose proof (fold_best s reference (candidate_prices s) [] no_best) as H.
  rewrite app_nil_r in H. apply H. intros q Hq. by apply elem_of_nil in Hq.
Qed.

(** The result at once. *)
Lemma auction_price_spec s reference :
  totals_ok s.(bids) → totals_ok s.(asks) →
  let r := calculate_auction_price reference s in
  (∀ q, volume_at s q <= (if r.(a_has_price) then r.(a_matched_volume) else 0)) ∧
  (r.(a_has_price) = true →
     r.(a_price) ∈ candidate_prices s ∧ 0 < r.(a_matched_volume) ∧
     r.(a_matched_volume) = volume_at s r.(a_price) ∧
     r.(a_buy_surplus) = buy_volume r.(a_price) s.(bids) - r.(a_matched_volume) ∧
     r.(a_sell_surplus) = sell_volume r.(a_price) s.(asks) - r.(a_matched_volume) ∧
     ∀ q, q ∈ candidate_prices s → 0 < volume_at s q →
       q = r.(a_price) ∨ preferred s reference r.(a_price) q).
Proof.
  intros Hb Ha r. destruct (calculate_best s reference) as (best & Hbest & Hr).
  fold r in Hr. unfold best_of in Hbest. rewrite Hr in Hbest. clear Hr.
  assert (Hpos : ∀ q, 0 <= volume_at s q).
  { intros q. unfold volume_at. pose proof (buy_volume_nonneg q _ Hb).
    pose proof (sell_volume_nonneg q _ Ha). lia. }
  destruct (a_has_price r).
  - destruct Hbest as (Hin & Hne & Heq & _ & _ & Hall).
    rewrite <- (rev_involutive (candidate_prices s)). setoid_rewrite list_elem_of_In.
    setoid_rewrite <- in_rev.
    pose proof (Hpos (a_price r)). rewrite Heq. cbn.
    assert (Hle : ∀ q, q ∈ rev (candidate_prices s) → volume_at s q <= volume_at s (a_price r)).
    { intros q Hq. destruct (decide (volume_at s q = 0)); [lia|].
      destruct (Hall q Hq) as [->|Hp]; [done|lia|]. unfold preferred in Hp. lia. }
    split.
    + intros q. destruct (decide (volume_at s q = 0)); [lia|].
      destruct (volume_candidate s q) as (c & Hc & ?); [done..|].
      specialize (Hle c). rewrite list_elem_of_In, <- in_rev, <- list_elem_of_In in Hle.
      specialize (Hle Hc). lia.
    + intros _. split_and!; [by apply list_elem_of_In|lia|done..|].
      intros q Hq Hv. apply Hall; [by apply list_elem_of_In|lia].
  - split; [|done]. intros q. destruct (decide (volume_at s q = 0)); [lia|].
    destruct (volume_candidate s q) as (c & Hc & ?); [done..|].
    rewrite (Hbest c) in *; [lia|]. by rewrite list_elem_of_In, <- in_rev, <- list_elem_of_In.
Qed.
End price.
