(* ===== verification/AuctionRun.v ===== *)
(** * Running an auction

    [auction_fill] takes the same quantity from an order at the best bid level
    and one at the best ask level.  Each side ends in one of four ways
    ([drained]); the engine's invariant holds again when both are settled.
    In the loops of [execute_auction] every iteration trades, so the volume left
    bounds them; the sides' volumes at every price follow the quantity traded. *)

From S2P Require Import Prelude Types MatchAlgo MatchAlgoFacts Books Trackers Engine.
From S2P Require Import EngineInvariant EngineRules EngineFills EngineMatch Auction.

(** ** One side *)

(** A level list [lv :: rest] after the order [r] at [k] gave [x]: the pointer
    the loop goes on with, and the levels. *)
Inductive drained (lv : PriceLevel) (rest : list PriceLevel) (k : loc) (r : Order) (x : Quantity)
    : option loc → list PriceLevel → Prop :=
  | drained_part :
      x < r.(o_remaining_quantity) →
      drained lv rest k r x (Some k) (reduced_level lv k x :: rest)
  | drained_reveal :
      x = r.(o_remaining_quantity) → has_hidden (fill_order x r) = true →
      drained lv rest k r x (Some k) (revealed_level lv k r x :: rest)
  | drained_order :
      x = r.(o_remaining_quantity) → has_hidden (fill_order x r) = false →
      lv.(lv_order_count) - 1 ≠ 0 →
      drained lv rest k r x (successor k lv.(lv_queue)) (detach_order k x lv :: rest)
  | drained_level :
      x = r.(o_remaining_quantity) → has_hidden (fill_order x r) = false →
      lv.(lv_order_count) - 1 = 0 →
      drained lv rest k r x (successor k lv.(lv_queue)) rest.

Lemma successor_update l k g (q : list entry) : successor l (update_entry k g q) = successor l q.
Proof.
  induction q as [|e q IH]; [done|]. rewrite update_entry_cons. cbn.
  assert (Hh : ∀ q' : list entry, fst <$> head (update_entry k g q') = fst <$> head q').
  { intros [|e' q']; [done|]. rewrite update_entry_cons. cbn. by case_match. }
  destruct (e.1 =? k)%nat; cbn; by rewrite Hh, IH.
Qed.

Lemma successor_elem l m (q : list entry) :
  NoDup q.*1 → successor l q = Some m → m ∈ (remove_entry l q).*1.
Proof.
  induction q as [|e q IH]; [done|]. intros [Hni Hnd]%NoDup_cons. cbn.
  destruct (e.1 =? l)%nat eqn:E.
  - destruct q as [|e' q]; [done|]. intros [= <-]. by left.
  - intros Hs. cbn. right. by apply IH.
Qed.

Lemma detach_reduced lv k r x :
  NoDup lv.(lv_queue).*1 → x = r.(o_remaining_quantity) →
  detach_order k (o_remaining_quantity (fill_order x r)) (reduced_level lv k x)
  = detach_order k r.(o_remaining_quantity) lv.
Proof.
  intros Hnd ->. unfold detach_order. cbn. rewrite remove_entry_update by done. f_equal. lia.
Qed.

Lemma remove_reduced lv rest k r x v freed :
  NoDup lv.(lv_queue).*1 → find_entry k lv.(lv_queue) = Some r → x = r.(o_remaining_quantity) →
  remove_order k (lv :: rest) = Some (v, r, freed) →
  remove_order k (reduced_level lv k x :: rest) = Some (v, fill_order x r, freed).
Proof.
  intros Hnd Hf Hx. cbn [remove_order]. rewrite Hf.
  change (lv_queue (reduced_level lv k x)) with (update_entry k (fill_order x) lv.(lv_queue)).
  rewrite find_entry_update, Hf. cbn -[detach_order reduced_level fill_order].
  rewrite detach_reduced by done. case_if as E; by intros [= <- <-].
Qed.

Lemma reveal_levels lv rest k r x :
  NoDup lv.(lv_queue).*1 → find_entry k lv.(lv_queue) = Some r →
  let n := next_tranche (fill_order x r) in
  update_order k (set_o_remaining_quantity n) (λ lv', add_total n (move_to_back k lv'))
    (reduced_level lv k x :: rest)
  = revealed_level lv k r x :: rest.
Proof.
  intros Hnd Hf n. cbn [update_order].
  change (lv_queue (reduced_level lv k x)) with (update_entry k (fill_order x) lv.(lv_queue)).
  rewrite find_entry_update, Hf. cbn [fmap option_fmap option_map]. f_equal.
  unfold move_to_back. change (lv_queue (set_lv_queue ?q ?l)) with q.
  rewrite !find_entry_update, Hf. cbn [fmap option_fmap option_map].
  rewrite !remove_entry_update by (rewrite ?update_entry_locs; done).
  unfold revealed_level, add_total, set_lv_queue, set_lv_total_quantity, n. cbn -[next_tranche].
  f_equal. lia.
Qed.

Lemma revealed_find lv k r x :
  NoDup lv.(lv_queue).*1 → (k, r) ∈ lv.(lv_queue) →
  find_entry k (lv_queue (revealed_level lv k r x))
  = Some (set_o_remaining_quantity (next_tranche (fill_order x r)) (fill_order x r)).
Proof.
  intros Hnd Hin. apply find_entry_elem; [|apply elem_of_app; right; by left].
  pose proof (queue_split lv k r Hnd Hin) as Hp.
  assert (Hp' : lv.(lv_queue).*1 ≡ₚ ((k, r) :: remove_entry k lv.(lv_queue)).*1) by (by rewrite <- Hp).
  rewrite Hp' in Hnd. unfold revealed_level. cbn -[next_tranche]. rewrite fmap_app.
  cbn [fmap list_fmap fst]. rewrite <- Permutation_cons_append. exact Hnd.
Qed.

Section side.
Context {D : Type} {params : EngineParams} {hooks : Hooks D} {algo : MatchAlgorithm}.
Implicit Types (s : engine D) (ts : Timestamp) (k : loc) (r : Order) (lv : PriceLevel).
Implicit Types (sd : Side) (ov rest : list PriceLevel).

(** The state whose two book sides are given and not those of [s]. *)
Definition virtually sd v ov s : engine D :=
  set_side_levels (opposite sd) ov (set_side_levels sd v s).

(** What the two sides' bookkeeping leaves alone. *)
Record frame s s' : Prop := {
  fr_session : same_session s s';
  fr_buy_stops : s'.(buy_stops) = s.(buy_stops);
  fr_sell_stops : s'.(sell_stops) = s.(sell_stops);
  fr_next : s'.(next_order_id) = s.(next_order_id)
}.

#[global] Instance frame_preorder : PreOrder frame.
Proof.
  split; [by split|]. intros s1 s2 s3 [] []. split; [by etrans|congruence..].
Qed.

(** One side settled: from a state where it shows the reduced level. *)
Record settled_side sd ov lv rest k r x s (ptr : option loc) s' : Prop := {
  sd_drained : drained lv rest k r x ptr (side_levels sd s');
  sd_other : side_levels (opposite sd) s' = side_levels (opposite sd) s;
  sd_inv : inv [] (set_side_levels (opposite sd) ov s');
  sd_frame : frame s s';
  sd_trace : ∃ evs, s'.(trace) = s.(trace) ++ evs ∧ Forall mute evs
}.

Lemma virtual_entry sd ov lv rest k r s :
  inv [] (virtually sd (lv :: rest) ov s) → find_entry k lv.(lv_queue) = Some r →
  lv_ok (book_order sd) lv ∧ NoDup lv.(lv_queue).*1 ∧ (k, r) ∈ lv.(lv_queue) ∧ r.(o_side) = sd.
Proof.
  intros Hi Hf. apply find_entry_Some in Hf.
  assert (Hi' : inv [] (set_side_levels sd (lv :: rest) (set_side_levels (opposite sd) ov s)))
    by (by destruct sd).
  destruct (virtual_level_ok [] sd lv rest _ Hi') as [Hok Hnd].
  split_and!; try done. destruct Hok as [_ _ _ Ho]. rewrite Forall_forall in Ho.
  by destruct (Ho _ Hf) as (? & _).
Qed.

(** Replace the level by one with the same orders. *)
Lemma virtually_update sd ov lv lv' rest s :
  inv [] (virtually sd (lv :: rest) ov s) →
  lv_slot lv' = lv_slot lv → lv_price lv' = lv_price lv → lv_ok (book_order sd) lv' →
  key <$> lv_queue lv' ≡ₚ key <$> lv_queue lv →
  inv [] (virtually sd (lv' :: rest) ov s).
Proof.
  intros Hi ? ? ? ?.
  assert (Hi' : inv [] (set_side_levels sd (lv :: rest) (set_side_levels (opposite sd) ov s)))
    by (by destruct sd).
  pose proof (virtual_update [] sd lv lv' rest _ Hi') as Hu. destruct sd; by apply Hu.
Qed.

Lemma settle_part sd ov lv rest k r x s :
  inv [] (virtually sd (lv :: rest) ov s) → find_entry k lv.(lv_queue) = Some r →
  side_levels sd s = reduced_level lv k x :: rest → x < r.(o_remaining_quantity) →
  settled_side sd ov lv rest k r x s (Some k) s.
Proof.
  intros Hi Hf Hs Hx. destruct (virtual_entry _ _ _ _ _ _ _ Hi Hf) as (Hok & Hnd & Hin & _).
  split; [rewrite Hs; by constructor|done| |done|exists []; by rewrite app_nil_r].
  pose proof (virtually_update sd ov lv (reduced_level lv k x) rest s Hi) as Hu.
  unfold virtually in Hu. rewrite <- Hs, set_side_id in Hu. apply Hu; try done.
  - by eapply reduced_level_ok.
  - by rewrite reduced_level_keys.
Qed.

Lemma wp_settle_reveal sd ov lv rest k r x ts s :
  inv [] (virtually sd (lv :: rest) ov s) → find_entry k lv.(lv_queue) = Some r →
  side_levels sd s = reduced_level lv k x :: rest → x = r.(o_remaining_quantity) →
  has_hidden (fill_order x r) = true →
  wp (reveal_tranche k (fill_order x r) ts)
    (λ _ s', settled_side sd ov lv rest k r x s (Some k) s') s.
Proof.
  intros Hi Hf Hs Hx Hh. destruct (virtual_entry _ _ _ _ _ _ _ Hi Hf) as (Hok & Hnd & Hin & Hsd).
  unfold reveal_tranche, store_side. wp_steps.
  change (o_side (fill_order x r)) with (o_side r). rewrite Hsd, Hs.
  rewrite reveal_levels by done. apply wp_emit. wp_steps.
  eapply wp_deref.
  { change (side_levels ?sd (says ?evs ?s')) with (side_levels sd s').
    rewrite side_levels_set.
    apply find_order_head. by apply revealed_find. }
  apply wp_emit.
  assert (Hrev : inv [] (virtually sd (revealed_level lv k r x :: rest) ov s)).
  { apply (virtually_update sd ov lv); try done.
    - by eapply revealed_level_ok.
    - by eapply revealed_level_keys. }
  split.
  - replace (side_levels sd _) with (revealed_level lv k r x :: rest) by (by destruct sd).
    by constructor.
  - by destruct sd.
  - by destruct sd.
  - destruct sd; by repeat split.
  - eexists. split; [cbn; rewrite <- app_assoc; by rewrite trace_set_side|by repeat constructor].
Qed.

Lemma wp_settle_remove sd ov lv rest k r x ts s :
  inv [] (virtually sd (lv :: rest) ov s) → find_entry k lv.(lv_queue) = Some r →
  side_levels sd s = reduced_level lv k x :: rest → x = r.(o_remaining_quantity) →
  has_hidden (fill_order x r) = false →
  let o := fill_order x r in
  wp (auction_handle_filled_order k o ts)
    (λ kept s', kept = None ∧ settled_side sd ov lv rest k r x s (successor k lv.(lv_queue)) s') s.
Proof.
  intros Hi Hf Hs Hx Hh o. unfold auction_handle_filled_order. unfold o at 1. rewrite Hh.
  destruct (virtual_entry _ _ _ _ _ _ _ Hi Hf) as (Hok & Hnd & Hin & Hsd).
  assert (Hside : o.(o_side) = sd) by done. rewrite Hside.
  destruct (remove_order k (lv :: rest)) as [[[v r'] freed]|] eqn:Hr.
  2:{ cbn in Hr. rewrite Hf in Hr. by case_match. }
  assert (Hv : r' = r ∧ drained lv rest k r x (successor k lv.(lv_queue)) v).
  { cbn -[detach_order] in Hr. rewrite Hf in Hr. rewrite <- Hx in Hr.
    change (lv_order_count (detach_order k x lv)) with (lv.(lv_order_count) - 1) in Hr.
    destruct (lv_order_count lv - 1 =? 0) eqn:E; zbool; injection Hr as <- <- <-;
      (split; [done|by constructor]). }
  destruct Hv as [-> Hv].
  apply wp_bind. eapply wp_book_remove; [rewrite Hs; by apply remove_reduced|].
  apply wp_bind, wp_fire_depth_after_remove. intros evs Hevs. unfold index_clear, deallocate_order.
  wp_steps.
  assert (Hinv : inv [] (set_side_levels (opposite sd) ov
            (set_order_free ((k, o) :: s.(order_free))
              (set_order_index (delete r.(o_id) s.(order_index))
                (set_level_free (freed_slots freed ++ s.(level_free)) (set_side_levels sd v s)))))).
  { pose proof (inv_detach (OnBook sd) k v r r freed [] _ Hi) as Hd.
    assert (Hl : levels_of (OnBook sd) (virtually sd (lv :: rest) ov s) = lv :: rest)
      by (by destruct sd).
    rewrite Hl in Hd. specialize (Hd Hr eq_refl).
    pose proof (inv_drop (k, r) (k, o) _ _ Hd eq_refl) as Hd'. clear -Hd'. by destruct sd. }
  split; [done|]. split.
  - by destruct sd.
  - by destruct sd.
  - destruct sd; exact Hinv.
  - by destruct sd.
  - exists evs. split; [by destruct sd|done].
Qed.

(** The loop's treatment of one side after a fill, in both branches. *)
Lemma wp_settle sd ov lv rest k r x next ts s (Q : option loc → engine D → Prop) :
  inv [] (virtually sd (lv :: rest) ov s) → find_entry k lv.(lv_queue) = Some r →
  side_levels sd s = reduced_level lv k x :: rest → x <= r.(o_remaining_quantity) →
  next = successor k (lv_queue (reduced_level lv k x)) →
  (∀ ptr s', settled_side sd ov lv rest k r x s ptr s' → Q ptr s') →
  wp (if o_remaining_quantity (fill_order x r) =? 0 then
        kept ← auction_handle_filled_order k (fill_order x r) ts;
        mret (match kept with Some l => Some l | None => next end)
      else mret (Some k)) Q s.
Proof.
  intros Hi Hf Hs Hx -> HQ. change (lv_queue (reduced_level lv k x))
    with (update_entry k (fill_order x) lv.(lv_queue)). rewrite successor_update.
  destruct (o_remaining_quantity (fill_order x r) =? 0) eqn:E; cbn in E; zbool.
  - assert (Hx' : x = r.(o_remaining_quantity)) by lia. apply wp_bind.
    destruct (has_hidden (fill_order x r)) eqn:Hh.
    + unfold auction_handle_filled_order. rewrite Hh. apply wp_bind.
      eapply wp_mono; [by eapply wp_settle_reveal|]. intros [] s' H. wp_steps. by apply HQ.
    + eapply wp_mono; [by eapply wp_settle_remove|]. intros kept s' [-> H]. wp_steps. by apply HQ.
  - wp_steps. apply HQ. apply settle_part; try done. lia.
Qed.
End side.

(** ** The fill *)

(** Events of an auction at price [p]: the trades are at [p], of positive size
    and report the buyer as aggressor; nothing is accepted, rejected or
    cancelled and the session does not change. *)
Definition auction_event (p : Price) (ev : event) : Prop :=
  match ev with
  | Trade q x _ _ side _ => q = p ∧ 0 < x ∧ side = Buy
  | MarketStatus _ _ | OrderRejected _ _ _ | OrderAccepted _ _ _ | OrderCancelled _ _ _ => False
  | _ => True
  end.

Lemma mute_auction_event p evs : Forall mute evs → Forall (auction_event p) evs.
Proof. intros H. eapply Forall_impl; [exact H|]. by intros []. Qed.

Lemma store_front lv rest k r x levels :
  levels = lv :: rest → find_entry k lv.(lv_queue) = Some r →
  update_order k (fill_order x) (add_total (- x)) levels = reduced_level lv k x :: rest.
Proof. intros -> Hf. cbn. by rewrite Hf. Qed.

Lemma find_reduced lv rest k r x :
  find_entry k lv.(lv_queue) = Some r →
  find_order k (reduced_level lv k x :: rest) = Some (fill_order x r, reduced_level lv k x).
Proof.
  intros Hf. apply find_order_head. change (lv_queue (reduced_level lv k x))
    with (update_entry k (fill_order x) lv.(lv_queue)). by rewrite find_entry_update, Hf.
Qed.

Section fill.
Context {D : Type} {params : EngineParams} {hooks : Hooks D} {algo : MatchAlgorithm}.
Implicit Types (s : engine D) (ts : Timestamp) (k : loc) (r : Order) (lv : PriceLevel).

(** What one fill of [x] does. *)
Record auction_filled (p : Price) blv brest alv arest b a bid ask (x : Quantity) s
    (bptr aptr : option loc) s' : Prop := {
  af_bids : drained blv brest b bid x bptr s'.(bids);
  af_asks : drained alv arest a ask x aptr s'.(asks);
  af_inv : inv [] s';
  af_frame : frame s s';
  af_trace : ∃ evs, s'.(trace) = s.(trace) ++ evs ∧ Forall (auction_event p) evs ∧ traded evs = x
}.

Lemma level_order_pos sd lv rest k r s :
  inv [] s → side_levels sd s = lv :: rest → find_entry k lv.(lv_queue) = Some r →
  0 < r.(o_remaining_quantity) ∧ r.(o_side) = sd.
Proof.
  intros Hi Hl Hf. apply find_entry_Some in Hf.
  assert (Hi' : inv [] (set_side_levels sd (lv :: rest) s)) by (by rewrite <- Hl, set_side_id).
  destruct (virtual_level_ok _ _ _ _ _ Hi') as [[_ _ _ Ho] _]. rewrite Forall_forall in Ho.
  by destruct (Ho _ Hf) as (? & ? & ? & ? & ?).
Qed.

Lemma wp_auction_fill p ts remaining blv brest alv arest b a bid ask s
    (Q : Quantity * option loc * option loc → engine D → Prop) :
  inv [] s → 0 < remaining →
  s.(bids) = blv :: brest → find_entry b blv.(lv_queue) = Some bid →
  s.(asks) = alv :: arest → find_entry a alv.(lv_queue) = Some ask →
  (∀ x bptr aptr s', 0 < x <= remaining →
     x <= bid.(o_remaining_quantity) → x <= ask.(o_remaining_quantity) →
     auction_filled p blv brest alv arest b a bid ask x s bptr aptr s' →
     Q (remaining - x, bptr, aptr) s') →
  wp (auction_fill p ts remaining b a) Q s.
Proof.
  intros Hi Hrem Hb Hfb Ha Hfa HQ.
  destruct (level_order_pos Buy _ _ _ _ _ Hi Hb Hfb) as [Hbpos Hbs].
  destruct (level_order_pos Sell _ _ _ _ _ Hi Ha Hfa) as [Hapos Has].
  unfold auction_fill. wp_steps.
  eapply wp_deref; [rewrite Hb; by apply find_order_head|]. cbv beta iota. wp_steps.
  eapply wp_deref; [rewrite Ha; by apply find_order_head|]. cbv beta iota zeta.
  set (x := Z.min remaining (Z.min (o_remaining_quantity bid) (o_remaining_quantity ask))).
  unfold store_side, update_positions, record_trade. eng_steps.
  match goal with |- wp _ _ ?st => set (s1 := st) end.
  assert (Hb1 : s1.(bids) = reduced_level blv b x :: brest) by (by eapply store_front).
  assert (Ha1 : s1.(asks) = reduced_level alv a x :: arest) by (by eapply store_front).
  assert (Hev1 : ∃ evs, s1.(trace) = s.(trace) ++ evs ∧ Forall (auction_event p) evs ∧ traded evs = x).
  { eexists. split; [unfold s1; cbn -[fill_order has_hidden shown_remaining];
      rewrite <- !app_assoc; reflexivity|].
    split; [|case_if as E; cbn; lia]. repeat constructor; case_ifs; done || lia. }
  eapply wp_deref; [rewrite Hb1; by apply find_reduced|]. cbv beta iota. wp_steps.
  eapply wp_deref; [rewrite Ha1; by apply find_reduced|]. cbv beta iota zeta. apply wp_bind.
  eapply (wp_settle Buy (alv :: arest) blv brest b bid x); [|done|done|lia|done|].
  { unfold inv in *. rewrite Hb, Ha in Hi. exact Hi. }
  intros bptr s2 [Hd2 Ho2 Hi2 Hf2 (evs2 & Ht2 & He2)]. apply wp_bind.
  eapply (wp_settle Sell s2.(bids) alv arest a ask x); [|done|by rewrite <- Ha1|lia|done|].
  { destruct s2. exact Hi2. }
  intros aptr s3 [Hd3 Ho3 Hi3 Hf3 (evs3 & Ht3 & He3)]. wp_steps. cbn in Ho2, Ho3.
  apply HQ; [lia..|]. split.
  - rewrite Ho3. exact Hd2.
  - exact Hd3.
  - rewrite <- Ho3 in Hi3. by destruct s3.
  - etrans; [|etrans; [exact Hf2|exact Hf3]]. by repeat split.
  - destruct Hev1 as (evs1 & Ht1 & He1 & Hq1). exists (evs1 ++ evs2 ++ evs3).
    rewrite Ht3, Ht2, Ht1, <- !app_assoc. split; [done|]. split.
    + repeat (apply Forall_app; split); [done|by apply mute_auction_event..].
    + unfold traded in *. rewrite !sum_by_app. fold (traded evs2) (traded evs3).
      rewrite (traded_mute evs2), (traded_mute evs3) by done. lia.
Qed.
End fill.

(** * The loops *)

(** ** Volumes on either side *)

Definition volume (sd : Side) (p : Price) (levels : list PriceLevel) : Quantity :=
  match sd with Buy => buy_volume p levels | Sell => sell_volume p levels end.

(** A level at price [q] trades in an auction at [p]. *)
Definition eligible (sd : Side) (p q : Price) : bool :=
  match sd with Buy => q >=? p | Sell => q <=? p end.

Lemma volume_cons sd p lv levels :
  volume sd p (lv :: levels)
  = (if eligible sd p lv.(lv_price) then lv.(lv_total_quantity) else 0) + volume sd p levels.
Proof. by destruct sd. Qed.

Lemma volume_nonneg sd p levels : totals_ok levels → 0 <= volume sd p levels.
Proof. destruct sd; [apply buy_volume_nonneg|apply sell_volume_nonneg]. Qed.

(** Orders without hidden quantity, now or later. *)
Definition plain (e : entry) : Prop := e.2.(o_display_qty) <= 0.

(** [levels'] is [levels] after [x] was taken from the best orders: at every
    price at least what is left, and exactly that if nothing was hidden. *)
Record spent (sd : Side) (x : Quantity) (levels levels' : list PriceLevel) : Prop := {
  sp_volume : ∀ q, volume sd q levels - x <= volume sd q levels';
  sp_prices : ∀ q, q ∈ prices levels' → q ∈ prices levels;
  sp_plain : Forall plain (entries levels) →
    Forall plain (entries levels') ∧
    ∀ q, volume sd q levels' = Z.max 0 (volume sd q levels - x)
}.

Lemma spent_refl sd levels : totals_ok levels → spent sd 0 levels levels.
Proof.
  intros H. split; [lia|done|]. intros Hp. split; [done|]. intros q.
  pose proof (volume_nonneg sd q levels H). lia.
Qed.

Lemma spent_trans sd x y l1 l2 l3 :
  0 <= y → spent sd x l1 l2 → spent sd y l2 l3 → spent sd (x + y) l1 l3.
Proof.
  intros Hy [V1 P1 E1] [V2 P2 E2]. split.
  - intros q. specialize (V1 q). specialize (V2 q). lia.
  - auto.
  - intros Hp. destruct (E1 Hp) as [Hp2 Eq1]. destruct (E2 Hp2) as [Hp3 Eq2]. split; [done|].
    intros q. rewrite Eq2, Eq1. lia.
Qed.

(** ** What a settled side has become *)

Section one_side.
Context (sd : Side) (lv : PriceLevel) (rest : list PriceLevel) (k : loc) (r : Order).
Hypothesis Hside : side_ok (before_of (OnBook sd)) (book_order sd) (lv :: rest).
Hypothesis Hnd : NoDup lv.(lv_queue).*1.
Hypothesis Hin : (k, r) ∈ lv.(lv_queue).

Lemma level_totals levels : Forall (lv_ok (book_order sd)) levels → totals_ok levels.
Proof using.
  intros H. eapply Forall_impl; [exact H|]. cbn. intros lv' [_ _ -> Ho].
  apply sum_by_nonneg. eapply Forall_impl; [exact Ho|]. intros e (_ & _ & _ & _ & ?). cbn. lia.
Qed.

(** Behind a level that does not trade no level does. *)
Lemma volume_behind q : eligible sd q lv.(lv_price) = false → volume sd q rest = 0.
Proof using Hside.
  intros Hq. destruct Hside as [Hs _]. apply StronglySorted_inv in Hs as [_ Hall]. clear -Hq Hall.
  induction rest as [|lv' rest' IH]; [by destruct sd|]. rewrite volume_cons.
  apply Forall_cons in Hall as [H1 H2]. rewrite IH by done.
  destruct sd; cbn in *; unfold higher_first, lower_first in *; case_ifs; lia.
Qed.

Lemma remaining_le_total : r.(o_remaining_quantity) <= lv.(lv_total_quantity).
Proof using Hside Hnd Hin.
  destruct Hside as [_ Hl]. apply Forall_cons in Hl as [[_ _ -> Ho] _].
  apply (sum_by_elem_le (λ e : entry, e.2.(o_remaining_quantity)) _ (k, r)); [|done].
  eapply Forall_impl; [exact Ho|]. intros e (_ & _ & _ & _ & ?). cbn. lia.
Qed.

Lemma plain_update x : plain (k, r) → Forall plain lv.(lv_queue) →
  Forall plain (update_entry k (fill_order x) lv.(lv_queue)).
Proof using Hnd Hin. intros Hr Hp. by apply (Forall_update_entry plain k (fill_order x) r). Qed.

Lemma plain_remove : Forall plain lv.(lv_queue) → Forall plain (remove_entry k lv.(lv_queue)).
Proof using Hnd Hin.
  intros Hp. rewrite (queue_split lv k r Hnd Hin) in Hp. by apply Forall_cons in Hp as [_ Hp].
Qed.

Lemma plain_shown x : plain (k, r) → has_hidden (fill_order x r) = false.
Proof using. unfold plain, has_hidden. cbn. intros. apply andb_false_iff. left. lia. Qed.

(** A change of the head level's total by [-x]. *)
Lemma volume_head lv' x q :
  lv_price lv' = lv_price lv → lv_total_quantity lv' = lv_total_quantity lv - x →
  0 <= x <= lv_total_quantity lv →
  volume sd q (lv' :: rest) = Z.max 0 (volume sd q (lv :: rest) - x).
Proof using Hside.
  intros Hp Ht Hx. rewrite !volume_cons, Hp, Ht.
  destruct Hside as [_ Hl]. apply Forall_cons in Hl as [_ Hl]. apply level_totals in Hl.
  pose proof (volume_nonneg sd q rest Hl) as Hrest.
  destruct (eligible sd q _) eqn:E; [lia|]. rewrite volume_behind by done. lia.
Qed.

Lemma singleton_total x :
  x = r.(o_remaining_quantity) → lv.(lv_order_count) - 1 = 0 → lv.(lv_total_quantity) = x.
Proof using Hside Hnd Hin.
  intros -> Hc. destruct Hside as [_ Hl]. apply Forall_cons in Hl as [[_ Hcount -> _] _].
  rewrite Hcount in Hc. destruct (lv_queue lv) as [|e [|e' q]]; [by apply elem_of_nil in Hin| |cbn in *; lia].
  apply list_elem_of_singleton in Hin as <-. cbn. lia.
Qed.

Lemma drained_spent x ptr levels' :
  0 <= x <= r.(o_remaining_quantity) → drained lv rest k r x ptr levels' →
  spent sd x (lv :: rest) levels'.
Proof using Hside Hnd Hin.
  intros Hx Hd. pose proof remaining_le_total as Hle.
  assert (Hge : ∀ lv', lv_price lv' = lv_price lv →
            lv_total_quantity lv - x <= lv_total_quantity lv' →
            ∀ q, volume sd q (lv :: rest) - x <= volume sd q (lv' :: rest)).
  { intros lv' Hp Ht q. rewrite !volume_cons, Hp. case_if as E; lia. }
  assert (Hkr : Forall plain (entries (lv :: rest)) → plain (k, r) ∧ Forall plain lv.(lv_queue) ∧
            Forall plain (entries rest)).
  { rewrite entries_cons, Forall_app. intros [H1 H2]. split_and!; try done.
    rewrite Forall_forall in H1. by apply H1. }
  destruct Hd as [Hlt|Heq Hh|Heq Hh Hc|Heq Hh Hc].
  - split; [by apply Hge|done|]. intros (Hp & Hq & Hr)%Hkr.
    rewrite entries_cons, Forall_app. split; [split; [by apply plain_update|done]|].
    intros q. apply volume_head; [done|cbn; lia..].
  - split; [|done|].
    + apply Hge; [done|]. cbn -[next_tranche].
      pose proof (next_tranche_pos _ Hh). lia.
    + intros (Hp & _)%Hkr. by rewrite plain_shown in Hh.
  - split; [apply Hge; [done|cbn; lia]|done|]. intros (Hp & Hq & Hr)%Hkr.
    rewrite entries_cons, Forall_app. split; [split; [by apply plain_remove|done]|].
    intros q. apply volume_head; [done|cbn; lia..].
  - pose proof (singleton_total x Heq Hc) as Ht.
    assert (Hv : ∀ q, volume sd q rest = Z.max 0 (volume sd q (lv :: rest) - x)).
    { intros q. rewrite <- (volume_head (add_total (- x) lv) x q) by (cbn; lia || done).
      rewrite volume_cons. cbn. case_if as E; lia. }
    split.
    + intros q. rewrite Hv. lia.
    + intros q Hq. by right.
    + by intros (Hp & Hq & Hr)%Hkr.
Qed.
End one_side.

(** ** Pointers *)

(** The level the loop works on: it is the best level, or it is gone. *)
Definition at_front (slot : loc) (p : Price) (levels : list PriceLevel) : Prop :=
  match levels with lv :: _ => lv.(lv_slot) = slot ∧ lv.(lv_price) = p | [] => False end.
Definition at_front_or_gone (slot : loc) (p : Price) (levels : list PriceLevel) : Prop :=
  at_front slot p levels ∨ slot ∉ slots levels.

(** An order pointer of the inner loop. *)
Definition points (ptr : option loc) (slot : loc) (p : Price) (levels : list PriceLevel) : Prop :=
  match ptr with
  | Some k => match levels with
              | lv :: _ => lv.(lv_slot) = slot ∧ lv.(lv_price) = p ∧ k ∈ lv.(lv_queue).*1
              | [] => False
              end
  | None => at_front_or_gone slot p levels
  end.

Lemma points_front ptr slot p levels : points ptr slot p levels → at_front_or_gone slot p levels.
Proof. destruct ptr, levels; cbn; try tauto. intros (? & ? & _). by left. Qed.

Lemma drained_points lv rest k r x ptr levels' :
  NoDup lv.(lv_queue).*1 → (k, r) ∈ lv.(lv_queue) → NoDup (slots (lv :: rest)) →
  lv.(lv_order_count) = Z.of_nat (length lv.(lv_queue)) →
  drained lv rest k r x ptr levels' → points ptr lv.(lv_slot) lv.(lv_price) levels'.
Proof.
  intros Hnd Hin [Hni _]%NoDup_cons Hcount [Hlt|Heq Hh|Heq Hh Hc|Heq Hh Hc].
  - split_and!; [done..|]. cbn. rewrite update_entry_locs. by apply (list_elem_of_fmap_2 fst) in Hin.
  - split_and!; [done..|]. cbn. rewrite fmap_app. apply elem_of_app. right. by left.
  - destruct (successor _ _) as [m|] eqn:Hs; [|by left].
    split_and!; [done..|]. cbn. by apply successor_elem.
  - assert (Hq : lv.(lv_queue) = [(k, r)]).
    { destruct (lv_queue lv) as [|e [|e' q]]; [by apply elem_of_nil in Hin| |cbn in *; lia].
      by apply list_elem_of_singleton in Hin as <-. }
    rewrite Hq. cbn. rewrite Nat.eqb_refl. by right.
Qed.

(** The pointer the outer loop goes on with is the best level. *)
Lemma advance_best slot p too_far levels :
  Forall (λ lv, lv.(lv_order_count) ≠ 0 ∧ lv.(lv_queue) ≠ []) levels → NoDup (slots levels) →
  too_far p = false → at_front_or_gone slot p levels →
  advance_level slot too_far levels = best_slot levels.
Proof.
  intros Hok Hnd Hp Hf. unfold advance_level. destruct levels as [|lv rest].
  - done.
  - destruct Hf as [[<- <-]|Hgone].
    + cbn [level_at]. rewrite Nat.eqb_refl. apply Forall_cons in Hok as [[Hc Hq] _].
      rewrite (proj2 (Z.eqb_neq _ _)), bool_decide_eq_false_2 by done. cbn. by rewrite Hp.
    + assert (Hn : level_at slot (lv :: rest) = None).
      { clear -Hgone. induction (lv :: rest) as [|lv' l IH]; [done|]. unfold slots in Hgone.
        cbn in *. rewrite not_elem_of_cons in Hgone. destruct Hgone as [Hne Hni].
        rewrite (proj2 (Nat.eqb_neq _ _)) by done. by apply IH. }
      by rewrite Hn.
Qed.

(** ** The loops *)

Section loops.
Context {D : Type} {params : EngineParams} {hooks : Hooks D} {algo : MatchAlgorithm}.
Implicit Types (s : engine D) (ts : Timestamp) (k : loc).

(** An auction at [p] traded [x] on the way from [s] to [s']. *)
Record auctioned (p : Price) (x : Quantity) s s' : Prop := {
  au_inv : inv [] s';
  au_frame : frame s s';
  au_trace : ∃ evs, s'.(trace) = s.(trace) ++ evs ∧ Forall (auction_event p) evs ∧ traded evs = x;
  au_bids : spent Buy x s.(bids) s'.(bids);
  au_asks : spent Sell x s.(asks) s'.(asks)
}.

Lemma inv_totals sd s : inv [] s → totals_ok (side_levels sd s).
Proof.
  intros Hi. destruct (inv_sides [] s (OnBook sd) Hi) as [_ Hl]. cbn in Hl.
  eapply level_totals. exact Hl.
Qed.

Lemma inv_slots_nodup sd s : inv [] s → NoDup (slots (side_levels sd s)).
Proof.
  intros Hi. pose proof (NoDup_seq 0 MaxPriceLevels) as Hnd.
  rewrite <- (inv_slots_at (OnBook sd) [] s Hi) in Hnd. by apply NoDup_app in Hnd as [? _].
Qed.

Lemma inv_counts sd s :
  inv [] s → Forall (λ lv, lv.(lv_order_count) ≠ 0 ∧ lv.(lv_queue) ≠ []) (side_levels sd s).
Proof.
  intros Hi. destruct (inv_sides [] s (OnBook sd) Hi) as [_ Hl]. cbn in Hl.
  eapply Forall_impl; [exact Hl|]. intros lv [Hne Hc _ _]. cbn. split; [|done].
  rewrite Hc. by destruct (lv_queue lv).
Qed.

Lemma auctioned_refl p s : inv [] s → auctioned p 0 s s.
Proof.
  intros Hi. split; [done|done| | |].
  - exists []. by rewrite app_nil_r.
  - apply spent_refl, (inv_totals Buy s Hi).
  - apply spent_refl, (inv_totals Sell s Hi).
Qed.

Lemma auctioned_trans p x y s1 s2 s3 :
  0 <= y → auctioned p x s1 s2 → auctioned p y s2 s3 → auctioned p (x + y) s1 s3.
Proof.
  intros Hy [I1 F1 (e1 & T1 & E1 & Q1) B1 A1] [I2 F2 (e2 & T2 & E2 & Q2) B2 A2]. split.
  - done.
  - by etrans.
  - exists (e1 ++ e2). rewrite T2, T1, <- app_assoc. split; [done|]. split.
    + apply Forall_app. by split.
    + unfold traded in *. rewrite sum_by_app. lia.
  - by eapply spent_trans.
  - by eapply spent_trans.
Qed.

(** What the head level of a side gives. *)
Lemma head_facts sd lv rest s :
  inv [] s → side_levels sd s = lv :: rest →
  side_ok (before_of (OnBook sd)) (book_order sd) (lv :: rest) ∧ NoDup lv.(lv_queue).*1 ∧
  NoDup (slots (lv :: rest)) ∧ lv.(lv_order_count) = Z.of_nat (length lv.(lv_queue)).
Proof.
  intros Hi Hl. pose proof (inv_sides [] s (OnBook sd) Hi) as Hok. cbn in Hok. rewrite Hl in Hok.
  pose proof (inv_slots_nodup sd s Hi) as Hs. rewrite Hl in Hs.
  assert (Hi' : inv [] (set_side_levels sd (lv :: rest) s)) by (by rewrite <- Hl, set_side_id).
  destruct (virtual_level_ok _ _ _ _ _ Hi') as [[_ Hc _ _] Hnd]. by split_and!.
Qed.

Lemma wp_auction_step p ts remaining bl al pb pa b a s
    (Q : Quantity * option loc * option loc → engine D → Prop) :
  inv [] s → 0 < remaining →
  points (Some b) bl pb s.(bids) → points (Some a) al pa s.(asks) →
  (∀ x bptr aptr s', 0 < x <= remaining → auctioned p x s s' →
     points bptr bl pb s'.(bids) → points aptr al pa s'.(asks) → Q (remaining - x, bptr, aptr) s') →
  wp (auction_fill p ts remaining b a) Q s.
Proof.
  intros Hi Hrem Hpb Hpa HQ.
  destruct s.(bids) as [|blv brest] eqn:Hb; [done|]. destruct Hpb as (<- & <- & Hbin).
  destruct s.(asks) as [|alv arest] eqn:Ha; [done|]. destruct Hpa as (<- & <- & Hain).
  destruct (head_facts Buy _ _ _ Hi Hb) as (Hbok & Hbnd & Hbs & Hbc).
  destruct (head_facts Sell _ _ _ Hi Ha) as (Haok & Hand & Has & Hac).
  apply list_elem_of_fmap in Hbin as ([b' bid] & -> & Hbin).
  apply list_elem_of_fmap in Hain as ([a' ask] & -> & Hain). cbn.
  eapply wp_auction_fill; [exact Hi|done|exact Hb|by apply find_entry_elem|exact Ha
    |by apply find_entry_elem|].
  intros x bptr aptr s' Hx Hxb Hxa [Hdb Hda Hi' Hf Htr]. apply HQ; [done| | |].
  - split; [done|done|done| |].
    + rewrite Hb. eapply drained_spent; [exact Hbok|exact Hbnd|exact Hbin|lia|exact Hdb].
    + rewrite Ha. eapply drained_spent; [exact Haok|exact Hand|exact Hain|lia|exact Hda].
  - by eapply drained_points.
  - by eapply drained_points.
Qed.

(** Each iteration of the inner loop trades at least one unit. *)
Lemma wp_auction_inner fuel p ts remaining bl al pb pa bptr aptr s :
  inv [] s → 0 <= remaining → (Z.to_nat remaining <= fuel)%nat →
  points bptr bl pb s.(bids) → points aptr al pa s.(asks) →
  wp (auction_inner fuel p ts remaining bptr aptr)
    (λ remaining' s', 0 <= remaining' <= remaining ∧
       (0 < remaining → is_Some bptr → is_Some aptr → remaining' < remaining) ∧
       auctioned p (remaining - remaining') s s' ∧
       at_front_or_gone bl pb s'.(bids) ∧ at_front_or_gone al pa s'.(asks)) s.
Proof.
  assert (Hstop : ∀ m bptr aptr s, inv [] s → 0 <= m → (m <= 0 ∨ bptr = None ∨ aptr = None) →
    points bptr bl pb s.(bids) → points aptr al pa s.(asks) →
    0 <= m <= m ∧ (0 < m → is_Some bptr → is_Some aptr → m < m) ∧
      auctioned p (m - m) s s ∧ at_front_or_gone bl pb s.(bids) ∧ at_front_or_gone al pa s.(asks)).
  { intros m bptr' aptr' s' Hi Hm Hwhy Hb Ha. rewrite Z.sub_diag. split_and!; [lia..| | | |].
    - intros ? [? ->] [? ->]. destruct Hwhy as [?|[?|?]]; [lia|done..].
    - by apply auctioned_refl.
    - by eapply points_front.
    - by eapply points_front. }
  revert remaining bptr aptr s. induction fuel as [|fuel IH];
    intros remaining bptr aptr s Hi Hrem Hf Hb Ha; cbn [auction_inner];
    (case_if as E; [apply wp_ret, Hstop; try done; left; lia|]);
    (destruct bptr as [b|]; [|apply wp_ret, Hstop; tauto]);
    (destruct aptr as [a|]; [|apply wp_ret, Hstop; tauto]).
  - lia.
  - apply wp_bind. eapply wp_auction_step; [done|lia|exact Hb|exact Ha|].
    intros x bptr aptr s' Hx Hau Hb' Ha'.
    eapply wp_mono; [apply IH; [apply Hau|lia|lia|done|done]|].
    intros m s'' (Hm & _ & Hau' & ? & ?). split_and!; try done; try lia.
    replace (remaining - m) with (x + (remaining - x - m)) by lia.
    eapply auctioned_trans; [lia|exact Hau|exact Hau'].
Qed.

(** As long as both sides have the volume, the best levels trade. *)
Lemma volume_head_eligible sd p m levels :
  side_ok (before_of (OnBook sd)) (book_order sd) levels → 0 < m <= volume sd p levels →
  ∃ lv rest, levels = lv :: rest ∧ eligible sd p lv.(lv_price) = true ∧ lv.(lv_queue) ≠ [].
Proof.
  intros Hok Hm. destruct levels as [|lv rest]; [by destruct sd; cbn in Hm; lia|].
  exists lv, rest. split; [done|].
  pose proof Hok as [_ Hl]. apply Forall_cons in Hl as [[Hne _ _ _] _]. split; [|done].
  destruct (eligible sd p (lv_price lv)) eqn:E; [done|].
  rewrite volume_cons, E, (volume_behind sd lv rest Hok p E) in Hm. lia.
Qed.

Lemma wp_auction_outer inner_fuel fuel p ts remaining s :
  inv [] s → 0 <= remaining → (Z.to_nat remaining <= fuel)%nat → (Z.to_nat remaining <= inner_fuel)%nat →
  remaining <= buy_volume p s.(bids) → remaining <= sell_volume p s.(asks) →
  wp (auction_outer inner_fuel fuel p ts remaining (best_slot s.(bids)) (best_slot s.(asks)))
    (λ _ s', auctioned p remaining s s') s.
Proof.
  revert remaining s. induction fuel as [|fuel IH]; intros remaining s Hi Hrem Hf Hif Hvb Hva;
    cbn [auction_outer];
    (case_if as E; [replace remaining with 0 by lia; by apply wp_ret, auctioned_refl|]); [lia|].
  pose proof (inv_sides [] s (OnBook Buy) Hi) as Hbok.
  pose proof (inv_sides [] s (OnBook Sell) Hi) as Haok.
  destruct (volume_head_eligible Buy p remaining _ Hbok) as (blv & brest & Hb & Heb & Hbq);
    [change (0 < remaining <= buy_volume p s.(bids)); lia|]. cbn in Hb.
  destruct (volume_head_eligible Sell p remaining _ Haok) as (alv & arest & Ha & Hea & Haq);
    [change (0 < remaining <= sell_volume p s.(asks)); lia|]. cbn in Ha. cbn in Heb, Hea.
  rewrite Hb, Ha. cbn [best_slot head fmap option_fmap option_map]. wp_steps.
  rewrite Hb. eapply wp_deref; [cbn; by rewrite Nat.eqb_refl|]. wp_steps.
  rewrite Ha. eapply wp_deref; [cbn; by rewrite Nat.eqb_refl|].
  destruct (Z.ltb_spec (lv_price blv) p); [lia|]. destruct (Z.gtb_spec (lv_price alv) p); [lia|].
  wp_steps. destruct (lv_queue blv) as [|be bq] eqn:Hbe; [done|].
  destruct (lv_queue alv) as [|ae aq] eqn:Hae; [done|].
  eapply wp_mono; [apply (wp_auction_inner inner_fuel p ts remaining (lv_slot blv) (lv_slot alv)
      (lv_price blv) (lv_price alv)); [done|lia|lia| |]|].
  - rewrite Hb. cbn. rewrite Hbe. split_and!; [done..|by left].
  - rewrite Ha. cbn. rewrite Hae. split_and!; [done..|by left].
  - intros m s' (Hm & Hlt & Hau & Hbf & Haf). wp_steps.
    specialize (Hlt ltac:(lia) ltac:(done) ltac:(done)).
    assert (Hi' : inv [] s') by apply Hau.
    rewrite (advance_best _ (lv_price blv)), (advance_best _ (lv_price alv)).
    + pose proof (sp_volume _ _ _ _ (au_bids _ _ _ _ Hau) p) as Hb'.
      pose proof (sp_volume _ _ _ _ (au_asks _ _ _ _ Hau) p) as Ha'. cbn in Hb', Ha'.
      eapply wp_mono; [apply IH; [done|lia..]|]. intros [] s'' Hau'.
      replace remaining with (remaining - m + m) by lia. eapply auctioned_trans; [lia|done|done].
    + apply (inv_counts Sell s' Hi').
    + apply (inv_slots_nodup Sell s' Hi').
    + lia.
    + done.
    + apply (inv_counts Buy s' Hi').
    + apply (inv_slots_nodup Buy s' Hi').
    + lia.
    + done.
Qed.
End loops.
