(* ===== verification/AuctionTheorems.v ===== *)
(** * What an auction does

    The price maximises the volume, the execution trades exactly that volume
    at that price, and leaves no orders that could still trade. *)

From S2P Require Import Prelude Types MatchAlgo MatchAlgoFacts MatchAlgoPriority Books Trackers Engine.
From S2P Require Import EngineInvariant EngineRules EngineFills EngineMatch EngineOrders EngineEntry.
From S2P Require Import Auction AuctionRun EngineTheorems.

Section auction.
Context {D : Type} {params : EngineParams} {hooks : Hooks D} {algo : MatchAlgorithm}.
Implicit Types (s : engine D) (ts : Timestamp).

(** C8: The auction price is the best of all prices in the book: it trades
    the largest volume (no price, in the book or not, would trade more), among
    these it leaves the smallest imbalance, then is closest to the reference,
    then is the highest; the volume and the surpluses reported are the ones at
    this price, and there is a price as soon as anything can trade. *)
Theorem auction_price_optimal reference s :
  inv [] s →
  let r := calculate_auction_price reference s in
  (∀ q, volume_at s q <= (if r.(a_has_price) then r.(a_matched_volume) else 0)) ∧
  (r.(a_has_price) = true →
     (r.(a_price) ∈ prices s.(bids) ∨ r.(a_price) ∈ prices s.(asks)) ∧ 0 < r.(a_matched_volume) ∧
     r.(a_matched_volume) = volume_at s r.(a_price) ∧
     r.(a_buy_surplus) = buy_volume r.(a_price) s.(bids) - r.(a_matched_volume) ∧
     r.(a_sell_surplus) = sell_volume r.(a_price) s.(asks) - r.(a_matched_volume) ∧
     ∀ q, q ∈ prices s.(bids) ∨ q ∈ prices s.(asks) → 0 < volume_at s q →
       q = r.(a_price) ∨ preferred s reference r.(a_price) q).
Proof.
  intros Hi r.
  destruct (auction_price_spec s reference (inv_totals Buy s Hi) (inv_totals Sell s Hi)) as [Hmax Hr].
  fold r in Hmax, Hr. split; [done|]. intros Hp. specialize (Hr Hp).
  setoid_rewrite candidate_elem in Hr. exact Hr.
Qed.

(** What executing an auction does: the trades at the auction price, one more
    market data event and the new reference price, or nothing at all. *)
Definition auction_run reference s s' : Prop :=
  let r := calculate_auction_price reference s in
  if r.(a_has_price) then
    ∃ s1 ev, auctioned r.(a_price) r.(a_matched_volume) s s1 ∧ mute ev ∧
      s' = set_vi_reference_price r.(a_price) (says [ev] s1)
  else s' = s.

Lemma wp_execute_auction fuel reference ts s :
  inv [] s → (Z.to_nat (calculate_auction_price reference s).(a_matched_volume) <= fuel)%nat →
  wp (execute_auction fuel reference ts) (λ _ s', auction_run reference s s') s.
Proof.
  intros Hi Hf. unfold execute_auction, auction_run. wp_steps.
  set (r := calculate_auction_price reference s) in *.
  destruct (auction_price_spec s reference (inv_totals Buy s Hi) (inv_totals Sell s Hi)) as [_ Hr].
  fold r in Hr. destruct (a_has_price r); [|by wp_steps].
  destruct (Hr eq_refl) as (_ & Hpos & Hv & _). rewrite (proj2 (Z.eqb_neq _ _)) by lia. cbn.
  unfold volume_at in Hv. apply wp_bind.
  eapply wp_mono; [apply wp_auction_outer; [done|lia..]|].
  intros [] s1 Hau. apply wp_bind, wp_fire_top_of_book. intros ev Hev. wp_steps.
  by exists s1, ev.
Qed.

(** The volume an auction trades. *)
Definition auction_volume reference s : Quantity :=
  let r := calculate_auction_price reference s in
  if r.(a_has_price) then r.(a_matched_volume) else 0.

(** The outcome of an auction. *)
Record auction_done reference s s' : Prop := {
  ad_inv : inv [] s';
  ad_config : s'.(config) = s.(config);
  ad_state : s'.(current_state) = s.(current_state);
  ad_derived : s'.(derived) = s.(derived);
  ad_stops : s'.(buy_stops) = s.(buy_stops) ∧ s'.(sell_stops) = s.(sell_stops);
  ad_trace : ∃ evs, s'.(trace) = s.(trace) ++ evs ∧ traded evs = auction_volume reference s ∧
               Forall (auction_event (calculate_auction_price reference s).(a_price)) evs;
  ad_price : if (calculate_auction_price reference s).(a_has_price)
             then s'.(vi_reference_price) = (calculate_auction_price reference s).(a_price) else s' = s
}.

Lemma auction_run_done reference s s' : inv [] s → auction_run reference s s' → auction_done reference s s'.
Proof.
  unfold auction_run. intros Hi. set (r := calculate_auction_price reference s).
  destruct (a_has_price r) eqn:Hp.
  - intros (s1 & ev & [Hi1 [[Hc Hst _ Hd] Hbs Hss _] (evs & Ht & He & Hq) _ _] & Hev & ->).
    split; try done; [|by fold r; rewrite Hp].
    exists (evs ++ [ev]). unfold auction_volume. fold r. rewrite Hp. cbn. rewrite Ht, <- app_assoc.
    split_and!; [done| |apply Forall_app; split; [done|by apply mute_auction_event; constructor]].
    unfold traded in *. rewrite sum_by_app. cbn. destruct ev; cbn in *; done || lia.
  - intros ->. split; try done; [|by fold r; rewrite Hp].
    exists []. unfold auction_volume. fold r. by rewrite Hp, app_nil_r.
Qed.

(** C6: Executing the auction from a well-formed engine ends (as many
    iterations as the volume are enough) in a well-formed engine, having
    traded exactly the volume of the auction price, all of it at that price;
    the session, the stop orders and the configuration stay, and without a
    price nothing happens at all. *)
Theorem execute_auction_exact fuel reference ts s :
  inv [] s → (Z.to_nat (calculate_auction_price reference s).(a_matched_volume) <= fuel)%nat →
  ∃ s', execute_auction fuel reference ts s = Ok (tt, s') ∧ auction_done reference s s'.
Proof.
  intros Hi Hf. destruct (wp_eq _ _ _ (wp_execute_auction fuel reference ts s Hi Hf)) as ([] & s' & E & Hs').
  exists s'. split; [done|]. by apply auction_run_done.
Qed.

(** What a level of a side offers at its own price. *)
Lemma volume_at_price sd s lv :
  inv [] s → lv ∈ side_levels sd s → 0 < volume sd lv.(lv_price) (side_levels sd s).
Proof.
  intros Hi Hlv. pose proof (inv_sides [] s (OnBook sd) Hi) as [_ Hl]. cbn in Hl.
  pose proof (level_totals sd _ Hl) as Htot.
  assert (Hpos : 0 < lv.(lv_total_quantity)).
  { rewrite Forall_forall in Hl. destruct (Hl _ Hlv) as [Hne _ -> Ho].
    apply sum_by_pos; [|done]. eapply Forall_impl; [exact Ho|]. by intros e (_ & _ & _ & _ & ?). }
  set (f := λ lv' : PriceLevel, if eligible sd lv.(lv_price) lv'.(lv_price)
                                then lv'.(lv_total_quantity) else 0).
  assert (Hv : volume sd lv.(lv_price) (side_levels sd s) = sum_by f (side_levels sd s))
    by (by destruct sd).
  assert (Hf : f lv = lv.(lv_total_quantity)).
  { unfold f. by destruct sd; cbn; rewrite ?Z.geb_leb, Z.leb_refl. }
  rewrite Hv. pose proof (sum_by_elem_le f (side_levels sd s) lv) as Hle. rewrite Hf in Hle.
  assert (lv_total_quantity lv <= sum_by f (side_levels sd s)); [|lia]. apply Hle; [|done].
  eapply Forall_impl; [exact Htot|]. intros lv' ?. unfold f. case_if as E; cbn in *; lia.
Qed.

Lemma auction_run_uncrossed reference s s' :
  inv [] s → Forall plain (entries s.(bids) ++ entries s.(asks)) →
  auction_run reference s s' → uncrossed s'.
Proof.
  intros Hi [Hpb Hpa]%Forall_app Hs'. unfold auction_run in Hs'.
  destruct (auction_price_spec s reference (inv_totals Buy s Hi) (inv_totals Sell s Hi)) as [Hmax _].
  set (r := calculate_auction_price reference s) in *.
  set (m := if a_has_price r then a_matched_volume r else 0) in *.
  assert (Hm : inv [] s' ∧ ∀ q, buy_volume q s'.(bids) = Z.max 0 (buy_volume q s.(bids) - m) ∧
                    sell_volume q s'.(asks) = Z.max 0 (sell_volume q s.(asks) - m)).
  { unfold m. destruct (a_has_price r).
    - destruct Hs' as (s1 & ev & [Hi1 _ _ Hb Ha] & _ & ->). split; [exact Hi1|]. intros q. split.
      + by apply (sp_plain _ _ _ _ Hb).
      + by apply (sp_plain _ _ _ _ Ha).
    - subst s'. split; [done|]. intros q.
      pose proof (buy_volume_nonneg q _ (inv_totals Buy s Hi)).
      pose proof (sell_volume_nonneg q _ (inv_totals Sell s Hi)).
      cbn [side_levels] in *. lia. }
  destruct Hm as [Hi' Hvol]. intros bid ask Hbid Hask.
  destruct (Z.lt_ge_cases bid ask) as [|Hcross]; [done|].
  apply list_elem_of_fmap in Hbid as (blv & -> & Hblv).
  apply list_elem_of_fmap in Hask as (alv & -> & Halv).
  pose proof (volume_at_price Buy s' blv Hi' Hblv) as Hvb.
  pose proof (volume_at_price Sell s' alv Hi' Halv) as Hva.
  cbn [volume side_levels] in Hvb, Hva. rewrite (proj1 (Hvol _)) in Hvb. rewrite (proj2 (Hvol _)) in Hva.
  pose proof (sell_volume_mono _ _ _ (inv_totals Sell s Hi) Hcross) as Hmono. cbn [side_levels] in Hmono.
  specialize (Hmax (lv_price blv)). unfold volume_at in Hmax. lia.
Qed.

(** C7: When no order in the book has hidden quantity, executing the auction
    uncrosses the book: afterwards the best bid is below the best ask. *)
Theorem execute_auction_uncrosses fuel reference ts s :
  inv [] s → Forall plain (entries s.(bids) ++ entries s.(asks)) →
  (Z.to_nat (calculate_auction_price reference s).(a_matched_volume) <= fuel)%nat →
  ∃ s', execute_auction fuel reference ts s = Ok (tt, s') ∧ uncrossed s'.
Proof.
  intros Hi Hp Hf. destruct (wp_eq _ _ _ (wp_execute_auction fuel reference ts s Hi Hf)) as ([] & s' & E & Hs').
  exists s'. split; [done|]. by eapply auction_run_uncrossed.
Qed.
End auction.

(** ** A crossed book

    Orders collected before the opening: 10 at 105 and 5 at 100 to buy, 12 at
    99 and 9 at 104 to sell. *)

#[local] Existing Instance demo_params.
#[local] Instance auction_hooks : Hooks unit := default_hooks unit.
#[local] Instance auction_algorithm : MatchAlgorithm := fifo_algorithm.

Definition collected_engine : engine unit :=
  run (new_order 50 (demo_request 4 Sell Limit DAY 104 9 0))
    (run (new_order 50 (demo_request 3 Sell Limit DAY 99 12 0))
       (run (new_order 50 (demo_request 2 Buy Limit DAY 100 5 0))
          (run (new_order 50 (demo_request 1 Buy Limit DAY 105 10 0))
             (set_current_state PreOpen empty_engine)))).

Lemma collected_inv : inv [] collected_engine.
Proof.
  assert (H : ready collected_engine); [|apply H]. unfold collected_engine.
  repeat (apply run_new_order; [|apply Nat.leb_le; by vm_compute|apply depth_dec; by vm_compute]).
  split; [exact (rd_inv _ empty_engine_ready)|done|apply depth_dec; by vm_compute].
Qed.

Lemma plain_dec (es : list entry) :
  forallb (λ e : entry, e.2.(o_display_qty) <=? 0) es = true → Forall plain es.
Proof.
  intros H. apply Forall_forall. intros e He. rewrite forallb_forall in H.
  apply Z.leb_le, H. by apply list_elem_of_In.
Qed.

Lemma auction_price_optimal_witness :
  let r := calculate_auction_price 101 collected_engine in
  (∀ q, volume_at collected_engine q <= (if r.(a_has_price) then r.(a_matched_volume) else 0)) ∧
  (r.(a_has_price) = true →
     (r.(a_price) ∈ prices collected_engine.(bids) ∨ r.(a_price) ∈ prices collected_engine.(asks)) ∧
     0 < r.(a_matched_volume) ∧ r.(a_matched_volume) = volume_at collected_engine r.(a_price) ∧
     r.(a_buy_surplus) = buy_volume r.(a_price) collected_engine.(bids) - r.(a_matched_volume) ∧
     r.(a_sell_surplus) = sell_volume r.(a_price) collected_engine.(asks) - r.(a_matched_volume) ∧
     ∀ q, q ∈ prices collected_engine.(bids) ∨ q ∈ prices collected_engine.(asks) →
       0 < volume_at collected_engine q →
       q = r.(a_price) ∨ preferred collected_engine 101 r.(a_price) q).
Proof. apply (auction_price_optimal 101 collected_engine collected_inv). Defined.

Lemma execute_auction_exact_witness :
  0 < auction_volume 101 collected_engine ∧
  ∃ s', execute_auction 50 101 2000 collected_engine = Ok (tt, s') ∧ auction_done 101 collected_engine s'.
Proof.
  split; [by vm_compute|].
  apply (execute_auction_exact 50 101 2000 collected_engine collected_inv).
  apply Nat.leb_le. by vm_compute.
Defined.

Lemma execute_auction_uncrosses_witness :
  ∃ s', execute_auction 50 101 2000 collected_engine = Ok (tt, s') ∧ uncrossed s'.
Proof.
  apply (execute_auction_uncrosses 50 101 2000 collected_engine collected_inv).
  - apply plain_dec. by vm_compute.
  - apply Nat.leb_le. by vm_compute.
Defined.
