(* ===== verification/EngineModify.v ===== *)
(** * Modifying an order

    [modify_order] on an order that rests in the book: rejected, reduced in
    place, or taken out and matched again. *)

From S2P Require Import Prelude Types MatchAlgo MatchAlgoFacts MatchAlgoPriority Books Trackers Engine.
From S2P Require Import EngineInvariant EngineRules EngineFills EngineMatch EngineLoop.
From S2P Require Import EngineOrders EngineEntry EngineTheorems.

(** ** Queue lengths after a removal *)

Lemma remove_order_lengths l levels v o freed lv :
  remove_order l levels = Some (v, o, freed) → lv ∈ v →
  ∃ lv0, lv0 ∈ levels ∧ (length (lv_queue lv) <= length (lv_queue lv0))%nat.
Proof.
  revert v. induction levels as [|lv0 levels IH]; intros v; cbn; [done|].
  destruct (find_entry l _) as [o'|] eqn:E.
  - case_if as Hc; intros [= <- <- <-] Hlv.
    + exists lv. split; [by right|done].
    + apply elem_of_cons in Hlv as [->|Hlv]; [|exists lv; by split; [right|]].
      exists lv0. split; [by left|]. cbn.
      pose proof (remove_entry_length _ _ _ E). lia.
  - destruct (remove_order l levels) as [[[rest o'] fr]|] eqn:Er; [|done].
    intros [= <- <- <-] [->|Hlv]%elem_of_cons; [exists lv0; by split; [left|]|].
    destruct (IH rest eq_refl Hlv) as (lv1 & ? & ?). exists lv1. split; [by right|done].
Qed.

Section modify.
Context {D : Type} {params : EngineParams} {hooks : Hooks D} {algo : MatchAlgorithm}.
Context {hooks_ok : HooksOk D}.
Implicit Types (s : engine D) (ts : Timestamp) (l : loc) (o : Order) (req : ModifyRequest) (sd : Side).

Record valid_modify req s : Prop := {
  vm_quantity : 0 < req.(m_new_quantity);
  vm_price : 0 < req.(m_new_price);
  vm_tick : on_grid s.(config).(tick_size) req.(m_new_price);
  vm_lot : on_grid s.(config).(lot_size) req.(m_new_quantity);
  vm_policy : get_modify_policy s ≠ RejectModify
}.

Lemma validate_modify_None req s : validate_modify req s = None ↔ valid_modify req s.
Proof.
  unfold validate_modify. rewrite !guard_none, !off_grid_false. split.
  - intros (? & ? & ? & ? & ? & _). zbool. split; done || lia.
  - intros [? ? ? ? ?]. split_and!; try done.
    + apply Z.leb_gt. lia.
    + apply Z.leb_gt. lia.
    + by apply bool_decide_eq_false.
Qed.

(** The request only reduces the order, and the exchange keeps its place. *)
Definition reduces req o s : Prop :=
  get_modify_policy s = AmendDown ∧ req.(m_new_price) = o.(o_price) ∧
  o.(o_filled_quantity) < req.(m_new_quantity) < o.(o_quantity).

Lemma amends_down_reduces req o s : amends_down req o s = true ↔ reduces req o s.
Proof.
  unfold amends_down, reduces. rewrite !andb_true_iff, bool_decide_eq_true, Z.eqb_eq, Z.ltb_lt.
  rewrite Z.gtb_lt. tauto.
Qed.

Definition amended_order req o : Order :=
  set_o_remaining_quantity (req.(m_new_quantity) - o.(o_filled_quantity))
    (set_o_quantity req.(m_new_quantity) o).

(** The order was reduced in place: every queue keeps its order. *)
Record amended req l o sd s s' : Prop := {
  am_inv : inv [] s';
  am_keys : keys (side_levels sd s') = keys (side_levels sd s);
  am_other : side_levels (opposite sd) s' = side_levels (opposite sd) s;
  am_order : ∃ lv, find_order l (side_levels sd s') = Some (amended_order req o, lv);
  am_trace : ∃ ev, mute ev ∧ s'.(trace) = s.(trace) ++
    [OrderModified o.(o_id) req.(m_client_order_id) req.(m_new_price) req.(m_new_quantity)
       req.(m_timestamp); ev]
}.

Lemma find_order_side sd l o lv s :
  inv [] s → find_order l (side_levels sd s) = Some (o, lv) →
  load_order l s = Some (o, lv) ∧ l ∈ (keys (side_levels sd s)).*1 ∧ book_order sd lv.(lv_price) o ∧
  NoDup (keys (side_levels sd s)).*1 ∧ side_ok (before_of (OnBook sd)) (book_order sd) (side_levels sd s) ∧
  ∃ v freed, remove_order l (side_levels sd s) = Some (v, o, freed).
Proof.
  intros Hi Hf. pose proof (inv_level_locs (OnBook sd) [] s Hi) as Hnd.
  pose proof (inv_sides [] s (OnBook sd) Hi) as Hok. cbn in Hnd, Hok.
  pose proof (find_order_Some _ _ _ _ Hf) as [Hlv Hin].
  assert (Hkin : (l, o_id o) ∈ keys (side_levels sd s)).
  { apply list_elem_of_fmap. exists (l, o). split; [done|]. apply list_elem_of_bind. eauto. }
  destruct (inv_find (OnBook sd) [] s l _ Hi Hkin) as (o' & lv' & v & freed & Hf' & _ & Hr & _ & HP).
  cbn in Hf', Hr, HP. rewrite Hf in Hf'. injection Hf' as <- <-.
  split_and!; try done.
  - by apply (load_order_at (OnBook sd) l [] s).
  - by apply (list_elem_of_fmap_2 fst) in Hkin.
  - by eauto.
Qed.

Lemma wp_amend_down req l o lv sd s :
  inv [] s → find_order l (side_levels sd s) = Some (o, lv) →
  o.(o_filled_quantity) < req.(m_new_quantity) →
  wp (amend_down req l o) (λ _ s', amended req l o sd s s') s.
Proof.
  intros Hi Hf Hq. destruct (find_order_side _ _ _ _ _ Hi Hf) as (_ & Hin & HP & Hnd & Hok & _).
  set (d := - (o.(o_remaining_quantity) - (req.(m_new_quantity) - o.(o_filled_quantity)))).
  set (g := λ o0, set_o_remaining_quantity (req.(m_new_quantity) - o.(o_filled_quantity))
                    (set_o_quantity req.(m_new_quantity) o0)).
  pose proof (update_order_find l g d o lv _ Hf) as Hf'.
  assert (Hi' : inv [] (set_side_levels sd (update_order l g (add_total d) (side_levels sd s)) s)).
  { apply (inv_update (OnBook sd)); [done| | |].
    - eapply update_order_resize; [done|exact Hok|exact Hnd|exact Hf| |cbn; lia].
      destruct HP as (? & ? & ? & ? & ?). split_and!; try done. cbn. lia.
    - cbn. by rewrite update_order_keys_eq.
    - cbn. by rewrite update_order_slots. }
  unfold amend_down. eng_steps. fold d. fold g.
  rewrite (store_order_member (OnBook sd) l g (add_total d) [] s Hi Hin). cbn [levels_of set_levels].
  destruct (find_order_side sd l (g o) _ _ Hi' ltac:(rewrite side_levels_set; exact Hf')) as (Hload & _).
  eapply wp_deref; [exact Hload|]. apply wp_emit. split.
  - exact Hi'.
  - repeat change (side_levels ?sd (says ?evs ?s')) with (side_levels sd s').
    rewrite side_levels_set. by apply update_order_keys_eq.
  - by destruct sd.
  - repeat change (side_levels ?sd (says ?evs ?s')) with (side_levels sd s').
    rewrite side_levels_set. by eauto.
  - eexists. split; [|cbn; by rewrite trace_set_side, <- app_assoc]. done.
Qed.
(** The order taken out of the book, with its new terms. *)
Lemma wp_cancel_replace fuel req l o lv sd s :
  ready s → find_order l (side_levels sd s) = Some (o, lv) →
  0 < req.(m_new_price) → o.(o_filled_quantity) < req.(m_new_quantity) →
  (Z.to_nat (req.(m_new_quantity) - o.(o_filled_quantity)) + budget s + 1 <= fuel)%nat →
  wp (cancel_replace fuel req l o)
    (λ _ s', inv [] s' ∧ derived_ok s'.(derived) ∧ depth_ok 0 s' ∧
       ∃ evs, s'.(trace) = s.(trace) ++ evs ∧ Forall ongoing evs ∧
         OrderModified o.(o_id) req.(m_client_order_id) req.(m_new_price) req.(m_new_quantity)
           req.(m_timestamp) ∈ evs ∧
         (s.(current_state) ≠ LockLimit → Forall quiet evs → uncrossed s → uncrossed s')) s.
Proof.
  intros [Hi Hd Hdep] Hf Hp Hq Hfuel.
  destruct (find_order_side _ _ _ _ _ Hi Hf) as (_ & _ & HP & _ & Hok & v & freed & Hr).
  destruct HP as (Hside & Hty & _ & _ & _).
  pose proof (inv_detach (OnBook sd) l v o (replaced_order req o) freed [] s Hi Hr eq_refl) as Hi1.
  unfold cancel_replace. rewrite Hside. apply wp_bind.
  eapply wp_book_remove; [exact Hr|]. apply wp_bind, wp_emit, wp_bind, wp_fire_depth_after_remove.
  intros evs0 Hev0. apply wp_bind, wp_emit.
  match goal with |- wp _ _ ?st => set (s1 := st) end.
  assert (Hs1 : inv [(l, replaced_order req o)] s1 ∧ s1.(derived) = s.(derived) ∧
            side_levels sd s1 = v ∧ side_levels (opposite sd) s1 = side_levels (opposite sd) s ∧
            s1.(buy_stops) = s.(buy_stops) ∧ s1.(sell_stops) = s.(sell_stops) ∧
            s1.(current_state) = s.(current_state)).
  { unfold s1. destruct sd; (split; [exact Hi1|by split_and!]). }
  destruct Hs1 as (Hi1' & Hd1 & Hv1 & Ho1 & Hbs & Hss & Hst1).
  assert (Htr : ∃ evs1, s1.(trace) = s.(trace) ++ evs1 ++ [OrderModified o.(o_id)
            req.(m_client_order_id) req.(m_new_price) req.(m_new_quantity) req.(m_timestamp)] ∧
            Forall mute evs1).
  { eexists (_ :: evs0). split.
    - unfold s1. cbn. rewrite trace_set_side, <- !app_assoc. reflexivity.
    - by constructor. }
  clearbody s1. destruct Htr as (evs1 & Htr & Hev1).
  assert (Hsc : stop_count s1 = stop_count s) by (unfold stop_count; by rewrite Hbs, Hss).
  assert (Hlv : ∀ lv', lv' ∈ s1.(bids) ++ s1.(asks) →
            ∃ lv0, lv0 ∈ s.(bids) ++ s.(asks) ∧ (length (lv_queue lv') <= length (lv_queue lv0))%nat).
  { intros lv' Hlv'. assert (Hcase : lv' ∈ v ∨ lv' ∈ side_levels (opposite sd) s).
    { rewrite <- Hv1, <- Ho1. rewrite elem_of_app in Hlv'. destruct sd; cbn; tauto. }
    destruct Hcase as [Hv|Hother].
    - destruct (remove_order_lengths _ _ _ _ _ _ Hr Hv) as (lv0 & H0 & ?). exists lv0. split; [|done].
      rewrite elem_of_app. destruct sd; cbn in H0; auto.
    - exists lv'. split; [|done]. rewrite elem_of_app. destruct sd; cbn in Hother; auto. }
  assert (Hdep1 : depth_ok 1 s1).
  { destruct Hdep as [Hk Hdl]. split; [by rewrite Hsc|]. intros lv' Hlv'. rewrite Hsc.
    destruct (Hlv lv' Hlv') as (lv0 & H0 & ?). specialize (Hdl lv0 H0). lia. }
  assert (Hb1 : (budget s1 <= budget s)%nat).
  { pose proof (remove_order_entries _ _ _ _ _ _ (so_levels _ _ _ Hok) Hr) as He.
    apply Permutation_length in He. cbn in He.
    unfold budget. rewrite !all_entries_length, Hsc, Hbs, Hss.
    destruct sd; cbn in Hv1, Ho1; rewrite Hv1, Ho1; cbn in He; lia. }
  apply wp_bind. eapply wp_mono; [apply wp_match_order|].
  - exact Hi1'.
  - by rewrite Hd1.
  - split; [cbn; lia|]. by right.
  - by eapply depth_fits.
  - assert (He1 : (length (entries s1.(bids)) + length (entries s1.(asks)) <= budget s1)%nat).
    { unfold budget. rewrite all_entries_length. lia. }
    unfold loop_measure, facing. change (o_side (replaced_order req o)) with (o_side o).
    change (o_remaining_quantity (replaced_order req o))
      with (req.(m_new_quantity) - o.(o_filled_quantity)).
    rewrite Hside. destruct sd; cbn [opposite side_levels]; lia.
  - intros [] s2 [evs2 Hex]. pose proof (executed_budget _ _ _ _ _ Hex) as Hb2.
    assert (Hm : matchable_order (replaced_order req o)) by (split; [cbn; lia|by right]).
    pose proof (executed_flows _ _ _ _ _ Hex Hm Hdep1) as Hfl.
    assert (Hsc2 : (stop_count s2 <= budget s2)%nat).
    { unfold budget. rewrite all_entries_length. lia. }
    eapply wp_mono; [apply wp_check_and_trigger_stops; [apply Hfl..|lia|lia]|].
    intros [] s3 (evs3 & Hfl3 & _). pose proof (flows_trans _ _ _ _ _ Hfl Hfl3) as [].
    split_and!; try done. eexists. split; [rewrite fw_trace, Htr, <- !app_assoc; reflexivity|].
    split_and!.
    + apply Forall_app. split; [eapply Forall_impl; [exact Hev1|]; by intros []|].
      by constructor.
    + apply elem_of_app. right. by left.
    + intros Hl Hqu Hun. apply Forall_app in Hqu as [_ Hqu]. apply Forall_app in Hqu as [_ Hqu].
      apply fw_uncrossed; [done|by rewrite Hst1|]. intros pb pa Hpb Hpa.
      assert (Hsub : prices s1.(bids) `sublist_of` prices s.(bids) ∧
                prices s1.(asks) `sublist_of` prices s.(asks)).
      { pose proof (remove_order_sublist _ _ _ _ _ Hr) as Hsub.
        destruct sd; cbn in Hv1, Ho1, Hsub; rewrite Hv1, Ho1; by split. }
      apply Hun; (eapply elem_of_sublist; [|apply Hsub]; done).
Qed.

End modify.

(** ** An instance: raising the resting sell order to 25 at 99 *)

#[local] Existing Instance demo_params.
#[local] Instance modify_hooks : Hooks unit := default_hooks unit.
#[local] Instance modify_algorithm : MatchAlgorithm := fifo_algorithm.

Definition modify_request : ModifyRequest := mkModify 1 7 99 25 3000.

(** The order at slot [l] on a side. *)
Definition resting (l : loc) (levels : list PriceLevel) : Order * PriceLevel :=
  match find_order l levels with Some x => x | None => (blank_order, mkLevel 0 0 0 0 []) end.

