(* ===== verification/EngineImplied.v ===== *)
(** * Implied fills on an engine

    [apply_implied_fills]: fills that a spread book or another outside matcher
    imposes on resting orders, each at its own price and without an opposite
    order in this book. *)

From S2P Require Import Prelude Types MatchAlgo MatchAlgoFacts Books Trackers Engine.
From S2P Require Import EngineInvariant EngineRules EngineFills EngineMatch.

Lemma forallb_Forall {A} (f : A → bool) (l : list A) : forallb f l = true ↔ Forall (λ x, f x = true) l.
Proof. rewrite forallb_forall, Forall_forall. setoid_rewrite list_elem_of_In. done. Qed.

(** ** One order of a side changes in place *)

Lemma update_order_not_in l g h levels : l ∉ (keys levels).*1 → update_order l g h levels = levels.
Proof.
  induction levels as [|lv levels IH]; cbn; [done|]. rewrite keys_cons, fmap_app, not_elem_of_app.
  intros [Hni Hni']. assert (Hk : (key <$> lv_queue lv).*1 = (lv_queue lv).*1) by (by rewrite <- list_fmap_compose).
  rewrite Hk in Hni. rewrite (proj2 (find_entry_None _ _)) by done. by rewrite IH.
Qed.

Lemma update_entry_perm l g o (q : list entry) :
  NoDup q.*1 → find_entry l q = Some o → update_entry l g q ≡ₚ (l, g o) :: remove_entry l q.
Proof.
  intros Hnd Hf. pose proof (remove_entry_perm l (update_entry l g q) (g o)) as H.
  rewrite find_entry_update, Hf, remove_entry_update in H by done. by apply H.
Qed.

(** The orders of a side before and after. *)
Lemma update_order_entries l g d o lv levels :
  NoDup (keys levels).*1 → find_order l levels = Some (o, lv) →
  ∃ rest, entries levels ≡ₚ (l, o) :: rest ∧ entries (update_order l g (add_total d) levels) ≡ₚ (l, g o) :: rest.
Proof.
  induction levels as [|lv0 levels IH]; cbn [find_order]; [done|]. rewrite keys_cons, fmap_app. intros (Hnd1 & _ & Hnd2)%NoDup_app.
  assert (Hk : (key <$> lv_queue lv0).*1 = (lv_queue lv0).*1) by (by rewrite <- list_fmap_compose).
  rewrite Hk in Hnd1. cbn [update_order]. destruct (find_entry l (lv_queue lv0)) as [o0|] eqn:E.
  - intros [= -> ->]. exists (remove_entry l lv.(lv_queue) ++ entries levels). rewrite !entries_cons.
    change (lv_queue (add_total ?d (set_lv_queue ?q ?l))) with q. rewrite update_entry_perm by done.
    by rewrite (remove_entry_perm l _ _ E) at 1.
  - intros Hf. destruct (IH Hnd2 Hf) as (rest & H1 & H2). exists (lv_queue lv0 ++ rest). rewrite !entries_cons, H1, H2.
    split; symmetry; apply Permutation_middle.
Qed.

(** ** To the back of the queue *)

Lemma update_order_back_ok before P l levels :
  side_ok before P levels → side_ok before P (update_order l id (move_to_back l) levels).
Proof.
  intros [Hs Hl]. split.
  { rewrite update_order_prices; [done|]. intros lv. unfold move_to_back. by case_match. }
  clear Hs. induction Hl as [|lv levels Hlv Hl IH]; cbn; [done|].
  destruct (find_entry l (lv_queue lv)) as [o|] eqn:E; [|by constructor]. constructor; [|done].
  rewrite update_entry_id. assert (Hp := move_to_back_perm l lv). destruct Hlv as [Hne Hc Ht Ho].
  unfold move_to_back in *. destruct lv as [sl p t c q]. cbn in *. rewrite E in *. cbn in *. split; cbn.
  - by destruct (remove_entry l q).
  - by rewrite Hp.
  - by rewrite Hp.
  - by rewrite Hp.
Qed.

Lemma update_order_back_entries l levels : entries (update_order l id (move_to_back l) levels) ≡ₚ entries levels.
Proof.
  induction levels as [|lv levels IH]; cbn; [done|]. destruct (find_entry l (lv_queue lv)) eqn:E; rewrite !entries_cons.
  - rewrite update_entry_id, move_to_back_perm. by destruct lv.
  - by rewrite IH.
Qed.

(** A filled tranche and the next one: the order shows [n] at the back. *)
Lemma reveal_update l x n levels : NoDup (keys levels).*1 →
  update_order l (set_o_remaining_quantity n) (λ lv, add_total n (move_to_back l lv))
    (update_order l (fill_order x) (add_total (- x)) levels)
  = update_order l id (move_to_back l)
      (update_order l (λ o, set_o_remaining_quantity n (fill_order x o)) (add_total (n - x)) levels).
Proof.
  induction levels as [|lv levels IH]; [done|]. rewrite keys_cons, fmap_app. intros (Hnd1 & _ & Hnd2)%NoDup_app.
  assert (Hk : (key <$> lv_queue lv).*1 = (lv_queue lv).*1) by (by rewrite <- list_fmap_compose). rewrite Hk in Hnd1.
  cbn [update_order]. destruct (find_entry l (lv_queue lv)) as [o|] eqn:E.
  - cbn [update_order]. change (lv_queue (add_total ?d (set_lv_queue ?q ?lv0))) with q.
    rewrite !find_entry_update, E. cbn [fmap option_fmap option_map].
    rewrite update_entry_id. unfold move_to_back. cbn. rewrite !find_entry_update, E. cbn.
    rewrite !remove_entry_update by (by rewrite ?update_entry_locs). unfold add_total, set_lv_total_quantity, set_lv_queue. cbn.
    replace (lv_total_quantity lv + - x + n) with (lv_total_quantity lv + (n - x)) by lia. done.
  - cbn [update_order]. by rewrite E, IH.
Qed.

#[local] Instance bk_eq_dec : EqDecision bk.
Proof. solve_decision. Defined.

Section implied.
Context {D : Type} {params : EngineParams} {hooks : Hooks D} {algo : MatchAlgorithm}.
Implicit Types (s : engine D) (ts : Timestamp) (l : loc) (o : Order) (b : bk) (sd : Side).

(** Writing through a pointer into one list. *)
Lemma store_order_found b l g h s x : inv [] s → find_order l (levels_of b s) = Some x →
  store_order l g h s = set_levels b (update_order l g h (levels_of b s)) s.
Proof.
  intros H Hf. assert (Hin : l ∈ (keys (levels_of b s)).*1).
  { destruct (decide (l ∈ (keys (levels_of b s)).*1)) as [|Hni]; [done|]. apply find_order_None in Hni. congruence. }
  pose proof (NoDup_seq 0 MaxOrders) as Hnd. rewrite <- (inv_orders_at b [] s H) in Hnd.
  apply NoDup_app in Hnd as (_ & Hdis & _). specialize (Hdis l Hin). rewrite elem_of_app in Hdis. unfold store_order.
  destruct b as [[]|[]]; cbn in *; rewrite ?fmap_app, ?elem_of_app in Hdis; 
    repeat match goal with |- context [update_order l g h ?x] => rewrite (update_order_not_in l g h x) by tauto end; by destruct s.
Qed.

(** What a fill of [q] leaves of an order: nothing, the next tranche, or the
    rest of the visible quantity. *)
Definition after_fill (q : Quantity) (o : Order) : option Order :=
  let o' := fill_order q o in
  if o'.(o_remaining_quantity) =? 0
  then if has_hidden o' then Some (set_o_remaining_quantity (next_tranche o') o') else None
  else Some o'.

(** The effect of one implied fill of [q] at [p] on the order [o] in slot [l]
    of side [sd]. *)
Record implied_filled sd l o (p : Price) (q : Quantity) s s' : Prop := {
  im_inv : inv [] s';
  im_orders : ∃ rest, entries (side_levels sd s) ≡ₚ (l, o) :: rest ∧
    entries (side_levels sd s') ≡ₚ option_list (pair l <$> after_fill q o) ++ rest;
  im_others : ∀ b, b ≠ OnBook sd → levels_of b s' = levels_of b s;
  im_index : s'.(order_index) =
    match after_fill q o with Some _ => s.(order_index) | None => delete o.(o_id) s.(order_index) end;
  im_session : same_session s s';
  im_last : s'.(last_trade_price) = p;
  im_positions : s'.(position_tracker) = update_fill MaxAccounts o.(o_account_id) sd q s.(position_tracker);
  im_trace : ∃ evs, s'.(trace) = s.(trace) ++ evs ∧ traded evs = q
}.

(** The side once the order gave [q] and some stays. *)
Lemma partial_fill sd l o lv q s : inv [] s → find_order l (side_levels sd s) = Some (o, lv) →
  0 < q < o.(o_remaining_quantity) →
  let v := update_order l (fill_order q) (add_total (- q)) (side_levels sd s) in
  inv [] (set_side_levels sd v s) ∧
  ∃ rest, entries (side_levels sd s) ≡ₚ (l, o) :: rest ∧ entries v ≡ₚ (l, fill_order q o) :: rest.
Proof.
  intros H Hf Hq v. pose proof (inv_level_locs (OnBook sd) [] s H) as Hnd. cbn [levels_of] in Hnd. split.
  - apply (inv_update (OnBook sd)); [done| | |].
    + eapply update_order_resize; [done|apply (inv_sides [] s (OnBook sd) H)|done|exact Hf| |cbn; lia].
      destruct (find_order_Some _ _ _ _ Hf) as [Hlv Hin]. destruct (inv_sides [] s (OnBook sd) H) as [_ Hl].
      rewrite Forall_forall in Hl. destruct (Hl lv Hlv) as [_ _ _ Ho]. rewrite Forall_forall in Ho.
      destruct (Ho _ Hin) as (? & ? & ? & ? & ?). cbn in *. repeat split; cbn; try done. lia.
    + cbn. unfold v. by rewrite update_order_keys.
    + cbn. unfold v. by rewrite update_order_slots.
  - by eapply update_order_entries.
Qed.

(** The side once the visible tranche was consumed and the next one shown. *)
Lemma reveal_fill sd l o lv s : inv [] s → find_order l (side_levels sd s) = Some (o, lv) →
  let o' := fill_order o.(o_remaining_quantity) o in has_hidden o' = true →
  let v := update_order l id (move_to_back l) (update_order l (λ o1, set_o_remaining_quantity (next_tranche o')
      (fill_order o.(o_remaining_quantity) o1)) (add_total (next_tranche o' - o.(o_remaining_quantity))) (side_levels sd s)) in
  inv [] (set_side_levels sd v s) ∧ is_Some (find_order l v) ∧
  ∃ rest, entries (side_levels sd s) ≡ₚ (l, o) :: rest ∧
    entries v ≡ₚ (l, set_o_remaining_quantity (next_tranche o') o') :: rest.
Proof.
  intros H Hf o' Hh v. pose proof (inv_level_locs (OnBook sd) [] s H) as Hnd. cbn [levels_of] in Hnd.
  apply next_tranche_pos in Hh. set (g := λ o1, set_o_remaining_quantity (next_tranche o') (fill_order o.(o_remaining_quantity) o1)) in *.
  destruct (update_order_entries l g (next_tranche o' - o.(o_remaining_quantity)) o lv _ Hnd Hf) as (rest & H1 & H2).
  assert (He : entries v ≡ₚ (l, g o) :: rest) by (unfold v; by rewrite update_order_back_entries).
  assert (Hk : keys v ≡ₚ keys (side_levels sd s)) by (unfold keys; by rewrite He, H1).
  split; [|split; [|by exists rest]].
  - apply (inv_update (OnBook sd)); [done| |exact Hk|].
    + apply update_order_back_ok.
      eapply update_order_resize; [done|apply (inv_sides [] s (OnBook sd) H)|done|exact Hf| |cbn; lia].
      destruct (find_order_Some _ _ _ _ Hf) as [Hlv Hin]. destruct (inv_sides [] s (OnBook sd) H) as [_ Hl].
      rewrite Forall_forall in Hl. destruct (Hl lv Hlv) as [_ _ _ Ho]. rewrite Forall_forall in Ho.
      destruct (Ho _ Hin) as (? & ? & ? & ? & ?). cbn in *. repeat split; cbn; done.
    + cbn. unfold v. rewrite !update_order_slots; [done|done|]. intros lv0. unfold move_to_back. by case_match.
  - destruct (find_order l v) eqn:E; [done|]. apply find_order_None in E. destruct E. rewrite Hk.
    destruct (find_order_Some _ _ _ _ Hf) as [Hlv Hin]. apply (list_elem_of_fmap_2 fst _ (key (l, o))).
    apply list_elem_of_fmap_2, list_elem_of_bind. eauto.
Qed.

Lemma book_order_side sd l o lv s : inv [] s → find_order l (side_levels sd s) = Some (o, lv) →
  o.(o_side) = sd ∧ 0 < o.(o_remaining_quantity).
Proof.
  intros H Hf. destruct (find_order_Some _ _ _ _ Hf) as [Hlv Hin]. destruct (inv_sides [] s (OnBook sd) H) as [_ Hl].
  rewrite Forall_forall in Hl. destruct (Hl lv Hlv) as [_ _ _ Ho]. rewrite Forall_forall in Ho.
  by destruct (Ho _ Hin) as (? & ? & ? & ? & ?).
Qed.

Lemma wp_apply_implied_fill ts fill sd l o lv s :
  inv [] s → s.(order_index) !! fill.(leg_order_id) = Some l → find_order l (side_levels sd s) = Some (o, lv) →
  0 < fill.(leg_fill_qty) <= o.(o_remaining_quantity) →
  wp (apply_implied_fill ts fill)
    (λ _ s', implied_filled sd l o fill.(leg_fill_price) fill.(leg_fill_qty) s s') s.
Proof.
  intros H Hidx Hf Hq. destruct (book_order_side _ _ _ _ _ H Hf) as [Hsd Hpos].
  set (q := leg_fill_qty fill) in *. set (p := leg_fill_price fill).
  pose proof (inv_level_locs (OnBook sd) [] s H) as Hnd. cbn [levels_of] in Hnd.
  unfold apply_implied_fill. apply wp_bind, wp_get. apply wp_bind. eapply wp_deref; [exact Hidx|].
  apply wp_bind. eapply wp_deref; [exact (load_order_at (OnBook sd) _ _ _ _ H Hf)|]. cbv beta iota zeta. fold q p.
  set (v := update_order l (fill_order q) (add_total (- q)) (side_levels sd s)).
  apply wp_bind, wp_modify. rewrite (store_order_found (OnBook sd) _ _ _ _ _ H Hf). cbn [set_levels levels_of]. fold v.
  unfold update_positions, record_trade. do 6 (apply wp_bind; first [apply wp_modify|apply wp_emit]).
  match goal with |- wp _ _ ?st => set (s1 := st) end.
  assert (Hs1 : ∃ evs reg, s1 = says evs (set_trade_registry reg
      (set_position_tracker (update_fill MaxAccounts o.(o_account_id) o.(o_side) q s.(position_tracker))
        (set_last_trade_price p (set_side_levels sd v s)))) ∧ traded evs = q).
  { eexists _, _. split; [unfold s1, says; destruct sd; cbn; rewrite <- !app_assoc; reflexivity|].
    unfold traded. cbn. case_if as E; cbn; lia. }
  destruct Hs1 as (evs & reg & -> & Hevs). 
  change (o_side (fill_order q o)) with (o_side o). change (o_id (fill_order q o)) with (o_id o). rewrite Hsd. set (pos := update_fill _ _ _ _ _).
  assert (Hfv := update_order_find l (fill_order q) (- q) o lv _ Hf). fold v in Hfv.
  destruct (o_remaining_quantity (fill_order q o) =? 0) eqn:E; cbn in E; zbool.
  - assert (Hqo : q = o.(o_remaining_quantity)) by lia. clearbody q. revert Hevs. subst q. intros Hevs.
    destruct (has_hidden (fill_order (o_remaining_quantity o) o)) eqn:Hh.
    + destruct (reveal_fill sd l o lv s H Hf Hh) as (Hi & [[o2 lv2] Hf2] & Ho).
      set (n := next_tranche _) in *. unfold reveal_tranche, store_side. fold n.
      change (o_side (fill_order ?x o)) with (o_side o). rewrite Hsd. apply wp_bind, wp_modify. apply wp_bind, wp_emit.
      apply wp_bind, wp_get. match type of Hi with inv [] (set_side_levels sd ?v1 s) => set (v2 := v1) in * end.
      match goal with |- wp _ _ ?st => set (s2 := st) end.
      assert (Hl2 : side_levels sd s2 = v2).
      { transitivity (update_order l (set_o_remaining_quantity n) (λ lv0, add_total n (move_to_back l lv0)) v); [by destruct sd|].
        unfold v, v2. by apply reveal_update. }
      assert (Hi2 : inv [] s2).
      { assert (Hb : set_side_levels sd v2 s2 = s2) by (rewrite <- Hl2; apply set_side_id).
        rewrite <- Hb. clearbody v2. destruct sd; exact Hi. }
      assert (Ha : after_fill (o_remaining_quantity o) o =
        Some (set_o_remaining_quantity n (fill_order (o_remaining_quantity o) o)))
        by (unfold after_fill; cbn -[has_hidden]; rewrite Z.sub_diag; cbn -[has_hidden]; by rewrite Hh).
      apply wp_bind. eapply wp_deref; [rewrite Hl2; exact Hf2|]. apply wp_emit. split.
      * by apply inv_says.
      * rewrite Ha. change (side_levels sd (says ?evs0 s2)) with (side_levels sd s2). by rewrite Hl2.
      * intros b Hb. destruct sd, b as [[]|[]]; done.
      * rewrite Ha. by destruct sd.
      * by destruct sd.
      * by destruct sd.
      * by destruct sd.
      * eexists (evs ++ [_; _]). split; [destruct sd; cbn; by rewrite <- !app_assoc|]. unfold traded in *. rewrite sum_by_app, Hevs. cbn. lia.
    + destruct (inv_find (OnBook sd) [] s l o.(o_id) H) as (o1 & lv1 & v1 & freed & Hf1 & _ & Hr & _ & _).
      { destruct (find_order_Some _ _ _ _ Hf) as [Hlv Hin]. cbn. apply (list_elem_of_fmap_2 key _ (l, o)).
        apply list_elem_of_bind. eauto. }
      cbn [levels_of] in Hf1, Hr. assert (o1 = o) as -> by congruence. clear Hf1.
      pose proof (remove_order_filled l o lv _ v1 o freed Hnd Hf Hr) as Hr'. fold v in Hr'.
      apply wp_bind. eapply wp_book_remove; [replace (side_levels sd _) with v by (by destruct sd); exact Hr'|]. cbv beta iota.
      apply wp_bind, wp_fire_depth_after_remove. intros evs' Hevs'. unfold index_clear, deallocate_order.
      apply wp_bind, wp_modify, wp_modify.
      assert (Ha : after_fill (o_remaining_quantity o) o = None)
        by (unfold after_fill; cbn -[has_hidden]; rewrite Z.sub_diag; cbn -[has_hidden]; by rewrite Hh).
      pose proof (inv_detach (OnBook sd) l v1 o (fill_order (o_remaining_quantity o) o) freed [] s H Hr eq_refl) as Hd.
      apply (inv_drop _ (l, fill_order (o_remaining_quantity o) o)) in Hd; [|done].
      pose proof (remove_order_entries _ _ _ _ _ _ (so_levels _ _ _ (inv_sides [] s (OnBook sd) H)) Hr) as He. split.
      * destruct sd; exact Hd.
      * exists (entries v1). rewrite Ha. split; [exact He|]. by destruct sd.
      * intros b Hb. destruct sd, b as [[]|[]]; done.
      * rewrite Ha. by destruct sd.
      * by destruct sd.
      * by destruct sd.
      * by destruct sd.
      * exists (evs ++ evs'). split; [destruct sd; cbn; by rewrite <- !app_assoc|].
        rewrite (sum_by_app trade_qty evs evs' : traded _ = _). fold (traded evs) (traded evs'). rewrite Hevs, (traded_mute evs') by done. lia.
  - destruct (partial_fill sd l o lv q s H Hf) as [Hi Ho]; [lia|]. fold v in Hi, Ho.
    assert (Ha : after_fill q o = Some (fill_order q o)) by (unfold after_fill; cbn; by rewrite (proj2 (Z.eqb_neq _ _))).
    apply wp_bind, wp_get. match goal with |- wp _ _ ?st => set (s2 := st) end.
    assert (Hi2 : inv [] s2) by exact Hi. assert (Hl2 : side_levels sd s2 = v) by (by destruct sd).
    apply wp_bind. eapply wp_deref; [apply (load_order_at (OnBook sd) l [] s2 _ Hi2); cbn [levels_of]; rewrite Hl2; exact Hfv|].
    apply wp_emit. split.
    + by apply inv_says.
    + rewrite Ha. change (side_levels sd (says ?evs0 s2)) with (side_levels sd s2). by rewrite Hl2.
    + intros b Hb. destruct sd, b as [[]|[]]; done.
    + rewrite Ha. by destruct sd.
    + by destruct sd.
    + by destruct sd.
    + by destruct sd.
    + eexists (evs ++ [_]). split; [destruct sd; cbn; by rewrite app_assoc|]. unfold traded in *. rewrite sum_by_app, Hevs. cbn. lia.
Qed.

(** ** Orders by identifier *)

Definition live_order (id : OrderId) s : option Order := l ← index_lookup id s; fst <$> load_order l s.

Lemma index_lookup_spec id s : inv [] s → index_lookup id s = s.(order_index) !! id.
Proof.
  intros H. unfold index_lookup. destruct (order_index s !! id) as [l|] eqn:E; [|by case_match].
  apply (iv_ids _ _ _ _ _ _ _ _ _ H) in E. pose proof (iv_next _ _ _ _ _ _ _ _ _ H).
  rewrite (proj2 (Z.eqb_neq id 0)) by lia. rewrite Z.geb_leb, (proj2 (Z.leb_gt _ _)) by lia. done.
Qed.

Lemma live_order_Some id s o : inv [] s →
  live_order id s = Some o ↔ o.(o_id) = id ∧ ∃ b l, (l, o) ∈ entries (levels_of b s).
Proof.
  intros H. unfold live_order. rewrite index_lookup_spec by done. split.
  - intros (l & Hi & Hl)%bind_Some. apply fmap_Some in Hl as ([o' lv] & Hl & ->). cbn.
    destruct (inv_indexed s l id H Hi) as (b & o & lv' & v & freed & Hl' & Hid & Hf & _). rewrite Hl in Hl'.
    injection Hl' as -> ->. split; [done|]. exists b, l. apply find_order_Some in Hf as [Hlv Hin].
    apply list_elem_of_bind. eauto.
  - intros (Hid & b & l & Hin). assert (Hk : (l, id) ∈ keys (levels_of b s)).
    { apply list_elem_of_fmap. exists (l, o). split; [by unfold key; cbn; rewrite Hid|done]. }
    assert (Hi : order_index s !! id = Some l).
    { apply (iv_index _ _ _ _ _ _ _ _ _ H). rewrite app_nil_r. fold (live_keys s). rewrite (live_keys_at b s). set_solver. }
    rewrite Hi. cbn. apply list_elem_of_bind in Hin as (lv & Hin & Hlv).
    by rewrite (load_order_at b l [] s (o, lv) H (find_order_elem _ _ _ _ (inv_level_locs b [] s H) Hlv Hin)).
Qed.

(** The identifier is no parked stop order's. *)
Definition not_parked (id : OrderId) s : Prop :=
  ∀ sd l o, (l, o) ∈ entries (stop_levels sd s) → o.(o_id) ≠ id.

Lemma after_fill_id q o o' : after_fill q o = Some o' → o'.(o_id) = o.(o_id).
Proof. unfold after_fill. by repeat case_match; intros [= <-]. Qed.

Lemma implied_filled_live sd l o p q s s' id : inv [] s → implied_filled sd l o p q s s' →
  live_order id s' = if decide (id = o.(o_id)) then after_fill q o else live_order id s.
Proof.
  intros H [Hi (rest & H1 & H2) Hoth Hidx _ _ _ _]. apply option_eq. intros o'. rewrite live_order_Some by done.
  assert (Hso : live_order o.(o_id) s = Some o).
  { apply live_order_Some; [done|]. split; [done|]. exists (OnBook sd), l. cbn. rewrite H1. by left. }
  assert (Hrest : ∀ l' o'', (l', o'') ∈ rest → o''.(o_id) ≠ o.(o_id)).
  { intros l' o'' Hin Heq. pose proof (inv_level_locs (OnBook sd) [] s H) as Hnd. cbn in Hnd.
    assert (Hks : keys (side_levels sd s) ≡ₚ key <$> (l, o) :: rest) by (unfold keys; by rewrite H1).
    assert (Hlk : ∀ x, x ∈ (l, o) :: rest → s.(order_index) !! (x.2).(o_id) = Some x.1).
    { intros x Hx. apply (iv_index _ _ _ _ _ _ _ _ _ H). rewrite app_nil_r. fold (live_keys s).
      rewrite (live_keys_at (OnBook sd) s). apply elem_of_app. left. cbn. rewrite Hks.
      by apply (list_elem_of_fmap_2 key _ x). }
    pose proof (Hlk (l, o) ltac:(by left)) as E1. pose proof (Hlk (l', o'') ltac:(by right)) as E2. cbn in *.
    assert (l' = l) as -> by congruence. rewrite Hks in Hnd. cbn in Hnd. apply NoDup_cons in Hnd as [Hni _]. apply Hni.
    rewrite <- list_fmap_compose. by apply (list_elem_of_fmap_2 (fst ∘ key) _ (l, o'')). }
  destruct (decide (id = o.(o_id))) as [->|Hne].
  - destruct (after_fill q o) as [o1|] eqn:Ha; cbn in H2.
    + assert (Hs1 : live_order o.(o_id) s' = Some o1).
      { apply live_order_Some; [done|]. split; [by eapply after_fill_id|]. exists (OnBook sd), l. cbn. rewrite H2. by left. }
      rewrite <- live_order_Some, Hs1 by done. done.
    + split; [|done]. intros Hx. rewrite <- live_order_Some in Hx by done. unfold live_order in Hx.
      rewrite index_lookup_spec, Hidx, lookup_delete_eq in Hx by done. done.
  - rewrite live_order_Some by done. split; (intros (<- & b & l' & Hin); split; [done|]; exists b, l').
    + destruct (decide (b = OnBook sd)) as [->|Hb]; [|by rewrite <- (Hoth b Hb)]. cbn in *. rewrite H1. rewrite H2 in Hin.
      apply elem_of_app in Hin as [Hin|Hin]; [|by right]. destruct (after_fill q o) as [o1|] eqn:Ha; cbn in Hin; [|inversion Hin].
      apply list_elem_of_singleton in Hin as [= -> ->]. by apply after_fill_id in Ha.
    + destruct (decide (b = OnBook sd)) as [->|Hb]; [|by rewrite (Hoth b Hb)]. cbn in *. rewrite H2. rewrite H1 in Hin.
      apply elem_of_app. right. by apply elem_of_cons in Hin as [[= -> ->]|Hin].
Qed.

(** ** Batches *)

Lemma implied_fill_valid_iff fill s :
  implied_fill_valid s fill = true ↔
  ∃ o, live_order fill.(leg_order_id) s = Some o ∧ 0 < fill.(leg_fill_qty) <= o.(o_remaining_quantity).
Proof.
  unfold implied_fill_valid, live_order. destruct (index_lookup _ s) as [l|]; cbn; [|split; [done|by intros (? & ? & _)]].
  destruct (load_order l s) as [[o lv]|]; cbn; [|split; [done|by intros (? & ? & _)]].
  rewrite andb_true_iff, !negb_true_iff, Z.leb_gt, Z.ltb_ge. split; [intros []; by exists o|by intros (? & [= <-] & ?)].
Qed.

(** A valid fill of an order that is not parked, from the identifier alone. *)
Lemma wp_implied_fill_of ts fill s : inv [] s → not_parked fill.(leg_order_id) s → implied_fill_valid s fill = true →
  wp (apply_implied_fill ts fill) (λ _ s', ∃ sd l o, live_order fill.(leg_order_id) s = Some o ∧
    o.(o_id) = fill.(leg_order_id) ∧ implied_filled sd l o fill.(leg_fill_price) fill.(leg_fill_qty) s s') s.
Proof.
  intros H Hnp (o & Ho & Hq)%implied_fill_valid_iff. pose proof Ho as Ho'.
  unfold live_order in Ho'. rewrite index_lookup_spec in Ho' by done. apply bind_Some in Ho' as (l & Hi & Hl).
  apply fmap_Some in Hl as ([o' lv] & Hl & ->).
  destruct (inv_indexed s l _ H Hi) as (b & o & lv' & v & freed & Hl' & Hid & Hf & _). rewrite Hl in Hl'. injection Hl' as -> ->.
  destruct b as [sd|sd]; cbn in Hf.
  - eapply wp_mono; [by apply (wp_apply_implied_fill ts fill sd l o lv')|]. intros u s1 Him. by exists sd, l, o.
  - destruct (Hnp sd l o); [|done]. apply find_order_Some in Hf as [Hlv Hin]. apply list_elem_of_bind. eauto.
Qed.

Lemma not_parked_filled id sd l o p q s s' : implied_filled sd l o p q s s' → not_parked id s → not_parked id s'.
Proof.
  intros Him Hnp sd' l' o' Hin. apply (Hnp sd' l'). pose proof (im_others _ _ _ _ _ _ _ Him (OnStop sd') ltac:(done)) as E.
  cbn in E. by rewrite <- E.
Qed.

(** What a batch of fills does to the orders and reports. *)
Record batch_filled (fills : list LegFill) s s' : Prop := {
  bf_inv : inv [] s';
  bf_filled : ∀ fill o, fill ∈ fills → live_order fill.(leg_order_id) s = Some o →
    live_order fill.(leg_order_id) s' = after_fill fill.(leg_fill_qty) o;
  bf_others : ∀ id, id ∉ leg_order_id <$> fills → live_order id s' = live_order id s;
  bf_parked : ∀ id, not_parked id s → not_parked id s';
  bf_session : same_session s s';
  bf_trace : ∃ evs, s'.(trace) = s.(trace) ++ evs ∧ traded evs = sum_by leg_fill_qty fills
}.

Lemma wp_implied_loop ts fills s :
  inv [] s → NoDup (leg_order_id <$> fills) → Forall (λ f, not_parked f.(leg_order_id) s) fills →
  Forall (λ f, implied_fill_valid s f = true) fills →
  wp (forM_ fills (apply_implied_fill ts)) (λ _ s', batch_filled fills s s') s.
Proof.
  revert s. induction fills as [|fill fills IH]; intros s H; cbn [forM_].
  { intros _ _ _. apply wp_ret. split; [done|by intros ? ? ?%not_elem_of_nil|done|done|done|exists []; by rewrite app_nil_r]. }
  intros [Hni Hnd]%NoDup_cons [Hp Hps]%Forall_cons [Hv Hvs]%Forall_cons.
  apply wp_bind. eapply wp_mono; [by apply wp_implied_fill_of|]. intros _ s1 (sd & l & o & Ho & Hid & Him).
  assert (Hlive : ∀ id, live_order id s1 = if decide (id = fill.(leg_order_id)) then after_fill fill.(leg_fill_qty) o
    else live_order id s) by (intros id; rewrite <- Hid; by eapply implied_filled_live).
  assert (Hne : ∀ f, f ∈ fills → f.(leg_order_id) ≠ fill.(leg_order_id)).
  { intros f Hf Heq. apply Hni. rewrite <- Heq. by apply list_elem_of_fmap_2. }
  assert (Hvs1 : Forall (λ f, implied_fill_valid s1 f = true) fills).
  { rewrite Forall_forall in Hvs |- *. intros f Hf. specialize (Hvs f Hf). rewrite implied_fill_valid_iff in *.
    rewrite Hlive, decide_False by auto. done. }
  assert (Hps1 : Forall (λ f, not_parked f.(leg_order_id) s1) fills).
  { eapply Forall_impl; [exact Hps|]. intros f. by eapply not_parked_filled. }
  eapply wp_mono; [apply (IH s1); [by eapply im_inv|done..]|]. intros _ s' [B1 B2 B3 B4 B5 (evs & B6 & B7)]. split.
  - done.
  - intros f o' [->|Hf]%elem_of_cons Ho'.
    + rewrite B3 by done. rewrite Hlive, decide_True by done. congruence.
    + apply B2; [done|]. rewrite Hlive, decide_False by auto. done.
  - intros id [Hne' Hni']%not_elem_of_cons. rewrite B3, Hlive, decide_False by done. done.
  - intros id Hnp. apply B4. by eapply not_parked_filled.
  - etrans; [by eapply im_session|done].
  - destruct (im_trace _ _ _ _ _ _ _ Him) as (evs0 & E0 & T0). exists (evs0 ++ evs). rewrite B6, E0, <- app_assoc. split; [done|].
    rewrite (sum_by_app trade_qty evs0 evs : traded _ = _). fold (traded evs0) (traded evs). cbn. lia.
Qed.
End implied.

Section batch.
Context {D : Type} {params : EngineParams} {hooks : Hooks D} {algo : MatchAlgorithm}.
Implicit Types (s : engine D) (ts : Timestamp).

(** A market-data event on top. *)
Lemma batch_filled_says fills s s' ev : trade_qty ev = 0 → batch_filled fills s s' → batch_filled fills s (says [ev] s').
Proof.
  intros Hev [B1 B2 B3 B4 B5 (evs & B6 & B7)]. split; [by apply inv_says|exact B2|exact B3|exact B4|by destruct B5|].
  exists (evs ++ [ev]). cbn. rewrite B6, <- app_assoc. split; [done|].
  rewrite (sum_by_app trade_qty evs [ev] : traded _ = _). fold (traded evs). cbn. lia.
Qed.

Lemma wp_apply_implied_fills fills ts s :
  inv [] s → NoDup (leg_order_id <$> fills) → Forall (λ f, not_parked f.(leg_order_id) s) fills →
  wp (apply_implied_fills fills ts) (λ b s', b = forallb (implied_fill_valid s) fills ∧
    if b then batch_filled fills s s' else s' = s) s.
Proof.
  intros H Hnd Hp. unfold apply_implied_fills. apply wp_bind, wp_get.
  destruct (forallb (implied_fill_valid s) fills) eqn:Hv; [|by apply wp_ret].
  apply wp_bind. eapply wp_mono; [apply wp_implied_loop; try done; by apply forallb_Forall|].
  intros u s1 Hb. cbv beta in Hb. apply wp_bind, wp_fire_top_of_book. intros ev Hev. apply wp_ret. split; [done|]. apply batch_filled_says; [by destruct ev|done].
Qed.

End batch.
