(* ===== verification/IntrusiveList.v ===== *)
(** * Intrusive doubly linked lists: [intrusive_list.h]

    The function templates on nodes in memory: a heap maps addresses to nodes
    with their two links; [head] and [tail] are the references the C++ functions
    take.  An operation is [None] where it dereferences a null pointer.

    [dlist] says that a heap holds a list; every operation computes the
    corresponding list operation, writes to no other node and keeps the data of
    every node. *)

From S2P Require Import Prelude.

(** ** Nodes in memory *)

Record node (A : Type) : Type := mkNode { n_prev : option nat; n_next : option nat; n_data : A }.
Arguments mkNode {A}.
Arguments n_prev {A}.
Arguments n_next {A}.
Arguments n_data {A}.

Definition set_prev {A} (p : option nat) (n : node A) : node A := mkNode p n.(n_next) n.(n_data).
Definition set_next {A} (q : option nat) (n : node A) : node A := mkNode n.(n_prev) q n.(n_data).

Section lists.
Context {A : Type}.
Implicit Types (h : gmap nat (node A)) (head tail : option nat) (x : nat).

(** A write through a pointer. *)
Definition write x (f : node A → node A) h : option (gmap nat (node A)) :=
  n ← h !! x; Some (<[x := f n]> h).

(** The heap and the two references after the call. *)
Abbreviation list_result := (option (gmap nat (node A) * option nat * option nat)).

Definition list_push_back head tail x h : list_result :=
  h ← write x (set_prev tail) h;
  h ← write x (set_next None) h;
  '(h, head) ← match tail with
               | Some t => h ← write t (set_next (Some x)) h; Some (h, head)
               | None => Some (h, Some x)
               end;
  Some (h, head, Some x).

Definition list_push_front head tail x h : list_result :=
  h ← write x (set_prev None) h;
  h ← write x (set_next head) h;
  '(h, tail) ← match head with
               | Some y => h ← write y (set_prev (Some x)) h; Some (h, tail)
               | None => Some (h, Some x)
               end;
  Some (h, Some x, tail).

Definition list_insert_before head tail (before : nat) x h : list_result :=
  h ← write x (set_next (Some before)) h;
  b ← h !! before;
  h ← write x (set_prev b.(n_prev)) h;
  b ← h !! before;
  '(h, head) ← match b.(n_prev) with
               | Some p => h ← write p (set_next (Some x)) h; Some (h, head)
               | None => Some (h, Some x)
               end;
  h ← write before (set_prev (Some x)) h;
  Some (h, head, tail).

Definition list_insert_after head tail (after : nat) x h : list_result :=
  h ← write x (set_prev (Some after)) h;
  a ← h !! after;
  h ← write x (set_next a.(n_next)) h;
  a ← h !! after;
  '(h, tail) ← match a.(n_next) with
               | Some q => h ← write q (set_prev (Some x)) h; Some (h, tail)
               | None => Some (h, Some x)
               end;
  h ← write after (set_next (Some x)) h;
  Some (h, head, tail).

Definition list_remove head tail x h : list_result :=
  n ← h !! x;
  '(h, head) ← match n.(n_prev) with
               | Some p => h ← write p (set_next n.(n_next)) h; Some (h, head)
               | None => Some (h, n.(n_next))
               end;
  n ← h !! x;
  '(h, tail) ← match n.(n_next) with
               | Some q => h ← write q (set_prev n.(n_prev)) h; Some (h, tail)
               | None => Some (h, n.(n_prev))
               end;
  h ← write x (set_prev None) h;
  h ← write x (set_next None) h;
  Some (h, head, tail).

Definition list_empty head : bool := bool_decide (head = None).

(** The loop of [list_size]; the fuel bounds the number of nodes. *)
Fixpoint list_size (fuel : nat) (n : option nat) (count : nat) h : option nat :=
  match n with
  | None => Some count
  | Some x =>
      match fuel with
      | O => None
      | S fuel' => nd ← h !! x; list_size fuel' nd.(n_next) (S count) h
      end
  end.

(** ** What a heap holds *)

(** The first and the last address of a list, or the given one if it is empty. *)
Definition first (es : list (nat * A)) (q : option nat) : option nat :=
  match es with [] => q | e :: _ => Some e.1 end.
Fixpoint final (p : option nat) (es : list (nat * A)) : option nat :=
  match es with [] => p | e :: es' => final (Some e.1) es' end.

(** The nodes of [es] are linked in order, between [p] and [q]. *)
Fixpoint dlseg h (p : option nat) (es : list (nat * A)) (q : option nat) : Prop :=
  match es with
  | [] => True
  | (x, a) :: es' => h !! x = Some (mkNode p (first es' q) a) ∧ dlseg h (Some x) es' q
  end.

Record dlist h head tail (es : list (nat * A)) : Prop := {
  dl_nodup : NoDup es.*1;
  dl_head : head = first es None;
  dl_tail : tail = final None es;
  dl_links : dlseg h None es None
}.

(** Nothing but these nodes is written. *)
Definition only_writes (xs : list nat) h h' : Prop := ∀ y, y ∉ xs → h' !! y = h !! y.

(** ** Segments *)

Lemma write_Some h x n f : h !! x = Some n → write x f h = Some (<[x := f n]> h).
Proof. unfold write. by intros ->. Qed.

Lemma first_app es es' q : first (es ++ es') q = first es (first es' q).
Proof. by destruct es. Qed.

Lemma final_app p es es' : final p (es ++ es') = final (final p es) es'.
Proof. revert p. induction es as [|e es IH]; intros p; cbn; [done|]. apply IH. Qed.

Lemma dlseg_app h p es es' q :
  dlseg h p (es ++ es') q ↔ dlseg h p es (first es' q) ∧ dlseg h (final p es) es' q.
Proof.
  revert p. induction es as [|[x a] es IH]; intros p; cbn; [by split; [|intros []]|].
  rewrite first_app, IH. naive_solver.
Qed.

Lemma dlseg_frame h h' p es q :
  dlseg h p es q → (∀ x, x ∈ es.*1 → h' !! x = h !! x) → dlseg h' p es q.
Proof.
  revert p. induction es as [|[x a] es IH]; intros p; cbn; [done|].
  intros [Hx Hs] Hf. split; [rewrite Hf; [done|by left]|]. apply IH; [done|]. intros y Hy. apply Hf. by right.
Qed.

Lemma dlseg_insert h p es q x n : x ∉ es.*1 → dlseg h p es q → dlseg (<[x := n]> h) p es q.
Proof. intros Hx Hs. eapply dlseg_frame; [done|]. intros y Hy. apply lookup_insert_ne. by intros ->. Qed.

(** A segment is entered by its first node and left by its last. *)
Lemma dlseg_retarget h p es x a q q' : x ∉ es.*1 →
  dlseg h p (es ++ [(x, a)]) q →
  dlseg (<[x := mkNode (final p es) q' a]> h) p (es ++ [(x, a)]) q'.
Proof.
  intros Hx (Hs & _ & _)%dlseg_app. apply dlseg_app. split; [by apply dlseg_insert|].
  cbn. by rewrite lookup_insert_eq.
Qed.

Lemma dlseg_resource h p p' x a es q : x ∉ es.*1 →
  dlseg h p ((x, a) :: es) q → dlseg (<[x := mkNode p' (first es q) a]> h) p' ((x, a) :: es) q.
Proof. intros Hx [_ Hs]. cbn. rewrite lookup_insert_eq. split; [done|by apply dlseg_insert]. Qed.

Lemma dlseg_last h p es x a q : dlseg h p (es ++ [(x, a)]) q → h !! x = Some (mkNode (final p es) q a).
Proof. by intros (_ & Hx & _)%dlseg_app. Qed.

Lemma final_snoc p es x a : final p (es ++ [(x, a)]) = Some x.
Proof. by rewrite final_app. Qed.

Lemma final_cases es : (es = [] ∧ final None es = None) ∨
  (∃ es' x a, es = es' ++ [(x, a)] ∧ final None es = Some x).
Proof.
  destruct es as [|[x a] es' _] using rev_ind; [by left|]. right. exists es', x, a. by rewrite final_snoc.
Qed.

Lemma nodup_split (es es' : list (nat * A)) x a : NoDup (es ++ (x, a) :: es').*1 →
  x ∉ es.*1 ∧ x ∉ es'.*1 ∧ NoDup (es ++ es').*1 ∧ (∀ y, y ∈ es.*1 → y ∉ es'.*1).
Proof.
  rewrite !fmap_app. cbn. intros (H1 & H2 & [H3 H4]%NoDup_cons)%NoDup_app. split_and!.
  - intros Hx. apply (H2 x Hx). by left.
  - done.
  - apply NoDup_app. split_and!; [done| |done]. intros y Hy Hy'. apply (H2 y Hy). by right.
  - intros y Hy Hy'. apply (H2 y Hy). by right.
Qed.

(** *** Relinking the ends of a segment *)

Lemma dlseg_lookup h p es q x : dlseg h p es q → x ∈ es.*1 → ∃ n, h !! x = Some n.
Proof.
  revert p. induction es as [|[y a] es IH]; intros p; [intros _ Hx; inversion Hx|].
  intros [Hy Hs] [->|Hx]%elem_of_cons; [by eexists|by eapply IH].
Qed.

Lemma dlseg_next h h' p es q q' : dlseg h p es q → NoDup es.*1 →
  (∀ y n, y ∈ es.*1 → h !! y = Some n →
     h' !! y = Some (if decide (final None es = Some y) then set_next q' n else n)) →
  dlseg h' p es q'.
Proof.
  destruct es as [|[x a] es _] using rev_ind; [done|]. intros (Hs & Hx & _)%dlseg_app Hnd Hh'.
  destruct (nodup_split es [] x a Hnd) as (Hxes & _ & _ & _).
  apply dlseg_app. cbn. split_and!; [| |done].
  - eapply dlseg_frame; [exact Hs|]. intros y Hy.
    destruct (dlseg_lookup _ _ _ _ _ Hs Hy) as [n Hn]. rewrite Hn.
    rewrite (Hh' y n), final_snoc; [|rewrite fmap_app; apply elem_of_app; by left|done].
    rewrite decide_False; [done|]. by intros [= ->].
  - rewrite (Hh' x _ ltac:(rewrite fmap_app; apply elem_of_app; right; by left) Hx), final_snoc.
    by rewrite decide_True.
Qed.

Lemma dlseg_prev h h' p p' es q : dlseg h p es q → NoDup es.*1 →
  (∀ y n, y ∈ es.*1 → h !! y = Some n →
     h' !! y = Some (if decide (first es None = Some y) then set_prev p' n else n)) →
  dlseg h' p' es q.
Proof.
  destruct es as [|[x a] es]; [done|]. intros [Hx Hs] [Hxes Hnd]%NoDup_cons Hh'. cbn in *. split.
  - rewrite (Hh' x _ ltac:(by left) Hx). by rewrite decide_True.
  - clear Hx Hnd. assert (Hk : ∀ y n, y ∈ es.*1 → h !! y = Some n → h' !! y = Some n).
    { intros y n Hy Hn. rewrite (Hh' y n); [|by right|done]. rewrite decide_False; [done|]. by intros [= ->]. }
    clear Hh' Hxes. revert x Hs. induction es as [|[z b] es IH]; intros x; [done|].
    intros [Hz Hs]. split; [apply Hk; [by left|done]|]. apply IH; [|done]. intros y n Hy. apply Hk. by right.
Qed.

(** A node between two segments, and its removal. *)
Lemma dlseg_splice h h' l1 x a l2 : dlseg h None (l1 ++ l2) None → NoDup (l1 ++ (x, a) :: l2).*1 →
  h' !! x = Some (mkNode (final None l1) (first l2 None) a) →
  (∀ y n, y ∈ l1.*1 → h !! y = Some n →
     h' !! y = Some (if decide (final None l1 = Some y) then set_next (Some x) n else n)) →
  (∀ y n, y ∈ l2.*1 → h !! y = Some n →
     h' !! y = Some (if decide (first l2 None = Some y) then set_prev (Some x) n else n)) →
  dlseg h' None (l1 ++ (x, a) :: l2) None.
Proof.
  intros (H1 & H2)%dlseg_app Hnd Hx Hl1 Hl2. destruct (nodup_split _ _ _ _ Hnd) as (_ & _ & Hnd' & _).
  rewrite fmap_app in Hnd'. apply NoDup_app in Hnd' as (Hn1 & _ & Hn2).
  apply dlseg_app. split; [by eapply dlseg_next|]. cbn. split; [done|]. by eapply dlseg_prev.
Qed.

Lemma dlseg_unsplice h h' l1 x a l2 : dlseg h None (l1 ++ (x, a) :: l2) None →
  NoDup (l1 ++ (x, a) :: l2).*1 →
  (∀ y n, y ∈ l1.*1 → h !! y = Some n →
     h' !! y = Some (if decide (final None l1 = Some y) then set_next (first l2 None) n else n)) →
  (∀ y n, y ∈ l2.*1 → h !! y = Some n →
     h' !! y = Some (if decide (first l2 None = Some y) then set_prev (final None l1) n else n)) →
  dlseg h' None (l1 ++ l2) None.
Proof.
  intros (H1 & _ & H2)%dlseg_app Hnd Hl1 Hl2. destruct (nodup_split _ _ _ _ Hnd) as (_ & _ & Hnd' & _).
  rewrite fmap_app in Hnd'. apply NoDup_app in Hnd' as (Hn1 & _ & Hn2).
  apply dlseg_app. split; [by eapply dlseg_next|]. by eapply dlseg_prev.
Qed.

Lemma final_elem es x : final None es = Some x → x ∈ es.*1.
Proof.
  destruct (final_cases es) as [[_ ->]|(es' & y & a & -> & ->)]; [done|]. intros [= ->].
  rewrite fmap_app. apply elem_of_app. right. by left.
Qed.

Lemma first_elem es x : first es None = Some x → x ∈ es.*1.
Proof. destruct es as [|[y a] es]; [done|]. intros [= ->]. by left. Qed.

(** ** The operations *)

(** A write through a pointer that may be null. *)
Definition alter_opt (f : node A → node A) (o : option nat) h : gmap nat (node A) :=
  match o with Some y => alter f y h | None => h end.

Lemma lookup_alter_opt f o h y :
  alter_opt f o h !! y = if decide (o = Some y) then f <$> h !! y else h !! y.
Proof.
  destruct o as [z|]; cbn; [|done]. destruct (decide (z = y)) as [->|Hne].
  - by rewrite lookup_alter_eq, decide_True.
  - rewrite lookup_alter_ne, decide_False; [done|congruence|done].
Qed.

Lemma write_alter h x n f : h !! x = Some n → write x f h = Some (alter f x h).
Proof.
  intros Hn. rewrite (write_Some _ _ _ _ Hn). f_equal. apply map_eq. intros y.
  destruct (decide (x = y)) as [->|]; [by rewrite lookup_insert_eq, lookup_alter_eq, Hn|].
  by rewrite lookup_insert_ne, lookup_alter_ne.
Qed.

(** [if (o) o->... = ...; else r = ...]. *)
Lemma write_or_ref {B} o f h (r r' : option nat) (k : gmap nat (node A) * option nat → option B) :
  (∀ y, o = Some y → ∃ n, h !! y = Some n) →
  (match o with Some y => h ← write y f h; Some (h, r) | None => Some (h, r') end) ≫= k =
    k (alter_opt f o h, match o with Some _ => r | None => r' end).
Proof.
  intros Ho. destruct o as [y|]; [|done]. destruct (Ho y eq_refl) as [n Hn].
  by rewrite (write_alter _ _ _ _ Hn).
Qed.

(** Both links of a node. *)
Lemma write_links {B} x n f g h (k : gmap nat (node A) → option B) : h !! x = Some n →
  (h ← write x f h; h ← write x g h; k h) = k (<[x := g (f n)]> h).
Proof.
  intros Hn. rewrite (write_Some _ _ _ _ Hn). cbn [mbind option_bind].
  erewrite write_Some by apply lookup_insert_eq. cbn [mbind option_bind]. by rewrite insert_insert_eq.
Qed.

Context (h : gmap nat (node A)).

(** What a heap holds at an address after the writes. *)
Ltac at_address :=
  rewrite ?lookup_alter_opt, ?lookup_insert; repeat case_decide; simplify_eq; cbn; try done; try set_solver.

(** The neighbours of a place in a list. *)
Lemma neighbours h' l1 l2 : dlseg h' None (l1 ++ l2) None → NoDup (l1 ++ l2).*1 →
  (∀ y, final None l1 = Some y → y ∈ l1.*1 ∧ y ∉ l2.*1 ∧ ∃ n, h' !! y = Some n) ∧
  (∀ y, first l2 None = Some y → y ∈ l2.*1 ∧ y ∉ l1.*1 ∧ ∃ n, h' !! y = Some n).
Proof using.
  intros Hl Hnd. assert (Hin : ∀ y, y ∈ (l1 ++ l2).*1 → ∃ n, h' !! y = Some n)
    by (intros y; by apply (dlseg_lookup _ None _ None)).
  rewrite fmap_app in *. apply NoDup_app in Hnd as (_ & Hd & _). split; intros y Hy.
  - pose proof (final_elem _ _ Hy). split_and!; [done|by apply Hd|]. apply Hin, elem_of_app. by left.
  - pose proof (first_elem _ _ Hy). split_and!; [done| |].
    + intros Hy'. by apply (Hd y Hy').
    + apply Hin, elem_of_app. by right.
Qed.

(** The heap after a node has been linked between two segments. *)
Definition linked x (l1 l2 : list (nat * A)) (a : A) : gmap nat (node A) :=
  alter_opt (set_prev (Some x)) (first l2 None)
    (alter_opt (set_next (Some x)) (final None l1)
       (<[x := mkNode (final None l1) (first l2 None) a]> h)).

Lemma linked_ok head tail x l1 l2 a : dlist h head tail (l1 ++ l2) → x ∉ (l1 ++ l2).*1 →
  dlist (linked x l1 l2 a) (first (l1 ++ (x, a) :: l2) None) (final None (l1 ++ (x, a) :: l2))
    (l1 ++ (x, a) :: l2) ∧
  only_writes (x :: (l1 ++ l2).*1) h (linked x l1 l2 a).
Proof using.
  intros [Hnd -> -> Hl] Hx. destruct (neighbours h l1 l2 Hl Hnd) as [Hp Hq].
  assert (Hnd' : NoDup (l1 ++ (x, a) :: l2).*1).
  { rewrite fmap_app in *. cbn. apply NoDup_app in Hnd as (H1 & Hd & H2). apply NoDup_app.
    rewrite elem_of_app in Hx. split_and!; [done|set_solver|]. constructor; [set_solver|done]. }
  assert (Hx1 : x ∉ l1.*1) by (rewrite fmap_app in Hx; set_solver).
  assert (Hx2 : x ∉ l2.*1) by (rewrite fmap_app in Hx; set_solver).
  assert (Hpx : final None l1 ≠ Some x) by (intros E%final_elem; done).
  assert (Hqx : first l2 None ≠ Some x) by (intros E%first_elem; done).
  split; [split; [done..|]|].
  - apply (dlseg_splice h); [done|done|..]; unfold linked.
    + rewrite !lookup_alter_opt, lookup_insert_eq. by rewrite !decide_False.
    + intros y n Hy Hn. rewrite !lookup_alter_opt, lookup_insert_ne, Hn by (by intros ->).
      rewrite (decide_False (P := first l2 None = Some y)); [by case_decide|].
      intros E. by destruct (Hq y E) as (_ & ? & _).
    + intros y n Hy Hn. rewrite !lookup_alter_opt, lookup_insert_ne, Hn by (by intros ->).
      rewrite (decide_False (P := final None l1 = Some y)); [by case_decide|].
      intros E. by destruct (Hp y E) as (_ & ? & _).
  - intros y Hy. rewrite fmap_app in Hy. unfold linked. rewrite !lookup_alter_opt, lookup_insert_ne by set_solver.
    rewrite !decide_False; [done|intros E%final_elem; set_solver|intros E%first_elem; set_solver].
Qed.

(** The specification of an insertion: from the list [l1 ++ l2] and a node [x]
    in memory to the list with [x] between the two parts. *)
Definition inserts (op : option nat → option nat → gmap nat (node A) → list_result)
    (l1 l2 : list (nat * A)) x : Prop :=
  ∀ head tail n, dlist h head tail (l1 ++ l2) → x ∉ (l1 ++ l2).*1 → h !! x = Some n →
  ∃ h' head' tail', op head tail h = Some (h', head', tail') ∧
    dlist h' head' tail' (l1 ++ (x, n.(n_data)) :: l2) ∧ only_writes (x :: (l1 ++ l2).*1) h h'.

(** An operation that computes [linked] meets it. *)
Lemma inserts_linked op l1 l2 x :
  (∀ head tail n, dlist h head tail (l1 ++ l2) → x ∉ (l1 ++ l2).*1 → h !! x = Some n →
     op head tail h = Some (linked x l1 l2 n.(n_data),
       first (l1 ++ (x, n.(n_data)) :: l2) None, final None (l1 ++ (x, n.(n_data)) :: l2))) →
  inserts op l1 l2 x.
Proof using.
  intros Hop head tail n Hl Hx Hn. destruct (linked_ok head tail x l1 l2 n.(n_data) Hl Hx).
  do 3 eexists. split; [by apply Hop|]. done.
Qed.

Lemma alter_opt_some h' o f x m : o ≠ Some x → alter_opt f o (<[x := m]> h') !! x = Some m.
Proof using. intros Ho. by rewrite lookup_alter_opt, decide_False, lookup_insert_eq. Qed.

Lemma head_linked x l1 l2 (a : A) : first (l1 ++ (x, a) :: l2) None =
  match final None l1 with Some _ => first (l1 ++ l2) None | None => Some x end.
Proof using.
  destruct (final_cases l1) as [[-> ->]|(l & y & b & -> & ->)]; [done|].
  rewrite <- !app_assoc, !first_app. by destruct l.
Qed.

Lemma tail_linked x l1 l2 (a : A) : final None (l1 ++ (x, a) :: l2) =
  match first l2 None with Some _ => final None (l1 ++ l2) | None => Some x end.
Proof using. rewrite !final_app. by destruct l2. Qed.

Lemma list_push_back_ok l x : inserts (λ head tail, list_push_back head tail x) l [] x.
Proof using.
  apply inserts_linked. intros head tail n [Hnd -> -> Hl] Hx Hn.
  destruct (neighbours h l [] Hl Hnd) as [Hp _]. rewrite app_nil_r in *.
  unfold list_push_back. rewrite (write_links _ n) by done. rewrite write_or_ref.
  - rewrite head_linked, tail_linked, app_nil_r. done.
  - intros y Hy. destruct (Hp y Hy) as (Hy' & _ & m & Hm). exists m. rewrite lookup_insert_ne; [done|by intros ->].
Qed.

Lemma list_push_front_ok l x : inserts (λ head tail, list_push_front head tail x) [] l x.
Proof using.
  apply inserts_linked. intros head tail n [Hnd -> -> Hl] Hx Hn. cbn [app] in *.
  destruct (neighbours h [] l Hl Hnd) as [_ Hq].
  unfold list_push_front. rewrite (write_links _ n) by done. rewrite write_or_ref.
  - by destruct l.
  - intros y Hy. destruct (Hq y Hy) as (Hy' & _ & m & Hm). exists m. rewrite lookup_insert_ne; [done|by intros ->].
Qed.

Lemma list_insert_before_ok l1 before b l2 x :
  inserts (λ head tail, list_insert_before head tail before x) l1 ((before, b) :: l2) x.
Proof using.
  apply inserts_linked. intros head tail n [Hnd -> -> Hl] Hx Hn.
  destruct (neighbours h l1 _ Hl Hnd) as [Hp _]. pose proof Hl as (_ & Hb & _)%dlseg_app.
  assert (Hne : before ≠ x) by (intros ->; apply Hx; rewrite fmap_app; set_solver).
  assert (Hpx : ∀ y, final None l1 = Some y → y ≠ x) by (intros y Hy ->; apply Hx; rewrite fmap_app; destruct (Hp _ Hy); set_solver).
  unfold list_insert_before. rewrite (write_Some _ _ _ _ Hn). cbn [mbind option_bind].
  rewrite lookup_insert_ne, Hb by done. cbn [mbind option_bind n_prev].
  erewrite (write_Some _ x) by apply lookup_insert_eq. cbn [mbind option_bind]. rewrite insert_insert_eq.
  rewrite lookup_insert_ne, Hb by done. cbn [mbind option_bind n_prev]. rewrite write_or_ref.
  - erewrite write_alter; [cbn [mbind option_bind]|].
    + rewrite (head_linked x l1 _ (n_data n)), (tail_linked x l1 _ (n_data n)). done.
    + rewrite lookup_alter_opt, decide_False, lookup_insert_ne; [exact Hb|done|].
      intros Hy. destruct (Hp _ Hy) as (_ & Hn2 & _). apply Hn2. by left.
  - intros y Hy. destruct (Hp y Hy) as (Hy' & _ & m & Hm). exists m. rewrite lookup_insert_ne; [done|].
    intros ->. by apply (Hpx _ Hy).
Qed.

(** The two neighbours can be written in either order. *)
Lemma alter_opt_comm h' f g o o' : (∀ y, o = Some y → o' ≠ Some y) →
  alter_opt f o (alter_opt g o' h') = alter_opt g o' (alter_opt f o h').
Proof using.
  intros Hne. apply map_eq. intros y. rewrite !lookup_alter_opt.
  destruct (decide (o = Some y)), (decide (o' = Some y)); try done. by destruct (Hne y).
Qed.

Lemma list_insert_after_ok l1 after b l2 x :
  inserts (λ head tail, list_insert_after head tail after x) (l1 ++ [(after, b)]) l2 x.
Proof using.
  apply inserts_linked. intros head tail n [Hnd -> -> Hl] Hx Hn.
  destruct (neighbours h _ _ Hl Hnd) as [Hp Hq]. rewrite final_snoc in Hp.
  destruct (Hp after eq_refl) as (_ & Ha2 & _).
  pose proof Hl as (Hl1 & Hl2)%dlseg_app. pose proof (dlseg_last _ _ _ _ _ _ Hl1) as Ha.
  assert (Hne : after ≠ x) by (intros ->; apply Hx; rewrite !fmap_app; set_solver).
  assert (Hqx : ∀ y, first l2 None = Some y → y ≠ x).
  { intros y Hy ->. apply Hx. rewrite fmap_app. destruct (Hq _ Hy). set_solver. }
  unfold list_insert_after. rewrite (write_Some _ _ _ _ Hn). cbn [mbind option_bind].
  rewrite lookup_insert_ne, Ha by done. cbn [mbind option_bind n_next].
  erewrite (write_Some _ x) by apply lookup_insert_eq. cbn [mbind option_bind]. rewrite insert_insert_eq.
  rewrite lookup_insert_ne, Ha by done. cbn [mbind option_bind n_next]. rewrite write_or_ref.
  - erewrite write_alter; [cbn [mbind option_bind]|].
    + rewrite (head_linked x _ _ (n_data n)), (tail_linked x _ _ (n_data n)). unfold linked. rewrite final_snoc.
      rewrite <- alter_opt_comm; [done|]. intros y [= ->] Hy. by destruct (Hq _ Hy).
    + rewrite lookup_alter_opt, decide_False, lookup_insert_ne; [exact Ha|done|].
      intros Hy. destruct (Hq _ Hy) as (Hn2 & _ & _). done.
  - intros y Hy. destruct (Hq y Hy) as (Hy' & _ & m & Hm). exists m. rewrite lookup_insert_ne; [done|].
    intros ->. by apply (Hqx _ Hy).
Qed.

(** Removal: the neighbours are linked to each other and the node to nothing. *)
Lemma list_remove_ok head tail l1 x a l2 : dlist h head tail (l1 ++ (x, a) :: l2) →
  ∃ h' head' tail', list_remove head tail x h = Some (h', head', tail') ∧
    dlist h' head' tail' (l1 ++ l2) ∧ h' !! x = Some (mkNode None None a) ∧
    only_writes (l1 ++ (x, a) :: l2).*1 h h'.
Proof using.
  intros [Hnd -> -> Hl]. destruct (nodup_split _ _ _ _ Hnd) as (Hx1 & Hx2 & Hnd' & Hdis).
  pose proof Hl as (Hl1 & Hx & Hl2)%dlseg_app. cbn [first] in Hl1.
  assert (Hp : ∀ y, final None l1 = Some y → y ∈ l1.*1 ∧ y ≠ x ∧ ∃ n, h !! y = Some n).
  { intros y Hy%final_elem. split_and!; [done|by intros ->|by apply (dlseg_lookup _ _ _ _ _ Hl1)]. }
  assert (Hq : ∀ y, first l2 None = Some y → y ∈ l2.*1 ∧ y ≠ x ∧ ∃ n, h !! y = Some n).
  { intros y Hy%first_elem. split_and!; [done|by intros ->|by apply (dlseg_lookup _ _ _ _ _ Hl2)]. }
  unfold list_remove. rewrite Hx. cbn [mbind option_bind n_prev n_next].
  rewrite write_or_ref by (intros y Hy; by apply Hp).
  assert (Hx' : alter_opt (set_next (first l2 None)) (final None l1) h !! x =
    Some (mkNode (final None l1) (first l2 None) a)).
  { rewrite lookup_alter_opt, decide_False; [done|]. intros Hy. by destruct (Hp _ Hy) as (_ & [] & _). }
  rewrite Hx'. cbn [mbind option_bind n_prev n_next]. rewrite write_or_ref.
  2: { intros y Hy. destruct (Hq y Hy) as (Hy2 & Hyx & n & Hn). exists n.
       rewrite lookup_alter_opt, decide_False; [done|]. intros Hy'.
       destruct (Hp _ Hy') as (Hy1 & _). by apply (Hdis y). }
  set (h' := alter_opt _ (first l2 None) _).
  assert (Hx'' : h' !! x = Some (mkNode (final None l1) (first l2 None) a)).
  { unfold h'. rewrite lookup_alter_opt, decide_False; [done|]. intros Hy. by destruct (Hq _ Hy) as (_ & [] & _). }
  rewrite (write_links _ _ _ _ _ _ Hx''). do 3 eexists. split; [reflexivity|]. split_and!.
  - split; [done| | |].
    + destruct (final_cases l1) as [[-> ->]|(l & y & b & -> & ->)]; [done|].
      rewrite <- !app_assoc, !first_app. by destruct l.
    + rewrite !final_app. by destruct l2.
    + apply (dlseg_unsplice h _ l1 x a l2); [done|done|..]; intros y n Hy Hn; unfold h';
        (rewrite lookup_insert_ne by (by intros ->)); rewrite !lookup_alter_opt, Hn.
      * rewrite (decide_False (P := first l2 None = Some y)); [by case_decide|].
        intros E. destruct (Hq _ E) as (E2 & _). by apply (Hdis y).
      * rewrite (decide_False (P := final None l1 = Some y)); [by case_decide|].
        intros E. destruct (Hp _ E) as (E1 & _). by apply (Hdis y).
  - by rewrite lookup_insert_eq.
  - intros y Hy. rewrite fmap_app in Hy. cbn in Hy.
    rewrite lookup_insert_ne by (intros ->; set_solver). unfold h'. rewrite !lookup_alter_opt, !decide_False; [done|..].
    + intros E. destruct (Hp _ E). set_solver.
    + intros E. destruct (Hq _ E). set_solver.
Qed.

(** The loop of [list_size] counts the nodes. *)
Lemma list_size_ok head tail es fuel : dlist h head tail es → (length es <= fuel)%nat →
  list_size fuel head 0 h = Some (length es).
Proof using.
  intros [_ -> _ Hl] Hf. rewrite <- (Nat.add_0_l (length es)). revert Hl Hf. generalize O as count.
  generalize (@None nat) at 1 as p. revert fuel.
  induction es as [|[x a] es IH]; intros fuel p count Hl Hf; cbn [first length].
  - destruct fuel; cbn; by rewrite Nat.add_0_r.
  - destruct Hl as [Hx Hl]. destruct fuel as [|fuel]; [cbn in Hf; lia|]. cbn [list_size fst].
    rewrite Hx. cbn [mbind option_bind n_next]. rewrite (IH fuel (Some x) (S count)); [|done|cbn in Hf; lia].
    f_equal. lia.
Qed.

Lemma list_empty_ok head tail es : dlist h head tail es → list_empty head = bool_decide (es = []).
Proof using. intros [_ -> _ _]. unfold list_empty. apply bool_decide_ext. by destruct es. Qed.
End lists.

(** ** Lists and the rest of the heap *)

Lemma dlist_frame {A} (h h' : gmap nat (node A)) head tail es :
  dlist h head tail es → (∀ x, x ∈ es.*1 → h' !! x = h !! x) → dlist h' head tail es.
Proof. intros [Hnd Hh Ht Hl] Hf. split; [done..|]. by eapply dlseg_frame. Qed.

Lemma dlist_nil {A} (h : gmap nat (node A)) : dlist h None None [].
Proof. by split; [constructor| | |]. Qed.

(** A write to the data of a node. *)
Definition set_data {A} (a : A) (n : node A) : node A := mkNode n.(n_prev) n.(n_next) a.

Lemma dlist_lookup {A} (h : gmap nat (node A)) head tail l1 x a l2 :
  dlist h head tail (l1 ++ (x, a) :: l2) → h !! x = Some (mkNode (final None l1) (first l2 None) a).
Proof. intros [_ _ _ Hl]. by apply dlseg_app in Hl as (_ & Hx & _). Qed.

Lemma dlist_set_data {A} (h : gmap nat (node A)) head tail l1 x a b l2 n :
  dlist h head tail (l1 ++ (x, a) :: l2) → n = mkNode (final None l1) (first l2 None) b →
  dlist (<[x := n]> h) head tail (l1 ++ (x, b) :: l2).
Proof.
  intros [Hnd -> -> Hl] ->. destruct (nodup_split _ _ _ _ Hnd) as (Hx1 & Hx2 & _ & _).
  apply dlseg_app in Hl as (Hl1 & Hx & Hl2). split.
  - by rewrite fmap_app in *.
  - by rewrite !first_app.
  - by rewrite !final_app.
  - apply dlseg_app. cbn. split_and!; [by apply dlseg_insert|by rewrite lookup_insert_eq|by apply dlseg_insert].
Qed.

(** A list is no longer than its heap: the fuel of the loops. *)
Lemma dlist_length {A} (h : gmap nat (node A)) head tail es : dlist h head tail es → (length es <= size h)%nat.
Proof.
  intros [Hnd _ _ Hl]. rewrite <- (length_fmap fst), <- (size_list_to_set (C := gset nat) _ Hnd), <- size_dom.
  apply subseteq_size. intros x Hx%elem_of_list_to_set. apply elem_of_dom.
  destruct (dlseg_lookup _ _ _ _ _ Hl Hx) as [n Hn]. by eexists.
Qed.

Lemma only_writes_incl {A} (xs ys : list nat) (h h' : gmap nat (node A)) :
  only_writes xs h h' → xs ⊆ ys → only_writes ys h h'.
Proof. intros Hw Hs y Hy. apply Hw. set_solver. Qed.

Lemma only_writes_insert {A} (xs : list nat) (h h' : gmap nat (node A)) x n :
  only_writes xs h h' → x ∈ xs → only_writes xs h (<[x := n]> h').
Proof. intros Hw Hx y Hy. rewrite lookup_insert_ne by (by intros ->). by apply Hw. Qed.
