(* ===== verification/BookHeap.v ===== *)
(** * The order book and the stop book on linked nodes

    [orderbook.cc] and [stop_book.cc] with the pointers they follow: the order
    nodes and the level nodes are two heaps of [IntrusiveList], a level holds
    the head and tail of its queue and an order the address of its level.
    [before] is the order of the levels of each side: [book_before] makes the
    definitions those of [OrderBook], [stop_before] those of [StopBook].

    [book_rep] says which contents (the lists of [Books]) the nodes hold.  The
    refinement theorems at the end say that every operation finds its way
    through the nodes, never follows a null pointer and leaves the nodes
    holding what the operation of [Books] computes. *)

From stdpp Require Import functions.
From S2P Require Import Prelude Types MatchAlgo Books IntrusiveList.

(** ** State *)

(** [PriceLevel] without its own links. *)
Record LevelData : Type := mkLevelData {
  ld_price : Price;
  ld_total_quantity : Quantity;
  ld_order_count : Z;
  ld_head : option loc;
  ld_tail : option loc
}.

(** An order with [order->level]. *)
Abbreviation OrderData := (Order * option loc)%type.

Record heap_book : Type := mkBook {
  hb_levels : gmap loc (node LevelData);
  hb_orders : gmap loc (node OrderData);
  hb_buy : option loc;
  hb_buy_tail : option loc;
  hb_sell : option loc;
  hb_sell_tail : option loc
}.

Definition hb_head (side : Side) (b : heap_book) : option loc :=
  match side with Buy => b.(hb_buy) | Sell => b.(hb_sell) end.
Definition hb_tail (side : Side) (b : heap_book) : option loc :=
  match side with Buy => b.(hb_buy_tail) | Sell => b.(hb_sell_tail) end.

(** The heap of levels and the two references of a side after a list operation. *)
Definition set_side (side : Side) (r : gmap loc (node LevelData) * option loc * option loc)
    (b : heap_book) : heap_book :=
  let '(h, head, tail) := r in
  match side with
  | Buy => mkBook h b.(hb_orders) head tail b.(hb_sell) b.(hb_sell_tail)
  | Sell => mkBook h b.(hb_orders) b.(hb_buy) b.(hb_buy_tail) head tail
  end.
Definition set_levels (h : gmap loc (node LevelData)) (b : heap_book) : heap_book :=
  mkBook h b.(hb_orders) b.(hb_buy) b.(hb_buy_tail) b.(hb_sell) b.(hb_sell_tail).
Definition set_orders (h : gmap loc (node OrderData)) (b : heap_book) : heap_book :=
  mkBook b.(hb_levels) h b.(hb_buy) b.(hb_buy_tail) b.(hb_sell) b.(hb_sell_tail).

(** Writes to the fields of a level and of an order. *)
Definition put_level (f : LevelData → LevelData) (n : node LevelData) : node LevelData :=
  set_data (f n.(n_data)) n.
Definition put_order_level (lv : option loc) (n : node OrderData) : node OrderData :=
  set_data (n.(n_data).1, lv) n.
Definition set_queue (head tail : option loc) (d : LevelData) : LevelData :=
  mkLevelData d.(ld_price) d.(ld_total_quantity) d.(ld_order_count) head tail.
Definition add_totals (q c : Z) (d : LevelData) : LevelData :=
  mkLevelData d.(ld_price) (d.(ld_total_quantity) + q) (d.(ld_order_count) + c) d.(ld_head) d.(ld_tail).

(** ** Operations *)

Section operations.
Context (before : Side → Price → Price → bool).

(** The loop of [find_level]: the outer option is [None] where the code would
    read through a null pointer. *)
Fixpoint find_level (fuel : nat) (price : Price) (lv : option loc)
    (h : gmap loc (node LevelData)) : option (option loc) :=
  match lv with
  | None => Some None
  | Some x =>
      match fuel with
      | O => None
      | S fuel' =>
          n ← h !! x;
          if n.(n_data).(ld_price) =? price then Some (Some x) else find_level fuel' price n.(n_next) h
      end
  end.

(** The loop of [link_level], from [cur]. *)
Fixpoint link_loop (side : Side) (fuel : nat) (cur head tail : option loc) (lv : loc)
    (h : gmap loc (node LevelData)) : option (gmap loc (node LevelData) * option loc * option loc) :=
  match cur with
  | None => list_push_back head tail lv h
  | Some x =>
      match fuel with
      | O => None
      | S fuel' =>
          n ← h !! x;
          l ← h !! lv;
          if before side l.(n_data).(ld_price) n.(n_data).(ld_price)
          then list_insert_before head tail x lv h
          else link_loop side fuel' n.(n_next) head tail lv h
      end
  end.

Definition link_level (side : Side) (lv : loc) (b : heap_book) : option heap_book :=
  r ← link_loop side (size b.(hb_levels)) (hb_head side b) (hb_head side b) (hb_tail side b) lv b.(hb_levels);
  Some (set_side side r b).

Definition unlink_level (side : Side) (lv : loc) (b : heap_book) : option heap_book :=
  r ← list_remove (hb_head side b) (hb_tail side b) lv b.(hb_levels);
  Some (set_side side r b).

(** [list_push_back(lv->head, lv->tail, order)], the references being fields
    of the level, and [list_remove] likewise. *)
Definition queue_push_back (lv order : loc) (b : heap_book) : option heap_book :=
  l ← b.(hb_levels) !! lv;
  '(ho, head, tail) ← list_push_back l.(n_data).(ld_head) l.(n_data).(ld_tail) order b.(hb_orders);
  h ← write lv (put_level (set_queue head tail)) b.(hb_levels);
  Some (set_levels h (set_orders ho b)).

Definition queue_remove (lv order : loc) (b : heap_book) : option heap_book :=
  l ← b.(hb_levels) !! lv;
  '(ho, head, tail) ← list_remove l.(n_data).(ld_head) l.(n_data).(ld_tail) order b.(hb_orders);
  h ← write lv (put_level (set_queue head tail)) b.(hb_levels);
  Some (set_levels h (set_orders ho b)).

Definition write_order_level (order : loc) (lv : option loc) (b : heap_book) : option heap_book :=
  h ← write order (put_order_level lv) b.(hb_orders); Some (set_orders h b).

(** [lv->total_quantity += q; lv->order_count += c]. *)
Definition write_totals (lv : loc) (q c : Z) (b : heap_book) : option heap_book :=
  h ← write lv (put_level (add_totals q c)) b.(hb_levels); Some (set_levels h b).

(** [OrderBook::insert_order] and [StopBook::insert_stop]: the book and the
    level returned. *)
Definition insert_order (order : loc) (new_level_if_needed : option loc) (b : heap_book)
    : option (heap_book * loc) :=
  o ← b.(hb_orders) !! order;
  let '(ord, _) := o.(n_data) in
  found ← find_level (size b.(hb_levels)) ord.(o_price) (hb_head ord.(o_side) b) b.(hb_levels);
  '(lv, b) ← match found with
             | Some lv => Some (lv, b)
             | None =>
                 lv ← new_level_if_needed;
                 h ← write lv (λ _, mkNode None None (mkLevelData ord.(o_price) 0 0 None None)) b.(hb_levels);
                 b ← link_level ord.(o_side) lv (set_levels h b);
                 Some (lv, b)
             end;
  b ← queue_push_back lv order b;
  b ← write_order_level order (Some lv) b;
  b ← write_totals lv ord.(o_remaining_quantity) 1 b;
  Some (b, lv).

(** [OrderBook::remove_order]: the level is returned if it was unlinked. *)
Definition remove_order (order : loc) (b : heap_book) : option (heap_book * option loc) :=
  o ← b.(hb_orders) !! order;
  let '(ord, level) := o.(n_data) in
  lv ← level;
  b ← queue_remove lv order b;
  b ← write_totals lv (- ord.(o_remaining_quantity)) (-1) b;
  l ← b.(hb_levels) !! lv;
  if l.(n_data).(ld_order_count) =? 0 then
    b ← unlink_level ord.(o_side) lv b;
    b ← write_order_level order None b;
    Some (b, Some lv)
  else
    b ← write_order_level order None b;
    Some (b, None).

(** The scan of [remove_stop] for the level in a list. *)
Fixpoint on_list (fuel : nat) (p : option loc) (lv : loc) (h : gmap loc (node LevelData)) : option bool :=
  match p with
  | None => Some false
  | Some x =>
      match fuel with
      | O => None
      | S fuel' => if (x =? lv)%nat then Some true else n ← h !! x; on_list fuel' n.(n_next) lv h
      end
  end.

(** [StopBook::remove_stop]. *)
Definition remove_stop (order : loc) (b : heap_book) : option (heap_book * option loc) :=
  o ← b.(hb_orders) !! order;
  let '(ord, level) := o.(n_data) in
  lv ← level;
  b ← write_totals lv (- ord.(o_remaining_quantity)) (-1) b;
  b ← queue_remove lv order b;
  l ← b.(hb_levels) !! lv;
  if l.(n_data).(ld_order_count) =? 0 then
    buy ← on_list (size b.(hb_levels)) b.(hb_buy) lv b.(hb_levels);
    b ← unlink_level (if buy : bool then Buy else Sell) lv b;
    Some (b, Some lv)
  else Some (b, None).

End operations.

(** ** What the nodes hold *)

(** The nodes of a level's queue, and the level nodes of a side. *)
Definition order_nodes (lv : PriceLevel) : list (loc * OrderData) :=
  (λ e : entry, (e.1, (e.2, Some lv.(lv_slot)))) <$> lv.(lv_queue).
Definition level_data (lv : PriceLevel) : LevelData :=
  mkLevelData lv.(lv_price) lv.(lv_total_quantity) lv.(lv_order_count)
    (first (order_nodes lv) None) (final None (order_nodes lv)).
Definition level_node (lv : PriceLevel) : loc * LevelData := (lv.(lv_slot), level_data lv).

Definition queue_rep (ho : gmap loc (node OrderData)) (lv : PriceLevel) : Prop :=
  dlist ho (first (order_nodes lv) None) (final None (order_nodes lv)) (order_nodes lv).

Record book_rep (b : heap_book) (L : Side → list PriceLevel) : Prop := {
  br_side : ∀ side, dlist b.(hb_levels) (hb_head side b) (hb_tail side b) (level_node <$> L side);
  br_queues : ∀ side, Forall (queue_rep b.(hb_orders)) (L side);
  br_slots : NoDup (slots (L Buy) ++ slots (L Sell));
  br_orders : NoDup ((entries (L Buy)).*1 ++ (entries (L Sell)).*1);
  br_owner : ∀ side e, e ∈ entries (L side) → e.2.(o_side) = side
}.

(** ** Sides and nodes *)

Lemma order_nodes_fst lv : (order_nodes lv).*1 = lv.(lv_queue).*1.
Proof. unfold order_nodes. by rewrite <- list_fmap_compose. Qed.

Lemma level_nodes_fst levels : (level_node <$> levels).*1 = slots levels.
Proof. by rewrite <- list_fmap_compose. Qed.

Lemma entries_app l1 l2 : entries (l1 ++ l2) = entries l1 ++ entries l2.
Proof. apply bind_app. Qed.

Lemma sides_nodup {A} (f : Side → list A) side :
  NoDup (f Buy ++ f Sell) ↔ NoDup (f side ++ f (opposite side)).
Proof. destruct side; [done|]. by rewrite (Permutation_app_comm (f Buy)). Qed.

Lemma side_cases (side side' : Side) : side' = side ∨ side' = opposite side.
Proof. destruct side, side'; auto. Qed.

Lemma opposite_ne side : side ≠ opposite side.
Proof. by destruct side. Qed.

Section updates.
Context {A : Type} (L : Side → A) (side : Side) (v : A).

Lemma at_side : (<[side := v]> L) side = v.
Proof. apply fn_lookup_insert. Qed.
Lemma at_other : (<[side := v]> L) (opposite side) = L (opposite side).
Proof. apply fn_lookup_insert_ne, opposite_ne. Qed.
End updates.

Lemma hb_head_set_side side h hd tl b : hb_head side (set_side side (h, hd, tl) b) = hd.
Proof. by destruct side. Qed.
Lemma hb_tail_set_side side h hd tl b : hb_tail side (set_side side (h, hd, tl) b) = tl.
Proof. by destruct side. Qed.
Lemma hb_head_set_other side r b : hb_head (opposite side) (set_side side r b) = hb_head (opposite side) b.
Proof. by destruct r as [[??]?], side. Qed.
Lemma hb_tail_set_other side r b : hb_tail (opposite side) (set_side side r b) = hb_tail (opposite side) b.
Proof. by destruct r as [[??]?], side. Qed.
Lemma set_side_levels_heap side r b : hb_levels (set_side side r b) = r.1.1.
Proof. by destruct r as [[??]?], side. Qed.
Lemma set_side_orders_heap side r b : hb_orders (set_side side r b) = hb_orders b.
Proof. by destruct r as [[??]?], side. Qed.

(** A representation is built from the side that changes and the other one. *)
Lemma book_rep_intro b (L : Side → list PriceLevel) side v :
  dlist b.(hb_levels) (hb_head side b) (hb_tail side b) (level_node <$> v) →
  dlist b.(hb_levels) (hb_head (opposite side) b) (hb_tail (opposite side) b) (level_node <$> L (opposite side)) →
  Forall (queue_rep b.(hb_orders)) (v ++ L (opposite side)) →
  NoDup (slots v ++ slots (L (opposite side))) →
  NoDup ((entries v).*1 ++ (entries (L (opposite side))).*1) →
  (∀ e, e ∈ entries v → e.2.(o_side) = side) →
  (∀ e, e ∈ entries (L (opposite side)) → e.2.(o_side) = opposite side) →
  book_rep b (<[side := v]> L).
Proof.
  intros H1 H2 [H3 H4]%Forall_app H5 H6 H7 H8. split.
  - intros s. destruct (side_cases side s) as [->| ->]; [by rewrite at_side|by rewrite at_other].
  - intros s. destruct (side_cases side s) as [->| ->]; [by rewrite at_side|by rewrite at_other].
  - apply (sides_nodup (λ s, slots ((<[side := v]> L) s)) side). by rewrite at_side, at_other.
  - apply (sides_nodup (λ s, (entries ((<[side := v]> L) s)).*1) side). by rewrite at_side, at_other.
  - intros s. destruct (side_cases side s) as [->| ->]; [by rewrite at_side|by rewrite at_other].
Qed.

Lemma queue_rep_frame ho ho' lv :
  queue_rep ho lv → (∀ x, x ∈ lv.(lv_queue).*1 → ho' !! x = ho !! x) → queue_rep ho' lv.
Proof. intros Hq Hf. eapply dlist_frame; [exact Hq|]. by rewrite order_nodes_fst. Qed.

Lemma queues_frame ho ho' levels ws :
  Forall (queue_rep ho) levels → only_writes ws ho ho' → (∀ x, x ∈ ws → x ∉ (entries levels).*1) →
  Forall (queue_rep ho') levels.
Proof.
  intros Hq Hw Hd. rewrite Forall_forall in *. intros lv Hlv. eapply queue_rep_frame; [by apply Hq|].
  intros x Hx. apply Hw. intros Hws. apply (Hd x Hws).
  apply list_elem_of_fmap in Hx as (e & -> & He). apply list_elem_of_fmap_2.
  apply list_elem_of_bind. by exists lv.
Qed.

(** What a representation says of one level of a side. *)
Section level.
Context (b : heap_book) (L : Side → list PriceLevel) (side : Side) (l1 l2 : list PriceLevel) (lv : PriceLevel).
Context (Hrep : book_rep b L) (Hside : L side = l1 ++ lv :: l2).

Lemma rep_side : dlist b.(hb_levels) (hb_head side b) (hb_tail side b)
  ((level_node <$> l1) ++ level_node lv :: (level_node <$> l2)).
Proof using Hrep Hside. pose proof (br_side _ _ Hrep side) as H. by rewrite Hside, fmap_app in H. Qed.

Lemma rep_slots : NoDup (slots (L side) ++ slots (L (opposite side))).
Proof using Hrep. apply (sides_nodup (λ s, slots (L s))), (br_slots _ _ Hrep). Qed.

Lemma rep_orders : NoDup ((entries (L side)).*1 ++ (entries (L (opposite side))).*1).
Proof using Hrep. apply (sides_nodup (λ s, (entries (L s)).*1)), (br_orders _ _ Hrep). Qed.

Lemma rep_queue : queue_rep b.(hb_orders) lv.
Proof using Hrep Hside.
  pose proof (br_queues _ _ Hrep side) as H. rewrite Hside, Forall_app, Forall_cons in H. by destruct H as (_ & ? & _).
Qed.

Lemma rep_split : (entries (L side)).*1 ++ (entries (L (opposite side))).*1 ≡ₚ
  lv.(lv_queue).*1 ++ (entries (l1 ++ l2 ++ L (opposite side))).*1.
Proof using Hside.
  rewrite Hside, !entries_app, entries_cons, !fmap_app, <- !app_assoc.
  apply Permutation_app_swap_app.
Qed.
End level.

(** The level's node with new data. *)
Definition level_at (l1 l2 : list PriceLevel) (d : LevelData) : node LevelData :=
  mkNode (final None (level_node <$> l1)) (first (level_node <$> l2) None) d.

(** A level is replaced in place and only nodes outside the other queues are written. *)
Lemma rep_update b L side l1 lv l2 lv' ho ws :
  book_rep b L → L side = l1 ++ lv :: l2 → lv.(lv_slot) = lv'.(lv_slot) →
  only_writes ws b.(hb_orders) ho → (∀ x, x ∈ ws → x ∉ (entries (l1 ++ l2 ++ L (opposite side))).*1) →
  queue_rep ho lv' → NoDup (lv'.(lv_queue).*1 ++ (entries (l1 ++ l2 ++ L (opposite side))).*1) →
  (∀ e, e ∈ lv'.(lv_queue) → e.2.(o_side) = side) →
  book_rep (set_levels (<[lv.(lv_slot) := level_at l1 l2 (level_data lv')]> b.(hb_levels)) (set_orders ho b))
    (<[side := l1 ++ lv' :: l2]> L).
Proof.
  intros Hrep Hs Hslot Hw Hws Hq Hnd Hown. apply book_rep_intro.
  - assert (dlist (<[lv.(lv_slot) := level_at l1 l2 (level_data lv')]> b.(hb_levels)) (hb_head side b) (hb_tail side b)
      (level_node <$> l1 ++ lv' :: l2)); [|by destruct side].
    rewrite fmap_app. cbn. unfold level_node at 2. rewrite <- Hslot.
    eapply dlist_set_data; [exact (rep_side _ _ _ _ _ _ Hrep Hs)|done].
  - assert (dlist (<[lv.(lv_slot) := level_at l1 l2 (level_data lv')]> b.(hb_levels)) (hb_head (opposite side) b)
      (hb_tail (opposite side) b) (level_node <$> L (opposite side))); [|by destruct side].
    eapply dlist_frame; [apply (br_side _ _ Hrep)|]. intros x Hx. rewrite level_nodes_fst in Hx.
    apply lookup_insert_ne. intros <-.
    pose proof (rep_slots _ _ side Hrep) as Hsl. rewrite Hs in Hsl. apply NoDup_app in Hsl as (_ & Hd & _).
    apply (Hd (lv_slot lv)); [|done]. apply list_elem_of_fmap_2. set_solver.
  - cbn. rewrite <- app_assoc. cbn.
    rewrite <- (Permutation_middle l1 (l2 ++ L (opposite side)) lv'). apply Forall_cons. split; [done|].
    eapply queues_frame; [|exact Hw|exact Hws]. pose proof (br_queues _ _ Hrep) as Hqs.
    pose proof (Hqs side) as H1. pose proof (Hqs (opposite side)) as H2. rewrite Hs, Forall_app, Forall_cons in H1.
    apply Forall_app. split; [by apply H1|]. apply Forall_app. split; [by apply H1|done].
  - pose proof (rep_slots _ _ side Hrep) as Hsl. rewrite Hs in Hsl. unfold slots in *. rewrite fmap_app in *. cbn in *.
    by rewrite <- Hslot.
  - assert (Hp : (entries (l1 ++ lv' :: l2)).*1 ++ (entries (L (opposite side))).*1 ≡ₚ
      lv'.(lv_queue).*1 ++ (entries (l1 ++ l2 ++ L (opposite side))).*1); [|by rewrite Hp].
    rewrite !entries_app, entries_cons, !fmap_app, <- !app_assoc. apply Permutation_app_swap_app.
  - intros e. rewrite entries_app, entries_cons, !elem_of_app. pose proof (br_owner _ _ Hrep side e) as Ho.
    rewrite Hs, entries_app, entries_cons, !elem_of_app in Ho. intros [?|[?|?]]; auto.
  - apply (br_owner _ _ Hrep).
Qed.

(** A change to nodes of the level heap that no side holds. *)
Lemma rep_frame_levels b L h :
  book_rep b L → (∀ x, x ∈ slots (L Buy) ++ slots (L Sell) → h !! x = b.(hb_levels) !! x) →
  book_rep (set_levels h b) L.
Proof.
  intros [H1 H2 H3 H4 H5] Hf. split; [|done..]. intros s.
  assert (dlist h (hb_head s b) (hb_tail s b) (level_node <$> L s)); [|by destruct s].
  eapply dlist_frame; [apply H1|]. intros x Hx. rewrite level_nodes_fst in Hx. apply Hf. destruct s; set_solver.
Qed.

(** The level pointer of an order on no side. *)
Lemma write_order_level_ok b L order lv n :
  book_rep b L → order ∉ (entries (L Buy)).*1 ++ (entries (L Sell)).*1 → b.(hb_orders) !! order = Some n →
  ∃ b', write_order_level order lv b = Some b' ∧ book_rep b' L ∧ b'.(hb_levels) = b.(hb_levels) ∧
    b'.(hb_orders) = <[order := put_order_level lv n]> b.(hb_orders).
Proof.
  intros [H1 H2 H3 H4 H5] Hf Hn. unfold write_order_level. rewrite (write_Some _ _ _ _ Hn).
  eexists. split; [reflexivity|]. split; [|done]. split; [|intros s|done..].
  - intros s. by destruct s; [apply (H1 Buy)|apply (H1 Sell)].
  - eapply (queues_frame _ _ _ [order]); [apply H2| |].
    + apply only_writes_insert; [done|by left].
    + intros x ->%list_elem_of_singleton. destruct s; set_solver.
Qed.

(** ** [find_level] and [link_level] *)

Section operations_ok.
Context (before : Side → Price → Price → bool).

Lemma find_level_ok h p price levels fuel :
  dlseg h p (level_node <$> levels) None → (length levels <= fuel)%nat →
  find_level fuel price (first (level_node <$> levels) None) h =
    Some (lv_slot <$> Books.find_level price levels).
Proof.
  revert p fuel. induction levels as [|lv levels IH]; intros p fuel; [by destruct fuel|].
  intros [Hx Hl] Hf. destruct fuel as [|fuel]; [cbn in Hf; lia|]. cbn. rewrite Hx. cbn.
  destruct (lv_price lv =? price); [done|]. eapply IH; [exact Hl|]. cbn in Hf. lia.
Qed.

Lemma link_loop_ok side h head tail lv levels fuel n l1 l2 :
  levels = l1 ++ l2 → dlist h head tail (level_node <$> levels) → lv.(lv_slot) ∉ slots levels →
  h !! lv.(lv_slot) = Some n → n.(n_data) = level_data lv → (length l2 <= fuel)%nat →
  ∃ h' head' tail', link_loop before side fuel (first (level_node <$> l2) None) head tail lv.(lv_slot) h
    = Some (h', head', tail') ∧
    dlist h' head' tail' (level_node <$> (l1 ++ Books.link_level (before side) lv l2)) ∧
    only_writes (lv.(lv_slot) :: slots levels) h h'.
Proof.
  intros -> Hl Hni Hn Hd. revert l1 fuel Hl Hni. induction l2 as [|cur l2 IH]; intros l1 fuel Hl Hni Hf.
  - rewrite app_nil_r in *.
    destruct (list_push_back_ok h (level_node <$> l1) lv.(lv_slot) head tail n) as (h' & hd & tl & Hp & Hl' & Hw).
    { by rewrite app_nil_r. } { by rewrite app_nil_r, level_nodes_fst. } { done. }
    exists h', hd, tl. rewrite app_nil_r, level_nodes_fst in Hw.
    split; [destruct fuel; exact Hp|]. rewrite fmap_app. cbn. unfold level_node at 2. by rewrite <- Hd.
  - destruct fuel as [|fuel]; [cbn in Hf; lia|]. cbn [fmap list_fmap first link_loop level_node fst].
    pose proof Hl as Hl0. rewrite fmap_app in Hl0. cbn in Hl0. unfold level_node at 2 in Hl0.
    pose proof (dlist_lookup _ _ _ _ _ _ _ Hl0) as Hc. rewrite Hc. cbn [mbind option_bind].
    rewrite Hn. cbn [mbind option_bind n_data n_next]. rewrite Hd. cbn [level_data ld_price Books.link_level].
    destruct (before side (lv_price lv) (lv_price cur)) eqn:E.
    + destruct (list_insert_before_ok h (level_node <$> l1) cur.(lv_slot) (level_data cur) (level_node <$> l2)
        lv.(lv_slot) head tail n) as (h' & hd & tl & Hp & Hl' & Hw); [done| |done|].
      { by rewrite <- level_nodes_fst, fmap_app in Hni. }
      exists h', hd, tl. split; [exact Hp|]. rewrite fmap_app. cbn. unfold level_node at 2. rewrite <- Hd.
      split; [exact Hl'|]. by rewrite <- level_nodes_fst, fmap_app.
    + destruct (IH (l1 ++ [cur]) fuel) as (h' & hd & tl & Hp & Hl' & Hw).
      { by rewrite <- app_assoc. } { by rewrite <- app_assoc. } { cbn in Hf. lia. }
      exists h', hd, tl. rewrite <- !app_assoc in *. by split.
Qed.

(** The level linked into a side: a level with no orders. *)
Lemma link_level_ok b L side slot price n :
  book_rep b L → slot ∉ slots (L Buy) ++ slots (L Sell) → b.(hb_levels) !! slot = Some n →
  n.(n_data) = mkLevelData price 0 0 None None →
  ∃ b', link_level before side slot b = Some b' ∧ b'.(hb_orders) = b.(hb_orders) ∧
    book_rep b' (<[side := Books.link_level (before side) (mkLevel slot price 0 0 []) (L side)]> L).
Proof.
  intros Hrep Hni Hn Hd. set (lv := mkLevel slot price 0 0 []).
  assert (Hni1 : ∀ s, slot ∉ slots (L s)) by (intros []; set_solver).
  pose proof (br_side _ _ Hrep side) as Hl. pose proof (dlist_length _ _ _ _ Hl) as Hlen.
  rewrite length_fmap in Hlen.
  destruct (link_loop_ok side b.(hb_levels) _ _ lv (L side) (size b.(hb_levels)) n [] (L side) eq_refl Hl
    (Hni1 side) Hn Hd Hlen) as (h' & hd & tl & Hp & Hl' & Hw).
  rewrite <- (dl_head _ _ _ _ Hl) in Hp. change (lv_slot lv) with slot in Hp, Hw. unfold link_level. rewrite Hp. eexists. split; [reflexivity|].
  split; [apply set_side_orders_heap|].
  pose proof (link_level_perm (before side) lv (L side)) as Hperm.
  pose proof (rep_slots _ _ side Hrep) as Hsl. pose proof (rep_orders _ _ side Hrep) as Hos.
  apply book_rep_intro; rewrite ?set_side_levels_heap, ?set_side_orders_heap, ?hb_head_set_side, ?hb_tail_set_side,
    ?hb_head_set_other, ?hb_tail_set_other.
  - done.
  - eapply dlist_frame; [apply (br_side _ _ Hrep)|]. intros x Hx. rewrite level_nodes_fst in Hx. cbn.
    apply Hw. apply NoDup_app in Hsl as (_ & Hdis & _). apply not_elem_of_cons. split.
    + intros ->. by apply (Hni1 (opposite side)).
    + intros Hx'. by apply (Hdis x).
  - rewrite Hperm. cbn. apply Forall_cons. split; [by apply dlist_nil|]. apply Forall_app.
    split; apply (br_queues _ _ Hrep).
  - unfold slots. rewrite Hperm. cbn. constructor; [|done]. rewrite elem_of_app. intros [H|H]; by apply (Hni1 _ H).
  - unfold entries at 1. rewrite Hperm. done.
  - intros e He. unfold entries in He. rewrite Hperm in He. by apply (br_owner _ _ Hrep).
  - apply (br_owner _ _ Hrep).
Qed.

End operations_ok.

(** ** Queues *)

Lemma level_lookup b L side l1 lv l2 : book_rep b L → L side = l1 ++ lv :: l2 →
  b.(hb_levels) !! lv.(lv_slot) = Some (level_at l1 l2 (level_data lv)).
Proof. intros Hrep Hs. exact (dlist_lookup _ _ _ _ _ _ _ (rep_side _ _ _ _ _ _ Hrep Hs)). Qed.

Lemma rep_split_nodup b L side l1 lv l2 : book_rep b L → L side = l1 ++ lv :: l2 →
  NoDup (lv.(lv_queue).*1 ++ (entries (l1 ++ l2 ++ L (opposite side))).*1).
Proof. intros Hrep Hs. rewrite <- (rep_split L side l1 l2 lv Hs). apply (rep_orders b L side Hrep). Qed.

Lemma linked_nowhere (L : Side → list PriceLevel) side (x : loc) :
  x ∉ (entries (L Buy)).*1 ++ (entries (L Sell)).*1 ↔
  x ∉ (entries (L side)).*1 ++ (entries (L (opposite side))).*1.
Proof. rewrite !elem_of_app. destruct side; cbn; tauto. Qed.

(** The three steps that append an order to a level. *)
Lemma attach_ok b L side l1 lv l2 order o lvl n :
  book_rep b L → L side = l1 ++ lv :: l2 →
  order ∉ (entries (L Buy)).*1 ++ (entries (L Sell)).*1 →
  b.(hb_orders) !! order = Some n → n.(n_data) = (o, lvl) → o.(o_side) = side →
  ∃ b1 b2 b', queue_push_back lv.(lv_slot) order b = Some b1 ∧
    write_order_level order (Some lv.(lv_slot)) b1 = Some b2 ∧
    write_totals lv.(lv_slot) o.(o_remaining_quantity) 1 b2 = Some b' ∧
    book_rep b' (<[side := l1 ++ append_order (order, o) lv :: l2]> L).
Proof.
  intros Hrep Hs Hni Hn Hd Hside. pose proof (level_lookup _ _ _ _ _ _ Hrep Hs) as Hlv.
  pose proof (rep_queue _ _ _ _ _ _ Hrep Hs) as Hq. pose proof (rep_split_nodup _ _ _ _ _ _ Hrep Hs) as Hnd.
  apply (linked_nowhere L side) in Hni. rewrite (rep_split L side l1 l2 lv Hs) in Hni.
  apply not_elem_of_app in Hni as [Hni1 Hni2].
  destruct (list_push_back_ok b.(hb_orders) (order_nodes lv) order _ _ n ltac:(by rewrite app_nil_r)
    ltac:(by rewrite app_nil_r, order_nodes_fst) Hn) as (ho & hd & tl & Hp & Hl & Hw).
  rewrite app_nil_r, order_nodes_fst in Hw. rewrite Hd in Hl.
  pose proof (dlist_lookup _ _ _ _ _ _ _ Hl) as Ho.
  pose proof (dlist_set_data _ _ _ _ _ _ (o, Some lv.(lv_slot)) _ _ Hl eq_refl) as Hl'.
  assert (Hnodes : order_nodes (append_order (order, o) lv) = order_nodes lv ++ [(order, (o, Some lv.(lv_slot)))])
    by (unfold order_nodes; cbn; by rewrite fmap_app).
  rewrite <- Hnodes in Hl'. pose proof (dl_head _ _ _ _ Hl') as Ehd. pose proof (dl_tail _ _ _ _ Hl') as Etl.
  do 3 eexists. split_and!.
  - unfold queue_push_back. rewrite Hlv. cbn [mbind option_bind level_at n_data level_data ld_head ld_tail].
    rewrite Hp. cbn [mbind option_bind]. rewrite (write_Some _ _ _ _ Hlv). reflexivity.
  - unfold write_order_level. cbn [hb_orders set_levels set_orders]. rewrite (write_Some _ _ _ _ Ho). reflexivity.
  - unfold write_totals. cbn [hb_levels set_levels set_orders].
    rewrite (write_Some _ _ _ _ (lookup_insert_eq _ _ _)). cbn [mbind option_bind]. rewrite insert_insert_eq. reflexivity.
  - refine (eq_ind _ (λ b, book_rep b _)
      (rep_update b L side l1 lv l2 (append_order (order, o) lv) (<[order := mkNode (final None (order_nodes lv)) None (o, Some lv.(lv_slot))]> ho)
         (order :: lv.(lv_queue).*1) Hrep Hs eq_refl _ _ _ _ _) _ _).
    + apply only_writes_insert; [done|by left].
    + intros x [->|Hx]%elem_of_cons; [done|]. intros Hx'. apply NoDup_app in Hnd as (_ & Hdis & _). by apply (Hdis x).
    + unfold queue_rep. rewrite <- Ehd, <- Etl. exact Hl'.
    + cbn. rewrite fmap_app, <- app_assoc. cbn. rewrite <- Permutation_middle. constructor; [|done].
      by apply not_elem_of_app.
    + intros e. cbn. intros [He| ->%list_elem_of_singleton]%elem_of_app; [|done].
      apply (br_owner _ _ Hrep). rewrite Hs, entries_app, entries_cons. set_solver.
    + unfold level_data. rewrite <- Ehd, <- Etl. reflexivity.
Qed.

Lemma find_entry_split l q o : find_entry l q = Some o →
  ∃ q1 q2, q = q1 ++ (l, o) :: q2 ∧ remove_entry l q = q1 ++ q2.
Proof.
  induction q as [|[k o'] q IH]; cbn; [done|]. destruct (Nat.eqb_spec k l) as [->|].
  - intros [= ->]. by exists [], q.
  - intros H. destruct (IH H) as (q1 & q2 & -> & E). exists ((k, o') :: q1), q2. by rewrite E.
Qed.

(** The order leaves its queue and the totals of the level, in either order. *)
Lemma detach_ok b L side l1 lv l2 order o :
  book_rep b L → L side = l1 ++ lv :: l2 → find_entry order lv.(lv_queue) = Some o →
  ∃ ho, let b' := set_levels (<[lv.(lv_slot) :=
        level_at l1 l2 (level_data (detach_order order o.(o_remaining_quantity) lv))]> b.(hb_levels)) (set_orders ho b) in
    (∃ b1, queue_remove lv.(lv_slot) order b = Some b1 ∧
           write_totals lv.(lv_slot) (- o.(o_remaining_quantity)) (-1) b1 = Some b') ∧
    (∃ b1, write_totals lv.(lv_slot) (- o.(o_remaining_quantity)) (-1) b = Some b1 ∧
           queue_remove lv.(lv_slot) order b1 = Some b') ∧
    ho !! order = Some (mkNode None None (o, Some lv.(lv_slot))) ∧
    book_rep b' (<[side := l1 ++ detach_order order o.(o_remaining_quantity) lv :: l2]> L).
Proof.
  intros Hrep Hs Ho. pose proof (level_lookup _ _ _ _ _ _ Hrep Hs) as Hlv.
  pose proof (rep_queue _ _ _ _ _ _ Hrep Hs) as Hq. pose proof (rep_split_nodup _ _ _ _ _ _ Hrep Hs) as Hnd.
  destruct (find_entry_split _ _ _ Ho) as (q1 & q2 & Eq & Er).
  set (f := λ e : entry, (e.1, (e.2, Some lv.(lv_slot)))).
  assert (En : order_nodes lv = (f <$> q1) ++ (order, (o, Some lv.(lv_slot))) :: (f <$> q2))
    by (unfold order_nodes; by rewrite Eq, fmap_app).
  assert (En' : order_nodes (detach_order order o.(o_remaining_quantity) lv) = (f <$> q1) ++ (f <$> q2))
    by (unfold order_nodes; cbn; by rewrite Er, fmap_app).
  unfold queue_rep in Hq. rewrite En in Hq. destruct (list_remove_ok _ _ _ _ _ _ _ Hq) as (ho & hd & tl & Hp & Hl & Hx & Hw).
  rewrite <- En' in Hl. pose proof (dl_head _ _ _ _ Hl) as Ehd. pose proof (dl_tail _ _ _ _ Hl) as Etl.
  exists ho. cbn zeta. split_and!.
  - eexists. unfold queue_remove, write_totals. rewrite Hlv. cbn [mbind option_bind level_at n_data level_data ld_head ld_tail].
    rewrite En, Hp. cbn [mbind option_bind]. rewrite (write_Some _ _ _ _ Hlv). split; [reflexivity|].
    cbn [hb_levels set_levels]. rewrite (write_Some _ _ _ _ (lookup_insert_eq _ _ _)). cbn [mbind option_bind].
    rewrite insert_insert_eq. unfold level_data. rewrite <- Ehd, <- Etl. reflexivity.
  - eexists. unfold queue_remove, write_totals. rewrite (write_Some _ _ _ _ Hlv). split; [reflexivity|].
    cbn [hb_levels hb_orders set_levels mbind option_bind]. rewrite lookup_insert_eq.
    cbn [mbind option_bind level_at n_data level_data ld_head ld_tail put_level add_totals set_data].
    rewrite En, Hp. cbn [mbind option_bind]. rewrite (write_Some _ _ _ _ (lookup_insert_eq _ _ _)).
    cbn [mbind option_bind]. rewrite insert_insert_eq. unfold level_data. rewrite <- Ehd, <- Etl. reflexivity.
  - exact Hx.
  - apply (rep_update b L side l1 lv l2 _ ho lv.(lv_queue).*1); [done|done|done| | | | |].
    + rewrite <- order_nodes_fst, En. exact Hw.
    + intros x Hx1 Hx'. apply NoDup_app in Hnd as (_ & Hdis & _). by apply (Hdis x).
    + unfold queue_rep. rewrite <- Ehd, <- Etl. exact Hl.
    + cbn. rewrite Er. rewrite Eq, !fmap_app in Hnd. rewrite fmap_app. cbn in Hnd. rewrite <- Permutation_middle in Hnd.
      by apply NoDup_cons in Hnd as [_ Hnd].
    + intros e. cbn. rewrite Er. intros He. apply (br_owner _ _ Hrep).
      rewrite Hs, entries_app, entries_cons, Eq. set_solver.
Qed.

(** An unlinked level. *)
Lemma unlink_level_ok b L side l1 lv l2 : book_rep b L → L side = l1 ++ lv :: l2 →
  ∃ b', unlink_level side lv.(lv_slot) b = Some b' ∧ b'.(hb_orders) = b.(hb_orders) ∧
    book_rep b' (<[side := l1 ++ l2]> L).
Proof.
  intros Hrep Hs. destruct (list_remove_ok _ _ _ _ _ _ _ (rep_side _ _ _ _ _ _ Hrep Hs)) as (h' & hd & tl & Hp & Hl & _ & Hw).
  unfold unlink_level. rewrite Hp. eexists. split; [reflexivity|]. split; [apply set_side_orders_heap|].
  pose proof (rep_slots _ _ side Hrep) as Hsl. pose proof (rep_split_nodup _ _ _ _ _ _ Hrep Hs) as Hnd.
  apply book_rep_intro; rewrite ?set_side_levels_heap, ?set_side_orders_heap, ?hb_head_set_side, ?hb_tail_set_side,
    ?hb_head_set_other, ?hb_tail_set_other.
  - by rewrite fmap_app.
  - eapply dlist_frame; [apply (br_side _ _ Hrep)|]. intros x Hx. rewrite level_nodes_fst in Hx. cbn.
    apply Hw. apply NoDup_app in Hsl as (_ & Hdis & _). intros Hx'. apply (Hdis x); [|done].
    rewrite Hs, <- level_nodes_fst, fmap_app. exact Hx'.
  - pose proof (br_queues _ _ Hrep) as Hqs. pose proof (Hqs side) as H1. rewrite Hs in H1.
    rewrite Forall_app, Forall_cons in H1. rewrite !Forall_app. split_and!; [by apply H1..|apply Hqs].
  - rewrite Hs in Hsl. unfold slots in *. rewrite fmap_app in *. cbn in Hsl. rewrite <- Permutation_middle in Hsl.
    by apply NoDup_cons in Hsl as [_ Hsl].
  - apply NoDup_app in Hnd as (_ & _ & Hnd). by rewrite app_assoc, entries_app, fmap_app in Hnd.
  - intros e He. apply (br_owner _ _ Hrep). rewrite Hs, entries_app, entries_cons. rewrite entries_app in He. set_solver.
  - apply (br_owner _ _ Hrep).
Qed.

Lemma on_list_ok h p levels fuel x :
  dlseg h p (level_node <$> levels) None → (length levels <= fuel)%nat →
  on_list fuel (first (level_node <$> levels) None) x h = Some (bool_decide (x ∈ slots levels)).
Proof.
  revert p fuel. induction levels as [|lv levels IH]; intros p fuel; [by destruct fuel|].
  intros [Hx Hl] Hf. destruct fuel as [|fuel]; [cbn in Hf; lia|]. cbn. destruct (Nat.eqb_spec lv.(lv_slot) x) as [->|Hne].
  - f_equal. symmetry. apply bool_decide_eq_true_2. by left.
  - rewrite Hx. cbn. erewrite IH; [|exact Hl|cbn in Hf; lia]. f_equal. apply bool_decide_ext.
    rewrite elem_of_cons. split; [by right|]. by intros [?|].
Qed.

(** ** The lists of [Books], split at a level *)

Section refinement.
Context (before : Side → Price → Price → bool).

Lemma find_level_split price levels lv : Books.find_level price levels = Some lv →
  ∃ l1 l2, levels = l1 ++ lv :: l2 ∧ ∀ g, at_level price g levels = l1 ++ g lv :: l2.
Proof.
  induction levels as [|lv' levels IH]; cbn; [done|]. case_if as E.
  - intros [= ->]. by exists [], levels.
  - intros H. destruct (IH H) as (l1 & l2 & -> & Hg). exists (lv' :: l1), l2. split; [done|]. intros g. by rewrite Hg.
Qed.

Lemma link_level_split side lv levels : lv.(lv_price) ∉ prices levels →
  ∃ l1 l2, Books.link_level (before side) lv levels = l1 ++ lv :: l2 ∧
    ∀ g, at_level lv.(lv_price) g (Books.link_level (before side) lv levels) = l1 ++ g lv :: l2.
Proof.
  induction levels as [|cur levels IH]; cbn; [exists [], []; by rewrite Z.eqb_refl|].
  intros [Hne Hni]%not_elem_of_cons. case_if as E.
  - exists [], (cur :: levels). cbn. by rewrite Z.eqb_refl.
  - destruct (IH Hni) as (l1 & l2 & -> & Hg). exists (cur :: l1), l2. split; [done|]. intros g. cbn.
    destruct (Z.eqb_spec (lv_price cur) (lv_price lv)); [congruence|]. by rewrite Hg.
Qed.

Lemma remove_order_split l levels levels' o freed : Books.remove_order l levels = Some (levels', o, freed) →
  ∃ l1 lv l2, levels = l1 ++ lv :: l2 ∧ find_entry l lv.(lv_queue) = Some o ∧
    let lv' := detach_order l o.(o_remaining_quantity) lv in
    if lv'.(lv_order_count) =? 0 then levels' = l1 ++ l2 ∧ freed = Some lv.(lv_slot)
    else levels' = l1 ++ lv' :: l2 ∧ freed = None.
Proof.
  revert levels'. induction levels as [|lv levels IH]; intros levels'; cbn; [done|].
  destruct (find_entry l (lv_queue lv)) as [o'|] eqn:E.
  - case_if as Ec; intros [= <- <- <-]; exists [], lv, levels; rewrite Ec; done.
  - destruct (Books.remove_order l levels) as [[[rest o'] fr]|]; [|done]. intros [= <- <- <-].
    destruct (IH rest eq_refl) as (l1 & lv1 & l2 & -> & Hf & Hc). exists (lv :: l1), lv1, l2.
    split; [done|]. split; [done|]. cbn in *. case_if as Ec; by destruct Hc as [-> ->].
Qed.

(** ** Refinement *)

Lemma book_rep_ext b L L' : (∀ side, L side = L' side) → book_rep b L → book_rep b L'.
Proof.
  intros HL [H1 H2 H3 H4 H5]. split; rewrite <- ?HL; [..|done|done|]; intros s; rewrite <- HL; auto.
Qed.

Lemma book_rep_insert_insert b L side v v' :
  book_rep b (<[side := v']> (<[side := v]> L)) → book_rep b (<[side := v']> L).
Proof.
  apply book_rep_ext. intros s. destruct (side_cases side s) as [->| ->]; [by rewrite !at_side|by rewrite !at_other].
Qed.

(** The level a lookup of the order finds. *)
Lemma rep_find_order b L side l o lv : book_rep b L → lv ∈ L side → (l, o) ∈ lv.(lv_queue) →
  find_order l (L side) = Some (o, lv).
Proof.
  intros Hrep. apply find_order_elem. pose proof (rep_orders _ _ side Hrep) as Hnd.
  apply NoDup_app in Hnd as [Hnd _]. unfold keys. by rewrite <- list_fmap_compose.
Qed.

(** A level that was found, or the new one after it has been linked. *)
Lemma owning_level_ok b L slot m (o : Order) :
  book_rep b L → slot ∉ slots (L Buy) ++ slots (L Sell) → b.(hb_levels) !! slot = Some m →
  ∃ b1 l1 lv l2, let side := o.(o_side) in
    book_rep b1 (<[side := l1 ++ lv :: l2]> L) ∧ b1.(hb_orders) = b.(hb_orders) ∧
    (∀ order, Books.insert_order (before side) (order, o) slot (L side) =
       (l1 ++ append_order (order, o) lv :: l2, bool_decide (lv.(lv_slot) = slot))) ∧
    entries (l1 ++ lv :: l2) ≡ₚ entries (L side) ∧
    ∀ order n lvl, b.(hb_orders) !! order = Some n → n.(n_data) = (o, lvl) →
      insert_order before order (Some slot) b =
        (b ← queue_push_back lv.(lv_slot) order b1; b ← write_order_level order (Some lv.(lv_slot)) b;
         b ← write_totals lv.(lv_slot) o.(o_remaining_quantity) 1 b; Some (b, lv.(lv_slot))).
Proof.
  intros Hrep Hni Hm. set (side := o.(o_side)). pose proof (br_side _ _ Hrep side) as Hl.
  pose proof (dlist_length _ _ _ _ Hl) as Hlen. rewrite length_fmap in Hlen.
  pose proof (find_level_ok _ _ o.(o_price) _ _ (dl_links _ _ _ _ Hl) Hlen) as Hfind.
  rewrite <- (dl_head _ _ _ _ Hl) in Hfind.
  assert (Hside : ∀ s, slot ∉ slots (L s)) by (intros []; set_solver).
  destruct (Books.find_level (o_price o) (L side)) as [lv|] eqn:E.
  - destruct (find_level_split _ _ _ E) as (l1 & l2 & Hs & Hg). exists b, l1, lv, l2. cbn zeta. split_and!.
    + eapply book_rep_ext; [|exact Hrep]. intros s. rewrite <- Hs.
      destruct (side_cases side s) as [->| ->]; [by rewrite at_side|by rewrite at_other].
    + done.
    + intros order. unfold Books.insert_order. cbn [snd]. rewrite E, Hg, bool_decide_eq_false_2; [done|].
      intros Heq. apply (Hside side). rewrite Hs, <- Heq. apply list_elem_of_fmap_2. set_solver.
    + by rewrite <- Hs.
    + intros order n lvl Hn Hd. unfold insert_order. rewrite Hn. cbn [mbind option_bind]. rewrite Hd. fold side. rewrite Hfind. reflexivity.
  - set (lv := mkLevel slot o.(o_price) 0 0 []). pose proof E as Hnp. apply find_level_None in Hnp.
    destruct (link_level_split side lv (L side) Hnp) as (l1 & l2 & Hs & Hg).
    set (b0 := set_levels (<[slot := mkNode None None (mkLevelData o.(o_price) 0 0 None None)]> b.(hb_levels)) b).
    assert (Hrep0 : book_rep b0 L).
    { apply rep_frame_levels; [done|]. intros x Hx. apply lookup_insert_ne. by intros ->. }
    destruct (link_level_ok before b0 L side slot o.(o_price) _ Hrep0 Hni (lookup_insert_eq _ _ _) eq_refl)
      as (b1 & Hlink & Ho1 & Hrep1). fold lv in Hrep1. rewrite Hs in Hrep1.
    exists b1, l1, lv, l2. cbn zeta. split_and!.
    + done.
    + done.
    + intros order. unfold Books.insert_order. cbn [snd]. rewrite E. fold lv. change (o_price o) with (lv_price lv).
      by rewrite Hg, bool_decide_eq_true_2.
    + rewrite <- Hs. unfold entries. by rewrite (link_level_perm (before side) lv (L side)).
    + intros order n lvl Hn Hd. unfold insert_order. rewrite Hn. cbn [mbind option_bind]. rewrite Hd. fold side. rewrite Hfind.
      cbn [mbind option_bind fmap option_fmap option_map]. rewrite (write_Some _ _ _ _ Hm). cbn [mbind option_bind].
      fold b0 side. rewrite Hlink. reflexivity.
Qed.

(** C22: [insert_order] on linked nodes (with [book_before] the one of the
    order book, with [stop_before] [insert_stop]), given an order linked
    nowhere and an unused level, follows no null pointer, runs out of no loop
    and leaves the nodes holding the side [Books.insert_order] computes; the
    level returned is the one whose queue the order is in, and it is the
    caller's exactly if a level was missing. *)
Theorem insert_order_refines b L order n o lvl slot m :
  book_rep b L → order ∉ (entries (L Buy)).*1 ++ (entries (L Sell)).*1 →
  b.(hb_orders) !! order = Some n → n.(n_data) = (o, lvl) →
  slot ∉ slots (L Buy) ++ slots (L Sell) → b.(hb_levels) !! slot = Some m →
  ∃ b' lv levels' new, insert_order before order (Some slot) b = Some (b', lv.(lv_slot)) ∧
    Books.insert_order (before o.(o_side)) (order, o) slot (L o.(o_side)) = (levels', new) ∧
    book_rep b' (<[o.(o_side) := levels']> L) ∧
    find_order order levels' = Some (o, lv) ∧ new = bool_decide (lv.(lv_slot) = slot).
Proof.
  intros Hrep Hfresh Hn Hd Hslot Hm.
  destruct (owning_level_ok b L slot m o Hrep Hslot Hm) as (b1 & l1 & lv & l2 & Hrep1 & Ho1 & Hins & Hent & Hrun).
  set (side := o.(o_side)) in *.
  destruct (attach_ok b1 _ side l1 lv l2 order o lvl n Hrep1 (at_side _ _ _)) as (b2 & b3 & b' & H2 & H3 & H4 & Hrep');
    [|by rewrite Ho1|done|done|].
  { apply (linked_nowhere _ side). rewrite at_side, at_other, Hent. by apply (linked_nowhere L side). }
  apply book_rep_insert_insert in Hrep'. exists b', (append_order (order, o) lv), (l1 ++ append_order (order, o) lv :: l2).
  eexists. rewrite (Hrun order n lvl Hn Hd), H2. cbn [mbind option_bind]. rewrite H3. cbn [mbind option_bind].
  rewrite H4. split; [reflexivity|]. split; [by apply Hins|]. split; [done|]. split; [|done].
  pose proof (rep_find_order b' _ side order o (append_order (order, o) lv) Hrep') as Hf. rewrite at_side in Hf.
  apply Hf; [set_solver|]. cbn. set_solver.
Qed.

End refinement.

(** ** Removal *)

Lemma rep_order_lookup b L side l1 lv l2 order o : book_rep b L → L side = l1 ++ lv :: l2 →
  find_entry order lv.(lv_queue) = Some o →
  ∃ p q, b.(hb_orders) !! order = Some (mkNode p q (o, Some lv.(lv_slot))).
Proof.
  intros Hrep Hs Hf. pose proof (rep_queue _ _ _ _ _ _ Hrep Hs) as Hq.
  destruct (find_entry_split _ _ _ Hf) as (q1 & q2 & Eq & _). unfold queue_rep, order_nodes in Hq.
  rewrite Eq, fmap_app in Hq. cbn [fmap list_fmap] in Hq. do 2 eexists. exact (dlist_lookup _ _ _ _ _ _ _ Hq).
Qed.

(** After the order has left its level it is linked nowhere. *)
Lemma detached_nowhere b L side l1 lv l2 order o : book_rep b L → L side = l1 ++ lv :: l2 →
  find_entry order lv.(lv_queue) = Some o →
  order ∉ (entries (l1 ++ detach_order order o.(o_remaining_quantity) lv :: l2)).*1
    ++ (entries (L (opposite side))).*1.
Proof.
  intros Hrep Hs Hf. pose proof (rep_split_nodup _ _ _ _ _ _ Hrep Hs) as Hnd.
  rewrite (remove_entry_perm _ _ _ Hf) in Hnd. cbn in Hnd. apply NoDup_cons in Hnd as [Hni _].
  rewrite entries_app, entries_cons. cbn. rewrite !entries_app, !fmap_app in *. set_solver.
Qed.

(** The common outcome of the two removals: the level after the order has left. *)
Lemma removed_ok b L side order levels' o freed :
  book_rep b L → Books.remove_order order (L side) = Some (levels', o, freed) →
  ∃ b1 slot l, book_rep b1 (<[side := l]> L) ∧
    order ∉ (entries l).*1 ++ (entries (L (opposite side))).*1 ∧
    (∃ p q, b.(hb_orders) !! order = Some (mkNode p q (o, Some slot))) ∧
    (∃ c, queue_remove slot order b = Some c ∧ write_totals slot (- o.(o_remaining_quantity)) (-1) c = Some b1) ∧
    (∃ c, write_totals slot (- o.(o_remaining_quantity)) (-1) b = Some c ∧ queue_remove slot order c = Some b1) ∧
    b1.(hb_orders) !! order = Some (mkNode None None (o, Some slot)) ∧
    slot ∈ slots l ∧
    ∃ n, b1.(hb_levels) !! slot = Some n ∧
      if n.(n_data).(ld_order_count) =? 0 then
        freed = Some slot ∧
        ∃ b2, unlink_level side slot b1 = Some b2 ∧ b2.(hb_orders) = b1.(hb_orders) ∧ book_rep b2 (<[side := levels']> L) ∧
          ∀ x, x ∈ (entries levels').*1 → x ∈ (entries l).*1
      else freed = None ∧ levels' = l.
Proof.
  intros Hrep Hr. destruct (remove_order_split _ _ _ _ _ Hr) as (l1 & lv & l2 & Hs & Hf & Hc).
  destruct (detach_ok b L side l1 lv l2 order o Hrep Hs Hf) as (ho & H1 & H2 & Hx & Hrep1). cbn zeta in *.
  set (b1 := set_levels _ _) in *. set (lv' := detach_order order (o_remaining_quantity o) lv) in *.
  exists b1, lv.(lv_slot), (l1 ++ lv' :: l2). split_and!; try done.
  - exact (detached_nowhere b L side l1 lv l2 order o Hrep Hs Hf).
  - exact (rep_order_lookup b L side l1 lv l2 order o Hrep Hs Hf).
  - change (lv_slot lv) with (lv_slot lv'). apply list_elem_of_fmap_2. set_solver.
  - exists (level_at l1 l2 (level_data lv')). split; [apply lookup_insert_eq|].
    cbn [level_at n_data level_data ld_order_count]. destruct (lv_order_count lv' =? 0); destruct Hc as [-> ->]; [|done].
    split; [done|]. destruct (unlink_level_ok b1 _ side l1 lv' l2 Hrep1 (at_side _ _ _)) as (b2 & Hu & Ho & Hrep2).
    exists b2. split_and!; [done|done|by apply book_rep_insert_insert in Hrep2|].
    intros x. rewrite !entries_app, entries_cons, !fmap_app. set_solver.
Qed.

Lemma remove_order_refines b L side order levels' o freed :
  book_rep b L → Books.remove_order order (L side) = Some (levels', o, freed) →
  ∃ b', remove_order order b = Some (b', freed) ∧ book_rep b' (<[side := levels']> L) ∧
    b'.(hb_orders) !! order = Some (mkNode None None (o, None)).
Proof.
  intros Hrep Hr. destruct (removed_ok _ _ _ _ _ _ _ Hrep Hr)
    as (b1 & slot & l & Hrep1 & Hni & (p & q & Ho) & (c & Hc1 & Hc2) & _ & Hx & _ & n & Hn & Hcase).
  assert (Howner : o.(o_side) = side).
  { destruct (remove_order_split _ _ _ _ _ Hr) as (l1 & lv & l2 & Hs & Hf & _).
    apply (br_owner _ _ Hrep side (order, o)). rewrite Hs, entries_app, entries_cons.
    apply find_entry_Some in Hf. set_solver. }
  unfold remove_order. rewrite Ho. cbn [mbind option_bind n_data]. rewrite Hc1. cbn [mbind option_bind]. rewrite Hc2.
  cbn [mbind option_bind]. rewrite Hn. cbn [mbind option_bind]. rewrite Howner.
  destruct (ld_order_count (n_data n) =? 0).
  - destruct Hcase as (-> & b2 & Hu & Eo & Hrep2 & Hin). rewrite Hu. cbn [mbind option_bind].
    destruct (write_order_level_ok b2 (<[side := levels']> L) order None (mkNode None None (o, Some slot)) Hrep2)
      as (b' & Hw & Hrep' & _ & Hb'); [|by rewrite Eo|].
    { apply (linked_nowhere _ side). rewrite at_side, at_other. set_solver. }
    rewrite Hw. exists b'. split_and!; [reflexivity|done|]. by rewrite Hb', lookup_insert_eq.
  - destruct Hcase as (-> & ->).
    destruct (write_order_level_ok b1 (<[side := l]> L) order None (mkNode None None (o, Some slot)) Hrep1)
      as (b' & Hw & Hrep' & _ & Hb'); [|done|].
    { apply (linked_nowhere _ side). by rewrite at_side, at_other. }
    rewrite Hw. exists b'. split_and!; [reflexivity|done|]. by rewrite Hb', lookup_insert_eq.
Qed.

Lemma remove_stop_refines b L side order levels' o freed :
  book_rep b L → Books.remove_order order (L side) = Some (levels', o, freed) →
  ∃ b' slot, remove_stop order b = Some (b', freed) ∧ book_rep b' (<[side := levels']> L) ∧
    b'.(hb_orders) !! order = Some (mkNode None None (o, Some slot)).
Proof.
  intros Hrep Hr. destruct (removed_ok _ _ _ _ _ _ _ Hrep Hr)
    as (b1 & slot & l & Hrep1 & Hni & (p & q & Ho) & _ & (c & Hc1 & Hc2) & Hx & Hin & n & Hn & Hcase).
  unfold remove_stop. rewrite Ho. cbn [mbind option_bind n_data]. rewrite Hc1. cbn [mbind option_bind]. rewrite Hc2.
  cbn [mbind option_bind]. rewrite Hn. cbn [mbind option_bind].
  destruct (ld_order_count (n_data n) =? 0); [|destruct Hcase as (-> & ->); by exists b1, slot].
  destruct Hcase as (-> & b2 & Hu & Eo & Hrep2 & _).
  pose proof (br_side _ _ Hrep1 Buy) as Hl. pose proof (dlist_length _ _ _ _ Hl) as Hlen. rewrite length_fmap in Hlen.
  pose proof (on_list_ok _ _ _ _ slot (dl_links _ _ _ _ Hl) Hlen) as Hon. rewrite <- (dl_head _ _ _ _ Hl) in Hon.
  cbn [hb_head] in Hon. rewrite Hon. cbn [mbind option_bind].
  assert (Hside : (if bool_decide (slot ∈ slots ((<[side := l]> L) Buy)) then Buy else Sell) = side).
  { pose proof (rep_slots _ _ side Hrep1) as Hnd. rewrite at_side, at_other in Hnd. apply NoDup_app in Hnd as (_ & Hd & _).
    destruct side; [by rewrite at_side, bool_decide_eq_true_2|].
    rewrite bool_decide_eq_false_2; [done|]. intros H. apply (Hd slot Hin). exact H. }
  rewrite Hside, Hu. exists b2, slot. split_and!; [reflexivity|done|by rewrite Eo].
Qed.

(** [remove_order] and [remove_stop] of an order linked on a side follow
    no null pointer and leave the nodes holding the side [Books.remove_order]
    computes; they return the level exactly if it was unlinked, the order's
    links are null, and only [remove_order] clears [order->level]. *)
Theorem removal_refines b L side order levels' o freed :
  book_rep b L → Books.remove_order order (L side) = Some (levels', o, freed) →
  (∃ b', remove_order order b = Some (b', freed) ∧ book_rep b' (<[side := levels']> L) ∧
     b'.(hb_orders) !! order = Some (mkNode None None (o, None))) ∧
  (∃ b' slot, remove_stop order b = Some (b', freed) ∧ book_rep b' (<[side := levels']> L) ∧
     b'.(hb_orders) !! order = Some (mkNode None None (o, Some slot))).
Proof.
  intros Hrep Hr. split; [by apply remove_order_refines|by apply remove_stop_refines].
Qed.

(** ** Witnesses *)

Definition heap_order (side : Side) (price : Price) : Order :=
  mkOrder 1 7 1 price 5 0 5 side Limit GTC 0 0 0 5 false false.
Definition empty_book : heap_book :=
  mkBook {[10%nat := mkNode None None (mkLevelData 0 0 0 None None)]}
    {[1%nat := mkNode None None (heap_order Sell 100, None)]} None None None None.

Lemma empty_book_rep : book_rep empty_book (λ _, []).
Proof. split; [intros []; by apply dlist_nil|by constructor|constructor|constructor|intros s e H; inversion H]. Qed.

Lemma insert_order_refines_witness : ∃ b' levels' lv new,
  insert_order book_before 1 (Some 10%nat) empty_book = Some (b', lv) ∧
  Books.insert_order (book_before Sell) (1%nat, heap_order Sell 100) 10 [] = (levels', new) ∧
  book_rep b' (<[Sell := levels']> (λ _, [])).
Proof.
  destruct (insert_order_refines book_before empty_book (λ _, []) 1 (mkNode None None (heap_order Sell 100, None))
    (heap_order Sell 100) None 10 (mkNode None None (mkLevelData 0 0 0 None None)) empty_book_rep)
    as (b' & lv & levels' & new & H1 & H2 & H3 & _);
    [apply not_elem_of_nil|reflexivity|reflexivity|apply not_elem_of_nil|reflexivity|].
  exists b', levels', lv.(lv_slot), new. split; [exact H1|]. split; [exact H2|exact H3].
Defined.

Definition one_order_levels : list PriceLevel := [mkLevel 10 100 5 1 [(1%nat, heap_order Sell 100)]].
Definition one_order_book : heap_book :=
  mkBook {[10%nat := mkNode None None (mkLevelData 100 5 1 (Some 1%nat) (Some 1%nat))]}
    {[1%nat := mkNode None None (heap_order Sell 100, Some 10%nat)]} None None (Some 10%nat) (Some 10%nat).

Lemma one_order_rep : book_rep one_order_book (<[Sell := one_order_levels]> (λ _, [])).
Proof.
  apply book_rep_intro; cbn.
  - split; [repeat constructor; apply not_elem_of_nil|done|done|by split].
  - by apply dlist_nil.
  - repeat constructor; [apply not_elem_of_nil].
  - repeat constructor; apply not_elem_of_nil.
  - repeat constructor; apply not_elem_of_nil.
  - by intros e ->%list_elem_of_singleton.
  - intros e H. inversion H.
Qed.

Lemma removal_refines_witness : ∃ b',
  remove_order 1 one_order_book = Some (b', Some 10%nat) ∧ book_rep b' (<[Sell := []]> (<[Sell := one_order_levels]> (λ _, []))).
Proof.
  destruct (removal_refines one_order_book (<[Sell := one_order_levels]> (λ _, [])) Sell 1 [] (heap_order Sell 100)
    (Some 10%nat) one_order_rep) as [(b' & H1 & H2 & _) _]; [reflexivity|].
  exists b'. split; [exact H1|exact H2].
Defined.
