(* ===== verification/ObjectPool.v ===== *)
(** * The object pool: [object_pool.h]

    A pool of [Capacity] slots.  While a slot is free its first word holds the
    address of the next free slot, written over whatever object lived there;
    [words] is that word of every slot, so a write of the client to a slot it
    holds may put anything there.  Slots are named by their index.

    [pool_rep] says which stack of free slots a pool holds: the free lists
    [order_free] and [level_free] of [Engine].  The theorems relate the
    operations to the stack and follow a client that frees and writes only
    slots it holds. *)

From S2P Require Import Prelude.

Section pool.
Context (Capacity : nat).

Record pool : Type := mkPool {
  words : gmap nat (option nat);
  free_head : option nat;
  allocated : Z
}.

Definition memcpy_word (slot : nat) (w : option nat) (m : gmap nat (option nat))
    : option (gmap nat (option nat)) :=
  if decide (slot < Capacity)%nat then Some (<[slot := w]> m) else None.

(** The loop of [build_free_list] from [i]; [n] bounds the iterations. *)
Fixpoint thread (n i : nat) (m : gmap nat (option nat)) : option (gmap nat (option nat)) :=
  match n with
  | O => Some m
  | S n' =>
      if decide (i + 1 < Capacity)%nat
      then m ← memcpy_word i (Some (i + 1)%nat) m; thread n' (i + 1) m
      else Some m
  end.

Definition build_free_list (p : pool) : option pool :=
  m ← thread Capacity 0 p.(words);
  m ← memcpy_word (Capacity - 1) None m;
  Some (mkPool m (Some O) p.(allocated)).

(** The constructor, on storage with any contents. *)
Definition construct (storage : gmap nat (option nat)) : option pool :=
  build_free_list (mkPool storage None 0).

Definition allocate (p : pool) : option (pool * option nat) :=
  match p.(free_head) with
  | None => Some (p, None)
  | Some slot =>
      next ← p.(words) !! slot;
      Some (mkPool p.(words) next (wrap_u64 (p.(allocated) + 1)), Some slot)
  end.

Definition deallocate (slot : nat) (p : pool) : option pool :=
  m ← memcpy_word slot p.(free_head) p.(words);
  Some (mkPool m (Some slot) (wrap_u64 (p.(allocated) - 1))).

Definition reset (p : pool) : option pool :=
  build_free_list (mkPool p.(words) p.(free_head) 0).

Definition available (p : pool) : Z := wrap_u64 (Z.of_nat Capacity - p.(allocated)).

(** A write of the client to the first word of a slot. *)
Definition store (slot : nat) (w : option nat) (p : pool) : option pool :=
  m ← memcpy_word slot w p.(words); Some (mkPool m p.(free_head) p.(allocated)).

(** ** What a pool holds *)

Fixpoint chain (m : gmap nat (option nat)) (p : option nat) (free : list nat) : Prop :=
  match free with
  | [] => p = None
  | s :: free' => p = Some s ∧ ∃ next, m !! s = Some next ∧ chain m next free'
  end.

Record pool_rep (p : pool) (free : list nat) : Prop := {
  pr_chain : chain p.(words) p.(free_head) free;
  pr_nodup : NoDup free;
  pr_range : Forall (λ s, s < Capacity)%nat free;
  pr_nonneg : 0 <= p.(allocated);
  pr_allocated : p.(allocated) + Z.of_nat (length free) = Z.of_nat Capacity
}.

Lemma chain_insert m p free s w : s ∉ free → chain m p free → chain (<[s := w]> m) p free.
Proof.
  revert p. induction free as [|x free IH]; intros p Hs; [done|]. intros [-> (next & Hx & Hc)].
  apply not_elem_of_cons in Hs as [Hne Hs]. split; [done|]. exists next.
  rewrite lookup_insert_ne by done. split; [done|]. by apply IH.
Qed.

Lemma thread_ok n i m : (i < Capacity)%nat → (Capacity <= n + i)%nat →
  ∃ m', thread n i m = Some m' ∧ (∀ j, (i <= j)%nat → (j + 1 < Capacity)%nat → m' !! j = Some (Some (j + 1)%nat)) ∧
    ∀ j, (j < i)%nat → m' !! j = m !! j.
Proof.
  revert i m. induction n as [|n IH]; intros i m Hi Hn; [lia|]. cbn. case_decide.
  - unfold memcpy_word. rewrite decide_True by lia. cbn.
    destruct (IH (i + 1)%nat (<[i := Some (i + 1)%nat]> m)) as (m' & -> & H1 & H2); [lia..|].
    exists m'. split; [done|]. split.
    + intros j Hj Hj'. destruct (decide (j = i)) as [->|]; [|apply H1; lia].
      rewrite H2 by lia. by rewrite lookup_insert_eq.
    + intros j Hj. rewrite H2 by lia. apply lookup_insert_ne. lia.
  - exists m. split; [done|]. split; [lia|done].
Qed.

Lemma build_free_list_ok p : (0 < Capacity)%nat → p.(allocated) = 0 →
  ∃ p', build_free_list p = Some p' ∧ pool_rep p' (seq 0 Capacity).
Proof.
  intros Hcap Ha. unfold build_free_list.
  destruct (thread_ok Capacity 0 p.(words)) as (m & -> & Hm & _); [lia..|]. cbn.
  unfold memcpy_word. rewrite decide_True by lia. cbn. eexists. split; [reflexivity|]. split; cbn.
  - assert (Hc : ∀ k i, (i + k = Capacity)%nat →
      chain (<[(Capacity - 1)%nat := None]> m) (if decide (0 < k)%nat then Some i else None) (seq i k)).
    { induction k as [|k IH]; intros i Hk; [done|]. rewrite decide_True by lia. cbn. split; [done|].
      eexists. split; [|apply IH; lia]. case_decide.
      - rewrite lookup_insert_ne by lia. rewrite Hm by lia. do 2 f_equal. lia.
      - replace i with (Capacity - 1)%nat by lia. apply lookup_insert_eq. }
    specialize (Hc Capacity 0%nat eq_refl). by rewrite decide_True in Hc.
  - apply NoDup_seq.
  - apply Forall_seq. lia.
  - by rewrite Ha.
  - rewrite Ha, length_seq. lia.
Qed.

(** The pool is the stack of its free slots. *)
Context (Hbits : Z.of_nat Capacity < uint64_mod).

Lemma allocate_ok p free : pool_rep p free →
  match free with
  | [] => allocate p = Some (p, None)
  | s :: free' => ∃ p', allocate p = Some (p', Some s) ∧ pool_rep p' free'
  end.
Proof using Hbits.
  intros [Hc Hnd Hr Hz Ha]. unfold allocate. destruct free as [|s free]; cbn in Hc; [by rewrite Hc|].
  destruct Hc as [-> (next & -> & Hc)]. cbn. eexists. split; [reflexivity|].
  apply NoDup_cons in Hnd as [_ ?]. apply Forall_cons in Hr as [_ ?]. split; cbn in *; try done; (rewrite wrap_u64_id; unfold in_uint64; lia).
Qed.

Lemma deallocate_ok p free s : pool_rep p free → s ∉ free → (s < Capacity)%nat →
  0 < p.(allocated) →
  ∃ p', deallocate s p = Some p' ∧ pool_rep p' (s :: free).
Proof using Hbits.
  intros [Hc Hnd Hr Hz Ha] Hs Hlt Hpos. unfold deallocate, memcpy_word. rewrite decide_True by done. cbn.
  eexists. split; [reflexivity|]. split; cbn.
  - split; [done|]. eexists. rewrite lookup_insert_eq. split; [done|]. by apply chain_insert.
  - by constructor.
  - by constructor.
  - rewrite wrap_u64_id; unfold in_uint64; lia.
  - rewrite wrap_u64_id; unfold in_uint64; lia.
Qed.

Lemma store_ok p free s w : pool_rep p free → s ∉ free → (s < Capacity)%nat →
  ∃ p', store s w p = Some p' ∧ pool_rep p' free.
Proof.
  intros [Hc Hnd Hr Hz Ha] Hs Hlt. unfold store, memcpy_word. rewrite decide_True by done. cbn.
  eexists. split; [reflexivity|]. split; cbn; try done. by apply chain_insert.
Qed.

(** ** A client of the pool *)

(** The calls of a client that holds the slots [live]. *)
Inductive client : pool * list nat → pool * list nat → Prop :=
  | c_allocate p live p' s : allocate p = Some (p', Some s) → client (p, live) (p', s :: live)
  | c_exhausted p live p' : allocate p = Some (p', None) → client (p, live) (p', live)
  | c_deallocate p live p' l1 s l2 : live = l1 ++ s :: l2 → deallocate s p = Some p' → client (p, live) (p', l1 ++ l2)
  | c_store p live p' s w : s ∈ live → store s w p = Some p' → client (p, live) (p', live)
  | c_reset p live p' : reset p = Some p' → client (p, live) (p', []).

(** Every slot is either free or held. *)
Definition partitioned (p : pool) (live : list nat) : Prop :=
  ∃ free, pool_rep p free ∧ free ++ live ≡ₚ seq 0 Capacity.

Lemma partitioned_live p live free : pool_rep p free → free ++ live ≡ₚ seq 0 Capacity →
  NoDup (free ++ live) ∧ (∀ s, s ∈ live → s < Capacity ∧ s ∉ free)%nat ∧ p.(allocated) = Z.of_nat (length live).
Proof.
  intros Hr Hp. assert (Hnd : NoDup (free ++ live)) by (rewrite Hp; apply NoDup_seq). split; [done|]. split.
  - intros s Hs. split.
    + assert (Hin : s ∈ free ++ live) by (apply elem_of_app; by right). rewrite Hp in Hin. apply elem_of_seq in Hin. lia.
    + intros Hf. apply NoDup_app in Hnd as (_ & Hd & _). by apply (Hd s).
  - apply Permutation_length in Hp. rewrite length_app, length_seq in Hp. pose proof (pr_allocated _ _ Hr). lia.
Qed.

Lemma client_partitioned p live p' live' :
  (0 < Capacity)%nat → client (p, live) (p', live') → partitioned p live → partitioned p' live'.
Proof using Hbits.
  intros Hcap Hstep (free & Hr & Hp). destruct (partitioned_live _ _ _ Hr Hp) as (Hnd & Hlive & Hal).
  inversion Hstep as [? ? ? s Ha|? ? ? Ha|? ? ? l1 s l2 -> Ha|? ? ? s w Hs Ha|? ? ? Ha]; simplify_eq.
  - pose proof (allocate_ok _ _ Hr) as Hok. destruct free as [|s' free]; [congruence|].
    destruct Hok as (p1 & E & Hr1). rewrite E in Ha. injection Ha as -> ->. exists free. split; [done|].
    rewrite <- Permutation_middle. exact Hp.
  - pose proof (allocate_ok _ _ Hr) as Hok. destruct free as [|s' free]; [|destruct Hok as (? & ? & _); congruence].
    rewrite Hok in Ha. injection Ha as ->. by exists [].
  - destruct (Hlive s) as [Hlt Hni]; [set_solver|]. rewrite length_app in Hal. cbn in Hal.
    destruct (deallocate_ok _ _ s Hr Hni Hlt) as (p1 & E & Hr1); [lia|]. rewrite E in Ha. injection Ha as ->.
    exists (s :: free). split; [done|]. rewrite <- Hp. cbn. rewrite !(app_assoc free). apply Permutation_middle.
  - destruct (Hlive s Hs) as [Hlt Hni]. destruct (store_ok _ _ _ w Hr Hni Hlt) as (p1 & E & Hr1).
    rewrite E in Ha. injection Ha as ->. by exists free.
  - destruct (build_free_list_ok (mkPool p.(words) p.(free_head) 0) Hcap eq_refl) as (p1 & E & Hr1).
    unfold reset in Ha. rewrite E in Ha. injection Ha as ->. exists (seq 0 Capacity). split; [done|]. by rewrite app_nil_r.
Qed.

(** From construction on, whatever the client does with the slots it
    holds, an allocation never reads outside the pool, returns a slot the client does not hold, and fails only
    when it holds all of them. *)
Theorem pool_client_safe storage p0 p live :
  construct storage = Some p0 → (0 < Capacity)%nat → rtc client (p0, []) (p, live) →
  NoDup live ∧ Forall (λ s, s < Capacity)%nat live ∧ available p = Z.of_nat Capacity - Z.of_nat (length live) ∧
  ∃ p' r, allocate p = Some (p', r) ∧
    match r with
    | Some s => s ∉ live ∧ (s < Capacity)%nat ∧ available p' = available p - 1
    | None => length live = Capacity ∧ p' = p
    end.
Proof using Hbits.
  intros Hc Hcap Hsteps.
  assert (Hinv : partitioned p live).
  { assert (H0 : partitioned p0 []).
    { destruct (build_free_list_ok (mkPool storage None 0) Hcap eq_refl) as (p1 & E & Hr1).
      unfold construct in Hc. rewrite E in Hc. injection Hc as ->. exists (seq 0 Capacity). by rewrite app_nil_r. }
    clear Hc. remember (p0, @nil nat) as x eqn:Ex. remember (p, live) as y eqn:Ey.
    revert p0 p live Ex Ey H0. generalize (@nil nat). induction Hsteps as [x|x [p1 live1] y Hst _ IH];
      intros l p0 p live -> E H0; [by injection E as -> ->|].
    apply (IH live1 p1 p live eq_refl E). by eapply client_partitioned. }
  destruct Hinv as (free & Hr & Hp). destruct (partitioned_live _ _ _ Hr Hp) as (Hnd & Hlive & Hal).
  split_and!.
  - by apply NoDup_app in Hnd as (_ & _ & ?).
  - apply Forall_forall. intros s Hs. by apply Hlive.
  - pose proof (pr_allocated _ _ Hr). unfold available. rewrite Hal, wrap_u64_id; unfold in_uint64; lia.
  - pose proof (allocate_ok _ _ Hr) as Hok. destruct free as [|s free].
    + exists p, None. split; [done|]. split; [|done]. pose proof (pr_allocated _ _ Hr) as Hl. cbn in Hl. lia.
    + destruct Hok as (p' & E & Hr'). exists p', (Some s). split; [done|]. split_and!.
      * apply NoDup_app in Hnd as (_ & Hd & _). apply Hd. by left.
      * pose proof (pr_range _ _ Hr) as Hrange. by apply Forall_cons in Hrange as [? _].
      * pose proof (pr_allocated _ _ Hr) as H1. pose proof (pr_allocated _ _ Hr') as H2. pose proof (pr_nonneg _ _ Hr). pose proof (pr_nonneg _ _ Hr'). unfold available. rewrite !wrap_u64_id; unfold in_uint64; cbn in *; lia.
Qed.
End pool.

Lemma pool_client_safe_witness : ∃ p0 p, construct 2 ∅ = Some p0 ∧ rtc (client 2) (p0, []) (p, [1; 0]%nat) ∧
  ∃ p' r, allocate p = Some (p', r) ∧ r = None.
Proof.
  assert (Hc : construct 2 ∅ = Some (mkPool (<[1%nat := None]> {[0%nat := Some 1%nat]}) (Some 0%nat) 0)) by reflexivity.
  set (p0 := mkPool _ _ 0) in Hc.
  assert (Hr : rtc (client 2) (p0, []) (mkPool p0.(words) None 2, [1; 0]%nat)).
  { eapply rtc_l; [apply (c_allocate _ _ _ (mkPool p0.(words) (Some 1%nat) 1) 0); reflexivity|].
    eapply rtc_l; [apply (c_allocate _ _ _ (mkPool p0.(words) None 2) 1); reflexivity|]. apply rtc_refl. }
  exists p0, (mkPool p0.(words) None 2). split; [exact Hc|]. split; [exact Hr|].
  destruct (pool_client_safe 2 ltac:(reflexivity) ∅ p0 _ _ Hc ltac:(lia) Hr) as (_ & _ & _ & p' & r & E & H).
  exists p', r. split; [exact E|]. injection E as _ <-. reflexivity.
Defined.
