(* ===== verification/Spread.v ===== *)
(** * Spread strategies and implied prices

    [spread_strategy.h], [implied_price_engine.h], [circular_guard.h] and
    [spread_strategy_registry.h]: a spread trades several outright instruments
    (legs) in fixed ratios; its price is the weighted sum of leg prices.

    Integers are [Z]; [/] and [%] are [Z.quot] and [Z.rem], [std::gcd] and
    [std::lcm] are [Z.gcd] and [Z.lcm].  [None] stands for a division by zero
    in [compute_min_trade_qty]; elsewhere for [std::nullopt]. *)

From S2P Require Import Prelude Types.

(** ** Strategies *)

Inductive StrategyType : Type :=
  | CalendarSpread
  | Butterfly
  | Condor
  | InterCommodity
  | Strip
  | Custom.

Record StrategyLeg : Type := mkLeg {
  leg_instrument_id : Z;
  leg_ratio : Z;
  leg_price_multiplier : Z;
  leg_tick_size : Price;
  leg_lot_size : Quantity
}.

Record SpreadStrategy : Type := mkStrategy {
  st_type : StrategyType;
  st_legs : list StrategyLeg;
  st_tick_size : Price;
  st_lot_size : Quantity
}.

Definition tick_contribution (leg : StrategyLeg) : Price :=
  leg.(leg_tick_size) * Z.abs leg.(leg_price_multiplier).

Fixpoint tick_loop (legs : list StrategyLeg) (g : Price) : Price :=
  match legs with
  | [] => g
  | leg :: legs' => tick_loop legs' (Z.gcd g (tick_contribution leg))
  end.

Definition compute_tick_size (legs : list StrategyLeg) : Price :=
  match legs with
  | [] => 0
  | _ => let g := tick_loop legs 0 in if g >? 0 then g else 1
  end.

Definition abs_ratio (leg : StrategyLeg) : Quantity := Z.abs leg.(leg_ratio).

Fixpoint min_qty_loop (legs : list StrategyLeg) (result : Quantity) : option Quantity :=
  match legs with
  | [] => Some result
  | leg :: legs' =>
      let divisor := Z.gcd leg.(leg_lot_size) (abs_ratio leg) in
      if divisor =? 0 then None
      else min_qty_loop legs' (Z.lcm result (Z.quot leg.(leg_lot_size) divisor))
  end.

Definition compute_min_trade_qty (legs : list StrategyLeg) : option Quantity :=
  match legs with [] => Some PRICE_SCALE | _ => min_qty_loop legs 1 end.

(** The constructor; an override of 0 means computed from the legs. *)
Definition make_strategy (type : StrategyType) (legs : list StrategyLeg)
    (tick_size_override : Price) (lot_size_override : Quantity) : option SpreadStrategy :=
  lot ← (if lot_size_override >? 0 then Some lot_size_override else compute_min_trade_qty legs);
  Some (mkStrategy type legs
          (if tick_size_override >? 0 then tick_size_override else compute_tick_size legs) lot).

Definition sign (leg : StrategyLeg) : Z := if leg.(leg_ratio) >? 0 then 1 else -1.

Fixpoint spread_price_loop (legs : list StrategyLeg) (prices : list Price) (spread_price : Price) : Price :=
  match legs, prices with
  | leg :: legs', p :: prices' =>
      spread_price_loop legs' prices' (spread_price + p * leg.(leg_price_multiplier) * sign leg)
  | _, _ => spread_price
  end.

Definition compute_spread_price (st : SpreadStrategy) (prices : list Price) : Price :=
  if (length prices =? length st.(st_legs))%nat then spread_price_loop st.(st_legs) prices 0 else 0.

Definition leg_quantity (st : SpreadStrategy) (i : nat) (spread_qty : Quantity) : Quantity :=
  match st.(st_legs) !! i with Some leg => spread_qty * abs_ratio leg | None => 0 end.

(** [leg_side] of the leg itself. *)
Definition leg_side (leg : StrategyLeg) (spread_side : Side) : Side :=
  let leg_is_buy := leg.(leg_ratio) >? 0 in
  let leg_is_buy := match spread_side with Sell => negb leg_is_buy | Buy => leg_is_buy end in
  if leg_is_buy then Buy else Sell.

(** ** Implied prices *)

Record LegBBO : Type := mkBBO {
  bid_price : Price;
  bid_qty : Quantity;
  ask_price : Price;
  ask_qty : Quantity
}.

Definition has_bid (b : LegBBO) : bool := b.(bid_qty) >? 0.
Definition has_ask (b : LegBBO) : bool := b.(ask_qty) >? 0.

Inductive ImpliedSource : Type :=
  | ImpliedOut
  | ImpliedIn.

Record ImpliedLevel : Type := mkImplied {
  il_price : Price;
  il_quantity : Quantity;
  il_side : Side;
  il_source : ImpliedSource
}.

Definition normalize_tick (price tick_size : Price) : Price :=
  if tick_size <=? 0 then price
  else if price >=? 0 then Z.quot price tick_size * tick_size
  else - (Z.quot (- price) tick_size * tick_size).

Definition price_weight (leg : StrategyLeg) : Price := Z.abs leg.(leg_price_multiplier).

(** The side of a leg's book an implied-out level executes against, and what
    that side offers. *)
Definition out_resting_side (implied_side : Side) (leg : StrategyLeg) : Side :=
  match implied_side with
  | Buy => if leg.(leg_ratio) >? 0 then Buy else Sell
  | Sell => if leg.(leg_ratio) >? 0 then Sell else Buy
  end.
Definition bbo_price (side : Side) (b : LegBBO) : Price :=
  match side with Buy => b.(bid_price) | Sell => b.(ask_price) end.
Definition bbo_qty (side : Side) (b : LegBBO) : Quantity :=
  match side with Buy => b.(bid_qty) | Sell => b.(ask_qty) end.

(** The loop of [compute_implied_out_bid]: price and quantity so far. *)
Fixpoint out_bid_loop (legs : list StrategyLeg) (bbos : list LegBBO) (price : Price) (min_qty : Quantity)
    : option (Price * Quantity) :=
  match legs, bbos with
  | leg :: legs', bbo :: bbos' =>
      let abs_r := abs_ratio leg in
      if abs_r =? 0 then None
      else if leg.(leg_ratio) >? 0 then
        if has_bid bbo then
          out_bid_loop legs' bbos' (price + price_weight leg * bbo.(bid_price))
            (Z.min min_qty (Z.quot bbo.(bid_qty) abs_r))
        else None
      else
        if has_ask bbo then
          out_bid_loop legs' bbos' (price - price_weight leg * bbo.(ask_price))
            (Z.min min_qty (Z.quot bbo.(ask_qty) abs_r))
        else None
  | _, _ => Some (price, min_qty)
  end.

Fixpoint out_ask_loop (legs : list StrategyLeg) (bbos : list LegBBO) (price : Price) (min_qty : Quantity)
    : option (Price * Quantity) :=
  match legs, bbos with
  | leg :: legs', bbo :: bbos' =>
      let abs_r := abs_ratio leg in
      if abs_r =? 0 then None
      else if leg.(leg_ratio) >? 0 then
        if has_ask bbo then
          out_ask_loop legs' bbos' (price + price_weight leg * bbo.(ask_price))
            (Z.min min_qty (Z.quot bbo.(ask_qty) abs_r))
        else None
      else
        if has_bid bbo then
          out_ask_loop legs' bbos' (price - price_weight leg * bbo.(bid_price))
            (Z.min min_qty (Z.quot bbo.(bid_qty) abs_r))
        else None
  | _, _ => Some (price, min_qty)
  end.

Definition sizes_differ (legs : list StrategyLeg) (bbos : list LegBBO) : bool :=
  negb (length legs =? length bbos)%nat || (length legs =? 0)%nat.

Definition compute_implied_out_bid (legs : list StrategyLeg) (bbos : list LegBBO) (spread_tick_size : Price)
    : option ImpliedLevel :=
  if sizes_differ legs bbos then None
  else
    '(price, min_qty) ← out_bid_loop legs bbos 0 int64_max;
    if min_qty <=? 0 then None
    else Some (mkImplied (normalize_tick price spread_tick_size) min_qty Buy ImpliedOut).

Definition compute_implied_out_ask (legs : list StrategyLeg) (bbos : list LegBBO) (spread_tick_size : Price)
    : option ImpliedLevel :=
  if sizes_differ legs bbos then None
  else
    '(price, min_qty) ← out_ask_loop legs bbos 0 int64_max;
    if min_qty <=? 0 then None
    else Some (mkImplied (normalize_tick price spread_tick_size) min_qty Sell ImpliedOut).

Definition compute_implied_out (side : Side) : list StrategyLeg → list LegBBO → Price → option ImpliedLevel :=
  match side with Buy => compute_implied_out_bid | Sell => compute_implied_out_ask end.

(** [is_buy]: the side of a leg when the spread is traded on [spread_side]. *)
Definition leg_is_buy (leg : StrategyLeg) (spread_side : Side) : bool :=
  match spread_side with Buy => leg.(leg_ratio) >? 0 | Sell => leg.(leg_ratio) <? 0 end.

(** The loop of [compute_implied_in] from leg [i], the target excepted. *)
Fixpoint in_loop (i target : nat) (spread_side : Side) (legs : list StrategyLeg) (bbos : list LegBBO)
    (other_cost : Price) (min_qty : Quantity) : option (Price * Quantity) :=
  match legs, bbos with
  | leg :: legs', bbo :: bbos' =>
      if (i =? target)%nat then in_loop (S i) target spread_side legs' bbos' other_cost min_qty
      else
        let abs_r := abs_ratio leg in
        if abs_r =? 0 then None
        else if leg_is_buy leg spread_side then
          if has_ask bbo then
            in_loop (S i) target spread_side legs' bbos'
              (other_cost + sign leg * price_weight leg * bbo.(ask_price))
              (Z.min min_qty (Z.quot bbo.(ask_qty) abs_r))
          else None
        else
          if has_bid bbo then
            in_loop (S i) target spread_side legs' bbos'
              (other_cost + sign leg * price_weight leg * bbo.(bid_price))
              (Z.min min_qty (Z.quot bbo.(bid_qty) abs_r))
          else None
  | _, _ => Some (other_cost, min_qty)
  end.

Definition compute_implied_in (legs : list StrategyLeg) (bbos : list LegBBO) (target_leg_index : nat)
    (spread_side : Side) (spread_price outright_tick_size : Price) : option ImpliedLevel :=
  if sizes_differ legs bbos then None
  else
    target ← legs !! target_leg_index;
    if target.(leg_ratio) =? 0 then None
    else if price_weight target =? 0 then None
    else
      let target_side := if leg_is_buy target spread_side then Buy else Sell in
      '(other_cost, min_qty) ← in_loop 0 target_leg_index spread_side legs bbos 0 int64_max;
      if min_qty <=? 0 then None
      else
        let numerator := spread_price - other_cost in
        let divisor := sign target * price_weight target in
        Some (mkImplied (normalize_tick (Z.quot numerator divisor) outright_tick_size) min_qty
                target_side ImpliedIn).

(** [ImpliedPriceEngine::gcd]: the loop, with fuel for its iterations. *)
Fixpoint gcd_loop (fuel : nat) (a b : Quantity) : option Quantity :=
  if b =? 0 then Some a
  else match fuel with O => None | S fuel' => gcd_loop fuel' b (Z.rem a b) end.

Definition absolute (a : Quantity) : Quantity := if a <? 0 then - a else a.
Definition gcd (a b : Quantity) : option Quantity :=
  gcd_loop (Z.to_nat (absolute b)) (absolute a) (absolute b).

Definition lcm (a b : Quantity) : option Quantity :=
  if (a =? 0) || (b =? 0) then Some 0
  else
    let a := absolute a in
    let b := absolute b in
    g ← gcd a b; Some (Z.quot a g * b).

Fixpoint min_spread_loop (legs : list StrategyLeg) (result : Quantity) : option Quantity :=
  match legs with
  | [] => Some result
  | leg :: legs' =>
      let abs_r := abs_ratio leg in
      if (abs_r =? 0) || (leg.(leg_lot_size) <=? 0) then Some 0
      else
        g ← gcd leg.(leg_lot_size) abs_r;
        result ← lcm result (Z.quot leg.(leg_lot_size) g);
        min_spread_loop legs' result
  end.

Definition compute_min_spread_qty (legs : list StrategyLeg) : option Quantity :=
  match legs with [] => Some 0 | _ => min_spread_loop legs 1 end.

Definition round_qty_down (qty min_qty : Quantity) : Quantity :=
  if (min_qty <=? 0) || (qty <? min_qty) then 0 else Z.quot qty min_qty * min_qty.

(** ** The circular guard *)

Record CircularGuard : Type := mkGuard {
  max_depth : Z;
  current_depth : Z;
  converged : bool
}.

Definition kDefaultMaxDepth : Z := 3.
Definition new_guard (depth : Z) : CircularGuard := mkGuard depth 0 false.

Definition enter (g : CircularGuard) : CircularGuard * bool :=
  if g.(converged) || (g.(current_depth) >=? g.(max_depth)) then (g, false)
  else (mkGuard g.(max_depth) (g.(current_depth) + 1) g.(converged), true).
Definition mark_converged (g : CircularGuard) : CircularGuard :=
  mkGuard g.(max_depth) g.(current_depth) true.
Definition guard_reset (g : CircularGuard) : CircularGuard := mkGuard g.(max_depth) 0 false.
Definition is_exhausted (g : CircularGuard) : bool := g.(current_depth) >=? g.(max_depth).

(** ** The registry *)

Inductive RegisterError : Type :=
  | DuplicateSpreadId (id : Z)
  | TooFewLegs
  | FirstRatioNotPositive
  | ZeroRatio (leg : nat)
  | InvalidTickSize (leg : nat)
  | InvalidLotSize (leg : nat)
  | LegIsSpread
  | UnknownLegInstrument (id : Z).

(** [reg_validator] is the callback, if set. *)
Record SpreadStrategyRegistry : Type := mkRegistry {
  reg_validator : option (Z → bool);
  reg_strategies : gmap Z SpreadStrategy;
  reg_spread_ids : gset Z
}.

Definition empty_strategies (validator : option (Z → bool)) : SpreadStrategyRegistry :=
  mkRegistry validator ∅ ∅.

Definition validator_rejects (validator : option (Z → bool)) (id : Z) : bool :=
  match validator with Some v => negb (v id) | None => false end.

(** The checks of one leg, in order. *)
Definition leg_error (validator : option (Z → bool)) (spread_id : Z) (i : nat) (leg : StrategyLeg)
    : option RegisterError :=
  if leg.(leg_ratio) =? 0 then Some (ZeroRatio i)
  else if leg.(leg_tick_size) <=? 0 then Some (InvalidTickSize i)
  else if leg.(leg_lot_size) <=? 0 then Some (InvalidLotSize i)
  else if leg.(leg_instrument_id) =? spread_id then Some LegIsSpread
  else if validator_rejects validator leg.(leg_instrument_id) then Some (UnknownLegInstrument leg.(leg_instrument_id))
  else None.

Fixpoint legs_error (validator : option (Z → bool)) (spread_id : Z) (i : nat) (legs : list StrategyLeg)
    : option RegisterError :=
  match legs with
  | [] => None
  | leg :: legs' =>
      match leg_error validator spread_id i leg with
      | Some e => Some e
      | None => legs_error validator spread_id (S i) legs'
      end
  end.

Definition strategy_error (r : SpreadStrategyRegistry) (id : Z) (st : SpreadStrategy) : option RegisterError :=
  match r.(reg_strategies) !! id with
  | Some _ => Some (DuplicateSpreadId id)
  | None =>
      match st.(st_legs) with
      | leg :: _ :: _ =>
          if leg.(leg_ratio) <=? 0 then Some FirstRatioNotPositive
          else legs_error r.(reg_validator) id 0 st.(st_legs)
      | _ => Some TooFewLegs
      end
  end.

Definition register_strategy (id : Z) (st : SpreadStrategy) (r : SpreadStrategyRegistry)
    : SpreadStrategyRegistry * option RegisterError :=
  match strategy_error r id st with
  | Some e => (r, Some e)
  | None =>
      (mkRegistry r.(reg_validator) (<[id := st]> r.(reg_strategies)) ({[id]} ∪ r.(reg_spread_ids)), None)
  end.

Definition lookup_strategy (id : Z) (r : SpreadStrategyRegistry) : option SpreadStrategy :=
  r.(reg_strategies) !! id.
Definition is_spread (id : Z) (r : SpreadStrategyRegistry) : bool := bool_decide (id ∈ r.(reg_spread_ids)).
