(* ===== verification/SpreadTheorems.v ===== *)
(** * What spread strategies and implied prices promise

    The tick of a strategy is the finest step of its prices, its lot the least
    quantity that trades whole lots of every leg; an implied-out level is the
    best price at which the legs can be executed, for as much as all of them
    offer; the registry admits exactly the well-formed strategies. *)

From S2P Require Import Prelude Types Spread.
From Stdlib Require Import Znumtheory.

(** ** Ticks *)

(** Prices the legs can trade at. *)
Definition on_tick (legs : list StrategyLeg) (prices : list Price) : Prop :=
  Forall2 (λ leg p, (leg.(leg_tick_size) | p)) legs prices.

Lemma spread_price_acc legs prices a :
  spread_price_loop legs prices a = a + spread_price_loop legs prices 0.
Proof.
  revert prices a. induction legs as [|leg legs IH]; intros [|p prices] a; cbn -[Z.add Z.mul]; [lia..|].
  rewrite (IH prices (a + _)), (IH prices (0 + _)). lia.
Qed.

Lemma tick_loop_divides legs g d :
  (d | tick_loop legs g) ↔ (d | g) ∧ Forall (λ leg, (d | tick_contribution leg)) legs.
Proof.
  revert g. induction legs as [|leg legs IH]; intros g; cbn.
  - split; [intros H; by split|by intros []].
  - rewrite IH, Forall_cons. split.
    + intros [H ?]. split_and!; [|..|done].
      * eapply Z.divide_trans; [exact H|apply Z.gcd_divide_l].
      * eapply Z.divide_trans; [exact H|apply Z.gcd_divide_r].
    + intros (? & ? & ?). split; [by apply Z.gcd_greatest|done].
Qed.

Lemma tick_loop_nonneg legs g : 0 <= g → 0 <= tick_loop legs g.
Proof.
  revert g. induction legs as [|leg legs IH]; intros g Hg; cbn; [done|]. apply IH, Z.gcd_nonneg.
Qed.

Lemma compute_tick_divides legs d : legs ≠ [] → Forall (λ leg, (d | tick_contribution leg)) legs →
  Exists (λ leg, tick_contribution leg ≠ 0) legs → (d | compute_tick_size legs).
Proof.
  intros Hne Hall Hex. unfold compute_tick_size. destruct legs as [|leg legs]; [done|].
  set (g := tick_loop (leg :: legs) 0). assert (Hd : (d | g)) by (apply tick_loop_divides; split; [apply Z.divide_0_r|done]).
  destruct (Z.gtb_spec g 0) as [|Hle]; [done|]. exfalso.
  assert (Hg : g = 0) by (pose proof (tick_loop_nonneg (leg :: legs) 0); unfold g in *; lia).
  assert (H0 : (0 | g)) by (rewrite Hg; apply Z.divide_refl).
  apply tick_loop_divides in H0 as [_ H0]. apply Exists_exists in Hex as (x & Hx & Hc).
  rewrite Forall_forall in H0. by apply Hc, Z.divide_0_l, H0.
Qed.

Lemma compute_tick_contribution legs : Forall (λ leg, (compute_tick_size legs | tick_contribution leg)) legs.
Proof.
  unfold compute_tick_size. destruct legs as [|leg legs]; [constructor|].
  set (g := tick_loop (leg :: legs) 0). destruct (Z.gtb_spec g 0) as [|Hle].
  - by apply (tick_loop_divides (leg :: legs) 0 g).
  - apply Forall_forall. intros. apply Z.divide_1_l.
Qed.

Lemma contribution_divides d leg p : (d | tick_contribution leg) → (leg.(leg_tick_size) | p) →
  (d | p * leg.(leg_price_multiplier) * sign leg).
Proof.
  unfold tick_contribution. intros Hd [k ->]. apply Z.divide_mul_l.
  assert (Hd' : (d | leg.(leg_tick_size) * leg.(leg_price_multiplier))).
  { destruct (Z.abs_spec leg.(leg_price_multiplier)) as [[_ E]|[_ E]]; rewrite E in Hd; [done|].
    rewrite Z.mul_opp_r in Hd. by apply Z.divide_opp_r. }
  rewrite <- Z.mul_assoc. by apply Z.divide_mul_r.
Qed.

Lemma spread_price_divides d legs prices : on_tick legs prices → Forall (λ leg, (d | tick_contribution leg)) legs →
  (d | spread_price_loop legs prices 0).
Proof.
  induction 1 as [|leg p legs prices Hp Hps IH]; [intros _; apply Z.divide_0_r|].
  intros [Hd Hds]%Forall_cons. cbn. rewrite spread_price_acc. apply Z.divide_add_r; [|by apply IH].
  by apply contribution_divides.
Qed.

(** All legs at 0 except one, a tick away. *)
Lemma one_tick_price l1 leg l2 : ∃ prices, on_tick (l1 ++ leg :: l2) prices ∧
  Z.abs (spread_price_loop (l1 ++ leg :: l2) prices 0) = Z.abs (tick_contribution leg).
Proof.
  assert (H0 : ∀ l ps, Forall (λ p, p = 0) ps → spread_price_loop l ps 0 = 0).
  { induction l as [|x l IH]; intros [|p ps]; cbn; try done. intros [-> H]%Forall_cons. cbn. by apply IH. }
  assert (Hz : ∀ l : list StrategyLeg, on_tick l (const 0 <$> l)).
  { unfold on_tick. induction l; cbn; constructor; [apply Z.divide_0_r|done]. }
  exists ((const 0 <$> l1) ++ leg.(leg_tick_size) :: (const 0 <$> l2)). split.
  - unfold on_tick. apply Forall2_app; [apply Hz|]. constructor; [apply Z.divide_refl|apply Hz].
  - induction l1 as [|x l1 IH]; cbn; [|exact IH]. rewrite spread_price_acc, H0.
    2: { apply Forall_fmap, Forall_forall. done. }
    unfold tick_contribution, sign. case_if as E; rewrite Z.add_0_r, !Z.abs_mul, Z.abs_involutive; lia.
Qed.

(** The automatic tick size of a strategy is the greatest step of its
    prices: leg prices on their ticks give a spread price on the spread's tick,
    and any step that all these spread prices are multiples of divides it. *)
Theorem strategy_tick_exact type legs lot st :
  make_strategy type legs 0 lot = Some st →
  legs ≠ [] → Exists (λ leg, tick_contribution leg ≠ 0) legs →
  (∀ prices, on_tick legs prices → (st.(st_tick_size) | compute_spread_price st prices)) ∧
  (∀ d, (∀ prices, on_tick legs prices → (d | compute_spread_price st prices)) → (d | st.(st_tick_size))).
Proof.
  intros Hst Hne Hex. unfold make_strategy in Hst. apply bind_Some in Hst as (q & _ & [= <-]). cbn.
  unfold compute_spread_price. cbn. split.
  - intros prices Hp. case_if as E; [|apply Z.divide_0_r]. apply spread_price_divides; [done|].
    apply compute_tick_contribution.
  - intros d Hd. apply compute_tick_divides; [done| |done]. apply Forall_forall. intros leg (l1 & l2 & ->)%list_elem_of_split.
    destruct (one_tick_price l1 leg l2) as (prices & Hp & Ha). specialize (Hd prices Hp).
    assert (E : (length prices =? length (l1 ++ leg :: l2))%nat = true) by (apply Nat.eqb_eq; symmetry; by eapply Forall2_length).
    rewrite E in Hd. apply Z.divide_abs_r. rewrite <- Ha. by apply Z.divide_abs_r.
Qed.

(** ** Lots *)

(** [gcd] and [lcm] of [ImpliedPriceEngine] are those of the standard library. *)
Lemma gcd_loop_ok fuel a b : 0 <= b → b <= Z.of_nat fuel → 0 <= a → gcd_loop fuel a b = Some (Z.gcd a b).
Proof.
  revert a b. induction fuel as [|fuel IH]; intros a b Hb Hf Ha; cbn.
  - assert (b = 0) as -> by lia. cbn. by rewrite Z.gcd_0_r, Z.abs_eq.
  - destruct (Z.eqb_spec b 0) as [->|Hne]; [by rewrite Z.gcd_0_r, Z.abs_eq|].
    rewrite Z.rem_mod_nonneg by lia. pose proof (Z.mod_pos_bound a b).
    rewrite IH by lia. f_equal. rewrite (Z.gcd_comm b), Z.gcd_mod by done. apply Z.gcd_comm.
Qed.

Lemma absolute_abs a : absolute a = Z.abs a.
Proof. unfold absolute. destruct (Z.ltb_spec a 0); lia. Qed.

Lemma gcd_ok a b : gcd a b = Some (Z.gcd a b).
Proof. unfold gcd. rewrite !absolute_abs, gcd_loop_ok by lia. by rewrite Z.gcd_abs_l, Z.gcd_abs_r. Qed.

Lemma lcm_ok a b : lcm a b = Some (Z.lcm a b).
Proof.
  unfold lcm. destruct (Z.eqb_spec a 0) as [->|Ha]; [done|]. destruct (Z.eqb_spec b 0) as [->|Hb]; [by rewrite Z.lcm_0_r|].
  cbn [orb]. rewrite !absolute_abs, gcd_ok. cbn. f_equal.
  rewrite <- (Z.lcm_abs_l a b), <- (Z.lcm_abs_r (Z.abs a) b). unfold Z.lcm.
  assert (Hg : 0 < Z.gcd (Z.abs a) (Z.abs b)).
  { pose proof (Z.gcd_nonneg (Z.abs a) (Z.abs b)). destruct (Z.eq_dec (Z.gcd (Z.abs a) (Z.abs b)) 0) as [E|]; [|lia].
    apply Z.gcd_eq_0_l in E. lia. }
  destruct (Z.gcd_divide_l (Z.abs a) (Z.abs b)) as [k Hk]. destruct (Z.gcd_divide_r (Z.abs a) (Z.abs b)) as [j Hj].
  set (g := Z.gcd _ _) in *. rewrite Hk, Hj. rewrite Z.quot_mul, Z.div_mul by lia.
  rewrite Z.abs_eq; [lia|]. assert (0 <= k) by nia. assert (0 <= j) by nia. nia.
Qed.

(** Legs a registry admits. *)
Definition leg_ok (leg : StrategyLeg) : Prop :=
  leg.(leg_ratio) ≠ 0 ∧ 0 < leg.(leg_tick_size) ∧ 0 < leg.(leg_lot_size).

(** The least quantity that trades whole lots of one leg. *)
Lemma leg_lot_divides lot r q : 0 < lot → r ≠ 0 → (Z.quot lot (Z.gcd lot r) | q) ↔ (lot | q * r).
Proof.
  intros Hl Hr. assert (Hg : 0 < Z.gcd lot r).
  { pose proof (Z.gcd_nonneg lot r). destruct (Z.eq_dec (Z.gcd lot r) 0) as [E|]; [|lia]. apply Z.gcd_eq_0_l in E. lia. }
  pose proof (Z.gcd_div_gcd lot r (Z.gcd lot r) ltac:(lia) eq_refl) as Hcop.
  destruct (Z.gcd_divide_l lot r) as [a Ha]. destruct (Z.gcd_divide_r lot r) as [b Hb].
  set (g := Z.gcd lot r) in *. rewrite Ha, Hb in *. rewrite !Z.div_mul in Hcop by lia.
  rewrite Z.quot_mul by lia. split.
  - intros [k ->]. exists (k * b). lia.
  - intros [k Hk]. apply (Z.gauss a b q); [|done]. exists k. apply (Z.mul_reg_r _ _ g); [lia|]. nia.
Qed.

Lemma min_qty_loop_ok legs m : Forall leg_ok legs →
  ∃ m', min_qty_loop legs m = Some m' ∧
    ∀ q, (m' | q) ↔ (m | q) ∧ Forall (λ leg, (leg.(leg_lot_size) | q * abs_ratio leg)) legs.
Proof.
  revert m. induction legs as [|leg legs IH]; intros m; cbn.
  - intros _. exists m. split; [done|]. intros q. split; [intros H; by split|by intros []].
  - intros [(Hr & _ & Hl) Hok]%Forall_cons. destruct (Z.eqb_spec (Z.gcd leg.(leg_lot_size) (abs_ratio leg)) 0) as [E|].
    { apply Z.gcd_eq_0_l in E. lia. }
    destruct (IH (Z.lcm m (Z.quot leg.(leg_lot_size) (Z.gcd leg.(leg_lot_size) (abs_ratio leg)))) Hok) as (m' & -> & Hm').
    exists m'. split; [done|]. intros q. rewrite Hm', Forall_cons.
    rewrite <- (leg_lot_divides leg.(leg_lot_size) (abs_ratio leg) q) by (unfold abs_ratio; lia).
    split.
    + intros [H ?]. split_and!; [| |done]; (eapply Z.divide_trans; [|exact H]); [apply Z.divide_lcm_l|apply Z.divide_lcm_r].
    + intros (? & ? & ?). split; [by apply Z.lcm_least|done].
Qed.

(** The engine's own computation agrees with the strategy's. *)
Lemma min_spread_loop_ok legs m : Forall leg_ok legs → min_spread_loop legs m = min_qty_loop legs m.
Proof.
  revert m. induction legs as [|leg legs IH]; intros m; cbn; [done|].
  intros [(Hr & _ & Hl) Hok]%Forall_cons.
  rewrite (proj2 (Z.eqb_neq _ _)), (proj2 (Z.leb_gt _ _)) by (unfold abs_ratio; lia). cbn [orb].
  rewrite gcd_ok. cbn. rewrite lcm_ok. cbn.
  destruct (Z.eqb_spec (Z.gcd leg.(leg_lot_size) (abs_ratio leg)) 0) as [E|]; [apply Z.gcd_eq_0_l in E; lia|].
  by apply IH.
Qed.

(** The automatic lot of a strategy with valid legs exists, a quantity is a
    multiple of it exactly if every leg then trades a multiple of its own lot,
    and [compute_min_spread_qty] computes the same number with its own gcd and
    lcm, whose loop ends. *)
Theorem strategy_lot_exact type legs tick st :
  Forall leg_ok legs → legs ≠ [] → make_strategy type legs tick 0 = Some st →
  compute_min_spread_qty legs = Some st.(st_lot_size) ∧
  ∀ q, (st.(st_lot_size) | q) ↔
    ∀ i leg, legs !! i = Some leg → (leg.(leg_lot_size) | leg_quantity st i q).
Proof.
  intros Hok Hne Hst. unfold make_strategy in Hst. apply bind_Some in Hst as (lot & Hlot & [= <-]). cbn in *.
  unfold compute_min_trade_qty, compute_min_spread_qty in *. destruct legs as [|leg0 legs]; [done|].
  destruct (min_qty_loop_ok (leg0 :: legs) 1 Hok) as (m & Hm & Hq). rewrite Hm in Hlot. injection Hlot as <-.
  rewrite min_spread_loop_ok, Hm by done. split; [done|]. intros q. rewrite Hq, Forall_lookup. unfold leg_quantity. cbn [st_legs].
  split.
  - intros [_ H] i leg Hi. rewrite Hi. by apply (H i).
  - intros H. split; [apply Z.divide_1_l|]. intros i leg Hi. specialize (H i leg Hi). by rewrite Hi in H.
Qed.

(** [round_qty_down] is the greatest multiple not above the quantity. *)
Lemma round_qty_down_ok qty m : 0 < m → 0 <= qty →
  (m | round_qty_down qty m) ∧ 0 <= round_qty_down qty m <= qty ∧ qty - round_qty_down qty m < m.
Proof.
  intros Hm Hq. unfold round_qty_down. rewrite (proj2 (Z.leb_gt m 0)) by lia. cbn [orb].
  destruct (Z.ltb_spec qty m) as [|Hge]; [split; [apply Z.divide_0_r|lia]|].
  rewrite Z.quot_div_nonneg by lia. split; [apply Z.divide_factor_r|]. pose proof (Z.div_mod qty m). pose proof (Z.mod_pos_bound qty m). nia.
Qed.

(** ** Rounding *)

Lemma normalize_tick_id price tick : (tick | price) → normalize_tick price tick = price.
Proof.
  intros [k ->]. unfold normalize_tick. destruct (Z.leb_spec tick 0) as [|Ht]; [done|].
  case_if as E; [by rewrite Z.quot_mul by lia|]. replace (- (k * tick)) with (- k * tick) by lia. rewrite Z.quot_mul by lia. lia.
Qed.

(** Toward zero, by less than a tick. *)
Lemma normalize_tick_ok price tick : 0 < tick →
  (tick | normalize_tick price tick) ∧ Z.abs price - tick < Z.abs (normalize_tick price tick) <= Z.abs price ∧
  0 <= price * normalize_tick price tick.
Proof.
  intros Ht. unfold normalize_tick. rewrite (proj2 (Z.leb_gt _ _)) by lia. rewrite Z.geb_leb.
  destruct (Z.leb_spec 0 price).
  - rewrite Z.quot_div_nonneg by lia. split; [apply Z.divide_factor_r|].
    pose proof (Z.div_mod price tick). pose proof (Z.mod_pos_bound price tick). pose proof (Z.div_pos price tick). nia.
  - rewrite Z.quot_div_nonneg by lia. split; [apply Z.divide_opp_r, Z.divide_factor_r|].
    pose proof (Z.div_mod (- price) tick). pose proof (Z.mod_pos_bound (- price) tick). pose proof (Z.div_pos (- price) tick). nia.
Qed.

(** ** Implied-out levels *)

(** The prices at which a level on [side] executes, and what it can execute. *)
Definition out_prices (side : Side) (legs : list StrategyLeg) (bbos : list LegBBO) : list Price :=
  zip_with (λ leg bbo, bbo_price (out_resting_side side leg) bbo) legs bbos.
Definition executable (side : Side) (legs : list StrategyLeg) (bbos : list LegBBO) (k : Quantity) : Prop :=
  Forall2 (λ leg bbo, k * abs_ratio leg <= bbo_qty (out_resting_side side leg) bbo) legs bbos.

(** One leg of the two loops. *)
Fixpoint out_loop (side : Side) (legs : list StrategyLeg) (bbos : list LegBBO) (price : Price) (min_qty : Quantity)
    : option (Price * Quantity) :=
  match legs, bbos with
  | leg :: legs', bbo :: bbos' =>
      if (abs_ratio leg =? 0) || (bbo_qty (out_resting_side side leg) bbo <=? 0) then None
      else out_loop side legs' bbos'
             (price + sign leg * (price_weight leg * bbo_price (out_resting_side side leg) bbo))
             (Z.min min_qty (Z.quot (bbo_qty (out_resting_side side leg) bbo) (abs_ratio leg)))
  | _, _ => Some (price, min_qty)
  end.

Lemma out_loop_sides side legs bbos price min_qty :
  match side with Buy => out_bid_loop | Sell => out_ask_loop end legs bbos price min_qty =
    out_loop side legs bbos price min_qty.
Proof.
  revert bbos price min_qty. induction legs as [|leg legs IH]; intros [|bbo bbos] price min_qty; [by destruct side..|].
  destruct side; cbn [out_bid_loop out_ask_loop out_loop];
    unfold out_resting_side, sign, has_bid, has_ask; destruct (abs_ratio leg =? 0); try done;
    destruct (leg_ratio leg >? 0); cbn [bbo_qty bbo_price orb]; rewrite Z.gtb_ltb, Z.leb_antisym;
    case_if as E; cbn [negb]; try done; rewrite IH; f_equal; lia.
Qed.

Lemma le_quot k a r : 0 < r → 0 <= a → k <= Z.quot a r ↔ k * r <= a.
Proof.
  intros Hr Ha. rewrite Z.quot_div_nonneg by lia. pose proof (Z.div_mod a r). pose proof (Z.mod_pos_bound a r). nia.
Qed.

Definition leg_weighted (leg : StrategyLeg) : Prop := leg.(leg_ratio) ≠ 0 ∧ 0 <= leg.(leg_price_multiplier).

Lemma out_loop_ok side legs bbos price m :
  Forall leg_weighted legs → length legs = length bbos →
  match out_loop side legs bbos price m with
  | Some (p, q) => p = price + spread_price_loop legs (out_prices side legs bbos) 0 ∧
                   ∀ k, 0 < k → k <= q ↔ k <= m ∧ executable side legs bbos k
  | None => ∀ k, 0 < k → ¬ executable side legs bbos k
  end.
Proof.
  revert bbos price m. induction legs as [|leg legs IH]; intros [|bbo bbos] price m; try done.
  - intros _ _. cbn. split; [lia|]. intros k. split; [|by intros []]. by split; [|constructor].
  - intros [(Hr & Hpm) Hok]%Forall_cons [= Hlen]. cbn [out_loop]. set (q := bbo_qty _ _).
    assert (Habs : 0 < abs_ratio leg) by (unfold abs_ratio; lia).
    rewrite (proj2 (Z.eqb_neq _ _)) by lia. cbn [orb]. destruct (Z.leb_spec q 0) as [Hq|Hq].
    + intros k Hk [H _]%Forall2_cons. fold q in H. nia.
    + specialize (IH bbos (price + sign leg * (price_weight leg * bbo_price (out_resting_side side leg) bbo))
        (Z.min m (Z.quot q (abs_ratio leg))) Hok Hlen).
      destruct (out_loop side legs bbos _ _) as [[p q']|].
      * destruct IH as [-> IH]. split.
        { cbn -[Z.add Z.mul]. change (zip_with _ legs bbos) with (out_prices side legs bbos). rewrite (spread_price_acc _ _ (0 + _)). unfold price_weight. rewrite (Z.abs_eq (leg_price_multiplier leg)) by lia. lia. }
        intros k Hk. rewrite IH by done. unfold executable. rewrite Forall2_cons. fold q.
        rewrite <- (le_quot k q) by lia. rewrite Z.min_glb_iff. tauto.
      * intros k Hk [_ H]%Forall2_cons. by apply (IH k).
Qed.

Lemma implied_out_unfold side legs bbos tick : length legs = length bbos → legs ≠ [] →
  compute_implied_out side legs bbos tick =
    ('(price, min_qty) ← out_loop side legs bbos 0 int64_max;
     if min_qty <=? 0 then None else Some (mkImplied (normalize_tick price tick) min_qty side ImpliedOut)).
Proof.
  intros Hlen Hne. rewrite <- out_loop_sides. assert (Hs : sizes_differ legs bbos = false).
  { unfold sizes_differ. rewrite Hlen, Nat.eqb_refl. destruct legs, bbos; done. }
  destruct side; cbn; unfold compute_implied_out_bid, compute_implied_out_ask; by rewrite Hs.
Qed.

(** The implied-out level on a side: a quantity (of 64 bits) can be executed on
    all legs exactly if the level exists and offers it, and its price is that of the
    spread at the legs' execution prices, rounded to the spread's tick, which
    changes nothing if that price is on the tick. *)
Lemma implied_out_level side st bbos :
  Forall leg_weighted st.(st_legs) → st.(st_legs) ≠ [] → length st.(st_legs) = length bbos →
  let result := compute_implied_out side st.(st_legs) bbos st.(st_tick_size) in
  let price := compute_spread_price st (out_prices side st.(st_legs) bbos) in
  (∀ k, 0 < k → k <= int64_max ∧ executable side st.(st_legs) bbos k ↔ ∃ lv, result = Some lv ∧ k <= lv.(il_quantity)) ∧
  (∀ lv, result = Some lv → lv.(il_side) = side ∧ 0 < lv.(il_quantity) ∧
     lv.(il_price) = normalize_tick price st.(st_tick_size) ∧
     ((st.(st_tick_size) | price) → lv.(il_price) = price)).
Proof.
  intros Hok Hne Hlen. cbn zeta. rewrite implied_out_unfold by done.
  pose proof (out_loop_ok side _ bbos 0 int64_max Hok Hlen) as H.
  assert (Hp : compute_spread_price st (out_prices side st.(st_legs) bbos) =
    spread_price_loop st.(st_legs) (out_prices side st.(st_legs) bbos) 0).
  { unfold compute_spread_price, out_prices. rewrite length_zip_with, Hlen, Nat.min_id, Nat.eqb_refl. done. }
  destruct (out_loop side _ bbos 0 int64_max) as [[p q]|]; cbn.
  - destruct H as [-> H]. rewrite Z.add_0_l. destruct (Z.leb_spec q 0) as [Hq0|Hq0].
    + split; [|done]. intros k Hk. rewrite <- H by done. split; [lia|by intros (? & ? & _)].
    + split.
      * intros k Hk. rewrite <- H by done. split; [intros He; by eexists|by intros (lv & [= <-] & Hle)].
      * intros lv [= <-]. cbn. rewrite Hp. split_and!; [done|done|done|]. apply normalize_tick_id.
  - split; [|done]. intros k Hk. split; [|by intros (? & ? & _)]. intros [_ He]. by destruct (H k Hk).
Qed.

(** ** Implied-in levels *)

(** The price at which a leg is executed when the spread is traded on [side]. *)
Definition in_price (side : Side) (leg : StrategyLeg) (bbo : LegBBO) : Price :=
  if leg_is_buy leg side then bbo.(ask_price) else bbo.(bid_price).

Lemma sign_weight leg x : leg_weighted leg → sign leg * price_weight leg * x = x * leg.(leg_price_multiplier) * sign leg.
Proof. intros [_ Hpm]. unfold price_weight. rewrite Z.abs_eq by done. lia. Qed.

(** The loop accumulates the spread price of the other legs. *)
Lemma in_loop_ok i target side legs bbos cost m c q x :
  Forall leg_weighted legs → length legs = length bbos →
  in_loop i target side legs bbos cost m = Some (c, q) →
  ∀ leg, (i <= target)%nat → legs !! (target - i)%nat = Some leg →
  c - cost + x * leg.(leg_price_multiplier) * sign leg =
    spread_price_loop legs (<[(target - i)%nat := x]> (zip_with (in_price side) legs bbos)) 0.
Proof.
  revert i bbos cost m. induction legs as [|leg0 legs IH]; intros i [|bbo bbos] cost m; try done.
  intros [Hw Hok]%Forall_cons [= Hlen] H leg Hi Hleg. cbn [in_loop] in H. destruct (Nat.eqb_spec i target) as [->|Hne].
  - rewrite Nat.sub_diag in *. cbn in Hleg. injection Hleg as ->. cbn -[Z.add Z.mul].
    rewrite spread_price_acc.
    assert (Hrest : ∀ j cost m, (target < j)%nat → in_loop j target side legs bbos cost m = Some (c, q) →
      c - cost = spread_price_loop legs (zip_with (in_price side) legs bbos) 0).
    { clear H IH Hw. revert bbos Hlen. induction legs as [|l0 legs IH]; intros [|b0 bbos] Hlen j cost' m' Hj; try done.
      - intros [= -> _]. cbn. lia.
      - apply Forall_cons in Hok as [Hw Hok]. injection Hlen as Hlen. cbn [in_loop]. rewrite (proj2 (Nat.eqb_neq j target)) by lia.
        destruct (abs_ratio l0 =? 0); [done|]. cbn -[Z.add Z.mul]. rewrite spread_price_acc.
        change (in_price side l0 b0) with (if leg_is_buy l0 side then ask_price b0 else bid_price b0).
        destruct (leg_is_buy l0 side); (case_if as E; [|done]); intros Hl; apply IH in Hl; try done; try lia;
          rewrite <- Hl, sign_weight by done; lia. }
    pose proof (Hrest (S target) cost m ltac:(lia) H) as Hr. rewrite Hr. lia.
  - replace (target - i)%nat with (S (target - S i))%nat in * by lia. cbn in Hleg.
    assert (E : spread_price_loop (leg0 :: legs) (<[S (target - S i) := x]> (zip_with (in_price side) (leg0 :: legs) (bbo :: bbos))) 0
      = 0 + (if leg_is_buy leg0 side then ask_price bbo else bid_price bbo) * leg_price_multiplier leg0 * sign leg0
        + spread_price_loop legs (<[(target - S i)%nat := x]> (zip_with (in_price side) legs bbos)) 0)
      by (rewrite <- spread_price_acc; reflexivity).
    rewrite E. destruct (abs_ratio leg0 =? 0); [done|].
    revert H. destruct (leg_is_buy leg0 side); (case_if as Ei; [|done]); intros H;
      apply (IH (S i) bbos _ _ Hok Hlen) with (leg := leg) in H; try done; try lia;
      rewrite <- H, sign_weight by done; lia.
Qed.

(** An implied-in price on the outright's tick that solves the equation
    exactly makes the spread price the order's price. *)
Lemma implied_in_solves st bbos target side spread_price tick lv leg :
  Forall leg_weighted st.(st_legs) → length st.(st_legs) = length bbos → st.(st_legs) !! target = Some leg →
  compute_implied_in st.(st_legs) bbos target side spread_price tick = Some lv →
  ∀ p, compute_spread_price st (<[target := p]> (zip_with (in_price side) st.(st_legs) bbos)) = spread_price →
  (tick | p) → lv.(il_price) = p ∧ lv.(il_side) = (if leg_is_buy leg side then Buy else Sell).
Proof.
  intros Hok Hlen Hleg H p Hp Htick. unfold compute_implied_in in H. destruct (sizes_differ _ _); [done|].
  rewrite Hleg in H. cbn [mbind option_bind] in H. destruct (Z.eqb_spec (leg_ratio leg) 0) as [|Hr]; [done|].
  destruct (Z.eqb_spec (price_weight leg) 0) as [|Hw]; [done|].
  destruct (in_loop 0 target side _ bbos 0 int64_max) as [[c q]|] eqn:E; [|done]. cbn in H.
  destruct (q <=? 0); [done|]. injection H as <-. cbn. split; [|done].
  pose proof (in_loop_ok _ _ _ _ _ _ _ _ _ p Hok Hlen E leg (Nat.le_0_l _)) as Hc. rewrite Nat.sub_0_r in Hc.
  unfold compute_spread_price in Hp. rewrite length_insert, length_zip_with, Hlen, Nat.min_id, Nat.eqb_refl in Hp.
  rewrite <- Hc in Hp by done. assert (Hwt : leg_weighted leg) by (eapply Forall_lookup_1; [exact Hok|exact Hleg]).
  pose proof (sign_weight leg p Hwt).
  replace (spread_price - c) with (p * (sign leg * price_weight leg)) by lia.
  assert (sign leg ≠ 0) by (unfold sign; case_if as Es; lia).
  rewrite Z.quot_mul by nia. by apply normalize_tick_id.
Qed.

(** A price off the tick is rounded toward zero, so a negative implied bid is
    quoted above what the legs pay: here -7 becomes -5. *)
Lemma negative_bid_rounds_up :
  compute_implied_out_bid [mkLeg 1 1 1 1 1; mkLeg 2 (-1) 1 1 1] [mkBBO 100 5 101 5; mkBBO 106 5 107 5] 5
    = Some (mkImplied (-5) 5 Buy ImpliedOut).
Proof. reflexivity. Qed.

(** [price_multiplier] is signed and the two price formulas treat a negative
    one differently. *)
Lemma negative_multiplier_differs :
  let st := mkStrategy InterCommodity [mkLeg 1 1 1 1 1; mkLeg 2 1 (-1) 1 1] 1 1 in
  let bbos := [mkBBO 100 5 101 5; mkBBO 40 5 41 5] in
  compute_spread_price st (out_prices Buy st.(st_legs) bbos) = 60 ∧
  compute_implied_out_bid st.(st_legs) bbos 1 = Some (mkImplied 140 5 Buy ImpliedOut).
Proof. by split. Qed.

(** The constructor divides by zero on a leg with neither lot nor ratio, before
    the registry could refuse it. *)
Lemma zero_leg_divides_by_zero type l1 l2 :
  make_strategy type (l1 ++ mkLeg 1 0 1 1 0 :: l2) 0 0 = None.
Proof.
  unfold make_strategy, compute_min_trade_qty. cbn [Z.gtb Z.compare].
  assert (H : ∀ m, min_qty_loop (l1 ++ mkLeg 1 0 1 1 0 :: l2) m = None).
  { induction l1 as [|leg l1 IH]; intros m; cbn; [done|]. by case_if as E. }
  destruct l1; cbn in *; by rewrite H.
Qed.

(** ** The guard *)

(** A propagation loop enters at most [depth] times, whatever its body signals. *)
Fixpoint entries_of (signals : list bool) (g : CircularGuard) : nat :=
  match signals with
  | [] => 0
  | conv :: signals' =>
      let '(g', ok) := enter g in
      if ok then S (entries_of signals' (if conv then mark_converged g' else g')) else 0
  end.

Lemma guard_bounds signals g : 0 <= g.(current_depth) <= g.(max_depth) →
  Z.of_nat (entries_of signals g) <= g.(max_depth) - g.(current_depth).
Proof.
  revert g. induction signals as [|conv signals IH]; intros g Hg; cbn; [lia|].
  unfold enter. destruct (converged g); cbn; [lia|]. rewrite Z.geb_leb. destruct (Z.leb_spec (max_depth g) (current_depth g)); cbn; [lia|].
  set (g1 := mkGuard (max_depth g) (current_depth g + 1) false).
  assert (H1 : 0 <= current_depth g1 <= max_depth g1) by (cbn; lia).
  destruct conv.
  - specialize (IH (mark_converged g1) H1). cbn in IH. lia.
  - specialize (IH g1 H1). cbn in IH. lia.
Qed.

Lemma guard_converged_stops signals g : converged g = true → entries_of signals g = 0%nat.
Proof. intros Hg. destruct signals; cbn; [done|]. unfold enter. by rewrite Hg. Qed.

(** ** The registry *)

Definition leg_admitted (validator : option (Z → bool)) (id : Z) (leg : StrategyLeg) : Prop :=
  leg_ok leg ∧ leg.(leg_instrument_id) ≠ id ∧ validator_rejects validator leg.(leg_instrument_id) = false.

Record strategy_admitted (validator : option (Z → bool)) (id : Z) (st : SpreadStrategy) : Prop := {
  sa_two_legs : (2 <= length st.(st_legs))%nat;
  sa_first : ∀ leg, st.(st_legs) !! 0%nat = Some leg → 0 < leg.(leg_ratio);
  sa_legs : Forall (leg_admitted validator id) st.(st_legs)
}.

Lemma leg_error_None validator id i leg : leg_error validator id i leg = None ↔ leg_admitted validator id leg.
Proof.
  unfold leg_error, leg_admitted, leg_ok.
  destruct (Z.eqb_spec (leg_ratio leg) 0); [split; [done|by intros [[] _]]|].
  destruct (Z.leb_spec (leg_tick_size leg) 0); [split; [done|intros [(_ & ? & _) _]; lia]|].
  destruct (Z.leb_spec (leg_lot_size leg) 0); [split; [done|intros [(_ & _ & ?) _]; lia]|].
  destruct (Z.eqb_spec (leg_instrument_id leg) id); [split; [done|by intros (_ & [] & _)]|].
  destruct (validator_rejects validator (leg_instrument_id leg)); [split; [done|by intros (_ & _ & [=])]|]. by split.
Qed.

Lemma legs_error_None validator id i legs :
  legs_error validator id i legs = None ↔ Forall (leg_admitted validator id) legs.
Proof.
  revert i. induction legs as [|leg legs IH]; intros i; cbn; [done|]. rewrite Forall_cons, <- (leg_error_None _ _ i leg).
  destruct (leg_error validator id i leg); [split; [done|by intros [[=] _]]|]. rewrite IH. tauto.
Qed.

(** [register_strategy] admits a strategy exactly if its id is new and it
    has at least two legs, the first of positive ratio, all of non-zero ratio
    and positive tick and lot, none of them the spread itself or unknown; it
    then finds the strategy under its id and every other as before, and on an
    error changes nothing. *)
Theorem register_exact id st r r' e :
  register_strategy id st r = (r', e) →
  (e = None ↔ lookup_strategy id r = None ∧ strategy_admitted r.(reg_validator) id st) ∧
  match e with
  | None => lookup_strategy id r' = Some st ∧ is_spread id r' = true ∧
            ∀ k, k ≠ id → lookup_strategy k r' = lookup_strategy k r ∧ is_spread k r' = is_spread k r
  | Some _ => r' = r
  end.
Proof.
  unfold register_strategy. intros H. assert (He : strategy_error r id st = None ↔
    lookup_strategy id r = None ∧ strategy_admitted r.(reg_validator) id st).
  { unfold strategy_error, lookup_strategy. destruct (reg_strategies r !! id); [split; [done|by intros []]|].
    destruct st.(st_legs) as [|leg [|leg' legs]] eqn:El.
    1,2: split; [done|intros [_ [H2 _ _]]; rewrite El in H2; cbn in H2; lia].
    destruct (Z.leb_spec (leg_ratio leg) 0).
    - split; [done|]. intros [_ [_ H2 _]]. rewrite El in H2. specialize (H2 leg eq_refl). lia.
    - rewrite legs_error_None. split.
      + intros Hl. split; [done|]. split; rewrite El; [cbn; lia| |done]. intros x [= <-]. done.
      + intros [_ [_ _ Hl]]. by rewrite El in Hl. }
  destruct (strategy_error r id st) as [e'|]; injection H as <- <-.
  - split; [by rewrite He|done].
  - split; [exact He|]. unfold lookup_strategy, is_spread. cbn. split_and!.
    + apply lookup_insert_eq.
    + apply bool_decide_eq_true_2. set_solver.
    + intros k Hk. split; [by apply lookup_insert_ne|]. apply bool_decide_ext. set_solver.
Qed.

Lemma strategy_tick_exact_witness :
  let legs := [mkLeg 1 1 1 25 1; mkLeg 2 (-1) 1 10 1] in
  ∃ st, make_strategy CalendarSpread legs 0 0 = Some st ∧ st.(st_tick_size) = 5 ∧
    (5 | compute_spread_price st [75; 20]).
Proof.
  eexists. split; [reflexivity|]. split; [reflexivity|].
  apply (strategy_tick_exact CalendarSpread [mkLeg 1 1 1 25 1; mkLeg 2 (-1) 1 10 1] 0 _ eq_refl); [done| |].
  - left. done.
  - repeat constructor; cbn; apply Znumtheory.Zmod_divide; done.
Defined.
