(* ===== verification/SpreadBook.v ===== *)
(** * The spread book: [spread_book.h]

    One spread instrument: its own book of spread orders and the outright
    instruments it trades against.  The outrights are reached through three
    callbacks only, which are the class [Outrights] over a state [W]; the
    callbacks are set together ([sb_wired]).

    The state of a [SpreadBook] is the record [spread_book].  As in [Engine],
    an [Order*] is a pool slot, pools are lists of free slots, listener calls
    are appended to [sb_trace] and methods are computations of the monad [M].
    [UB] stands for what the code may not do: an access through a null
    pointer, unlinking what is not linked, or reading an order that has been
    given back to its pool. *)

From S2P Require Import Prelude Types MatchAlgo Books Spread.

(** ** Interfaces and state *)

(** Template parameters. *)
Class SpreadParams : Type := {
  MaxSpreadOrders : nat;
  MaxSpreadLevels : nat;
  MaxSpreadOrderIds : Z
}.

(** [LegBBOProvider], [BestOrderIdProvider], [ImpliedFillApplier]. *)
Class Outrights (W : Type) : Type := {
  bbo_provider : W → Z → LegBBO;
  best_order_provider : W → Z → Side → option OrderId;
  fill_applier : Z → list LegFill → Timestamp → M W bool
}.

Record SpreadOrderRequest : Type := mkSpreadRequest {
  sr_client_order_id : Z;
  sr_account_id : Z;
  sr_side : Side;
  sr_tif : TimeInForce;
  sr_price : Price;
  sr_quantity : Quantity;
  sr_timestamp : Timestamp
}.

Record SpreadCancelRequest : Type := mkSpreadCancel {
  sc_order_id : OrderId;
  sc_timestamp : Timestamp
}.

Record SpreadModifyRequest : Type := mkSpreadModify {
  sm_order_id : OrderId;
  sm_client_order_id : Z;
  sm_new_price : Price;
  sm_new_quantity : Quantity;
  sm_timestamp : Timestamp
}.

Record spread_book (W : Type) : Type := mkSpreadBook {
  strategy : SpreadStrategy;
  spread_instrument_id : Z;
  sb_bids : list PriceLevel;
  sb_asks : list PriceLevel;
  sb_order_pool : list (loc * Order);
  sb_level_pool : list loc;
  sb_order_index : gmap Z loc;
  sb_next_order_id : OrderId;
  sb_wired : bool;
  sb_trace : list event;
  sb_world : W
}.
Arguments mkSpreadBook {W}.
Arguments strategy {W}.
Arguments spread_instrument_id {W}.
Arguments sb_bids {W}.
Arguments sb_asks {W}.
Arguments sb_order_pool {W}.
Arguments sb_level_pool {W}.
Arguments sb_order_index {W}.
Arguments sb_next_order_id {W}.
Arguments sb_wired {W}.
Arguments sb_trace {W}.
Arguments sb_world {W}.

(** Leg fills with the instruments they go to. *)
Abbreviation leg_batch := (list (Z * LegFill)).

Section spread_book_ops.
Context {W : Type} {params : SpreadParams} {outrights : Outrights W}.
Abbreviation SB := (M (spread_book W)).
Implicit Types (s : spread_book W) (ts : Timestamp) (e : entry) (l : loc) (side : Side).

Definition sb_levels side s : list PriceLevel :=
  match side with Buy => s.(sb_bids) | Sell => s.(sb_asks) end.
Definition put_levels side (v : list PriceLevel) s : spread_book W :=
  match side with
  | Buy => mkSpreadBook s.(strategy) s.(spread_instrument_id) v s.(sb_asks) s.(sb_order_pool) s.(sb_level_pool)
             s.(sb_order_index) s.(sb_next_order_id) s.(sb_wired) s.(sb_trace) s.(sb_world)
  | Sell => mkSpreadBook s.(strategy) s.(spread_instrument_id) s.(sb_bids) v s.(sb_order_pool) s.(sb_level_pool)
             s.(sb_order_index) s.(sb_next_order_id) s.(sb_wired) s.(sb_trace) s.(sb_world)
  end.
Definition put_order_pool (v : list (loc * Order)) s : spread_book W :=
  mkSpreadBook s.(strategy) s.(spread_instrument_id) s.(sb_bids) s.(sb_asks) v s.(sb_level_pool)
    s.(sb_order_index) s.(sb_next_order_id) s.(sb_wired) s.(sb_trace) s.(sb_world).
Definition put_level_pool (v : list loc) s : spread_book W :=
  mkSpreadBook s.(strategy) s.(spread_instrument_id) s.(sb_bids) s.(sb_asks) s.(sb_order_pool) v
    s.(sb_order_index) s.(sb_next_order_id) s.(sb_wired) s.(sb_trace) s.(sb_world).
Definition put_index (v : gmap Z loc) s : spread_book W :=
  mkSpreadBook s.(strategy) s.(spread_instrument_id) s.(sb_bids) s.(sb_asks) s.(sb_order_pool) s.(sb_level_pool)
    v s.(sb_next_order_id) s.(sb_wired) s.(sb_trace) s.(sb_world).
Definition put_next_id (v : OrderId) s : spread_book W :=
  mkSpreadBook s.(strategy) s.(spread_instrument_id) s.(sb_bids) s.(sb_asks) s.(sb_order_pool) s.(sb_level_pool)
    s.(sb_order_index) v s.(sb_wired) s.(sb_trace) s.(sb_world).
Definition put_trace (v : list event) s : spread_book W :=
  mkSpreadBook s.(strategy) s.(spread_instrument_id) s.(sb_bids) s.(sb_asks) s.(sb_order_pool) s.(sb_level_pool)
    s.(sb_order_index) s.(sb_next_order_id) s.(sb_wired) v s.(sb_world).
Definition put_world (v : W) s : spread_book W :=
  mkSpreadBook s.(strategy) s.(spread_instrument_id) s.(sb_bids) s.(sb_asks) s.(sb_order_pool) s.(sb_level_pool)
    s.(sb_order_index) s.(sb_next_order_id) s.(sb_wired) s.(sb_trace) v.

(** The constructor; [junk] is what the uninitialised order slots hold. *)
Definition make_spread_book (st : SpreadStrategy) (id : Z) (junk : loc → Order) (w : W) : spread_book W :=
  mkSpreadBook st id [] [] ((λ l, (l, junk l)) <$> seq 0 MaxSpreadOrders) (seq 0 MaxSpreadLevels) ∅ 1 false [] w.
(** [set_bbo_provider], [set_best_order_provider], [set_fill_applier]. *)
Definition set_callbacks s : spread_book W :=
  mkSpreadBook s.(strategy) s.(spread_instrument_id) s.(sb_bids) s.(sb_asks) s.(sb_order_pool) s.(sb_level_pool)
    s.(sb_order_index) s.(sb_next_order_id) true s.(sb_trace) s.(sb_world).

(** ** Elementary steps *)

Definition notify (ev : event) : SB unit := modify (λ s, put_trace (s.(sb_trace) ++ [ev]) s).
Definition allocate_order : SB (option entry) :=
  s ← get;
  match s.(sb_order_pool) with
  | [] => mret None
  | e :: free => modify (put_order_pool free) ;; mret (Some e)
  end.
Definition deallocate_order e : SB unit := modify (λ s, put_order_pool (e :: s.(sb_order_pool)) s).
Definition allocate_level : SB (option loc) :=
  s ← get;
  match s.(sb_level_pool) with
  | [] => mret None
  | l :: free => modify (put_level_pool free) ;; mret (Some l)
  end.
Definition deallocate_level l : SB unit := modify (λ s, put_level_pool (l :: s.(sb_level_pool)) s).
Definition index_set (id : OrderId) l : SB unit := modify (λ s, put_index (<[id := l]> s.(sb_order_index)) s).
Definition index_clear (id : OrderId) : SB unit := modify (λ s, put_index (delete id s.(sb_order_index)) s).

(** [freed = book_.remove_order(order); if (freed) level_pool_.deallocate(freed);] *)
Definition book_remove side l : SB Order :=
  s ← get;
  '(levels, o, freed) ← deref (Books.remove_order l (sb_levels side s));
  modify (put_levels side levels) ;;
  match freed with Some lv => deallocate_level lv | None => mret tt end ;;
  mret o.

(** The order an [Order*] points to, while it is in the book. *)
Definition load_order l s : option (Order * PriceLevel) :=
  match find_order l s.(sb_bids) with
  | Some x => Some x
  | None => find_order l s.(sb_asks)
  end.

(** [rest_order]: false if the order was dropped. *)
Definition rest_order e : SB bool :=
  new_level ← allocate_level;
  match new_level with
  | None =>
      index_clear e.2.(o_id) ;;
      deallocate_order e ;;
      mret false
  | Some slot =>
      s ← get;
      let '(levels, is_new) := Books.insert_order (book_before e.2.(o_side)) e slot (sb_levels e.2.(o_side) s) in
      modify (put_levels e.2.(o_side) levels) ;;
      (if is_new then mret tt else deallocate_level slot) ;;
      mret true
  end.

Definition remove_order l (o : Order) (reason : CancelReason) ts : SB unit :=
  _ ← book_remove o.(o_side) l;
  index_clear o.(o_id) ;;
  notify (OrderCancelled o.(o_id) ts reason) ;;
  deallocate_order (l, o).

Definition remove_order_no_book e (reason : CancelReason) ts : SB unit :=
  index_clear e.2.(o_id) ;;
  notify (OrderCancelled e.2.(o_id) ts reason) ;;
  deallocate_order e.

(** ** Matching spread orders against each other *)

Definition crosses (aggressor_side : Side) (aggressor_price resting_price : Price) : bool :=
  match aggressor_side with
  | Buy => resting_price <=? aggressor_price
  | Sell => resting_price >=? aggressor_price
  end.

Fixpoint crossing_qty (o : Order) (levels : list PriceLevel) (total : Quantity) : Quantity :=
  match levels with
  | [] => total
  | lv :: rest =>
      if crosses o.(o_side) o.(o_price) lv.(lv_price) then
        let total := total + lv.(lv_total_quantity) in
        if total >=? o.(o_remaining_quantity) then total else crossing_qty o rest total
      else total
  end.
Definition available_crossing_qty (o : Order) s : Quantity :=
  crossing_qty o (sb_levels (opposite o.(o_side)) s) 0.

(** [resting->next]. *)
Fixpoint next_entry l (q : list entry) : option loc :=
  match q with
  | [] => None
  | e :: q' => if (e.1 =? l)%nat then fst <$> head q' else next_entry l q'
  end.

(** The loop over one level, from [resting]. *)
Fixpoint match_level (fuel : nat) (agg : entry) (resting : option loc) ts : SB entry :=
  if agg.2.(o_remaining_quantity) <=? 0 then mret agg
  else
    match resting with
    | None => mret agg
    | Some l =>
        match fuel with
        | O => out_of_fuel
        | S fuel' =>
            let side := opposite agg.2.(o_side) in
            s ← get;
            '(r, lv) ← deref (find_order l (sb_levels side s));
            let fill_qty := Z.min agg.2.(o_remaining_quantity) r.(o_remaining_quantity) in
            let agg := (agg.1, fill_order fill_qty agg.2) in
            let r := fill_order fill_qty r in
            modify (put_levels side (update_order l (fill_order fill_qty) (add_total (- fill_qty)) (sb_levels side s))) ;;
            notify (if (agg.2.(o_remaining_quantity) =? 0) && (r.(o_remaining_quantity) =? 0)
                    then OrderFilled agg.2.(o_id) r.(o_id) r.(o_price) fill_qty ts
                    else OrderPartiallyFilled agg.2.(o_id) r.(o_id) r.(o_price) fill_qty
                           agg.2.(o_remaining_quantity) r.(o_remaining_quantity) ts) ;;
            let next := next_entry l lv.(lv_queue) in
            (if r.(o_remaining_quantity) =? 0 then
               _ ← book_remove side l;
               index_clear r.(o_id) ;;
               deallocate_order (l, r)
             else mret tt) ;;
            match_level fuel' agg next ts
        end
    end.

Fixpoint match_direct (fuel : nat) (agg : entry) ts : SB entry :=
  if agg.2.(o_remaining_quantity) <=? 0 then mret agg
  else
    s ← get;
    match sb_levels (opposite agg.2.(o_side)) s with
    | [] => mret agg
    | lv :: _ =>
        if crosses agg.2.(o_side) agg.2.(o_price) lv.(lv_price) then
          match fuel with
          | O => out_of_fuel
          | S fuel' =>
              agg ← match_level (length lv.(lv_queue)) agg (fst <$> head lv.(lv_queue)) ts;
              match_direct fuel' agg ts
          end
        else mret agg
    end.

(** ** Requests *)

Definition reject (client_order_id : Z) ts (reason : RejectReason) : SB OrderId :=
  notify (OrderRejected client_order_id ts reason) ;; mret 0.

Definition off_lot (st : SpreadStrategy) (q : Quantity) : bool :=
  (st.(st_lot_size) >? 0) && negb (Z.rem q st.(st_lot_size) =? 0).
Definition off_tick (st : SpreadStrategy) (price : Price) : bool :=
  (st.(st_tick_size) >? 0) && negb (price =? 0) &&
  negb (Z.rem (if price >=? 0 then price else - price) st.(st_tick_size) =? 0).
Definition tif_allowed (tif : TimeInForce) : bool :=
  match tif with GTC | DAY | IOC | FOK => true | GTD => false end.

Definition spread_order_of (id : OrderId) (req : SpreadOrderRequest) : Order :=
  mkOrder id req.(sr_client_order_id) req.(sr_account_id) req.(sr_price) req.(sr_quantity) 0 req.(sr_quantity)
    req.(sr_side) Limit req.(sr_tif) req.(sr_timestamp) 0 0 0 false false.

(** [new_order] from the point where the order is in the index. *)
Definition enter_order (e : entry) ts : SB unit :=
  let o := e.2 in
  s ← get;
  if bool_decide (o.(o_tif) = FOK) && (available_crossing_qty o s <? o.(o_remaining_quantity))
  then remove_order_no_book e FOKFailed ts
  else
    agg ← match_direct (S (length (entries (sb_levels (opposite o.(o_side)) s)))) e ts;
    if agg.2.(o_remaining_quantity) >? 0 then
      if bool_decide (o.(o_tif) = IOC) then remove_order_no_book agg IOCRemainder ts
      else (_ ← rest_order agg; mret tt)
    else
      index_clear agg.2.(o_id) ;;
      deallocate_order agg.

Definition new_order (req : SpreadOrderRequest) : SB OrderId :=
  let cl := req.(sr_client_order_id) in
  let ts := req.(sr_timestamp) in
  s ← get;
  if req.(sr_quantity) <=? 0 then reject cl ts InvalidQuantity
  else if off_lot s.(strategy) req.(sr_quantity) then reject cl ts InvalidQuantity
  else if off_tick s.(strategy) req.(sr_price) then reject cl ts InvalidPrice
  else if negb (tif_allowed req.(sr_tif)) then reject cl ts InvalidTif
  else
    slot ← allocate_order;
    match slot with
    | None => reject cl ts PoolExhausted
    | Some e =>
        s ← get;
        let id := s.(sb_next_order_id) in
        modify (put_next_id (id + 1)) ;;
        if id >=? MaxSpreadOrderIds then
          deallocate_order e ;;
          reject cl ts PoolExhausted
        else
          let o := spread_order_of id req in
          index_set id e.1 ;;
          notify (OrderAccepted id cl ts) ;;
          enter_order (e.1, o) ts ;;
          mret id
    end.

Definition id_in_range (id : OrderId) : bool := negb ((id =? 0) || (id >=? MaxSpreadOrderIds)).

Definition cancel_order (req : SpreadCancelRequest) : SB bool :=
  let id := req.(sc_order_id) in
  let ts := req.(sc_timestamp) in
  s ← get;
  if negb (id_in_range id) then mret false
  else
    match s.(sb_order_index) !! id with
    | None => notify (OrderCancelRejected id 0 ts UnknownOrder) ;; mret false
    | Some l =>
        '(o, _) ← deref (load_order l s);
        remove_order l o UserRequested ts ;;
        mret true
    end.

Definition modified_order (req : SpreadModifyRequest) (o : Order) : Order :=
  set_o_remaining_quantity (req.(sm_new_quantity) - o.(o_filled_quantity))
    (set_o_quantity req.(sm_new_quantity) (set_o_price req.(sm_new_price) o)).

Definition modify_order (req : SpreadModifyRequest) : SB bool :=
  let id := req.(sm_order_id) in
  let cl := req.(sm_client_order_id) in
  let ts := req.(sm_timestamp) in
  s ← get;
  if negb (id_in_range id) then mret false
  else
    match s.(sb_order_index) !! id with
    | None => notify (OrderModifyRejected id cl ts UnknownOrder) ;; mret false
    | Some l =>
        if off_tick s.(strategy) req.(sm_new_price)
        then notify (OrderModifyRejected id cl ts InvalidPrice) ;; mret false
        else if (req.(sm_new_quantity) <=? 0) || off_lot s.(strategy) req.(sm_new_quantity)
        then notify (OrderModifyRejected id cl ts InvalidQuantity) ;; mret false
        else
          '(o, _) ← deref (load_order l s);
          o ← book_remove o.(o_side) l;
          let o := modified_order req o in
          if o.(o_remaining_quantity) <=? 0 then
            index_clear o.(o_id) ;;
            deallocate_order (l, o) ;;
            notify (OrderCancelled id ts UserRequested) ;;
            mret true
          else
            let o := set_o_timestamp ts o in
            rested ← rest_order (l, o);
            if rested : bool then
              notify (OrderModified o.(o_id) cl req.(sm_new_price) req.(sm_new_quantity) ts) ;;
              mret true
            else ub
    end.

(** ** Matching against the outrights *)

Definition gather_leg_bbos s : list LegBBO :=
  (λ leg, bbo_provider s.(sb_world) leg.(leg_instrument_id)) <$> s.(strategy).(st_legs).

(** The leg fills of an implied-out match, from leg [i]. *)
Fixpoint out_batch (st : SpreadStrategy) (w : W) (implied_side : Side) (fill_qty : Quantity) (i : nat)
    (legs : list StrategyLeg) (bbos : list LegBBO) : option leg_batch :=
  match legs, bbos with
  | leg :: legs', bbo :: bbos' =>
      let resting_side := out_resting_side implied_side leg in
      best_id ← best_order_provider w leg.(leg_instrument_id) resting_side;
      rest ← out_batch st w implied_side fill_qty (S i) legs' bbos';
      Some ((leg.(leg_instrument_id), mkLegFill best_id (bbo_price resting_side bbo) (leg_quantity st i fill_qty)) :: rest)
  | _, _ => Some []
  end.

(** [fill_applier_], leg by leg. *)
Fixpoint apply_legs (batch : leg_batch) ts : SB bool :=
  match batch with
  | [] => mret true
  | (instr_id, fill) :: rest =>
      s ← get;
      match fill_applier instr_id [fill] ts s.(sb_world) with
      | Ok (true, w) => modify (put_world w) ;; apply_legs rest ts
      | Ok (false, w) => modify (put_world w) ;; mret false
      | Fuel => out_of_fuel
      | UB => ub
      end
  end.

(** The spread order at [l] is filled at its own price. *)
Definition fill_spread_order side l (fill_qty : Quantity) ts : SB unit :=
  s ← get;
  '(o, _) ← deref (find_order l (sb_levels side s));
  let o := fill_order fill_qty o in
  modify (put_levels side (update_order l (fill_order fill_qty) (add_total (- fill_qty)) (sb_levels side s))) ;;
  if o.(o_remaining_quantity) =? 0 then
    notify (OrderFilled o.(o_id) o.(o_id) o.(o_price) fill_qty ts) ;;
    _ ← book_remove side l;
    index_clear o.(o_id) ;;
    deallocate_order (l, o)
  else
    notify (OrderPartiallyFilled o.(o_id) o.(o_id) o.(o_price) fill_qty o.(o_remaining_quantity)
              o.(o_remaining_quantity) ts).

Definition align_lot (st : SpreadStrategy) (q : Quantity) : Quantity :=
  if st.(st_lot_size) >? 0 then Z.quot q st.(st_lot_size) * st.(st_lot_size) else q.

(** One iteration of [match_implied_out_side]: was a spread order filled? *)
Definition implied_out_step (implied_side : Side) (bbos : list LegBBO) ts : SB bool :=
  s ← get;
  let st := s.(strategy) in
  match compute_implied_out implied_side st.(st_legs) bbos st.(st_tick_size), sb_levels (opposite implied_side) s with
  | Some implied, lv :: _ =>
      let does_cross := match implied_side with
                        | Buy => implied.(il_price) >=? lv.(lv_price)
                        | Sell => implied.(il_price) <=? lv.(lv_price)
                        end in
      match lv.(lv_queue) with
      | (l, spread_order) :: _ =>
          let fill_qty := align_lot st (Z.min implied.(il_quantity) spread_order.(o_remaining_quantity)) in
          if negb does_cross || (fill_qty <=? 0) then mret false
          else
            match out_batch st s.(sb_world) implied_side fill_qty 0 st.(st_legs) bbos with
            | None => mret false
            | Some batch =>
                all_applied ← apply_legs batch ts;
                if all_applied : bool then
                  fill_spread_order (opposite implied_side) l fill_qty ts ;;
                  mret true
                else mret false
            end
      | [] => mret false
      end
  | _, _ => mret false
  end.

Fixpoint match_implied_out_side (fuel : nat) (implied_side : Side) (bbos : list LegBBO) ts (fills : Z) : SB Z :=
  match fuel with
  | O => out_of_fuel
  | S fuel' =>
      filled ← implied_out_step implied_side bbos ts;
      if filled : bool then
        s ← get;
        match_implied_out_side fuel' implied_side (gather_leg_bbos s) ts (fills + 1)
      else mret fills
  end.

(** What the resting orders of a side can still trade: the loops below fill at
    least one lot per iteration. *)
Definition resting_quantity side s : nat :=
  Z.to_nat (sum_by (λ e : entry, e.2.(o_remaining_quantity)) (entries (sb_levels side s))).

Definition on_outright_bbo_change ts : SB Z :=
  s ← get;
  if negb s.(sb_wired) then mret 0
  else
    let bbos := gather_leg_bbos s in
    fills ← match_implied_out_side (S (resting_quantity Sell s)) Buy bbos ts 0;
    s ← get;
    let bbos := if fills >? 0 then gather_leg_bbos s else bbos in
    fills' ← match_implied_out_side (S (resting_quantity Buy s)) Sell bbos ts 0;
    mret (fills + fills').

(** The legs of an implied-in match: the quantity so far and the batch, whose
    quantities are set at the end. *)
Fixpoint in_batch (w : W) (spread_side : Side) (min_spread_qty : Quantity) (legs : list StrategyLeg)
    (bbos : list LegBBO) : option (Quantity * list (Z * OrderId * Price)) :=
  match legs, bbos with
  | leg :: legs', bbo :: bbos' =>
      let resting_side := opposite (leg_side leg spread_side) in
      best_id ← best_order_provider w leg.(leg_instrument_id) resting_side;
      if abs_ratio leg =? 0 then None
      else
        let min_spread_qty := Z.min min_spread_qty (Z.quot (bbo_qty resting_side bbo) (abs_ratio leg)) in
        '(q, rest) ← in_batch w spread_side min_spread_qty legs' bbos';
        Some (q, (leg.(leg_instrument_id), best_id, bbo_price resting_side bbo) :: rest)
  | _, _ => Some (min_spread_qty, [])
  end.

Definition with_quantities (st : SpreadStrategy) (q : Quantity) (batch : list (Z * OrderId * Price)) : leg_batch :=
  imap (λ i x, (x.1.1, mkLegFill x.1.2 x.2 (leg_quantity st i q))) batch.

Definition implied_in_step (spread_side : Side) ts : SB bool :=
  s ← get;
  let st := s.(strategy) in
  match sb_levels spread_side s with
  | lv :: _ =>
      match lv.(lv_queue) with
      | (l, spread_order) :: _ =>
          let bbos := gather_leg_bbos s in
          match in_batch s.(sb_world) spread_side spread_order.(o_remaining_quantity) st.(st_legs) bbos with
          | None => mret false
          | Some (min_qty, batch) =>
              if min_qty <=? 0 then mret false
              else
                let min_qty := align_lot st min_qty in
                if min_qty <=? 0 then mret false
                else
                  let actual_spread_price := compute_spread_price st (snd <$> batch) in
                  let price_ok := match spread_side with
                                  | Buy => actual_spread_price <=? spread_order.(o_price)
                                  | Sell => actual_spread_price >=? spread_order.(o_price)
                                  end in
                  if negb price_ok then mret false
                  else
                    all_applied ← apply_legs (with_quantities st min_qty batch) ts;
                    if all_applied : bool then
                      fill_spread_order spread_side l min_qty ts ;;
                      mret true
                    else mret false
          end
      | [] => mret false
      end
  | [] => mret false
  end.

Fixpoint match_implied_in_side (fuel : nat) (spread_side : Side) ts (fills : Z) : SB Z :=
  match fuel with
  | O => out_of_fuel
  | S fuel' =>
      filled ← implied_in_step spread_side ts;
      if filled : bool then match_implied_in_side fuel' spread_side ts (fills + 1) else mret fills
  end.

Definition try_implied_in ts : SB Z :=
  s ← get;
  if negb s.(sb_wired) then mret 0
  else
    fills ← match_implied_in_side (S (resting_quantity Buy s)) Buy ts 0;
    s ← get;
    fills' ← match_implied_in_side (S (resting_quantity Sell s)) Sell ts 0;
    mret (fills + fills').

(** ** Accessors *)

Definition get_order (id : OrderId) s : option loc :=
  if id_in_range id then s.(sb_order_index) !! id else None.

End spread_book_ops.
