(* ===== verification/SpreadInvariant.v ===== *)
(** * The invariant of the spread book

    [sinv fl s]: both sides are sorted and their totals are right, every order
    slot is in exactly one of the sides, the pool or the list [fl] of orders
    being worked on, every level slot likewise, and the order index points to
    exactly the live orders.  The rules below say how the steps of
    [SpreadBook] move it. *)

From S2P Require Import Prelude Types MatchAlgo MatchAlgoFacts Books Spread SpreadBook.

#[global] Instance book_before_price_order side : PriceOrder (book_before side).
Proof. destruct side; apply _. Qed.

(** What rests on a side. *)
Definition spread_resting (side : Side) (p : Price) (o : Order) : Prop :=
  o.(o_side) = side ∧ o.(o_price) = p ∧ 0 < o.(o_remaining_quantity).

Section invariant.
Context {W : Type} {params : SpreadParams}.
Implicit Types (s : spread_book W) (fl : list entry) (side : Side) (l : loc) (o : Order).

Definition spread_keys s : list (loc * OrderId) := keys s.(sb_bids) ++ keys s.(sb_asks).

Record sinv (fl : list entry) s : Prop := {
  si_sides : ∀ side, side_ok (book_before side) (spread_resting side) (sb_levels side s);
  si_orders : (spread_keys s).*1 ++ fl.*1 ++ s.(sb_order_pool).*1 ≡ₚ seq 0 MaxSpreadOrders;
  si_levels : slots s.(sb_bids) ++ slots s.(sb_asks) ++ s.(sb_level_pool) ≡ₚ seq 0 MaxSpreadLevels;
  si_index : ∀ id l, s.(sb_order_index) !! id = Some l ↔ (l, id) ∈ spread_keys s ++ (key <$> fl);
  si_ids : ∀ id l, s.(sb_order_index) !! id = Some l → 0 < id < s.(sb_next_order_id) ∧ id < MaxSpreadOrderIds;
  si_next : 1 <= s.(sb_next_order_id)
}.

(** *** One side and the other *)

Lemma spread_keys_at side s : spread_keys s ≡ₚ keys (sb_levels side s) ++ keys (sb_levels (opposite side) s).
Proof. unfold spread_keys. destruct side; cbn; [done|apply Permutation_app_comm]. Qed.

Lemma sb_levels_put side v s : sb_levels side (put_levels side v s) = v.
Proof. by destruct side. Qed.
Lemma sb_levels_put_opp side v s : sb_levels (opposite side) (put_levels side v s) = sb_levels (opposite side) s.
Proof. by destruct side. Qed.
Lemma sb_levels_put_opp' side v s : sb_levels side (put_levels (opposite side) v s) = sb_levels side s.
Proof. by destruct side. Qed.

(** Rebuild the invariant after one side, the pools and the index have changed. *)
Lemma sinv_put side v fl fl' s pool lpool idx nid :
  sinv fl s → side_ok (book_before side) (spread_resting side) v →
  (keys v).*1 ++ (keys (sb_levels (opposite side) s)).*1 ++ fl'.*1 ++ pool.*1 ≡ₚ seq 0 MaxSpreadOrders →
  slots v ++ slots (sb_levels (opposite side) s) ++ lpool ≡ₚ seq 0 MaxSpreadLevels →
  (∀ id l, idx !! id = Some l ↔ (l, id) ∈ keys v ++ keys (sb_levels (opposite side) s) ++ (key <$> fl')) →
  (∀ id l, idx !! id = Some l → 0 < id < nid ∧ id < MaxSpreadOrderIds) → 1 <= nid →
  sinv fl' (put_order_pool pool (put_level_pool lpool (put_index idx (put_next_id nid (put_levels side v s))))).
Proof.
  intros [Hs Ho Hl Hi Hid Hn] Hv Ho' Hl' Hi' Hid' Hn'. split; cbn; [| | | |done|done].
  - intros side'. pose proof (Hs side') as Hs'. destruct side, side'; first [exact Hv|exact Hs'].
  - rewrite <- Ho'. destruct side; unfold spread_keys; cbn; rewrite fmap_app; solve_Permutation.
  - rewrite <- Hl'. destruct side; cbn; solve_Permutation.
  - intros id l. rewrite Hi'. apply elem_of_perm. destruct side; unfold spread_keys; cbn; solve_Permutation.
Qed.

Lemma sinv_orders_at side fl s : sinv fl s →
  (keys (sb_levels side s)).*1 ++ (keys (sb_levels (opposite side) s)).*1 ++ fl.*1 ++ s.(sb_order_pool).*1
    ≡ₚ seq 0 MaxSpreadOrders.
Proof. intros H. rewrite <- (si_orders _ _ H), (spread_keys_at side s), fmap_app. solve_Permutation. Qed.

Lemma sinv_slots_at side fl s : sinv fl s →
  slots (sb_levels side s) ++ slots (sb_levels (opposite side) s) ++ s.(sb_level_pool) ≡ₚ seq 0 MaxSpreadLevels.
Proof. intros H. rewrite <- (si_levels _ _ H). destruct side; cbn; solve_Permutation. Qed.

Lemma sinv_index_at side fl s id l : sinv fl s →
  s.(sb_order_index) !! id = Some l ↔
    (l, id) ∈ keys (sb_levels side s) ++ keys (sb_levels (opposite side) s) ++ (key <$> fl).
Proof. intros H. rewrite (si_index _ _ H), (spread_keys_at side s), <- app_assoc. done. Qed.

Lemma sinv_locs side fl s : sinv fl s → NoDup (keys (sb_levels side s)).*1.
Proof.
  intros H. pose proof (NoDup_seq 0 MaxSpreadOrders) as Hnd. rewrite <- (sinv_orders_at side fl s H) in Hnd.
  by apply NoDup_app in Hnd as [? _].
Qed.

Lemma sinv_flight_fresh e fl s : sinv (e :: fl) s → e.1 ∉ (spread_keys s ++ (key <$> fl)).*1.
Proof.
  intros H. pose proof (NoDup_seq 0 MaxSpreadOrders) as Hnd. rewrite <- (si_orders _ _ H) in Hnd.
  assert (Hp : (spread_keys s).*1 ++ (e :: fl).*1 ++ s.(sb_order_pool).*1
                 ≡ₚ e.1 :: (spread_keys s ++ (key <$> fl)).*1 ++ s.(sb_order_pool).*1).
  { rewrite fmap_app, <- (list_fmap_compose key fst). cbn. solve_Permutation. }
  rewrite Hp in Hnd. apply NoDup_cons in Hnd as [Hni _]. rewrite elem_of_app in Hni. tauto.
Qed.

(** *** Moves *)

Lemma sinv_update side v fl s :
  sinv fl s → side_ok (book_before side) (spread_resting side) v →
  keys v ≡ₚ keys (sb_levels side s) → slots v ≡ₚ slots (sb_levels side s) → sinv fl (put_levels side v s).
Proof.
  intros H Hv Hk Hs.
  assert (Hr : sinv fl (put_order_pool s.(sb_order_pool) (put_level_pool s.(sb_level_pool)
    (put_index s.(sb_order_index) (put_next_id s.(sb_next_order_id) (put_levels side v s)))))).
  { apply (sinv_put side v fl fl s); [done|done| | | |apply H|apply H].
    - rewrite Hk. by apply sinv_orders_at.
    - rewrite Hs. by eapply sinv_slots_at.
    - intros id l. rewrite Hk. by apply sinv_index_at. }
  by destruct side.
Qed.

Lemma sinv_detach side l v o o' freed fl s :
  sinv fl s → Books.remove_order l (sb_levels side s) = Some (v, o, freed) → o_id o' = o_id o →
  sinv ((l, o') :: fl)
    (put_level_pool ((match freed with Some lv => [lv] | None => [] end) ++ s.(sb_level_pool)) (put_levels side v s)).
Proof.
  intros H Hr Hid. pose proof (si_sides _ _ H side) as Hok.
  pose proof (remove_order_keys _ _ _ _ _ _ (so_levels _ _ _ Hok) Hr) as Hk.
  pose proof (remove_order_slots _ _ _ _ _ Hr) as Hs. pose proof (remove_order_ok _ _ _ _ _ _ _ Hr Hok) as Hv.
  set (lp := _ ++ s.(sb_level_pool)).
  assert (Hr' : sinv ((l, o') :: fl) (put_order_pool s.(sb_order_pool) (put_level_pool lp
    (put_index s.(sb_order_index) (put_next_id s.(sb_next_order_id) (put_levels side v s)))))).
  { apply (sinv_put side v fl ((l, o') :: fl) s); [done|done| | | |apply H|apply H].
    - rewrite <- (sinv_orders_at side fl s H), Hk. cbn. solve_Permutation.
    - rewrite <- (sinv_slots_at side fl s H), Hs. unfold lp. destruct freed; cbn; solve_Permutation.
    - intros id k. rewrite (sinv_index_at side fl s id k H), Hk. apply elem_of_perm. cbn.
      replace (key (l, o')) with (key (l, o)) by (unfold key; cbn; congruence). solve_Permutation. }
  by destruct side.
Qed.

Lemma sinv_attach side e slot lp fl s v new :
  sinv (e :: fl) s → s.(sb_level_pool) = slot :: lp →
  Books.insert_order (book_before side) e slot (sb_levels side s) = (v, new) →
  spread_resting side e.2.(o_price) e.2 →
  sinv fl (put_level_pool (if new then lp else slot :: lp) (put_levels side v s)).
Proof.
  intros H Hlp Hi HP. pose proof (si_sides _ _ H side) as Hok.
  pose proof (insert_order_keys _ _ _ _ _ _ Hi) as Hk. pose proof (insert_order_slots _ _ _ _ _ _ Hi) as Hs.
  pose proof (insert_order_ok _ _ _ _ _ _ _ Hi Hok HP) as Hv.
  assert (Hr' : sinv fl (put_order_pool s.(sb_order_pool) (put_level_pool (if new then lp else slot :: lp)
    (put_index s.(sb_order_index) (put_next_id s.(sb_next_order_id) (put_levels side v s)))))).
  { apply (sinv_put side v (e :: fl) fl s); [done|done| | | |apply H|apply H].
    - rewrite <- (sinv_orders_at side _ s H), Hk. cbn. solve_Permutation.
    - rewrite <- (sinv_slots_at side _ s H), Hs, Hlp. destruct new; cbn; solve_Permutation.
    - intros id k. rewrite (sinv_index_at side _ s id k H), Hk. apply elem_of_perm. cbn. solve_Permutation. }
  by destruct side.
Qed.

(** The order worked on may change, its identifier excepted. *)
Lemma sinv_flight e e' fl s : sinv (e :: fl) s → e'.1 = e.1 → o_id e'.2 = o_id e.2 → sinv (e' :: fl) s.
Proof.
  intros [H1 H2 H3 H4 H5 H6] He Hid. split; try done.
  - cbn in *. by rewrite He.
  - intros id l. rewrite H4. cbn. by replace (key e') with (key e) by (unfold key; congruence).
Qed.

Lemma sinv_drop e e' fl s : sinv (e :: fl) s → e'.1 = e.1 →
  sinv fl (put_order_pool (e' :: s.(sb_order_pool)) (put_index (delete e.2.(o_id) s.(sb_order_index)) s)).
Proof.
  intros H He. pose proof (sinv_flight_fresh _ _ _ H) as Hfresh.
  destruct H as [H1 H2 H3 H4 H5 H6]. split; try done; cbn.
  - rewrite <- H2. unfold spread_keys. cbn. rewrite He. solve_Permutation.
  - intros id l. rewrite lookup_delete_Some, H4. unfold spread_keys. cbn. fold (spread_keys s).
    rewrite !elem_of_app, elem_of_cons. split.
    + intros [Hne [?|[[=]|?]]]; [by left| |by right]. by destruct Hne.
    + intros Hin. split; [|tauto]. intros <-. apply Hfresh.
      assert (Hl : s.(sb_order_index) !! o_id e.2 = Some l).
      { apply H4. cbn. rewrite elem_of_app, elem_of_cons. tauto. }
      assert (He1 : s.(sb_order_index) !! o_id e.2 = Some e.1).
      { apply H4. cbn. rewrite elem_of_app, elem_of_cons. right. by left. }
      assert (l = e.1) as -> by congruence. apply list_elem_of_fmap. exists (e.1, o_id e.2). split; [done|].
      rewrite elem_of_app. tauto.
  - intros id l. rewrite lookup_delete_Some. intros [_ Hl]. by apply (H5 id l).
Qed.

Lemma sinv_allocate l stale o pool fl s nid :
  sinv fl s → s.(sb_order_pool) = (l, stale) :: pool → s.(sb_next_order_id) <= o_id o < nid →
  o_id o < MaxSpreadOrderIds →
  sinv ((l, o) :: fl) (put_index (<[o_id o := l]> s.(sb_order_index)) (put_next_id nid (put_order_pool pool s))).
Proof.
  intros [H1 H2 H3 H4 H5 H6] Hp Hid Hmax. split; try done; cbn.
  - rewrite <- H2, Hp. cbn. unfold spread_keys. cbn. solve_Permutation.
  - intros id k. assert (Hnone : s.(sb_order_index) !! o_id o = None).
    { destruct (s.(sb_order_index) !! o_id o) as [k'|] eqn:E; [|done]. apply H5 in E. lia. }
    unfold spread_keys. cbn. fold (spread_keys s). rewrite lookup_insert_Some, H4, !elem_of_app, elem_of_cons.
    unfold key at 2. cbn. split.
    + intros [[<- <-]|[_ ?]]; [by right; left|tauto].
    + intros Hin. destruct (decide (id = o_id o)) as [->|Hne].
      * left. split; [done|]. destruct Hin as [Hin|[[= ->]|Hin]]; [| done|];
          exfalso; assert (Hs : s.(sb_order_index) !! o_id o = Some k) by (apply H4; rewrite elem_of_app; tauto); congruence.
      * right. split; [done|]. destruct Hin as [Hin|[[= -> ->]|Hin]]; [tauto|done|tauto].
  - intros id k. rewrite lookup_insert_Some. intros [[<- _]|[_ Hk]]; [lia|]. apply H5 in Hk. lia.
  - lia.
Qed.

(** A slot goes back unused; identifiers only grow. *)
Lemma sinv_next fl s nid : sinv fl s → s.(sb_next_order_id) <= nid → sinv fl (put_next_id nid s).
Proof. intros [H1 H2 H3 H4 H5 H6] Hn. split; try done; [|cbn; lia]. intros id l Hl. cbn in *. apply H5 in Hl. lia. Qed.

Lemma sinv_trace fl s t : sinv fl s → sinv fl (put_trace t s).
Proof. by intros [H1 H2 H3 H4 H5 H6]. Qed.
Lemma sinv_world fl s w : sinv fl s → sinv fl (put_world w s).
Proof. by intros [H1 H2 H3 H4 H5 H6]. Qed.

(** The constructor establishes it. *)
Lemma sinv_init st id junk (w : W) : sinv [] (make_spread_book st id junk w).
Proof.
  split; cbn; [|..|done].
  - intros []; split; constructor.
  - rewrite <- list_fmap_compose. by rewrite list_fmap_id.
  - done.
  - intros i l. by rewrite lookup_empty, elem_of_nil.
  - intros i l. by rewrite lookup_empty.
Qed.

(** *** Finding orders *)

Lemma sinv_find side l fl s o lv : sinv fl s → find_order l (sb_levels side s) = Some (o, lv) →
  load_order l s = Some (o, lv) ∧ spread_resting side lv.(lv_price) o ∧ (l, o) ∈ lv.(lv_queue) ∧
  ∃ v freed, Books.remove_order l (sb_levels side s) = Some (v, o, freed).
Proof.
  intros H Hf. pose proof (find_order_Some _ _ _ _ Hf) as [Hlv Hin].
  assert (Hl : l ∈ (keys (sb_levels side s)).*1).
  { destruct (decide (l ∈ (keys (sb_levels side s)).*1)) as [|Hni]; [done|]. apply find_order_None in Hni. congruence. }
  split_and!; [|..|done|].
  - pose proof (NoDup_seq 0 MaxSpreadOrders) as Hnd. rewrite <- (sinv_orders_at side fl s H) in Hnd.
    apply NoDup_app in Hnd as (_ & Hd & _). specialize (Hd l Hl). rewrite elem_of_app in Hd.
    unfold load_order. destruct side; cbn in *; [by rewrite Hf|].
    rewrite (proj2 (find_order_None l s.(sb_bids))) by tauto. exact Hf.
  - destruct (si_sides _ _ H side) as [_ Hlvs]. rewrite Forall_forall in Hlvs. destruct (Hlvs lv Hlv) as [_ _ _ Ho].
    rewrite Forall_forall in Ho. by apply (Ho _ Hin).
  - destruct (Books.remove_order l (sb_levels side s)) as [[[v o'] freed]|] eqn:Hr.
    + destruct (remove_order_find _ _ _ _ _ Hr) as [lv' Hf']. exists v, freed. congruence.
    + by apply remove_order_None in Hr.
Qed.

Lemma sinv_indexed s id l : sinv [] s → s.(sb_order_index) !! id = Some l →
  ∃ side o lv, find_order l (sb_levels side s) = Some (o, lv) ∧ o_id o = id.
Proof.
  intros H Hi. apply (si_index _ _ H) in Hi. rewrite app_nil_r in Hi. unfold spread_keys in Hi.
  assert (Hs : ∃ side, (l, id) ∈ keys (sb_levels side s)).
  { apply elem_of_app in Hi as [?|?]; [by exists Buy|by exists Sell]. }
  destruct Hs as [side Hk]. pose proof (sinv_locs side [] s H) as Hnd. unfold keys in Hk.
  apply list_elem_of_fmap in Hk as ([l' o] & [= -> ->] & He). apply list_elem_of_bind in He as (lv & Hin & Hlv).
  exists side, o, lv. split; [|done]. by apply find_order_elem.
Qed.
End invariant.
