(* ===== verification/SpreadMatching.v ===== *)
(** * Matching in the spread book

    Total-correctness rules for [match_level], [match_direct],
    [fill_spread_order] and [rest_order]: from a state that satisfies [sinv]
    they return, re-establish it, and their effect is a [fills] of some
    quantity. *)

From S2P Require Import Prelude Types MatchAlgo MatchAlgoFacts Books Spread SpreadBook SpreadInvariant.

(** Quantity a list of events reports as filled. *)
Definition filled_qty (evs : list event) : Quantity :=
  sum_by (λ ev, match ev with
                | OrderFilled _ _ _ q _ | OrderPartiallyFilled _ _ _ q _ _ _ => q
                | _ => 0
                end) evs.

Section matching.
Context {W : Type} {params : SpreadParams}.
Implicit Types (s : spread_book W) (fl : list entry) (side : Side) (l : loc) (o r : Order) (e : entry).

(** What rests on a side at the prices [f] selects. *)
Definition resting_at (f : Price → bool) side s : Quantity :=
  sum_by (λ e : entry, if f e.2.(o_price) then e.2.(o_remaining_quantity) else 0) (entries (sb_levels side s)).

(** [t] has been filled on [side], at prices that satisfy [ok], and nothing
    else has changed. *)
Record fills (ok : Price → Prop) (side : Side) (t : Quantity) s s' : Prop := {
  fs_total : ∀ f, (∀ p, ok p → f p = true) → resting_at f side s' = resting_at f side s - t;
  fs_other : sb_levels (opposite side) s' = sb_levels (opposite side) s;
  fs_prices : prices (sb_levels side s') ⊆ prices (sb_levels side s);
  fs_trace : ∃ evs, s'.(sb_trace) = s.(sb_trace) ++ evs ∧ filled_qty evs = t;
  fs_pool : s.(sb_level_pool) ≠ [] → s'.(sb_level_pool) ≠ [];
  fs_next : s'.(sb_next_order_id) = s.(sb_next_order_id);
  fs_strategy : s'.(strategy) = s.(strategy);
  fs_wired : s'.(sb_wired) = s.(sb_wired);
  fs_world : s'.(sb_world) = s.(sb_world)
}.

Lemma fills_refl ok side s : fills ok side 0 s s.
Proof. split; try done; [intros; lia|]. exists []. by rewrite app_nil_r. Qed.

Lemma fills_trans ok side t1 t2 s s1 s2 :
  fills ok side t1 s s1 → fills ok side t2 s1 s2 → fills ok side (t1 + t2) s s2.
Proof.
  intros [H1 H2 H3 (ev1 & H4 & H4') H5 H6 H7 H8 H9] [K1 K2 K3 (ev2 & K4 & K4') K5 K6 K7 K8 K9].
  split; try congruence; [|set_solver| |auto].
  { intros f Hf. rewrite K1, H1 by done. lia. }
  exists (ev1 ++ ev2). unfold filled_qty in *.
  by rewrite K4, H4, app_assoc, sum_by_app, H4', K4'.
Qed.

Lemma fills_mono (ok ok' : Price → Prop) side t s s' :
  (∀ p, ok p → ok' p) → fills ok side t s s' → fills ok' side t s s'.
Proof. intros Hok [H1 H2 H3 H4 H5 H6 H7 H8 H9]. split; try done. intros f Hf. apply H1. auto. Qed.

Lemma side_ok_head before P lv rest : side_ok before P (lv :: rest) → lv_ok P lv ∧ side_ok before P rest.
Proof.
  intros [Hs Hl]. apply Forall_cons in Hl as [Hlv Hl]. split; [done|]. split; [|done].
  unfold prices in *. cbn in Hs. by apply StronglySorted_inv in Hs as [Hs _].
Qed.

(** *** The first order of the best level *)

Section first_order.
Context (side : Side) (lv : PriceLevel) (rest : list PriceLevel) (l : loc) (r : Order) (q : list entry).
Context (fl : list entry) (s : spread_book W).
Hypothesis (Hinv : sinv fl s).
Hypothesis (Hlevels : sb_levels side s = lv :: rest).
Hypothesis (Hqueue : lv.(lv_queue) = (l, r) :: q).

Lemma first_found : find_order l (sb_levels side s) = Some (r, lv).
Proof using Hlevels Hqueue. rewrite Hlevels. apply find_order_head. rewrite Hqueue. cbn. by rewrite Nat.eqb_refl. Qed.

Lemma first_resting : spread_resting side lv.(lv_price) r.
Proof using Hinv Hlevels Hqueue. by destruct (sinv_find _ _ _ _ _ _ Hinv first_found) as (_ & ? & _). Qed.

Lemma first_fresh : l ∉ q.*1.
Proof using Hinv Hlevels Hqueue.
  pose proof (sinv_locs side fl s Hinv) as Hnd. rewrite Hlevels, keys_cons, Hqueue, fmap_app in Hnd. cbn in Hnd.
  apply NoDup_cons in Hnd as [Hni _]. rewrite <- list_fmap_compose in Hni. apply not_elem_of_app in Hni as [Hni _]. exact Hni.
Qed.

(** The side once the first order has left. *)
Definition without_first : list PriceLevel :=
  match q with
  | [] => rest
  | _ => mkLevel lv.(lv_slot) lv.(lv_price) (lv.(lv_total_quantity) - r.(o_remaining_quantity))
           (lv.(lv_order_count) - 1) q :: rest
  end.

Lemma first_removed : Books.remove_order l (sb_levels side s) =
  Some (without_first, r, match q with [] => Some lv.(lv_slot) | _ => None end).
Proof using Hinv Hlevels Hqueue.
  pose proof (si_sides _ _ Hinv side) as Hok. rewrite Hlevels in *. apply side_ok_head in Hok as [[_ Hc _ _] _].
  assert (Hr : remove_entry l lv.(lv_queue) = q) by (rewrite Hqueue; cbn; by rewrite Nat.eqb_refl).
  cbn [Books.remove_order]. rewrite Hqueue at 1. cbn [find_entry]. rewrite Nat.eqb_refl. unfold detach_order, without_first.
  cbn [lv_order_count]. rewrite Hr, Hc, Hqueue. destruct q as [|e q']; cbn [length]; [done|].
  rewrite (proj2 (Z.eqb_neq _ _)) by lia. done.
Qed.

(** A part of it is filled. *)
Lemma first_partial x t : 0 < x < r.(o_remaining_quantity) → filled_qty t = x →
  let v := update_order l (fill_order x) (add_total (- x)) (sb_levels side s) in
  let s' := put_trace (s.(sb_trace) ++ t) (put_levels side v s) in
  sinv fl s' ∧ fills (eq lv.(lv_price)) side x s s'.
Proof using Hinv Hlevels Hqueue.
  intros Hx Ht v s'. pose proof (sinv_locs side fl s Hinv) as Hnd. pose proof first_resting as (R1 & R2 & R3).
  assert (Hkeys : keys v ≡ₚ keys (sb_levels side s)) by (unfold v; rewrite update_order_keys; done).
  assert (Hprices : prices v = prices (sb_levels side s)) by (apply update_order_prices; done).
  split.
  - apply sinv_trace, sinv_update; [done| |done|].
    + eapply update_order_resize; [done|apply (si_sides _ _ Hinv side)|done|exact first_found| |cbn; lia].
      repeat split; cbn; [done|done|lia].
    + unfold v. by rewrite update_order_slots.
  - assert (Hl : sb_levels side s' = v) by (by destruct side).
    split; try (by destruct side).
    + assert (Hu : update_entry l (fill_order x) lv.(lv_queue) = (l, fill_order x r) :: q).
      { rewrite Hqueue, update_entry_cons. cbn [fst snd]. by rewrite Nat.eqb_refl, update_entry_not_in by exact first_fresh. }
      intros f Hf. specialize (Hf _ eq_refl). unfold resting_at. rewrite Hl. unfold v. rewrite Hlevels. cbn [update_order].
      assert (Hfe : find_entry l lv.(lv_queue) = Some r) by (rewrite Hqueue; cbn; by rewrite Nat.eqb_refl).
      rewrite Hfe, Hu, !entries_cons, Hqueue. cbn. rewrite R2, Hf, !sum_by_app. lia.
    + by rewrite Hl, Hprices.
    + exists t. split; [by destruct side|done].
Qed.

(** It is filled and removed. *)
Lemma wp_first_done t Q : filled_qty t = r.(o_remaining_quantity) →
  (∀ s', sinv fl s' → fills (eq lv.(lv_price)) side r.(o_remaining_quantity) s s' → sb_levels side s' = without_first → Q tt s') →
  let x := r.(o_remaining_quantity) in
  let v := update_order l (fill_order x) (add_total (- x)) (sb_levels side s) in
  wp (_ ← book_remove side l; index_clear r.(o_id) ;; deallocate_order (l, fill_order x r)) Q
    (put_trace (s.(sb_trace) ++ t) (put_levels side v s)).
Proof using Hinv Hlevels Hqueue.
  intros Ht HQ x v. unfold book_remove. wp_steps. eapply wp_deref.
  { assert (Hv : sb_levels side (put_trace (sb_trace s ++ t) (put_levels side v s)) = v) by (by destruct side).
    rewrite Hv. unfold v, x. eapply remove_order_filled; [by eapply sinv_locs|exact first_found|exact first_removed]. }
  cbv beta iota. wp_steps.
  assert (Hd := sinv_detach side l without_first r (fill_order x r) _ fl s Hinv first_removed eq_refl).
  apply (sinv_drop (l, fill_order x r) (l, fill_order x r)) in Hd; [|done].
  apply (sinv_trace _ _ (sb_trace s ++ t)) in Hd.
  pose proof (remove_order_entries _ _ _ _ _ _ (so_levels _ _ _ (si_sides _ _ Hinv side)) first_removed) as He.
  pose proof (remove_order_sublist _ _ _ _ _ first_removed) as Hsub.
  match type of Hd with sinv _ ?st => set (s' := st) in Hd end.
  assert (Hl : sb_levels side s' = without_first) by (by destruct side).
  assert (Hf : fills (eq lv.(lv_price)) side x s s').
  { split; try (by destruct side).
    - intros f Hf. specialize (Hf _ eq_refl). destruct first_resting as (_ & R2 & _).
      unfold resting_at. rewrite Hl, He. cbn. rewrite R2, Hf. unfold x. lia.
    - rewrite Hl. intros p Hp. by eapply elem_of_sublist.
    - exists t. split; [by destruct side|done].
    - intros Hne Hz. apply Hne. destruct side, q; cbn in Hz; done. }
  destruct (match q with [] => Some (lv_slot lv) | _ :: _ => None end) as [slot|] eqn:Eq;
    unfold deallocate_level, index_clear, deallocate_order; wp_steps.
  all: match goal with |- ?P tt ?st => replace st with s' by (unfold s'; rewrite ?Eq; by destruct side) end; by apply HQ.
Qed.
End first_order.

(** *** Orders being worked on *)

Lemma fill_order_zero o : fill_order 0 o = o.
Proof. apply fill_order_0. Qed.

Lemma sinv_fill a o fl s t : sinv ((a, o) :: fl) s → sinv ((a, fill_order t o) :: fl) s.
Proof. intros H. by apply (sinv_flight (a, o)). Qed.

(** A sorted side is not crossed behind its first level. *)
Lemma crosses_first o lv rest p :
  StronglySorted (λ a b, book_before (opposite o.(o_side)) a b = true) (prices (lv :: rest)) →
  crosses o.(o_side) o.(o_price) lv.(lv_price) = false → p ∈ prices (lv :: rest) →
  crosses o.(o_side) o.(o_price) p = false.
Proof.
  intros Hs Hc Hp. apply (sorted_head _ lv rest p Hs) in Hp. unfold crosses, book_before, higher_first, lower_first in *.
  destruct (o_side o); cbn in *; destruct Hp as [->|Hp]; try done; zbool; [apply Z.leb_gt|rewrite Z.geb_leb; apply Z.leb_gt]; lia.
Qed.

Section loops.
Context {outrights : Outrights W}.

Lemma match_level_done n a o resting ts s (Q : entry → spread_book W → Prop) :
  o.(o_remaining_quantity) <= 0 → Q (a, o) s → wp (match_level n (a, o) resting ts) Q s.
Proof. intros Ho HQ. destruct n; cbn; rewrite (proj2 (Z.leb_le _ _)) by done; by apply wp_ret. Qed.

Lemma wp_spread_level n a o fl ts s lv rest :
  sinv ((a, o) :: fl) s → sb_levels (opposite o.(o_side)) s = lv :: rest → 0 < o.(o_remaining_quantity) →
  (length lv.(lv_queue) <= n)%nat →
  wp (match_level n (a, o) (fst <$> head lv.(lv_queue)) ts)
    (λ e s', ∃ t, e = (a, fill_order t o) ∧ 0 < t <= o.(o_remaining_quantity) ∧
       sinv ((a, fill_order t o) :: fl) s' ∧ fills (eq lv.(lv_price)) (opposite o.(o_side)) t s s' ∧
       (t = o.(o_remaining_quantity) ∨ sb_levels (opposite o.(o_side)) s' = rest)) s.
Proof.
  revert o s lv. induction n as [|n IH]; intros o s lv Hinv Hl Ho Hlen.
  all: assert (Hok : lv_ok (spread_resting (opposite o.(o_side))) lv)
    by (pose proof (si_sides _ _ Hinv (opposite o.(o_side))) as H; rewrite Hl in H; by apply side_ok_head in H as [? _]).
  all: destruct lv.(lv_queue) as [|[l r] q] eqn:Hq; [by destruct (lk_nonempty _ _ Hok)|cbn in Hlen].
  { lia. }
  pose proof (first_resting _ _ _ _ _ _ _ _ Hinv Hl Hq) as (R1 & R2 & R3).
  cbn [match_level fst snd]. rewrite (proj2 (Z.leb_gt _ _)) by done. cbn [head fmap option_fmap option_map fst].
  wp_steps. eapply wp_deref; [exact (first_found _ _ _ _ _ _ _ Hl Hq)|]. cbv beta iota zeta.
  set (x := Z.min (o_remaining_quantity o) (o_remaining_quantity r)). unfold notify. wp_steps.
  match goal with |- wp _ _ (put_trace (_ ++ [?ev0]) _) => set (ev := ev0) end.
  assert (Hev : filled_qty [ev] = x) by (unfold ev; case_if as E; cbn; lia).
  replace (sb_trace (put_levels (opposite (o_side o)) _ s)) with (sb_trace s) by (by destruct (o_side o)).
  assert (Hnext : next_entry l lv.(lv_queue) = fst <$> head q) by (rewrite Hq; cbn; by rewrite Nat.eqb_refl).
  rewrite Hnext. cbn [o_remaining_quantity fill_order set_o_remaining_quantity set_o_filled_quantity].
  destruct (Z.eqb_spec (o_remaining_quantity r - x) 0) as [Er|Er].
  - assert (Hx : x = r.(o_remaining_quantity)) by lia. rewrite Hx in *.
    change (o_id (fill_order (o_remaining_quantity r) r)) with (o_id r).
    eapply (wp_first_done _ _ _ _ _ _ _ _ Hinv Hl Hq); [exact Hev|]. intros s' Hinv' Hf Hl'.
    apply (sinv_fill _ _ _ _ (o_remaining_quantity r)) in Hinv'.
    set (o1 := fill_order (o_remaining_quantity r) o) in *.
    destruct (Z.leb_spec (o_remaining_quantity o1) 0) as [Hdone|Hmore].
    + apply match_level_done; [done|]. exists (o_remaining_quantity r). cbn in Hdone. split_and!; try done; [lia|]. left. lia.
    + unfold without_first in Hl'. destruct q as [|[l2 r2] q'].
      * cbn [head fmap option_fmap option_map].
        replace (match_level n (a, o1) None ts) with (mret (M := M (spread_book W)) (a, o1))
          by (destruct n; cbn [match_level fst snd]; rewrite (proj2 (Z.leb_gt _ _)) by done; reflexivity).
        apply wp_ret. exists (o_remaining_quantity r). split_and!; try done; [cbn in Hmore; lia|]. by right.
      * set (lv' := mkLevel _ _ _ _ _) in Hl'.
        eapply wp_mono; [apply (IH o1 s' lv' Hinv' Hl' Hmore)|]; [cbn in *; lia|].
        intros e s2 (t & -> & Ht & Hinv2 & Hf2 & Hcase). exists (o_remaining_quantity r + t).
        rewrite <- fill_order_add. fold o1. cbn in Ht. split_and!; [done|lia|lia|done| |].
        -- by eapply fills_trans.
        -- destruct Hcase as [->|Hc]; [left; cbn; lia|by right].
  - assert (Hx : x = o.(o_remaining_quantity)) by lia. apply wp_ret.
    destruct (first_partial _ _ _ _ _ _ _ _ Hinv Hl Hq x [ev]) as [Hinv' Hf]; [lia|done|].
    apply match_level_done; [cbn; lia|]. exists x. split_and!; try done; [lia|lia|by apply sinv_fill|by left].
Qed.

(** What the aggressor crosses. *)
Definition crossing (o : Order) (p : Price) : bool := crosses o.(o_side) o.(o_price) p.

Lemma opposite_opposite side : opposite (opposite side) = side.
Proof. by destruct side. Qed.

Lemma wp_match_direct n a o fl ts s :
  sinv ((a, o) :: fl) s → (length (entries (sb_levels (opposite o.(o_side)) s)) < n)%nat → 0 <= o.(o_remaining_quantity) →
  wp (match_direct n (a, o) ts)
    (λ e s', ∃ t, e = (a, fill_order t o) ∧ 0 <= t <= o.(o_remaining_quantity) ∧
       sinv ((a, fill_order t o) :: fl) s' ∧
       fills (λ p, crossing o p = true) (opposite o.(o_side)) t s s' ∧
       (t = o.(o_remaining_quantity) ∨ ∀ p, p ∈ prices (sb_levels (opposite o.(o_side)) s') → crossing o p = false)) s.
Proof.
  revert o s. induction n as [|n IH]; intros o s Hinv Hn Ho; [lia|]. cbn [match_direct fst snd].
  destruct (Z.leb_spec (o_remaining_quantity o) 0) as [Hz|Hpos].
  { apply wp_ret. exists 0. rewrite fill_order_zero. split_and!; try done; [apply fills_refl|left; lia]. }
  wp_steps. pose proof (si_sides _ _ Hinv (opposite o.(o_side))) as Hok.
  destruct (sb_levels (opposite (o_side o)) s) as [|lv rest] eqn:Hl.
  { apply wp_ret. exists 0. rewrite fill_order_zero. split_and!; try done; [apply fills_refl|].
    right. rewrite Hl. intros p Hp. inversion Hp. }
  destruct (crosses (o_side o) (o_price o) (lv_price lv)) eqn:Hc.
  2: { apply wp_ret. exists 0. rewrite fill_order_zero. split_and!; try done; [apply fills_refl|].
       right. rewrite Hl. intros p Hp. eapply crosses_first; [apply Hok|done|done]. }
  apply wp_bind. eapply wp_mono; [by apply (wp_spread_level _ a o fl ts s lv rest)|].
  intros e s1 (t & -> & Ht & Hinv1 & Hf1 & Hcase).
  assert (Hf1' : fills (λ p, crossing o p = true) (opposite o.(o_side)) t s s1)
    by (eapply fills_mono; [|exact Hf1]; by intros p <-).
  destruct Hcase as [->|Hrest].
  { destruct n; cbn [match_direct fst snd]; (rewrite (proj2 (Z.leb_le _ _)) by (cbn; lia)); apply wp_ret;
      exists (o_remaining_quantity o); split_and!; try done; by left. }
  eapply wp_mono; [apply (IH (fill_order t o) s1 Hinv1)|].
  - cbn [o_side fill_order set_o_remaining_quantity set_o_filled_quantity]. rewrite Hrest.
    rewrite entries_cons, length_app in Hn. apply side_ok_head in Hok as [Hlv _].
    pose proof (lk_nonempty _ _ Hlv). destruct (lv_queue lv); [done|cbn in Hn; lia].
  - cbn. lia.
  - intros e s2 (t' & -> & Ht' & Hinv2 & Hf2 & Hcase). exists (t + t'). rewrite <- fill_order_add. cbn in Ht', Hcase.
    split_and!; [done|lia|lia|done|by eapply fills_trans|]. destruct Hcase as [->|Hp]; [left; lia|by right].
Qed.
End loops.

(** *** The fill-or-kill check *)

Lemma level_total_at side p lv (f : Price → bool) : lv_ok (spread_resting side) lv → p = lv.(lv_price) →
  sum_by (λ e : entry, if f e.2.(o_price) then e.2.(o_remaining_quantity) else 0) lv.(lv_queue)
  = if f p then lv.(lv_total_quantity) else 0.
Proof.
  intros [_ _ -> Ho] ->. transitivity (sum_by (λ e : entry, if f (lv_price lv) then e.2.(o_remaining_quantity) else 0) lv.(lv_queue)).
  - apply sum_by_ext. eapply Forall_impl; [exact Ho|]. intros e (_ & -> & _). done.
  - destruct (f (lv_price lv)); [done|]. clear Ho. induction (lv_queue lv) as [|e q IH]; cbn; [done|]. exact IH.
Qed.

Lemma no_crossing_total side levels (f : Price → bool) :
  Forall (lv_ok (spread_resting side)) levels → (∀ p, p ∈ prices levels → f p = false) →
  sum_by (λ e : entry, if f e.2.(o_price) then e.2.(o_remaining_quantity) else 0) (entries levels) = 0.
Proof.
  induction 1 as [|lv levels Hlv Hl IH]; intros Hp; [done|]. rewrite entries_cons, sum_by_app.
  rewrite (level_total_at side _ lv f Hlv eq_refl), (Hp (lv_price lv)) by (unfold prices; cbn; by left).
  rewrite IH; [lia|]. intros p Hin. apply Hp. by right.
Qed.

Lemma resting_nonneg side levels (f : Price → bool) : Forall (lv_ok (spread_resting side)) levels →
  0 <= sum_by (λ e : entry, if f e.2.(o_price) then e.2.(o_remaining_quantity) else 0) (entries levels).
Proof.
  intros Hl. apply sum_by_nonneg, Forall_forall. intros [l o] Ho. apply list_elem_of_bind in Ho as (lv & Hin & Hlv).
  rewrite Forall_forall in Hl. destruct (Hl lv Hlv) as [_ _ _ Hos]. rewrite Forall_forall in Hos.
  destruct (Hos _ Hin) as (_ & _ & ?). cbn in *. case_if as E; lia.
Qed.

(** It finds enough exactly if enough rests at prices that cross. *)
Lemma crossing_qty_iff o levels total :
  side_ok (book_before (opposite o.(o_side))) (spread_resting (opposite o.(o_side))) levels →
  o.(o_remaining_quantity) <= crossing_qty o levels total ↔
  o.(o_remaining_quantity) <= total +
    sum_by (λ e : entry, if crossing o e.2.(o_price) then e.2.(o_remaining_quantity) else 0) (entries levels).
Proof.
  revert total. induction levels as [|lv levels IH]; intros total Hok; cbn [crossing_qty]; [cbn; by rewrite Z.add_0_r|].
  pose proof (side_ok_head _ _ _ _ Hok) as [Hlv Hrest].
  rewrite entries_cons, sum_by_app, (level_total_at _ _ lv (crossing o) Hlv eq_refl).
  pose proof (resting_nonneg _ levels (crossing o) (so_levels _ _ _ Hrest)).
  assert (Hcr : crosses (o_side o) (o_price o) (lv_price lv) = crossing o (lv_price lv)) by done. rewrite Hcr.
  destruct (crossing o (lv_price lv)) eqn:Hc.
  - rewrite Z.geb_leb. destruct (Z.leb_spec (o_remaining_quantity o) (total + lv_total_quantity lv)).
    + split; lia.
    + rewrite IH by done. split; lia.
  - rewrite (no_crossing_total _ levels (crossing o) (so_levels _ _ _ Hrest)); [split; lia|].
    intros p Hp. eapply (crosses_first o lv levels p); [apply Hok|done|unfold prices; cbn; by right].
Qed.
End matching.
