(* ===== verification/SpreadBookTheorems.v ===== *)
(** * What the spread book promises

    Every request returns in a well-formed book; a new order trades exactly
    what crosses its price, up to its quantity, and what is left rests or is
    cancelled as its time in force says; cancelling removes one order. *)

From S2P Require Import Prelude Types MatchAlgo MatchAlgoFacts Books Spread SpreadBook SpreadInvariant SpreadMatching.

Section requests.
Context {W : Type} {params : SpreadParams} {outrights : Outrights W}.
Implicit Types (s : spread_book W) (fl : list entry) (side : Side) (l : loc) (o r : Order) (e : entry).

(** ** Resting and dropping an order *)

(** The members a request on the book leaves alone. *)
Record unchanged s s' : Prop := {
  un_strategy : s'.(strategy) = s.(strategy);
  un_wired : s'.(sb_wired) = s.(sb_wired);
  un_world : s'.(sb_world) = s.(sb_world)
}.

Lemma unchanged_trans s s1 s2 : unchanged s s1 → unchanged s1 s2 → unchanged s s2.
Proof. intros [??? ] [???]. split; congruence. Qed.

Lemma fills_unchanged ok side t s s' : fills ok side t s s' → unchanged s s'.
Proof. intros [? ? ? ? ? ? ? ? ?]. by split. Qed.

(** [l] leaves the books' world: given back, out of the index. *)
Lemma wp_give_back e fl s (Q : unit → spread_book W → Prop) :
  sinv (e :: fl) s →
  (∀ s', sinv fl s' → (∀ side, sb_levels side s' = sb_levels side s) → unchanged s s' →
     s'.(sb_trace) = s.(sb_trace) → s'.(sb_next_order_id) = s.(sb_next_order_id) →
     s'.(sb_order_index) = delete e.2.(o_id) s.(sb_order_index) → Q tt s') →
  wp (index_clear e.2.(o_id) ;; deallocate_order e) Q s.
Proof.
  intros Hinv HQ. unfold index_clear, deallocate_order. wp_steps. apply HQ; try done.
  exact (sinv_drop e e _ _ Hinv eq_refl).
Qed.

Lemma wp_rest_order a o s (Q : bool → spread_book W → Prop) :
  sinv [(a, o)] s → 0 < o.(o_remaining_quantity) →
  (∀ s' b, sinv [] s' → unchanged s s' → s'.(sb_next_order_id) = s.(sb_next_order_id) →
     s'.(sb_trace) = s.(sb_trace) →
     sb_levels (opposite o.(o_side)) s' = sb_levels (opposite o.(o_side)) s →
     (if b : bool then
        s.(sb_level_pool) ≠ [] ∧ entries (sb_levels o.(o_side) s') ≡ₚ (a, o) :: entries (sb_levels o.(o_side) s) ∧
        prices (sb_levels o.(o_side) s') ⊆ o.(o_price) :: prices (sb_levels o.(o_side) s)
      else s.(sb_level_pool) = [] ∧ sb_levels o.(o_side) s' = sb_levels o.(o_side) s) → Q b s') →
  wp (rest_order (a, o)) Q s.
Proof.
  intros Hinv Hpos HQ. unfold rest_order, allocate_level. wp_steps.
  destruct (sb_level_pool s) as [|slot lp] eqn:Hp.
  - wp_steps. unfold index_clear, deallocate_order. wp_steps.
    refine (HQ _ false (sinv_drop (a, o) (a, o) _ _ Hinv eq_refl) _ _ _ _ _); try done; by destruct (o_side o).
  - wp_steps. cbn [snd]. assert (Hl : sb_levels (o_side o) (put_level_pool lp s) = sb_levels (o_side o) s) by (by destruct (o_side o)).
    rewrite Hl. destruct (Books.insert_order _ (a, o) slot (sb_levels (o_side o) s)) as [v new] eqn:Hi.
    assert (Hatt : sinv [] (put_level_pool (if new then lp else slot :: lp) (put_levels (o_side o) v s)))
      by (eapply sinv_attach; [exact Hinv|exact Hp|exact Hi|by repeat split]).
    pose proof (insert_order_entries _ _ _ _ _ _ Hi) as He. pose proof (insert_order_prices _ _ _ _ _ _ Hi) as [_ Hpr].
    wp_steps. match goal with |- wp _ _ ?st => set (s1 := st) end.
    assert (HQ' : ∀ s', s' = put_level_pool (if new then lp else slot :: lp) (put_levels (o_side o) v s) → Q true s').
    { intros s' ->. apply HQ; try done; try (by destruct (o_side o)).
      assert (Hv : sb_levels (o_side o) (put_level_pool (if new then lp else slot :: lp) (put_levels (o_side o) v s)) = v)
        by (by destruct (o_side o)).
      rewrite Hv. split_and!; [done|exact He|]. rewrite Hpr. destruct new; set_solver. }
    destruct new; unfold deallocate_level; wp_steps; apply HQ'; unfold s1; by destruct (o_side o).
Qed.

Lemma wp_remove_no_book e fl reason ts s (Q : unit → spread_book W → Prop) :
  sinv (e :: fl) s →
  (∀ s', sinv fl s' → (∀ side, sb_levels side s' = sb_levels side s) → unchanged s s' →
     s'.(sb_trace) = s.(sb_trace) ++ [OrderCancelled e.2.(o_id) ts reason] →
     s'.(sb_next_order_id) = s.(sb_next_order_id) → Q tt s') →
  wp (remove_order_no_book e reason ts) Q s.
Proof.
  intros Hinv HQ. unfold remove_order_no_book, index_clear, notify, deallocate_order. wp_steps.
  refine (HQ _ (sinv_trace _ _ (s.(sb_trace) ++ [OrderCancelled e.2.(o_id) ts reason]) (sinv_drop e e _ _ Hinv eq_refl)) _ _ _ _);
    try done; by intros [].
Qed.

(** ** Entering an order *)

Definition sb_uncrossed s : Prop :=
  ∀ bid ask, bid ∈ prices s.(sb_bids) → ask ∈ prices s.(sb_asks) → bid < ask.

(** What of an order its time in force and the other side let trade. *)
Definition tradable (o : Order) s : Quantity :=
  let offered := resting_at (crossing o) (opposite o.(o_side)) s in
  if bool_decide (o.(o_tif) = FOK) && (offered <? o.(o_remaining_quantity)) then 0
  else Z.min o.(o_remaining_quantity) offered.

(** The effect of entering [o] in slot [a]. *)
Record entered (a : loc) (o : Order) s s' : Prop := {
  en_trace : ∃ evs, s'.(sb_trace) = s.(sb_trace) ++ evs ∧ filled_qty evs = tradable o s;
  en_opposite : ∀ f, (∀ p, crossing o p = true → f p = true) →
    resting_at f (opposite o.(o_side)) s' = resting_at f (opposite o.(o_side)) s - tradable o s;
  en_rests : tradable o s < o.(o_remaining_quantity) → o.(o_tif) = GTC ∨ o.(o_tif) = DAY → s.(sb_level_pool) ≠ [] →
    entries (sb_levels o.(o_side) s') ≡ₚ (a, fill_order (tradable o s) o) :: entries (sb_levels o.(o_side) s);
  en_gone : tradable o s = o.(o_remaining_quantity) ∨ o.(o_tif) = IOC ∨ o.(o_tif) = FOK →
    sb_levels o.(o_side) s' = sb_levels o.(o_side) s;
  en_uncrossed : sb_uncrossed s → sb_uncrossed s';
  en_unchanged : unchanged s s'
}.

Lemma tradable_bounds a o s : sinv [(a, o)] s → 0 < o.(o_remaining_quantity) → 0 <= tradable o s <= o.(o_remaining_quantity).
Proof.
  intros Hinv Hpos. pose proof (resting_nonneg _ _ (crossing o) (so_levels _ _ _ (si_sides _ _ Hinv (opposite o.(o_side))))) as H.
  unfold tradable, resting_at. case_if as E; lia.
Qed.

(** The match takes everything that crosses, up to the order's quantity. *)
Lemma matched_tradable a o s s' t : sinv [(a, o)] s → sinv [(a, fill_order t o)] s' →
  0 <= t <= o.(o_remaining_quantity) →
  fills (λ p, crossing o p = true) (opposite o.(o_side)) t s s' →
  t = o.(o_remaining_quantity) ∨ (∀ p, p ∈ prices (sb_levels (opposite o.(o_side)) s') → crossing o p = false) →
  t = Z.min o.(o_remaining_quantity) (resting_at (crossing o) (opposite o.(o_side)) s).
Proof.
  intros Hinv Hinv' Ht Hf Hcase. pose proof (fs_total _ _ _ _ _ Hf (crossing o) (λ p H, H)) as Htot.
  pose proof (so_levels _ _ _ (si_sides _ _ Hinv' (opposite o.(o_side)))) as Hl.
  pose proof (resting_nonneg _ _ (crossing o) Hl) as Hnn. unfold resting_at in *.
  destruct Hcase as [->|Hp]; [lia|]. pose proof (no_crossing_total _ _ (crossing o) Hl Hp). lia.
Qed.

(** Nothing on the side crosses the order: it may join the book. *)
Lemma uncrossed_joins o s s' :
  sb_uncrossed s → prices (sb_levels (opposite o.(o_side)) s') ⊆ prices (sb_levels (opposite o.(o_side)) s) →
  prices (sb_levels o.(o_side) s') ⊆ o.(o_price) :: prices (sb_levels o.(o_side) s) →
  (o.(o_price) ∈ prices (sb_levels o.(o_side) s') → o.(o_price) ∉ prices (sb_levels o.(o_side) s) →
     ∀ p, p ∈ prices (sb_levels (opposite o.(o_side)) s') → crossing o p = false) → sb_uncrossed s'.
Proof.
  intros Hu Hopp Hown Hc bid ask Hb Ha. unfold crossing, crosses in Hc.
  destruct (o_side o); cbn in *.
  - destruct (decide (bid ∈ prices (sb_bids s))) as [Hin|Hni]; [apply Hu; [done|by apply Hopp]|].
    assert (bid = o_price o) as -> by (specialize (Hown _ Hb); set_solver).
    specialize (Hc Hb Hni ask Ha). zbool. lia.
  - destruct (decide (ask ∈ prices (sb_asks s))) as [Hin|Hni]; [apply Hu; [by apply Hopp|done]|].
    assert (ask = o_price o) as -> by (specialize (Hown _ Ha); set_solver).
    specialize (Hc Ha Hni bid Hb). rewrite Z.geb_leb in Hc. zbool. lia.
Qed.

Lemma wp_enter_order a o ts s :
  sinv [(a, o)] s → 0 < o.(o_remaining_quantity) → o.(o_tif) ≠ GTD →
  wp (enter_order (a, o) ts)
    (λ _ s', sinv [] s' ∧ entered a o s s' ∧ s'.(sb_next_order_id) = s.(sb_next_order_id)) s.
Proof.
  intros Hinv Hpos Htif. unfold enter_order. cbn [fst snd]. wp_steps.
  pose proof (crossing_qty_iff o _ 0 (si_sides _ _ Hinv (opposite o.(o_side)))) as Hiff.
  fold (available_crossing_qty o s) in Hiff. change (sum_by _ _) with (resting_at (crossing o) (opposite (o_side o)) s) in Hiff.
  rewrite Z.add_0_l in Hiff. pose proof (tradable_bounds a o s Hinv Hpos) as Htb.
  case_if as Efok.
  - apply andb_true_iff in Efok as [Hfok Hav]. zbool.
    assert (Ht : tradable o s = 0).
    { unfold tradable. rewrite bool_decide_eq_true_2 by done. cbn. rewrite (proj2 (Z.ltb_lt _ _)); [done|lia]. }
    eapply wp_remove_no_book; [exact Hinv|]. intros s' Hinv' Hl Hun Htr Hnx. split_and!; [done| |done]. split; rewrite ?Ht; try done.
    + eexists. split; [exact Htr|done].
    + intros f _. unfold resting_at. rewrite Hl. lia.
    + intros _ [E|E]; congruence.
    + intros Hu bid ask. rewrite (Hl Buy : s'.(sb_bids) = s.(sb_bids)), (Hl Sell : s'.(sb_asks) = s.(sb_asks)). apply Hu.
  - assert (Ht : tradable o s = Z.min o.(o_remaining_quantity) (resting_at (crossing o) (opposite o.(o_side)) s)).
    { unfold tradable. case_if as E; [|done]. apply andb_true_iff in E as [E1 E2]. rewrite E1 in Efok. cbn in Efok. zbool. lia. }
    apply wp_bind. eapply wp_mono; [apply (wp_match_direct _ a o []); [done|lia|lia]|].
    intros e s1 (t & -> & Htq & Hinv1 & Hf & Hcase). cbn [fst snd].
    pose proof (matched_tradable a o s s1 t Hinv Hinv1 Htq Hf Hcase) as Heq. rewrite <- Ht in Heq. subst t.
    set (t := tradable o s) in *. set (o1 := fill_order t o) in *.
    pose proof (fills_unchanged _ _ _ _ _ Hf) as Hun1. pose proof (fs_other _ _ _ _ _ Hf) as Hown. rewrite opposite_opposite in Hown.
    assert (Hu1 : sb_uncrossed s → sb_uncrossed s1).
    { intros Hu. eapply (uncrossed_joins o); [exact Hu|apply (fs_prices _ _ _ _ _ Hf)|rewrite Hown; set_solver|].
      rewrite Hown. done. }
    destruct (Z.gtb_spec (o_remaining_quantity o1) 0) as [Hmore|Hdone].
    + cbn in Hmore. assert (Hnf : o.(o_tif) ≠ FOK).
      { intros E. rewrite bool_decide_eq_true_2 in Efok by done. cbn in Efok. zbool. lia. }
      destruct (decide (o_tif o = IOC)) as [Hioc|Hioc];
        [rewrite (bool_decide_eq_true_2 _ Hioc)|rewrite (bool_decide_eq_false_2 _ Hioc)].
      * eapply wp_remove_no_book; [exact Hinv1|]. intros s' Hinv' Hl Hun Htr Hnx. split_and!; [done| |by rewrite Hnx, (fs_next _ _ _ _ _ Hf)].
        split; try done; fold t.
        -- destruct (fs_trace _ _ _ _ _ Hf) as (evs & Hev & Hq). exists (evs ++ [OrderCancelled (o_id o1) ts IOCRemainder]).
           rewrite Htr, Hev, app_assoc. split; [done|]. unfold filled_qty in *. rewrite sum_by_app, Hq. cbn. lia.
        -- intros f Hfp. rewrite <- (fs_total _ _ _ _ _ Hf f Hfp). unfold resting_at. by rewrite Hl.
        -- intros _ [E|E]; congruence.
        -- intros _. by rewrite Hl.
        -- intros Hu bid ask. rewrite (Hl Buy : s'.(sb_bids) = s1.(sb_bids)), (Hl Sell : s'.(sb_asks) = s1.(sb_asks)). by apply Hu1.
        -- by eapply unchanged_trans.
      * apply wp_bind. eapply wp_rest_order; [exact Hinv1|cbn; lia|].
        intros s' b Hinv' Hun Hnx Htr Hopp Hb. apply wp_ret. split_and!; [done| |by rewrite Hnx, (fs_next _ _ _ _ _ Hf)].
        change (o_side o1) with (o_side o) in Hopp, Hb. change (o_price o1) with (o_price o) in Hb.
        destruct Hcase as [Hc|Hcase]; [lia|].
        split; try done; fold t.
        -- destruct (fs_trace _ _ _ _ _ Hf) as (evs & Hev & Hq). exists evs. by rewrite Htr.
        -- intros f Hfp. rewrite <- (fs_total _ _ _ _ _ Hf f Hfp). unfold resting_at. by rewrite Hopp.
        -- intros _ _ Hlp. pose proof (fs_pool _ _ _ _ _ Hf Hlp). destruct b; [|by destruct Hb].
           destruct Hb as (_ & Hb & _). by rewrite <- Hown.
        -- intros [E|[E|E]]; [lia|congruence|congruence].
        -- intros Hu. specialize (Hu1 Hu). eapply (uncrossed_joins o); [exact Hu1|by rewrite Hopp| |].
           ++ destruct b; [by destruct Hb as (_ & _ & ?)|]. destruct Hb as [_ ->]. set_solver.
           ++ intros _ _ p Hp. rewrite Hopp in Hp. by apply Hcase.
        -- by eapply unchanged_trans.
    + cbn in Hdone. eapply (wp_give_back (a, o1)); [exact Hinv1|]. intros s' Hinv' Hl Hun Htr Hnx _.
      split_and!; [done| |by rewrite Hnx, (fs_next _ _ _ _ _ Hf)]. split; try done; fold t.
      * destruct (fs_trace _ _ _ _ _ Hf) as (evs & Hev & Hq). exists evs. by rewrite Htr.
      * intros f Hfp. rewrite <- (fs_total _ _ _ _ _ Hf f Hfp). unfold resting_at. by rewrite Hl.
      * lia.
      * intros _. by rewrite Hl.
      * intros Hu bid ask. rewrite (Hl Buy : s'.(sb_bids) = s1.(sb_bids)), (Hl Sell : s'.(sb_asks) = s1.(sb_asks)). by apply Hu1.
      * by eapply unchanged_trans.
Qed.

(** ** [new_order] *)

Definition spread_accepts (req : SpreadOrderRequest) s : bool :=
  (0 <? req.(sr_quantity)) && negb (off_lot s.(strategy) req.(sr_quantity)) &&
  negb (off_tick s.(strategy) req.(sr_price)) && tif_allowed req.(sr_tif) &&
  negb (bool_decide (s.(sb_order_pool) = [])) && (s.(sb_next_order_id) <? MaxSpreadOrderIds).

(** A refused request leaves both sides as they were. *)
Definition refused s s' : Prop := unchanged s s' ∧ ∀ side, sb_levels side s' = sb_levels side s.

Lemma refused_trace s s1 t : refused s s1 → refused s (put_trace t s1).
Proof. intros [[] Hl]. split; [by split|]. intros side. rewrite <- Hl. by destruct side. Qed.
Lemma refused_refl s : refused s s.
Proof. by split. Qed.

(** The outcome of [new_order]. *)
Definition ordered req s (id : OrderId) s' : Prop :=
  sinv [] s' ∧
  if spread_accepts req s
  then id = s.(sb_next_order_id) ∧ ∃ a, entered a (spread_order_of id req) s s'
  else id = 0 ∧ refused s s'.

Lemma wp_spread_new_order req s : sinv [] s → wp (new_order req) (ordered req s) s.
Proof.
  intros Hinv. unfold new_order, ordered, spread_accepts. wp_steps.
  assert (Hrej : ∀ reason s1 (P : spread_book W → Prop), (∀ t, P (put_trace t s1)) →
    wp (reject (sr_client_order_id req) (sr_timestamp req) reason) (λ id s', id = 0 ∧ P s') s1).
  { intros reason s1 P HP. unfold reject, notify. wp_steps. done. }
  assert (Hno : ∀ reason s1, sinv [] s1 → refused s s1 →
    wp (reject (sr_client_order_id req) (sr_timestamp req) reason)
      (λ id s', sinv [] s' ∧ id = 0 ∧ refused s s') s1).
  { intros reason s1 H1 H2. eapply wp_mono; [apply (Hrej reason s1 (λ s', sinv [] s' ∧ refused s s'))|intros ? ? (? & ? & ?); by split_and!].
    intros t. split; [by apply sinv_trace|by apply refused_trace]. }
  destruct (Z.leb_spec (sr_quantity req) 0) as [Hq|Hq].
  { rewrite (proj2 (Z.ltb_ge _ _)) by done. apply Hno, refused_refl; done. }
  rewrite (proj2 (Z.ltb_lt _ _)) by done. cbn [andb].
  destruct (off_lot _ _); [apply Hno, refused_refl; done|]. destruct (off_tick _ _); [apply Hno, refused_refl; done|].
  destruct (tif_allowed (sr_tif req)) eqn:Htif; [|apply Hno, refused_refl; done]. cbn [andb negb]. unfold allocate_order. wp_steps.
  destruct (sb_order_pool s) as [|[a stale] pool] eqn:Hp; [rewrite bool_decide_eq_true_2 by done; wp_steps; apply Hno, refused_refl; done|].
  rewrite bool_decide_eq_false_2 by done. wp_steps. cbn [andb negb]. rewrite Z.geb_leb.
  change (sb_next_order_id (put_order_pool pool s)) with (sb_next_order_id s).
  destruct (Z.leb_spec MaxSpreadOrderIds (sb_next_order_id s)) as [Hmax|Hmax].
  - rewrite (proj2 (Z.ltb_ge _ _)) by done. unfold deallocate_order. wp_steps.
    apply Hno; [|split; [by split|by intros []]]. apply (sinv_next _ _ (s.(sb_next_order_id) + 1)) in Hinv; [|lia].
    destruct Hinv as [H1 H2 H3 H4 H5 H6]. split; try done. cbn in *. by rewrite Hp in H2.
  - rewrite (proj2 (Z.ltb_lt _ _)) by done. set (o := spread_order_of (sb_next_order_id s) req).
    unfold index_set, notify. wp_steps. cbn [fst].
    assert (Hal : sinv [(a, o)] (put_index (<[o_id o := a]> s.(sb_order_index))
      (put_next_id (s.(sb_next_order_id) + 1) (put_order_pool pool s)))).
    { eapply sinv_allocate; [exact Hinv|exact Hp|cbn; lia|exact Hmax]. }
    match goal with |- wp _ _ ?st => set (s1 := st) end.
    assert (Hinv1 : sinv [(a, o)] s1) by exact (sinv_trace _ _ _ Hal).
    assert (Hl : ∀ side, sb_levels side s1 = sb_levels side s) by (by intros []).
    assert (Hra : ∀ f side, resting_at f side s1 = resting_at f side s) by (intros f side; unfold resting_at; by rewrite Hl).
    assert (Htr : tradable o s1 = tradable o s) by (unfold tradable; by rewrite !Hra).
    eapply wp_mono; [apply (wp_enter_order a o); [exact Hinv1|exact Hq|intros E; cbn in E; by rewrite E in Htif]|].
    intros [] s' (Hinv' & [E1 E2 E3 E4 E5 E6] & _). apply wp_ret. split; [done|]. split; [done|]. exists a. fold o.
    rewrite ?Htr in *. split.
    + destruct E1 as (evs & E1 & Eq). exists (OrderAccepted (sb_next_order_id s) (sr_client_order_id req) (sr_timestamp req) :: evs).
      rewrite E1. split; [symmetry; apply (app_assoc s.(sb_trace) [_] evs)|exact Eq].
    + intros f Hf. rewrite (E2 f Hf). by rewrite Hra.
    + rewrite <- (Hl (o_side o)). exact E3.
    + rewrite <- (Hl (o_side o)). exact E4.
    + intros Hu. apply E5. intros bid ask. apply Hu.
    + apply (unchanged_trans s s1 s'); [by split|exact E6].
Qed.


(** ** [cancel_order] *)

(** [cancel_order] of a live order takes exactly that order from its side
    and from the index and reports it cancelled; of any other identifier it
    changes nothing. *)
Theorem spread_cancel_exact req s : sinv [] s →
  ∃ b s', cancel_order req s = Ok (b, s') ∧ sinv [] s' ∧ unchanged s s' ∧
    match get_order req.(sc_order_id) s with
    | Some l => b = true ∧ ∃ o, o.(o_id) = req.(sc_order_id) ∧
        entries (sb_levels o.(o_side) s) ≡ₚ (l, o) :: entries (sb_levels o.(o_side) s') ∧
        sb_levels (opposite o.(o_side)) s' = sb_levels (opposite o.(o_side)) s ∧
        s'.(sb_order_index) = delete o.(o_id) s.(sb_order_index) ∧
        s'.(sb_trace) = s.(sb_trace) ++ [OrderCancelled o.(o_id) req.(sc_timestamp) UserRequested]
    | None => b = false ∧ refused s s'
    end.
Proof.
  intros Hinv. apply wp_eq. unfold cancel_order, get_order. wp_steps. destruct (id_in_range (sc_order_id req)); cbn [negb].
  2: { wp_steps. by split_and!. }
  destruct (sb_order_index s !! sc_order_id req) as [l|] eqn:Hi.
  2: { unfold notify. wp_steps. split; [by apply sinv_trace|]. split; [by split|]. split; [done|]. apply refused_trace, refused_refl. }
  destruct (sinv_indexed s _ l Hinv Hi) as (side & o & lv & Hf & Hid).
  destruct (sinv_find side l [] s o lv Hinv Hf) as (Hload & (Hs & _ & _) & _ & v & freed & Hr). subst side.
  apply wp_bind. eapply wp_deref; [exact Hload|]. cbv beta iota. unfold remove_order, book_remove. wp_steps.
  eapply wp_deref; [exact Hr|]. cbv beta iota. wp_steps.
  pose proof (sinv_detach (o_side o) l v o o freed [] s Hinv Hr eq_refl) as Hd.
  apply (sinv_drop (l, o) (l, o)) in Hd; [|done].
  apply (sinv_trace _ _ (s.(sb_trace) ++ [OrderCancelled (o_id o) (sc_timestamp req) UserRequested])) in Hd.
  pose proof (remove_order_entries _ _ _ _ _ _ (so_levels _ _ _ (si_sides _ _ Hinv (o_side o))) Hr) as He.
  match type of Hd with sinv _ ?st => set (s' := st) in Hd end.
  assert (Hgoal : sinv [] s' ∧ unchanged s s' ∧ true = true ∧ ∃ o, o.(o_id) = sc_order_id req ∧
        entries (sb_levels o.(o_side) s) ≡ₚ (l, o) :: entries (sb_levels o.(o_side) s') ∧
        sb_levels (opposite o.(o_side)) s' = sb_levels (opposite o.(o_side)) s ∧
        s'.(sb_order_index) = delete o.(o_id) s.(sb_order_index) ∧
        s'.(sb_trace) = s.(sb_trace) ++ [OrderCancelled o.(o_id) (sc_timestamp req) UserRequested]).
  { split; [done|]. split; [unfold s'; by destruct (o_side o)|]. split; [done|]. exists o. split; [done|]. unfold s'. destruct (o_side o); (split; [exact He|]); done. }
  destruct freed as [slot|]; unfold deallocate_level, index_clear, notify, deallocate_order; wp_steps;
    match goal with |- sinv [] ?st ∧ _ => replace st with s' by (unfold s'; by destruct (o_side o)) end; exact Hgoal.
Qed.

(** ** [modify_order] *)

Definition modify_valid (req : SpreadModifyRequest) s : bool :=
  negb (off_tick s.(strategy) req.(sm_new_price)) && (0 <? req.(sm_new_quantity)) &&
  negb (off_lot s.(strategy) req.(sm_new_quantity)).

(** [book_remove], for an order that will be worked on as [o']. *)
Lemma wp_spread_remove side l o o' lv s (Q : Order → spread_book W → Prop) :
  sinv [] s → find_order l (sb_levels side s) = Some (o, lv) → o_id o' = o_id o →
  (∀ s', sinv [(l, o')] s' → entries (sb_levels side s) ≡ₚ (l, o) :: entries (sb_levels side s') →
     sb_levels (opposite side) s' = sb_levels (opposite side) s → unchanged s s' →
     s'.(sb_trace) = s.(sb_trace) → (s.(sb_level_pool) ≠ [] → s'.(sb_level_pool) ≠ []) → Q o s') →
  wp (book_remove side l) Q s.
Proof.
  intros Hinv Hf Hid HQ. destruct (sinv_find side l [] s o lv Hinv Hf) as (_ & _ & _ & v & freed & Hr).
  pose proof (sinv_detach side l v o o' freed [] s Hinv Hr Hid) as Hd.
  pose proof (remove_order_entries _ _ _ _ _ _ (so_levels _ _ _ (si_sides _ _ Hinv side)) Hr) as He.
  match type of Hd with sinv _ ?st => set (s' := st) in Hd end.
  assert (HQ' : Q o s').
  { apply HQ; unfold s'; destruct side; try done; by destruct freed. }
  unfold book_remove. wp_steps. eapply wp_deref; [exact Hr|]. cbv beta iota. wp_steps.
  destruct freed as [slot|]; unfold deallocate_level; wp_steps;
    match goal with |- Q o ?st => replace st with s' by (unfold s'; by destruct side) end; exact HQ'.
Qed.

(** While a level is free, [modify_order] of a live order to a valid price
    and quantity puts it at the back of its new price with the new quantity
    less what is filled, or removes it if nothing is left; the other orders
    stay.  An invalid request and an unknown order change neither side. *)
Theorem spread_modify_exact req s : sinv [] s → s.(sb_level_pool) ≠ [] →
  ∃ b s', modify_order req s = Ok (b, s') ∧ sinv [] s' ∧ unchanged s s' ∧
    match get_order req.(sm_order_id) s with
    | Some l =>
        if modify_valid req s then
          b = true ∧ ∃ o rest, o.(o_id) = req.(sm_order_id) ∧
            sb_levels (opposite o.(o_side)) s' = sb_levels (opposite o.(o_side)) s ∧
            entries (sb_levels o.(o_side) s) ≡ₚ (l, o) :: rest ∧
            entries (sb_levels o.(o_side) s') ≡ₚ
              (if req.(sm_new_quantity) <=? o.(o_filled_quantity) then rest
               else (l, set_o_timestamp req.(sm_timestamp) (modified_order req o)) :: rest)
        else b = false ∧ refused s s'
    | None => b = false ∧ refused s s'
    end.
Proof.
  intros Hinv Hpool. apply wp_eq. unfold modify_order, get_order, modify_valid. wp_steps.
  assert (Hno : ∀ ev, wp (notify ev ;; mret false) (λ b s', sinv [] s' ∧ unchanged s s' ∧ b = false ∧ refused s s') s).
  { intros ev. unfold notify. wp_steps. split; [by apply sinv_trace|]. split; [by split|]. split; [done|]. apply refused_trace, refused_refl. }
  destruct (id_in_range (sm_order_id req)); cbn [negb].
  2: { wp_steps. by split_and!. }
  destruct (sb_order_index s !! sm_order_id req) as [l|] eqn:Hi; [|apply Hno].
  destruct (off_tick _ _); [apply Hno|]. cbn [negb andb].
  destruct (Z.leb_spec (sm_new_quantity req) 0) as [Hq|Hq].
  { rewrite (proj2 (Z.ltb_ge _ _)) by done. apply Hno. }
  rewrite (proj2 (Z.ltb_lt _ _)) by done. cbn [negb andb orb]. destruct (off_lot _ _); [apply Hno|]. cbn [negb].
  destruct (sinv_indexed s _ l Hinv Hi) as (side & o & lv & Hf & Hid).
  destruct (sinv_find side l [] s o lv Hinv Hf) as (Hload & (Hs & _ & _) & _). subst side.
  apply wp_bind. eapply wp_deref; [exact Hload|]. cbv beta iota. apply wp_bind.
  eapply (wp_spread_remove _ _ _ (set_o_timestamp (sm_timestamp req) (modified_order req o))); [exact Hinv|exact Hf|done|].
  intros s1 Hinv1 He Hopp Hun Htr Hp1. cbn zeta.
  change (o_remaining_quantity (modified_order req o)) with (sm_new_quantity req - o_filled_quantity o).
  destruct (Z.leb_spec (sm_new_quantity req) (o_filled_quantity o)) as [Hle|Hgt].
  - rewrite (proj2 (Z.leb_le _ _)) by lia. unfold index_clear, deallocate_order, notify. wp_steps.
    pose proof (sinv_drop _ (l, modified_order req o) _ _ Hinv1 eq_refl) as Hd.
    match goal with |- sinv [] ?st ∧ _ => assert (Hst : sinv [] st) by exact (sinv_trace _ _ _ Hd);
      assert (Hl : ∀ side, sb_levels side st = sb_levels side s1) by (by intros []) end.
    split; [exact Hst|]. split; [by destruct Hun|]. split; [done|]. exists o, (entries (sb_levels (o_side o) s1)). rewrite !Hl.
    rewrite (proj2 (Z.leb_le (sm_new_quantity req) _)) by done. by split_and!.
  - rewrite (proj2 (Z.leb_gt _ _)) by lia. set (o1 := set_o_timestamp _ _) in *. apply wp_bind.
    eapply wp_rest_order; [exact Hinv1|unfold o1; cbn; lia|].
    intros s2 b Hinv2 Hun2 Hnx Htr2 Hopp2 Hb. change (o_side o1) with (o_side o) in *.
    destruct b; [|destruct Hb as [Hb _]; by destruct (Hp1 Hpool)]. destruct Hb as (_ & Hb & _).
    unfold notify. wp_steps. split; [by apply sinv_trace|].
    split; [by destruct (unchanged_trans _ _ _ Hun Hun2)|]. split; [done|].
    exists o, (entries (sb_levels (o_side o) s1)).
    assert (Hl : ∀ side t, sb_levels side (put_trace t s2) = sb_levels side s2) by (by intros []).
    rewrite !Hl, (proj2 (Z.leb_gt (sm_new_quantity req) _)) by done. split_and!; [done|congruence|done|done].
Qed.
End requests.

(** ** A concrete book *)

Module SpreadDemo.
#[global] Instance params : SpreadParams := {| MaxSpreadOrders := 4; MaxSpreadLevels := 4; MaxSpreadOrderIds := 100 |}.
(** Outrights without liquidity. *)
#[global] Instance outrights : Outrights unit := {|
  bbo_provider _ _ := mkBBO 0 0 0 0;
  best_order_provider _ _ _ := None;
  fill_applier _ _ _ := mret false
|}.
Definition calendar : SpreadStrategy := mkStrategy CalendarSpread [mkLeg 1 1 1 5 1; mkLeg 2 (-1) 1 5 1] 5 1.
Definition junk : Order := mkOrder 0 0 0 0 0 0 0 Buy Limit DAY 0 0 0 0 false false.
Definition book : spread_book unit := make_spread_book calendar 100 (const junk) tt.
Definition sell : SpreadOrderRequest := mkSpreadRequest 7 1 Sell DAY 10 3 1.
Definition buy : SpreadOrderRequest := mkSpreadRequest 8 2 Buy IOC 15 5 2.
End SpreadDemo.

