(* ===== verification/SpreadImplied.v ===== *)
(** * Implied matching

    The spread book against the outright books: every fill of a spread order is
    covered by leg fills at the outrights' best prices, in the strategy's
    ratios, at a spread price no worse than the order's; and the loops end
    whatever the outrights answer, as long as they answer. *)

From S2P Require Import Prelude Types MatchAlgo MatchAlgoFacts Books Spread SpreadTheorems.
From S2P Require Import SpreadBook SpreadInvariant SpreadMatching SpreadBookTheorems.

(** What the fills of a batch add up to at an instrument. *)
Definition leg_volume (batch : leg_batch) (id : Z) : Quantity :=
  sum_by (λ x, if x.1 =? id then x.2.(leg_fill_qty) else 0) batch.

(** The outrights' part, while they satisfy [world_ok]: an order they name as
    best may be filled; for such an order the applier accepts or refuses, but
    returns.  [world_moves] measures what the instruments have traded on the
    way from one world to another: a fill accepted counts, one refused does
    not. *)
Class OutrightsTotal (W : Type) {outrights : Outrights W} : Type := {
  world_ok : W → Prop;
  fillable : W → Z → OrderId → Prop;
  world_moves : (Z → Quantity) → W → W → Prop;
  moves_none : ∀ w, world_moves (const 0) w w;
  moves_more : ∀ v1 v2 w1 w2 w3, world_moves v1 w1 w2 → world_moves v2 w2 w3 → world_moves (λ id, v1 id + v2 id) w1 w3;
  moves_ext : ∀ v v' w w', (∀ id, v id = v' id) → world_moves v w w' → world_moves v' w w';
  best_fillable : ∀ w id side oid, world_ok w → best_order_provider w id side = Some oid → fillable w id oid;
  applier_returns : ∀ id fill ts w, world_ok w → fillable w id fill.(leg_order_id) →
    ∃ b w', fill_applier id [fill] ts w = Ok (b, w') ∧ world_ok w' ∧
      world_moves (leg_volume (if b then [(id, fill)] else [])) w w' ∧
      ∀ id' oid, fillable w id' oid → fillable w' id' oid
}.

Section implied.
Context {W : Type} {params : SpreadParams} {outrights : Outrights W} {total : OutrightsTotal W}.
Implicit Types (s : spread_book W) (side : Side) (l : loc) (o r : Order) (w : W).

Lemma put_world_world w1 w2 s : put_world w1 (put_world w2 s) = put_world w1 s.
Proof. done. Qed.
Lemma put_world_id s : put_world s.(sb_world) s = s.
Proof. by destruct s. Qed.

(** A well-formed book over well-formed outrights. *)
Record wbook s : Prop := {
  wb_inv : sinv [] s;
  wb_world : world_ok s.(sb_world)
}.

(** The legs of a batch that were filled: all of it, or those before the leg
    that was refused. *)
Definition legs_moved (batch : leg_batch) (all : bool) w w' : Prop :=
  ∃ n, (n <= length batch)%nat ∧ (all = true ↔ n = length batch) ∧ world_moves (leg_volume (take n batch)) w w'.

Lemma legs_moved_all batch w w' : legs_moved batch true w w' → world_moves (leg_volume batch) w w'.
Proof. intros (n & _ & [Hn _] & H). rewrite Hn, take_ge in H by done. exact H. Qed.

(** The legs only change the world. *)
Lemma wp_apply_legs batch ts s (Q : bool → spread_book W → Prop) :
  world_ok s.(sb_world) → Forall (λ x, fillable s.(sb_world) x.1 x.2.(leg_order_id)) batch →
  (∀ b w, world_ok w → legs_moved batch b s.(sb_world) w → apply_legs batch ts s = Ok (b, put_world w s) →
     Q b (put_world w s)) →
  wp (apply_legs batch ts) Q s.
Proof.
  intros Hw Hfill HQ.
  assert (H : ∃ b w, apply_legs batch ts s = Ok (b, put_world w s) ∧ world_ok w ∧ legs_moved batch b s.(sb_world) w).
  { clear HQ. revert s Hw Hfill. induction batch as [|[id fill] batch IH]; intros s Hw Hfill.
    - exists true, s.(sb_world). rewrite put_world_id. split_and!; [done|done|].
      exists 0%nat. split_and!; [done|done|apply moves_none].
    - apply Forall_cons in Hfill as [Hf Hfill].
      destruct (applier_returns id fill ts s.(sb_world) Hw Hf) as (b & w & E & Hw' & Hm & Hmono).
      cbn. unfold mbind, M_bind, get. rewrite E. destruct b; cbn.
      2: { exists false, w. split_and!; [done|done|]. exists 0%nat. cbn. split_and!; [lia|done|exact Hm]. }
      destruct (IH (put_world w s)) as (b & w' & -> & Hw'' & n & Hn & Hb & Hm'); [done| |].
      { eapply Forall_impl; [exact Hfill|]. intros x. apply Hmono. }
      exists b, w'. split_and!; [done|done|]. exists (S n). cbn. split_and!; [lia|rewrite Hb; lia|].
      eapply moves_ext; [|exact (moves_more _ _ _ _ _ Hm Hm')]. intros id'. unfold leg_volume. cbn. lia. }
  destruct H as (b & w & H & Hok & Hm). unfold wp. rewrite H. by apply HQ.
Qed.

(** ** Filling the first spread order of a side *)

Lemma wp_fill_spread_order side lv rest l r q x ts s (Q : unit → spread_book W → Prop) :
  sinv [] s → sb_levels side s = lv :: rest → lv.(lv_queue) = (l, r) :: q → 0 < x <= r.(o_remaining_quantity) →
  (∀ s', sinv [] s' → fills (eq lv.(lv_price)) side x s s' → Q tt s') → wp (fill_spread_order side l x ts) Q s.
Proof.
  intros Hinv Hl Hq Hx HQ. unfold fill_spread_order. wp_steps.
  eapply wp_deref; [exact (first_found _ _ _ _ _ _ _ Hl Hq)|]. cbv beta iota zeta. wp_steps.
  cbn [o_remaining_quantity fill_order set_o_remaining_quantity set_o_filled_quantity].
  assert (Htr : ∀ v, sb_trace (put_levels side v s) = sb_trace s) by (by destruct side).
  destruct (Z.eqb_spec (o_remaining_quantity r - x) 0) as [Er|Er]; unfold notify; wp_steps; rewrite Htr.
  - assert (Hxr : x = r.(o_remaining_quantity)) by lia. rewrite Hxr.
    change (o_id (fill_order (o_remaining_quantity r) r)) with (o_id r).
    eapply wp_bind_inv. eapply (wp_first_done _ _ _ _ _ _ _ _ Hinv Hl Hq); [cbn; lia|].
    intros s' Hinv' Hf _. apply HQ; [done|]. by rewrite Hxr.
  - destruct (first_partial _ _ _ _ _ _ _ _ Hinv Hl Hq x
      [OrderPartiallyFilled (o_id r) (o_id r) (o_price r) x (o_remaining_quantity r - x) (o_remaining_quantity r - x) ts])
      as [Hinv' Hf]; [lia|cbn; lia|]. by apply HQ.
Qed.

(** ** Leg batches *)

(** The fill of leg [i]: best order, price and ratio. *)
Definition leg_covered (rside : StrategyLeg → Side) (w : W) (q : Quantity) (leg : StrategyLeg) (bbo : LegBBO)
    (x : Z * LegFill) : Prop :=
  ∃ id, best_order_provider w leg.(leg_instrument_id) (rside leg) = Some id ∧
    x = (leg.(leg_instrument_id), mkLegFill id (bbo_price (rside leg) bbo) (q * abs_ratio leg)).

(** All legs, position by position. *)
Definition batch_covers (rside : StrategyLeg → Side) (w : W) (q : Quantity) (legs : list StrategyLeg)
    (bbos : list LegBBO) (batch : leg_batch) : Prop :=
  length batch = length legs ∧
  ∀ i leg bbo, legs !! i = Some leg → bbos !! i = Some bbo →
    ∃ x, batch !! i = Some x ∧ leg_covered rside w q leg bbo x.

(** Every leg's book names a best order. *)
Definition best_known (rside : StrategyLeg → Side) (w : W) (legs : list StrategyLeg) : Prop :=
  Forall (λ leg, is_Some (best_order_provider w leg.(leg_instrument_id) (rside leg))) legs.

(** Lots of an instrument per spread lot. *)
Definition ratio_at (legs : list StrategyLeg) (id : Z) : Z :=
  sum_by (λ leg, if leg.(leg_instrument_id) =? id then abs_ratio leg else 0) legs.

Lemma batch_covers_volume rside w q legs bbos batch id : length legs = length bbos →
  batch_covers rside w q legs bbos batch → leg_volume batch id = q * ratio_at legs id.
Proof.
  revert bbos batch. induction legs as [|leg legs IH]; intros [|bbo bbos] batch Hlen [Hl Hc]; try done.
  - destruct batch; [|done]. unfold leg_volume, ratio_at. cbn. lia.
  - destruct batch as [|x batch]; [done|]. injection Hlen as Hlen. injection Hl as Hl.
    destruct (Hc 0%nat leg bbo eq_refl eq_refl) as (y & [= <-] & oid & _ & ->).
    assert (H := IH bbos batch Hlen (conj Hl (λ i, Hc (S i)))).
    unfold leg_volume, ratio_at in *. cbn. rewrite H. case_if as E; cbn; lia.
Qed.

Lemma batch_covers_cons rside w q leg legs bbo bbos x batch :
  leg_covered rside w q leg bbo x → batch_covers rside w q legs bbos batch →
  batch_covers rside w q (leg :: legs) (bbo :: bbos) (x :: batch).
Proof.
  intros Hx [Hl Hc]. split; [cbn; lia|]. intros [|j] y b; cbn; [|by apply Hc].
  intros [= <-] [= <-]. by eexists.
Qed.

Lemma out_batch_ok st w side q i legs bbos :
  (∀ j leg, legs !! j = Some leg → st.(st_legs) !! (i + j)%nat = Some leg) → length legs = length bbos →
  match out_batch st w side q i legs bbos with
  | Some batch => best_known (out_resting_side side) w legs ∧ batch_covers (out_resting_side side) w q legs bbos batch
  | None => ¬ best_known (out_resting_side side) w legs
  end.
Proof.
  revert i bbos. induction legs as [|leg legs IH]; intros i [|bbo bbos] Hst; try done.
  - intros _. cbn. split; [constructor|]. split; [done|]. by intros j ? ? H.
  - intros [= Hlen]. cbn. specialize (IH (S i) bbos).
    destruct (best_order_provider w _ _) as [id|] eqn:Hid; cbn; [|by intros [[? [=]] _]%Forall_cons; congruence].
    destruct (out_batch st w side q (S i) legs bbos) as [batch|]; cbn.
    + destruct IH as [Hk Hc]; [|done|].
      { intros j x Hj. specialize (Hst (S j) x Hj). by rewrite Nat.add_succ_r in Hst. }
      split; [apply Forall_cons; split; [by exists id|done]|]. apply batch_covers_cons; [|done].
      exists id. split; [done|]. unfold leg_quantity. specialize (Hst 0%nat leg eq_refl). rewrite Nat.add_0_r in Hst. by rewrite Hst.
    + intros [_ H]%Forall_cons. apply IH in H; [done| |done].
      intros j x Hj. specialize (Hst (S j) x Hj). by rewrite Nat.add_succ_r in Hst.
Qed.

(** The side of leg books that trading the spread on [side] takes from. *)
Definition in_resting_side (side : Side) (leg : StrategyLeg) : Side := opposite (leg_side leg side).
Definition in_prices (side : Side) (legs : list StrategyLeg) (bbos : list LegBBO) : list Price :=
  zip_with (λ leg bbo, bbo_price (in_resting_side side leg) bbo) legs bbos.
Definition takeable (side : Side) (legs : list StrategyLeg) (bbos : list LegBBO) (k : Quantity) : Prop :=
  Forall2 (λ leg bbo, k * abs_ratio leg <= bbo_qty (in_resting_side side leg) bbo) legs bbos.

Lemma le_quot_pos (k a d : Z) : 0 < d → 0 < k → k <= Z.quot a d ↔ k * d <= a.
Proof.
  intros Hd Hk. destruct (Z.leb_spec 0 a) as [Ha|Ha]; [by apply le_quot|].
  pose proof (Z.quot_opp_l a d). pose proof (Z.quot_pos (- a) d). nia.
Qed.

(** The legs of an implied-in match and the quantity they allow. *)
Lemma in_batch_ok w side m legs bbos :
  Forall leg_weighted legs → length legs = length bbos →
  match in_batch w side m legs bbos with
  | Some (q, batch) =>
      best_known (in_resting_side side) w legs ∧ q <= m ∧
      (∀ k, 0 < k → k <= q ↔ k <= m ∧ takeable side legs bbos k) ∧
      (snd <$> batch) = in_prices side legs bbos ∧
      ∀ st i k, (∀ j leg, legs !! j = Some leg → st.(st_legs) !! (i + j)%nat = Some leg) →
        batch_covers (in_resting_side side) w k legs bbos
          (imap (λ j x, (x.1.1, mkLegFill x.1.2 x.2 (leg_quantity st (i + j) k))) batch)
  | None => ¬ best_known (in_resting_side side) w legs
  end.
Proof.
  intros Hok. revert m bbos. induction Hok as [|leg legs [Hr _] Hok IH]; intros m [|bbo bbos]; try done.
  - intros _. cbn. split_and!; [apply Forall_nil_2|lia| |done|].
    + intros k Hk. split; [|by intros []]. by split; [|constructor].
    + intros st i k _. split; [done|]. by intros j ? ? H.
  - intros [= Hlen]. cbn. unfold in_resting_side at 1 2. destruct (best_order_provider w _ _) as [id|] eqn:Hid; cbn.
    2: { intros [[? ?] _]%Forall_cons. unfold in_resting_side in *. congruence. }
    assert (Hpos : 0 < abs_ratio leg) by (unfold abs_ratio; lia). rewrite (proj2 (Z.eqb_neq _ _)) by lia.
    set (a := bbo_qty _ _). specialize (IH (Z.min m (Z.quot a (abs_ratio leg))) bbos Hlen).
    destruct (in_batch w side _ legs bbos) as [[q batch]|]; cbn; [|by intros [_ ?]%Forall_cons].
    destruct IH as (Hk & Hm & Ha & Hp & Hc). split_and!.
    + apply Forall_cons. split; [by exists id|done].
    + lia.
    + intros k Hk0. rewrite Ha by done. unfold takeable. rewrite Forall2_cons. fold a.
      unfold in_resting_side at 2. fold a. rewrite <- (le_quot_pos k a) by done. rewrite Z.min_glb_iff. tauto.
    + by rewrite Hp.
    + intros st i k Hst. apply batch_covers_cons.
      * exists id. split; [done|]. unfold leg_quantity. by rewrite (Hst 0%nat leg eq_refl).
      * erewrite imap_ext; [apply (Hc st (S i) k)|].
        -- intros j x Hj. specialize (Hst (S j) x Hj). by rewrite Nat.add_succ_r in Hst.
        -- intros j x _. cbn. by rewrite Nat.add_succ_r.
Qed.
(** ** One implied match *)

Definition first_order side s : option entry := lv ← head (sb_levels side s); head lv.(lv_queue).

(** [side] trades at [p] no worse than [limit]. *)
Definition no_worse (side : Side) (p limit : Price) : Prop :=
  match side with Buy => limit <= p | Sell => p <= limit end.

Definition lot_ok (st : SpreadStrategy) (k : Quantity) : Prop := 0 < st.(st_lot_size) → (st.(st_lot_size) | k).

Lemma align_lot_ok st m : 0 <= m →
  0 <= align_lot st m <= m ∧ lot_ok st (align_lot st m) ∧ ∀ k, k <= m → lot_ok st k → k <= align_lot st m.
Proof.
  intros Hm. unfold align_lot, lot_ok. rewrite Z.gtb_ltb. destruct (Z.ltb_spec 0 (st_lot_size st)) as [Hl|Hl].
  - rewrite Z.quot_div_nonneg by lia. pose proof (Z.mul_div_le m (st_lot_size st) Hl). pose proof (Z.div_pos m (st_lot_size st) Hm Hl).
    split; [nia|]. split; [intros _; apply Z.divide_factor_r|]. intros k Hk Hd. destruct (Hd Hl) as [j ->].
    apply Z.mul_le_mono_nonneg_r; [lia|]. apply Z.div_le_lower_bound; lia.
  - split; [lia|]. split; [lia|]. intros; lia.
Qed.

(** What the legs, at bbos [bbos], let the implied level on [side] trade
    against a spread order [o] of the other side. *)
Record out_feasible side (bbos : list LegBBO) s o (k : Quantity) : Prop := {
  of_remaining : 0 < k <= o.(o_remaining_quantity);
  of_width : k <= int64_max;
  of_lot : lot_ok s.(strategy) k;
  of_legs : executable side s.(strategy).(st_legs) bbos k;
  of_best : best_known (out_resting_side side) s.(sb_world) s.(strategy).(st_legs);
  of_price : no_worse side (normalize_tick (compute_spread_price s.(strategy)
      (out_prices side s.(strategy).(st_legs) bbos)) s.(strategy).(st_tick_size)) o.(o_price)
}.

(** The same for trading a resting spread order of [side] against the legs. *)
Record in_feasible side (bbos : list LegBBO) s o (k : Quantity) : Prop := {
  if_remaining : 0 < k <= o.(o_remaining_quantity);
  if_lot : lot_ok s.(strategy) k;
  if_legs : takeable side s.(strategy).(st_legs) bbos k;
  if_best : best_known (in_resting_side side) s.(sb_world) s.(strategy).(st_legs);
  if_price : no_worse (opposite side) (compute_spread_price s.(strategy)
      (in_prices side s.(strategy).(st_legs) bbos)) o.(o_price)
}.

(** The outcome of one iteration of an implied loop: the first order of [side]
    is filled by the largest feasible quantity, together with its legs; or
    nothing is feasible and nothing changes; or a leg was refused, and only
    the outrights may have changed. *)
Inductive implied_outcome (feasible : Order → Quantity → Prop) (rside : StrategyLeg → Side) (bbos : list LegBBO)
    side ts s : bool → spread_book W → Prop :=
  | implied_filled l o q batch w s' :
      first_order side s = Some (l, o) →
      feasible o q → (∀ k, feasible o k → k <= q) →
      batch_covers rside s.(sb_world) q s.(strategy).(st_legs) bbos batch →
      apply_legs batch ts s = Ok (true, put_world w s) →
      world_moves (λ id, q * ratio_at s.(strategy).(st_legs) id) s.(sb_world) w →
      fills (eq o.(o_price)) side q (put_world w s) s' →
      implied_outcome feasible rside bbos side ts s true s'
  | implied_none :
      (∀ l o k, first_order side s = Some (l, o) → ¬ feasible o k) →
      implied_outcome feasible rside bbos side ts s false s
  | implied_refused l o q batch w :
      first_order side s = Some (l, o) →
      feasible o q → (∀ k, feasible o k → k <= q) →
      batch_covers rside s.(sb_world) q s.(strategy).(st_legs) bbos batch →
      apply_legs batch ts s = Ok (false, put_world w s) →
      legs_moved batch false s.(sb_world) w →
      implied_outcome feasible rside bbos side ts s false (put_world w s).

Lemma first_order_levels side s l o : first_order side s = Some (l, o) →
  ∃ lv rest q, sb_levels side s = lv :: rest ∧ lv.(lv_queue) = (l, o) :: q.
Proof.
  unfold first_order. destruct (sb_levels side s) as [|lv rest]; [done|]. cbn. destruct (lv_queue lv) as [|e q] eqn:Hq; [done|].
  intros [= ->]. by exists lv, rest, q.
Qed.

Lemma batch_fillable rside w q legs bbos batch : world_ok w → length legs = length bbos →
  batch_covers rside w q legs bbos batch → Forall (λ x, fillable w x.1 x.2.(leg_order_id)) batch.
Proof.
  intros Hw Hlen [Hl Hc]. apply Forall_lookup_2. intros i x Hx. pose proof (lookup_lt_Some _ _ _ Hx).
  destruct (lookup_lt_is_Some_2 legs i) as [leg Hleg]; [lia|]. destruct (lookup_lt_is_Some_2 bbos i) as [bbo Hb]; [lia|].
  destruct (Hc i leg bbo Hleg Hb) as (y & Hy & id & Hid & ->). rewrite Hx in Hy. injection Hy as ->. cbn.
  by eapply best_fillable.
Qed.

(** The end of an iteration: legs, then the spread order. *)
Lemma wp_apply_and_fill feasible rside bbos side ts s lv rest l o qu q batch :
  wbook s → length s.(strategy).(st_legs) = length bbos →
  sb_levels side s = lv :: rest → lv.(lv_queue) = (l, o) :: qu → feasible o q → 0 < q <= o.(o_remaining_quantity) → (∀ k, feasible o k → k <= q) →
  batch_covers rside s.(sb_world) q s.(strategy).(st_legs) bbos batch →
  wp (all_applied ← apply_legs batch ts;
      if all_applied : bool then fill_spread_order side l q ts ;; mret true else mret false)
    (λ b s', wbook s' ∧ implied_outcome feasible rside bbos side ts s b s') s.
Proof.
  intros [Hinv Hwo] Hlen Hl Hq Hf Hx Hmax Hc. apply wp_bind, wp_apply_legs; [done|by eapply batch_fillable|].
  intros [] w Hw' Hm Hap.
  - apply legs_moved_all in Hm. apply wp_bind. assert (Hinv' : sinv [] (put_world w s)) by by apply sinv_world.
    eapply (wp_fill_spread_order _ lv rest l o qu); [exact Hinv'|by destruct side|done|done|].
    intros s' Hs' Hfl. wp_steps. split; [split; [done|by rewrite (fs_world _ _ _ _ _ Hfl)]|]. eapply implied_filled; try done.
    + unfold first_order. rewrite Hl. cbn. by rewrite Hq.
    + eapply moves_ext; [|exact Hm]. intros id. by eapply batch_covers_volume.
    + assert (Hp : lv.(lv_price) = o.(o_price)); [|by rewrite <- Hp].
      assert (Hfo := first_resting side lv rest l o qu [] s Hinv Hl Hq). destruct Hfo as (_ & ? & _). done.
  - apply wp_ret. split; [by split; [apply sinv_world|]|]. eapply implied_refused; try done. unfold first_order. rewrite Hl. cbn. by rewrite Hq.
Qed.
(** Strategies as the registry and the price formulas want them. *)
Record weighted (st : SpreadStrategy) : Prop := {
  we_legs : Forall leg_weighted st.(st_legs);
  we_some : st.(st_legs) ≠ []
}.

Definition bbos_fit (st : SpreadStrategy) (bbos : list LegBBO) : Prop := length st.(st_legs) = length bbos.

Lemma gather_fits s : bbos_fit s.(strategy) (gather_leg_bbos s).
Proof. unfold bbos_fit, gather_leg_bbos. by rewrite length_fmap. Qed.

Lemma head_order s side lv rest : sinv [] s → sb_levels side s = lv :: rest →
  ∃ l o q, lv.(lv_queue) = (l, o) :: q ∧ o.(o_price) = lv.(lv_price) ∧ 0 < o.(o_remaining_quantity) ∧
    first_order side s = Some (l, o).
Proof.
  intros Hinv Hl. destruct (lv_queue lv) as [|[l o] q] eqn:Hq.
  - pose proof (si_sides _ _ Hinv side) as Hs. rewrite Hl in Hs. apply side_ok_head in Hs as [[Hne _ _ _] _]. congruence.
  - assert (Hfo := first_resting side lv rest l o q [] s Hinv Hl Hq). destruct Hfo as (_ & ? & ?).
    exists l, o, q. split_and!; try done. unfold first_order. rewrite Hl. cbn. by rewrite Hq.
Qed.

Lemma first_order_nil side s : sb_levels side s = [] → first_order side s = None.
Proof. unfold first_order. by intros ->. Qed.

Lemma wp_implied_out_step side bbos ts s :
  wbook s → weighted s.(strategy) → bbos_fit s.(strategy) bbos →
  wp (implied_out_step side bbos ts) (λ b s', wbook s' ∧
    implied_outcome (out_feasible side bbos s) (out_resting_side side) bbos (opposite side) ts s b s') s.
Proof.
  intros Hwb [Hw Hne] Hlen. pose proof (wb_inv _ Hwb) as Hinv. unfold implied_out_step. wp_steps.
  set (st := s.(strategy)) in *. pose proof (implied_out_level side st bbos Hw Hne Hlen) as [Hex Hlv].
  assert (Hnone : (∀ l o k, first_order (opposite side) s = Some (l, o) → ¬ out_feasible side bbos s o k) →
    wp (mret false) (λ b s', wbook s' ∧
      implied_outcome (out_feasible side bbos s) (out_resting_side side) bbos (opposite side) ts s b s') s)
    by (intros H; apply wp_ret; split; [done|by apply implied_none]).
  destruct (compute_implied_out side _ bbos _) as [implied|] eqn:Ei.
  2: { apply Hnone. intros l o k _ [[Hk _] Hk' _ He _ _].
    assert (Hq : ∃ lv, None = Some lv ∧ k <= il_quantity lv) by (by apply Hex). by destruct Hq as (? & ? & _). }
  destruct (sb_levels (opposite side) s) as [|lv rest] eqn:Hl.
  { apply Hnone. intros l o k H. by rewrite first_order_nil in H. }
  destruct (head_order s (opposite side) lv rest Hinv Hl) as (l & o & q & Hq & Hp & Hrem & Hfo). rewrite Hq.
  destruct (Hlv _ eq_refl) as (_ & Hiq & Hip & _). set (price := compute_spread_price st _) in *.
  assert (Hcross : (match side with Buy => il_price implied >=? lv_price lv | Sell => il_price implied <=? lv_price lv end) = true
    ↔ no_worse side (normalize_tick price st.(st_tick_size)) o.(o_price)).
  { rewrite <- Hip, Hp. destruct side; cbn; [rewrite Z.geb_le|rewrite Z.leb_le]; done. }
  set (m := Z.min (il_quantity implied) (o_remaining_quantity o)).
  destruct (align_lot_ok st m) as (Ha & Hlot & Hmax); [lia|]. set (x := align_lot st m) in *.
  assert (Hle : ∀ k, out_feasible side bbos s o k → k <= x).
  { intros k [[Hk Hk'] Hw64 Hkl He _ _]. apply Hmax; [|done].
    assert (Hlvl : ∃ lv, Some implied = Some lv ∧ k <= il_quantity lv) by (by apply Hex). destruct Hlvl as (? & [= <-] & ?). lia. }
  case_if as Hc.
  { apply Hnone. intros l' o' k. rewrite Hfo. intros [= <- <-] Hfe. pose proof (Hle k Hfe). destruct Hfe as [[Hk _] _ _ _ _ Hpr].
    apply orb_true_iff in Hc as [Hc|Hc]; [|lia]. apply Hcross in Hpr. by rewrite Hpr in Hc. }
  apply orb_false_iff in Hc as [Hc Hx%Z.leb_gt]. apply negb_false_iff, Hcross in Hc.
  pose proof (out_batch_ok st s.(sb_world) side x 0 st.(st_legs) bbos (λ _ _ H, H) Hlen) as Hb.
  destruct (out_batch _ _ _ _ _ _ _) as [batch|].
  - destruct Hb as [Hk Hb]. eapply wp_apply_and_fill; try done; [|lia].
    assert (Hxx : x <= int64_max ∧ executable side st.(st_legs) bbos x) by (apply Hex; [done|]; exists implied; split; [done|lia]).
    destruct Hxx. split; try done. lia.
  - apply Hnone. intros l' o' k _ [_ _ _ _ Hk _]. done.
Qed.
Lemma wp_implied_in_step side ts s :
  wbook s → weighted s.(strategy) →
  wp (implied_in_step side ts) (λ b s', wbook s' ∧
    implied_outcome (in_feasible side (gather_leg_bbos s) s) (in_resting_side side) (gather_leg_bbos s) side ts s b s') s.
Proof.
  intros Hwb [Hw Hne]. pose proof (wb_inv _ Hwb) as Hinv. unfold implied_in_step. wp_steps.
  pose proof (gather_fits s) as Hlen. unfold bbos_fit in Hlen. set (st := s.(strategy)) in *. set (bbos := gather_leg_bbos s) in *.
  assert (Hnone : (∀ l o k, first_order side s = Some (l, o) → ¬ in_feasible side bbos s o k) →
    wp (mret false) (λ b s', wbook s' ∧
      implied_outcome (in_feasible side bbos s) (in_resting_side side) bbos side ts s b s') s)
    by (intros H; apply wp_ret; split; [done|by apply implied_none]).
  destruct (sb_levels side s) as [|lv rest] eqn:Hl.
  { apply Hnone. intros l o k H. by rewrite first_order_nil in H. }
  destruct (head_order s side lv rest Hinv Hl) as (l & o & q & Hq & Hp & Hrem & Hfo). rewrite Hq.
  pose proof (in_batch_ok s.(sb_world) side o.(o_remaining_quantity) st.(st_legs) bbos Hw Hlen) as Hb.
  destruct (in_batch _ _ _ _ _) as [[m batch]|].
  2: { apply Hnone. intros l' o' k _ [_ _ _ Hk _]. done. }
  destruct Hb as (Hk & Hm & Hex & Hpr & Hc).
  assert (Hfm : ∀ l' o' k, first_order side s = Some (l', o') → in_feasible side bbos s o' k → k <= m).
  { intros l' o' k. rewrite Hfo. intros [= <- <-] [[Hk1 Hk2] _ Ht _ _]. by apply Hex. }
  destruct (Z.leb_spec m 0) as [Hm0|Hm0].
  { apply Hnone. intros l' o' k H Hfe. pose proof (Hfm _ _ _ H Hfe). destruct Hfe as [[? _] _ _ _ _]. lia. }
  destruct (align_lot_ok st m) as (Ha & Hlot & Hmax); [lia|]. set (x := align_lot st m) in *.
  assert (Hle : ∀ l' o' k, first_order side s = Some (l', o') → in_feasible side bbos s o' k → k <= x).
  { intros l' o' k H Hfe. pose proof (Hfm _ _ _ H Hfe). destruct Hfe as [_ ? _ _ _]. by apply Hmax. }
  destruct (Z.leb_spec x 0) as [Hx|Hx].
  { apply Hnone. intros l' o' k H Hfe. pose proof (Hle _ _ _ H Hfe). destruct Hfe as [[? _] _ _ _ _]. lia. }
  rewrite Hpr. set (price := compute_spread_price st _).
  assert (Hok : (match side with Buy => price <=? o_price o | Sell => price >=? o_price o end) = true
    ↔ no_worse (opposite side) price o.(o_price))
    by (destruct side; cbn; [rewrite Z.leb_le|rewrite Z.geb_le]; done).
  cbv zeta. case_if as Hcr.
  { apply Hnone. intros l' o' k. rewrite Hfo. intros [= <- <-] [_ _ _ _ Hpp]. apply Hok in Hpp. by rewrite Hpp in Hcr. }
  apply negb_false_iff, Hok in Hcr.
  eapply wp_apply_and_fill; try done; [|lia| |].
  - split; try done; [lia|]. apply Hex; [done|lia].
  - intros k. by apply (Hle l).
  - apply (Hc st 0%nat x). done.
Qed.
(** ** The loops *)

(** But for the outrights, [s'] is [s] with [t] filled on [side]. *)
Definition traded side (t : Quantity) s s' : Prop := fills (λ _, True) side t (put_world s'.(sb_world) s) s'.

Lemma resting_put_world f side w s : resting_at f side (put_world w s) = resting_at f side s.
Proof. by destruct side. Qed.

Lemma traded_refl side s : traded side 0 s s.
Proof. unfold traded. rewrite put_world_id. apply fills_refl. Qed.
Lemma traded_world side w s : traded side 0 s (put_world w s).
Proof. unfold traded. apply fills_refl. Qed.

Lemma traded_trans side t1 t2 s s1 s2 : traded side t1 s s1 → traded side t2 s1 s2 → traded side (t1 + t2) s s2.
Proof.
  intros [H1 H2 H3 H4 H5 H6 H7 H8 H9] K. eapply fills_trans; [|exact K].
  split; by destruct side.
Qed.

Lemma fills_traded p side t w s s' : fills (eq p) side t (put_world w s) s' → traded side t s s'.
Proof.
  intros H. unfold traded. rewrite (fs_world _ _ _ _ _ H). by eapply fills_mono; [|exact H].
Qed.

Lemma resting_quantity_at side s : sinv [] s → Z.of_nat (resting_quantity side s) = resting_at (λ _, true) side s.
Proof.
  intros Hinv. unfold resting_quantity.
  assert (H := resting_nonneg side (sb_levels side s) (λ _, true) (so_levels _ _ _ (si_sides _ _ Hinv side))).
  cbn in H. rewrite Z2Nat.id by done. done.
Qed.

(** Every fill uses up fuel. *)
Lemma traded_fuel side t s s' n : sinv [] s → sinv [] s' → traded side t s s' → 0 < t →
  (resting_quantity side s < S n)%nat → (resting_quantity side s' < n)%nat.
Proof.
  intros Hi Hi' Ht Hpos Hn. pose proof (resting_quantity_at side s Hi). pose proof (resting_quantity_at side s' Hi').
  assert (H1 := fs_total _ _ _ _ _ Ht (λ _, true) (λ _ _, eq_refl)). rewrite resting_put_world in H1. lia.
Qed.

(** What one iteration leaves for the next. *)
Lemma outcome_continues feasible rside bbos side ts s b s' :
  (∀ o k, feasible o k → 0 < k) → weighted s.(strategy) → implied_outcome feasible rside bbos side ts s b s' →
  weighted s'.(strategy) ∧
  if b then ∃ t, 0 < t ∧ traded side t s s' ∧ world_moves (λ id, t * ratio_at s.(strategy).(st_legs) id) s.(sb_world) s'.(sb_world)
  else True.
Proof.
  intros Hpos Hw [l o q batch w s1 _ Hq _ _ _ Hm Hf|Hno|l o q batch w _ _ _ _ _ _]; [|done..].
  assert (Hf' := fills_traded _ _ _ _ _ _ Hf). split; [by rewrite (fs_strategy _ _ _ _ _ Hf)|]. exists q.
  split; [by eapply Hpos|]. split; [done|]. by rewrite (fs_world _ _ _ _ _ Hf).
Qed.

(** [bbos] are the outrights' best prices at [s'], or those given for [s]. *)
Definition quoted (bbos : list LegBBO) s (bbos' : list LegBBO) s' : Prop :=
  bbos' = gather_leg_bbos s' ∨ (bbos' = bbos ∧ s' = s).

(** What a loop from [s] with prices [bbos] does: [c] fills of at least one
    each, with their legs, until an iteration fills nothing. *)
Record implied_result (feasible : list LegBBO → spread_book W → Order → Quantity → Prop) (rside : StrategyLeg → Side)
    side ts (bbos : list LegBBO) s (c : Z) s' : Prop := {
  ir_inv : wbook s';
  ir_weighted : weighted s'.(strategy);
  ir_run : ∃ t bbos2 s2, 0 <= c <= t ∧ traded side t s s2 ∧
    world_moves (λ id, t * ratio_at s.(strategy).(st_legs) id) s.(sb_world) s2.(sb_world) ∧
    quoted bbos s bbos2 s2 ∧ implied_outcome (feasible bbos2 s2) rside bbos2 side ts s2 false s'
}.

Lemma implied_result_step feasible rside side ts bbos s s1 s' t c : 0 < t → traded side t s s1 →
  world_moves (λ id, t * ratio_at s.(strategy).(st_legs) id) s.(sb_world) s1.(sb_world) →
  implied_result feasible rside side ts (gather_leg_bbos s1) s1 c s' →
  implied_result feasible rside side ts bbos s (c + 1) s'.
Proof.
  intros Ht Hs1 Hm1 [H1 H2 (t' & bbos2 & s2 & Hc & Ht' & Hm2 & Hq & Ho)]. split; [done|done|].
  exists (t + t'), bbos2, s2. split_and!; [lia|lia|by eapply traded_trans| |left; by destruct Hq as [|[-> ->]]|done].
  eapply moves_ext; [|exact (moves_more _ _ _ _ _ Hm1 Hm2)]. intros id. cbn beta.
  rewrite (fs_strategy _ _ _ _ _ Hs1). cbn. lia.
Qed.

(** No fill yet. *)
Lemma implied_result_end feasible rside side ts bbos s s' : wbook s' → weighted s'.(strategy) →
  implied_outcome (feasible bbos s) rside bbos side ts s false s' → implied_result feasible rside side ts bbos s 0 s'.
Proof.
  intros Hinv Hw Ho. split; [done|done|]. exists 0, bbos, s. split_and!; [done|done|apply traded_refl| |by right|done].
  eapply moves_ext; [|apply moves_none]. done.
Qed.

Lemma wp_implied_out_side n side bbos ts s c :
  wbook s → weighted s.(strategy) → bbos_fit s.(strategy) bbos → (resting_quantity (opposite side) s < n)%nat →
  wp (match_implied_out_side n side bbos ts c)
    (λ c' s', implied_result (out_feasible side) (out_resting_side side) (opposite side) ts bbos s (c' - c) s') s.
Proof.
  revert s bbos c. induction n as [|n IH]; intros s bbos c Hinv Hw Hb Hn; [lia|]. cbn [match_implied_out_side].
  apply wp_bind. eapply wp_mono; [by apply wp_implied_out_step|]. intros b s1 [Hinv1 Ho].
  destruct (outcome_continues _ _ _ _ _ _ _ _ (λ o k H, proj1 (of_remaining _ _ _ _ _ H)) Hw Ho) as (Hw1 & Ht). destruct b.
  - destruct Ht as (t & Ht & Htr & Hm).
    wp_steps. eapply wp_mono; [apply (IH s1 _ (c + 1)); [done|done|apply gather_fits|exact (traded_fuel _ _ _ _ _ (wb_inv _ Hinv) (wb_inv _ Hinv1) Htr Ht Hn)]|].
    intros c' s' H. replace (c' - c) with (c' - (c + 1) + 1) by lia. by eapply implied_result_step.
  - apply wp_ret. rewrite Z.sub_diag. by apply implied_result_end.
Qed.

Lemma wp_implied_in_side n side ts s c :
  wbook s → weighted s.(strategy) → (resting_quantity side s < n)%nat →
  wp (match_implied_in_side n side ts c)
    (λ c' s', implied_result (in_feasible side) (in_resting_side side) side ts (gather_leg_bbos s) s (c' - c) s') s.
Proof.
  revert s c. induction n as [|n IH]; intros s c Hinv Hw Hn; [lia|]. cbn [match_implied_in_side].
  apply wp_bind. eapply wp_mono; [by apply wp_implied_in_step|]. intros b s1 [Hinv1 Ho].
  destruct (outcome_continues _ _ _ _ _ _ _ _ (λ o k H, proj1 (if_remaining _ _ _ _ _ H)) Hw Ho) as (Hw1 & Ht). destruct b.
  - destruct Ht as (t & Ht & Htr & Hm).
    eapply wp_mono; [apply (IH s1 (c + 1)); [done|done|exact (traded_fuel _ _ _ _ _ (wb_inv _ Hinv) (wb_inv _ Hinv1) Htr Ht Hn)]|].
    intros c' s' H. replace (c' - c) with (c' - (c + 1) + 1) by lia. by eapply implied_result_step.
  - apply wp_ret. rewrite Z.sub_diag. by apply implied_result_end.
Qed.

(** The strategy does not change. *)
Lemma result_strategy feasible rside side ts bbos s c s' :
  implied_result feasible rside side ts bbos s c s' → s'.(strategy) = s.(strategy).
Proof.
  intros [_ _ (t & bbos2 & s2 & _ & Ht & _ & _ & Ho)]. rewrite <- (fs_strategy _ _ _ _ _ Ht : _ = s.(strategy)).
  by inversion Ho.
Qed.

Lemma wp_spread_bbo_change ts s :
  wbook s → weighted s.(strategy) →
  wp (on_outright_bbo_change ts) (λ n s',
    if s.(sb_wired) then
      ∃ n1 s1, let bbos := if n1 >? 0 then gather_leg_bbos s1 else gather_leg_bbos s in
        implied_result (out_feasible Buy) (out_resting_side Buy) Sell ts (gather_leg_bbos s) s n1 s1 ∧
        implied_result (out_feasible Sell) (out_resting_side Sell) Buy ts bbos s1 (n - n1) s'
    else n = 0 ∧ s' = s) s.
Proof.
  intros Hinv Hw. unfold on_outright_bbo_change. wp_steps. destruct (sb_wired s); cbn [negb]; [|by wp_steps].
  apply wp_bind. eapply wp_mono; [apply (wp_implied_out_side _ Buy); [done|done|apply gather_fits|exact (Nat.lt_succ_diag_r _)]|].
  intros n1 s1 H1. cbv beta in H1. rewrite Z.sub_0_r in H1.
  apply wp_bind, wp_get. cbv beta zeta. set (bbos := if n1 >? 0 then _ else _).
  assert (Hq : bbos_fit s1.(strategy) bbos).
  { unfold bbos. case_if as E; [apply gather_fits|].
    rewrite (result_strategy _ _ _ _ _ _ _ _ H1). apply gather_fits. }
  apply wp_bind. eapply wp_mono.
  { apply (wp_implied_out_side _ Sell); [by destruct H1|by destruct H1|done|exact (Nat.lt_succ_diag_r _)]. }
  intros n2 s' H2. cbv beta in H2. rewrite Z.sub_0_r in H2. wp_steps. exists n1, s1. split; [done|]. by replace (n1 + n2 - n1) with n2 by lia.
Qed.


Lemma wp_try_implied_in ts s :
  wbook s → weighted s.(strategy) →
  wp (try_implied_in ts) (λ n s',
    if s.(sb_wired) then
      ∃ n1 s1,
        implied_result (in_feasible Buy) (in_resting_side Buy) Buy ts (gather_leg_bbos s) s n1 s1 ∧
        implied_result (in_feasible Sell) (in_resting_side Sell) Sell ts (gather_leg_bbos s1) s1 (n - n1) s'
    else n = 0 ∧ s' = s) s.
Proof.
  intros Hinv Hw. unfold try_implied_in. wp_steps. destruct (sb_wired s); cbn [negb]; [|by wp_steps].
  apply wp_bind. eapply wp_mono; [apply (wp_implied_in_side _ Buy); [done|done|exact (Nat.lt_succ_diag_r _)]|].
  intros n1 s1 H1. cbv beta in H1. rewrite Z.sub_0_r in H1.
  apply wp_bind, wp_get. apply wp_bind.
  eapply wp_mono; [apply (wp_implied_in_side _ Sell); [by destruct H1|by destruct H1|exact (Nat.lt_succ_diag_r _)]|].
  intros n2 s' H2. cbv beta in H2. rewrite Z.sub_0_r in H2. wp_steps. exists n1, s1. split; [done|]. by replace (n1 + n2 - n1) with n2 by lia.
Qed.


End implied.
