(* ===== verification/RingBuffer.v ===== *)
(** * The lock-free ring buffer: [spsc_ring_buffer.h]

    [try_push] and [try_pop] as sequences of atomic actions (the loads and
    stores of the two positions, the access to the slot), the system of one
    producer and one consumer as a step relation over them, and its refinement
    of a bounded first-in first-out queue.  Positions are 64-bit and wrap.
    The actions interleave in one order that both threads see; the
    acquire/release pairs of the code give this for the slots. *)

From S2P Require Import Prelude.

Section ring.
Context {T : Type}.

(** [Capacity] is a power of two (the [static_assert]) that fits [size_t]. *)
Record capacity : Type := mkCapacity { cap_log : Z; cap_range : 0 <= cap_log <= 63 }.
Context (cap : capacity).

Definition Capacity : Z := 2 ^ cap.(cap_log).
Definition kMask : Z := Capacity - 1.

Record ring : Type := mkRing { write_pos : Z; read_pos : Z; buffer : list T }.

(** [buffer_[pos & kMask]]. *)
Definition slot (pos : Z) : nat := Z.to_nat (Z.land pos kMask).

(** ** The operations *)

(** Where the producer is in [try_push]: before the load of [write_pos_],
    before the load of [read_pos_], before the write of the slot, before the
    store of [write_pos_]. *)
Inductive push_pc : Type :=
  | PushStart
  | PushHasWrite (wp : Z)
  | PushHasRoom (wp : Z)
  | PushWritten (wp : Z).

(** One atomic action; [inr] when the call returns. *)
Definition push_action (item : T) (pc : push_pc) (r : ring) : ring * (push_pc + bool) :=
  match pc with
  | PushStart => (r, inl (PushHasWrite r.(write_pos)))
  | PushHasWrite wp =>
      let rp := r.(read_pos) in
      if wrap_u64 (wp - rp) >=? Capacity then (r, inr false) else (r, inl (PushHasRoom wp))
  | PushHasRoom wp =>
      (mkRing r.(write_pos) r.(read_pos) (<[slot wp := item]> r.(buffer)), inl (PushWritten wp))
  | PushWritten wp => (mkRing (wrap_u64 (wp + 1)) r.(read_pos) r.(buffer), inr true)
  end.

(** Where the consumer is in [try_pop]. *)
Inductive pop_pc : Type :=
  | PopStart
  | PopHasRead (rp : Z)
  | PopHasItem (rp : Z)
  | PopCopied (rp : Z) (item : T).

Definition pop_action (pc : pop_pc) (r : ring) : ring * (pop_pc + option T) :=
  match pc with
  | PopStart => (r, inl (PopHasRead r.(read_pos)))
  | PopHasRead rp =>
      let wp := r.(write_pos) in
      if rp =? wp then (r, inr None) else (r, inl (PopHasItem rp))
  | PopHasItem rp =>
      match r.(buffer) !! slot rp with
      | Some item => (r, inl (PopCopied rp item))
      | None => (r, inr None)
      end
  | PopCopied rp item => (mkRing r.(write_pos) (wrap_u64 (rp + 1)) r.(buffer), inr (Some item))
  end.

(** [size]: the two loads, at possibly different moments. *)
Definition size_of (wp rp : Z) : Z := wrap_u64 (wp - rp).
Definition is_empty (wp rp : Z) : bool := size_of wp rp =? 0.
Definition is_full (wp rp : Z) : bool := size_of wp rp >=? Capacity.

(** The calls run alone. *)
Fixpoint run_push (fuel : nat) (item : T) (pc : push_pc) (r : ring) : option (ring * bool) :=
  match fuel with
  | O => None
  | S fuel' => match push_action item pc r with
               | (r', inr b) => Some (r', b)
               | (r', inl pc') => run_push fuel' item pc' r'
               end
  end.
Definition try_push (item : T) (r : ring) : option (ring * bool) := run_push 4 item PushStart r.

Fixpoint run_pop (fuel : nat) (pc : pop_pc) (r : ring) : option (ring * option T) :=
  match fuel with
  | O => None
  | S fuel' => match pop_action pc r with
               | (r', inr x) => Some (r', x)
               | (r', inl pc') => run_pop fuel' pc' r'
               end
  end.
Definition try_pop (r : ring) : option (ring * option T) := run_pop 4 PopStart r.

Definition empty_ring (zero : T) : ring := mkRing 0 0 (replicate (Z.to_nat Capacity) zero).

(** ** The two threads *)

(** A returned call with its result. *)
Inductive call : Type :=
  | Pushed (item : T) (ok : bool)
  | Popped (result : option T).

Record system : Type := mkSystem {
  sys_ring : ring;
  producer : option (T * push_pc);
  consumer : option pop_pc
}.

Inductive push_step : system → option call → system → Prop :=
  | step_push_call r c item :
      push_step (mkSystem r None c) None (mkSystem r (Some (item, PushStart)) c)
  | step_push_act r c item pc r' pc' :
      push_action item pc r = (r', inl pc') →
      push_step (mkSystem r (Some (item, pc)) c) None (mkSystem r' (Some (item, pc')) c)
  | step_push_ret r c item pc r' ok :
      push_action item pc r = (r', inr ok) →
      push_step (mkSystem r (Some (item, pc)) c) (Some (Pushed item ok)) (mkSystem r' None c).

Inductive pop_step : system → option call → system → Prop :=
  | step_pop_call r p :
      pop_step (mkSystem r p None) None (mkSystem r p (Some PopStart))
  | step_pop_act r p pc r' pc' :
      pop_action pc r = (r', inl pc') →
      pop_step (mkSystem r p (Some pc)) None (mkSystem r' p (Some pc'))
  | step_pop_ret r p pc r' x :
      pop_action pc r = (r', inr x) →
      pop_step (mkSystem r p (Some pc)) (Some (Popped x)) (mkSystem r' p None).

Definition step (s : system) (label : option call) (s' : system) : Prop :=
  push_step s label s' ∨ pop_step s label s'.

(** A run with the calls that returned, in order. *)
Inductive run : system → list call → system → Prop :=
  | run_nil s : run s [] s
  | run_silent s s' s'' calls : run s calls s' → step s' None s'' → run s calls s''
  | run_call s s' s'' calls c : run s calls s' → step s' (Some c) s'' → run s (calls ++ [c]) s''.

Definition initial_system (zero : T) : system := mkSystem (empty_ring zero) None None.

(** ** The abstract queue *)

Inductive queue_step : list T → call → list T → Prop :=
  | queue_push q item : Z.of_nat (length q) < Capacity → queue_step q (Pushed item true) (q ++ [item])
  | queue_full q item : Z.of_nat (length q) = Capacity → queue_step q (Pushed item false) q
  | queue_pop q item : queue_step (item :: q) (Popped (Some item)) q
  | queue_empty : queue_step [] (Popped None) [].

Inductive queue_run : list T → list call → list T → Prop :=
  | queue_run_nil q : queue_run q [] q
  | queue_run_snoc q q' q'' calls c :
      queue_run q calls q' → queue_step q' c q'' → queue_run q (calls ++ [c]) q''.

(** ** The simulation relation *)

(** The ring holds [q]: the positions are the numbers [W] and [R] of pushes
    and pops, modulo the word size. *)
Record holds (r : ring) (W R : Z) (q : list T) : Prop := {
  hd_write : r.(write_pos) = wrap_u64 W;
  hd_read : r.(read_pos) = wrap_u64 R;
  hd_range : 0 <= R <= W;
  hd_length : Z.of_nat (length q) = W - R;
  hd_capacity : W - R <= Capacity;
  hd_buffer : length r.(buffer) = Z.to_nat Capacity;
  hd_slots : ∀ i x, q !! i = Some x → r.(buffer) !! slot (R + Z.of_nat i) = Some x
}.

(** What each thread knows at its program counter. *)
Definition producer_ok (r : ring) (W R : Z) (p : option (T * push_pc)) : Prop :=
  match p with
  | None | Some (_, PushStart) => True
  | Some (_, PushHasWrite wp) => wp = wrap_u64 W
  | Some (_, PushHasRoom wp) => wp = wrap_u64 W ∧ W - R < Capacity
  | Some (item, PushWritten wp) =>
      wp = wrap_u64 W ∧ W - R < Capacity ∧ r.(buffer) !! slot W = Some item
  end.

Definition consumer_ok (R : Z) (q : list T) (c : option pop_pc) : Prop :=
  match c with
  | None | Some PopStart => True
  | Some (PopHasRead rp) => rp = wrap_u64 R
  | Some (PopHasItem rp) => rp = wrap_u64 R ∧ q ≠ []
  | Some (PopCopied rp item) => rp = wrap_u64 R ∧ head q = Some item
  end.

Definition simulates (s : system) (q : list T) : Prop :=
  ∃ W R, holds s.(sys_ring) W R q ∧ producer_ok s.(sys_ring) W R s.(producer) ∧
         consumer_ok R q s.(consumer).

(** *** Positions *)

Lemma capacity_pos : 0 < Capacity.
Proof using. unfold Capacity. destruct cap as [k Hk]. cbn. lia. Qed.

Lemma capacity_divides : ∃ n, uint64_mod = n * Capacity ∧ 1 < n.
Proof using.
  destruct cap as [k Hk] eqn:E. unfold Capacity. rewrite E. cbn.
  exists (2 ^ (64 - k)). unfold uint64_mod. split.
  - rewrite <- Z.pow_add_r by lia. f_equal. lia.
  - apply Z.pow_gt_1; lia.
Qed.

Lemma slot_mod pos : slot pos = Z.to_nat (pos mod Capacity).
Proof using.
  unfold slot, kMask, Capacity. rewrite <- Z.land_ones by apply cap.
  by rewrite Z.ones_equiv, Z.sub_1_r.
Qed.

Lemma slot_wrap pos : slot (wrap_u64 pos) = slot pos.
Proof using.
  rewrite !slot_mod. f_equal. unfold wrap_u64.
  destruct capacity_divides as (n & -> & Hn). pose proof capacity_pos.
  rewrite (Z.mul_comm n), Z.rem_mul_r by lia.
  rewrite Z.add_mod, Z.mul_comm, Z.mod_mul, Z.add_0_r, !Z.mod_mod by lia. done.
Qed.

Lemma slot_bound pos : (slot pos < Z.to_nat Capacity)%nat.
Proof using.
  rewrite slot_mod. pose proof capacity_pos. pose proof (Z.mod_pos_bound pos Capacity). lia.
Qed.

Lemma wrap_sub a b : wrap_u64 (wrap_u64 a - wrap_u64 b) = wrap_u64 (a - b).
Proof using. unfold wrap_u64. by rewrite <- Zminus_mod. Qed.

Lemma wrap_succ a : wrap_u64 (wrap_u64 a + 1) = wrap_u64 (a + 1).
Proof using. unfold wrap_u64. by rewrite Z.add_mod_idemp_l by done. Qed.

(** A distance up to the capacity survives the wrap-around. *)
Lemma wrap_distance W R : 0 <= W - R <= Capacity → wrap_u64 (W - R) = W - R.
Proof using.
  intros H. apply wrap_u64_id. unfold in_uint64.
  destruct capacity_divides as (n & -> & Hn). pose proof capacity_pos. nia.
Qed.

Lemma wrap_equal W R : 0 <= W - R <= Capacity → wrap_u64 R = wrap_u64 W → W = R.
Proof using.
  intros H Heq. pose proof (wrap_distance W R H) as Hd.
  rewrite <- wrap_sub, Heq, Z.sub_diag in Hd.
  change (wrap_u64 0) with 0 in Hd. lia.
Qed.

(** Two live positions use different slots. *)
Lemma slot_ne a b : a < b < a + Capacity → slot a ≠ slot b.
Proof using.
  intros H. rewrite !slot_mod. pose proof capacity_pos.
  pose proof (Z.mod_pos_bound a Capacity). pose proof (Z.mod_pos_bound b Capacity).
  intros Heq. assert (Hm : a mod Capacity = b mod Capacity) by lia.
  pose proof (Z.div_mod a Capacity ltac:(lia)) as Ha.
  pose proof (Z.div_mod b Capacity ltac:(lia)) as Hb.
  assert (Hd : b - a = Capacity * (b / Capacity - a / Capacity)) by lia.
  revert Hd. generalize (b / Capacity - a / Capacity). intros x Hd.
  destruct (Z.le_gt_cases x 0); nia.
Qed.

(** *** The diagram *)

Lemma holds_initial zero : holds (empty_ring zero) 0 0 [].
Proof using.
  pose proof capacity_pos. split; cbn; try done; try lia. by rewrite length_replicate.
Qed.

Lemma producer_ok_pop r r' W R p :
  r'.(buffer) = r.(buffer) → producer_ok r W R p → producer_ok r' W (R + 1) p.
Proof using.
  intros Hb. destruct p as [[item []]|]; cbn; try done; rewrite ?Hb; intuition lia.
Qed.

(** Every atomic action either leaves the queue alone or, where the call
    returns, is the queue's own step with the same result. *)
Lemma simulation s label s' q :
  simulates s q → step s label s' →
  ∃ q', simulates s' q' ∧
    match label with None => q' = q | Some c => queue_step q c q' end.
Proof using.
  intros (W & R & Hh & Hp & Hc) Hstep. pose proof Hh as [Hw Hr Hrange Hlen Hcap Hbuf Hslots].
  pose proof capacity_pos as Hpos. destruct Hstep as [Hstep|Hstep]; inversion Hstep; subst; cbn in *.
  - exists q. split; [|done]. by exists W, R.
  - destruct pc as [|wp|wp|wp]; cbn in *; try case_match eqn:E; simplify_eq/=.
    + exists q. split; [|done]. by exists W, R.
    + exists q. split; [|done]. exists W, R. split_and!; try done.
      rewrite Hr, wrap_sub, wrap_distance in E by lia. cbn. lia.
    + destruct Hp as [-> Hroom]. exists q. split; [|done]. exists W, R. split_and!; cbn; try done.
      * rewrite slot_wrap. split; cbn; try done; [by rewrite length_insert|].
        intros i x Hi. apply lookup_lt_Some in Hi as Hlt. rewrite list_lookup_insert_ne; [by apply Hslots|].
        intros Heq. apply (slot_ne (R + Z.of_nat i) W); [lia|done].
      * rewrite slot_wrap. split_and!; try done. apply list_lookup_insert_eq.
        rewrite Hbuf. apply slot_bound.
  - destruct pc as [|wp|wp|wp]; cbn in *; try case_match eqn:E; simplify_eq/=.
    + exists q. split.
      * by exists W, R.
      * rewrite Hr, wrap_sub, wrap_distance in E by lia. constructor. lia.
    + destruct Hp as (-> & Hroom & Hin). exists (q ++ [item]). split; [|constructor; lia].
      exists (W + 1), R. split_and!; cbn; try done.
      * split; cbn; try done; try lia.
        -- apply wrap_succ.
        -- rewrite length_app. cbn. lia.
        -- intros i x Hi. apply lookup_app_Some in Hi as [Hi|[Hi Hx]]; [by apply Hslots|].
           apply list_lookup_singleton_Some in Hx as [Hz ->].
           replace (R + Z.of_nat i) with W by lia. done.
      * destruct c as [[]|]; cbn in *; try done.
        -- destruct Hc. split; [done|]. by destruct q.
        -- destruct Hc. split; [done|]. by destruct q.
  - exists q. split; [|done]. by exists W, R.
  - destruct pc as [|rp|rp|rp x]; cbn in *; try case_match eqn:E; simplify_eq/=.
    + exists q. split; [|done]. by exists W, R.
    + exists q. split; [|done]. exists W, R. split_and!; try done. cbn. split; [done|].
      intros ->. cbn in Hlen. zbool. apply E. rewrite Hw. f_equal. lia.
    + destruct Hc as [-> Hne]. rewrite slot_wrap in E.
      destruct q as [|x q]; [done|]. pose proof (Hslots 0%nat x eq_refl) as Hx.
      rewrite Z.add_0_r, E in Hx. injection Hx as <-.
      eexists. split; [|done]. by exists W, R.
  - destruct pc as [|rp|rp|rp y]; cbn in *; try case_match eqn:E; simplify_eq/=.
    + exists q. zbool. rewrite Hw in E. apply wrap_equal in E; [|lia]. split; [by exists W, R|].
      destruct q; [constructor|cbn in Hlen; lia].
    + destruct Hc as [-> Hne]. rewrite slot_wrap in E.
      destruct q as [|x q]; [done|]. pose proof (Hslots 0%nat x eq_refl) as Hx.
      rewrite Z.add_0_r in Hx. congruence.
    + destruct Hc as [-> Hhead]. destruct q as [|x q]; [done|]. cbn in Hhead, Hlen. simplify_eq/=.
      exists q. split; [|constructor]. exists W, (R + 1). split_and!; cbn; try done.
      * split; cbn; try done; try lia; [apply wrap_succ|].
        intros i x Hi. replace (R + 1 + Z.of_nat i) with (R + Z.of_nat (S i)) by lia. by apply Hslots.
      * by eapply producer_ok_pop.
Qed.

Lemma run_simulates zero s calls :
  run (initial_system zero) calls s → ∃ q, simulates s q ∧ queue_run [] calls q.
Proof using.
  remember (initial_system zero) as s0 eqn:Hs0. induction 1 as [s|s s' s'' calls Hr IH Hs|s s' s'' calls c Hr IH Hs].
  - exists []. subst s. split; [|constructor]. exists 0, 0. split_and!; [apply holds_initial|done..].
  - destruct (IH Hs0) as (q & Hsim & Hq). destruct (simulation _ _ _ _ Hsim Hs) as (q' & Hsim' & ->).
    by exists q.
  - destruct (IH Hs0) as (q & Hsim & Hq). destruct (simulation _ _ _ _ Hsim Hs) as (q' & Hsim' & Hstep).
    exists q'. split; [done|]. by eapply queue_run_snoc.
Qed.

(** *** Schedules

    The choice of the thread that moves next makes a run executable. *)

Inductive turn : Type := CallPush (item : T) | CallPop | ActPush | ActPop.

Definition take_turn (t : turn) (s : system) : option (option call * system) :=
  match t, s with
  | CallPush item, mkSystem r None c => Some (None, mkSystem r (Some (item, PushStart)) c)
  | ActPush, mkSystem r (Some (item, pc)) c =>
      match push_action item pc r with
      | (r', inl pc') => Some (None, mkSystem r' (Some (item, pc')) c)
      | (r', inr ok) => Some (Some (Pushed item ok), mkSystem r' None c)
      end
  | CallPop, mkSystem r p None => Some (None, mkSystem r p (Some PopStart))
  | ActPop, mkSystem r p (Some pc) =>
      match pop_action pc r with
      | (r', inl pc') => Some (None, mkSystem r' p (Some pc'))
      | (r', inr x) => Some (Some (Popped x), mkSystem r' p None)
      end
  | _, _ => None
  end.

Fixpoint take_turns (ts : list turn) (s : system) (calls : list call) : option (list call * system) :=
  match ts with
  | [] => Some (calls, s)
  | t :: ts => '(label, s') ← take_turn t s;
               take_turns ts s' (match label with Some c => calls ++ [c] | None => calls end)
  end.

Lemma take_turn_step t s label s' : take_turn t s = Some (label, s') → step s label s'.
Proof using.
  destruct t, s as [r [[x pc]|] [pc'|]]; cbn; try done; intros Ht; repeat case_match; simplify_eq;
    first [left; by econstructor | right; by econstructor].
Qed.

Lemma take_turns_run ts s0 s calls0 calls s' :
  run s0 calls0 s → take_turns ts s calls0 = Some (calls, s') → run s0 calls s'.
Proof using.
  revert s calls0. induction ts as [|t ts IH]; intros s calls0 Hr; cbn; [by intros [= <- <-]|].
  destruct (take_turn t s) as [[label s1]|] eqn:Ht; [|done]. cbn. intros H. eapply IH, H.
  apply take_turn_step in Ht. destruct label; [by eapply run_call|by eapply run_silent].
Qed.

Lemma schedule_run ts s calls s' : take_turns ts s [] = Some (calls, s') → run s calls s'.
Proof using. apply take_turns_run. constructor. Qed.

(** The items of the successful calls. *)
Definition pushed (calls : list call) : list T :=
  omap (λ c, match c with Pushed x true => Some x | _ => None end) calls.
Definition popped (calls : list call) : list T :=
  omap (λ c, match c with Popped (Some x) => Some x | _ => None end) calls.

Lemma queue_run_fifo q0 calls q :
  queue_run q0 calls q → q0 ++ pushed calls = popped calls ++ q.
Proof using.
  unfold pushed, popped. induction 1 as [q|q q' q'' calls c Hr IH Hs]; [by rewrite app_nil_r|].
  rewrite !omap_app. destruct Hs; cbn; rewrite ?app_nil_r.
  - by rewrite app_assoc, IH, app_assoc.
  - exact IH.
  - by rewrite IH, <- app_assoc.
  - by rewrite IH, app_nil_r.
Qed.

(** C13: However the actions of the producer and the consumer interleave, and
    however often the positions wrap, the calls return what a bounded
    first-in first-out queue returns when each call takes effect at the moment
    it returns: pushes fail only when the queue is full, pops only when it is
    empty, and the items popped are the items pushed, in order, none lost or
    repeated. *)
Theorem ring_refines_queue zero s calls :
  run (initial_system zero) calls s →
  ∃ q, queue_run [] calls q ∧ Z.of_nat (length q) <= Capacity ∧ pushed calls = popped calls ++ q.
Proof using.
  intros Hr. destruct (run_simulates zero s calls Hr) as (q & (W & R & Hh & _) & Hq).
  exists q. split_and!; [done| |].
  - pose proof (hd_length _ _ _ _ Hh). pose proof (hd_capacity _ _ _ _ Hh). lia.
  - by rewrite <- (queue_run_fifo _ _ _ Hq).
Qed.

(** *** The size, seen by one of the threads *)

Definition pops (s s' : system) : Prop := ∃ label, pop_step s label s'.
Definition pushes (s s' : system) : Prop := ∃ label, push_step s label s'.

Lemma pops_write s s' : rtc pops s s' → s'.(sys_ring).(write_pos) = s.(sys_ring).(write_pos).
Proof using.
  induction 1 as [|s s1 s2 [label Hs] _ IH]; [done|]. rewrite IH. clear IH.
  inversion Hs as [|r p pc r' pc' Ha|r p pc r' x Ha]; subst; cbn; [done| |];
    destruct pc; cbn in Ha; try case_match; by simplify_eq/=.
Qed.

Lemma pushes_read s s' : rtc pushes s s' → s'.(sys_ring).(read_pos) = s.(sys_ring).(read_pos).
Proof using.
  induction 1 as [|s s1 s2 [label Hs] _ IH]; [done|]. rewrite IH. clear IH.
  inversion Hs as [|r c it pc r' pc' Ha|r c it pc r' x Ha]; subst; cbn; [done| |];
    destruct pc; cbn in Ha; try case_match; by simplify_eq/=.
Qed.

Lemma simulates_rtc s s' q :
  simulates s q → rtc (λ s s', ∃ label, step s label s') s s' → ∃ q', simulates s' q'.
Proof using.
  intros Hs Hr. revert q Hs. induction Hr as [s|s s1 s2 [label Hst] _ IH]; intros q Hs; [by exists q|].
  destruct (simulation _ _ _ _ Hs Hst) as (q' & Hs' & _). by eapply IH.
Qed.

(** [size], called by one of the two threads while the other one runs,
    returns a number between 0 and the capacity, although its two loads happen
    at different moments. *)
Theorem ring_size_in_range zero s calls s' :
  run (initial_system zero) calls s → rtc pops s s' ∨ rtc pushes s s' →
  0 <= size_of s.(sys_ring).(write_pos) s'.(sys_ring).(read_pos) <= Capacity.
Proof using.
  intros Hr Hobs. destruct (run_simulates zero s calls Hr) as (q & Hsim & _).
  assert (Hsz : ∀ s q, simulates s q →
            0 <= size_of s.(sys_ring).(write_pos) s.(sys_ring).(read_pos) <= Capacity).
  { intros s1 q1 (W & R & [-> -> ? Hl ? _ _] & _). unfold size_of.
    rewrite wrap_sub, wrap_distance; lia. }
  destruct Hobs as [H|H].
  - rewrite <- (pops_write _ _ H).
    destruct (simulates_rtc s s' q Hsim) as [q' Hq']; [|by eapply Hsz].
    eapply rtc_subrel; [|exact H]. intros s1 s2 [l Hl]. exists l. by right.
  - rewrite (pushes_read _ _ H). by eapply Hsz.
Qed.
End ring.

(** ** An interleaved run on a buffer of two slots

    The consumer finds the buffer empty while the producer is at work, then
    takes the item. *)

Definition two_slots : capacity := mkCapacity 1 ltac:(lia).

Definition demo_calls : list (call (T := Z)) := [Popped None; Pushed 7 true; Popped (Some 7)].
Definition demo_end : system (T := Z) := mkSystem (mkRing 1 1 [7; 0]) None None.


Definition demo_schedule : list (turn (T := Z)) :=
  [CallPop; ActPop; CallPush 7; ActPush; ActPop; ActPush; ActPush; ActPush;
   CallPop; ActPop; ActPop; ActPop; ActPop].

Lemma demo_run : run two_slots (initial_system two_slots 0) demo_calls demo_end.
Proof. apply (schedule_run two_slots demo_schedule). reflexivity. Defined.

Lemma ring_refines_queue_witness :
  ∃ q, queue_run two_slots [] demo_calls q ∧ Z.of_nat (length q) <= Capacity two_slots ∧
    pushed demo_calls = popped demo_calls ++ q.
Proof. apply (ring_refines_queue two_slots 0 demo_end), demo_run. Defined.

Lemma ring_size_in_range_witness :
  0 <= size_of demo_end.(sys_ring).(write_pos) demo_end.(sys_ring).(read_pos) <= Capacity two_slots.
Proof.
  apply (ring_size_in_range two_slots 0 demo_end demo_calls demo_end demo_run). left. apply rtc_refl.
Defined.
