(* ===== verification/Wire.v ===== *)
(** * Wire formats: what the codecs share

    Encoders write into a buffer of known length, decoders read from one; both
    are chained field by field, with the length that is left.  [transports]
    relates an encoder and a decoder on a value, and composes along the chain. *)

From S2P Require Import Prelude.

(** ** Bytes and narrow integers *)

(** A byte is a number below 256. *)
Definition is_byte (b : Z) : Prop := 0 <= b < 256.
#[global] Instance is_byte_dec b : Decision (is_byte b).
Proof. unfold is_byte. apply _. Defined.

Definition wrap_u8 (z : Z) : Z := z mod 2 ^ 8.
Definition wrap_u16 (z : Z) : Z := z mod 2 ^ 16.
Definition wrap_u32 (z : Z) : Z := z mod 2 ^ 32.
Definition wrap_s32 (z : Z) : Z := (z + 2 ^ 31) mod 2 ^ 32 - 2 ^ 31.
Definition in_uint8 (z : Z) : Prop := 0 <= z < 2 ^ 8.
Definition in_uint16 (z : Z) : Prop := 0 <= z < 2 ^ 16.
Definition in_uint32 (z : Z) : Prop := 0 <= z < 2 ^ 32.
Definition in_int32 (z : Z) : Prop := - 2 ^ 31 <= z < 2 ^ 31.
Definition in_int16 (z : Z) : Prop := - 2 ^ 15 <= z < 2 ^ 15.
Definition in_int8 (z : Z) : Prop := - 2 ^ 7 <= z < 2 ^ 7.

Lemma wrap_u8_id z : in_uint8 z → wrap_u8 z = z.
Proof. intros. by apply Z.mod_small. Qed.
Lemma wrap_u16_id z : in_uint16 z → wrap_u16 z = z.
Proof. intros. by apply Z.mod_small. Qed.
Lemma wrap_u32_id z : in_uint32 z → wrap_u32 z = z.
Proof. intros. by apply Z.mod_small. Qed.
Lemma wrap_u32_range z : in_uint32 (wrap_u32 z).
Proof. apply Z.mod_pos_bound. done. Qed.
Lemma wrap_s32_range z : in_int32 (wrap_s32 z).
Proof. unfold in_int32, wrap_s32. pose proof (Z.mod_pos_bound (z + 2 ^ 31) (2 ^ 32)). lia. Qed.
Lemma wrap_s32_id z : in_int32 z → wrap_s32 z = z.
Proof. unfold in_int32, wrap_s32. intros. rewrite Z.mod_small; lia. Qed.

Lemma in_uint8_64 v : in_uint8 v → in_uint64 v.
Proof. unfold in_uint8, in_uint64, uint64_mod. lia. Qed.
Lemma in_uint32_64 v : in_uint32 v → in_uint64 v.
Proof. unfold in_uint32, in_uint64, uint64_mod. lia. Qed.

(** A signed time survives the unsigned field it is cast to. *)
Lemma wrap_u64_range z : in_uint64 (wrap_u64 z).
Proof. apply Z.mod_pos_bound. done. Qed.

Lemma timestamp_back ts : in_int64 ts → wrap_s64 (wrap_u64 ts) = ts.
Proof.
  intros Hts. unfold wrap_s64, wrap_u64. rewrite Z.add_mod_idemp_l by done. by apply wrap_s64_id.
Qed.

(** ** Encoders *)

(** The bytes written, or the failure (a null pointer) for want of room;
    [Undefined] is an access outside an array or a signed overflow. *)
Inductive written : Type :=
  | Wrote (bs : list Z)
  | NoRoom
  | Undefined.

(** An encoder, given the length that is left in the buffer. *)
Definition encoder : Type := Z → written.

(** Write these bytes if they fit. *)
Definition write (bs : list Z) : encoder :=
  λ remaining, if Z.of_nat (length bs) >? remaining then NoRoom else Wrote bs.

(** The next field, at the advanced pointer with the length that remains. *)
Definition then_write (e1 e2 : encoder) : encoder :=
  λ remaining,
    match e1 remaining with
    | Wrote bs =>
        match e2 (remaining - Z.of_nat (length bs)) with
        | Wrote cs => Wrote (bs ++ cs)
        | r => r
        end
    | r => r
    end.
Declare Scope wire_scope.
Delimit Scope wire_scope with wire.
#[global] Open Scope wire_scope.
Notation "e1 ;+ e2" := (then_write e1 e2) (at level 60, right associativity) : wire_scope.
Definition write_nothing : encoder := write [].

(** ** Decoders *)

(** The value read and the bytes after it, or a null pointer. *)
Definition decoder (A : Type) : Type := list Z → option (A * list Z).

#[global] Instance decoder_ret : MRet decoder := λ A a bs, Some (a, bs).
#[global] Instance decoder_bind : MBind decoder := λ A B k d bs,
  match d bs with Some (a, rest) => k a rest | None => None end.

Definition read_failure {A} : decoder A := λ _, None.

(** [memcpy] of [n] bytes after the check of the length. *)
Definition read_bytes (n : nat) : decoder (list Z) := λ bs,
  if (length bs <? n)%nat then None else Some (take n bs, drop n bs).

(** ** What an encoder and a decoder owe each other

    On the value [a] the encoder writes a fixed byte string of at most [max]
    bytes whenever it fits, and refuses otherwise; the decoder gives [a] back
    and leaves what follows; a truncated string is not decoded. *)
Record carries {A} (e : encoder) (d : decoder A) (a : A) (max : Z) (bs : list Z) : Prop := {
  ca_length : Z.of_nat (length bs) <= max;
  ca_bytes : Forall is_byte bs;
  ca_write n : e n = write bs n;
  ca_read rest : d (bs ++ rest) = Some (a, rest);
  ca_truncated p q : bs = p ++ q → q ≠ [] → d p = None
}.

Definition transports {A} (e : encoder) (d : decoder A) (a : A) (max : Z) : Prop :=
  ∃ bs, carries e d a max bs.

Lemma then_write_write bs cs n : (write bs ;+ write cs) n = write (bs ++ cs) n.
Proof.
  unfold then_write, write. rewrite length_app. case_ifs; try done; try lia.
Qed.

Lemma then_write_eq e1 e2 bs cs :
  (∀ n, e1 n = write bs n) → (∀ n, e2 n = write cs n) → ∀ n, (e1 ;+ e2) n = write (bs ++ cs) n.
Proof.
  intros H1 H2 n. rewrite <- then_write_write. unfold then_write. rewrite H1.
  destruct (write bs n); [|done..]. by rewrite H2.
Qed.

Lemma transports_ret {A} (a : A) : transports write_nothing (mret a) a 0.
Proof.
  exists []. split; try done. intros p q Hpq Hq. by destruct p, q.
Qed.

Lemma transports_bind {A B} e1 e2 (d : decoder A) (k : A → decoder B) a b m1 m2 :
  transports e1 d a m1 → transports e2 (k a) b m2 → transports (e1 ;+ e2) (d ≫= k) b (m1 + m2).
Proof.
  intros [bs [Hl1 Hb1 Hw1 Hr1 Ht1]] [cs [Hl2 Hb2 Hw2 Hr2 Ht2]]. exists (bs ++ cs). split.
  - rewrite length_app. lia.
  - by apply Forall_app.
  - intros n. rewrite <- then_write_write. unfold then_write. rewrite Hw1.
    destruct (write bs n); [|done..]. by rewrite Hw2.
  - intros rest. unfold mbind, decoder_bind. by rewrite <- app_assoc, Hr1.
  - intros p q Hpq Hq. unfold mbind, decoder_bind.
    destruct (decide (length bs <= length p)%nat) as [Hle|Hlt].
    + apply app_eq_inv in Hpq as [(k' & -> & ->)|(k' & -> & ->)].
      * rewrite length_app in Hle. destruct k'; [|cbn in Hle; lia]. rewrite app_nil_r in *.
        rewrite <- (app_nil_r p), Hr1. by eapply (Ht2 []).
      * rewrite Hr1. by eapply Ht2.
    + apply app_eq_inv in Hpq as [(k' & -> & ->)|(k' & -> & ->)].
      * rewrite (Ht1 p k'); [done..|]. intros ->. rewrite app_nil_r in Hlt. lia.
      * rewrite length_app in Hlt. lia.
Qed.

Lemma transports_weaken {A} e (d : decoder A) a m m' : transports e d a m → m <= m' → transports e d a m'.
Proof. intros [bs []] ?. exists bs. split; try done. lia. Qed.

Lemma transports_ext {A} e e' (d d' : decoder A) a m :
  (∀ n, e' n = e n) → (∀ bs, d' bs = d bs) → transports e d a m → transports e' d' a m.
Proof.
  intros He Hd [bs [H1 H2 H3 H4 H5]]. exists bs. split; try done.
  - intros n. by rewrite He.
  - intros rest. by rewrite Hd.
  - intros p q ??. rewrite Hd. by eapply H5.
Qed.

(** The bytes of a plain write are the ones carried. *)
Lemma transports_carries {A} bs (d : decoder A) a m : transports (write bs) d a m → carries (write bs) d a m bs.
Proof.
  intros [cs [Hl Hb Hw Hr Ht]]. set (n := Z.of_nat (length bs + length cs)).
  specialize (Hw n) as Hn. unfold write in Hn.
  rewrite !Z.gtb_ltb, (proj2 (Z.ltb_ge _ _)), (proj2 (Z.ltb_ge _ _)) in Hn by (unfold n; lia).
  injection Hn as ->. by split.
Qed.

Lemma transports_read {A} bs (d : decoder A) a m rest :
  transports (write bs) d a m → d (bs ++ rest) = Some (a, rest).
Proof. intros H%transports_carries. apply H. Qed.

(** The decoded value may be converted. *)
Lemma transports_map {A B} e (d : decoder A) (f : A → B) a m :
  transports e d a m → transports e (d ≫= λ x, mret (f x)) (f a) m.
Proof.
  intros H. replace m with (m + 0) by lia.
  eapply transports_ext; [|reflexivity|eapply transports_bind; [exact H|apply transports_ret]].
  intros n. destruct H as [bs [_ _ Hw _ _]]. rewrite Hw.
  transitivity ((write bs ;+ write []) n); [by rewrite then_write_write, app_nil_r|].
  unfold then_write. by rewrite Hw.
Qed.

Lemma transports_bytes bs : Forall is_byte bs →
  transports (write bs) (read_bytes (length bs)) bs (Z.of_nat (length bs)).
Proof.
  intros Hbs. exists bs. split; try done.
  - intros rest. unfold read_bytes. rewrite length_app.
    destruct (Nat.ltb_spec (length bs + length rest) (length bs)); [lia|].
    by rewrite take_app_length, drop_app_length.
  - intros p q -> Hq. unfold read_bytes. rewrite length_app.
    destruct (Nat.ltb_spec (length p) (length p + length q)) as [|Hge]; [done|].
    destruct q; [done|cbn in Hge; lia].
Qed.

(** ** Little-endian integers *)

Fixpoint le_bytes (n : nat) (v : Z) : list Z :=
  match n with
  | O => []
  | S n' => v mod 256 :: le_bytes n' (v / 256)
  end.

Fixpoint le_value (bs : list Z) : Z :=
  match bs with
  | [] => 0
  | b :: bs' => b + 256 * le_value bs'
  end.

(** The signed reading of [n] bytes. *)
Definition le_signed (n : nat) (bs : list Z) : Z :=
  let half := 2 ^ (8 * Z.of_nat n - 1) in (le_value bs + half) mod (2 * half) - half.

Lemma length_le_bytes n v : length (le_bytes n v) = n.
Proof. revert v. induction n as [|n IH]; intros v; cbn; [done|]. by rewrite IH. Qed.

Lemma le_bytes_byte n v : Forall is_byte (le_bytes n v).
Proof.
  revert v. induction n as [|n IH]; intros v; cbn; constructor; [|done].
  apply Z.mod_pos_bound. lia.
Qed.

Lemma le_value_bytes n v : le_value (le_bytes n v) = v mod 256 ^ Z.of_nat n.
Proof.
  revert v. induction n as [|n IH]; intros v.
  - cbn. by rewrite Z.mod_1_r.
  - cbn [le_bytes le_value]. rewrite IH, Nat2Z.inj_succ, Z.pow_succ_r by lia.
    rewrite Z.rem_mul_r by lia. lia.
Qed.

Lemma le_value_id n v : 0 <= v < 2 ^ (8 * Z.of_nat n) → le_value (le_bytes n v) = v.
Proof.
  intros H. rewrite le_value_bytes. apply Z.mod_small.
  change 256 with (2 ^ 8). by rewrite <- Z.pow_mul_r by lia.
Qed.

Lemma le_signed_id n v : (0 < n)%nat →
  - 2 ^ (8 * Z.of_nat n - 1) <= v < 2 ^ (8 * Z.of_nat n - 1) → le_signed n (le_bytes n v) = v.
Proof.
  intros Hn H. unfold le_signed. rewrite le_value_bytes. change 256 with (2 ^ 8).
  rewrite <- Z.pow_mul_r by lia.
  replace (2 ^ (8 * Z.of_nat n)) with (2 * 2 ^ (8 * Z.of_nat n - 1));
    [|rewrite <- Z.pow_succ_r by lia; f_equal; lia].
  rewrite Z.add_mod_idemp_l by lia. rewrite Z.mod_small; lia.
Qed.

(** Chains of fields may be regrouped. *)
Lemma then_write_assoc e1 e2 e3 n : ((e1 ;+ e2) ;+ e3) n = (e1 ;+ (e2 ;+ e3)) n.
Proof.
  unfold then_write. destruct (e1 n) as [bs| |]; try done.
  destruct (e2 (n - Z.of_nat (length bs))) as [cs| |]; try done.
  rewrite length_app, Nat2Z.inj_add, Z.sub_add_distr. destruct (e3 _) as [ds| |]; try done.
  by rewrite app_assoc.
Qed.

Lemma transports_done {A} (a b : A) : a = b → transports write_nothing (mret a) b 0.
Proof. intros ->. apply transports_ret. Qed.

(** One field of a chain. *)
Ltac wire_field tac := eapply transports_bind; [tac|cbv beta].

(** ** Packed structs

    [memcpy] of a packed struct is the concatenation of its fields, integers
    in the little-endian order of the host. *)

Definition read_uint (n : nat) : decoder Z := bs ← read_bytes n; mret (le_value bs).
Definition read_int (n : nat) : decoder Z := bs ← read_bytes n; mret (le_signed n bs).

Lemma transports_uint n v : 0 <= v < 2 ^ (8 * Z.of_nat n) →
  transports (write (le_bytes n v)) (read_uint n) v (Z.of_nat n).
Proof.
  intros Hv. unfold read_uint.
  pose proof (transports_bytes (le_bytes n v) (le_bytes_byte n v)) as H. rewrite length_le_bytes in H.
  apply (transports_map _ _ le_value) in H. by rewrite le_value_id in H.
Qed.

Lemma transports_int n v : (0 < n)%nat → - 2 ^ (8 * Z.of_nat n - 1) <= v < 2 ^ (8 * Z.of_nat n - 1) →
  transports (write (le_bytes n v)) (read_int n) v (Z.of_nat n).
Proof.
  intros Hn Hv. unfold read_int.
  pose proof (transports_bytes (le_bytes n v) (le_bytes_byte n v)) as H. rewrite length_le_bytes in H.
  apply (transports_map _ _ (le_signed n)) in H. by rewrite le_signed_id in H.
Qed.

Lemma transports_u8 v : in_uint8 v → transports (write (le_bytes 1 v)) (read_uint 1) v 1.
Proof. apply (transports_uint 1). Qed.
Lemma transports_u16 v : in_uint16 v → transports (write (le_bytes 2 v)) (read_uint 2) v 2.
Proof. apply (transports_uint 2). Qed.
Lemma transports_u32 v : in_uint32 v → transports (write (le_bytes 4 v)) (read_uint 4) v 4.
Proof. apply (transports_uint 4). Qed.
Lemma transports_u64 v : in_uint64 v → transports (write (le_bytes 8 v)) (read_uint 8) v 8.
Proof. apply (transports_uint 8). Qed.
Lemma transports_s8 v : in_int8 v → transports (write (le_bytes 1 v)) (read_int 1) v 1.
Proof. apply (transports_int 1). lia. Qed.
Lemma transports_s16 v : in_int16 v → transports (write (le_bytes 2 v)) (read_int 2) v 2.
Proof. apply (transports_int 2). lia. Qed.
Lemma transports_s32 v : in_int32 v → transports (write (le_bytes 4 v)) (read_int 4) v 4.
Proof. apply (transports_int 4). lia. Qed.
Lemma transports_s64 v : in_int64 v → transports (write (le_bytes 8 v)) (read_int 8) v 8.
Proof. intros Hv. apply (transports_int 8); [lia|]. unfold in_int64, int64_min, int64_max in Hv. lia. Qed.

(** An array of [n] characters. *)
Definition is_chars (n : nat) (bs : list Z) : Prop := length bs = n ∧ Forall is_byte bs.
#[global] Instance is_chars_dec n bs : Decision (is_chars n bs).
Proof. unfold is_chars. apply _. Defined.

Lemma transports_chars n bs : is_chars n bs →
  transports (write bs) (read_bytes n) bs (Z.of_nat n).
Proof. intros [<- Hbs]. by apply transports_bytes. Qed.

Lemma transports_struct {A B} bs cs (d : decoder A) (k : A → decoder B) a b m1 m2 :
  transports (write bs) d a m1 → transports (write cs) (k a) b m2 →
  transports (write (bs ++ cs)) (d ≫= k) b (m1 + m2).
Proof.
  intros H1 H2. eapply transports_ext; [|reflexivity|by eapply transports_bind].
  intros n. symmetry. apply then_write_write.
Qed.

Lemma transports_struct_end {A} (a b : A) : a = b → transports (write []) (mret a) b 0.
Proof. apply transports_done. Qed.

(** A prefix of two byte strings cuts the first, or leaves it whole. *)
Lemma prefix_split (bs cs p q : list Z) : bs ++ cs = p ++ q → q ≠ [] →
  (∃ r, bs = p ++ r ∧ r ≠ []) ∨ ∃ r, p = bs ++ r ∧ cs = r ++ q.
Proof.
  intros Heq Hq. apply app_eq_inv in Heq as [(r & -> & ->)|(r & -> & ->)]; [|by right; exists r].
  destruct r as [|x r]; [right; exists []; by rewrite !app_nil_r|]. left. by exists (x :: r).
Qed.

Create HintDb wire.
#[export] Hint Resolve transports_u8 transports_u16 transports_u32 transports_u64
  transports_s8 transports_s16 transports_s32 transports_s64 transports_chars : wire.
Ltac struct_fields :=
  repeat (eapply transports_struct; [solve [auto with wire]|cbv beta]);
  try apply transports_struct_end.

(** What a message type offers to the framing of a protocol: its bytes in both
    directions, its size, and the values its fields can take. *)
Class WireStruct (A : Type) := {
  ws_put : A → list Z;
  ws_get : decoder A;
  ws_size : nat;
  ws_fits : A → Prop
}.

Class WireStructOk (A : Type) `{WireStruct A} : Prop := {
  ws_length a : ws_fits a → length (ws_put a) = ws_size;
  ws_transports a : ws_fits a → transports (write (ws_put a)) ws_get a (Z.of_nat ws_size)
}.

(** The laws of a layout, field by field. *)
Tactic Notation "struct_ok" reference(layout) :=
  let m := fresh "m" in let H := fresh "H" in
  split; intros m H; cbn in H; destruct_and?; cbv beta iota delta [ws_put ws_size ws_get layout];
  [ repeat match goal with H : is_chars _ _ |- _ => destruct H end;
    rewrite ?length_app, ?length_le_bytes; cbn [length]; lia
  | eapply transports_weaken; [struct_fields; by destruct m|lia] ].

(** ** Reading within bounds *)

(** The decoder needs [n] bytes and consumes them, whatever they are. *)
Definition reads {A} (d : decoder A) (n : nat) : Prop :=
  ∀ bs, (n <= length bs)%nat → ∃ a, d bs = Some (a, drop n bs).

Lemma reads_ret {A} (a : A) : reads (mret a) 0.
Proof. intros bs _. by exists a. Qed.

Lemma reads_bind {A B} (d : decoder A) (k : A → decoder B) n m :
  reads d n → (∀ a, reads (k a) m) → reads (d ≫= k) (n + m).
Proof.
  intros Hd Hk bs Hlen. destruct (Hd bs) as [a Ha]; [lia|].
  destruct (Hk a (drop n bs)) as [b Hb]; [rewrite length_drop; lia|].
  exists b. unfold mbind, decoder_bind. by rewrite Ha, Hb, drop_drop.
Qed.

Lemma reads_bytes n : reads (read_bytes n) n.
Proof.
  intros bs Hlen. exists (take n bs). unfold read_bytes.
  by destruct (Nat.ltb_spec (length bs) n); [lia|].
Qed.

Lemma reads_map {A B} (d : decoder A) (f : A → B) n : reads d n → reads (d ≫= λ x, mret (f x)) n.
Proof. intros Hd. rewrite <- (Nat.add_0_r n). apply reads_bind; [done|]. intros a. apply reads_ret. Qed.

Lemma reads_uint n : reads (read_uint n) n.
Proof. apply (reads_map _ le_value), reads_bytes. Qed.
Lemma reads_int n : reads (read_int n) n.
Proof. apply (reads_map _ (le_signed n)), reads_bytes. Qed.

Lemma reads_size {A} (d : decoder A) n m : reads d n → n = m → reads d m.
Proof. by intros ? <-. Qed.

#[export] Hint Resolve reads_ret reads_bytes reads_uint reads_int : wire.
Ltac struct_reads :=
  eapply reads_size; [repeat (eapply reads_bind; [solve [auto with wire]|intros ?]); apply reads_ret|reflexivity].

(** A layout can be read from any bytes that are long enough. *)
Class WireStructReads (A : Type) `{WireStruct A} : Prop :=
  ws_reads : reads (ws_get (A := A)) (ws_size (A := A)).
