(* ===== verification/Doubles.v ===== *)
(** * Double precision arithmetic

    What the code computes in [double]: IEEE 754 binary64, rounded to nearest
    with ties to even, on the specification floats of the Standard Library.
    [val] is the real number a double stands for; the theorems bound the
    relative error of each operation, by [unit_roundoff], where the exact
    result is in the normal range. *)

From Stdlib Require Import SpecFloat Rbase Rfunctions Lra.
From S2P Require Import Prelude.

#[local] Open Scope Z_scope.

(** ** Operations *)

Abbreviation double := spec_float (only parsing).

Definition dadd (x y : double) : double := SFadd 53 1024 x y.
Definition dmul (x y : double) : double := SFmul 53 1024 x y.
Definition ddiv (x y : double) : double := SFdiv 53 1024 x y.
Definition dlt (x y : double) : bool := SFltb x y.
Definition dle (x y : double) : bool := SFleb x y.
(** [static_cast<double>] of an integer. *)
Definition of_int (z : Z) : double := binary_normalize 53 1024 z 0 false.

(** [m * 2^e] and [n / d], as literals and conversions round them. *)
Definition of_dyadic (m e : Z) : double := binary_normalize 53 1024 m e false.
Definition of_ratio (sign : bool) (n d : positive) : double :=
  let '(q, e, l) := SFdiv_core_binary 53 1024 (Zpos n) 0 (Zpos d) 0 in
  binary_round_aux 53 1024 sign q e l.

Definition d0 : double := S754_zero false.
Definition d1 : double := of_int 1.

(** [static_cast<int64_t>]: towards zero, undefined outside the range. *)
Definition to_int (x : double) : option Z :=
  match x with
  | S754_zero _ => Some 0
  | S754_finite s m e =>
      let z := cond_Zopp s (Z.shiftl (Zpos m) e) in
      if bool_decide (in_int64 z) then Some z else None
  | _ => None
  end.
(** [static_cast<int64_t>(std::floor(x))]. *)
Definition floor_int (x : double) : option Z :=
  match x with
  | S754_zero _ => Some 0
  | S754_finite s m e =>
      let z := Z.shiftl (cond_Zopp s (Zpos m)) e in
      if bool_decide (in_int64 z) then Some z else None
  | _ => None
  end.

(** ** Values *)

Definition bpow (e : Z) : R := powerRZ 2 e.
Definition unit_roundoff : R := bpow (-53).

Definition val (x : double) : R :=
  match x with
  | S754_finite s m e => (IZR (cond_Zopp s (Zpos m)) * bpow e)%R
  | _ => 0%R
  end.
Definition finite (x : double) : Prop :=
  match x with S754_zero _ | S754_finite _ _ _ => True | _ => False end.

(** Within the relative error of one rounding. *)
Definition near (a x : R) : Prop := (Rabs (a - x) <= unit_roundoff * Rabs x)%R.
(** Zero, or of a magnitude at which doubles are neither subnormal nor
    infinite. *)
Definition in_range (x : R) : Prop := x = 0%R ∨ (bpow (-1022) <= Rabs x <= bpow 1023)%R.

(** ** Powers of two *)

Lemma Rabs_bounds a b : (Rabs a <= b)%R → (- b <= a <= b)%R.
Proof. unfold Rabs. destruct (Rcase_abs a); lra. Qed.

Lemma bpow_pos e : (0 < bpow e)%R.
Proof. apply powerRZ_lt. lra. Qed.
Lemma bpow_add a b : bpow (a + b) = (bpow a * bpow b)%R.
Proof. apply powerRZ_add. intros H. lra. Qed.
Lemma bpow_0 : bpow 0 = 1%R.
Proof. reflexivity. Qed.
Lemma bpow_1 : bpow 1 = 2%R.
Proof. apply powerRZ_1. Qed.
Lemma bpow_IZR n : 0 <= n → bpow n = IZR (2 ^ n).
Proof.
  intros Hn. pattern n. apply natlike_ind; [reflexivity| |done].
  intros k Hk IH. rewrite <- Z.add_1_r, bpow_add, IH, bpow_1, Z.pow_add_r, mult_IZR by lia. reflexivity.
Qed.
Lemma bpow_opp e : bpow (- e) = (/ bpow e)%R.
Proof.
  pose proof (bpow_pos e). assert (bpow e ≠ 0%R) by (intros ?; lra).
  apply (Rmult_eq_reg_l (bpow e)); [|done]. by rewrite <- bpow_add, Z.add_opp_diag_r, bpow_0, Rinv_r.
Qed.
Lemma bpow_m1 : bpow (-1) = (/ 2)%R.
Proof. rewrite <- bpow_1. apply (bpow_opp 1). Qed.
Lemma bpow_ge_1 n : 0 <= n → (1 <= bpow n)%R.
Proof. intros Hn. rewrite bpow_IZR by done. apply IZR_le. pose proof (Z.pow_pos_nonneg 2 n). lia. Qed.
Lemma bpow_le a b : a <= b → (bpow a <= bpow b)%R.
Proof.
  intros H. replace b with (a + (b - a)) by lia. rewrite bpow_add.
  pose proof (bpow_pos a). pose proof (bpow_ge_1 (b - a) ltac:(lia)). nra.
Qed.
Lemma bpow_lt_inv a b : (bpow a < bpow b)%R → a < b.
Proof. intros H. destruct (Z.lt_ge_cases a b) as [|Hge]; [done|]. apply bpow_le in Hge. lra. Qed.
Lemma bpow_lt a b : a < b → (bpow a < bpow b)%R.
Proof.
  intros H. apply Rlt_le_trans with (bpow (a + 1)); [|by apply bpow_le; lia].
  rewrite bpow_add, bpow_1. pose proof (bpow_pos a). lra.
Qed.

Lemma digits_size p : digits2_pos p = Pos.size p.
Proof. induction p; cbn; congruence. Qed.
Lemma digits_bounds p : 2 ^ (Zpos (digits2_pos p) - 1) <= Zpos p < 2 ^ Zpos (digits2_pos p).
Proof.
  rewrite digits_size. pose proof (Pos.size_gt p) as Hg. pose proof (Pos.size_le p) as Hl.
  apply Pos2Z.pos_lt_pos in Hg. apply Pos2Z.pos_le_pos in Hl.
  rewrite Pos2Z.inj_pow in Hg, Hl. split; [|done].
  change (Zpos p~0) with (2 * Zpos p) in Hl.
  replace (Zpos (Pos.size p)) with (1 + (Zpos (Pos.size p) - 1)) in Hl by lia.
  rewrite Z.pow_add_r, Z.pow_1_r in Hl by lia. lia.
Qed.

(** ** Shifting right with a location

    [y] is the number that [mrs] locates: exactly [shr_m], in the lower half of
    the unit above it, in the middle, or in the upper half. *)

Definition located (mrs : shr_record) (y : R) : Prop :=
  let m := IZR mrs.(shr_m) in
  match mrs.(shr_r), mrs.(shr_s) with
  | false, false => y = m
  | false, true => (m < y < m + / 2)%R
  | true, false => y = (m + / 2)%R
  | true, true => (m + / 2 < y < m + 1)%R
  end.

Lemma located_floor mrs y : located mrs y → (IZR mrs.(shr_m) <= y < IZR mrs.(shr_m) + 1)%R.
Proof. destruct mrs as [m [] []]; cbn; lra. Qed.

Lemma shr_1_located mrs y : 0 <= mrs.(shr_m) → located mrs y →
  0 <= (shr_1 mrs).(shr_m) ∧ located (shr_1 mrs) (y * bpow (-1)).
Proof.
  intros Hm H. rewrite bpow_m1. destruct mrs as [m r s]. cbn in Hm. split.
  - destruct m as [|[p|p|]|p]; cbn; lia.
  - destruct m as [|[p|p|]|p]; [| | | |lia].
    + destruct r, s; cbn in *; lra.
    + unfold located in *. cbn [shr_1 shr_m shr_r shr_s] in *. rewrite (Pos2Z.inj_xI p), plus_IZR, mult_IZR in H.
      destruct r, s; cbn [orb] in *; lra.
    + unfold located in *. cbn [shr_1 shr_m shr_r shr_s] in *. rewrite (Pos2Z.inj_xO p), mult_IZR in H.
      destruct r, s; cbn [orb] in *; lra.
    + destruct r, s; cbn in *; lra.
Qed.

Lemma iter_pos_nat {A} (f : A → A) n x : SpecFloat.iter_pos f n x = Nat.iter (Pos.to_nat n) f x.
Proof.
  revert x. induction n as [n IH|n IH|]; intros x; cbn [SpecFloat.iter_pos].
  - rewrite !IH, Pos2Nat.inj_xI. rewrite <- Nat.iter_add, <- Nat.iter_succ_r. f_equal. lia.
  - rewrite !IH, Pos2Nat.inj_xO, <- Nat.iter_add. f_equal. lia.
  - reflexivity.
Qed.

Lemma shr_located mrs e n y mrs' e' : 0 <= mrs.(shr_m) → located mrs y → shr mrs e n = (mrs', e') →
  0 <= mrs'.(shr_m) ∧ located mrs' (y * bpow (e - e')) ∧ e' = e + Z.max 0 n.
Proof.
  intros Hm H E. unfold shr in E. destruct n as [|n|n]; injection E as <- <-.
  - rewrite Z.sub_diag, bpow_0, Rmult_1_r. split_and!; [done|done|lia].
  - rewrite iter_pos_nat. replace (e - (e + Zpos n)) with (- Z.of_nat (Pos.to_nat n)) by lia.
    cut (∀ k, 0 <= (Nat.iter k shr_1 mrs).(shr_m) ∧ located (Nat.iter k shr_1 mrs) (y * bpow (- Z.of_nat k))).
    { intros Hk. destruct (Hk (Pos.to_nat n)). split_and!; [done|done|lia]. }
    intros k. induction k as [|k [IH1 IH2]]; [by change (- Z.of_nat 0) with 0; rewrite bpow_0, Rmult_1_r|].
    cbn [Nat.iter nat_rect]. replace (- Z.of_nat (S k)) with (- Z.of_nat k + -1) by lia.
    rewrite bpow_add, <- Rmult_assoc. by apply shr_1_located.
  - rewrite Z.sub_diag, bpow_0, Rmult_1_r. split_and!; [done|done|lia].
Qed.

Lemma round_half mrs y : located mrs y →
  let m := round_nearest_even mrs.(shr_m) (loc_of_shr_record mrs) in
  (Rabs (IZR m - y) <= / 2)%R ∧ (m = mrs.(shr_m) ∨ m = mrs.(shr_m) + 1).
Proof.
  destruct mrs as [m [] []]; cbn; intros H; [| | |].
  - rewrite plus_IZR. split; [apply Rabs_le; lra|by right].
  - destruct (Z.even m); [split; [apply Rabs_le; lra|by left]|].
    rewrite plus_IZR. split; [apply Rabs_le; lra|by right].
  - split; [apply Rabs_le; lra|by left].
  - split; [apply Rabs_le; lra|by left].
Qed.

(** ** Rounding *)

Definition valid (x : double) : Prop := valid_binary 53 1024 x = true.
Definition digits (p : positive) : Z := Zpos (digits2_pos p).

Lemma fexp_normal e : -1021 <= e → fexp 53 1024 e = e - 53.
Proof. intros H. unfold fexp, emin. lia. Qed.

Lemma digits_pos p : 0 < digits p.
Proof. done. Qed.
Lemma digits_unique p n : 0 < n → 2 ^ (n - 1) <= Zpos p < 2 ^ n → digits p = n.
Proof.
  intros Hn [H1 H2]. pose proof (digits_bounds p) as [H3 H4]. fold (digits p) in H3, H4.
  destruct (Z.lt_trichotomy (digits p) n) as [Hlt|[?|Hgt]]; [|done|].
  - pose proof (Z.pow_le_mono_r 2 (digits p) (n - 1)). lia.
  - pose proof (Z.pow_le_mono_r 2 n (digits p - 1)). lia.
Qed.
Lemma digits_real p : (bpow (digits p - 1) <= IZR (Zpos p) /\ IZR (Zpos p) + 1 <= bpow (digits p))%R.
Proof.
  pose proof (digits_bounds p) as [H1 H2]. fold (digits p) in H1, H2. pose proof (digits_pos p).
  rewrite !bpow_IZR by lia. rewrite <- plus_IZR. split; apply IZR_le; lia.
Qed.

Lemma valid_finite s m e : -1074 <= e <= 971 → digits m = 53 → valid (S754_finite s m e).
Proof.
  intros He Hd. unfold valid, valid_binary, bounded, canonical_mantissa. fold (digits m). rewrite Hd.
  unfold fexp, emin. rewrite andb_true_iff, Z.eqb_eq, Z.leb_le. lia.
Qed.

(** The mantissa after the first shift, and its rounding. *)
Lemma significand mrs y : 0 <= mrs.(shr_m) → located mrs y → (bpow 52 <= y < bpow 53)%R →
  let m := round_nearest_even mrs.(shr_m) (loc_of_shr_record mrs) in
  2 ^ 52 <= m <= 2 ^ 53 ∧ (Rabs (IZR m - y) <= unit_roundoff * y)%R.
Proof.
  intros Hm Hl [Hy1 Hy2]. pose proof (located_floor mrs y Hl) as [Hf1 Hf2].
  destruct (round_half mrs y Hl) as [Hr Hc]. cbn zeta. split.
  - rewrite bpow_IZR in Hy1, Hy2 by lia.
    assert (2 ^ 52 < mrs.(shr_m) + 1) by (apply lt_IZR; rewrite plus_IZR; lra).
    assert (mrs.(shr_m) < 2 ^ 53) by (apply lt_IZR; lra). lia.
  - apply Rle_trans with (/ 2)%R; [done|]. unfold unit_roundoff.
    replace (/ 2)%R with (bpow (-53) * bpow 52)%R.
    + apply Rmult_le_compat_l; [apply Rlt_le, bpow_pos|done].
    + rewrite <- bpow_add. apply bpow_m1.
Qed.

(** The second pass: a significand that reached 2^53 is halved. *)
Lemma renormalise m e : 2 ^ 52 <= Zpos m <= 2 ^ 53 → -1074 <= e →
  ∃ m' e', shr_fexp 53 1024 (Zpos m) e loc_Exact = (Build_shr_record (Zpos m') false false, e') ∧
    digits m' = 53 ∧ -1074 <= e' ∧ (IZR (Zpos m') * bpow e' = IZR (Zpos m) * bpow e)%R.
Proof.
  intros Hm He. unfold shr_fexp. change (Zdigits2 (Zpos m)) with (digits m).
  destruct (Z.eq_dec (Zpos m) (2 ^ 53)) as [E|Hne].
  - assert (m = (2 ^ 53)%positive) as -> by lia. change (digits (2 ^ 53)) with 54. rewrite fexp_normal by lia.
    replace (54 + e - 53 - e) with 1 by lia. exists (2 ^ 52)%positive, (e + 1).
    split_and!; [done|done|lia|]. rewrite (Z.add_comm e 1), bpow_add, bpow_1, <- Rmult_assoc, <- mult_IZR. done.
  - assert (Hd : digits m = 53) by (apply digits_unique; lia). rewrite Hd, fexp_normal by lia.
    replace (53 + e - 53 - e) with 0 by lia. exists m, e. by split_and!.
Qed.

Lemma round_aux_near s m e l y :
  53 <= digits m → located (shr_record_of_loc (Zpos m) l) (y * bpow (- e)) →
  (bpow (-1022) <= y <= bpow 1023)%R →
  ∃ m' e', binary_round_aux 53 1024 s (Zpos m) e l = S754_finite s m' e' ∧
    valid (S754_finite s m' e') ∧ (Rabs (IZR (Zpos m') * bpow e' - y) <= unit_roundoff * y)%R.
Proof.
  intros Hd Hl [Hy1 Hy2]. destruct (digits_real m) as [Hb1 Hb2].
  assert (Hm : (shr_record_of_loc (Zpos m) l).(shr_m) = Zpos m) by (by destruct l as [|[]]).
  pose proof (located_floor _ _ Hl) as Hf. rewrite Hm in Hf.
  assert (Hcancel : ∀ a, (y * bpow (- a) * bpow a = y)%R).
  { intros a. rewrite Rmult_assoc, <- bpow_add. replace (- a + a) with 0 by lia. rewrite bpow_0. lra. }
  assert (Hde : -1022 < digits m + e).
  { apply bpow_lt_inv. rewrite bpow_add. apply Rle_lt_trans with y; [done|]. rewrite <- (Hcancel e).
    apply Rmult_lt_compat_r; [apply bpow_pos|lra]. }
  unfold binary_round_aux. destruct (shr_fexp 53 1024 (Zpos m) e l) as [mrs e1] eqn:E1.
  unfold shr_fexp in E1. change (Zdigits2 (Zpos m)) with (digits m) in E1. rewrite fexp_normal in E1 by lia.
  apply shr_located with (y := (y * bpow (- e))%R) in E1 as (Hm1 & Hl1 & He1); [|by rewrite Hm|done].
  replace (y * bpow (- e) * bpow (e - e1))%R with (y * bpow (- e1))%R in Hl1
    by (rewrite Rmult_assoc, <- bpow_add; do 2 f_equal; lia).
  assert (Hy : (bpow 52 <= y * bpow (- e1) < bpow 53)%R).
  { pose proof (bpow_pos (53 - digits m)).
    replace (y * bpow (- e1))%R with (y * bpow (- e) * bpow (53 - digits m))%R
      by (rewrite Rmult_assoc, <- bpow_add; do 2 f_equal; lia).
    assert (bpow 52 = bpow (digits m - 1) * bpow (53 - digits m))%R as -> by (rewrite <- bpow_add; f_equal; lia).
    assert (bpow 53 = bpow (digits m) * bpow (53 - digits m))%R as -> by (rewrite <- bpow_add; f_equal; lia).
    split; [apply Rmult_le_compat_r|apply Rmult_lt_compat_r]; lra. }
  destruct (significand mrs _ Hm1 Hl1 Hy) as [Hs1 Hs2].
  destruct (round_nearest_even (shr_m mrs) (loc_of_shr_record mrs)) as [|m2|m2] eqn:E2; [lia| |lia].
  destruct (renormalise m2 e1 Hs1 ltac:(lia)) as (m' & e' & -> & Hd' & He' & Hv). cbn [shr_m].
  assert (Hnear : (Rabs (IZR (Zpos m') * bpow e' - y) <= unit_roundoff * y)%R).
  { rewrite Hv. replace (IZR (Zpos m2) * bpow e1 - y)%R with ((IZR (Zpos m2) - y * bpow (- e1)) * bpow e1)%R
      by (rewrite Rmult_minus_distr_r, Hcancel; done).
    rewrite Rabs_mult, (Rabs_pos_eq (bpow e1)) by (apply Rlt_le, bpow_pos).
    rewrite <- (Hcancel e1) at 2. rewrite <- Rmult_assoc. apply Rmult_le_compat_r; [apply Rlt_le, bpow_pos|done]. }
  assert (He971 : e' <= 971).
  { cut (52 + e' < 1024); [lia|]. apply bpow_lt_inv. destruct (digits_real m') as [Hb' _].
    rewrite Hd' in Hb'. change (53 - 1) with 52 in Hb'. rewrite bpow_add. pose proof (bpow_pos e').
    apply Rle_lt_trans with (IZR (Zpos m') * bpow e')%R; [by apply Rmult_le_compat_r; [lra|]|].
    apply Rabs_bounds in Hnear. replace 1024 with (1 + 1023) by lia. rewrite bpow_add, bpow_1.
    assert (unit_roundoff < / 2)%R by (rewrite <- bpow_m1; apply bpow_lt; lia). pose proof (bpow_pos 1023). 
    pose proof (bpow_pos (-1022)). nra. }
  exists m', e'. rewrite (proj2 (Z.leb_le e' (1024 - 53)) He971).
  split_and!; [done|by apply valid_finite|done].
Qed.

Lemma round_aux_exact s m e : digits m = 53 → -1074 <= e <= 971 →
  binary_round_aux 53 1024 s (Zpos m) e loc_Exact = S754_finite s m e.
Proof.
  intros Hd He. unfold binary_round_aux, shr_fexp. change (Zdigits2 (Zpos m)) with (digits m).
  rewrite Hd, fexp_normal by lia. replace (53 + e - 53 - e) with 0 by lia.
  cbn [shr shr_record_of_loc shr_m loc_of_shr_record round_nearest_even].
  change (Zdigits2 (Zpos m)) with (digits m). rewrite Hd, fexp_normal by lia.
  replace (53 + e - 53 - e) with 0 by lia. cbn [shr shr_m].
  by rewrite (proj2 (Z.leb_le e (1024 - 53))) by lia.
Qed.

Lemma iter_xO m d : Zpos (Pos.iter xO m d) = Zpos m * 2 ^ Zpos d.
Proof.
  induction d as [|d IH] using Pos.peano_ind; [cbn; lia|].
  rewrite Pos.iter_succ, Pos2Z.inj_succ, Z.pow_succ_r by lia.
  change (Zpos (Pos.iter xO m d)~0) with (2 * Zpos (Pos.iter xO m d)). rewrite IH. ring.
Qed.

Lemma digits_shift m d : 0 <= d → ∀ m', Zpos m' = Zpos m * 2 ^ d → digits m' = digits m + d.
Proof.
  intros Hd m' E. pose proof (digits_bounds m) as [H1 H2]. fold (digits m) in H1, H2.
  pose proof (digits_pos m). apply digits_unique; [lia|]. rewrite E.
  replace (digits m + d - 1) with (digits m - 1 + d) by lia. rewrite !Z.pow_add_r by lia.
  pose proof (Z.pow_pos_nonneg 2 d). nia.
Qed.

Lemma shl_align_spec m e e1 m' e' : shl_align m e e1 = (m', e') →
  e' = Z.min e e1 ∧ digits m' = digits m + (e - e') ∧ (IZR (Zpos m') * bpow e' = IZR (Zpos m) * bpow e)%R.
Proof.
  unfold shl_align. destruct (e1 - e) as [|d|d] eqn:E; intros [= <- <-].
  - split_and!; [lia|lia|done].
  - split_and!; [lia|lia|done].
  - assert (Hv := iter_xO m d). split_and!; [lia| |].
    + replace (e - e1) with (Zpos d) by lia. by apply (digits_shift m).
    + rewrite Hv, mult_IZR, Rmult_assoc, <- bpow_IZR by lia. rewrite <- bpow_add. do 2 f_equal. lia.
Qed.

(** ** The standard model of rounding *)

Record rounds (r : double) (x : R) : Prop := {
  rounds_finite : finite r;
  rounds_valid : valid r;
  rounds_near : near (val r) x
}.

Lemma near_refl x : near x x.
Proof.
  unfold near. rewrite Rminus_diag, Rabs_R0. pose proof (Rabs_pos x). pose proof (bpow_pos (-53)).
  unfold unit_roundoff. nra.
Qed.
Lemma rounds_zero s : rounds (S754_zero s) 0.
Proof. split; [done|done|apply near_refl]. Qed.
Lemma rounds_self x : finite x → valid x → rounds x (val x).
Proof. split; [done|done|apply near_refl]. Qed.

Lemma rounds_signed s m e y : valid (S754_finite s m e) → (0 <= y)%R →
  (Rabs (IZR (Zpos m) * bpow e - y) <= unit_roundoff * y)%R →
  rounds (S754_finite s m e) (if s then - y else y).
Proof.
  intros Hv Hy H. split; [done|done|]. unfold near. cbn [val]. destruct s; cbn [cond_Zopp].
  - rewrite opp_IZR, Rabs_Ropp, (Rabs_pos_eq y) by done.
    replace (- IZR (Zpos m) * bpow e - - y)%R with (- (IZR (Zpos m) * bpow e - y))%R by ring. by rewrite Rabs_Ropp.
  - by rewrite (Rabs_pos_eq y) by done.
Qed.

Lemma scaled_digits m e : (bpow (-1022) <= IZR (Zpos m) * bpow e)%R → -1022 < digits m + e.
Proof.
  intros H. apply bpow_lt_inv. rewrite bpow_add. destruct (digits_real m). pose proof (bpow_pos e). nra.
Qed.

Lemma dyadic_rounds s m e : let y := (IZR (Zpos m) * bpow e)%R in
  (bpow (-1022) <= y <= bpow 1023)%R →
  rounds (binary_round 53 1024 s m e) (if s then - y else y) ∧
  (digits m <= 53 → val (binary_round 53 1024 s m e) = (if s then - y else y)%R).
Proof.
  intros y Hy. pose proof (scaled_digits m e (proj1 Hy)) as Hde.
  unfold binary_round. fold (digits m). rewrite fexp_normal by lia.
  destruct (shl_align m e (digits m + e - 53)) as [m1 e1] eqn:E1.
  apply shl_align_spec in E1 as (He1 & Hd1 & Hv1). fold y in Hv1. split.
  - assert (Hy0 : (0 <= y)%R) by (pose proof (bpow_pos (-1022)); lra).
    destruct (round_aux_near s m1 e1 loc_Exact y) as (m' & e' & -> & Hv & Hn); [lia| |done|by apply rounds_signed].
    cbn. rewrite <- Hv1, Rmult_assoc, <- bpow_add, Z.add_opp_diag_r, bpow_0. lra.
  - intros Hd. assert (He : e1 <= 971).
    { cut (digits m1 - 1 + e1 < 1024); [lia|]. apply bpow_lt_inv. rewrite bpow_add. destruct (digits_real m1) as [Hb _].
      apply Rle_lt_trans with (bpow 1023); [|by apply bpow_lt].
      apply Rle_trans with (IZR (Zpos m1) * bpow e1)%R; [apply Rmult_le_compat_r; [apply Rlt_le, bpow_pos|done]|lra]. }
    rewrite round_aux_exact by lia. cbn [val]. destruct s; cbn [cond_Zopp]; rewrite <- Hv1, ?opp_IZR; ring.
Qed.

Lemma in_range_pos y : in_range y → (0 < y)%R → (bpow (-1022) <= y <= bpow 1023)%R.
Proof. intros [->|H] Hy; [lra|]. by rewrite Rabs_pos_eq in H by lra. Qed.
Lemma in_range_opp y : in_range (- y)%R → in_range y.
Proof. intros [H|H]; [left; lra|right]. by rewrite Rabs_Ropp in H. Qed.

Lemma digits_le m n : 0 < n → Zpos m < 2 ^ n → digits m <= n.
Proof.
  intros Hn H. pose proof (digits_bounds m) as [H1 _]. fold (digits m) in H1.
  apply Z.nlt_ge. intros Hlt. pose proof (Z.pow_le_mono_r 2 n (digits m - 1)). lia.
Qed.
Lemma digits_ge m n : 0 < n → 2 ^ (n - 1) <= Zpos m → n <= digits m.
Proof.
  intros Hn H. pose proof (digits_bounds m) as [_ H2]. fold (digits m) in H2. pose proof (digits_pos m).
  apply Z.nlt_ge. intros Hlt. pose proof (Z.pow_le_mono_r 2 (digits m) (n - 1)). lia.
Qed.

Lemma scaled_pos p e : (0 < IZR (Zpos p) * bpow e)%R.
Proof. apply Rmult_lt_0_compat; [by apply IZR_lt|apply bpow_pos]. Qed.

Lemma normalize_rounds n e : in_range (IZR n * bpow e) →
  rounds (binary_normalize 53 1024 n e false) (IZR n * bpow e) ∧
  (Z.abs n < 2 ^ 53 → val (binary_normalize 53 1024 n e false) = (IZR n * bpow e)%R).
Proof.
  intros Hr. destruct n as [|p|p]; cbn [binary_normalize].
  - rewrite Rmult_0_l. split; [apply rounds_zero|done].
  - destruct (dyadic_rounds false p e) as [H1 H2]; [apply in_range_pos; [done|apply scaled_pos]|].
    split; [done|]. intros Hn. apply H2. by apply digits_le.
  - change (Zneg p) with (- Zpos p) in *. rewrite opp_IZR, Ropp_mult_distr_l_reverse in *. apply in_range_opp in Hr.
    destruct (dyadic_rounds true p e) as [H1 H2]; [apply in_range_pos; [done|apply scaled_pos]|].
    split; [done|]. intros Hn. apply H2. by apply digits_le.
Qed.

Lemma bpow_range n : in_int64 n → in_range (IZR n * bpow 0).
Proof.
  unfold in_int64, int64_min, int64_max. intros [H1 H2].
  rewrite bpow_0, Rmult_1_r. destruct (Z.eq_dec n 0) as [->|Hn]; [by left|right].
  rewrite <- abs_IZR. split.
  - apply Rle_trans with 1%R; [change 1%R with (bpow 0); by apply bpow_le|apply IZR_le; lia].
  - apply Rle_trans with (bpow 63); [rewrite bpow_IZR by lia; apply IZR_le; lia|by apply bpow_le].
Qed.

Lemma of_int_rounds n : in_int64 n → rounds (of_int n) (IZR n).
Proof.
  intros H. destruct (normalize_rounds n 0) as [Hr _]; [by apply bpow_range|].
  by rewrite bpow_0, Rmult_1_r in Hr.
Qed.
Lemma of_int_exact n : Z.abs n < 2 ^ 53 → val (of_int n) = IZR n.
Proof.
  intros H. destruct (normalize_rounds n 0) as [_ Hv]; [apply bpow_range; unfold in_int64, int64_min, int64_max; lia|].
  unfold of_int. rewrite (Hv H), bpow_0. ring.
Qed.

(** ** Multiplication *)

Lemma valid_mantissa s m e : valid (S754_finite s m e) →
  (digits m = 53 ∨ (digits m < 53 ∧ e = -1074)) ∧ e <= 971.
Proof.
  unfold valid, valid_binary, bounded, canonical_mantissa, fexp, emin. fold (digits m).
  rewrite andb_true_iff, Z.eqb_eq, Z.leb_le. lia.
Qed.

Lemma sign_mult s1 s2 m1 m2 : cond_Zopp s1 (Zpos m1) * cond_Zopp s2 (Zpos m2) = cond_Zopp (xorb s1 s2) (Zpos (m1 * m2)).
Proof. by destruct s1, s2. Qed.

Lemma cond_opp_val s m e : (IZR (cond_Zopp s (Zpos m)) * bpow e)%R = if s then (- (IZR (Zpos m) * bpow e))%R else (IZR (Zpos m) * bpow e)%R.
Proof. destruct s; cbn [cond_Zopp]; [rewrite opp_IZR; ring|done]. Qed.

Lemma in_range_sign (s : bool) y : in_range (if s then - y else y)%R → in_range y.
Proof. destruct s; [apply in_range_opp|done]. Qed.

Lemma dmul_rounds x y : finite x → finite y → valid x → valid y →
  in_range (val x * val y) → rounds (dmul x y) (val x * val y).
Proof.
  intros Fx Fy Vx Vy Hr. destruct x as [sx| | |sx mx ex], y as [sy| | |sy my ey]; try done;
    [cbn; rewrite Rmult_0_l; apply rounds_zero|cbn; rewrite Rmult_0_l; apply rounds_zero|
     cbn; rewrite Rmult_0_r; apply rounds_zero|].
  assert (E : (val (S754_finite sx mx ex) * val (S754_finite sy my ey))%R
    = if xorb sx sy then (- (IZR (Zpos (mx * my)) * bpow (ex + ey)))%R else (IZR (Zpos (mx * my)) * bpow (ex + ey))%R).
  { rewrite <- cond_opp_val, <- sign_mult, mult_IZR, bpow_add. cbn [val]. ring. }
  rewrite E in *. apply in_range_sign, in_range_pos in Hr; [|apply scaled_pos]. set (y := (_ * bpow (ex + ey))%R) in *.
  pose proof (scaled_digits _ _ (proj1 Hr)) as Hde.
  destruct (valid_mantissa _ _ _ Vx) as [Hx _], (valid_mantissa _ _ _ Vy) as [Hy _].
  pose proof (digits_bounds mx) as [Bx Bx']. pose proof (digits_bounds my) as [By By']. fold (digits mx) in Bx, Bx'. fold (digits my) in By, By'.
  assert (Hd : 53 <= digits (mx * my)).
  { destruct (decide (digits mx = 53)) as [Ex|Ex]; [apply digits_ge; [done|]; rewrite Ex in Bx; lia|].
    destruct (decide (digits my = 53)) as [Ey|Ey]; [apply digits_ge; [done|]; rewrite Ey in By; lia|].
    pose proof (Z.pow_le_mono_r 2 (digits mx) 52). pose proof (Z.pow_le_mono_r 2 (digits my) 52).
    assert (digits (mx * my) <= 104); [apply digits_le; [done|]; change (2 ^ 104) with (2 ^ 52 * 2 ^ 52); nia|lia]. }
  destruct (round_aux_near (xorb sx sy) (mx * my) (ex + ey) loc_Exact y) as (m' & e' & E' & Hv & Hn); [done| |done|].
  { cbn. unfold y. rewrite Rmult_assoc, <- bpow_add, Z.add_opp_diag_r, bpow_0. lra. }
  unfold dmul, SFmul. rewrite E'. apply rounds_signed; [done| |done]. apply Rlt_le, scaled_pos.
Qed.

(** ** Addition *)

Lemma aligned_val s m e ez : ez <= e →
  (IZR (cond_Zopp s (Zpos (shl_align m e ez).1)) * bpow ez)%R = val (S754_finite s m e).
Proof.
  intros H. destruct (shl_align m e ez) as [m' e'] eqn:E. apply shl_align_spec in E as (-> & _ & Hv).
  rewrite Z.min_r in Hv by done. cbn [fst val]. by rewrite !cond_opp_val, Hv.
Qed.

Lemma dadd_rounds x y : finite x → finite y → valid x → valid y →
  in_range (val x + val y) → rounds (dadd x y) (val x + val y).
Proof.
  intros Fx Fy Vx Vy Hr. destruct x as [sx| | |sx mx ex], y as [sy| | |sy my ey]; try done.
  - cbn [val]. rewrite Rplus_0_l. destruct sx, sy; apply rounds_zero.
  - change (val (S754_zero sx)) with 0%R. rewrite Rplus_0_l. by apply rounds_self.
  - change (val (S754_zero sy)) with 0%R. rewrite Rplus_0_r. by apply rounds_self.
  - rewrite <- (aligned_val sx mx ex (Z.min ex ey)), <- (aligned_val sy my ey (Z.min ex ey)) in * by lia.
    rewrite <- Rmult_plus_distr_r, <- plus_IZR in *. by apply normalize_rounds.
Qed.

(** ** Division *)

Lemma new_location_located q d r : 0 <= r < d →
  located (shr_record_of_loc q (new_location d r)) (IZR q + IZR r / IZR d).
Proof.
  intros [Hr0 Hr]. assert (Hd : (0 < IZR d)%R) by (apply IZR_lt; lia).
  assert (Hlt : ∀ a b, a < b → (IZR a / IZR d < IZR b / IZR d)%R).
  { intros a b H. apply Rmult_lt_compat_r; [by apply Rinv_0_lt_compat|by apply IZR_lt]. }
  assert (H1 : (IZR d / IZR d = 1)%R) by (apply Rinv_r; lra).
  assert (H2 : (IZR (2 * r) / IZR d = 2 * (IZR r / IZR d))%R) by (rewrite mult_IZR; unfold Rdiv; ring).
  assert (H3 : ∀ r', 0 < r' → (0 < IZR r' / IZR d)%R).
  { intros r' H. apply Rmult_lt_0_compat; [by apply IZR_lt|by apply Rinv_0_lt_compat]. }
  pose proof (Hlt r d Hr) as Hup. unfold new_location.
  destruct (Z.eq_dec r 0) as [->|Hne].
  { replace (IZR q + 0 / IZR d)%R with (IZR q) by (unfold Rdiv; ring). by destruct (Z.even d). }
  pose proof (H3 r ltac:(lia)) as Hpos.
  assert (Hlow : 2 * r < d → (IZR r / IZR d < / 2)%R) by (intros H; apply Hlt in H; lra).
  assert (Hhigh : d < 2 * r → (/ 2 < IZR r / IZR d)%R) by (intros H; apply Hlt in H; lra).
  destruct (Z.even d) eqn:Ev; unfold new_location_even, new_location_odd; rewrite (proj2 (Z.eqb_neq r 0)) by done.
  - destruct (Z.compare_spec (2 * r) d) as [E|H|H]; cbn.
    + rewrite E in H2. lra.
    + specialize (Hlow H). lra.
    + specialize (Hhigh H). lra.
  - destruct (Z.compare_spec (2 * r + 1) d) as [E|H|H]; cbn.
    + specialize (Hlow ltac:(lia)). lra.
    + specialize (Hlow ltac:(lia)). lra.
    + assert (d ≠ 2 * r) by (intros ->; by rewrite Z.even_mul in Ev).
      specialize (Hhigh ltac:(lia)). lra.
Qed.

Section division.
Variables (n d : positive) (en ed : Z).

Definition ratio : R := ((IZR (Zpos n) * bpow en) / (IZR (Zpos d) * bpow ed))%R.

Lemma ratio_scaled e : (ratio * bpow (- e) = IZR (Zpos n) * bpow (en - ed - e) / IZR (Zpos d))%R.
Proof using Type.
  unfold ratio. replace (en - ed - e) with (en + (- ed + - e)) by lia. rewrite !bpow_add, (bpow_opp ed).
  pose proof (bpow_pos ed). assert (0 < IZR (Zpos d))%R by (by apply IZR_lt). field. split; lra.
Qed.

Lemma ratio_lower : (bpow (digits n + en - (digits d + ed) - 1) < ratio)%R.
Proof using Type.
  destruct (digits_real n) as [Hn _], (digits_real d) as [_ Hd].
  assert (0 < IZR (Zpos d))%R by (by apply IZR_lt). pose proof (bpow_pos ed). pose proof (bpow_pos en).
  unfold ratio, Rdiv. apply Rmult_lt_reg_r with (IZR (Zpos d) * bpow ed)%R; [apply scaled_pos|].
  rewrite Rmult_assoc, Rinv_l, Rmult_1_r by (pose proof (scaled_pos d ed); lra).
  apply Rlt_le_trans with (bpow (digits n + en - (digits d + ed) - 1) * (bpow (digits d) * bpow ed))%R.
  - apply Rmult_lt_compat_l; [apply bpow_pos|]. apply Rmult_lt_compat_r; lra.
  - rewrite <- !bpow_add. replace (_ - 1 + (digits d + ed)) with (digits n - 1 + en) by lia. rewrite bpow_add.
    apply Rmult_le_compat_r; lra.
Qed.

Lemma ratio_upper : (ratio < bpow (digits n + en - (digits d + ed) + 1))%R.
Proof using Type.
  destruct (digits_real n) as [_ Hn], (digits_real d) as [Hd _].
  assert (0 < IZR (Zpos d))%R by (by apply IZR_lt). pose proof (bpow_pos ed). pose proof (bpow_pos en).
  unfold ratio, Rdiv. apply Rmult_lt_reg_r with (IZR (Zpos d) * bpow ed)%R; [apply scaled_pos|].
  rewrite Rmult_assoc, Rinv_l, Rmult_1_r by (pose proof (scaled_pos d ed); lra).
  apply Rlt_le_trans with (bpow (digits n) * bpow en)%R; [apply Rmult_lt_compat_r; lra|].
  rewrite <- bpow_add. replace (digits n + en) with (digits n + en - (digits d + ed) + 1 + (digits d - 1 + ed)) at 1 by lia.
  rewrite bpow_add. apply Rmult_le_compat_l; [apply Rlt_le, bpow_pos|].
  rewrite bpow_add. apply Rmult_le_compat_r; lra.
Qed.

Lemma div_core_rounds s : (bpow (-1022) <= ratio <= bpow 1023)%R →
  let '(q, e, l) := SFdiv_core_binary 53 1024 (Zpos n) en (Zpos d) ed in
  rounds (binary_round_aux 53 1024 s q e l) (if s then - ratio else ratio)%R.
Proof using Type.
  intros Hr. unfold SFdiv_core_binary. change (Zdigits2 (Zpos n)) with (digits n). change (Zdigits2 (Zpos d)) with (digits d).
  pose proof ratio_lower as Hlo. pose proof ratio_upper as Hup.
  set (D := digits n + en - (digits d + ed)) in *. set (e := Z.min (fexp 53 1024 D) (en - ed)).
  assert (HD : -1022 <= D) by (cut (-1022 < D + 1); [lia|apply bpow_lt_inv; lra]).
  assert (Hs : 0 <= en - ed - e) by lia.
  assert (Hm' : match en - ed - e with
                | Z0 => Zpos n | Zpos _ => Z.shiftl (Zpos n) (en - ed - e) | Zneg _ => 0
                end = Zpos n * 2 ^ (en - ed - e)).
  { destruct (en - ed - e) as [|k|k] eqn:Ek; [lia|by rewrite Z.shiftl_mul_pow2 by lia|lia]. }
  rewrite Hm'. clear Hm'. destruct (Z.div_eucl (Zpos n * 2 ^ (en - ed - e)) (Zpos d)) as [q r] eqn:E.
  pose proof (Z_div_mod (Zpos n * 2 ^ (en - ed - e)) (Zpos d) ltac:(lia)) as Hqr. rewrite E in Hqr.
  destruct Hqr as [Hq Hrd].
  assert (HY : (ratio * bpow (- e) = IZR q + IZR r / IZR (Zpos d))%R).
  { rewrite ratio_scaled, bpow_IZR, <- mult_IZR, Hq, plus_IZR, mult_IZR by done. field.
    apply Rgt_not_eq. by apply IZR_lt. }
  pose proof (new_location_located q (Zpos d) r Hrd) as Hloc. rewrite <- HY in Hloc.
  assert (H52 : (bpow 52 <= ratio * bpow (- e))%R).
  { assert (He : e <= D - 53 ∨ e <= -1074) by (unfold e, fexp, emin; lia). destruct He as [He|He].
    - apply Rle_trans with (bpow (D - 1) * bpow (- e))%R; [rewrite <- bpow_add; apply bpow_le; lia|].
      apply Rmult_le_compat_r; [apply Rlt_le, bpow_pos|lra].
    - apply Rle_trans with (bpow (-1022) * bpow (- e))%R; [rewrite <- bpow_add; apply bpow_le; lia|].
      apply Rmult_le_compat_r; [apply Rlt_le, bpow_pos|lra]. }
  assert (Hq52 : 2 ^ 52 <= q).
  { pose proof (located_floor _ _ Hloc) as [_ Hf]. replace (shr_m _) with q in Hf by (by destruct (new_location _ _) as [|[]]).
    rewrite bpow_IZR in H52 by lia. apply Z.lt_succ_r, lt_IZR. rewrite succ_IZR. lra. }
  destruct q as [|q|q]; [lia| |lia].
  destruct (round_aux_near s q e (new_location (Zpos d) r) ratio) as (m' & e' & -> & Hv & Hn); [by apply digits_ge|done|done|].
  apply rounds_signed; [done| |done]. pose proof (bpow_pos (-1022)). lra.
Qed.
End division.

Lemma val_neq_0 s m e : val (S754_finite s m e) ≠ 0%R.
Proof.
  cbn [val]. rewrite cond_opp_val. pose proof (scaled_pos m e). destruct s; intros E; lra.
Qed.

Lemma ddiv_rounds x y : finite x → finite y → val y ≠ 0%R →
  in_range (val x / val y) → rounds (ddiv x y) (val x / val y).
Proof.
  intros Fx Fy Hy Hr. destruct x as [sx| | |sx mx ex], y as [sy| | |sy my ey]; try done.
  - cbn [val]. unfold Rdiv. rewrite Rmult_0_l. apply rounds_zero.
  - assert (E : (val (S754_finite sx mx ex) / val (S754_finite sy my ey))%R
      = if xorb sx sy then (- ratio mx my ex ey)%R else ratio mx my ex ey).
    { unfold ratio. cbn [val]. rewrite !cond_opp_val. pose proof (bpow_pos ey).
      assert (0 < IZR (Zpos my))%R by (by apply IZR_lt).
      destruct sx, sy; cbn [xorb]; field; split; intros ?; lra. }
    rewrite E in *. apply in_range_sign, in_range_pos in Hr.
    + unfold ddiv, SFdiv. pose proof (div_core_rounds mx my ex ey (xorb sx sy) Hr) as H.
      by destruct (SFdiv_core_binary _ _ _ _ _ _) as [[q e] l].
    + apply Rmult_lt_0_compat; [apply scaled_pos|apply Rinv_0_lt_compat, scaled_pos].
Qed.

Lemma of_ratio_rounds (s : bool) n d : let y := (IZR (Zpos n) / IZR (Zpos d))%R in
  (bpow (-1022) <= y <= bpow 1023)%R → rounds (of_ratio s n d) (if s then - y else y)%R.
Proof.
  intros y Hy. assert (E : ratio n d 0 0 = y) by (unfold ratio; by rewrite bpow_0, !Rmult_1_r).
  pose proof (div_core_rounds n d 0 0 s) as H. rewrite E in H. specialize (H Hy). unfold of_ratio.
  by destruct (SFdiv_core_binary _ _ _ _ _ _) as [[q e] l].
Qed.

(** ** Comparison with zero, conversion to integers *)

Lemma dlt_0 x : finite x → dlt d0 x = true ↔ (0 < val x)%R.
Proof.
  intros F. destruct x as [s| | |s m e]; try done.
  - split; [done|cbn; lra].
  - unfold dlt, SFltb, SFcompare, d0. cbn [val]. rewrite cond_opp_val. pose proof (scaled_pos m e).
    destruct s; split; try done; lra.
Qed.
Lemma dle_0 x : finite x → dle d0 x = true ↔ (0 <= val x)%R.
Proof.
  intros F. destruct x as [s| | |s m e]; try done.
  unfold dle, SFleb, SFcompare, d0. cbn [val]. rewrite cond_opp_val. pose proof (scaled_pos m e).
  destruct s; split; try done; lra.
Qed.

Lemma shiftl_floor z e : (IZR (Z.shiftl z e) <= IZR z * bpow e < IZR (Z.shiftl z e) + 1)%R.
Proof.
  destruct (Z.le_gt_cases 0 e) as [He|He].
  - rewrite Z.shiftl_mul_pow2, mult_IZR, bpow_IZR by done. lra.
  - replace e with (- (- e)) at 1 4 by lia. rewrite Z.shiftl_opp_r, Z.shiftr_div_pow2 by lia.
    set (k := - e). assert (Hk : 0 < 2 ^ k) by (apply Z.pow_pos_nonneg; lia).
    assert (E : bpow e = (/ IZR (2 ^ k))%R) by (rewrite <- bpow_IZR, <- bpow_opp by lia; f_equal; lia).
    rewrite E. assert (H0 : (0 < IZR (2 ^ k))%R) by (by apply IZR_lt).
    pose proof (Z.div_mod z (2 ^ k) ltac:(lia)) as Hdm. pose proof (Z.mod_pos_bound z (2 ^ k) Hk) as [Hm1 Hm2].
    apply (f_equal IZR) in Hdm. rewrite plus_IZR, mult_IZR in Hdm. apply IZR_le in Hm1. apply IZR_lt in Hm2.
    split.
    + apply Rmult_le_reg_r with (IZR (2 ^ k)); [done|]. rewrite Rmult_assoc, Rinv_l by lra. lra.
    + apply Rmult_lt_reg_r with (IZR (2 ^ k)); [done|]. rewrite Rmult_assoc, Rinv_l by lra. lra.
Qed.

Lemma floor_unique a b x : (IZR a <= x < IZR a + 1)%R → (IZR b <= x < IZR b + 1)%R → a = b.
Proof.
  intros [Ha1 Ha2] [Hb1 Hb2]. rewrite <- plus_IZR in Ha2, Hb2.
  assert (a < b + 1) by (apply lt_IZR; lra). assert (b < a + 1) by (apply lt_IZR; lra). lia.
Qed.

Lemma floor_int_spec x k : finite x → in_int64 k → (IZR k <= val x < IZR k + 1)%R → floor_int x = Some k.
Proof.
  intros F Hk H. destruct x as [s| | |s m e]; try done.
  - cbn [val floor_int to_int] in *. f_equal. apply (floor_unique _ _ 0); [lra|done].
  - cbn [floor_int val] in *. rewrite (floor_unique _ _ _ (shiftl_floor _ _) H). by rewrite bool_decide_eq_true_2.
Qed.

(** Truncation: the floor of a non-negative number, the ceiling of a negative
    one. *)
Lemma to_int_pos x k : finite x → in_int64 k → 0 <= k → (IZR k <= val x < IZR k + 1)%R → to_int x = Some k.
Proof.
  intros F Hk H0 H. destruct x as [s| | |s m e]; try done.
  - cbn [val floor_int to_int] in *. f_equal. apply (floor_unique _ _ 0); [lra|done].
  - cbn [to_int val] in *. apply IZR_le in H0. rewrite cond_opp_val in H. pose proof (scaled_pos m e).
    destruct s; [lra|]. cbn [cond_Zopp].
    rewrite (floor_unique _ _ _ (shiftl_floor _ _) H). by rewrite bool_decide_eq_true_2.
Qed.
Lemma to_int_neg x k : finite x → in_int64 k → k <= 0 → (IZR k - 1 < val x <= IZR k)%R → to_int x = Some k.
Proof.
  intros F Hk H0 H. destruct x as [s| | |s m e]; try done.
  - cbn [val floor_int to_int] in *. f_equal. apply Z.opp_inj, (floor_unique _ _ 0); rewrite ?opp_IZR; lra.
  - cbn [to_int val] in *. apply IZR_le in H0. rewrite cond_opp_val in H. pose proof (scaled_pos m e).
    destruct s; [|lra]. cbn [cond_Zopp]. assert (E : Z.shiftl (Zpos m) e = - k).
    { apply (floor_unique _ _ _ (shiftl_floor _ _)). rewrite opp_IZR. lra. }
    rewrite E, Z.opp_involutive. by rewrite bool_decide_eq_true_2.
Qed.

(** ** Bounds *)

Lemma unit_roundoff_pos : (0 < unit_roundoff)%R.
Proof. apply bpow_pos. Qed.
Lemma unit_roundoff_scaled : (unit_roundoff * IZR (2 ^ 53) = 1)%R.
Proof. rewrite <- bpow_IZR by lia. unfold unit_roundoff. by rewrite <- bpow_add. Qed.
Lemma unit_roundoff_half : (unit_roundoff < / 2)%R.
Proof. rewrite <- bpow_m1. by apply bpow_lt. Qed.

Lemma unit_roundoff_quarter : (unit_roundoff < / 4)%R.
Proof.
  apply Rlt_le_trans with (bpow (-2)); [by apply bpow_lt|]. change (-2) with (-1 + -1). rewrite bpow_add, bpow_m1. lra.
Qed.

Lemma near_bounds a x : near a x → (0 <= x)%R → (x * (1 - unit_roundoff) <= a <= x * (1 + unit_roundoff))%R.
Proof. intros H Hx. unfold near in H. rewrite (Rabs_pos_eq x) in H by done. apply Rabs_bounds in H. lra. Qed.

Lemma near_abs a x : near a x → (Rabs x * (1 - unit_roundoff) <= Rabs a <= Rabs x * (1 + unit_roundoff))%R.
Proof.
  unfold near. intros H. pose proof (Rabs_triang (a - x) x) as H1. pose proof (Rabs_triang (x - a) a) as H2.
  rewrite (Rabs_minus_sym x a) in H2. replace (a - x + x)%R with a in H1 by ring. replace (x - a + a)%R with x in H2 by ring.
  lra.
Qed.
(** A rounding keeps the sign. *)
Lemma near_neg a x : near a x → (x < 0)%R → (a < 0)%R.
Proof.
  unfold near. intros H Hx. rewrite (Rabs_left x) in H by done. apply Rabs_bounds in H.
  pose proof unit_roundoff_half. nra.
Qed.

(** Bounds by powers of two: the result of one operation stays within one
    power of the exact result. *)
Lemma rounds_pow r x a b : rounds r x → (bpow a <= x <= bpow b)%R → (bpow (a - 1) <= val r <= bpow (b + 1))%R.
Proof.
  intros [_ _ Hn] [Ha Hb]. pose proof (bpow_pos a). apply near_bounds in Hn; [|lra].
  pose proof unit_roundoff_half. pose proof unit_roundoff_pos.
  rewrite (bpow_add b 1), bpow_1. change (a - 1) with (a + -1). rewrite bpow_add, bpow_m1. nra.
Qed.

Lemma in_range_pow x a b : (bpow a <= x <= bpow b)%R → -1022 <= a → b <= 1023 → in_range x.
Proof.
  intros [Ha Hb] Hla Hlb. right. pose proof (bpow_pos a). rewrite Rabs_pos_eq by lra.
  pose proof (bpow_le _ _ Hla). pose proof (bpow_le _ _ Hlb). lra.
Qed.

Lemma mult_pow x y a b c d : (bpow a <= x <= bpow b)%R → (bpow c <= y <= bpow d)%R →
  (bpow (a + c) <= x * y <= bpow (b + d))%R.
Proof.
  intros [H1 H2] [H3 H4]. pose proof (bpow_pos a). pose proof (bpow_pos c). rewrite !bpow_add.
  split; apply Rmult_le_compat; lra.
Qed.
Lemma inv_pow y c d : (bpow c <= y <= bpow d)%R → (bpow (- d) <= / y <= bpow (- c))%R.
Proof.
  intros [H1 H2]. pose proof (bpow_pos c). rewrite !bpow_opp. split; apply Rinv_le_contravar; lra.
Qed.

Lemma IZR_pow n k : 1 <= n <= 2 ^ k → 0 <= k → (bpow 0 <= IZR n <= bpow k)%R.
Proof. intros [H1 H2] Hk. rewrite bpow_0, bpow_IZR by done. split; apply IZR_le; done. Qed.

Lemma dlt_neg x : finite x → dlt x d0 = true ↔ (val x < 0)%R.
Proof.
  intros F. destruct x as [s| | |s m e]; try done.
  - split; [done|cbn; lra].
  - unfold dlt, SFltb, SFcompare, d0. cbn [val]. rewrite cond_opp_val. pose proof (scaled_pos m e).
    destruct s; split; try done; lra.
Qed.

(** Some integer is the floor. *)
Lemma floor_int_total x : finite x → (- bpow 62 <= val x <= bpow 62)%R →
  ∃ k, floor_int x = Some k ∧ (IZR k <= val x < IZR k + 1)%R.
Proof.
  intros F Hx. destruct x as [s| | |s m e]; try done.
  - exists 0. split; [done|cbn; lra].
  - exists (Z.shiftl (cond_Zopp s (Zpos m)) e). pose proof (shiftl_floor (cond_Zopp s (Zpos m)) e) as Hf.
    fold (val (S754_finite s m e)) in Hf. split; [|done]. rewrite bpow_IZR, <- opp_IZR in Hx by lia.
    cbn [floor_int]. rewrite bool_decide_eq_true_2; [done|].
    assert (Z.shiftl (cond_Zopp s (Zpos m)) e <= 2 ^ 62) by (apply le_IZR; lra).
    assert (- 2 ^ 62 < Z.shiftl (cond_Zopp s (Zpos m)) e + 1) by (apply lt_IZR; rewrite plus_IZR; lra).
    unfold in_int64, int64_min, int64_max. lia.
Qed.
