(* ===== verification/Text.v ===== *)
(** * Text: printing and reading numbers

    What the FIX codecs use of the C and C++ libraries: [snprintf] of integers,
    [std::from_chars], [strtoll] and [strtod].  Characters are their codes. *)

From Stdlib Require Import Ascii String SpecFloat.
From S2P Require Import Prelude Wire Doubles.

#[local] Open Scope Z_scope.

(** The characters of a literal. *)
Definition chars (s : string) : list Z := (λ a, Z.of_N (N_of_ascii a)) <$> list_ascii_of_string s.

(** ** Printing *)

(** The digits of [v] in front of [acc]. *)
Fixpoint decimal_loop (fuel : nat) (v : Z) (acc : list Z) : list Z :=
  if v <? 10 then (48 + v) :: acc
  else
    match fuel with
    | O => acc
    | S fuel' => decimal_loop fuel' (v / 10) ((48 + v mod 10) :: acc)
    end.
(** A number has no more decimal than binary digits. *)
Definition decimal (v : Z) : list Z := decimal_loop (Z.to_nat (Z.log2 v)) v [].
(** [%d], [%lld]. *)
Definition signed_decimal (v : Z) : list Z := if v <? 0 then 45 :: decimal (- v) else decimal v.
(** [%0<w>d] of a non-negative number. *)
Definition zero_padded (w : nat) (v : Z) : list Z :=
  replicate (w - length (decimal v)) 48 ++ decimal v.

(** ** Splitting *)

(** The text before the first [c] and the text after it. *)
Fixpoint split_at (c : Z) (bs : list Z) : option (list Z * list Z) :=
  match bs with
  | [] => None
  | b :: bs' =>
      if b =? c then Some ([], bs')
      else '(p, q) ← split_at c bs'; Some (b :: p, q)
  end.

Lemma split_at_app c p q : c ∉ p → split_at c (p ++ c :: q) = Some (p, q).
Proof.
  induction p as [|b p IH]; intros Hp; cbn.
  - by rewrite Z.eqb_refl.
  - apply not_elem_of_cons in Hp as [Hne Hp]. rewrite (proj2 (Z.eqb_neq b c)) by congruence. by rewrite IH.
Qed.

(** ** Reading integers *)

Definition is_digit (c : Z) : bool := (48 <=? c) && (c <=? 57).

(** The longest prefix of digits, as a number that continues [v]; the number of
    digits read and the rest. *)
Fixpoint read_digits (v : Z) (bs : list Z) : Z * nat * list Z :=
  match bs with
  | c :: bs' =>
      if is_digit c then
        let '(v', n, rest) := read_digits (v * 10 + (c - 48)) bs' in (v', S n, rest)
      else (v, O, bs)
  | [] => (v, O, [])
  end.

(** The result of [std::from_chars]: a value with the unread rest, or the value
    left as it was. *)
Inductive from_chars_result : Type :=
  | Converted (v : Z) (rest : list Z)
  | InvalidArgument
  | OutOfRange.

(** [std::from_chars] into a signed integer of which [fits] tells the range. *)
Definition from_chars (fits : Z → bool) (bs : list Z) : from_chars_result :=
  let '(negative, ds) := match bs with 45 :: bs' => (true, bs') | _ => (false, bs) end in
  let '(v, n, rest) := read_digits 0 ds in
  match n with
  | O => InvalidArgument
  | S _ =>
      let v := if negative then - v else v in
      if fits v then Converted v rest else OutOfRange
  end.
Definition fits_int32 (v : Z) : bool := bool_decide (in_int32 v).
Definition fits_int64 (v : Z) : bool := bool_decide (in_int64 v).

Definition is_space (c : Z) : bool := (c =? 32) || ((9 <=? c) && (c <=? 13)).
Fixpoint skip_spaces (bs : list Z) : list Z :=
  match bs with
  | c :: bs' => if is_space c then skip_spaces bs' else bs
  | [] => []
  end.
Definition read_sign (bs : list Z) : bool * list Z :=
  match bs with
  | 45 :: bs' => (true, bs')
  | 43 :: bs' => (false, bs')
  | _ => (false, bs)
  end.

(** [strtoll(s, nullptr, 10)]: zero without digits, and the nearest end of the
    range outside it. *)
Definition strtoll (bs : list Z) : Z :=
  let '(negative, ds) := read_sign (skip_spaces bs) in
  let '(v, _, _) := read_digits 0 ds in
  let v := if negative then - v else v in
  Z.max int64_min (Z.min int64_max v).

(** ** Reading doubles *)

Definition lower (c : Z) : Z := if (65 <=? c) && (c <=? 90) then c + 32 else c.
Fixpoint starts_with (word bs : list Z) : bool :=
  match word, bs with
  | [], _ => true
  | w :: word', c :: bs' => (lower c =? w) && starts_with word' bs'
  | _ :: _, [] => false
  end.

Definition hex_value (c : Z) : option Z :=
  let c := lower c in
  if is_digit c then Some (c - 48) else if (97 <=? c) && (c <=? 102) then Some (c - 87) else None.
Fixpoint read_hex (v : Z) (bs : list Z) : Z * nat * list Z :=
  match bs with
  | c :: bs' =>
      match hex_value c with
      | Some d => let '(v', n, rest) := read_hex (v * 16 + d) bs' in (v', S n, rest)
      | None => (v, O, bs)
      end
  | [] => (v, O, [])
  end.

(** Digits, perhaps a point, digits: the number without its point, how many
    digits there are in all and after the point, and the rest. *)
Definition read_mantissa (read : Z → list Z → Z * nat * list Z) (bs : list Z) : Z * nat * nat * list Z :=
  let '(v, n, rest) := read 0 bs in
  match rest with
  | 46 :: rest' => let '(v', k, rest'') := read v rest' in (v', (n + k)%nat, k, rest'')
  | _ => (v, n, O, rest)
  end.

(** The exponent behind the letter [e], zero when it has no digits. *)
Definition read_exponent (e : Z) (bs : list Z) : Z :=
  match bs with
  | c :: bs' =>
      if lower c =? e then
        let '(negative, ds) := read_sign bs' in
        let '(v, _, _) := read_digits 0 ds in if negative : bool then - v else v
      else 0
  | [] => 0
  end.

(** The double nearest to [n * 10^e] and to [n * 2^e]. *)
Definition decimal_double (negative : bool) (n e : Z) : double :=
  match n with
  | Zpos p =>
      if e <? 0 then of_ratio negative p (Z.to_pos (10 ^ (- e)))
      else binary_round 53 1024 negative (Z.to_pos (n * 10 ^ e)) 0
  | _ => S754_zero negative
  end.
Definition binary_double (negative : bool) (n e : Z) : double :=
  match n with
  | Zpos p => binary_round 53 1024 negative p e
  | _ => S754_zero negative
  end.

Definition hex_prefix (bs : list Z) : bool :=
  match bs with
  | 48 :: x :: bs' => (lower x =? 120) && match read_mantissa read_hex bs' with (_, O, _, _) => false | _ => true end
  | _ => false
  end.

(** [strtod] in the "C" locale; without a number, zero. *)
Definition strtod (bs : list Z) : double :=
  let '(negative, s) := read_sign (skip_spaces bs) in
  if starts_with (chars "inf") s then S754_infinity negative
  else if starts_with (chars "nan") s then S754_nan
  else if hex_prefix s then
    let '(v, _, k, rest) := read_mantissa read_hex (drop 2 s) in
    binary_double negative v (read_exponent 112 rest - 4 * Z.of_nat k)
  else
    let '(v, n, k, rest) := read_mantissa read_digits s in
    match n with
    | O => d0
    | S _ => decimal_double negative v (read_exponent 101 rest - Z.of_nat k)
    end.

(** ** What was printed is read back *)

Definition all_digits (ds : list Z) : Prop := Forall (λ c, 48 <= c <= 57) ds.

Lemma decimal_loop_digits fuel v acc : 0 <= v → all_digits acc →
  all_digits (decimal_loop fuel v acc).
Proof.
  revert v acc. induction fuel as [|fuel IH]; intros v acc Hv Hacc; cbn [decimal_loop];
    destruct (Z.ltb_spec v 10); try done; try (constructor; [lia|done]).
  pose proof (Z.mod_pos_bound v 10 ltac:(lia)).
  apply IH; [apply Z.div_pos; lia|]. constructor; [lia|done].
Qed.

Lemma length_decimal_loop fuel v acc k : 0 <= v < 10 ^ Z.of_nat (S k) →
  (length (decimal_loop fuel v acc) <= S k + length acc)%nat.
Proof.
  revert v acc k. induction fuel as [|fuel IH]; intros v acc k Hv; cbn [decimal_loop];
    destruct (Z.ltb_spec v 10); cbn [length]; try lia.
  destruct k as [|k]; [change (10 ^ Z.of_nat 1) with 10 in Hv; lia|].
  rewrite Nat2Z.inj_succ, Z.pow_succ_r in Hv by lia.
  pose proof (Z.div_mod v 10 ltac:(lia)). pose proof (Z.mod_pos_bound v 10 ltac:(lia)).
  specialize (IH (v / 10) ((48 + v mod 10) :: acc) k ltac:(lia)). cbn [length] in IH. lia.
Qed.

Lemma decimal_digits v : 0 <= v → all_digits (decimal v).
Proof. intros Hv. apply decimal_loop_digits; [done|apply Forall_nil_2]. Qed.
Lemma decimal_bytes v : 0 <= v → Forall is_byte (decimal v).
Proof.
  intros Hv. eapply Forall_impl; [by apply decimal_digits|].
  cbn. unfold is_byte. lia.
Qed.


Definition digits_value (v : Z) (ds : list Z) : Z := fold_left (λ v c, v * 10 + (c - 48)) ds v.

Lemma digits_value_app v ds ds' : digits_value v (ds ++ ds') = digits_value (digits_value v ds) ds'.
Proof. apply fold_left_app. Qed.
Lemma digits_value_shift v ds : digits_value v ds = v * 10 ^ Z.of_nat (length ds) + digits_value 0 ds.
Proof.
  revert v. induction ds as [|c ds IH]; intros v; [cbn; lia|].
  change (digits_value v (c :: ds)) with (digits_value (v * 10 + (c - 48)) ds).
  change (digits_value 0 (c :: ds)) with (digits_value (0 * 10 + (c - 48)) ds).
  rewrite (IH (v * 10 + _)), (IH (0 * 10 + _)). cbn [length]. rewrite Nat2Z.inj_succ, Z.pow_succ_r by lia. ring.
Qed.

Lemma decimal_loop_value fuel v acc : 0 <= v < 10 ^ Z.of_nat (S fuel) →
  digits_value 0 (decimal_loop fuel v acc) = digits_value v acc.
Proof.
  revert v acc. induction fuel as [|fuel IH]; intros v acc Hv; cbn [decimal_loop].
  - change (10 ^ Z.of_nat 1) with 10 in Hv. rewrite (proj2 (Z.ltb_lt v 10)) by lia.
    cbn. unfold digits_value. f_equal. lia.
  - rewrite Nat2Z.inj_succ, Z.pow_succ_r in Hv by lia. destruct (Z.ltb_spec v 10).
    + cbn. unfold digits_value. f_equal. lia.
    + pose proof (Z.div_mod v 10 ltac:(lia)). pose proof (Z.mod_pos_bound v 10 ltac:(lia)).
      rewrite IH by lia. cbn. unfold digits_value. f_equal. lia.
Qed.

Lemma decimal_fuel v : 0 <= v → v < 10 ^ Z.of_nat (S (Z.to_nat (Z.log2 v))).
Proof.
  intros Hv. destruct (Z.eq_dec v 0) as [->|Hne]; [done|].
  pose proof (Z.log2_spec v ltac:(lia)) as [_ H]. pose proof (Z.log2_nonneg v).
  replace (Z.of_nat (S (Z.to_nat (Z.log2 v)))) with (Z.succ (Z.log2 v)) by lia.
  eapply Z.lt_le_trans; [exact H|]. apply Z.pow_le_mono_l. lia.
Qed.
Lemma decimal_value v : 0 <= v → digits_value 0 (decimal v) = v.
Proof. intros Hv. unfold decimal. rewrite decimal_loop_value; [done|]. split; [done|by apply decimal_fuel]. Qed.

Lemma decimal_loop_not_nil fuel v acc : v < 10 ^ Z.of_nat (S fuel) → decimal_loop fuel v acc ≠ [].
Proof.
  revert v acc. induction fuel as [|fuel IH]; intros v acc Hv; cbn [decimal_loop].
  - change (10 ^ Z.of_nat 1) with 10 in Hv. by rewrite (proj2 (Z.ltb_lt v 10)) by lia.
  - destruct (Z.ltb_spec v 10); [done|]. rewrite Nat2Z.inj_succ, Z.pow_succ_r in Hv by lia.
    apply IH. apply Z.div_lt_upper_bound; lia.
Qed.
Lemma decimal_not_nil v : 0 <= v → decimal v ≠ [].
Proof. intros Hv. by apply decimal_loop_not_nil, decimal_fuel. Qed.

Lemma length_decimal v k : 0 <= v < 10 ^ Z.of_nat (S k) → (length (decimal v) <= S k)%nat.
Proof.
  intros Hv. pose proof (length_decimal_loop (Z.to_nat (Z.log2 v)) v [] k Hv) as H. cbn in H. unfold decimal. lia.
Qed.

Lemma is_digit_true c : is_digit c = true ↔ 48 <= c <= 57.
Proof. unfold is_digit. rewrite andb_true_iff, !Z.leb_le. done. Qed.
Lemma is_digit_false c : is_digit c = false ↔ c < 48 ∨ 57 < c.
Proof. unfold is_digit. rewrite andb_false_iff, !Z.leb_gt. done. Qed.

(** Where a number ends. *)
Definition no_digit (rest : list Z) : Prop :=
  match rest with c :: _ => is_digit c = false | [] => True end.

Lemma read_digits_app v ds rest : all_digits ds → no_digit rest →
  read_digits v (ds ++ rest) = (digits_value v ds, length ds, rest).
Proof.
  intros Hds Hr. revert v. induction Hds as [|c ds Hc _ IH]; intros v.
  - destruct rest as [|c rest]; [done|]. cbn in *. by rewrite Hr.
  - cbn [app read_digits]. rewrite (proj2 (is_digit_true c) Hc), IH. done.
Qed.
Lemma read_decimal v rest : 0 <= v → no_digit rest →
  ∃ n, read_digits 0 (decimal v ++ rest) = (v, S n, rest).
Proof.
  intros Hv Hr. rewrite read_digits_app, decimal_value by (done || by apply decimal_digits).
  destruct (decimal v) as [|c ds] eqn:E; [by apply decimal_not_nil in E|]. by exists (length ds).
Qed.


Lemma head_digit v rest : 0 <= v → ∃ c cs, decimal v ++ rest = c :: cs ∧ 48 <= c <= 57.
Proof.
  intros Hv. pose proof (decimal_digits v Hv) as Hd. destruct (decimal v) as [|c cs] eqn:E; [by apply decimal_not_nil in E|].
  apply Forall_cons in Hd as [Hc _]. by exists c, (cs ++ rest).
Qed.

Ltac digit_case c := assert (c = 48 ∨ c = 49 ∨ c = 50 ∨ c = 51 ∨ c = 52 ∨ c = 53 ∨ c = 54 ∨ c = 55 ∨ c = 56 ∨ c = 57)
  as Hcases by lia; repeat (destruct Hcases as [->|Hcases]); try subst c.

Lemma read_sign_digit c bs : 48 <= c <= 57 → read_sign (c :: bs) = (false, c :: bs).
Proof. intros Hc. by digit_case c. Qed.
Lemma skip_spaces_digit c bs : 48 <= c <= 57 → skip_spaces (c :: bs) = c :: bs.
Proof. intros Hc. by digit_case c. Qed.

Lemma from_chars_decimal fits v rest : 0 <= v → no_digit rest → fits v = true →
  from_chars fits (decimal v ++ rest) = Converted v rest.
Proof.
  intros Hv Hr Hf. destruct (read_decimal v rest Hv Hr) as [n E]. destruct (head_digit v rest Hv) as (c & cs & Hc & Hd).
  unfold from_chars. rewrite Hc in *.
  assert (match c :: cs with 45 :: bs' => (true, bs') | _ => (false, c :: cs) end = (false, c :: cs)) as -> by (by digit_case c).
  by rewrite E, Hf.
Qed.
Lemma from_chars_signed fits v rest : no_digit rest → fits v = true →
  from_chars fits (signed_decimal v ++ rest) = Converted v rest.
Proof.
  intros Hr Hf. unfold signed_decimal. destruct (Z.ltb_spec v 0) as [Hn|Hp]; [|by apply from_chars_decimal].
  destruct (read_decimal (- v) rest ltac:(lia) Hr) as [n E]. cbn. by rewrite E, Z.opp_involutive, Hf.
Qed.

Lemma strtoll_decimal v : 0 <= v → strtoll (decimal v) = Z.min int64_max v.
Proof.
  intros Hv. destruct (read_decimal v [] Hv I) as [n E]. destruct (head_digit v [] Hv) as (c & cs & Hc & Hd).
  rewrite app_nil_r in *. unfold strtoll. rewrite Hc in *. rewrite skip_spaces_digit, read_sign_digit, E by done.
  unfold int64_min, int64_max. lia.
Qed.

Lemma length_zero_padded w v : (length (decimal v) <= w)%nat → length (zero_padded w v) = w.
Proof. intros H. unfold zero_padded. rewrite length_app, length_replicate. lia. Qed.
Lemma zero_padded_digits w v : 0 <= v → all_digits (zero_padded w v).
Proof.
  intros Hv. apply Forall_app. split; [apply Forall_replicate; lia|by apply decimal_digits].
Qed.
Lemma zero_padded_value w v : 0 <= v → digits_value 0 (zero_padded w v) = v.
Proof.
  intros Hv. unfold zero_padded. rewrite digits_value_app.
  assert (E : ∀ n, digits_value 0 (replicate n 48) = 0) by (induction n; done). by rewrite E, decimal_value.
Qed.

(** A number with a point, as [price_to_fix_str] prints it. *)
Lemma read_fixed_point whole frac w : 0 <= whole → 0 <= frac < 10 ^ Z.of_nat (S w) →
  ∃ n, read_mantissa read_digits (decimal whole ++ 46 :: zero_padded (S w) frac)
    = (whole * 10 ^ Z.of_nat (S w) + frac, S n, S w, []).
Proof.
  intros Hw Hf. unfold read_mantissa. destruct (read_decimal whole (46 :: zero_padded (S w) frac) Hw) as [n ->]; [done|].
  cbn [Z.eqb]. rewrite <- (app_nil_r (zero_padded (S w) frac)), read_digits_app by (done || apply zero_padded_digits; lia).
  pose proof (length_decimal frac w Hf). rewrite digits_value_shift, zero_padded_value, length_zero_padded by lia.
  eexists. f_equal.
Qed.
