(* ===== verification/Fast.v ===== *)
(** * The FAST feed of KRX: [fast_types.h], [fast_encoder.h], [fast_decoder.h]
      and [fast_publisher.h]

    Stop-bit integers, the presence map, the six message templates, the
    decoder's dispatch and the publisher between the engine and the feed. *)

From S2P Require Import Prelude Types Wire.

(** ** Stop-bit integers *)

Definition kMaxStopBitBytes : nat := 10.
Definition kMaxPmapBytes : nat := 2.
Definition kNullByte : Z := 0x80.

Definition stop_bit (byte : Z) : bool := negb (Z.land byte 0x80 =? 0).
Definition sign_bit (byte : Z) : bool := negb (Z.land byte 0x40 =? 0).

(** The [while] loop of [encode_u64]: the entries of [tmp] after the first,
    for as long as the array has [free] of them. *)
Fixpoint u64_groups (free : nat) (value : Z) : option (list Z) :=
  if value >? 0 then
    match free with
    | O => None
    | S free' => cons (Z.land value 0x7F) <$> u64_groups free' (Z.shiftr value 7)
    end
  else Some [].

Definition encode_u64 (value : Z) : encoder := λ buf_len,
  let last := Z.lor (Z.land value 0x7F) 0x80 in
  match u64_groups (pred kMaxStopBitBytes) (Z.shiftr value 7) with
  | Some tmp => write (reverse (last :: tmp)) buf_len
  | None => Undefined
  end.

(** The loop of [encode_i64]; it breaks when [tmp] is full. *)
Definition i64_complete (prev v : Z) : bool :=
  ((v =? 0) && negb (sign_bit prev)) || ((v =? -1) && sign_bit prev).

Fixpoint i64_groups (free : nat) (prev v : Z) : list Z :=
  if i64_complete prev v then []
  else
    match free with
    | O => []
    | S free' =>
        let group := Z.land (wrap_u64 v) 0x7F in
        group :: i64_groups free' group (Z.shiftr v 7)
    end.

Definition encode_i64 (value : Z) : encoder :=
  let last := Z.lor (Z.land (wrap_u64 value) 0x7F) 0x80 in
  write (reverse (last :: i64_groups (pred kMaxStopBitBytes) last (Z.shiftr value 7))).

Definition encode_nullable_u64 (value : option Z) : encoder :=
  match value with
  | None => write [kNullByte]
  | Some v => encode_u64 (wrap_u64 (v + 1))
  end.

(** [wire_val += 1] overflows on the largest value. *)
Definition encode_nullable_i64 (value : option Z) : encoder :=
  match value with
  | None => write [kNullByte]
  | Some v =>
      if v >=? 0 then
        if v + 1 >? int64_max then λ _, Undefined else encode_i64 (v + 1)
      else encode_i64 v
  end.

(** The loop of the two decoders, on the accumulator. *)
Fixpoint stop_bit_loop (free : nat) (value : Z) : decoder Z := λ bs,
  match free, bs with
  | S free', byte :: rest =>
      let value' := Z.lor (wrap_u64 (Z.shiftl value 7)) (Z.land byte 0x7F) in
      if stop_bit byte then Some (value', rest) else stop_bit_loop free' value' rest
  | _, _ => None
  end.

Definition decode_u64 : decoder Z := stop_bit_loop kMaxStopBitBytes 0.

Definition decode_i64 : decoder Z := λ bs,
  match bs with
  | [] => None
  | first :: _ =>
      let uval := if sign_bit first then uint64_mod - 1 else 0 in
      '(uval, rest) ← stop_bit_loop kMaxStopBitBytes uval bs;
      Some (wrap_s64 uval, rest)
  end.

Definition decode_nullable_u64 : decoder (option Z) :=
  wire_val ← decode_u64;
  mret (if wire_val =? 0 then None else Some (wire_val - 1)).

Definition decode_nullable_i64 : decoder (option Z) := λ bs,
  if bool_decide (head bs = Some kNullByte) then Some (None, tail bs)
  else (wire_val ← decode_i64; mret (Some (if wire_val >=? 0 then wire_val - 1 else wire_val))) bs.

(** ** Presence map *)

Record PresenceMap : Type := mkPresence { pm_bytes : list Z; pm_byte_count : nat; pm_bit_index : Z }.

Definition empty_pmap : PresenceMap := mkPresence (replicate kMaxPmapBytes 0) 0 0.

Definition set_bit (pos : Z) (pm : PresenceMap) : PresenceMap :=
  let byte_idx := Z.to_nat (pos / 7) in
  let bit_pos := 6 - pos mod 7 in
  if (byte_idx <? kMaxPmapBytes)%nat then
    mkPresence (alter (λ b, Z.lor b (Z.shiftl 1 bit_pos)) byte_idx pm.(pm_bytes))
      pm.(pm_byte_count) pm.(pm_bit_index)
  else pm.

Definition next_bit (pm : PresenceMap) : bool * PresenceMap :=
  let byte_idx := Z.to_nat (pm.(pm_bit_index) / 7) in
  let bit_pos := 6 - pm.(pm_bit_index) mod 7 in
  let pm' := mkPresence pm.(pm_bytes) pm.(pm_byte_count) (wrap_u8 (pm.(pm_bit_index) + 1)) in
  if (pm.(pm_byte_count) <=? byte_idx)%nat then (false, pm')
  else (match pm.(pm_bytes) !! byte_idx with
        | Some b => negb (Z.land b (Z.shiftl 1 bit_pos) =? 0)
        | None => false
        end, pm').

Definition reset_read (pm : PresenceMap) : PresenceMap :=
  mkPresence pm.(pm_bytes) pm.(pm_byte_count) 0.

(** The number of bytes up to the last one with a bit, at least one. *)
Fixpoint pmap_length (i : nat) (bs : list Z) (n : nat) : nat :=
  match bs with
  | [] => n
  | b :: bs' => pmap_length (S i) bs' (if b =? 0 then n else S i)
  end.

Fixpoint mark_last (bs : list Z) : list Z :=
  match bs with
  | [] => []
  | [b] => [Z.lor b 0x80]
  | b :: bs' => Z.land b 0x7F :: mark_last bs'
  end.

Definition encode_pmap (pm : PresenceMap) : encoder :=
  write (mark_last (take (pmap_length 0 pm.(pm_bytes) 1) pm.(pm_bytes))).

Fixpoint pmap_loop (free : nat) (pm : PresenceMap) : decoder PresenceMap := λ bs,
  match free, bs with
  | S free', byte :: rest =>
      let i := pm.(pm_byte_count) in
      let pm' := mkPresence (<[i := Z.land byte 0x7F]> pm.(pm_bytes)) (S i) pm.(pm_bit_index) in
      if stop_bit byte then Some (pm', rest) else pmap_loop free' pm' rest
  | _, _ => None
  end.

Definition decode_pmap : decoder PresenceMap := pmap_loop kMaxPmapBytes empty_pmap.

Definition encode_bytes (src : list Z) : encoder := write src.
Definition decode_bytes (field_len : nat) : decoder (list Z) := read_bytes field_len.

(** ** Messages *)

Inductive TemplateId : Type :=
  | TQuote
  | TTrade
  | TStatus
  | TSnapshot
  | TInstrumentDef
  | TFullSnapshot.

Definition template_number (t : TemplateId) : Z :=
  match t with
  | TQuote => 1
  | TTrade => 2
  | TStatus => 3
  | TSnapshot => 4
  | TInstrumentDef => 5
  | TFullSnapshot => 6
  end.

Record FastQuote : Type := mkFastQuote {
  fq_bid_price : Z; fq_bid_qty : Z; fq_ask_price : Z; fq_ask_qty : Z; fq_timestamp : Z
}.

Record FastTrade : Type := mkFastTrade {
  ft_price : Z; ft_quantity : Z; ft_aggressor_side : Z; ft_timestamp : Z
}.

Record FastStatus : Type := mkFastStatus { fs_session_state : Z; fs_timestamp : Z }.

Record FastSnapshot : Type := mkFastSnapshot {
  fn_bid_price : Z; fn_bid_qty : Z; fn_ask_price : Z; fn_ask_qty : Z;
  fn_bid_count : Z; fn_ask_count : Z; fn_timestamp : Z
}.

Record FastInstrumentDef : Type := mkFastInstrumentDef {
  fi_instrument_id : Z; fi_symbol : list Z; fi_description : list Z; fi_product_group : Z;
  fi_tick_size : Z; fi_lot_size : Z; fi_max_order_size : Z; fi_total_instruments : Z;
  fi_timestamp : Z
}.

Definition kSnapshotBookDepth : nat := 5.

Record FastSnapshotLevel : Type := mkFastLevel { fl_price : Z; fl_quantity : Z; fl_order_count : Z }.

Definition default_level : FastSnapshotLevel := mkFastLevel 0 0 0.

(** [fu_bids] and [fu_asks] are arrays of [kSnapshotBookDepth] levels. *)
Record FastFullSnapshot : Type := mkFastFullSnapshot {
  fu_instrument_id : Z; fu_seq_num : Z; fu_num_bid_levels : Z; fu_num_ask_levels : Z;
  fu_bids : list FastSnapshotLevel; fu_asks : list FastSnapshotLevel; fu_timestamp : Z
}.

(** ** Encoders *)

(** The presence map with the template bit, and the template number. *)
Definition encode_header (t : TemplateId) : encoder :=
  encode_pmap (set_bit 0 empty_pmap) ;+ encode_u64 (template_number t).

Definition encode_quote (msg : FastQuote) : encoder :=
  encode_header TQuote ;+
  encode_i64 msg.(fq_bid_price) ;+ encode_i64 msg.(fq_bid_qty) ;+
  encode_i64 msg.(fq_ask_price) ;+ encode_i64 msg.(fq_ask_qty) ;+
  encode_i64 msg.(fq_timestamp) ;+ write_nothing.

Definition encode_trade (msg : FastTrade) : encoder :=
  encode_header TTrade ;+
  encode_i64 msg.(ft_price) ;+ encode_i64 msg.(ft_quantity) ;+
  encode_u64 msg.(ft_aggressor_side) ;+ encode_i64 msg.(ft_timestamp) ;+ write_nothing.

Definition encode_status (msg : FastStatus) : encoder :=
  encode_header TStatus ;+
  encode_u64 msg.(fs_session_state) ;+ encode_i64 msg.(fs_timestamp) ;+ write_nothing.

Definition encode_snapshot (msg : FastSnapshot) : encoder :=
  encode_header TSnapshot ;+
  encode_i64 msg.(fn_bid_price) ;+ encode_i64 msg.(fn_bid_qty) ;+
  encode_i64 msg.(fn_ask_price) ;+ encode_i64 msg.(fn_ask_qty) ;+
  encode_u64 msg.(fn_bid_count) ;+ encode_u64 msg.(fn_ask_count) ;+
  encode_i64 msg.(fn_timestamp) ;+ write_nothing.

Definition encode_instrument_def (msg : FastInstrumentDef) : encoder :=
  encode_header TInstrumentDef ;+
  encode_u64 msg.(fi_instrument_id) ;+
  encode_bytes msg.(fi_symbol) ;+ encode_bytes msg.(fi_description) ;+
  encode_u64 msg.(fi_product_group) ;+
  encode_i64 msg.(fi_tick_size) ;+ encode_i64 msg.(fi_lot_size) ;+
  encode_i64 msg.(fi_max_order_size) ;+ encode_u64 msg.(fi_total_instruments) ;+
  encode_i64 msg.(fi_timestamp) ;+ write_nothing.

(** The first [n] entries of the array of levels. *)
Fixpoint encode_levels (n : nat) (levels : list FastSnapshotLevel) : encoder :=
  match n, levels with
  | O, _ => write_nothing
  | S n', lv :: levels' =>
      encode_i64 lv.(fl_price) ;+ encode_i64 lv.(fl_quantity) ;+
      encode_u64 lv.(fl_order_count) ;+ encode_levels n' levels'
  | S _, [] => λ _, Undefined
  end.

Definition encode_full_snapshot (msg : FastFullSnapshot) : encoder :=
  encode_header TFullSnapshot ;+
  encode_u64 msg.(fu_instrument_id) ;+ encode_u64 msg.(fu_seq_num) ;+
  encode_u64 msg.(fu_num_bid_levels) ;+ encode_u64 msg.(fu_num_ask_levels) ;+
  encode_levels (Z.to_nat msg.(fu_num_bid_levels)) msg.(fu_bids) ;+
  encode_levels (Z.to_nat msg.(fu_num_ask_levels)) msg.(fu_asks) ;+
  encode_i64 msg.(fu_timestamp) ;+ write_nothing.

(** *** Conversion of the engine's events *)

(** The value of an enumerator, [static_cast<uint8_t>]. *)
Definition side_u8 (sd : Side) : Z := match sd with Buy => 0 | Sell => 1 end.

Definition session_u8 (st : SessionState) : Z :=
  match st with
  | Closed => 0
  | PreOpen => 1
  | OpeningAuction => 2
  | Continuous => 3
  | PreClose => 4
  | ClosingAuction => 5
  | Halt => 6
  | VolatilityAuction => 7
  | LockLimit => 8
  end.

Definition to_fast_quote (best_bid bid_qty best_ask ask_qty ts : Z) : FastQuote :=
  mkFastQuote best_bid bid_qty best_ask ask_qty ts.
Definition to_fast_trade (price quantity : Z) (aggressor_side : Side) (ts : Z) : FastTrade :=
  mkFastTrade price quantity (side_u8 aggressor_side) ts.
Definition to_fast_status (st : SessionState) (ts : Z) : FastStatus :=
  mkFastStatus (session_u8 st) ts.
Definition to_fast_snapshot (best_bid bid_qty best_ask ask_qty ts : Z) : FastSnapshot :=
  mkFastSnapshot best_bid bid_qty best_ask ask_qty
    (if best_bid =? 0 then 0 else 1) (if best_ask =? 0 then 0 else 1) ts.

(** ** Decoders *)

Definition decode_quote_fields : decoder FastQuote :=
  bid_price ← decode_i64; bid_qty ← decode_i64;
  ask_price ← decode_i64; ask_qty ← decode_i64;
  timestamp ← decode_i64;
  mret (mkFastQuote bid_price bid_qty ask_price ask_qty timestamp).

Definition decode_trade_fields : decoder FastTrade :=
  price ← decode_i64; quantity ← decode_i64;
  side ← decode_u64; timestamp ← decode_i64;
  mret (mkFastTrade price quantity (wrap_u8 side) timestamp).

Definition decode_status_fields : decoder FastStatus :=
  state ← decode_u64; timestamp ← decode_i64;
  mret (mkFastStatus (wrap_u8 state) timestamp).

Definition decode_snapshot_fields : decoder FastSnapshot :=
  bid_price ← decode_i64; bid_qty ← decode_i64;
  ask_price ← decode_i64; ask_qty ← decode_i64;
  bc ← decode_u64; ac ← decode_u64; timestamp ← decode_i64;
  mret (mkFastSnapshot bid_price bid_qty ask_price ask_qty (wrap_u32 bc) (wrap_u32 ac) timestamp).

Definition decode_instrument_def_fields : decoder FastInstrumentDef :=
  iid ← decode_u64; symbol ← decode_bytes 8; description ← decode_bytes 32;
  pg ← decode_u64; tick_size ← decode_i64; lot_size ← decode_i64;
  max_order_size ← decode_i64; total ← decode_u64; timestamp ← decode_i64;
  mret (mkFastInstrumentDef (wrap_u32 iid) symbol description (wrap_u8 pg)
          tick_size lot_size max_order_size (wrap_u32 total) timestamp).

Fixpoint decode_levels (n : nat) : decoder (list FastSnapshotLevel) :=
  match n with
  | O => mret []
  | S n' =>
      price ← decode_i64; quantity ← decode_i64; oc ← decode_u64;
      rest ← decode_levels n';
      mret (mkFastLevel price quantity (wrap_u32 oc) :: rest)
  end.

(** The levels read, then those that [FastFullSnapshot msg{}] left at zero. *)
Definition fill_levels (levels : list FastSnapshotLevel) : list FastSnapshotLevel :=
  levels ++ replicate (kSnapshotBookDepth - length levels) default_level.

Definition decode_full_snapshot_fields : decoder FastFullSnapshot :=
  iid ← decode_u64; seq ← decode_u64; nb ← decode_u64; na ← decode_u64;
  bids ← decode_levels (Nat.min (Z.to_nat (wrap_u8 nb)) kSnapshotBookDepth);
  asks ← decode_levels (Nat.min (Z.to_nat (wrap_u8 na)) kSnapshotBookDepth);
  timestamp ← decode_i64;
  mret (mkFastFullSnapshot (wrap_u32 iid) (wrap_u32 seq) (wrap_u8 nb) (wrap_u8 na)
          (fill_levels bids) (fill_levels asks) timestamp).

(** What the visitor is called with. *)
Inductive FastMessage : Type :=
  | on_quote (msg : FastQuote)
  | on_trade (msg : FastTrade)
  | on_status (msg : FastStatus)
  | on_snapshot (msg : FastSnapshot)
  | on_instrument_def (msg : FastInstrumentDef)
  | on_full_snapshot (msg : FastFullSnapshot).

(** The dispatch; the template number is cut to the 32 bits of its enum. *)
Definition decode_fields (raw_tid : Z) : decoder FastMessage :=
  let tid := wrap_u32 raw_tid in
  if tid =? 1 then msg ← decode_quote_fields; mret (on_quote msg)
  else if tid =? 2 then msg ← decode_trade_fields; mret (on_trade msg)
  else if tid =? 3 then msg ← decode_status_fields; mret (on_status msg)
  else if tid =? 4 then msg ← decode_snapshot_fields; mret (on_snapshot msg)
  else if tid =? 5 then msg ← decode_instrument_def_fields; mret (on_instrument_def msg)
  else if tid =? 6 then msg ← decode_full_snapshot_fields; mret (on_full_snapshot msg)
  else read_failure.

Definition decode_message : decoder FastMessage :=
  _ ← decode_pmap;
  raw_tid ← decode_u64;
  decode_fields raw_tid.

(** The messages visited and the bytes that are left; a message takes at least
    one byte, so as many rounds as bytes are enough. *)
Fixpoint decode_messages_loop (fuel : nat) (bs : list Z) : list FastMessage * list Z :=
  match fuel, bs with
  | S fuel', _ :: _ =>
      match decode_message bs with
      | Some (msg, rest) =>
          let '(msgs, after) := decode_messages_loop fuel' rest in (msg :: msgs, after)
      | None => ([], bs)
      end
  | _, _ => ([], bs)
  end.

Definition decode_messages (bs : list Z) : list FastMessage * nat :=
  let '(msgs, after) := decode_messages_loop (length bs) bs in
  (msgs, (length bs - length after)%nat).

(** ** The publisher *)

Definition kMaxFastEncodedSize : Z := 512.

(** [data] is an array of [kMaxFastEncodedSize] bytes. *)
Record FastPacket : Type := mkFastPacket { pkt_data : list Z; pkt_len : Z }.

(** Encode into a fresh packet; keep it if anything was written. *)
Definition publish (e : encoder) (packets : list FastPacket) : option (list FastPacket) :=
  match e kMaxFastEncodedSize with
  | Wrote bs =>
      let len := Z.of_nat (length bs) in
      Some (if len >? 0
            then packets ++ [mkFastPacket (bs ++ replicate (Z.to_nat (kMaxFastEncodedSize - len)) 0) len]
            else packets)
  | NoRoom => Some packets
  | Undefined => None
  end.

(** The listener callbacks of [FastFeedPublisher]. *)
Definition fast_listener (packets : list FastPacket) (e : event) : option (list FastPacket) :=
  match e with
  | TopOfBook best_bid bid_qty best_ask ask_qty ts =>
      publish (encode_quote (to_fast_quote best_bid bid_qty best_ask ask_qty ts)) packets
  | Trade price quantity _ _ aggressor_side ts =>
      publish (encode_trade (to_fast_trade price quantity aggressor_side ts)) packets
  | MarketStatus st ts => publish (encode_status (to_fast_status st ts)) packets
  | _ => Some packets
  end.

Definition publish_snapshot (best_bid bid_qty best_ask ask_qty ts : Z) :
    list FastPacket → option (list FastPacket) :=
  publish (encode_snapshot (to_fast_snapshot best_bid bid_qty best_ask ask_qty ts)).

Fixpoint fast_listen (packets : list FastPacket) (events : list event) : option (list FastPacket) :=
  match events with
  | [] => Some packets
  | e :: events' => packets' ← fast_listener packets e; fast_listen packets' events'
  end.

Definition packet_bytes (p : FastPacket) : list Z := take (Z.to_nat p.(pkt_len)) p.(pkt_data).
