(* ===== verification/FastTheorems.v ===== *)
(** * The FAST codec: every message survives the wire

    Stop-bit integers first, then the messages by composition, then the feed
    from the publisher's callbacks to the decoder's visitor. *)

From S2P Require Import Prelude Types Wire Fast.

(** ** Groups of seven bits *)

Definition is_group (g : Z) : Prop := 0 <= g < 128.

(** A decidable fact about bytes is checked on all of them. *)
Lemma byte_check (P : Z → bool) : forallb P (seqZ 0 256) = true → ∀ b, is_byte b → P b = true.
Proof.
  intros H b Hb. rewrite forallb_forall in H. apply H, list_elem_of_In, elem_of_seqZ.
  unfold is_byte in Hb. lia.
Qed.

Lemma group_check (P : Z → bool) : forallb P (seqZ 0 128) = true → ∀ g, is_group g → P g = true.
Proof.
  intros H b Hb. rewrite forallb_forall in H. apply H, list_elem_of_In, elem_of_seqZ.
  unfold is_group in Hb. lia.
Qed.

Lemma land_group v : Z.land v 0x7F = v mod 128.
Proof. change 0x7F with (Z.ones 7). by rewrite Z.land_ones. Qed.

Lemma land_group_wrap v : Z.land (wrap_u64 v) 0x7F = v mod 128.
Proof.
  rewrite land_group. unfold wrap_u64. change uint64_mod with (128 * 2 ^ 57).
  rewrite Z.rem_mul_r by lia. rewrite Z.mul_comm, Z.mod_add by lia. by rewrite Z.mod_mod.
Qed.

Lemma land_is_group v : is_group (Z.land v 0x7F).
Proof. rewrite land_group. apply Z.mod_pos_bound. lia. Qed.

Lemma group_plain g : is_group g → stop_bit g = false ∧ Z.land g 0x7F = g.
Proof.
  intros Hg. pose proof (group_check (λ g, negb (stop_bit g) && (Z.land g 0x7F =? g)) ltac:(by vm_compute) g Hg) as H.
  rewrite !andb_true_iff, negb_true_iff, Z.eqb_eq in H. exact H.
Qed.

Lemma group_last g : is_group g →
  is_byte (Z.lor g 0x80) ∧ stop_bit (Z.lor g 0x80) = true ∧ Z.land (Z.lor g 0x80) 0x7F = g ∧
  sign_bit (Z.lor g 0x80) = sign_bit g ∧ sign_bit g = (64 <=? g).
Proof.
  intros Hg.
  pose proof (group_check (λ g, bool_decide (is_byte (Z.lor g 0x80)) && stop_bit (Z.lor g 0x80) &&
    (Z.land (Z.lor g 0x80) 0x7F =? g) && eqb (sign_bit (Z.lor g 0x80)) (sign_bit g) &&
    eqb (sign_bit g) (64 <=? g)) ltac:(by vm_compute) g Hg) as H.
  rewrite !andb_true_iff, bool_decide_eq_true, Z.eqb_eq, !eqb_true_iff in H. by destruct_and!.
Qed.

(** Appending a group to the accumulator. *)
Lemma append_group acc g : is_group g →
  Z.lor (wrap_u64 (Z.shiftl (wrap_u64 acc) 7)) g = wrap_u64 (acc * 128 + g).
Proof.
  intros Hg. unfold wrap_u64, is_group in *. rewrite Z.shiftl_mul_pow2 by lia.
  rewrite Z.mul_mod_idemp_l by done. change uint64_mod with (2 ^ 57 * 128).
  change (2 ^ 7) with 128. rewrite Z.mul_mod_distr_r by lia.
  assert (Hd : Z.land (acc mod 2 ^ 57 * 128) g = 0).
  { apply Z.bits_inj'. intros n Hn. rewrite Z.land_spec, Z.bits_0.
    destruct (Z.lt_ge_cases n 7).
    - change 128 with (2 ^ 7). rewrite Z.mul_pow2_bits_low by lia. done.
    - rewrite (Z.bits_above_log2 g); [by rewrite andb_false_r|lia|].
      destruct (Z.eq_dec g 0) as [->|]; [cbn; lia|].
      apply Z.log2_lt_pow2; [lia|]. pose proof (Z.pow_le_mono_r 2 7 n). lia. }
  pose proof (Z.add_lor_land (acc mod 2 ^ 57 * 128) g) as Hs. rewrite Hd, Z.add_0_r in Hs.
  rewrite Hs. apply Z.mod_unique_pos with (acc / 2 ^ 57).
  - pose proof (Z.mod_pos_bound acc (2 ^ 57) ltac:(lia)). lia.
  - rewrite (Z.div_mod acc (2 ^ 57)) at 1 by lia. lia.
Qed.

(** The number that groups stand for, low group first, above [top]. *)
Definition groups_value (top : Z) (gs : list Z) : Z := foldr (λ g a, a * 128 + g) top gs.

Lemma stop_bit_loop_groups n acc gs g rest :
  Forall is_group gs → is_group g → (length gs < n)%nat →
  stop_bit_loop n (wrap_u64 acc) (reverse gs ++ Z.lor g 0x80 :: rest) =
    Some (wrap_u64 (groups_value acc (g :: gs)), rest).
Proof.
  intros Hgs Hg. revert n acc g Hg rest. induction gs as [|g' gs IH] using rev_ind; intros n acc g Hg rest Hn.
  - destruct n; [lia|]. destruct (group_last g Hg) as (_ & Hs & Hl & _). cbn.
    by rewrite Hs, Hl, append_group.
  - apply Forall_app in Hgs as [Hgs Hg']. apply Forall_cons in Hg' as [Hg' _].
    rewrite length_app in Hn. cbn in Hn. rewrite reverse_snoc. destruct n; [lia|].
    destruct (group_plain g' Hg') as [Hs Hl]. cbn [app stop_bit_loop]. rewrite Hs, Hl, append_group by done.
    rewrite IH by (done || lia). unfold groups_value. cbn. by rewrite foldr_app.
Qed.

Lemma stop_bit_loop_truncated n acc gs : Forall is_group gs → stop_bit_loop n acc gs = None.
Proof.
  intros Hgs. revert n acc. induction Hgs as [|g gs Hg _ IH]; intros [|n] acc; try done.
  cbn. destruct (group_plain g Hg) as [-> _]. apply IH.
Qed.

(** A proper prefix of an encoded integer holds groups only. *)
Lemma groups_prefix gs b p q :
  Forall is_group gs → reverse gs ++ [b] = p ++ q → q ≠ [] → Forall is_group p.
Proof.
  intros Hgs Heq Hq. destruct q as [|c q _] using rev_ind; [done|].
  rewrite app_assoc in Heq. apply app_inj_tail in Heq as [Heq _].
  assert (H : Forall is_group (reverse gs)) by by apply Forall_reverse.
  rewrite Heq in H. by apply Forall_app in H as [? _].
Qed.

(** ** Integers *)

(** What the stop-bit loop needs of the groups it reads. *)
Lemma groups_carry {A} (d : decoder A) (a : A) e gs g :
  Forall is_group gs → is_group g → (length gs < kMaxStopBitBytes)%nat →
  (∀ n, e n = write (reverse (Z.lor g 0x80 :: gs)) n) →
  (∀ rest, d (reverse gs ++ Z.lor g 0x80 :: rest) = Some (a, rest)) →
  (∀ p, Forall is_group p → d p = None) →
  transports e d a 10.
Proof.
  intros Hgs Hg Hlen He Hd Ht. exists (reverse (Z.lor g 0x80 :: gs)). split; [| |done|..].
  - rewrite length_reverse. unfold kMaxStopBitBytes in Hlen. cbn [length]. lia.
  - apply Forall_reverse. constructor; [by destruct (group_last g Hg)|].
    eapply Forall_impl; [exact Hgs|]. unfold is_group, is_byte. lia.
  - intros rest. rewrite reverse_cons, <- app_assoc. apply Hd.
  - intros p q Heq Hq. apply Ht. rewrite reverse_cons in Heq. by eapply groups_prefix.
Qed.

Lemma shiftr_7 v : Z.shiftr v 7 * 128 + v mod 128 = v.
Proof. rewrite Z.shiftr_div_pow2 by lia. change (2 ^ 7) with 128. pose proof (Z.div_mod v 128). lia. Qed.

Lemma u64_groups_value free v :
  0 <= v < 128 ^ Z.of_nat free →
  ∃ gs, u64_groups free v = Some gs ∧ groups_value 0 gs = v ∧ Forall is_group gs ∧
        (length gs <= free)%nat.
Proof.
  revert v. induction free as [|free IH]; intros v Hv; cbn [u64_groups]; case_ifs.
  - cbn in Hv. lia.
  - exists []. split_and!; try done. cbn. lia.
  - rewrite Nat2Z.inj_succ, Z.pow_succ_r in Hv by lia. pose proof (shiftr_7 v) as Hs.
    pose proof (Z.mod_pos_bound v 128 ltac:(lia)) as Hm.
    destruct (IH (Z.shiftr v 7)) as (gs & -> & Hval & Hgs & Hlen); [lia|].
    eexists. split; [done|]. split_and!.
    + cbn. rewrite land_group. unfold groups_value in Hval. rewrite Hval. lia.
    + constructor; [apply land_is_group|done].
    + cbn. lia.
  - exists []. split_and!; try done; cbn; lia.
Qed.

Lemma transports_stop_u64 v : in_uint64 v → transports (encode_u64 v) decode_u64 v 10.
Proof.
  intros Hv. pose proof (shiftr_7 v) as Hs. pose proof (Z.mod_pos_bound v 128 ltac:(lia)) as Hm.
  unfold in_uint64, uint64_mod in Hv.
  destruct (u64_groups_value 9 (Z.shiftr v 7)) as (gs & Hgs & Hval & Hall & Hlen); [lia|].
  apply (groups_carry _ _ _ gs (Z.land v 0x7F)); try done.
  - apply land_is_group.
  - unfold kMaxStopBitBytes. lia.
  - intros n. unfold encode_u64, kMaxStopBitBytes. cbn [pred]. by rewrite Hgs.
  - intros rest. change (decode_u64) with (stop_bit_loop kMaxStopBitBytes (wrap_u64 0)).
    rewrite (stop_bit_loop_groups kMaxStopBitBytes 0 gs _ rest Hall (land_is_group v))
      by (unfold kMaxStopBitBytes; lia).
    do 2 f_equal. unfold groups_value in *. cbn. rewrite Hval, land_group, Hs.
    by apply wrap_u64_id.
  - intros p Hp. by apply stop_bit_loop_truncated.
Qed.

(** The sign that a group gives to a number that starts with it. *)
Definition top_of (g : Z) : Z := if sign_bit g then -1 else 0.

Lemma i64_complete_top prev v : i64_complete prev v = true → top_of prev = v.
Proof.
  unfold i64_complete, top_of. destruct (sign_bit prev); cbn; rewrite ?andb_false_r, ?orb_false_r, ?andb_true_r.
  - intros H%Z.eqb_eq. lia.
  - intros H%Z.eqb_eq. lia.
Qed.

(** [free] more groups hold [v], whose sign the last one shows. *)
Definition i64_holds (free : nat) (prev v : Z) : Prop :=
  match free with
  | O => i64_complete prev v = true
  | S _ => - 2 ^ (7 * Z.of_nat free - 1) <= v < 2 ^ (7 * Z.of_nat free - 1)
  end.

Lemma i64_holds_next free prev v :
  i64_holds (S free) prev v → i64_holds free (Z.land (wrap_u64 v) 0x7F) (Z.shiftr v 7).
Proof.
  intros Hv. pose proof (shiftr_7 v) as Hs. pose proof (Z.mod_pos_bound v 128 ltac:(lia)) as Hm.
  unfold i64_holds in *. destruct free as [|free].
  - change (2 ^ (7 * Z.of_nat 1 - 1)) with 64 in Hv. unfold i64_complete. rewrite land_group_wrap.
    destruct (group_last (v mod 128)) as (_ & _ & _ & _ & ->); [done|].
    destruct (Z.leb_spec 64 (v mod 128)); [assert (Z.shiftr v 7 = -1) by lia|assert (Z.shiftr v 7 = 0) by lia];
      by repeat match goal with H : Z.shiftr _ _ = _ |- _ => rewrite H end.
  - replace (7 * Z.of_nat (S (S free)) - 1) with ((7 * Z.of_nat (S free) - 1) + 7) in Hv by lia.
    rewrite Z.pow_add_r in Hv by lia. change (2 ^ 7) with 128 in Hv. lia.
Qed.

Lemma i64_groups_value free prev v :
  is_group prev → i64_holds free prev v →
  ∃ t, last (prev :: i64_groups free prev v) = Some t ∧
       groups_value (top_of t) (i64_groups free prev v) = v ∧
       Forall is_group (i64_groups free prev v) ∧ (length (i64_groups free prev v) <= free)%nat.
Proof.
  revert prev v. induction free as [|free IH]; intros prev v Hp Hv; cbn [i64_groups].
  - cbn in Hv. rewrite Hv. exists prev. apply i64_complete_top in Hv. by split_and!.
  - case_if as Hc.
    + exists prev. apply i64_complete_top in Hc. split_and!; try done. cbn. lia.
    + apply i64_holds_next in Hv. destruct (IH _ _ (land_is_group _) Hv) as (t & Ht & Hval & Hall & Hlen).
      exists t. split_and!.
      * exact Ht.
      * unfold groups_value in *. cbn. rewrite Hval, land_group. unfold wrap_u64.
        rewrite <- (shiftr_7 v) at 3. f_equal.
        symmetry. change uint64_mod with (128 * 2 ^ 57). rewrite Z.rem_mul_r by lia.
        rewrite Z.mul_comm, Z.mod_add by lia. by rewrite Z.mod_mod.
      * constructor; [apply land_is_group|done].
      * cbn. lia.
Qed.

Lemma i64_groups_stop free g v : is_group g → i64_groups free (Z.lor g 0x80) v = i64_groups free g v.
Proof.
  intros Hg. destruct (group_last g Hg) as (_ & _ & _ & Hs & _).
  destruct free; cbn; unfold i64_complete; by rewrite Hs.
Qed.

(** The first byte on the wire shows the sign. *)
Lemma first_byte gs g t rest :
  is_group g → last (g :: gs) = Some t →
  ∃ first tl, reverse gs ++ Z.lor g 0x80 :: rest = first :: tl ∧ sign_bit first = sign_bit t.
Proof.
  intros Hg Ht. destruct gs as [|g' gs _] using rev_ind.
  - injection Ht as <-. eexists _, _. split; [done|]. by destruct (group_last g Hg) as (_ & _ & _ & ? & _).
  - rewrite app_comm_cons, last_snoc in Ht. injection Ht as ->. rewrite reverse_snoc. by eexists _, _.
Qed.

Lemma wrap_s64_u64 z : wrap_s64 (wrap_u64 z) = wrap_s64 z.
Proof. unfold wrap_s64, wrap_u64. by rewrite Z.add_mod_idemp_l. Qed.

Lemma transports_stop_i64 v : in_int64 v → transports (encode_i64 v) decode_i64 v 10.
Proof.
  intros Hv. unfold encode_i64. rewrite i64_groups_stop by apply land_is_group.
  set (g := Z.land (wrap_u64 v) 0x7F). set (gs := i64_groups (pred kMaxStopBitBytes) g (Z.shiftr v 7)).
  assert (Hg : is_group g) by apply land_is_group.
  destruct (i64_groups_value (pred kMaxStopBitBytes) g (Z.shiftr v 7) Hg) as (t & Ht & Hval & Hgs & Hlen).
  { pose proof (shiftr_7 v) as Hs. pose proof (Z.mod_pos_bound v 128 ltac:(lia)).
    unfold in_int64, int64_min, int64_max in Hv. cbn. lia. }
  fold gs in Ht, Hval, Hgs, Hlen. clearbody gs.
  assert (Hlt : (length gs < kMaxStopBitBytes)%nat) by (unfold kMaxStopBitBytes in *; lia).
  apply (groups_carry _ _ _ gs g); try done.
  - intros rest. destruct (first_byte gs g t rest Hg Ht) as (first & tl & Heq & Hs).
    unfold decode_i64. rewrite Heq, Hs, <- Heq.
    replace (if sign_bit t then uint64_mod - 1 else 0) with (wrap_u64 (top_of t))
      by (unfold top_of; by destruct (sign_bit t)).
    rewrite stop_bit_loop_groups by done.
    cbn. do 2 f_equal. unfold groups_value in Hval. rewrite Hval, wrap_s64_u64.
    unfold g. rewrite land_group_wrap, shiftr_7. by apply wrap_s64_id.
  - intros [|b p] Hp; [done|]. unfold decode_i64. by rewrite stop_bit_loop_truncated.
Qed.

(** *** Nullable integers *)

Lemma transports_nullable_u64 v :
  from_option (λ v, 0 <= v < uint64_mod - 1) True v →
  transports (encode_nullable_u64 v) decode_nullable_u64 v 10.
Proof.
  set (value w := if w =? 0 then None else Some (w - 1)).
  change decode_nullable_u64 with (decode_u64 ≫= λ w, mret (value w)).
  intros Hv. destruct v as [v|].
  - cbn in Hv. change (encode_nullable_u64 (Some v)) with (encode_u64 (wrap_u64 (v + 1))).
    rewrite wrap_u64_id by (unfold in_uint64; lia).
    replace (Some v) with (value (v + 1)).
    + apply transports_map, transports_stop_u64. unfold in_uint64. lia.
    + unfold value. case_ifs; [lia|]. f_equal. lia.
  - eapply (transports_ext (encode_u64 0) (write [kNullByte])); [reflexivity|reflexivity|].
    apply (transports_map _ _ value 0), transports_stop_u64. done.
Qed.

(** The null byte is the encoding of zero. *)
Lemma null_byte_zero bs : head bs = Some kNullByte → decode_i64 bs = Some (0, tail bs).
Proof. destruct bs as [|b bs]; [done|]. by intros [= ->]. Qed.

Lemma transports_not_null {B} e w (f : Z → B) (null : B) m :
  w ≠ 0 → transports e decode_i64 w m →
  transports e (λ bs, if bool_decide (head bs = Some kNullByte) then Some (null, tail bs)
                      else (wire_val ← decode_i64; mret (f wire_val)) bs) (f w) m.
Proof.
  intros Hw [bs [Hl Hb He Hd Ht]]. exists bs. split; try done.
  - intros rest. rewrite bool_decide_eq_false_2.
    + unfold mbind, decoder_bind. by rewrite Hd.
    + intros H%null_byte_zero. congruence.
  - intros p q Heq Hq. rewrite bool_decide_eq_false_2.
    + unfold mbind, decoder_bind. by rewrite (Ht p q).
    + intros H%null_byte_zero. by rewrite (Ht p q) in H.
Qed.

Lemma transports_nullable_i64 v :
  from_option (λ v, int64_min <= v < int64_max) True v →
  transports (encode_nullable_i64 v) decode_nullable_i64 v 10.
Proof.
  set (value w := Some (if w >=? 0 then w - 1 else w)).
  intros Hv. destruct v as [v|].
  - cbn in Hv. destruct (Z.leb_spec 0 v) as [H|H].
    + assert (Hn : value (v + 1) = Some v).
      { unfold value. rewrite (proj2 (Z.geb_le (v + 1) 0)) by lia. f_equal. lia. }
      rewrite <- Hn. eapply transports_ext; [|reflexivity|apply (transports_not_null (encode_i64 (v + 1)))].
      * intros n. unfold encode_nullable_i64. rewrite Hn, (proj2 (Z.geb_le v 0)), Z.gtb_ltb by lia.
        by rewrite (proj2 (Z.ltb_ge int64_max (v + 1))) by lia.
      * lia.
      * apply transports_stop_i64. unfold in_int64, int64_min in *. lia.
    + assert (E : v >=? 0 = false) by (rewrite Z.geb_leb; by apply Z.leb_gt).
      assert (Hn : value v = Some v) by (unfold value; by rewrite E).
      rewrite <- Hn. eapply transports_ext; [|reflexivity|apply (transports_not_null (encode_i64 v))].
      * intros n. unfold encode_nullable_i64. by rewrite Hn, E.
      * lia.
      * apply transports_stop_i64. unfold in_int64. lia.
  - exists [kNullByte]. split; try done.
    + by repeat constructor.
    + intros p q Heq Hq. destruct p as [|b p]; [done|]. by destruct p, q.
Qed.

(** ** Messages *)

Definition valid_level (lv : FastSnapshotLevel) : Prop :=
  in_int64 lv.(fl_price) ∧ in_int64 lv.(fl_quantity) ∧ in_uint32 lv.(fl_order_count).

(** [num] levels in the array, the other entries untouched. *)
Definition valid_side (num : Z) (levels : list FastSnapshotLevel) : Prop :=
  ∃ used, levels = fill_levels used ∧ num = Z.of_nat (length used) ∧
          (length used <= kSnapshotBookDepth)%nat ∧ Forall valid_level used.

(** The fields are values of their C++ types. *)
Definition valid_message (m : FastMessage) : Prop :=
  match m with
  | on_quote q => in_int64 q.(fq_bid_price) ∧ in_int64 q.(fq_bid_qty) ∧ in_int64 q.(fq_ask_price) ∧
                  in_int64 q.(fq_ask_qty) ∧ in_int64 q.(fq_timestamp)
  | on_trade t => in_int64 t.(ft_price) ∧ in_int64 t.(ft_quantity) ∧
                  in_uint8 t.(ft_aggressor_side) ∧ in_int64 t.(ft_timestamp)
  | on_status s => in_uint8 s.(fs_session_state) ∧ in_int64 s.(fs_timestamp)
  | on_snapshot s => in_int64 s.(fn_bid_price) ∧ in_int64 s.(fn_bid_qty) ∧
                     in_int64 s.(fn_ask_price) ∧ in_int64 s.(fn_ask_qty) ∧
                     in_uint32 s.(fn_bid_count) ∧ in_uint32 s.(fn_ask_count) ∧ in_int64 s.(fn_timestamp)
  | on_instrument_def d =>
      in_uint32 d.(fi_instrument_id) ∧ Forall is_byte d.(fi_symbol) ∧ length d.(fi_symbol) = 8%nat ∧
      Forall is_byte d.(fi_description) ∧ length d.(fi_description) = 32%nat ∧
      in_uint8 d.(fi_product_group) ∧ in_int64 d.(fi_tick_size) ∧ in_int64 d.(fi_lot_size) ∧
      in_int64 d.(fi_max_order_size) ∧ in_uint32 d.(fi_total_instruments) ∧ in_int64 d.(fi_timestamp)
  | on_full_snapshot s =>
      in_uint32 s.(fu_instrument_id) ∧ in_uint32 s.(fu_seq_num) ∧
      valid_side s.(fu_num_bid_levels) s.(fu_bids) ∧ valid_side s.(fu_num_ask_levels) s.(fu_asks) ∧
      in_int64 s.(fu_timestamp)
  end.

Definition encode_message (m : FastMessage) : encoder :=
  match m with
  | on_quote q => encode_quote q
  | on_trade t => encode_trade t
  | on_status s => encode_status s
  | on_snapshot s => encode_snapshot s
  | on_instrument_def d => encode_instrument_def d
  | on_full_snapshot s => encode_full_snapshot s
  end.

Create HintDb fast.
#[local] Hint Resolve transports_stop_i64 transports_stop_u64 in_uint8_64 in_uint32_64 : fast.
Ltac fast_fields :=
  repeat (eapply transports_bind; [solve [auto with fast]|cbv beta]);
  try (apply transports_done; rewrite ?wrap_u8_id, ?wrap_u32_id by done).

Lemma transports_header t e m max :
  transports e (decode_fields (template_number t)) m max →
  transports (encode_header t ;+ e) decode_message m (1 + (10 + max)).
Proof.
  intros He. eapply transports_ext; [intros n; apply then_write_assoc|reflexivity|].
  eapply (transports_bind _ _ decode_pmap _ (mkPresence [0x40; 0] 1 0)).
  - exists [0xC0]. split; try done.
    + by repeat constructor.
    + intros p q Heq Hq. destruct p as [|b p]; [done|]. by destruct p, q.
  - eapply transports_bind; [|exact He]. apply transports_stop_u64. destruct t; done.
Qed.

(** A message whose fields have gone through. *)
Lemma transports_template {A} t e (d : decoder A) (visit : A → FastMessage) a max :
  decode_fields (template_number t) = (d ≫= λ msg, mret (visit msg)) →
  transports e d a max → 1 + (10 + max) <= 512 →
  transports (encode_header t ;+ e) decode_message (visit a) 512.
Proof.
  intros Hd He Hmax. eapply transports_weaken, Hmax.
  apply transports_header. rewrite Hd. by apply transports_map.
Qed.

Lemma transports_levels used : Forall valid_level used →
  ∀ levels, transports (encode_levels (length used) (used ++ levels)) (decode_levels (length used)) used
              (30 * Z.of_nat (length used)).
Proof.
  induction 1 as [|lv used (? & ? & ?) _ IH]; intros levels; cbn [length encode_levels decode_levels app].
  - apply transports_ret.
  - assert (Hlv : mkFastLevel lv.(fl_price) lv.(fl_quantity) (wrap_u32 lv.(fl_order_count)) = lv)
      by (rewrite wrap_u32_id by done; by destruct lv).
    rewrite <- Hlv at 4. eapply transports_weaken.
    + fast_fields. apply (transports_map _ _ (cons _)), IH.
    + lia.
Qed.

Lemma transports_field bs n : Forall is_byte bs → length bs = n →
  transports (encode_bytes bs) (decode_bytes n) bs (Z.of_nat n).
Proof. intros Hbs <-. by apply transports_bytes. Qed.
#[local] Hint Resolve transports_field : fast.

(** The number of levels, as the decoder reads it back. *)
Lemma valid_side_count num levels : valid_side num levels →
  ∃ used, levels = fill_levels used ∧ Forall valid_level used ∧ in_uint8 num ∧
    (length used <= kSnapshotBookDepth)%nat ∧ Z.to_nat num = length used ∧
    Nat.min (Z.to_nat (wrap_u8 num)) kSnapshotBookDepth = length used.
Proof.
  intros (used & -> & -> & Hlen & Hall). unfold kSnapshotBookDepth in *. exists used.
  assert (in_uint8 (Z.of_nat (length used))) by (unfold in_uint8; lia).
  rewrite wrap_u8_id by done. split_and!; (done || lia).
Qed.

Lemma full_snapshot_transports s : valid_message (on_full_snapshot s) →
  transports
    (encode_u64 s.(fu_instrument_id) ;+ encode_u64 s.(fu_seq_num) ;+
     encode_u64 s.(fu_num_bid_levels) ;+ encode_u64 s.(fu_num_ask_levels) ;+
     encode_levels (Z.to_nat s.(fu_num_bid_levels)) s.(fu_bids) ;+
     encode_levels (Z.to_nat s.(fu_num_ask_levels)) s.(fu_asks) ;+
     encode_i64 s.(fu_timestamp) ;+ write_nothing) decode_full_snapshot_fields s 350.
Proof.
  intros (? & ? & Hb & Ha & ?).
  destruct (valid_side_count _ _ Hb) as (bids & Hbids & Hvb & Hnb & Hlb & Heb & Hdb).
  destruct (valid_side_count _ _ Ha) as (asks & Hasks & Hva & Hna & Hla & Hea & Hda).
  unfold kSnapshotBookDepth in *. eapply transports_weaken.
  - unfold decode_full_snapshot_fields. fast_fields.
    unfold kSnapshotBookDepth. rewrite Hdb, Hda, Heb, Hea, Hbids, Hasks.
    eapply transports_bind; [by apply transports_levels|cbv beta].
    eapply transports_bind; [by apply transports_levels|cbv beta].
    fast_fields. rewrite <- Hbids, <- Hasks. by destruct s.
  - lia.
Qed.

(** Every message that fits its C++ types survives: its bytes fit in a
    packet of 512, the encoder only fails for want of room, and the decoder
    finds the message and the end of it whatever follows, and finds nothing in
    a truncated one. *)
Theorem fast_message_transports m : valid_message m →
  transports (encode_message m) decode_message m kMaxFastEncodedSize.
Proof.
  destruct m as [q|t|s|s|d|s]; intros Hm; cbn in Hm; destruct_and!; unfold encode_message.
  - apply (transports_template TQuote _ decode_quote_fields on_quote _ 50); [done| |lia].
    eapply transports_weaken; [unfold decode_quote_fields; fast_fields; by destruct q|lia].
  - apply (transports_template TTrade _ decode_trade_fields on_trade _ 40); [done| |lia].
    eapply transports_weaken; [unfold decode_trade_fields; fast_fields; by destruct t|lia].
  - apply (transports_template TStatus _ decode_status_fields on_status _ 20); [done| |lia].
    eapply transports_weaken; [unfold decode_status_fields; fast_fields; by destruct s|lia].
  - apply (transports_template TSnapshot _ decode_snapshot_fields on_snapshot _ 70); [done| |lia].
    eapply transports_weaken; [unfold decode_snapshot_fields; fast_fields; by destruct s|lia].
  - apply (transports_template TInstrumentDef _ decode_instrument_def_fields on_instrument_def _ 120);
      [done| |lia].
    eapply transports_weaken; [unfold decode_instrument_def_fields; fast_fields; by destruct d|lia].
  - apply (transports_template TFullSnapshot _ decode_full_snapshot_fields on_full_snapshot _ 350);
      [done| |lia].
    by apply full_snapshot_transports.
Qed.

(** ** The decoder's loop *)

Lemma stop_bit_loop_consumes n v bs x rest :
  stop_bit_loop n v bs = Some (x, rest) → (length rest < length bs)%nat.
Proof.
  revert v bs. induction n as [|n IH]; intros v [|b bs]; cbn; try done.
  case_match; [intros [= _ <-]; lia|]. intros Hr%IH. lia.
Qed.

Lemma pmap_loop_consumes n pm bs x rest :
  pmap_loop n pm bs = Some (x, rest) → (length rest < length bs)%nat.
Proof.
  revert pm bs. induction n as [|n IH]; intros pm [|b bs]; cbn; try done.
  case_match; [intros [= _ <-]; lia|]. intros Hr%IH. lia.
Qed.

(** A decoder leaves at most what it was given. *)
Definition shrinks {A} (d : decoder A) : Prop :=
  ∀ bs x rest, d bs = Some (x, rest) → (length rest <= length bs)%nat.

Lemma shrinks_ret {A} (a : A) : shrinks (mret a).
Proof. by intros bs x rest [= _ <-]. Qed.

Lemma shrinks_bind {A B} (d : decoder A) (k : A → decoder B) :
  shrinks d → (∀ a, shrinks (k a)) → shrinks (d ≫= k).
Proof.
  intros Hd Hk bs x rest. unfold mbind, decoder_bind. destruct (d bs) as [[a bs']|] eqn:E; [|done].
  intros H. apply Hd in E. apply Hk in H. lia.
Qed.

Lemma shrinks_failure {A} : shrinks (read_failure (A := A)).
Proof. done. Qed.

Lemma shrinks_u64 : shrinks decode_u64.
Proof. intros bs x rest H%stop_bit_loop_consumes. lia. Qed.

Lemma shrinks_i64 : shrinks decode_i64.
Proof.
  intros [|b bs] x rest; [done|]. unfold decode_i64.
  destruct (stop_bit_loop _ _ _) as [[v r]|] eqn:E; cbn; [|done]. intros [= _ <-].
  apply stop_bit_loop_consumes in E. cbn in E |- *; lia.
Qed.

Lemma shrinks_bytes n : shrinks (decode_bytes n).
Proof.
  intros bs x rest. unfold decode_bytes, read_bytes. case_match; [done|]. intros [= _ <-].
  rewrite length_drop. lia.
Qed.

Create HintDb shrinks.
#[local] Hint Resolve shrinks_ret shrinks_failure shrinks_u64 shrinks_i64 shrinks_bytes : shrinks.
Ltac shrink := repeat (apply shrinks_bind; [|intros ?]); auto with shrinks.

Lemma shrinks_levels n : shrinks (decode_levels n).
Proof. induction n; cbn; shrink. Qed.
#[local] Hint Resolve shrinks_levels : shrinks.

Lemma shrinks_fields tid : shrinks (decode_fields tid).
Proof.
  unfold decode_fields, decode_quote_fields, decode_trade_fields, decode_status_fields,
    decode_snapshot_fields, decode_instrument_def_fields, decode_full_snapshot_fields.
  case_ifs; shrink.
Qed.

Lemma decode_message_consumes bs m rest :
  decode_message bs = Some (m, rest) → (length rest < length bs)%nat.
Proof.
  unfold decode_message, mbind at 1, decoder_bind at 1.
  destruct (decode_pmap bs) as [[pm r]|] eqn:E; [|done]. apply pmap_loop_consumes in E.
  assert (Hs : shrinks (raw_tid ← decode_u64; decode_fields raw_tid))
    by (shrink; apply shrinks_fields).
  intros H. apply Hs in H. lia.
Qed.

(** The loop ends at the end of the buffer or at bytes that do not decode, and
    no amount of fuel changes this. *)
Lemma decode_messages_loop_ends fuel bs :
  (length bs <= fuel)%nat →
  let '(msgs, after) := decode_messages_loop fuel bs in
  (after = [] ∨ decode_message after = None) ∧
  ∀ fuel', (length bs <= fuel')%nat → decode_messages_loop fuel' bs = (msgs, after).
Proof.
  revert bs. induction fuel as [|fuel IH]; intros bs Hlen.
  - destruct bs; [|cbn in Hlen; lia]. split; [by left|]. by intros [].
  - destruct bs as [|b bs]; [split; [by left|]; by intros []|].
    cbn [decode_messages_loop]. destruct (decode_message (b :: bs)) as [[m rest]|] eqn:E.
    + apply decode_message_consumes in E as Hc. specialize (IH rest ltac:(cbn in *; lia)).
      destruct (decode_messages_loop fuel rest) as [msgs after]. destruct IH as [Hend Hfuel].
      split; [done|]. intros [|fuel'] Hf; [cbn in Hf; lia|]. cbn [decode_messages_loop].
      rewrite E, Hfuel by (cbn in *; lia). done.
    + split; [by right|]. intros [|fuel'] Hf; [cbn in Hf; lia|]. cbn [decode_messages_loop]. by rewrite E.
Qed.

(** Messages that arrive one after the other. *)
Lemma decode_messages_concat (ms : list (FastMessage * list Z)) :
  Forall (λ '(m, bs), carries (encode_message m) decode_message m kMaxFastEncodedSize bs) ms →
  decode_messages (concat ms.*2) = (ms.*1, length (concat ms.*2)).
Proof.
  intros Hms. unfold decode_messages.
  assert (Hloop : ∀ fuel, (length (concat ms.*2) <= fuel)%nat →
            decode_messages_loop fuel (concat ms.*2) = (ms.*1, [])).
  { induction Hms as [|[m bs] ms [_ _ _ Hr _] _ IH]; intros fuel Hf; [by destruct fuel|].
    change (concat ((m, bs) :: ms).*2) with (bs ++ concat ms.*2) in *.
    change (((m, bs) :: ms).*1) with (m :: ms.*1). specialize (Hr (concat ms.*2)).
    apply decode_message_consumes in Hr as Hc. revert Hr Hc Hf IH.
    generalize (concat ms.*2). intros rest Hr Hc Hf IH.
    destruct (bs ++ rest) as [|b bs']; [cbn in Hc; lia|]. destruct fuel as [|fuel]; [cbn in Hf; lia|].
    cbn [decode_messages_loop]. by rewrite Hr, IH by (cbn in *; lia). }
  rewrite Hloop by done. cbn. by rewrite Nat.sub_0_r.
Qed.

(** ** The feed *)

(** The message an event of the engine is published as. *)
Definition fast_message_of (e : event) : option FastMessage :=
  match e with
  | TopOfBook best_bid bid_qty best_ask ask_qty ts =>
      Some (on_quote (mkFastQuote best_bid bid_qty best_ask ask_qty ts))
  | Trade price quantity _ _ sd ts => Some (on_trade (mkFastTrade price quantity (side_u8 sd) ts))
  | MarketStatus st ts => Some (on_status (mkFastStatus (session_u8 st) ts))
  | _ => None
  end.

Definition publishable (e : event) : Prop := from_option valid_message True (fast_message_of e).

Lemma fast_listener_message packets e :
  fast_listener packets e =
    match fast_message_of e with Some m => publish (encode_message m) packets | None => Some packets end.
Proof. by destruct e. Qed.

Lemma publish_carried m packets : valid_message m →
  ∃ bs p, carries (encode_message m) decode_message m kMaxFastEncodedSize bs ∧
          packet_bytes p = bs ∧ publish (encode_message m) packets = Some (packets ++ [p]).
Proof.
  intros Hm. destruct (fast_message_transports m Hm) as [bs Hc].
  assert (Hne : bs ≠ []).
  { intros ->. pose proof (ca_read _ _ _ _ _ Hc []) as Hr. by apply decode_message_consumes in Hr; cbn in Hr; lia. }
  exists bs, (mkFastPacket (bs ++ replicate (Z.to_nat (kMaxFastEncodedSize - Z.of_nat (length bs))) 0)
                (Z.of_nat (length bs))).
  split; [done|]. split.
  - unfold packet_bytes. cbn. by rewrite Nat2Z.id, take_app_length.
  - unfold publish. rewrite (ca_write _ _ _ _ _ Hc). unfold write.
    pose proof (ca_length _ _ _ _ _ Hc). destruct (Z.gtb_spec (Z.of_nat (length bs)) kMaxFastEncodedSize); [lia|].
    destruct bs; [done|]. done.
Qed.

Lemma fast_listen_carried events : Forall publishable events → ∀ packets,
  ∃ ms ps, fast_listen packets events = Some (packets ++ ps) ∧
    ms.*1 = omap fast_message_of events ∧ packet_bytes <$> ps = ms.*2 ∧
    Forall (λ '(m, bs), carries (encode_message m) decode_message m kMaxFastEncodedSize bs) ms.
Proof.
  induction 1 as [|e events He _ IH]; intros packets.
  - exists [], []. by rewrite app_nil_r.
  - cbn [fast_listen omap list_omap]. rewrite fast_listener_message. unfold publishable in He.
    destruct (fast_message_of e) as [m|].
    + destruct (publish_carried m packets He) as (bs & p & Hc & Hp & ->).
      destruct (IH (packets ++ [p])) as (ms & ps & Hl & Hm & Hb & Hall).
      exists ((m, bs) :: ms), (p :: ps). cbn. rewrite Hl, <- app_assoc. split_and!; try done.
      * by rewrite <- Hm.
      * by rewrite Hp, <- Hb.
      * by constructor.
    + cbn. apply IH.
Qed.

(** C32: Whatever the engine reports, the feed delivers: for every sequence of
    events whose fields are 64-bit, the publisher makes one packet per top of
    book, trade or status and drops none, and a receiver that decodes the bytes
    of the packets back to back sees exactly these messages, in order, and
    consumes every byte. *)
Theorem fast_feed_delivers events : Forall publishable events →
  ∃ packets, fast_listen [] events = Some packets ∧
    length packets = length (omap fast_message_of events) ∧
    decode_messages (concat (packet_bytes <$> packets)) =
      (omap fast_message_of events, length (concat (packet_bytes <$> packets))).
Proof.
  intros Hev. destruct (fast_listen_carried events Hev []) as (ms & ps & Hl & Hm & Hb & Hall).
  exists ps. split; [done|]. split.
  - by rewrite <- Hm, <- (length_fmap packet_bytes ps), Hb, !length_fmap.
  - rewrite Hb, <- Hm. by apply decode_messages_concat.
Qed.

(** ** Presence maps *)

(** Two bytes of seven bits survive, with the number of bytes sent. *)
Lemma pmap_transports pm b0 b1 : pm.(pm_bytes) = [b0; b1] → is_group b0 → is_group b1 →
  transports (encode_pmap pm) decode_pmap
    (mkPresence [b0; b1] (pmap_length 0 [b0; b1] 1) 0) 2.
Proof.
  intros Hb H0 H1. unfold encode_pmap. rewrite Hb. clear Hb. cbn [pmap_length].
  destruct (group_last b0 H0) as (? & Hs0 & Hl0 & _). destruct (group_last b1 H1) as (? & Hs1 & Hl1 & _).
  destruct (group_plain b0 H0) as [Hp0 Hg0].
  destruct (Z.eqb_spec b1 0) as [->|Hne].
  - destruct (b0 =? 0); cbn; exists [Z.lor b0 0x80]; (split; [cbn; lia|by apply Forall_singleton|done|intros rest|intros p q Heq Hq]).
    1, 3: unfold decode_pmap, kMaxPmapBytes; cbn; by rewrite Hs0, Hl0.
    all: destruct p as [|b p]; [done|]; by destruct p, q.
  - cbn. rewrite Hg0. exists [b0; Z.lor b1 0x80]. split; [cbn; lia| |done|intros rest|intros p q Heq Hq].
    + apply Forall_cons. split; [unfold is_group, is_byte in *; lia|by apply Forall_singleton].
    + unfold decode_pmap, kMaxPmapBytes. cbn. by rewrite Hp0, Hs1, Hl1, Hg0.
    + destruct p as [|b [|b' p]]; [done| |by destruct p, q].
      cbn in Heq. injection Heq as <- _. unfold decode_pmap, kMaxPmapBytes. cbn. by rewrite Hp0.
Qed.

(** ** Concrete messages *)

Definition demo_snapshot : FastFullSnapshot :=
  mkFastFullSnapshot 7 41 2 1
    (fill_levels [mkFastLevel 3300500 70000 3; mkFastLevel 3300000 10000 1])
    (fill_levels [mkFastLevel 3301000 (-20000) 2]) 1700000000000000000.

Lemma fast_message_transports_witness :
  transports (encode_message (on_full_snapshot demo_snapshot)) decode_message
    (on_full_snapshot demo_snapshot) kMaxFastEncodedSize.
Proof.
  apply fast_message_transports. refine (conj _ (conj _ (conj _ (conj _ _)))).
  - by vm_compute.
  - by vm_compute.
  - exists [mkFastLevel 3300500 70000 3; mkFastLevel 3300000 10000 1].
    refine (conj eq_refl (conj eq_refl (conj _ _))); [apply Nat.leb_le; by vm_compute|].
    apply Forall_cons; split; [by vm_compute|]. apply Forall_cons; split; [by vm_compute|done].
  - exists [mkFastLevel 3301000 (-20000) 2].
    refine (conj eq_refl (conj eq_refl (conj _ _))); [apply Nat.leb_le; by vm_compute|].
    apply Forall_cons; split; [by vm_compute|done].
  - by vm_compute.
Defined.

Definition demo_events : list event :=
  [MarketStatus Continuous 10; OrderAccepted 1 1 11; TopOfBook (-50) 10000 0 0 12;
   Trade int64_min int64_max 1 2 Sell 13].

Lemma fast_feed_delivers_witness :
  ∃ packets, fast_listen [] demo_events = Some packets ∧
    length packets = length (omap fast_message_of demo_events) ∧
    decode_messages (concat (packet_bytes <$> packets)) =
      (omap fast_message_of demo_events, length (concat (packet_bytes <$> packets))).
Proof. apply fast_feed_delivers. do 4 (apply Forall_cons; split; [by vm_compute|]). done. Defined.

(** The value that nullable integers cannot carry: the increment wraps to the
    null byte, or overflows. *)
Lemma nullable_u64_max : encode_nullable_u64 (Some (uint64_mod - 1)) 10 = encode_nullable_u64 None 10.
Proof. reflexivity. Qed.
Lemma nullable_i64_max : encode_nullable_i64 (Some int64_max) 10 = Undefined.
Proof. reflexivity. Qed.
