(* ===== verification/Impact.v ===== *)
(** * The iMpact feed of ICE: [impact_messages.h], [impact_encoder.h],
      [impact_decoder.h] and [impact_publisher.h]

    The packed message structs, the framing by a header of type and length, the
    bundles in which the encoder wraps every event, the stream decoder and the
    publisher between the engine and the feed. *)

From S2P Require Import Prelude Types Wire.

(** ** Message structs *)

Record BundleStart : Type := mkBundleStart {
  bs_sequence_number : Z; bs_message_count : Z; bs_timestamp : Z
}.

Record BundleEnd : Type := mkBundleEnd { be_sequence_number : Z }.

Record AddModifyOrder : Type := mkAddModifyOrder {
  am_instrument_id : Z; am_order_id : Z; am_sequence_within_msg : Z; am_side : Z;
  am_price : Z; am_quantity : Z; am_is_implied : Z; am_is_rfq : Z; am_order_entry_date_time : Z
}.

Record OrderWithdrawal : Type := mkOrderWithdrawal {
  ow_instrument_id : Z; ow_order_id : Z; ow_sequence_within_msg : Z; ow_side : Z;
  ow_price : Z; ow_quantity : Z
}.

Record DealTrade : Type := mkDealTrade {
  dt_instrument_id : Z; dt_deal_id : Z; dt_price : Z; dt_quantity : Z;
  dt_aggressor_side : Z; dt_timestamp : Z
}.

Record MarketStatus : Type := mkMarketStatus { ms_instrument_id : Z; ms_trading_status : Z }.

Record SnapshotOrder : Type := mkSnapshotOrder {
  so_instrument_id : Z; so_order_id : Z; so_side : Z; so_price : Z; so_quantity : Z; so_sequence : Z
}.

Record PriceLevel : Type := mkPriceLevel {
  pl_instrument_id : Z; pl_side : Z; pl_price : Z; pl_quantity : Z; pl_order_count : Z
}.

Record InstrumentDefinition : Type := mkInstrumentDefinition {
  id_instrument_id : Z; id_symbol : list Z; id_description : list Z; id_product_group : list Z;
  id_tick_size : Z; id_lot_size : Z; id_max_order_size : Z; id_match_algo : Z; id_currency : list Z
}.

(** The type codes: ASCII letters. *)
Inductive MessageType : Type :=
  | TAddModifyOrder
  | TOrderWithdrawal
  | TDealTrade
  | TMarketStatus
  | TBundleStart
  | TBundleEnd
  | TSnapshotOrder
  | TPriceLevel
  | TInstrumentDefinition.

Definition type_code (t : MessageType) : Z :=
  match t with
  | TAddModifyOrder => 69
  | TOrderWithdrawal => 70
  | TDealTrade => 84
  | TMarketStatus => 77
  | TBundleStart => 83
  | TBundleEnd => 101
  | TSnapshotOrder => 68
  | TPriceLevel => 76
  | TInstrumentDefinition => 73
  end.

(** *** Layouts *)

#[global] Instance BundleStart_struct : WireStruct BundleStart := {
  ws_put m := le_bytes 4 m.(bs_sequence_number) ++ le_bytes 2 m.(bs_message_count) ++
              le_bytes 8 m.(bs_timestamp) ++ [];
  ws_get := seq ← read_uint 4; count ← read_uint 2; ts ← read_int 8; mret (mkBundleStart seq count ts);
  ws_size := 14;
  ws_fits m := in_uint32 m.(bs_sequence_number) ∧ in_uint16 m.(bs_message_count) ∧ in_int64 m.(bs_timestamp)
}.

#[global] Instance BundleEnd_struct : WireStruct BundleEnd := {
  ws_put m := le_bytes 4 m.(be_sequence_number) ++ [];
  ws_get := seq ← read_uint 4; mret (mkBundleEnd seq);
  ws_size := 4;
  ws_fits m := in_uint32 m.(be_sequence_number)
}.

#[global] Instance AddModifyOrder_struct : WireStruct AddModifyOrder := {
  ws_put m := le_bytes 4 m.(am_instrument_id) ++ le_bytes 8 m.(am_order_id) ++
              le_bytes 4 m.(am_sequence_within_msg) ++ le_bytes 1 m.(am_side) ++
              le_bytes 8 m.(am_price) ++ le_bytes 4 m.(am_quantity) ++ le_bytes 1 m.(am_is_implied) ++
              le_bytes 1 m.(am_is_rfq) ++ le_bytes 8 m.(am_order_entry_date_time) ++ [];
  ws_get := iid ← read_int 4; oid ← read_int 8; seq ← read_uint 4; side ← read_uint 1;
            price ← read_int 8; qty ← read_uint 4; implied ← read_uint 1; rfq ← read_uint 1;
            entry ← read_int 8;
            mret (mkAddModifyOrder iid oid seq side price qty implied rfq entry);
  ws_size := 39;
  ws_fits m := in_int32 m.(am_instrument_id) ∧ in_int64 m.(am_order_id) ∧
               in_uint32 m.(am_sequence_within_msg) ∧ in_uint8 m.(am_side) ∧ in_int64 m.(am_price) ∧
               in_uint32 m.(am_quantity) ∧ in_uint8 m.(am_is_implied) ∧ in_uint8 m.(am_is_rfq) ∧
               in_int64 m.(am_order_entry_date_time)
}.

#[global] Instance OrderWithdrawal_struct : WireStruct OrderWithdrawal := {
  ws_put m := le_bytes 4 m.(ow_instrument_id) ++ le_bytes 8 m.(ow_order_id) ++
              le_bytes 4 m.(ow_sequence_within_msg) ++ le_bytes 1 m.(ow_side) ++
              le_bytes 8 m.(ow_price) ++ le_bytes 4 m.(ow_quantity) ++ [];
  ws_get := iid ← read_int 4; oid ← read_int 8; seq ← read_uint 4; side ← read_uint 1;
            price ← read_int 8; qty ← read_uint 4;
            mret (mkOrderWithdrawal iid oid seq side price qty);
  ws_size := 29;
  ws_fits m := in_int32 m.(ow_instrument_id) ∧ in_int64 m.(ow_order_id) ∧
               in_uint32 m.(ow_sequence_within_msg) ∧ in_uint8 m.(ow_side) ∧ in_int64 m.(ow_price) ∧
               in_uint32 m.(ow_quantity)
}.

#[global] Instance DealTrade_struct : WireStruct DealTrade := {
  ws_put m := le_bytes 4 m.(dt_instrument_id) ++ le_bytes 8 m.(dt_deal_id) ++ le_bytes 8 m.(dt_price) ++
              le_bytes 4 m.(dt_quantity) ++ le_bytes 1 m.(dt_aggressor_side) ++
              le_bytes 8 m.(dt_timestamp) ++ [];
  ws_get := iid ← read_int 4; did ← read_int 8; price ← read_int 8; qty ← read_uint 4;
            side ← read_uint 1; ts ← read_int 8;
            mret (mkDealTrade iid did price qty side ts);
  ws_size := 33;
  ws_fits m := in_int32 m.(dt_instrument_id) ∧ in_int64 m.(dt_deal_id) ∧ in_int64 m.(dt_price) ∧
               in_uint32 m.(dt_quantity) ∧ in_uint8 m.(dt_aggressor_side) ∧ in_int64 m.(dt_timestamp)
}.

#[global] Instance MarketStatus_struct : WireStruct MarketStatus := {
  ws_put m := le_bytes 4 m.(ms_instrument_id) ++ le_bytes 1 m.(ms_trading_status) ++ [];
  ws_get := iid ← read_int 4; st ← read_uint 1; mret (mkMarketStatus iid st);
  ws_size := 5;
  ws_fits m := in_int32 m.(ms_instrument_id) ∧ in_uint8 m.(ms_trading_status)
}.

#[global] Instance SnapshotOrder_struct : WireStruct SnapshotOrder := {
  ws_put m := le_bytes 4 m.(so_instrument_id) ++ le_bytes 8 m.(so_order_id) ++ le_bytes 1 m.(so_side) ++
              le_bytes 8 m.(so_price) ++ le_bytes 4 m.(so_quantity) ++ le_bytes 4 m.(so_sequence) ++ [];
  ws_get := iid ← read_int 4; oid ← read_int 8; side ← read_uint 1; price ← read_int 8;
            qty ← read_uint 4; seq ← read_uint 4;
            mret (mkSnapshotOrder iid oid side price qty seq);
  ws_size := 29;
  ws_fits m := in_int32 m.(so_instrument_id) ∧ in_int64 m.(so_order_id) ∧ in_uint8 m.(so_side) ∧
               in_int64 m.(so_price) ∧ in_uint32 m.(so_quantity) ∧ in_uint32 m.(so_sequence)
}.

#[global] Instance PriceLevel_struct : WireStruct PriceLevel := {
  ws_put m := le_bytes 4 m.(pl_instrument_id) ++ le_bytes 1 m.(pl_side) ++ le_bytes 8 m.(pl_price) ++
              le_bytes 4 m.(pl_quantity) ++ le_bytes 2 m.(pl_order_count) ++ [];
  ws_get := iid ← read_int 4; side ← read_uint 1; price ← read_int 8; qty ← read_uint 4;
            count ← read_uint 2;
            mret (mkPriceLevel iid side price qty count);
  ws_size := 19;
  ws_fits m := in_int32 m.(pl_instrument_id) ∧ in_uint8 m.(pl_side) ∧ in_int64 m.(pl_price) ∧
               in_uint32 m.(pl_quantity) ∧ in_uint16 m.(pl_order_count)
}.

#[global] Instance InstrumentDefinition_struct : WireStruct InstrumentDefinition := {
  ws_put m := le_bytes 4 m.(id_instrument_id) ++ m.(id_symbol) ++ m.(id_description) ++
              m.(id_product_group) ++ le_bytes 8 m.(id_tick_size) ++ le_bytes 8 m.(id_lot_size) ++
              le_bytes 8 m.(id_max_order_size) ++ le_bytes 1 m.(id_match_algo) ++ m.(id_currency) ++ [];
  ws_get := iid ← read_int 4; symbol ← read_bytes 8; description ← read_bytes 32;
            group ← read_bytes 16; tick ← read_int 8; lot ← read_int 8; max ← read_int 8;
            algo ← read_uint 1; currency ← read_bytes 4;
            mret (mkInstrumentDefinition iid symbol description group tick lot max algo currency);
  ws_size := 89;
  ws_fits m := in_int32 m.(id_instrument_id) ∧ is_chars 8 m.(id_symbol) ∧ is_chars 32 m.(id_description) ∧
               is_chars 16 m.(id_product_group) ∧ in_int64 m.(id_tick_size) ∧ in_int64 m.(id_lot_size) ∧
               in_int64 m.(id_max_order_size) ∧ in_uint8 m.(id_match_algo) ∧ is_chars 4 m.(id_currency)
}.

(** ** Framing *)

(** A message type with its code. *)
Class ImpactMessage (A : Type) `{WireStruct A} := msg_type_of : MessageType.
#[global] Instance BundleStart_message : ImpactMessage BundleStart := TBundleStart.
#[global] Instance BundleEnd_message : ImpactMessage BundleEnd := TBundleEnd.
#[global] Instance AddModifyOrder_message : ImpactMessage AddModifyOrder := TAddModifyOrder.
#[global] Instance OrderWithdrawal_message : ImpactMessage OrderWithdrawal := TOrderWithdrawal.
#[global] Instance DealTrade_message : ImpactMessage DealTrade := TDealTrade.
#[global] Instance MarketStatus_message : ImpactMessage MarketStatus := TMarketStatus.
#[global] Instance SnapshotOrder_message : ImpactMessage SnapshotOrder := TSnapshotOrder.
#[global] Instance PriceLevel_message : ImpactMessage PriceLevel := TPriceLevel.
#[global] Instance InstrumentDefinition_message : ImpactMessage InstrumentDefinition := TInstrumentDefinition.

Record ImpactMessageHeader : Type := mkImpactHeader { msg_type : Z; body_length : Z }.

Definition header_size : nat := 3.
Definition put_header (h : ImpactMessageHeader) : list Z :=
  le_bytes 1 h.(msg_type) ++ le_bytes 2 h.(body_length) ++ [].
Definition get_header : decoder ImpactMessageHeader :=
  t ← read_uint 1; n ← read_uint 2; mret (mkImpactHeader t n).

Section framing.
Context {A : Type} `{ImpactMessage A}.

Definition wire_size : Z := wrap_u16 (Z.of_nat header_size + Z.of_nat (ws_size (A := A))).

Definition encode (msg : A) : encoder := λ buf_len,
  if buf_len <? wire_size then NoRoom
  else Wrote (put_header (mkImpactHeader (type_code msg_type_of) wire_size) ++ ws_put msg).

Definition decode : decoder A := λ buf,
  if Z.of_nat (length buf) <? wire_size then None
  else
    '(hdr, rest) ← get_header buf;
    if negb (hdr.(msg_type) =? type_code msg_type_of) then None
    else if negb (hdr.(body_length) =? wire_size) then None
    else ws_get rest.
End framing.

(** ** Stream decoder *)

(** What the visitor is called with. *)
Inductive ImpactEvent : Type :=
  | on_bundle_start (m : BundleStart)
  | on_bundle_end (m : BundleEnd)
  | on_add_modify_order (m : AddModifyOrder)
  | on_order_withdrawal (m : OrderWithdrawal)
  | on_deal_trade (m : DealTrade)
  | on_market_status (m : MarketStatus)
  | on_snapshot_order (m : SnapshotOrder)
  | on_price_level (m : PriceLevel)
  | on_instrument_def (m : InstrumentDefinition).

(** [try_decode_and_dispatch]: a message that does not decode visits nothing. *)
Definition try_decode {A : Type} `{ImpactMessage A} (callback : A → ImpactEvent) (msg_buf : list Z) :
    list ImpactEvent :=
  match decode (A := A) msg_buf with Some (msg, _) => [callback msg] | None => [] end.

Definition dispatch (t : Z) (msg_buf : list Z) : list ImpactEvent :=
  if t =? type_code TBundleStart then try_decode on_bundle_start msg_buf
  else if t =? type_code TBundleEnd then try_decode on_bundle_end msg_buf
  else if t =? type_code TAddModifyOrder then try_decode on_add_modify_order msg_buf
  else if t =? type_code TOrderWithdrawal then try_decode on_order_withdrawal msg_buf
  else if t =? type_code TDealTrade then try_decode on_deal_trade msg_buf
  else if t =? type_code TMarketStatus then try_decode on_market_status msg_buf
  else if t =? type_code TSnapshotOrder then try_decode on_snapshot_order msg_buf
  else if t =? type_code TPriceLevel then try_decode on_price_level msg_buf
  else if t =? type_code TInstrumentDefinition then try_decode on_instrument_def msg_buf
  else [].

(** The loop, on the bytes from the offset on; every round takes at least a
    header, so as many rounds as bytes are enough.  The result is what was
    visited and the bytes that are left. *)
Fixpoint decode_loop (fuel : nat) (buf : list Z) : list ImpactEvent * list Z :=
  match fuel with
  | O => ([], buf)
  | S fuel' =>
      if (length buf <? header_size)%nat then ([], buf)
      else
        match get_header buf with
        | None => ([], buf)
        | Some (hdr, _) =>
            if hdr.(body_length) <? Z.of_nat header_size then ([], buf)
            else if hdr.(body_length) >? Z.of_nat (length buf) then ([], buf)
            else
              let n := Z.to_nat hdr.(body_length) in
              let visited := dispatch hdr.(msg_type) (take n buf) in
              let '(events, after) := decode_loop fuel' (drop n buf) in
              (visited ++ events, after)
        end
  end.

Definition decode_messages (buf : list Z) : list ImpactEvent * nat :=
  let '(events, after) := decode_loop (length buf) buf in (events, (length buf - length after)%nat).

(** ** Conversions *)

Definition engine_price_to_wire (p : Price) : Z := p.
Definition engine_qty_to_wire (q : Quantity) : Z := wrap_u32 (Z.quot q PRICE_SCALE).
Definition encode_side (s : Side) : Z := match s with Buy => 0 | Sell => 1 end.

Inductive TradingStatus : Type :=
  | TSPreOpen
  | TSContinuous
  | TSHalt
  | TSClosed
  | TSSettlement.
Definition trading_status_code (t : TradingStatus) : Z :=
  match t with TSPreOpen => 0 | TSContinuous => 1 | TSHalt => 2 | TSClosed => 3 | TSSettlement => 4 end.

Definition encode_trading_status (state : SessionState) : Z :=
  trading_status_code
    match state with
    | PreOpen | OpeningAuction => TSPreOpen
    | Continuous => TSContinuous
    | Halt | VolatilityAuction | LockLimit => TSHalt
    | Closed | PreClose | ClosingAuction => TSClosed
    end.

(** ** Encoders *)

Record ImpactEncodeContext : Type := mkContext {
  ctx_instrument_id : Z; ctx_seq_num : Z; ctx_sequence_within_msg : Z; ctx_next_deal_id : Z
}.

Definition initial_context (instrument_id : Z) : ImpactEncodeContext := mkContext instrument_id 0 0 1.

Definition bump_seq (c : ImpactEncodeContext) : ImpactEncodeContext :=
  mkContext c.(ctx_instrument_id) (wrap_u32 (c.(ctx_seq_num) + 1)) c.(ctx_sequence_within_msg)
    c.(ctx_next_deal_id).
Definition bump_within (c : ImpactEncodeContext) : ImpactEncodeContext :=
  mkContext c.(ctx_instrument_id) c.(ctx_seq_num) (wrap_u32 (c.(ctx_sequence_within_msg) + 1))
    c.(ctx_next_deal_id).
Definition bump_deal (c : ImpactEncodeContext) : ImpactEncodeContext :=
  mkContext c.(ctx_instrument_id) c.(ctx_seq_num) c.(ctx_sequence_within_msg) (c.(ctx_next_deal_id) + 1).

Definition write_bundle_start (seq_num msg_count timestamp : Z) : encoder :=
  encode (mkBundleStart seq_num msg_count timestamp).
Definition write_bundle_end (seq_num : Z) : encoder := encode (mkBundleEnd seq_num).

(** One message between a bundle start and a bundle end; [body] prepares it
    with the context, once the start is written. *)
Definition encode_bundle {A : Type} `{ImpactMessage A} (ts : Timestamp)
    (body : ImpactEncodeContext → A * ImpactEncodeContext) (buf_len : Z) (ctx : ImpactEncodeContext)
    : written * ImpactEncodeContext :=
  let ctx := bump_seq ctx in
  let seq := ctx.(ctx_seq_num) in
  match write_bundle_start seq 1 ts buf_len with
  | Wrote start =>
      let '(msg, ctx) := body ctx in
      (match (encode msg ;+ write_bundle_end seq) (buf_len - Z.of_nat (length start)) with
       | Wrote bs => Wrote (start ++ bs)
       | r => r
       end, ctx)
  | r => (r, ctx)
  end.

Definition encode_depth_update (side : Side) (price : Price) (total_qty : Quantity) (order_count : Z)
    (ts : Timestamp) : Z → ImpactEncodeContext → written * ImpactEncodeContext :=
  encode_bundle ts (λ ctx,
    (mkPriceLevel ctx.(ctx_instrument_id) (encode_side side) (engine_price_to_wire price)
       (engine_qty_to_wire total_qty) (wrap_u16 order_count), ctx)).

Definition encode_order_cancelled (id : OrderId) (ts : Timestamp) (side : Side) (price : Price)
    (quantity : Quantity) : Z → ImpactEncodeContext → written * ImpactEncodeContext :=
  encode_bundle ts (λ ctx,
    let ctx := bump_within ctx in
    (mkOrderWithdrawal ctx.(ctx_instrument_id) (wrap_s64 id) ctx.(ctx_sequence_within_msg)
       (encode_side side) (engine_price_to_wire price) (engine_qty_to_wire quantity), ctx)).

Definition encode_trade (price : Price) (quantity : Quantity) (aggressor_side : Side) (ts : Timestamp)
    : Z → ImpactEncodeContext → written * ImpactEncodeContext :=
  encode_bundle ts (λ ctx,
    (mkDealTrade ctx.(ctx_instrument_id) ctx.(ctx_next_deal_id) (engine_price_to_wire price)
       (engine_qty_to_wire quantity) (encode_side aggressor_side) ts, bump_deal ctx)).

Definition encode_market_status (state : SessionState) (ts : Timestamp)
    : Z → ImpactEncodeContext → written * ImpactEncodeContext :=
  encode_bundle ts (λ ctx,
    (mkMarketStatus ctx.(ctx_instrument_id) (encode_trading_status state), ctx)).

(** *** Instrument definitions ([ice_products.h]); strings are byte lists *)

Inductive IceMatchAlgo : Type := AlgoFIFO | AlgoGTBPR.
Definition match_algo_code (a : IceMatchAlgo) : Z := match a with AlgoFIFO => 0 | AlgoGTBPR => 1 end.

Record IceProductConfig : Type := mkIceProduct {
  ip_instrument_id : Z; ip_symbol : list Z; ip_description : list Z; ip_product_group : list Z;
  ip_tick_size : Price; ip_lot_size : Quantity; ip_max_order_size : Quantity;
  ip_match_algo : IceMatchAlgo; ip_ipl_width : Price; ip_ipl_hold_ms : Z; ip_ipl_recalc_ms : Z;
  ip_settlement_window_secs : Z; ip_smp_action : SmpAction
}.

(** At most [n - 1] characters of a string in a zeroed array of [n]. *)
Definition null_padded (n : nat) (s : list Z) : list Z :=
  let len := Nat.min (length s) (n - 1) in take len s ++ replicate (n - len) 0.

(** ASCII: "USD", "GBP", "Softs", "C". *)
Definition usd : list Z := [85; 83; 68].
Definition gbp : list Z := [71; 66; 80].
Definition softs : list Z := [83; 111; 102; 116; 115].
Definition cocoa : list Z := [67].

Definition currency_of (product : IceProductConfig) : list Z :=
  if bool_decide (product.(ip_product_group) = softs) && bool_decide (product.(ip_symbol) = cocoa)
  then gbp else usd.

Definition encode_instrument_definition (product : IceProductConfig)
    : Z → ImpactEncodeContext → written * ImpactEncodeContext :=
  encode_bundle 0 (λ ctx,
    (mkInstrumentDefinition (wrap_s32 product.(ip_instrument_id)) (null_padded 8 product.(ip_symbol))
       (null_padded 32 product.(ip_description)) (null_padded 16 product.(ip_product_group))
       product.(ip_tick_size) product.(ip_lot_size) product.(ip_max_order_size)
       (match_algo_code product.(ip_match_algo)) (currency_of product ++ [0]), ctx)).

(** *** Book snapshots: the levels of a side of the engine's book *)

Definition snapshot_order (instrument_id : Z) (side : Side) (order_id : Z) (lv : Types.PriceLevel)
    : SnapshotOrder :=
  mkSnapshotOrder instrument_id order_id (encode_side side) (engine_price_to_wire lv.(lv_price))
    (engine_qty_to_wire lv.(lv_total_quantity)) 0.

Fixpoint encode_snapshot_side (instrument_id : Z) (side : Side) (levels : list Types.PriceLevel)
    (next_order_id : Z) : encoder :=
  match levels with
  | [] => write_nothing
  | lv :: levels' =>
      encode (snapshot_order instrument_id side next_order_id lv) ;+
      encode_snapshot_side instrument_id side levels' (next_order_id + 1)
  end.

Definition encode_snapshot_orders (instrument_id : Z) (bids asks : list Types.PriceLevel)
    (buf_len : Z) (ctx : ImpactEncodeContext) : written * ImpactEncodeContext :=
  let msg_count := wrap_u16 (Z.of_nat (length bids) + Z.of_nat (length asks)) in
  let ctx := bump_seq ctx in
  ((write_bundle_start ctx.(ctx_seq_num) msg_count 0 ;+
    encode_snapshot_side instrument_id Buy bids 1 ;+
    encode_snapshot_side instrument_id Sell asks (1 + Z.of_nat (length bids)) ;+
    write_bundle_end 0) buf_len, ctx).

(** ** The publisher *)

Definition MAX_IMPACT_ENCODED_SIZE : Z := 128.

Record ImpactPacket : Type := mkImpactPacket { ip_data : list Z; ip_len : Z }.

Record ImpactFeedPublisher : Type := mkPublisher {
  pub_ctx : ImpactEncodeContext; pub_packets : list ImpactPacket
}.

Definition initial_publisher (instrument_id : Z) : ImpactFeedPublisher :=
  mkPublisher (initial_context instrument_id) [].

(** Encode into a fresh packet; keep it if anything was written. *)
Definition publish (e : Z → ImpactEncodeContext → written * ImpactEncodeContext)
    (p : ImpactFeedPublisher) : option ImpactFeedPublisher :=
  match e MAX_IMPACT_ENCODED_SIZE p.(pub_ctx) with
  | (Wrote bs, ctx) =>
      let len := Z.of_nat (length bs) in
      let pkt := mkImpactPacket (bs ++ replicate (Z.to_nat (MAX_IMPACT_ENCODED_SIZE - len)) 0) len in
      Some (mkPublisher ctx (if len >? 0 then p.(pub_packets) ++ [pkt] else p.(pub_packets)))
  | (NoRoom, ctx) => Some (mkPublisher ctx p.(pub_packets))
  | (Undefined, _) => None
  end.

(** The listener callbacks of [ImpactFeedPublisher]. *)
Definition impact_listener (p : ImpactFeedPublisher) (e : event) : option ImpactFeedPublisher :=
  match e with
  | DepthUpdate side price total_qty order_count _ ts =>
      publish (encode_depth_update side price total_qty order_count ts) p
  | Trade price quantity _ _ aggressor_side ts => publish (encode_trade price quantity aggressor_side ts) p
  | Types.MarketStatus state ts => publish (encode_market_status state ts) p
  | _ => Some p
  end.

Fixpoint impact_listen (p : ImpactFeedPublisher) (events : list event) : option ImpactFeedPublisher :=
  match events with
  | [] => Some p
  | e :: events' => p' ← impact_listener p e; impact_listen p' events'
  end.

Definition packet_bytes (p : ImpactPacket) : list Z := take (Z.to_nat p.(ip_len)) p.(ip_data).
