(* ===== verification/ImpactTheorems.v ===== *)
(** * The iMpact feed: bundles arrive as they were made

    Structs and frames first, then bundles, then the feed of a publisher and
    the snapshot of a book. *)

From S2P Require Import Prelude Types Wire Impact.

(** ** Structs *)

#[global] Instance BundleStart_ok : WireStructOk BundleStart.
Proof. struct_ok BundleStart_struct. Qed.
#[global] Instance BundleEnd_ok : WireStructOk BundleEnd.
Proof. struct_ok BundleEnd_struct. Qed.
#[global] Instance AddModifyOrder_ok : WireStructOk AddModifyOrder.
Proof. struct_ok AddModifyOrder_struct. Qed.
#[global] Instance OrderWithdrawal_ok : WireStructOk OrderWithdrawal.
Proof. struct_ok OrderWithdrawal_struct. Qed.
#[global] Instance DealTrade_ok : WireStructOk DealTrade.
Proof. struct_ok DealTrade_struct. Qed.
#[global] Instance MarketStatus_ok : WireStructOk MarketStatus.
Proof. struct_ok MarketStatus_struct. Qed.
#[global] Instance SnapshotOrder_ok : WireStructOk SnapshotOrder.
Proof. struct_ok SnapshotOrder_struct. Qed.
#[global] Instance PriceLevel_ok : WireStructOk PriceLevel.
Proof. struct_ok PriceLevel_struct. Qed.
#[global] Instance InstrumentDefinition_ok : WireStructOk InstrumentDefinition.
Proof. struct_ok InstrumentDefinition_struct. Qed.

(** A message type with the callback its messages reach. *)
Class ImpactMessageOk (A : Type) `{ImpactMessage A} (callback : A → ImpactEvent) : Prop := {
  im_struct :: WireStructOk A;
  im_size : (ws_size (A := A) < 1000)%nat;
  im_dispatch buf : dispatch (type_code msg_type_of) buf = try_decode callback buf
}.

Ltac message_ok := split; [apply _|apply Nat.ltb_lt; reflexivity|reflexivity].
#[global] Instance BundleStart_message_ok : ImpactMessageOk BundleStart on_bundle_start.
Proof. message_ok. Qed.
#[global] Instance BundleEnd_message_ok : ImpactMessageOk BundleEnd on_bundle_end.
Proof. message_ok. Qed.
#[global] Instance AddModifyOrder_message_ok : ImpactMessageOk AddModifyOrder on_add_modify_order.
Proof. message_ok. Qed.
#[global] Instance OrderWithdrawal_message_ok : ImpactMessageOk OrderWithdrawal on_order_withdrawal.
Proof. message_ok. Qed.
#[global] Instance DealTrade_message_ok : ImpactMessageOk DealTrade on_deal_trade.
Proof. message_ok. Qed.
#[global] Instance MarketStatus_message_ok : ImpactMessageOk MarketStatus on_market_status.
Proof. message_ok. Qed.
#[global] Instance SnapshotOrder_message_ok : ImpactMessageOk SnapshotOrder on_snapshot_order.
Proof. message_ok. Qed.
#[global] Instance PriceLevel_message_ok : ImpactMessageOk PriceLevel on_price_level.
Proof. message_ok. Qed.
#[global] Instance InstrumentDefinition_message_ok :
  ImpactMessageOk InstrumentDefinition on_instrument_def.
Proof. message_ok. Qed.

(** ** Frames *)

Lemma type_code_byte t : in_uint8 (type_code t).
Proof. by destruct t. Qed.
#[local] Hint Resolve type_code_byte : wire.

(** The bytes of a frame: the decoder's loop takes exactly them. *)
Definition framed (bs : list Z) (ev : ImpactEvent) : Prop :=
  bs ≠ [] ∧
  ∀ fuel rest, decode_loop (S fuel) (bs ++ rest) =
    let '(evs, after) := decode_loop fuel rest in (ev :: evs, after).

Lemma decode_loop_framed bss evs : Forall2 framed bss evs →
  ∀ fuel, (length (concat bss) <= fuel)%nat → decode_loop fuel (concat bss) = (evs, []).
Proof.
  induction 1 as [|bs ev bss evs [Hne Hf] _ IH]; intros fuel Hlen.
  - by destruct fuel.
  - change (concat (bs :: bss)) with (bs ++ concat bss) in *. rewrite length_app in Hlen.
    destruct fuel as [|fuel]; [destruct bs; [done|cbn in Hlen; lia]|].
    rewrite Hf, IH; [done|]. destruct bs; [done|cbn in Hlen; lia].
Qed.

Lemma decode_messages_framed bss evs : Forall2 framed bss evs →
  decode_messages (concat bss) = (evs, length (concat bss)).
Proof.
  intros H. unfold decode_messages. rewrite (decode_loop_framed _ _ H) by done. cbn.
  by rewrite Nat.sub_0_r.
Qed.

Section frames.
Context {A : Type} `{ImpactMessage A} (callback : A → ImpactEvent) `{!ImpactMessageOk A callback}.

Definition frame (msg : A) : list Z :=
  put_header (mkImpactHeader (type_code msg_type_of) (wire_size (A := A))) ++ ws_put msg.

Lemma wire_size_id : wire_size (A := A) = 3 + Z.of_nat (ws_size (A := A)).
Proof using callback ImpactMessageOk0.
  unfold wire_size, header_size. rewrite wrap_u16_id; [lia|].
  pose proof im_size. unfold in_uint16. lia.
Qed.

Lemma get_header_frame msg rest :
  get_header (frame msg ++ rest) =
    Some (mkImpactHeader (type_code msg_type_of) (wire_size (A := A)), ws_put msg ++ rest).
Proof using callback ImpactMessageOk0.
  assert (in_uint16 (wire_size (A := A)))
    by (rewrite wire_size_id; pose proof im_size; unfold in_uint16; lia).
  unfold frame. rewrite <- app_assoc. eapply transports_read.
  unfold put_header, get_header. cbn [msg_type body_length]. by struct_fields.
Qed.

Lemma length_frame msg : ws_fits msg → Z.of_nat (length (frame msg)) = wire_size (A := A).
Proof using callback ImpactMessageOk0.
  intros Hm. unfold frame, put_header. rewrite !length_app, !length_le_bytes, ws_length by done.
  rewrite wire_size_id. cbn [length]. lia.
Qed.

Lemma encode_frame msg n : ws_fits msg → encode msg n = write (frame msg) n.
Proof using callback ImpactMessageOk0.
  intros Hm. unfold encode, write. rewrite length_frame, Z.gtb_ltb by done. by destruct (n <? wire_size).
Qed.

Lemma decode_frame msg rest : ws_fits msg → decode (frame msg ++ rest) = Some (msg, rest).
Proof using callback ImpactMessageOk0.
  intros Hm. unfold decode. rewrite length_app.
  pose proof (length_frame msg Hm). case_if as Hif; zbool; [lia|].
  rewrite get_header_frame. cbn. rewrite !Z.eqb_refl. cbn.
  by eapply transports_read, ws_transports.
Qed.

(** A frame decodes to its message wherever it stands. *)
Lemma framed_frame msg : ws_fits msg → framed (frame msg) (callback msg).
Proof using ImpactMessageOk0.
  intros Hm. pose proof (length_frame msg Hm) as Hl. rewrite wire_size_id in Hl.
  split; [intros E; rewrite E in Hl; cbn in Hl; lia|].
  intros fuel rest. cbn [decode_loop]. rewrite length_app.
  destruct (Nat.ltb_spec (length (frame msg) + length rest) header_size); [unfold header_size in *; lia|].
  rewrite get_header_frame. cbn [body_length msg_type]. rewrite wire_size_id.
  destruct (Z.ltb_spec (3 + Z.of_nat (ws_size (A := A))) (Z.of_nat header_size)); [unfold header_size in *; lia|].
  destruct (Z.gtb_spec (3 + Z.of_nat (ws_size (A := A))) (Z.of_nat (length (frame msg) + length rest))); [lia|].
  rewrite <- Hl, Nat2Z.id, take_app_length, drop_app_length, im_dispatch.
  unfold try_decode. rewrite <- (app_nil_r (frame msg)), decode_frame by done. done.
Qed.
End frames.

(** ** Bundles *)

Lemma wrap_u16_range z : in_uint16 (wrap_u16 z).
Proof. apply Z.mod_pos_bound. lia. Qed.
Lemma encode_side_u8 s : in_uint8 (encode_side s).
Proof. by destruct s. Qed.
Lemma encode_trading_status_u8 st : in_uint8 (encode_trading_status st).
Proof. by destruct st. Qed.
Lemma engine_qty_u32 q : in_uint32 (engine_qty_to_wire q).
Proof. apply wrap_u32_range. Qed.
#[local] Hint Resolve engine_qty_u32 wrap_u32_range wrap_u16_range wrap_s32_range encode_side_u8
  encode_trading_status_u8 : wire.

Lemma bundle_start_fits seq count ts : in_uint32 seq → in_uint16 count → in_int64 ts →
  ws_fits (mkBundleStart seq count ts).
Proof. intros Hs Hc Ht. exact (conj Hs (conj Hc Ht)). Qed.

(** A message in its bundle, as bytes and as the decoder's visits. *)
Definition bundle_bytes {A} `{ImpactMessage A} (seq : Z) (ts : Timestamp) (msg : A) : list (list Z) :=
  [frame (mkBundleStart seq 1 ts); frame msg; frame (mkBundleEnd seq)].
Definition bundle_events (seq : Z) (ts : Timestamp) (ev : ImpactEvent) : list ImpactEvent :=
  [on_bundle_start (mkBundleStart seq 1 ts); ev; on_bundle_end (mkBundleEnd seq)].

Section bundles.
Context {A : Type} `{ImpactMessage A} (callback : A → ImpactEvent) `{!ImpactMessageOk A callback}.

Lemma bundle_framed seq ts (msg : A) : in_uint32 seq → in_int64 ts → ws_fits msg →
  Forall2 framed (bundle_bytes seq ts msg) (bundle_events seq ts (callback msg)).
Proof using ImpactMessageOk0.
  intros Hseq Hts Hmsg. unfold bundle_bytes, bundle_events.
  apply Forall2_cons; split; [by apply (framed_frame on_bundle_start), bundle_start_fits|].
  apply Forall2_cons; split; [by apply framed_frame|].
  apply Forall2_cons; split; [by apply (framed_frame on_bundle_end)|done].
Qed.

Lemma encode_bundle_frames ts body buf_len ctx (msg : A) ctx' :
  in_int64 ts → body (bump_seq ctx) = (msg, ctx') → ws_fits msg →
  17 + wire_size (A := A) + 7 <= buf_len →
  encode_bundle ts body buf_len ctx =
    (Wrote (concat (bundle_bytes (bump_seq ctx).(ctx_seq_num) ts msg)), ctx').
Proof using callback ImpactMessageOk0.
  intros Hts Hbody Hmsg Hlen. unfold encode_bundle. set (seq := (bump_seq ctx).(ctx_seq_num)).
  assert (Hseq : in_uint32 seq) by apply wrap_u32_range.
  pose proof (length_frame on_bundle_start (mkBundleStart seq 1 ts) (bundle_start_fits seq 1 ts Hseq ltac:(done) Hts)) as H1.
  pose proof (length_frame on_bundle_end (mkBundleEnd seq) Hseq) as H2.
  pose proof (length_frame callback msg Hmsg) as H3.
  change (wire_size (A := BundleStart)) with 17 in H1. change (wire_size (A := BundleEnd)) with 7 in H2.
  pose proof (wire_size_id callback) as Hw.
  unfold write_bundle_start, write_bundle_end.
  rewrite (encode_frame on_bundle_start) by by apply bundle_start_fits. unfold write at 1.
  rewrite Z.gtb_ltb, (proj2 (Z.ltb_ge _ _)) by lia. rewrite Hbody.
  unfold then_write. rewrite (encode_frame callback) by done. unfold write at 1.
  rewrite Z.gtb_ltb, (proj2 (Z.ltb_ge _ _)) by lia. rewrite (encode_frame on_bundle_end) by done.
  unfold write. rewrite Z.gtb_ltb, (proj2 (Z.ltb_ge _ _)) by lia.
  unfold bundle_bytes. cbn [concat]. by rewrite app_nil_r.
Qed.
End bundles.

(** ** The feed *)

(** The visits that a sequence of events causes: bundle numbers from [seq],
    deal numbers from [deal]. *)
Fixpoint feed_messages (iid seq deal : Z) (events : list event) : list ImpactEvent :=
  match events with
  | [] => []
  | DepthUpdate side price qty count _ ts :: events' =>
      bundle_events (wrap_u32 seq) ts
        (on_price_level (mkPriceLevel iid (encode_side side) price (engine_qty_to_wire qty)
                           (wrap_u16 count))) ++
      feed_messages iid (seq + 1) deal events'
  | Trade price qty _ _ side ts :: events' =>
      bundle_events (wrap_u32 seq) ts
        (on_deal_trade (mkDealTrade iid deal price (engine_qty_to_wire qty) (encode_side side) ts)) ++
      feed_messages iid (seq + 1) (deal + 1) events'
  | Types.MarketStatus st ts :: events' =>
      bundle_events (wrap_u32 seq) ts
        (on_market_status (mkMarketStatus iid (encode_trading_status st))) ++
      feed_messages iid (seq + 1) deal events'
  | _ :: events' => feed_messages iid seq deal events'
  end.

(** Prices and times are 64-bit. *)
Definition feedable (e : event) : Prop :=
  match e with
  | DepthUpdate _ price _ _ _ ts | Trade price _ _ _ _ ts => in_int64 price ∧ in_int64 ts
  | Types.MarketStatus _ ts => in_int64 ts
  | _ => True
  end.

Lemma publish_bundle {A} `{ImpactMessage A} callback `{!ImpactMessageOk A callback}
    ts body p (msg : A) ctx' :
  in_int64 ts → body (bump_seq p.(pub_ctx)) = (msg, ctx') → ws_fits msg →
  wire_size (A := A) <= 104 →
  ∃ pkt, packet_bytes pkt = concat (bundle_bytes (bump_seq p.(pub_ctx)).(ctx_seq_num) ts msg) ∧
    publish (encode_bundle ts body) p = Some (mkPublisher ctx' (p.(pub_packets) ++ [pkt])).
Proof.
  intros Hts Hbody Hmsg Hsize. unfold publish.
  erewrite (encode_bundle_frames callback); [|done..|unfold MAX_IMPACT_ENCODED_SIZE; lia].
  set (bs := concat _).
  assert (Hbs : 0 < Z.of_nat (length bs)).
  { pose proof (length_frame callback msg Hmsg). pose proof (wire_size_id callback).
    unfold bs, bundle_bytes. cbn [concat]. rewrite !length_app. lia. }
  clearbody bs.
  exists (mkImpactPacket (bs ++ replicate (Z.to_nat (MAX_IMPACT_ENCODED_SIZE - Z.of_nat (length bs))) 0)
            (Z.of_nat (length bs))).
  split.
  - unfold packet_bytes. cbn. by rewrite Nat2Z.id, take_app_length.
  - by rewrite Z.gtb_ltb, (proj2 (Z.ltb_lt _ _)).
Qed.

(** One published bundle before the rest of the feed. *)
Lemma feed_bundle {A} `{ImpactMessage A} callback `{!ImpactMessageOk A callback}
    ts body p (msg : A) ctx' seq events rest :
  in_int64 ts → body (bump_seq p.(pub_ctx)) = (msg, ctx') → ws_fits msg →
  wire_size (A := A) <= 104 → (bump_seq p.(pub_ctx)).(ctx_seq_num) = seq →
  (∀ pkt, ∃ p' bss pkts, impact_listen (mkPublisher ctx' (p.(pub_packets) ++ [pkt])) events = Some p' ∧
     p'.(pub_packets) = (p.(pub_packets) ++ [pkt]) ++ pkts ∧
     concat (packet_bytes <$> pkts) = concat bss ∧ Forall2 framed bss rest) →
  ∃ p' bss pkts,
    (p' ← publish (encode_bundle ts body) p; impact_listen p' events) = Some p' ∧
    p'.(pub_packets) = p.(pub_packets) ++ pkts ∧
    concat (packet_bytes <$> pkts) = concat bss ∧
    Forall2 framed bss (bundle_events seq ts (callback msg) ++ rest).
Proof.
  intros Hts Hbody Hmsg Hsize Hseq Hrest.
  destruct (publish_bundle callback ts body p msg ctx') as (pkt & Hpkt & ->); [done..|].
  destruct (Hrest pkt) as (p' & bss & pkts & Hl & Hp & Hb & Hf).
  exists p', (bundle_bytes seq ts msg ++ bss), (pkt :: pkts). split_and!.
  - exact Hl.
  - by rewrite Hp, <- app_assoc.
  - rewrite fmap_cons, concat_app. cbn [concat]. by rewrite Hpkt, Hb, Hseq.
  - apply Forall2_app; [|done]. apply bundle_framed; try done. rewrite <- Hseq. apply wrap_u32_range.
Qed.

Lemma feed_frames iid events : in_int32 iid → Forall feedable events →
  ∀ p seq deal,
  p.(pub_ctx) = mkContext iid (wrap_u32 (seq - 1)) 0 deal →
  in_int64 deal → deal + Z.of_nat (length events) <= int64_max →
  ∃ p' bss pkts, impact_listen p events = Some p' ∧ p'.(pub_packets) = p.(pub_packets) ++ pkts ∧
    concat (packet_bytes <$> pkts) = concat bss ∧ Forall2 framed bss (feed_messages iid seq deal events).
Proof.
  intros Hiid. induction 1 as [|e events He _ IH]; intros [ctx pkts0] seq deal Hctx Hdeal Hlen.
  - exists (mkPublisher ctx pkts0), [], []. by rewrite app_nil_r.
  - assert (Hseq : wrap_u32 (wrap_u32 (seq - 1) + 1) = wrap_u32 seq).
    { unfold wrap_u32. rewrite Z.add_mod_idemp_l by lia. f_equal. lia. }
    assert (Hback : wrap_u32 seq = wrap_u32 (seq + 1 - 1)) by (f_equal; lia).
    cbn [length] in Hlen. cbn in Hctx. subst ctx.
    destruct e; cbn [impact_listen impact_listener feed_messages];
      try (apply (IH _ seq deal); [done..|lia]); cbn in He.
    + destruct He. eapply (feed_bundle on_price_level); [done|reflexivity| |done|exact Hseq|].
      * cbn. split_and!; auto with wire.
      * intros pkt. apply (IH (mkPublisher _ _)); [|done|lia].
        cbn. unfold bump_seq. cbn. by rewrite Hseq, Hback.
    + destruct He. eapply (feed_bundle on_deal_trade); [done|reflexivity| |done|exact Hseq|].
      * cbn. split_and!; auto with wire.
      * intros pkt. apply (IH (mkPublisher _ _)); [|unfold in_int64 in *; lia|lia].
        cbn. unfold bump_deal. cbn. by rewrite Hseq, Hback.
    + eapply (feed_bundle on_market_status); [done|reflexivity| |done|exact Hseq|].
      * cbn. split_and!; auto with wire.
      * intros pkt. apply (IH (mkPublisher _ _)); [|done|lia].
        cbn. unfold bump_seq. cbn. by rewrite Hseq, Hback.
Qed.

(** Whatever the engine reports, the iMpact feed delivers: a receiver that
    decodes the published packets back to back sees, for every depth update,
    trade and market status in order, one bundle (start, message, end) with the
    next sequence number, so that any gap shows, and trades numbered
    consecutively; every byte is consumed. *)
Theorem impact_feed_delivers iid events :
  in_int32 iid → Forall feedable events → Z.of_nat (length events) < int64_max →
  ∃ p, impact_listen (initial_publisher iid) events = Some p ∧
    decode_messages (concat (packet_bytes <$> p.(pub_packets))) =
      (feed_messages iid 1 1 events, length (concat (packet_bytes <$> p.(pub_packets)))).
Proof.
  intros Hiid Hev Hlen.
  destruct (feed_frames iid events Hiid Hev (initial_publisher iid) 1 1) as (p & bss & pkts & Hl & Hp & Hb & Hf);
    [done|done|lia|].
  exists p. split; [done|]. rewrite Hp. cbn [initial_publisher pub_packets app]. rewrite Hb.
  by apply decode_messages_framed.
Qed.

(** ** Book snapshots *)

Fixpoint snapshot_orders (iid : Z) (side : Side) (levels : list Types.PriceLevel) (oid : Z)
    : list SnapshotOrder :=
  match levels with
  | [] => []
  | lv :: levels' => snapshot_order iid side oid lv :: snapshot_orders iid side levels' (oid + 1)
  end.

Definition prices_fit (levels : list Types.PriceLevel) : Prop :=
  Forall (λ lv, in_int64 lv.(lv_price)) levels.

Lemma snapshot_orders_fit iid side levels oid :
  in_int32 iid → prices_fit levels → 0 <= oid → oid + Z.of_nat (length levels) <= int64_max →
  Forall ws_fits (snapshot_orders iid side levels oid).
Proof.
  intros Hiid Hp. revert oid. induction Hp as [|lv levels Hlv _ IH]; intros oid H0 Hlen; [constructor|].
  cbn [length] in Hlen. constructor; [|apply IH; lia].
  cbn. split_and!; auto with wire; [unfold in_int64, int64_min in *; lia|done].
Qed.

Lemma encode_snapshot_side_writes iid side levels oid :
  Forall ws_fits (snapshot_orders iid side levels oid) → ∀ n,
  encode_snapshot_side iid side levels oid n =
    write (concat (frame <$> snapshot_orders iid side levels oid)) n.
Proof.
  revert oid. induction levels as [|lv levels IH]; intros oid Hf n; [done|].
  cbn [encode_snapshot_side snapshot_orders] in *. apply Forall_cons in Hf as [Hm Hf].
  rewrite fmap_cons. cbn [concat]. apply then_write_eq.
  - intros n'. by apply (encode_frame on_snapshot_order).
  - by apply IH.
Qed.

Lemma length_snapshot_orders iid side levels oid :
  length (snapshot_orders iid side levels oid) = length levels.
Proof. revert oid. induction levels as [|lv levels IH]; intros oid; cbn; [done|]. by rewrite IH. Qed.

Lemma length_frames (ms : list SnapshotOrder) : Forall ws_fits ms →
  Z.of_nat (length (concat (frame <$> ms))) = 32 * Z.of_nat (length ms).
Proof.
  induction 1 as [|m ms Hm _ IH]; [done|]. rewrite fmap_cons. cbn [concat length].
  rewrite length_app, Nat2Z.inj_add, IH, (length_frame on_snapshot_order) by done.
  change (wire_size (A := SnapshotOrder)) with 32. lia.
Qed.

Lemma frames_framed (ms : list SnapshotOrder) : Forall ws_fits ms →
  Forall2 framed (frame <$> ms) (on_snapshot_order <$> ms).
Proof.
  induction 1; [constructor|]. rewrite !fmap_cons. apply Forall2_cons; split; [|done].
  by apply (framed_frame on_snapshot_order).
Qed.

(** The snapshot of a book arrives whole: with room for 32 bytes a level
    and 24 for the bundle, the encoder writes one bundle from which the decoder
    recovers every level of both sides in order, with their count (on 16 bits) and
    the end marker zero; with less room it writes nothing. *)
Theorem impact_snapshot_roundtrip iid bids asks ctx n :
  in_int32 iid → prices_fit bids → prices_fit asks →
  Z.of_nat (length bids + length asks) < int64_max →
  let orders := snapshot_orders iid Buy bids 1 ++
                snapshot_orders iid Sell asks (1 + Z.of_nat (length bids)) in
  let needed := 24 + 32 * Z.of_nat (length bids + length asks) in
  (n < needed → encode_snapshot_orders iid bids asks n ctx = (NoRoom, bump_seq ctx)) ∧
  (needed <= n → ∃ bs, encode_snapshot_orders iid bids asks n ctx = (Wrote bs, bump_seq ctx) ∧
     Z.of_nat (length bs) = needed ∧
     decode_messages bs =
       (on_bundle_start (mkBundleStart (bump_seq ctx).(ctx_seq_num)
                           (wrap_u16 (Z.of_nat (length orders))) 0) ::
        (on_snapshot_order <$> orders) ++ [on_bundle_end (mkBundleEnd 0)], length bs)).
Proof.
  intros Hiid Hb Ha Hlen orders needed.
  assert (Hob : Forall ws_fits (snapshot_orders iid Buy bids 1)) by (apply snapshot_orders_fit; done || lia).
  assert (Hoa : Forall ws_fits (snapshot_orders iid Sell asks (1 + Z.of_nat (length bids))))
    by (apply snapshot_orders_fit; done || lia).
  assert (Ho : Forall ws_fits orders) by by apply Forall_app.
  assert (Hcount : length orders = (length bids + length asks)%nat)
    by (unfold orders; by rewrite length_app, !length_snapshot_orders).
  set (seq := (bump_seq ctx).(ctx_seq_num)). set (count := wrap_u16 (Z.of_nat (length orders))).
  assert (Hs : ws_fits (mkBundleStart seq count 0))
    by (apply bundle_start_fits; [apply wrap_u32_range|apply wrap_u16_range|done]).
  assert (He : ws_fits (mkBundleEnd 0)) by done.
  set (bss := frame (mkBundleStart seq count 0) :: (frame <$> orders) ++ [frame (mkBundleEnd 0)]).
  assert (Hw : ∀ n, encode_snapshot_orders iid bids asks n ctx = (write (concat bss) n, bump_seq ctx)).
  { intros n'. unfold encode_snapshot_orders. f_equal. unfold bss. cbn [concat].
    rewrite concat_app. unfold orders. rewrite fmap_app, concat_app, <- !app_assoc. cbn [concat].
    rewrite app_nil_r. rewrite <- Nat2Z.inj_add, <- Hcount. fold count. fold seq.
    apply then_write_eq; [intros; by apply (encode_frame on_bundle_start)|].
    apply then_write_eq; [by apply encode_snapshot_side_writes|].
    apply then_write_eq; [by apply encode_snapshot_side_writes|].
    intros; by apply (encode_frame on_bundle_end). }
  assert (Hsize : Z.of_nat (length (concat bss)) = needed).
  { unfold bss. cbn [concat]. rewrite concat_app, !length_app, !Nat2Z.inj_add, length_frames, Hcount by done.
    cbn [concat]. rewrite app_nil_r, (length_frame on_bundle_start), (length_frame on_bundle_end) by done.
    change (wire_size (A := BundleStart)) with 17. change (wire_size (A := BundleEnd)) with 7. lia. }
  split; intros Hn; rewrite Hw; unfold write; rewrite Z.gtb_ltb, Hsize.
  - by rewrite (proj2 (Z.ltb_lt _ _)).
  - rewrite (proj2 (Z.ltb_ge _ _)) by done. eexists. split_and!; [done..|].
    apply decode_messages_framed. unfold bss.
    apply Forall2_cons; split; [by apply (framed_frame on_bundle_start)|].
    apply Forall2_app; [by apply frames_framed|].
    apply Forall2_cons; split; [by apply (framed_frame on_bundle_end)|constructor].
Qed.

(** ** Concrete feeds *)

Definition demo_feed : list event :=
  [Types.MarketStatus Continuous 10; DepthUpdate Buy (-25) 30000 2 DepthAdd 11;
   Trade 100 10000 1 2 Sell 12; Trade 101 20000 3 4 Buy 13].

Lemma impact_feed_delivers_witness :
  ∃ p, impact_listen (initial_publisher 7) demo_feed = Some p ∧
    decode_messages (concat (packet_bytes <$> p.(pub_packets))) =
      (feed_messages 7 1 1 demo_feed, length (concat (packet_bytes <$> p.(pub_packets)))).
Proof.
  apply impact_feed_delivers; [by vm_compute| |by vm_compute].
  do 4 (apply Forall_cons; split; [by vm_compute|]). done.
Defined.

Definition demo_bids : list Types.PriceLevel := [mkLevel 0 9900 20000 2 []; mkLevel 1 9800 10000 1 []].
Definition demo_asks : list Types.PriceLevel := [mkLevel 2 10100 50000 1 []].

Lemma impact_snapshot_roundtrip_witness :
  ∃ bs, encode_snapshot_orders 7 demo_bids demo_asks 120 (initial_context 7) =
          (Wrote bs, bump_seq (initial_context 7)) ∧
    decode_messages bs =
      (on_bundle_start (mkBundleStart 1 3 0) ::
       (on_snapshot_order <$> (snapshot_orders 7 Buy demo_bids 1 ++ snapshot_orders 7 Sell demo_asks 3)) ++
       [on_bundle_end (mkBundleEnd 0)], length bs).
Proof.
  destruct (impact_snapshot_roundtrip 7 demo_bids demo_asks (initial_context 7) 120) as [_ H].
  - by vm_compute.
  - do 2 (apply Forall_cons; split; [by vm_compute|]). done.
  - apply Forall_cons; split; [by vm_compute|done].
  - by vm_compute.
  - destruct H as (bs & He & _ & Hd); [by vm_compute|]. exists bs. exact (conj He Hd).
Defined.
