(* ===== verification/Sbe.v ===== *)
(** * Simple Binary Encoding: [sbe_header.h] and the decoding of a message

    The headers and null values that both CME protocols share, and the steps
    of which their decoders are made: a root block, repeating groups, and the
    checks between them.  A step reads from the rest of the buffer and may fail
    with a result code; [OverRead] is a read past the end of the buffer. *)

From S2P Require Import Prelude Types Wire.

(** ** Headers and null values *)

Record MessageHeader : Type := mkMessageHeader {
  h_block_length : Z; h_template_id : Z; h_schema_id : Z; h_version : Z
}.

#[global] Instance MessageHeader_struct : WireStruct MessageHeader := {
  ws_put h := le_bytes 2 h.(h_block_length) ++ le_bytes 2 h.(h_template_id) ++
              le_bytes 2 h.(h_schema_id) ++ le_bytes 2 h.(h_version) ++ [];
  ws_get := len ← read_uint 2; tid ← read_uint 2; sid ← read_uint 2; v ← read_uint 2;
            mret (mkMessageHeader len tid sid v);
  ws_size := 8;
  ws_fits h := in_uint16 h.(h_block_length) ∧ in_uint16 h.(h_template_id) ∧
               in_uint16 h.(h_schema_id) ∧ in_uint16 h.(h_version)
}.

Record GroupHeader : Type := mkGroupHeader { gh_block_length : Z; gh_num_in_group : Z }.

#[global] Instance GroupHeader_struct : WireStruct GroupHeader := {
  ws_put h := le_bytes 2 h.(gh_block_length) ++ le_bytes 1 h.(gh_num_in_group) ++ [];
  ws_get := len ← read_uint 2; n ← read_uint 1; mret (mkGroupHeader len n);
  ws_size := 3;
  ws_fits h := in_uint16 h.(gh_block_length) ∧ in_uint8 h.(gh_num_in_group)
}.

Definition UINT8_NULL : Z := 255.
Definition UINT16_NULL : Z := 65535.
Definition UINT32_NULL : Z := 4294967295.
Definition UINT64_NULL : Z := 18446744073709551615.
Definition INT8_NULL : Z := 127.
Definition INT32_NULL : Z := 2147483647.
Definition INT64_NULL : Z := 9223372036854775807.

Definition ILINK3_SCHEMA_ID : Z := 8.
Definition ILINK3_VERSION : Z := 5.
Definition MDP3_SCHEMA_ID : Z := 1.
Definition MDP3_VERSION : Z := 13.

(** Fixed point with exponent -9. *)
Record PRICE9 : Type := mkPRICE9 { mantissa : Z }.
Definition price9_is_null (p : PRICE9) : bool := p.(mantissa) =? INT64_NULL.
Definition read_price9 : decoder PRICE9 := m ← read_int 8; mret (mkPRICE9 m).

(** ** Steps of a decoder *)

(** The result codes of the two decoders; [kBadSchemaId] only in MDP 3. *)
Inductive DecodeResult : Type :=
  | kBufferTooShort
  | kUnknownTemplateId
  | kGroupOverflow
  | kBadBlockLength
  | kBadSchemaId.

Inductive outcome (A : Type) : Type :=
  | Got (a : A) (rest : list Z)
  | Failed (r : DecodeResult)
  | OverRead.
Arguments Got {A} a rest.
Arguments Failed {A} r.
Arguments OverRead {A}.

Definition step (A : Type) : Type := list Z → outcome A.

#[global] Instance step_ret : MRet step := λ A a buf, Got a buf.
#[global] Instance step_bind : MBind step := λ A B k d buf,
  match d buf with Got a rest => k a rest | Failed r => Failed r | OverRead => OverRead end.

(** An early return with an error code. *)
Definition fail_if (b : bool) (r : DecodeResult) : step unit := λ buf,
  if b then Failed r else Got tt buf.

(** The check of the length, then [memcpy] of the struct. *)
Definition take_struct {A : Type} `{WireStruct A} : step A := λ buf,
  if (length buf <? ws_size (A := A))%nat then Failed kBufferTooShort
  else match ws_get buf with Some (a, rest) => Got a rest | None => OverRead end.

(** A block that announces [block_length] bytes: the struct is copied from its
    start, the cursor is advanced by the announced length. *)
Definition take_block {A : Type} `{WireStruct A} (block_length : Z) : step A := λ buf,
  if Z.of_nat (length buf) <? block_length then Failed kBufferTooShort
  else match ws_get buf with
       | Some (a, _) => Got a (drop (Z.to_nat block_length) buf)
       | None => OverRead
       end.

(** [numInGroup] entries. *)
Fixpoint take_entries {A : Type} `{WireStruct A} (num_in_group : nat) (block_length : Z)
    : step (list A) :=
  match num_in_group with
  | O => mret []
  | S n => e ← take_block block_length; es ← take_entries n block_length; mret (e :: es)
  end.

(** The two kinds of group headers. *)
Class GroupFraming (H : Type) `{WireStruct H} := {
  gf_block_length : H → Z;
  gf_num_in_group : H → Z;
  gf_make : Z → Z → H
}.
#[global] Instance GroupHeader_framing : GroupFraming GroupHeader := {
  gf_block_length := gh_block_length;
  gf_num_in_group := gh_num_in_group;
  gf_make := mkGroupHeader
}.

(** A repeating group with entries of type [A], at most [max_entries]. *)
Definition take_group {A : Type} {A_struct : WireStruct A} (H : Type) {H_struct : WireStruct H}
    {H_framing : GroupFraming H} (max_entries : Z) : step (list A) :=
  gh ← take_struct (A := H);
  _ ← fail_if (gf_num_in_group gh >? max_entries) kGroupOverflow;
  _ ← fail_if ((gf_num_in_group gh >? 0) && (gf_block_length gh <? Z.of_nat (ws_size (A := A))))
        kBadBlockLength;
  take_entries (Z.to_nat (gf_num_in_group gh)) (gf_block_length gh).

(** The bytes of a group. *)
Definition put_group {A : Type} {A_struct : WireStruct A} (H : Type) {H_struct : WireStruct H}
    {H_framing : GroupFraming H} (entries : list A) : list Z :=
  ws_put (gf_make (H := H) (Z.of_nat (ws_size (A := A))) (Z.of_nat (length entries))) ++
  concat (ws_put <$> entries).

(** The template of a root block. *)
Class Template (A : Type) `{WireStruct A} := template_id_of : Z.

(** ** Layouts of the headers *)

Lemma transports_price9 p : in_int64 p.(mantissa) →
  transports (write (le_bytes 8 p.(mantissa))) read_price9 p 8.
Proof.
  intros Hp. destruct p as [m]. apply (transports_map _ (read_int 8) mkPRICE9). by apply transports_s64.
Qed.
Lemma reads_price9 : reads read_price9 8.
Proof. apply (reads_map _ mkPRICE9), reads_int. Qed.
#[export] Hint Resolve transports_price9 reads_price9 : wire.

#[global] Instance MessageHeader_ok : WireStructOk MessageHeader.
Proof. struct_ok MessageHeader_struct. Qed.
#[global] Instance GroupHeader_ok : WireStructOk GroupHeader.
Proof. struct_ok GroupHeader_struct. Qed.
#[global] Instance MessageHeader_reads : WireStructReads MessageHeader.
Proof. struct_reads. Qed.
#[global] Instance GroupHeader_reads : WireStructReads GroupHeader.
Proof. struct_reads. Qed.

(** What a group header promises: it gives back what it was made of. *)
Class GroupFramingOk (H : Type) {H_struct : WireStruct H} {H_framing : GroupFraming H} : Prop := {
  gf_length len n : gf_block_length (gf_make (H := H) len n) = len;
  gf_num len n : gf_num_in_group (gf_make (H := H) len n) = n;
  gf_fits len n : in_uint16 len → in_uint8 n → ws_fits (gf_make (H := H) len n)
}.
#[global] Instance GroupHeader_framing_ok : GroupFramingOk GroupHeader.
Proof. by split. Qed.

(** ** A step recovers what was written *)

(** From the bytes [bs], and whatever follows, the step gives [a] and leaves
    the rest; a proper prefix of them is too short. *)
Record recovers {A} (d : step A) (a : A) (bs : list Z) : Prop := {
  rc_got rest : d (bs ++ rest) = Got a rest;
  rc_short p q : bs = p ++ q → q ≠ [] → d p = Failed kBufferTooShort
}.

Lemma recovers_ret {A} (a : A) : recovers (mret a) a [].
Proof. split; [done|]. intros p q Hpq Hq. by destruct p, q. Qed.

Lemma recovers_bind {A B} (d : step A) (k : A → step B) a b bs cs :
  recovers d a bs → recovers (k a) b cs → recovers (d ≫= k) b (bs ++ cs).
Proof.
  intros [Hg Hs] [Hg' Hs']. split; unfold mbind, step_bind.
  - intros rest. by rewrite <- app_assoc, Hg.
  - intros p q Heq Hq. apply prefix_split in Heq as [(r & Hr & Hne)|(r & -> & Hr)]; [| |done].
    + by rewrite (Hs p r).
    + rewrite Hg. by apply (Hs' r q).
Qed.

Lemma recovers_map {A B} (d : step A) (f : A → B) a bs :
  recovers d a bs → recovers (d ≫= λ x, mret (f x)) (f a) bs.
Proof. intros Hd. rewrite <- (app_nil_r bs). eapply recovers_bind; [done|apply recovers_ret]. Qed.

Lemma recovers_check {B} b r (k : unit → step B) c bs :
  b = false → recovers (k tt) c bs → recovers (fail_if b r ≫= k) c bs.
Proof. intros -> [Hg Hs]. by split. Qed.

Section structs.
Context {A : Type} {A_struct : WireStruct A} {A_ok : WireStructOk A}.

Lemma recovers_struct (a : A) : ws_fits a → recovers take_struct a (ws_put a).
Proof using A_ok.
  intros Ha. pose proof (ws_length a Ha) as Hl. split; unfold take_struct.
  - intros rest. rewrite length_app, Hl.
    destruct (Nat.ltb_spec (ws_size (A := A) + length rest) (ws_size (A := A))); [lia|].
    by rewrite (transports_read _ _ _ _ _ (ws_transports a Ha)).
  - intros p q Heq Hq. rewrite Heq, length_app in Hl. destruct q; [done|]. cbn in Hl.
    destruct (Nat.ltb_spec (length p) (ws_size (A := A))); [done|lia].
Qed.

End structs.

Section blocks.
Context {A : Type} {A_struct : WireStruct A} {A_ok : WireStructOk A}.

Lemma recovers_block (a : A) len : len = Z.of_nat (ws_size (A := A)) → ws_fits a →
  recovers (take_block len) a (ws_put a).
Proof using A_ok.
  intros -> Ha. pose proof (ws_length a Ha) as Hl. split; unfold take_block.
  - intros rest. rewrite length_app, Hl.
    destruct (Z.ltb_spec (Z.of_nat (ws_size (A := A) + length rest)) (Z.of_nat (ws_size (A := A)))); [lia|].
    by rewrite (transports_read _ _ _ _ _ (ws_transports a Ha)), Nat2Z.id, <- Hl, drop_app_length.
  - intros p q Heq Hq. rewrite Heq, length_app in Hl. destruct q; [done|]. cbn in Hl.
    destruct (Z.ltb_spec (Z.of_nat (length p)) (Z.of_nat (ws_size (A := A)))); [done|lia].
Qed.

Lemma recovers_entries (es : list A) len : len = Z.of_nat (ws_size (A := A)) → Forall ws_fits es →
  recovers (take_entries (length es) len) es (concat (ws_put <$> es)).
Proof using A_ok.
  intros Hlen. induction 1 as [|e es He _ IH]; [apply recovers_ret|].
  rewrite fmap_cons. cbn [length take_entries concat].
  eapply recovers_bind; [by apply recovers_block|]. by apply (recovers_map _ (cons e)).
Qed.

Lemma recovers_group (H : Type) `{GroupFramingOk H, !WireStructOk H} (es : list A) max :
  Forall ws_fits es → Z.of_nat (length es) <= max → Z.of_nat (length es) <= 255 →
  in_uint16 (Z.of_nat (ws_size (A := A))) →
  recovers (take_group H max) es (put_group H es).
Proof using A_ok.
  intros Hes Hmax H255 Hsize. unfold take_group, put_group.
  eapply recovers_bind.
  - apply recovers_struct, gf_fits; [done|]. unfold in_uint8. lia.
  - rewrite gf_num, gf_length. apply recovers_check; [rewrite Z.gtb_ltb, Z.ltb_ge; lia|].
    apply recovers_check; [by rewrite Z.ltb_irrefl, andb_false_r|].
    rewrite Nat2Z.id. by apply recovers_entries.
Qed.
End blocks.

(** ** A step stays within the buffer *)

Definition in_bounds {A} (d : step A) : Prop := ∀ buf, d buf ≠ OverRead.

Lemma in_bounds_ret {A} (a : A) : in_bounds (mret a).
Proof. done. Qed.

Lemma in_bounds_bind {A B} (d : step A) (k : A → step B) :
  in_bounds d → (∀ a, in_bounds (k a)) → in_bounds (d ≫= k).
Proof. intros Hd Hk buf. unfold mbind, step_bind. specialize (Hd buf). destruct (d buf); [apply Hk|done..]. Qed.

Lemma in_bounds_check {B} b r (k : unit → step B) :
  (b = false → in_bounds (k tt)) → in_bounds (fail_if b r ≫= k).
Proof. intros Hk buf. unfold mbind, step_bind, fail_if. destruct b; [done|]. by apply Hk. Qed.

Section bounds.
Context {A : Type} {A_struct : WireStruct A} {A_reads : WireStructReads A}.

Lemma in_bounds_struct : in_bounds (take_struct (A := A)).
Proof using A_reads.
  intros buf. unfold take_struct. destruct (Nat.ltb_spec (length buf) (ws_size (A := A))); [done|].
  by destruct (ws_reads buf) as [a ->].
Qed.

End bounds.

Section blocks_in_bounds.
Context {A : Type} {A_struct : WireStruct A} {A_reads : WireStructReads A}.

Lemma in_bounds_block len : Z.of_nat (ws_size (A := A)) <= len → in_bounds (take_block (A := A) len).
Proof using A_reads.
  intros Hlen buf. unfold take_block. destruct (Z.ltb_spec (Z.of_nat (length buf)) len); [done|].
  destruct (ws_reads buf) as [a Ha]; [lia|]. by rewrite Ha.
Qed.

Lemma in_bounds_entries n len : Z.of_nat (ws_size (A := A)) <= len → in_bounds (take_entries (A := A) n len).
Proof using A_reads.
  intros Hlen. induction n as [|n IH]; cbn [take_entries]; [done|].
  apply in_bounds_bind; [by apply in_bounds_block|]. intros e. by apply in_bounds_bind.
Qed.

Lemma in_bounds_group (H : Type) {H_struct : WireStruct H} {H_framing : GroupFraming H}
    {H_reads : WireStructReads H} max : in_bounds (take_group (A := A) H max).
Proof using A_reads.
  unfold take_group. apply in_bounds_bind; [apply in_bounds_struct|].
  - intros gh. apply in_bounds_check. intros _. apply in_bounds_check. intros Hb.
    destruct (Z.gtb_spec (gf_num_in_group gh) 0) as [|Hle]; cbn [andb] in Hb.
    + apply in_bounds_entries. by apply Z.ltb_ge.
    + destruct (gf_num_in_group gh); done.
Qed.
End blocks_in_bounds.

(** The steps of a message, one by one. *)
Ltac steps_in_bounds :=
  repeat first
    [ apply in_bounds_ret
    | apply in_bounds_check; intros ?
    | apply in_bounds_bind;
      [solve [apply in_bounds_struct|apply in_bounds_group; apply _|apply in_bounds_block; first [assumption|lia]]
      |intros ?] ].
