(* ===== verification/ILink3Messages.v ===== *)
(** * iLink 3: the messages of [ilink3_messages.h]

    The packed structs of the order-entry protocol of CME, each with its layout
    on the wire and the laws of the layout. *)

From S2P Require Import Prelude Types Wire Sbe.

(** ** Message structs *)

Record NewOrderSingle514 : Type := mkNewOrderSingle514 {
  n514_price : PRICE9; n514_order_qty : Z; n514_security_id : Z; n514_side : Z; n514_seq_num : Z;
  n514_sender_id : list Z; n514_cl_ord_id : list Z; n514_party_details_list_req_id : Z;
  n514_order_request_id : Z; n514_sending_time_epoch : Z; n514_stop_px : PRICE9;
  n514_location : list Z; n514_min_qty : Z; n514_display_qty : Z; n514_expire_date : Z;
  n514_ord_type : Z; n514_time_in_force : Z; n514_manual_order_indicator : Z; n514_exec_inst : Z;
  n514_execution_mode : Z; n514_liquidity_flag : Z; n514_managed_order : Z;
  n514_short_sale_type : Z
}.

#[global] Instance NewOrderSingle514_struct : WireStruct NewOrderSingle514 := {
  ws_put m :=
    le_bytes 8 m.(n514_price).(mantissa) ++ le_bytes 4 m.(n514_order_qty) ++
    le_bytes 4 m.(n514_security_id) ++ le_bytes 1 m.(n514_side) ++ le_bytes 4 m.(n514_seq_num) ++
    m.(n514_sender_id) ++ m.(n514_cl_ord_id) ++ le_bytes 8 m.(n514_party_details_list_req_id) ++
    le_bytes 8 m.(n514_order_request_id) ++ le_bytes 8 m.(n514_sending_time_epoch) ++
    le_bytes 8 m.(n514_stop_px).(mantissa) ++ m.(n514_location) ++ le_bytes 4 m.(n514_min_qty) ++
    le_bytes 4 m.(n514_display_qty) ++ le_bytes 2 m.(n514_expire_date) ++
    le_bytes 1 m.(n514_ord_type) ++ le_bytes 1 m.(n514_time_in_force) ++
    le_bytes 1 m.(n514_manual_order_indicator) ++ le_bytes 1 m.(n514_exec_inst) ++
    le_bytes 1 m.(n514_execution_mode) ++ le_bytes 1 m.(n514_liquidity_flag) ++
    le_bytes 1 m.(n514_managed_order) ++ le_bytes 1 m.(n514_short_sale_type) ++ [];
  ws_get :=
    price ← read_price9; order_qty ← read_uint 4; security_id ← read_int 4; side ← read_uint 1;
    seq_num ← read_uint 4; sender_id ← read_bytes 20; cl_ord_id ← read_bytes 20;
    party_details_list_req_id ← read_uint 8; order_request_id ← read_uint 8;
    sending_time_epoch ← read_uint 8; stop_px ← read_price9; location ← read_bytes 5;
    min_qty ← read_uint 4; display_qty ← read_uint 4; expire_date ← read_uint 2;
    ord_type ← read_uint 1; time_in_force ← read_uint 1; manual_order_indicator ← read_uint 1;
    exec_inst ← read_uint 1; execution_mode ← read_uint 1; liquidity_flag ← read_uint 1;
    managed_order ← read_uint 1; short_sale_type ← read_uint 1;
    mret (mkNewOrderSingle514
      price order_qty security_id side seq_num sender_id cl_ord_id party_details_list_req_id
      order_request_id sending_time_epoch stop_px location min_qty display_qty expire_date
      ord_type time_in_force manual_order_indicator exec_inst execution_mode liquidity_flag
      managed_order short_sale_type);
  ws_size := 116;
  ws_fits m :=
    in_int64 m.(n514_price).(mantissa) ∧ in_uint32 m.(n514_order_qty) ∧
    in_int32 m.(n514_security_id) ∧ in_uint8 m.(n514_side) ∧ in_uint32 m.(n514_seq_num) ∧
    is_chars 20 m.(n514_sender_id) ∧ is_chars 20 m.(n514_cl_ord_id) ∧
    in_uint64 m.(n514_party_details_list_req_id) ∧ in_uint64 m.(n514_order_request_id) ∧
    in_uint64 m.(n514_sending_time_epoch) ∧ in_int64 m.(n514_stop_px).(mantissa) ∧
    is_chars 5 m.(n514_location) ∧ in_uint32 m.(n514_min_qty) ∧ in_uint32 m.(n514_display_qty) ∧
    in_uint16 m.(n514_expire_date) ∧ in_uint8 m.(n514_ord_type) ∧
    in_uint8 m.(n514_time_in_force) ∧ in_uint8 m.(n514_manual_order_indicator) ∧
    in_uint8 m.(n514_exec_inst) ∧ in_uint8 m.(n514_execution_mode) ∧
    in_uint8 m.(n514_liquidity_flag) ∧ in_uint8 m.(n514_managed_order) ∧
    in_uint8 m.(n514_short_sale_type)
}.

Record OrderCancelReplaceRequest515 : Type := mkOrderCancelReplaceRequest515 {
  r515_price : PRICE9; r515_order_qty : Z; r515_security_id : Z; r515_side : Z; r515_seq_num : Z;
  r515_sender_id : list Z; r515_cl_ord_id : list Z; r515_party_details_list_req_id : Z;
  r515_order_id : Z; r515_stop_px : PRICE9; r515_order_request_id : Z;
  r515_sending_time_epoch : Z; r515_location : list Z; r515_min_qty : Z; r515_display_qty : Z;
  r515_expire_date : Z; r515_ord_type : Z; r515_time_in_force : Z;
  r515_manual_order_indicator : Z; r515_ofm_override : Z; r515_exec_inst : Z;
  r515_execution_mode : Z; r515_liquidity_flag : Z; r515_managed_order : Z;
  r515_short_sale_type : Z
}.

#[global] Instance OrderCancelReplaceRequest515_struct : WireStruct OrderCancelReplaceRequest515 := {
  ws_put m :=
    le_bytes 8 m.(r515_price).(mantissa) ++ le_bytes 4 m.(r515_order_qty) ++
    le_bytes 4 m.(r515_security_id) ++ le_bytes 1 m.(r515_side) ++ le_bytes 4 m.(r515_seq_num) ++
    m.(r515_sender_id) ++ m.(r515_cl_ord_id) ++ le_bytes 8 m.(r515_party_details_list_req_id) ++
    le_bytes 8 m.(r515_order_id) ++ le_bytes 8 m.(r515_stop_px).(mantissa) ++
    le_bytes 8 m.(r515_order_request_id) ++ le_bytes 8 m.(r515_sending_time_epoch) ++
    m.(r515_location) ++ le_bytes 4 m.(r515_min_qty) ++ le_bytes 4 m.(r515_display_qty) ++
    le_bytes 2 m.(r515_expire_date) ++ le_bytes 1 m.(r515_ord_type) ++
    le_bytes 1 m.(r515_time_in_force) ++ le_bytes 1 m.(r515_manual_order_indicator) ++
    le_bytes 1 m.(r515_ofm_override) ++ le_bytes 1 m.(r515_exec_inst) ++
    le_bytes 1 m.(r515_execution_mode) ++ le_bytes 1 m.(r515_liquidity_flag) ++
    le_bytes 1 m.(r515_managed_order) ++ le_bytes 1 m.(r515_short_sale_type) ++ [];
  ws_get :=
    price ← read_price9; order_qty ← read_uint 4; security_id ← read_int 4; side ← read_uint 1;
    seq_num ← read_uint 4; sender_id ← read_bytes 20; cl_ord_id ← read_bytes 20;
    party_details_list_req_id ← read_uint 8; order_id ← read_uint 8; stop_px ← read_price9;
    order_request_id ← read_uint 8; sending_time_epoch ← read_uint 8; location ← read_bytes 5;
    min_qty ← read_uint 4; display_qty ← read_uint 4; expire_date ← read_uint 2;
    ord_type ← read_uint 1; time_in_force ← read_uint 1; manual_order_indicator ← read_uint 1;
    ofm_override ← read_uint 1; exec_inst ← read_uint 1; execution_mode ← read_uint 1;
    liquidity_flag ← read_uint 1; managed_order ← read_uint 1; short_sale_type ← read_uint 1;
    mret (mkOrderCancelReplaceRequest515
      price order_qty security_id side seq_num sender_id cl_ord_id party_details_list_req_id
      order_id stop_px order_request_id sending_time_epoch location min_qty display_qty
      expire_date ord_type time_in_force manual_order_indicator ofm_override exec_inst
      execution_mode liquidity_flag managed_order short_sale_type);
  ws_size := 125;
  ws_fits m :=
    in_int64 m.(r515_price).(mantissa) ∧ in_uint32 m.(r515_order_qty) ∧
    in_int32 m.(r515_security_id) ∧ in_uint8 m.(r515_side) ∧ in_uint32 m.(r515_seq_num) ∧
    is_chars 20 m.(r515_sender_id) ∧ is_chars 20 m.(r515_cl_ord_id) ∧
    in_uint64 m.(r515_party_details_list_req_id) ∧ in_uint64 m.(r515_order_id) ∧
    in_int64 m.(r515_stop_px).(mantissa) ∧ in_uint64 m.(r515_order_request_id) ∧
    in_uint64 m.(r515_sending_time_epoch) ∧ is_chars 5 m.(r515_location) ∧
    in_uint32 m.(r515_min_qty) ∧ in_uint32 m.(r515_display_qty) ∧ in_uint16 m.(r515_expire_date) ∧
    in_uint8 m.(r515_ord_type) ∧ in_uint8 m.(r515_time_in_force) ∧
    in_uint8 m.(r515_manual_order_indicator) ∧ in_uint8 m.(r515_ofm_override) ∧
    in_uint8 m.(r515_exec_inst) ∧ in_uint8 m.(r515_execution_mode) ∧
    in_uint8 m.(r515_liquidity_flag) ∧ in_uint8 m.(r515_managed_order) ∧
    in_uint8 m.(r515_short_sale_type)
}.

Record OrderCancelRequest516 : Type := mkOrderCancelRequest516 {
  c516_order_id : Z; c516_party_details_list_req_id : Z; c516_manual_order_indicator : Z;
  c516_seq_num : Z; c516_sender_id : list Z; c516_cl_ord_id : list Z; c516_order_request_id : Z;
  c516_sending_time_epoch : Z; c516_location : list Z; c516_security_id : Z; c516_side : Z;
  c516_liquidity_flag : Z
}.

#[global] Instance OrderCancelRequest516_struct : WireStruct OrderCancelRequest516 := {
  ws_put m :=
    le_bytes 8 m.(c516_order_id) ++ le_bytes 8 m.(c516_party_details_list_req_id) ++
    le_bytes 1 m.(c516_manual_order_indicator) ++ le_bytes 4 m.(c516_seq_num) ++
    m.(c516_sender_id) ++ m.(c516_cl_ord_id) ++ le_bytes 8 m.(c516_order_request_id) ++
    le_bytes 8 m.(c516_sending_time_epoch) ++ m.(c516_location) ++
    le_bytes 4 m.(c516_security_id) ++ le_bytes 1 m.(c516_side) ++
    le_bytes 1 m.(c516_liquidity_flag) ++ [];
  ws_get :=
    order_id ← read_uint 8; party_details_list_req_id ← read_uint 8;
    manual_order_indicator ← read_uint 1; seq_num ← read_uint 4; sender_id ← read_bytes 20;
    cl_ord_id ← read_bytes 20; order_request_id ← read_uint 8; sending_time_epoch ← read_uint 8;
    location ← read_bytes 5; security_id ← read_int 4; side ← read_uint 1;
    liquidity_flag ← read_uint 1;
    mret (mkOrderCancelRequest516
      order_id party_details_list_req_id manual_order_indicator seq_num sender_id cl_ord_id
      order_request_id sending_time_epoch location security_id side liquidity_flag);
  ws_size := 88;
  ws_fits m :=
    in_uint64 m.(c516_order_id) ∧ in_uint64 m.(c516_party_details_list_req_id) ∧
    in_uint8 m.(c516_manual_order_indicator) ∧ in_uint32 m.(c516_seq_num) ∧
    is_chars 20 m.(c516_sender_id) ∧ is_chars 20 m.(c516_cl_ord_id) ∧
    in_uint64 m.(c516_order_request_id) ∧ in_uint64 m.(c516_sending_time_epoch) ∧
    is_chars 5 m.(c516_location) ∧ in_int32 m.(c516_security_id) ∧ in_uint8 m.(c516_side) ∧
    in_uint8 m.(c516_liquidity_flag)
}.

Record OrderMassActionRequest529 : Type := mkOrderMassActionRequest529 {
  m529_party_details_list_req_id : Z; m529_order_request_id : Z; m529_manual_order_indicator : Z;
  m529_seq_num : Z; m529_sender_id : list Z; m529_sending_time_epoch : Z;
  m529_security_group : list Z; m529_location : list Z; m529_security_id : Z;
  m529_mass_action_scope : Z; m529_market_segment_id : Z; m529_mass_cancel_request_type : Z;
  m529_side : Z; m529_ord_type : Z; m529_time_in_force : Z; m529_liquidity_flag : Z
}.

#[global] Instance OrderMassActionRequest529_struct : WireStruct OrderMassActionRequest529 := {
  ws_put m :=
    le_bytes 8 m.(m529_party_details_list_req_id) ++ le_bytes 8 m.(m529_order_request_id) ++
    le_bytes 1 m.(m529_manual_order_indicator) ++ le_bytes 4 m.(m529_seq_num) ++
    m.(m529_sender_id) ++ le_bytes 8 m.(m529_sending_time_epoch) ++ m.(m529_security_group) ++
    m.(m529_location) ++ le_bytes 4 m.(m529_security_id) ++
    le_bytes 1 m.(m529_mass_action_scope) ++ le_bytes 1 m.(m529_market_segment_id) ++
    le_bytes 1 m.(m529_mass_cancel_request_type) ++ le_bytes 1 m.(m529_side) ++
    le_bytes 1 m.(m529_ord_type) ++ le_bytes 1 m.(m529_time_in_force) ++
    le_bytes 1 m.(m529_liquidity_flag) ++ [];
  ws_get :=
    party_details_list_req_id ← read_uint 8; order_request_id ← read_uint 8;
    manual_order_indicator ← read_uint 1; seq_num ← read_uint 4; sender_id ← read_bytes 20;
    sending_time_epoch ← read_uint 8; security_group ← read_bytes 6; location ← read_bytes 5;
    security_id ← read_int 4; mass_action_scope ← read_uint 1; market_segment_id ← read_uint 1;
    mass_cancel_request_type ← read_uint 1; side ← read_uint 1; ord_type ← read_uint 1;
    time_in_force ← read_uint 1; liquidity_flag ← read_uint 1;
    mret (mkOrderMassActionRequest529
      party_details_list_req_id order_request_id manual_order_indicator seq_num sender_id
      sending_time_epoch security_group location security_id mass_action_scope market_segment_id
      mass_cancel_request_type side ord_type time_in_force liquidity_flag);
  ws_size := 71;
  ws_fits m :=
    in_uint64 m.(m529_party_details_list_req_id) ∧ in_uint64 m.(m529_order_request_id) ∧
    in_uint8 m.(m529_manual_order_indicator) ∧ in_uint32 m.(m529_seq_num) ∧
    is_chars 20 m.(m529_sender_id) ∧ in_uint64 m.(m529_sending_time_epoch) ∧
    is_chars 6 m.(m529_security_group) ∧ is_chars 5 m.(m529_location) ∧
    in_int32 m.(m529_security_id) ∧ in_uint8 m.(m529_mass_action_scope) ∧
    in_uint8 m.(m529_market_segment_id) ∧ in_uint8 m.(m529_mass_cancel_request_type) ∧
    in_uint8 m.(m529_side) ∧ in_uint8 m.(m529_ord_type) ∧ in_uint8 m.(m529_time_in_force) ∧
    in_uint8 m.(m529_liquidity_flag)
}.

Record ExecutionReportNew522 : Type := mkExecutionReportNew522 {
  e522_seq_num : Z; e522_uuid : Z; e522_exec_id : list Z; e522_sender_id : list Z;
  e522_cl_ord_id : list Z; e522_party_details_list_req_id : Z; e522_order_id : Z;
  e522_price : PRICE9; e522_stop_px : PRICE9; e522_transact_time : Z; e522_sending_time_epoch : Z;
  e522_order_request_id : Z; e522_cross_id : Z; e522_host_cross_id : Z; e522_location : list Z;
  e522_security_id : Z; e522_order_qty : Z; e522_min_qty : Z; e522_display_qty : Z;
  e522_expire_date : Z; e522_delay_duration : Z; e522_ord_type : Z; e522_side : Z;
  e522_time_in_force : Z; e522_manual_order_indicator : Z; e522_poss_retrans_flag : Z;
  e522_split_msg : Z; e522_cross_type : Z; e522_exec_inst : Z; e522_execution_mode : Z;
  e522_liquidity_flag : Z; e522_managed_order : Z; e522_short_sale_type : Z;
  e522_delay_to_time : Z
}.

#[global] Instance ExecutionReportNew522_struct : WireStruct ExecutionReportNew522 := {
  ws_put m :=
    le_bytes 4 m.(e522_seq_num) ++ le_bytes 8 m.(e522_uuid) ++ m.(e522_exec_id) ++
    m.(e522_sender_id) ++ m.(e522_cl_ord_id) ++ le_bytes 8 m.(e522_party_details_list_req_id) ++
    le_bytes 8 m.(e522_order_id) ++ le_bytes 8 m.(e522_price).(mantissa) ++
    le_bytes 8 m.(e522_stop_px).(mantissa) ++ le_bytes 8 m.(e522_transact_time) ++
    le_bytes 8 m.(e522_sending_time_epoch) ++ le_bytes 8 m.(e522_order_request_id) ++
    le_bytes 8 m.(e522_cross_id) ++ le_bytes 8 m.(e522_host_cross_id) ++ m.(e522_location) ++
    le_bytes 4 m.(e522_security_id) ++ le_bytes 4 m.(e522_order_qty) ++
    le_bytes 4 m.(e522_min_qty) ++ le_bytes 4 m.(e522_display_qty) ++
    le_bytes 2 m.(e522_expire_date) ++ le_bytes 2 m.(e522_delay_duration) ++
    le_bytes 1 m.(e522_ord_type) ++ le_bytes 1 m.(e522_side) ++
    le_bytes 1 m.(e522_time_in_force) ++ le_bytes 1 m.(e522_manual_order_indicator) ++
    le_bytes 1 m.(e522_poss_retrans_flag) ++ le_bytes 1 m.(e522_split_msg) ++
    le_bytes 1 m.(e522_cross_type) ++ le_bytes 1 m.(e522_exec_inst) ++
    le_bytes 1 m.(e522_execution_mode) ++ le_bytes 1 m.(e522_liquidity_flag) ++
    le_bytes 1 m.(e522_managed_order) ++ le_bytes 1 m.(e522_short_sale_type) ++
    le_bytes 8 m.(e522_delay_to_time) ++ [];
  ws_get :=
    seq_num ← read_uint 4; uuid ← read_uint 8; exec_id ← read_bytes 40; sender_id ← read_bytes 20;
    cl_ord_id ← read_bytes 20; party_details_list_req_id ← read_uint 8; order_id ← read_uint 8;
    price ← read_price9; stop_px ← read_price9; transact_time ← read_uint 8;
    sending_time_epoch ← read_uint 8; order_request_id ← read_uint 8; cross_id ← read_uint 8;
    host_cross_id ← read_uint 8; location ← read_bytes 5; security_id ← read_int 4;
    order_qty ← read_uint 4; min_qty ← read_uint 4; display_qty ← read_uint 4;
    expire_date ← read_uint 2; delay_duration ← read_uint 2; ord_type ← read_uint 1;
    side ← read_uint 1; time_in_force ← read_uint 1; manual_order_indicator ← read_uint 1;
    poss_retrans_flag ← read_uint 1; split_msg ← read_uint 1; cross_type ← read_uint 1;
    exec_inst ← read_uint 1; execution_mode ← read_uint 1; liquidity_flag ← read_uint 1;
    managed_order ← read_uint 1; short_sale_type ← read_uint 1; delay_to_time ← read_uint 8;
    mret (mkExecutionReportNew522
      seq_num uuid exec_id sender_id cl_ord_id party_details_list_req_id order_id price stop_px
      transact_time sending_time_epoch order_request_id cross_id host_cross_id location
      security_id order_qty min_qty display_qty expire_date delay_duration ord_type side
      time_in_force manual_order_indicator poss_retrans_flag split_msg cross_type exec_inst
      execution_mode liquidity_flag managed_order short_sale_type delay_to_time);
  ws_size := 209;
  ws_fits m :=
    in_uint32 m.(e522_seq_num) ∧ in_uint64 m.(e522_uuid) ∧ is_chars 40 m.(e522_exec_id) ∧
    is_chars 20 m.(e522_sender_id) ∧ is_chars 20 m.(e522_cl_ord_id) ∧
    in_uint64 m.(e522_party_details_list_req_id) ∧ in_uint64 m.(e522_order_id) ∧
    in_int64 m.(e522_price).(mantissa) ∧ in_int64 m.(e522_stop_px).(mantissa) ∧
    in_uint64 m.(e522_transact_time) ∧ in_uint64 m.(e522_sending_time_epoch) ∧
    in_uint64 m.(e522_order_request_id) ∧ in_uint64 m.(e522_cross_id) ∧
    in_uint64 m.(e522_host_cross_id) ∧ is_chars 5 m.(e522_location) ∧
    in_int32 m.(e522_security_id) ∧ in_uint32 m.(e522_order_qty) ∧ in_uint32 m.(e522_min_qty) ∧
    in_uint32 m.(e522_display_qty) ∧ in_uint16 m.(e522_expire_date) ∧
    in_uint16 m.(e522_delay_duration) ∧ in_uint8 m.(e522_ord_type) ∧ in_uint8 m.(e522_side) ∧
    in_uint8 m.(e522_time_in_force) ∧ in_uint8 m.(e522_manual_order_indicator) ∧
    in_uint8 m.(e522_poss_retrans_flag) ∧ in_uint8 m.(e522_split_msg) ∧
    in_uint8 m.(e522_cross_type) ∧ in_uint8 m.(e522_exec_inst) ∧
    in_uint8 m.(e522_execution_mode) ∧ in_uint8 m.(e522_liquidity_flag) ∧
    in_uint8 m.(e522_managed_order) ∧ in_uint8 m.(e522_short_sale_type) ∧
    in_uint64 m.(e522_delay_to_time)
}.

Record ExecutionReportReject523 : Type := mkExecutionReportReject523 {
  e523_seq_num : Z; e523_uuid : Z; e523_text : list Z; e523_exec_id : list Z;
  e523_sender_id : list Z; e523_cl_ord_id : list Z; e523_party_details_list_req_id : Z;
  e523_order_id : Z; e523_price : PRICE9; e523_stop_px : PRICE9; e523_transact_time : Z;
  e523_sending_time_epoch : Z; e523_order_request_id : Z; e523_cross_id : Z;
  e523_host_cross_id : Z; e523_location : list Z; e523_security_id : Z; e523_order_qty : Z;
  e523_min_qty : Z; e523_display_qty : Z; e523_ord_rej_reason : Z; e523_expire_date : Z;
  e523_delay_duration : Z; e523_ord_type : Z; e523_side : Z; e523_time_in_force : Z;
  e523_manual_order_indicator : Z; e523_poss_retrans_flag : Z; e523_split_msg : Z;
  e523_cross_type : Z; e523_exec_inst : Z; e523_execution_mode : Z; e523_liquidity_flag : Z;
  e523_managed_order : Z; e523_short_sale_type : Z; e523_delay_to_time : Z
}.

#[global] Instance ExecutionReportReject523_struct : WireStruct ExecutionReportReject523 := {
  ws_put m :=
    le_bytes 4 m.(e523_seq_num) ++ le_bytes 8 m.(e523_uuid) ++ m.(e523_text) ++
    m.(e523_exec_id) ++ m.(e523_sender_id) ++ m.(e523_cl_ord_id) ++
    le_bytes 8 m.(e523_party_details_list_req_id) ++ le_bytes 8 m.(e523_order_id) ++
    le_bytes 8 m.(e523_price).(mantissa) ++ le_bytes 8 m.(e523_stop_px).(mantissa) ++
    le_bytes 8 m.(e523_transact_time) ++ le_bytes 8 m.(e523_sending_time_epoch) ++
    le_bytes 8 m.(e523_order_request_id) ++ le_bytes 8 m.(e523_cross_id) ++
    le_bytes 8 m.(e523_host_cross_id) ++ m.(e523_location) ++ le_bytes 4 m.(e523_security_id) ++
    le_bytes 4 m.(e523_order_qty) ++ le_bytes 4 m.(e523_min_qty) ++
    le_bytes 4 m.(e523_display_qty) ++ le_bytes 2 m.(e523_ord_rej_reason) ++
    le_bytes 2 m.(e523_expire_date) ++ le_bytes 2 m.(e523_delay_duration) ++
    le_bytes 1 m.(e523_ord_type) ++ le_bytes 1 m.(e523_side) ++
    le_bytes 1 m.(e523_time_in_force) ++ le_bytes 1 m.(e523_manual_order_indicator) ++
    le_bytes 1 m.(e523_poss_retrans_flag) ++ le_bytes 1 m.(e523_split_msg) ++
    le_bytes 1 m.(e523_cross_type) ++ le_bytes 1 m.(e523_exec_inst) ++
    le_bytes 1 m.(e523_execution_mode) ++ le_bytes 1 m.(e523_liquidity_flag) ++
    le_bytes 1 m.(e523_managed_order) ++ le_bytes 1 m.(e523_short_sale_type) ++
    le_bytes 8 m.(e523_delay_to_time) ++ [];
  ws_get :=
    seq_num ← read_uint 4; uuid ← read_uint 8; text ← read_bytes 256; exec_id ← read_bytes 40;
    sender_id ← read_bytes 20; cl_ord_id ← read_bytes 20; party_details_list_req_id ← read_uint 8;
    order_id ← read_uint 8; price ← read_price9; stop_px ← read_price9;
    transact_time ← read_uint 8; sending_time_epoch ← read_uint 8; order_request_id ← read_uint 8;
    cross_id ← read_uint 8; host_cross_id ← read_uint 8; location ← read_bytes 5;
    security_id ← read_int 4; order_qty ← read_uint 4; min_qty ← read_uint 4;
    display_qty ← read_uint 4; ord_rej_reason ← read_uint 2; expire_date ← read_uint 2;
    delay_duration ← read_uint 2; ord_type ← read_uint 1; side ← read_uint 1;
    time_in_force ← read_uint 1; manual_order_indicator ← read_uint 1;
    poss_retrans_flag ← read_uint 1; split_msg ← read_uint 1; cross_type ← read_uint 1;
    exec_inst ← read_uint 1; execution_mode ← read_uint 1; liquidity_flag ← read_uint 1;
    managed_order ← read_uint 1; short_sale_type ← read_uint 1; delay_to_time ← read_uint 8;
    mret (mkExecutionReportReject523
      seq_num uuid text exec_id sender_id cl_ord_id party_details_list_req_id order_id price
      stop_px transact_time sending_time_epoch order_request_id cross_id host_cross_id location
      security_id order_qty min_qty display_qty ord_rej_reason expire_date delay_duration ord_type
      side time_in_force manual_order_indicator poss_retrans_flag split_msg cross_type exec_inst
      execution_mode liquidity_flag managed_order short_sale_type delay_to_time);
  ws_size := 467;
  ws_fits m :=
    in_uint32 m.(e523_seq_num) ∧ in_uint64 m.(e523_uuid) ∧ is_chars 256 m.(e523_text) ∧
    is_chars 40 m.(e523_exec_id) ∧ is_chars 20 m.(e523_sender_id) ∧
    is_chars 20 m.(e523_cl_ord_id) ∧ in_uint64 m.(e523_party_details_list_req_id) ∧
    in_uint64 m.(e523_order_id) ∧ in_int64 m.(e523_price).(mantissa) ∧
    in_int64 m.(e523_stop_px).(mantissa) ∧ in_uint64 m.(e523_transact_time) ∧
    in_uint64 m.(e523_sending_time_epoch) ∧ in_uint64 m.(e523_order_request_id) ∧
    in_uint64 m.(e523_cross_id) ∧ in_uint64 m.(e523_host_cross_id) ∧
    is_chars 5 m.(e523_location) ∧ in_int32 m.(e523_security_id) ∧ in_uint32 m.(e523_order_qty) ∧
    in_uint32 m.(e523_min_qty) ∧ in_uint32 m.(e523_display_qty) ∧
    in_uint16 m.(e523_ord_rej_reason) ∧ in_uint16 m.(e523_expire_date) ∧
    in_uint16 m.(e523_delay_duration) ∧ in_uint8 m.(e523_ord_type) ∧ in_uint8 m.(e523_side) ∧
    in_uint8 m.(e523_time_in_force) ∧ in_uint8 m.(e523_manual_order_indicator) ∧
    in_uint8 m.(e523_poss_retrans_flag) ∧ in_uint8 m.(e523_split_msg) ∧
    in_uint8 m.(e523_cross_type) ∧ in_uint8 m.(e523_exec_inst) ∧
    in_uint8 m.(e523_execution_mode) ∧ in_uint8 m.(e523_liquidity_flag) ∧
    in_uint8 m.(e523_managed_order) ∧ in_uint8 m.(e523_short_sale_type) ∧
    in_uint64 m.(e523_delay_to_time)
}.

Record ExecutionReportTradeOutright525 : Type := mkExecutionReportTradeOutright525 {
  e525_seq_num : Z; e525_uuid : Z; e525_exec_id : list Z; e525_sender_id : list Z;
  e525_cl_ord_id : list Z; e525_party_details_list_req_id : Z; e525_last_px : PRICE9;
  e525_order_id : Z; e525_price : PRICE9; e525_stop_px : PRICE9; e525_transact_time : Z;
  e525_sending_time_epoch : Z; e525_order_request_id : Z; e525_sec_exec_id : Z; e525_cross_id : Z;
  e525_host_cross_id : Z; e525_location : list Z; e525_security_id : Z; e525_order_qty : Z;
  e525_last_qty : Z; e525_cum_qty : Z; e525_md_trade_entry_id : Z; e525_side_trade_id : Z;
  e525_trade_link_id : Z; e525_leaves_qty : Z; e525_trade_date : Z; e525_expire_date : Z;
  e525_ord_status : Z; e525_ord_type : Z; e525_side : Z; e525_time_in_force : Z;
  e525_manual_order_indicator : Z; e525_poss_retrans_flag : Z; e525_aggressor_indicator : Z;
  e525_cross_type : Z; e525_exec_inst : Z; e525_execution_mode : Z; e525_liquidity_flag : Z;
  e525_managed_order : Z; e525_short_sale_type : Z; e525_ownership : Z
}.

#[global] Instance ExecutionReportTradeOutright525_struct : WireStruct ExecutionReportTradeOutright525 := {
  ws_put m :=
    le_bytes 4 m.(e525_seq_num) ++ le_bytes 8 m.(e525_uuid) ++ m.(e525_exec_id) ++
    m.(e525_sender_id) ++ m.(e525_cl_ord_id) ++ le_bytes 8 m.(e525_party_details_list_req_id) ++
    le_bytes 8 m.(e525_last_px).(mantissa) ++ le_bytes 8 m.(e525_order_id) ++
    le_bytes 8 m.(e525_price).(mantissa) ++ le_bytes 8 m.(e525_stop_px).(mantissa) ++
    le_bytes 8 m.(e525_transact_time) ++ le_bytes 8 m.(e525_sending_time_epoch) ++
    le_bytes 8 m.(e525_order_request_id) ++ le_bytes 8 m.(e525_sec_exec_id) ++
    le_bytes 8 m.(e525_cross_id) ++ le_bytes 8 m.(e525_host_cross_id) ++ m.(e525_location) ++
    le_bytes 4 m.(e525_security_id) ++ le_bytes 4 m.(e525_order_qty) ++
    le_bytes 4 m.(e525_last_qty) ++ le_bytes 4 m.(e525_cum_qty) ++
    le_bytes 4 m.(e525_md_trade_entry_id) ++ le_bytes 4 m.(e525_side_trade_id) ++
    le_bytes 4 m.(e525_trade_link_id) ++ le_bytes 4 m.(e525_leaves_qty) ++
    le_bytes 2 m.(e525_trade_date) ++ le_bytes 2 m.(e525_expire_date) ++
    le_bytes 1 m.(e525_ord_status) ++ le_bytes 1 m.(e525_ord_type) ++ le_bytes 1 m.(e525_side) ++
    le_bytes 1 m.(e525_time_in_force) ++ le_bytes 1 m.(e525_manual_order_indicator) ++
    le_bytes 1 m.(e525_poss_retrans_flag) ++ le_bytes 1 m.(e525_aggressor_indicator) ++
    le_bytes 1 m.(e525_cross_type) ++ le_bytes 1 m.(e525_exec_inst) ++
    le_bytes 1 m.(e525_execution_mode) ++ le_bytes 1 m.(e525_liquidity_flag) ++
    le_bytes 1 m.(e525_managed_order) ++ le_bytes 1 m.(e525_short_sale_type) ++
    le_bytes 1 m.(e525_ownership) ++ [];
  ws_get :=
    seq_num ← read_uint 4; uuid ← read_uint 8; exec_id ← read_bytes 40; sender_id ← read_bytes 20;
    cl_ord_id ← read_bytes 20; party_details_list_req_id ← read_uint 8; last_px ← read_price9;
    order_id ← read_uint 8; price ← read_price9; stop_px ← read_price9;
    transact_time ← read_uint 8; sending_time_epoch ← read_uint 8; order_request_id ← read_uint 8;
    sec_exec_id ← read_uint 8; cross_id ← read_uint 8; host_cross_id ← read_uint 8;
    location ← read_bytes 5; security_id ← read_int 4; order_qty ← read_uint 4;
    last_qty ← read_uint 4; cum_qty ← read_uint 4; md_trade_entry_id ← read_uint 4;
    side_trade_id ← read_uint 4; trade_link_id ← read_uint 4; leaves_qty ← read_uint 4;
    trade_date ← read_uint 2; expire_date ← read_uint 2; ord_status ← read_uint 1;
    ord_type ← read_uint 1; side ← read_uint 1; time_in_force ← read_uint 1;
    manual_order_indicator ← read_uint 1; poss_retrans_flag ← read_uint 1;
    aggressor_indicator ← read_uint 1; cross_type ← read_uint 1; exec_inst ← read_uint 1;
    execution_mode ← read_uint 1; liquidity_flag ← read_uint 1; managed_order ← read_uint 1;
    short_sale_type ← read_uint 1; ownership ← read_uint 1;
    mret (mkExecutionReportTradeOutright525
      seq_num uuid exec_id sender_id cl_ord_id party_details_list_req_id last_px order_id price
      stop_px transact_time sending_time_epoch order_request_id sec_exec_id cross_id host_cross_id
      location security_id order_qty last_qty cum_qty md_trade_entry_id side_trade_id
      trade_link_id leaves_qty trade_date expire_date ord_status ord_type side time_in_force
      manual_order_indicator poss_retrans_flag aggressor_indicator cross_type exec_inst
      execution_mode liquidity_flag managed_order short_sale_type ownership);
  ws_size := 235;
  ws_fits m :=
    in_uint32 m.(e525_seq_num) ∧ in_uint64 m.(e525_uuid) ∧ is_chars 40 m.(e525_exec_id) ∧
    is_chars 20 m.(e525_sender_id) ∧ is_chars 20 m.(e525_cl_ord_id) ∧
    in_uint64 m.(e525_party_details_list_req_id) ∧ in_int64 m.(e525_last_px).(mantissa) ∧
    in_uint64 m.(e525_order_id) ∧ in_int64 m.(e525_price).(mantissa) ∧
    in_int64 m.(e525_stop_px).(mantissa) ∧ in_uint64 m.(e525_transact_time) ∧
    in_uint64 m.(e525_sending_time_epoch) ∧ in_uint64 m.(e525_order_request_id) ∧
    in_uint64 m.(e525_sec_exec_id) ∧ in_uint64 m.(e525_cross_id) ∧
    in_uint64 m.(e525_host_cross_id) ∧ is_chars 5 m.(e525_location) ∧
    in_int32 m.(e525_security_id) ∧ in_uint32 m.(e525_order_qty) ∧ in_uint32 m.(e525_last_qty) ∧
    in_uint32 m.(e525_cum_qty) ∧ in_uint32 m.(e525_md_trade_entry_id) ∧
    in_uint32 m.(e525_side_trade_id) ∧ in_uint32 m.(e525_trade_link_id) ∧
    in_uint32 m.(e525_leaves_qty) ∧ in_uint16 m.(e525_trade_date) ∧
    in_uint16 m.(e525_expire_date) ∧ in_uint8 m.(e525_ord_status) ∧ in_uint8 m.(e525_ord_type) ∧
    in_uint8 m.(e525_side) ∧ in_uint8 m.(e525_time_in_force) ∧
    in_uint8 m.(e525_manual_order_indicator) ∧ in_uint8 m.(e525_poss_retrans_flag) ∧
    in_uint8 m.(e525_aggressor_indicator) ∧ in_uint8 m.(e525_cross_type) ∧
    in_uint8 m.(e525_exec_inst) ∧ in_uint8 m.(e525_execution_mode) ∧
    in_uint8 m.(e525_liquidity_flag) ∧ in_uint8 m.(e525_managed_order) ∧
    in_uint8 m.(e525_short_sale_type) ∧ in_uint8 m.(e525_ownership)
}.

Record FillEntry : Type := mkFillEntry {
  fe_fill_px : PRICE9; fe_fill_qty : Z; fe_fill_exec_id : list Z; fe_fill_yield_type : Z
}.

#[global] Instance FillEntry_struct : WireStruct FillEntry := {
  ws_put m :=
    le_bytes 8 m.(fe_fill_px).(mantissa) ++ le_bytes 4 m.(fe_fill_qty) ++ m.(fe_fill_exec_id) ++
    le_bytes 1 m.(fe_fill_yield_type) ++ [];
  ws_get :=
    fill_px ← read_price9; fill_qty ← read_uint 4; fill_exec_id ← read_bytes 2;
    fill_yield_type ← read_uint 1;
    mret (mkFillEntry
      fill_px fill_qty fill_exec_id fill_yield_type);
  ws_size := 15;
  ws_fits m :=
    in_int64 m.(fe_fill_px).(mantissa) ∧ in_uint32 m.(fe_fill_qty) ∧
    is_chars 2 m.(fe_fill_exec_id) ∧ in_uint8 m.(fe_fill_yield_type)
}.

Record OrderEventEntry : Type := mkOrderEventEntry {
  oe_order_event_px : PRICE9; oe_order_event_text : list Z; oe_order_event_exec_id : Z;
  oe_order_event_qty : Z; oe_order_event_type : Z; oe_order_event_reason : Z
}.

#[global] Instance OrderEventEntry_struct : WireStruct OrderEventEntry := {
  ws_put m :=
    le_bytes 8 m.(oe_order_event_px).(mantissa) ++ m.(oe_order_event_text) ++
    le_bytes 4 m.(oe_order_event_exec_id) ++ le_bytes 4 m.(oe_order_event_qty) ++
    le_bytes 1 m.(oe_order_event_type) ++ le_bytes 1 m.(oe_order_event_reason) ++ [];
  ws_get :=
    order_event_px ← read_price9; order_event_text ← read_bytes 5;
    order_event_exec_id ← read_uint 4; order_event_qty ← read_uint 4;
    order_event_type ← read_uint 1; order_event_reason ← read_uint 1;
    mret (mkOrderEventEntry
      order_event_px order_event_text order_event_exec_id order_event_qty order_event_type
      order_event_reason);
  ws_size := 23;
  ws_fits m :=
    in_int64 m.(oe_order_event_px).(mantissa) ∧ is_chars 5 m.(oe_order_event_text) ∧
    in_uint32 m.(oe_order_event_exec_id) ∧ in_uint32 m.(oe_order_event_qty) ∧
    in_uint8 m.(oe_order_event_type) ∧ in_uint8 m.(oe_order_event_reason)
}.

Record ExecutionReportCancel534 : Type := mkExecutionReportCancel534 {
  e534_seq_num : Z; e534_uuid : Z; e534_exec_id : list Z; e534_sender_id : list Z;
  e534_cl_ord_id : list Z; e534_party_details_list_req_id : Z; e534_order_id : Z;
  e534_price : PRICE9; e534_stop_px : PRICE9; e534_transact_time : Z; e534_sending_time_epoch : Z;
  e534_order_request_id : Z; e534_cross_id : Z; e534_host_cross_id : Z; e534_location : list Z;
  e534_security_id : Z; e534_order_qty : Z; e534_cum_qty : Z; e534_min_qty : Z;
  e534_display_qty : Z; e534_expire_date : Z; e534_delay_duration : Z; e534_ord_type : Z;
  e534_side : Z; e534_time_in_force : Z; e534_manual_order_indicator : Z;
  e534_poss_retrans_flag : Z; e534_split_msg : Z; e534_exec_restatement_reason : Z;
  e534_cross_type : Z; e534_exec_inst : Z; e534_execution_mode : Z; e534_liquidity_flag : Z;
  e534_managed_order : Z; e534_short_sale_type : Z; e534_delay_to_time : Z
}.

#[global] Instance ExecutionReportCancel534_struct : WireStruct ExecutionReportCancel534 := {
  ws_put m :=
    le_bytes 4 m.(e534_seq_num) ++ le_bytes 8 m.(e534_uuid) ++ m.(e534_exec_id) ++
    m.(e534_sender_id) ++ m.(e534_cl_ord_id) ++ le_bytes 8 m.(e534_party_details_list_req_id) ++
    le_bytes 8 m.(e534_order_id) ++ le_bytes 8 m.(e534_price).(mantissa) ++
    le_bytes 8 m.(e534_stop_px).(mantissa) ++ le_bytes 8 m.(e534_transact_time) ++
    le_bytes 8 m.(e534_sending_time_epoch) ++ le_bytes 8 m.(e534_order_request_id) ++
    le_bytes 8 m.(e534_cross_id) ++ le_bytes 8 m.(e534_host_cross_id) ++ m.(e534_location) ++
    le_bytes 4 m.(e534_security_id) ++ le_bytes 4 m.(e534_order_qty) ++
    le_bytes 4 m.(e534_cum_qty) ++ le_bytes 4 m.(e534_min_qty) ++
    le_bytes 4 m.(e534_display_qty) ++ le_bytes 2 m.(e534_expire_date) ++
    le_bytes 2 m.(e534_delay_duration) ++ le_bytes 1 m.(e534_ord_type) ++
    le_bytes 1 m.(e534_side) ++ le_bytes 1 m.(e534_time_in_force) ++
    le_bytes 1 m.(e534_manual_order_indicator) ++ le_bytes 1 m.(e534_poss_retrans_flag) ++
    le_bytes 1 m.(e534_split_msg) ++ le_bytes 1 m.(e534_exec_restatement_reason) ++
    le_bytes 1 m.(e534_cross_type) ++ le_bytes 1 m.(e534_exec_inst) ++
    le_bytes 1 m.(e534_execution_mode) ++ le_bytes 1 m.(e534_liquidity_flag) ++
    le_bytes 1 m.(e534_managed_order) ++ le_bytes 1 m.(e534_short_sale_type) ++
    le_bytes 8 m.(e534_delay_to_time) ++ [];
  ws_get :=
    seq_num ← read_uint 4; uuid ← read_uint 8; exec_id ← read_bytes 40; sender_id ← read_bytes 20;
    cl_ord_id ← read_bytes 20; party_details_list_req_id ← read_uint 8; order_id ← read_uint 8;
    price ← read_price9; stop_px ← read_price9; transact_time ← read_uint 8;
    sending_time_epoch ← read_uint 8; order_request_id ← read_uint 8; cross_id ← read_uint 8;
    host_cross_id ← read_uint 8; location ← read_bytes 5; security_id ← read_int 4;
    order_qty ← read_uint 4; cum_qty ← read_uint 4; min_qty ← read_uint 4;
    display_qty ← read_uint 4; expire_date ← read_uint 2; delay_duration ← read_uint 2;
    ord_type ← read_uint 1; side ← read_uint 1; time_in_force ← read_uint 1;
    manual_order_indicator ← read_uint 1; poss_retrans_flag ← read_uint 1;
    split_msg ← read_uint 1; exec_restatement_reason ← read_uint 1; cross_type ← read_uint 1;
    exec_inst ← read_uint 1; execution_mode ← read_uint 1; liquidity_flag ← read_uint 1;
    managed_order ← read_uint 1; short_sale_type ← read_uint 1; delay_to_time ← read_uint 8;
    mret (mkExecutionReportCancel534
      seq_num uuid exec_id sender_id cl_ord_id party_details_list_req_id order_id price stop_px
      transact_time sending_time_epoch order_request_id cross_id host_cross_id location
      security_id order_qty cum_qty min_qty display_qty expire_date delay_duration ord_type side
      time_in_force manual_order_indicator poss_retrans_flag split_msg exec_restatement_reason
      cross_type exec_inst execution_mode liquidity_flag managed_order short_sale_type
      delay_to_time);
  ws_size := 214;
  ws_fits m :=
    in_uint32 m.(e534_seq_num) ∧ in_uint64 m.(e534_uuid) ∧ is_chars 40 m.(e534_exec_id) ∧
    is_chars 20 m.(e534_sender_id) ∧ is_chars 20 m.(e534_cl_ord_id) ∧
    in_uint64 m.(e534_party_details_list_req_id) ∧ in_uint64 m.(e534_order_id) ∧
    in_int64 m.(e534_price).(mantissa) ∧ in_int64 m.(e534_stop_px).(mantissa) ∧
    in_uint64 m.(e534_transact_time) ∧ in_uint64 m.(e534_sending_time_epoch) ∧
    in_uint64 m.(e534_order_request_id) ∧ in_uint64 m.(e534_cross_id) ∧
    in_uint64 m.(e534_host_cross_id) ∧ is_chars 5 m.(e534_location) ∧
    in_int32 m.(e534_security_id) ∧ in_uint32 m.(e534_order_qty) ∧ in_uint32 m.(e534_cum_qty) ∧
    in_uint32 m.(e534_min_qty) ∧ in_uint32 m.(e534_display_qty) ∧ in_uint16 m.(e534_expire_date) ∧
    in_uint16 m.(e534_delay_duration) ∧ in_uint8 m.(e534_ord_type) ∧ in_uint8 m.(e534_side) ∧
    in_uint8 m.(e534_time_in_force) ∧ in_uint8 m.(e534_manual_order_indicator) ∧
    in_uint8 m.(e534_poss_retrans_flag) ∧ in_uint8 m.(e534_split_msg) ∧
    in_uint8 m.(e534_exec_restatement_reason) ∧ in_uint8 m.(e534_cross_type) ∧
    in_uint8 m.(e534_exec_inst) ∧ in_uint8 m.(e534_execution_mode) ∧
    in_uint8 m.(e534_liquidity_flag) ∧ in_uint8 m.(e534_managed_order) ∧
    in_uint8 m.(e534_short_sale_type) ∧ in_uint64 m.(e534_delay_to_time)
}.

Record OrderCancelReject535 : Type := mkOrderCancelReject535 {
  x535_seq_num : Z; x535_uuid : Z; x535_text : list Z; x535_exec_id : list Z;
  x535_sender_id : list Z; x535_cl_ord_id : list Z; x535_party_details_list_req_id : Z;
  x535_order_id : Z; x535_transact_time : Z; x535_sending_time_epoch : Z;
  x535_order_request_id : Z; x535_location : list Z; x535_cxl_rej_reason : Z;
  x535_delay_duration : Z; x535_manual_order_indicator : Z; x535_poss_retrans_flag : Z;
  x535_split_msg : Z; x535_liquidity_flag : Z; x535_delay_to_time : Z
}.

#[global] Instance OrderCancelReject535_struct : WireStruct OrderCancelReject535 := {
  ws_put m :=
    le_bytes 4 m.(x535_seq_num) ++ le_bytes 8 m.(x535_uuid) ++ m.(x535_text) ++
    m.(x535_exec_id) ++ m.(x535_sender_id) ++ m.(x535_cl_ord_id) ++
    le_bytes 8 m.(x535_party_details_list_req_id) ++ le_bytes 8 m.(x535_order_id) ++
    le_bytes 8 m.(x535_transact_time) ++ le_bytes 8 m.(x535_sending_time_epoch) ++
    le_bytes 8 m.(x535_order_request_id) ++ m.(x535_location) ++
    le_bytes 2 m.(x535_cxl_rej_reason) ++ le_bytes 2 m.(x535_delay_duration) ++
    le_bytes 1 m.(x535_manual_order_indicator) ++ le_bytes 1 m.(x535_poss_retrans_flag) ++
    le_bytes 1 m.(x535_split_msg) ++ le_bytes 1 m.(x535_liquidity_flag) ++
    le_bytes 8 m.(x535_delay_to_time) ++ [];
  ws_get :=
    seq_num ← read_uint 4; uuid ← read_uint 8; text ← read_bytes 256; exec_id ← read_bytes 40;
    sender_id ← read_bytes 20; cl_ord_id ← read_bytes 20; party_details_list_req_id ← read_uint 8;
    order_id ← read_uint 8; transact_time ← read_uint 8; sending_time_epoch ← read_uint 8;
    order_request_id ← read_uint 8; location ← read_bytes 5; cxl_rej_reason ← read_uint 2;
    delay_duration ← read_uint 2; manual_order_indicator ← read_uint 1;
    poss_retrans_flag ← read_uint 1; split_msg ← read_uint 1; liquidity_flag ← read_uint 1;
    delay_to_time ← read_uint 8;
    mret (mkOrderCancelReject535
      seq_num uuid text exec_id sender_id cl_ord_id party_details_list_req_id order_id
      transact_time sending_time_epoch order_request_id location cxl_rej_reason delay_duration
      manual_order_indicator poss_retrans_flag split_msg liquidity_flag delay_to_time);
  ws_size := 409;
  ws_fits m :=
    in_uint32 m.(x535_seq_num) ∧ in_uint64 m.(x535_uuid) ∧ is_chars 256 m.(x535_text) ∧
    is_chars 40 m.(x535_exec_id) ∧ is_chars 20 m.(x535_sender_id) ∧
    is_chars 20 m.(x535_cl_ord_id) ∧ in_uint64 m.(x535_party_details_list_req_id) ∧
    in_uint64 m.(x535_order_id) ∧ in_uint64 m.(x535_transact_time) ∧
    in_uint64 m.(x535_sending_time_epoch) ∧ in_uint64 m.(x535_order_request_id) ∧
    is_chars 5 m.(x535_location) ∧ in_uint16 m.(x535_cxl_rej_reason) ∧
    in_uint16 m.(x535_delay_duration) ∧ in_uint8 m.(x535_manual_order_indicator) ∧
    in_uint8 m.(x535_poss_retrans_flag) ∧ in_uint8 m.(x535_split_msg) ∧
    in_uint8 m.(x535_liquidity_flag) ∧ in_uint64 m.(x535_delay_to_time)
}.

(** ** Templates *)

#[global] Instance NewOrderSingle514_template : Template NewOrderSingle514 := 514.
#[global] Instance OrderCancelReplaceRequest515_template : Template OrderCancelReplaceRequest515 := 515.
#[global] Instance OrderCancelRequest516_template : Template OrderCancelRequest516 := 516.
#[global] Instance OrderMassActionRequest529_template : Template OrderMassActionRequest529 := 529.
#[global] Instance ExecutionReportNew522_template : Template ExecutionReportNew522 := 522.
#[global] Instance ExecutionReportReject523_template : Template ExecutionReportReject523 := 523.
#[global] Instance ExecutionReportTradeOutright525_template : Template ExecutionReportTradeOutright525 := 525.
#[global] Instance ExecutionReportCancel534_template : Template ExecutionReportCancel534 := 534.
#[global] Instance OrderCancelReject535_template : Template OrderCancelReject535 := 535.

(** [make_header]: [BLOCK_LENGTH] is the size of the struct (the [static_assert]s). *)
Definition make_header (A : Type) `{Template A} : MessageHeader :=
  mkMessageHeader (Z.of_nat (ws_size (A := A))) template_id_of ILINK3_SCHEMA_ID ILINK3_VERSION.

(** ** Laws of the layouts *)

#[global] Instance FillEntry_ok : WireStructOk FillEntry.
Proof. struct_ok FillEntry_struct. Qed.
#[global] Instance NewOrderSingle514_ok : WireStructOk NewOrderSingle514.
Proof. struct_ok NewOrderSingle514_struct. Qed.
#[global] Instance OrderCancelReplaceRequest515_ok : WireStructOk OrderCancelReplaceRequest515.
Proof. struct_ok OrderCancelReplaceRequest515_struct. Qed.
#[global] Instance OrderCancelRequest516_ok : WireStructOk OrderCancelRequest516.
Proof. struct_ok OrderCancelRequest516_struct. Qed.
#[global] Instance OrderMassActionRequest529_ok : WireStructOk OrderMassActionRequest529.
Proof. struct_ok OrderMassActionRequest529_struct. Qed.
#[global] Instance ExecutionReportNew522_ok : WireStructOk ExecutionReportNew522.
Proof. struct_ok ExecutionReportNew522_struct. Qed.
#[global] Instance ExecutionReportReject523_ok : WireStructOk ExecutionReportReject523.
Proof. struct_ok ExecutionReportReject523_struct. Qed.
#[global] Instance ExecutionReportTradeOutright525_ok : WireStructOk ExecutionReportTradeOutright525.
Proof. struct_ok ExecutionReportTradeOutright525_struct. Qed.
#[global] Instance ExecutionReportCancel534_ok : WireStructOk ExecutionReportCancel534.
Proof. struct_ok ExecutionReportCancel534_struct. Qed.
#[global] Instance OrderCancelReject535_ok : WireStructOk OrderCancelReject535.
Proof. struct_ok OrderCancelReject535_struct. Qed.
#[global] Instance FillEntry_reads : WireStructReads FillEntry.
Proof. struct_reads. Qed.
#[global] Instance NewOrderSingle514_reads : WireStructReads NewOrderSingle514.
Proof. struct_reads. Qed.
#[global] Instance OrderCancelReplaceRequest515_reads : WireStructReads OrderCancelReplaceRequest515.
Proof. struct_reads. Qed.
#[global] Instance OrderCancelRequest516_reads : WireStructReads OrderCancelRequest516.
Proof. struct_reads. Qed.
#[global] Instance OrderMassActionRequest529_reads : WireStructReads OrderMassActionRequest529.
Proof. struct_reads. Qed.
#[global] Instance ExecutionReportNew522_reads : WireStructReads ExecutionReportNew522.
Proof. struct_reads. Qed.
#[global] Instance ExecutionReportReject523_reads : WireStructReads ExecutionReportReject523.
Proof. struct_reads. Qed.
#[global] Instance ExecutionReportTradeOutright525_reads : WireStructReads ExecutionReportTradeOutright525.
Proof. struct_reads. Qed.
#[global] Instance ExecutionReportCancel534_reads : WireStructReads ExecutionReportCancel534.
Proof. struct_reads. Qed.
#[global] Instance OrderCancelReject535_reads : WireStructReads OrderCancelReject535.
Proof. struct_reads. Qed.
