(* ===== verification/ILink3.v ===== *)
(** * iLink 3: encoders, decoder, gateway and report publisher

    [ilink3_encoder.h], [ilink3_decoder.h], [ilink3_gateway.h] and
    [ilink3_report_publisher.h].  An encoder writes to a buffer that is large
    enough and returns the bytes, or [None] where the price conversion
    overflows (undefined in C++). *)

From S2P Require Import Prelude Types Wire Text Sbe ILink3Messages.

(** ** Conversions of the encoder *)

Definition ENGINE_TO_PRICE9_FACTOR : Z := 100000.

Definition engine_price_to_price9 (p : Price) : option PRICE9 :=
  let m := p * ENGINE_TO_PRICE9_FACTOR in
  if bool_decide (int64_min <= m <= int64_max) then Some (mkPRICE9 m) else None.

Definition engine_price_to_pricenull9 (p : Price) : option PRICE9 :=
  if p =? 0 then Some (mkPRICE9 INT64_NULL) else engine_price_to_price9 p.

Definition engine_qty_to_wire (q : Quantity) : Z := wrap_u32 (Z.quot q PRICE_SCALE).

Definition encode_side (s : Side) : Z := match s with Buy => 1 | Sell => 2 end.

Definition encode_ord_type (t : OrderType) : Z :=
  match t with Limit => 2 | Market => 1 | Stop => 3 | StopLimit => 4 end.

Definition encode_tif (t : TimeInForce) : Z :=
  match t with DAY => 0 | GTC => 1 | IOC => 3 | FOK => 4 | GTD => 6 end.

Inductive MassActionScope : Type :=
  | ScopeInstrument
  | ScopeAll
  | ScopeMarketSegment
  | ScopeInstrumentGroup.

Definition scope_code (s : MassActionScope) : Z :=
  match s with
  | ScopeInstrument => 1
  | ScopeAll => 7
  | ScopeMarketSegment => 9
  | ScopeInstrumentGroup => 10
  end.

(** ASCII of 'A', '2' and '1'. *)
Definition ExecMode_Aggressive : Z := 65.
Definition OrdStatus_Filled : Z := 50.
Definition OrdStatus_PartiallyFilled : Z := 49.

(** The values of the enumerators of [types.h]. *)
Definition cancel_reason_code (r : CancelReason) : Z :=
  match r with
  | UserRequested => 0
  | IOCRemainder => 1
  | FOKFailed => 2
  | Expired => 3
  | SelfMatchPrevention => 4
  | CLevelPoolExhausted => 5
  | MassCancelled => 6
  end.

Definition reject_reason_code (r : RejectReason) : Z :=
  match r with
  | PoolExhausted => 0
  | InvalidPrice => 1
  | InvalidQuantity => 2
  | InvalidTif => 3
  | InvalidSide => 4
  | UnknownOrder => 5
  | PriceBandViolation => 6
  | RLevelPoolExhausted => 7
  | MaxOrderSizeExceeded => 8
  | RateThrottled => 9
  | LockLimitUp => 10
  | LockLimitDown => 11
  | PositionLimitExceeded => 12
  | RExchangeSpecific => 13
  end.

(** *** [snprintf] of decimal numbers *)

(** At most [n - 1] characters and the terminator, in a zeroed array of [n]. *)
Definition snprintf (n : nat) (s : list Z) : list Z :=
  let len := Nat.min (length s) (n - 1) in take len s ++ replicate (n - len) 0.

(** ** Encoders *)

Record EncodeContext : Type := mkEncodeContext {
  ec_seq_num : Z; ec_uuid : Z; ec_party_details_list_req_id : Z; ec_security_id : Z;
  ec_sender_id : list Z; ec_location : list Z
}.

Definition encode_new_order (req : OrderRequest) (ctx : EncodeContext) : option (list Z) :=
  price ← (if bool_decide (req.(r_type) = Market) then Some (mkPRICE9 INT64_NULL)
           else engine_price_to_price9 req.(r_price));
  stop_px ← engine_price_to_pricenull9 req.(r_stop_price);
  Some (ws_put (make_header NewOrderSingle514) ++
        ws_put (mkNewOrderSingle514
          price (engine_qty_to_wire req.(r_quantity)) ctx.(ec_security_id)
          (encode_side req.(r_side)) ctx.(ec_seq_num) ctx.(ec_sender_id)
          (snprintf 20 (decimal req.(r_client_order_id))) ctx.(ec_party_details_list_req_id)
          req.(r_client_order_id) (wrap_u64 req.(r_timestamp)) stop_px ctx.(ec_location)
          UINT32_NULL
          (if req.(r_display_qty) >? 0 then engine_qty_to_wire req.(r_display_qty) else UINT32_NULL)
          (if bool_decide (req.(r_tif) = GTD)
           then wrap_u16 (Z.quot req.(r_gtd_expiry) 86400000000000) else UINT16_NULL)
          (encode_ord_type req.(r_type)) (encode_tif req.(r_tif)) 0 0 ExecMode_Aggressive
          UINT8_NULL UINT8_NULL 0)).

Definition encode_cancel_order (order_id : OrderId) (client_order_id : Z) (side : Side)
    (ts : Timestamp)
    (ctx : EncodeContext) : option (list Z) :=
  Some (ws_put (make_header OrderCancelRequest516) ++
        ws_put (mkOrderCancelRequest516
          order_id ctx.(ec_party_details_list_req_id) 0 ctx.(ec_seq_num) ctx.(ec_sender_id)
          (snprintf 20 (decimal client_order_id)) client_order_id (wrap_u64 ts) ctx.(ec_location)
          ctx.(ec_security_id) (encode_side side) UINT8_NULL)).

Definition encode_modify_order (req : ModifyRequest) (exchange_order_id : OrderId) (side : Side)
    (ord_type : OrderType) (tif : TimeInForce) (ctx : EncodeContext) : option (list Z) :=
  price ← engine_price_to_price9 req.(m_new_price);
  Some (ws_put (make_header OrderCancelReplaceRequest515) ++
        ws_put (mkOrderCancelReplaceRequest515
          price (engine_qty_to_wire req.(m_new_quantity)) ctx.(ec_security_id) (encode_side side)
          ctx.(ec_seq_num) ctx.(ec_sender_id) (snprintf 20 (decimal req.(m_client_order_id)))
          ctx.(ec_party_details_list_req_id) exchange_order_id (mkPRICE9 INT64_NULL)
          req.(m_client_order_id) (wrap_u64 req.(m_timestamp)) ctx.(ec_location) UINT32_NULL
          UINT32_NULL UINT16_NULL (encode_ord_type ord_type) (encode_tif tif) 0 0 0
          ExecMode_Aggressive UINT8_NULL UINT8_NULL 0)).

Definition encode_mass_cancel (scope : MassActionScope) (ts : Timestamp) (ctx : EncodeContext)
    : option (list Z) :=
  Some (ws_put (make_header OrderMassActionRequest529) ++
        ws_put (mkOrderMassActionRequest529
          ctx.(ec_party_details_list_req_id) 0 0 ctx.(ec_seq_num) ctx.(ec_sender_id) (wrap_u64 ts)
          (replicate 6 0) ctx.(ec_location) ctx.(ec_security_id) (scope_code scope) UINT8_NULL
          UINT8_NULL UINT8_NULL UINT8_NULL UINT8_NULL UINT8_NULL)).

Definition encode_exec_new (evt_id : OrderId) (evt_client_order_id : Z) (evt_ts : Timestamp)
    (order : Order) (ctx : EncodeContext) : option (list Z) :=
  price ← engine_price_to_price9 order.(o_price);
  Some (ws_put (make_header ExecutionReportNew522) ++
        ws_put (mkExecutionReportNew522
          ctx.(ec_seq_num) ctx.(ec_uuid) (snprintf 40 ([69] ++ decimal evt_id)) ctx.(ec_sender_id)
          (snprintf 20 (decimal evt_client_order_id)) ctx.(ec_party_details_list_req_id) evt_id
          price (mkPRICE9 INT64_NULL) (wrap_u64 evt_ts) (wrap_u64 evt_ts) evt_client_order_id
          UINT64_NULL UINT64_NULL ctx.(ec_location) ctx.(ec_security_id)
          (engine_qty_to_wire order.(o_quantity)) UINT32_NULL
          (if order.(o_display_qty) >? 0 then engine_qty_to_wire order.(o_display_qty) else UINT32_NULL)
          UINT16_NULL UINT16_NULL (encode_ord_type order.(o_type)) (encode_side order.(o_side))
          (encode_tif order.(o_tif)) 0 0 UINT8_NULL UINT8_NULL 0 ExecMode_Aggressive UINT8_NULL
          UINT8_NULL 0 UINT64_NULL)).

Definition encode_exec_fill (evt_aggressor_id : OrderId) (evt_price : Price) (evt_quantity : Quantity)
    (evt_ts : Timestamp) (order : Order) (is_aggressor : bool) (ctx : EncodeContext)
    : option (list Z) :=
  last_px ← engine_price_to_price9 evt_price;
  price ← engine_price_to_price9 order.(o_price);
  let cum := order.(o_filled_quantity) + evt_quantity in
  let leaves := Z.max 0 (order.(o_quantity) - cum) in
  Some (ws_put (make_header ExecutionReportTradeOutright525) ++
        ws_put (mkExecutionReportTradeOutright525
          ctx.(ec_seq_num) ctx.(ec_uuid) (snprintf 40 ([84] ++ decimal evt_aggressor_id))
          ctx.(ec_sender_id) (snprintf 20 (decimal order.(o_client_order_id)))
          ctx.(ec_party_details_list_req_id) last_px order.(o_id) price (mkPRICE9 INT64_NULL)
          (wrap_u64 evt_ts) (wrap_u64 evt_ts) order.(o_client_order_id) ctx.(ec_seq_num)
          UINT64_NULL UINT64_NULL ctx.(ec_location) ctx.(ec_security_id)
          (engine_qty_to_wire order.(o_quantity)) (engine_qty_to_wire evt_quantity)
          (engine_qty_to_wire cum) 0 0 0 (engine_qty_to_wire leaves) UINT16_NULL UINT16_NULL
          (if leaves =? 0 then OrdStatus_Filled else OrdStatus_PartiallyFilled)
          (encode_ord_type order.(o_type)) (encode_side order.(o_side)) (encode_tif order.(o_tif))
          0 0 (if is_aggressor then 1 else 0) UINT8_NULL 0 ExecMode_Aggressive UINT8_NULL
          UINT8_NULL 0 0) ++
        ws_put (mkGroupHeader (Z.of_nat (ws_size (A := FillEntry))) 0) ++
        ws_put (mkGroupHeader (Z.of_nat (ws_size (A := OrderEventEntry))) 0)).

Definition encode_exec_cancel (evt_id : OrderId) (evt_ts : Timestamp) (evt_reason : CancelReason)
    (order : Order) (ctx : EncodeContext) : option (list Z) :=
  price ← engine_price_to_price9 order.(o_price);
  Some (ws_put (make_header ExecutionReportCancel534) ++
        ws_put (mkExecutionReportCancel534
          ctx.(ec_seq_num) ctx.(ec_uuid) (snprintf 40 ([67] ++ decimal evt_id)) ctx.(ec_sender_id)
          (snprintf 20 (decimal order.(o_client_order_id))) ctx.(ec_party_details_list_req_id)
          evt_id price (mkPRICE9 INT64_NULL) (wrap_u64 evt_ts) (wrap_u64 evt_ts)
          order.(o_client_order_id) UINT64_NULL UINT64_NULL ctx.(ec_location) ctx.(ec_security_id)
          (engine_qty_to_wire order.(o_quantity)) (engine_qty_to_wire order.(o_filled_quantity))
          UINT32_NULL UINT32_NULL UINT16_NULL UINT16_NULL (encode_ord_type order.(o_type))
          (encode_side order.(o_side)) (encode_tif order.(o_tif)) 0 0 UINT8_NULL
          (cancel_reason_code evt_reason) UINT8_NULL 0 ExecMode_Aggressive UINT8_NULL UINT8_NULL 0
          UINT64_NULL)).

Definition encode_exec_reject (evt_client_order_id : Z) (evt_ts : Timestamp) (evt_reason : RejectReason)
    (ctx : EncodeContext) : option (list Z) :=
  Some (ws_put (make_header ExecutionReportReject523) ++
        ws_put (mkExecutionReportReject523
          ctx.(ec_seq_num) ctx.(ec_uuid) (replicate 256 0)
          (snprintf 40 ([82] ++ decimal evt_client_order_id)) ctx.(ec_sender_id)
          (snprintf 20 (decimal evt_client_order_id)) ctx.(ec_party_details_list_req_id)
          UINT64_NULL (mkPRICE9 INT64_NULL) (mkPRICE9 INT64_NULL) (wrap_u64 evt_ts)
          (wrap_u64 evt_ts) evt_client_order_id UINT64_NULL UINT64_NULL ctx.(ec_location)
          ctx.(ec_security_id) 0 UINT32_NULL UINT32_NULL (reject_reason_code evt_reason)
          UINT16_NULL UINT16_NULL UINT8_NULL UINT8_NULL UINT8_NULL 0 0 UINT8_NULL UINT8_NULL 0
          UINT8_NULL UINT8_NULL UINT8_NULL 0 UINT64_NULL)).

Definition encode_cancel_reject (evt_id : OrderId) (evt_client_order_id : Z) (evt_ts : Timestamp)
    (evt_reason : RejectReason) (ctx : EncodeContext) : option (list Z) :=
  Some (ws_put (make_header OrderCancelReject535) ++
        ws_put (mkOrderCancelReject535
          ctx.(ec_seq_num) ctx.(ec_uuid) (replicate 256 0)
          (snprintf 40 ([67; 82] ++ decimal evt_id)) ctx.(ec_sender_id)
          (snprintf 20 (decimal evt_client_order_id)) ctx.(ec_party_details_list_req_id) evt_id
          (wrap_u64 evt_ts) (wrap_u64 evt_ts) evt_client_order_id ctx.(ec_location)
          (reject_reason_code evt_reason) UINT16_NULL 0 0 UINT8_NULL UINT8_NULL UINT64_NULL)).

(** ** Decoder *)

Definition PRICE9_TO_ENGINE_DIVISOR : Z := 100000.

Definition price9_to_engine (p : PRICE9) : Price :=
  if price9_is_null p then 0 else Z.quot p.(mantissa) PRICE9_TO_ENGINE_DIVISOR.

Definition wire_qty_to_engine (q : Z) : Quantity := if q =? UINT32_NULL then 0 else q * PRICE_SCALE.

Definition decode_side (wire : Z) : Side := if wire =? 2 then Sell else Buy.

Definition decode_ord_type (wire : Z) : OrderType :=
  if wire =? 2 then Limit
  else if wire =? 1 then Market
  else if wire =? 3 then Stop
  else if wire =? 4 then StopLimit
  else Limit.

Definition decode_tif (wire : Z) : TimeInForce :=
  if wire =? 0 then DAY
  else if wire =? 1 then GTC
  else if wire =? 3 then IOC
  else if wire =? 4 then FOK
  else if wire =? 6 then GTD
  else DAY.

(** The loop over the characters of the field, while they are digits. *)
Fixpoint decode_digits (val : Z) (field : list Z) : Z :=
  match field with
  | c :: field' =>
      if (48 <=? c) && (c <=? 57) then decode_digits (wrap_u64 (val * 10 + (c - 48))) field' else val
  | [] => val
  end.
Definition decode_cl_ord_id (field : list Z) : Z := decode_digits 0 field.

Definition MAX_FILL_ENTRIES : Z := 16.

(** The decoded structs, as the visitor gets them. *)
Inductive Decoded : Type :=
  | DecodedNewOrder514 (root : NewOrderSingle514)
  | DecodedCancelRequest516 (root : OrderCancelRequest516)
  | DecodedReplaceRequest515 (root : OrderCancelReplaceRequest515)
  | DecodedMassAction529 (root : OrderMassActionRequest529)
  | DecodedExecNew522 (root : ExecutionReportNew522)
  | DecodedExecReject523 (root : ExecutionReportReject523)
  | DecodedExecTrade525 (root : ExecutionReportTradeOutright525) (fill_entries : list FillEntry)
  | DecodedExecCancel534 (root : ExecutionReportCancel534)
  | DecodedCancelReject535 (root : OrderCancelReject535).

(** The root block: the check is of the announced length, the copy is of the
    size of the struct. *)
Definition decode_root {A : Type} `{WireStruct A} (hdr : MessageHeader) : step A :=
  take_block hdr.(h_block_length).

(** The group of order events that follows the fills is not read. *)
Definition decode_exec_trade_525 (hdr : MessageHeader) : step Decoded :=
  root ← decode_root hdr;
  fills ← take_group GroupHeader MAX_FILL_ENTRIES;
  mret (DecodedExecTrade525 root fills).

(** The dispatch on the template. *)
Definition decode_body (hdr : MessageHeader) : step Decoded :=
  let t := hdr.(h_template_id) in
  if t =? 514 then root ← decode_root hdr; mret (DecodedNewOrder514 root)
  else if t =? 515 then root ← decode_root hdr; mret (DecodedReplaceRequest515 root)
  else if t =? 516 then root ← decode_root hdr; mret (DecodedCancelRequest516 root)
  else if t =? 529 then root ← decode_root hdr; mret (DecodedMassAction529 root)
  else if t =? 522 then root ← decode_root hdr; mret (DecodedExecNew522 root)
  else if t =? 523 then root ← decode_root hdr; mret (DecodedExecReject523 root)
  else if t =? 525 then decode_exec_trade_525 hdr
  else if t =? 534 then root ← decode_root hdr; mret (DecodedExecCancel534 root)
  else if t =? 535 then root ← decode_root hdr; mret (DecodedCancelReject535 root)
  else λ _, Failed kUnknownTemplateId.

(** [kOk] with the visited message (and the bytes that were not read), an error,
    or a read past the end of the buffer. *)
Definition decode_ilink3_message : step Decoded := hdr ← take_struct; decode_body hdr.

(** ** Gateway *)

Inductive GatewayResult : Type :=
  | kOk
  | kDecodeError
  | kUnknownInstrument
  | kUnsupportedMessage.

(** The calls on the simulator. *)
Inductive sim_call : Type :=
  | sim_new_order (instrument_id : Z) (req : OrderRequest)
  | sim_cancel_order (instrument_id : Z) (order_id : OrderId) (ts : Timestamp)
  | sim_modify_order (instrument_id : Z) (req : ModifyRequest)
  | sim_engine_mass_cancel_all (instrument_id : Z) (ts : Timestamp)
  | sim_mass_cancel_all (ts : Timestamp).

Section gateway.
(** [get_engine] returns an engine. *)
Context (known : Z → bool).

(** The call and the new [last_result_]. *)
Definition dispatch (d : Decoded) : option sim_call * GatewayResult :=
  match d with
  | DecodedNewOrder514 msg =>
      let instrument_id := wrap_u32 msg.(n514_security_id) in
      if known instrument_id then
        (Some (sim_new_order instrument_id
           (mkRequest (decode_cl_ord_id msg.(n514_cl_ord_id)) msg.(n514_party_details_list_req_id)
              (decode_side msg.(n514_side)) (decode_ord_type msg.(n514_ord_type))
              (decode_tif msg.(n514_time_in_force)) (price9_to_engine msg.(n514_price))
              (wire_qty_to_engine msg.(n514_order_qty)) (price9_to_engine msg.(n514_stop_px))
              (wrap_s64 msg.(n514_sending_time_epoch)) 0
              (wire_qty_to_engine msg.(n514_display_qty)) false)), kOk)
      else (None, kUnknownInstrument)
  | DecodedCancelRequest516 msg =>
      let instrument_id := wrap_u32 msg.(c516_security_id) in
      if known instrument_id then
        (Some (sim_cancel_order instrument_id msg.(c516_order_id)
                 (wrap_s64 msg.(c516_sending_time_epoch))), kOk)
      else (None, kUnknownInstrument)
  | DecodedReplaceRequest515 msg =>
      let instrument_id := wrap_u32 msg.(r515_security_id) in
      if known instrument_id then
        (Some (sim_modify_order instrument_id
           (mkModify msg.(r515_order_id) (decode_cl_ord_id msg.(r515_cl_ord_id))
              (price9_to_engine msg.(r515_price)) (wire_qty_to_engine msg.(r515_order_qty))
              (wrap_s64 msg.(r515_sending_time_epoch)))), kOk)
      else (None, kUnknownInstrument)
  | DecodedMassAction529 msg =>
      let ts := wrap_s64 msg.(m529_sending_time_epoch) in
      if msg.(m529_mass_action_scope) =? scope_code ScopeInstrument then
        let instrument_id := wrap_u32 msg.(m529_security_id) in
        if known instrument_id then (Some (sim_engine_mass_cancel_all instrument_id ts), kOk)
        else (None, kUnknownInstrument)
      else (Some (sim_mass_cancel_all ts), kOk)
  | _ => (None, kUnsupportedMessage)
  end.

(** [process]: the call made and the result; [None] for a read past the buffer. *)
Definition process (buf : list Z) : option (option sim_call * GatewayResult) :=
  match decode_ilink3_message buf with
  | Got d _ => Some (dispatch d)
  | Failed kUnknownTemplateId => Some (None, kUnsupportedMessage)
  | Failed _ => Some (None, kDecodeError)
  | OverRead => None
  end.
End gateway.
