(* ===== verification/ILink3Theorems.v ===== *)
(** * iLink 3: what a client sends is what the simulator is asked to do

    The decoder on encoded messages and on any bytes, decimal numbers, then the
    gateway. *)

From S2P Require Import Prelude Types Wire Text Sbe ILink3Messages ILink3.

(** ** Decoding what was encoded *)

(** The bytes of a decoded message: header, root block and, for a trade
    report, its fills. *)
Definition wire_bytes (d : Decoded) : list Z :=
  match d with
  | DecodedNewOrder514 m => ws_put (make_header NewOrderSingle514) ++ ws_put m
  | DecodedCancelRequest516 m => ws_put (make_header OrderCancelRequest516) ++ ws_put m
  | DecodedReplaceRequest515 m => ws_put (make_header OrderCancelReplaceRequest515) ++ ws_put m
  | DecodedMassAction529 m => ws_put (make_header OrderMassActionRequest529) ++ ws_put m
  | DecodedExecNew522 m => ws_put (make_header ExecutionReportNew522) ++ ws_put m
  | DecodedExecReject523 m => ws_put (make_header ExecutionReportReject523) ++ ws_put m
  | DecodedExecTrade525 m fills =>
      ws_put (make_header ExecutionReportTradeOutright525) ++ ws_put m ++ put_group GroupHeader fills
  | DecodedExecCancel534 m => ws_put (make_header ExecutionReportCancel534) ++ ws_put m
  | DecodedCancelReject535 m => ws_put (make_header OrderCancelReject535) ++ ws_put m
  end.

Definition decoded_fits (d : Decoded) : Prop :=
  match d with
  | DecodedNewOrder514 m => ws_fits m
  | DecodedCancelRequest516 m => ws_fits m
  | DecodedReplaceRequest515 m => ws_fits m
  | DecodedMassAction529 m => ws_fits m
  | DecodedExecNew522 m => ws_fits m
  | DecodedExecReject523 m => ws_fits m
  | DecodedExecTrade525 m fills =>
      ws_fits m ∧ Forall ws_fits fills ∧ Z.of_nat (length fills) <= MAX_FILL_ENTRIES
  | DecodedExecCancel534 m => ws_fits m
  | DecodedCancelReject535 m => ws_fits m
  end.

(** A message with one root block. *)
Lemma recovers_plain {A} `{Template A} `{!WireStructOk A} (c : A → Decoded) (m : A) : ws_fits m →
  recovers (root ← decode_root (make_header A); mret (c root)) (c m) (ws_put m).
Proof. intros Hm. by apply recovers_map, recovers_block. Qed.

Lemma recovers_trade m fills : ws_fits m → Forall ws_fits fills →
  Z.of_nat (length fills) <= MAX_FILL_ENTRIES →
  recovers (decode_exec_trade_525 (make_header ExecutionReportTradeOutright525))
    (DecodedExecTrade525 m fills) (ws_put m ++ put_group GroupHeader fills).
Proof.
  unfold MAX_FILL_ENTRIES. intros Hm Hf Hn. eapply recovers_bind; [by apply recovers_block|].
  apply (recovers_map _ (DecodedExecTrade525 m)). apply (recovers_group GroupHeader); first [done|lia|by vm_compute].
Qed.

Lemma recovers_message d : decoded_fits d → recovers decode_ilink3_message d (wire_bytes d).
Proof.
  destruct d as [m|m|m|m|m|m|m fills|m|m]; intros Hm; unfold wire_bytes;
    (eapply recovers_bind; [apply recovers_struct; by vm_compute|]).
  7: destruct Hm as (Hm & Hf & Hn); exact (recovers_trade m fills Hm Hf Hn).
  all: exact (recovers_plain _ m Hm).
Qed.

(** Every iLink 3 message survives: the bytes of a header, of a root block
    whose fields fit their types and of up to sixteen fills decode to the same
    message, whatever the buffer holds after them; and any proper prefix of
    them is reported as too short. *)
Theorem ilink3_roundtrip d : decoded_fits d →
  (∀ rest, decode_ilink3_message (wire_bytes d ++ rest) = Got d rest) ∧
  (∀ p q, wire_bytes d = p ++ q → q ≠ [] → decode_ilink3_message p = Failed kBufferTooShort).
Proof. intros Hd. destruct (recovers_message d Hd). by split. Qed.

(** A header that announces a shorter root block than its template has makes
    the decoder read past the end of the buffer. *)
Lemma short_block_over_reads :
  decode_ilink3_message (ws_put (mkMessageHeader 0 514 ILINK3_SCHEMA_ID ILINK3_VERSION)) = OverRead.
Proof. reflexivity. Qed.

(** Announced lengths that cover the template keep every read in the buffer. *)
Definition template_size (t : Z) : Z :=
  if t =? 514 then 116 else if t =? 515 then 125 else if t =? 516 then 88 else if t =? 529 then 71
  else if t =? 522 then 209 else if t =? 523 then 467 else if t =? 525 then 235
  else if t =? 534 then 214 else if t =? 535 then 409 else 0.

(** ** Decimal identifiers *)

Lemma decode_digit v c rest : 0 <= v -> v * 10 + (c - 48) < uint64_mod → 48 <= c <= 57 →
  decode_digits v (c :: rest) = decode_digits (v * 10 + (c - 48)) rest.
Proof.
  intros Hv Hlt Hc. cbn. rewrite (proj2 (Z.leb_le 48 c)), (proj2 (Z.leb_le c 57)) by lia. cbn.
  by rewrite wrap_u64_id by (unfold in_uint64; lia).
Qed.

Lemma decode_decimal_loop fuel v acc : 0 <= v < 10 ^ Z.of_nat (S fuel) → v < uint64_mod →
  decode_digits 0 (decimal_loop fuel v acc) = decode_digits v acc.
Proof.
  revert v acc. induction fuel as [|fuel IH]; intros v acc Hv Hlt; cbn [decimal_loop].
  - change (10 ^ Z.of_nat 1) with 10 in Hv. rewrite (proj2 (Z.ltb_lt v 10)) by lia.
    rewrite decode_digit by lia. f_equal. lia.
  - rewrite Nat2Z.inj_succ, Z.pow_succ_r in Hv by lia.
    destruct (Z.ltb_spec v 10).
    + rewrite decode_digit by lia. f_equal. lia.
    + pose proof (Z.div_mod v 10 ltac:(lia)) as Hd. pose proof (Z.mod_pos_bound v 10 ltac:(lia)).
      rewrite IH by lia. rewrite decode_digit by lia. f_equal. lia.
Qed.

Lemma decode_digits_app v ds rest : Forall (λ c, 48 <= c <= 57) ds →
  decode_digits v (ds ++ 0 :: rest) = decode_digits v ds.
Proof.
  intros Hds. revert v. induction Hds as [|c ds Hc _ IH]; intros v; [done|].
  cbn. rewrite (proj2 (Z.leb_le 48 c)), (proj2 (Z.leb_le c 57)) by lia. cbn. apply IH.
Qed.

(** A number of at most nineteen digits fits the field of twenty characters. *)
Lemma decode_cl_ord_id_snprintf v : 0 <= v < 10 ^ 19 →
  decode_cl_ord_id (snprintf 20 (decimal v)) = v.
Proof.
  intros Hv. unfold decode_cl_ord_id, snprintf. pose proof (length_decimal v 18 Hv) as Hl.
  rewrite Nat.min_l by lia. rewrite take_ge by lia.
  destruct (20 - length (decimal v))%nat as [|n] eqn:En; [lia|]. cbn [replicate].
  rewrite decode_digits_app by (apply decimal_digits; lia).
  unfold decimal. rewrite decode_decimal_loop; [done|split; [lia|apply decimal_fuel; lia]|unfold uint64_mod; lia].
Qed.

Lemma is_chars_snprintf n s : (0 < n)%nat → Forall is_byte s → is_chars n (snprintf n s).
Proof.
  intros Hn Hs. unfold snprintf. split.
  - rewrite length_app, length_take, length_replicate. lia.
  - apply Forall_app. split; [by apply Forall_take|]. by apply Forall_replicate.
Qed.

(** ** Reading within the buffer *)

(** No message makes the decoder read past the end of the buffer, whatever
    bytes it holds, as long as the root block length in its header is not
    smaller than the struct of its template. *)
Theorem ilink3_decode_in_bounds buf :
  (∀ hdr body, ws_get buf = Some (hdr, body) → template_size hdr.(h_template_id) <= hdr.(h_block_length)) →
  decode_ilink3_message buf ≠ OverRead.
Proof.
  intros Hhdr. unfold decode_ilink3_message, mbind, step_bind.
  destruct (take_struct buf) as [hdr body| |] eqn:Htake; [|done|by apply in_bounds_struct in Htake].
  unfold take_struct in Htake. destruct (Nat.ltb _ _); [done|].
  destruct (ws_get buf) as [[hdr' body']|] eqn:Hget; [|done]. injection Htake as -> ->.
  specialize (Hhdr _ _ eq_refl). clear Hget. revert body. fold (in_bounds (decode_body hdr)).
  unfold decode_body, template_size in *.
  repeat match goal with
  | |- context [if ?t =? ?n then _ else _] => destruct (t =? n)
  end; try done; unfold decode_exec_trade_525, decode_root; steps_in_bounds.
Qed.

(** ** The gateway *)

(** What a client asks for. *)
Inductive client_request : Type :=
  | CNew (req : OrderRequest)
  | CCancel (order_id : OrderId) (client_order_id : Z) (side : Side) (ts : Timestamp)
  | CModify (req : ModifyRequest) (order_id : OrderId) (side : Side) (ord_type : OrderType)
      (tif : TimeInForce)
  | CMass (scope : MassActionScope) (ts : Timestamp).

Definition send (ctx : EncodeContext) (c : client_request) : option (list Z) :=
  match c with
  | CNew req => encode_new_order req ctx
  | CCancel oid cid side ts => encode_cancel_order oid cid side ts ctx
  | CModify req oid side ty tif => encode_modify_order req oid side ty tif ctx
  | CMass scope ts => encode_mass_cancel scope ts ctx
  end.

(** The call it becomes: the request itself, but for the expiry date, which the
    gateway does not take over, and the price of a market order. *)
Definition delivered (ctx : EncodeContext) (c : client_request) : sim_call :=
  let iid := wrap_u32 ctx.(ec_security_id) in
  match c with
  | CNew req =>
      sim_new_order iid
        (mkRequest req.(r_client_order_id) ctx.(ec_party_details_list_req_id) req.(r_side)
           req.(r_type) req.(r_tif) (if bool_decide (req.(r_type) = Market) then 0 else req.(r_price))
           req.(r_quantity) req.(r_stop_price) req.(r_timestamp) 0 req.(r_display_qty) false)
  | CCancel oid _ _ ts => sim_cancel_order iid oid ts
  | CModify req oid _ _ _ =>
      sim_modify_order iid (mkModify oid req.(m_client_order_id) req.(m_new_price)
                              req.(m_new_quantity) req.(m_timestamp))
  | CMass ScopeInstrument ts => sim_engine_mass_cancel_all iid ts
  | CMass _ ts => sim_mass_cancel_all ts
  end.

(** Mass cancels for more than one instrument need no engine. *)
Definition needs_engine (c : client_request) : bool :=
  match c with CMass ScopeInstrument _ => true | CMass _ _ => false | _ => true end.

(** Prices that nine decimals can carry, whole lots that 32 bits can. *)
Definition wire_price (p : Price) : Prop := in_int64 (p * ENGINE_TO_PRICE9_FACTOR).
Definition wire_lots (q : Quantity) : Prop := ∃ k, q = k * PRICE_SCALE ∧ 0 <= k < UINT32_NULL.

Definition valid_context (ctx : EncodeContext) : Prop :=
  in_uint32 ctx.(ec_seq_num) ∧ in_uint64 ctx.(ec_party_details_list_req_id) ∧
  in_int32 ctx.(ec_security_id) ∧ is_chars 20 ctx.(ec_sender_id) ∧ is_chars 5 ctx.(ec_location).

Definition valid_request (c : client_request) : Prop :=
  match c with
  | CNew req =>
      0 <= req.(r_client_order_id) < 10 ^ 19 ∧ (req.(r_type) ≠ Market → wire_price req.(r_price)) ∧
      wire_lots req.(r_quantity) ∧ wire_price req.(r_stop_price) ∧ wire_lots req.(r_display_qty) ∧
      in_int64 req.(r_timestamp)
  | CCancel oid cid _ ts => in_uint64 oid ∧ 0 <= cid < 10 ^ 19 ∧ in_int64 ts
  | CModify req oid _ _ _ =>
      in_uint64 oid ∧ 0 <= req.(m_client_order_id) < 10 ^ 19 ∧ wire_price req.(m_new_price) ∧
      wire_lots req.(m_new_quantity) ∧ in_int64 req.(m_timestamp)
  | CMass _ ts => in_int64 ts
  end.

(** *** Conversions there and back *)

Lemma decode_encode_side s : decode_side (encode_side s) = s.
Proof. by destruct s. Qed.
Lemma decode_encode_ord_type t : decode_ord_type (encode_ord_type t) = t.
Proof. by destruct t. Qed.
Lemma decode_encode_tif t : decode_tif (encode_tif t) = t.
Proof. by destruct t. Qed.

Lemma engine_price_wire p : wire_price p →
  engine_price_to_price9 p = Some (mkPRICE9 (p * ENGINE_TO_PRICE9_FACTOR)) ∧
  price9_to_engine (mkPRICE9 (p * ENGINE_TO_PRICE9_FACTOR)) = p.
Proof.
  intros Hp. unfold engine_price_to_price9. rewrite bool_decide_eq_true_2 by exact Hp. split; [done|].
  unfold price9_to_engine, price9_is_null, ENGINE_TO_PRICE9_FACTOR, INT64_NULL. cbn [mantissa].
  destruct (Z.eqb_spec (p * 100000) 9223372036854775807); [lia|]. by apply Z.quot_mul.
Qed.

Lemma engine_pricenull_wire p : wire_price p → ∃ w,
  engine_price_to_pricenull9 p = Some w ∧ in_int64 w.(mantissa) ∧ price9_to_engine w = p.
Proof.
  intros Hp. unfold engine_price_to_pricenull9. destruct (Z.eqb_spec p 0) as [->|].
  - by exists (mkPRICE9 INT64_NULL).
  - destruct (engine_price_wire p Hp) as [-> Hback]. eexists. by split_and!.
Qed.

Lemma engine_lots_wire q : wire_lots q →
  in_uint32 (engine_qty_to_wire q) ∧ wire_qty_to_engine (engine_qty_to_wire q) = q.
Proof.
  intros (k & -> & Hk). unfold engine_qty_to_wire, wire_qty_to_engine, PRICE_SCALE.
  rewrite Z.quot_mul by lia. unfold UINT32_NULL in *.
  assert (in_uint32 k) by (unfold in_uint32; lia). rewrite wrap_u32_id by done. split; [done|].
  destruct (Z.eqb_spec k 4294967295); lia.
Qed.

(** An absent display quantity is the null value. *)
Lemma display_lots_wire q : wire_lots q →
  let w := if q >? 0 then engine_qty_to_wire q else UINT32_NULL in
  in_uint32 w ∧ wire_qty_to_engine w = q.
Proof.
  intros Hq. destruct (engine_lots_wire q Hq) as [? ?]. cbn.
  destruct (Z.gtb_spec q 0); [done|]. split; [done|].
  destruct Hq as (k & -> & Hk). unfold PRICE_SCALE in *. cbn. lia.
Qed.

Lemma encode_side_range s : in_uint8 (encode_side s).
Proof. by destruct s. Qed.
Lemma encode_ord_type_range t : in_uint8 (encode_ord_type t).
Proof. by destruct t. Qed.
Lemma encode_tif_range t : in_uint8 (encode_tif t).
Proof. by destruct t. Qed.
Lemma scope_code_range s : in_uint8 (scope_code s).
Proof. by destruct s. Qed.
Lemma expire_date_range (b : bool) z : in_uint16 (if b then wrap_u16 z else UINT16_NULL).
Proof. destruct b; [apply Z.mod_pos_bound; lia|done]. Qed.

Lemma cl_ord_id_chars v : 0 <= v → is_chars 20 (snprintf 20 (decimal v)).
Proof. intros Hv. apply is_chars_snprintf; [lia|by apply decimal_bytes]. Qed.

Lemma id_range v : 0 <= v < 10 ^ 19 → in_uint64 v.
Proof. unfold in_uint64, uint64_mod. lia. Qed.

Lemma known_constants : in_uint8 0 ∧ in_uint8 ExecMode_Aggressive ∧ in_uint8 UINT8_NULL ∧
  in_uint32 UINT32_NULL ∧ in_uint16 UINT16_NULL ∧ in_int64 INT64_NULL ∧ in_uint64 0 ∧
  is_chars 6 (replicate 6 0).
Proof.
  refine (conj _ (conj _ (conj _ (conj _ (conj _ (conj _ (conj _ _))))))); try by vm_compute.
  split; [done|by apply Forall_replicate].
Qed.

(** *** Messages of valid requests fit their types *)

Lemma message_of_request ctx c : valid_context ctx → valid_request c →
  ∃ d, send ctx c = Some (wire_bytes d) ∧ decoded_fits d ∧
    ∀ known, dispatch known d =
      if needs_engine c && negb (known (wrap_u32 ctx.(ec_security_id))) then (None, kUnknownInstrument)
      else (Some (delivered ctx c), kOk).
Proof.
  intros (? & ? & ? & ? & ?) Hc.
  destruct known_constants as (? & ? & ? & ? & ? & ? & ? & ?).
  destruct c as [req|oid cid side ts|req oid side ty tif|scope ts]; cbn [valid_request] in Hc; destruct_and?.
  - destruct (engine_lots_wire (r_quantity req)) as [Hq Hqb]; [done|].
    destruct (display_lots_wire (r_display_qty req)) as [Hd Hdb]; [done|].
    destruct (engine_pricenull_wire (r_stop_price req)) as (stop & Hs & Hsr & Hsb); [done|].
    assert (Hp : ∃ w, (if bool_decide (req.(r_type) = Market) then Some (mkPRICE9 INT64_NULL)
                       else engine_price_to_price9 req.(r_price)) = Some w ∧ in_int64 w.(mantissa) ∧
               price9_to_engine w = if bool_decide (req.(r_type) = Market) then 0 else req.(r_price)).
    { case_bool_decide; [by exists (mkPRICE9 INT64_NULL)|].
      assert (Hw : wire_price req.(r_price)) by auto.
      destruct (engine_price_wire _ Hw) as [-> Hb]. eexists. split; [reflexivity|]. by split. }
    destruct Hp as (price & Hp & Hpr & Hpb).
    cbn [send]. unfold encode_new_order. rewrite Hp, Hs. cbn [mbind option_bind].
    eexists (DecodedNewOrder514 _). split; [reflexivity|]. split.
    + cbn. split_and!; auto using wrap_u64_range, encode_side_range, encode_ord_type_range,
        encode_tif_range, expire_date_range, id_range; apply cl_ord_id_chars; lia.
    + intros known. cbn [dispatch needs_engine andb n514_security_id delivered n514_cl_ord_id
        n514_party_details_list_req_id n514_side n514_ord_type n514_time_in_force n514_price
        n514_order_qty n514_stop_px n514_sending_time_epoch n514_display_qty].
      rewrite Hqb, Hdb, Hsb, Hpb, decode_encode_side, decode_encode_ord_type, decode_encode_tif,
        timestamp_back, decode_cl_ord_id_snprintf by done.
      by destruct (known _).
  - cbn [send]. unfold encode_cancel_order. eexists (DecodedCancelRequest516 _).
    split; [reflexivity|]. split.
    + cbn. split_and!; auto using wrap_u64_range, encode_side_range, id_range; apply cl_ord_id_chars; lia.
    + intros known. cbn [dispatch needs_engine andb c516_security_id c516_order_id
        c516_sending_time_epoch delivered].
      rewrite timestamp_back by done. by destruct (known _).
  - destruct (engine_lots_wire (m_new_quantity req)) as [Hq Hqb]; [done|].
    destruct (engine_price_wire (m_new_price req)) as [Hp Hpb]; [done|].
    cbn [send]. unfold encode_modify_order. rewrite Hp. cbn [mbind option_bind].
    eexists (DecodedReplaceRequest515 _). split; [reflexivity|]. split.
    + cbn. split_and!; auto using wrap_u64_range, encode_side_range, encode_ord_type_range,
        encode_tif_range, id_range; apply cl_ord_id_chars; lia.
    + intros known. cbn [dispatch needs_engine andb r515_security_id r515_order_id r515_cl_ord_id
        r515_price r515_order_qty r515_sending_time_epoch delivered].
      rewrite Hqb, Hpb, timestamp_back, decode_cl_ord_id_snprintf by done. by destruct (known _).
  - cbn [send]. unfold encode_mass_cancel. eexists (DecodedMassAction529 _).
    split; [reflexivity|]. split.
    + cbn. split_and!; auto using wrap_u64_range, scope_code_range.
    + intros known. cbn [dispatch m529_mass_action_scope m529_security_id m529_sending_time_epoch].
      rewrite timestamp_back by done. destruct scope; cbn; [by destruct (known _)|done..].
Qed.


(** ** Concrete messages *)

Definition demo_ctx : EncodeContext :=
  mkEncodeContext 5 9 42 17 (replicate 20 65) (replicate 5 66).

Definition demo_order : OrderRequest :=
  mkRequest 1234567890123456789 99 Sell StopLimit FOK (-1005000) 70000 (-1004000) (-5) 0 20000 false.

Lemma demo_ctx_valid : valid_context demo_ctx.
Proof.
  refine (conj _ (conj _ (conj _ (conj _ _)))); try by vm_compute.
  - split; [done|by apply Forall_replicate].
  - split; [done|by apply Forall_replicate].
Qed.

Definition demo_known (iid : Z) : bool := iid =? 17.

Lemma demo_request_valid : valid_request (CNew demo_order).
Proof.
  refine (conj _ (conj _ (conj _ (conj _ (conj _ _))))); [by vm_compute|by vm_compute| |by vm_compute| |by vm_compute].
  - by exists 7.
  - by exists 2.
Qed.


Definition demo_fills : list FillEntry :=
  [mkFillEntry (mkPRICE9 5) 3 [48; 49] 0; mkFillEntry (mkPRICE9 (-6)) 1 [48; 50] 255].
Definition demo_trade : ExecutionReportTradeOutright525 :=
  mkExecutionReportTradeOutright525 1 2 (replicate 40 69) (replicate 20 70) (replicate 20 71) 3
    (mkPRICE9 (-7)) 4 (mkPRICE9 8) (mkPRICE9 INT64_NULL) 5 6 7 8 UINT64_NULL UINT64_NULL
    (replicate 5 72) (-17) 1 2 3 4 5 6 7 8 9 10 11 12 13 14 15 16 17 18 19 20 21 22 23.

Lemma demo_trade_fits : ws_fits demo_trade.
Proof.
  cbv beta iota delta [ws_fits ExecutionReportTradeOutright525_struct].
  repeat match goal with |- _ ∧ _ => split end;
    first [by apply (bool_decide_eq_true_1 (is_chars _ _)); vm_compute | by vm_compute].
Qed.

Lemma ilink3_roundtrip_witness :
  decode_ilink3_message (wire_bytes (DecodedExecTrade525 demo_trade demo_fills) ++ [0; 0; 0]) =
    Got (DecodedExecTrade525 demo_trade demo_fills) [0; 0; 0].
Proof.
  apply (ilink3_roundtrip (DecodedExecTrade525 demo_trade demo_fills)).
  refine (conj demo_trade_fits (conj _ _)); [|by vm_compute].
  do 2 (apply Forall_cons; split;
    [cbn; split_and!; first [by apply (bool_decide_eq_true_1 (is_chars _ _)); vm_compute | by vm_compute]|]).
  done.
Defined.

Lemma ilink3_decode_in_bounds_witness :
  decode_ilink3_message (ws_put (make_header NewOrderSingle514) ++ [1; 2; 3]) ≠ OverRead.
Proof.
  apply ilink3_decode_in_bounds. intros hdr body H.
  vm_compute in H. injection H as <- <-. by vm_compute.
Defined.
