(* ===== verification/ILink3Publisher.v ===== *)
(** * iLink 3: the report publisher ([ilink3_report_publisher.h])

    The listener that turns the engine's order events into execution reports,
    with the orders it remembers to fill them in. *)

From S2P Require Import Prelude Types Wire Text Sbe ILink3Messages ILink3 ILink3Theorems.

(** ** State *)

Definition MAX_ENCODED_SIZE : nat := ws_size (A := MessageHeader) + ws_size (A := ExecutionReportReject523) + 16.

Record EncodedReport : Type := mkReport { rep_data : list Z; rep_length : nat; rep_template_id : Z }.

(** [rp_orders] is keyed by [order_key], [rp_pending] by client order id. *)
Record ReportPublisher : Type := mkReportPublisher {
  rp_ctx : EncodeContext;
  rp_orders : gmap Z Order;
  rp_pending : gmap Z Order;
  rp_reports : list EncodedReport
}.

Definition initial_reports (ctx : EncodeContext) : ReportPublisher := mkReportPublisher ctx ∅ ∅ [].

(** [Order{}]. *)
Definition default_order : Order := mkOrder 0 0 0 0 0 0 0 Buy Limit GTC 0 0 0 0 false false.

Definition with_ids (id client_order_id : Z) (o : Order) : Order :=
  mkOrder id client_order_id o.(o_account_id) o.(o_price) o.(o_quantity) o.(o_filled_quantity)
    o.(o_remaining_quantity) o.(o_side) o.(o_type) o.(o_tif) o.(o_timestamp) o.(o_gtd_expiry)
    o.(o_display_qty) o.(o_total_qty) o.(o_is_market_maker) o.(o_is_top_order).

Definition order_key (ctx : EncodeContext) (id : OrderId) : Z :=
  Z.lor (Z.shiftl (wrap_u32 ctx.(ec_security_id)) 32) id.

Definition bump_seq_num (c : EncodeContext) : EncodeContext :=
  mkEncodeContext (wrap_u32 (c.(ec_seq_num) + 1)) c.(ec_uuid) c.(ec_party_details_list_req_id)
    c.(ec_security_id) c.(ec_sender_id) c.(ec_location).

Definition set_orders (m : gmap Z Order) (p : ReportPublisher) : ReportPublisher :=
  mkReportPublisher p.(rp_ctx) m p.(rp_pending) p.(rp_reports).
Definition set_pending (m : gmap Z Order) (p : ReportPublisher) : ReportPublisher :=
  mkReportPublisher p.(rp_ctx) p.(rp_orders) m p.(rp_reports).

(** ** Operations *)

(** [store_report]: the bytes in a zeroed array. *)
Definition store_report (bytes : list Z) (template_id : Z) (p : ReportPublisher) : ReportPublisher :=
  mkReportPublisher p.(rp_ctx) p.(rp_orders) p.(rp_pending)
    (p.(rp_reports) ++
     [mkReport (bytes ++ replicate (MAX_ENCODED_SIZE - length bytes) 0) (length bytes) template_id]).

(** [ctx_.seq_num++], an encoder, [store_report]. *)
Definition report (encode : EncodeContext → option (list Z)) (template_id : Z) (p : ReportPublisher)
    : option ReportPublisher :=
  let ctx := bump_seq_num p.(rp_ctx) in
  bytes ← encode ctx;
  Some (store_report bytes template_id
          (mkReportPublisher ctx p.(rp_orders) p.(rp_pending) p.(rp_reports))).

Definition register_order (req : OrderRequest) (p : ReportPublisher) : ReportPublisher :=
  set_pending
    (<[req.(r_client_order_id) :=
       mkOrder 0 req.(r_client_order_id) 0 req.(r_price) req.(r_quantity) 0 0 req.(r_side) req.(r_type)
         req.(r_tif) 0 0 req.(r_display_qty) 0 false false]> p.(rp_pending)) p.

Definition on_order_accepted (id : OrderId) (client_order_id : Z) (ts : Timestamp) (p : ReportPublisher)
    : option ReportPublisher :=
  let order :=
    match p.(rp_pending) !! client_order_id with
    | Some o => with_ids id o.(o_client_order_id) o
    | None => with_ids id client_order_id default_order
    end in
  let p := set_pending (delete client_order_id p.(rp_pending)) p in
  let p := set_orders (<[order_key p.(rp_ctx) id := order]> p.(rp_orders)) p in
  report (encode_exec_new id client_order_id ts order) 522 p.

Definition on_order_rejected (client_order_id : Z) (ts : Timestamp) (reason : RejectReason)
    (p : ReportPublisher) : option ReportPublisher :=
  let p := set_pending (delete client_order_id p.(rp_pending)) p in
  report (encode_exec_reject client_order_id ts reason) 523 p.

Definition on_order_filled (aggressor_id resting_id : OrderId) (price : Price) (quantity : Quantity)
    (ts : Timestamp) (p : ReportPublisher) : option ReportPublisher :=
  let resting_key := order_key p.(rp_ctx) resting_id in
  let resting_order := default default_order (p.(rp_orders) !! resting_key) in
  let p := set_orders (delete resting_key p.(rp_orders)) p in
  p ← report (encode_exec_fill aggressor_id price quantity ts resting_order false) 525 p;
  let key := order_key p.(rp_ctx) aggressor_id in
  match p.(rp_orders) !! key with
  | None => Some p
  | Some o =>
      let o := set_o_filled_quantity (o.(o_filled_quantity) + quantity) o in
      let p := set_orders (if o.(o_filled_quantity) >=? o.(o_quantity) then delete key p.(rp_orders)
                           else <[key := o]> p.(rp_orders)) p in
      report (encode_exec_fill aggressor_id price quantity ts o true) 525 p
  end.

(** The order with the fill added, stored back and reported with it. *)
Definition on_order_partially_filled (aggressor_id resting_id : OrderId) (price : Price)
    (quantity : Quantity) (ts : Timestamp) (p : ReportPublisher) : option ReportPublisher :=
  let add o := set_o_filled_quantity (o.(o_filled_quantity) + quantity) o in
  let resting_key := order_key p.(rp_ctx) resting_id in
  let '(resting_order, p) :=
    match p.(rp_orders) !! resting_key with
    | Some o => (add o, set_orders (<[resting_key := add o]> p.(rp_orders)) p)
    | None => (default_order, p)
    end in
  p ← report (encode_exec_fill aggressor_id price quantity ts resting_order false) 525 p;
  let key := order_key p.(rp_ctx) aggressor_id in
  match p.(rp_orders) !! key with
  | None => Some p
  | Some o =>
      let p := set_orders (<[key := add o]> p.(rp_orders)) p in
      report (encode_exec_fill aggressor_id price quantity ts (add o) true) 525 p
  end.

Definition on_order_cancelled (id : OrderId) (ts : Timestamp) (reason : CancelReason)
    (p : ReportPublisher) : option ReportPublisher :=
  let key := order_key p.(rp_ctx) id in
  let order := default default_order (p.(rp_orders) !! key) in
  let p := set_orders (delete key p.(rp_orders)) p in
  report (encode_exec_cancel id ts reason order) 534 p.

Definition on_order_cancel_rejected (id : OrderId) (client_order_id : Z) (ts : Timestamp)
    (reason : RejectReason) (p : ReportPublisher) : option ReportPublisher :=
  report (encode_cancel_reject id client_order_id ts reason) 535 p.

Definition on_order_modified (id : OrderId) (client_order_id : Z) (new_price : Price)
    (new_qty : Quantity) (ts : Timestamp) (p : ReportPublisher) : option ReportPublisher :=
  let key := order_key p.(rp_ctx) id in
  let change o := set_o_quantity new_qty (set_o_price new_price (with_ids o.(o_id) client_order_id o)) in
  let p := set_orders (alter change key p.(rp_orders)) p in
  let order := default default_order (p.(rp_orders) !! key) in
  report (encode_exec_new id client_order_id ts order) 522 p.

(** A modify reject has the format of a cancel reject. *)
Definition on_order_modify_rejected (id : OrderId) (client_order_id : Z) (ts : Timestamp)
    (reason : RejectReason) (p : ReportPublisher) : option ReportPublisher :=
  on_order_cancel_rejected id client_order_id ts reason p.

Definition report_listener (e : event) (p : ReportPublisher) : option ReportPublisher :=
  match e with
  | OrderAccepted id cid ts => on_order_accepted id cid ts p
  | OrderRejected cid ts reason => on_order_rejected cid ts reason p
  | OrderFilled aid rid price qty ts => on_order_filled aid rid price qty ts p
  | OrderPartiallyFilled aid rid price qty _ _ ts => on_order_partially_filled aid rid price qty ts p
  | OrderCancelled id ts reason => on_order_cancelled id ts reason p
  | OrderCancelRejected id cid ts reason => on_order_cancel_rejected id cid ts reason p
  | OrderModified id cid price qty ts => on_order_modified id cid price qty ts p
  | OrderModifyRejected id cid ts reason => on_order_modify_rejected id cid ts reason p
  | _ => Some p
  end.

Fixpoint report_events (events : list event) (p : ReportPublisher) : option ReportPublisher :=
  match events with
  | [] => Some p
  | e :: events' => p' ← report_listener e p; report_events events' p'
  end.

Definition report_bytes (r : EncodedReport) : list Z := take r.(rep_length) r.(rep_data).

(** ** Every report decodes *)

(** The sequence number an execution report carries. *)
Definition report_seq (d : Decoded) : option Z :=
  match d with
  | DecodedExecNew522 m => Some m.(e522_seq_num)
  | DecodedExecReject523 m => Some m.(e523_seq_num)
  | DecodedExecTrade525 m _ => Some m.(e525_seq_num)
  | DecodedExecCancel534 m => Some m.(e534_seq_num)
  | DecodedCancelReject535 m => Some m.(x535_seq_num)
  | _ => None
  end.

Definition report_context (ctx : EncodeContext) : Prop := valid_context ctx ∧ in_uint64 ctx.(ec_uuid).

(** An order whose price nine decimals can carry. *)
Definition wire_order (o : Order) : Prop :=
  in_uint64 o.(o_id) ∧ in_uint64 o.(o_client_order_id) ∧ wire_price o.(o_price).

Lemma cancel_code_range r : in_uint8 (cancel_reason_code r).
Proof. by destruct r. Qed.
Lemma reject_code_range r : in_uint16 (reject_reason_code r).
Proof. by destruct r. Qed.
Lemma engine_qty_range q : in_uint32 (engine_qty_to_wire q).
Proof. apply Z.mod_pos_bound. lia. Qed.
Lemma display_range (b : bool) q : in_uint32 (if b then engine_qty_to_wire q else UINT32_NULL).
Proof. destruct b; [apply engine_qty_range|done]. Qed.
Lemma status_range (b : bool) : in_uint8 (if b then OrdStatus_Filled else OrdStatus_PartiallyFilled).
Proof. by destruct b. Qed.
Lemma flag_range (b : bool) : in_uint8 (if b then 1 else 0).
Proof. by destruct b. Qed.
Lemma zero_text : is_chars 256 (replicate 256 0).
Proof. split; [done|by apply Forall_replicate]. Qed.

Lemma exec_id_chars prefix v : 0 <= v → Forall is_byte prefix →
  is_chars 40 (snprintf 40 (prefix ++ decimal v)).
Proof.
  intros Hv Hp. apply is_chars_snprintf; [lia|]. apply Forall_app. split; [done|by apply decimal_bytes].
Qed.

Lemma wire_price_mantissa p : wire_price p → in_int64 (mkPRICE9 (p * ENGINE_TO_PRICE9_FACTOR)).(mantissa).
Proof. done. Qed.

Lemma u64_nonneg v : in_uint64 v → 0 <= v.
Proof. unfold in_uint64. lia. Qed.

(** What an encoder has to do for the stream to be decodable. *)
Definition encodes (e : EncodeContext → option (list Z)) : Prop :=
  ∀ ctx, report_context ctx → ∃ d tail,
    e ctx = Some (wire_bytes d ++ tail) ∧ decoded_fits d ∧ report_seq d = Some ctx.(ec_seq_num).

Lemma exec_id_chars1 c v : is_byte c → in_uint64 v → is_chars 40 (snprintf 40 ([c] ++ decimal v)).
Proof. intros Hc Hv. apply exec_id_chars; [by apply u64_nonneg|by apply Forall_singleton]. Qed.
Lemma exec_id_chars2 c c' v : is_byte c → is_byte c' → in_uint64 v →
  is_chars 40 (snprintf 40 ([c; c'] ++ decimal v)).
Proof.
  intros Hc Hc' Hv. apply exec_id_chars; [by apply u64_nonneg|].
  apply Forall_cons. split; [done|by apply Forall_singleton].
Qed.
Lemma cl_ord_id_chars_u64 v : in_uint64 v → is_chars 20 (snprintf 20 (decimal v)).
Proof. intros Hv. by apply cl_ord_id_chars, u64_nonneg. Qed.

(** The constants of the encoders fit their fields. *)
Lemma u8_0 : in_uint8 0. Proof. done. Qed.
Lemma u32_0 : in_uint32 0. Proof. done. Qed.
Lemma u8_null : in_uint8 UINT8_NULL. Proof. done. Qed.
Lemma u8_mode : in_uint8 ExecMode_Aggressive. Proof. done. Qed.
Lemma u16_null : in_uint16 UINT16_NULL. Proof. done. Qed.
Lemma u32_null : in_uint32 UINT32_NULL. Proof. done. Qed.
Lemma u64_null : in_uint64 UINT64_NULL. Proof. done. Qed.
Lemma i64_null : in_int64 (mkPRICE9 INT64_NULL).(mantissa). Proof. done. Qed.
Lemma byte_C : is_byte 67. Proof. done. Qed.
Lemma byte_E : is_byte 69. Proof. done. Qed.
Lemma byte_R : is_byte 82. Proof. done. Qed.
Lemma byte_T : is_byte 84. Proof. done. Qed.

Create HintDb reports discriminated.
#[local] Hint Resolve wrap_u64_range encode_side_range encode_ord_type_range encode_tif_range
  engine_qty_range display_range status_range flag_range cancel_code_range reject_code_range
  zero_text cl_ord_id_chars_u64 exec_id_chars1 exec_id_chars2 wire_price_mantissa in_uint32_64
  u8_0 u32_0 u8_null u8_mode u16_null u32_null u64_null i64_null byte_C byte_E byte_R byte_T : reports.

Ltac report_fits :=
  cbn -[snprintf decimal replicate app engine_qty_to_wire wrap_u64 Z.gtb];
  repeat match goal with |- _ ∧ _ => split end; auto with reports.

Lemma encodes_new id cid ts o : in_uint64 id → in_uint64 cid → wire_order o →
  encodes (encode_exec_new id cid ts o).
Proof.
  intros ? ? (? & ? & Hp) ctx [(? & ? & ? & ? & ?) ?]. unfold encode_exec_new.
  destruct (engine_price_wire _ Hp) as [-> _]. cbn [mbind option_bind].
  eexists (DecodedExecNew522 _), []. rewrite app_nil_r. split; [reflexivity|].
  split; [|reflexivity]. report_fits.
Qed.

Lemma encodes_reject cid ts reason : in_uint64 cid → encodes (encode_exec_reject cid ts reason).
Proof.
  intros ? ctx [(? & ? & ? & ? & ?) ?]. unfold encode_exec_reject.
  eexists (DecodedExecReject523 _), []. rewrite app_nil_r. split; [reflexivity|].
  split; [|reflexivity]. report_fits.
Qed.

Lemma encodes_cancel id ts reason o : in_uint64 id → wire_order o →
  encodes (encode_exec_cancel id ts reason o).
Proof.
  intros ? (? & ? & Hp) ctx [(? & ? & ? & ? & ?) ?]. unfold encode_exec_cancel.
  destruct (engine_price_wire _ Hp) as [-> _]. cbn [mbind option_bind].
  eexists (DecodedExecCancel534 _), []. rewrite app_nil_r. split; [reflexivity|].
  split; [|reflexivity]. report_fits.
Qed.

Lemma encodes_cancel_reject id cid ts reason : in_uint64 id → in_uint64 cid →
  encodes (encode_cancel_reject id cid ts reason).
Proof.
  intros ? ? ctx [(? & ? & ? & ? & ?) ?]. unfold encode_cancel_reject.
  eexists (DecodedCancelReject535 _), []. rewrite app_nil_r. split; [reflexivity|].
  split; [|reflexivity]. report_fits.
Qed.

Lemma encodes_fill aid price qty ts o b : in_uint64 aid → wire_price price → wire_order o →
  encodes (encode_exec_fill aid price qty ts o b).
Proof.
  intros ? Hl (? & ? & Hp) ctx [(? & ? & ? & ? & ?) ?]. unfold encode_exec_fill.
  destruct (engine_price_wire _ Hl) as [-> _]. destruct (engine_price_wire _ Hp) as [-> _].
  cbn [mbind option_bind].
  eexists (DecodedExecTrade525 _ []), (ws_put (mkGroupHeader 23 0)).
  split; [cbn [wire_bytes]; rewrite <- !app_assoc; reflexivity|].
  split; [|reflexivity]. report_fits. by vm_compute.
Qed.

(** ** The stream of reports *)

(** A report that a client decodes, with its sequence number. *)
Definition numbered (seq : Z) (r : EncodedReport) : Prop :=
  ∃ d rest, decode_ilink3_message (report_bytes r) = Got d rest ∧ report_seq d = Some seq.

(** The publisher after [n] reports in all, numbered consecutively on 32 bits. *)
Record publishes (ctx0 : EncodeContext) (p : ReportPublisher) : Prop := {
  pb_context : report_context p.(rp_ctx);
  pb_seq : p.(rp_ctx).(ec_seq_num) = wrap_u32 (ctx0.(ec_seq_num) + Z.of_nat (length p.(rp_reports)));
  pb_orders : map_Forall (λ _, wire_order) p.(rp_orders);
  pb_pending : map_Forall (λ _ o, in_uint64 o.(o_client_order_id) ∧ wire_price o.(o_price)) p.(rp_pending);
  pb_numbered i r : p.(rp_reports) !! i = Some r →
    numbered (wrap_u32 (ctx0.(ec_seq_num) + Z.of_nat i + 1)) r
}.

Lemma wire_default : wire_order default_order.
Proof. done. Qed.

(** One more report. *)
Lemma publishes_report ctx0 p e t : publishes ctx0 p → encodes e →
  ∃ p', report e t p = Some p' ∧ publishes ctx0 p' ∧
    p'.(rp_orders) = p.(rp_orders) ∧ p'.(rp_pending) = p.(rp_pending) ∧
    length p'.(rp_reports) = S (length p.(rp_reports)) ∧
    order_key p'.(rp_ctx) = order_key p.(rp_ctx).
Proof.
  intros [Hctx Hseq Ho Hp Hn] He. unfold report.
  assert (Hctx' : report_context (bump_seq_num p.(rp_ctx))).
  { destruct Hctx as [(? & ? & ? & ? & ?) ?]. split; [|done]. split_and!; try done.
    apply Z.mod_pos_bound. lia. }
  assert (Hseq' : (bump_seq_num p.(rp_ctx)).(ec_seq_num) =
            wrap_u32 (ctx0.(ec_seq_num) + Z.of_nat (length p.(rp_reports)) + 1)).
  { cbn. rewrite Hseq. unfold wrap_u32. by rewrite Z.add_mod_idemp_l by lia. }
  destruct (He _ Hctx') as (d & tail & Henc & Hfit & Hd). rewrite Henc. cbn [mbind option_bind].
  eexists. split; [reflexivity|]. cbn. rewrite length_app. split_and!; try done; [|cbn; lia].
  split; try done; cbn.
  - rewrite length_app. cbn in Hseq'. rewrite Hseq'. f_equal. cbn. lia.
  - intros i r Hi. apply lookup_app_Some in Hi as [Hi|[Hi Hr]]; [by apply Hn|].
    apply list_lookup_singleton_Some in Hr as [Hz <-]. exists d, tail. split.
    + unfold report_bytes. cbn. rewrite take_app_length. by apply recovers_message.
    + rewrite Hd, Hseq'. do 2 f_equal. lia.
Qed.

Lemma publishes_set_orders ctx0 p m : publishes ctx0 p → map_Forall (λ _, wire_order) m →
  publishes ctx0 (set_orders m p).
Proof. intros [] Hm. by split. Qed.

Lemma publishes_set_pending ctx0 p m : publishes ctx0 p →
  map_Forall (λ _ o, in_uint64 o.(o_client_order_id) ∧ wire_price o.(o_price)) m →
  publishes ctx0 (set_pending m p).
Proof. intros [] Hm. by split. Qed.

Lemma wire_order_filled q o : wire_order o → wire_order (set_o_filled_quantity q o).
Proof. done. Qed.

Lemma publishes_order ctx0 p k o : publishes ctx0 p → p.(rp_orders) !! k = Some o → wire_order o.
Proof. intros Hp Hk. by eapply (pb_orders _ _ Hp k). Qed.

Lemma publishes_order_default ctx0 p k : publishes ctx0 p →
  wire_order (default default_order (p.(rp_orders) !! k)).
Proof. intros Hp. destruct (p.(rp_orders) !! k) eqn:E; [by eapply publishes_order|apply wire_default]. Qed.

(** Identifiers are unsigned 64-bit, prices fit nine decimals. *)
Definition report_event (e : event) : Prop :=
  match e with
  | OrderAccepted id cid _ | OrderCancelRejected id cid _ _ | OrderModifyRejected id cid _ _ =>
      in_uint64 id ∧ in_uint64 cid
  | OrderRejected cid _ _ => in_uint64 cid
  | OrderFilled aid rid price _ _ | OrderPartiallyFilled aid rid price _ _ _ _ =>
      in_uint64 aid ∧ in_uint64 rid ∧ wire_price price
  | OrderCancelled id _ _ => in_uint64 id
  | OrderModified id cid price _ _ => in_uint64 id ∧ in_uint64 cid ∧ wire_price price
  | _ => True
  end.

Lemma accepted_publishes ctx0 p id cid ts : publishes ctx0 p → in_uint64 id → in_uint64 cid →
  ∃ p', on_order_accepted id cid ts p = Some p' ∧ publishes ctx0 p'.
Proof.
  intros Hp Hid Hcid. unfold on_order_accepted. set (o := match _ with Some _ => _ | None => _ end).
  assert (Ho : wire_order o).
  { unfold o. destruct (p.(rp_pending) !! cid) as [o'|] eqn:E; [|done].
    destruct (pb_pending _ _ Hp cid o' E). by split_and!. }
  edestruct (publishes_report ctx0) as (p' & -> & Hp' & _); [|by apply encodes_new|by exists p'].
  apply publishes_set_orders; [|apply map_Forall_insert_2; [done|apply Hp]].
  apply publishes_set_pending; [done|]. apply map_Forall_delete, Hp.
Qed.

Lemma cancelled_publishes ctx0 p id ts reason : publishes ctx0 p → in_uint64 id →
  ∃ p', on_order_cancelled id ts reason p = Some p' ∧ publishes ctx0 p'.
Proof.
  intros Hp Hid. unfold on_order_cancelled.
  edestruct (publishes_report ctx0) as (p' & -> & Hp' & _); [| |by exists p'].
  - apply publishes_set_orders; [done|]. apply map_Forall_delete, Hp.
  - apply encodes_cancel; [done|]. by eapply publishes_order_default.
Qed.

Lemma modified_publishes ctx0 p id cid price qty ts :
  publishes ctx0 p → in_uint64 id → in_uint64 cid → wire_price price →
  ∃ p', on_order_modified id cid price qty ts p = Some p' ∧ publishes ctx0 p'.
Proof.
  intros Hp Hid Hcid Hprice. unfold on_order_modified.
  set (p1 := set_orders _ p). assert (Hp1 : publishes ctx0 p1).
  { apply publishes_set_orders; [done|]. intros k o Hk. apply lookup_alter_Some in Hk as [(_ & o' & Ho' & ->)|(_ & Hk)].
    - destruct (publishes_order _ _ _ _ Hp Ho') as (? & ? & ?). by split_and!.
    - by eapply publishes_order. }
  edestruct (publishes_report ctx0 p1) as (p' & -> & Hp' & _); [done| |by exists p'].
  apply encodes_new; [done..|]. by eapply (publishes_order_default ctx0 p1).
Qed.

Lemma filled_publishes ctx0 p aid rid price qty ts :
  publishes ctx0 p → in_uint64 aid → wire_price price →
  ∃ p', on_order_filled aid rid price qty ts p = Some p' ∧ publishes ctx0 p'.
Proof.
  intros Hp Haid Hprice. unfold on_order_filled.
  set (p1 := set_orders _ p). assert (Hp1 : publishes ctx0 p1)
    by (apply publishes_set_orders; [done|apply map_Forall_delete, Hp]).
  edestruct (publishes_report ctx0 p1) as (p2 & -> & Hp2 & _);
    [done|by eapply encodes_fill, publishes_order_default|]. cbn [mbind option_bind].
  destruct (p2.(rp_orders) !! _) as [o|] eqn:E; [|by exists p2].
  assert (Ho : wire_order o) by by eapply publishes_order.
  edestruct (publishes_report ctx0) as (p3 & -> & Hp3 & _); [|by apply encodes_fill|by exists p3].
  apply publishes_set_orders; [done|]. case_match; [apply map_Forall_delete, Hp2|].
  apply map_Forall_insert_2; [done|apply Hp2].
Qed.

Lemma partially_filled_publishes ctx0 p aid rid price qty ts :
  publishes ctx0 p → in_uint64 aid → wire_price price →
  ∃ p', on_order_partially_filled aid rid price qty ts p = Some p' ∧ publishes ctx0 p'.
Proof.
  intros Hp Haid Hprice. unfold on_order_partially_filled.
  match goal with |- context [let '(_, _) := ?m in _] => destruct m as [o1 p1] eqn:E1 end.
  assert (H1 : wire_order o1 ∧ publishes ctx0 p1).
  { destruct (p.(rp_orders) !! _) as [o|] eqn:E; injection E1 as <- <-; [|by split; [apply wire_default|]].
    assert (wire_order o) by by eapply publishes_order. split; [done|].
    apply publishes_set_orders; [done|]. apply map_Forall_insert_2; [done|apply Hp]. }
  destruct H1 as [Ho1 Hp1].
  edestruct (publishes_report ctx0 p1) as (p2 & -> & Hp2 & _); [done|by apply encodes_fill|].
  cbn [mbind option_bind].
  destruct (p2.(rp_orders) !! _) as [o|] eqn:E; [|by exists p2].
  assert (Ho : wire_order o) by by eapply publishes_order.
  edestruct (publishes_report ctx0) as (p3 & -> & Hp3 & _); [|by apply encodes_fill|by exists p3].
  apply publishes_set_orders; [done|]. apply map_Forall_insert_2; [done|apply Hp2].
Qed.

Lemma cancel_rejected_publishes ctx0 p id cid ts reason :
  publishes ctx0 p → in_uint64 id → in_uint64 cid →
  ∃ p', on_order_cancel_rejected id cid ts reason p = Some p' ∧ publishes ctx0 p'.
Proof.
  intros Hp Hid Hcid. unfold on_order_cancel_rejected.
  edestruct (publishes_report ctx0 p) as (p' & -> & Hp' & _);
    [done|by apply encodes_cancel_reject|by exists p'].
Qed.

Lemma listener_publishes ctx0 p e : publishes ctx0 p → report_event e →
  ∃ p', report_listener e p = Some p' ∧ publishes ctx0 p'.
Proof.
  intros Hp He. destruct e; cbn [report_listener report_event] in *; destruct_and?; try (by exists p).
  - by apply accepted_publishes.
  - unfold on_order_rejected.
    edestruct (publishes_report ctx0) as (p' & -> & Hp' & _); [|by apply encodes_reject|by exists p'].
    apply publishes_set_pending; [done|]. apply map_Forall_delete, Hp.
  - by apply filled_publishes.
  - by apply partially_filled_publishes.
  - by apply cancelled_publishes.
  - by apply cancel_rejected_publishes.
  - by apply modified_publishes.
  - by apply cancel_rejected_publishes.
Qed.

(** What the publisher is told: an order about to be submitted, or an event. *)
Inductive report_action : Type :=
  | Register (req : OrderRequest)
  | Report (e : event).

Definition report_action_ok (a : report_action) : Prop :=
  match a with
  | Register req => in_uint64 req.(r_client_order_id) ∧ wire_price req.(r_price)
  | Report e => report_event e
  end.

Fixpoint run_actions (actions : list report_action) (p : ReportPublisher) : option ReportPublisher :=
  match actions with
  | [] => Some p
  | Register req :: actions' => run_actions actions' (register_order req p)
  | Report e :: actions' => p' ← report_listener e p; run_actions actions' p'
  end.

Lemma actions_publish ctx0 actions : Forall report_action_ok actions → ∀ p, publishes ctx0 p →
  ∃ p', run_actions actions p = Some p' ∧ publishes ctx0 p'.
Proof.
  induction 1 as [|[req|e] actions Ha _ IH]; intros p Hp; cbn [run_actions].
  - by exists p.
  - apply IH, publishes_set_pending; [done|]. apply map_Forall_insert_2; [done|apply Hp].
  - destruct (listener_publishes _ _ _ Hp Ha) as (p' & -> & Hp'). by apply IH.
Qed.

(** Whatever orders are registered and whatever the engine reports, with
    prices that nine decimals can carry, every report the publisher stores
    decodes to an execution report, and the reports carry consecutive sequence
    numbers from the context's on, so that a client sees every gap. *)
Theorem reports_decode_in_sequence ctx actions :
  report_context ctx → Forall report_action_ok actions →
  ∃ p, run_actions actions (initial_reports ctx) = Some p ∧
    ∀ i r, p.(rp_reports) !! i = Some r →
      ∃ d rest, decode_ilink3_message (report_bytes r) = Got d rest ∧
        report_seq d = Some (wrap_u32 (ctx.(ec_seq_num) + Z.of_nat i + 1)).
Proof.
  intros Hctx Hact. destruct (actions_publish ctx actions Hact (initial_reports ctx)) as (p & Hr & Hp).
  - split; try done. cbn. rewrite Z.add_0_r. symmetry. apply wrap_u32_id, Hctx.
  - exists p. split; [done|]. intros i r Hi. exact (pb_numbered _ _ Hp i r Hi).
Qed.

(** ** A partial fill is counted twice

    The order remembered for a fill report already has the fill added when the
    encoder adds it again: after half of a resting order of ten lots trades,
    its report says that all ten have traded and none are left. *)

Definition demo_resting : OrderRequest := mkRequest 7 0 Buy Limit DAY 1000000 100000 0 1 0 0 false.
Definition demo_actions : list report_action :=
  [Register demo_resting; Report (OrderAccepted 1 7 10);
   Report (OrderPartiallyFilled 2 1 1000000 50000 0 50000 11)].

Definition last_trade_report (p : ReportPublisher) : option (Z * Z * Z) :=
  match last p.(rp_reports) with
  | Some r =>
      match decode_ilink3_message (report_bytes r) with
      | Got (DecodedExecTrade525 m _) _ => Some (m.(e525_cum_qty), m.(e525_leaves_qty), m.(e525_ord_status))
      | _ => None
      end
  | None => None
  end.

Lemma partial_fill_counted_twice :
  (p ← run_actions demo_actions (initial_reports demo_ctx); last_trade_report p) =
    Some (10, 0, OrdStatus_Filled).
Proof. by vm_compute. Qed.

Lemma demo_report_context : report_context demo_ctx.
Proof. split; [apply demo_ctx_valid|done]. Qed.

Lemma reports_decode_in_sequence_witness :
  ∃ p, run_actions demo_actions (initial_reports demo_ctx) = Some p ∧
    ∀ i r, p.(rp_reports) !! i = Some r →
      ∃ d rest, decode_ilink3_message (report_bytes r) = Got d rest ∧
        report_seq d = Some (wrap_u32 (5 + Z.of_nat i + 1)).
Proof.
  apply (reports_decode_in_sequence demo_ctx demo_actions demo_report_context).
  do 3 (apply Forall_cons; split; [by vm_compute|]). done.
Defined.
