(* ===== verification/Mdp3Messages.v ===== *)
(** * MDP 3: the messages of [mdp3_messages.h]

    The packed structs of the market data protocol of CME, each with its layout
    on the wire and the laws of the layout.  A [MaturityMonthYear] is its four
    fields in line; a single [char] is its code. *)

From S2P Require Import Prelude Types Wire Sbe.

(** ** The 8-byte aligned group header *)

Record GroupHeader8Byte : Type := mkGroupHeader8Byte {
  g8_block_length : Z; g8_padding : list Z; g8_num_in_group : Z
}.

#[global] Instance GroupHeader8Byte_struct : WireStruct GroupHeader8Byte := {
  ws_put h := le_bytes 2 h.(g8_block_length) ++ h.(g8_padding) ++ le_bytes 1 h.(g8_num_in_group) ++ [];
  ws_get := len ← read_uint 2; padding ← read_bytes 5; n ← read_uint 1;
            mret (mkGroupHeader8Byte len padding n);
  ws_size := 8;
  ws_fits h := in_uint16 h.(g8_block_length) ∧ is_chars 5 h.(g8_padding) ∧ in_uint8 h.(g8_num_in_group)
}.

(** [encode_to] writes zero padding. *)
#[global] Instance GroupHeader8Byte_framing : GroupFraming GroupHeader8Byte := {
  gf_block_length := g8_block_length;
  gf_num_in_group := g8_num_in_group;
  gf_make len n := mkGroupHeader8Byte len [0; 0; 0; 0; 0] n
}.

(** ** Message structs *)

Record SecurityStatus30 : Type := mkSecurityStatus30 {
  s30_transact_time : Z; s30_security_group : list Z; s30_asset : list Z; s30_security_id : Z;
  s30_trade_date : Z; s30_match_event_indicator : Z; s30_security_trading_status : Z;
  s30_halt_reason : Z; s30_security_trading_event : Z
}.

#[global] Instance SecurityStatus30_struct : WireStruct SecurityStatus30 := {
  ws_put m :=
    le_bytes 8 m.(s30_transact_time) ++ m.(s30_security_group) ++ m.(s30_asset) ++
    le_bytes 4 m.(s30_security_id) ++ le_bytes 2 m.(s30_trade_date) ++
    le_bytes 1 m.(s30_match_event_indicator) ++ le_bytes 1 m.(s30_security_trading_status) ++
    le_bytes 1 m.(s30_halt_reason) ++ le_bytes 1 m.(s30_security_trading_event) ++ [];
  ws_get :=
    transact_time ← read_uint 8; security_group ← read_bytes 6; asset ← read_bytes 6;
    security_id ← read_int 4; trade_date ← read_uint 2; match_event_indicator ← read_uint 1;
    security_trading_status ← read_uint 1; halt_reason ← read_uint 1;
    security_trading_event ← read_uint 1;
    mret (mkSecurityStatus30
      transact_time security_group asset security_id trade_date match_event_indicator
      security_trading_status halt_reason security_trading_event);
  ws_size := 30;
  ws_fits m :=
    in_uint64 m.(s30_transact_time) ∧ is_chars 6 m.(s30_security_group) ∧
    is_chars 6 m.(s30_asset) ∧ in_int32 m.(s30_security_id) ∧ in_uint16 m.(s30_trade_date) ∧
    in_uint8 m.(s30_match_event_indicator) ∧ in_uint8 m.(s30_security_trading_status) ∧
    in_uint8 m.(s30_halt_reason) ∧ in_uint8 m.(s30_security_trading_event)
}.

Record MDIncrementalRefreshBook46 : Type := mkMDIncrementalRefreshBook46 {
  b46_transact_time : Z; b46_match_event_indicator : Z; b46_padding : list Z
}.

#[global] Instance MDIncrementalRefreshBook46_struct : WireStruct MDIncrementalRefreshBook46 := {
  ws_put m :=
    le_bytes 8 m.(b46_transact_time) ++ le_bytes 1 m.(b46_match_event_indicator) ++
    m.(b46_padding) ++ [];
  ws_get :=
    transact_time ← read_uint 8; match_event_indicator ← read_uint 1; padding ← read_bytes 2;
    mret (mkMDIncrementalRefreshBook46
      transact_time match_event_indicator padding);
  ws_size := 11;
  ws_fits m :=
    in_uint64 m.(b46_transact_time) ∧ in_uint8 m.(b46_match_event_indicator) ∧
    is_chars 2 m.(b46_padding)
}.

Record RefreshBookEntry : Type := mkRefreshBookEntry {
  rb_md_entry_px : PRICE9; rb_md_entry_size : Z; rb_security_id : Z; rb_rpt_seq : Z;
  rb_number_of_orders : Z; rb_md_price_level : Z; rb_md_update_action : Z; rb_md_entry_type : Z;
  rb_tradeable_size : Z; rb_padding : Z
}.

#[global] Instance RefreshBookEntry_struct : WireStruct RefreshBookEntry := {
  ws_put m :=
    le_bytes 8 m.(rb_md_entry_px).(mantissa) ++ le_bytes 4 m.(rb_md_entry_size) ++
    le_bytes 4 m.(rb_security_id) ++ le_bytes 4 m.(rb_rpt_seq) ++
    le_bytes 4 m.(rb_number_of_orders) ++ le_bytes 1 m.(rb_md_price_level) ++
    le_bytes 1 m.(rb_md_update_action) ++ le_bytes 1 m.(rb_md_entry_type) ++
    le_bytes 4 m.(rb_tradeable_size) ++ le_bytes 1 m.(rb_padding) ++ [];
  ws_get :=
    md_entry_px ← read_price9; md_entry_size ← read_int 4; security_id ← read_int 4;
    rpt_seq ← read_uint 4; number_of_orders ← read_int 4; md_price_level ← read_uint 1;
    md_update_action ← read_uint 1; md_entry_type ← read_uint 1; tradeable_size ← read_int 4;
    padding ← read_uint 1;
    mret (mkRefreshBookEntry
      md_entry_px md_entry_size security_id rpt_seq number_of_orders md_price_level
      md_update_action md_entry_type tradeable_size padding);
  ws_size := 32;
  ws_fits m :=
    in_int64 m.(rb_md_entry_px).(mantissa) ∧ in_int32 m.(rb_md_entry_size) ∧
    in_int32 m.(rb_security_id) ∧ in_uint32 m.(rb_rpt_seq) ∧ in_int32 m.(rb_number_of_orders) ∧
    in_uint8 m.(rb_md_price_level) ∧ in_uint8 m.(rb_md_update_action) ∧
    in_uint8 m.(rb_md_entry_type) ∧ in_int32 m.(rb_tradeable_size) ∧ in_uint8 m.(rb_padding)
}.

Record RefreshBookOrderEntry : Type := mkRefreshBookOrderEntry {
  ro_order_id : Z; ro_md_order_priority : Z; ro_md_display_qty : Z; ro_reference_id : Z;
  ro_order_update_action : Z; ro_padding : list Z
}.

#[global] Instance RefreshBookOrderEntry_struct : WireStruct RefreshBookOrderEntry := {
  ws_put m :=
    le_bytes 8 m.(ro_order_id) ++ le_bytes 8 m.(ro_md_order_priority) ++
    le_bytes 4 m.(ro_md_display_qty) ++ le_bytes 1 m.(ro_reference_id) ++
    le_bytes 1 m.(ro_order_update_action) ++ m.(ro_padding) ++ [];
  ws_get :=
    order_id ← read_uint 8; md_order_priority ← read_uint 8; md_display_qty ← read_int 4;
    reference_id ← read_uint 1; order_update_action ← read_uint 1; padding ← read_bytes 2;
    mret (mkRefreshBookOrderEntry
      order_id md_order_priority md_display_qty reference_id order_update_action padding);
  ws_size := 24;
  ws_fits m :=
    in_uint64 m.(ro_order_id) ∧ in_uint64 m.(ro_md_order_priority) ∧
    in_int32 m.(ro_md_display_qty) ∧ in_uint8 m.(ro_reference_id) ∧
    in_uint8 m.(ro_order_update_action) ∧ is_chars 2 m.(ro_padding)
}.

Record MDIncrementalRefreshTradeSummary48 : Type := mkMDIncrementalRefreshTradeSummary48 {
  t48_transact_time : Z; t48_match_event_indicator : Z; t48_padding : list Z
}.

#[global] Instance MDIncrementalRefreshTradeSummary48_struct : WireStruct MDIncrementalRefreshTradeSummary48 := {
  ws_put m :=
    le_bytes 8 m.(t48_transact_time) ++ le_bytes 1 m.(t48_match_event_indicator) ++
    m.(t48_padding) ++ [];
  ws_get :=
    transact_time ← read_uint 8; match_event_indicator ← read_uint 1; padding ← read_bytes 2;
    mret (mkMDIncrementalRefreshTradeSummary48
      transact_time match_event_indicator padding);
  ws_size := 11;
  ws_fits m :=
    in_uint64 m.(t48_transact_time) ∧ in_uint8 m.(t48_match_event_indicator) ∧
    is_chars 2 m.(t48_padding)
}.

Record TradeSummaryEntry : Type := mkTradeSummaryEntry {
  ts_md_entry_px : PRICE9; ts_md_entry_size : Z; ts_security_id : Z; ts_rpt_seq : Z;
  ts_number_of_orders : Z; ts_aggressor_side : Z; ts_md_update_action : Z;
  ts_md_trade_entry_id : Z; ts_padding : list Z
}.

#[global] Instance TradeSummaryEntry_struct : WireStruct TradeSummaryEntry := {
  ws_put m :=
    le_bytes 8 m.(ts_md_entry_px).(mantissa) ++ le_bytes 4 m.(ts_md_entry_size) ++
    le_bytes 4 m.(ts_security_id) ++ le_bytes 4 m.(ts_rpt_seq) ++
    le_bytes 4 m.(ts_number_of_orders) ++ le_bytes 1 m.(ts_aggressor_side) ++
    le_bytes 1 m.(ts_md_update_action) ++ le_bytes 4 m.(ts_md_trade_entry_id) ++ m.(ts_padding) ++
    [];
  ws_get :=
    md_entry_px ← read_price9; md_entry_size ← read_int 4; security_id ← read_int 4;
    rpt_seq ← read_uint 4; number_of_orders ← read_int 4; aggressor_side ← read_uint 1;
    md_update_action ← read_uint 1; md_trade_entry_id ← read_uint 4; padding ← read_bytes 2;
    mret (mkTradeSummaryEntry
      md_entry_px md_entry_size security_id rpt_seq number_of_orders aggressor_side
      md_update_action md_trade_entry_id padding);
  ws_size := 32;
  ws_fits m :=
    in_int64 m.(ts_md_entry_px).(mantissa) ∧ in_int32 m.(ts_md_entry_size) ∧
    in_int32 m.(ts_security_id) ∧ in_uint32 m.(ts_rpt_seq) ∧ in_int32 m.(ts_number_of_orders) ∧
    in_uint8 m.(ts_aggressor_side) ∧ in_uint8 m.(ts_md_update_action) ∧
    in_uint32 m.(ts_md_trade_entry_id) ∧ is_chars 2 m.(ts_padding)
}.

Record TradeSummaryOrderEntry : Type := mkTradeSummaryOrderEntry {
  to_order_id : Z; to_last_qty : Z; to_padding : list Z
}.

#[global] Instance TradeSummaryOrderEntry_struct : WireStruct TradeSummaryOrderEntry := {
  ws_put m :=
    le_bytes 8 m.(to_order_id) ++ le_bytes 4 m.(to_last_qty) ++ m.(to_padding) ++ [];
  ws_get :=
    order_id ← read_uint 8; last_qty ← read_int 4; padding ← read_bytes 4;
    mret (mkTradeSummaryOrderEntry
      order_id last_qty padding);
  ws_size := 16;
  ws_fits m :=
    in_uint64 m.(to_order_id) ∧ in_int32 m.(to_last_qty) ∧ is_chars 4 m.(to_padding)
}.

Record SnapshotFullRefreshOrderBook53 : Type := mkSnapshotFullRefreshOrderBook53 {
  s53_last_msg_seq_num_processed : Z; s53_tot_num_reports : Z; s53_security_id : Z;
  s53_no_chunks : Z; s53_current_chunk : Z; s53_transact_time : Z
}.

#[global] Instance SnapshotFullRefreshOrderBook53_struct : WireStruct SnapshotFullRefreshOrderBook53 := {
  ws_put m :=
    le_bytes 4 m.(s53_last_msg_seq_num_processed) ++ le_bytes 4 m.(s53_tot_num_reports) ++
    le_bytes 4 m.(s53_security_id) ++ le_bytes 4 m.(s53_no_chunks) ++
    le_bytes 4 m.(s53_current_chunk) ++ le_bytes 8 m.(s53_transact_time) ++ [];
  ws_get :=
    last_msg_seq_num_processed ← read_uint 4; tot_num_reports ← read_uint 4;
    security_id ← read_int 4; no_chunks ← read_uint 4; current_chunk ← read_uint 4;
    transact_time ← read_uint 8;
    mret (mkSnapshotFullRefreshOrderBook53
      last_msg_seq_num_processed tot_num_reports security_id no_chunks current_chunk transact_time);
  ws_size := 28;
  ws_fits m :=
    in_uint32 m.(s53_last_msg_seq_num_processed) ∧ in_uint32 m.(s53_tot_num_reports) ∧
    in_int32 m.(s53_security_id) ∧ in_uint32 m.(s53_no_chunks) ∧ in_uint32 m.(s53_current_chunk) ∧
    in_uint64 m.(s53_transact_time)
}.

Record SnapshotOrderBookEntry : Type := mkSnapshotOrderBookEntry {
  sb_order_id : Z; sb_md_order_priority : Z; sb_md_entry_px : PRICE9; sb_md_display_qty : Z;
  sb_md_entry_type : Z
}.

#[global] Instance SnapshotOrderBookEntry_struct : WireStruct SnapshotOrderBookEntry := {
  ws_put m :=
    le_bytes 8 m.(sb_order_id) ++ le_bytes 8 m.(sb_md_order_priority) ++
    le_bytes 8 m.(sb_md_entry_px).(mantissa) ++ le_bytes 4 m.(sb_md_display_qty) ++
    le_bytes 1 m.(sb_md_entry_type) ++ [];
  ws_get :=
    order_id ← read_uint 8; md_order_priority ← read_uint 8; md_entry_px ← read_price9;
    md_display_qty ← read_int 4; md_entry_type ← read_uint 1;
    mret (mkSnapshotOrderBookEntry
      order_id md_order_priority md_entry_px md_display_qty md_entry_type);
  ws_size := 29;
  ws_fits m :=
    in_uint64 m.(sb_order_id) ∧ in_uint64 m.(sb_md_order_priority) ∧
    in_int64 m.(sb_md_entry_px).(mantissa) ∧ in_int32 m.(sb_md_display_qty) ∧
    in_uint8 m.(sb_md_entry_type)
}.

Record MDInstrumentDefinitionFuture54 : Type := mkMDInstrumentDefinitionFuture54 {
  i54_match_event_indicator : Z; i54_tot_num_reports : Z; i54_security_update_action : Z;
  i54_last_update_time : Z; i54_md_security_trading_status : Z; i54_appl_id : Z;
  i54_market_segment_id : Z; i54_underlying_product : Z; i54_security_exchange : list Z;
  i54_security_group : list Z; i54_asset : list Z; i54_symbol : list Z; i54_security_id : Z;
  i54_security_type : list Z; i54_cfi_code : list Z; i54_maturity_month_year_year : Z;
  i54_maturity_month_year_month : Z; i54_maturity_month_year_day : Z;
  i54_maturity_month_year_week : Z; i54_currency : list Z; i54_settl_currency : list Z;
  i54_match_algorithm : Z; i54_min_trade_vol : Z; i54_max_trade_vol : Z;
  i54_min_price_increment : PRICE9; i54_display_factor : PRICE9; i54_main_fraction : Z;
  i54_sub_fraction : Z; i54_price_display_format : Z; i54_unit_of_measure : list Z;
  i54_unit_of_measure_qty : PRICE9; i54_trading_reference_price : PRICE9;
  i54_settl_price_type : Z; i54_open_interest_qty : Z; i54_cleared_volume : Z;
  i54_high_limit_price : PRICE9; i54_low_limit_price : PRICE9; i54_max_price_variation : PRICE9;
  i54_decay_quantity : Z; i54_decay_start_date : Z; i54_original_contract_size : Z;
  i54_contract_multiplier : Z; i54_contract_multiplier_unit : Z; i54_flow_schedule_type : Z;
  i54_min_price_increment_amount : PRICE9; i54_user_defined_instrument : Z;
  i54_trading_reference_date : Z; i54_instrument_guid : Z
}.

#[global] Instance MDInstrumentDefinitionFuture54_struct : WireStruct MDInstrumentDefinitionFuture54 := {
  ws_put m :=
    le_bytes 1 m.(i54_match_event_indicator) ++ le_bytes 4 m.(i54_tot_num_reports) ++
    le_bytes 1 m.(i54_security_update_action) ++ le_bytes 8 m.(i54_last_update_time) ++
    le_bytes 1 m.(i54_md_security_trading_status) ++ le_bytes 2 m.(i54_appl_id) ++
    le_bytes 1 m.(i54_market_segment_id) ++ le_bytes 1 m.(i54_underlying_product) ++
    m.(i54_security_exchange) ++ m.(i54_security_group) ++ m.(i54_asset) ++ m.(i54_symbol) ++
    le_bytes 4 m.(i54_security_id) ++ m.(i54_security_type) ++ m.(i54_cfi_code) ++
    le_bytes 2 m.(i54_maturity_month_year_year) ++ le_bytes 1 m.(i54_maturity_month_year_month) ++
    le_bytes 1 m.(i54_maturity_month_year_day) ++ le_bytes 1 m.(i54_maturity_month_year_week) ++
    m.(i54_currency) ++ m.(i54_settl_currency) ++ le_bytes 1 m.(i54_match_algorithm) ++
    le_bytes 4 m.(i54_min_trade_vol) ++ le_bytes 4 m.(i54_max_trade_vol) ++
    le_bytes 8 m.(i54_min_price_increment).(mantissa) ++
    le_bytes 8 m.(i54_display_factor).(mantissa) ++ le_bytes 1 m.(i54_main_fraction) ++
    le_bytes 1 m.(i54_sub_fraction) ++ le_bytes 1 m.(i54_price_display_format) ++
    m.(i54_unit_of_measure) ++ le_bytes 8 m.(i54_unit_of_measure_qty).(mantissa) ++
    le_bytes 8 m.(i54_trading_reference_price).(mantissa) ++
    le_bytes 1 m.(i54_settl_price_type) ++ le_bytes 4 m.(i54_open_interest_qty) ++
    le_bytes 4 m.(i54_cleared_volume) ++ le_bytes 8 m.(i54_high_limit_price).(mantissa) ++
    le_bytes 8 m.(i54_low_limit_price).(mantissa) ++
    le_bytes 8 m.(i54_max_price_variation).(mantissa) ++ le_bytes 4 m.(i54_decay_quantity) ++
    le_bytes 2 m.(i54_decay_start_date) ++ le_bytes 4 m.(i54_original_contract_size) ++
    le_bytes 4 m.(i54_contract_multiplier) ++ le_bytes 1 m.(i54_contract_multiplier_unit) ++
    le_bytes 1 m.(i54_flow_schedule_type) ++
    le_bytes 8 m.(i54_min_price_increment_amount).(mantissa) ++
    le_bytes 1 m.(i54_user_defined_instrument) ++ le_bytes 2 m.(i54_trading_reference_date) ++
    le_bytes 8 m.(i54_instrument_guid) ++ [];
  ws_get :=
    match_event_indicator ← read_uint 1; tot_num_reports ← read_uint 4;
    security_update_action ← read_uint 1; last_update_time ← read_uint 8;
    md_security_trading_status ← read_uint 1; appl_id ← read_int 2;
    market_segment_id ← read_uint 1; underlying_product ← read_uint 1;
    security_exchange ← read_bytes 4; security_group ← read_bytes 6; asset ← read_bytes 6;
    symbol ← read_bytes 20; security_id ← read_int 4; security_type ← read_bytes 6;
    cfi_code ← read_bytes 6; maturity_month_year_year ← read_uint 2;
    maturity_month_year_month ← read_uint 1; maturity_month_year_day ← read_uint 1;
    maturity_month_year_week ← read_uint 1; currency ← read_bytes 3;
    settl_currency ← read_bytes 3; match_algorithm ← read_uint 1; min_trade_vol ← read_uint 4;
    max_trade_vol ← read_uint 4; min_price_increment ← read_price9; display_factor ← read_price9;
    main_fraction ← read_uint 1; sub_fraction ← read_uint 1; price_display_format ← read_uint 1;
    unit_of_measure ← read_bytes 30; unit_of_measure_qty ← read_price9;
    trading_reference_price ← read_price9; settl_price_type ← read_uint 1;
    open_interest_qty ← read_int 4; cleared_volume ← read_int 4; high_limit_price ← read_price9;
    low_limit_price ← read_price9; max_price_variation ← read_price9; decay_quantity ← read_int 4;
    decay_start_date ← read_uint 2; original_contract_size ← read_int 4;
    contract_multiplier ← read_int 4; contract_multiplier_unit ← read_int 1;
    flow_schedule_type ← read_int 1; min_price_increment_amount ← read_price9;
    user_defined_instrument ← read_uint 1; trading_reference_date ← read_uint 2;
    instrument_guid ← read_uint 8;
    mret (mkMDInstrumentDefinitionFuture54
      match_event_indicator tot_num_reports security_update_action last_update_time
      md_security_trading_status appl_id market_segment_id underlying_product security_exchange
      security_group asset symbol security_id security_type cfi_code maturity_month_year_year
      maturity_month_year_month maturity_month_year_day maturity_month_year_week currency
      settl_currency match_algorithm min_trade_vol max_trade_vol min_price_increment
      display_factor main_fraction sub_fraction price_display_format unit_of_measure
      unit_of_measure_qty trading_reference_price settl_price_type open_interest_qty
      cleared_volume high_limit_price low_limit_price max_price_variation decay_quantity
      decay_start_date original_contract_size contract_multiplier contract_multiplier_unit
      flow_schedule_type min_price_increment_amount user_defined_instrument trading_reference_date
      instrument_guid);
  ws_size := 224;
  ws_fits m :=
    in_uint8 m.(i54_match_event_indicator) ∧ in_uint32 m.(i54_tot_num_reports) ∧
    in_uint8 m.(i54_security_update_action) ∧ in_uint64 m.(i54_last_update_time) ∧
    in_uint8 m.(i54_md_security_trading_status) ∧ in_int16 m.(i54_appl_id) ∧
    in_uint8 m.(i54_market_segment_id) ∧ in_uint8 m.(i54_underlying_product) ∧
    is_chars 4 m.(i54_security_exchange) ∧ is_chars 6 m.(i54_security_group) ∧
    is_chars 6 m.(i54_asset) ∧ is_chars 20 m.(i54_symbol) ∧ in_int32 m.(i54_security_id) ∧
    is_chars 6 m.(i54_security_type) ∧ is_chars 6 m.(i54_cfi_code) ∧
    in_uint16 m.(i54_maturity_month_year_year) ∧ in_uint8 m.(i54_maturity_month_year_month) ∧
    in_uint8 m.(i54_maturity_month_year_day) ∧ in_uint8 m.(i54_maturity_month_year_week) ∧
    is_chars 3 m.(i54_currency) ∧ is_chars 3 m.(i54_settl_currency) ∧
    in_uint8 m.(i54_match_algorithm) ∧ in_uint32 m.(i54_min_trade_vol) ∧
    in_uint32 m.(i54_max_trade_vol) ∧ in_int64 m.(i54_min_price_increment).(mantissa) ∧
    in_int64 m.(i54_display_factor).(mantissa) ∧ in_uint8 m.(i54_main_fraction) ∧
    in_uint8 m.(i54_sub_fraction) ∧ in_uint8 m.(i54_price_display_format) ∧
    is_chars 30 m.(i54_unit_of_measure) ∧ in_int64 m.(i54_unit_of_measure_qty).(mantissa) ∧
    in_int64 m.(i54_trading_reference_price).(mantissa) ∧ in_uint8 m.(i54_settl_price_type) ∧
    in_int32 m.(i54_open_interest_qty) ∧ in_int32 m.(i54_cleared_volume) ∧
    in_int64 m.(i54_high_limit_price).(mantissa) ∧ in_int64 m.(i54_low_limit_price).(mantissa) ∧
    in_int64 m.(i54_max_price_variation).(mantissa) ∧ in_int32 m.(i54_decay_quantity) ∧
    in_uint16 m.(i54_decay_start_date) ∧ in_int32 m.(i54_original_contract_size) ∧
    in_int32 m.(i54_contract_multiplier) ∧ in_int8 m.(i54_contract_multiplier_unit) ∧
    in_int8 m.(i54_flow_schedule_type) ∧ in_int64 m.(i54_min_price_increment_amount).(mantissa) ∧
    in_uint8 m.(i54_user_defined_instrument) ∧ in_uint16 m.(i54_trading_reference_date) ∧
    in_uint64 m.(i54_instrument_guid)
}.

Record InstrDefEventEntry : Type := mkInstrDefEventEntry {
  ev_event_type : Z; ev_event_time : Z
}.

#[global] Instance InstrDefEventEntry_struct : WireStruct InstrDefEventEntry := {
  ws_put m :=
    le_bytes 1 m.(ev_event_type) ++ le_bytes 8 m.(ev_event_time) ++ [];
  ws_get :=
    event_type ← read_uint 1; event_time ← read_uint 8;
    mret (mkInstrDefEventEntry
      event_type event_time);
  ws_size := 9;
  ws_fits m :=
    in_uint8 m.(ev_event_type) ∧ in_uint64 m.(ev_event_time)
}.

Record InstrDefFeedTypeEntry : Type := mkInstrDefFeedTypeEntry {
  ft_md_feed_type : list Z; ft_market_depth : Z
}.

#[global] Instance InstrDefFeedTypeEntry_struct : WireStruct InstrDefFeedTypeEntry := {
  ws_put m :=
    m.(ft_md_feed_type) ++ le_bytes 1 m.(ft_market_depth) ++ [];
  ws_get :=
    md_feed_type ← read_bytes 3; market_depth ← read_int 1;
    mret (mkInstrDefFeedTypeEntry
      md_feed_type market_depth);
  ws_size := 4;
  ws_fits m :=
    is_chars 3 m.(ft_md_feed_type) ∧ in_int8 m.(ft_market_depth)
}.

Record InstrDefAttribEntry : Type := mkInstrDefAttribEntry {
  ia_inst_attrib_value : Z
}.

#[global] Instance InstrDefAttribEntry_struct : WireStruct InstrDefAttribEntry := {
  ws_put m :=
    le_bytes 4 m.(ia_inst_attrib_value) ++ [];
  ws_get :=
    inst_attrib_value ← read_uint 4;
    mret (mkInstrDefAttribEntry
      inst_attrib_value);
  ws_size := 4;
  ws_fits m :=
    in_uint32 m.(ia_inst_attrib_value)
}.

Record InstrDefLotTypeEntry : Type := mkInstrDefLotTypeEntry {
  lt_lot_type : Z; lt_min_lot_size : Z
}.

#[global] Instance InstrDefLotTypeEntry_struct : WireStruct InstrDefLotTypeEntry := {
  ws_put m :=
    le_bytes 1 m.(lt_lot_type) ++ le_bytes 4 m.(lt_min_lot_size) ++ [];
  ws_get :=
    lot_type ← read_int 1; min_lot_size ← read_int 4;
    mret (mkInstrDefLotTypeEntry
      lot_type min_lot_size);
  ws_size := 5;
  ws_fits m :=
    in_int8 m.(lt_lot_type) ∧ in_int32 m.(lt_min_lot_size)
}.

(** ** Templates *)

#[global] Instance SecurityStatus30_template : Template SecurityStatus30 := 30.
#[global] Instance MDIncrementalRefreshBook46_template : Template MDIncrementalRefreshBook46 := 46.
#[global] Instance MDIncrementalRefreshTradeSummary48_template : Template MDIncrementalRefreshTradeSummary48 := 48.
#[global] Instance SnapshotFullRefreshOrderBook53_template : Template SnapshotFullRefreshOrderBook53 := 53.
#[global] Instance MDInstrumentDefinitionFuture54_template : Template MDInstrumentDefinitionFuture54 := 54.

(** [make_header]: [BLOCK_LENGTH] is the size of the struct (the [static_assert]s). *)
Definition make_header (A : Type) `{Template A} : MessageHeader :=
  mkMessageHeader (Z.of_nat (ws_size (A := A))) template_id_of MDP3_SCHEMA_ID MDP3_VERSION.

(** ** Laws of the layouts *)

#[global] Instance GroupHeader8Byte_ok : WireStructOk GroupHeader8Byte.
Proof. struct_ok GroupHeader8Byte_struct. Qed.
#[global] Instance GroupHeader8Byte_reads : WireStructReads GroupHeader8Byte.
Proof. struct_reads. Qed.
#[global] Instance GroupHeader8Byte_framing_ok : GroupFramingOk GroupHeader8Byte.
Proof.
  split; [done|done|]. intros len n Hlen Hn. cbn. split_and!; [done| |done].
  by apply (bool_decide_eq_true_1 (is_chars _ _)); vm_compute.
Qed.
#[global] Instance SecurityStatus30_ok : WireStructOk SecurityStatus30.
Proof. struct_ok SecurityStatus30_struct. Qed.
#[global] Instance MDIncrementalRefreshBook46_ok : WireStructOk MDIncrementalRefreshBook46.
Proof. struct_ok MDIncrementalRefreshBook46_struct. Qed.
#[global] Instance RefreshBookEntry_ok : WireStructOk RefreshBookEntry.
Proof. struct_ok RefreshBookEntry_struct. Qed.
#[global] Instance RefreshBookOrderEntry_ok : WireStructOk RefreshBookOrderEntry.
Proof. struct_ok RefreshBookOrderEntry_struct. Qed.
#[global] Instance MDIncrementalRefreshTradeSummary48_ok : WireStructOk MDIncrementalRefreshTradeSummary48.
Proof. struct_ok MDIncrementalRefreshTradeSummary48_struct. Qed.
#[global] Instance TradeSummaryEntry_ok : WireStructOk TradeSummaryEntry.
Proof. struct_ok TradeSummaryEntry_struct. Qed.
#[global] Instance TradeSummaryOrderEntry_ok : WireStructOk TradeSummaryOrderEntry.
Proof. struct_ok TradeSummaryOrderEntry_struct. Qed.
#[global] Instance SnapshotFullRefreshOrderBook53_ok : WireStructOk SnapshotFullRefreshOrderBook53.
Proof. struct_ok SnapshotFullRefreshOrderBook53_struct. Qed.
#[global] Instance SnapshotOrderBookEntry_ok : WireStructOk SnapshotOrderBookEntry.
Proof. struct_ok SnapshotOrderBookEntry_struct. Qed.
#[global] Instance MDInstrumentDefinitionFuture54_ok : WireStructOk MDInstrumentDefinitionFuture54.
Proof. struct_ok MDInstrumentDefinitionFuture54_struct. Qed.
#[global] Instance InstrDefEventEntry_ok : WireStructOk InstrDefEventEntry.
Proof. struct_ok InstrDefEventEntry_struct. Qed.
#[global] Instance InstrDefFeedTypeEntry_ok : WireStructOk InstrDefFeedTypeEntry.
Proof. struct_ok InstrDefFeedTypeEntry_struct. Qed.
#[global] Instance InstrDefAttribEntry_ok : WireStructOk InstrDefAttribEntry.
Proof. struct_ok InstrDefAttribEntry_struct. Qed.
#[global] Instance InstrDefLotTypeEntry_ok : WireStructOk InstrDefLotTypeEntry.
Proof. struct_ok InstrDefLotTypeEntry_struct. Qed.
#[global] Instance SecurityStatus30_reads : WireStructReads SecurityStatus30.
Proof. struct_reads. Qed.
#[global] Instance MDIncrementalRefreshBook46_reads : WireStructReads MDIncrementalRefreshBook46.
Proof. struct_reads. Qed.
#[global] Instance RefreshBookEntry_reads : WireStructReads RefreshBookEntry.
Proof. struct_reads. Qed.
#[global] Instance RefreshBookOrderEntry_reads : WireStructReads RefreshBookOrderEntry.
Proof. struct_reads. Qed.
#[global] Instance MDIncrementalRefreshTradeSummary48_reads : WireStructReads MDIncrementalRefreshTradeSummary48.
Proof. struct_reads. Qed.
#[global] Instance TradeSummaryEntry_reads : WireStructReads TradeSummaryEntry.
Proof. struct_reads. Qed.
#[global] Instance TradeSummaryOrderEntry_reads : WireStructReads TradeSummaryOrderEntry.
Proof. struct_reads. Qed.
#[global] Instance SnapshotFullRefreshOrderBook53_reads : WireStructReads SnapshotFullRefreshOrderBook53.
Proof. struct_reads. Qed.
#[global] Instance SnapshotOrderBookEntry_reads : WireStructReads SnapshotOrderBookEntry.
Proof. struct_reads. Qed.
#[global] Instance MDInstrumentDefinitionFuture54_reads : WireStructReads MDInstrumentDefinitionFuture54.
Proof. struct_reads. Qed.
#[global] Instance InstrDefEventEntry_reads : WireStructReads InstrDefEventEntry.
Proof. struct_reads. Qed.
#[global] Instance InstrDefFeedTypeEntry_reads : WireStructReads InstrDefFeedTypeEntry.
Proof. struct_reads. Qed.
#[global] Instance InstrDefAttribEntry_reads : WireStructReads InstrDefAttribEntry.
Proof. struct_reads. Qed.
#[global] Instance InstrDefLotTypeEntry_reads : WireStructReads InstrDefLotTypeEntry.
Proof. struct_reads. Qed.
