(* ===== verification/Mdp3.v ===== *)
(** * MDP 3: encoders, decoder and feed publisher

    [mdp3_encoder.h], [mdp3_decoder.h], [mdp3_feed_publisher.h] and the product
    record of [cme_products.h].  An encoder writes to a buffer that is large
    enough and returns the bytes with the new context, or [None] where the price
    conversion overflows (undefined in C++). *)

From S2P Require Import Prelude Types Wire Sbe Mdp3Messages.

(** ** Conversions of the encoder *)

Definition ENGINE_TO_PRICE9_FACTOR : Z := 100000.

Definition engine_price_to_price9 (p : Price) : option PRICE9 :=
  let m := p * ENGINE_TO_PRICE9_FACTOR in
  if bool_decide (int64_min <= m <= int64_max) then Some (mkPRICE9 m) else None.

Definition engine_price_to_pricenull9 (p : Price) : option PRICE9 :=
  if p =? 0 then Some (mkPRICE9 INT64_NULL) else engine_price_to_price9 p.

Definition engine_qty_to_wire (q : Quantity) : Z := wrap_s32 (Z.quot q PRICE_SCALE).

Inductive MDUpdateAction : Type :=
  | New
  | Change
  | Delete
  | DeleteThru
  | DeleteFrom
  | Overlay.
Definition update_action_code (a : MDUpdateAction) : Z :=
  match a with New => 0 | Change => 1 | Delete => 2 | DeleteThru => 3 | DeleteFrom => 4 | Overlay => 5 end.

Definition encode_md_update_action (a : DepthAction) : Z :=
  update_action_code
    match a with DepthAdd => New | DepthUpd => Change | DepthRemove => Delete end.

(** ASCII '0' and '1'. *)
Definition encode_md_entry_type_book (side : Side) : Z := match side with Buy => 48 | Sell => 49 end.

Definition encode_aggressor_side (side : Side) : Z := match side with Buy => 1 | Sell => 2 end.

Inductive SecurityTradingStatus : Type :=
  | TradingHalt
  | Close
  | NewPriceIndication
  | ReadyToTrade
  | NotAvailableForTrading
  | UnknownOrInvalid
  | StatusPreOpen
  | PreCross
  | Cross
  | PostClose
  | NoChange
  | PrivateWorkup
  | PublicWorkup.
Definition trading_status_code (s : SecurityTradingStatus) : Z :=
  match s with
  | TradingHalt => 2
  | Close => 4
  | NewPriceIndication => 15
  | ReadyToTrade => 17
  | NotAvailableForTrading => 18
  | UnknownOrInvalid => 20
  | StatusPreOpen => 21
  | PreCross => 24
  | Cross => 25
  | PostClose => 26
  | NoChange => 103
  | PrivateWorkup => 201
  | PublicWorkup => 202
  end.

Definition encode_security_trading_status (state : SessionState) : Z :=
  trading_status_code
    match state with
    | Closed => Close
    | PreOpen => StatusPreOpen
    | OpeningAuction => PreCross
    | Continuous => ReadyToTrade
    | PreClose => PostClose
    | ClosingAuction => Cross
    | Halt | LockLimit => TradingHalt
    | VolatilityAuction => PreCross
    end.

(** ** Encoders *)

Record Mdp3EncodeContext : Type := mkMdp3Context {
  mc_security_id : Z; mc_rpt_seq : Z; mc_security_group : list Z; mc_asset : list Z
}.

(** [++ctx.rpt_seq]. *)
Definition bump_rpt_seq (ctx : Mdp3EncodeContext) : Mdp3EncodeContext :=
  mkMdp3Context ctx.(mc_security_id) (wrap_u32 (ctx.(mc_rpt_seq) + 1)) ctx.(mc_security_group)
    ctx.(mc_asset).

(** EndOfEvent. *)
Definition end_of_event : Z := 128.

(** A book message: header, root, the entries and no order entries. *)
Definition put_book (ts : Timestamp) (entries : list RefreshBookEntry) : list Z :=
  ws_put (make_header MDIncrementalRefreshBook46) ++
  ws_put (mkMDIncrementalRefreshBook46 (wrap_u64 ts) end_of_event [0; 0]) ++
  put_group GroupHeader entries ++
  put_group GroupHeader8Byte (A := RefreshBookOrderEntry) [].

Definition encode_depth_update (side : Side) (price : Price) (total_qty : Quantity) (order_count : Z)
    (action : DepthAction) (ts : Timestamp) (ctx : Mdp3EncodeContext)
    : option (list Z * Mdp3EncodeContext) :=
  md_entry_px ← engine_price_to_price9 price;
  let ctx := bump_rpt_seq ctx in
  let size := engine_qty_to_wire total_qty in
  let entry := mkRefreshBookEntry md_entry_px size ctx.(mc_security_id) ctx.(mc_rpt_seq)
                 (wrap_s32 order_count) 1 (encode_md_update_action action)
                 (encode_md_entry_type_book side) size 0 in
  Some (put_book ts [entry], ctx).

(** The lambda [write_entry]. *)
Definition top_entry (price : Price) (qty : Quantity) (side : Side) (ctx : Mdp3EncodeContext)
    : option (RefreshBookEntry * Mdp3EncodeContext) :=
  md_entry_px ← engine_price_to_pricenull9 price;
  let ctx := bump_rpt_seq ctx in
  let size := engine_qty_to_wire qty in
  Some (mkRefreshBookEntry md_entry_px size ctx.(mc_security_id) ctx.(mc_rpt_seq) INT32_NULL 1
          (update_action_code Change) (encode_md_entry_type_book side) size 0, ctx).

Definition encode_top_of_book (best_bid : Price) (bid_qty : Quantity) (best_ask : Price)
    (ask_qty : Quantity) (ts : Timestamp) (ctx : Mdp3EncodeContext)
    : option (list Z * Mdp3EncodeContext) :=
  '(bid, ctx) ← top_entry best_bid bid_qty Buy ctx;
  '(ask, ctx) ← top_entry best_ask ask_qty Sell ctx;
  Some (put_book ts [bid; ask], ctx).

Definition encode_trade (price : Price) (quantity : Quantity) (aggressor_side : Side) (ts : Timestamp)
    (ctx : Mdp3EncodeContext) : option (list Z * Mdp3EncodeContext) :=
  md_entry_px ← engine_price_to_price9 price;
  let ctx := bump_rpt_seq ctx in
  let entry := mkTradeSummaryEntry md_entry_px (engine_qty_to_wire quantity) ctx.(mc_security_id)
                 ctx.(mc_rpt_seq) 2 (encode_aggressor_side aggressor_side) (update_action_code New)
                 ctx.(mc_rpt_seq) [0; 0] in
  Some (ws_put (make_header MDIncrementalRefreshTradeSummary48) ++
        ws_put (mkMDIncrementalRefreshTradeSummary48 (wrap_u64 ts) end_of_event [0; 0]) ++
        put_group GroupHeader [entry] ++
        put_group GroupHeader8Byte (A := TradeSummaryOrderEntry) [], ctx).

Definition encode_market_status (state : SessionState) (ts : Timestamp) (ctx : Mdp3EncodeContext)
    : option (list Z * Mdp3EncodeContext) :=
  Some (ws_put (make_header SecurityStatus30) ++
        ws_put (mkSecurityStatus30 (wrap_u64 ts) ctx.(mc_security_group) ctx.(mc_asset)
          ctx.(mc_security_id) UINT16_NULL end_of_event (encode_security_trading_status state) 0 0), ctx).

(** *** Instrument definitions; strings are byte lists *)

Record CmeProductConfig : Type := mkCmeProduct {
  cp_instrument_id : Z; cp_symbol : list Z; cp_description : list Z; cp_product_group : list Z;
  cp_tick_size : Price; cp_lot_size : Quantity; cp_max_order_size : Quantity; cp_band_pct : Z
}.

(** The first [n] characters in an array of [n] spaces. *)
Definition space_padded (n : nat) (s : list Z) : list Z :=
  let len := Nat.min (length s) n in take len s ++ replicate (n - len) 32.

(** ASCII: "XCME", "FUT   ", "FXXXXX", "USD", "GBX". *)
Definition xcme : list Z := [88; 67; 77; 69].
Definition fut : list Z := [70; 85; 84; 32; 32; 32].
Definition cfi : list Z := [70; 88; 88; 88; 88; 88].
Definition usd : list Z := [85; 83; 68].
Definition gbx : list Z := [71; 66; 88].

Definition null_price : PRICE9 := mkPRICE9 INT64_NULL.

Definition instrument_root (product : CmeProductConfig) (tot_num_reports : Z) (increment : PRICE9)
    : MDInstrumentDefinitionFuture54 :=
  mkMDInstrumentDefinitionFuture54 0 tot_num_reports 65 0 (trading_status_code ReadyToTrade) 300 0 0
    xcme (space_padded 6 product.(cp_product_group)) (space_padded 6 product.(cp_symbol))
    (space_padded 20 product.(cp_symbol)) (wrap_s32 product.(cp_instrument_id)) fut cfi
    UINT16_NULL UINT8_NULL UINT8_NULL UINT8_NULL usd usd 70 1
    (wrap_u32 (engine_qty_to_wire product.(cp_max_order_size))) increment (mkPRICE9 100000)
    UINT8_NULL UINT8_NULL UINT8_NULL (replicate 30 0) null_price null_price 0 INT32_NULL INT32_NULL
    null_price null_price null_price INT32_NULL UINT16_NULL INT32_NULL INT32_NULL INT8_NULL INT8_NULL
    null_price 78 UINT16_NULL UINT64_NULL.

Definition encode_instrument_definition (product : CmeProductConfig) (tot_num_reports : Z)
    : option (list Z) :=
  min_price_increment ← engine_price_to_price9 product.(cp_tick_size);
  Some (ws_put (make_header MDInstrumentDefinitionFuture54) ++
        ws_put (instrument_root product tot_num_reports min_price_increment) ++
        put_group GroupHeader [mkInstrDefEventEntry 5 0] ++
        put_group GroupHeader [mkInstrDefFeedTypeEntry gbx 10] ++
        put_group GroupHeader (A := InstrDefAttribEntry) [] ++
        put_group GroupHeader
          [mkInstrDefLotTypeEntry 1 (wrap_s32 (Z.quot product.(cp_lot_size) PRICE_SCALE))]).

(** *** Snapshots *)

Record SnapshotEntry : Type := mkSnapshotEntry { se_price : Price; se_qty : Quantity; se_side : Side }.

(** The loop over the entries; [order_id] counts up. *)
Fixpoint snapshot_entries (order_id : Z) (entries : list SnapshotEntry)
    : option (list SnapshotOrderBookEntry) :=
  match entries with
  | [] => Some []
  | e :: entries' =>
      md_entry_px ← engine_price_to_price9 e.(se_price);
      es ← snapshot_entries (order_id + 1) entries';
      Some (mkSnapshotOrderBookEntry order_id UINT64_NULL md_entry_px (engine_qty_to_wire e.(se_qty))
              (encode_md_entry_type_book e.(se_side)) :: es)
  end.

(** The group announces at most 255 entries; all are written. *)
Definition encode_snapshot (security_id transact_time last_msg_seq_num_processed : Z)
    (entries : list SnapshotEntry) (tot_num_reports current_chunk : Z) : option (list Z) :=
  es ← snapshot_entries 1 entries;
  Some (ws_put (make_header SnapshotFullRefreshOrderBook53) ++
        ws_put (mkSnapshotFullRefreshOrderBook53 last_msg_seq_num_processed tot_num_reports security_id
                  tot_num_reports current_chunk transact_time) ++
        ws_put (mkGroupHeader (Z.of_nat (ws_size (A := SnapshotOrderBookEntry)))
                  (Z.min 255 (Z.of_nat (length entries)))) ++
        concat (ws_put <$> es)).

Definition MAX_SNAPSHOT_ENCODED_SIZE : Z := 8192.
Definition MAX_MDP3_ENCODED_SIZE : Z := 512.

(** ** Decoder *)

Definition MAX_MD_ENTRIES : Z := 64.
Definition MAX_ORDER_ENTRIES : Z := 64.
Definition MAX_SNAPSHOT_ENTRIES : Z := 256.
Definition MAX_EVENT_ENTRIES : Z := 16.
Definition MAX_FEED_TYPE_ENTRIES : Z := 8.
Definition MAX_ATTRIB_ENTRIES : Z := 8.
Definition MAX_LOT_TYPE_ENTRIES : Z := 8.

(** The decoded structs, as the visitor gets them; an array with its count is
    a list. *)
Inductive Decoded : Type :=
  | DecodedSecurityStatus30 (root : SecurityStatus30)
  | DecodedRefreshBook46 (root : MDIncrementalRefreshBook46) (md_entries : list RefreshBookEntry)
      (order_entries : list RefreshBookOrderEntry)
  | DecodedTradeSummary48 (root : MDIncrementalRefreshTradeSummary48)
      (md_entries : list TradeSummaryEntry) (order_entries : list TradeSummaryOrderEntry)
  | DecodedSnapshot53 (root : SnapshotFullRefreshOrderBook53) (md_entries : list SnapshotOrderBookEntry)
  | DecodedInstrumentDef54 (root : MDInstrumentDefinitionFuture54) (events : list InstrDefEventEntry)
      (feed_types : list InstrDefFeedTypeEntry) (attribs : list InstrDefAttribEntry)
      (lot_types : list InstrDefLotTypeEntry).

(** The root block: first the length of the buffer, then the announced length
    are checked. *)
Definition decode_root {A : Type} `{WireStruct A} (hdr : MessageHeader) : step A := λ buf,
  if Z.of_nat (length buf) <? hdr.(h_block_length) then Failed kBufferTooShort
  else if hdr.(h_block_length) <? Z.of_nat (ws_size (A := A)) then Failed kBadBlockLength
  else take_block hdr.(h_block_length) buf.

Definition decode_security_status_30 (hdr : MessageHeader) : step Decoded :=
  root ← decode_root hdr; mret (DecodedSecurityStatus30 root).

Definition decode_refresh_book_46 (hdr : MessageHeader) : step Decoded :=
  root ← decode_root hdr;
  md_entries ← take_group GroupHeader MAX_MD_ENTRIES;
  order_entries ← take_group GroupHeader8Byte MAX_ORDER_ENTRIES;
  mret (DecodedRefreshBook46 root md_entries order_entries).

Definition decode_trade_summary_48 (hdr : MessageHeader) : step Decoded :=
  root ← decode_root hdr;
  md_entries ← take_group GroupHeader MAX_MD_ENTRIES;
  order_entries ← take_group GroupHeader8Byte MAX_ORDER_ENTRIES;
  mret (DecodedTradeSummary48 root md_entries order_entries).

Definition decode_snapshot_53 (hdr : MessageHeader) : step Decoded :=
  root ← decode_root hdr;
  md_entries ← take_group GroupHeader MAX_SNAPSHOT_ENTRIES;
  mret (DecodedSnapshot53 root md_entries).

Definition decode_instrument_def_54 (hdr : MessageHeader) : step Decoded :=
  root ← decode_root hdr;
  events ← take_group GroupHeader MAX_EVENT_ENTRIES;
  feed_types ← take_group GroupHeader MAX_FEED_TYPE_ENTRIES;
  attribs ← take_group GroupHeader MAX_ATTRIB_ENTRIES;
  lot_types ← take_group GroupHeader MAX_LOT_TYPE_ENTRIES;
  mret (DecodedInstrumentDef54 root events feed_types attribs lot_types).

(** The dispatch on the template. *)
Definition decode_body (hdr : MessageHeader) : step Decoded :=
  let t := hdr.(h_template_id) in
  if t =? 30 then decode_security_status_30 hdr
  else if t =? 46 then decode_refresh_book_46 hdr
  else if t =? 48 then decode_trade_summary_48 hdr
  else if t =? 53 then decode_snapshot_53 hdr
  else if t =? 54 then decode_instrument_def_54 hdr
  else λ _, Failed kUnknownTemplateId.

(** [kOk] with the visited message (and the bytes that were not read), or an error. *)
Definition decode_mdp3_message : step Decoded :=
  hdr ← take_struct;
  _ ← fail_if (negb (hdr.(h_schema_id) =? MDP3_SCHEMA_ID)) kBadSchemaId;
  decode_body hdr.

(** ** The publisher *)

Record Mdp3Packet : Type := mkMdp3Packet { mp_data : list Z; mp_len : Z }.

Record Mdp3FeedPublisher : Type := mkMdp3Publisher {
  pub_ctx : Mdp3EncodeContext; pub_packets : list Mdp3Packet
}.

(** The constructor copies six characters of each string; a shorter string is
    read past its end. *)
Definition make_publisher (security_id : Z) (security_group asset : list Z) : option Mdp3FeedPublisher :=
  if (6 <=? length security_group)%nat && (6 <=? length asset)%nat
  then Some (mkMdp3Publisher (mkMdp3Context security_id 0 (take 6 security_group) (take 6 asset)) [])
  else None.

(** Encode into a fresh packet of 512 bytes and keep it. *)
Definition publish (encode : Mdp3EncodeContext → option (list Z * Mdp3EncodeContext))
    (p : Mdp3FeedPublisher) : option Mdp3FeedPublisher :=
  '(bs, ctx) ← encode p.(pub_ctx);
  let len := Z.of_nat (length bs) in
  if len >? MAX_MDP3_ENCODED_SIZE then None
  else
    let pkt := mkMdp3Packet (bs ++ replicate (Z.to_nat (MAX_MDP3_ENCODED_SIZE - len)) 0) len in
    Some (mkMdp3Publisher ctx (p.(pub_packets) ++ [pkt])).

(** The listener callbacks of [Mdp3FeedPublisher]. *)
Definition mdp3_listener (e : event) (p : Mdp3FeedPublisher) : option Mdp3FeedPublisher :=
  match e with
  | DepthUpdate side price total_qty order_count action ts =>
      publish (encode_depth_update side price total_qty order_count action ts) p
  | TopOfBook best_bid bid_qty best_ask ask_qty ts =>
      publish (encode_top_of_book best_bid bid_qty best_ask ask_qty ts) p
  | Trade price quantity _ _ aggressor_side ts => publish (encode_trade price quantity aggressor_side ts) p
  | MarketStatus state ts => publish (encode_market_status state ts) p
  | _ => Some p
  end.

Fixpoint mdp3_listen (events : list event) (p : Mdp3FeedPublisher) : option Mdp3FeedPublisher :=
  match events with
  | [] => Some p
  | e :: events' => p' ← mdp3_listener e p; mdp3_listen events' p'
  end.

Definition packet_bytes (p : Mdp3Packet) : list Z := take (Z.to_nat p.(mp_len)) p.(mp_data).
