(* ===== verification/Mdp3Theorems.v ===== *)
(** * MDP 3: a receiver recovers the market

    The decoder on encoded messages and on any bytes, then the feed and the
    snapshots. *)

From S2P Require Import Prelude Types Wire Sbe Mdp3Messages Mdp3.

(** ** Every message survives *)

Definition wire_bytes (d : Decoded) : list Z :=
  match d with
  | DecodedSecurityStatus30 m => ws_put (make_header SecurityStatus30) ++ ws_put m
  | DecodedRefreshBook46 m es os =>
      ws_put (make_header MDIncrementalRefreshBook46) ++ ws_put m ++
      put_group GroupHeader es ++ put_group GroupHeader8Byte os
  | DecodedTradeSummary48 m es os =>
      ws_put (make_header MDIncrementalRefreshTradeSummary48) ++ ws_put m ++
      put_group GroupHeader es ++ put_group GroupHeader8Byte os
  | DecodedSnapshot53 m es =>
      ws_put (make_header SnapshotFullRefreshOrderBook53) ++ ws_put m ++ put_group GroupHeader es
  | DecodedInstrumentDef54 m evs fts ats lts =>
      ws_put (make_header MDInstrumentDefinitionFuture54) ++ ws_put m ++ put_group GroupHeader evs ++
      put_group GroupHeader fts ++ put_group GroupHeader ats ++ put_group GroupHeader lts
  end.

(** A group that fits its message. *)
Definition group_fits {A} `{WireStruct A} (es : list A) (max : Z) : Prop :=
  Forall ws_fits es ∧ Z.of_nat (length es) <= max.

Definition decoded_fits (d : Decoded) : Prop :=
  match d with
  | DecodedSecurityStatus30 m => ws_fits m
  | DecodedRefreshBook46 m es os =>
      ws_fits m ∧ group_fits es MAX_MD_ENTRIES ∧ group_fits os MAX_ORDER_ENTRIES
  | DecodedTradeSummary48 m es os =>
      ws_fits m ∧ group_fits es MAX_MD_ENTRIES ∧ group_fits os MAX_ORDER_ENTRIES
  | DecodedSnapshot53 m es => ws_fits m ∧ group_fits es 255
  | DecodedInstrumentDef54 m evs fts ats lts =>
      ws_fits m ∧ group_fits evs MAX_EVENT_ENTRIES ∧ group_fits fts MAX_FEED_TYPE_ENTRIES ∧
      group_fits ats MAX_ATTRIB_ENTRIES ∧ group_fits lts MAX_LOT_TYPE_ENTRIES
  end.

Lemma recovers_root {A} `{Template A} `{!WireStructOk A} (m : A) : ws_fits m →
  recovers (decode_root (make_header A)) m (ws_put m).
Proof.
  intros Hm. destruct (recovers_block m (make_header A).(h_block_length) eq_refl Hm) as [Hg Hs].
  pose proof (ws_length m Hm) as Hl. split; unfold decode_root; cbn [make_header h_block_length] in *.
  - intros rest. rewrite length_app, Hl, Z.ltb_irrefl.
    destruct (Z.ltb_spec (Z.of_nat (ws_size (A := A) + length rest)) (Z.of_nat (ws_size (A := A)))); [lia|].
    apply Hg.
  - intros p q Heq Hq. rewrite Heq, length_app in Hl. destruct q; [done|]. cbn in Hl.
    destruct (Z.ltb_spec (Z.of_nat (length p)) (Z.of_nat (ws_size (A := A)))); [done|lia].
Qed.

Lemma recovers_last {B C} (d : step B) (k : B → step C) b c bs :
  recovers d b bs → recovers (k b) c [] → recovers (d ≫= k) c bs.
Proof. intros Hd Hk. rewrite <- (app_nil_r bs). by eapply recovers_bind. Qed.

(** The groups of a message, one by one. *)
Ltac recovers_groups :=
  repeat match goal with
  | |- recovers (take_group ?H _ ≫= _) _ (_ ++ _) =>
      eapply recovers_bind; [apply (recovers_group H); first [done|lia|by vm_compute]|]
  | |- recovers (take_group ?H _ ≫= _) _ _ =>
      eapply recovers_last; [apply (recovers_group H); first [done|lia|by vm_compute]|apply recovers_ret]
  end.

Lemma recovers_mdp3 d : decoded_fits d → recovers decode_mdp3_message d (wire_bytes d).
Proof.
  unfold decoded_fits, group_fits, MAX_MD_ENTRIES, MAX_ORDER_ENTRIES, MAX_EVENT_ENTRIES,
    MAX_FEED_TYPE_ENTRIES, MAX_ATTRIB_ENTRIES, MAX_LOT_TYPE_ENTRIES.
  destruct d as [m|m es os|m es os|m es|m evs fts ats lts]; intros Hd; destruct_and?; unfold wire_bytes;
    (eapply recovers_bind; [apply recovers_struct; by vm_compute|]);
    (apply recovers_check; [done|]).
  - change (recovers (decode_security_status_30 (make_header SecurityStatus30)) (DecodedSecurityStatus30 m) (ws_put m)).
    eapply recovers_last; [by apply recovers_root|apply recovers_ret].
  - change (decode_body _) with (decode_refresh_book_46 (make_header MDIncrementalRefreshBook46)).
    eapply recovers_bind; [by apply recovers_root|]. recovers_groups.
  - change (decode_body _) with (decode_trade_summary_48 (make_header MDIncrementalRefreshTradeSummary48)).
    eapply recovers_bind; [by apply recovers_root|]. recovers_groups.
  - change (decode_body _) with (decode_snapshot_53 (make_header SnapshotFullRefreshOrderBook53)).
    eapply recovers_bind; [by apply recovers_root|]. unfold MAX_SNAPSHOT_ENTRIES. recovers_groups.
  - change (decode_body _) with (decode_instrument_def_54 (make_header MDInstrumentDefinitionFuture54)).
    eapply recovers_bind; [by apply recovers_root|]. recovers_groups.
Qed.

(** Every MDP 3 message survives: the bytes of a header, of a root block
    whose fields fit their types and of groups of admissible size decode to the
    same message, whatever the buffer holds after them; and any proper prefix of
    them is reported as too short. *)
Theorem mdp3_roundtrip d : decoded_fits d →
  (∀ rest, decode_mdp3_message (wire_bytes d ++ rest) = Got d rest) ∧
  (∀ p q, wire_bytes d = p ++ q → q ≠ [] → decode_mdp3_message p = Failed kBufferTooShort).
Proof. intros Hd. destruct (recovers_mdp3 d Hd). by split. Qed.

(** ** No read leaves the buffer *)

Lemma in_bounds_root {A} `{WireStruct A} `{!WireStructReads A} hdr : in_bounds (decode_root (A := A) hdr).
Proof.
  intros buf. unfold decode_root. destruct (_ <? _); [done|].
  destruct (Z.ltb_spec hdr.(h_block_length) (Z.of_nat (ws_size (A := A)))); [done|].
  by apply in_bounds_block.
Qed.

(** Whatever bytes it is given, the decoder never reads past the end of the
    buffer. *)
Theorem mdp3_decode_in_bounds buf : decode_mdp3_message buf ≠ OverRead.
Proof.
  revert buf. fold (in_bounds decode_mdp3_message). unfold decode_mdp3_message.
  steps_in_bounds. unfold decode_body, decode_security_status_30, decode_refresh_book_46,
    decode_trade_summary_48, decode_snapshot_53, decode_instrument_def_54.
  repeat match goal with
  | |- context [if ?b then _ else _] => destruct b
  end; try done; (apply in_bounds_bind; [apply in_bounds_root|intros ?]); steps_in_bounds.
Qed.

(** ** The feed *)

(** What a receiver reads in a message, in the units of the engine. *)
Definition price_of (p : PRICE9) : option Price :=
  if price9_is_null p then None else Some (Z.quot p.(mantissa) ENGINE_TO_PRICE9_FACTOR).
Definition qty_of (lots : Z) : Quantity := lots * PRICE_SCALE.
Definition side_of (code : Z) : option Side :=
  if code =? 48 then Some Buy else if code =? 49 then Some Sell else None.
Definition aggressor_of (code : Z) : option Side :=
  if code =? 1 then Some Buy else if code =? 2 then Some Sell else None.
Definition action_of (code : Z) : option DepthAction :=
  if code =? 0 then Some DepthAdd else if code =? 1 then Some DepthUpd
  else if code =? 2 then Some DepthRemove else None.

Record level_view : Type := mkLevelView {
  lw_security_id : Z; lw_rpt_seq : Z; lw_side : option Side; lw_price : option Price;
  lw_qty : Quantity; lw_orders : Z; lw_action : option DepthAction
}.

Inductive market_view : Type :=
  | ViewBook (ts : Timestamp) (levels : list level_view)
  | ViewTrade (ts : Timestamp) (security_id rpt_seq : Z) (price : option Price) (qty : Quantity)
      (aggressor : option Side)
  | ViewStatus (ts : Timestamp) (security_id status : Z).

Definition view_level (e : RefreshBookEntry) : level_view :=
  mkLevelView e.(rb_security_id) e.(rb_rpt_seq) (side_of e.(rb_md_entry_type)) (price_of e.(rb_md_entry_px))
    (qty_of e.(rb_md_entry_size)) e.(rb_number_of_orders) (action_of e.(rb_md_update_action)).

Definition view (d : Decoded) : option market_view :=
  match d with
  | DecodedRefreshBook46 m es [] => Some (ViewBook (wrap_s64 m.(b46_transact_time)) (view_level <$> es))
  | DecodedTradeSummary48 m [e] [] =>
      Some (ViewTrade (wrap_s64 m.(t48_transact_time)) e.(ts_security_id) e.(ts_rpt_seq)
              (price_of e.(ts_md_entry_px)) (qty_of e.(ts_md_entry_size)) (aggressor_of e.(ts_aggressor_side)))
  | DecodedSecurityStatus30 m =>
      Some (ViewStatus (wrap_s64 m.(s30_transact_time)) m.(s30_security_id) m.(s30_security_trading_status))
  | _ => None
  end.

(** The best price of an empty side is null. *)
Definition best_of (p : Price) : option Price := if p =? 0 then None else Some p.

(** What the events of the engine are to a receiver; every book entry and every
    trade takes the next number. *)
Fixpoint market_views (iid seq : Z) (events : list event) : list market_view :=
  match events with
  | [] => []
  | DepthUpdate side price qty count action ts :: events' =>
      ViewBook ts [mkLevelView iid (wrap_u32 seq) (Some side) (Some price) qty count (Some action)] ::
      market_views iid (seq + 1) events'
  | TopOfBook best_bid bid_qty best_ask ask_qty ts :: events' =>
      ViewBook ts
        [mkLevelView iid (wrap_u32 seq) (Some Buy) (best_of best_bid) bid_qty INT32_NULL (Some DepthUpd);
         mkLevelView iid (wrap_u32 (seq + 1)) (Some Sell) (best_of best_ask) ask_qty INT32_NULL (Some DepthUpd)] ::
      market_views iid (seq + 2) events'
  | Trade price qty _ _ side ts :: events' =>
      ViewTrade ts iid (wrap_u32 seq) (Some price) qty (Some side) :: market_views iid (seq + 1) events'
  | MarketStatus state ts :: events' =>
      ViewStatus ts iid (encode_security_trading_status state) :: market_views iid seq events'
  | _ :: events' => market_views iid seq events'
  end.

(** Prices that the wire can carry, whole lots, 64-bit times. *)
Definition wire_price (p : Price) : Prop := in_int64 (p * ENGINE_TO_PRICE9_FACTOR).
Definition wire_lots (q : Quantity) : Prop := ∃ k, q = k * PRICE_SCALE ∧ 0 <= k < 2 ^ 31.
Definition feedable (e : event) : Prop :=
  match e with
  | DepthUpdate _ price qty count _ ts => wire_price price ∧ wire_lots qty ∧ 0 <= count < 2 ^ 31 ∧ in_int64 ts
  | TopOfBook bb bq ba aq ts => wire_price bb ∧ wire_lots bq ∧ wire_price ba ∧ wire_lots aq ∧ in_int64 ts
  | Trade price qty _ _ _ ts => wire_price price ∧ wire_lots qty ∧ in_int64 ts
  | MarketStatus _ ts => in_int64 ts
  | _ => True
  end.

Lemma price9_back p : wire_price p → ∃ w, engine_price_to_price9 p = Some w ∧
  in_int64 w.(mantissa) ∧ price_of w = Some p.
Proof.
  intros Hp. exists (mkPRICE9 (p * ENGINE_TO_PRICE9_FACTOR)). unfold engine_price_to_price9.
  rewrite bool_decide_eq_true_2 by exact Hp. split_and!; [done|exact Hp|].
  unfold price_of, price9_is_null, ENGINE_TO_PRICE9_FACTOR, INT64_NULL. cbn.
  destruct (Z.eqb_spec (p * 100000) 9223372036854775807); [lia|]. by rewrite Z.quot_mul.
Qed.

Lemma pricenull9_back p : wire_price p → ∃ w, engine_price_to_pricenull9 p = Some w ∧
  in_int64 w.(mantissa) ∧ price_of w = best_of p.
Proof.
  intros Hp. unfold engine_price_to_pricenull9, best_of. destruct (Z.eqb_spec p 0) as [->|Hne].
  - by exists (mkPRICE9 INT64_NULL).
  - by apply price9_back.
Qed.

Lemma lots_back q : wire_lots q → in_int32 (engine_qty_to_wire q) ∧ qty_of (engine_qty_to_wire q) = q.
Proof.
  intros (k & -> & Hk). unfold engine_qty_to_wire, qty_of. rewrite Z.quot_mul by done.
  rewrite wrap_s32_id; unfold in_int32; [|lia]. split; [lia|done].
Qed.

(** *** The messages of the feed *)

Definition exact_price (p : Price) : PRICE9 := mkPRICE9 (p * ENGINE_TO_PRICE9_FACTOR).
Definition exact_best (p : Price) : PRICE9 := if p =? 0 then mkPRICE9 INT64_NULL else exact_price p.
Definition root46 (ts : Timestamp) : MDIncrementalRefreshBook46 :=
  mkMDIncrementalRefreshBook46 (wrap_u64 ts) end_of_event [0; 0].
Definition root48 (ts : Timestamp) : MDIncrementalRefreshTradeSummary48 :=
  mkMDIncrementalRefreshTradeSummary48 (wrap_u64 ts) end_of_event [0; 0].

Definition depth_entry (iid seq : Z) (side : Side) (price : Price) (qty : Quantity) (count : Z) (action : DepthAction)
    : RefreshBookEntry :=
  mkRefreshBookEntry (exact_price price) (engine_qty_to_wire qty) iid (wrap_u32 seq) (wrap_s32 count) 1
    (encode_md_update_action action) (encode_md_entry_type_book side) (engine_qty_to_wire qty) 0.
Definition best_entry (iid seq : Z) (side : Side) (price : Price) (qty : Quantity) : RefreshBookEntry :=
  mkRefreshBookEntry (exact_best price) (engine_qty_to_wire qty) iid (wrap_u32 seq) INT32_NULL 1
    (update_action_code Change) (encode_md_entry_type_book side) (engine_qty_to_wire qty) 0.
Definition trade_entry (iid seq : Z) (price : Price) (qty : Quantity) (side : Side) : TradeSummaryEntry :=
  mkTradeSummaryEntry (exact_price price) (engine_qty_to_wire qty) iid (wrap_u32 seq) 2 (encode_aggressor_side side)
    (update_action_code New) (wrap_u32 seq) [0; 0].
Definition status_root (iid : Z) (group asset : list Z) (state : SessionState) (ts : Timestamp) : SecurityStatus30 :=
  mkSecurityStatus30 (wrap_u64 ts) group asset iid UINT16_NULL end_of_event (encode_security_trading_status state) 0 0.

(** What the events of the engine become, exactly; every book entry and every
    trade takes the next number. *)
Fixpoint feed_messages (iid : Z) (group asset : list Z) (seq : Z) (events : list event) : list Decoded :=
  match events with
  | [] => []
  | DepthUpdate side price qty count action ts :: events' =>
      DecodedRefreshBook46 (root46 ts) [depth_entry iid seq side price qty count action] [] ::
      feed_messages iid group asset (seq + 1) events'
  | TopOfBook best_bid bid_qty best_ask ask_qty ts :: events' =>
      DecodedRefreshBook46 (root46 ts)
        [best_entry iid seq Buy best_bid bid_qty; best_entry iid (seq + 1) Sell best_ask ask_qty] [] ::
      feed_messages iid group asset (seq + 2) events'
  | Trade price qty _ _ side ts :: events' =>
      DecodedTradeSummary48 (root48 ts) [trade_entry iid seq price qty side] [] ::
      feed_messages iid group asset (seq + 1) events'
  | MarketStatus state ts :: events' =>
      DecodedSecurityStatus30 (status_root iid group asset state ts) :: feed_messages iid group asset seq events'
  | _ :: events' => feed_messages iid group asset seq events'
  end.

Lemma price9_exact p : wire_price p → engine_price_to_price9 p = Some (exact_price p) ∧ in_int64 (exact_price p).(mantissa) ∧
  price_of (exact_price p) = Some p.
Proof.
  intros H. destruct (price9_back p H) as (w & Hw & Hr & Hp).
  assert (w = exact_price p) as -> by (unfold engine_price_to_price9 in Hw; case_bool_decide; by simplify_eq). done.
Qed.
Lemma pricenull9_exact p : wire_price p → engine_price_to_pricenull9 p = Some (exact_best p) ∧ in_int64 (exact_best p).(mantissa) ∧
  price_of (exact_best p) = best_of p.
Proof.
  intros H. unfold engine_price_to_pricenull9, exact_best, best_of. destruct (p =? 0); [done|by apply price9_exact].
Qed.

(** The encoder advances the numbering by [k] and writes the message [d], small
    enough for a packet. *)
Record encodes (e : Mdp3EncodeContext → option (list Z * Mdp3EncodeContext)) (k : Z) (d : Decoded)
    (ctx : Mdp3EncodeContext) : Prop := {
  en_bytes : e ctx = Some (wire_bytes d,
    mkMdp3Context ctx.(mc_security_id) (wrap_u32 (ctx.(mc_rpt_seq) + k)) ctx.(mc_security_group) ctx.(mc_asset));
  en_fits : decoded_fits d;
  en_small : Z.of_nat (length (wire_bytes d)) <= MAX_MDP3_ENCODED_SIZE
}.

Definition feed_context (ctx : Mdp3EncodeContext) : Prop :=
  in_int32 ctx.(mc_security_id) ∧ in_uint32 ctx.(mc_rpt_seq) ∧ is_chars 6 ctx.(mc_security_group) ∧
  is_chars 6 ctx.(mc_asset).

Lemma wrap_u32_next seq : wrap_u32 (wrap_u32 (seq - 1) + 1) = wrap_u32 seq.
Proof. unfold wrap_u32. rewrite Z.add_mod_idemp_l by done. f_equal. lia. Qed.
Lemma wrap_u32_next2 seq : wrap_u32 (wrap_u32 (seq - 1) + 2) = wrap_u32 (seq + 1).
Proof. unfold wrap_u32. rewrite Z.add_mod_idemp_l by done. f_equal. lia. Qed.
Lemma wrap_u32_again seq k : wrap_u32 (wrap_u32 (seq + 1) + k) = wrap_u32 (seq + (k + 1)).
Proof. unfold wrap_u32. rewrite Z.add_mod_idemp_l by done. f_equal. lia. Qed.

Lemma sides_back side : side_of (encode_md_entry_type_book side) = Some side ∧
  aggressor_of (encode_aggressor_side side) = Some side ∧
  in_uint8 (encode_md_entry_type_book side) ∧ in_uint8 (encode_aggressor_side side).
Proof. by destruct side. Qed.

Lemma action_back a : action_of (encode_md_update_action a) = Some a ∧ in_uint8 (encode_md_update_action a).
Proof. by destruct a. Qed.

Lemma trading_status_range state : in_uint8 (encode_security_trading_status state).
Proof. by destruct state. Qed.

Lemma length_group {A} `{WireStruct A} `{!WireStructOk A} (es : list A) : Forall ws_fits es →
  length (concat (ws_put <$> es)) = (ws_size (A := A) * length es)%nat.
Proof.
  induction 1 as [|e es He _ IH]; [cbn; lia|]. rewrite fmap_cons. cbn [concat length].
  rewrite length_app, IH, ws_length by done. lia.
Qed.

Lemma padding_fits : is_chars 2 [0; 0].
Proof. by apply (bool_decide_eq_true_1 (is_chars _ _)); vm_compute. Qed.

Lemma length_put_group {A} `{WireStruct A} `{!WireStructOk A} (G : Type) `{GroupFramingOk G, !WireStructOk G}
    (es : list A) : Forall ws_fits es → in_uint16 (Z.of_nat (ws_size (A := A))) →
  in_uint8 (Z.of_nat (length es)) →
  length (put_group G es) = (ws_size (A := G) + ws_size (A := A) * length es)%nat.
Proof. intros Hes Hs Hn. unfold put_group. rewrite length_app, length_group, ws_length; auto using gf_fits. Qed.

Lemma book_small m es : ws_fits m → Forall ws_fits es → (length es <= 2)%nat →
  Z.of_nat (length (wire_bytes (DecodedRefreshBook46 m es []))) <= MAX_MDP3_ENCODED_SIZE.
Proof.
  intros Hm Hes Hn. unfold wire_bytes. rewrite !length_app.
  rewrite (ws_length (make_header MDIncrementalRefreshBook46)) by by vm_compute.
  rewrite (ws_length m Hm).
  rewrite (length_put_group GroupHeader es) by (done || (unfold in_uint8; lia)).
  rewrite (length_put_group (A := RefreshBookOrderEntry) GroupHeader8Byte []) by done.
  unfold MAX_MDP3_ENCODED_SIZE. cbn [length ws_size MessageHeader_struct MDIncrementalRefreshBook46_struct
    GroupHeader_struct RefreshBookEntry_struct GroupHeader8Byte_struct RefreshBookOrderEntry_struct]. lia.
Qed.

Lemma trade_small m e : ws_fits m → ws_fits e →
  Z.of_nat (length (wire_bytes (DecodedTradeSummary48 m [e] []))) <= MAX_MDP3_ENCODED_SIZE.
Proof.
  intros Hm He. unfold wire_bytes. rewrite !length_app.
  rewrite (ws_length (make_header MDIncrementalRefreshTradeSummary48)) by by vm_compute.
  rewrite (ws_length m Hm).
  rewrite (length_put_group GroupHeader [e]) by (done || by apply Forall_singleton).
  rewrite (length_put_group (A := TradeSummaryOrderEntry) GroupHeader8Byte []) by done.
  by vm_compute.
Qed.

Lemma status_small m : ws_fits m →
  Z.of_nat (length (wire_bytes (DecodedSecurityStatus30 m))) <= MAX_MDP3_ENCODED_SIZE.
Proof.
  intros Hm. unfold wire_bytes. rewrite length_app, (ws_length m Hm).
  rewrite (ws_length (make_header SecurityStatus30)) by by vm_compute. by vm_compute.
Qed.

Lemma root46_fits ts : ws_fits (root46 ts).
Proof. split; [apply wrap_u64_range|]. split; [done|apply padding_fits]. Qed.
Lemma root48_fits ts : ws_fits (root48 ts).
Proof. split; [apply wrap_u64_range|]. split; [done|apply padding_fits]. Qed.

(** A book message of one or two entries. *)
Lemma encodes_book e k ctx ts es :
  e ctx = Some (put_book ts es,
            mkMdp3Context ctx.(mc_security_id) (wrap_u32 (ctx.(mc_rpt_seq) + k)) ctx.(mc_security_group)
              ctx.(mc_asset)) →
  Forall ws_fits es → (length es <= 2)%nat → encodes e k (DecodedRefreshBook46 (root46 ts) es []) ctx.
Proof.
  intros He Hes Hn. split; [exact He| |by apply book_small; [apply root46_fits|..]].
  split_and!; [apply root46_fits|split; [done|unfold MAX_MD_ENTRIES; lia]|split; [constructor|done]].
Qed.

Lemma encodes_depth side price qty count action ts ctx seq : feed_context ctx →
  feedable (DepthUpdate side price qty count action ts) → ctx.(mc_rpt_seq) = wrap_u32 (seq - 1) →
  encodes (encode_depth_update side price qty count action ts) 1
    (DecodedRefreshBook46 (root46 ts) [depth_entry ctx.(mc_security_id) seq side price qty count action] []) ctx.
Proof.
  intros (Hiid & _) (Hp & Hq & Hc & Hts) Hseq.
  destruct (price9_exact _ Hp) as (Hw & Hwr & _), (lots_back _ Hq) as [Hqr _].
  destruct (sides_back side) as (_ & _ & Hsr & _), (action_back action) as [_ Har].
  apply encodes_book.
  - unfold encode_depth_update, depth_entry. rewrite Hw. cbn [mbind option_bind bump_rpt_seq mc_rpt_seq mc_security_id mc_security_group mc_asset].
    unfold bump_rpt_seq. by rewrite Hseq, wrap_u32_next.
  - apply Forall_singleton. cbn. split_and!; auto using wrap_u32_range, wrap_s32_range; done.
  - cbn; lia.
Qed.

Lemma encodes_top bb bq ba aq ts ctx seq : feed_context ctx → feedable (TopOfBook bb bq ba aq ts) →
  ctx.(mc_rpt_seq) = wrap_u32 (seq - 1) →
  encodes (encode_top_of_book bb bq ba aq ts) 2
    (DecodedRefreshBook46 (root46 ts) [best_entry ctx.(mc_security_id) seq Buy bb bq; best_entry ctx.(mc_security_id) (seq + 1) Sell ba aq] []) ctx.
Proof.
  intros (Hiid & _) (Hb & Hbq & Ha & Haq & Hts) Hseq.
  destruct (pricenull9_exact _ Hb) as (Hw & Hwr & _), (lots_back _ Hbq) as [Hqr _].
  destruct (pricenull9_exact _ Ha) as (Hw' & Hwr' & _), (lots_back _ Haq) as [Hqr' _].
  apply encodes_book.
  - unfold encode_top_of_book, top_entry, bump_rpt_seq. rewrite Hw, Hw'.
    cbn [mbind option_bind mc_rpt_seq mc_security_id mc_security_group mc_asset].
    rewrite wrap_u32_again. change (1 + 1) with 2. unfold best_entry. by rewrite Hseq, wrap_u32_next, wrap_u32_next2.
  - apply Forall_cons. split; [|apply Forall_singleton]; cbn; split_and!; auto using wrap_u32_range; done.
  - cbn; lia.
Qed.

Lemma encodes_trade price qty side ts ctx seq : feed_context ctx → wire_price price → wire_lots qty →
  ctx.(mc_rpt_seq) = wrap_u32 (seq - 1) →
  encodes (encode_trade price qty side ts) 1
    (DecodedTradeSummary48 (root48 ts) [trade_entry ctx.(mc_security_id) seq price qty side] []) ctx.
Proof.
  intros (Hiid & _) Hp Hq Hseq.
  destruct (price9_exact _ Hp) as (Hw & Hwr & _), (lots_back _ Hq) as [Hqr _].
  destruct (sides_back side) as (_ & _ & _ & Hsr).
  assert (He : ws_fits (trade_entry ctx.(mc_security_id) seq price qty side))
    by (cbn; split_and!; auto using wrap_u32_range; done || apply padding_fits).
  split.
  - unfold encode_trade. rewrite Hw. cbn [mbind option_bind bump_rpt_seq mc_rpt_seq mc_security_id mc_security_group mc_asset].
    unfold bump_rpt_seq. rewrite Hseq, wrap_u32_next. reflexivity.
  - split_and!; [apply root48_fits|split; [by apply Forall_singleton|done]|split; [constructor|done]].
  - apply trade_small; [apply root48_fits|done].
Qed.

Lemma encodes_status state ts ctx : feed_context ctx →
  encodes (encode_market_status state ts) 0
    (DecodedSecurityStatus30 (status_root ctx.(mc_security_id) ctx.(mc_security_group) ctx.(mc_asset) state ts)) ctx.
Proof.
  intros (Hiid & Hseq & Hg & Has).
  assert (Hm : ws_fits (status_root ctx.(mc_security_id) ctx.(mc_security_group) ctx.(mc_asset) state ts)).
  { cbn. split_and!; auto using wrap_u64_range, trading_status_range; try done; by apply Hg || apply Has. }
  split; [|exact Hm|by apply status_small].
  unfold encode_market_status. rewrite Z.add_0_r, wrap_u32_id by done. by destruct ctx.
Qed.

(** *** The whole feed *)

(** A packet that decodes to the message. *)
Definition carries_message (pkt : Mdp3Packet) (d : Decoded) : Prop := decode_mdp3_message (packet_bytes pkt) = Got d [].

Lemma publish_encoded e k d p : encodes e k d p.(pub_ctx) →
  ∃ pkt, carries_message pkt d ∧
    publish e p = Some (mkMdp3Publisher
      (mkMdp3Context p.(pub_ctx).(mc_security_id) (wrap_u32 (p.(pub_ctx).(mc_rpt_seq) + k))
         p.(pub_ctx).(mc_security_group) p.(pub_ctx).(mc_asset)) (p.(pub_packets) ++ [pkt])).
Proof.
  intros [He Hfit Hlen]. unfold publish. rewrite He. cbn [mbind option_bind].
  rewrite Z.gtb_ltb, (proj2 (Z.ltb_ge _ _)) by done. eexists. split; [|reflexivity].
  unfold carries_message, packet_bytes. cbn [mp_data mp_len].
  rewrite Nat2Z.id, take_app_length, <- (app_nil_r (wire_bytes d)). by apply recovers_mdp3.
Qed.

(** One packet before the rest of the feed. *)
Lemma feed_packet e k d p seq rest events :
  encodes e k d p.(pub_ctx) → feed_context p.(pub_ctx) → p.(pub_ctx).(mc_rpt_seq) = wrap_u32 (seq - 1) →
  (∀ p', feed_context p'.(pub_ctx) → p'.(pub_ctx).(mc_security_id) = p.(pub_ctx).(mc_security_id) →
     p'.(pub_ctx).(mc_security_group) = p.(pub_ctx).(mc_security_group) → p'.(pub_ctx).(mc_asset) = p.(pub_ctx).(mc_asset) →
     p'.(pub_ctx).(mc_rpt_seq) = wrap_u32 (seq + k - 1) →
     ∃ p'' pkts, mdp3_listen events p' = Some p'' ∧ p''.(pub_packets) = p'.(pub_packets) ++ pkts ∧
       Forall2 carries_message pkts rest) →
  ∃ p'' pkts, (p' ← publish e p; mdp3_listen events p') = Some p'' ∧
    p''.(pub_packets) = p.(pub_packets) ++ pkts ∧ Forall2 carries_message pkts (d :: rest).
Proof.
  intros He (Hi & Hs & Hg & Ha) Hseq Hrest. destruct (publish_encoded e k d p He) as (pkt & Hpkt & Hpub).
  rewrite Hpub. cbn [mbind option_bind].
  destruct (Hrest (mkMdp3Publisher (mkMdp3Context p.(pub_ctx).(mc_security_id)
      (wrap_u32 (p.(pub_ctx).(mc_rpt_seq) + k)) p.(pub_ctx).(mc_security_group) p.(pub_ctx).(mc_asset))
      (p.(pub_packets) ++ [pkt]))) as (p'' & pkts & Hl & Hp & Hf); try done.
  - split_and!; [done|apply wrap_u32_range|done|done].
  - cbn. rewrite Hseq. unfold wrap_u32. rewrite Z.add_mod_idemp_l by done. f_equal. lia.
  - exists p'', (pkt :: pkts). split_and!; [done|rewrite Hp; cbn [pub_packets]; by rewrite <- app_assoc|].
    by apply Forall2_cons.
Qed.

Lemma feed_carries iid group asset events : Forall feedable events → ∀ p seq,
  feed_context p.(pub_ctx) → p.(pub_ctx).(mc_security_id) = iid → p.(pub_ctx).(mc_security_group) = group →
  p.(pub_ctx).(mc_asset) = asset → p.(pub_ctx).(mc_rpt_seq) = wrap_u32 (seq - 1) →
  ∃ p' pkts, mdp3_listen events p = Some p' ∧ p'.(pub_packets) = p.(pub_packets) ++ pkts ∧
    Forall2 carries_message pkts (feed_messages iid group asset seq events).
Proof.
  induction 1 as [|e events He _ IH]; intros p seq Hctx Hiid Hg Ha Hseq.
  - exists p, []. by rewrite app_nil_r.
  - destruct e; cbn [mdp3_listen mdp3_listener feed_messages]; try (by apply IH); rewrite <- Hiid, <- Hg, <- Ha.
    + eapply feed_packet; [by apply encodes_top|done|exact Hseq|]. intros p' Hc ? ? ? Hs. rewrite Hiid, Hg, Ha in *. by apply IH.
    + eapply feed_packet; [by apply encodes_depth|done|exact Hseq|]. intros p' Hc ? ? ? Hs. rewrite Hiid, Hg, Ha in *. by apply IH.
    + destruct He as (Hp & Hq & Hts).
      eapply feed_packet; [by apply encodes_trade|done|exact Hseq|]. intros p' Hc ? ? ? Hs. rewrite Hiid, Hg, Ha in *. by apply IH.
    + eapply feed_packet; [by apply encodes_status|done|exact Hseq|]. intros p' Hc ? ? ? Hs.
      rewrite Z.add_0_r in Hs. rewrite Hiid, Hg, Ha in *. by apply IH.
Qed.

(** A publisher started with the instrument. *)
Lemma feed_starts iid group asset events :
  in_int32 iid → is_chars 6 group → is_chars 6 asset → Forall feedable events →
  ∃ p0 p, make_publisher iid group asset = Some p0 ∧ mdp3_listen events p0 = Some p ∧
    Forall2 carries_message p.(pub_packets) (feed_messages iid group asset 1 events).
Proof.
  intros Hi Hg Ha Hev. pose proof (proj1 Hg) as Hgl. pose proof (proj1 Ha) as Hal.
  set (p0 := mkMdp3Publisher (mkMdp3Context iid 0 group asset) []).
  destruct (feed_carries iid group asset events Hev p0 1) as (p & pkts & Hl & Hp & Hf); try done.
  exists p0, p. split_and!; [|done|by rewrite Hp].
  unfold make_publisher. rewrite Hgl, Hal, !take_ge by lia. done.
Qed.

(** What a receiver reads in the messages. *)
Lemma view_depth iid seq side price qty count action : wire_price price → wire_lots qty → 0 <= count < 2 ^ 31 →
  view_level (depth_entry iid seq side price qty count action) =
  mkLevelView iid (wrap_u32 seq) (Some side) (Some price) qty count (Some action).
Proof.
  intros Hp Hq Hc. destruct (price9_exact _ Hp) as (_ & _ & Hw), (lots_back _ Hq) as [_ Hqb].
  destruct (sides_back side) as (Hs & _), (action_back action) as [Ha _]. unfold view_level, depth_entry.
  cbn [rb_security_id rb_rpt_seq rb_md_entry_type rb_md_entry_px rb_md_entry_size rb_number_of_orders rb_md_update_action].
  by rewrite Hw, Hqb, Hs, Ha, wrap_s32_id by (unfold in_int32; lia).
Qed.
Lemma view_best iid seq side price qty : wire_price price → wire_lots qty →
  view_level (best_entry iid seq side price qty) =
  mkLevelView iid (wrap_u32 seq) (Some side) (best_of price) qty INT32_NULL (Some DepthUpd).
Proof.
  intros Hp Hq. destruct (pricenull9_exact _ Hp) as (_ & _ & Hw), (lots_back _ Hq) as [_ Hqb].
  destruct (sides_back side) as (Hs & _). unfold view_level, best_entry.
  cbn [rb_security_id rb_rpt_seq rb_md_entry_type rb_md_entry_px rb_md_entry_size rb_number_of_orders rb_md_update_action].
  by rewrite Hw, Hqb, Hs.
Qed.
Lemma feed_viewed iid group asset events : Forall feedable events → ∀ seq,
  Forall2 (λ d v, view d = Some v) (feed_messages iid group asset seq events) (market_views iid seq events).
Proof.
  induction 1 as [|e events He _ IH]; intros seq; [constructor|].
  destruct e; cbn [feed_messages market_views]; try (by apply IH).
  - destruct He as (Hb & Hbq & Ha & Haq & Hts). constructor; [|by apply IH]. unfold view, root46. cbn [fmap list_fmap b46_transact_time].
    by rewrite !view_best, timestamp_back.
  - destruct He as (Hp & Hq & Hc & Hts). constructor; [|by apply IH]. unfold view, root46. cbn [fmap list_fmap b46_transact_time].
    by rewrite view_depth, timestamp_back.
  - destruct He as (Hp & Hq & Hts). constructor; [|by apply IH]. destruct (price9_exact _ Hp) as (_ & _ & Hw), (lots_back _ Hq) as [_ Hqb].
    destruct (sides_back aggressor_side) as (_ & Hs & _).
    unfold view, trade_entry, root48. cbn [t48_transact_time ts_security_id ts_rpt_seq ts_md_entry_px ts_md_entry_size ts_aggressor_side].
    by rewrite Hw, Hqb, timestamp_back, Hs.
  - constructor; [|by apply IH]. unfold view, status_root. cbn [s30_transact_time s30_security_id s30_security_trading_status].
    by rewrite timestamp_back.
Qed.

(** Whatever the engine reports, the MDP 3 feed delivers: every packet
    fits its buffer and decodes alone and completely, and a receiver reads in
    them, in order, each depth update, top of book, trade and status with side,
    price, quantity, action and time as the engine reported them; book entries
    and trades of the instrument are numbered consecutively from one. *)
Theorem mdp3_feed_delivers iid group asset events :
  in_int32 iid → is_chars 6 group → is_chars 6 asset → Forall feedable events →
  ∃ p0 p, make_publisher iid group asset = Some p0 ∧ mdp3_listen events p0 = Some p ∧
    Forall2 (λ pkt v, ∃ d, decode_mdp3_message (packet_bytes pkt) = Got d [] ∧ view d = Some v)
      p.(pub_packets) (market_views iid 1 events).
Proof.
  intros Hi Hg Ha Hev. destruct (feed_starts iid group asset events Hi Hg Ha Hev) as (p0 & p & Hm & Hl & Hf).
  exists p0, p. split_and!; [done|done|]. pose proof (feed_viewed iid group asset events Hev 1) as Hv.
  revert Hf Hv. generalize (market_views iid 1 events). generalize (feed_messages iid group asset 1 events).
  induction (pub_packets p) as [|pkt pkts IH]; intros ds vs Hf Hv; inversion Hf; simplify_eq; inversion Hv; simplify_eq;
    constructor; eauto.
Qed.

(** ** Snapshots *)

(** What a receiver recovers of an entry. *)
Definition view_snapshot (e : SnapshotOrderBookEntry) : option SnapshotEntry :=
  p ← price_of e.(sb_md_entry_px);
  s ← side_of e.(sb_md_entry_type);
  Some (mkSnapshotEntry p (qty_of e.(sb_md_display_qty)) s).

Definition snapshot_feedable (e : SnapshotEntry) : Prop := wire_price e.(se_price) ∧ wire_lots e.(se_qty).

Lemma snapshot_entries_back entries : Forall snapshot_feedable entries → ∀ oid,
  0 <= oid → oid + Z.of_nat (length entries) <= int64_max →
  ∃ es, snapshot_entries oid entries = Some es ∧ length es = length entries ∧ Forall ws_fits es ∧
    mapM view_snapshot es = Some entries ∧
    ∀ i e, es !! i = Some e → e.(sb_order_id) = oid + Z.of_nat i.
Proof.
  induction 1 as [|[p q s] entries [Hp Hq] _ IH]; intros oid H0 Hlen.
  - by exists [].
  - cbn [length] in Hlen. destruct (price9_back _ Hp) as (w & Hw & Hwr & Hwp), (lots_back _ Hq) as [Hqr Hqb].
    destruct (IH (oid + 1)) as (es & Hes & Hl & Hf & Hm & Hid); [lia..|].
    cbn [snapshot_entries se_price se_qty se_side] in *. rewrite Hw, Hes. cbn [mbind option_bind].
    eexists. split; [reflexivity|]. split_and!.
    + cbn. by rewrite Hl.
    + apply Forall_cons. split; [|done]. cbn. destruct (sides_back s) as (_ & _ & Hsr & _).
      split_and!; try done. clear - H0 Hlen. unfold in_uint64, uint64_mod, int64_max in *. lia.
    + cbn [mapM]. rewrite Hm. unfold view_snapshot. cbn. by rewrite Hwp, (proj1 (sides_back s)), Hqb.
    + intros [|i] e Hi; cbn in Hi; [injection Hi as <-; cbn; lia|]. rewrite (Hid i e Hi). lia.
Qed.

(** A snapshot of any book side by side arrives: of the entries given to
    the encoder, the receiver recovers the first 255, in order, with price,
    quantity and side, numbered from one, under the sequence number it was
    given; what follows them in the message (the entries the group cannot
    announce) is not read. *)
Theorem mdp3_snapshot_recovers iid ts seq reports chunk entries :
  in_int32 iid → in_uint64 ts → in_uint32 seq → in_uint32 reports → in_uint32 chunk →
  Forall snapshot_feedable entries → Z.of_nat (length entries) < 2 ^ 16 →
  ∃ bs es rest, encode_snapshot iid ts seq entries reports chunk = Some bs ∧
    decode_mdp3_message bs =
      Got (DecodedSnapshot53 (mkSnapshotFullRefreshOrderBook53 seq reports iid reports chunk ts) es) rest ∧
    mapM view_snapshot es = Some (take 255 entries) ∧
    (∀ i e, es !! i = Some e → e.(sb_order_id) = 1 + Z.of_nat i) ∧
    length rest = (29 * (length entries - 255))%nat.
Proof.
  intros Hi Ht Hs Hr Hc Hf Hn.
  destruct (snapshot_entries_back entries Hf 1) as (es & Hes & Hl & Hfit & Hm & Hid);
    [lia|unfold int64_max; lia|].
  set (m := mkSnapshotFullRefreshOrderBook53 seq reports iid reports chunk ts).
  assert (Hfit' : Forall ws_fits (take 255 es)) by by apply Forall_take.
  set (rest := concat (ws_put <$> drop 255 es)).
  exists (wire_bytes (DecodedSnapshot53 m (take 255 es)) ++ rest), (take 255 es), rest. split_and!.
  - unfold encode_snapshot. rewrite Hes. cbn [mbind option_bind]. f_equal.
    unfold wire_bytes, put_group. rewrite <- !app_assoc.
    replace (Z.min 255 (Z.of_nat (length entries))) with (Z.of_nat (length (take 255 es)))
      by (rewrite length_take, Hl; lia).
    do 3 f_equal. unfold rest. by rewrite <- concat_app, <- fmap_app, take_drop.
  - apply recovers_mdp3. split; [done|]. split; [done|]. rewrite length_take.
    change (Z.of_nat (Nat.min 255 (length es)) <= 255). lia.
  - apply mapM_Some. apply mapM_Some in Hm. by apply Forall2_take.
  - intros i e Hie. apply lookup_take_Some in Hie as [Hie _]. by apply Hid.
  - unfold rest. rewrite length_group by by apply Forall_drop. by rewrite length_drop, Hl.
Qed.

(** ** Instrument definitions *)

Lemma space_padded_chars n s : Forall is_byte s → is_chars n (space_padded n s).
Proof.
  intros Hs. unfold space_padded. split.
  - rewrite length_app, length_take, length_replicate. lia.
  - apply Forall_app. split; [by apply Forall_take|]. apply Forall_replicate. by vm_compute.
Qed.

Lemma constant_chars n s : bool_decide (is_chars n s) = true → is_chars n s.
Proof. apply bool_decide_eq_true_1. Qed.

(** The definition of a product decodes to its root block with one event, one
    feed type, no attribute and one lot type, and nothing is left. *)
Lemma mdp3_definition_arrives product reports : in_uint32 reports → wire_price product.(cp_tick_size) →
  Forall is_byte product.(cp_symbol) → Forall is_byte product.(cp_product_group) →
  ∃ bs w, encode_instrument_definition product reports = Some bs ∧
    price_of w = Some product.(cp_tick_size) ∧
    decode_mdp3_message bs =
      Got (DecodedInstrumentDef54 (instrument_root product reports w) [mkInstrDefEventEntry 5 0]
             [mkInstrDefFeedTypeEntry gbx 10] []
             [mkInstrDefLotTypeEntry 1 (wrap_s32 (Z.quot product.(cp_lot_size) PRICE_SCALE))]) [] ∧
    Z.of_nat (length bs) <= MAX_MDP3_ENCODED_SIZE.
Proof.
  intros Hr Ht Hs Hg. destruct (price9_back _ Ht) as (w & Hw & Hwr & Hwp).
  set (lot := mkInstrDefLotTypeEntry 1 _).
  assert (Hroot : ws_fits (instrument_root product reports w)).
  { cbv beta iota delta [ws_fits MDInstrumentDefinitionFuture54_struct].
    repeat match goal with |- _ ∧ _ => split end;
      first [ exact Hr | exact Hwr | apply wrap_u32_range | apply wrap_s32_range
            | by apply space_padded_chars | by apply constant_chars; vm_compute | by vm_compute ]. }
  set (d := DecodedInstrumentDef54 (instrument_root product reports w) [mkInstrDefEventEntry 5 0]
              [mkInstrDefFeedTypeEntry gbx 10] [] [lot]).
  assert (Hev : Forall ws_fits [mkInstrDefEventEntry 5 0]) by by apply Forall_singleton; vm_compute.
  assert (Hft : Forall ws_fits [mkInstrDefFeedTypeEntry gbx 10])
    by (apply Forall_singleton; split; [by apply constant_chars; vm_compute|by vm_compute]).
  assert (Hlot : Forall ws_fits [lot]) by (apply Forall_singleton; split; [by vm_compute|apply wrap_s32_range]).
  exists (wire_bytes d), w. split_and!; [unfold encode_instrument_definition; by rewrite Hw|done| |].
  - pose proof (rc_got _ _ _ (recovers_mdp3 d ltac:(split_and!; [exact Hroot|by split..])) []) as Hd.
    by rewrite app_nil_r in Hd.
  - unfold d, wire_bytes. rewrite !length_app, (ws_length _ Hroot).
    rewrite (ws_length (make_header MDInstrumentDefinitionFuture54)) by by vm_compute.
    rewrite (length_put_group GroupHeader _ Hev), (length_put_group GroupHeader _ Hft), (length_put_group GroupHeader _ Hlot) by done.
    rewrite (length_put_group (A := InstrDefAttribEntry) GroupHeader []) by done. by vm_compute.
Qed.

(** ** Concrete messages *)

Definition demo_events : list event :=
  [DepthUpdate Buy 45000000 30000 2 DepthAdd 100; OrderCancelled 7 101 UserRequested;
   TopOfBook 45000000 30000 0 0 102; Trade (-12500) 20000 4 5 Sell (-3); MarketStatus Halt 104].

Lemma demo_events_feedable : Forall feedable demo_events.
Proof.
  repeat (apply Forall_cons; split); try done; cbn; split_and!; try done;
    first [by exists 3 | by exists 2 | by exists 0].
Qed.

Lemma mdp3_feed_delivers_witness :
  ∃ p0 p, make_publisher 17 (replicate 6 65) (replicate 6 66) = Some p0 ∧ mdp3_listen demo_events p0 = Some p ∧
    Forall2 (λ pkt v, ∃ d, decode_mdp3_message (packet_bytes pkt) = Got d [] ∧ view d = Some v)
      p.(pub_packets) (market_views 17 1 demo_events).
Proof.
  apply (mdp3_feed_delivers 17 (replicate 6 65) (replicate 6 66) demo_events);
    [done|by apply constant_chars; vm_compute|by apply constant_chars; vm_compute|apply demo_events_feedable].
Defined.

Definition demo_status : Decoded :=
  DecodedSecurityStatus30 (mkSecurityStatus30 5 (replicate 6 65) (replicate 6 66) (-1) 2 3 4 5 6).

Lemma mdp3_roundtrip_witness :
  (∀ rest, decode_mdp3_message (wire_bytes demo_status ++ rest) = Got demo_status rest) ∧
  (∀ p q, wire_bytes demo_status = p ++ q → q ≠ [] → decode_mdp3_message p = Failed kBufferTooShort).
Proof.
  apply (mdp3_roundtrip demo_status). cbn [demo_status decoded_fits ws_fits SecurityStatus30_struct].
  repeat match goal with |- _ ∧ _ => split end;
    first [by apply constant_chars; vm_compute | by vm_compute].
Defined.

Definition demo_snapshot : list SnapshotEntry := [mkSnapshotEntry 45000000 30000 Buy; mkSnapshotEntry 45002500 20000 Sell].

Lemma mdp3_snapshot_recovers_witness :
  ∃ bs es rest, encode_snapshot 17 99 4 demo_snapshot 1 1 = Some bs ∧
    decode_mdp3_message bs =
      Got (DecodedSnapshot53 (mkSnapshotFullRefreshOrderBook53 4 1 17 1 1 99) es) rest ∧
    mapM view_snapshot es = Some demo_snapshot ∧
    (∀ i e, es !! i = Some e → e.(sb_order_id) = 1 + Z.of_nat i) ∧ length rest = O.
Proof.
  apply (mdp3_snapshot_recovers 17 99 4 1 1 demo_snapshot); try done.
  apply Forall_cons. split; [split; [done|by exists 3]|]. apply Forall_singleton. split; [done|by exists 2].
Defined.
