(* ===== verification/Products.v ===== *)
(** * Product and spread tables

    The tables of [cme_products.h], [ice_products.h], [krx_products.h],
    [cme_spreads.h], [ice_spreads.h] and [krx_spreads.h], and
    [spread_instrument_config.h]; the records of the CME and ICE products are
    in [Mdp3] and [Impact], which publish them. *)

From Stdlib Require Import Ascii String.
From S2P Require Import Prelude Types Text Spread Impact Mdp3.

(** ** Spread instruments *)

Record SpreadInstrumentConfig : Type := mkSpreadInstrument {
  si_id : Z;
  si_symbol : list Z;
  si_strategy_type : StrategyType;
  si_legs : list StrategyLeg;
  si_tick_size_override : Price;
  si_lot_size_override : Quantity
}.

Definition build_strategy (c : SpreadInstrumentConfig) : option SpreadStrategy :=
  make_strategy c.(si_strategy_type) c.(si_legs) c.(si_tick_size_override) c.(si_lot_size_override).

Definition register_in (c : SpreadInstrumentConfig) (r : SpreadStrategyRegistry)
    : option (SpreadStrategyRegistry * option RegisterError) :=
  st ← build_strategy c; Some (register_strategy c.(si_id) st r).

(** ** CME *)

Definition get_cme_products : list CmeProductConfig := [
  mkCmeProduct 1 (chars "ES") (chars "E-mini S&P 500") (chars "Equity Index") 2500 10000 (10000 * 2000) 5;
  mkCmeProduct 2 (chars "NQ") (chars "E-mini Nasdaq-100") (chars "Equity Index") 2500 10000 (10000 * 2000) 5;
  mkCmeProduct 3 (chars "CL") (chars "Crude Oil WTI") (chars "Energy") 100 10000 (10000 * 1000) 7;
  mkCmeProduct 4 (chars "GC") (chars "Gold 100 oz") (chars "Metals") 1000 10000 (10000 * 500) 5;
  mkCmeProduct 5 (chars "ZN") (chars "10-Year T-Note") (chars "Interest Rate") 156 10000 (10000 * 10000) 3;
  mkCmeProduct 6 (chars "ZB") (chars "30-Year T-Bond") (chars "Interest Rate") 313 10000 (10000 * 10000) 3;
  mkCmeProduct 7 (chars "MES") (chars "Micro E-mini S&P 500") (chars "Equity Index") 2500 10000 (10000 * 5000) 5;
  mkCmeProduct 8 (chars "6E") (chars "Euro FX") (chars "FX") 5 10000 (10000 * 2000) 3
].

Definition get_cme_calendar_spreads : list SpreadInstrumentConfig := [
  mkSpreadInstrument 1001 (chars "ES-CAL-U5Z5") CalendarSpread [mkLeg 1 1 1 2500 10000; mkLeg 2 (-1) 1 2500 10000] 0 0;
  mkSpreadInstrument 1002 (chars "ZN-CAL") CalendarSpread [mkLeg 5 1 1 156 10000; mkLeg 6 (-1) 1 313 10000] 0 0;
  mkSpreadInstrument 1003 (chars "CL-CAL") CalendarSpread [mkLeg 3 1 1 100 10000; mkLeg 4 (-1) 1 1000 10000] 0 0
].
Definition get_cme_butterfly_spreads : list SpreadInstrumentConfig := [
  mkSpreadInstrument 1101 (chars "ES-BF") Butterfly [mkLeg 1 1 1 2500 10000; mkLeg 2 (-2) 2 2500 10000; mkLeg 7 1 1 2500 10000] 0 0
].
Definition get_cme_condor_spreads : list SpreadInstrumentConfig := [
  mkSpreadInstrument 1201 (chars "ES-CD") Condor [mkLeg 1 1 1 2500 10000; mkLeg 2 (-1) 1 2500 10000; mkLeg 7 (-1) 1 2500 10000; mkLeg 8 1 1 5 10000] 0 0
].
Definition get_cme_crack_spreads : list SpreadInstrumentConfig := [
  mkSpreadInstrument 1301 (chars "CL-GC-CRACK") InterCommodity [mkLeg 3 1 1 100 10000; mkLeg 4 (-1) 1 1000 10000] 0 0
].
Definition get_all_cme_spreads : list SpreadInstrumentConfig :=
  get_cme_calendar_spreads ++ get_cme_butterfly_spreads ++ get_cme_condor_spreads ++ get_cme_crack_spreads.

(** ** ICE *)

Definition get_ice_products : list IceProductConfig := [
  mkIceProduct 1 (chars "B") (chars "Brent Crude Futures") (chars "Energy") 100 10000 (10000 * 5000) AlgoFIFO 10000 5000 15000 120 CancelNewest;
  mkIceProduct 2 (chars "G") (chars "Gasoil Futures") (chars "Energy") 2500 10000 (10000 * 2000) AlgoFIFO 50000 5000 15000 120 CancelNewest;
  mkIceProduct 3 (chars "M") (chars "UK Natural Gas (NBP)") (chars "Energy") 100 10000 (10000 * 5000) AlgoFIFO 5000 5000 15000 120 CancelNewest;
  mkIceProduct 4 (chars "C") (chars "London Cocoa") (chars "Softs") 10000 10000 (10000 * 1000) AlgoFIFO 100000 15000 15000 120 CancelNewest;
  mkIceProduct 5 (chars "RC") (chars "Robusta Coffee") (chars "Softs") 10000 10000 (10000 * 1000) AlgoFIFO 100000 15000 15000 120 CancelNewest;
  mkIceProduct 6 (chars "W") (chars "White Sugar No. 5") (chars "Softs") 1000 10000 (10000 * 2000) AlgoFIFO 20000 15000 15000 120 CancelNewest;
  mkIceProduct 7 (chars "I") (chars "Three-Month Euribor") (chars "STIR") 50 10000 (10000 * 10000) AlgoGTBPR 500 5000 5000 120 CancelNewest;
  mkIceProduct 8 (chars "SO") (chars "Three-Month SONIA") (chars "STIR") 100 10000 (10000 * 10000) AlgoGTBPR 1000 5000 5000 120 CancelNewest;
  mkIceProduct 9 (chars "Z") (chars "FTSE 100 Index") (chars "Equity Index") 5000 10000 (10000 * 2000) AlgoFIFO 500000 5000 5000 300 CancelNewest;
  mkIceProduct 10 (chars "MW") (chars "MSCI World Index") (chars "Equity Index") 1000 10000 (10000 * 2000) AlgoFIFO 100000 5000 5000 300 CancelNewest
].

Definition get_ice_spread_products : list SpreadInstrumentConfig := [
  mkSpreadInstrument 2001 (chars "B-CAL") CalendarSpread [mkLeg 1 1 1 100 10000; mkLeg 1 (-1) 1 100 10000] 0 0;
  mkSpreadInstrument 2002 (chars "M-CAL") CalendarSpread [mkLeg 3 1 1 100 10000; mkLeg 3 (-1) 1 100 10000] 0 0;
  mkSpreadInstrument 2003 (chars "G-B-CRK") InterCommodity [mkLeg 2 1 1 2500 10000; mkLeg 1 (-1) 1 100 10000] 0 0;
  mkSpreadInstrument 2004 (chars "B-G-CRK") InterCommodity [mkLeg 1 1 1 100 10000; mkLeg 2 (-1) 1 2500 10000] 0 0
].

(** ** KRX *)

Inductive KrxProductGroup : Type := KrxFutures | KrxOptions | KrxFX | KrxBond.

Record KrxProductConfig : Type := mkKrxProduct {
  kp_instrument_id : Z; kp_symbol : list Z; kp_description : list Z; kp_product_group : KrxProductGroup;
  kp_tick_size : Price; kp_lot_size : Quantity; kp_max_order_size : Quantity;
  kp_tiered_limit_pcts : list Z; kp_dynamic_band_pct : Z; kp_vi_dynamic_pct : Z; kp_vi_static_pct : Z;
  kp_sidecar_threshold_pct : Z
}.

Definition get_krx_products : list KrxProductConfig := [
  mkKrxProduct 1 (chars "KS") (chars "KOSPI200 Futures") KrxFutures 500 10000 (10000 * 3000) [8; 15; 20] 5 3 10 5;
  mkKrxProduct 2 (chars "MKS") (chars "Mini-KOSPI200 Futures") KrxFutures 200 10000 (10000 * 5000) [8; 15; 20] 5 3 10 0;
  mkKrxProduct 3 (chars "KSQ") (chars "KOSDAQ150 Futures") KrxFutures 1000 10000 (10000 * 3000) [8; 15; 20] 5 3 10 0;
  mkKrxProduct 4 (chars "KSO") (chars "KOSPI200 Options") KrxOptions 100 10000 (10000 * 5000) [8; 15; 20] 5 3 10 0;
  mkKrxProduct 5 (chars "MKSO") (chars "Mini-KOSPI200 Options") KrxOptions 100 10000 (10000 * 5000) [8; 15; 20] 5 3 10 0;
  mkKrxProduct 6 (chars "KSOW") (chars "KOSPI200 Weekly Options") KrxOptions 100 10000 (10000 * 5000) [8; 15; 20] 5 3 10 0;
  mkKrxProduct 7 (chars "KSQO") (chars "KOSDAQ150 Options") KrxOptions 100 10000 (10000 * 5000) [8; 15; 20] 5 3 10 0;
  mkKrxProduct 8 (chars "USD") (chars "USD/KRW Futures") KrxFX 1000 10000 (10000 * 2000) [8; 15; 20] 3 3 10 0;
  mkKrxProduct 9 (chars "KTB") (chars "KTB 3-Year Futures") KrxBond 100 10000 (10000 * 3000) [8; 15; 20] 3 3 10 0;
  mkKrxProduct 10 (chars "LKTB") (chars "LKTB 10-Year Futures") KrxBond 100 10000 (10000 * 3000) [8; 15; 20] 3 3 10 0
].

Definition get_krx_spread_products : list SpreadInstrumentConfig := [
  mkSpreadInstrument 3001 (chars "KS-CAL") CalendarSpread [mkLeg 1 1 1 500 10000; mkLeg 1 (-1) 1 500 10000] 0 0;
  mkSpreadInstrument 3002 (chars "KTB-CAL") CalendarSpread [mkLeg 9 1 1 100 10000; mkLeg 9 (-1) 1 100 10000] 0 0;
  mkSpreadInstrument 3101 (chars "KS-BF") Butterfly [mkLeg 1 1 1 500 10000; mkLeg 1 (-2) 2 500 10000; mkLeg 1 1 1 500 10000] 0 0;
  mkSpreadInstrument 3201 (chars "KS-MKS") InterCommodity [mkLeg 1 1 1 500 10000; mkLeg 2 (-5) 5 200 10000] 200 0
].
