(* ===== verification/Gtbpr.v ===== *)
(** * Gradual time-based pro rata: [gtbpr_match.h]

    The matching algorithm of ICE's interest rate products.  Orders are weighed
    by size and age in double precision; within the bounds of
    [gtbpr_allocates_exactly] the rounding cannot allocate more than there is
    to fill, and the algorithm keeps the contract [match_ok] of the engine. *)

From Stdlib Require Import SpecFloat Rbase Rfunctions Lra.
From S2P Require Import Prelude Types MatchAlgo MatchAlgoFacts Doubles.

#[local] Open Scope Z_scope.

(** ** The algorithm *)

Definition NS_PER_SEC : double := of_int 1000000000.

Record GtbprConfig : Type := mkGtbpr {
  collar : Quantity;
  cap : Quantity;
  time_weight_factor : double
}.
(** [static const Config default_cfg{}]; the factor is [0.1]. *)
Definition default_cfg : GtbprConfig := mkGtbpr 50000 2000000 (of_ratio false 1 10).

(** Phase 1: the first order of at least the collar. *)
Fixpoint find_priority (c : Quantity) (q : list entry) : option entry :=
  match q with
  | [] => None
  | e :: q' => if e.2.(o_remaining_quantity) >=? c then Some e else find_priority c q'
  end.

Section phases.
Variables (cfg : GtbprConfig) (now : Timestamp) (price : Price).
(** [priority_order] and [priority_fill]. *)
Variables (priority : option loc) (priority_fill : Quantity).

Definition is_priority (l : loc) : bool := bool_decide (priority = Some l).
Definition effective_qty (e : entry) : Quantity :=
  e.2.(o_remaining_quantity) - (if is_priority e.1 then priority_fill else 0).

Definition age_seconds (ts : Timestamp) : option double :=
  if bool_decide (in_int64 (now - ts)) then
    let age_s := ddiv (of_int (now - ts)) NS_PER_SEC in
    Some (if dlt age_s d0 then d0 else age_s)
  else None.
Definition weight (e : entry) : option double :=
  age_s ← age_seconds e.2.(o_timestamp);
  let tw := dadd d1 (dmul cfg.(time_weight_factor) age_s) in
  Some (dmul (of_int (effective_qty e)) tw).

Fixpoint sum_weights (q : list entry) (total_weight : double) : option double :=
  match q with
  | [] => Some total_weight
  | e :: q' =>
      if effective_qty e <=? 0 then sum_weights q' total_weight
      else w ← weight e; sum_weights q' (dadd total_weight w)
  end.

(** Phase 2: the shares, rounded down and clamped. *)
Fixpoint time_weighted (total_weight : double) (pool : Quantity) (q : list entry) (fs : list FillResult)
    (allocated : Quantity) : option (list FillResult * Quantity) :=
  match q with
  | [] => Some (fs, allocated)
  | e :: q' =>
      if effective_qty e <=? 0 then time_weighted total_weight pool q' fs allocated
      else
        w ← weight e;
        share ← floor_int (dmul (ddiv w total_weight) (of_int pool));
        let alloc := Z.min share (effective_qty e) in
        if alloc <=? 0 then time_weighted total_weight pool q' fs allocated
        else
          let fs' := if is_priority e.1 then add_fill price e.1 alloc fs else fs ++ [mkFill e.1 price alloc 0] in
          time_weighted total_weight pool q' fs' (allocated + alloc)
  end.

(** Phase 3, one pass: a lot for every order with room, while any are left. *)
Fixpoint lot_pass (q : list entry) (remainder : Quantity) (fs : list FillResult) (distributed : Quantity)
    : Quantity * list FillResult * Quantity :=
  match q with
  | [] => (remainder, fs, distributed)
  | (l, o) :: q' =>
      if remainder >? 0 then
        if o.(o_remaining_quantity) - first_qty l fs <=? 0 then lot_pass q' remainder fs distributed
        else lot_pass q' (remainder - 1) (add_fill price l 1 fs) (distributed + 1)
      else (remainder, fs, distributed)
  end.
(** [while (remainder > 0)]; [None] when the fuel is spent first. *)
Fixpoint lot_passes (fuel : nat) (q : list entry) (remainder : Quantity) (fs : list FillResult)
    : option (list FillResult) :=
  if remainder >? 0 then
    match fuel with
    | O => None
    | S fuel' =>
        let '(remainder', fs', distributed) := lot_pass q remainder fs 0 in
        if distributed =? 0 then Some fs' else lot_passes fuel' q remainder' fs'
    end
  else Some fs.
End phases.

Definition GtbprMatch (now : Timestamp) (cfg : GtbprConfig) (level : PriceLevel) (remaining : Quantity)
    (results : list FillResult) : option match_out :=
  let q := level.(lv_queue) in
  let price := level.(lv_price) in
  if nothing_to_do level remaining then Some (q, remaining, results)
  else
    let to_fill := Z.min remaining level.(lv_total_quantity) in
    let '(priority, priority_fill) :=
      match find_priority cfg.(collar) q with
      | Some e => (Some e.1, Z.min cfg.(cap) (Z.min to_fill e.2.(o_remaining_quantity)))
      | None => (None, 0)
      end in
    let '(fs, pool) :=
      match priority with
      | Some l => if priority_fill >? 0 then ([mkFill l price priority_fill 0], to_fill - priority_fill) else ([], to_fill)
      | None => ([], to_fill)
      end in
    fs ←
      (if pool >? 0 then
         total_weight ← sum_weights cfg now priority priority_fill q d0;
         '(fs, allocated) ←
           (if dlt d0 total_weight
            then time_weighted cfg now price priority priority_fill total_weight pool q fs 0
            else Some (fs, 0));
         let remainder := pool - allocated in
         lot_passes price (Z.to_nat remainder) q remainder fs
       else Some fs);
    let '(q', fs') := apply_results q fs in
    Some (q', remaining - to_fill, results ++ fs').

(** The overload the engine calls. *)
Definition gtbpr_match (level : PriceLevel) (remaining : Quantity) (results : list FillResult) : option match_out :=
  GtbprMatch 0 default_cfg level remaining results.

(** ** Weights *)

(** A factor that is zero or of moderate size. *)
Definition factor_ok (f : double) : Prop :=
  finite f ∧ valid f ∧ (val f = 0%R ∨ (bpow (-60) <= val f <= bpow 60)%R).

Section weights.
Variables (cfg : GtbprConfig) (now : Timestamp) (priority : option loc) (priority_fill : Quantity).
Hypothesis Hfactor : factor_ok cfg.(time_weight_factor).
Abbreviation eff := (effective_qty priority priority_fill) (only parsing).

Lemma age_ok ts : in_int64 (now - ts) →
  ∃ a, age_seconds now ts = Some a ∧ finite a ∧ valid a ∧ (val a = 0%R ∨ (bpow (-40) <= val a <= bpow 70)%R).
Proof using Type.
  intros H. unfold age_seconds. rewrite bool_decide_eq_true_2 by done. eexists. split; [done|].
  pose proof (of_int_rounds _ H) as [Fn Vn Nn].
  assert (EN : val NS_PER_SEC = 1000000000%R) by (by apply of_int_exact).
  set (n := now - ts) in *. set (x := of_int n) in *.
  assert (HN : (bpow 29 <= 1000000000 <= bpow 30)%R) by (rewrite !bpow_IZR by lia; split; apply IZR_le; done).
  assert (HI : (bpow (-30) <= / 1000000000 <= bpow (-29))%R) by apply (inv_pow _ _ _ HN).
  assert (Hn : in_int64 n) by done. unfold in_int64, int64_min, int64_max in Hn.
  assert (Hq : n ≠ 0 → in_range (val x / val NS_PER_SEC)).
  { intros Hne. right. rewrite EN. unfold Rdiv. rewrite Rabs_mult, (Rabs_pos_eq (/ _)) by (pose proof (bpow_pos (-30)); lra).
    pose proof (IZR_pow (Z.abs n) 63 ltac:(lia) ltac:(lia)) as Hp. rewrite abs_IZR in Hp.
    assert (Hx : (bpow (-1) <= Rabs (val x) <= bpow 64)%R).
    { apply near_abs in Nn. pose proof unit_roundoff_half. pose proof unit_roundoff_pos. pose proof (bpow_pos 63).
      change 64 with (63 + 1). rewrite (bpow_add 63 1), bpow_1, bpow_m1. rewrite bpow_0 in Hp. nra. }
    pose proof (mult_pow _ _ _ _ _ _ Hx HI) as Hb. pose proof (bpow_le (-1022) (-1 + -30) ltac:(lia)).
    pose proof (bpow_le (64 + -29) 1023 ltac:(lia)). lra. }
  destruct (Z.eq_dec n 0) as [->|Hne].
  { change x with (S754_zero false). cbn. split_and!; [done|done|by left]. }
  destruct (ddiv_rounds x NS_PER_SEC) as [Fq Vq Nq]; [done|done|rewrite EN; intros ?; lra|by apply Hq|].
  destruct (dlt _ d0) eqn:E; [split_and!; [done|done|by left]|].
  split_and!; [done|done|right].
  assert (Hpos : (0 <= val (ddiv x NS_PER_SEC))%R).
  { apply Rnot_lt_le. intros Hlt. apply dlt_neg in Hlt; [|done]. congruence. }
  assert (Hn0 : 0 < n).
  { destruct (Z.lt_trichotomy n 0) as [Hlt|[?|?]]; [|lia|done]. exfalso.
    apply IZR_lt in Hlt. apply near_neg in Nn; [|done]. apply near_neg in Nq; [lra|]. rewrite EN. lra. }
  assert (Hx : (bpow (0 - 1) <= val x <= bpow (63 + 1))%R).
  { eapply rounds_pow; [by split|]. apply IZR_pow; lia. }
  pose proof (mult_pow _ _ _ _ _ _ Hx HI) as Hb.
  assert (Hr : (bpow (0 - 1 + -30 - 1) <= val (ddiv x NS_PER_SEC) <= bpow (63 + 1 + -29 + 1))%R).
  { eapply rounds_pow; [by split|]. by rewrite EN. }
  pose proof (bpow_le (-40) (0 - 1 + -30 - 1) ltac:(lia)). pose proof (bpow_le (63 + 1 + -29 + 1) 70 ltac:(lia)). lra.
Qed.

Definition weight_bounds (w : double) : Prop :=
  finite w ∧ valid w ∧ (bpow (-3) <= val w <= bpow 200)%R.

Lemma weight_ok e : in_int64 (now - e.2.(o_timestamp)) → 0 < eff e < 2 ^ 63 →
  ∃ w, weight cfg now priority priority_fill e = Some w ∧ weight_bounds w.
Proof using Hfactor.
  intros Ht He. destruct (age_ok _ Ht) as (a & Ea & Fa & Va & Ba). unfold weight. rewrite Ea. cbn [mbind option_bind].
  eexists. split; [done|]. destruct Hfactor as (Ff & Vf & Bf).
  set (fm := dmul cfg.(time_weight_factor) a).
  assert (Hfm : finite fm ∧ valid fm ∧ (0 <= val fm <= bpow 131)%R).
  { pose proof (bpow_pos 131).
    assert (Hz : val cfg.(time_weight_factor) = 0%R ∨ val a = 0%R ∨
                 (bpow (-100) <= val cfg.(time_weight_factor) * val a <= bpow 130)%R).
    { destruct Bf as [|Bf]; [by left|]. destruct Ba as [|Ba]; [by right; left|]. right; right.
      apply (mult_pow _ _ _ _ _ _ Bf Ba). }
    destruct (dmul_rounds cfg.(time_weight_factor) a) as [F V N]; [done..| |].
    { destruct Hz as [Hz|[Hz|Hz]]; [left; rewrite Hz; ring|left; rewrite Hz; ring|by eapply in_range_pow]. }
    split; [done|split; [done|]]. destruct Hz as [Hz|[Hz|Hz]].
    - apply near_bounds in N; rewrite Hz in *; fold fm in N; lra.
    - apply near_bounds in N; rewrite Hz in *; fold fm in N; lra.
    - pose proof (rounds_pow _ _ _ _ {| rounds_finite := F; rounds_valid := V; rounds_near := N |} Hz) as Hp.
      fold fm in Hp. pose proof (bpow_pos (-100 - 1)). change (130 + 1) with 131 in Hp. lra. }
  destruct Hfm as (Ffm & Vfm & Bfm).
  assert (E1 : val d1 = 1%R) by (by apply of_int_exact).
  assert (Htw : (bpow 0 <= val d1 + val fm <= bpow 132)%R).
  { rewrite E1, bpow_0. change 132 with (131 + 1). rewrite (bpow_add 131 1), bpow_1. pose proof (bpow_ge_1 131 ltac:(lia)). lra. }
  assert (Hr1 : rounds (dadd d1 fm) (val d1 + val fm)).
  { apply dadd_rounds; [done..|by eapply in_range_pow]. }
  pose proof (rounds_pow _ _ _ _ Hr1 Htw) as Btw.
  assert (Hi : in_int64 (eff e)) by (unfold in_int64, int64_min, int64_max; lia).
  pose proof (of_int_rounds _ Hi) as Hr2.
  pose proof (rounds_pow _ _ _ _ Hr2 (IZR_pow (eff e) 63 ltac:(lia) ltac:(lia))) as Beff.
  pose proof (mult_pow _ _ _ _ _ _ Beff Btw) as Bw.
  assert (Hr3 : rounds (dmul (of_int (eff e)) (dadd d1 fm)) (val (of_int (eff e)) * val (dadd d1 fm))).
  { apply dmul_rounds; [apply Hr2|apply Hr1|apply Hr2|apply Hr1|by eapply in_range_pow]. }
  pose proof (rounds_pow _ _ _ _ Hr3 Bw) as B.
  split; [apply Hr3|split; [apply Hr3|]].
  change (0 - 1 + (0 - 1) - 1) with (-3) in B. pose proof (bpow_le (63 + 1 + (132 + 1) + 1) 200 ltac:(lia)). lra.
Qed.

(** The weight of an order that takes part, and nothing for the others. *)
Definition weight_value (e : entry) : R :=
  if eff e <=? 0 then 0%R else match weight cfg now priority priority_fill e with Some w => val w | None => 0%R end.
Fixpoint total_value (q : list entry) : R :=
  match q with [] => 0%R | e :: q' => (weight_value e + total_value q')%R end.

Definition weighable (q : list entry) : Prop :=
  Forall (λ e : entry, in_int64 (now - e.2.(o_timestamp)) ∧ eff e < 2 ^ 63) q.

Lemma weight_value_nonneg e : in_int64 (now - e.2.(o_timestamp)) ∧ eff e < 2 ^ 63 →
  (0 <= weight_value e <= bpow 200)%R ∧ (0 < eff e → (bpow (-3) <= weight_value e)%R).
Proof using Hfactor.
  intros [Ht He]. unfold weight_value. destruct (Z.leb_spec (eff e) 0) as [H|H].
  - pose proof (bpow_pos 200). split; [lra|lia].
  - destruct (weight_ok e Ht) as (w & -> & _ & _ & B); [lia|]. pose proof (bpow_pos (-3)). split; [lra|]. intros _. lra.
Qed.
Lemma total_value_nonneg q : weighable q → (0 <= total_value q)%R.
Proof using Hfactor.
  induction 1 as [|e q He _ IH]; cbn; [lra|]. apply weight_value_nonneg in He as [He _]. lra.
Qed.

(** The accumulated rounding errors of the total: [k] additions so far, of
    exact sum [s]. *)
Definition accumulated (k : nat) (s : R) (acc : double) : Prop :=
  finite acc ∧ valid acc ∧ (s * (1 - INR k * unit_roundoff) <= val acc)%R ∧
  (val acc <= bpow (201 + Z.of_nat k))%R ∧ (val acc = 0 ∨ bpow (-4) <= val acc)%R.

Lemma accumulated_add k s acc w : (k <= 500)%nat → (0 <= s)%R → accumulated k s acc → weight_bounds w →
  accumulated (S k) (s + val w) (dadd acc w).
Proof using Type.
  intros Hk Hs (F & V & B1 & B2 & B3) (Fw & Vw & Bw). pose proof (bpow_pos (-3)). pose proof (bpow_pos (-4)).
  assert (Hb : (bpow (-3) <= val acc + val w <= bpow (201 + Z.of_nat k + 1))%R).
  { rewrite (bpow_add _ 1), bpow_1. pose proof (bpow_le 200 (201 + Z.of_nat k) ltac:(lia)).
    destruct B3; lra. }
  assert (Hsucc : bpow (201 + Z.of_nat (S k)) = (2 * bpow (201 + Z.of_nat k))%R).
  { replace (201 + Z.of_nat (S k)) with (1 + (201 + Z.of_nat k)) by lia. by rewrite bpow_add, bpow_1. }
  destruct (dadd_rounds acc w) as [F' V' N]; [done..|eapply in_range_pow; [exact Hb|lia|lia]|].
  apply near_bounds in N; [|lra]. pose proof unit_roundoff_pos as Hu. pose proof unit_roundoff_half as Hu'.
  split_and!; [done|done| | |].
  - rewrite S_INR. assert (Hku : (0 <= INR k * unit_roundoff)%R) by (apply Rmult_le_pos; [apply pos_INR|lra]).
    apply Rle_trans with ((s * (1 - INR k * unit_roundoff) + val w) * (1 - unit_roundoff))%R; [|nra].
    assert (0 <= s * (INR k * unit_roundoff) * unit_roundoff)%R by (apply Rmult_le_pos; [apply Rmult_le_pos|]; lra).
    assert (0 <= val w * (INR k * unit_roundoff))%R by (apply Rmult_le_pos; lra). nra.
  - rewrite Hsucc. pose proof (bpow_le 201 (201 + Z.of_nat k) ltac:(lia)). 
    assert (bpow 201 = 2 * bpow 200)%R as E201 by (change 201 with (1 + 200); by rewrite bpow_add, bpow_1).
    (* the exact sum is at most three halves of the bound *)
    assert (val acc + val w <= 2 * bpow (201 + Z.of_nat k) * (1 - unit_roundoff))%R; [|nra].
    pose proof (bpow_pos 200). pose proof unit_roundoff_quarter.
    assert (bpow (201 + Z.of_nat k) * unit_roundoff <= bpow (201 + Z.of_nat k) * / 4)%R
      by (apply Rmult_le_compat_l; lra). lra.
  - right. change (-4) with (-3 + -1). rewrite bpow_add, bpow_m1. nra.
Qed.

Lemma sum_weights_ok q k s acc : weighable q → (k + length q <= 500)%nat → (0 <= s)%R → accumulated k s acc →
  ∃ k' total, sum_weights cfg now priority priority_fill q acc = Some total ∧ (k' <= k + length q)%nat ∧
    accumulated k' (s + total_value q) total.
Proof using Hfactor.
  intros Hq. revert k s acc. induction Hq as [|e q He Hq IH]; intros k s acc Hk Hs Hacc; cbn [sum_weights total_value length] in *.
  { exists k, acc. rewrite Rplus_0_r. split_and!; [done|lia|done..]. }
  unfold weight_value at 1. destruct (Z.leb_spec (eff e) 0) as [Hz|Hp].
  - rewrite Rplus_0_l. destruct (IH k s acc) as (k' & t & E & Hk' & H); [lia|done..|].
    exists k', t. split_and!; [done|lia|done..].
  - destruct He as [Ht He]. destruct (weight_ok e Ht) as (w & E & Hw); [lia|]. rewrite E. cbn [mbind option_bind].
    assert (Hw0 : (0 <= val w)%R) by (destruct Hw as (_ & _ & ? & _); pose proof (bpow_pos (-3)); lra).
    destruct (IH (S k) (s + val w)%R (dadd acc w)) as (k' & t & E' & Hk' & H); [lia|lra|apply accumulated_add; [lia|done..]|].
    exists k', t. rewrite <- Rplus_assoc. split_and!; [done|lia|done..].
Qed.

(** ** Shares *)

(** The share of one order, rounded down, against its exact part of the pool. *)
Lemma share_ok w total pool : weight_bounds w → finite total → valid total →
  (bpow (-4) <= val total <= bpow 800)%R → (val w <= 2 * val total)%R → 1 <= pool < 2 ^ 53 →
  ∃ a, floor_int (dmul (ddiv w total) (of_int pool)) = Some a ∧ 0 <= a ∧
    (IZR a <= val w * (IZR pool * ((1 + unit_roundoff) * (1 + unit_roundoff)) / val total))%R.
Proof using Type.
  intros (Fw & Vw & Bw) Ft Vt Bt Hle Hpool. pose proof (bpow_pos (-4)). pose proof (bpow_pos (-3)).
  pose proof unit_roundoff_pos as Hu. pose proof unit_roundoff_half as Hu'.
  assert (HI : (bpow (-800) <= / val total <= bpow 4)%R) by apply (inv_pow _ _ _ Bt).
  pose proof (mult_pow _ _ _ _ _ _ Bw HI) as Bq. fold (val w / val total)%R in Bq.
  assert (Hq : rounds (ddiv w total) (val w / val total)).
  { apply ddiv_rounds; [done|done|intros E; lra|by eapply in_range_pow]. }
  pose proof (rounds_pow _ _ _ _ Hq Bq) as Bq'.
  assert (Hp : rounds (of_int pool) (IZR pool)) by (apply of_int_rounds; unfold in_int64, int64_min, int64_max; lia).
  assert (Ep : val (of_int pool) = IZR pool) by (apply of_int_exact; lia).
  pose proof (IZR_pow pool 53 ltac:(lia) ltac:(lia)) as Bp.
  pose proof (mult_pow _ _ _ _ _ _ Bq' Bp) as Bc. rewrite <- Ep in Bc.
  assert (Hc : rounds (dmul (ddiv w total) (of_int pool)) (val (ddiv w total) * val (of_int pool))).
  { apply dmul_rounds; [apply Hq|apply Hp|apply Hq|apply Hp|by eapply in_range_pow]. }
  pose proof (rounds_pow _ _ _ _ Hc Bc) as Bc'.
  destruct Hq as [_ _ Nq]. apply near_bounds in Nq; [|pose proof (bpow_pos (-3 + -800)); lra].
  destruct Hc as [Fc _ Nc]. rewrite Ep in Nc.
  pose proof (bpow_pos (-3 + -800 - 1 + 0)). pose proof (bpow_pos (-3 + -800 - 1)).
  assert (H0p : (1 <= IZR pool)%R) by (apply IZR_le; lia).
  apply near_bounds in Nc; [|apply Rmult_le_pos; lra].
  set (c := val (dmul _ _)) in *. set (r := val (ddiv _ _)) in *.
  assert (Hr2 : (val w / val total <= 2)%R).
  { apply Rmult_le_reg_r with (val total); [lra|]. unfold Rdiv. rewrite Rmult_assoc, Rinv_l; [lra|intros E; lra]. }
  assert (Hrp : (0 <= r * IZR pool)%R) by (apply Rmult_le_pos; lra).
  assert (Hc62 : (c <= bpow 62)%R).
  { pose proof (bpow_le 60 62 ltac:(lia)). assert (IZR pool <= bpow 53)%R by lra.
    assert (bpow 60 = 128 * bpow 53)%R as E60.
    { change 60 with (7 + 53). rewrite bpow_add. f_equal. by rewrite bpow_IZR. }
    pose proof (bpow_pos 53). assert (r <= 4)%R by nra. assert (r * IZR pool <= 4 * bpow 53)%R by nra. nra. }
  destruct (floor_int_total _ Fc) as (a & Ea & Ha); [fold c; pose proof (bpow_pos 62); pose proof (bpow_pos (-3 + -800 - 1 + 0 - 1)); lra|].
  exists a. fold c in Ha. split; [done|]. split.
  - apply Z.lt_succ_r, lt_IZR. rewrite succ_IZR. pose proof (bpow_pos (-3 + -800 - 1 + 0 - 1)). lra.
  - apply Rle_trans with c; [lra|]. apply Rle_trans with (r * IZR pool * (1 + unit_roundoff))%R; [lra|].
    apply Rle_trans with (val w / val total * (1 + unit_roundoff) * IZR pool * (1 + unit_roundoff))%R.
    + apply Rmult_le_compat_r; [lra|]. apply Rmult_le_compat_r; lra.
    + apply Req_le. field. intros E; lra.
Qed.
End weights.

(** ** Phase 2 allocates no more than the pool *)

Section allocation.
Variables (cfg : GtbprConfig) (now : Timestamp) (price : Price) (q0 : list entry).
Variables (priority : option loc) (priority_fill : Quantity).
Hypothesis Hfactor : factor_ok cfg.(time_weight_factor).
Hypothesis Hq0 : NoDup q0.*1.

Lemma absent_fill l fs : allocation price q0 fs → qty_of l fs = 0 → has_fill l fs = false.
Proof using Type.
  intros [Hnd Hfs _] H. apply has_fill_false. intros Hin. apply list_elem_of_fmap in Hin as (f & -> & Hf).
  rewrite qty_of_elem in H by done. rewrite Forall_forall in Hfs. destruct (Hfs f Hf) as (_ & ? & _). lia.
Qed.

(** What phase 1 has given an order that phase 2 has not reached. *)
Definition given (l : loc) : Quantity := if is_priority priority l then priority_fill else 0.

Lemma place_share l o a fs : allocation price q0 fs → (l, o) ∈ q0 → qty_of l fs = given l → 0 < a →
  a <= effective_qty priority priority_fill (l, o) →
  allocation price q0 (if is_priority priority l then add_fill price l a fs else fs ++ [mkFill l price a 0]) ∧
  (if is_priority priority l then add_fill price l a fs else fs ++ [mkFill l price a 0]) = add_fill price l a fs.
Proof using Hq0.
  intros Hal Hin Hg Ha Hle. unfold effective_qty in Hle. cbn in Hle. unfold given in Hg.
  assert (E : (if is_priority priority l then add_fill price l a fs else fs ++ [mkFill l price a 0]) = add_fill price l a fs).
  { destruct (is_priority priority l); [done|]. unfold add_fill. by rewrite (absent_fill l fs Hal). }
  rewrite E. split; [|done]. apply (add_fill_allocation price q0 fs l o a); [done..|].
  destruct (is_priority priority l); lia.
Qed.

(** The outcome of phase 2 on the orders [q], with [c] per unit of weight. *)
Definition shares_taken (c : R) (q : list entry) (fs : list FillResult) (allocated : Quantity)
    (r : option (list FillResult * Quantity)) : Prop :=
  ∃ fs' allocated', r = Some (fs', allocated') ∧ allocation price q0 fs' ∧
    sum_by f_quantity fs' = sum_by f_quantity fs + (allocated' - allocated) ∧ allocated <= allocated' ∧
    (IZR (allocated' - allocated) <= c * total_value cfg now priority priority_fill q)%R.

Lemma time_weighted_ok total pool c q fs allocated : NoDup q.*1 → q ⊆ q0 → weighable now priority priority_fill q →
  finite total → valid total → (bpow (-4) <= val total <= bpow 800)%R → 1 <= pool < 2 ^ 53 →
  c = (IZR pool * ((1 + unit_roundoff) * (1 + unit_roundoff)) / val total)%R →
  (∀ e, e ∈ q → weight_value cfg now priority priority_fill e <= 2 * val total)%R →
  allocation price q0 fs → (∀ e, e ∈ q → qty_of e.1 fs = given e.1) →
  shares_taken c q fs allocated (time_weighted cfg now price priority priority_fill total pool q fs allocated).
Proof using Hfactor Hq0.
  intros Hnd Hsub Hw Ft Vt Bt Hpool Hc Hle Hal Hg.
  assert (Hc0 : (0 <= c)%R).
  { pose proof (bpow_pos (-4)). pose proof unit_roundoff_pos. assert (0 <= IZR pool)%R by (apply IZR_le; lia).
    rewrite Hc. apply Rmult_le_pos; [nra|]. apply Rlt_le, Rinv_0_lt_compat. lra. }
  revert fs allocated Hal Hg. induction q as [|e q IH]; intros fs allocated Hal Hg; cbn [time_weighted].
  { exists fs, allocated. rewrite Z.sub_diag. split_and!; [done|done|lia|lia|]. cbn. lra. }
  cbn in Hnd. apply NoDup_cons in Hnd as [Hni Hnd]. apply Forall_cons in Hw as [He Hw].
  assert (Hsub' : q ⊆ q0) by set_solver. assert (Hine : e ∈ q0) by set_solver.
  assert (Hle' : ∀ x, x ∈ q → (weight_value cfg now priority priority_fill x <= 2 * val total)%R).
  { intros x Hx. apply Hle. by right. }
  specialize (IH Hnd Hsub' Hw Hle').
  pose proof (weight_value_nonneg cfg now priority priority_fill Hfactor e He) as [[Hv0 _] _].
  (* an order that takes nothing *)
  assert (Hskip : shares_taken c (e :: q) fs allocated
    (time_weighted cfg now price priority priority_fill total pool q fs allocated)).
  { destruct (IH fs allocated Hal) as (fs' & al' & E & H1 & H2 & H3 & H4); [intros x Hx; apply Hg; by right|].
    exists fs', al'. split_and!; [done..|]. cbn [total_value]. rewrite Rmult_plus_distr_l.
    assert (0 <= c * weight_value cfg now priority priority_fill e)%R by (by apply Rmult_le_pos). lra. }
  destruct (Z.leb_spec (effective_qty priority priority_fill e) 0) as [Hz|Hp]; [done|].
  destruct He as [Ht He]. destruct (weight_ok cfg now priority priority_fill Hfactor e Ht) as (w & Ew & Hwb); [lia|].
  specialize (Hle e (list_elem_of_here _ _)).
  unfold weight_value in Hle. rewrite (proj2 (Z.leb_gt _ 0) Hp), Ew in Hle.
  destruct (share_ok w total pool Hwb Ft Vt Bt Hle Hpool) as (a & Ea & Ha0 & Ha). rewrite <- Hc in Ha.
  rewrite Ew. cbn [mbind option_bind]. rewrite Ea. cbn [mbind option_bind].
  destruct (Z.leb_spec (Z.min a (effective_qty priority priority_fill e)) 0) as [Hz'|Hp']; [done|]. clear Hskip.
  set (alloc := Z.min a _) in *. destruct e as [l o]. cbn [fst] in *.
  destruct (place_share l o alloc fs Hal Hine (Hg _ (list_elem_of_here _ _)) Hp' ltac:(lia)) as [Hal' E]. rewrite E in *.
  destruct (IH (add_fill price l alloc fs) (allocated + alloc) Hal') as (fs' & al' & E' & H1 & H2 & H3 & H4).
  { intros [k o'] Hk. rewrite add_fill_qty. cbn [fst]. specialize (Hg (k, o') ltac:(by right)). cbn [fst] in Hg. rewrite Hg.
    destruct (Nat.eqb_spec l k) as [->|]; [|lia]. destruct Hni. by apply list_elem_of_fmap_2 with (f := fst) in Hk. }
  exists fs', al'. rewrite add_fill_sum in H2. split_and!; [done|done|lia|lia|]. cbn [total_value].
  unfold weight_value at 1. rewrite (proj2 (Z.leb_gt _ 0) Hp), Ew.
  replace (al' - allocated) with (alloc + (al' - (allocated + alloc))) by lia. rewrite plus_IZR, Rmult_plus_distr_l.
  assert (IZR alloc <= IZR a)%R by (apply IZR_le; lia). lra.
Qed.
End allocation.

(** ** Phase 3 places the rest *)

Section remainder_passes.
Variables (price : Price) (q0 : list entry).
Hypothesis Hq0 : NoDup q0.*1.

Lemma lot_pass_ok q remainder fs distributed : q ⊆ q0 → 0 <= remainder → allocation price q0 fs →
  ∃ r' fs' d', lot_pass price q remainder fs distributed = (r', fs', d') ∧ allocation price q0 fs' ∧
    0 <= r' ∧ d' = distributed + (remainder - r') ∧ r' <= remainder ∧
    sum_by f_quantity fs' = sum_by f_quantity fs + (remainder - r') ∧
    (0 < remainder → r' = remainder → capacity fs q <= 0).
Proof using Hq0.
  revert remainder fs distributed. induction q as [|[l o] q IH]; intros R fs d Hsub HR Hal; cbn [lot_pass].
  { exists R, fs, d. split_and!; [done|done|lia..|]. cbn. lia. }
  assert (Hsub' : q ⊆ q0) by set_solver. assert (Hin : (l, o) ∈ q0) by set_solver.
  destruct (Z.gtb_spec R 0) as [Hp|Hz]; [|exists R, fs, d; split_and!; [done|done|lia..]].
  rewrite <- qty_of_first by apply (al_nodup _ _ _ Hal).
  destruct (Z.leb_spec (o.(o_remaining_quantity) - qty_of l fs) 0) as [Hfull|Hroom].
  - destruct (IH R fs d) as (r' & fs' & d' & E & H1 & H2 & H3 & H4 & H5 & H6); [done..|].
    exists r', fs', d'. split_and!; [done..|]. intros _ Hr. rewrite capacity_cons. cbn [fst snd]. specialize (H6 ltac:(lia) Hr). lia.
  - destruct (IH (R - 1) (add_fill price l 1 fs) (d + 1)) as (r' & fs' & d' & E & H1 & H2 & H3 & H4 & H5 & _); [done|lia| |].
    { apply (add_fill_allocation price q0 fs l o 1); [done..|lia|lia]. }
    rewrite add_fill_sum in H5. exists r', fs', d'. split_and!; [done|done|lia..].
Qed.

Lemma lot_passes_ok fuel remainder fs : remainder <= Z.of_nat fuel → 0 <= remainder → allocation price q0 fs →
  remainder <= sum_by (λ e : entry, e.2.(o_remaining_quantity)) q0 - sum_by f_quantity fs →
  ∃ fs', lot_passes price fuel q0 remainder fs = Some fs' ∧ allocation price q0 fs' ∧
    sum_by f_quantity fs' = sum_by f_quantity fs + remainder.
Proof using Hq0.
  revert remainder fs. induction fuel as [|fuel IH]; intros R fs Hf HR Hal Hcap; cbn [lot_passes].
  { assert (R = 0) as -> by lia. exists fs. split_and!; [done|done|lia]. }
  destruct (Z.gtb_spec R 0) as [Hp|Hz]; [|exists fs; split_and!; [done|done|lia]].
  destruct (lot_pass_ok q0 R fs 0) as (r' & fs' & d' & -> & H1 & H2 & H3 & H4 & H5 & H6); [done..|].
  pose proof (capacity_total price q0 fs Hq0 Hal) as Hc.
  destruct (Z.eqb_spec d' 0) as [->|Hd]; [specialize (H6 Hp ltac:(lia)); lia|].
  destruct (IH r' fs') as (fs'' & E & Ha & Hs); [lia|lia|done|lia|]. exists fs''. split_and!; [done|done|lia].
Qed.
End remainder_passes.

(** ** The contract *)

Lemma find_priority_elem c q e : find_priority c q = Some e → e ∈ q.
Proof.
  induction q as [|e' q IH]; cbn; [done|]. destruct (_ >=? c); [intros [= ->]; by left|]. intros H. right. by apply IH.
Qed.

(** The largest pool for which rounding cannot reach a whole lot. *)
Definition gtbpr_max : Quantity := 2 ^ 44.

Lemma shares_within_pool k pool s total allocated : (k <= 257)%nat → 1 <= pool <= gtbpr_max → (0 < s)%R →
  (s * (1 - INR k * unit_roundoff) <= total)%R → (0 < total)%R →
  (IZR allocated <= IZR pool * ((1 + unit_roundoff) * (1 + unit_roundoff)) / total * s)%R →
  allocated <= pool.
Proof.
  intros Hk [Hp1 Hp2] Hs Ht Ht0 Ha. unfold gtbpr_max in Hp2. apply IZR_le in Hp1, Hp2.
  pose proof unit_roundoff_pos as Hu. pose proof unit_roundoff_scaled as Hsc. set (u := unit_roundoff) in *.
  assert (Hk' : (INR k <= 257)%R) by (replace 257%R with (INR 257) by (cbn; lra); by apply le_INR).
  assert (Hk0 := pos_INR k).
  assert (Hpu : (IZR pool * u * 512 <= 1)%R).
  { rewrite <- Hsc. change (2 ^ 53) with (2 ^ 44 * 512). rewrite mult_IZR. nra. }
  assert (Hu' : (u <= / 1024)%R) by nra.
  apply Z.lt_succ_r, lt_IZR. rewrite succ_IZR. apply Rle_lt_trans with (1 := Ha).
  apply Rmult_lt_reg_r with total; [done|].
  replace (IZR pool * ((1 + u) * (1 + u)) / total * s * total)%R with (IZR pool * ((1 + u) * (1 + u)) * s)%R
    by (field; intros E; lra).
  apply Rlt_le_trans with ((IZR pool + 1) * (s * (1 - INR k * u)))%R; [|apply Rmult_le_compat_l; lra].
  replace ((IZR pool + 1) * (s * (1 - INR k * u)))%R with (s * ((IZR pool + 1) * (1 - INR k * u)))%R by ring.
  rewrite (Rmult_comm _ s). apply Rmult_lt_compat_l; [done|].
  assert (INR k * u <= 257 * u)%R by (apply Rmult_le_compat_r; lra).
  assert (IZR pool * (INR k * u) <= IZR pool * (257 * u))%R by (apply Rmult_le_compat_l; lra).
  assert (IZR pool * (u * u) <= IZR pool * u)%R by (apply Rmult_le_compat_l; nra). lra.
Qed.

Record gtbpr_bounds (now : Timestamp) (cfg : GtbprConfig) (level : PriceLevel) (remaining : Quantity) : Prop := {
  gb_cap : 0 <= cfg.(cap);
  gb_factor : factor_ok cfg.(time_weight_factor);
  gb_orders : Forall (λ e : entry, in_int64 (now - e.2.(o_timestamp)) ∧ e.2.(o_remaining_quantity) < 2 ^ 63) level.(lv_queue);
  gb_count : (length level.(lv_queue) <= 256)%nat;
  gb_pool : Z.min remaining level.(lv_total_quantity) <= gtbpr_max
}.

Section contract.
Variables (now : Timestamp) (cfg : GtbprConfig) (level : PriceLevel) (remaining : Quantity).
Hypothesis Hlv : level_ok level.
Hypothesis Hrem : 0 < remaining.
Hypothesis Hb : gtbpr_bounds now cfg level remaining.

Definition to_fill : Quantity := Z.min remaining level.(lv_total_quantity).

(** The state after phase 1. *)
Definition phase1_ok (priority : option loc) (priority_fill : Quantity) (fs : list FillResult) (pool : Quantity) : Prop :=
  allocation level.(lv_price) level.(lv_queue) fs ∧ 0 <= priority_fill ∧ 0 <= pool ∧ pool = to_fill - sum_by f_quantity fs ∧
  ∀ e, e ∈ level.(lv_queue) → qty_of e.1 fs = given priority priority_fill e.1.

Lemma empty_allocation : allocation level.(lv_price) level.(lv_queue) [].
Proof using Hlv.
  split; [apply NoDup_nil_2|done|]. eapply Forall_impl; [exact (lo_pos _ Hlv)|]. cbn. intros e He. unfold qty_of. cbn. lia.
Qed.

Lemma nothing_given : phase1_ok None 0 [] to_fill.
Proof using Hlv Hrem.
  pose proof (level_total_pos _ Hlv) as Ht. split; [apply empty_allocation|].
  split_and!; [done|unfold to_fill; lia|cbn; lia|]. intros e _. done.
Qed.

Lemma priority_given e : e ∈ level.(lv_queue) →
  let pf := Z.min cfg.(cap) (Z.min to_fill e.2.(o_remaining_quantity)) in
  phase1_ok (Some e.1) pf (if pf >? 0 then [mkFill e.1 level.(lv_price) pf 0] else [])
    (if pf >? 0 then to_fill - pf else to_fill).
Proof using Hlv Hrem Hb.
  intros He pf. pose proof (level_total_pos _ Hlv) as Ht. pose proof (gb_cap _ _ _ _ Hb) as Hc.
  pose proof (lo_pos _ Hlv) as Hpos. rewrite Forall_forall in Hpos. pose proof (Hpos e He) as Hpe. cbn in Hpe.
  assert (Htf : 0 < to_fill) by (unfold to_fill; lia). assert (Hpf : 0 <= pf) by lia.
  assert (Hg : ∀ fs x, qty_of x.1 fs = (if (e.1 =? x.1)%nat then pf else 0) → qty_of x.1 fs = given (Some e.1) pf (x : entry).1).
  { intros fs x ->. unfold given, is_priority. destruct (Nat.eqb_spec e.1 x.1) as [->|Hne]; [by rewrite bool_decide_eq_true_2|].
    by rewrite bool_decide_eq_false_2 by congruence. }
  destruct (Z.gtb_spec pf 0) as [Hp|Hz].
  - assert (E : [mkFill e.1 level.(lv_price) pf 0] = add_fill level.(lv_price) e.1 pf []) by done. split.
    + rewrite E. apply (add_fill_allocation _ _ _ e.1 e.2); [apply empty_allocation|apply (lo_nodup _ Hlv)|by destruct e|done|].
      cbn. unfold qty_of. cbn. lia.
    + split_and!; [done|lia|cbn; lia|]. intros x _. apply Hg. rewrite E, add_fill_qty. unfold qty_of. cbn. lia.
  - split; [apply empty_allocation|]. split_and!; [done|lia|cbn; lia|]. intros x _. apply Hg. unfold qty_of. cbn.
    destruct (_ =? _)%nat; lia.
Qed.

Lemma total_weight_pos priority pf fs pool : phase1_ok priority pf fs pool → 0 < pool →
  weighable now priority pf level.(lv_queue) →
  (0 < total_value cfg now priority pf level.(lv_queue))%R ∧
  ∀ e, e ∈ level.(lv_queue) →
    (weight_value cfg now priority pf e <= total_value cfg now priority pf level.(lv_queue))%R.
Proof using Hlv Hb.
  intros (Hal & _ & _ & Hpool & Hg) Hp Hw. pose proof (gb_factor _ _ _ _ Hb) as Hf.
  assert (Hle : ∀ q e, weighable now priority pf q → e ∈ q →
    (weight_value cfg now priority pf e <= total_value cfg now priority pf q)%R).
  { intros q. induction q as [|x q IH]; intros e Hq He; [by apply not_elem_of_nil in He|]. apply Forall_cons in Hq as [Hx Hq]. cbn.
    pose proof (total_value_nonneg cfg now priority pf Hf q Hq). apply (weight_value_nonneg cfg now priority pf Hf) in Hx as [[Hx _] _].
    apply elem_of_cons in He as [->|He]; [lra|]. specialize (IH e Hq He). lra. }
  split; [|by eauto]. pose proof (capacity_total _ _ fs (lo_nodup _ Hlv) Hal) as Hcap.
  rewrite <- (lo_total _ Hlv) in Hcap.
  destruct (decide (Exists (λ e : entry, 0 < effective_qty priority pf e) level.(lv_queue))) as [Hex|Hno].
  - apply Exists_exists in Hex as (e & He & Hpe). specialize (Hle _ e Hw He).
    destruct (weight_value_nonneg cfg now priority pf Hf e (proj1 (Forall_forall _ _) Hw e He)) as [_ H]. specialize (H Hpe).
    pose proof (bpow_pos (-3)). lra.
  - exfalso. assert (capacity fs level.(lv_queue) <= 0); [|unfold to_fill in Hpool; lia].
    assert (Hsum : ∀ (g : entry → Z) q, Forall (λ e, g e <= 0) q → sum_by g q <= 0) by (induction 1; cbn; lia).
    apply Hsum, Forall_forall. intros e He. rewrite Hg by done.
    apply Z.nlt_ge. intros Hlt. destruct Hno. apply Exists_exists. by exists e.
Qed.

(** Phase 2 and 3 from the state after phase 1. *)
Lemma later_phases priority pf fs pool : phase1_ok priority pf fs pool → 0 < pool →
  ∃ fs', (total_weight ← sum_weights cfg now priority pf level.(lv_queue) d0;
          '(fs, allocated) ←
            (if dlt d0 total_weight
             then time_weighted cfg now level.(lv_price) priority pf total_weight pool level.(lv_queue) fs 0
             else Some (fs, 0));
          lot_passes level.(lv_price) (Z.to_nat (pool - allocated)) level.(lv_queue) (pool - allocated) fs) = Some fs' ∧
    allocation level.(lv_price) level.(lv_queue) fs' ∧ sum_by f_quantity fs' = to_fill.
Proof using Hlv Hb.
  intros H1 Hp. pose proof H1 as (Hal & Hpf & _ & Hpool & Hg). pose proof (gb_factor _ _ _ _ Hb) as Hf.
  assert (Hw : weighable now priority pf level.(lv_queue)).
  { eapply Forall_impl; [exact (gb_orders _ _ _ _ Hb)|]. cbn. intros e [Ht Hs]. split; [done|].
    unfold effective_qty. destruct (is_priority priority e.1); lia. }
  destruct (total_weight_pos priority pf fs pool H1 Hp Hw) as [HS HleS].
  pose proof (gb_count _ _ _ _ Hb) as Hn.
  destruct (sum_weights_ok cfg now priority pf Hf level.(lv_queue) 0 0 d0 Hw) as (k & T & -> & Hk & FT & VT & B1 & B2 & B3);
    [lia|lra| |].
  { pose proof (bpow_pos (201 + Z.of_nat 0)). split_and!; [done|done|cbn; lra|cbn [val d0]; lra|by left]. }
  rewrite Rplus_0_l in B1. set (S := total_value _ _ _ _ _) in *. cbn [mbind option_bind].
  assert (Hku : (INR k * unit_roundoff <= / 2)%R).
  { assert (INR k <= 257)%R by (replace 257%R with (INR 257) by (cbn; lra); apply le_INR; lia).
    pose proof unit_roundoff_scaled as Hsc. pose proof unit_roundoff_pos. pose proof (pos_INR k).
    assert (IZR (2 ^ 53) >= 514)%R by (apply Rle_ge, IZR_le; lia). nra. }
  assert (HT : (S <= 2 * val T)%R) by nra.
  assert (HT4 : (bpow (-4) <= val T <= bpow 800)%R).
  { pose proof (bpow_le (201 + Z.of_nat k) 800 ltac:(lia)). destruct B3; lra. }
  rewrite (proj2 (dlt_0 T FT)) by lra.
  pose proof (gb_pool _ _ _ _ Hb) as Hmax. fold to_fill in Hmax.
  assert (Hfs : 0 <= sum_by f_quantity fs).
  { apply sum_by_nonneg. eapply Forall_impl; [exact (al_fills _ _ _ Hal)|]. cbn. lia. }
  destruct (time_weighted_ok cfg now level.(lv_price) level.(lv_queue) priority pf Hf (lo_nodup _ Hlv) T pool _ level.(lv_queue) fs 0
    (lo_nodup _ Hlv) ltac:(done) Hw FT VT HT4 ltac:(unfold gtbpr_max in *; lia) eq_refl) as (fs' & al & -> & Hal' & Hsum & Hal0 & Hshare);
    [intros e He; specialize (HleS e He); lra|done|done|].
  cbn [mbind option_bind]. rewrite Z.sub_0_r in Hshare, Hsum.
  assert (Hle : al <= pool).
  { apply (shares_within_pool k pool S (val T)); [lia|lia|lra|lra|lra|done]. }
  destruct (lot_passes_ok level.(lv_price) level.(lv_queue) (lo_nodup _ Hlv) (Z.to_nat (pool - al)) (pool - al) fs') as (fs'' & E & Ha & Hs);
    [lia|lia|done| |].
  { rewrite <- (lo_total _ Hlv). unfold to_fill in Hpool. lia. }
  exists fs''. split_and!; [done|done|lia].
Qed.

Lemma from_phase1 priority pf fs pool : phase1_ok priority pf fs pool →
  ∃ q' remaining' out,
    (fs ←
      (if pool >? 0 then
         total_weight ← sum_weights cfg now priority pf level.(lv_queue) d0;
         '(fs, allocated) ←
           (if dlt d0 total_weight
            then time_weighted cfg now level.(lv_price) priority pf total_weight pool level.(lv_queue) fs 0
            else Some (fs, 0));
         lot_passes level.(lv_price) (Z.to_nat (pool - allocated)) level.(lv_queue) (pool - allocated) fs
       else Some fs);
     let '(q', fs') := apply_results level.(lv_queue) fs in
     Some (q', remaining - to_fill, [] ++ fs')) = Some (q', remaining', out) ∧
    match_ok level remaining q' remaining' out.
Proof using Hlv Hb.
  intros H1. pose proof H1 as (Hal & _ & H0 & Hpool & _).
  assert (Hfin : ∀ fs', allocation level.(lv_price) level.(lv_queue) fs' → sum_by f_quantity fs' = to_fill →
    ∃ q' remaining' out, (let '(q', out) := apply_results level.(lv_queue) fs' in
      Some (q', remaining - to_fill, [] ++ out)) = Some (q', remaining', out) ∧ match_ok level remaining q' remaining' out).
  { intros fs' Ha Hs. destruct (allocation_match_ok level remaining fs' Hlv Ha Hs) as (q' & out & -> & Hm).
    by exists q', (remaining - to_fill), out. }
  destruct (Z.gtb_spec pool 0) as [Hp|Hz].
  - destruct (later_phases priority pf fs pool H1 Hp) as (fs' & -> & Ha & Hs). by apply Hfin.
  - apply Hfin; [done|lia].
Qed.
End contract.

(** C24: With up to 256 orders, a non-negative cap, a time factor that is zero
    or of moderate size and at most 2^44 units to fill, the gradual
    time-weighted algorithm returns, for every time and whatever the ages of
    the orders: in spite of the rounding of its weights it allocates exactly the
    quantity there is to fill, to distinct orders, no more to any than it has,
    and updates exactly those. *)
Theorem gtbpr_allocates_exactly now cfg level remaining :
  level_ok level → 0 < remaining → gtbpr_bounds now cfg level remaining →
  ∃ q' remaining' fs, GtbprMatch now cfg level remaining [] = Some (q', remaining', fs) ∧
    match_ok level remaining q' remaining' fs.
Proof.
  intros Hlv Hrem Hb. unfold GtbprMatch. rewrite level_ready by done. fold (to_fill level remaining).
  destruct (find_priority cfg.(collar) level.(lv_queue)) as [e|] eqn:E.
  - pose proof (priority_given now cfg level remaining Hlv Hrem Hb e (find_priority_elem _ _ _ E)) as H1. cbn zeta in H1.
    destruct (Z.min cfg.(cap) _ >? 0); by apply from_phase1.
  - by apply from_phase1, nothing_given.
Qed.

Lemma default_factor_ok : factor_ok default_cfg.(time_weight_factor).
Proof.
  assert (H : (bpow (-4) <= 1 / 10 <= bpow 0)%R).
  { change (-4) with (- (4)). rewrite bpow_opp, bpow_IZR by lia. cbn [Z.pow Z.pow_pos]. rewrite bpow_0.
    change (IZR (2 ^ 4)) with 16%R. lra. }
  pose proof (bpow_le (-1022) (-4) ltac:(lia)). pose proof (bpow_le 0 1023 ltac:(lia)).
  pose proof (of_ratio_rounds false 1 10 ltac:(cbn zeta; lra)) as Hr.
  pose proof (rounds_pow _ _ _ _ Hr H) as B. split_and!; [apply Hr|apply Hr|right].
  pose proof (bpow_le (-60) (-4 - 1) ltac:(lia)). pose proof (bpow_le (0 + 1) 60 ltac:(lia)).
  cbn [default_cfg time_weight_factor]. lra.
Qed.

(** ** An example *)

Module GtbprDemo.
Definition order (id : Z) (entered : Timestamp) (qty : Quantity) : Order :=
  mkOrder id id 0 100 qty 0 qty Buy Limit DAY entered 0 0 0 false false.
(** A large order, two small ones and one of seven units, entered seconds
    apart. *)
Definition level : PriceLevel :=
  mkLevel 0 100 90008 4
    [(0%nat, order 1 0 10000); (1%nat, order 2 5000000000 50000); (2%nat, order 3 9000000000 30001);
     (3%nat, order 4 9500000000 7)].
Lemma level_is_ok : level_ok level.
Proof. split; [by apply (bool_decide_unpack _)|by apply (bool_decide_unpack _)|done|done]. Qed.
Lemma bounded cap now remaining : 0 <= cap → 0 <= now <= 2 ^ 62 → gtbpr_bounds now (mkGtbpr 50000 cap default_cfg.(time_weight_factor)) level remaining.
Proof.
  intros Hc Hn. split; [done|apply default_factor_ok| |cbn; lia|cbn; unfold gtbpr_max; lia].
  repeat constructor; cbn; unfold in_int64, int64_min, int64_max; lia.
Qed.
(** The large order first, up to the cap; age tells between the others. *)
Example shares :
  (λ r : match_out, (r.1.2, (λ f, (f.(f_resting_order), f.(f_quantity))) <$> r.2)) <$>
    GtbprMatch 10000000000 (mkGtbpr 50000 20000 default_cfg.(time_weight_factor)) level 60000 []
  = Some (0, [(1%nat, 38366); (0%nat, 8163); (2%nat, 13469); (3%nat, 2)]).
Proof. vm_compute. reflexivity. Qed.
End GtbprDemo.

Lemma gtbpr_allocates_exactly_witness :
  let cfg := mkGtbpr 50000 20000 default_cfg.(time_weight_factor) in
  ∃ q' remaining' fs, GtbprMatch 10000000000 cfg GtbprDemo.level 60000 [] = Some (q', remaining', fs) ∧
    match_ok GtbprDemo.level 60000 q' remaining' fs.
Proof.
  apply (gtbpr_allocates_exactly 10000000000); [apply GtbprDemo.level_is_ok|done|].
  apply GtbprDemo.bounded; lia.
Defined.
