(* ===== verification/ExchangeSimulator.v ===== *)
(** * The multi-instrument simulator: [exchange_simulator.h]

    One engine per instrument, with its configuration and statistics, and the
    exchange-wide session.  Operations are computations over [simulator];
    a C++ exception is the outcome [Throws].  The listeners are those of the
    engines: each engine's [trace] holds the events of its instrument.

    The instruments are kept in an [unordered_map], whose iteration order is
    unspecified: it is the parameter [visit]. *)

From S2P Require Import Prelude Types MatchAlgo Books Trackers Engine.

Inductive sim_error : Type :=
  | InstrumentExists (symbol : list Z)
  | UnknownInstrument.

Inductive outcome (E A : Type) : Type :=
  | Returns (a : A)
  | Throws (e : E).
Arguments Returns {E A} a.
Arguments Throws {E A} e.

(** The order in which a hash container is walked. *)
Class Iteration : Type := {
  visit : gset Z → list Z;
  visit_perm : ∀ X, visit X ≡ₚ elements X
}.

Record InstrumentConfig : Type := mkInstrument {
  ic_id : Z;
  ic_symbol : list Z;
  ic_engine_config : EngineConfig
}.

Record InstrumentState (D : Type) : Type := mkInstState {
  inst_config : InstrumentConfig;
  inst_engine : engine D;
  inst_ohlcv : OhlcvStats
}.
Arguments mkInstState {D}.
Arguments inst_config {D}.
Arguments inst_engine {D}.
Arguments inst_ohlcv {D}.

Record simulator (D : Type) : Type := mkSimulator {
  instruments : gmap Z (InstrumentState D);
  sim_session : SessionState
}.
Arguments mkSimulator {D}.
Arguments instruments {D}.
Arguments sim_session {D}.

(** What a new engine starts from: the members of the derived class and the
    contents of the order slots. *)
Class Fresh (D : Type) : Type := {
  initial_members : D;
  slot_junk : loc → Order
}.

(** An exception leaves the calling function. *)
Definition attempt {S E A B} (m : M S (outcome E A)) (k : A → M S (outcome E B)) : M S (outcome E B) :=
  r ← m;
  match r with Returns a => k a | Throws e => mret (Throws e) end.
Fixpoint attempt_each {S E A} (l : list A) (body : A → M S (outcome E unit)) : M S (outcome E unit) :=
  match l with
  | [] => mret (Returns tt)
  | x :: l => attempt (body x) (λ _, attempt_each l body)
  end.

Section simulator_ops.
Context {D : Type} {params : EngineParams} {hooks : Hooks D} {algo : MatchAlgorithm}.
Context {fresh : Fresh D} {iteration : Iteration}.
Implicit Types (s : simulator D) (i : InstrumentState D) (ts : Timestamp) (id : Z).
Abbreviation Sim := (M (simulator D)).

Definition set_instruments (v : gmap Z (InstrumentState D)) s : simulator D := mkSimulator v s.(sim_session).
Definition set_session (v : SessionState) s : simulator D := mkSimulator s.(instruments) v.
Definition set_inst_engine (e : engine D) i : InstrumentState D := mkInstState i.(inst_config) e i.(inst_ohlcv).
Definition set_inst_ohlcv (v : OhlcvStats) i : InstrumentState D := mkInstState i.(inst_config) i.(inst_engine) v.

Definition new_simulator : simulator D := mkSimulator ∅ Closed.

(** Run a computation on one instrument, or on its engine. *)
Definition on_instrument {A} id (m : M (InstrumentState D) A) : Sim A := λ s,
  match s.(instruments) !! id with
  | None => UB
  | Some i =>
      match m i with
      | Ok (a, i') => Ok (a, set_instruments (<[id := i']> s.(instruments)) s)
      | Fuel => Fuel
      | UB => UB
      end
  end.
Definition on_engine {A} (m : M (engine D) A) : M (InstrumentState D) A := λ i,
  match m i.(inst_engine) with
  | Ok (a, e) => Ok (a, set_inst_engine e i)
  | Fuel => Fuel
  | UB => UB
  end.

(** Write through the pointer that [get_engine] returned, if it did. *)
Definition on_found id (g : engine D → engine D) : Sim unit := λ s,
  match s.(instruments) !! id with
  | None => Ok (tt, s)
  | Some i => Ok (tt, set_instruments (<[id := set_inst_engine (g i.(inst_engine)) i]> s.(instruments)) s)
  end.

(** [for (auto& [id, inst] : instruments_)]; [for_each_instrument]. *)
Definition each (f : M (InstrumentState D) unit) : Sim unit :=
  s ← get; forM_ (visit (dom s.(instruments))) (λ id, on_instrument id f).

(** ** Instruments *)

Definition get_instrument id s : option (InstrumentState D) := s.(instruments) !! id.
Definition get_engine id s : option (engine D) := inst_engine <$> get_instrument id s.
Definition get_config id s : option InstrumentConfig := inst_config <$> get_instrument id s.
Definition get_ohlcv id s : option OhlcvStats := inst_ohlcv <$> get_instrument id s.
Definition instrument_count s : nat := size s.(instruments).

Definition add_instrument (cfg : InstrumentConfig) : Sim (outcome sim_error unit) :=
  s ← get;
  match get_instrument cfg.(ic_id) s with
  | Some _ => mret (Throws (InstrumentExists cfg.(ic_symbol)))
  | None =>
      let e := init_engine cfg.(ic_engine_config) initial_members slot_junk in
      let i := mkInstState cfg e ohlcv_reset in
      modify (λ s, set_instruments (<[cfg.(ic_id) := i]> s.(instruments)) s) ;;
      (if bool_decide (s.(sim_session) = Closed) then mret tt
       else on_instrument cfg.(ic_id) (on_engine (Engine.set_session_state s.(sim_session) 0))) ;;
      mret (Returns tt)
  end.

Definition remove_instrument id : Sim (outcome sim_error unit) :=
  s ← get;
  match get_instrument id s with
  | None => mret (Throws UnknownInstrument)
  | Some _ => modify (λ s, set_instruments (delete id s.(instruments)) s) ;; mret (Returns tt)
  end.

(** ** Order routing *)

(** [get_engine], the check and the call. *)
Definition route id (m : M (engine D) unit) : Sim (outcome sim_error unit) :=
  s ← get;
  match get_engine id s with
  | None => mret (Throws UnknownInstrument)
  | Some _ => on_instrument id (on_engine m) ;; mret (Returns tt)
  end.

Definition new_order (fuel : nat) id (req : OrderRequest) : Sim (outcome sim_error unit) :=
  route id (Engine.new_order fuel req).
Definition cancel_order id (order : OrderId) ts : Sim (outcome sim_error unit) :=
  route id (Engine.cancel_order order ts).
Definition modify_order (fuel : nat) id (req : ModifyRequest) : Sim (outcome sim_error unit) :=
  route id (Engine.modify_order fuel req).

(** ** Exchange-wide operations *)

Definition set_session_state (state : SessionState) ts : Sim unit :=
  modify (set_session state) ;;
  each (on_engine (Engine.set_session_state state ts) ;;
        if bool_decide (state = PreOpen) || bool_decide (state = Closed)
        then modify (set_inst_ohlcv ohlcv_reset) else mret tt).

Definition execute_all_auctions (fuel : nat) ts : Sim unit :=
  each (i ← get; on_engine (Engine.execute_auction fuel i.(inst_ohlcv).(v_close) ts)).

Definition mass_cancel_all ts : Sim unit :=
  each (on_engine (_ ← Engine.mass_cancel_all ts; mret tt)).

Definition trigger_expiry (now : Timestamp) (tif : TimeInForce) : Sim unit :=
  each (on_engine (Engine.trigger_expiry now tif)).
End simulator_ops.
