(* ===== verification/SimulatorTheorems.v ===== *)
(** * The instruments of a simulator, one by one

    A loop over the instruments acts on each engine by itself, so that its
    result is a map over the instruments ([each_eq]) whatever the order in
    which the container is walked.  On top of it: what the exchange-wide
    operations of [ExchangeSimulator] do to every instrument. *)

From S2P Require Import Prelude Types MatchAlgo Books Trackers Engine EngineInvariant EngineRules EngineFills EngineMatch EngineTheorems Auction AuctionRun AuctionTheorems ExchangeSimulator.

(** The state a computation leaves. *)
Definition final {S} (m : M S unit) (s : S) : S := match m s with Ok (_, s') => s' | _ => s end.

Lemma final_run {S} (m : M S unit) s s' : m s = Ok (tt, s') → final m s = s'.
Proof. unfold final. by intros ->. Qed.
Lemma final_returns {S} (m : M S unit) s : (∃ s', m s = Ok (tt, s')) → m s = Ok (tt, final m s).
Proof. intros [s' E]. by rewrite (final_run _ _ _ E). Qed.

Section simulator.
Context {D : Type} {params : EngineParams} {hooks : Hooks D} {algo : MatchAlgorithm}.
Implicit Types (s : simulator D) (i : InstrumentState D) (e : engine D) (ts : Timestamp) (id : Z) (st : SessionState).

(** ** Rules *)

Lemma wp_on_engine {A} (m : M (engine D) A) (Q : A → InstrumentState D → Prop) i :
  wp m (λ a e, Q a (set_inst_engine e i)) i.(inst_engine) → wp (on_engine m) Q i.
Proof. unfold wp, on_engine. by destruct (m _) as [[a e]| |]. Qed.

Lemma wp_on_instrument {A} id (m : M (InstrumentState D) A) (Q : A → simulator D → Prop) i s :
  s.(instruments) !! id = Some i →
  wp m (λ a i', Q a (set_instruments (<[id := i']> s.(instruments)) s)) i → wp (on_instrument id m) Q s.
Proof. unfold wp, on_instrument. intros ->. by destruct (m i) as [[a i']| |]. Qed.

(** The instruments of two states in relation. *)
Definition per_instrument (R : InstrumentState D → InstrumentState D → Prop) s s' : Prop :=
  ∀ id, option_Forall2 R (s.(instruments) !! id) (s'.(instruments) !! id).
Definition all_instruments (P : InstrumentState D → Prop) s : Prop :=
  ∀ id i, s.(instruments) !! id = Some i → P i.

Lemma per_instrument_trans R1 R2 R3 s1 s2 s3 :
  (∀ i1 i2 i3, R1 i1 i2 → R2 i2 i3 → R3 i1 i3) →
  per_instrument R1 s1 s2 → per_instrument R2 s2 s3 → per_instrument R3 s1 s3.
Proof.
  intros HR H1 H2 id. specialize (H1 id). specialize (H2 id).
  destruct H1 as [i1 i2 H1|]; inversion H2; subst; constructor. eauto.
Qed.

Lemma per_instrument_all R P s s' :
  (∀ i i', R i i' → P i') → per_instrument R s s' → all_instruments P s'.
Proof. intros HR H id i' Hi. specialize (H id). rewrite Hi in H. inversion H; eauto. Qed.

Lemma per_instrument_impl R R' s s' :
  (∀ id i i', s.(instruments) !! id = Some i → R i i' → R' i i') →
  per_instrument R s s' → per_instrument R' s s'.
Proof.
  intros HR H id. specialize (H id). specialize (HR id).
  inversion H as [i i' Hi E1 E2|E1 E2]; constructor. by apply HR.
Qed.

Lemma per_instrument_fmap R (g : InstrumentState D → InstrumentState D) s s' :
  s'.(instruments) = g <$> s.(instruments) → all_instruments (λ i, R i (g i)) s → per_instrument R s s'.
Proof.
  intros E H id. rewrite E, lookup_fmap.
  destruct (s.(instruments) !! id) as [i|] eqn:Hi; constructor. by eapply H.
Qed.

(** ** Loops *)

(** A loop whose body returns on every instrument maps the body's effect over
    them. *)
Lemma each_eq {iteration : Iteration} f s :
  all_instruments (λ i, ∃ i', f i = Ok (tt, i')) s →
  each f s = Ok (tt, set_instruments (final f <$> s.(instruments)) s).
Proof.
  intros Hf.
  pose (I (todo : list Z) s' := NoDup todo ∧ (∀ id, id ∈ todo → is_Some (s.(instruments) !! id)) ∧
    s'.(sim_session) = s.(sim_session) ∧ ∀ id,
    s'.(instruments) !! id = (if bool_decide (id ∈ todo) then (λ i, i) else final f) <$> s.(instruments) !! id).
  assert (Hw : wp (each f) (λ _ s', I [] s') s).
  { unfold each. apply wp_bind, wp_get. apply (wp_forM _ _ I).
    - split_and!; [| |done|].
      + rewrite visit_perm. apply NoDup_elements.
      + intros id. rewrite visit_perm, elem_of_elements. apply elem_of_dom.
      + intros id. case_bool_decide as Hin; [by destruct (_ !! id)|].
        rewrite visit_perm, elem_of_elements, not_elem_of_dom in Hin. by rewrite Hin.
    - intros id todo s1 ([Hid Hnd]%NoDup_cons & Hdom & Hs & Hl).
      destruct (Hdom id) as [i Hi]; [set_solver|].
      eapply wp_on_instrument.
      { rewrite Hl, bool_decide_eq_true_2, Hi by set_solver. done. }
      destruct (Hf id i Hi) as [i' E]. unfold wp. rewrite E.
      split_and!; [done|set_solver|done|]. intros k. cbn.
      destruct (decide (k = id)) as [->|Hne].
      + rewrite lookup_insert_eq, bool_decide_eq_false_2, Hi by done. cbn. by rewrite (final_run _ _ _ E).
      + rewrite lookup_insert_ne, Hl by done. rewrite (bool_decide_ext (k ∈ id :: todo) (k ∈ todo)) by set_solver. done. }
  destruct (wp_eq _ _ _ Hw) as ([] & s' & E & _ & _ & Hs & Hl). rewrite E.
  do 2 f_equal. destruct s' as [m st]. unfold set_instruments. cbn in *. f_equal; [|done].
  apply map_eq. intros id. by rewrite Hl, lookup_fmap.
Qed.

Lemma wp_each {iteration : Iteration} f R s :
  all_instruments (λ i, wp f (λ _ i', R i i') i) s →
  wp (each f) (λ _ s', s'.(sim_session) = s.(sim_session) ∧ per_instrument R s s') s.
Proof.
  intros Hf.
  assert (Hrun : all_instruments (λ i, f i = Ok (tt, final f i) ∧ R i (final f i)) s).
  { intros id i Hi. destruct (wp_eq _ _ _ (Hf id i Hi)) as ([] & i' & E & H).
    by rewrite (final_run _ _ _ E). }
  unfold wp. rewrite each_eq by (intros id i Hi; eexists; by apply (Hrun id)).
  split; [done|]. eapply per_instrument_fmap; [done|]. intros id i Hi. by apply (Hrun id).
Qed.

(** ** Sessions *)

(** An engine after a change of session: nothing if it is in the session
    already, or if its exchange vetoes the transition. *)
Definition in_session st ts e : engine D :=
  if bool_decide (e.(current_state) = st) || negb (on_session_transition e e.(current_state) st ts) then e
  else
    let e1 := set_trace (e.(trace) ++ [MarketStatus st ts]) (set_current_state st e) in
    if bool_decide (st = Continuous) && (e.(last_trade_price) >? 0)
    then set_vi_reference_price e.(last_trade_price) e1 else e1.

Lemma set_session_state_run st ts e : Engine.set_session_state st ts e = Ok (tt, in_session st ts e).
Proof.
  unfold Engine.set_session_state, in_session, mbind, M_bind, get. cbn.
  case_bool_decide; [done|]. cbn. destruct (on_session_transition _ _ _ _); [|done].
  cbn. unfold when. by destruct (bool_decide _ && _).
Qed.

(** The books and everything about orders are as before. *)
Record same_orders e e' : Prop := {
  so_bids : e'.(bids) = e.(bids);
  so_asks : e'.(asks) = e.(asks);
  so_stops : e'.(buy_stops) = e.(buy_stops) ∧ e'.(sell_stops) = e.(sell_stops);
  so_config : e'.(config) = e.(config);
  so_derived : e'.(derived) = e.(derived);
  so_inv : inv [] e → inv [] e'
}.

Lemma in_session_same st ts e : same_orders e (in_session st ts e).
Proof. unfold in_session. case_ifs; by split. Qed.

Lemma same_orders_entries e e' : same_orders e e' → all_entries e' = all_entries e.
Proof. intros [Hb Ha [Hbs Hss] _ _ _]. unfold all_entries. by rewrite Hb, Ha, Hbs, Hss. Qed.

Lemma in_session_trace st ts e : ∃ evs, (in_session st ts e).(trace) = e.(trace) ++ evs ∧
  Forall (eq (MarketStatus st ts)) evs.
Proof.
  unfold in_session. case_ifs; cbn; try (exists []; by rewrite app_nil_r).
  all: exists [MarketStatus st ts]; split; [done|by constructor].
Qed.

(** An instrument after a change of session. *)
Definition instrument_in_session st ts i : InstrumentState D :=
  mkInstState i.(inst_config) (in_session st ts i.(inst_engine))
    (if bool_decide (st = PreOpen) || bool_decide (st = Closed) then ohlcv_reset else i.(inst_ohlcv)).

Lemma set_session_state_each {iteration : Iteration} st ts s :
  set_session_state st ts s =
  Ok (tt, mkSimulator (instrument_in_session st ts <$> s.(instruments)) st).
Proof.
  unfold set_session_state, mbind, M_bind, modify. cbn.
  assert (Hrun : ∀ i : InstrumentState D, (on_engine (Engine.set_session_state st ts) ;;
     if bool_decide (st = PreOpen) || bool_decide (st = Closed)
     then modify (set_inst_ohlcv ohlcv_reset) else mret tt) i = Ok (tt, instrument_in_session st ts i)).
  { intros i. unfold mbind, M_bind, on_engine. rewrite set_session_state_run.
    unfold instrument_in_session. by destruct (_ || _). }
  rewrite each_eq by (intros id i _; eexists; apply Hrun).
  unfold set_instruments. cbn. do 3 f_equal. apply map_fmap_ext. intros id i _. apply final_run, Hrun.
Qed.

(** ** Auctions and expiry *)

Definition engines_ok : simulator D → Prop := all_instruments (λ i, inv [] i.(inst_engine)).

(** [fuel] covers the auctions of every instrument. *)
Definition auction_fuel (fuel : nat) : simulator D → Prop := all_instruments (λ i,
  (Z.to_nat (calculate_auction_price i.(inst_ohlcv).(v_close) i.(inst_engine)).(a_matched_volume) <= fuel)%nat).

Record on_own_engine (R : engine D → engine D → Prop) i i' : Prop := {
  oe_config : i'.(inst_config) = i.(inst_config);
  oe_ohlcv : i'.(inst_ohlcv) = i.(inst_ohlcv);
  oe_engine : R i.(inst_engine) i'.(inst_engine)
}.

Lemma wp_own_engine (m : M (engine D) unit) (R : engine D → engine D → Prop) i :
  wp m (λ _ e, R i.(inst_engine) e) i.(inst_engine) → wp (on_engine m) (λ _ i', on_own_engine R i i') i.
Proof. intros H. apply wp_on_engine. eapply wp_mono; [exact H|]. intros [] e He. by split. Qed.

Definition instrument_auctioned i i' : Prop :=
  on_own_engine (auction_run i.(inst_ohlcv).(v_close)) i i'.

Lemma wp_execute_all_auctions {iteration : Iteration} fuel ts s :
  engines_ok s → auction_fuel fuel s →
  wp (execute_all_auctions fuel ts)
    (λ _ s', s'.(sim_session) = s.(sim_session) ∧ per_instrument instrument_auctioned s s') s.
Proof.
  intros Hok Hf. apply wp_each. intros id i Hi. apply wp_bind, wp_get, wp_own_engine.
  apply wp_execute_auction; [by eapply Hok|by eapply Hf].
Qed.

(** What the expiry of DAY orders leaves. *)
Record expired_at ts (tif : TimeInForce) e e' : Prop := {
  ex_inv : inv [] e';
  ex_scan : scanned ts Expired e e';
  ex_entries : all_entries e' ≡ₚ filter (λ x, ¬ expired ts tif x.2) (all_entries e)
}.

Lemma wp_sim_trigger_expiry {iteration : Iteration} ts tif s :
  engines_ok s →
  wp (trigger_expiry ts tif)
    (λ _ s', s'.(sim_session) = s.(sim_session) ∧ per_instrument (on_own_engine (expired_at ts tif)) s s') s.
Proof.
  intros Hok. apply wp_each. intros id i Hi. apply wp_own_engine.
  eapply wp_mono; [by eapply wp_trigger_expiry, Hok|]. intros [] e (? & ? & ?). by split.
Qed.

(** ** The order of the walk *)

Lemma each_any_order (it1 it2 : Iteration) f s :
  all_instruments (λ i, ∃ i', f i = Ok (tt, i')) s → each (iteration := it1) f s = each (iteration := it2) f s.
Proof. intros Hf. by rewrite !each_eq. Qed.

Lemma own_engine_returns (m : M (engine D) unit) i :
  (∃ e', m i.(inst_engine) = Ok (tt, e')) → ∃ i', on_engine m i = Ok (tt, i').
Proof. unfold on_engine. intros [e' ->]. eauto. Qed.

(** The exchange-wide operations walk a hash table, in no specified order.
    Whatever two orders are, the two results are the same simulator: every
    engine, with everything it has reported, every statistic and the
    session. *)
Theorem exchange_wide_order_irrelevant (it1 it2 : Iteration) fuel st ts tif s :
  engines_ok s → auction_fuel fuel s →
  set_session_state (iteration := it1) st ts s = set_session_state (iteration := it2) st ts s ∧
  execute_all_auctions (iteration := it1) fuel ts s = execute_all_auctions (iteration := it2) fuel ts s ∧
  trigger_expiry (iteration := it1) ts tif s = trigger_expiry (iteration := it2) ts tif s ∧
  mass_cancel_all (iteration := it1) ts s = mass_cancel_all (iteration := it2) ts s.
Proof.
  intros Hok Hf. split_and!.
  - by rewrite !set_session_state_each.
  - apply each_any_order. intros id i Hi. unfold mbind, M_bind, get. apply own_engine_returns.
    destruct (wp_eq_unit _ _ _ (wp_execute_auction fuel _ ts _ (Hok id i Hi) (Hf id i Hi))) as (e' & E & _). eauto.
  - apply each_any_order. intros id i Hi. apply own_engine_returns.
    destruct (wp_eq_unit _ _ _ (wp_trigger_expiry ts tif _ (Hok id i Hi))) as (e' & E & _). eauto.
  - apply each_any_order. intros id i Hi. apply own_engine_returns.
    destruct (wp_eq _ _ _ (wp_full_scan (λ _, true) MassCancelled ts _ (Hok id i Hi))) as (n & e' & E & _).
    exists e'. unfold Engine.mass_cancel_all, mbind, M_bind, get. by rewrite E.
Qed.

(** ** The end of a trading day *)

Lemma in_session_price st ts e reference :
  calculate_auction_price reference (in_session st ts e) = calculate_auction_price reference e.
Proof. unfold in_session. by case_ifs. Qed.
End simulator.
