(* ===== verification/Fix.v ===== *)
(** * FIX 4.2: parser and encoder

    [fix_parser.h], [fix_parser.cc], [fix_encoder.h] and [ice_fix_messages.h] of
    [src/ice/fix/], which KRX uses too: messages of [tag=value] fields, each
    closed by SOH, framed by BeginString, BodyLength and CheckSum. *)

From Stdlib Require Import Ascii String SpecFloat.
From S2P Require Import Prelude Types Wire Doubles Text ExchangeSimulator.

#[local] Open Scope Z_scope.

Definition SOH : Z := 1.

(** ** Messages *)

Record FixMessage : Type := mkFixMessage {
  msg_type : list Z;
  fields : gmap Z (list Z)
}.

Definition get_string (tag : Z) (m : FixMessage) : list Z := default [] (m.(fields) !! tag).
(** [val] is zero unless the conversion succeeds. *)
Definition get_int (tag : Z) (m : FixMessage) : Z :=
  match m.(fields) !! tag with
  | None => 0
  | Some s => match from_chars fits_int64 s with Converted v _ => v | _ => 0 end
  end.
Definition get_double (tag : Z) (m : FixMessage) : double :=
  match m.(fields) !! tag with None => d0 | Some s => strtod s end.
Definition get_char (tag : Z) (m : FixMessage) : Z :=
  match m.(fields) !! tag with Some (c :: _) => c | _ => 0 end.

(** ** Parser *)

Inductive FixError : Type :=
  | EmptyMessage
  | MissingBeginString
  | InvalidBeginString
  | MissingBodyLength
  | InvalidBodyLength
  | NegativeBodyLength
  | BodyLengthExceedsMessage
  | MalformedField
  | MissingCheckSum
  | ChecksumMismatch (expected got : list Z)
  | MissingMsgType.

Inductive ParseResult : Type :=
  | ParseOk (msg : FixMessage)
  | ParseErr (error : FixError).

(** One field at the start of what is left: tag, value and the rest. *)
Definition parse_field (bs : list Z) : option (Z * list Z * list Z) :=
  '(tag_text, rest) ← split_at 61 bs;
  match from_chars fits_int32 tag_text with
  | Converted tag [] =>
      '(value, rest) ← split_at SOH rest;
      Some (tag, value, rest)
  | _ => None
  end.

Definition checksum (bs : list Z) : Z := sum_by (λ b, b) bs mod 256.
Definition checksum_text (bs : list Z) : list Z := zero_padded 3 (checksum bs).

(** [emplace] keeps the first value of a tag, [msg_type] takes the last. *)
Definition add_field (tag : Z) (value : list Z) (m : FixMessage) : FixMessage :=
  mkFixMessage (if tag =? 35 then value else m.(msg_type))
    (match m.(fields) !! tag with Some _ => m.(fields) | None => <[tag := value]> m.(fields) end).

(** The fields of the body, which end exactly where the body ends; a field
    takes a byte at least. *)
Fixpoint parse_body (fuel : nat) (body : list Z) (m : FixMessage) : option FixMessage :=
  match body with
  | [] => Some m
  | _ =>
      match fuel with
      | O => None
      | S fuel' =>
          '(tag, value, rest) ← parse_field body;
          parse_body fuel' rest (add_field tag value m)
      end
  end.

(** From the CheckSum field on; [before] are all the bytes before it. *)
Definition parse_trailer (before rest : list Z) (m : FixMessage) : ParseResult :=
  match parse_field rest with
  | Some (10, value, _) =>
      let expected := checksum_text before in
      if bool_decide (value = expected) then
        match m.(msg_type) with
        | [] => ParseErr MissingMsgType
        | _ => ParseOk m
        end
      else ParseErr (ChecksumMismatch expected value)
  | _ => ParseErr MissingCheckSum
  end.

Definition parse_fix_message (data : list Z) : ParseResult :=
  match data with
  | [] => ParseErr EmptyMessage
  | _ =>
      match parse_field data with
      | Some (8, version, rest) =>
          if bool_decide (version = chars "FIX.4.2") then
            match parse_field rest with
            | Some (9, value, rest) =>
                match from_chars fits_int64 value with
                | Converted body_length _ =>
                    if body_length <? 0 then ParseErr NegativeBodyLength
                    else if body_length >? Z.of_nat (length rest) then ParseErr BodyLengthExceedsMessage
                    else
                      let n := Z.to_nat body_length in
                      match parse_body (length rest) (take n rest) (mkFixMessage [] ∅) with
                      | None => ParseErr MalformedField
                      | Some m => parse_trailer (take (length data - length rest + n) data) (drop n rest) m
                      end
                | _ => ParseErr InvalidBodyLength
                end
            | _ => ParseErr MissingBodyLength
            end
          else ParseErr InvalidBeginString
      | _ => ParseErr MissingBeginString
      end
  end.

(** ** Values *)

(** The code negates the price; [INT64_MIN] has no counterpart. *)
Definition price_to_fix_str (p : Price) : list Z :=
  let abs_p := Z.abs p in
  (if p <? 0 then [45] else []) ++
  decimal (Z.quot abs_p PRICE_SCALE) ++ [46] ++ zero_padded 4 (Z.rem abs_p PRICE_SCALE).
Definition qty_to_fix_str (q : Quantity) : list Z := price_to_fix_str q.

Definition encode_side (s : Side) : Z := match s with Buy => 49 | Sell => 50 end.

(** [gmtime_r] in the Gregorian calendar, from the days since 1970: year, month
    and day. *)
Definition civil_from_days (days : Z) : Z * Z * Z :=
  let z := days + 719468 in
  let era := z / 146097 in
  let doe := z - era * 146097 in
  let yoe := (doe - doe / 1460 + doe / 36524 - doe / 146096) / 365 in
  let doy := doe - (365 * yoe + yoe / 4 - yoe / 100) in
  let mp := (5 * doy + 2) / 153 in
  let d := doy - (153 * mp + 2) / 5 + 1 in
  let m := if mp <? 10 then mp + 3 else mp - 9 in
  let y := yoe + era * 400 in
  ((if m <=? 2 then y + 1 else y), m, d).

Definition format_sending_time (ts : Timestamp) : list Z :=
  let secs := Z.quot ts 1000000000 in
  let '(y, m, d) := civil_from_days (secs / 86400) in
  let s := secs mod 86400 in
  zero_padded 4 y ++ zero_padded 2 m ++ zero_padded 2 d ++ [45] ++
  zero_padded 2 (s / 3600) ++ [58] ++ zero_padded 2 (s / 60 mod 60) ++ [58] ++ zero_padded 2 (s mod 60).

(** ** Encoder *)

Record EncodeContext : Type := mkFixContext {
  sender_comp_id : list Z;
  target_comp_id : list Z;
  fx_symbol : list Z;
  next_exec_id : Z;
  next_seq_num : Z
}.

(** [append_tag] of the tags of a body, one after the other. *)
Definition append_tag (tag : Z) (value : list Z) : list Z := signed_decimal tag ++ [61] ++ value ++ [SOH].
Fixpoint append_tags (kvs : list (Z * list Z)) : list Z :=
  match kvs with
  | [] => []
  | (tag, value) :: kvs' => append_tag tag value ++ append_tags kvs'
  end.

Definition assemble_message (body : list Z) : list Z :=
  let prefix := append_tag 8 (chars "FIX.4.2") ++ append_tag 9 (decimal (Z.of_nat (length body))) in
  let msg := prefix ++ body in
  msg ++ append_tag 10 (checksum_text msg).

(** [next_exec_id++] and [next_seq_num++]: 64 and 32 bits. *)
Definition bump_ids (ctx : EncodeContext) : EncodeContext :=
  mkFixContext ctx.(sender_comp_id) ctx.(target_comp_id) ctx.(fx_symbol)
    (wrap_u64 (ctx.(next_exec_id) + 1)) (wrap_u32 (ctx.(next_seq_num) + 1)).

(** The tags every execution report starts with. *)
Definition exec_header (ts : Timestamp) (ctx : EncodeContext) : list (Z * list Z) :=
  [(35, chars "8"); (49, ctx.(sender_comp_id)); (56, ctx.(target_comp_id));
   (34, decimal ctx.(next_seq_num)); (52, format_sending_time ts)].

Definition encode_exec_new (id : OrderId) (client_order_id : Z) (ts : Timestamp) (order : Order)
    (ctx : EncodeContext) : list Z :=
  assemble_message (append_tags (exec_header ts ctx ++
    [(37, decimal id); (11, decimal client_order_id); (17, decimal ctx.(next_exec_id));
     (150, chars "0"); (39, chars "0"); (55, ctx.(fx_symbol)); (54, [encode_side order.(o_side)]);
     (44, price_to_fix_str order.(o_price)); (38, qty_to_fix_str order.(o_quantity));
     (151, qty_to_fix_str order.(o_quantity)); (14, qty_to_fix_str 0); (6, qty_to_fix_str 0)])).

(** The assertion that the order is not over-filled is not part of a release
    build. *)
Definition encode_exec_fill (price : Price) (quantity : Quantity) (ts : Timestamp) (order : Order)
    (ctx : EncodeContext) : list Z :=
  let cum_qty := order.(o_filled_quantity) + quantity in
  let leaves_qty := order.(o_quantity) - cum_qty in
  let exec_type := if leaves_qty =? 0 then chars "2" else chars "1" in
  assemble_message (append_tags (exec_header ts ctx ++
    [(37, decimal order.(o_id)); (11, decimal order.(o_client_order_id)); (17, decimal ctx.(next_exec_id));
     (150, exec_type); (39, exec_type); (55, ctx.(fx_symbol)); (54, [encode_side order.(o_side)]);
     (44, price_to_fix_str order.(o_price)); (38, qty_to_fix_str order.(o_quantity));
     (31, price_to_fix_str price); (32, qty_to_fix_str quantity);
     (151, qty_to_fix_str leaves_qty); (14, qty_to_fix_str cum_qty); (6, price_to_fix_str price)])).

Definition encode_exec_cancel (id : OrderId) (ts : Timestamp) (order : Order) (ctx : EncodeContext) : list Z :=
  assemble_message (append_tags (exec_header ts ctx ++
    [(37, decimal id); (11, decimal order.(o_client_order_id)); (17, decimal ctx.(next_exec_id));
     (150, chars "4"); (39, chars "4"); (55, ctx.(fx_symbol)); (54, [encode_side order.(o_side)]);
     (44, price_to_fix_str order.(o_price)); (38, qty_to_fix_str order.(o_quantity));
     (151, qty_to_fix_str 0); (14, qty_to_fix_str order.(o_filled_quantity)); (6, qty_to_fix_str 0)])).

(** [static_cast<uint8_t>(evt.reason)]. *)
Definition reject_code (r : RejectReason) : Z :=
  match r with
  | PoolExhausted => 0
  | InvalidPrice => 1
  | InvalidQuantity => 2
  | InvalidTif => 3
  | InvalidSide => 4
  | UnknownOrder => 5
  | PriceBandViolation => 6
  | RLevelPoolExhausted => 7
  | MaxOrderSizeExceeded => 8
  | RateThrottled => 9
  | LockLimitUp => 10
  | LockLimitDown => 11
  | PositionLimitExceeded => 12
  | RExchangeSpecific => 13
  end.

Definition encode_exec_reject (client_order_id : Z) (ts : Timestamp) (reason : RejectReason)
    (ctx : EncodeContext) : list Z :=
  assemble_message (append_tags (exec_header ts ctx ++
    [(11, decimal client_order_id); (17, decimal ctx.(next_exec_id));
     (150, chars "8"); (39, chars "8"); (55, ctx.(fx_symbol));
     (44, chars "0"); (38, chars "0"); (103, decimal (reject_code reason))])).

Definition encode_exec_replace (id : OrderId) (client_order_id : Z) (new_price : Price) (new_qty : Quantity)
    (ts : Timestamp) (order : Order) (ctx : EncodeContext) : list Z :=
  assemble_message (append_tags (exec_header ts ctx ++
    [(37, decimal id); (11, decimal client_order_id); (17, decimal ctx.(next_exec_id));
     (150, chars "5"); (39, chars "0"); (55, ctx.(fx_symbol)); (54, [encode_side order.(o_side)]);
     (44, price_to_fix_str new_price); (38, qty_to_fix_str new_qty);
     (151, qty_to_fix_str (new_qty - order.(o_filled_quantity)));
     (14, qty_to_fix_str order.(o_filled_quantity)); (6, qty_to_fix_str 0)])).

(** [encode_fix_message]: the fields in the order in which their map is
    walked. *)
Definition encode_fix_message {iteration : Iteration} (m : FixMessage) : list Z :=
  assemble_message (append_tags ((35, m.(msg_type)) ::
    ((λ tag, (tag, get_string tag m)) <$> filter (λ tag, tag ≠ 35) (visit (dom m.(fields)))))).
