(* ===== verification/FixGateway.v ===== *)
(** * FIX 4.2: gateways and execution report publishers

    [ice_fix_messages.h], [ice_fix_gateway.h] and [ice_fix_exec_publisher.h] of
    [src/ice/fix/], and their counterparts for KRX in [src/krx/fix/].  A gateway
    answers with the call it makes on its engine.  [None] stands for the
    conversion of a double outside the 64-bit integers, which C++ leaves
    undefined. *)

From Stdlib Require Import Ascii String SpecFloat.
From S2P Require Import Prelude Types Wire Doubles Text Fix.

#[local] Open Scope Z_scope.

(** ** Conversions *)

Definition half : double := of_dyadic 1 (-1).
Definition minus_half : double := of_dyadic (-1) (-1).

(** Rounded to the nearest unit; zero without text. *)
Definition fix_price_to_engine (s : list Z) : option Price :=
  match s with
  | [] => Some 0
  | _ =>
      let d := strtod s in
      to_int (dadd (dmul d (of_int PRICE_SCALE)) (if dle d0 d then half else minus_half))
  end.
Definition fix_qty_to_engine (s : list Z) : option Quantity :=
  match s with
  | [] => Some 0
  | _ =>
      let d := strtod s in
      to_int (dadd (dmul d (of_int PRICE_SCALE)) (if dle d0 d then half else minus_half))
  end.

(** The characters ['1'], ['2'], ... *)
Definition fix_to_side (c : Z) : option Side :=
  match c with 49 => Some Buy | 50 => Some Sell | _ => None end.
Definition fix_to_order_type (c : Z) : option OrderType :=
  match c with
  | 49 => Some Market
  | 50 => Some Limit
  | 51 => Some Stop
  | 52 => Some StopLimit
  | _ => None
  end.
Definition fix_to_tif (c : Z) : option TimeInForce :=
  match c with
  | 48 => Some DAY
  | 49 => Some GTC
  | 51 => Some IOC
  | 52 => Some FOK
  | 54 => Some GTD
  | _ => None
  end.

(** [static_cast<uint64_t>(std::strtoll(...))]. *)
Definition fix_id (s : list Z) : Z := wrap_u64 (strtoll s).

(** ** Typed messages *)

Record FixNewOrderSingle : Type := mkNewOrderSingle {
  n_cl_ord_id : list Z; n_account : list Z; n_symbol : list Z; n_side : Z; n_order_qty : Z;
  n_price : double; n_ord_type : Z; n_time_in_force : Z; n_max_floor : Z;
  n_originator_user_id : list Z; n_account_code : list Z; n_memo : list Z
}.
Definition new_order_from_fix (m : FixMessage) : FixNewOrderSingle :=
  mkNewOrderSingle (get_string 11 m) (get_string 1 m) (get_string 55 m) (get_char 54 m) (get_int 38 m)
    (get_double 44 m) (get_char 40 m) (get_char 59 m) (get_int 111 m)
    (get_string 9139 m) (get_string 9195 m) (get_string 9121 m).

Record FixCancelRequest : Type := mkFixCancel {
  c_cl_ord_id : list Z; c_orig_cl_ord_id : list Z; c_symbol : list Z; c_side : Z
}.
Definition cancel_from_fix (m : FixMessage) : FixCancelRequest :=
  mkFixCancel (get_string 11 m) (get_string 41 m) (get_string 55 m) (get_char 54 m).

Record FixCancelReplaceRequest : Type := mkFixReplace {
  g_cl_ord_id : list Z; g_orig_cl_ord_id : list Z; g_symbol : list Z; g_side : Z; g_order_qty : Z;
  g_price : double; g_ord_type : Z
}.
Definition replace_from_fix (m : FixMessage) : FixCancelReplaceRequest :=
  mkFixReplace (get_string 11 m) (get_string 41 m) (get_string 55 m) (get_char 54 m) (get_int 38 m)
    (get_double 44 m) (get_char 40 m).

Record FixExecutionReport : Type := mkFixReport {
  x_cl_ord_id : list Z; x_exec_id : list Z; x_exec_type : Z; x_ord_status : Z; x_symbol : list Z;
  x_side : Z; x_price : double; x_order_qty : Z
}.
Definition report_from_fix (m : FixMessage) : FixExecutionReport :=
  mkFixReport (get_string 11 m) (get_string 17 m) (get_char 150 m) (get_char 39 m) (get_string 55 m)
    (get_char 54 m) (get_double 44 m) (get_int 38 m).

(** ** The gateway of ICE *)

Inductive engine_call : Type :=
  | CallNewOrder (req : OrderRequest)
  | CallCancelOrder (id : OrderId) (ts : Timestamp)
  | CallModifyOrder (req : ModifyRequest)
  | CallMassCancel (account_id : Z) (ts : Timestamp).

Inductive gateway_error : Type :=
  | ParseError (e : FixError)
  | MissingClOrdID
  | InvalidSideTag
  | InvalidOrdType
  | InvalidTimeInForce
  | MissingOrigClOrdID.

(** Success with the call made, if any, or failure without one. *)
Inductive GatewayResult : Type :=
  | GatewayOk (call : option engine_call)
  | GatewayFail (error : gateway_error).

(** The request, once side, type and time in force are known. *)
Definition order_request (cl_ord_id account : list Z) (side : Side) (type : OrderType) (tif : TimeInForce)
    (m : FixMessage) (ts : Timestamp) : option OrderRequest :=
  price ← fix_price_to_engine (get_string 44 m);
  quantity ← fix_qty_to_engine (get_string 38 m);
  display_qty ← fix_qty_to_engine (get_string 111 m);
  Some (mkRequest (fix_id cl_ord_id) (match account with [] => 0 | _ => fix_id account end)
    side type tif price quantity 0 ts 0 display_qty false).

Definition modify_request (orig_cl_ord_id cl_ord_id : list Z) (m : FixMessage) (ts : Timestamp) : option ModifyRequest :=
  price ← fix_price_to_engine (get_string 44 m);
  quantity ← fix_qty_to_engine (get_string 38 m);
  Some (mkModify (fix_id orig_cl_ord_id) (fix_id cl_ord_id) price quantity ts).

Definition handle_cancel (m : FixMessage) (ts : Timestamp) : GatewayResult :=
  let cr := cancel_from_fix m in
  match cr.(c_orig_cl_ord_id) with
  | [] => GatewayFail MissingOrigClOrdID
  | id => GatewayOk (Some (CallCancelOrder (fix_id id) ts))
  end.

Definition handle_replace (m : FixMessage) (ts : Timestamp) : option GatewayResult :=
  let crr := replace_from_fix m in
  match crr.(g_orig_cl_ord_id) with
  | [] => Some (GatewayFail MissingOrigClOrdID)
  | id =>
      req ← modify_request id crr.(g_cl_ord_id) m ts;
      Some (GatewayOk (Some (CallModifyOrder req)))
  end.

Module IceFix.
Definition handle_new_order (m : FixMessage) (ts : Timestamp) : option GatewayResult :=
  let nos := new_order_from_fix m in
  match nos.(n_cl_ord_id) with
  | [] => Some (GatewayFail MissingClOrdID)
  | _ =>
      match fix_to_side nos.(n_side) with
      | None => Some (GatewayFail InvalidSideTag)
      | Some side =>
          match fix_to_order_type nos.(n_ord_type) with
          | None => Some (GatewayFail InvalidOrdType)
          | Some type =>
              match fix_to_tif nos.(n_time_in_force) with
              | None => Some (GatewayFail InvalidTimeInForce)
              | Some tif =>
                  req ← order_request nos.(n_cl_ord_id) nos.(n_account) side type tif m ts;
                  Some (GatewayOk (Some (CallNewOrder req)))
              end
          end
      end
  end.

(** Other message types are accepted and ignored. *)
Definition on_message (data : list Z) (ts : Timestamp) : option GatewayResult :=
  match parse_fix_message data with
  | ParseErr e => Some (GatewayFail (ParseError e))
  | ParseOk m =>
      if bool_decide (m.(msg_type) = chars "D") then handle_new_order m ts
      else if bool_decide (m.(msg_type) = chars "F") then Some (handle_cancel m ts)
      else if bool_decide (m.(msg_type) = chars "G") then handle_replace m ts
      else Some (GatewayOk None)
  end.

Definition mass_cancel (account_id : Z) (ts : Timestamp) : GatewayResult :=
  GatewayOk (Some (CallMassCancel account_id ts)).
End IceFix.

(** ** The gateway of KRX *)

Module KrxFix.
Record KrxNewOrderSingle : Type := mkKrxNewOrder {
  k_order : FixNewOrderSingle;
  k_program_trading : Z;
  k_investor_type : list Z;
  k_board_id : list Z
}.
(** The fields KRX shares with ICE; ICE's own are left empty. *)
Definition from_fix (m : FixMessage) : KrxNewOrderSingle :=
  mkKrxNewOrder
    (mkNewOrderSingle (get_string 11 m) (get_string 1 m) (get_string 55 m) (get_char 54 m) (get_int 38 m)
       (get_double 44 m) (get_char 40 m) (get_char 59 m) (get_int 111 m) [] [] [])
    (get_char 5001 m) (get_string 5002 m) (get_string 5003 m).

Record KrxExecutionReport : Type := mkKrxReport { k_report : FixExecutionReport; k_report_board_id : list Z }.
Definition krx_report_from_fix (m : FixMessage) : KrxExecutionReport :=
  mkKrxReport (report_from_fix m) (get_string 5003 m).

(** What it remembers of the last new order. *)
Record KrxFixGateway : Type := mkKrxGateway {
  last_program_trade : bool;
  last_board_id : list Z
}.
Definition new_gateway : KrxFixGateway := mkKrxGateway false [].

Definition handle_new_order (m : FixMessage) (ts : Timestamp) (g : KrxFixGateway) : option (GatewayResult * KrxFixGateway) :=
  let nos := from_fix m in
  let o := nos.(k_order) in
  match o.(n_cl_ord_id) with
  | [] => Some (GatewayFail MissingClOrdID, g)
  | _ =>
      match fix_to_side o.(n_side) with
      | None => Some (GatewayFail InvalidSideTag, g)
      | Some side =>
          match fix_to_order_type o.(n_ord_type) with
          | None => Some (GatewayFail InvalidOrdType, g)
          | Some type =>
              match fix_to_tif o.(n_time_in_force) with
              | None => Some (GatewayFail InvalidTimeInForce, g)
              | Some tif =>
                  let g := mkKrxGateway (nos.(k_program_trading) =? 49) nos.(k_board_id) in
                  req ← order_request o.(n_cl_ord_id) o.(n_account) side type tif m ts;
                  Some (GatewayOk (Some (CallNewOrder req)), g)
              end
          end
      end
  end.

Definition on_message (data : list Z) (ts : Timestamp) (g : KrxFixGateway) : option (GatewayResult * KrxFixGateway) :=
  match parse_fix_message data with
  | ParseErr e => Some (GatewayFail (ParseError e), g)
  | ParseOk m =>
      if bool_decide (m.(msg_type) = chars "D") then handle_new_order m ts g
      else if bool_decide (m.(msg_type) = chars "F") then Some (handle_cancel m ts, g)
      else if bool_decide (m.(msg_type) = chars "G") then r ← handle_replace m ts; Some (r, g)
      else Some (GatewayOk None, g)
  end.
End KrxFix.

(** ** The execution report publishers *)

Record OrderInfo : Type := mkOrderInfo {
  oi_id : OrderId; oi_client_order_id : Z; oi_price : Price; oi_quantity : Quantity;
  oi_filled_quantity : Quantity; oi_side : Side
}.
(** [to_order]: the other members keep the defaults of [Order]. *)
Definition to_order (i : OrderInfo) : Order :=
  mkOrder i.(oi_id) i.(oi_client_order_id) 0 i.(oi_price) i.(oi_quantity) i.(oi_filled_quantity) 0
    i.(oi_side) Limit GTC 0 0 0 0 false false.

Record FixExecPublisher : Type := mkPublisher {
  fp_ctx : EncodeContext;
  fp_pending : gmap Z OrderInfo;
  fp_orders : gmap Z OrderInfo;
  fp_messages : list (list Z)
}.
Definition set_pending (v : gmap Z OrderInfo) (p : FixExecPublisher) : FixExecPublisher :=
  mkPublisher p.(fp_ctx) v p.(fp_orders) p.(fp_messages).
Definition set_orders (v : gmap Z OrderInfo) (p : FixExecPublisher) : FixExecPublisher :=
  mkPublisher p.(fp_ctx) p.(fp_pending) v p.(fp_messages).

Definition new_publisher (sender target symbol : list Z) : FixExecPublisher :=
  mkPublisher (mkFixContext sender target symbol 1 1) ∅ ∅ [].

Definition register_order (client_order_id : Z) (price : Price) (qty : Quantity) (side : Side)
    (p : FixExecPublisher) : FixExecPublisher :=
  set_pending (<[client_order_id := mkOrderInfo 0 client_order_id price qty 0 side]> p.(fp_pending)) p.

(** [messages_.push_back(encode_...(..., ctx_))]; every encoder draws a sequence
    number and an execution id. *)
Definition publish (encode : EncodeContext → list Z) (p : FixExecPublisher) : FixExecPublisher :=
  mkPublisher (bump_ids p.(fp_ctx)) p.(fp_pending) p.(fp_orders) (p.(fp_messages) ++ [encode p.(fp_ctx)]).

Definition on_order_accepted (id : OrderId) (client_order_id : Z) (ts : Timestamp) (p : FixExecPublisher) : FixExecPublisher :=
  match p.(fp_pending) !! client_order_id with
  | None => p
  | Some i =>
      let info := mkOrderInfo id i.(oi_client_order_id) i.(oi_price) i.(oi_quantity) i.(oi_filled_quantity) i.(oi_side) in
      let p := set_pending (delete client_order_id p.(fp_pending)) p in
      let p := set_orders (<[id := info]> p.(fp_orders)) p in
      publish (encode_exec_new id client_order_id ts (to_order info)) p
  end.

Definition on_order_rejected (client_order_id : Z) (ts : Timestamp) (reason : RejectReason) (p : FixExecPublisher) : FixExecPublisher :=
  publish (encode_exec_reject client_order_id ts reason) (set_pending (delete client_order_id p.(fp_pending)) p).

Definition on_order_filled (resting_id : OrderId) (price : Price) (quantity : Quantity) (ts : Timestamp)
    (p : FixExecPublisher) : FixExecPublisher :=
  match p.(fp_orders) !! resting_id with
  | None => p
  | Some i =>
      let p := publish (encode_exec_fill price quantity ts (to_order i)) p in
      let i' := mkOrderInfo i.(oi_id) i.(oi_client_order_id) i.(oi_price) i.(oi_quantity)
                  (i.(oi_filled_quantity) + quantity) i.(oi_side) in
      set_orders (<[resting_id := i']> p.(fp_orders)) p
  end.

Definition on_order_cancelled (id : OrderId) (ts : Timestamp) (p : FixExecPublisher) : FixExecPublisher :=
  match p.(fp_orders) !! id with
  | None => p
  | Some i =>
      let p := publish (encode_exec_cancel id ts (to_order i)) p in
      set_orders (delete id p.(fp_orders)) p
  end.

Definition on_order_modified (id : OrderId) (client_order_id : Z) (new_price : Price) (new_qty : Quantity)
    (ts : Timestamp) (p : FixExecPublisher) : FixExecPublisher :=
  match p.(fp_orders) !! id with
  | None => p
  | Some i =>
      let p := publish (encode_exec_replace id client_order_id new_price new_qty ts (to_order i)) p in
      let i' := mkOrderInfo i.(oi_id) i.(oi_client_order_id) new_price new_qty i.(oi_filled_quantity) i.(oi_side) in
      set_orders (<[id := i']> p.(fp_orders)) p
  end.

(** The events the publisher handles; the base class ignores the others, among
    them partial fills. *)
Definition fix_listener (e : event) (p : FixExecPublisher) : FixExecPublisher :=
  match e with
  | OrderAccepted id cid ts => on_order_accepted id cid ts p
  | OrderRejected cid ts reason => on_order_rejected cid ts reason p
  | OrderFilled _ rid price qty ts => on_order_filled rid price qty ts p
  | OrderCancelled id ts _ => on_order_cancelled id ts p
  | OrderModified id cid price qty ts => on_order_modified id cid price qty ts p
  | _ => p
  end.
Definition clear_messages (p : FixExecPublisher) : FixExecPublisher :=
  mkPublisher p.(fp_ctx) p.(fp_pending) p.(fp_orders) [].
