(* ===== verification/FixTheorems.v ===== *)
(** * FIX 4.2: what the encoder wrote, the parser reads

    Messages survive encoding and parsing; a body with another byte sum is
    refused; prices survive the detour over text and double precision. *)

From Stdlib Require Import Ascii String SpecFloat Rbase Rfunctions Lra.
From S2P Require Import Prelude Types Wire Doubles Text ExchangeSimulator Fix FixGateway.

#[local] Open Scope Z_scope.

(** ** Fields *)

Lemma digits_no_char c ds : all_digits ds → ¬ 48 <= c <= 57 → c ∉ ds.
Proof. intros Hds Hc Hin. unfold all_digits in Hds. rewrite Forall_forall in Hds. by apply Hc, Hds. Qed.
Lemma signed_decimal_no_char c v : ¬ 48 <= c <= 57 → c ≠ 45 → c ∉ signed_decimal v.
Proof.
  intros Hc H45. unfold signed_decimal. destruct (Z.ltb_spec v 0).
  - apply not_elem_of_cons. split; [done|]. apply digits_no_char; [apply decimal_digits; lia|done].
  - apply digits_no_char; [by apply decimal_digits|done].
Qed.

(** A field that can be written: a tag of 32 bits, a value without SOH. *)
Definition field_ok (kv : Z * list Z) : Prop := in_int32 kv.1 ∧ SOH ∉ kv.2.

Lemma parse_field_append tag value rest : field_ok (tag, value) →
  parse_field (append_tag tag value ++ rest) = Some (tag, value, rest).
Proof.
  intros [Ht Hv]. unfold parse_field, append_tag. cbn [fst snd] in *. rewrite <- !app_assoc. cbn [app].
  rewrite split_at_app by (apply signed_decimal_no_char; lia). cbn [mbind option_bind].
  rewrite <- (app_nil_r (signed_decimal tag)).
  rewrite from_chars_signed; [|done|by apply bool_decide_eq_true_2].
  rewrite split_at_app by done. done.
Qed.

Lemma append_tag_length tag value : (1 <= length (append_tag tag value))%nat.
Proof. unfold append_tag. rewrite !length_app. cbn. lia. Qed.

(** The message that holds these fields: the first of each tag. *)
Definition message_of (kvs : list (Z * list Z)) (m : FixMessage) : FixMessage :=
  fold_left (λ m kv, add_field kv.1 kv.2 m) kvs m.

Lemma parse_body_tags kvs fuel m : Forall field_ok kvs → (length (append_tags kvs) <= fuel)%nat →
  parse_body fuel (append_tags kvs) m = Some (message_of kvs m).
Proof.
  intros H. revert fuel m. induction H as [|[tag value] kvs Hkv _ IH]; intros fuel m Hf; [by destruct fuel|].
  cbn [append_tags] in *. rewrite length_app in Hf. pose proof (append_tag_length tag value) as Hl.
  destruct fuel as [|fuel]; [lia|]. destruct (append_tag tag value ++ append_tags kvs) as [|b bs] eqn:E.
  { apply (f_equal length) in E. rewrite length_app in E. cbn in E. lia. }
  cbn [parse_body]. rewrite <- E, parse_field_append by done. cbn [mbind option_bind]. apply IH. lia.
Qed.

(** ** Framing *)

(** A frame around a body, whatever follows it. *)
Definition frame_header (n : nat) : list Z := append_tag 8 (chars "FIX.4.2") ++ append_tag 9 (decimal (Z.of_nat n)).

Lemma version_ok : field_ok (8, chars "FIX.4.2").
Proof. split; [done|by apply (bool_decide_unpack _)]. Qed.
Lemma decimal_field_ok tag v : in_int32 tag → 0 <= v → field_ok (tag, decimal v).
Proof.
  intros Ht Hv. split; [done|]. apply digits_no_char; [by apply decimal_digits|]. unfold SOH. cbn. lia.
Qed.

Lemma parse_frame body trailer : Z.of_nat (length body) <= int64_max →
  parse_fix_message (frame_header (length body) ++ body ++ trailer) =
    match parse_body (length (body ++ trailer)) body (mkFixMessage [] ∅) with
    | None => ParseErr MalformedField
    | Some m => parse_trailer (frame_header (length body) ++ body) trailer m
    end.
Proof.
  intros Hlen. unfold parse_fix_message, frame_header.
  set (a8 := append_tag 8 _). set (a9 := append_tag 9 _).
  assert (Hne : ∃ b bs, (a8 ++ a9) ++ body ++ trailer = b :: bs) by (by eexists _, _).
  destruct Hne as (b & bs & Hne). rewrite Hne. rewrite <- Hne at 1.
  rewrite <- app_assoc. unfold a8 at 1. rewrite parse_field_append by apply version_ok.
  rewrite bool_decide_eq_true_2 by done. unfold a9 at 1.
  rewrite parse_field_append by (apply decimal_field_ok; [done|lia]).
  rewrite <- (app_nil_r (decimal _)), from_chars_decimal; [|lia|done|].
  2: { apply bool_decide_eq_true_2. unfold in_int64, int64_min. lia. }
  rewrite (proj2 (Z.ltb_ge _ 0)) by lia. rewrite length_app at 1.
  destruct (Z.gtb_spec (Z.of_nat (length body)) (Z.of_nat (length body + length trailer))) as [?|_]; [lia|].
  rewrite Nat2Z.id. rewrite take_app_length, drop_app_length.
  destruct (parse_body _ _ _) as [m|]; [|done]. f_equal.
  rewrite <- Hne. rewrite (app_assoc (a8 ++ a9)).
  replace (length (((a8 ++ a9) ++ body) ++ trailer) - length (body ++ trailer) + length body)%nat
    with (length ((a8 ++ a9) ++ body)) by (rewrite !length_app; lia).
  apply take_app_length.
Qed.

(** ** The checksum *)

Lemma checksum_range bs : 0 <= checksum bs < 256.
Proof. apply Z.mod_pos_bound. lia. Qed.
Lemma checksum_field_ok bs : field_ok (10, checksum_text bs).
Proof.
  split; [done|]. apply digits_no_char; [apply zero_padded_digits, checksum_range|]. unfold SOH. lia.
Qed.
Lemma checksum_text_inj bs bs' : checksum_text bs = checksum_text bs' → checksum bs = checksum bs'.
Proof.
  intros E%(f_equal (digits_value 0)). unfold checksum_text in E.
  by rewrite !zero_padded_value in E by apply checksum_range.
Qed.

Lemma parse_trailer_append before value rest m : field_ok (10, value) →
  parse_trailer before (append_tag 10 value ++ rest) m =
    if bool_decide (value = checksum_text before) then
      match m.(msg_type) with [] => ParseErr MissingMsgType | _ => ParseOk m end
    else ParseErr (ChecksumMismatch (checksum_text before) value).
Proof. intros Hv. unfold parse_trailer. by rewrite parse_field_append. Qed.

Lemma assemble_frame body : assemble_message body =
  frame_header (length body) ++ body ++ append_tag 10 (checksum_text (frame_header (length body) ++ body)).
Proof. unfold assemble_message, frame_header. by rewrite <- app_assoc. Qed.

Definition empty_message : FixMessage := mkFixMessage [] ∅.

Lemma parse_assembled kvs : Forall field_ok kvs → Z.of_nat (length (append_tags kvs)) <= int64_max →
  (message_of kvs empty_message).(msg_type) ≠ [] →
  parse_fix_message (assemble_message (append_tags kvs)) = ParseOk (message_of kvs empty_message).
Proof.
  intros Hk Hl Ht. rewrite assemble_frame, parse_frame by done. rewrite parse_body_tags by (done || rewrite length_app; lia).
  rewrite <- (app_nil_r (append_tag 10 _)), parse_trailer_append by apply checksum_field_ok.
  rewrite bool_decide_eq_true_2 by done. fold empty_message. by destruct (msg_type _).
Qed.

(** ** The fields of a message *)

Fixpoint first_value (t : Z) (kvs : list (Z * list Z)) : option (list Z) :=
  match kvs with
  | [] => None
  | (k, v) :: kvs' => if k =? t then Some v else first_value t kvs'
  end.
Fixpoint last_type (kvs : list (Z * list Z)) (type : list Z) : list Z :=
  match kvs with
  | [] => type
  | (k, v) :: kvs' => last_type kvs' (if k =? 35 then v else type)
  end.

Lemma message_fields kvs m t :
  (message_of kvs m).(fields) !! t = match m.(fields) !! t with Some v => Some v | None => first_value t kvs end.
Proof.
  revert m. induction kvs as [|[k v] kvs IH]; intros m; cbn; [by destruct (_ !! t)|].
  rewrite IH. cbn. destruct (Z.eqb_spec k t) as [->|Hne].
  - destruct (m.(fields) !! t) as [w|] eqn:E; [by rewrite E|]. by rewrite lookup_insert_eq.
  - destruct (m.(fields) !! k); [done|]. by rewrite lookup_insert_ne.
Qed.
Lemma message_type kvs m : (message_of kvs m).(msg_type) = last_type kvs m.(msg_type).
Proof. revert m. induction kvs as [|[k v] kvs IH]; intros m; cbn; [done|]. by rewrite IH. Qed.

Lemma get_string_message t kvs : get_string t (message_of kvs empty_message) = default [] (first_value t kvs).
Proof. unfold get_string. rewrite message_fields. cbn. by rewrite lookup_empty. Qed.
Lemma get_char_message t kvs : get_char t (message_of kvs empty_message) =
  match first_value t kvs with Some (c :: _) => c | _ => 0 end.
Proof. unfold get_char. rewrite message_fields. cbn. by rewrite lookup_empty. Qed.

Lemma first_value_fmap (f : Z → list Z) l t :
  first_value t ((λ k, (k, f k)) <$> l) = if decide (t ∈ l) then Some (f t) else None.
Proof.
  induction l as [|k l IH]; [done|]. cbn. rewrite IH. destruct (Z.eqb_spec k t) as [->|Hne].
  - by rewrite decide_True by left.
  - destruct (decide (t ∈ l)); [by rewrite decide_True by (by right)|].
    rewrite decide_False; [done|]. apply not_elem_of_cons. by split.
Qed.
Lemma last_type_fmap (f : Z → list Z) l type : 35 ∉ l → last_type ((λ k, (k, f k)) <$> l) type = type.
Proof.
  induction l as [|k l IH]; intros H; cbn; [done|]. apply not_elem_of_cons in H as [Hk Hl].
  rewrite (proj2 (Z.eqb_neq k 35)) by congruence. by apply IH.
Qed.

(** C28: A message whose type is not empty, whose tags fit 32 bits, whose type and
    values are free of SOH and whose body has a length of 64 bits comes back from
    encoding and parsing with the same type and fields, in whatever order the
    encoder walks the fields; its type is a field too. *)
Theorem fix_message_roundtrip {iteration : Iteration} m :
  m.(msg_type) ≠ [] → SOH ∉ m.(msg_type) →
  map_Forall (λ tag value, field_ok (tag, value)) m.(fields) →
  Z.of_nat (length (append_tags ((35, m.(msg_type)) ::
    ((λ tag, (tag, get_string tag m)) <$> filter (λ tag, tag ≠ 35) (visit (dom m.(fields))))))) <= int64_max →
  parse_fix_message (encode_fix_message m) = ParseOk (mkFixMessage m.(msg_type) (<[35 := m.(msg_type)]> m.(fields))).
Proof.
  intros Hne Hsoh Hf Hlen. unfold encode_fix_message. set (tags := filter _ _) in *.
  assert (Htags : ∀ t, t ∈ tags ↔ t ≠ 35 ∧ t ∈ dom m.(fields)).
  { intros t. unfold tags. rewrite list_elem_of_filter. by rewrite visit_perm, elem_of_elements. }
  assert (Hl : last_type ((λ tag, (tag, get_string tag m)) <$> tags) m.(msg_type) = m.(msg_type)).
  { apply last_type_fmap. intros H%Htags. by destruct H. }
  rewrite parse_assembled; [| |done|].
  - f_equal. destruct (message_of _ _) as [ty fs] eqn:E. f_equal.
    + apply (f_equal msg_type) in E. rewrite message_type in E. cbn [msg_type] in E. rewrite <- E. exact Hl.
    + apply map_eq. intros t. apply (f_equal fields) in E. cbn [fields] in E. rewrite <- E, message_fields.
      unfold empty_message. cbn [fields]. rewrite lookup_empty. cbn [first_value].
      destruct (Z.eqb_spec 35 t) as [<-|Ht]; [by rewrite lookup_insert_eq|]. rewrite lookup_insert_ne by done.
      rewrite first_value_fmap. destruct (decide (t ∈ tags)) as [Hin|Hout].
      * apply Htags in Hin as [_ Hd]. apply elem_of_dom in Hd as [v Hv]. unfold get_string. by rewrite Hv.
      * symmetry. apply not_elem_of_dom. intros Hd. apply Hout, Htags. by split.
  - apply Forall_cons. split; [by split|]. apply Forall_fmap, Forall_forall. intros t Ht. cbn.
    apply Htags in Ht as [_ Hd]. apply elem_of_dom in Hd as [v Hv]. unfold get_string. rewrite Hv. by apply (Hf t v).
  - rewrite message_type. cbn. by rewrite Hl.
Qed.

(** C29: A message of which one byte of the body was altered, to any other byte, is
    refused, whatever the body holds. *)
Theorem fix_corruption_detected body i b b' :
  Z.of_nat (length body) <= int64_max → body !! i = Some b → is_byte b → is_byte b' → b ≠ b' →
  ∃ e, parse_fix_message (frame_header (length body) ++ <[i := b']> body ++
         append_tag 10 (checksum_text (frame_header (length body) ++ body))) = ParseErr e.
Proof.
  intros Hlen Hi Hb Hb' Hne. set (trailer := append_tag 10 _).
  pose proof (parse_frame (<[i := b']> body) trailer ltac:(by rewrite length_insert)) as Hp.
  rewrite length_insert in Hp. rewrite Hp. clear Hp. unfold trailer.
  destruct (parse_body _ _ _) as [m|]; [|by eexists].
  rewrite <- (app_nil_r (append_tag 10 _)), parse_trailer_append by apply checksum_field_ok.
  rewrite bool_decide_eq_false_2; [by eexists|]. intros E%checksum_text_inj.
  unfold checksum in E. rewrite !sum_by_app in E.
  assert (Hs : sum_by (λ b, b) (<[i := b']> body) = sum_by (λ b, b) body - b + b').
  { rewrite <- (take_drop_middle body i b Hi) at 2. rewrite insert_take_drop by (by eapply lookup_lt_Some).
    rewrite !sum_by_app. cbn. lia. }
  rewrite Hs in E. unfold is_byte in Hb, Hb'.
  set (h := sum_by _ (frame_header _)) in *. set (s := sum_by _ body) in *.
  assert (Hd : (h + s - (h + (s - b + b'))) mod 256 = 0) by (by rewrite Zminus_mod, E, Z.sub_diag).
  replace (h + s - (h + (s - b + b'))) with (b - b') in Hd by lia.
  apply Z.mod_divide in Hd as [k Hk]; [|done]. lia.
Qed.

(** ** Prices as text *)

Lemma strtod_fixed_point (negative : bool) whole frac : 0 <= whole → 0 <= frac < 10000 →
  strtod ((if negative then [45] else []) ++ decimal whole ++ [46] ++ zero_padded 4 frac)
    = decimal_double negative (whole * 10000 + frac) (-4).
Proof.
  intros Hw Hf. cbn [app]. set (s := decimal whole ++ 46 :: zero_padded 4 frac).
  assert (Hs : ∃ c x cs, s = c :: x :: cs ∧ 48 <= c <= 57 ∧ (48 <= x <= 57 ∨ x = 46)).
  { unfold s. pose proof (decimal_digits whole Hw) as Hd. destruct (decimal whole) as [|c ds] eqn:E; [by apply decimal_not_nil in E|].
    apply Forall_cons in Hd as [Hc Hd]. destruct ds as [|x ds]; cbn; eexists c, _, _; (split; [done|split; [done|]]); [by right|].
    left. by apply Forall_cons in Hd as [Hx _]. }
  destruct (read_fixed_point whole frac 3 Hw Hf) as [n Hr]. fold s in Hr.
  assert (Hsign : read_sign (skip_spaces ((if negative then [45] else []) ++ s)) = (negative, s)).
  { destruct Hs as (c & x & cs & -> & Hc & _). destruct negative; [done|]. cbn [app]. by rewrite skip_spaces_digit, read_sign_digit. }
  unfold strtod. rewrite Hsign.
  assert (Hplain : starts_with (chars "inf") s = false ∧ starts_with (chars "nan") s = false ∧ hex_prefix s = false).
  { destruct Hs as (c & x & cs & -> & Hc & Hx). split_and!; [by digit_case c|by digit_case c|].
    assert (Hlx : (lower x =? 120) = false) by (destruct Hx as [Hx| ->]; [by digit_case x|done]).
    digit_case c; try done. cbn [hex_prefix]. by rewrite Hlx. }
  destruct Hplain as (-> & -> & ->). rewrite Hr. done.
Qed.

Lemma strtod_price p : strtod (price_to_fix_str p) = decimal_double (p <? 0) (Z.abs p) (-4).
Proof.
  unfold price_to_fix_str, PRICE_SCALE. pose proof (Z.quot_rem' (Z.abs p) 10000) as E.
  pose proof (Z.rem_bound_pos (Z.abs p) 10000 ltac:(lia) ltac:(lia)).
  pose proof (Z.quot_pos (Z.abs p) 10000 ltac:(lia) ltac:(lia)).
  replace (if p <? 0 then [45] else []) with (if (p <? 0 : bool) then [45] else []) by done.
  rewrite strtod_fixed_point by lia. f_equal. lia.
Qed.

Lemma half_range n : n = 1 ∨ n = -1 → in_range (IZR n * bpow (-1)).
Proof.
  intros Hn. right. assert (Rabs (IZR n * bpow (-1)) = bpow (-1))%R as ->.
  { pose proof (bpow_pos (-1)). destruct Hn as [-> | ->]; rewrite Rabs_mult, (Rabs_pos_eq (bpow _)) by lra; unfold Rabs; destruct (Rcase_abs _); lra. }
  split; apply bpow_le; lia.
Qed.
Lemma half_val : rounds half (/ 2) ∧ val half = (/ 2)%R.
Proof.
  destruct (normalize_rounds 1 (-1)) as [Hr Hv]; [apply half_range; by left|]. rewrite bpow_m1, Rmult_1_l in *.
  split; [exact Hr|by apply Hv].
Qed.
Lemma minus_half_val : rounds minus_half (- / 2) ∧ val minus_half = (- / 2)%R.
Proof.
  destruct (normalize_rounds (-1) (-1)) as [Hr Hv]; [apply half_range; by right|]. rewrite bpow_m1 in *.
  replace (-1 * / 2)%R with (- / 2)%R in * by lra. split; [exact Hr|by apply Hv].
Qed.

Section price_roundtrip.
Variable p : Price.
Hypothesis Hp : 1 <= Z.abs p <= 2 ^ 50.

Let u := unit_roundoff.
Let P : R := IZR (Z.abs p).

Lemma price_bounds : (1 <= P <= bpow 50)%R ∧ (u * P <= / 8)%R ∧ (0 < u < / 1024)%R.
Proof using Hp.
  assert (H1 : (1 <= P <= bpow 50)%R) by (rewrite bpow_IZR by lia; split; apply IZR_le; lia).
  split; [done|]. pose proof (bpow_pos (-53)). unfold u, unit_roundoff. split.
  - apply Rle_trans with (bpow (-53) * bpow 50)%R; [apply Rmult_le_compat_l; lra|].
    rewrite <- bpow_add. change (-53 + 50) with (-(3)). rewrite bpow_opp, bpow_IZR by lia. apply Req_le. done.
  - split; [done|]. apply Rlt_le_trans with (bpow (-(10))); [by apply bpow_lt|].
    rewrite bpow_opp, bpow_IZR by lia. apply Req_le. done.
Qed.

(** The text, as a double: within a rounding of a ten-thousandth. *)
Lemma decimal_price (s : bool) : rounds (decimal_double s (Z.abs p) (-4)) (if s then - (P / 10000) else P / 10000)%R.
Proof using Hp.
  destruct price_bounds as [HP _]. unfold decimal_double. destruct (Z.abs p) as [|q|q] eqn:E; [lia| |lia].
  change (-4 <? 0) with true. cbn [Z.opp]. change (Z.to_pos (10 ^ 4)) with 10000%positive.
  assert (EP : P = IZR (Zpos q)) by done. rewrite EP in *.
  pose proof (bpow_le (-1022) (-(14)) ltac:(lia)). pose proof (bpow_le 50 1023 ltac:(lia)). pose proof (bpow_pos 50).
  apply (of_ratio_rounds s q 10000). cbn zeta. split; [|lra].
  apply Rle_trans with (1 := H). rewrite bpow_opp, bpow_IZR by lia.
  apply Rle_trans with (/ 10000)%R; [|lra]. apply Rinv_le_contravar; [lra|]. apply IZR_le. done.
Qed.

Definition signed_price (s : bool) : R := if s then (- P)%R else P.

Lemma near_error a x e : near a x → (Rabs x <= e)%R → (x - u * e <= a <= x + u * e)%R.
Proof using Type.
  intros H He. unfold near in H. apply Rabs_bounds in H. pose proof unit_roundoff_pos. fold u in H0, H.
  assert (u * Rabs x <= u * e)%R by (apply Rmult_le_compat_l; lra). lra.
Qed.

(** Scaled back, the price is off by a quarter at most. *)
Lemma scaled_price (s : bool) d : rounds d (if s then - (P / 10000) else P / 10000)%R →
  let w := dmul d (of_int 10000) in
  finite w ∧ valid w ∧ (signed_price s - 3/10 <= val w <= signed_price s + 3/10)%R.
Proof using Hp.
  intros [Fd Vd Nd]. destruct price_bounds as (HP & HuP & Hu).
  assert (E4 : val (of_int 10000) = 10000%R) by (by apply of_int_exact).
  assert (R4 : rounds (of_int 10000) 10000) by (apply of_int_rounds; unfold in_int64, int64_min, int64_max; lia).
  assert (Hd : (signed_price s - u * P <= val d * 10000 <= signed_price s + u * P)%R).
  { apply (near_error _ _ (P / 10000)) in Nd.
    - unfold signed_price. destruct s; lra.
    - destruct s; rewrite ?Rabs_Ropp, Rabs_pos_eq by lra; lra. }
  pose proof (bpow_le (-1022) (-1) ltac:(lia)) as Hlo. pose proof (bpow_le 51 1023 ltac:(lia)) as Hhi.
  assert (E51 : bpow 51 = (2 * bpow 50)%R) by (change 51 with (1 + 50); by rewrite bpow_add, bpow_1).
  rewrite bpow_m1 in Hlo.
  assert (Habs : (/ 2 <= Rabs (val d * 10000) <= 2 * bpow 50)%R).
  { unfold signed_price in Hd. destruct s.
    - rewrite Rabs_left by lra. lra.
    - rewrite Rabs_pos_eq by lra. lra. }
  assert (Hw : rounds (dmul d (of_int 10000)) (val d * 10000)).
  { rewrite <- E4. apply dmul_rounds; [done|apply R4|done|apply R4|]. rewrite E4. right. lra. }
  destruct Hw as [Fw Vw Nw]. split; [done|split; [done|]].
  apply (near_error _ _ (P + / 8)) in Nw; [nra|].
  unfold signed_price in Hd. destruct s; [rewrite Rabs_left by lra; lra|rewrite Rabs_pos_eq by lra; lra].
Qed.

Lemma rounded_price (s : bool) : (if s then p < 0 else 0 < p) →
  to_int (dadd (dmul (decimal_double s (Z.abs p) (-4)) (of_int 10000)) (if s then minus_half else half)) = Some p.
Proof using Hp.
  intros Hs. destruct price_bounds as (HP & HuP & Hu).
  destruct (scaled_price s _ (decimal_price s)) as (Fw & Vw & Bw). set (w := dmul _ _) in *.
  set (h := if s then minus_half else half).
  assert (Hh : rounds h (val h) ∧ val h = (if s then - / 2 else / 2)%R).
  { unfold h. destruct s; [destruct minus_half_val as [Hr E]|destruct half_val as [Hr E]]; rewrite E; done. }
  destruct Hh as [[Fh Vh _] Eh].
  pose proof (bpow_le (-1022) (-1) ltac:(lia)) as Hlo. pose proof (bpow_le 51 1023 ltac:(lia)) as Hhi.
  assert (E51 : bpow 51 = (2 * bpow 50)%R) by (change 51 with (1 + 50); by rewrite bpow_add, bpow_1).
  rewrite bpow_m1 in Hlo.
  assert (Habs : (/ 2 <= Rabs (val w + val h) <= P + 9/10)%R).
  { rewrite Eh. unfold signed_price in Bw. destruct s; [rewrite Rabs_left by lra; lra|rewrite Rabs_pos_eq by lra; lra]. }
  destruct (dadd_rounds w h) as [Fz Vz Nz]; [done..|right; lra|].
  apply (near_error _ _ (P + 9/10)) in Nz; [|lra]. rewrite Eh in Nz.
  assert (Hb : (signed_price s + (if s then - / 2 else / 2) - 45/100 <= val (dadd w h) <=
                signed_price s + (if s then - / 2 else / 2) + 45/100)%R) by nra.
  assert (Hi : in_int64 p) by (unfold in_int64, int64_min, int64_max; lia).
  unfold signed_price in Hb. unfold P in Hb. destruct s.
  - apply to_int_neg; [done|done|lia|]. rewrite Z.abs_neq in Hb by lia. rewrite opp_IZR in Hb. lra.
  - apply to_int_pos; [done|done|lia|]. rewrite Z.abs_eq in Hb by lia. lra.
Qed.
End price_roundtrip.

Lemma price_roundtrip p : Z.abs p <= 2 ^ 50 → fix_price_to_engine (price_to_fix_str p) = Some p.
Proof.
  intros Hp. unfold fix_price_to_engine, PRICE_SCALE.
  assert (Hne : ∃ c cs, price_to_fix_str p = c :: cs).
  { unfold price_to_fix_str. destruct (p <? 0); cbn [app]; [by eexists _, _|].
    destruct (head_digit (Z.quot (Z.abs p) PRICE_SCALE) (46 :: zero_padded 4 (Z.rem (Z.abs p) PRICE_SCALE))) as (c & cs & -> & _);
      [unfold PRICE_SCALE; apply Z.quot_pos; lia|by exists c, cs]. }
  destruct Hne as (c & cs & E). rewrite E, <- E, strtod_price. clear c cs E.
  destruct (Z.eq_dec p 0) as [->|Hne]; [done|].
  assert (Hp1 : 1 <= Z.abs p <= 2 ^ 50) by lia.
  destruct (decimal_price p Hp1 (p <? 0)) as [F V N]. pose proof (price_bounds p Hp1) as (HP & _ & _).
  destruct (Z.ltb_spec p 0) as [Hlt|Hge].
  - assert (dle d0 (decimal_double true (Z.abs p) (-4)) = false) as ->.
    { apply not_true_iff_false. intros Hd. apply dle_0 in Hd; [|done]. apply near_neg in N; [|lra]. lra. }
    by apply (rounded_price p Hp1 true).
  - assert (dle d0 (decimal_double false (Z.abs p) (-4)) = true) as ->.
    { apply dle_0; [done|]. apply near_bounds in N; [|lra]. pose proof unit_roundoff_half. nra. }
    apply (rounded_price p Hp1 false). lia.
Qed.

(** ** The two theorems on concrete messages *)

Definition demo_message : FixMessage :=
  mkFixMessage (chars "D") (<[11 := chars "7"]> (<[55 := chars "B"]> (<[58 := []]> ∅))).
Lemma fix_message_roundtrip_witness :
  let i := Build_Iteration elements (λ X, reflexivity (elements X)) in
  parse_fix_message (encode_fix_message (iteration := i) demo_message) =
    ParseOk (mkFixMessage (chars "D") (<[35 := chars "D"]> demo_message.(fields))).
Proof.
  apply (fix_message_roundtrip (iteration := Build_Iteration elements (λ X, reflexivity (elements X))) demo_message).
  - done.
  - by apply (bool_decide_unpack _).
  - repeat (apply map_Forall_insert_2; [split; [done|by apply (bool_decide_unpack _)]|]). apply map_Forall_empty.
  - by vm_compute.
Defined.
Lemma fix_corruption_detected_witness :
  let body := append_tags [(35, chars "D"); (38, chars "10")] in
  ∃ e, parse_fix_message (frame_header (length body) ++ <[9%nat := 50]> body ++
         append_tag 10 (checksum_text (frame_header (length body) ++ body))) = ParseErr e.
Proof.
  apply (fix_corruption_detected (append_tags [(35, chars "D"); (38, chars "10")]) 9 48 50);
    [by vm_compute|by vm_compute|done|done|done].
Defined.
