(* ===== verification/SimClient.v ===== *)
(** * The trading client: [src/tools/sim_client.h]

    The two codecs a client speaks, iLink 3 and FIX, and what it keeps of its
    orders, position and profit.  Sending over TCP is the argument [sent]: whether the transport took
    the message.  The journal is not modelled. *)

From Stdlib Require Import Ascii String SpecFloat.
From S2P Require Import Prelude Types Wire Doubles Text Sbe ILink3Messages ILink3 ExchangeSimulator Fix.

#[local] Open Scope Z_scope.

(** ** Reports *)

Inductive ReportType : Type :=
  | Accepted
  | Fill
  | Cancelled
  | Rejected
  | CancelRejected
  | Replaced.

Record ExecReport : Type := mkExecReport {
  er_type : ReportType; er_order_id : Z; er_cl_ord_id : Z; er_side : Side; er_price : Price;
  er_qty : Quantity; er_fill_price : Price; er_fill_qty : Quantity; er_leaves_qty : Quantity;
  er_cum_qty : Quantity; er_is_aggressor : bool; er_ts : Timestamp
}.
(** [ExecReport rpt;] *)
Definition default_report : ExecReport := mkExecReport Accepted 0 0 Buy 0 0 0 0 0 0 false 0.

(** What a codec makes of a message: nothing, a report, or an undefined
    conversion or read. *)
Inductive response : Type :=
  | NoReport
  | Reported (r : ExecReport)
  | UndefinedResponse.

(** ** ProtocolCodec *)

Record ProtocolCodec (C : Type) : Type := mkCodec {
  codec_new_order : Timestamp → Z → Side → Price → Quantity → OrderType → TimeInForce → C → option (list Z * C);
  codec_cancel : Timestamp → Z → Z → Side → C → option (list Z * C);
  codec_replace : Timestamp → Z → Z → Side → Price → Quantity → C → option (list Z * C);
  codec_response : Timestamp → list Z → response
}.
Arguments codec_new_order {C}.
Arguments codec_cancel {C}.
Arguments codec_replace {C}.
Arguments codec_response {C}.

(** ** CmeCodec *)

Module CmeCodec.
Abbreviation Ctx := ILink3.EncodeContext.

Definition bump_seq (c : Ctx) : Ctx :=
  ILink3.mkEncodeContext (wrap_u32 (c.(ILink3.ec_seq_num) + 1)) c.(ILink3.ec_uuid) c.(ILink3.ec_party_details_list_req_id)
    c.(ILink3.ec_security_id) c.(ILink3.ec_sender_id) c.(ILink3.ec_location).
(** At most nineteen characters of the account, in a zeroed field. *)
Definition new_codec (security_id : Z) (account : list Z) : Ctx :=
  ILink3.mkEncodeContext 1 1 1 security_id (snprintf 20 account) (chars "US,IL").

Definition encode_new_order (now : Timestamp) (cl_ord_id : Z) (side : Side) (price : Price) (qty : Quantity)
    (type : OrderType) (tif : TimeInForce) (c : Ctx) : option (list Z * Ctx) :=
  bs ← ILink3.encode_new_order (mkRequest cl_ord_id 0 side type tif price qty 0 now 0 0 false) c;
  Some (bs, bump_seq c).
Definition encode_cancel (now : Timestamp) (cl_ord_id order_id : Z) (side : Side) (c : Ctx) : option (list Z * Ctx) :=
  bs ← ILink3.encode_cancel_order order_id cl_ord_id side now c;
  Some (bs, bump_seq c).
Definition encode_replace (now : Timestamp) (cl_ord_id order_id : Z) (side : Side) (new_price : Price)
    (new_qty : Quantity) (c : Ctx) : option (list Z * Ctx) :=
  bs ← ILink3.encode_modify_order (mkModify order_id cl_ord_id new_price new_qty now) order_id side Limit DAY c;
  Some (bs, bump_seq c).

Definition report_of (d : Decoded) : option ExecReport :=
  match d with
  | DecodedExecNew522 m =>
      Some (mkExecReport Accepted m.(e522_order_id) (decode_cl_ord_id m.(e522_cl_ord_id)) (decode_side m.(e522_side))
        (price9_to_engine m.(e522_price)) (wire_qty_to_engine m.(e522_order_qty)) 0 0 0 0 false (wrap_s64 m.(e522_transact_time)))
  | DecodedExecTrade525 m _ =>
      Some (mkExecReport Fill m.(e525_order_id) (decode_cl_ord_id m.(e525_cl_ord_id)) (decode_side m.(e525_side))
        (price9_to_engine m.(e525_price)) 0 (price9_to_engine m.(e525_last_px)) (wire_qty_to_engine m.(e525_last_qty))
        (wire_qty_to_engine m.(e525_leaves_qty)) (wire_qty_to_engine m.(e525_cum_qty))
        (negb (m.(e525_aggressor_indicator) =? 0)) (wrap_s64 m.(e525_transact_time)))
  | DecodedExecCancel534 m =>
      Some (mkExecReport Cancelled m.(e534_order_id) (decode_cl_ord_id m.(e534_cl_ord_id)) Buy 0 0 0 0 0 0 false
        (wrap_s64 m.(e534_transact_time)))
  | DecodedExecReject523 m =>
      Some (mkExecReport Rejected 0 (decode_cl_ord_id m.(e523_cl_ord_id)) Buy 0 0 0 0 0 0 false (wrap_s64 m.(e523_transact_time)))
  | DecodedCancelReject535 m =>
      Some (mkExecReport CancelRejected m.(x535_order_id) (decode_cl_ord_id m.(x535_cl_ord_id)) Buy 0 0 0 0 0 0 false
        (wrap_s64 m.(x535_transact_time)))
  | _ => None
  end.
Definition decode_response (buf : list Z) : response :=
  match decode_ilink3_message buf with
  | Got d _ => match report_of d with Some r => Reported r | None => NoReport end
  | Failed _ => NoReport
  | OverRead => UndefinedResponse
  end.

Definition codec : ProtocolCodec Ctx :=
  mkCodec _ encode_new_order encode_cancel encode_replace (λ _, decode_response).
End CmeCodec.

(** ** IceCodec *)

Module IceCodec.
Abbreviation Ctx := Fix.EncodeContext.

Definition bump_seq (c : Ctx) : Ctx :=
  mkFixContext c.(sender_comp_id) c.(target_comp_id) c.(fx_symbol) c.(next_exec_id) (wrap_u32 (c.(next_seq_num) + 1)).
Definition new_codec (symbol sender target : list Z) : Ctx := mkFixContext sender target symbol 1 1.

Definition header (type : list Z) (now : Timestamp) (c : Ctx) : list (Z * list Z) :=
  [(35, type); (49, c.(sender_comp_id)); (56, c.(target_comp_id)); (34, decimal c.(next_seq_num));
   (52, format_sending_time now)].

(** Type and time in force are not looked at. *)
Definition new_order_tags (now : Timestamp) (cl_ord_id : Z) (side : Side) (price : Price) (qty : Quantity) (c : Ctx) :=
  header (chars "D") now c ++
  [(11, decimal cl_ord_id); (1, c.(sender_comp_id)); (55, c.(fx_symbol)); (54, [encode_side side]);
   (44, price_to_fix_str price); (38, qty_to_fix_str qty); (40, chars "2"); (59, chars "0")].
Definition encode_new_order (now : Timestamp) (cl_ord_id : Z) (side : Side) (price : Price) (qty : Quantity)
    (type : OrderType) (tif : TimeInForce) (c : Ctx) : option (list Z * Ctx) :=
  Some (assemble_message (append_tags (new_order_tags now cl_ord_id side price qty c)), bump_seq c).

Definition cancel_tags (now : Timestamp) (cl_ord_id order_id : Z) (side : Side) (c : Ctx) :=
  header (chars "F") now c ++
  [(41, decimal cl_ord_id); (11, decimal cl_ord_id); (37, decimal order_id); (55, c.(fx_symbol));
   (54, [encode_side side])].
Definition encode_cancel (now : Timestamp) (cl_ord_id order_id : Z) (side : Side) (c : Ctx) : option (list Z * Ctx) :=
  Some (assemble_message (append_tags (cancel_tags now cl_ord_id order_id side c)), bump_seq c).

Definition replace_tags (now : Timestamp) (cl_ord_id order_id : Z) (side : Side) (new_price : Price) (new_qty : Quantity)
    (c : Ctx) :=
  header (chars "G") now c ++
  [(41, decimal cl_ord_id); (11, decimal cl_ord_id); (37, decimal order_id); (55, c.(fx_symbol));
   (54, [encode_side side]); (44, price_to_fix_str new_price); (38, qty_to_fix_str new_qty); (40, chars "2")].
Definition encode_replace (now : Timestamp) (cl_ord_id order_id : Z) (side : Side) (new_price : Price)
    (new_qty : Quantity) (c : Ctx) : option (list Z * Ctx) :=
  Some (assemble_message (append_tags (replace_tags now cl_ord_id order_id side new_price new_qty c)), bump_seq c).

(** [static_cast<Price>(msg.get_double(tag) * PRICE_SCALE)]. *)
Definition scaled (tag : Z) (m : FixMessage) : option Z := to_int (dmul (get_double tag m) (of_int PRICE_SCALE)).

Definition report_of (now : Timestamp) (m : FixMessage) : option (option ExecReport) :=
  let cl_ord_id := wrap_u64 (get_int 11 m) in
  let order_id := wrap_u64 (get_int 37 m) in
  let side := if get_char 54 m =? 50 then Sell else Buy in
  price ← scaled 44 m;
  let report type price qty fill_price fill_qty leaves cum :=
    Some (Some (mkExecReport type order_id cl_ord_id side price qty fill_price fill_qty leaves cum false now)) in
  match get_char 150 m with
  | 48 => qty ← scaled 38 m; report Accepted price qty 0 0 0 0
  | 49 | 50 =>
      fill_price ← scaled 31 m;
      fill_qty ← scaled 32 m;
      leaves ← scaled 151 m;
      cum ← scaled 14 m;
      report Fill price 0 fill_price fill_qty leaves cum
  | 52 => report Cancelled price 0 0 0 0 0
  | 53 => price ← scaled 44 m; qty ← scaled 38 m; report Replaced price qty 0 0 0 0
  | 56 => report Rejected price 0 0 0 0 0
  | _ => Some None
  end.
Definition decode_response (now : Timestamp) (buf : list Z) : response :=
  match parse_fix_message buf with
  | ParseErr _ => NoReport
  | ParseOk m =>
      if bool_decide (m.(msg_type) = chars "8") then
        match report_of now m with
        | None => UndefinedResponse
        | Some None => NoReport
        | Some (Some r) => Reported r
        end
      else NoReport
  end.

Definition codec : ProtocolCodec Ctx :=
  mkCodec _ encode_new_order encode_cancel encode_replace decode_response.
End IceCodec.

(** ** SimClient *)

Record OpenOrder : Type := mkOpenOrder {
  oo_cl_ord_id : Z; oo_side : Side; oo_price : Price; oo_qty : Quantity; oo_created_at : Timestamp
}.

Record SimClient (C : Type) : Type := mkClient {
  cl_codec : C;
  orders : gmap Z OpenOrder;
  pending_orders : gmap Z OpenOrder;
  order_id_map : gmap Z Z;
  position : Z;
  realized_pnl : Z;
  avg_buy_price : Price;
  avg_sell_price : Price;
  last_fill_price : Price;
  fill_count : Z;
  decode_errors : Z
}.
Arguments mkClient {C}.
Arguments cl_codec {C}.
Arguments orders {C}.
Arguments pending_orders {C}.
Arguments order_id_map {C}.
Arguments position {C}.
Arguments realized_pnl {C}.
Arguments avg_buy_price {C}.
Arguments avg_sell_price {C}.
Arguments last_fill_price {C}.
Arguments fill_count {C}.
Arguments decode_errors {C}.

Section client.
Context {C : Type} (codec : ProtocolCodec C).
Implicit Types (s : SimClient C) (now : Timestamp).

Definition new_client (c : C) : SimClient C := mkClient c ∅ ∅ ∅ 0 0 0 0 0 0 0.
Definition set_codec (v : C) s : SimClient C :=
  mkClient v s.(orders) s.(pending_orders) s.(order_id_map) s.(position) s.(realized_pnl) s.(avg_buy_price)
    s.(avg_sell_price) s.(last_fill_price) s.(fill_count) s.(decode_errors).
Definition set_open_orders (v : gmap Z OpenOrder) s : SimClient C :=
  mkClient s.(cl_codec) v s.(pending_orders) s.(order_id_map) s.(position) s.(realized_pnl) s.(avg_buy_price)
    s.(avg_sell_price) s.(last_fill_price) s.(fill_count) s.(decode_errors).
Definition set_pending_orders (v : gmap Z OpenOrder) s : SimClient C :=
  mkClient s.(cl_codec) s.(orders) v s.(order_id_map) s.(position) s.(realized_pnl) s.(avg_buy_price)
    s.(avg_sell_price) s.(last_fill_price) s.(fill_count) s.(decode_errors).
Definition set_order_id_map (v : gmap Z Z) s : SimClient C :=
  mkClient s.(cl_codec) s.(orders) s.(pending_orders) v s.(position) s.(realized_pnl) s.(avg_buy_price)
    s.(avg_sell_price) s.(last_fill_price) s.(fill_count) s.(decode_errors).
Definition set_book (pos pnl avg_buy avg_sell : Z) s : SimClient C :=
  mkClient s.(cl_codec) s.(orders) s.(pending_orders) s.(order_id_map) pos pnl avg_buy avg_sell
    s.(last_fill_price) s.(fill_count) s.(decode_errors).
Definition count_fill (price : Price) s : SimClient C :=
  mkClient s.(cl_codec) s.(orders) s.(pending_orders) s.(order_id_map) s.(position) s.(realized_pnl) s.(avg_buy_price)
    s.(avg_sell_price) price (wrap_u32 (s.(fill_count) + 1)) s.(decode_errors).
Definition count_decode_error s : SimClient C :=
  mkClient s.(cl_codec) s.(orders) s.(pending_orders) s.(order_id_map) s.(position) s.(realized_pnl) s.(avg_buy_price)
    s.(avg_sell_price) s.(last_fill_price) s.(fill_count) (wrap_u32 (s.(decode_errors) + 1)).

(** [char send_buf_[2048]]: a longer message overruns it. *)
Definition send_buf_size : nat := 2048.

(** Encode and send: whether it went out, the bytes and the client; [None] where
    the encoder or the buffer is left undefined. *)
Definition transmit (encoded : option (list Z * C)) (sent : bool) s : option (bool * list Z * SimClient C) :=
  '(bs, c) ← encoded;
  if (send_buf_size <? length bs)%nat then None
  else if (length bs =? 0)%nat then Some (false, [], set_codec c s)
  else Some (sent, bs, set_codec c s).

Definition send_new_order now (cl_ord_id : Z) (side : Side) (price : Price) (qty : Quantity) (type : OrderType)
    (tif : TimeInForce) (sent : bool) s : option (bool * list Z * SimClient C) :=
  '(ok, bs, s) ← transmit (codec.(codec_new_order) now cl_ord_id side price qty type tif s.(cl_codec)) sent s;
  if negb ok then Some (false, bs, s)
  else Some (true, bs, set_pending_orders (<[cl_ord_id := mkOpenOrder cl_ord_id side price qty now]> s.(pending_orders)) s).

(** [order_id_map_[id]] creates a zero entry for an unknown order. *)
Definition mapped_order_id (cl_ord_id : Z) s : Z * SimClient C :=
  match s.(order_id_map) !! cl_ord_id with
  | Some id => (id, s)
  | None => (0, set_order_id_map (<[cl_ord_id := 0]> s.(order_id_map)) s)
  end.

Definition send_cancel now (cl_ord_id : Z) (sent : bool) s : option (bool * list Z * SimClient C) :=
  match (match s.(orders) !! cl_ord_id with Some o => Some o | None => s.(pending_orders) !! cl_ord_id end) with
  | None => Some (false, [], s)
  | Some order =>
      let '(order_id, s) := mapped_order_id cl_ord_id s in
      transmit (codec.(codec_cancel) now cl_ord_id order_id order.(oo_side) s.(cl_codec)) sent s
  end.

Definition send_replace now (orig_cl_ord_id new_cl_ord_id : Z) (new_price : Price) (new_qty : Quantity) (sent : bool) s
    : option (bool * list Z * SimClient C) :=
  match s.(orders) !! orig_cl_ord_id with
  | None => Some (false, [], s)
  | Some order =>
      let '(order_id, s) := mapped_order_id orig_cl_ord_id s in
      '(ok, bs, s) ← transmit (codec.(codec_replace) now new_cl_ord_id order_id order.(oo_side) new_price new_qty s.(cl_codec)) sent s;
      if negb ok then Some (false, bs, s)
      else Some (true, bs, set_pending_orders
             (<[new_cl_ord_id := mkOpenOrder new_cl_ord_id order.(oo_side) new_price new_qty order.(oo_created_at)]>
                s.(pending_orders)) s)
  end.

(** The fill of a known order: position, realised profit, last prices. *)
Definition book_fill (side : Side) (fill_price : Price) (fill_qty : Quantity) s : SimClient C :=
  let fill_lots := Z.quot fill_qty PRICE_SCALE in
  match side with
  | Buy =>
      let covered := Z.min (fill_lots * PRICE_SCALE) (- s.(position)) in
      let pnl := if s.(position) <? 0
                 then s.(realized_pnl) + (s.(avg_sell_price) - fill_price) * Z.quot covered PRICE_SCALE
                 else s.(realized_pnl) in
      set_book (s.(position) + fill_qty) pnl fill_price s.(avg_sell_price) s
  | Sell =>
      let covered := Z.min (fill_lots * PRICE_SCALE) s.(position) in
      let pnl := if s.(position) >? 0
                 then s.(realized_pnl) + (fill_price - s.(avg_buy_price)) * Z.quot covered PRICE_SCALE
                 else s.(realized_pnl) in
      set_book (s.(position) - fill_qty) pnl s.(avg_buy_price) fill_price s
  end.

Definition handle_exec_report (r : ExecReport) s : SimClient C :=
  match r.(er_type) with
  | Accepted =>
      let s :=
        match s.(pending_orders) !! r.(er_cl_ord_id) with
        | Some o =>
            set_pending_orders (delete r.(er_cl_ord_id) s.(pending_orders))
              (set_open_orders (<[r.(er_cl_ord_id) := o]> s.(orders)) s)
        | None => s
        end in
      set_order_id_map (<[r.(er_cl_ord_id) := r.(er_order_id)]> s.(order_id_map)) s
  | Fill =>
      let s :=
        match s.(orders) !! r.(er_cl_ord_id) with
        | Some o =>
            let s := book_fill o.(oo_side) r.(er_fill_price) r.(er_fill_qty) s in
            if r.(er_leaves_qty) =? 0 then set_open_orders (delete r.(er_cl_ord_id) s.(orders)) s else s
        | None => s
        end in
      count_fill r.(er_fill_price) s
  | Cancelled => set_open_orders (delete r.(er_cl_ord_id) s.(orders)) s
  | Rejected => set_pending_orders (delete r.(er_cl_ord_id) s.(pending_orders)) s
  | CancelRejected | Replaced => s
  end.

(** [poll_responses], once a message has arrived. *)
Definition on_response now (msg : list Z) s : option (SimClient C) :=
  match codec.(codec_response) now msg with
  | UndefinedResponse => None
  | NoReport => Some (count_decode_error s)
  | Reported r => Some (handle_exec_report r s)
  end.
Fixpoint poll_responses (msgs : list (Timestamp * list Z)) (count : Z) s : option (Z * SimClient C) :=
  match msgs with
  | [] => Some (count, s)
  | (now, msg) :: msgs' =>
      match msg with
      | [] => Some (count, s)
      | _ =>
          match codec.(codec_response) now msg with
          | UndefinedResponse => None
          | NoReport => poll_responses msgs' count (count_decode_error s)
          | Reported r => poll_responses msgs' (count + 1) (handle_exec_report r s)
          end
      end
  end.

(** [cancel_all_open]: every open order, in the order of the map; whether each
    was sent, by its id. *)
Fixpoint cancel_each now (sent : Z → bool) (ids : list Z) s : option (list (list Z) * SimClient C) :=
  match ids with
  | [] => Some ([], s)
  | id :: ids' =>
      '(_, bs, s) ← send_cancel now id (sent id) s;
      '(rest, s) ← cancel_each now sent ids' s;
      Some (bs :: rest, s)
  end.
Definition cancel_all_open {iteration : Iteration} now (sent : Z → bool) s : option (list (list Z) * SimClient C) :=
  cancel_each now sent (visit (dom s.(orders))) s.

(** [sync_state]: what a strategy sees. *)
Record ClientState : Type := mkClientState {
  st_open_orders : gmap Z OpenOrder; st_position : Z; st_realized_pnl : Z; st_last_fill_price : Price;
  st_fill_count : Z; st_now : Timestamp
}.
Definition sync_state now s : ClientState :=
  mkClientState s.(orders) s.(position) s.(realized_pnl) s.(last_fill_price) s.(fill_count) now.
End client.

(** The average prices are the last ones: two lots bought at 100 and 102 and sold
    at 103 made four, the client books two. *)
Example profit_from_last_price :
  let s0 := new_client () in
  let s1 := book_fill Buy 1000000 10000 s0 in
  let s2 := book_fill Buy 1020000 10000 s1 in
  (book_fill Sell 1030000 20000 s2).(realized_pnl) = 2 * 10000.
Proof. vm_compute. reflexivity. Qed.
