(* ===== verification/FixDelivery.v ===== *)
(** * FIX 4.2: from end to end

    What the client sends, the gateways hand to the engine; what the publishers
    report, the client reads. *)

From Stdlib Require Import Ascii String SpecFloat Rbase Rfunctions Lra.
From S2P Require Import Prelude Types Wire Doubles Text ExchangeSimulator SimClient Fix FixGateway FixTheorems.

#[local] Open Scope Z_scope.

(** ** Values that can be written *)

(** Free of SOH, and no longer than [n]. *)
Definition text_within (n : Z) (v : list Z) : Prop := SOH ∉ v ∧ Z.of_nat (length v) <= n.
#[global] Instance text_within_dec n v : Decision (text_within n v).
Proof. unfold text_within. apply _. Defined.
Definition value_ok : list Z → Prop := text_within (2 ^ 40).

Lemma text_within_app n k v w : text_within n v → text_within k w → text_within (n + k) (v ++ w).
Proof.
  intros [Hv Hn] [Hw Hk]. split; [|rewrite length_app; lia]. intros [H|H]%elem_of_app; [by apply Hv|by apply Hw].
Qed.
Lemma text_within_le n k v : text_within n v → n <= k → text_within k v.
Proof. intros [Hv Hn] Hk. split; [done|lia]. Qed.
Lemma digits_within n ds : all_digits ds → Z.of_nat (length ds) <= n → text_within n ds.
Proof. intros Hd Hl. split; [|done]. apply digits_no_char; [done|]. unfold SOH. lia. Qed.

Lemma decimal_within v k : 0 <= v < 10 ^ Z.of_nat (S k) → text_within (Z.of_nat (S k)) (decimal v).
Proof. intros H. apply digits_within; [apply decimal_digits; lia|]. pose proof (length_decimal v k H). lia. Qed.
Lemma padded_within w v k : 0 <= v < 10 ^ Z.of_nat (S k) → (w <= S k)%nat → text_within (Z.of_nat (S k)) (zero_padded w v).
Proof.
  intros H Hw. apply digits_within; [apply zero_padded_digits; lia|]. pose proof (length_decimal v k H).
  unfold zero_padded. rewrite length_app, length_replicate. lia.
Qed.
Lemma decimal_value_ok v : in_uint64 v → value_ok (decimal v).
Proof.
  unfold in_uint64, uint64_mod. intros H. eapply text_within_le; [apply (decimal_within v 19)|]; lia.
Qed.

(** Prices and quantities that fit 64 bits, and sums of them. *)
Definition printable (p : Z) : Prop := Z.abs p < 10 ^ 30.
Lemma printable_int64 p : in_int64 p → printable p.
Proof. unfold in_int64, int64_min, int64_max, printable. lia. Qed.

Lemma price_text_ok p : printable p → value_ok (price_to_fix_str p).
Proof.
  unfold printable, price_to_fix_str, PRICE_SCALE. intros Hp.
  pose proof (Z.quot_rem' (Z.abs p) 10000). pose proof (Z.rem_bound_pos (Z.abs p) 10000 ltac:(lia) ltac:(lia)) as Hr.
  pose proof (Z.quot_pos (Z.abs p) 10000 ltac:(lia) ltac:(lia)) as Hq.
  apply (text_within_le (1 + (30 + (1 + 4)))); [|lia]. apply text_within_app; [by destruct (p <? 0); apply (bool_decide_unpack _)|].
  apply text_within_app; [by apply (decimal_within _ 29); lia|].
  apply text_within_app; [by apply (bool_decide_unpack _)|by apply (padded_within 4 _ 3); lia].
Qed.

(** ** Times *)

(** Bounds enough for the width of the text. *)
Lemma civil_ranges days : - 719468 <= days →
  let '(y, m, d) := civil_from_days days in
  0 <= y <= (days + 719468) / 146097 * 400 + 402 ∧ 0 <= m <= 20 ∧ 1 <= d <= 32.
Proof.
  intros Hd. unfold civil_from_days. set (z := days + 719468).
  pose proof (Z.div_mod z 146097 ltac:(lia)) as Hz. pose proof (Z.mod_pos_bound z 146097 ltac:(lia)) as Hm.
  assert (He : 0 <= z / 146097) by (apply Z.div_pos; lia).
  replace (z - z / 146097 * 146097) with (z mod 146097) by lia.
  generalize dependent (z mod 146097). intros doe _ Hdoe. generalize dependent (z / 146097). intros era He.
  set (yoe := (_ - doe / 146096) / 365). assert (Hy : 0 <= yoe <= 401) by (unfold yoe; Z.div_mod_to_equations; lia).
  set (doy := doe - (365 * yoe + yoe / 4 - yoe / 100)).
  assert (Hdoy : -20 <= doy <= 420) by (unfold doy, yoe; Z.div_mod_to_equations; lia). clearbody yoe doy.
  set (mp := (5 * doy + 2) / 153). assert (Hmp : -1 <= mp <= 14) by (unfold mp; Z.div_mod_to_equations; lia).
  split; [destruct (Z.leb_spec (if mp <? 10 then mp + 3 else mp - 9) 2); lia|]. split; [destruct (Z.ltb_spec mp 10); lia|]. unfold mp. Z.div_mod_to_equations. lia.
Qed.

Lemma sending_time_ok ts : in_int64 ts → value_ok (format_sending_time ts).
Proof.
  unfold in_int64, int64_min, int64_max. intros Hts. unfold format_sending_time.
  set (secs := Z.quot ts 1000000000).
  assert (Hs : - 9223372037 <= secs <= 9223372037).
  { pose proof (Z.quot_rem' ts 1000000000) as E. pose proof (Z.rem_bound_abs ts 1000000000 ltac:(lia)) as Hr.
    fold secs in E. clearbody secs.
    generalize dependent (Z.rem ts 1000000000). intros r E Hr. lia. }
  pose proof (civil_ranges (secs / 86400)) as Hc. destruct (civil_from_days (secs / 86400)) as [[y m] d] eqn:E.
  destruct Hc as (Hy & Hm & Hd); [apply Z.div_le_lower_bound; lia|].
  assert (Hdays : secs / 86400 <= 106752) by (apply Z.div_le_upper_bound; lia).
  assert ((secs / 86400 + 719468) / 146097 <= 6) by (apply Z.div_le_upper_bound; lia).
  pose proof (Z.mod_pos_bound secs 86400 ltac:(lia)) as Hsec. set (s := secs mod 86400) in *.
  pose proof (Z.mod_pos_bound (s / 60) 60 ltac:(lia)). pose proof (Z.mod_pos_bound s 60 ltac:(lia)).
  assert (Hh : 0 <= s / 3600 <= 24) by (split; [apply Z.div_pos; lia|apply Z.div_le_upper_bound; lia]).
  apply (text_within_le (6 + (2 + (2 + (1 + (2 + (1 + (2 + (1 + 2))))))))); [|lia].
  repeat first [apply text_within_app | apply (bool_decide_unpack _); done];
    first [apply (padded_within 4 _ 5); lia | apply (padded_within 2 _ 1); lia].
Qed.

(** ** Messages of such values *)

Definition tags_ok (kvs : list (Z * list Z)) : Prop := Forall (λ kv, in_int32 kv.1 ∧ value_ok kv.2) kvs ∧ Z.of_nat (length kvs) <= 100.

Lemma signed_decimal_within v : in_int32 v → text_within 12 (signed_decimal v).
Proof.
  unfold in_int32. intros Hv. unfold signed_decimal. destruct (Z.ltb_spec v 0).
  - apply (text_within_le (1 + 10)); [|lia]. apply (text_within_app 1 10 [45]); [by apply (bool_decide_unpack _)|apply (decimal_within _ 9); lia].
  - apply (text_within_le 10); [|lia]. apply (decimal_within _ 9). lia.
Qed.
Lemma append_tags_length kvs : Forall (λ kv, in_int32 kv.1 ∧ value_ok kv.2) kvs →
  Z.of_nat (length (append_tags kvs)) <= Z.of_nat (length kvs) * 2 ^ 41.
Proof.
  induction 1 as [|[tag value] kvs [Ht Hv] _ IH]; cbn [append_tags length fst snd] in *; [lia|].
  apply signed_decimal_within in Ht as [_ Ht]. destruct Hv as [_ Hv].
  unfold append_tag. rewrite !length_app. cbn [length]. lia.
Qed.
Lemma parse_tags kvs : tags_ok kvs → last_type kvs [] ≠ [] →
  parse_fix_message (assemble_message (append_tags kvs)) = ParseOk (message_of kvs empty_message).
Proof.
  intros [Hk Hn] Ht. pose proof (append_tags_length kvs Hk) as Hl. apply parse_assembled.
  - eapply Forall_impl; [exact Hk|]. intros kv [H1 H2]. split; [done|apply H2].
  - unfold int64_max. lia.
  - by rewrite message_type.
Qed.

Definition context_ok (c : EncodeContext) : Prop :=
  value_ok c.(sender_comp_id) ∧ value_ok c.(target_comp_id) ∧ value_ok c.(fx_symbol) ∧
  in_uint64 c.(next_exec_id) ∧ in_uint64 c.(next_seq_num).

Lemma bump_ids_ok c : context_ok c → context_ok (bump_ids c).
Proof.
  intros (H1 & H2 & H3 & _ & _). unfold bump_ids. split_and!; cbn; try done.
  - by apply Z.mod_pos_bound.
  - apply in_uint32_64, wrap_u32_range.
Qed.

Create HintDb fix_values discriminated.
#[export] Hint Resolve decimal_value_ok sending_time_ok price_text_ok printable_int64 : fix_values.

Ltac solve_tags :=
  split; [repeat (apply Forall_cons; split; [split; [cbn [fst]; unfold in_int32; lia|cbn [snd]]|]); [..|by apply Forall_nil]|cbn [length app]; lia].

(** ** From the client to the engine *)

Lemma fix_id_decimal id : 0 <= id <= int64_max → fix_id (decimal id) = id.
Proof.
  intros H. unfold fix_id. rewrite strtoll_decimal by lia. rewrite Z.min_r by lia. apply wrap_u64_id.
  unfold in_uint64, uint64_mod. unfold int64_max in H. lia.
Qed.
Lemma decimal_cons v : 0 <= v → ∃ c cs, decimal v = c :: cs.
Proof. intros Hv. destruct (decimal v) as [|c cs] eqn:E; [by apply decimal_not_nil in E|by exists c, cs]. Qed.
Lemma price_cons p : ∃ c cs, price_to_fix_str p = c :: cs.
Proof.
  unfold price_to_fix_str. destruct (p <? 0); cbn [app]; [by eexists _, _|].
  destruct (decimal_cons (Z.quot (Z.abs p) PRICE_SCALE)) as (c & cs & ->); [unfold PRICE_SCALE; apply Z.quot_pos; lia|].
  by exists c, (cs ++ [46] ++ zero_padded 4 (Z.rem (Z.abs p) PRICE_SCALE)).
Qed.

(** What the two gateways make of a message that parses. *)
Lemma ice_on_message bs ts m : parse_fix_message bs = ParseOk m →
  IceFix.on_message bs ts =
    if bool_decide (m.(msg_type) = chars "D") then IceFix.handle_new_order m ts
    else if bool_decide (m.(msg_type) = chars "F") then Some (handle_cancel m ts)
    else if bool_decide (m.(msg_type) = chars "G") then handle_replace m ts
    else Some (GatewayOk None).
Proof. unfold IceFix.on_message. by intros ->. Qed.
Lemma krx_on_message bs ts m g : parse_fix_message bs = ParseOk m →
  KrxFix.on_message bs ts g =
    if bool_decide (m.(msg_type) = chars "D") then KrxFix.handle_new_order m ts g
    else if bool_decide (m.(msg_type) = chars "F") then Some (handle_cancel m ts, g)
    else if bool_decide (m.(msg_type) = chars "G") then r ← handle_replace m ts; Some (r, g)
    else Some (GatewayOk None, g).
Proof. unfold KrxFix.on_message. by intros ->. Qed.

Section client.
Context (now ts : Timestamp) (c : EncodeContext).
Hypothesis Hc : context_ok c.
Hypothesis Hnow : in_int64 now.

Lemma client_header_ok type kvs : value_ok type → tags_ok kvs → Z.of_nat (length kvs) <= 90 →
  tags_ok (IceCodec.header type now c ++ kvs).
Proof using Hc Hnow.
  destruct Hc as (H1 & H2 & H3 & H4 & H5). intros Ht [Hk _] Hl. split.
  - apply Forall_app. split; [|done]. unfold IceCodec.header.
    repeat (apply Forall_cons; split; [split; [cbn [fst]; unfold in_int32; lia|cbn [snd]; eauto with fix_values]|]).
    apply Forall_nil. done.
  - rewrite length_app. cbn [length IceCodec.header]. lia.
Qed.

Lemma client_type type kvs : last_type kvs [] = [] → last_type (IceCodec.header type now c ++ kvs) [] = last_type kvs type.
Proof using Type. done. Qed.

(** Ids that strtoll reads, and prices that survive the detour over doubles. *)
Definition id_ok (id : Z) : Prop := 0 <= id <= int64_max.
Definition exact_price (p : Z) : Prop := Z.abs p <= 2 ^ 50.

Lemma id_text_ok id : id_ok id → value_ok (decimal id).
Proof using Type. intros Hid. apply decimal_value_ok. unfold id_ok, int64_max in Hid. unfold in_uint64, uint64_mod. lia. Qed.
Lemma side_text_ok side : value_ok [encode_side side].
Proof using Type. by destruct side; apply (bool_decide_unpack _). Qed.
Lemma bounded_printable p : exact_price p → printable p.
Proof using Type. unfold exact_price, printable. lia. Qed.
#[local] Hint Resolve id_text_ok side_text_ok bounded_printable : fix_values.

Lemma new_order_tags_ok id side price qty : id_ok id → exact_price price → exact_price qty →
  tags_ok (IceCodec.new_order_tags now id side price qty c).
Proof using Hc Hnow.
  intros Hid Hp Hq. pose proof Hc as (H1 & _ & H3 & _). apply client_header_ok; [by apply (bool_decide_unpack _)| |cbn; lia].
  solve_tags; eauto with fix_values; by apply (bool_decide_unpack _).
Qed.
Lemma cancel_tags_ok id order_id side : id_ok id → in_uint64 order_id → tags_ok (IceCodec.cancel_tags now id order_id side c).
Proof using Hc Hnow.
  intros Hid Ho. pose proof Hc as (H1 & _ & H3 & _). apply client_header_ok; [by apply (bool_decide_unpack _)| |cbn; lia].
  solve_tags; eauto with fix_values.
Qed.
Lemma replace_tags_ok id order_id side price qty : id_ok id → in_uint64 order_id → exact_price price → exact_price qty →
  tags_ok (IceCodec.replace_tags now id order_id side price qty c).
Proof using Hc Hnow.
  intros Hid Ho Hp Hq. pose proof Hc as (H1 & _ & H3 & _). apply client_header_ok; [by apply (bool_decide_unpack _)| |cbn; lia].
  solve_tags; eauto with fix_values; by apply (bool_decide_unpack _).
Qed.

(** The calls: the new order as it was sent, the other two with the client's
    id in the place of the engine's. *)
Definition placed (id : Z) (side : Side) (price : Price) (qty : Quantity) : engine_call :=
  CallNewOrder (mkRequest id (fix_id c.(sender_comp_id)) side Limit DAY price qty 0 ts 0 0 false).

Lemma account_id : match c.(sender_comp_id) with [] => 0 | _ => fix_id c.(sender_comp_id) end = fix_id c.(sender_comp_id).
Proof using Type. by destruct c.(sender_comp_id). Qed.

Lemma order_request_new id side price qty m : id_ok id → exact_price price → exact_price qty →
  get_string 44 m = price_to_fix_str price → get_string 38 m = qty_to_fix_str qty → get_string 111 m = [] →
  order_request (decimal id) c.(sender_comp_id) side Limit DAY m ts =
    Some (mkRequest id (fix_id c.(sender_comp_id)) side Limit DAY price qty 0 ts 0 0 false).
Proof using Type.
  intros Hid Hp Hq E1 E2 E3. unfold order_request. rewrite E1, E2, E3, price_roundtrip by done.
  cbn [mbind option_bind]. change (fix_qty_to_engine (qty_to_fix_str qty)) with (fix_price_to_engine (price_to_fix_str qty)).
  rewrite price_roundtrip by done. cbn [mbind option_bind fix_qty_to_engine].
  by rewrite fix_id_decimal, account_id by done.
Qed.

Lemma new_order_handled id side price qty g : id_ok id → exact_price price → exact_price qty →
  let m := message_of (IceCodec.new_order_tags now id side price qty c) empty_message in
  IceFix.handle_new_order m ts = Some (GatewayOk (Some (placed id side price qty))) ∧
  KrxFix.handle_new_order m ts g = Some (GatewayOk (Some (placed id side price qty)), KrxFix.mkKrxGateway false []).
Proof using Type.
  intros Hid Hp Hq m.
  assert (H11 : get_string 11 m = decimal id) by (unfold m; by rewrite get_string_message).
  assert (H1 : get_string 1 m = c.(sender_comp_id)) by (unfold m; by rewrite get_string_message).
  assert (H44 : get_string 44 m = price_to_fix_str price) by (unfold m; by rewrite get_string_message).
  assert (H38 : get_string 38 m = qty_to_fix_str qty) by (unfold m; by rewrite get_string_message).
  assert (H111 : get_string 111 m = []) by (unfold m; by rewrite get_string_message).
  assert (H5003 : get_string 5003 m = []) by (unfold m; by rewrite get_string_message).
  assert (H54 : get_char 54 m = encode_side side) by (unfold m; by rewrite get_char_message).
  assert (H40 : get_char 40 m = 50) by (unfold m; by rewrite get_char_message).
  assert (H59 : get_char 59 m = 48) by (unfold m; by rewrite get_char_message).
  assert (H5001 : get_char 5001 m = 0) by (unfold m; by rewrite get_char_message).
  clearbody m. destruct (decimal_cons id) as (a & l & E); [apply Hid|].
  unfold IceFix.handle_new_order, KrxFix.handle_new_order, new_order_from_fix, KrxFix.from_fix.
  cbn [n_cl_ord_id n_account n_side n_ord_type n_time_in_force KrxFix.k_order KrxFix.k_program_trading KrxFix.k_board_id].
  rewrite H11, H1, H54, H40, H59, H5001, H5003, E, <- E.
  assert (Hs : fix_to_side (encode_side side) = Some side) by (by destruct side). rewrite Hs. cbn [fix_to_order_type fix_to_tif].
  by rewrite (order_request_new id side price qty) by done.
Qed.

Lemma cancel_handled id order_id side : id_ok id →
  handle_cancel (message_of (IceCodec.cancel_tags now id order_id side c) empty_message) ts =
    GatewayOk (Some (CallCancelOrder id ts)).
Proof using Type.
  intros Hid. unfold handle_cancel, cancel_from_fix. cbn [c_orig_cl_ord_id]. rewrite !get_string_message.
  destruct (decimal_cons id) as (a & l & E); [apply Hid|].
  change (default [] _) with (decimal id). by rewrite E, <- E, fix_id_decimal.
Qed.
Lemma replace_handled id order_id side price qty : id_ok id → exact_price price → exact_price qty →
  handle_replace (message_of (IceCodec.replace_tags now id order_id side price qty c) empty_message) ts =
    Some (GatewayOk (Some (CallModifyOrder (mkModify id id price qty ts)))).
Proof using Type.
  intros Hid Hp Hq. set (m := message_of _ _).
  assert (H41 : get_string 41 m = decimal id) by (unfold m; by rewrite get_string_message).
  assert (H11 : get_string 11 m = decimal id) by (unfold m; by rewrite get_string_message).
  assert (H44 : get_string 44 m = price_to_fix_str price) by (unfold m; by rewrite get_string_message).
  assert (H38 : get_string 38 m = qty_to_fix_str qty) by (unfold m; by rewrite get_string_message).
  clearbody m. destruct (decimal_cons id) as (a & l & E); [apply Hid|].
  unfold handle_replace, replace_from_fix. cbn [g_orig_cl_ord_id g_cl_ord_id]. rewrite H41, E, <- E, H11.
  unfold modify_request. rewrite H44, H38, price_roundtrip by done. cbn [mbind option_bind].
  change (fix_qty_to_engine (qty_to_fix_str qty)) with (fix_price_to_engine (price_to_fix_str qty)).
  rewrite price_roundtrip by done. cbn [mbind option_bind]. by rewrite fix_id_decimal.
Qed.

End client.

(** C26: Orders that the FIX client sends, with ids below 2^63 and prices and
    quantities up to 2^50 units, reach the engines of both venues exactly: a new
    order as a day limit order of the account that the sender id spells, whatever
    type and time in force were asked for; a cancel or replace as a call for the
    order whose *engine* id is the *client's* id, whatever engine id the client
    passed. *)
Theorem fix_order_entry_delivers now ts c g id order_id side price qty type tif :
  context_ok c → in_int64 now → id_ok id → in_uint64 order_id → exact_price price → exact_price qty →
  (∃ bs, IceCodec.encode_new_order now id side price qty type tif c = Some (bs, IceCodec.bump_seq c) ∧
     let call := CallNewOrder (mkRequest id (fix_id c.(sender_comp_id)) side Limit DAY price qty 0 ts 0 0 false) in
     IceFix.on_message bs ts = Some (GatewayOk (Some call)) ∧
     KrxFix.on_message bs ts g = Some (GatewayOk (Some call), KrxFix.mkKrxGateway false [])) ∧
  (∃ bs, IceCodec.encode_cancel now id order_id side c = Some (bs, IceCodec.bump_seq c) ∧
     let call := CallCancelOrder id ts in
     IceFix.on_message bs ts = Some (GatewayOk (Some call)) ∧
     KrxFix.on_message bs ts g = Some (GatewayOk (Some call), g)) ∧
  (∃ bs, IceCodec.encode_replace now id order_id side price qty c = Some (bs, IceCodec.bump_seq c) ∧
     let call := CallModifyOrder (mkModify id id price qty ts) in
     IceFix.on_message bs ts = Some (GatewayOk (Some call)) ∧
     KrxFix.on_message bs ts g = Some (GatewayOk (Some call), g)).
Proof.
  intros Hc Hnow Hid Ho Hp Hq. split; [|split]; eexists; (split; [reflexivity|]); cbn zeta.
  - pose proof (parse_tags _ (new_order_tags_ok now c Hc Hnow id side price qty Hid Hp Hq) ltac:(done)) as E.
    rewrite (ice_on_message _ _ _ E), (krx_on_message _ _ _ g E), message_type.
    by apply (new_order_handled now ts c id side price qty g).
  - pose proof (parse_tags _ (cancel_tags_ok now c Hc Hnow id order_id side Hid Ho) ltac:(done)) as E.
    rewrite (ice_on_message _ _ _ E), (krx_on_message _ _ _ g E), message_type, (cancel_handled now ts c) by done.
    done.
  - pose proof (parse_tags _ (replace_tags_ok now c Hc Hnow id order_id side price qty Hid Ho Hp Hq) ltac:(done)) as E.
    rewrite (ice_on_message _ _ _ E), (krx_on_message _ _ _ g E), message_type, (replace_handled now ts c) by done.
    done.
Qed.
Lemma fix_order_entry_delivers_witness :
  let c := IceCodec.new_codec (chars "B") (chars "1001") (chars "EXCHANGE") in
  ∃ bs, IceCodec.encode_cancel 1700000000000000000 7 42 Buy c = Some (bs, IceCodec.bump_seq c) ∧
    IceFix.on_message bs 5 = Some (GatewayOk (Some (CallCancelOrder 7 5))) ∧
    KrxFix.on_message bs 5 KrxFix.new_gateway = Some (GatewayOk (Some (CallCancelOrder 7 5)), KrxFix.new_gateway).
Proof.
  apply (fix_order_entry_delivers 1700000000000000000 5 (IceCodec.new_codec (chars "B") (chars "1001") (chars "EXCHANGE"))
    KrxFix.new_gateway 7 42 Buy 455000 10000 Limit DAY); apply (bool_decide_unpack _); done.
Defined.

(** ** Execution reports *)

Section report.
Context (ts : Timestamp) (c : EncodeContext).
Hypothesis Hc : context_ok c.
Hypothesis Hts : in_int64 ts.

Lemma report_parses kvs : tags_ok kvs → Z.of_nat (length kvs) <= 90 → last_type kvs (chars "8") = chars "8" →
  parse_fix_message (assemble_message (append_tags (exec_header ts c ++ kvs))) =
    ParseOk (message_of (exec_header ts c ++ kvs) empty_message).
Proof using Hc Hts.
  intros [Hk _] Hl Ht. destruct Hc as (H1 & H2 & H3 & H4 & H5). apply parse_tags.
  2: { assert (last_type (exec_header ts c ++ kvs) [] = last_type kvs (chars "8")) as -> by done. by rewrite Ht. }
  split; [|rewrite length_app; cbn [length exec_header]; lia]. apply Forall_app. split; [|done]. unfold exec_header.
  repeat (apply Forall_cons; split; [split; [cbn [fst]; unfold in_int32; lia|cbn [snd]; eauto with fix_values]|]).
  2: by apply Forall_nil. by apply (bool_decide_unpack _).
Qed.
End report.

(** Values whose sums with a few others stay within 64 bits. *)
Definition small (v : Z) : Prop := Z.abs v <= 2 ^ 61.
Record reportable (o : Order) : Prop := {
  rep_id : in_uint64 o.(o_id);
  rep_client_id : in_uint64 o.(o_client_order_id);
  rep_price : small o.(o_price);
  rep_quantity : small o.(o_quantity);
  rep_filled : small o.(o_filled_quantity)
}.

Lemma small_printable v : Z.abs v <= 2 ^ 64 → printable v.
Proof. unfold printable. lia. Qed.

(** What every report is: of type 8, with the numbers of its context. *)
Definition numbered (seq exec : Z) (bs : list Z) : Prop :=
  ∃ m, parse_fix_message bs = ParseOk m ∧ m.(msg_type) = chars "8" ∧
    get_string 34 m = decimal seq ∧ get_string 17 m = decimal exec.
Definition reports (encode : EncodeContext → list Z) : Prop :=
  ∀ c, context_ok c → numbered c.(next_seq_num) c.(next_exec_id) (encode c).

Ltac solve_value :=
  lazymatch goal with
  | |- value_ok (decimal _) => apply decimal_value_ok; done
  | |- value_ok (price_to_fix_str _) => apply price_text_ok, small_printable; unfold small in *; lia
  | |- value_ok (qty_to_fix_str _) => apply price_text_ok, small_printable; unfold small in *; lia
  | |- value_ok [encode_side _] => apply side_text_ok
  | |- value_ok ?v => first [assumption | apply (bool_decide_unpack _); done]
  end.
Ltac solve_report :=
  let Hc := fresh "Hc" in
  intros Hc; pose proof Hc as (? & ? & ? & ? & ?);
  eexists; split; [apply report_parses; [done|done| |cbn; lia|done]|
    split; [by rewrite message_type|split; by rewrite get_string_message]];
  solve_tags; solve_value.

Lemma exec_new_reports id cid ts o : in_uint64 id → in_uint64 cid → in_int64 ts → reportable o →
  reports (encode_exec_new id cid ts o).
Proof. intros Hid Hcid Hts [] c. unfold encode_exec_new. solve_report. Qed.
Lemma exec_fill_reports price qty ts o : small price → small qty → in_int64 ts → reportable o →
  reports (encode_exec_fill price qty ts o).
Proof. intros Hp Hq Hts [] c. unfold encode_exec_fill. destruct (_ =? 0); solve_report. Qed.
Lemma exec_cancel_reports id ts o : in_uint64 id → in_int64 ts → reportable o → reports (encode_exec_cancel id ts o).
Proof. intros Hid Hts [] c. unfold encode_exec_cancel. solve_report. Qed.
Lemma exec_reject_reports cid ts reason : in_uint64 cid → in_int64 ts → reports (encode_exec_reject cid ts reason).
Proof. intros Hcid Hts c. unfold encode_exec_reject. destruct reason; solve_report. Qed.
Lemma exec_replace_reports id cid price qty ts o : in_uint64 id → in_uint64 cid → small price → small qty →
  in_int64 ts → reportable o → reports (encode_exec_replace id cid price qty ts o).
Proof. intros Hid Hcid Hp Hq Hts [] c. unfold encode_exec_replace. solve_report. Qed.

(** ** The publisher over a session *)

(** What happens to a publisher: the exchange registers an order, the engine
    reports an event. *)
Inductive publisher_op : Type :=
  | Register (client_order_id : Z) (price : Price) (qty : Quantity) (side : Side)
  | Receive (e : event).
Definition publisher_step (p : FixExecPublisher) (op : publisher_op) : FixExecPublisher :=
  match op with
  | Register cid price qty side => register_order cid price qty side p
  | Receive e => fix_listener e p
  end.

(** Ids of 64 bits, and values far enough from the ends of 64 bits. *)
Definition op_ok (op : publisher_op) : Prop :=
  match op with
  | Register cid price qty _ => in_uint64 cid ∧ small price ∧ small qty
  | Receive (OrderAccepted id cid ts) => in_uint64 id ∧ in_uint64 cid ∧ in_int64 ts
  | Receive (OrderRejected cid ts _) => in_uint64 cid ∧ in_int64 ts
  | Receive (OrderFilled _ rid price qty ts) => small price ∧ small qty ∧ in_int64 ts
  | Receive (OrderCancelled id ts _) => in_uint64 id ∧ in_int64 ts
  | Receive (OrderModified id cid price qty ts) => in_uint64 id ∧ in_uint64 cid ∧ small price ∧ small qty ∧ in_int64 ts
  | Receive _ => True
  end.
Definition filled_by (op : publisher_op) : Z := match op with Receive (OrderFilled _ _ _ qty _) => Z.abs qty | _ => 0 end.

Record info_ok (filled : Z) (i : OrderInfo) : Prop := {
  info_id : in_uint64 i.(oi_id);
  info_client_id : in_uint64 i.(oi_client_order_id);
  info_price : small i.(oi_price);
  info_quantity : small i.(oi_quantity);
  info_filled : Z.abs i.(oi_filled_quantity) <= filled
}.
Lemma info_reportable n i : info_ok n i → n <= 2 ^ 61 → reportable (to_order i).
Proof. intros [] Hn. split; [done..|]. cbn. unfold small. lia. Qed.
Lemma info_ok_le n k i : info_ok n i → n <= k → info_ok k i.
Proof. intros [] Hk. split; [done..|lia]. Qed.

(** Known orders are in order, and every stored message is a report with its
    position for a number. *)
Record publisher_ok (filled : Z) (p : FixExecPublisher) : Prop := {
  pub_ctx : context_ok p.(fp_ctx);
  pub_pending : map_Forall (λ _, info_ok filled) p.(fp_pending);
  pub_orders : map_Forall (λ _, info_ok filled) p.(fp_orders);
  pub_seq : p.(fp_ctx).(next_seq_num) = wrap_u32 (1 + Z.of_nat (length p.(fp_messages)));
  pub_exec : p.(fp_ctx).(next_exec_id) = wrap_u64 (1 + Z.of_nat (length p.(fp_messages)));
  pub_messages : ∀ i bs, p.(fp_messages) !! i = Some bs →
    numbered (wrap_u32 (1 + Z.of_nat i)) (wrap_u64 (1 + Z.of_nat i)) bs
}.

Lemma new_publisher_ok sender target symbol : value_ok sender → value_ok target → value_ok symbol →
  publisher_ok 0 (new_publisher sender target symbol).
Proof.
  intros H1 H2 H3. split; [|apply map_Forall_empty..|done|done|done].
  split_and!; cbn; [done..| |]; unfold in_uint64, uint64_mod; lia.
Qed.

Lemma bump_u32 n : wrap_u32 (wrap_u32 n + 1) = wrap_u32 (n + 1).
Proof. unfold wrap_u32. by rewrite Z.add_mod_idemp_l. Qed.
Lemma bump_u64 n : wrap_u64 (wrap_u64 n + 1) = wrap_u64 (n + 1).
Proof. unfold wrap_u64. by rewrite Z.add_mod_idemp_l. Qed.

Lemma publish_ok encode n p : publisher_ok n p → reports encode → publisher_ok n (publish encode p).
Proof.
  intros [Hc Hp Ho Hs He Hm] Hr. unfold publish. split; cbn; [by apply bump_ids_ok|done|done|..].
  - rewrite Hs, bump_u32, length_app. cbn. f_equal. lia.
  - rewrite He, bump_u64, length_app. cbn. f_equal. lia.
  - intros i bs Hi. apply lookup_app_Some in Hi as [Hi|[Hl Hi]]; [by apply Hm|].
    apply list_lookup_singleton_Some in Hi as [Hi <-]. assert (E : i = length p.(fp_messages)) by lia. rewrite E.
    rewrite <- Hs, <- He. by apply Hr.
Qed.
Lemma set_pending_ok v n p : publisher_ok n p → map_Forall (λ _, info_ok n) v → publisher_ok n (set_pending v p).
Proof. by intros [] Hv. Qed.
Lemma set_orders_ok v n p : publisher_ok n p → map_Forall (λ _, info_ok n) v → publisher_ok n (set_orders v p).
Proof. by intros [] Hv. Qed.
Lemma publisher_ok_le n k p : publisher_ok n p → n <= k → publisher_ok k p.
Proof.
  intros [? Hp Ho] Hk. split; [done| | |done..].
  - intros j i Hi. apply (info_ok_le n k); [by apply (Hp j)|done].
  - intros j i Hi. apply (info_ok_le n k); [by apply (Ho j)|done].
Qed.

Lemma register_ok n p cid price qty side : 0 <= n → publisher_ok n p → in_uint64 cid → small price → small qty →
  publisher_ok n (register_order cid price qty side p).
Proof.
  intros Hn Hp Hc Hpr Hq. apply set_pending_ok; [done|]. apply map_Forall_insert_2; [|apply Hp].
  by split.
Qed.
Lemma accepted_ok n p id cid ts : n <= 2 ^ 61 → publisher_ok n p → in_uint64 id → in_uint64 cid → in_int64 ts →
  publisher_ok n (on_order_accepted id cid ts p).
Proof.
  intros Hn Hp Hid Hcid Hts. unfold on_order_accepted. destruct (_ !! cid) as [i|] eqn:E; [|done].
  pose proof (pub_pending _ _ Hp cid i E) as Hi.
  assert (Hi' : info_ok n (mkOrderInfo id i.(oi_client_order_id) i.(oi_price) i.(oi_quantity) i.(oi_filled_quantity) i.(oi_side))).
  { by destruct Hi. }
  apply publish_ok; [|apply exec_new_reports; [done..|by apply (info_reportable n)]].
  apply set_orders_ok; [apply set_pending_ok; [done|]|].
  - by apply map_Forall_delete, Hp.
  - apply map_Forall_insert_2; [done|apply Hp].
Qed.
Lemma rejected_ok n p cid ts reason : publisher_ok n p → in_uint64 cid → in_int64 ts →
  publisher_ok n (on_order_rejected cid ts reason p).
Proof.
  intros Hp Hcid Hts. apply publish_ok; [|by apply exec_reject_reports]. apply set_pending_ok; [done|].
  by apply map_Forall_delete, Hp.
Qed.
Lemma filled_ok n p rid price qty ts : n + Z.abs qty <= 2 ^ 61 → publisher_ok n p → small price → small qty → in_int64 ts →
  publisher_ok (n + Z.abs qty) (on_order_filled rid price qty ts p).
Proof.
  intros Hn Hp Hpr Hq Hts. pose proof Hp as Hp'. apply (publisher_ok_le _ (n + Z.abs qty)) in Hp'; [|lia].
  unfold on_order_filled. destruct (_ !! rid) as [i|] eqn:E; [|done]. pose proof (pub_orders _ _ Hp rid i E) as Hi.
  apply set_orders_ok.
  - apply publish_ok; [done|]. apply exec_fill_reports; [done..|]. apply (info_reportable n); [done|lia].
  - apply map_Forall_insert_2; [|apply Hp']. destruct Hi as [? ? ? ? Hf]. split; [done..|]. cbn. lia.
Qed.
Lemma cancelled_ok n p id ts : n <= 2 ^ 61 → publisher_ok n p → in_uint64 id → in_int64 ts →
  publisher_ok n (on_order_cancelled id ts p).
Proof.
  intros Hn Hp Hid Hts. unfold on_order_cancelled. destruct (_ !! id) as [i|] eqn:E; [|done].
  pose proof (pub_orders _ _ Hp id i E) as Hi. apply set_orders_ok; [|by apply map_Forall_delete, Hp].
  apply publish_ok; [done|]. apply exec_cancel_reports; [done..|]. by apply (info_reportable n).
Qed.
Lemma modified_ok n p id cid price qty ts : n <= 2 ^ 61 → publisher_ok n p → in_uint64 id → in_uint64 cid →
  small price → small qty → in_int64 ts → publisher_ok n (on_order_modified id cid price qty ts p).
Proof.
  intros Hn Hp Hid Hcid Hpr Hq Hts. unfold on_order_modified. destruct (_ !! id) as [i|] eqn:E; [|done].
  pose proof (pub_orders _ _ Hp id i E) as Hi. apply set_orders_ok.
  - apply publish_ok; [done|]. apply exec_replace_reports; [done..|]. by apply (info_reportable n).
  - apply map_Forall_insert_2; [|apply Hp]. by destruct Hi.
Qed.

Lemma publisher_step_ok n p op : 0 <= n → publisher_ok n p → op_ok op → n + filled_by op <= 2 ^ 61 →
  publisher_ok (n + filled_by op) (publisher_step p op).
Proof.
  intros Hn Hp Hop Hb. destruct op as [cid price qty side|e].
  { cbn in *. rewrite Z.add_0_r in *. destruct Hop as (? & ? & ?). by apply register_ok. }
  destruct e; cbn [publisher_step fix_listener filled_by op_ok] in *; rewrite ?Z.add_0_r in *; try done.
  - destruct Hop as (? & ? & ?). by apply accepted_ok.
  - destruct Hop as (? & ?). by apply rejected_ok.
  - destruct Hop as (? & ? & ?). by apply filled_ok.
  - destruct Hop as (? & ?). by apply cancelled_ok.
  - destruct Hop as (? & ? & ? & ? & ?). by apply modified_ok.
Qed.

Lemma publisher_run_ok ops n p : 0 <= n → publisher_ok n p → Forall op_ok ops → n + sum_by filled_by ops <= 2 ^ 61 →
  publisher_ok (n + sum_by filled_by ops) (fold_left publisher_step ops p).
Proof.
  intros Hn Hp Hops. revert n p Hn Hp. induction Hops as [|op ops Hop _ IH]; intros n p Hn Hp Hb; cbn [fold_left]; rewrite ?sum_by_cons, ?sum_by_nil in *.
  { by rewrite Z.add_0_r. }
  assert (Hf : 0 <= filled_by op) by (destruct op as [|[]]; cbn; lia).
  assert (Hs : 0 <= sum_by filled_by ops).
  { apply sum_by_nonneg, Forall_forall. intros [|[]] _; cbn; lia. }
  rewrite Z.add_assoc in *. apply IH; [lia| |done]. apply publisher_step_ok; [done..|lia].
Qed.

(** Over a session of orders registered and events received whose values
    cannot overflow, every message the FIX publisher stores can be read, is an
    execution report, and carries its position, from 1, as MsgSeqNum (modulo 2^32)
    and ExecID (modulo 2^64). *)
Theorem fix_reports_in_sequence sender target symbol ops i bs :
  value_ok sender → value_ok target → value_ok symbol →
  Forall op_ok ops → sum_by filled_by ops <= 2 ^ 61 →
  (fold_left publisher_step ops (new_publisher sender target symbol)).(fp_messages) !! i = Some bs →
  ∃ m, parse_fix_message bs = ParseOk m ∧ m.(msg_type) = chars "8" ∧
    get_string 34 m = decimal ((1 + Z.of_nat i) mod 2 ^ 32) ∧
    get_string 17 m = decimal ((1 + Z.of_nat i) mod 2 ^ 64).
Proof.
  intros H1 H2 H3 Hops Hsum Hi. pose proof (publisher_run_ok ops 0 _ ltac:(done) (new_publisher_ok _ _ _ H1 H2 H3) Hops Hsum) as Hp.
  by apply (pub_messages _ _ Hp i bs).
Qed.
Definition demo_session : list publisher_op :=
  [Register 7 455000 20000 Buy; Receive (OrderAccepted 42 7 1000000000);
   Receive (OrderFilled 43 42 455000 10000 2000000000); Receive (OrderModified 42 8 450000 30000 3000000000);
   Receive (OrderRejected 9 4000000000 InvalidPrice); Receive (OrderCancelled 42 5000000000 UserRequested)].
Lemma fix_reports_in_sequence_witness :
  ∃ bs m, (fold_left publisher_step demo_session (new_publisher (chars "EXCHANGE") (chars "1001") (chars "B"))).(fp_messages) !! 4%nat = Some bs ∧
    parse_fix_message bs = ParseOk m ∧ m.(msg_type) = chars "8" ∧ get_string 34 m = chars "5".
Proof.
  eexists. destruct (fix_reports_in_sequence (chars "EXCHANGE") (chars "1001") (chars "B") demo_session 4
    (default [] ((fold_left publisher_step demo_session (new_publisher (chars "EXCHANGE") (chars "1001") (chars "B"))).(fp_messages) !! 4%nat)))
    as (m & H1 & H2 & H3 & _); [by apply (bool_decide_unpack _)..| | |vm_compute; reflexivity|].
  - repeat (apply Forall_cons; split; [apply (bool_decide_unpack _); done|]). by apply Forall_nil.
  - done.
  - exists m. split; [vm_compute; reflexivity|]. split; [exact H1|]. split; [exact H2|exact H3].
Defined.
