(* ===== verification/FixReports.v ===== *)
(** * FIX 4.2: execution reports as the client reads them

    Ids, sides and kinds come back exactly; prices and quantities, which the
    client truncates after scaling, may come back one unit nearer to zero. *)

From Stdlib Require Import Ascii String SpecFloat Rbase Rfunctions Lra.
From S2P Require Import Prelude Types Wire Doubles Text ExchangeSimulator SimClient Fix FixGateway FixTheorems FixDelivery.

#[local] Open Scope Z_scope.

(** ** Values *)

(** The value, or the one a unit nearer to zero. *)
Definition truncated (p v : Z) : Prop := v = p ∨ v = p - Z.sgn p.

Lemma fields_message t kvs : (message_of kvs empty_message).(fields) !! t = first_value t kvs.
Proof. rewrite message_fields. unfold empty_message. cbn [fields]. by rewrite lookup_empty. Qed.

Lemma get_id t m id : m.(fields) !! t = Some (decimal id) → id_ok id → wrap_u64 (get_int t m) = id.
Proof.
  intros E [H0 H1]. unfold get_int. rewrite E. rewrite <- (app_nil_r (decimal id)), from_chars_decimal; [|done|done|].
  - apply wrap_u64_id. unfold in_uint64, uint64_mod. unfold int64_max in H1. lia.
  - apply bool_decide_eq_true_2. unfold int64_max in H1. unfold in_int64, int64_min, int64_max. lia.
Qed.

Lemma to_int_truncated p (w : double) : 1 <= Z.abs p <= 2 ^ 50 → finite w →
  (IZR p - 3 / 10 <= val w <= IZR p + 3 / 10)%R → ∃ v, to_int w = Some v ∧ truncated p v.
Proof.
  intros Hp Hf Hw.
  assert (Hi : ∀ k, Z.abs k <= Z.abs p → in_int64 k) by (intros k Hk; unfold in_int64, int64_min, int64_max; lia).
  destruct (Z.ltb_spec p 0) as [Hlt|Hge].
  - destruct (Rle_dec (val w) (IZR p)) as [Hle|Hgt].
    + exists p. split; [|by left]. apply to_int_neg; [done|by apply Hi|lia|lra].
    + exists (p + 1). split; [|right; lia]. apply to_int_neg; [done|apply Hi; lia|lia|]. rewrite plus_IZR. lra.
  - destruct (Rle_dec (IZR p) (val w)) as [Hle|Hgt].
    + exists p. split; [|by left]. apply to_int_pos; [done|by apply Hi|lia|lra].
    + exists (p - 1). split; [|right; lia]. apply to_int_pos; [done|apply Hi; lia|lia|]. rewrite minus_IZR. lra.
Qed.

Lemma scaled_truncated t m p : m.(fields) !! t = Some (price_to_fix_str p) → exact_price p →
  ∃ v, IceCodec.scaled t m = Some v ∧ truncated p v.
Proof.
  intros E Hp. unfold exact_price in Hp. unfold IceCodec.scaled, get_double. rewrite E, strtod_price.
  destruct (Z.eq_dec p 0) as [->|Hne]; [exists 0; split; [done|by left]|].
  assert (Hp1 : 1 <= Z.abs p <= 2 ^ 50) by lia.
  destruct (scaled_price p Hp1 (p <? 0) _ (decimal_price p Hp1 (p <? 0))) as (Hf & _ & Hb). unfold PRICE_SCALE.
  apply to_int_truncated; [done|done|]. generalize dependent (dmul (decimal_double (p <? 0) (Z.abs p) (-4)) (of_int 10000)).
  intros w _ Hb. unfold signed_price in Hb. destruct (Z.ltb_spec p 0).
  - rewrite Z.abs_neq, opp_IZR in Hb by lia. lra.
  - rewrite Z.abs_eq in Hb by lia. lra.
Qed.
Lemma scaled_zero t m : m.(fields) !! t = Some (chars "0") → IceCodec.scaled t m = Some 0.
Proof. intros E. unfold IceCodec.scaled, get_double. rewrite E. by vm_compute. Qed.

(** ** Reports *)

Lemma client_reads bs now m : parse_fix_message bs = ParseOk m → m.(msg_type) = chars "8" →
  IceCodec.decode_response now bs =
    match IceCodec.report_of now m with None => UndefinedResponse | Some None => NoReport | Some (Some r) => Reported r end.
Proof. intros E Ht. unfold IceCodec.decode_response. rewrite E, Ht. by rewrite bool_decide_eq_true_2. Qed.

(** Orders whose ids and values come through. *)
Record readable (o : Order) : Prop := {
  read_id : id_ok o.(o_id);
  read_client_id : id_ok o.(o_client_order_id);
  read_price : exact_price o.(o_price);
  read_quantity : exact_price o.(o_quantity);
  read_filled : exact_price o.(o_filled_quantity)
}.

Lemma id_ok_uint64 id : id_ok id → in_uint64 id.
Proof. unfold id_ok, int64_max, in_uint64, uint64_mod. lia. Qed.
Lemma exact_small p : exact_price p → small p.
Proof. unfold exact_price, small. lia. Qed.
Lemma readable_reportable o : readable o → reportable o.
Proof. intros []. split; auto using id_ok_uint64, exact_small. Qed.

Lemma side_char s : (if encode_side s =? 50 then Sell else Buy) = s.
Proof. by destruct s. Qed.

Section reading.
Context (now ts : Timestamp) (c : EncodeContext).
Hypothesis Hc : context_ok c.
Hypothesis Hts : in_int64 ts.

Ltac parse_report m :=
  match goal with |- context [assemble_message (append_tags (exec_header ?ts ?c ++ ?kvs))] =>
    let E := fresh "E" in
    assert (E : parse_fix_message (assemble_message (append_tags (exec_header ts c ++ kvs))) =
                ParseOk (message_of (exec_header ts c ++ kvs) empty_message));
    [apply report_parses; [done|done| |cbn [length]; lia|done]; solve_tags; solve_value|
     set (m := message_of (exec_header ts c ++ kvs) empty_message) in E;
     rewrite (client_reads _ now m E) by (unfold m; by rewrite message_type)]
  end.

(** The message, and what is found under its tags. *)
Ltac read_report m o Ho :=
  pose proof (readable_reportable o Ho) as []; destruct Ho;
  pose proof Hc as (? & ? & ? & ? & ?); parse_report m;
  assert (E54 : get_char 54 m = encode_side o.(o_side)) by (unfold m; by rewrite get_char_message).
Ltac found m := unfold m; by rewrite ?fields_message, ?get_char_message.
Ltac kind m k := assert (E150 : get_char 150 m = k) by found m.
Ltac amount m t p v :=
  let E := fresh "Ev" in let H := fresh "Hv" in
  destruct (scaled_truncated t m p) as (v & E & H);
    [found m|assumption|].
Ltac finish_report m id cid :=
  unfold IceCodec.report_of;
  rewrite (get_id 37 m id), (get_id 11 m cid) by (done || found m);
  repeat match goal with E : IceCodec.scaled _ m = _ |- _ => rewrite E; clear E end;
  repeat match goal with E : get_char _ m = _ |- _ => rewrite E; clear E end;
  by rewrite side_char.

Lemma new_read id cid o : id_ok id → id_ok cid → readable o →
  ∃ p q, IceCodec.decode_response now (encode_exec_new id cid ts o c) =
      Reported (mkExecReport Accepted id cid o.(o_side) p q 0 0 0 0 false now) ∧
    truncated o.(o_price) p ∧ truncated o.(o_quantity) q.
Proof using Hc Hts.
  intros Hid Hcid Ho. pose proof (id_ok_uint64 id Hid). pose proof (id_ok_uint64 cid Hcid).
  unfold encode_exec_new. read_report m o Ho. kind m 48.
  amount m 44 o.(o_price) p. amount m 38 o.(o_quantity) q. exists p, q. split; [|split; assumption].
  finish_report m id cid.
Qed.
Lemma cancel_read id o : id_ok id → readable o →
  ∃ p, IceCodec.decode_response now (encode_exec_cancel id ts o c) =
      Reported (mkExecReport Cancelled id o.(o_client_order_id) o.(o_side) p 0 0 0 0 0 false now) ∧ truncated o.(o_price) p.
Proof using Hc Hts.
  intros Hid Ho. pose proof (id_ok_uint64 id Hid).
  unfold encode_exec_cancel. read_report m o Ho. kind m 52.
  amount m 44 o.(o_price) p. exists p. split; [|assumption]. finish_report m id o.(o_client_order_id).
Qed.
Lemma replace_read id cid price qty o : id_ok id → id_ok cid → exact_price price → exact_price qty → readable o →
  ∃ p q, IceCodec.decode_response now (encode_exec_replace id cid price qty ts o c) =
      Reported (mkExecReport Replaced id cid o.(o_side) p q 0 0 0 0 false now) ∧ truncated price p ∧ truncated qty q.
Proof using Hc Hts.
  intros Hid Hcid Hp Hq Ho. pose proof (id_ok_uint64 id Hid). pose proof (id_ok_uint64 cid Hcid).
  pose proof (exact_small price Hp). pose proof (exact_small qty Hq).
  unfold encode_exec_replace. read_report m o Ho. kind m 53.
  amount m 44 price p. amount m 38 qty q. exists p, q. split; [|split; assumption]. finish_report m id cid.
Qed.
Lemma fill_read price qty o : exact_price price → exact_price qty → readable o →
  exact_price (o.(o_filled_quantity) + qty) → exact_price (o.(o_quantity) - (o.(o_filled_quantity) + qty)) →
  ∃ p fp fq leaves cum, IceCodec.decode_response now (encode_exec_fill price qty ts o c) =
      Reported (mkExecReport Fill o.(o_id) o.(o_client_order_id) o.(o_side) p 0 fp fq leaves cum false now) ∧
    truncated o.(o_price) p ∧ truncated price fp ∧ truncated qty fq ∧
    truncated (o.(o_quantity) - (o.(o_filled_quantity) + qty)) leaves ∧ truncated (o.(o_filled_quantity) + qty) cum.
Proof using Hc Hts.
  intros Hp Hq Ho Hcum Hleaves. pose proof (exact_small price Hp). pose proof (exact_small qty Hq).
  unfold encode_exec_fill. set (leaves := _ - _) in *. set (cum := _ + _) in *. clearbody cum. clearbody leaves.
  set (k := if leaves =? 0 then chars "2" else chars "1").
  assert (Hk : value_ok k ∧ (k = [49] ∨ k = [50])) by (unfold k; destruct (leaves =? 0); (split; [by apply (bool_decide_unpack _)|by auto])).
  destruct Hk as [Hk Hk']. clearbody k.
  pose proof (exact_small _ Hcum). pose proof (exact_small _ Hleaves).
  read_report m o Ho. assert (E150 : get_char 150 m = 49 ∨ get_char 150 m = 50).
  { unfold m. rewrite get_char_message. by destruct Hk' as [-> | ->]; [left|right]. }
  amount m 44 o.(o_price) p. amount m 31 price fp. amount m 32 qty fq. amount m 151 leaves l. amount m 14 cum cq.
  exists p, fp, fq, l, cq. split; [|repeat split; assumption]. destruct E150; finish_report m o.(o_id) o.(o_client_order_id).
Qed.
Lemma reject_read cid reason : id_ok cid →
  IceCodec.decode_response now (encode_exec_reject cid ts reason c) =
    Reported (mkExecReport Rejected 0 cid Buy 0 0 0 0 0 0 false now).
Proof using Hc Hts.
  intros Hcid. pose proof (id_ok_uint64 cid Hcid). pose proof Hc as (? & ? & ? & ? & ?).
  unfold encode_exec_reject. assert (in_uint64 (reject_code reason)) by (by destruct reason; apply (bool_decide_unpack _)).
  parse_report m. kind m 56. unfold IceCodec.report_of.
  rewrite (get_id 11 m cid) by (done || found m). rewrite (scaled_zero 44 m) by found m.
  assert (E54 : get_char 54 m = 0) by found m. rewrite E150, E54.
  assert (E37 : get_int 37 m = 0) by (unfold get_int; unfold m; by rewrite fields_message). by rewrite E37.
Qed.
End reading.

Definition demo_order : Order := mkOrder 42 7 0 455000 20000 0 0 Buy Limit GTC 0 0 0 0 false false.

(** The smallest price that is truncated: three ten-thousandths arrive as two. *)
Example price_read_short : IceCodec.scaled 44 (message_of [(44, price_to_fix_str 3)] empty_message) = Some 2.
Proof. vm_compute. reflexivity. Qed.
