(* ===== verification/Strategies.v ===== *)
(** * Trading strategies: [src/tools/trading_strategy.h]

    The two strategies a client runs on every tick: a random walk and a market
    maker.  The generator and its uniform distributions are the class [Random];
    the open orders are walked in the order of [Iteration].  Then what the actions
    of both strategies satisfy. *)

From Stdlib Require Import SpecFloat Rbase Rfunctions Lra.
From S2P Require Import Prelude Types Doubles ExchangeSimulator SimClient.

#[local] Open Scope Z_scope.

(** [std::uniform_int_distribution(low, high)] of a generator; the code gives no
    range with [high < low]. *)
Class Random (G : Type) : Type := {
  uniform : Z → Z → G → Z * G;
  uniform_range : ∀ low high g, low <= high → low <= (uniform low high g).1 <= high
}.

(** ** State and actions *)

Record StrategyState : Type := mkStrategyState {
  ss_client : ClientState;
  ss_ref_price : Price;
  ss_spread : Price;
  ss_max_position : Quantity;
  ss_lot_size : Quantity;
  ss_tick_size : Price;
  ss_next_cl_ord_id : Z
}.
Definition set_ref_price (v : Price) (s : StrategyState) : StrategyState :=
  mkStrategyState s.(ss_client) v s.(ss_spread) s.(ss_max_position) s.(ss_lot_size) s.(ss_tick_size) s.(ss_next_cl_ord_id).
Definition take_id (s : StrategyState) : Z * StrategyState :=
  (s.(ss_next_cl_ord_id),
   mkStrategyState s.(ss_client) s.(ss_ref_price) s.(ss_spread) s.(ss_max_position) s.(ss_lot_size) s.(ss_tick_size)
     (wrap_u64 (s.(ss_next_cl_ord_id) + 1))).

Inductive OrderAction : Type :=
  | New (side : Side) (price : Price) (qty : Quantity) (cl_ord_id : Z)
  | Cancel (cl_ord_id : Z)
  | Modify (side : Side) (price : Price) (qty : Quantity) (cl_ord_id orig_cl_ord_id : Z).

Definition snap_to_tick (price tick_size : Price) : Price :=
  if tick_size <=? 0 then price
  else
    let remainder := Z.rem price tick_size in
    let remainder := if remainder <? 0 then remainder + tick_size else remainder in
    if remainder >=? Z.quot tick_size 2 then price + (tick_size - remainder) else price - remainder.

Section strategies.
Context {iteration : Iteration} {G : Type} `{Random G}.
Implicit Types (s : StrategyState) (g : G).

(** The open orders in the order they are walked. *)
Definition open_list (orders : gmap Z OpenOrder) : list (Z * OpenOrder) :=
  omap (λ id, o ← orders !! id; Some (id, o)) (visit (dom orders)).

(** ** The random walk *)

(** [0.9 * ref + 0.1 * last] in double precision. *)
Definition blend (ref last : Price) : option Price :=
  to_int (dadd (dmul (of_ratio false 9 10) (of_int ref)) (dmul (of_ratio false 1 10) (of_int last))).
Definition adapt_ref s : option StrategyState :=
  if s.(ss_client).(st_last_fill_price) >? 0 then
    ref ← blend s.(ss_ref_price) s.(ss_client).(st_last_fill_price);
    Some (set_ref_price (snap_to_tick ref s.(ss_tick_size)) s)
  else Some s.

Definition sample_price s g : Price * G :=
  let '(p, g) := uniform (s.(ss_ref_price) - s.(ss_spread)) (s.(ss_ref_price) + s.(ss_spread)) g in
  (snap_to_tick p s.(ss_tick_size), g).

(** Buys at most at the reference price, sells at least. *)
Definition sane_price (side : Side) (price : Price) s : Price :=
  match side with
  | Buy => if price >? s.(ss_ref_price) then snap_to_tick (s.(ss_ref_price) - s.(ss_tick_size)) s.(ss_tick_size) else price
  | Sell => if price <? s.(ss_ref_price) then snap_to_tick (s.(ss_ref_price) + s.(ss_tick_size)) s.(ss_tick_size) else price
  end.

Definition projected (side : Side) s : Z :=
  match side with
  | Buy => s.(ss_client).(st_position) + s.(ss_lot_size)
  | Sell => s.(ss_client).(st_position) - s.(ss_lot_size)
  end.

Fixpoint place_loop (n : nat) (side : Side) s g : list OrderAction * StrategyState * G :=
  match n with
  | O => ([], s, g)
  | S n' =>
      if Z.abs (projected side s) >? s.(ss_max_position) then place_loop n' side s g
      else
        let '(price, g) := sample_price s g in
        let price := sane_price side price s in
        if price <=? 0 then place_loop n' side s g
        else
          let '(id, s') := take_id s in
          let '(actions, s', g) := place_loop n' side s' g in
          (New side price s.(ss_lot_size) id :: actions, s', g)
  end.
Definition place_orders (side : Side) (current_count : Z) s g : list OrderAction * StrategyState * G :=
  let '(target, g) := uniform 1 3 g in
  place_loop (Z.to_nat (Z.max 0 (target - current_count))) side s g.

Definition count_side (side : Side) s : Z :=
  Z.of_nat (length (filter (λ e : Z * OpenOrder, e.2.(oo_side) = side) (open_list s.(ss_client).(st_open_orders)))).

Definition NS_PER_SEC : Z := 1000000000.
Definition old_order_ids (age_threshold : Z) s : list Z :=
  (filter (λ e : Z * OpenOrder, s.(ss_client).(st_now) - e.2.(oo_created_at) > age_threshold)
     (open_list s.(ss_client).(st_open_orders))).*1.

(** Four in five cancelled, the others moved. *)
Fixpoint revise_loop (ids : list Z) s g : list OrderAction * StrategyState * G :=
  match ids with
  | [] => ([], s, g)
  | id :: ids' =>
      let '(roll, g) := uniform 1 100 g in
      if roll <=? 80 then
        let '(actions, s, g) := revise_loop ids' s g in (Cancel id :: actions, s, g)
      else
        let '(price, g) := sample_price s g in
        if price <=? 0 then revise_loop ids' s g
        else
          let side := match s.(ss_client).(st_open_orders) !! id with Some o => o.(oo_side) | None => Buy end in
          let '(new_id, s') := take_id s in
          let '(actions, s', g) := revise_loop ids' s' g in
          (Modify side price s.(ss_lot_size) new_id id :: actions, s', g)
  end.

Definition random_walk_strategy s g : option (list OrderAction * StrategyState * G) :=
  s ← adapt_ref s;
  let buy_count := count_side Buy s in
  let sell_count := count_side Sell s in
  let '(buys, s, g) := place_orders Buy buy_count s g in
  let '(sells, s, g) := place_orders Sell sell_count s g in
  let '(age_threshold, g) := uniform (1 * NS_PER_SEC) (5 * NS_PER_SEC) g in
  let '(revisions, s, g) := revise_loop (old_order_ids age_threshold s) s g in
  Some (buys ++ sells ++ revisions, s, g).

(** ** The market maker *)

(** [None] is the division by a lot of zero. *)
Definition lean s : option Price :=
  if s.(ss_tick_size) >? 0 then
    if s.(ss_lot_size) =? 0 then None
    else Some (Z.quot (s.(ss_client).(st_position) * s.(ss_tick_size)) (10 * s.(ss_lot_size)))
  else Some 0.

Definition quote_targets s : option (Price * Price) :=
  l ← lean s;
  let half_spread := Z.quot s.(ss_spread) 2 in
  let tick := s.(ss_tick_size) in
  let bid := snap_to_tick (s.(ss_ref_price) - half_spread - l) tick in
  let ask := snap_to_tick (s.(ss_ref_price) + half_spread - l) tick in
  let '(bid, ask) :=
    if bid >=? ask then (snap_to_tick (s.(ss_ref_price) - tick) tick, snap_to_tick (s.(ss_ref_price) + tick) tick)
    else (bid, ask) in
  Some ((if bid <=? 0 then tick else bid), ask).

(** The first of the best orders of a side. *)
Definition better_quote (side : Side) (a b : OpenOrder) : bool :=
  match side with Buy => a.(oo_price) >? b.(oo_price) | Sell => a.(oo_price) <? b.(oo_price) end.
Definition current_quote (side : Side) s : option OpenOrder :=
  fold_left (λ best (e : Z * OpenOrder),
    if bool_decide (e.2.(oo_side) = side) then
      match best with
      | None => Some e.2
      | Some b => if better_quote side e.2 b then Some e.2 else best
      end
    else best) (open_list s.(ss_client).(st_open_orders)) None.

Definition within_limit (side : Side) s : bool :=
  match side with
  | Buy => s.(ss_client).(st_position) + s.(ss_lot_size) <=? s.(ss_max_position)
  | Sell => s.(ss_client).(st_position) - s.(ss_lot_size) >=? - s.(ss_max_position)
  end.

Definition requote (side : Side) (target : Price) (had_fill : bool) s : list OrderAction * StrategyState :=
  let current := current_quote side s in
  if (match current with None => true | Some o => negb (o.(oo_price) =? target) end) || had_fill then
    let cancels := match current with None => [] | Some o => [Cancel o.(oo_cl_ord_id)] end in
    if within_limit side s then
      let '(id, s') := take_id s in
      (cancels ++ [New side target s.(ss_lot_size) id], s')
    else (cancels, s)
  else ([], s).

(** With the fill count of the last tick, which the closure keeps. *)
Definition market_maker_strategy (prev_fill_count : Z) s : option (list OrderAction * StrategyState * Z) :=
  '(bid_target, ask_target) ← quote_targets s;
  let had_fill := negb (s.(ss_client).(st_fill_count) =? prev_fill_count) in
  let '(bids, s) := requote Buy bid_target had_fill s in
  let '(asks, s) := requote Sell ask_target had_fill s in
  Some (bids ++ asks, s, s.(ss_client).(st_fill_count)).
End strategies.

(** * What the strategies do *)

(** ** The tick grid *)

Lemma positive_remainder p tick : 0 < tick → (if Z.rem p tick <? 0 then Z.rem p tick + tick else Z.rem p tick) = p mod tick.
Proof.
  intros Ht. pose proof (Z.quot_rem' p tick) as E. pose proof (Z.rem_bound_abs p tick ltac:(lia)) as Hb.
  destruct (Z.ltb_spec (Z.rem p tick) 0).
  - apply (Z.mod_unique_pos _ _ (Z.quot p tick - 1)); lia.
  - apply (Z.mod_unique_pos _ _ (Z.quot p tick)); lia.
Qed.

Lemma snap_to_tick_spec price tick : 2 <= tick →
  (∃ k, snap_to_tick price tick = k * tick) ∧ price - tick / 2 < snap_to_tick price tick <= price + (tick - tick / 2).
Proof.
  intros Ht. unfold snap_to_tick. rewrite (proj2 (Z.leb_gt tick 0)) by lia.
  cbv zeta. rewrite positive_remainder, Z.quot_div_nonneg by lia.
  pose proof (Z.div_mod price tick ltac:(lia)) as E. pose proof (Z.mod_pos_bound price tick ltac:(lia)) as Hb.
  assert (H2 : tick / 2 * 2 <= tick < tick / 2 * 2 + 2) by (Z.div_mod_to_equations; lia).
  destruct (Z.geb_spec (price mod tick) (tick / 2)); (split; [|lia]).
  - exists (price / tick + 1). lia.
  - exists (price / tick). lia.
Qed.
(** Prices a multiple of the tick apart keep their distance. *)
Lemma snap_to_tick_shift price tick : 2 <= tick → snap_to_tick (price + 2 * tick) tick = snap_to_tick price tick + 2 * tick.
Proof.
  intros Ht. unfold snap_to_tick. rewrite (proj2 (Z.leb_gt tick 0)) by lia.
  cbv zeta. rewrite !positive_remainder by lia. rewrite Z.mod_add by lia. destruct (_ >=? _); lia.
Qed.
Lemma snap_to_tick_near price tick : 2 <= tick → Z.abs (snap_to_tick price tick - price) <= tick.
Proof. intros Ht. pose proof (snap_to_tick_spec price tick Ht) as [_ H]. Z.div_mod_to_equations. lia. Qed.

(** ** Fresh ids *)

Definition with_next (n : Z) (s : StrategyState) : StrategyState :=
  mkStrategyState s.(ss_client) s.(ss_ref_price) s.(ss_spread) s.(ss_max_position) s.(ss_lot_size) s.(ss_tick_size) n.

Definition new_id (a : OrderAction) : option Z :=
  match a with New _ _ _ id => Some id | Cancel _ => None | Modify _ _ _ id _ => Some id end.
Definition new_ids (actions : list OrderAction) : list Z := omap new_id actions.

(** The ids an action list uses up, and the state they leave. *)
Definition numbers (s : StrategyState) (actions : list OrderAction) (s' : StrategyState) : Prop :=
  let n := Z.of_nat (length (new_ids actions)) in
  new_ids actions = (λ i, wrap_u64 (s.(ss_next_cl_ord_id) + i)) <$> seqZ 0 n ∧
  s' = with_next (wrap_u64 (s.(ss_next_cl_ord_id) + n)) s.

Lemma numbers_nil s : in_uint64 s.(ss_next_cl_ord_id) → numbers s [] s.
Proof. intros H. split; [done|]. cbn. rewrite Z.add_0_r, wrap_u64_id by done. by destruct s. Qed.
Lemma wrap_u64_add a b : wrap_u64 (wrap_u64 a + b) = wrap_u64 (a + b).
Proof. unfold wrap_u64. by rewrite Z.add_mod_idemp_l. Qed.
Lemma numbers_app s a s' b s'' : numbers s a s' → numbers s' b s'' → numbers s (a ++ b) s''.
Proof.
  unfold numbers, new_ids. intros [Ha ->] [Hb ->]. rewrite omap_app, length_app, Nat2Z.inj_add. cbn [with_next ss_next_cl_ord_id] in *.
  split.
  - rewrite Ha at 1. rewrite Hb at 1. rewrite seqZ_app, fmap_app by lia. f_equal.
    set (n := Z.of_nat (length (omap new_id a))). replace (0 + n) with (n + 0) by lia.
    rewrite <- (fmap_add_seqZ n 0), <- list_fmap_compose. apply list_fmap_ext. intros i x _. cbn.
    by rewrite wrap_u64_add, Z.add_assoc.
  - unfold with_next. cbn. f_equal. by rewrite wrap_u64_add, Z.add_assoc.
Qed.
Lemma numbers_take s a s' id : in_uint64 s.(ss_next_cl_ord_id) → take_id s = (id, s') → new_id a = Some id → numbers s [a] s'.
Proof.
  unfold take_id, numbers, new_ids. intros Hs [= <- <-] Ha. cbn [omap list_omap]. rewrite Ha. cbn [length]. split; [|done].
  change (seqZ 0 (Z.of_nat 1)) with [0]. cbn [fmap list_fmap]. by rewrite Z.add_0_r, wrap_u64_id.
Qed.
Lemma numbers_skip s id s' a : numbers s a s' → numbers s (Cancel id :: a) s'.
Proof. done. Qed.
Lemma numbers_range s a s' : numbers s a s' → in_uint64 s'.(ss_next_cl_ord_id).
Proof. intros [_ ->]. cbn. by apply Z.mod_pos_bound. Qed.
Lemma take_id_range s id s' : take_id s = (id, s') → in_uint64 s'.(ss_next_cl_ord_id).
Proof. intros [= _ <-]. cbn. by apply Z.mod_pos_bound. Qed.

(** ** The orders of the random walk *)

Section random_walk.
Context {iteration : Iteration} {G : Type} `{Random G}.
Implicit Types (s : StrategyState) (g : G).

(** A price the random walk may send: positive, on the grid, near the
    reference. *)
Definition near_ref s (price : Price) : Prop :=
  0 < price ∧ (∃ k, price = k * s.(ss_tick_size)) ∧
  Z.abs (price - s.(ss_ref_price)) <= Z.max s.(ss_spread) s.(ss_tick_size) + s.(ss_tick_size).
Definition sane_action s (a : OrderAction) : Prop :=
  match a with
  | New side price qty _ =>
      near_ref s price ∧ qty = s.(ss_lot_size) ∧ Z.abs (projected side s) <= s.(ss_max_position) ∧
      match side with Buy => price <= s.(ss_ref_price) | Sell => s.(ss_ref_price) <= price end
  | Cancel id => ∃ o, s.(ss_client).(st_open_orders) !! id = Some o ∧ s.(ss_client).(st_now) - o.(oo_created_at) > NS_PER_SEC
  | Modify side price qty _ id =>
      near_ref s price ∧ qty = s.(ss_lot_size) ∧
      ∃ o, s.(ss_client).(st_open_orders) !! id = Some o ∧ o.(oo_side) = side ∧
           s.(ss_client).(st_now) - o.(oo_created_at) > NS_PER_SEC
  end.

Record walkable s : Prop := {
  walk_tick : 2 <= s.(ss_tick_size);
  walk_spread : 0 <= s.(ss_spread);
  walk_next : in_uint64 s.(ss_next_cl_ord_id)
}.
Lemma walkable_numbers s a s' : walkable s → numbers s a s' → walkable s'.
Proof. intros [] Hn. pose proof (numbers_range _ _ _ Hn). destruct Hn as [_ ->]. by split. Qed.
Lemma sane_numbers s a s' b : numbers s a s' → Forall (sane_action s') b → Forall (sane_action s) b.
Proof. by intros [_ ->]. Qed.

Lemma sample_price_near s g price g' : walkable s → sample_price s g = (price, g') → 0 < price → near_ref s price.
Proof.
  intros [Ht Hsp _] E Hp. unfold sample_price in E.
  destruct (uniform _ _ g) as [p g1] eqn:Eu. injection E as <- <-.
  pose proof (uniform_range (s.(ss_ref_price) - s.(ss_spread)) (s.(ss_ref_price) + s.(ss_spread)) g ltac:(lia)) as Hr.
  rewrite Eu in Hr. cbn in Hr. split; [done|]. split; [by apply snap_to_tick_spec|].
  pose proof (snap_to_tick_near p s.(ss_tick_size) Ht). lia.
Qed.
Lemma sane_price_spec side s g p g' : walkable s → sample_price s g = (p, g') → 0 < sane_price side p s →
  near_ref s (sane_price side p s) ∧
  match side with Buy => sane_price side p s <= s.(ss_ref_price) | Sell => s.(ss_ref_price) <= sane_price side p s end.
Proof.
  intros Hw E. pose proof Hw as [Ht Hsp _]. unfold sane_price. set (tick := s.(ss_tick_size)) in *.
  assert (Hh : tick / 2 * 2 <= tick < tick / 2 * 2 + 2) by (Z.div_mod_to_equations; lia).
  destruct side; [destruct (Z.gtb_spec p s.(ss_ref_price)) as [Hout|Hin]|destruct (Z.ltb_spec p s.(ss_ref_price)) as [Hout|Hin]];
    intros Hp; try (split; [by eapply sample_price_near|lia]).
  - pose proof (snap_to_tick_spec (s.(ss_ref_price) - tick) tick Ht) as [Hk Hb].
    split; [split; [done|split; [done|fold tick; lia]]|lia].
  - pose proof (snap_to_tick_spec (s.(ss_ref_price) + tick) tick Ht) as [Hk Hb].
    split; [split; [done|split; [done|fold tick; lia]]|lia].
Qed.

(** What a stretch of a tick did: numbered, sane actions. *)
Definition stretch s (actions : list OrderAction) s' : Prop := numbers s actions s' ∧ Forall (sane_action s) actions.

Lemma stretch_app s a s' b s'' : stretch s a s' → stretch s' b s'' → stretch s (a ++ b) s''.
Proof.
  intros [Na Fa] [Nb Fb]. split; [by eapply numbers_app|]. apply Forall_app. split; [done|by eapply sane_numbers].
Qed.
Lemma stretch_take s a s1 id b s2 : walkable s → take_id s = (id, s1) → new_id a = Some id → sane_action s a → stretch s1 b s2 →
  stretch s (a :: b) s2.
Proof.
  intros Hw Ht Ha Hs Hb. apply (stretch_app s [a] s1 b s2); [|done]. split; [|by apply Forall_singleton].
  eapply numbers_take; [apply Hw|done|done].
Qed.

Lemma place_loop_spec n side s g actions s' g' : walkable s → place_loop n side s g = (actions, s', g') →
  stretch s actions s' ∧ (length actions <= n)%nat ∧ Forall (λ a, ∃ price qty id, a = New side price qty id) actions.
Proof.
  revert s g actions s' g'. induction n as [|n IH]; intros s g actions s' g' Hw; cbn [place_loop].
  { intros [= <- <- <-]. split; [|by split]. split; [|done]. apply numbers_nil, Hw. }
  destruct (Z.gtb_spec (Z.abs (projected side s)) s.(ss_max_position)) as [?|Hlim].
  { intros E. apply IH in E as (H1 & H2 & H3); [|done]. split; [done|]. split; [lia|done]. }
  destruct (sample_price s g) as [p g1] eqn:Es.
  destruct (Z.leb_spec (sane_price side p s) 0) as [?|Hpos].
  { intros E. apply IH in E as (H1 & H2 & H3); [|done]. split; [done|]. split; [lia|done]. }
  destruct (take_id s) as [id s1] eqn:Et. destruct (place_loop n side s1 g1) as [[acts s2] g2] eqn:El.
  intros [= <- <- <-]. assert (Hw1 : walkable s1).
  { unfold take_id in Et. injection Et as <- <-. destruct Hw. split; cbn; [done..|by apply Z.mod_pos_bound]. }
  apply IH in El as (H1 & H2 & H3); [|done]. split; [|split; [cbn; lia|]].
  - eapply stretch_take; [done|done|done| |done]. cbn. destruct (sane_price_spec side s g p g1 Hw Es Hpos). by split_and!.
  - apply Forall_cons. split; [by eexists _, _, _|done].
Qed.

Lemma open_list_elem orders id o : (id, o) ∈ open_list orders → orders !! id = Some o.
Proof.
  unfold open_list. intros (j & _ & E)%list_elem_of_omap. destruct (orders !! j) as [o'|] eqn:Ej; [|done].
  by injection E as -> ->.
Qed.
Lemma old_order_open age s id : NS_PER_SEC <= age → id ∈ old_order_ids age s →
  ∃ o, s.(ss_client).(st_open_orders) !! id = Some o ∧ s.(ss_client).(st_now) - o.(oo_created_at) > NS_PER_SEC.
Proof.
  intros Ha. unfold old_order_ids. intros ([j o] & -> & (Hage & Hin)%list_elem_of_filter)%list_elem_of_fmap.
  exists o. cbn in *. split; [by apply open_list_elem|lia].
Qed.

Lemma revise_loop_spec ids s g actions s' g' : walkable s →
  Forall (λ id, ∃ o, s.(ss_client).(st_open_orders) !! id = Some o ∧ s.(ss_client).(st_now) - o.(oo_created_at) > NS_PER_SEC) ids →
  revise_loop ids s g = (actions, s', g') → stretch s actions s'.
Proof.
  revert s g actions s' g'. induction ids as [|id ids IH]; intros s g actions s' g' Hw Hids; cbn [revise_loop].
  { intros [= <- <- <-]. split; [|done]. apply numbers_nil, Hw. }
  apply Forall_cons in Hids as [(o & Ho & Hage) Hids]. destruct (uniform 1 100 g) as [roll g1].
  destruct (roll <=? 80).
  { destruct (revise_loop ids s g1) as [[acts s1] g2] eqn:E. intros [= <- <- <-].
    destruct (IH _ _ _ _ _ Hw Hids E) as [H1 H2]. split; [by apply numbers_skip|]. apply Forall_cons. split; [by exists o|done]. }
  destruct (sample_price s g1) as [p g2] eqn:Es. destruct (Z.leb_spec p 0) as [?|Hpos]; [by apply IH|].
  rewrite Ho. destruct (take_id s) as [nid s1] eqn:Et. destruct (revise_loop ids s1 g2) as [[acts s2] g3] eqn:E.
  intros [= <- <- <-]. eapply (stretch_take s _ s1 nid); [done|done|done| |].
  - cbn. split; [by eapply sample_price_near|]. split; [done|by exists o].
  - unfold take_id in Et. injection Et as <- <-. eapply IH; [|exact Hids|exact E].
    destruct Hw. split; cbn; [done..|by apply Z.mod_pos_bound].
Qed.
End random_walk.

(** ** The reference price *)

Lemma tenths n : n = 9 ∨ n = 1 → rounds (of_ratio false (Z.to_pos n) 10) (IZR n / 10) ∧ (bpow (-4) <= IZR n / 10 <= bpow 0)%R.
Proof.
  intros Hn. assert (Hb : (bpow (-4) <= IZR n / 10 <= bpow 0)%R).
  { change (-4) with (-(4)). rewrite bpow_opp, bpow_IZR, bpow_0 by lia. change (2 ^ 4) with 16. destruct Hn as [-> | ->]; lra. }
  split; [|done]. pose proof (bpow_le (-1022) (-4) ltac:(lia)). pose proof (bpow_le 0 1023 ltac:(lia)).
  destruct Hn as [-> | ->]; [apply (of_ratio_rounds false 9 10)|apply (of_ratio_rounds false 1 10)]; cbn zeta; lra.
Qed.

(** A tenth or nine tenths of a price, in double precision. *)
Lemma tenths_of n p : n = 9 ∨ n = 1 → 0 <= p <= 2 ^ 50 →
  let w := dmul (of_ratio false (Z.to_pos n) 10) (of_int p) in
  let x := (IZR n / 10 * IZR p)%R in let u := unit_roundoff in
  finite w ∧ valid w ∧ (x * (1 - u) * (1 - u) <= val w <= x * (1 + u) * (1 + u))%R ∧
  (p = 0 ∨ (bpow (-7) <= val w)%R) ∧ (0 <= val w <= bpow 53)%R.
Proof.
  intros Hn Hp. destruct (tenths n Hn) as [Hc Hcb]. set (c := of_ratio _ _ _) in *.
  assert (Hi : rounds (of_int p) (IZR p)) by (apply of_int_rounds; unfold in_int64, int64_min, int64_max; lia).
  assert (Ep : val (of_int p) = IZR p) by (apply of_int_exact; lia).
  pose proof (rounds_pow _ _ _ _ Hc Hcb) as Hcv. change (-4 - 1) with (-5) in Hcv. change (0 + 1) with 1 in Hcv.
  destruct Hc as [Fc Vc Nc]. destruct Hi as [Fi Vi _]. pose proof (bpow_pos (-5)). pose proof (bpow_pos (-4)).
  apply near_bounds in Nc; [|lra]. pose proof unit_roundoff_half as Hu. pose proof unit_roundoff_pos as Hu0.
  cbn zeta. destruct (Z.eq_dec p 0) as [->|Hne].
  - destruct (dmul_rounds c (of_int 0)) as [Fw Vw Nw]; [done..|left; rewrite Ep; lra|].
    rewrite Ep in Nw. rewrite Rmult_0_r in Nw. unfold near in Nw. rewrite Rabs_R0, Rmult_0_r in Nw.
    apply Rabs_bounds in Nw. pose proof (bpow_pos 53). rewrite !Rmult_0_r, !Rmult_0_l.
    split; [done|]. split; [done|]. split; [lra|]. split; [by left|lra].
  - pose proof (IZR_pow p 50 ltac:(lia) ltac:(lia)) as Hpp.
    pose proof (mult_pow _ _ _ _ _ _ Hcv Hpp) as Hprod. change (-5 + 0) with (-5) in Hprod. change (1 + 50) with 51 in Hprod.
    assert (Hw : rounds (dmul c (of_int p)) (val c * IZR p)).
    { rewrite <- Ep. apply dmul_rounds; [done..|]. rewrite Ep. by apply (in_range_pow _ (-5) 51). }
    pose proof (rounds_pow _ _ _ _ Hw Hprod) as Hwv. destruct Hw as [Fw Vw Nw]. apply near_bounds in Nw; [|lra].
    assert (HP : (0 < IZR p)%R) by (pose proof (bpow_pos 0); lra).
    pose proof (bpow_le (-7) (-5 - 1) ltac:(lia)). pose proof (bpow_le (51 + 1) 53 ltac:(lia)). pose proof (bpow_pos (-7)).
    set (u := unit_roundoff) in *. set (x := (IZR n / 10)%R) in *.
    assert (Hl : (x * IZR p * (1 - u) <= val c * IZR p <= x * IZR p * (1 + u))%R).
    { split; [apply Rle_trans with (x * (1 - u) * IZR p)%R; [lra|]|apply Rle_trans with (x * (1 + u) * IZR p)%R; [|lra]];
        apply Rmult_le_compat_r; lra. }
    split; [done|]. split; [done|]. split; [|split; [right|]; lra].
    split.
    + apply Rle_trans with (val c * IZR p * (1 - u))%R; [|lra]. apply Rmult_le_compat_r; lra.
    + apply Rle_trans with (val c * IZR p * (1 + u))%R; [lra|]. apply Rmult_le_compat_r; lra.
Qed.

Lemma truncated_floor (w : double) lo hi : finite w → 0 <= hi → hi <= 2 ^ 53 → (IZR lo - 1 < val w < IZR hi + 1)%R → (0 <= val w)%R →
  ∃ r, to_int w = Some r ∧ 0 <= r ∧ lo - 1 <= r <= hi.
Proof.
  intros Hf Hh0 Hh Hw H0. destruct (archimed (val w)) as [Ha1 Ha2]. set (r := up (val w) - 1).
  assert (Hr : (IZR r <= val w < IZR r + 1)%R) by (unfold r; rewrite minus_IZR; lra).
  assert (lo - 1 - 1 < r) by (apply lt_IZR; rewrite !minus_IZR; lra).
  assert (r < hi + 1) by (apply lt_IZR; rewrite plus_IZR; lra).
  assert (-1 < r) by (apply lt_IZR; lra).
  exists r. split; [|lia]. apply to_int_pos; [done|unfold in_int64, int64_min, int64_max; lia|lia|done].
Qed.

(** The blend lies between the two prices, but for the truncation. *)
Lemma blend_between ref last : 0 <= ref <= 2 ^ 50 → 0 < last <= 2 ^ 50 →
  ∃ r, blend ref last = Some r ∧ 0 <= r ∧ Z.min ref last - 1 <= r <= Z.max ref last.
Proof.
  intros Href Hlast. unfold blend.
  destruct (tenths_of 9 ref ltac:(by left) Href) as (F1 & V1 & B1 & _ & P1).
  destruct (tenths_of 1 last ltac:(by right) ltac:(lia)) as (F2 & V2 & B2 & [?|L2] & P2); [lia|].
  cbn [Z.to_pos] in *. set (w1 := dmul (of_ratio false 9 10) (of_int ref)) in *.
  set (w2 := dmul (of_ratio false 1 10) (of_int last)) in *.
  assert (E54 : (bpow 54 = bpow 53 + bpow 53)%R) by (change 54 with (53 + 1); rewrite bpow_add, bpow_1; lra).
  destruct (dadd_rounds w1 w2) as [F V N]; [done..|apply (in_range_pow _ (-7) 54); [lra|lia|lia]|].
  pose proof (bpow_pos (-7)). apply near_bounds in N; [|lra].
  set (u := unit_roundoff) in *. set (m := Z.max ref last).
  assert (Hm : (IZR ref <= IZR m /\ IZR last <= IZR m)%R) by (split; apply IZR_le; lia).
  assert (Hk : (IZR (Z.min ref last) <= IZR ref /\ IZR (Z.min ref last) <= IZR last)%R) by (split; apply IZR_le; lia).
  assert (H0 : (0 <= IZR ref /\ 0 <= IZR last)%R) by (split; apply IZR_le; lia).
  assert (Hum : (0 < u /\ u <= / 1024 /\ u * IZR m <= / 8)%R).
  { split; [apply unit_roundoff_pos|]. unfold u, unit_roundoff. split.
    - apply Rle_trans with (bpow (-(10))); [by apply bpow_le|]. rewrite bpow_opp, bpow_IZR by lia. apply Req_le. done.
    - assert (IZR m <= bpow 50)%R by (rewrite bpow_IZR by lia; apply IZR_le; lia). pose proof (bpow_pos (-53)).
      apply Rle_trans with (bpow (-53) * bpow 50)%R; [apply Rmult_le_compat_l; lra|].
      rewrite <- bpow_add. change (-53 + 50) with (-(3)). rewrite bpow_opp, bpow_IZR by lia. apply Req_le. done. }
  set (x := (9 / 10 * IZR ref + 1 / 10 * IZR last)%R). set (e := (u * IZR m)%R) in *.
  assert (Hx : (IZR (Z.min ref last) <= x <= IZR m)%R) by (unfold x; lra).
  assert (Hux : (0 <= u * x <= e)%R) by (unfold e; split; [apply Rmult_le_pos; unfold x; lra|apply Rmult_le_compat_l; lra]).
  assert (Hs : (x - 2 * (u * x) <= val w1 + val w2 <= x + 2 * (u * x) + u * (u * x))%R) by (unfold x; nra).
  assert (Huux : (0 <= u * (u * x) <= e)%R) by nra. clearbody x. set (sum := (val w1 + val w2)%R) in *.
  assert (Hus : (0 <= u * sum <= 5 * e)%R) by nra.
  apply truncated_floor; [done|lia|lia| |nra]. rewrite Rmult_minus_distr_l, Rmult_plus_distr_l, !Rmult_1_r in N.
  assert (Hus2 : (u * sum <= u * x + 3 * (u * e))%R) by nra. assert (u * e <= e / 1024)%R by nra. lra.
Qed.

(** ** A tick of the random walk *)

Section random_walk_tick.
Context {iteration : Iteration} {G : Type} `{Random G}.
Implicit Types (s : StrategyState) (g : G).

Lemma adapt_ref_total s : 2 <= s.(ss_tick_size) → 0 <= s.(ss_ref_price) <= 2 ^ 50 →
  s.(ss_client).(st_last_fill_price) <= 2 ^ 50 →
  ∃ ref, adapt_ref s = Some (set_ref_price ref s) ∧
    let last := s.(ss_client).(st_last_fill_price) in
    if last >? 0 then
      (∃ k, ref = k * s.(ss_tick_size)) ∧
      Z.min s.(ss_ref_price) last - s.(ss_tick_size) <= ref <= Z.max s.(ss_ref_price) last + s.(ss_tick_size)
    else ref = s.(ss_ref_price).
Proof.
  intros Ht Hr Hl. unfold adapt_ref. cbn zeta. destruct (Z.gtb_spec s.(ss_client).(st_last_fill_price) 0) as [Hpos|Hneg].
  - destruct (blend_between s.(ss_ref_price) s.(ss_client).(st_last_fill_price)) as (r & -> & H0 & Hb); [done|lia|].
    cbn [mbind option_bind]. eexists. split; [done|]. pose proof (snap_to_tick_spec r _ Ht) as [Hk Hn]. split; [done|].
    Z.div_mod_to_equations. lia.
  - exists s.(ss_ref_price). split; [by destruct s|done].
Qed.

Lemma place_orders_spec side count s g actions s' g' : walkable s → place_orders side count s g = (actions, s', g') →
  stretch s actions s' ∧ Z.of_nat (length actions) <= Z.max 0 (3 - count) ∧
  Forall (λ a, ∃ price qty id, a = New side price qty id) actions.
Proof.
  intros Hw. unfold place_orders. pose proof (uniform_range 1 3 g ltac:(lia)) as Hr. destruct (uniform 1 3 g) as [target g1].
  cbn in Hr. intros E. apply place_loop_spec in E as (H1 & H2 & H3); [|done]. split; [done|]. split; [lia|done].
Qed.

Lemma revise_only ids s g actions s' g' : revise_loop ids s g = (actions, s', g') →
  Forall (λ a, match a with New _ _ _ _ => False | _ => True end) actions.
Proof.
  revert s g actions s' g'. induction ids as [|id ids IH]; intros s g actions s' g'; cbn [revise_loop]; [by intros [= <- _ _]|].
  destruct (uniform 1 100 g) as [roll g1]. destruct (roll <=? 80).
  - destruct (revise_loop ids s g1) as [[acts s1] g2] eqn:E. intros [= <- _ _]. apply IH in E. by apply Forall_cons.
  - destruct (sample_price s g1) as [p g2]. destruct (p <=? 0); [by apply IH|].
    destruct (take_id s) as [nid s1]. destruct (revise_loop ids s1 g2) as [[acts s2] g3] eqn:E. intros [= <- _ _].
    apply IH in E. by apply Forall_cons.
Qed.

(** A tick of the random walk always has a result, if prices are at most 2^50
    units and the tick is at least two: the reference price, moved towards the last
    fill, stays within a tick of both; at most three open and new orders are on
    a side unless more were open; every new order has the lot size, a fresh
    number, a positive price on the grid and near the reference, buys not above it
    and sells not below, and alone would keep the position within its limit; only
    open orders older than a second are cancelled or moved. *)
Theorem random_walk_orders_sane s g :
  walkable s → 0 <= s.(ss_ref_price) <= 2 ^ 50 → s.(ss_client).(st_last_fill_price) <= 2 ^ 50 →
  ∃ ref buys sells revisions s' g',
    random_walk_strategy s g = Some (buys ++ sells ++ revisions, s', g') ∧
    (let last := s.(ss_client).(st_last_fill_price) in
     if last >? 0 then Z.min s.(ss_ref_price) last - s.(ss_tick_size) <= ref <= Z.max s.(ss_ref_price) last + s.(ss_tick_size)
     else ref = s.(ss_ref_price)) ∧
    Forall (sane_action (set_ref_price ref s)) (buys ++ sells ++ revisions) ∧
    numbers (set_ref_price ref s) (buys ++ sells ++ revisions) s' ∧
    Forall (λ a, ∃ price qty id, a = New Buy price qty id) buys ∧
    Forall (λ a, ∃ price qty id, a = New Sell price qty id) sells ∧
    Forall (λ a, match a with New _ _ _ _ => False | _ => True end) revisions ∧
    Z.of_nat (length buys) <= Z.max 0 (3 - count_side Buy s) ∧
    Z.of_nat (length sells) <= Z.max 0 (3 - count_side Sell s).
Proof.
  intros Hw Hr Hl. destruct (adapt_ref_total s (walk_tick _ Hw) Hr Hl) as (ref & Ea & Href).
  set (r := set_ref_price ref s) in *. assert (Hwr : walkable r) by (by destruct Hw; split).
  unfold random_walk_strategy. rewrite Ea. cbn [mbind option_bind].
  destruct (place_orders Buy _ r g) as [[buys s1] g1] eqn:Eb.
  apply place_orders_spec in Eb as (Sb & Lb & Nb); [|done]. assert (Hw1 : walkable s1) by (eapply walkable_numbers; [done|apply Sb]).
  destruct (place_orders Sell _ s1 g1) as [[sells s2] g2] eqn:Es.
  apply place_orders_spec in Es as (Ss & Ls & Ns); [|done]. assert (Hw2 : walkable s2) by (eapply walkable_numbers; [exact Hw1|apply Ss]).
  pose proof (uniform_range (1 * NS_PER_SEC) (5 * NS_PER_SEC) g2 ltac:(unfold NS_PER_SEC; lia)) as Hage.
  destruct (uniform _ _ g2) as [age g3]. cbn in Hage.
  destruct (revise_loop (old_order_ids age s2) s2 g3) as [[revisions s3] g4] eqn:Er.
  pose proof (revise_only _ _ _ _ _ _ Er) as Hrev.
  apply revise_loop_spec in Er; [|done|apply Forall_forall; intros id; apply old_order_open; lia].
  exists ref, buys, sells, revisions, s3, g4. split; [done|].
  assert (Hall : stretch r (buys ++ sells ++ revisions) s3).
  { eapply stretch_app; [exact Sb|]. eapply stretch_app; [exact Ss|exact Er]. }
  destruct Hall as [Hn Hf]. split; [|split_and!; done].
  cbn zeta in *. destruct (_ >? 0); [by destruct Href|done].
Qed.
End random_walk_tick.

(** ** The quotes of the market maker *)

Section market_maker.
Context {iteration : Iteration}.
Implicit Types (s : StrategyState).

(** Quotes on the grid, the bid positive and below the ask, unless the ask had
    to stay at or below one tick. *)
Definition sound_quotes (tick bid ask : Price) : Prop :=
  0 < bid ∧ (∃ k, bid = k * tick) ∧ (∃ k, ask = k * tick) ∧ (bid < ask ∨ bid = tick ∧ ask <= tick).

Lemma quote_targets_sound s : 2 <= s.(ss_tick_size) → 0 < s.(ss_lot_size) →
  ∃ bid ask, quote_targets s = Some (bid, ask) ∧ sound_quotes s.(ss_tick_size) bid ask.
Proof.
  intros Ht Hl. unfold quote_targets, lean. destruct (Z.gtb_spec s.(ss_tick_size) 0); [|lia].
  rewrite (proj2 (Z.eqb_neq s.(ss_lot_size) 0)) by lia. cbn [mbind option_bind].
  set (tick := s.(ss_tick_size)) in *. set (l := Z.quot _ (10 * _)).
  set (b := snap_to_tick (s.(ss_ref_price) - _ - l) tick). set (a := snap_to_tick (s.(ss_ref_price) + _ - l) tick).
  set (b' := snap_to_tick (s.(ss_ref_price) - tick) tick). set (a' := snap_to_tick (s.(ss_ref_price) + tick) tick).
  assert (Hq : ∃ x y, (if b >=? a then (b', a') else (b, a)) = (x, y) ∧ x < y ∧ (∃ k, x = k * tick) ∧ (∃ k, y = k * tick)).
  { destruct (Z.geb_spec b a).
    - exists b', a'. split; [done|]. split; [|split; by apply snap_to_tick_spec].
      unfold a'. replace (s.(ss_ref_price) + tick) with (s.(ss_ref_price) - tick + 2 * tick) by lia.
      rewrite snap_to_tick_shift by done. fold b'. lia.
    - exists b, a. split; [done|]. split; [done|split; by apply snap_to_tick_spec]. }
  destruct Hq as (x & y & -> & Hxy & Hx & Hy). eexists _, _. split; [done|].
  destruct (Z.leb_spec x 0).
  - split; [lia|]. split; [by exists 1; lia|]. split; [done|]. lia.
  - split; [lia|]. split; [done|]. split; [done|]. by left.
Qed.

(** What [requote] does for one side. *)
Definition requoted (side : Side) (target : Price) (had_fill : bool) s (actions : list OrderAction) : Prop :=
  Forall (λ a, match a with
    | New sd price qty _ => sd = side ∧ price = target ∧ qty = s.(ss_lot_size) ∧ within_limit side s = true
    | Cancel id => ∃ o, current_quote side s = Some o ∧ o.(oo_cl_ord_id) = id
    | Modify _ _ _ _ _ => False
    end) actions ∧
  (length (new_ids actions) <= 1)%nat ∧
  (within_limit side s = true → new_ids actions ≠ [] ∨
     had_fill = false ∧ ∃ o, current_quote side s = Some o ∧ o.(oo_price) = target).

Lemma requote_spec side target had_fill s actions s' : in_uint64 s.(ss_next_cl_ord_id) →
  requote side target had_fill s = (actions, s') → requoted side target had_fill s actions ∧ numbers s actions s'.
Proof.
  intros Hn. unfold requote, requoted. destruct (_ || had_fill) eqn:Ec.
  - destruct (within_limit side s) eqn:El.
    + destruct (take_id s) as [id s1] eqn:Et. intros [= <- <-].
      assert (Hnum : numbers s [New side target s.(ss_lot_size) id] s1) by (by eapply numbers_take).
      destruct (current_quote side s) as [o|] eqn:Eo; cbn [app].
      * split; [|by apply numbers_skip]. split; [|split; [cbn; lia|by left]].
        apply Forall_cons. split; [by exists o|]. apply Forall_singleton. done.
      * split; [|done]. split; [|split; [cbn; lia|by left]]. by apply Forall_singleton.
    + intros [= <- <-]. destruct (current_quote side s) as [o|] eqn:Eo.
      * split; [|by apply numbers_skip, numbers_nil]. split; [|split; [cbn; lia|done]]. apply Forall_singleton. by exists o.
      * split; [|by apply numbers_nil]. split; [done|split; [cbn; lia|done]].
  - intros [= <- <-]. split; [|by apply numbers_nil]. split; [done|]. split; [cbn; lia|]. intros _. right.
    apply orb_false_iff in Ec as [Ec ->]. split; [done|]. destruct (current_quote side s) as [o|]; [|done].
    exists o. split; [done|]. by apply negb_false_iff, Z.eqb_eq in Ec.
Qed.

Lemma requoted_next side target had_fill s n actions : requoted side target had_fill (with_next n s) actions →
  requoted side target had_fill s actions.
Proof. done. Qed.

(** A tick of the market maker always has a result, if lots are positive and
    the tick is at least two: a bid and an ask on the grid that do not cross, unless
    the ask is at one tick or below and the bid was raised to one tick; on each side at most
    one new order, of one lot at the target, only if its fill would keep the
    position within the limit; only the best open quote is cancelled; and a side
    within its limit is quoted at the target after every tick. *)
Theorem market_maker_quotes_sound prev s :
  2 <= s.(ss_tick_size) → 0 < s.(ss_lot_size) → in_uint64 s.(ss_next_cl_ord_id) →
  ∃ bid ask bids asks s',
    let had_fill := negb (s.(ss_client).(st_fill_count) =? prev) in
    market_maker_strategy prev s = Some (bids ++ asks, s', s.(ss_client).(st_fill_count)) ∧
    sound_quotes s.(ss_tick_size) bid ask ∧
    requoted Buy bid had_fill s bids ∧ requoted Sell ask had_fill s asks ∧ numbers s (bids ++ asks) s'.
Proof.
  intros Ht Hl Hn. destruct (quote_targets_sound s Ht Hl) as (bid & ask & Eq & Hq).
  unfold market_maker_strategy. rewrite Eq. cbn [mbind option_bind].
  destruct (requote Buy bid _ s) as [bids s1] eqn:Eb. apply requote_spec in Eb as [Hb Nb]; [|done].
  destruct (requote Sell ask _ s1) as [asks s2] eqn:Ea. apply requote_spec in Ea as [Ha Na]; [|by eapply numbers_range].
  exists bid, ask, bids, asks, s2. cbn zeta. destruct Nb as [Ib ->]. split; [by destruct Na as [_ ->]|].
  split; [done|]. split; [done|]. split; [by eapply requoted_next|]. eapply numbers_app; [by split|exact Na].
Qed.
End market_maker.

(** ** Concrete ticks *)

Definition ascending : Iteration := Build_Iteration elements (λ X, reflexivity (elements X)).
Lemma lowest_range low high (g : unit) : low <= high → low <= (low, g).1 <= high.
Proof. cbn. lia. Qed.
Definition lowest : Random unit := Build_Random unit (λ low _ g, (low, g)) lowest_range.

Definition demo_strategy : StrategyState :=
  mkStrategyState
    (mkClientState (<[3 := mkOpenOrder 3 Sell 50005000 10000 0]> ∅) 20000 0 50010000 2 9000000000)
    50000000 25000 100000 10000 2500 4.

Lemma random_walk_orders_sane_witness :
  ∃ ref buys sells revisions s' g',
    random_walk_strategy (iteration := ascending) (H := lowest) demo_strategy () = Some (buys ++ sells ++ revisions, s', g') ∧
    Z.of_nat (length buys) <= 3 ∧ Forall (sane_action (set_ref_price ref demo_strategy)) (buys ++ sells ++ revisions).
Proof.
  destruct (random_walk_orders_sane (iteration := ascending) (H := lowest) demo_strategy ())
    as (ref & buys & sells & revisions & s' & g' & E & _ & Hf & _ & _ & _ & _ & Hl & _).
  - split; [done|done|by apply (bool_decide_unpack _)].
  - done.
  - done.
  - exists ref, buys, sells, revisions, s', g'. split; [exact E|]. split; [exact Hl|exact Hf].
Defined.
Lemma market_maker_quotes_sound_witness :
  ∃ bid ask bids asks s',
    market_maker_strategy (iteration := ascending) 1 demo_strategy = Some (bids ++ asks, s', 2) ∧ sound_quotes 2500 bid ask.
Proof.
  destruct (market_maker_quotes_sound (iteration := ascending) 1 demo_strategy)
    as (bid & ask & bids & asks & s' & E & Hq & _); [done|done|by apply (bool_decide_unpack _)|].
  exists bid, ask, bids, asks, s'. split; [exact E|exact Hq].
Defined.

(** Ticks that the snap does not round to the nearest: with a tick of one every
    price moves up, with a tick of three a remainder of one does. *)
Example snap_one : snap_to_tick 100 1 = 101. Proof. done. Qed.
Example snap_three : snap_to_tick 100 3 = 102. Proof. done. Qed.
