(* ===== verification/Trader.v ===== *)
(** * The trader: the main loop of [src/tools/exchange_trader.cc]

    Polls responses, asks the strategy for actions and sends as many as the rate
    allows, until the connection ends; then cancels what is open.  Arguments,
    the instrument tables, status lines and sleeping are left out. *)

From Stdlib Require Import Ascii String.
From S2P Require Import Prelude Types Text ExchangeSimulator Fix SimClient Strategies.

#[local] Open Scope Z_scope.

Section trader.
Context {C G : Type} (codec : ProtocolCodec C) (rate : Z).
(** The strategy with whatever it carries from tick to tick. *)
Context (strategy : StrategyState → G → option (list OrderAction * StrategyState * G)).

Record Trader : Type := mkTrader {
  tr_client : SimClient C;
  tr_state : StrategyState;
  tr_memory : G;
  actions_this_second : Z;
  second_start : Timestamp
}.
Definition set_client (v : SimClient C) (t : Trader) : Trader :=
  mkTrader v t.(tr_state) t.(tr_memory) t.(actions_this_second) t.(second_start).
Definition set_strategy (v : StrategyState) (w : G) (t : Trader) : Trader :=
  mkTrader t.(tr_client) v w t.(actions_this_second) t.(second_start).
Definition count_action (t : Trader) : Trader :=
  mkTrader t.(tr_client) t.(tr_state) t.(tr_memory) (t.(actions_this_second) + 1) t.(second_start).
Definition reset_second (now : Timestamp) (t : Trader) : Trader :=
  if now - t.(second_start) >=? 1000000000 then mkTrader t.(tr_client) t.(tr_state) t.(tr_memory) 0 now else t.

(** Whether the action went out, the bytes and the client. *)
Definition send_action (now : Timestamp) (a : OrderAction) (sent : bool) (c : SimClient C)
    : option (bool * list Z * SimClient C) :=
  match a with
  | New side price qty id => send_new_order codec now id side price qty Limit DAY sent c
  | Cancel id => send_cancel codec now id sent c
  | Modify _ price qty id orig => send_replace codec now orig id price qty sent c
  end.

(** Actions with the transport's answers, while the rate allows: the messages
    that went out. *)
Fixpoint send_actions (now : Timestamp) (actions : list (OrderAction * bool)) (t : Trader) : option (list (list Z) * Trader) :=
  match actions with
  | [] => Some ([], t)
  | (a, sent) :: actions' =>
      if t.(actions_this_second) >=? rate then Some ([], t)
      else
        '(ok, bs, c) ← send_action now a sent t.(tr_client);
        let t := set_client c t in
        let t := if (ok : bool) then count_action t else t in
        '(out, t) ← send_actions now actions' t;
        Some ((if (ok : bool) then [bs] else []) ++ out, t)
  end.

(** [sync_state]. *)
Definition sync (now : Timestamp) (t : Trader) : StrategyState :=
  let s := t.(tr_state) in
  mkStrategyState (sync_state now t.(tr_client)) s.(ss_ref_price) s.(ss_spread) s.(ss_max_position)
    s.(ss_lot_size) s.(ss_tick_size) s.(ss_next_cl_ord_id).

(** What one round of the loop meets: the messages that arrived, whether the
    connection still stands, the time, and the transport's answers. *)
Record round : Type := mkRound {
  rd_messages : list (Timestamp * list Z);
  rd_connected : bool;
  rd_now : Timestamp;
  rd_answers : nat → bool
}.

Definition with_answers (answers : nat → bool) (actions : list OrderAction) : list (OrderAction * bool) :=
  imap (λ i a, (a, answers i)) actions.

(** A round: what was sent, the trader, and whether the loop goes on. *)
Definition trader_round (r : round) (t : Trader) : option (list (list Z) * Trader * bool) :=
  '(_, c) ← poll_responses codec r.(rd_messages) 0 t.(tr_client);
  let t := set_client c t in
  if negb r.(rd_connected) then Some ([], t, false)
  else
    let t := reset_second r.(rd_now) t in
    if t.(actions_this_second) <? rate then
      '(actions, s, g) ← strategy (sync r.(rd_now) t) t.(tr_memory);
      '(out, t) ← send_actions r.(rd_now) (with_answers r.(rd_answers) actions) (set_strategy s g t);
      Some (out, t, true)
    else Some ([], t, true).

(** The rounds of a run; every message with the second it was counted in. *)
Fixpoint trader_run (rounds : list round) (t : Trader) : option (list (Timestamp * list Z) * Trader) :=
  match rounds with
  | [] => Some ([], t)
  | r :: rounds' =>
      '(out, t, go_on) ← trader_round r t;
      let stamped := (λ bs, (t.(second_start), bs)) <$> out in
      if go_on : bool then '(rest, t) ← trader_run rounds' t; Some (stamped ++ rest, t)
      else Some (stamped, t)
  end.

(** ** The rate limit *)

Lemma send_actions_rate now actions t out t' : 0 <= t.(actions_this_second) → send_actions now actions t = Some (out, t') →
  t'.(second_start) = t.(second_start) ∧
  t'.(actions_this_second) = t.(actions_this_second) + Z.of_nat (length out) ∧
  (out = [] ∨ t'.(actions_this_second) <= rate).
Proof.
  revert t out t'. induction actions as [|[a sent] actions IH]; intros t out t' H0; cbn [send_actions].
  { intros [= <- <-]. cbn. split; [done|]. split; [lia|by left]. }
  destruct (Z.geb_spec t.(actions_this_second) rate).
  { intros [= <- <-]. cbn. split; [done|]. split; [lia|by left]. }
  destruct (send_action now a sent t.(tr_client)) as [[[ok bs] c]|]; [|done]. cbn [mbind option_bind].
  destruct (send_actions now actions _) as [[rest t1]|] eqn:E; [|done]. cbn [mbind option_bind]. intros [= <- <-].
  destruct ok; apply IH in E as (H1 & H2 & H3); cbn in *; try lia; (split; [done|]); split; try lia.
  - right. destruct H3 as [->|H3]; [cbn in H2; lia|lia].
  - destruct H3 as [->|H3]; [by left|by right].
Qed.

(** Messages counted in a second. *)
Definition sent_in (second : Timestamp) (log : list (Timestamp * list Z)) : Z :=
  Z.of_nat (length (filter (λ e : Timestamp * list Z, e.1 = second) log)).
Lemma sent_in_app second l k : sent_in second (l ++ k) = sent_in second l + sent_in second k.
Proof. unfold sent_in. rewrite filter_app, length_app. lia. Qed.
Lemma sent_in_stamped second start (out : list (list Z)) :
  sent_in second ((λ bs, (start, bs)) <$> out) = if decide (start = second) then Z.of_nat (length out) else 0.
Proof.
  unfold sent_in. induction out as [|bs out IH]; [by destruct (decide _)|]. cbn [fmap list_fmap]. rewrite filter_cons. cbn [fst].
  destruct (decide (start = second)); cbn [length]; lia.
Qed.

Record paced (t : Trader) : Prop := { paced_low : 0 <= t.(actions_this_second); paced_high : t.(actions_this_second) <= rate }.

(** A round stays in its second or starts a later one afresh. *)
Lemma trader_round_rate r t out t' go_on : 0 <= rate → paced t → trader_round r t = Some (out, t', go_on) →
  paced t' ∧
  (t'.(second_start) = t.(second_start) ∧ t'.(actions_this_second) = t.(actions_this_second) + Z.of_nat (length out) ∨
   t.(second_start) < t'.(second_start) ∧ t'.(actions_this_second) = Z.of_nat (length out)).
Proof.
  intros Hr [H0 H1]. unfold trader_round. destruct (poll_responses _ _ _ _) as [[k c]|]; [|done]. cbn [mbind option_bind].
  destruct (negb _). { intros [= <- <- <-]. cbn. split; [by split|]. left. split; [done|lia]. }
  set (u := reset_second r.(rd_now) (set_client c t)).
  assert (Hu : 0 <= u.(actions_this_second) <= rate ∧
    (u.(second_start) = t.(second_start) ∧ u.(actions_this_second) = t.(actions_this_second) ∨
     t.(second_start) < u.(second_start) ∧ u.(actions_this_second) = 0)).
  { unfold u, reset_second. cbn. destruct (Z.geb_spec (r.(rd_now) - t.(second_start)) 1000000000); cbn; lia. }
  clearbody u. destruct (Z.ltb_spec u.(actions_this_second) rate).
  - destruct (strategy _ _) as [[[actions s] g]|]; [|done]. cbn [mbind option_bind].
    destruct (send_actions _ _ _) as [[o t2]|] eqn:E; [|done]. cbn [mbind option_bind]. intros [= <- <- _].
    apply send_actions_rate in E as (E1 & E2 & E3); [|cbn; lia]. cbn in E1, E2. split.
    + split; [lia|]. destruct E3 as [->|?]; [cbn in E2; lia|lia].
    + lia.
  - intros [= <- <- _]. cbn. split; [split; lia|]. lia.
Qed.

Lemma trader_run_rate rounds t log t' second : 0 <= rate → paced t → trader_run rounds t = Some (log, t') →
  (second < t.(second_start) → sent_in second log = 0) ∧
  sent_in second log + (if decide (second = t.(second_start)) then t.(actions_this_second) else 0) <= rate.
Proof.
  intros Hr. revert t log t'. induction rounds as [|r rounds IH]; intros t log t' Hp; cbn [trader_run].
  { intros [= <- _]. destruct Hp. split; [done|]. change (sent_in second []) with 0. destruct (decide _); lia. }
  destruct (trader_round r t) as [[[out t1] go_on]|] eqn:E; [|done]. cbn [mbind option_bind].
  apply trader_round_rate in E as (Hp1 & Hs); [|done..]. destruct Hp, Hp1 as [P1 P2].
  destruct go_on.
  - destruct (trader_run rounds t1) as [[rest t2]|] eqn:Er; [|done]. cbn [mbind option_bind]. intros [= <- _].
    apply IH in Er as [R1 R2]; [|by split]. rewrite sent_in_app, sent_in_stamped. split.
    + intros Hlt. rewrite decide_False by lia. rewrite R1; lia.
    + repeat destruct (decide _); destruct Hs; lia.
  - intros [= <- _]. rewrite sent_in_stamped. split.
    + intros Hlt. rewrite decide_False; lia.
    + repeat destruct (decide _); destruct Hs; lia.
Qed.

(** After the loop: every open order is cancelled. *)
Definition shut_down {iteration : Iteration} (now : Timestamp) (sent : Z → bool) (t : Trader) : option (list (list Z) * Trader) :=
  '(out, c) ← cancel_all_open codec now sent t.(tr_client);
  Some (out, set_client c t).

(** Over any run of a trader that starts with its counter at zero, no more
    messages go out in a second, as the trader counts seconds, than the rate. *)
Theorem trader_rate_limited rounds t log t' second :
  0 <= rate → t.(actions_this_second) = 0 → trader_run rounds t = Some (log, t') → sent_in second log <= rate.
Proof.
  intros Hr H0 E. assert (Hp : paced t) by (split; lia).
  pose proof (trader_run_rate rounds t log t' second Hr Hp E) as [_ H]. destruct Hp. destruct (decide _); lia.
Qed.
End trader.
Arguments mkTrader {C G}.

(** ** A run of the market maker at one message a second *)

Definition first_id : Iteration := Build_Iteration elements (λ X, reflexivity (elements X)).
Definition demo_tick (s : StrategyState) (prev : Z) : option (list OrderAction * StrategyState * Z) :=
  market_maker_strategy (iteration := first_id) prev s.
Definition demo_trader : Trader (C := Fix.EncodeContext) (G := Z) :=
  let c := new_client (IceCodec.new_codec (chars "B") (chars "1001") (chars "EXCHANGE")) in
  mkTrader c (mkStrategyState (sync_state 0 c) 50000000 25000 100000 10000 2500 1) 0 0 1000000000.
Definition demo_rounds : list round :=
  [mkRound [] true 1100000000 (λ _, true); mkRound [] true 1200000000 (λ _, true); mkRound [] true 2200000000 (λ _, true)].

Lemma trader_rate_limited_witness :
  ∃ log t', trader_run IceCodec.codec 1 demo_tick demo_rounds demo_trader = Some (log, t') ∧
    length log = 2%nat ∧ sent_in 1000000000 log <= 1.
Proof.
  destruct (trader_run IceCodec.codec 1 demo_tick demo_rounds demo_trader) as [[log t']|] eqn:E; [|by vm_compute in E].
  exists log, t'. split; [reflexivity|]. split; [vm_compute in E; by injection E as <- _|].
  apply (trader_rate_limited IceCodec.codec 1 demo_tick demo_rounds demo_trader log t'); [done|done|exact E].
Defined.
