(* ===== verification/Journal.v ===== *)
(** * Journals: parser and writer of [src/test-harness/]

    [journal_parser.cc], [journal_writer.cc] and [recorded_event.cc]: the text
    format in which the test harness keeps a configuration, the actions of a run
    and the events each action must cause.  Exceptions are the left of [throws];
    files are their contents. *)

From Stdlib Require Import Ascii String.
From S2P Require Import Prelude Types Text.

#[local] Open Scope Z_scope.

(** ** Exceptions *)

Inductive line_error : Type :=
  | MissingActionType
  | UnknownActionType (type : list Z)
  | ExpectBeforeAction
  | MissingEventType
  | UnknownKeyword (keyword : list Z)
  | MalformedToken (token : list Z).

Inductive journal_error : Type :=
  | AtLine (line_number : Z) (e : line_error)
  | MissingField (key : list Z)
  | InvalidInteger (text : list Z)
  | IntegerOutOfRange (text : list Z)
  | UnknownWord (word : list Z)
  | UnknownEvent (type : list Z)
  | OtherRunner.

Definition throws (A : Type) : Type := (journal_error + A)%type.
#[global] Instance throws_ret : MRet throws := λ A, inr.
#[global] Instance throws_bind : MBind throws := λ A B k m, match m with inl e => inl e | inr a => k a end.

(** [std::stoll]. *)
Definition stoll (bs : list Z) : throws Z :=
  let '(negative, ds) := read_sign (skip_spaces bs) in
  let '(v, n, _) := read_digits 0 ds in
  let v := if negative then - v else v in
  if (n =? 0)%nat then inl (InvalidInteger bs)
  else if bool_decide (in_int64 v) then inr v
  else inl (IntegerOutOfRange bs).

(** ** Data *)

Abbreviation field_map := (gmap (list Z) (list Z)).

(** The order in which an [unordered_map] of strings is walked. *)
Class FieldOrder : Type := {
  walk : field_map → list (list Z * list Z);
  walk_perm : ∀ m, walk m ≡ₚ map_to_list m
}.

Record ParsedConfig : Type := mkParsedConfig {
  match_algo : list Z;
  cfg_tick_size : Z;
  cfg_lot_size : Z;
  max_orders : Z;
  max_levels : Z;
  max_order_ids : Z;
  cfg_price_band_low : Z;
  cfg_price_band_high : Z;
  rate_limit : Z;
  rate_interval : Z;
  cfg_daily_limit_high : Z;
  cfg_daily_limit_low : Z
}.
Definition default_config : ParsedConfig := mkParsedConfig (chars "FIFO") 100 10000 1000 100 10000 0 0 0 0 0 0.

Inductive action_type : Type :=
  | DoNewOrder
  | DoCancel
  | DoModify
  | DoTriggerExpiry
  | DoSetSessionState
  | DoExecuteAuction
  | DoPublishIndicative
  | DoMassCancel
  | DoMassCancelAll
  | DoRestoreOrder
  | DoBustTrade
  | DoILink3NewOrder
  | DoILink3Cancel
  | DoILink3Replace
  | DoILink3MassCancel
  | DoIceFixNewOrder
  | DoIceFixCancel
  | DoIceFixReplace
  | DoIceFixMassCancel
  | DoKrxFixNewOrder
  | DoKrxFixCancel
  | DoKrxFixReplace
  | DoSessionStart
  | DoSessionOpen
  | DoSessionClose.

Record ParsedAction : Type := mkAction { act_type : action_type; act_fields : field_map }.
Record ParsedExpectation : Type := mkExpectation { event_type : list Z; exp_fields : field_map }.
Record JournalEntry : Type := mkEntry { action : ParsedAction; expectations : list ParsedExpectation }.
Record Journal : Type := mkJournal { j_config : ParsedConfig; j_entries : list JournalEntry }.

(** [get_int] and [get_str] of actions and of expectations. *)
Definition field_str (m : field_map) (key : list Z) : throws (list Z) :=
  match m !! key with Some v => inr v | None => inl (MissingField key) end.
Definition field_int (m : field_map) (key : list Z) : throws Z := v ← field_str m key; stoll v.
Definition action_str (a : ParsedAction) (key : list Z) : throws (list Z) := field_str a.(act_fields) key.
Definition action_int (a : ParsedAction) (key : list Z) : throws Z := field_int a.(act_fields) key.
Definition expect_str (e : ParsedExpectation) (key : list Z) : throws (list Z) := field_str e.(exp_fields) key.
Definition expect_int (e : ParsedExpectation) (key : list Z) : throws Z := field_int e.(exp_fields) key.

(** ** Parser *)

(** [std::getline] to the end of the text. *)
Fixpoint lines_from (line bs : list Z) : list (list Z) :=
  match bs with
  | [] => match line with [] => [] | _ => [line] end
  | b :: bs' => if b =? 10 then line :: lines_from [] bs' else lines_from (line ++ [b]) bs'
  end.
Definition lines (bs : list Z) : list (list Z) := lines_from [] bs.

(** [stream >> token]: the words between white space. *)
Fixpoint split_from (token bs : list Z) : list (list Z) :=
  match bs with
  | [] => match token with [] => [] | _ => [token] end
  | b :: bs' =>
      if is_space b then match token with [] => split_from [] bs' | _ => token :: split_from [] bs' end
      else split_from (token ++ [b]) bs'
  end.
Definition split (line : list Z) : list (list Z) := split_from [] line.

(** A trailing carriage return is dropped. *)
Definition strip_cr (line : list Z) : list Z :=
  match last line with Some 13 => removelast line | _ => line end.
(** The first character that is no blank or tab. *)
Fixpoint first_visible (line : list Z) : option Z :=
  match line with
  | [] => None
  | b :: line' => if (b =? 32) || (b =? 9) then first_visible line' else Some b
  end.

Fixpoint parse_kv_tokens (tokens : list (list Z)) (out : field_map) (line_number : Z) : throws field_map :=
  match tokens with
  | [] => inr out
  | tok :: tokens' =>
      match split_at 61 tok with
      | None => inl (AtLine line_number (MalformedToken tok))
      | Some (key, value) => parse_kv_tokens tokens' (<[key := value]> out) line_number
      end
  end.

Definition apply_int (kv : field_map) (key : list Z) (field : Z) : throws Z :=
  match kv !! key with Some v => stoll v | None => inr field end.
Definition apply_config (kv : field_map) (cfg : ParsedConfig) : throws ParsedConfig :=
  let algo := default cfg.(match_algo) (kv !! chars "match_algo") in
  tick_size ← apply_int kv (chars "tick_size") cfg.(cfg_tick_size);
  lot_size ← apply_int kv (chars "lot_size") cfg.(cfg_lot_size);
  orders ← apply_int kv (chars "max_orders") cfg.(max_orders);
  levels ← apply_int kv (chars "max_levels") cfg.(max_levels);
  order_ids ← apply_int kv (chars "max_order_ids") cfg.(max_order_ids);
  band_low ← apply_int kv (chars "price_band_low") cfg.(cfg_price_band_low);
  band_high ← apply_int kv (chars "price_band_high") cfg.(cfg_price_band_high);
  limit ← apply_int kv (chars "rate_limit") cfg.(rate_limit);
  interval ← apply_int kv (chars "rate_interval") cfg.(rate_interval);
  limit_high ← apply_int kv (chars "daily_limit_high") cfg.(cfg_daily_limit_high);
  limit_low ← apply_int kv (chars "daily_limit_low") cfg.(cfg_daily_limit_low);
  inr (mkParsedConfig algo tick_size lot_size orders levels order_ids band_low band_high limit interval limit_high limit_low).

Definition parse_action_type (s : list Z) : option action_type :=
  if bool_decide (s = chars "NEW_ORDER") then Some DoNewOrder
  else if bool_decide (s = chars "CANCEL") then Some DoCancel
  else if bool_decide (s = chars "MODIFY") then Some DoModify
  else if bool_decide (s = chars "TRIGGER_EXPIRY") then Some DoTriggerExpiry
  else if bool_decide (s = chars "SET_SESSION_STATE") then Some DoSetSessionState
  else if bool_decide (s = chars "EXECUTE_AUCTION") then Some DoExecuteAuction
  else if bool_decide (s = chars "PUBLISH_INDICATIVE") then Some DoPublishIndicative
  else if bool_decide (s = chars "MASS_CANCEL") then Some DoMassCancel
  else if bool_decide (s = chars "MASS_CANCEL_ALL") then Some DoMassCancelAll
  else if bool_decide (s = chars "RESTORE_ORDER") then Some DoRestoreOrder
  else if bool_decide (s = chars "BUST_TRADE") then Some DoBustTrade
  else if bool_decide (s = chars "ILINK3_NEW_ORDER") then Some DoILink3NewOrder
  else if bool_decide (s = chars "ILINK3_CANCEL") then Some DoILink3Cancel
  else if bool_decide (s = chars "ILINK3_REPLACE") then Some DoILink3Replace
  else if bool_decide (s = chars "ILINK3_MASS_CANCEL") then Some DoILink3MassCancel
  else if bool_decide (s = chars "ICE_FIX_NEW_ORDER") then Some DoIceFixNewOrder
  else if bool_decide (s = chars "ICE_FIX_CANCEL") then Some DoIceFixCancel
  else if bool_decide (s = chars "ICE_FIX_REPLACE") then Some DoIceFixReplace
  else if bool_decide (s = chars "ICE_FIX_MASS_CANCEL") then Some DoIceFixMassCancel
  else if bool_decide (s = chars "KRX_FIX_NEW_ORDER") then Some DoKrxFixNewOrder
  else if bool_decide (s = chars "KRX_FIX_CANCEL") then Some DoKrxFixCancel
  else if bool_decide (s = chars "KRX_FIX_REPLACE") then Some DoKrxFixReplace
  else if bool_decide (s = chars "SESSION_START") then Some DoSessionStart
  else if bool_decide (s = chars "SESSION_OPEN") then Some DoSessionOpen
  else if bool_decide (s = chars "SESSION_CLOSE") then Some DoSessionClose
  else None.

(** What has been read: the configuration and the entries, last first, so that
    the head is the current entry. *)
Record parser_state : Type := mkParser { ps_config : ParsedConfig; ps_entries : list JournalEntry }.

Definition parse_line (line_number : Z) (raw : list Z) (s : parser_state) : throws parser_state :=
  let line := strip_cr raw in
  match first_visible line with
  | None | Some 35 => inr s
  | Some _ =>
      match split line with
      | [] => inr s
      | keyword :: rest =>
          if bool_decide (keyword = chars "CONFIG") then
            kv ← parse_kv_tokens rest ∅ line_number;
            cfg ← apply_config kv s.(ps_config);
            inr (mkParser cfg s.(ps_entries))
          else if bool_decide (keyword = chars "ACTION") then
            match rest with
            | [] => inl (AtLine line_number MissingActionType)
            | type_str :: rest =>
                match parse_action_type type_str with
                | None => inl (AtLine line_number (UnknownActionType type_str))
                | Some atype =>
                    kv ← parse_kv_tokens rest ∅ line_number;
                    inr (mkParser s.(ps_config) (mkEntry (mkAction atype kv) [] :: s.(ps_entries)))
                end
            end
          else if bool_decide (keyword = chars "EXPECT") then
            match s.(ps_entries) with
            | [] => inl (AtLine line_number ExpectBeforeAction)
            | current :: earlier =>
                match rest with
                | [] => inl (AtLine line_number MissingEventType)
                | event_type :: rest =>
                    kv ← parse_kv_tokens rest ∅ line_number;
                    inr (mkParser s.(ps_config)
                      (mkEntry current.(action) (current.(expectations) ++ [mkExpectation event_type kv]) :: earlier))
                end
            end
          else inl (AtLine line_number (UnknownKeyword keyword))
      end
  end.

Fixpoint parse_lines (line_number : Z) (ls : list (list Z)) (s : parser_state) : throws parser_state :=
  match ls with
  | [] => inr s
  | l :: ls' => s ← parse_line line_number l s; parse_lines (line_number + 1) ls' s
  end.
Definition parse_string (content : list Z) : throws Journal :=
  s ← parse_lines 1 (lines content) (mkParser default_config []);
  inr (mkJournal s.(ps_config) (rev s.(ps_entries))).

(** ** Writer *)

(** [" key=value"]. *)
Definition kv_text (kv : list Z * list Z) : list Z := 32 :: kv.1 ++ 61 :: kv.2.
Definition kv_texts (kvs : list (list Z * list Z)) : list Z := kvs ≫= kv_text.

Definition config_fields (c : ParsedConfig) : list (list Z * list Z) :=
  [(chars "match_algo", c.(match_algo)); (chars "tick_size", signed_decimal c.(cfg_tick_size));
   (chars "lot_size", signed_decimal c.(cfg_lot_size)); (chars "max_orders", signed_decimal c.(max_orders));
   (chars "max_levels", signed_decimal c.(max_levels)); (chars "max_order_ids", signed_decimal c.(max_order_ids));
   (chars "price_band_low", signed_decimal c.(cfg_price_band_low));
   (chars "price_band_high", signed_decimal c.(cfg_price_band_high))].
Definition config_to_config_lines (c : ParsedConfig) : list Z := chars "CONFIG" ++ kv_texts (config_fields c).

Definition action_name (t : action_type) : list Z :=
  match t with
  | DoNewOrder => chars "NEW_ORDER"
  | DoCancel => chars "CANCEL"
  | DoModify => chars "MODIFY"
  | DoTriggerExpiry => chars "TRIGGER_EXPIRY"
  | DoSetSessionState => chars "SET_SESSION_STATE"
  | DoExecuteAuction => chars "EXECUTE_AUCTION"
  | DoPublishIndicative => chars "PUBLISH_INDICATIVE"
  | DoMassCancel => chars "MASS_CANCEL"
  | DoMassCancelAll => chars "MASS_CANCEL_ALL"
  | DoRestoreOrder => chars "RESTORE_ORDER"
  | DoBustTrade => chars "BUST_TRADE"
  | DoILink3NewOrder => chars "ILINK3_NEW_ORDER"
  | DoILink3Cancel => chars "ILINK3_CANCEL"
  | DoILink3Replace => chars "ILINK3_REPLACE"
  | DoILink3MassCancel => chars "ILINK3_MASS_CANCEL"
  | DoIceFixNewOrder => chars "ICE_FIX_NEW_ORDER"
  | DoIceFixCancel => chars "ICE_FIX_CANCEL"
  | DoIceFixReplace => chars "ICE_FIX_REPLACE"
  | DoIceFixMassCancel => chars "ICE_FIX_MASS_CANCEL"
  | DoKrxFixNewOrder => chars "KRX_FIX_NEW_ORDER"
  | DoKrxFixCancel => chars "KRX_FIX_CANCEL"
  | DoKrxFixReplace => chars "KRX_FIX_REPLACE"
  | DoSessionStart => chars "SESSION_START"
  | DoSessionOpen => chars "SESSION_OPEN"
  | DoSessionClose => chars "SESSION_CLOSE"
  end.

(** The fields emitted first, which are also the known ones. *)
Definition canonical_fields (t : action_type) : list (list Z) :=
  chars <$>
  match t with
  | DoNewOrder => ["ts"; "cl_ord_id"; "account_id"; "side"; "price"; "qty"; "type"; "tif"; "stop_price";
            "gtd_expiry"]
  | DoCancel => ["ts"; "ord_id"]
  | DoModify => ["ts"; "ord_id"; "cl_ord_id"; "new_price"; "new_qty"]
  | DoTriggerExpiry => ["ts"; "tif"]
  | DoSetSessionState => ["ts"; "state"]
  | DoExecuteAuction => ["ts"; "reference_price"]
  | DoPublishIndicative => ["ts"; "reference_price"]
  | DoMassCancel => ["ts"; "account_id"]
  | DoMassCancelAll => ["ts"]
  | DoRestoreOrder => ["ts"; "ord_id"; "cl_ord_id"; "account_id"; "side"; "price"; "qty"; "filled_qty";
            "remaining_qty"; "type"; "tif"; "display_qty"; "total_qty"]
  | DoBustTrade => ["ts"; "trade_id"]
  | DoILink3NewOrder => ["ts"; "instrument"; "cl_ord_id"; "account"; "side"; "price"; "qty"; "type"; "tif";
            "display_qty"; "stop_price"]
  | DoILink3Cancel => ["ts"; "instrument"; "cl_ord_id"; "orig_cl_ord_id"]
  | DoILink3Replace => ["ts"; "instrument"; "cl_ord_id"; "orig_cl_ord_id"; "price"; "qty"]
  | DoILink3MassCancel => ["ts"; "instrument"; "account"]
  | DoIceFixNewOrder => ["ts"; "instrument"; "cl_ord_id"; "account"; "side"; "price"; "qty"; "type"; "tif";
            "display_qty"; "originator_user_id"; "account_code"; "memo"]
  | DoIceFixCancel => ["ts"; "instrument"; "cl_ord_id"; "orig_cl_ord_id"; "side"]
  | DoIceFixReplace => ["ts"; "instrument"; "cl_ord_id"; "orig_cl_ord_id"; "price"; "qty"; "side"]
  | DoIceFixMassCancel => ["ts"; "instrument"; "account"]
  | DoKrxFixNewOrder => ["ts"; "instrument"; "cl_ord_id"; "account"; "side"; "price"; "qty"; "type"; "tif";
            "display_qty"; "program_trading"; "investor_type"; "board_id"]
  | DoKrxFixCancel => ["ts"; "instrument"; "cl_ord_id"; "orig_cl_ord_id"; "side"]
  | DoKrxFixReplace => ["ts"; "instrument"; "cl_ord_id"; "orig_cl_ord_id"; "price"; "qty"; "side"]
  | DoSessionStart => ["ts"; "state"]
  | DoSessionOpen => ["ts"]
  | DoSessionClose => ["ts"]
  end%string.

(** The canonical fields that are there, then the others as the map is walked. *)
Definition written_fields {order : FieldOrder} (a : ParsedAction) : list (list Z * list Z) :=
  let known := canonical_fields a.(act_type) in
  omap (λ k, v ← a.(act_fields) !! k; Some (k, v)) known ++
  filter (λ kv : list Z * list Z, kv.1 ∉ known) (walk a.(act_fields)).
Definition action_to_action_line {order : FieldOrder} (a : ParsedAction) : list Z :=
  chars "ACTION " ++ action_name a.(act_type) ++ kv_texts (written_fields a).

Definition expectation_line {order : FieldOrder} (e : ParsedExpectation) : list Z :=
  chars "EXPECT " ++ e.(event_type) ++ kv_texts (walk e.(exp_fields)).

Definition entry_to_string {order : FieldOrder} (e : JournalEntry) : list Z :=
  [10] ++ action_to_action_line e.(action) ++ [10] ++
  (e.(expectations) ≫= λ x, expectation_line x ++ [10]).
Definition journal_to_string {order : FieldOrder} (c : ParsedConfig) (entries : list JournalEntry) : list Z :=
  config_to_config_lines c ++ [10] ++ (entries ≫= entry_to_string).

(** ** Events *)

Definition side_to_journal (s : Side) : list Z := match s with Buy => chars "BUY" | Sell => chars "SELL" end.
Definition depth_action_to_journal (v : DepthAction) : list Z :=
  match v with
  | DepthAdd => chars "ADD"
  | DepthUpd => chars "UPDATE"
  | DepthRemove => chars "REMOVE"
  end.
Definition book_action_to_journal (v : BookAction) : list Z :=
  match v with
  | ActAdd => chars "ADD"
  | ActModify => chars "MODIFY"
  | ActCancel => chars "CANCEL"
  | ActFill => chars "FILL"
  end.
Definition reject_reason_to_journal (v : RejectReason) : list Z :=
  match v with
  | PoolExhausted => chars "POOL_EXHAUSTED"
  | InvalidPrice => chars "INVALID_PRICE"
  | InvalidQuantity => chars "INVALID_QUANTITY"
  | InvalidTif => chars "INVALID_TIF"
  | InvalidSide => chars "INVALID_SIDE"
  | UnknownOrder => chars "UNKNOWN_ORDER"
  | PriceBandViolation => chars "PRICE_BAND_VIOLATION"
  | RLevelPoolExhausted => chars "LEVEL_POOL_EXHAUSTED"
  | MaxOrderSizeExceeded => chars "MAX_ORDER_SIZE_EXCEEDED"
  | RateThrottled => chars "RATE_THROTTLED"
  | LockLimitUp => chars "LOCK_LIMIT_UP"
  | LockLimitDown => chars "LOCK_LIMIT_DOWN"
  | PositionLimitExceeded => chars "POSITION_LIMIT_EXCEEDED"
  | RExchangeSpecific => chars "EXCHANGE_SPECIFIC"
  end.
Definition session_state_to_journal (v : SessionState) : list Z :=
  match v with
  | Closed => chars "CLOSED"
  | PreOpen => chars "PRE_OPEN"
  | OpeningAuction => chars "OPENING_AUCTION"
  | Continuous => chars "CONTINUOUS"
  | PreClose => chars "PRE_CLOSE"
  | ClosingAuction => chars "CLOSING_AUCTION"
  | Halt => chars "HALT"
  | VolatilityAuction => chars "VOLATILITY_AUCTION"
  | LockLimit => chars "LOCK_LIMIT"
  end.
Definition cancel_reason_to_journal (v : CancelReason) : list Z :=
  match v with
  | UserRequested => chars "USER_REQUESTED"
  | IOCRemainder => chars "IOC_REMAINDER"
  | FOKFailed => chars "FOK_FAILED"
  | Expired => chars "EXPIRED"
  | SelfMatchPrevention => chars "SELF_MATCH_PREVENTION"
  | CLevelPoolExhausted => chars "LEVEL_POOL_EXHAUSTED"
  | MassCancelled => chars "MASS_CANCELLED"
  end.

(** Type and fields of the line for an event; busts and lock limits have none. *)
Definition expectation_of (e : event) : option (list Z * list (list Z * list Z)) :=
  match e with
  | OrderAccepted id client_order_id ts =>
      Some (chars "ORDER_ACCEPTED",
        [(chars "ord_id", decimal id); (chars "cl_ord_id", decimal client_order_id);
         (chars "ts", signed_decimal ts)])
  | OrderRejected client_order_id ts reason =>
      Some (chars "ORDER_REJECTED",
        [(chars "cl_ord_id", decimal client_order_id); (chars "ts", signed_decimal ts);
         (chars "reason", reject_reason_to_journal reason)])
  | OrderFilled aggressor_id resting_id price quantity ts =>
      Some (chars "ORDER_FILLED",
        [(chars "aggressor", decimal aggressor_id); (chars "resting", decimal resting_id);
         (chars "price", signed_decimal price); (chars "qty", signed_decimal quantity);
         (chars "ts", signed_decimal ts)])
  | OrderPartiallyFilled aggressor_id resting_id price quantity aggressor_remaining resting_remaining ts =>
      Some (chars "ORDER_PARTIALLY_FILLED",
        [(chars "aggressor", decimal aggressor_id); (chars "resting", decimal resting_id);
         (chars "price", signed_decimal price); (chars "qty", signed_decimal quantity);
         (chars "aggressor_rem", signed_decimal aggressor_remaining);
         (chars "resting_rem", signed_decimal resting_remaining); (chars "ts", signed_decimal ts)])
  | OrderCancelled id ts reason =>
      Some (chars "ORDER_CANCELLED",
        [(chars "ord_id", decimal id); (chars "ts", signed_decimal ts);
         (chars "reason", cancel_reason_to_journal reason)])
  | OrderCancelRejected id client_order_id ts reason =>
      Some (chars "ORDER_CANCEL_REJECTED",
        [(chars "ord_id", decimal id); (chars "cl_ord_id", decimal client_order_id);
         (chars "ts", signed_decimal ts); (chars "reason", reject_reason_to_journal reason)])
  | OrderModified id client_order_id new_price new_qty ts =>
      Some (chars "ORDER_MODIFIED",
        [(chars "ord_id", decimal id); (chars "cl_ord_id", decimal client_order_id);
         (chars "new_price", signed_decimal new_price); (chars "new_qty", signed_decimal new_qty);
         (chars "ts", signed_decimal ts)])
  | OrderModifyRejected id client_order_id ts reason =>
      Some (chars "ORDER_MODIFY_REJECTED",
        [(chars "ord_id", decimal id); (chars "cl_ord_id", decimal client_order_id);
         (chars "ts", signed_decimal ts); (chars "reason", reject_reason_to_journal reason)])
  | TopOfBook best_bid bid_qty best_ask ask_qty ts =>
      Some (chars "TOP_OF_BOOK",
        [(chars "bid", signed_decimal best_bid); (chars "bid_qty", signed_decimal bid_qty);
         (chars "ask", signed_decimal best_ask); (chars "ask_qty", signed_decimal ask_qty);
         (chars "ts", signed_decimal ts)])
  | DepthUpdate side price total_qty order_count action ts =>
      Some (chars "DEPTH_UPDATE",
        [(chars "side", side_to_journal side); (chars "price", signed_decimal price);
         (chars "qty", signed_decimal total_qty); (chars "count", decimal order_count);
         (chars "action", depth_action_to_journal action); (chars "ts", signed_decimal ts)])
  | OrderBookAction id side price qty action ts =>
      Some (chars "ORDER_BOOK_ACTION",
        [(chars "ord_id", decimal id); (chars "side", side_to_journal side);
         (chars "price", signed_decimal price); (chars "qty", signed_decimal qty);
         (chars "action", book_action_to_journal action); (chars "ts", signed_decimal ts)])
  | Trade price quantity aggressor_id resting_id aggressor_side ts =>
      Some (chars "TRADE",
        [(chars "price", signed_decimal price); (chars "qty", signed_decimal quantity);
         (chars "aggressor", decimal aggressor_id); (chars "resting", decimal resting_id);
         (chars "aggressor_side", side_to_journal aggressor_side); (chars "ts", signed_decimal ts)])
  | MarketStatus state ts =>
      Some (chars "MARKET_STATUS",
        [(chars "state", session_state_to_journal state); (chars "ts", signed_decimal ts)])
  | IndicativePrice price matched_volume buy_surplus sell_surplus ts =>
      Some (chars "INDICATIVE_PRICE",
        [(chars "price", signed_decimal price); (chars "matched_vol", signed_decimal matched_volume);
         (chars "buy_surplus", signed_decimal buy_surplus);
         (chars "sell_surplus", signed_decimal sell_surplus); (chars "ts", signed_decimal ts)])
  | TradeBusted _ _ _ _ _ _ _ | LockLimitTriggered _ _ _ _ => None
  end.
Definition event_to_expect_line (e : event) : list Z :=
  match expectation_of e with
  | Some (type, fields) => chars "EXPECT " ++ type ++ kv_texts fields
  | None => []
  end.

(** [recorded_event.cc]: events as a person reads them. *)
Definition side_str (s : Side) : list Z := match s with Buy => chars "Buy" | Sell => chars "Sell" end.
Definition depth_action_str (v : DepthAction) : list Z :=
  match v with
  | DepthAdd => chars "Add"
  | DepthUpd => chars "Update"
  | DepthRemove => chars "Remove"
  end.
Definition book_action_str (v : BookAction) : list Z :=
  match v with
  | ActAdd => chars "Add"
  | ActModify => chars "Modify"
  | ActCancel => chars "Cancel"
  | ActFill => chars "Fill"
  end.
Definition reject_reason_str (v : RejectReason) : list Z :=
  match v with
  | PoolExhausted => chars "PoolExhausted"
  | InvalidPrice => chars "InvalidPrice"
  | InvalidQuantity => chars "InvalidQuantity"
  | InvalidTif => chars "InvalidTif"
  | InvalidSide => chars "InvalidSide"
  | UnknownOrder => chars "UnknownOrder"
  | PriceBandViolation => chars "PriceBandViolation"
  | RLevelPoolExhausted => chars "LevelPoolExhausted"
  | MaxOrderSizeExceeded => chars "MaxOrderSizeExceeded"
  | RateThrottled => chars "RateThrottled"
  | LockLimitUp => chars "LockLimitUp"
  | LockLimitDown => chars "LockLimitDown"
  | PositionLimitExceeded => chars "PositionLimitExceeded"
  | RExchangeSpecific => chars "ExchangeSpecific"
  end.
Definition session_state_str (v : SessionState) : list Z :=
  match v with
  | Closed => chars "Closed"
  | PreOpen => chars "PreOpen"
  | OpeningAuction => chars "OpeningAuction"
  | Continuous => chars "Continuous"
  | PreClose => chars "PreClose"
  | ClosingAuction => chars "ClosingAuction"
  | Halt => chars "Halt"
  | VolatilityAuction => chars "VolatilityAuction"
  | LockLimit => chars "LockLimit"
  end.
Definition cancel_reason_str (v : CancelReason) : list Z :=
  match v with
  | UserRequested => chars "UserRequested"
  | IOCRemainder => chars "IOCRemainder"
  | FOKFailed => chars "FOKFailed"
  | Expired => chars "Expired"
  | SelfMatchPrevention => chars "SelfMatchPrevention"
  | CLevelPoolExhausted => chars "LevelPoolExhausted"
  | MassCancelled => chars "MassCancelled"
  end.
Definition bust_reason_str (v : BustReason) : list Z :=
  match v with
  | ErroneousTrade => chars "ErroneousTrade"
  | SystemError => chars "SystemError"
  | Regulatory => chars "Regulatory"
  | BExchangeSpecific => chars "ExchangeSpecific"
  end.

(** [Name{key=value, ...}]. *)
Fixpoint commas (kvs : list (list Z * list Z)) : list Z :=
  match kvs with
  | [] => []
  | [(k, v)] => k ++ 61 :: v
  | (k, v) :: kvs' => (k ++ 61 :: v) ++ chars ", " ++ commas kvs'
  end.
Definition braced (name : list Z) (kvs : list (list Z * list Z)) : list Z := name ++ chars "{" ++ commas kvs ++ chars "}".
Definition to_string (e : event) : list Z :=
  match e with
  | OrderAccepted id client_order_id ts =>
      braced (chars "OrderAccepted")
        [(chars "id", decimal id); (chars "cl_ord_id", decimal client_order_id);
         (chars "ts", signed_decimal ts)]
  | OrderRejected client_order_id ts reason =>
      braced (chars "OrderRejected")
        [(chars "cl_ord_id", decimal client_order_id); (chars "reason", reject_reason_str reason);
         (chars "ts", signed_decimal ts)]
  | OrderFilled aggressor_id resting_id price quantity ts =>
      braced (chars "OrderFilled")
        [(chars "aggressor", decimal aggressor_id); (chars "resting", decimal resting_id);
         (chars "price", signed_decimal price); (chars "qty", signed_decimal quantity);
         (chars "ts", signed_decimal ts)]
  | OrderPartiallyFilled aggressor_id resting_id price quantity aggressor_remaining resting_remaining ts =>
      braced (chars "OrderPartiallyFilled")
        [(chars "aggressor", decimal aggressor_id); (chars "resting", decimal resting_id);
         (chars "price", signed_decimal price); (chars "qty", signed_decimal quantity);
         (chars "aggressor_rem", signed_decimal aggressor_remaining);
         (chars "resting_rem", signed_decimal resting_remaining); (chars "ts", signed_decimal ts)]
  | OrderCancelled id ts reason =>
      braced (chars "OrderCancelled")
        [(chars "id", decimal id); (chars "reason", cancel_reason_str reason);
         (chars "ts", signed_decimal ts)]
  | OrderCancelRejected id client_order_id ts reason =>
      braced (chars "OrderCancelRejected")
        [(chars "id", decimal id); (chars "cl_ord_id", decimal client_order_id);
         (chars "reason", reject_reason_str reason); (chars "ts", signed_decimal ts)]
  | OrderModified id client_order_id new_price new_qty ts =>
      braced (chars "OrderModified")
        [(chars "id", decimal id); (chars "cl_ord_id", decimal client_order_id);
         (chars "new_price", signed_decimal new_price); (chars "new_qty", signed_decimal new_qty);
         (chars "ts", signed_decimal ts)]
  | OrderModifyRejected id client_order_id ts reason =>
      braced (chars "OrderModifyRejected")
        [(chars "id", decimal id); (chars "cl_ord_id", decimal client_order_id);
         (chars "reason", reject_reason_str reason); (chars "ts", signed_decimal ts)]
  | TopOfBook best_bid bid_qty best_ask ask_qty ts =>
      braced (chars "TopOfBook")
        [(chars "bid", signed_decimal best_bid); (chars "bid_qty", signed_decimal bid_qty);
         (chars "ask", signed_decimal best_ask); (chars "ask_qty", signed_decimal ask_qty);
         (chars "ts", signed_decimal ts)]
  | DepthUpdate side price total_qty order_count action ts =>
      braced (chars "DepthUpdate")
        [(chars "side", side_str side); (chars "price", signed_decimal price);
         (chars "qty", signed_decimal total_qty); (chars "count", decimal order_count);
         (chars "action", depth_action_str action); (chars "ts", signed_decimal ts)]
  | OrderBookAction id side price qty action ts =>
      braced (chars "OrderBookAction")
        [(chars "id", decimal id); (chars "side", side_str side); (chars "price", signed_decimal price);
         (chars "qty", signed_decimal qty); (chars "action", book_action_str action);
         (chars "ts", signed_decimal ts)]
  | Trade price quantity aggressor_id resting_id aggressor_side ts =>
      braced (chars "Trade")
        [(chars "aggressor", decimal aggressor_id); (chars "resting", decimal resting_id);
         (chars "price", signed_decimal price); (chars "qty", signed_decimal quantity);
         (chars "side", side_str aggressor_side); (chars "ts", signed_decimal ts)]
  | MarketStatus state ts =>
      braced (chars "MarketStatus")
        [(chars "state", session_state_str state); (chars "ts", signed_decimal ts)]
  | IndicativePrice price matched_volume buy_surplus sell_surplus ts =>
      braced (chars "IndicativePrice")
        [(chars "price", signed_decimal price); (chars "matched_vol", signed_decimal matched_volume);
         (chars "buy_surplus", signed_decimal buy_surplus);
         (chars "sell_surplus", signed_decimal sell_surplus); (chars "ts", signed_decimal ts)]
  | TradeBusted trade_id aggressor_id resting_id price quantity reason ts =>
      braced (chars "TradeBusted")
        [(chars "trade_id", decimal trade_id); (chars "aggressor", decimal aggressor_id);
         (chars "resting", decimal resting_id); (chars "price", signed_decimal price);
         (chars "qty", signed_decimal quantity); (chars "reason", bust_reason_str reason);
         (chars "ts", signed_decimal ts)]
  | LockLimitTriggered side limit_price last_trade_price ts =>
      braced (chars "LockLimitTriggered")
        [(chars "side", side_str side); (chars "limit_price", signed_decimal limit_price);
         (chars "last_trade_price", signed_decimal last_trade_price); (chars "ts", signed_decimal ts)]
  end.
