(* ===== verification/JournalTheorems.v ===== *)
(** * Journals: what is written is read back

    A journal of words comes back from text as it was, whatever order its maps
    are walked in; only the limits that the writer leaves out are lost. *)

From Stdlib Require Import Ascii String.
From S2P Require Import Prelude Types Text Journal.

#[local] Open Scope Z_scope.

(** ** Words and lines *)

Definition plain (v : list Z) : Prop := Forall (λ b, is_space b = false) v.
Definition word (v : list Z) : Prop := v ≠ [] ∧ plain v.
#[global] Instance plain_dec v : Decision (plain v).
Proof. unfold plain. apply _. Defined.
#[global] Instance word_dec v : Decision (word v).
Proof. unfold word. apply _. Defined.

Lemma plain_app v w : plain v → plain w → plain (v ++ w).
Proof. intros Hv Hw. apply Forall_app. by split. Qed.
Lemma plain_not_elem c v : is_space c = true → plain v → c ∉ v.
Proof. intros Hc Hv Hin. unfold plain in Hv. rewrite Forall_forall in Hv. apply Hv in Hin. congruence. Qed.
Lemma digits_plain ds : all_digits ds → plain ds.
Proof.
  intros H. eapply Forall_impl; [exact H|]. intros c Hc. cbn in Hc. unfold is_space.
  rewrite (proj2 (Z.eqb_neq c 32)), (proj2 (Z.leb_gt c 13)) by lia. by rewrite andb_false_r.
Qed.
Lemma signed_plain v : plain (signed_decimal v).
Proof.
  unfold signed_decimal. destruct (Z.ltb_spec v 0).
  - apply (plain_app [45]); [by apply (bool_decide_unpack _)|]. apply digits_plain, decimal_digits. lia.
  - by apply digits_plain, decimal_digits.
Qed.
Lemma decimal_plain v : 0 <= v → plain (decimal v).
Proof. intros Hv. by apply digits_plain, decimal_digits. Qed.

(** Words after one another. *)
Definition spaced (ts : list (list Z)) : list Z := ts ≫= λ t, 32 :: t.

Lemma split_from_plain token w rest : plain w → split_from token (w ++ rest) = split_from (token ++ w) rest.
Proof.
  intros H. revert token. induction H as [|b w Hb _ IH]; intros token; cbn; [by rewrite app_nil_r|].
  rewrite Hb, IH. by rewrite <- app_assoc.
Qed.
Lemma split_from_spaced token ts : token ≠ [] → Forall word ts → split_from token (spaced ts) = token :: ts.
Proof.
  intros Ht H. revert token Ht. induction H as [|t ts [Hne Hp] _ IH]; intros token Ht.
  - by destruct token.
  - unfold spaced. cbn. destruct token; [done|]. f_equal. fold (spaced ts).
    rewrite split_from_plain by done. by apply IH.
Qed.
Lemma split_words w ts : word w → Forall word ts → split (w ++ spaced ts) = w :: ts.
Proof. intros [Hne Hp] Hts. unfold split. rewrite split_from_plain by done. by apply split_from_spaced. Qed.

Lemma spaced_app ts us : spaced (ts ++ us) = spaced ts ++ spaced us.
Proof. apply bind_app. Qed.
Lemma spaced_not_elem c w ts : is_space c = true → c ≠ 32 → plain w → Forall word ts → c ∉ w ++ spaced ts.
Proof.
  intros Hc H32 Hw Hts [H|H]%elem_of_app; [by eapply plain_not_elem|].
  apply list_elem_of_bind in H as (t & Hin & Ht). rewrite Forall_forall in Hts. destruct (Hts t Ht) as [_ Hp].
  apply elem_of_cons in Hin as [?|Hin]; [done|]. by eapply plain_not_elem.
Qed.

Lemma lines_from_app line l rest : 10 ∉ l → lines_from line (l ++ 10 :: rest) = (line ++ l) :: lines_from [] rest.
Proof.
  revert line. induction l as [|b l IH]; intros line Hl; cbn; [by rewrite app_nil_r|].
  apply not_elem_of_cons in Hl as [Hb Hl]. rewrite (proj2 (Z.eqb_neq b 10)) by congruence.
  rewrite IH by done. by rewrite <- app_assoc.
Qed.
Lemma lines_joined ls : Forall (λ l, 10 ∉ l) ls → lines (ls ≫= λ l, l ++ [10]) = ls.
Proof.
  unfold lines. induction 1 as [|l ls Hl _ IH]; [done|]. cbn. rewrite <- app_assoc. cbn [app].
  rewrite lines_from_app by done. by rewrite IH.
Qed.

Lemma strip_cr_none line : 13 ∉ line → strip_cr line = line.
Proof.
  intros H. unfold strip_cr. destruct (last line) as [c|] eqn:E; [|done].
  assert (Hc : c ≠ 13) by (intros ->; by apply H, last_Some_elem_of).
  destruct c as [|p|p]; [done| |done]. by do 4 (try destruct p as [p|p|]).
Qed.

(** ** Fields *)

Definition kv_token (kv : list Z * list Z) : list Z := kv.1 ++ 61 :: kv.2.
Definition field_ok (kv : list Z * list Z) : Prop := 61 ∉ kv.1 ∧ plain kv.1 ∧ plain kv.2.
#[global] Instance field_ok_dec kv : Decision (field_ok kv).
Proof. unfold field_ok. apply _. Defined.
Definition insert_all (kvs : list (list Z * list Z)) (m : field_map) : field_map :=
  fold_left (λ m kv, <[kv.1 := kv.2]> m) kvs m.

Lemma kv_texts_spaced kvs : kv_texts kvs = spaced (kv_token <$> kvs).
Proof. unfold kv_texts, spaced. induction kvs as [|[k v] kvs IH]; [done|]. cbn. by rewrite <- IH. Qed.
Lemma kv_token_word kv : field_ok kv → word (kv_token kv).
Proof.
  intros (_ & Hk & Hv). split; [by destruct kv as [[|] ?]|]. apply plain_app; [done|].
  apply (plain_app [61]); [by apply (bool_decide_unpack _)|done].
Qed.
Lemma kv_tokens_words kvs : Forall field_ok kvs → Forall word (kv_token <$> kvs).
Proof. intros H. apply Forall_fmap. eapply Forall_impl; [exact H|]. intros kv. apply kv_token_word. Qed.

Lemma parse_kv_written kvs out n : Forall field_ok kvs → parse_kv_tokens (kv_token <$> kvs) out n = inr (insert_all kvs out).
Proof.
  intros H. revert out. induction H as [|[k v] kvs (Hk & _ & _) _ IH]; intros out; [done|]. cbn [fmap list_fmap parse_kv_tokens].
  unfold kv_token at 1. cbn [fst snd] in *. rewrite split_at_app by done. by rewrite IH.
Qed.

Lemma insert_all_other kvs m k : k ∉ kvs.*1 → insert_all kvs m !! k = m !! k.
Proof.
  revert m. induction kvs as [|[k' v'] kvs IH]; intros m; [done|]. cbn [fmap list_fmap].
  intros [Hne Hk]%not_elem_of_cons. change (insert_all kvs (<[k' := v']> m) !! k = m !! k). rewrite IH by done. by rewrite lookup_insert_ne.
Qed.
Lemma insert_all_lookup kvs m k v : NoDup kvs.*1 → (k, v) ∈ kvs → insert_all kvs m !! k = Some v.
Proof.
  revert m. induction kvs as [|[k' v'] kvs IH]; intros m; [by intros _ ?%not_elem_of_nil|].
  cbn [fmap list_fmap]. intros [Hk Hn]%NoDup_cons Hin. change (insert_all kvs (<[k' := v']> m) !! k = Some v).
  apply elem_of_cons in Hin as [E|Hin]; [|by apply IH]. injection E as -> ->.
  rewrite insert_all_other by done. by rewrite lookup_insert_eq.
Qed.
(** The fields of a map, each once, in any order. *)
Lemma insert_all_fields (kvs : list (list Z * list Z)) (m : field_map) : NoDup kvs.*1 → (∀ k v, (k, v) ∈ kvs ↔ m !! k = Some v) → insert_all kvs ∅ = m.
Proof.
  intros Hn H. apply map_eq. intros k. destruct (m !! k) as [v|] eqn:E.
  - apply insert_all_lookup; [done|by apply H].
  - rewrite insert_all_other; [done|]. intros ([k' v] & -> & Hin)%list_elem_of_fmap. apply H in Hin. cbn in E. congruence.
Qed.

(** A field is in a list that is written out. *)
Ltac member := apply elem_of_cons; first [left; reflexivity | right; member].

Section order.
Context {order : FieldOrder}.

Lemma walk_elem (m : field_map) k v : (k, v) ∈ walk m ↔ m !! k = Some v.
Proof. by rewrite walk_perm, elem_of_map_to_list. Qed.
Lemma walk_nodup (m : field_map) : NoDup (walk m).*1.
Proof. rewrite walk_perm. apply NoDup_fst_map_to_list. Qed.

Lemma canonical_nodup t : NoDup (canonical_fields t).
Proof. destruct t; by apply (bool_decide_unpack _). Qed.
Lemma emitted_elem (known : list (list Z)) (m : field_map) k v :
  (k, v) ∈ omap (λ k, v ← m !! k; Some (k, v)) known ↔ k ∈ known ∧ m !! k = Some v.
Proof.
  rewrite list_elem_of_omap. split.
  - intros (k' & Hk & E). destruct (m !! k') as [v'|] eqn:El; [|done]. by injection E as -> ->.
  - intros [Hk E]. exists k. split; [done|]. by rewrite E.
Qed.
Lemma emitted_nodup (known : list (list Z)) (m : field_map) : NoDup known → NoDup (omap (λ k, v ← m !! k; Some (k, v)) known).*1.
Proof.
  induction 1 as [|k known Hk _ IH]; [by apply NoDup_nil|]. cbn. destruct (m !! k) as [v|]; [|done]. cbn.
  apply NoDup_cons. split; [|done]. intros ([k' v'] & -> & [Hin _]%emitted_elem)%list_elem_of_fmap. done.
Qed.
Lemma written_elem a k v : (k, v) ∈ written_fields a ↔ a.(act_fields) !! k = Some v.
Proof.
  unfold written_fields. rewrite elem_of_app, emitted_elem, list_elem_of_filter, walk_elem. cbn.
  destruct (decide (k ∈ canonical_fields a.(act_type))); naive_solver.
Qed.
Lemma written_nodup a : NoDup (written_fields a).*1.
Proof.
  unfold written_fields. rewrite fmap_app. apply NoDup_app. split_and!.
  - apply emitted_nodup, canonical_nodup.
  - intros k ([k' v] & -> & [Hin _]%emitted_elem)%list_elem_of_fmap
      ([k'' v'] & E & [Hnot _]%list_elem_of_filter)%list_elem_of_fmap. cbn in *. by subst.
  - apply (sublist_NoDup _ (walk a.(act_fields)).*1); [apply walk_nodup|]. by apply fmap_sublist, sublist_filter.
Qed.

(** ** Lines *)

Definition reads (ls : list (list Z)) (s s' : parser_state) : Prop := ∀ n, parse_lines n ls s = inr s'.

Lemma reads_nil s : reads [] s s.
Proof. done. Qed.
Lemma reads_cons l ls s s' s'' : (∀ n, parse_line n l s = inr s') → reads ls s' s'' → reads (l :: ls) s s''.
Proof. intros Hl Hls n. cbn. rewrite Hl. apply Hls. Qed.
Lemma parse_lines_app n ls ls' s :
  parse_lines n (ls ++ ls') s = s' ← parse_lines n ls s; parse_lines (n + Z.of_nat (length ls)) ls' s'.
Proof.
  revert n s. induction ls as [|l ls IH]; intros n s.
  - cbn. f_equal. lia.
  - cbn [app parse_lines]. destruct (parse_line n l s) as [|s1]; [done|]. cbn [mbind throws_bind]. rewrite IH.
    destruct (parse_lines (n + 1) ls s1); [done|]. cbn. f_equal. lia.
Qed.
Lemma reads_app ls ls' s s' s'' : reads ls s s' → reads ls' s' s'' → reads (ls ++ ls') s s''.
Proof. intros H H' n. rewrite parse_lines_app, H. apply H'. Qed.

Definition written_config (c : ParsedConfig) : ParsedConfig :=
  mkParsedConfig c.(match_algo) c.(cfg_tick_size) c.(cfg_lot_size) c.(max_orders) c.(max_levels) c.(max_order_ids)
    c.(cfg_price_band_low) c.(cfg_price_band_high) 0 0 0 0.
Definition config_ok (c : ParsedConfig) : Prop :=
  plain c.(match_algo) ∧ Forall in_int64 [c.(cfg_tick_size); c.(cfg_lot_size); c.(max_orders); c.(max_levels);
    c.(max_order_ids); c.(cfg_price_band_low); c.(cfg_price_band_high)].
Definition fields_ok (m : field_map) : Prop := map_Forall (λ k v, field_ok (k, v)) m.
Definition expectation_ok (e : ParsedExpectation) : Prop := word e.(event_type) ∧ fields_ok e.(exp_fields).
Definition entry_ok (e : JournalEntry) : Prop := fields_ok e.(action).(act_fields) ∧ Forall expectation_ok e.(expectations).
#[global] Instance config_ok_dec c : Decision (config_ok c).
Proof. unfold config_ok, in_int64. apply _. Defined.
#[global] Instance expectation_ok_dec e : Decision (expectation_ok e).
Proof. unfold expectation_ok, fields_ok. apply _. Defined.
#[global] Instance entry_ok_dec e : Decision (entry_ok e).
Proof. unfold entry_ok, fields_ok. apply _. Defined.


Lemma signed_digits v : ∃ c cs, signed_decimal v = c :: cs ∧ is_space c = false.
Proof.
  pose proof (signed_plain v) as Hp. destruct (signed_decimal v) as [|c cs] eqn:E.
  - unfold signed_decimal in E. destruct (Z.ltb_spec v 0); [done|]. by apply decimal_not_nil in E.
  - apply Forall_cons in Hp as [Hc _]. by exists c, cs.
Qed.
Lemma stoll_signed v : in_int64 v → stoll (signed_decimal v) = inr v.
Proof.
  intros Hv. unfold stoll, signed_decimal. destruct (Z.ltb_spec v 0) as [Hn|Hp].
  - destruct (read_decimal (- v) [] ltac:(lia) I) as [n E]. rewrite app_nil_r in E.
    change (skip_spaces (45 :: decimal (- v))) with (45 :: decimal (- v)). cbn [read_sign]. rewrite E. cbn [Nat.eqb].
    by rewrite Z.opp_involutive, bool_decide_true.
  - destruct (read_decimal v [] Hp I) as [n E]. destruct (head_digit v [] Hp) as (c & cs & Hc & Hd).
    rewrite app_nil_r in *. rewrite Hc in *. rewrite skip_spaces_digit, read_sign_digit, E by done. cbn [Nat.eqb].
    by rewrite bool_decide_true.
Qed.

Lemma config_fields_ok c : plain c.(match_algo) → Forall field_ok (config_fields c).
Proof.
  intros Hp. unfold config_fields. repeat (apply Forall_cons; split); try by apply Forall_nil.
  all: unfold field_ok; cbn [fst snd]; split_and!; try by apply (bool_decide_unpack _).
  all: done || apply signed_plain.
Qed.
Lemma config_nodup c : NoDup (config_fields c).*1.
Proof. cbn [config_fields fmap list_fmap fst]. by apply (bool_decide_unpack _). Qed.
Lemma config_int c k v f : (k, signed_decimal v) ∈ config_fields c → in_int64 v →
  apply_int (insert_all (config_fields c) ∅) k f = inr v.
Proof.
  intros Hin Hv. unfold apply_int. rewrite (insert_all_lookup _ _ _ _ (config_nodup c) Hin). by apply stoll_signed.
Qed.
Lemma config_absent c k f : k ∉ (config_fields c).*1 → apply_int (insert_all (config_fields c) ∅) k f = inr f.
Proof. intros Hk. unfold apply_int. by rewrite insert_all_other. Qed.
Ltac config_field := first
  [ rewrite config_absent by (cbn [config_fields fmap list_fmap fst]; by apply (bool_decide_unpack _))
  | erewrite config_int; [|unfold config_fields; member|eassumption] ].
Lemma apply_written c : config_ok c → apply_config (insert_all (config_fields c) ∅) default_config = inr (written_config c).
Proof.
  intros [_ Hi]. repeat (apply Forall_cons in Hi as [? Hi]). unfold apply_config.
  rewrite (insert_all_lookup _ _ _ c.(match_algo) (config_nodup c)) by (apply elem_of_cons; by left).
  repeat (config_field; cbn [mbind throws_bind]). done.
Qed.


Lemma parse_action_name t : parse_action_type (action_name t) = Some t.
Proof. by destruct t. Qed.
Lemma action_name_word t : word (action_name t).
Proof. destruct t; by apply (bool_decide_unpack _). Qed.
Lemma spaced_kv_cons t kvs : 32 :: t ++ kv_texts kvs = spaced (t :: (kv_token <$> kvs)).
Proof. by rewrite kv_texts_spaced. Qed.

(** A line is read as the words it was put together from. *)
Lemma keyword_line kw ts : word kw → Forall word ts →
  strip_cr (kw ++ spaced ts) = kw ++ spaced ts ∧ split (kw ++ spaced ts) = kw :: ts ∧ 10 ∉ kw ++ spaced ts.
Proof.
  intros Hk Hts. destruct (Hk) as [_ Hp]. split_and!.
  - by apply strip_cr_none, spaced_not_elem.
  - by apply split_words.
  - by apply spaced_not_elem.
Qed.

Lemma config_line_text c : config_to_config_lines c = chars "CONFIG" ++ spaced (kv_token <$> config_fields c).
Proof. unfold config_to_config_lines. by rewrite kv_texts_spaced. Qed.
Lemma action_line_text a :
  action_to_action_line a = chars "ACTION" ++ spaced (action_name a.(act_type) :: (kv_token <$> written_fields a)).
Proof. unfold action_to_action_line. by rewrite <- spaced_kv_cons. Qed.
Lemma expect_text t kvs : chars "EXPECT " ++ t ++ kv_texts kvs = chars "EXPECT" ++ spaced (t :: (kv_token <$> kvs)).
Proof. by rewrite <- spaced_kv_cons. Qed.

Lemma keyword_words : word (chars "CONFIG") ∧ word (chars "ACTION") ∧ word (chars "EXPECT").
Proof. by apply (bool_decide_unpack _). Qed.
Lemma expect_text_no_newline t kvs : word t → Forall field_ok kvs → 10 ∉ chars "EXPECT " ++ t ++ kv_texts kvs.
Proof.
  intros Ht Hf. rewrite expect_text. apply keyword_line; [apply keyword_words|].
  apply Forall_cons; split; [done|by apply kv_tokens_words].
Qed.
Lemma written_ok a : fields_ok a.(act_fields) → Forall field_ok (written_fields a).
Proof. intros H. apply Forall_forall. intros [k v] Hin. by apply H, written_elem. Qed.
Lemma walk_ok m : fields_ok m → Forall field_ok (walk m).
Proof. intros H. apply Forall_forall. intros [k v] Hin. by apply H, walk_elem. Qed.

Lemma parse_config_line c n s : config_ok c → s.(ps_config) = default_config →
  parse_line n (config_to_config_lines c) s = inr (mkParser (written_config c) s.(ps_entries)).
Proof.
  intros Hc Hs. pose proof (config_fields_ok c ltac:(apply Hc)) as Hf.
  destruct (keyword_line (chars "CONFIG") (kv_token <$> config_fields c)) as (E1 & E2 & _);
    [apply keyword_words|by apply kv_tokens_words|].
  rewrite config_line_text. unfold parse_line. rewrite E1, E2.
  change (first_visible (chars "CONFIG" ++ ?x)) with (Some 67). cbv iota. rewrite bool_decide_true by done.
  rewrite parse_kv_written by done. cbn [mbind throws_bind]. rewrite Hs, apply_written by done. done.
Qed.
Lemma parse_action_line a n s : fields_ok a.(act_fields) →
  parse_line n (action_to_action_line a) s = inr (mkParser s.(ps_config) (mkEntry a [] :: s.(ps_entries))).
Proof.
  intros Ha. pose proof (written_ok a Ha) as Hf.
  destruct (keyword_line (chars "ACTION") (action_name a.(act_type) :: (kv_token <$> written_fields a))) as (E1 & E2 & _);
    [apply keyword_words|apply Forall_cons; split; [apply action_name_word|by apply kv_tokens_words]|].
  rewrite action_line_text. unfold parse_line. rewrite E1, E2.
  change (first_visible (chars "ACTION" ++ ?x)) with (Some 65). cbv iota.
  rewrite bool_decide_false, bool_decide_true by done. rewrite parse_action_name, parse_kv_written by done.
  cbn [mbind throws_bind]. rewrite (insert_all_fields _ a.(act_fields) (written_nodup a) (written_elem a)). by destruct a.
Qed.
Lemma parse_expect_text t (fields : list (list Z * list Z)) n s a es entries :
  word t → Forall field_ok fields → s.(ps_entries) = mkEntry a es :: entries →
  parse_line n (chars "EXPECT " ++ t ++ kv_texts fields) s
  = inr (mkParser s.(ps_config) (mkEntry a (es ++ [mkExpectation t (insert_all fields ∅)]) :: entries)).
Proof.
  intros Ht Hf Hs.
  destruct (keyword_line (chars "EXPECT") (t :: (kv_token <$> fields))) as (E1 & E2 & _);
    [apply keyword_words|apply Forall_cons; split; [done|by apply kv_tokens_words]|].
  rewrite expect_text. unfold parse_line. rewrite E1, E2.
  change (first_visible (chars "EXPECT" ++ ?x)) with (Some 69). cbv iota.
  rewrite 2!bool_decide_false, bool_decide_true by done. by rewrite Hs, parse_kv_written.
Qed.
Lemma parse_expectation_line e n s a es entries : expectation_ok e → s.(ps_entries) = mkEntry a es :: entries →
  parse_line n (expectation_line e) s = inr (mkParser s.(ps_config) (mkEntry a (es ++ [e]) :: entries)).
Proof.
  intros [Ht He] Hs. unfold expectation_line. rewrite (parse_expect_text _ _ _ _ _ _ _ Ht (walk_ok _ He) Hs).
  rewrite (insert_all_fields _ e.(exp_fields) (walk_nodup _) (walk_elem _)). by destruct e.
Qed.

(** ** Journals *)

Definition entry_lines (e : JournalEntry) : list (list Z) :=
  [] :: action_to_action_line e.(action) :: (expectation_line <$> e.(expectations)).
Definition journal_lines (c : ParsedConfig) (entries : list JournalEntry) : list (list Z) :=
  config_to_config_lines c :: (entries ≫= entry_lines).

Lemma journal_text c entries : journal_to_string c entries = journal_lines c entries ≫= λ l, l ++ [10].
Proof.
  unfold journal_to_string, journal_lines. rewrite bind_cons, <- app_assoc. f_equal. f_equal.
  induction entries as [|e entries IH]; [done|]. rewrite !bind_cons, bind_app, IH. f_equal.
  unfold entry_to_string, entry_lines. rewrite !bind_cons, <- !app_assoc, app_nil_l. do 3 f_equal.
  induction e.(expectations) as [|x xs IHx]; [done|]. rewrite fmap_cons, !bind_cons. by rewrite IHx.
Qed.

Lemma entry_no_newline e : entry_ok e → Forall (λ l, 10 ∉ l) (entry_lines e).
Proof.
  intros [Ha He]. apply Forall_cons. split; [by apply not_elem_of_nil|]. apply Forall_cons. split.
  - rewrite action_line_text. apply keyword_line; [apply keyword_words|].
    apply Forall_cons; split; [apply action_name_word|by apply kv_tokens_words, written_ok].
  - apply Forall_fmap. eapply Forall_impl; [exact He|]. intros x [Ht Hx]. by apply expect_text_no_newline, walk_ok.
Qed.
Lemma journal_no_newline c entries : config_ok c → Forall entry_ok entries → Forall (λ l, 10 ∉ l) (journal_lines c entries).
Proof.
  intros [Hp _] He. apply Forall_cons. split.
  - rewrite config_line_text. apply keyword_line; [apply keyword_words|by apply kv_tokens_words, config_fields_ok].
  - apply Forall_bind. eapply Forall_impl; [exact He|]. intros e. apply entry_no_newline.
Qed.

Lemma reads_expectations cfg a es xs entries : Forall expectation_ok xs →
  reads (expectation_line <$> xs) (mkParser cfg (mkEntry a es :: entries)) (mkParser cfg (mkEntry a (es ++ xs) :: entries)).
Proof.
  intros H. revert es. induction H as [|x xs Hx _ IH]; intros es; [rewrite app_nil_r; apply reads_nil|].
  eapply reads_cons; [intros n; by eapply parse_expectation_line|].
  cbn [ps_config]. specialize (IH (es ++ [x])). by rewrite <- app_assoc in IH.
Qed.
Lemma reads_entry cfg e entries : entry_ok e → reads (entry_lines e) (mkParser cfg entries) (mkParser cfg (e :: entries)).
Proof.
  intros [Ha He]. eapply reads_cons; [done|]. eapply reads_cons; [intros n; by apply parse_action_line|].
  destruct e as [a xs]. by apply (reads_expectations cfg a []).
Qed.
Lemma reads_entries cfg es entries : Forall entry_ok es →
  reads (es ≫= entry_lines) (mkParser cfg entries) (mkParser cfg (rev es ++ entries)).
Proof.
  intros H. revert entries. induction H as [|e es He _ IH]; intros entries; [apply reads_nil|].
  rewrite bind_cons. cbn [rev]. rewrite <- app_assoc. eapply reads_app; [by apply reads_entry|apply IH].
Qed.

Lemma lines_journal c entries : config_ok c → Forall entry_ok entries → lines (journal_to_string c entries) = journal_lines c entries.
Proof. intros Hc He. rewrite journal_text. by apply lines_joined, journal_no_newline. Qed.
Lemma reads_journal c entries : config_ok c → Forall entry_ok entries →
  reads (journal_lines c entries) (mkParser default_config []) (mkParser (written_config c) (rev entries)).
Proof.
  intros Hc He. rewrite <- (app_nil_r (rev entries)).
  eapply reads_cons; [intros n; by apply parse_config_line|by apply reads_entries].
Qed.

(** C40: a journal survives being written and read: from a configuration whose
    numbers fit and entries whose fields are words, [to_string] writes a text
    that [parse_string] accepts and turns into the same actions and
    expectations, in the same order, whatever order the hash maps are walked in;
    of the configuration only the rate limit and the daily limits, which the
    writer does not print, come back as their defaults. *)
Theorem journal_roundtrip c entries : config_ok c → Forall entry_ok entries →
  parse_string (journal_to_string c entries) = inr (mkJournal (written_config c) entries).
Proof.
  intros Hc He. unfold parse_string. rewrite lines_journal, reads_journal by done. cbn. by rewrite rev_involutive.
Qed.

End order.

(** ** An example *)

#[local] Instance sorted_walk : FieldOrder := {| walk := map_to_list; walk_perm m := Permutation_refl _ |}.

Definition sample_entries : list JournalEntry :=
  [mkEntry (mkAction DoCancel {[chars "ord_id" := chars "7"; chars "ts" := signed_decimal (-3); chars "note" := chars "late=yes"]})
     [mkExpectation (chars "ORDER_CANCELLED") {[chars "ord_id" := chars "7"; chars "ts" := chars "-3"; chars "reason" := chars "USER_REQUESTED"]}];
   mkEntry (mkAction DoSessionClose ∅) []].

Lemma journal_roundtrip_witness :
  config_ok default_config ∧ Forall entry_ok sample_entries ∧
  parse_string (journal_to_string default_config sample_entries) = inr (mkJournal (written_config default_config) sample_entries).
Proof.
  assert (config_ok default_config) by (apply (bool_decide_unpack _); vm_compute; exact I).
  assert (Forall entry_ok sample_entries) by (apply (bool_decide_unpack _); vm_compute; exact I).
  split_and!; [done|done|by apply journal_roundtrip].
Defined.
