(* ===== verification/TestRunner.v ===== *)
(** * The journal runner: [src/test-harness/test_runner.cc]

    A journal is replayed against a matching engine: each action becomes a call,
    the events of the call are compared with the expectations, and the first
    difference is the verdict.  The recording listeners of [recording_listener.h]
    are the engine's [trace]: clearing them empties it, and what each has recorded
    is the part of it that is called on that listener.  Every event that has a
    line is read back from it, and a journal made from the events of a run
    passes when it is replayed. *)

From Stdlib Require Import Ascii String.
From S2P Require Import Prelude Wire Types Text MatchAlgo Trackers Engine MatchAlgoPriority Journal JournalTheorems.

#[local] Open Scope Z_scope.

(** ** Words *)

Definition parse_side (s : list Z) : throws Side :=
  if bool_decide (s = chars "BUY") then inr Buy
  else if bool_decide (s = chars "SELL") then inr Sell
  else inl (UnknownWord s).
Definition parse_order_type (s : list Z) : throws OrderType :=
  if bool_decide (s = chars "LIMIT") then inr Limit
  else if bool_decide (s = chars "MARKET") then inr Market
  else if bool_decide (s = chars "STOP") then inr Stop
  else if bool_decide (s = chars "STOP_LIMIT") then inr StopLimit
  else inl (UnknownWord s).
Definition parse_tif (s : list Z) : throws TimeInForce :=
  if bool_decide (s = chars "DAY") then inr DAY
  else if bool_decide (s = chars "GTC") then inr GTC
  else if bool_decide (s = chars "IOC") then inr IOC
  else if bool_decide (s = chars "FOK") then inr FOK
  else if bool_decide (s = chars "GTD") then inr GTD
  else inl (UnknownWord s).
Definition parse_reject_reason (s : list Z) : throws RejectReason :=
  if bool_decide (s = chars "POOL_EXHAUSTED") then inr PoolExhausted
  else if bool_decide (s = chars "INVALID_PRICE") then inr InvalidPrice
  else if bool_decide (s = chars "INVALID_QUANTITY") then inr InvalidQuantity
  else if bool_decide (s = chars "INVALID_TIF") then inr InvalidTif
  else if bool_decide (s = chars "INVALID_SIDE") then inr InvalidSide
  else if bool_decide (s = chars "UNKNOWN_ORDER") then inr UnknownOrder
  else if bool_decide (s = chars "PRICE_BAND_VIOLATION") then inr PriceBandViolation
  else if bool_decide (s = chars "LEVEL_POOL_EXHAUSTED") then inr RLevelPoolExhausted
  else if bool_decide (s = chars "RATE_THROTTLED") then inr RateThrottled
  else if bool_decide (s = chars "LOCK_LIMIT_UP") then inr LockLimitUp
  else if bool_decide (s = chars "LOCK_LIMIT_DOWN") then inr LockLimitDown
  else if bool_decide (s = chars "POSITION_LIMIT_EXCEEDED") then inr PositionLimitExceeded
  else if bool_decide (s = chars "EXCHANGE_SPECIFIC") then inr RExchangeSpecific
  else inl (UnknownWord s).
Definition parse_cancel_reason (s : list Z) : throws CancelReason :=
  if bool_decide (s = chars "USER_REQUESTED") then inr UserRequested
  else if bool_decide (s = chars "IOC_REMAINDER") then inr IOCRemainder
  else if bool_decide (s = chars "FOK_FAILED") then inr FOKFailed
  else if bool_decide (s = chars "EXPIRED") then inr Expired
  else if bool_decide (s = chars "SELF_MATCH_PREVENTION") then inr SelfMatchPrevention
  else if bool_decide (s = chars "LEVEL_POOL_EXHAUSTED") then inr CLevelPoolExhausted
  else if bool_decide (s = chars "MASS_CANCELLED") then inr MassCancelled
  else inl (UnknownWord s).
Definition parse_session_state (s : list Z) : throws SessionState :=
  if bool_decide (s = chars "CLOSED") then inr Closed
  else if bool_decide (s = chars "PRE_OPEN") then inr PreOpen
  else if bool_decide (s = chars "OPENING_AUCTION") then inr OpeningAuction
  else if bool_decide (s = chars "CONTINUOUS") then inr Continuous
  else if bool_decide (s = chars "PRE_CLOSE") then inr PreClose
  else if bool_decide (s = chars "CLOSING_AUCTION") then inr ClosingAuction
  else if bool_decide (s = chars "HALT") then inr Halt
  else if bool_decide (s = chars "VOLATILITY_AUCTION") then inr VolatilityAuction
  else if bool_decide (s = chars "LOCK_LIMIT") then inr LockLimit
  else inl (UnknownWord s).
Definition parse_depth_action (s : list Z) : throws DepthAction :=
  if bool_decide (s = chars "ADD") then inr DepthAdd
  else if bool_decide (s = chars "UPDATE") then inr DepthUpd
  else if bool_decide (s = chars "REMOVE") then inr DepthRemove
  else inl (UnknownWord s).
Definition parse_book_action (s : list Z) : throws BookAction :=
  if bool_decide (s = chars "ADD") then inr ActAdd
  else if bool_decide (s = chars "MODIFY") then inr ActModify
  else if bool_decide (s = chars "CANCEL") then inr ActCancel
  else if bool_decide (s = chars "FILL") then inr ActFill
  else inl (UnknownWord s).

Definition action_int_or (a : ParsedAction) (key : string) (def : Z) : throws Z :=
  match a.(act_fields) !! chars key with Some v => stoll v | None => inr def end.
Definition expect_int_or (e : ParsedExpectation) (key : list Z) (def : Z) : throws Z :=
  match e.(exp_fields) !! key with Some v => stoll v | None => inr def end.
Definition tif_or_gtc (a : ParsedAction) : throws TimeInForce :=
  match a.(act_fields) !! chars "tif" with Some v => parse_tif v | None => inr GTC end.
Definition market_maker_flag (a : ParsedAction) : bool :=
  match a.(act_fields) !! chars "is_mm" with
  | Some v => bool_decide (v = chars "true") || bool_decide (v = chars "1")
  | None => false
  end.

(** ** Expectations *)

Definition expectation_to_event (e : ParsedExpectation) : throws event :=
  let t := e.(event_type) in
  let int key := expect_int e (chars key) in
  let str key := expect_str e (chars key) in
  if bool_decide (t = chars "ORDER_ACCEPTED") then
    id ← int "ord_id"%string; client_order_id ← int "cl_ord_id"%string; ts ← int "ts"%string;
    inr (OrderAccepted (wrap_u64 id) (wrap_u64 client_order_id) ts)
  else if bool_decide (t = chars "ORDER_REJECTED") then
    client_order_id ← int "cl_ord_id"%string; ts ← int "ts"%string; reason ← str "reason"%string;
    reason ← parse_reject_reason reason;
    inr (OrderRejected (wrap_u64 client_order_id) ts reason)
  else if bool_decide (t = chars "ORDER_FILLED") then
    aggressor_id ← int "aggressor"%string; resting_id ← int "resting"%string; price ← int "price"%string;
    quantity ← int "qty"%string; ts ← int "ts"%string;
    inr (OrderFilled (wrap_u64 aggressor_id) (wrap_u64 resting_id) price quantity ts)
  else if bool_decide (t = chars "ORDER_PARTIALLY_FILLED") then
    aggressor_id ← int "aggressor"%string; resting_id ← int "resting"%string; price ← int "price"%string;
    quantity ← int "qty"%string; aggressor_remaining ← int "aggressor_rem"%string;
    resting_remaining ← int "resting_rem"%string; ts ← int "ts"%string;
    inr (OrderPartiallyFilled (wrap_u64 aggressor_id) (wrap_u64 resting_id) price quantity
      aggressor_remaining resting_remaining ts)
  else if bool_decide (t = chars "ORDER_CANCELLED") then
    id ← int "ord_id"%string; ts ← int "ts"%string; reason ← str "reason"%string;
    reason ← parse_cancel_reason reason;
    inr (OrderCancelled (wrap_u64 id) ts reason)
  else if bool_decide (t = chars "ORDER_CANCEL_REJECTED") then
    id ← int "ord_id"%string; client_order_id ← expect_int_or e (chars "cl_ord_id") 0; ts ← int "ts"%string;
    reason ← str "reason"%string; reason ← parse_reject_reason reason;
    inr (OrderCancelRejected (wrap_u64 id) (wrap_u64 client_order_id) ts reason)
  else if bool_decide (t = chars "ORDER_MODIFIED") then
    id ← int "ord_id"%string; client_order_id ← int "cl_ord_id"%string; new_price ← int "new_price"%string;
    new_qty ← int "new_qty"%string; ts ← int "ts"%string;
    inr (OrderModified (wrap_u64 id) (wrap_u64 client_order_id) new_price new_qty ts)
  else if bool_decide (t = chars "ORDER_MODIFY_REJECTED") then
    id ← int "ord_id"%string; client_order_id ← int "cl_ord_id"%string; ts ← int "ts"%string;
    reason ← str "reason"%string; reason ← parse_reject_reason reason;
    inr (OrderModifyRejected (wrap_u64 id) (wrap_u64 client_order_id) ts reason)
  else if bool_decide (t = chars "TOP_OF_BOOK") then
    best_bid ← int "bid"%string; bid_qty ← int "bid_qty"%string; best_ask ← int "ask"%string;
    ask_qty ← int "ask_qty"%string; ts ← int "ts"%string;
    inr (TopOfBook best_bid bid_qty best_ask ask_qty ts)
  else if bool_decide (t = chars "DEPTH_UPDATE") then
    side ← str "side"%string; side ← parse_side side; price ← int "price"%string;
    total_qty ← int "qty"%string;
    order_count ← int "count"%string; action ← str "action"%string; action ← parse_depth_action action;
    ts ← int "ts"%string;
    inr (DepthUpdate side price total_qty (wrap_u32 order_count) action ts)
  else if bool_decide (t = chars "ORDER_BOOK_ACTION") then
    id ← int "ord_id"%string; side ← str "side"%string; side ← parse_side side; price ← int "price"%string;
    qty ← int "qty"%string; action ← str "action"%string; action ← parse_book_action action;
    ts ← int "ts"%string;
    inr (OrderBookAction (wrap_u64 id) side price qty action ts)
  else if bool_decide (t = chars "TRADE") then
    price ← int "price"%string; quantity ← int "qty"%string; aggressor_id ← int "aggressor"%string;
    resting_id ← int "resting"%string; aggressor_side ← str "aggressor_side"%string;
    aggressor_side ← parse_side aggressor_side; ts ← int "ts"%string;
    inr (Trade price quantity (wrap_u64 aggressor_id) (wrap_u64 resting_id) aggressor_side ts)
  else if bool_decide (t = chars "MARKET_STATUS") then
    state ← str "state"%string; state ← parse_session_state state; ts ← int "ts"%string;
    inr (MarketStatus state ts)
  else if bool_decide (t = chars "INDICATIVE_PRICE") then
    price ← int "price"%string; matched_volume ← int "matched_vol"%string;
    buy_surplus ← int "buy_surplus"%string; sell_surplus ← int "sell_surplus"%string; ts ← int "ts"%string;
    inr (IndicativePrice price matched_volume buy_surplus sell_surplus ts)
  else if bool_decide (t = chars "TRADE_BUSTED") then
    trade_id ← int "trade_id"%string; aggressor_id ← int "aggressor"%string; resting_id ← int "resting"%string;
    price ← int "price"%string; quantity ← int "qty"%string; ts ← int "ts"%string;
    inr (TradeBusted (wrap_u64 trade_id) (wrap_u64 aggressor_id) (wrap_u64 resting_id) price quantity
      ErroneousTrade ts)
  else if bool_decide (t = chars "LOCK_LIMIT_TRIGGERED") then
    side ← str "side"%string; side ← parse_side side; limit_price ← int "limit_price"%string;
    last_trade_price ← int "last_trade_price"%string; ts ← int "ts"%string;
    inr (LockLimitTriggered side limit_price last_trade_price ts)
  else inl (UnknownEvent t).

(** ** Listeners and verdicts *)

(** Calls of [RecordingOrderListener]; the others are [RecordingMdListener]'s. *)
Definition is_order_call (e : event) : bool :=
  match e with
  | OrderAccepted _ _ _ | OrderRejected _ _ _ | OrderFilled _ _ _ _ _ | OrderPartiallyFilled _ _ _ _ _ _ _
  | OrderCancelled _ _ _ | OrderCancelRejected _ _ _ _ | OrderModified _ _ _ _ _ | OrderModifyRejected _ _ _ _
  | TradeBusted _ _ _ _ _ _ _ => true
  | _ => false
  end.
(** The order listener's events, then the market data listener's. *)
Definition recorded_events (calls : list event) : list event :=
  filter (λ e, is_order_call e = true) calls ++ filter (λ e, is_order_call e = false) calls.

Record TestResult : Type := mkResult {
  passed : bool;
  action_index : nat;
  event_index : nat;
  expected_text : list Z;
  actual_text : list Z;
  diff : list Z
}.
Definition make_pass : TestResult := mkResult true 0 0 [] [] [].
Definition count_text (n : nat) : list Z := decimal (Z.of_nat n).
Definition make_event_mismatch (action_index event_index : nat) (exp_str act_str : list Z) : TestResult :=
  mkResult false action_index event_index exp_str act_str
    (chars "action[" ++ count_text action_index ++ chars "] event[" ++ count_text event_index ++ chars "]: mismatch" ++
     [10] ++ chars "  expected: " ++ exp_str ++ [10] ++ chars "  actual:   " ++ act_str).

(** The first position at which the lists differ. *)
Fixpoint first_mismatch (i action_index : nat) (recorded expected : list event) : option TestResult :=
  match recorded, expected with
  | r :: recorded', x :: expected' =>
      if bool_decide (r = x) then first_mismatch (S i) action_index recorded' expected'
      else Some (make_event_mismatch action_index i (to_string x) (to_string r))
  | _, _ => None
  end.
Definition compare (recorded expected : list event) (action_index : nat) : TestResult :=
  let prefix :=
    chars "action[" ++ count_text action_index ++ chars "]: expected " ++ count_text (length expected) ++
    chars " event(s), got " ++ count_text (length recorded) in
  let min_size := Nat.min (length recorded) (length expected) in
  if (length recorded =? length expected)%nat then
    default make_pass (first_mismatch 0 action_index recorded expected)
  else
    match expected !! min_size with
    | Some x =>
        mkResult false action_index min_size (to_string x) (chars "<missing>") (prefix ++ chars "; first missing: " ++ to_string x)
    | None =>
        let act_str := from_option to_string [] (recorded !! min_size) in
        mkResult false action_index min_size (chars "<none>") act_str (prefix ++ chars "; first extra: " ++ act_str)
    end.

(** ** Engines *)

Definition runner_params : EngineParams :=
  {| MaxOrders := 1000; MaxPriceLevels := 100; MaxOrderIds := 10000; MaxAccounts := 4096 |}.

(** The base class's hooks with the three that the runner's classes override. *)
Definition overriding (rate_check : bool) (market_maker : OrderRequest → bool) (self_match : Order → Order → bool) : Hooks unit :=
  let base := default_hooks unit in
  {| on_session_transition := on_session_transition (Hooks := base);
     is_order_allowed_in_phase := is_order_allowed_in_phase (Hooks := base);
     on_validate_order := on_validate_order (Hooks := base);
     on_validate_restore := on_validate_restore (Hooks := base);
     is_tif_valid := is_tif_valid (Hooks := base);
     on_validate_bust := on_validate_bust (Hooks := base);
     is_position_check_enabled := is_position_check_enabled (Hooks := base);
     get_position_limit := get_position_limit (Hooks := base);
     is_rate_check_enabled _ := rate_check;
     is_market_maker _ := market_maker;
     is_self_match _ := self_match;
     get_smp_action _ := CancelNewest;
     get_modify_policy := get_modify_policy (Hooks := base);
     get_min_display_qty := get_min_display_qty (Hooks := base);
     should_trigger_volatility_auction := should_trigger_volatility_auction (Hooks := base);
     calculate_dynamic_bands := calculate_dynamic_bands (Hooks := base);
     on_daily_limit_hit := on_daily_limit_hit (Hooks := base) |}.

Definition no_market_maker (req : OrderRequest) : bool := false.
Definition no_self_match (a b : Order) : bool := false.
Definition fifo_exchange : Hooks unit := default_hooks unit.
Definition rate_throttled_exchange : Hooks unit := overriding true no_market_maker no_self_match.
Definition fifo_lmm_exchange : Hooks unit := overriding false r_is_market_maker no_self_match.
Definition smp_fifo_exchange : Hooks unit :=
  overriding false no_market_maker (λ a b, a.(o_account_id) =? b.(o_account_id)).
Definition lmm_40 : MatchAlgorithm := lmm_algorithm 40 (conj (proj1 (Z.leb_le 0 40) eq_refl) (proj1 (Z.leb_le 40 100) eq_refl)).

(** ** Replay *)

Section runner.
Context {params : EngineParams} {hooks : Hooks unit} {algo : MatchAlgorithm}.
Abbreviation E := (M (engine unit)).

Definition new_order_request (a : ParsedAction) : throws OrderRequest :=
  ts ← action_int a (chars "ts");
  client_order_id ← action_int a (chars "cl_ord_id");
  account_id ← action_int_or a "account_id" 0;
  side ← action_str a (chars "side"); side ← parse_side side;
  type ← action_str a (chars "type"); type ← parse_order_type type;
  quantity ← action_int a (chars "qty");
  price ← action_int_or a "price" 0;
  tif ← tif_or_gtc a;
  stop_price ← action_int_or a "stop_price" 0;
  gtd_expiry ← action_int_or a "gtd_expiry" 0;
  display_qty ← action_int_or a "display_qty" 0;
  inr (mkRequest (wrap_u64 client_order_id) (wrap_u64 account_id) side type tif price quantity stop_price ts gtd_expiry
         display_qty (market_maker_flag a)).
Definition modify_request (a : ParsedAction) : throws ModifyRequest :=
  order_id ← action_int a (chars "ord_id");
  client_order_id ← action_int a (chars "cl_ord_id");
  new_price ← action_int a (chars "new_price");
  new_quantity ← action_int a (chars "new_qty");
  ts ← action_int a (chars "ts");
  inr (mkModify (wrap_u64 order_id) (wrap_u64 client_order_id) new_price new_quantity ts).
Definition serialized_order (a : ParsedAction) : throws SerializedOrder :=
  ts ← action_int a (chars "ts");
  id ← action_int a (chars "ord_id");
  client_order_id ← action_int a (chars "cl_ord_id");
  price ← action_int a (chars "price");
  quantity ← action_int a (chars "qty");
  filled_quantity ← action_int a (chars "filled_qty");
  remaining_quantity ← action_int a (chars "remaining_qty");
  side ← action_str a (chars "side"); side ← parse_side side;
  type ← action_str a (chars "type"); type ← parse_order_type type;
  tif ← tif_or_gtc a;
  account_id ← action_int_or a "account_id" 0;
  display_qty ← action_int_or a "display_qty" 0;
  total_qty ← action_int_or a "total_qty" quantity;
  inr (mkSerialized (wrap_u64 id) (wrap_u64 client_order_id) (wrap_u64 account_id) price quantity filled_quantity
         remaining_quantity side type tif ts 0 display_qty total_qty).

(** The call an action stands for; reading its fields may throw. *)
Definition execute_action (fuel : nat) (a : ParsedAction) : throws (E unit) :=
  let int key := action_int a (chars key) in
  match a.(act_type) with
  | DoNewOrder => req ← new_order_request a; inr (new_order fuel req)
  | DoCancel =>
      id ← int "ord_id"%string; ts ← int "ts"%string;
      inr (cancel_order (wrap_u64 id) ts)
  | DoModify => req ← modify_request a; inr (modify_order fuel req)
  | DoTriggerExpiry =>
      ts ← int "ts"%string; tif ← action_str a (chars "tif"); tif ← parse_tif tif;
      inr (trigger_expiry ts tif)
  | DoSetSessionState =>
      ts ← int "ts"%string; state ← action_str a (chars "state"); state ← parse_session_state state;
      inr (set_session_state state ts)
  | DoExecuteAuction =>
      ts ← int "ts"%string; ref ← int "reference_price"%string;
      inr (execute_auction fuel ref ts)
  | DoPublishIndicative =>
      ts ← int "ts"%string; ref ← int "reference_price"%string;
      inr (publish_indicative_price ref ts)
  | DoMassCancel =>
      account_id ← int "account_id"%string; ts ← int "ts"%string;
      inr (mass_cancel (wrap_u64 account_id) ts ;; mret tt)
  | DoMassCancelAll => ts ← int "ts"%string; inr (mass_cancel_all ts ;; mret tt)
  | DoRestoreOrder => s ← serialized_order a; inr (restore_order s s.(s_timestamp))
  | DoBustTrade =>
      trade_id ← int "trade_id"%string; ts ← int "ts"%string;
      inr (bust_trade (wrap_u64 trade_id) ErroneousTrade ts)
  | _ => inl OtherRunner
  end.

Fixpoint to_events (es : list ParsedExpectation) : throws (list event) :=
  match es with
  | [] => inr []
  | e :: es' => ev ← expectation_to_event e; evs ← to_events es'; inr (ev :: evs)
  end.

(** The engine's calls since the listeners were cleared. *)
Definition recorded_call (m : E unit) : E (list event) :=
  modify (set_trace []) ;; m ;; s ← get; mret (recorded_events s.(trace)).

Fixpoint replay (fuel i : nat) (entries : list JournalEntry) : E (throws TestResult) :=
  match entries with
  | [] => mret (inr make_pass)
  | entry :: entries' =>
      match execute_action fuel entry.(action) with
      | inl e => mret (inl e)
      | inr call =>
          recorded ← recorded_call call;
          match to_events entry.(expectations) with
          | inl e => mret (inl e)
          | inr expected =>
              let result := compare recorded expected i in
              if result.(passed) then replay fuel (S i) entries' else mret (inr result)
          end
      end
  end.
Definition run_impl (fuel : nat) (j : Journal) : E (throws TestResult) := replay fuel 0 j.(j_entries).
End runner.

(** ** Entry points *)

Definition engine_config (c : ParsedConfig) : EngineConfig :=
  mkConfig c.(cfg_tick_size) c.(cfg_lot_size) c.(cfg_price_band_low) c.(cfg_price_band_high) 0
    c.(cfg_daily_limit_high) c.(cfg_daily_limit_low) (mkThrottle 0 0) (mkVolatility 0 0).
Definition set_throttle (t : ThrottleConfig) (c : EngineConfig) : EngineConfig :=
  mkConfig c.(tick_size) c.(lot_size) c.(price_band_low) c.(price_band_high) c.(max_order_size)
    c.(daily_limit_high) c.(daily_limit_low) t c.(vi).
Definition run_with (hooks : Hooks unit) (algo : MatchAlgorithm) (cfg : EngineConfig) (junk : loc → Order) (fuel : nat)
    (j : Journal) : res (throws TestResult * engine unit) :=
  run_impl (params := runner_params) fuel j (init_engine (params := runner_params) cfg tt junk).

Definition run_fifo (junk : loc → Order) (fuel : nat) (j : Journal) : res (throws TestResult * engine unit) :=
  run_with fifo_exchange fifo_algorithm (engine_config j.(j_config)) junk fuel j.
Definition run_pro_rata (junk : loc → Order) (fuel : nat) (j : Journal) : res (throws TestResult * engine unit) :=
  run_with fifo_exchange prorata_algorithm (engine_config j.(j_config)) junk fuel j.
Definition run_smp_fifo (junk : loc → Order) (fuel : nat) (j : Journal) : res (throws TestResult * engine unit) :=
  run_with smp_fifo_exchange fifo_algorithm (engine_config j.(j_config)) junk fuel j.
Definition run_rate_throttled (junk : loc → Order) (fuel : nat) (j : Journal) : res (throws TestResult * engine unit) :=
  run_with rate_throttled_exchange fifo_algorithm
    (set_throttle (mkThrottle j.(j_config).(rate_limit) j.(j_config).(rate_interval)) (engine_config j.(j_config))) junk fuel j.
(** This engine gets no daily limits. *)
Definition run_fifo_lmm (junk : loc → Order) (fuel : nat) (j : Journal) : res (throws TestResult * engine unit) :=
  run_with fifo_lmm_exchange lmm_40
    (set_daily_limit_high 0 (set_daily_limit_low 0 (engine_config j.(j_config)))) junk fuel j.

(** ** Generators

    [build_entry] of [src/test-journals/generate_stress_journals.cc] and its
    siblings: an expectation is a recorded event written as a line and parsed
    back in a journal of its own; an event without a line leaves nothing to
    take. *)

Definition mini_journal (line : list Z) : list Z :=
  chars "CONFIG match_algo=FIFO tick_size=100 lot_size=10000" ++ [10] ++
  chars "ACTION NEW_ORDER ts=1 cl_ord_id=999 account_id=0 side=BUY price=1000000 qty=10000 type=LIMIT tif=GTC" ++ [10] ++
  line ++ [10].
Definition capture (ev : event) : res (throws ParsedExpectation) :=
  match parse_string (mini_journal (event_to_expect_line ev)) with
  | inl e => Ok (inl e)
  | inr (mkJournal _ (mkEntry _ (x :: _) :: _)) => Ok (inr x)
  | inr _ => UB
  end.
Fixpoint capture_all (evs : list event) : res (throws (list ParsedExpectation)) :=
  match evs with
  | [] => Ok (inr [])
  | ev :: evs' =>
      match capture ev with
      | Ok (inl e) => Ok (inl e)
      | Ok (inr x) =>
          match capture_all evs' with
          | Ok (inl e) => Ok (inl e)
          | Ok (inr xs) => Ok (inr (x :: xs))
          | Fuel => Fuel
          | UB => UB
          end
      | Fuel => Fuel
      | UB => UB
      end
  end.
Definition build_entry (a : ParsedAction) (all_events : list event) : res (throws JournalEntry) :=
  match capture_all all_events with
  | Ok (inl e) => Ok (inl e)
  | Ok (inr xs) => Ok (inr (mkEntry a xs))
  | Fuel => Fuel
  | UB => UB
  end.

(** * What was recorded is what is replayed *)

(** ** Events as expectations *)

(** Identifiers and counts as [std::stoll] can read them back. *)
Definition readable (id : Z) : Prop := 0 <= id <= int64_max.

(** The events with a line that says all of them. *)
Definition recordable (e : event) : Prop :=
  match e with
  | OrderAccepted id cid ts => readable id ∧ readable cid ∧ in_int64 ts
  | OrderRejected cid ts reason => readable cid ∧ in_int64 ts ∧ reason ≠ MaxOrderSizeExceeded
  | OrderFilled a r p q ts => readable a ∧ readable r ∧ in_int64 p ∧ in_int64 q ∧ in_int64 ts
  | OrderPartiallyFilled a r p q ar rr ts =>
      readable a ∧ readable r ∧ in_int64 p ∧ in_int64 q ∧ in_int64 ar ∧ in_int64 rr ∧ in_int64 ts
  | OrderCancelled id ts _ => readable id ∧ in_int64 ts
  | OrderCancelRejected id cid ts reason | OrderModifyRejected id cid ts reason =>
      readable id ∧ readable cid ∧ in_int64 ts ∧ reason ≠ MaxOrderSizeExceeded
  | OrderModified id cid p q ts => readable id ∧ readable cid ∧ in_int64 p ∧ in_int64 q ∧ in_int64 ts
  | TopOfBook b bq a aq ts => in_int64 b ∧ in_int64 bq ∧ in_int64 a ∧ in_int64 aq ∧ in_int64 ts
  | DepthUpdate _ p q n _ ts => in_int64 p ∧ in_int64 q ∧ in_uint32 n ∧ in_int64 ts
  | OrderBookAction id _ p q _ ts => readable id ∧ in_int64 p ∧ in_int64 q ∧ in_int64 ts
  | Trade p q a r _ ts => in_int64 p ∧ in_int64 q ∧ readable a ∧ readable r ∧ in_int64 ts
  | MarketStatus _ ts => in_int64 ts
  | IndicativePrice p v b s ts => in_int64 p ∧ in_int64 v ∧ in_int64 b ∧ in_int64 s ∧ in_int64 ts
  | TradeBusted _ _ _ _ _ _ _ | LockLimitTriggered _ _ _ _ => False
  end.
#[global] Instance recordable_dec e : Decision (recordable e).
Proof. unfold recordable, readable, in_int64, in_uint32. destruct e; apply _. Defined.

Lemma readable_signed id : readable id → decimal id = signed_decimal id.
Proof. intros [H _]. unfold signed_decimal. by rewrite (proj2 (Z.ltb_ge id 0)). Qed.
Lemma readable_int64 id : readable id → in_int64 id.
Proof. unfold readable, in_int64, int64_min. lia. Qed.
Lemma readable_u64 id : readable id → wrap_u64 id = id.
Proof. intros H. apply wrap_u64_id. unfold readable, in_uint64, int64_max, uint64_mod in *. lia. Qed.
Lemma uint32_readable n : in_uint32 n → readable n.
Proof. unfold in_uint32, readable, int64_max. lia. Qed.

Lemma read_str t fields k v : NoDup fields.*1 → (k, v) ∈ fields →
  expect_str (mkExpectation t (insert_all fields ∅)) k = inr v.
Proof. intros Hn Hin. unfold expect_str, field_str. cbn [exp_fields]. by rewrite (insert_all_lookup _ _ _ _ Hn Hin). Qed.
Lemma read_int t fields k v : NoDup fields.*1 → (k, signed_decimal v) ∈ fields → in_int64 v →
  expect_int (mkExpectation t (insert_all fields ∅)) k = inr v.
Proof.
  intros Hn Hin Hv. unfold expect_int, field_int. fold (expect_str (mkExpectation t (insert_all fields ∅)) k).
  rewrite (read_str _ _ _ _ Hn Hin). by apply stoll_signed.
Qed.
Lemma read_id t fields k v : NoDup fields.*1 → (k, decimal v) ∈ fields → readable v →
  expect_int (mkExpectation t (insert_all fields ∅)) k = inr v.
Proof. intros Hn Hin Hv. rewrite readable_signed in Hin by done. apply read_int; [done..|by apply readable_int64]. Qed.
Lemma read_id_or t fields k v d : NoDup fields.*1 → (k, decimal v) ∈ fields → readable v →
  expect_int_or (mkExpectation t (insert_all fields ∅)) k d = inr v.
Proof.
  intros Hn Hin Hv. rewrite readable_signed in Hin by done. unfold expect_int_or. cbn [exp_fields].
  rewrite (insert_all_lookup _ _ _ _ Hn Hin). by apply stoll_signed, readable_int64.
Qed.

Lemma parse_side_name s : parse_side (side_to_journal s) = inr s.
Proof. by destruct s. Qed.
Lemma parse_reject_name r : r ≠ MaxOrderSizeExceeded → parse_reject_reason (reject_reason_to_journal r) = inr r.
Proof. by destruct r. Qed.
Lemma parse_cancel_name r : parse_cancel_reason (cancel_reason_to_journal r) = inr r.
Proof. by destruct r. Qed.
Lemma parse_state_name st : parse_session_state (session_state_to_journal st) = inr st.
Proof. by destruct st. Qed.
Lemma parse_depth_name a : parse_depth_action (depth_action_to_journal a) = inr a.
Proof. by destruct a. Qed.
Lemma parse_book_name a : parse_book_action (book_action_to_journal a) = inr a.
Proof. by destruct a. Qed.
Create Rewrite HintDb names.
#[local] Hint Rewrite parse_side_name parse_cancel_name parse_state_name parse_depth_name parse_book_name : names.
#[local] Hint Rewrite parse_reject_name using done : names.
#[local] Hint Rewrite readable_u64 using (done || by apply uint32_readable) : names.
#[local] Hint Rewrite wrap_u32_id using done : names.

(** The expectation that the line of [e] says. *)
Definition expectation_for (e : event) : ParsedExpectation :=
  match expectation_of e with
  | Some (type, fields) => mkExpectation type (insert_all fields ∅)
  | None => mkExpectation [] ∅
  end.

Ltac distinct := cbn [fmap list_fmap fst]; by apply (bool_decide_unpack _).
Ltac expect_field :=
  first
    [ erewrite read_int; [|distinct|member|eassumption]
    | erewrite read_id; [|distinct|member|first [eassumption|by apply uint32_readable]]
    | erewrite read_id_or; [|distinct|member|eassumption]
    | erewrite read_str; [|distinct|member] ];
  cbn [mbind throws_bind]; autorewrite with names; cbn [mbind throws_bind].

Lemma event_read_back e : recordable e → expectation_to_event (expectation_for e) = inr e.
Proof.
  destruct e; cbn [recordable]; intros He; try done; destruct_and? He; unfold expectation_for, expectation_to_event;
    cbn [expectation_of event_type]; repeat (first [rewrite bool_decide_true by done | rewrite bool_decide_false by done]).
  all: cbv zeta; repeat expect_field; done.
Qed.

(** ** Generated journals *)

Lemma names_plain :
  (∀ s, plain (side_to_journal s)) ∧ (∀ r, plain (reject_reason_to_journal r)) ∧ (∀ r, plain (cancel_reason_to_journal r)) ∧
  (∀ a, plain (depth_action_to_journal a)) ∧ (∀ a, plain (book_action_to_journal a)) ∧ (∀ st, plain (session_state_to_journal st)).
Proof. split_and!; intros x; destruct x; by apply (bool_decide_unpack _). Qed.
Lemma expectation_fields e : recordable e → ∃ type fields, expectation_of e = Some (type, fields) ∧
  word type ∧ Forall field_ok fields ∧ NoDup fields.*1.
Proof.
  destruct e; cbn [recordable]; intros He; try done; do 2 eexists; (split; [reflexivity|]).
  all: split; [by apply (bool_decide_unpack _)|]; split; [|distinct].
  all: repeat (apply Forall_cons; split); [..|by apply Forall_nil].
  all: unfold field_ok; cbn [fst snd]; split_and!; try by apply (bool_decide_unpack _).
  all: try apply signed_plain; try apply names_plain.
  all: apply decimal_plain; unfold readable, in_uint32 in He; lia.
Qed.
Lemma line_read_back e n s a es entries : recordable e → s.(ps_entries) = mkEntry a es :: entries →
  parse_line n (event_to_expect_line e) s
  = inr (mkParser s.(ps_config) (mkEntry a (es ++ [expectation_for e]) :: entries)).
Proof.
  intros He Hs. destruct (expectation_fields e He) as (t & fs & E & Ht & Hf & _).
  unfold event_to_expect_line, expectation_for. rewrite E. by apply parse_expect_text.
Qed.

Lemma insert_all_ok (kvs : list (list Z * list Z)) (m : field_map) : Forall field_ok kvs → fields_ok m → fields_ok (insert_all kvs m).
Proof.
  intros H. revert m. induction H as [|[k v] kvs Hkv _ IH]; intros m Hm; [done|].
  apply (IH (<[k := v]> m)). by apply map_Forall_insert_2.
Qed.
Lemma expectation_for_ok e : recordable e → expectation_ok (expectation_for e).
Proof.
  intros He. destruct (expectation_fields e He) as (t & fs & E & Ht & Hf & _). unfold expectation_for. rewrite E.
  split; [done|]. by apply insert_all_ok; [|apply map_Forall_empty].
Qed.

(** The state of the parser in front of the line in a journal of its own. *)
Definition mini_lines : list (list Z) :=
  [chars "CONFIG match_algo=FIFO tick_size=100 lot_size=10000";
   chars "ACTION NEW_ORDER ts=1 cl_ord_id=999 account_id=0 side=BUY price=1000000 qty=10000 type=LIMIT tif=GTC"].
Definition mini_state : parser_state :=
  match parse_lines 1 mini_lines (mkParser default_config []) with inr s => s | inl _ => mkParser default_config [] end.
Lemma mini_parse : parse_lines 1 mini_lines (mkParser default_config []) = inr mini_state.
Proof. by vm_compute. Qed.
Lemma mini_entry : ∃ a, mini_state.(ps_entries) = [mkEntry a []].
Proof. eexists. by vm_compute. Qed.
Lemma mini_text line : mini_journal line = (mini_lines ++ [line]) ≫= λ l, l ++ [10].
Proof. unfold mini_lines. cbn [app]. rewrite !bind_cons. cbn [mbind list_bind]. by rewrite !app_nil_r, <- !app_assoc. Qed.

Lemma capture_expectation e : recordable e → capture e = Ok (inr (expectation_for e)).
Proof.
  intros He. destruct (expectation_fields e He) as (t & fs & E & Ht & Hf & _). destruct mini_entry as [a Ha].
  unfold capture, parse_string. rewrite mini_text, lines_joined, parse_lines_app, mini_parse.
  - cbn [mbind throws_bind parse_lines]. rewrite (line_read_back _ _ _ _ _ _ He Ha). done.
  - apply Forall_app. split; [by apply (bool_decide_unpack _)|]. apply Forall_cons. split; [|by apply Forall_nil].
    unfold event_to_expect_line. rewrite E. by apply expect_text_no_newline.
Qed.
Lemma build_entry_expectations a evs : Forall recordable evs →
  build_entry a evs = Ok (inr (mkEntry a (expectation_for <$> evs))).
Proof.
  intros H. unfold build_entry. assert (capture_all evs = Ok (inr (expectation_for <$> evs))) as ->; [|done].
  induction H as [|e evs He _ IH]; [done|]. cbn [capture_all fmap list_fmap]. rewrite capture_expectation by done.
  by rewrite IH.
Qed.
Lemma to_events_recorded evs : Forall recordable evs → to_events (expectation_for <$> evs) = inr evs.
Proof.
  induction 1 as [|e evs He _ IH]; [done|]. cbn [fmap list_fmap to_events]. rewrite event_read_back by done.
  cbn [mbind throws_bind]. by rewrite IH.
Qed.

(** ** Verdicts *)

Lemma first_mismatch_none i n evs : first_mismatch i n evs evs = None.
Proof. revert i. induction evs as [|e evs IH]; intros i; [done|]. cbn. by rewrite bool_decide_true. Qed.
Lemma first_mismatch_eq i n rs xs : length rs = length xs → first_mismatch i n rs xs = None → rs = xs.
Proof.
  revert i xs. induction rs as [|r rs IH]; intros i [|x xs]; try done. cbn. intros [= Hl].
  case_bool_decide; [subst|done]. intros Hm. f_equal. by eapply IH.
Qed.
Lemma first_mismatch_fails i n rs xs r : first_mismatch i n rs xs = Some r → r.(passed) = false.
Proof.
  revert i xs. induction rs as [|x rs IH]; intros i [|y xs]; try done. cbn.
  case_bool_decide; [apply IH|]. by intros [= <-].
Qed.
(** Exactly equal lists pass. *)
Lemma compare_passes rs xs n : (compare rs xs n).(passed) = true ↔ rs = xs.
Proof.
  unfold compare. destruct (Nat.eqb_spec (length rs) (length xs)) as [Hl|Hl].
  - destruct (first_mismatch 0 n rs xs) as [r|] eqn:E; cbn.
    + apply first_mismatch_fails in E as E'. rewrite E'. split; [done|]. intros ->. by rewrite first_mismatch_none in E.
    + split; [|done]. intros _. by eapply first_mismatch_eq.
  - split; [|by intros ->]. by destruct (xs !! _).
Qed.

Section replaying.
Context {params : EngineParams} {hooks : Hooks unit} {algo : MatchAlgorithm}.
Abbreviation E := (M (engine unit)).
Implicit Types s : engine unit.

(** The events of a run, action by action. *)
Fixpoint run_events (fuel : nat) (actions : list ParsedAction) : E (throws (list (list event))) :=
  match actions with
  | [] => mret (inr [])
  | a :: actions' =>
      match execute_action fuel a with
      | inl e => mret (inl e)
      | inr call => evs ← recorded_call call; r ← run_events fuel actions'; mret (evss ← r; inr (evs :: evss))
      end
  end.

(** A run of which every action's events become its entry. *)
Definition lift {A} (r : res A) : E A := λ s, match r with Ok a => Ok (a, s) | Fuel => Fuel | UB => UB end.
Fixpoint record_actions (fuel : nat) (actions : list ParsedAction) : E (throws (list JournalEntry)) :=
  match actions with
  | [] => mret (inr [])
  | a :: actions' =>
      match execute_action fuel a with
      | inl e => mret (inl e)
      | inr call =>
          evs ← recorded_call call;
          built ← lift (build_entry a evs);
          match built with
          | inl e => mret (inl e)
          | inr entry => r ← record_actions fuel actions'; mret (entries ← r; inr (entry :: entries))
          end
      end
  end.

Lemma run_events_cons fuel a actions s s' evss :
  run_events fuel (a :: actions) s = Ok (inr evss, s') ↔
  ∃ call evs evss' s1, execute_action fuel a = inr call ∧ recorded_call call s = Ok (evs, s1) ∧
    run_events fuel actions s1 = Ok (inr evss', s') ∧ evss = evs :: evss'.
Proof.
  cbn [run_events]. destruct (execute_action fuel a) as [e|call].
  - split; [intros [=]|]. by intros (? & ? & ? & ? & [=] & _).
  - unfold mbind, M_bind. split.
    + destruct (recorded_call call s) as [[evs s1]| |] eqn:E1; [|done..].
      destruct (run_events fuel actions s1) as [[[e|evss'] s2]| |] eqn:E2; cbn; [done| |done..].
      intros [= <- <-]. by exists call, evs, evss', s1.
    + intros (call' & evs & evss' & s1 & [= <-] & -> & -> & ->). done.
Qed.

(** A replay passes exactly when every action's events are those its
    expectations say. *)
Lemma replay_passes fuel i entries s s' :
  replay fuel i entries s = Ok (inr make_pass, s') ↔
  ∃ evss, run_events fuel (action <$> entries) s = Ok (inr evss, s') ∧
    Forall2 (λ en evs, to_events en.(expectations) = inr evs) entries evss.
Proof.
  revert i s. induction entries as [|en entries IH]; intros i s.
  { split; [intros [= ->]; by exists []|]. intros (evss & [= <- ->] & _). done. }
  cbn [fmap list_fmap]. setoid_rewrite run_events_cons. cbn [replay].
  destruct (execute_action fuel (action en)) as [e|call] eqn:Ex.
  { split; [intros [=]|]. by intros (? & (? & ? & ? & ? & [=] & _) & _). }
  unfold mbind at 1, M_bind at 1. destruct (recorded_call call s) as [[evs s1]| |] eqn:Er.
  2,3: split; [done|]; intros (? & (? & ? & ? & ? & [= <-] & ? & _) & _); congruence.
  destruct (to_events en.(expectations)) as [e|expected] eqn:Et.
  { split; [done|]. intros (? & (? & ? & ? & ? & _ & _ & _ & ->) & HF). apply Forall2_cons in HF as [H _]. congruence. }
  destruct (passed (compare evs expected i)) eqn:Ep.
  - apply compare_passes in Ep as <-. rewrite IH. split.
    + intros (evss & Hr & HF). exists (evs :: evss). split; [|by constructor]. by exists call, evs, evss, s1.
    + intros (? & (call' & evs' & evss & s1' & [= <-] & Hc & Hr & ->) & HF). apply Forall2_cons in HF as [_ HF].
      rewrite Er in Hc. injection Hc as <- <-. by exists evss.
  - split; [intros [= E _]; by rewrite E in Ep|].
    intros (? & (call' & evs' & evss & s1' & [= <-] & Hc & Hr & ->) & HF). apply Forall2_cons in HF as [H _].
    rewrite Er in Hc. injection Hc as <- <-. rewrite Et in H. injection H as ->.
    by rewrite (proj2 (compare_passes evs evs i) eq_refl) in Ep.
Qed.

(** The entries that a recorded run has. *)
Definition recorded_entries (actions : list ParsedAction) (evss : list (list event)) : list JournalEntry :=
  zip_with (λ a evs, mkEntry a (expectation_for <$> evs)) actions evss.

Lemma record_run fuel actions evss s s' : run_events fuel actions s = Ok (inr evss, s') → Forall (Forall recordable) evss →
  record_actions fuel actions s = Ok (inr (recorded_entries actions evss), s') ∧ action <$> recorded_entries actions evss = actions ∧
  Forall2 (λ en evs, to_events en.(expectations) = inr evs) (recorded_entries actions evss) evss.
Proof.
  revert s evss. induction actions as [|a actions IH]; intros s evss.
  { intros [= <- <-] _. by repeat split. }
  rewrite run_events_cons. intros (call & evs & evss' & s1 & Hx & Hr & Hrest & ->) [He Hes]%Forall_cons.
  destruct (IH s1 evss' Hrest Hes) as (H1 & H2 & H3). cbn [record_actions recorded_entries zip_with fmap list_fmap].
  rewrite Hx. unfold mbind at 1, M_bind at 1. rewrite Hr. unfold mbind at 1, M_bind at 1, lift.
  rewrite build_entry_expectations by done. unfold mbind at 1, M_bind at 1. rewrite H1. split_and!; [done| |].
  - f_equal. exact H2.
  - constructor; [by apply to_events_recorded|done].
Qed.

Lemma recorded_entries_ok actions evss : Forall (λ a, fields_ok a.(act_fields)) actions → Forall (Forall recordable) evss →
  Forall entry_ok (recorded_entries actions evss).
Proof.
  intros Ha. revert evss. induction Ha as [|a actions Ha _ IH]; intros [|evs evss]; try by intros; apply Forall_nil.
  intros [He Hes]%Forall_cons. apply Forall_cons. split; [|by apply IH]. split; [done|].
  apply Forall_fmap. eapply Forall_impl; [exact He|]. intros e. apply expectation_for_ok.
Qed.

End replaying.

(** ** An example

    A sell order, a larger buy order that trades with it, a cancel of an order
    that is not there, and the cancel of the rest, by [run_fifo]'s engine. *)

#[local] Instance example_order : FieldOrder := {| walk := map_to_list; walk_perm m := Permutation_refl _ |}.
#[local] Existing Instance runner_params.
#[local] Instance example_hooks : Hooks unit := fifo_exchange.

Definition order_action (ts cid account : Z) (side : string) (price qty : Z) : ParsedAction :=
  mkAction DoNewOrder
    {[chars "ts" := signed_decimal ts; chars "cl_ord_id" := decimal cid; chars "account_id" := decimal account;
      chars "side" := chars side; chars "price" := signed_decimal price; chars "qty" := signed_decimal qty;
      chars "type" := chars "LIMIT"; chars "tif" := chars "GTC"]}.
Definition cancel_action (ts id : Z) : ParsedAction :=
  mkAction DoCancel {[chars "ts" := signed_decimal ts; chars "ord_id" := decimal id]}.
Definition example_actions : list ParsedAction :=
  [order_action 1000 1 7 "SELL" 1005000 10000; order_action 2000 2 8 "BUY" 1005000 30000;
   cancel_action 3000 9; cancel_action 4000 2].
Definition example_engine : engine unit :=
  init_engine (engine_config default_config) tt (λ _, mkOrder 0 0 0 0 0 0 0 Buy Limit DAY 0 0 0 0 false false).
Definition example_run : list (list event) * engine unit :=
  match run_events 50 example_actions example_engine with Ok (inr evss, s) => (evss, s) | _ => ([], example_engine) end.

Lemma example_run_events : run_events 50 example_actions example_engine = Ok (inr example_run.1, example_run.2).
Proof. by vm_compute. Qed.

