(* ===== verification/OrderbookState.v ===== *)
(** * The observer's book: [src/tools/orderbook_state.cc]

    An [OrderbookState] is what a display rebuilds from the events of an engine:
    the levels of both sides, the last trades and the last messages.  Calls that
    do not trade leave it equal to the engine's own; an example shows one that
    does not.  [composite_listener.h] and [shm_listener.h], between the engine
    and the observer, change nothing. *)

From Stdlib Require Import Ascii String.
From S2P Require Import Prelude Types MatchAlgo MatchAlgoFacts MatchAlgoPriority Books Trackers Engine.
From S2P Require Import EngineInvariant EngineRules EngineFills EngineMatch EngineLoop EngineOrders EngineEntry.
From S2P Require Import EngineTheorems Text Journal.

#[local] Open Scope Z_scope.

(** ** State *)

Record PriceLevelView : Type := mkView { pv_price : Price; pv_total_qty : Quantity; pv_order_count : Z }.
Record TradeView : Type := mkTradeView {
  tv_price : Price; tv_quantity : Quantity; tv_aggressor_id : OrderId; tv_resting_id : OrderId; tv_ts : Timestamp
}.
Record EventLogEntry : Type := mkLogEntry { description : list Z; log_ts : Timestamp }.

(** The two maps are ordered by price, the best first. *)
Record OrderbookState : Type := mkBook {
  v_bids : gmap Z PriceLevelView;
  v_asks : gmap Z PriceLevelView;
  recent_trades : list TradeView;
  event_log : list EventLogEntry
}.
Definition empty_book : OrderbookState := mkBook ∅ ∅ [] [].

Definition kMaxTrades : nat := 20.
Definition kMaxEvents : nat := 50.

(** Append to a vector that keeps its last [n] elements. *)
Definition push_last {A} (n : nat) (x : A) (xs : list A) : list A :=
  (if (n <=? length xs)%nat then tail xs else xs) ++ [x].
Definition add_event (description : list Z) (ts : Timestamp) (b : OrderbookState) : OrderbookState :=
  mkBook b.(v_bids) b.(v_asks) b.(recent_trades) (push_last kMaxEvents (mkLogEntry description ts) b.(event_log)).
Definition add_trade (t : TradeView) (b : OrderbookState) : OrderbookState :=
  mkBook b.(v_bids) b.(v_asks) (push_last kMaxTrades t b.(recent_trades)) b.(event_log).
Definition set_view (side : Side) (m : gmap Z PriceLevelView) (b : OrderbookState) : OrderbookState :=
  match side with
  | Buy => mkBook m b.(v_asks) b.(recent_trades) b.(event_log)
  | Sell => mkBook b.(v_bids) m b.(recent_trades) b.(event_log)
  end.
Definition view_of (side : Side) (b : OrderbookState) : gmap Z PriceLevelView :=
  match side with Buy => b.(v_bids) | Sell => b.(v_asks) end.

(** ** Events *)

(** The text of the message for an event, if one is logged. *)
Definition describe (e : event) : option (list Z * Timestamp) :=
  match e with
  | OrderBookAction id side price qty action ts =>
      Some (braced (chars "OrderBookAction")
        [(chars "id", decimal id); (chars "side", side_str side); (chars "price", signed_decimal price);
         (chars "qty", signed_decimal qty); (chars "action", book_action_str action)], ts)
  | TopOfBook best_bid bid_qty best_ask ask_qty ts =>
      Some (braced (chars "TopOfBook")
        [(chars "bid", signed_decimal best_bid); (chars "bid_qty", signed_decimal bid_qty);
         (chars "ask", signed_decimal best_ask); (chars "ask_qty", signed_decimal ask_qty)], ts)
  | OrderAccepted id client_order_id ts =>
      Some (braced (chars "OrderAccepted") [(chars "id", decimal id); (chars "cl_ord_id", decimal client_order_id)], ts)
  | OrderRejected client_order_id ts reason =>
      Some (braced (chars "OrderRejected")
        [(chars "cl_ord_id", decimal client_order_id); (chars "reason", reject_reason_str reason)], ts)
  | OrderFilled aggressor_id resting_id price quantity ts =>
      Some (braced (chars "OrderFilled")
        [(chars "aggressor", decimal aggressor_id); (chars "resting", decimal resting_id);
         (chars "price", signed_decimal price); (chars "qty", signed_decimal quantity)], ts)
  | OrderPartiallyFilled aggressor_id resting_id price quantity aggressor_remaining resting_remaining ts =>
      Some (braced (chars "OrderPartiallyFilled")
        [(chars "aggressor", decimal aggressor_id); (chars "resting", decimal resting_id);
         (chars "price", signed_decimal price); (chars "qty", signed_decimal quantity);
         (chars "agg_rem", signed_decimal aggressor_remaining); (chars "rest_rem", signed_decimal resting_remaining)], ts)
  | OrderCancelled id ts reason =>
      Some (braced (chars "OrderCancelled") [(chars "id", decimal id); (chars "reason", cancel_reason_str reason)], ts)
  | OrderCancelRejected id client_order_id ts reason =>
      Some (braced (chars "OrderCancelRejected")
        [(chars "id", decimal id); (chars "cl_ord_id", decimal client_order_id);
         (chars "reason", reject_reason_str reason)], ts)
  | OrderModified id _ new_price new_qty ts =>
      Some (braced (chars "OrderModified")
        [(chars "id", decimal id); (chars "new_price", signed_decimal new_price);
         (chars "new_qty", signed_decimal new_qty)], ts)
  | OrderModifyRejected id client_order_id ts reason =>
      Some (braced (chars "OrderModifyRejected")
        [(chars "id", decimal id); (chars "cl_ord_id", decimal client_order_id);
         (chars "reason", reject_reason_str reason)], ts)
  | _ => None
  end.

Definition apply (b : OrderbookState) (e : event) : OrderbookState :=
  match e with
  | DepthUpdate side price total_qty order_count action _ =>
      match action with
      | DepthAdd | DepthUpd => set_view side (<[price := mkView price total_qty order_count]> (view_of side b)) b
      | DepthRemove => set_view side (delete price (view_of side b)) b
      end
  | Trade price quantity aggressor_id resting_id _ ts =>
      add_trade (mkTradeView price quantity aggressor_id resting_id ts) b
  | _ => match describe e with Some (text, ts) => add_event text ts b | None => b end
  end.

(** The first key of an ordered map, 0 if there is none. *)
Definition first_key (better : Z → Z → bool) (m : gmap Z PriceLevelView) : Price :=
  match (map_to_list m).*1 with
  | [] => 0
  | p :: ps => fold_left (λ best p, if better p best then p else best) ps p
  end.
Definition view_best_bid (b : OrderbookState) : Price := first_key higher_first b.(v_bids).
Definition view_best_ask (b : OrderbookState) : Price := first_key lower_first b.(v_asks).

(** What an observer of the events [evs] has rebuilt. *)
Definition observe (evs : list event) : OrderbookState := fold_left apply evs empty_book.

(** ** Behind other listeners *)

(** A composite listener does not forward two of the events, and the listener
    that publishes to shared memory one more. *)
Definition composite_forwards (e : event) : bool :=
  match e with TradeBusted _ _ _ _ _ _ _ | LockLimitTriggered _ _ _ _ => false | _ => true end.
Definition shm_forwards (e : event) : bool :=
  match e with TradeBusted _ _ _ _ _ _ _ | LockLimitTriggered _ _ _ _ | IndicativePrice _ _ _ _ _ => false | _ => true end.
(** An observer behind both sees what one at the engine sees. *)
Lemma forwarded_same_book evs : observe (filter (λ e, shm_forwards e = true) (filter (λ e, composite_forwards e = true) evs)) = observe evs.
Proof.
  unfold observe. generalize empty_book. induction evs as [|e evs IH]; intros b; [done|].
  rewrite filter_cons. cbn [fold_left].
  destruct e; cbn [composite_forwards decide]; repeat (rewrite filter_cons; cbn [shm_forwards]); cbn; apply IH.
Qed.

(** ** What it should show *)

Definition level_view (lv : PriceLevel) : PriceLevelView := mkView lv.(lv_price) lv.(lv_total_quantity) lv.(lv_order_count).
Definition shows (levels : list PriceLevel) : gmap Z PriceLevelView :=
  list_to_map ((λ lv, (lv.(lv_price), level_view lv)) <$> levels).

Lemma shows_cons lv levels : shows (lv :: levels) = <[lv.(lv_price) := level_view lv]> (shows levels).
Proof. done. Qed.
Lemma shows_absent p levels : p ∉ prices levels → shows levels !! p = None.
Proof.
  intros Hp. apply not_elem_of_list_to_map. unfold prices in Hp. by rewrite <- list_fmap_compose.
Qed.

Section shown.
Context (before : Price → Price → bool) `{!PriceOrder before} (P : Price → Order → Prop).
Implicit Types levels : list PriceLevel.

Lemma sorted_absent lv levels : side_ok before P (lv :: levels) → lv.(lv_price) ∉ prices levels.
Proof using PriceOrder0.
  intros [[_ Hs]%StronglySorted_inv _] Hin. rewrite Forall_forall in Hs. apply Hs in Hin.
  by rewrite po_irrefl in Hin.
Qed.
Lemma side_ok_tail lv levels : side_ok before P (lv :: levels) → side_ok before P levels.
Proof. intros [[Hs _]%StronglySorted_inv Hl]. apply Forall_cons in Hl as [_ Hl]. by split. Qed.
Lemma side_prices_nodup levels : side_ok before P levels → NoDup (prices levels).
Proof using PriceOrder0.
  induction levels as [|lv levels IH]; intros Hok; [by apply NoDup_nil|].
  apply NoDup_cons. split; [by apply sorted_absent|]. by apply IH, (side_ok_tail lv).
Qed.

(** The level of a removed order disappears or shows what is left. *)
Lemma shows_remove l levels v o freed :
  side_ok before P levels → (∀ p o, P p o → o.(o_price) = p) →
  remove_order l levels = Some (v, o, freed) →
  match freed with
  | Some _ => shows v = delete o.(o_price) (shows levels)
  | None => ∃ lv, find_level o.(o_price) v = Some lv ∧ shows v = <[o.(o_price) := level_view lv]> (shows levels)
  end.
Proof using PriceOrder0.
  intros Hok HP. revert v. induction levels as [|lv levels IH]; intros v; [done|]. cbn [remove_order].
  pose proof (sorted_absent _ _ Hok) as Habs. pose proof (side_ok_tail _ _ Hok) as Htl.
  pose proof (so_levels _ _ _ Hok) as [Hlv _]%Forall_cons.
  destruct (find_entry l (lv_queue lv)) as [o'|] eqn:E.
  - assert (Hpr : o_price o' = lv_price lv).
    { apply HP. apply find_entry_Some in E. pose proof (lk_orders _ _ Hlv) as Ho. rewrite Forall_forall in Ho.
      by apply (Ho (l, o')). }
    case_if as Hc; intros [= <- <- <-]; rewrite Hpr, shows_cons.
    + by rewrite delete_insert_id by (by apply shows_absent).
    + eexists. cbn. rewrite Z.eqb_refl. split; [done|]. by rewrite insert_insert_eq.
  - destruct (remove_order l levels) as [[[rest o'] fr]|] eqn:Er; [|done]. intros [= <- <- <-].
    specialize (IH Htl rest eq_refl).
    assert (Hne : lv_price lv ≠ o_price o').
    { eapply remove_order_P in Er as (p & Hp & HPo); [|exact Htl].
      rewrite (HP _ _ HPo). intros Heq. by rewrite Heq in Habs. }
    rewrite !shows_cons. destruct fr as [slot|].
    + rewrite IH. by rewrite delete_insert_ne.
    + destruct IH as (lv' & Hf & ->). exists lv'. split.
      * cbn. by rewrite (proj2 (Z.eqb_neq _ _) Hne).
      * by rewrite insert_insert_ne.
Qed.

(** The level an order joins shows it. *)
Lemma shows_at_level p g levels : (∀ lv, lv_price (g lv) = lv_price lv) → p ∈ prices levels → NoDup (prices levels) →
  ∃ lv, lv ∈ at_level p g levels ∧ lv_price lv = p ∧
    shows (at_level p g levels) = <[p := level_view lv]> (shows levels) ∧
    ∃ lv0, lv0 ∈ levels ∧ lv = g lv0.
Proof.
  intros Hg. unfold prices. induction levels as [|lv levels IH]; [by intros ?%elem_of_nil|]. cbn [fmap list_fmap at_level].
  intros Hin [Hni Hnd]%NoDup_cons. destruct (Z.eqb_spec (lv_price lv) p) as [<-|Hne].
  - exists (g lv). split_and!; [by left|done| |by exists lv; split; [left|]].
    rewrite !shows_cons, Hg. by rewrite insert_insert_eq.
  - apply elem_of_cons in Hin as [->|Hin]; [done|]. destruct (IH Hin Hnd) as (lv' & H1 & H2 & H3 & lv0 & H4 & ->).
    exists (g lv0). split_and!; [by right|done| |by exists lv0; split; [right|]].
    rewrite !shows_cons, H3. by rewrite insert_insert_ne.
Qed.
Lemma shows_link lv levels : lv.(lv_price) ∉ prices levels →
  shows (link_level before lv levels) = <[lv.(lv_price) := level_view lv]> (shows levels).
Proof.
  unfold prices. induction levels as [|cur levels IH]; intros Hni; [done|]. cbn [fmap list_fmap] in Hni.
  apply not_elem_of_cons in Hni as [Hne Hni]. cbn [link_level].
  destruct (before (lv_price lv) (lv_price cur)); [done|]. rewrite !shows_cons, IH by done. by rewrite insert_insert_ne.
Qed.
Lemma shows_insert e slot levels v new : side_ok before P levels → insert_order before e slot levels = (v, new) →
  ∃ lv, lv ∈ v ∧ e ∈ lv.(lv_queue) ∧ lv_price lv = e.2.(o_price) ∧ shows v = <[e.2.(o_price) := level_view lv]> (shows levels).
Proof using PriceOrder0.
  intros Hok. pose proof (side_prices_nodup _ Hok) as Hnd. unfold insert_order.
  destruct (find_level _ levels) as [lv|] eqn:E; intros [= <- <-].
  - apply find_level_Some in E as [Hin Hp].
    destruct (shows_at_level (e.2.(o_price)) (append_order e) levels) as (lv' & H1 & H2 & H3 & lv0 & _ & ->); [done|..|done|].
    + rewrite <- Hp. by apply list_elem_of_fmap_2.
    + eexists. split_and!; [exact H1| |done|done]. cbn. apply elem_of_app. right. by left.
  - apply find_level_None in E. set (lv := mkLevel slot _ 0 0 []).
    assert (Hp : prices (link_level before lv levels) ≡ₚ o_price e.2 :: prices levels)
      by (unfold prices; by rewrite link_level_perm).
    destruct (shows_at_level (e.2.(o_price)) (append_order e) (link_level before lv levels))
      as (lv' & H1 & H2 & H3 & lv0 & _ & ->); [done| | |].
    + rewrite Hp. by left.
    + rewrite Hp. by apply NoDup_cons.
    + eexists. split_and!; [exact H1| |done|]. { cbn. apply elem_of_app. right. by left. }
      rewrite H3, shows_link by done. cbn. by rewrite insert_insert_eq.
Qed.
End shown.

(** * Following the engine *)

(** Events that leave the levels of the observer alone. *)
Definition no_depth (e : event) : Prop := match e with DepthUpdate _ _ _ _ _ _ => False | _ => True end.

Lemma observe_app evs evs' : observe (evs ++ evs') = fold_left apply evs' (observe evs).
Proof. apply fold_left_app. Qed.
Lemma apply_no_depth side b e : no_depth e → view_of side (apply b e) = view_of side b.
Proof. by destruct e, side. Qed.
Lemma view_no_depth side evs b : Forall no_depth evs → view_of side (fold_left apply evs b) = view_of side b.
Proof.
  intros H. revert b. induction H as [|e evs He _ IH]; intros b; [done|]. cbn. by rewrite IH, apply_no_depth.
Qed.
Lemma view_set side m b : view_of side (set_view side m b) = m.
Proof. by destruct side. Qed.
Lemma view_set_other side side' m b : side ≠ side' → view_of side' (set_view side m b) = view_of side' b.
Proof. by destruct side, side'. Qed.

(** The logs keep their bounds. *)
Lemma push_last_bound {A} n (x : A) xs : (0 < n)%nat → (length xs <= n)%nat → (length (push_last n x xs) <= n)%nat.
Proof.
  intros Hn Hl. unfold push_last. rewrite length_app. cbn. destruct (Nat.leb_spec n (length xs)); [|lia].
  destruct xs; cbn in *; lia.
Qed.
Lemma logs_bounded evs : (length (recent_trades (observe evs)) <= kMaxTrades)%nat ∧ (length (event_log (observe evs)) <= kMaxEvents)%nat.
Proof.
  unfold observe. assert (H : (length (recent_trades empty_book) <= kMaxTrades)%nat ∧ (length (event_log empty_book) <= kMaxEvents)%nat)
    by (unfold kMaxTrades, kMaxEvents; cbn; lia).
  revert H. generalize empty_book. induction evs as [|e evs IH]; intros b [Ht He]; [done|]. cbn [fold_left]. apply IH.
  destruct e as [| | | | | | | | | |sd p q n [] ts| | | | |]; cbn [apply describe]; first
    [ by split | by destruct sd
    | split; [exact Ht|apply push_last_bound; [apply Nat.lt_0_succ|exact He]]
    | split; [apply push_last_bound; [apply Nat.lt_0_succ|exact Ht]|exact He] ].
Qed.

(** ** Rules for the observer *)

Section observer.
Context {D : Type} {params : EngineParams} {hooks : Hooks D} {algo : MatchAlgorithm}.
Implicit Types (s : engine D) (ts : Timestamp) (l : loc) (o : Order) (req : OrderRequest).

(** What the observer has of a side. *)
Definition seen (side : Side) s : gmap Z PriceLevelView := view_of side (observe s.(trace)).
(** The observer is up to date. *)
Definition in_step s : Prop := ∀ side, seen side s = shows (side_levels side s).

Lemma in_step_quiet s s' evs : in_step s → s'.(trace) = s.(trace) ++ evs → Forall no_depth evs →
  s'.(bids) = s.(bids) → s'.(asks) = s.(asks) → in_step s'.
Proof.
  intros H Ht He Hb Ha side. unfold seen. rewrite Ht, observe_app, view_no_depth by done.
  change (view_of side (observe s.(trace))) with (seen side s). rewrite (H side). destruct side; cbn; by rewrite ?Hb, ?Ha.
Qed.

(** What changes is the levels of one side, and an update says how. *)
Lemma in_step_update side v price view act ts s s' evs evs' :
  in_step s →
  s'.(trace) = s.(trace) ++ evs ++ DepthUpdate side price (pv_total_qty view) (pv_order_count view) act ts :: evs' →
  Forall no_depth evs → Forall no_depth evs' →
  side_levels side s' = v → side_levels (opposite side) s' = side_levels (opposite side) s →
  shows v = match act with
            | DepthRemove => delete price (shows (side_levels side s))
            | _ => <[price := mkView price (pv_total_qty view) (pv_order_count view)]> (shows (side_levels side s))
            end →
  in_step s'.
Proof.
  intros H Ht He He' Hv Ho Hs sd. unfold seen. rewrite Ht, observe_app, fold_left_app. cbn [fold_left]. rewrite view_no_depth by done.
  set (b := fold_left apply evs (observe (trace s))).
  assert (Hb : ∀ sd', view_of sd' b = shows (side_levels sd' s)) by (intros sd'; unfold b; rewrite view_no_depth by done; apply H).
  destruct (decide (side = sd)) as [<-|Hne].
  - rewrite Hv, Hs, <- Hb. by destruct act; cbn [apply]; rewrite view_set.
  - assert (sd = opposite side) as -> by (by destruct side, sd). rewrite Ho, <- Hb.
    destruct act; cbn [apply]; by rewrite view_set_other by (by destruct side).
Qed.

Lemma wp_top_quiet ts ob oa (Q : unit → engine D → Prop) s :
  (∀ evs, Forall no_depth evs → Q tt (says evs s)) → wp (fire_top_of_book_if_changed ts ob oa) Q s.
Proof.
  intros HQ. unfold fire_top_of_book_if_changed, fire_top_of_book. wp_steps. apply wp_when; intros _.
  - wp_steps. destruct (s.(bids)); destruct (s.(asks)); apply wp_emit; by apply (HQ [_]), Forall_singleton.
  - rewrite <- (says_nil s). by apply HQ, Forall_nil.
Qed.
Lemma wp_top_quiet_always ts (Q : unit → engine D → Prop) s :
  (∀ evs, Forall no_depth evs → Q tt (says evs s)) → wp (fire_top_of_book ts) Q s.
Proof.
  intros HQ. unfold fire_top_of_book. wp_steps.
  destruct (s.(bids)); destruct (s.(asks)); apply wp_emit; by apply (HQ [_]), Forall_singleton.
Qed.

(** What is not about the book or the observer. *)
Definition same_stops s s' : Prop :=
  s'.(last_trade_price) = s.(last_trade_price) ∧ s'.(buy_stops) = s.(buy_stops) ∧ s'.(sell_stops) = s.(sell_stops).
Definition told s s' : Prop := in_step s' ∧ same_stops s s'.

Lemma told_says evs s s' : Forall no_depth evs → told s s' → told s (says evs s').
Proof. intros He [H Hs]. split; [|done]. by eapply in_step_quiet. Qed.

(** An order rests. *)
Lemma wp_insert_told l o ts fl s : inv ((l, o) :: fl) s → in_step s → book_order o.(o_side) o.(o_price) o →
  wp (insert_into_book (l, o) ts) (λ _ s', told s s') s.
Proof.
  intros H Hst HP. unfold insert_into_book, allocate_level, index_clear, deallocate_order. cbn [fst snd]. wp_steps.
  destruct (s.(level_free)) as [|slot lf] eqn:Hlf.
  { eng_steps. split; [|done]. by eapply (in_step_quiet _ _ [_]); [exact Hst|done|apply Forall_singleton|done..]. }
  wp_steps. change (side_levels ?x (set_level_free lf s)) with (side_levels x s).
  destruct (insert_order _ (l, o) slot _) as [v new] eqn:Hi.
  pose proof (inv_attach (OnBook o.(o_side)) (l, o) slot lf fl s v new H Hlf Hi HP) as Hinv.
  pose proof (inv_sides _ _ (OnBook o.(o_side)) H) as Hok.
  destruct (shows_insert _ _ _ _ _ _ _ Hok Hi) as (lv & Hlv & Hin & Hp & Hsh). cbn [snd] in Hp, Hsh.
  assert (Hf : find_order l v = Some (o, lv)).
  { apply find_order_elem; [|done|done]. pose proof (inv_level_locs (OnBook o.(o_side)) _ _ Hinv) as Hnd.
    destruct new, (o_side o); exact Hnd. }
  assert (Hend : ∀ s1 evs, s1.(trace) = s.(trace) → same_stops s s1 → side_levels o.(o_side) s1 = v →
    side_levels (opposite o.(o_side)) s1 = side_levels (opposite o.(o_side)) s → evs =
      [OrderBookAction o.(o_id) o.(o_side) o.(o_price) o.(o_remaining_quantity) ActAdd ts;
       DepthUpdate o.(o_side) lv.(lv_price) lv.(lv_total_quantity) lv.(lv_order_count) (if new then DepthAdd else DepthUpd) ts] →
    told s (says evs s1)).
  { intros s1 evs Ht Hss Hv Ho ->. split; [|exact Hss].
    eapply (in_step_update o.(o_side) v lv.(lv_price) (level_view lv) (if new then DepthAdd else DepthUpd) ts s _ [_] []);
      [exact Hst|cbn; by rewrite Ht|by apply Forall_singleton|by apply Forall_nil|by destruct (o_side o)|by destruct (o_side o)|].
    rewrite Hsh, Hp. destruct new; by rewrite <- Hp. }
  wp_steps. apply wp_when; intros Hnew; destruct new; try done; unfold deallocate_level; wp_steps.
  all: apply wp_emit, wp_bind; eapply wp_deref; [exact Hf|]; cbv beta iota; apply wp_emit; rewrite says_says.
  all: apply Hend; destruct (o_side o); done.
Qed.

Lemma book_order_price side p o : book_order side p o → o.(o_price) = p.
Proof. by intros (_ & _ & ? & _). Qed.

(** An order leaves. *)
Lemma wp_cancel_told l o lv ts reason s : inv [] s → in_step s → s.(order_index) !! o.(o_id) = Some l →
  load_order l s = Some (o, lv) → wp (cancel_active_order l ts reason) (λ _ s', in_step s') s.
Proof.
  intros H Hst Hi Hl.
  destruct (inv_indexed s l _ H Hi) as (b & o' & lv' & v & freed & Hl' & _ & _ & Hr & HP).
  rewrite Hl in Hl'. injection Hl' as <- <-.
  unfold cancel_active_order, index_clear, deallocate_order. wp_steps. eapply wp_deref; [exact Hl|]. cbv beta iota.
  destruct b as [side|side].
  - destruct HP as (Hside & Hty & Hpr & _). rewrite Hty, Hside. cbn [is_stop bool_decide]. cbn.
    pose proof (inv_sides _ _ (OnBook side) H) as Hok.
    pose proof (shows_remove _ _ _ _ _ _ _ Hok (λ p x, book_order_price side p x) Hr) as Hsh.
    apply wp_bind. eapply wp_book_remove; [exact Hr|]. wp_steps. apply wp_emit, wp_bind, wp_emit, wp_bind.
    unfold fire_depth_after_remove, deallocate_level. destruct freed as [slot|]; wp_steps.
    + apply wp_emit, wp_modify. apply wp_bind, wp_top_quiet. intros evs He. apply wp_modify.
      eapply (in_step_update side v o.(o_price) (mkView 0 0 0) DepthRemove ts s _ [_; _] evs);
        [exact Hst|cbn; rewrite trace_set_side; cbn; rewrite <- !app_assoc; reflexivity| |exact He|by destruct side|by destruct side|exact Hsh].
      by repeat constructor.
    + destruct Hsh as (lv' & Hf & Hsh). unfold find_level_by_price.
      assert (E : ∀ s1, side_levels side s1 = v → find_level (o_price o) (side_levels side s1) = Some lv') by (by intros s1 ->).
      rewrite E by (by destruct side). apply wp_emit. apply wp_bind, wp_top_quiet. intros evs He. apply wp_modify.
      pose proof (find_level_Some _ _ _ Hf) as [_ Hp].
      eapply (in_step_update side v o.(o_price) (level_view lv') DepthUpd ts s _ [_; _] evs);
        [exact Hst|cbn; rewrite trace_set_side; cbn; rewrite <- !app_assoc; reflexivity| |exact He|by destruct side|by destruct side|].
      * by repeat constructor.
      * rewrite Hsh, <- Hp. done.
  - destruct HP as (_ & Hs & _). rewrite Hs.
    apply wp_bind. eapply (wp_stop_remove side); [exact H|exact Hr|]. wp_steps.
    apply wp_emit, wp_bind, wp_deallocate_if_freed, wp_modify.
    eapply (in_step_quiet s _ [_]); [exact Hst|by destruct side|by apply Forall_singleton|by destruct side..].
Qed.

(** Well formed, and shown. *)
Definition shown s : Prop := inv [] s ∧ in_step s.

Lemma wp_cancel_shown l id ts reason s : shown s → s.(order_index) !! id = Some l →
  ∃ o lv, load_order l s = Some (o, lv) ∧ wp (cancel_active_order l ts reason) (λ _ s', shown s') s.
Proof.
  intros [H Hst] Hi. destruct (inv_indexed s l id H Hi) as (b & o & lv & v & freed & Hl & Ho & _).
  exists o, lv. split; [done|]. subst id. eapply wp_mono; [apply wp_conj|].
  - by eapply wp_cancel_active_order.
  - by eapply wp_cancel_told.
  - intros [] s' [Hc Hs]. split; [apply Hc|exact Hs].
Qed.
Lemma wp_scan_shown sel reason ts ids count s : shown s → wp (cancel_scan sel reason ts ids count) (λ _ s', shown s') s.
Proof.
  revert count s. induction ids as [|i ids IH]; intros count s Hs; cbn [cancel_scan]; [by apply wp_ret|].
  wp_steps. destruct (s.(order_index) !! i) as [l|] eqn:Hi; [|by apply IH].
  destruct (wp_cancel_shown l i ts reason s Hs Hi) as (o & lv & Hl & Hw).
  apply wp_bind. eapply wp_deref; [exact Hl|]. cbv beta iota. destruct (sel o); [|by apply IH].
  apply wp_bind. eapply wp_mono; [exact Hw|]. intros [] s1 H1. by apply IH.
Qed.

Lemma shown_says evs s : Forall no_depth evs → shown s → shown (says evs s).
Proof. intros He [H Hs]. split; [exact H|]. by eapply in_step_quiet. Qed.
Lemma shown_same s s' : shown s → inv [] s' → s'.(trace) = s.(trace) → s'.(bids) = s.(bids) → s'.(asks) = s.(asks) → shown s'.
Proof. intros [_ Hs] H Ht Hb Ha. split; [done|]. eapply (in_step_quiet s s' []); [done|by rewrite app_nil_r|by apply Forall_nil|done..]. Qed.

Lemma wp_cancel_order_shown id ts s : shown s → wp (cancel_order id ts) (λ _ s', shown s') s.
Proof.
  intros Hs. unfold cancel_order. wp_steps. case_bool_decide; [apply wp_emit; by apply shown_says; [apply Forall_singleton|]|].
  destruct (index_lookup id s) as [l|] eqn:El; [|apply wp_emit; by apply shown_says; [apply Forall_singleton|]].
  assert (Hi : s.(order_index) !! id = Some l) by (unfold index_lookup in El; by destruct (_ || _)).
  destruct (wp_cancel_shown l id ts UserRequested s Hs Hi) as (o & lv & Hl & _).
  apply wp_bind. eapply wp_deref; [exact Hl|]. cbv beta iota. apply wp_bind, wp_rate_check. intros ok t _.
  assert (Hs' : shown (set_rate_tracker t s)) by (eapply (shown_same s); [exact Hs|apply Hs|done..]).
  destruct ok; cbn [negb]; [|apply wp_emit; by apply shown_says; [apply Forall_singleton|]].
  by destruct (wp_cancel_shown l id ts UserRequested _ Hs' Hi) as (o' & lv' & _ & Hw).
Qed.

(** ** Order entry without a trade *)

(** May the request trade at the price? *)
Definition touches req (price : Price) : bool :=
  match req.(r_type), req.(r_side) with
  | Limit, Buy => negb (price >? req.(r_price))
  | Limit, Sell => negb (price <? req.(r_price))
  | _, _ => true
  end.
(** The request parks, is collected for an auction, or finds nothing to trade
    with while no stop is due. *)
Definition passive req s : Prop :=
  is_stop req.(r_type) = true ∨ is_collection_phase s.(current_state) = true ∨
  (no_stop_due s ∧ match side_levels (opposite req.(r_side)) s with [] => True | lv :: _ => touches req lv.(lv_price) = false end).

Lemma told_trans s s1 s2 : told s s1 → told s1 s2 → told s s2.
Proof. intros [_ (A1 & A2 & A3)] [H (B1 & B2 & B3)]. split; [exact H|]. split_and!; congruence. Qed.
Lemma wp_drop_told e ts reason s : in_step s → wp (drop_order e ts reason) (λ _ s', told s s') s.
Proof.
  intros H. unfold drop_order, index_clear, deallocate_order. eng_steps. split; [|done].
  eapply (in_step_quiet s _ [_]); [exact H|done|by apply Forall_singleton|done..].
Qed.

Lemma wp_match_passive fuel l o ts s : inv [(l, o)] s → in_step s → 0 < o.(o_remaining_quantity) →
  (o.(o_type) = Market ∨ o.(o_type) = Limit ∧ 0 < o.(o_price)) →
  match side_levels (opposite o.(o_side)) s with [] => True | lv :: _ => matchable o lv.(lv_price) = false end →
  wp (match_order fuel (l, o) ts) (λ _ s', told s s') s.
Proof.
  intros H Hst Hpos Hkind Hno. unfold match_order. apply wp_bind, wp_get. cbv beta. cbn [fst snd].
  set (ob := best_price (bids s)). set (oa := best_price (asks s)).
  assert (Hdrop : ∀ reason, wp (drop_order (l, o) ts reason ;; fire_top_of_book_if_changed ts ob oa) (λ _ s', told s s') s).
  { intros reason. apply wp_bind. eapply wp_mono; [by apply wp_drop_told|]. intros [] s1 H1.
    apply wp_top_quiet. intros evs He. by apply told_says. }
  destruct (_ && _); [apply Hdrop|].
  assert (Hloop : match_loop fuel l o ts s = Ok ((o, true), s)).
  { destruct fuel; cbn [match_loop]; rewrite (proj2 (Z.gtb_lt _ _)) by done; cbn [negb]; unfold mbind, M_bind, get;
      destruct (side_levels (opposite (o_side o)) s) as [|lv levels]; try done; by rewrite Hno. }
  apply wp_bind. unfold wp at 1. rewrite Hloop. unfold post_match. cbn [snd].
  rewrite (proj2 (Z.eqb_neq (o_remaining_quantity o) 0)) by lia.
  case_bool_decide as Hm; [apply Hdrop|]. case_bool_decide as Hioc; [apply Hdrop|]. case_bool_decide as Hfok; [apply Hdrop|].
  destruct Hkind as [?|[Hl Hp]]; [done|]. apply wp_bind. eapply wp_mono; [eapply wp_insert_told; [exact H|exact Hst|by split_and!]|].
  intros [] s1 H1. apply wp_top_quiet_always. intros evs He. by apply told_says.
Qed.

Lemma wp_stops_idle mfuel fuel ts s : no_stop_due s → wp (check_and_trigger_stops mfuel fuel ts) (λ _ s', s' = s) s.
Proof. intros H. destruct fuel; cbn [check_and_trigger_stops]; wp_steps; rewrite H; by apply wp_ret. Qed.
End observer.

(** ** Best prices *)

Lemma fold_first_key better (H : PriceOrder better) ps (p : Price) :
  let r := fold_left (λ best q, if better q best then q else best) ps p in
  r ∈ p :: ps ∧ ∀ q, q ∈ p :: ps → q = r ∨ better r q = true.
Proof.
  revert p. induction ps as [|q ps IH]; intros p; cbn [fold_left].
  { split; [by left|]. intros q ->%list_elem_of_singleton. by left. }
  destruct (IH (if better q p then q else p)) as [Hin Hbest]. cbv zeta in *.
  set (r := fold_left _ ps _) in *. split.
  - apply elem_of_cons in Hin as [->|Hin]; [|by do 2 right]. destruct (better q p); [by right; left|by left].
  - assert (Hle : ∀ x, x = (if better q p then q else p) ∨ better (if better q p then q else p) x = true →
      x = r ∨ better r x = true).
    { intros x [->|Hx]; [apply Hbest; by left|]. right.
      destruct (Hbest _ (list_elem_of_here _ _)) as [E|E]; [by rewrite <- E|]. by eapply po_trans. }
    intros x [->|[->|Hx]%elem_of_cons]%elem_of_cons; [| |apply Hbest; by right].
    + apply Hle. destruct (better q p) eqn:E; [by right|by left].
    + apply Hle. destruct (better q p) eqn:E; [by left|]. destruct (decide (p = q)) as [->|Hne]; [by left|].
      right. apply po_total; [by intros ->|done].
Qed.

Lemma shows_keys before `{!PriceOrder before} P levels : side_ok before P levels → (map_to_list (shows levels)).*1 ≡ₚ prices levels.
Proof.
  intros Hok. unfold shows. rewrite map_to_list_to_map.
  - unfold prices. by rewrite <- list_fmap_compose.
  - rewrite <- list_fmap_compose. by apply (side_prices_nodup before P).
Qed.
(** The first key of what is shown is the engine's best price. *)
Lemma shows_best before `{!PriceOrder before} P levels : side_ok before P levels → first_key before (shows levels) = best_price levels.
Proof.
  intros Hok. pose proof (shows_keys before P levels Hok) as Hk. unfold first_key.
  destruct levels as [|lv levels]; [by apply Permutation_nil_r in Hk as ->|].
  destruct (map_to_list (shows (lv :: levels))).*1 as [|p ps]; [by apply Permutation_nil_l in Hk|].
  destruct (fold_first_key before _ ps p) as [Hin Hbest]. cbv zeta in *. set (r := fold_left _ ps p) in *. cbn.
  rewrite Hk in Hin. destruct (Hbest lv.(lv_price)) as [?|Hlt]; [rewrite Hk; by left|done|].
  apply elem_of_cons in Hin as [?|Hin]; [done|]. exfalso.
  pose proof (so_sorted _ _ _ Hok) as [_ Hs]%StronglySorted_inv. rewrite Forall_forall in Hs.
  pose proof (po_trans _ _ _ Hlt (Hs _ Hin)) as Hx. by rewrite po_irrefl in Hx.
Qed.

(** ** Calls an observer can follow *)

Inductive book_call : Type :=
  | CallNew (req : OrderRequest)
  | CallCancel (id : OrderId) (ts : Timestamp)
  | CallMassCancel (account_id : Z) (ts : Timestamp)
  | CallMassCancelAll (ts : Timestamp)
  | CallExpiry (now : Timestamp) (tif : TimeInForce)
  | CallSession (st : SessionState) (ts : Timestamp)
  | CallIndicative (reference_price : Price) (ts : Timestamp).

Section follows.
Context {D : Type} {params : EngineParams} {hooks : Hooks D} {algo : MatchAlgorithm}.
Context {hooks_ok : HooksOk D}.
Implicit Types (s : engine D) (ts : Timestamp) (req : OrderRequest).

Definition perform (fuel : nat) (c : book_call) : M (engine D) unit :=
  match c with
  | CallNew req => new_order fuel req
  | CallCancel id ts => cancel_order id ts
  | CallMassCancel account_id ts => mass_cancel account_id ts ;; mret tt
  | CallMassCancelAll ts => mass_cancel_all ts ;; mret tt
  | CallExpiry now tif => trigger_expiry now tif
  | CallSession st ts => set_session_state st ts
  | CallIndicative reference_price ts => publish_indicative_price reference_price ts
  end.
(** What a call asks of the engine: an entry must not trade, and there is room
    and fuel for it. *)
Definition follows (fuel : nat) (c : book_call) s : Prop :=
  match c with
  | CallNew req => passive req s ∧ ready s ∧ (Z.to_nat req.(r_quantity) + budget s + 1 <= fuel)%nat
  | _ => True
  end.

Lemma wp_route_told fuel req l o s :
  inv [(l, o)] s → in_step s → depth_ok 1 s → passive req s →
  o.(o_type) = req.(r_type) → o.(o_side) = req.(r_side) →
  (is_stop req.(r_type) = false → o.(o_price) = req.(r_price)) → 0 < o.(o_remaining_quantity) →
  (is_priced req.(r_type) = true → 0 < o.(o_price)) → (is_stop req.(r_type) = true → 0 < req.(r_stop_price)) →
  wp (route_order fuel req (l, o)) (λ _ s', in_step s') s.
Proof.
  intros H Hst Hdep Hpas Hty Hside Hreq Hpos Hprice Hstop. unfold route_order. apply wp_bind, wp_get. cbv beta.
  case_if as Hs.
  { eapply wp_mono; [apply wp_park_stop; try done; [by apply Hstop|]|].
    - intros Hsl. apply Hprice. unfold is_priced. by rewrite Hsl.
    - intros [] s' [evs Hp]. eapply (in_step_quiet s s' evs); [done|apply Hp| |apply Hp..].
      eapply Forall_impl; [apply Hp|]. by intros ev (id & ts & ->). }
  specialize (Hreq eq_refl).
  assert (Hkind : o.(o_type) = Market ∨ o.(o_type) = Limit ∧ 0 < o.(o_price)).
  { rewrite Hty. unfold is_stop, is_priced in *. destruct (r_type req); try done; [|by left].
    right. split; [done|]. by apply Hprice. }
  case_if as Hc.
  - case_if as Hl; zbool.
    + apply wp_bind. eapply wp_mono; [eapply wp_insert_told; [exact H|exact Hst|]|].
      * destruct Hkind as [Hk|[_ ?]]; [by rewrite Hty, Hl in Hk|]. unfold book_order. by rewrite Hty, Hl.
      * intros [] s1 H1. apply wp_top_quiet_always. intros evs He. by apply (told_says evs s s1).
    + eapply wp_mono; [by apply wp_drop_told|]. by intros [] s1 [? _].
  - destruct Hpas as [?|[?|[Hidle Hno]]]; [congruence..|]. apply wp_bind.
    eapply wp_mono; [apply (wp_match_passive fuel l o (r_timestamp req) s H Hst Hpos Hkind)|].
    + rewrite Hside. destruct (side_levels (opposite (r_side req)) s) as [|lv levels]; [done|].
      unfold matchable. unfold touches in Hno. by rewrite Hty, Hside, Hreq.
    + intros [] s1 [Hs1 (E1 & E2 & E3)]. eapply wp_mono; [apply wp_stops_idle|].
      * unfold no_stop_due, has_triggered_stops in *. by rewrite E1, E2, E3.
      * by intros [] s2 ->.
Qed.

Lemma wp_new_order_told fuel req s : ready s → in_step s → passive req s →
  wp (new_order fuel req) (λ _ s', in_step s') s.
Proof.
  intros [Hi Hd Hdep] Hst Hpas. unfold new_order. apply wp_bind, wp_rate_check. intros ok t _.
  assert (Hst' : in_step (set_rate_tracker t s)) by exact Hst.
  assert (Hrej : ∀ r, in_step (says [OrderRejected (r_client_order_id req) (r_timestamp req) r] (set_rate_tracker t s))).
  { intros r. by eapply in_step_quiet; [exact Hst'|done|apply Forall_singleton|done..]. }
  destruct ok; cbn [negb]; [|apply wp_emit, Hrej].
  apply wp_bind, wp_get. destruct (validate_order req _) as [r|] eqn:Hv; [apply wp_emit, Hrej|].
  apply validate_order_None in Hv. unfold allocate_order. wp_steps. cbn [order_free set_rate_tracker].
  destruct (s.(order_free)) as [|[l stale] free] eqn:Hfree; wp_steps; [apply wp_emit, Hrej|].
  unfold index_set. eng_steps. cbn [next_order_id set_rate_tracker].
  set (o := init_order req s.(next_order_id) _ stale).
  match goal with |- wp _ _ ?st => change st with (admitted l o free t req s) end.
  pose proof (vr_quantity _ _ Hv) as Hq. pose proof (vr_id _ _ Hv) as Hid. cbn in Hid.
  apply wp_route_told; [by eapply admitted_inv| |exact Hdep|exact Hpas|done|done| | | |apply Hv].
  - eapply (in_step_quiet s _ [_]); [exact Hst|done|by apply Forall_singleton|done..].
  - intros Hs. unfold o. cbn. case_if as E; zbool; [|done]. by rewrite E in Hs.
  - pose proof (vr_display _ _ Hv) as Hdis. unfold o. cbn. case_if as Hdq; zbool; lia.
  - intros Hp. unfold o. cbn. destruct (vr_price _ _ Hv Hp) as [? _]. case_if as E; zbool; [|done]. by rewrite E in Hp.
Qed.

Lemma wp_perform_shown fuel c s : shown s → follows fuel c s → wp (perform fuel c) (λ _ s', shown s') s.
Proof.
  intros Hs Hf. destruct c as [req|id ts|account ts|ts|now tif|st ts|ref ts]; cbn [perform].
  - destruct Hf as (Hp & Hr & Hfuel). eapply wp_mono; [apply wp_conj|].
    + by apply (wp_new_order fuel req s).
    + by apply wp_new_order_told; [|apply Hs|].
    + intros [] s' [Hsub Hin]. split; [|exact Hin]. destruct Hsub as [r t _ _ ->|]; [apply Hr|done].
  - by apply wp_cancel_order_shown.
  - unfold mass_cancel. wp_steps. eapply wp_mono; [by apply wp_scan_shown|]. intros n s' H'. by apply wp_ret.
  - unfold mass_cancel_all. wp_steps. eapply wp_mono; [by apply wp_scan_shown|]. intros n s' H'. by apply wp_ret.
  - unfold trigger_expiry. wp_steps. eapply wp_mono; [by apply wp_scan_shown|]. intros n s' H'. by apply wp_ret.
  - unfold set_session_state. wp_steps. case_bool_decide; [by apply wp_ret|]. case_if as E; [by apply wp_ret|].
    wp_steps. apply wp_emit.
    assert (H1 : shown (says [MarketStatus st ts] (set_current_state st s))).
    { apply shown_says; [by apply Forall_singleton|]. by eapply (shown_same s); [|apply Hs|..]. }
    apply wp_when; intros _; [|exact H1]. apply wp_modify. by eapply shown_same; [exact H1|apply H1|..].
  - unfold publish_indicative_price. wp_steps. apply wp_when; intros _; [|exact Hs].
    apply wp_emit, shown_says; [by apply Forall_singleton|exact Hs].
Qed.

(** C35: The observer follows the engine through every call that does not
    trade.  From a well-formed engine whose book the observer has, entering an
    order that finds nothing to trade with, cancelling, expiring, changing the
    session and publishing an indicative price return, leave the engine well
    formed, and the observer that has applied the events since the start has
    exactly the engine's levels, with their quantities and counts, and its best
    prices. *)
Theorem depth_feed_shows_book fuel c s : shown s → follows fuel c s →
  ∃ s', perform fuel c s = Ok (tt, s') ∧ inv [] s' ∧
    (∀ side, view_of side (observe s'.(trace)) = shows (side_levels side s')) ∧
    view_best_bid (observe s'.(trace)) = best_price s'.(bids) ∧
    view_best_ask (observe s'.(trace)) = best_price s'.(asks).
Proof.
  intros Hs Hf. destruct (wp_eq_unit _ _ _ (wp_perform_shown fuel c s Hs Hf)) as (s' & Hrun & Hi & Hst).
  exists s'. split_and!; [done|done|exact Hst| |].
  - unfold view_best_bid. rewrite (Hst Buy : v_bids _ = _). eapply shows_best; [apply _|apply Hi].
  - unfold view_best_ask. rewrite (Hst Sell : v_asks _ = _). eapply shows_best; [apply _|apply Hi].
Qed.

(** At the start the observer has the empty book. *)
Lemma shown_init (cfg : EngineConfig) (d : D) (junk : loc → Order) : shown (init_engine cfg d junk).
Proof. split; [apply inv_init|]. by intros []. Qed.
End follows.

(** ** Examples *)

#[local] Existing Instance demo_params.
#[local] Instance view_hooks : Hooks unit := default_hooks unit.
#[local] Instance view_hooks_ok : HooksOk unit := default_hooks_ok unit.
#[local] Instance view_algorithm : MatchAlgorithm := fifo_algorithm.

Definition buy_below : OrderRequest := demo_request 2 Buy Limit DAY 99 5 0.

Lemma depth_feed_shows_book_witness :
  ∃ s', perform 50 (CallNew buy_below) empty_engine = Ok (tt, s') ∧ inv [] s' ∧
    (∀ side, view_of side (observe s'.(trace)) = shows (side_levels side s')) ∧
    view_best_bid (observe s'.(trace)) = best_price s'.(bids) ∧
    view_best_ask (observe s'.(trace)) = best_price s'.(asks).
Proof.
  apply (depth_feed_shows_book 50 (CallNew buy_below) empty_engine); [apply shown_init|].
  split_and!; [right; right; split; by vm_compute|exact empty_engine_ready|apply Nat.leb_le; by vm_compute].
Defined.

(** Two sell orders at one price; a buyer fills the first.  The level is still
    there, but for the observer it is gone. *)
Definition two_sells : engine unit := run (new_order 50 sell_request) (run (new_order 50 sell_request) empty_engine).
Definition after_first_fill : engine unit := run (new_order 50 (demo_request 2 Buy Limit DAY 100 10 0)) two_sells.
Example fill_hides_level :
  view_best_ask (observe two_sells.(trace)) = 100 ∧
  best_price after_first_fill.(asks) = 100 ∧ view_best_ask (observe after_first_fill.(trace)) = 0.
Proof. by vm_compute. Qed.
