(* ===== verification/Display.v ===== *)
(** * The observer's display: [src/tools/display_state.h]

    [DisplayState] is what the market data observer shows: five levels of each
    side of a book, the last ten trades, the opening, highest, lowest and last
    price with the volume, and counters.  The arrays of the struct are lists of
    fixed length beside the number of entries in use.  Here are also the lines
    the observer writes to its journal ([exchange_observer.cc]).  The lemmas: a
    side is a sorted prefix of a book, whose best five an update keeps; the
    circular buffer holds the last ten trades. *)

From Stdlib Require Import Ascii String.
From S2P Require Import Prelude Types Wire Text Books Journal.

#[local] Open Scope Z_scope.

(** ** State *)

Definition BOOK_DEPTH : nat := 5.
Definition TRADE_DEPTH : nat := 10.

Record BookLevel : Type := mkBookLevel { bl_price : Z; bl_qty : Z; bl_order_count : Z }.
Definition blank_level : BookLevel := mkBookLevel 0 0 0.
#[global] Instance BookLevel_inhabited : Inhabited BookLevel := populate blank_level.

Record TradeEntry : Type := mkTradeEntry {
  te_price : Z; te_qty : Z; te_aggressor_side : Z; te_timestamp_ns : Z
}.
Definition blank_trade : TradeEntry := mkTradeEntry 0 0 0 0.
#[global] Instance TradeEntry_inhabited : Inhabited TradeEntry := populate blank_trade.

(** One side: an array of [BOOK_DEPTH] levels and the number in use. *)
Record BookSide : Type := mkBookSide { levels : list BookLevel; level_count : nat }.
Definition blank_side : BookSide := mkBookSide (replicate BOOK_DEPTH blank_level) 0.

(** The circular buffer of trades. *)
Record TradeTape : Type := mkTape { trades : list TradeEntry; trade_count : nat; trade_write_idx : nat }.
Definition blank_tape : TradeTape := mkTape (replicate TRADE_DEPTH blank_trade) 0 0.

(** The fields of the prices shown. *)
Record Prices : Type := mkPrices {
  open_price : Z; high_price : Z; low_price : Z; close_price : Z; volume : Z
}.

Record Counters : Type := mkCounters {
  total_messages : Z; messages_this_second : Z; msgs_per_sec : Z; decode_errors : Z; total_trades : Z;
  last_seq : Z; seq_gaps : Z
}.

Record DisplayState : Type := mkDisplay {
  d_bids : BookSide; d_asks : BookSide; d_tape : TradeTape; d_prices : Prices; d_counters : Counters
}.
Definition initial_display : DisplayState :=
  mkDisplay blank_side blank_side blank_tape (mkPrices 0 0 0 0 0) (mkCounters 0 0 0 0 0 0 0).

Definition set_counters (c : Counters) (ds : DisplayState) : DisplayState :=
  mkDisplay ds.(d_bids) ds.(d_asks) ds.(d_tape) ds.(d_prices) c.
Definition set_book_side (is_bid : bool) (s : BookSide) (ds : DisplayState) : DisplayState :=
  if is_bid then mkDisplay s ds.(d_asks) ds.(d_tape) ds.(d_prices) ds.(d_counters)
  else mkDisplay ds.(d_bids) s ds.(d_tape) ds.(d_prices) ds.(d_counters).
Definition book_side (is_bid : bool) (ds : DisplayState) : BookSide := if is_bid then ds.(d_bids) else ds.(d_asks).

(** ** Trades *)

Definition record_on_tape (t : TradeEntry) (tape : TradeTape) : TradeTape :=
  mkTape (<[tape.(trade_write_idx) := t]> tape.(trades))
    (if (tape.(trade_count) <? TRADE_DEPTH)%nat then S tape.(trade_count) else tape.(trade_count))
    (Nat.modulo (tape.(trade_write_idx) + 1) TRADE_DEPTH).

Definition record_price (price qty : Z) (p : Prices) : Prices :=
  mkPrices (if p.(open_price) =? 0 then price else p.(open_price))
    (if (price >? p.(high_price)) || (p.(high_price) =? 0) then price else p.(high_price))
    (if (price <? p.(low_price)) || (p.(low_price) =? 0) then price else p.(low_price))
    price (p.(volume) + qty).

Definition count_trade (c : Counters) : Counters :=
  mkCounters c.(total_messages) c.(messages_this_second) c.(msgs_per_sec) c.(decode_errors)
    (c.(total_trades) + 1) c.(last_seq) c.(seq_gaps).

Definition record_trade (price qty aggressor ts : Z) (ds : DisplayState) : DisplayState :=
  mkDisplay ds.(d_bids) ds.(d_asks) (record_on_tape (mkTradeEntry price qty aggressor ts) ds.(d_tape))
    (record_price price qty ds.(d_prices)) (count_trade ds.(d_counters)).

(** The trades as they are printed, the newest first. *)
Definition printed_trade (tape : TradeTape) (i : nat) : TradeEntry :=
  tape.(trades) !!! Nat.modulo (tape.(trade_write_idx) + TRADE_DEPTH - 1 - i) TRADE_DEPTH.
Definition printed_trades (tape : TradeTape) : list TradeEntry :=
  printed_trade tape <$> seq 0 tape.(trade_count).

(** ** The book *)

(** The first of the [n] levels from [i] on with the price. *)
Fixpoint find_price (n i : nat) (price : Z) (ls : list BookLevel) : option nat :=
  match n with
  | O => None
  | S n' => if (ls !!! i).(bl_price) =? price then Some i else find_price n' (S i) price ls
  end.
(** [levels[j] = levels[j + 1]], [n] times from [j] on. *)
Fixpoint close_gap (n j : nat) (ls : list BookLevel) : list BookLevel :=
  match n with
  | O => ls
  | S n' => close_gap n' (S j) (<[j := ls !!! S j]> ls)
  end.

Definition better (is_bid : bool) : Price → Price → bool := if is_bid then higher_first else lower_first.
(** [std::sort] of the first [n] levels.  With different prices there is one
    sorted order. *)
Definition not_worse (is_bid : bool) (a b : BookLevel) : Prop := better is_bid b.(bl_price) a.(bl_price) = false.
#[global] Instance not_worse_decision is_bid : RelDecision (not_worse is_bid).
Proof. intros a b. unfold not_worse. apply _. Defined.
Definition sort_levels (is_bid : bool) (n : nat) (ls : list BookLevel) : BookSide :=
  mkBookSide (merge_sort (not_worse is_bid) (take n ls) ++ drop n ls) n.

Definition update_book_side (price qty orders : Z) (is_delete is_bid : bool) (s : BookSide) : BookSide :=
  let ls := s.(levels) in
  let count := s.(level_count) in
  let found := find_price count 0 price ls in
  if is_delete then
    match found with
    | Some i =>
        let ls := close_gap (count - 1 - i) i ls in
        mkBookSide (<[(count - 1)%nat := blank_level]> ls) (count - 1)
    | None => s
    end
  else
    match found with
    | Some i => mkBookSide (<[i := mkBookLevel (ls !!! i).(bl_price) qty orders]> ls) count
    | None =>
        let entry := mkBookLevel price qty orders in
        if (count <? BOOK_DEPTH)%nat then sort_levels is_bid (S count) (<[count := entry]> ls)
        else
          let worst := (count - 1)%nat in
          if negb (better is_bid price (ls !!! worst).(bl_price)) then s
          else sort_levels is_bid count (<[worst := entry]> ls)
    end.

(** The side of a display it is called for. *)
Definition update_display (price qty orders : Z) (is_delete is_bid : bool) (ds : DisplayState) : DisplayState :=
  set_book_side is_bid (update_book_side price qty orders is_delete is_bid (book_side is_bid ds)) ds.

(** [apply_snapshot] first empties both sides. *)
Definition clear_book (ds : DisplayState) : DisplayState :=
  mkDisplay blank_side blank_side ds.(d_tape) ds.(d_prices) ds.(d_counters).

(** ** The observer and its journal *)

(** The journal is the text written so far, if a file is open. *)
Record Observer : Type := mkObserver { o_display : DisplayState; o_journal : option (list Z) }.

Definition on_display (f : DisplayState → DisplayState) (o : Observer) : Observer :=
  mkObserver (f o.(o_display)) o.(o_journal).
Definition write_line (type : list Z) (fields : list (list Z * list Z)) (o : Observer) : Observer :=
  mkObserver o.(o_display)
    ((λ text, text ++ chars "EXPECT " ++ type ++ kv_texts fields ++ [10]) <$> o.(o_journal)).

Definition aggressor_word (aggressor_side : Z) : list Z :=
  if aggressor_side =? 1 then chars "BUY" else if aggressor_side =? 2 then chars "SELL" else chars "UNKNOWN".
Definition side_word (is_bid : bool) : list Z := if is_bid then chars "BUY" else chars "SELL".

Definition write_trade (ts : Z) (instrument : list Z) (price qty aggressor_side : Z) : Observer → Observer :=
  write_line (chars "MD_TRADE")
    [(chars "ts", decimal ts); (chars "instrument", instrument); (chars "price", signed_decimal price);
     (chars "qty", signed_decimal qty); (chars "aggressor_side", aggressor_word aggressor_side)].
Definition write_book_add (ts : Z) (instrument side : list Z) (price qty order_count : Z) : Observer → Observer :=
  write_line (chars "MD_BOOK_ADD")
    [(chars "ts", decimal ts); (chars "instrument", instrument); (chars "side", side);
     (chars "price", signed_decimal price); (chars "qty", signed_decimal qty);
     (chars "order_count", signed_decimal order_count)].
Definition write_book_update (ts : Z) (instrument side : list Z) (price qty order_count : Z) : Observer → Observer :=
  write_line (chars "MD_BOOK_UPDATE")
    [(chars "ts", decimal ts); (chars "instrument", instrument); (chars "side", side);
     (chars "price", signed_decimal price); (chars "qty", signed_decimal qty);
     (chars "order_count", signed_decimal order_count)].
Definition write_book_delete (ts : Z) (instrument side : list Z) (price : Z) : Observer → Observer :=
  write_line (chars "MD_BOOK_DELETE")
    [(chars "ts", decimal ts); (chars "instrument", instrument); (chars "side", side);
     (chars "price", signed_decimal price)].
Definition write_status (ts : Z) (instrument state : list Z) : Observer → Observer :=
  write_line (chars "MD_STATUS")
    [(chars "ts", decimal ts); (chars "instrument", instrument); (chars "state", state)].

(** ** A side as a sorted list *)

(** The levels in use are [ls], the others are blank. *)
Record holds (ls : list BookLevel) (s : BookSide) : Prop := {
  hd_levels : s.(levels) = ls ++ replicate (BOOK_DEPTH - length ls) blank_level;
  hd_count : s.(level_count) = length ls;
  hd_depth : (length ls <= BOOK_DEPTH)%nat
}.
Definition ordered (is_bid : bool) : list BookLevel → Prop :=
  StronglySorted (λ a b, better is_bid a.(bl_price) b.(bl_price) = true).

(** What an update should do: the level takes its place among the others. *)
Fixpoint place (is_bid : bool) (e : BookLevel) (ls : list BookLevel) : list BookLevel :=
  match ls with
  | [] => [e]
  | lv :: ls' =>
      if lv.(bl_price) =? e.(bl_price) then e :: ls'
      else if better is_bid e.(bl_price) lv.(bl_price) then e :: lv :: ls'
      else lv :: place is_bid e ls'
  end.
Definition without (price : Z) (ls : list BookLevel) : list BookLevel := filter (λ lv, lv.(bl_price) ≠ price) ls.

#[global] Instance better_order is_bid : PriceOrder (better is_bid).
Proof. destruct is_bid; apply _. Qed.

Lemma holds_blank : holds [] blank_side.
Proof. split; cbn; lia || done. Qed.
Lemma holds_inj ls ls' s : holds ls s → holds ls' s → ls = ls'.
Proof.
  intros [Hl Hc _] [Hl' Hc' _]. rewrite Hl in Hl'. rewrite Hc in Hc'. by apply app_inj_1 in Hl' as [? _].
Qed.

(** *** Searching and closing the gap *)

Lemma lookup_total_mid {A} `{!Inhabited A} (pre post : list A) x : (pre ++ x :: post) !!! length pre = x.
Proof. by rewrite lookup_total_app_r, Nat.sub_diag by lia. Qed.

Lemma find_price_app price pre ls post :
  find_price (length ls) (length pre) price (pre ++ ls ++ post) =
  (λ k, (length pre + k)%nat) <$> (fst <$> list_find (λ lv, lv.(bl_price) = price) ls).
Proof.
  revert pre. induction ls as [|lv ls IH]; intros pre; [done|]. cbn [length find_price app list_find].
  rewrite lookup_total_mid. destruct (Z.eqb_spec lv.(bl_price) price) as [Hp|Hp].
  - rewrite decide_True by done. cbn. by rewrite Nat.add_0_r.
  - rewrite decide_False by done. specialize (IH (pre ++ [lv])). rewrite length_app, Nat.add_1_r, <- app_assoc in IH.
    cbn [app] in IH. rewrite IH. destruct (list_find _ ls) as [[k x]|]; [|done]. cbn. f_equal. lia.
Qed.
Lemma find_price_found price ls rest :
  find_price (length ls) 0 price (ls ++ rest) = fst <$> list_find (λ lv, lv.(bl_price) = price) ls.
Proof. pose proof (find_price_app price [] ls rest) as H. cbn [length app] in H. rewrite H. by destruct (list_find _ _). Qed.

Lemma close_gap_app x pre ls post : ∃ y, close_gap (length ls) (length pre) (pre ++ x :: ls ++ post) = pre ++ ls ++ y :: post.
Proof.
  revert x pre. induction ls as [|lv ls IH]; intros x pre; [by exists x|]. cbn [length close_gap app].
  replace (pre ++ x :: lv :: ls ++ post) with ((pre ++ [x]) ++ lv :: ls ++ post) by by rewrite <- app_assoc.
  replace ((_ ++ lv :: ls ++ post) !!! S (length pre)) with lv.
  2: { rewrite <- (lookup_total_mid (pre ++ [x]) (ls ++ post) lv) at 1. by rewrite length_app, Nat.add_1_r. }
  rewrite <- app_assoc. cbn [app]. rewrite insert_app_r_alt, Nat.sub_diag by lia. cbn.
  destruct (IH lv (pre ++ [lv])) as [y Hy]. exists y. rewrite length_app, Nat.add_1_r, <- !app_assoc in Hy. exact Hy.
Qed.

(** *** The reference *)

Lemma place_perm is_bid e ls : e.(bl_price) ∉ bl_price <$> ls → place is_bid e ls ≡ₚ e :: ls.
Proof.
  induction ls as [|lv ls IH]; [done|]. cbn. intros [Hne Hni]%not_elem_of_cons.
  rewrite (proj2 (Z.eqb_neq _ _)) by done. case_if as Hb; [done|]. rewrite IH by done. apply Permutation_swap.
Qed.
Lemma ordered_place is_bid e ls : ordered is_bid ls → ordered is_bid (place is_bid e ls).
Proof.
  intros H. induction H as [|lv ls Hs IH Hlv]; cbn; [by repeat constructor|].
  destruct (Z.eqb_spec lv.(bl_price) e.(bl_price)) as [Hp|Hne].
  - constructor; [done|]. by rewrite <- Hp.
  - case_if as Hb; constructor.
    + by constructor.
    + constructor; [done|]. eapply Forall_impl; [exact Hlv|]. intros x Hx. by eapply po_trans.
    + exact IH.
    + assert (He : better is_bid lv.(bl_price) e.(bl_price) = true) by (apply po_total; done).
      clear -Hlv He. induction Hlv as [|x ls Hx Hlv IH]; cbn; [by repeat constructor|].
      case_if as E1; [by constructor|]. case_if as E2; repeat (constructor; try done).
Qed.
Lemma ordered_sublist is_bid ls ls' : ls `sublist_of` ls' → ordered is_bid ls' → ordered is_bid ls.
Proof.
  induction 1 as [|x ls ls' Hsub IH|x ls ls' Hsub IH]; intros H; [constructor| |].
  - apply StronglySorted_inv in H as [H Hx]. constructor; [by apply IH|].
    rewrite Forall_forall in *. intros y Hy. apply Hx. by eapply elem_of_submseteq, sublist_submseteq.
  - apply StronglySorted_inv in H as [H _]. by apply IH.
Qed.
Lemma ordered_take is_bid n ls : ordered is_bid ls → ordered is_bid (take n ls).
Proof. apply ordered_sublist, sublist_take. Qed.
Lemma ordered_nodup is_bid ls : ordered is_bid ls → NoDup (bl_price <$> ls).
Proof.
  induction 1 as [|lv ls _ IH Hlv]; [constructor|]. cbn. constructor; [|done].
  intros (x & Hp & Hx)%list_elem_of_fmap. rewrite Forall_forall in Hlv. specialize (Hlv x Hx).
  by rewrite Hp, po_irrefl in Hlv.
Qed.

(** Only the best matter for the best. *)
Lemma take_place is_bid n e ls : take n (place is_bid e (take n ls)) = take n (place is_bid e ls).
Proof.
  revert n. induction ls as [|lv ls IH]; intros n; [by destruct n|]. destruct n as [|n]; [done|]. cbn.
  case_if as E1; cbn; [by rewrite take_take, Nat.min_id|]. case_if as E2; cbn; [|by rewrite IH].
  f_equal. destruct n; [done|]. cbn. by rewrite take_take, Nat.min_l by lia.
Qed.

(** *** Sorting *)

#[global] Instance not_worse_total is_bid : Total (not_worse is_bid).
Proof.
  intros a b. unfold not_worse. destruct (better is_bid (bl_price b) (bl_price a)) eqn:E; [|by left]. right.
  destruct (better is_bid (bl_price a) (bl_price b)) eqn:E'; [|done].
  pose proof (po_trans _ _ _ E E') as Hx. by rewrite po_irrefl in Hx.
Qed.
#[global] Instance not_worse_trans is_bid : Transitive (not_worse is_bid).
Proof.
  intros a b c Hab Hbc. unfold not_worse in *. destruct is_bid; unfold better, higher_first, lower_first in *; zbool; lia.
Qed.
(** Two sorted lists with the same, different prices are the same. *)
Lemma sort_unique is_bid ls ls' : ordered is_bid ls → ls' ≡ₚ ls → merge_sort (not_worse is_bid) ls' = ls.
Proof.
  intros Ho Hp. assert (Hs : StronglySorted (not_worse is_bid) (merge_sort (not_worse is_bid) ls')) by (apply StronglySorted_merge_sort; apply _).
  assert (Hm : merge_sort (not_worse is_bid) ls' ≡ₚ ls) by by rewrite merge_sort_Permutation.
  revert Hs Hm. generalize (merge_sort (not_worse is_bid) ls'). clear Hp ls'.
  induction Ho as [|lv ls Ho IH Hlv]; intros xs Hs Hm; [by apply Permutation_nil_r in Hm|].
  destruct xs as [|x xs]; [by apply Permutation_nil_l in Hm|]. apply StronglySorted_inv in Hs as [Hs Hx].
  assert (x = lv) as ->.
  { assert (Hin : x ∈ lv :: ls) by (rewrite <- Hm; by left). apply elem_of_cons in Hin as [->|Hin]; [done|].
    assert (Hlx : lv ∈ x :: xs) by (rewrite Hm; by left). apply elem_of_cons in Hlx as [->|Hlx]; [done|].
    rewrite Forall_forall in Hlv, Hx. specialize (Hlv x Hin). specialize (Hx lv Hlx). unfold not_worse in Hx. congruence. }
  f_equal. apply IH; [done|]. by apply Permutation_cons_inv in Hm.
Qed.

(** *** An update *)

Lemma split_found price ls i lv : list_find (λ lv, lv.(bl_price) = price) ls = Some (i, lv) →
  ∃ pre post, ls = pre ++ lv :: post ∧ length pre = i ∧ lv.(bl_price) = price ∧
    Forall (λ x, x.(bl_price) ≠ price) pre.
Proof.
  intros (Hi & Hp & Hbefore)%list_find_Some. exists (take i ls), (drop (S i) ls).
  rewrite take_drop_middle by done. split_and!; [done| |done|].
  - apply length_take_le. apply lookup_lt_Some in Hi. lia.
  - apply Forall_lookup. intros j y Hy. apply lookup_take_Some in Hy as [Hy ?]. by eapply Hbefore.
Qed.
Lemma absent_found price ls : list_find (λ lv, lv.(bl_price) = price) ls = None → price ∉ bl_price <$> ls.
Proof. intros H (x & -> & Hx)%list_elem_of_fmap. rewrite list_find_None, Forall_forall in H. by apply (H x). Qed.

Lemma without_keep price ls : price ∉ bl_price <$> ls → without price ls = ls.
Proof.
  unfold without. induction ls as [|x ls IH]; [done|]. cbn [fmap list_fmap]. intros [Hne H]%not_elem_of_cons.
  by rewrite filter_cons_True, IH by auto.
Qed.
Lemma without_split price pre lv post : lv.(bl_price) = price → NoDup (bl_price <$> pre ++ lv :: post) →
  without price (pre ++ lv :: post) = pre ++ post.
Proof.
  intros <- Hnd. rewrite fmap_app, fmap_cons in Hnd. apply NoDup_app in Hnd as (_ & Hd & [Hni _]%NoDup_cons).
  assert (Hpre : lv.(bl_price) ∉ bl_price <$> pre) by (intros Hin; apply (Hd _ Hin); by left).
  unfold without. rewrite filter_app, filter_cons, decide_False by auto.
  f_equal; by apply without_keep.
Qed.
Lemma place_split is_bid e pre lv post : ordered is_bid (pre ++ lv :: post) → lv.(bl_price) = e.(bl_price) →
  place is_bid e (pre ++ lv :: post) = pre ++ e :: post.
Proof.
  intros Ho Hp. induction pre as [|x pre IH]; cbn; [by rewrite Hp, Z.eqb_refl|].
  apply StronglySorted_inv in Ho as [Ho Hx]. apply Forall_app in Hx as [_ [Hx _]%Forall_cons]. rewrite Hp in Hx.
  destruct (Z.eqb_spec x.(bl_price) e.(bl_price)) as [E|_]; [by rewrite E, po_irrefl in Hx|].
  case_if as E; [|by rewrite IH]. pose proof (po_trans _ _ _ E Hx) as Hb. by rewrite po_irrefl in Hb.
Qed.
Lemma place_before is_bid e pre w : better is_bid e.(bl_price) w.(bl_price) = true → e.(bl_price) ≠ w.(bl_price) →
  place is_bid e (pre ++ [w]) = place is_bid e pre ++ [w].
Proof.
  intros Hb Hne. induction pre as [|x pre IH]; cbn.
  - by rewrite (proj2 (Z.eqb_neq _ _)), Hb by done.
  - case_if as E1; [done|]. case_if as E2; [done|]. by rewrite IH.
Qed.
Lemma place_behind is_bid e ls w : ordered is_bid (ls ++ [w]) → e.(bl_price) ∉ bl_price <$> ls ++ [w] →
  better is_bid e.(bl_price) w.(bl_price) = false → place is_bid e (ls ++ [w]) = ls ++ [w; e].
Proof.
  intros Ho Hni Hb. induction ls as [|x ls IH]; cbn in *; apply not_elem_of_cons in Hni as [Hne Hni].
  - by rewrite (proj2 (Z.eqb_neq _ _)), Hb by done.
  - apply StronglySorted_inv in Ho as [Ho Hx]. apply Forall_app in Hx as [_ [Hx _]%Forall_cons].
    rewrite (proj2 (Z.eqb_neq _ _)) by done. case_if as E; [|by rewrite IH].
    pose proof (po_trans _ _ _ E Hx). congruence.
Qed.

(** Sorting after the entry was written behind the levels. *)
Lemma sort_written is_bid e ls rest : ordered is_bid ls → e.(bl_price) ∉ bl_price <$> ls →
  sort_levels is_bid (S (length ls)) (ls ++ e :: rest) = mkBookSide (place is_bid e ls ++ rest) (S (length ls)).
Proof.
  intros Ho Hni. unfold sort_levels. change (e :: rest) with ([e] ++ rest). rewrite app_assoc.
  assert (Hlen : length (ls ++ [e]) = S (length ls)) by (rewrite length_app; cbn; lia).
  rewrite <- Hlen, take_app_length, drop_app_length. f_equal. f_equal. apply sort_unique; [by apply ordered_place|].
  rewrite place_perm by done. apply Permutation_app_comm.
Qed.
Lemma length_place is_bid e ls : e.(bl_price) ∉ bl_price <$> ls → length (place is_bid e ls) = S (length ls).
Proof. intros H. by rewrite place_perm. Qed.

Lemma update_delete_holds is_bid price qty orders ls s : holds ls s → ordered is_bid ls →
  holds (without price ls) (update_book_side price qty orders true is_bid s).
Proof.
  intros [Hl Hc Hd] Ho. unfold update_book_side. rewrite Hl, Hc, find_price_found.
  destruct (list_find _ ls) as [[i lv]|] eqn:E; cbn [fmap option_fmap option_map fst].
  - apply split_found in E as (pre & post & -> & <- & Hp & Hpre).
    rewrite without_split by (done || by eapply ordered_nodup). rewrite length_app in *. cbn [length] in *.
    replace (length pre + S (length post) - 1 - length pre)%nat with (length post) by lia.
    rewrite <- app_assoc. cbn [app]. destruct (close_gap_app lv pre post (replicate (BOOK_DEPTH - (length pre + S (length post))) blank_level)) as [y Hy].
    rewrite Hy. split; cbn [levels level_count]; rewrite ?length_app; [|lia..].
    replace (BOOK_DEPTH - (length pre + length post))%nat with (S (BOOK_DEPTH - (length pre + S (length post)))) by lia.
    rewrite app_assoc, insert_app_r_alt by (rewrite length_app; lia). rewrite length_app.
    replace (length pre + S (length post) - 1 - (length pre + length post))%nat with O by lia. cbn [insert list_insert replicate]. by rewrite <- app_assoc.
  - apply absent_found in E. rewrite without_keep by done. by split.
Qed.

Lemma update_put_holds is_bid price qty orders ls s : holds ls s → ordered is_bid ls →
  holds (take BOOK_DEPTH (place is_bid (mkBookLevel price qty orders) ls)) (update_book_side price qty orders false is_bid s).
Proof.
  intros [Hl Hc Hd] Ho. set (e := mkBookLevel price qty orders). unfold update_book_side.
  rewrite Hl, Hc, find_price_found. destruct (list_find _ ls) as [[i lv]|] eqn:E; cbn [fmap option_fmap option_map fst].
  - apply split_found in E as (pre & post & -> & <- & Hp & _). rewrite (place_split is_bid e) by done.
    rewrite length_app in *. cbn [length] in *. rewrite take_ge by (rewrite length_app; cbn; lia).
    rewrite <- app_assoc. cbn [app]. rewrite lookup_total_mid, insert_app_r_alt, Nat.sub_diag by lia.
    split; cbn; rewrite ?length_app; cbn [length]; [|done..]. unfold e. by rewrite Hp, <- app_assoc.
  - apply absent_found in E. change price with e.(bl_price) in E. destruct (Nat.ltb_spec (length ls) BOOK_DEPTH) as [Hroom|Hroom].
    + rewrite take_ge by (rewrite length_place by done; lia).
      replace (BOOK_DEPTH - length ls)%nat with (S (BOOK_DEPTH - S (length ls))) by lia. cbn [replicate].
      rewrite insert_app_r_alt, Nat.sub_diag by lia. cbn [insert list_insert]. rewrite sort_written by done.
      split; cbn [levels level_count]; rewrite length_place by done; [done|done|lia].
    + destruct ls as [|w ls _] using rev_ind; [unfold BOOK_DEPTH in Hroom; cbn in Hroom; lia|]. rewrite length_app in *. cbn [length] in *.
      assert (Hlen : length ls = 4%nat) by (unfold BOOK_DEPTH in *; lia).
      replace (BOOK_DEPTH - (length ls + 1))%nat with O by (unfold BOOK_DEPTH; lia). rewrite app_nil_r.
      replace (length ls + 1 - 1)%nat with (length ls) by lia. rewrite lookup_total_mid.
      change price with e.(bl_price). destruct (better is_bid (bl_price e) (bl_price w)) eqn:Hb; cbn [negb].
      * rewrite insert_app_r_alt, Nat.sub_diag by lia. cbn [insert list_insert]. rewrite Nat.add_1_r.
        rewrite fmap_app in E. apply not_elem_of_app in E as [E Ew].
        rewrite sort_written by (done || by eapply ordered_sublist; [apply sublist_inserts_r|]).
        rewrite place_before by (done || (cbn in Ew; by apply not_elem_of_cons in Ew as [? _])).
        rewrite take_app_length' by (rewrite length_place by done; unfold BOOK_DEPTH; lia).
        split; cbn [levels level_count]; rewrite length_place by done; rewrite ?Hlen; [done|done|unfold BOOK_DEPTH; lia].
      * rewrite place_behind by done.
        replace (ls ++ [w; e]) with ((ls ++ [w]) ++ [e]) by by rewrite <- app_assoc.
        rewrite take_app_length' by (rewrite length_app; cbn; unfold BOOK_DEPTH; lia).
        split; rewrite length_app; cbn [length]; [|done|unfold BOOK_DEPTH; lia].
        rewrite Hl. f_equal.
Qed.

Lemma update_holds is_bid price qty orders is_delete ls s : holds ls s → ordered is_bid ls →
  ∃ ls', holds ls' (update_book_side price qty orders is_delete is_bid s) ∧ ordered is_bid ls' ∧
    ls' = if is_delete then without price ls else take BOOK_DEPTH (place is_bid (mkBookLevel price qty orders) ls).
Proof.
  intros Hh Ho. eexists. split_and!; [|shelve|reflexivity]. Unshelve.
  - destruct is_delete; [by apply update_delete_holds|by apply update_put_holds].
  - destruct is_delete; [by eapply ordered_sublist; [apply sublist_filter|]|by apply ordered_take, ordered_place].
Qed.

(** ** A side as a map *)

Definition level_entry (lv : BookLevel) : Z * (Z * Z) := (lv.(bl_price), (lv.(bl_qty), lv.(bl_order_count))).
Definition map_of (ls : list BookLevel) : gmap Z (Z * Z) := list_to_map (level_entry <$> ls).
(** The side shows exactly the levels of [m], the best first. *)
Definition displays (is_bid : bool) (m : gmap Z (Z * Z)) (s : BookSide) : Prop :=
  ∃ ls, holds ls s ∧ ordered is_bid ls ∧ map_of ls = m.

Lemma map_of_cons lv ls : map_of (lv :: ls) = <[lv.(bl_price) := (lv.(bl_qty), lv.(bl_order_count))]> (map_of ls).
Proof. done. Qed.
Lemma map_of_place is_bid e ls : map_of (place is_bid e ls) = <[e.(bl_price) := (e.(bl_qty), e.(bl_order_count))]> (map_of ls).
Proof.
  induction ls as [|lv ls IH]; [done|]. cbn [place]. destruct (Z.eqb_spec lv.(bl_price) e.(bl_price)) as [Hp|Hne].
  - rewrite !map_of_cons, Hp. by rewrite insert_insert_eq.
  - case_if as Hb; [done|]. rewrite !map_of_cons, IH. by rewrite insert_insert_ne.
Qed.
Lemma map_of_without price ls : map_of (without price ls) = delete price (map_of ls).
Proof.
  unfold without. induction ls as [|lv ls IH]; [symmetry; apply (delete_empty price)|]. rewrite filter_cons, map_of_cons.
  case_decide as Hp.
  - rewrite map_of_cons, IH. by rewrite delete_insert_ne.
  - rewrite IH. destruct (decide (lv.(bl_price) = price)) as [->|]; [|done]. by rewrite delete_insert_eq.
Qed.
Lemma size_map_of ls : NoDup (bl_price <$> ls) → size (map_of ls) = length ls.
Proof.
  intros Hnd. unfold map_of. rewrite <- (length_map_to_list (list_to_map _)), map_to_list_to_map by by rewrite <- list_fmap_compose.
  by rewrite length_fmap.
Qed.

Lemma displays_blank is_bid : displays is_bid ∅ blank_side.
Proof. exists []. split; [apply holds_blank|by split; [constructor|]]. Qed.
Lemma displays_delete is_bid price qty orders m s : displays is_bid m s →
  displays is_bid (delete price m) (update_book_side price qty orders true is_bid s).
Proof.
  intros (ls & Hh & Ho & <-). destruct (update_holds is_bid price qty orders true ls s Hh Ho) as (ls' & Hh' & Ho' & ->).
  eexists. split; [exact Hh'|]. split; [exact Ho'|]. apply map_of_without.
Qed.
Lemma displays_put is_bid price qty orders m s : displays is_bid m s →
  (size (<[price := (qty, orders)]> m) <= BOOK_DEPTH)%nat →
  displays is_bid (<[price := (qty, orders)]> m) (update_book_side price qty orders false is_bid s).
Proof.
  intros (ls & Hh & Ho & <-) Hsize.
  destruct (update_holds is_bid price qty orders false ls s Hh Ho) as (ls' & Hh' & Ho' & ->).
  pose proof (ordered_place is_bid (mkBookLevel price qty orders) ls Ho) as Hop.
  pose proof (map_of_place is_bid (mkBookLevel price qty orders) ls) as Hm. cbn [bl_price bl_qty bl_order_count] in Hm.
  rewrite <- Hm, size_map_of in Hsize by by eapply ordered_nodup.
  rewrite take_ge in Hh', Ho' by done. eexists. by split.
Qed.

(** ** Inserting only *)

Definition placed (is_bid : bool) (es ls : list BookLevel) : list BookLevel := fold_left (λ ls e, place is_bid e ls) es ls.
Definition put_all (is_bid : bool) (es : list BookLevel) (s : BookSide) : BookSide :=
  fold_left (λ s e, update_book_side e.(bl_price) e.(bl_qty) e.(bl_order_count) false is_bid s) es s.

Lemma put_all_holds is_bid es : ∀ ls s, ordered is_bid ls → holds (take BOOK_DEPTH ls) s →
  holds (take BOOK_DEPTH (placed is_bid es ls)) (put_all is_bid es s).
Proof.
  induction es as [|e es IH]; intros ls s Ho Hh; [done|]. cbn. apply IH; [by apply ordered_place|].
  rewrite <- take_place. destruct e as [price qty orders]. apply update_put_holds; [done|by apply ordered_take].
Qed.
Lemma place_end is_bid e ls : ordered is_bid (ls ++ [e]) → place is_bid e ls = ls ++ [e].
Proof.
  induction ls as [|lv ls IH]; [done|]. cbn. intros [Ho Hlv]%StronglySorted_inv.
  apply Forall_app in Hlv as [_ [Hlv _]%Forall_cons].
  destruct (Z.eqb_spec lv.(bl_price) e.(bl_price)) as [E|_]; [by rewrite E, po_irrefl in Hlv|].
  case_if as E; [|by rewrite IH]. pose proof (po_trans _ _ _ E Hlv) as Hx. by rewrite po_irrefl in Hx.
Qed.
Lemma placed_sorted is_bid es : ∀ ls, ordered is_bid (ls ++ es) → placed is_bid es ls = ls ++ es.
Proof.
  induction es as [|e es IH]; intros ls Ho; [cbn; by rewrite app_nil_r|].
  change (placed is_bid (e :: es) ls) with (placed is_bid es (place is_bid e ls)). rewrite place_end.
  - rewrite IH; by rewrite <- app_assoc.
  - eapply ordered_sublist; [|exact Ho]. apply sublist_app; [done|]. apply sublist_skip, sublist_nil_l.
Qed.
(** From a blank side, a sorted list of levels leaves its best five. *)
Lemma put_all_sorted is_bid es : ordered is_bid es → holds (take BOOK_DEPTH es) (put_all is_bid es blank_side).
Proof.
  intros Ho. rewrite <- (placed_sorted is_bid es [] Ho) at 1. apply put_all_holds; [constructor|apply holds_blank].
Qed.

(** ** The circular buffer *)

Record tape_of (ts : list TradeEntry) (tape : TradeTape) : Prop := {
  to_length : length tape.(trades) = TRADE_DEPTH;
  to_index : tape.(trade_write_idx) = Nat.modulo (length ts) TRADE_DEPTH;
  to_count : tape.(trade_count) = Nat.min (length ts) TRADE_DEPTH;
  to_entry : ∀ k t, (k < TRADE_DEPTH)%nat → rev ts !! k = Some t →
    tape.(trades) !! Nat.modulo (length ts - 1 - k) TRADE_DEPTH = Some t
}.
Lemma tape_of_blank : tape_of [] blank_tape.
Proof. by split. Qed.

Lemma mod_10 n : ∃ q r, Nat.modulo n TRADE_DEPTH = r ∧ n = (10 * q + r)%nat ∧ (r < 10)%nat.
Proof.
  exists (Nat.div n 10), (Nat.modulo n 10). split_and!; [done|apply Nat.div_mod_eq|by apply Nat.mod_upper_bound].
Qed.
Ltac mods := repeat match goal with
  | |- context [Nat.modulo ?n TRADE_DEPTH] => let q := fresh "q" in let r := fresh "r" in
      destruct (mod_10 n) as (q & r & -> & ? & ?)
  end; unfold TRADE_DEPTH in *; lia.

Lemma record_on_tape_of t ts tape : tape_of ts tape → tape_of (ts ++ [t]) (record_on_tape t tape).
Proof.
  intros [Hl Hi Hc He]. split; cbn [record_on_tape trades trade_count trade_write_idx]; rewrite ?length_insert, ?length_app, ?Hi, ?Hc; cbn [length]; [done|by rewrite Nat.Div0.add_mod_idemp_l| |].
  - destruct (Nat.ltb_spec (Nat.min (length ts) TRADE_DEPTH) TRADE_DEPTH); unfold TRADE_DEPTH in *; lia.
  - intros k t' Hk Ht. rewrite rev_app_distr in Ht. destruct k as [|k]; cbn in Ht.
    + injection Ht as <-. replace (length ts + 1 - 1 - 0)%nat with (length ts) by lia.
      apply list_lookup_insert_eq. rewrite Hl. mods.
    + pose proof (lookup_lt_Some _ _ _ Ht) as Hlt. rewrite length_rev in Hlt.
      rewrite list_lookup_insert_ne by mods. rewrite <- (He k t') by (done || lia). f_equal. mods.
Qed.
Definition record_all (ts : list TradeEntry) (tape : TradeTape) : TradeTape := fold_left (λ tape t, record_on_tape t tape) ts tape.
Lemma record_all_tape ts : tape_of ts (record_all ts blank_tape).
Proof.
  induction ts as [|t ts IH] using rev_ind; [apply tape_of_blank|].
  unfold record_all. rewrite fold_left_app. by apply record_on_tape_of.
Qed.

(** The trades printed are the last ten, the newest first. *)
Lemma printed_tape ts tape : tape_of ts tape → printed_trades tape = take TRADE_DEPTH (rev ts).
Proof.
  intros [Hl Hi Hc He]. apply list_eq. intros k. unfold printed_trades. rewrite list_lookup_fmap, Hc.
  destruct (decide (k < Nat.min (length ts) TRADE_DEPTH)%nat) as [Hk|Hk].
  - rewrite lookup_seq_lt by done. cbn [fmap option_fmap option_map]. rewrite lookup_take_lt by lia.
    unfold printed_trade. rewrite Nat.add_0_l.
    destruct (lookup_lt_is_Some_2 (rev ts) k) as [t Ht]; [rewrite length_rev; lia|]. rewrite Ht. f_equal.
    apply list_lookup_total_correct. rewrite <- (He k t) by (done || lia). rewrite Hi.
    enough (Nat.modulo (Nat.modulo (length ts) TRADE_DEPTH + TRADE_DEPTH - 1 - k) TRADE_DEPTH =
            Nat.modulo (length ts - 1 - k) TRADE_DEPTH) as -> by done.
    clear -Hk. destruct (mod_10 (length ts)) as (q & r & -> & ? & ?). mods.
  - rewrite lookup_seq_ge by lia. symmetry. apply lookup_ge_None. rewrite length_take, length_rev. lia.
Qed.

(** ** Prices *)

Definition record_prices (ts : list TradeEntry) (p : Prices) : Prices :=
  fold_left (λ p t, record_price t.(te_price) t.(te_qty) p) ts p.
(** The prices of a non-empty sequence of trades. *)
Definition summary (t : TradeEntry) (ts : list TradeEntry) : Prices :=
  mkPrices t.(te_price) (fold_left Z.max (te_price <$> ts) t.(te_price)) (fold_left Z.min (te_price <$> ts) t.(te_price))
    (List.last (te_price <$> ts) t.(te_price)) (sum_by te_qty (t :: ts)).

Lemma fold_left_snoc {A B} (f : A → B → A) l x a : fold_left f (l ++ [x]) a = f (fold_left f l a) x.
Proof. by rewrite fold_left_app. Qed.
Lemma fold_bounds_pos l (p : Z) : 0 < p → Forall (λ x, 0 < x) l → 0 < fold_left Z.max l p ∧ 0 < fold_left Z.min l p.
Proof.
  intros Hp Hl. induction l as [|x l IH] using rev_ind; [by split|].
  apply Forall_app in Hl as [Hl [Hx _]%Forall_cons]. rewrite !fold_left_snoc. specialize (IH Hl). lia.
Qed.
Lemma record_prices_summary t ts : Forall (λ t, 0 < t.(te_price)) (t :: ts) →
  record_prices (t :: ts) (mkPrices 0 0 0 0 0) = summary t ts.
Proof.
  intros [Hp Hts]%Forall_cons. unfold record_prices. cbn [fold_left].
  replace (record_price _ _ (mkPrices 0 0 0 0 0)) with (summary t []).
  2: { unfold summary, record_price. cbn. rewrite !orb_true_r. by rewrite Z.add_0_r. }
  induction ts as [|t' ts IH] using rev_ind; [done|]. apply Forall_app in Hts as [Hts [Ht' _]%Forall_cons].
  rewrite fold_left_snoc, (IH Hts). unfold summary. rewrite !fmap_app. cbn [fmap list_fmap].
  rewrite !fold_left_snoc, List.last_last. unfold record_price. cbn [open_price high_price low_price volume].
  destruct (fold_bounds_pos (te_price <$> ts) t.(te_price)) as [Hmax Hmin]; [done| |].
  { apply Forall_fmap. by eapply Forall_impl. }
  f_equal.
  - by rewrite (proj2 (Z.eqb_neq _ _)) by lia.
  - rewrite (proj2 (Z.eqb_neq (fold_left Z.max _ _) _)), orb_false_r by lia. case_if as E; zbool; lia.
  - rewrite (proj2 (Z.eqb_neq (fold_left Z.min _ _) _)), orb_false_r by lia. case_if as E; zbool; lia.
  - rewrite !sum_by_cons, sum_by_app. cbn. lia.
Qed.
