(* ===== verification/ObserverFeeds.v ===== *)
(** * The observer on the three feeds

    [CmeVisitor], [IceVisitor] and [KrxVisitor] of [exchange_observer.cc]: what
    the messages of a feed do to the display and to the journal; [cme_recovery.h],
    [ice_recovery.h] and [krx_recovery.h]: how a snapshot fills the book; and the
    number [udp_multicast.h] puts before each datagram. *)

From Stdlib Require Import Ascii String.
From S2P Require Import Prelude Types Wire Sbe Mdp3Messages Mdp3 Impact Fast Text Display.

#[local] Open Scope Z_scope.

(** ** Datagrams *)

(** The sequence number before the message of a datagram. *)
Definition mcast_header_size : nat := 4.

(** [UdpMulticastPublisher::send]: the number is put before the data and
    advances, if the datagram is sent. *)
Definition mcast_send (seq : Z) (data : list Z) : list Z * Z := (le_bytes mcast_header_size seq ++ data, wrap_u32 (seq + 1)).
Fixpoint mcast_feed (seq : Z) (packets : list (list Z)) : list (list Z) :=
  match packets with
  | [] => []
  | data :: packets' => let '(datagram, seq) := mcast_send seq data in datagram :: mcast_feed seq packets'
  end.

(** * CME *)

Section cme_visitor.
Context (filter_security_id : Z) (instrument : list Z).

(** One entry of a book message; bids have the types '0' and 'E'. *)
Definition visit_book_entry (ts : Z) (o : Observer) (e : RefreshBookEntry) : Observer :=
  if negb (e.(rb_security_id) =? filter_security_id) then o
  else
    let action := e.(rb_md_update_action) in
    let is_bid := (e.(rb_md_entry_type) =? 48) || (e.(rb_md_entry_type) =? 69) in
    let is_delete := (action =? update_action_code Delete) || (action =? update_action_code DeleteThru)
                     || (action =? update_action_code DeleteFrom) in
    let price := e.(rb_md_entry_px).(mantissa) in
    let qty := e.(rb_md_entry_size) in
    let orders := e.(rb_number_of_orders) in
    let o := on_display (update_display price qty orders is_delete is_bid) o in
    if is_delete then write_book_delete ts instrument (side_word is_bid) price o
    else if action =? update_action_code New then write_book_add ts instrument (side_word is_bid) price qty orders o
    else write_book_update ts instrument (side_word is_bid) price qty orders o.

Definition visit_trade_entry (ts : Z) (o : Observer) (e : TradeSummaryEntry) : Observer :=
  if negb (e.(ts_security_id) =? filter_security_id) then o
  else
    let price := e.(ts_md_entry_px).(mantissa) in
    write_trade ts instrument price e.(ts_md_entry_size) e.(ts_aggressor_side)
      (on_display (record_trade price e.(ts_md_entry_size) e.(ts_aggressor_side) ts) o).

Definition security_state_word (status : Z) : list Z :=
  if status =? Mdp3.trading_status_code ReadyToTrade then chars "OPEN"
  else if status =? Mdp3.trading_status_code TradingHalt then chars "HALT"
  else if status =? Mdp3.trading_status_code Close then chars "CLOSED"
  else if status =? Mdp3.trading_status_code StatusPreOpen then chars "PRE_OPEN"
  else if status =? Mdp3.trading_status_code PostClose then chars "POST_CLOSE"
  else chars "UNKNOWN".

Definition visit_mdp3 (o : Observer) (d : Decoded) : Observer :=
  match d with
  | DecodedRefreshBook46 root md_entries _ => fold_left (visit_book_entry root.(b46_transact_time)) md_entries o
  | DecodedTradeSummary48 root md_entries _ => fold_left (visit_trade_entry root.(t48_transact_time)) md_entries o
  | DecodedSecurityStatus30 root =>
      if negb (root.(s30_security_id) =? filter_security_id) then o
      else write_status root.(s30_transact_time) instrument (security_state_word root.(s30_security_trading_status)) o
  | DecodedSnapshot53 _ _ | DecodedInstrumentDef54 _ _ _ _ _ => o
  end.

(** The message of a datagram: what the visitor does, and whether an error is
    counted. *)
Definition decode_cme (payload : list Z) (o : Observer) : Observer * bool :=
  match decode_mdp3_message payload with
  | Got d _ => (visit_mdp3 o d, false)
  | Failed kUnknownTemplateId => (o, false)
  | _ => (o, true)
  end.
End cme_visitor.

(** ** Recovery *)

(** One entry of a snapshot is shown as one order. *)
Definition recover_entry (ds : DisplayState) (e : SnapshotOrderBookEntry) : DisplayState :=
  update_display e.(sb_md_entry_px).(mantissa) e.(sb_md_display_qty) 1 false (e.(sb_md_entry_type) =? 48) ds.
Definition apply_cme_snapshot (md_entries : list SnapshotOrderBookEntry) (ds : DisplayState) : DisplayState :=
  fold_left recover_entry md_entries (clear_book ds).

Definition SNAPSHOT_TEMPLATE : Z := 53.
(** The entries of a datagram that is a snapshot of the instrument. *)
Definition matching_snapshot (security_id : Z) (datagram : list Z) : option (list SnapshotOrderBookEntry) :=
  let received := take (Z.to_nat MAX_SNAPSHOT_ENCODED_SIZE + mcast_header_size) datagram in
  if (length received <=? mcast_header_size)%nat then None
  else
    match take_struct (A := MessageHeader) (drop mcast_header_size received) with
    | Got hdr body =>
        if negb (hdr.(h_template_id) =? SNAPSHOT_TEMPLATE) then None
        else
          match decode_snapshot_53 hdr body with
          | Got (DecodedSnapshot53 root md_entries) _ =>
              if negb (root.(s53_security_id) =? security_id) then None else Some md_entries
          | _ => None
          end
    | _ => None
    end.
(** The receive loop: the datagrams until the time is over. *)
Fixpoint recover_cme (security_id : Z) (datagrams : list (list Z)) (ds : DisplayState) : DisplayState :=
  match datagrams with
  | [] => ds
  | d :: datagrams' =>
      match matching_snapshot security_id d with
      | Some md_entries => apply_cme_snapshot md_entries ds
      | None => recover_cme security_id datagrams' ds
      end
  end.

(** * ICE *)

(** The visitor remembers the time of the bundle it is in. *)
Record IceObserver : Type := mkIceObserver { io_observer : Observer; io_bundle_ts : Z }.

Section ice_visitor.
Context (filter_instrument_id : Z) (instrument : list Z).

Definition visit_bundle_start (m : BundleStart) (s : IceObserver) : IceObserver :=
  mkIceObserver s.(io_observer) (wrap_u64 m.(bs_timestamp)).

Definition visit_add_modify_order (m : AddModifyOrder) (s : IceObserver) : IceObserver :=
  if negb (m.(am_instrument_id) =? filter_instrument_id) then s
  else
    let is_bid := m.(am_side) =? encode_side Buy in
    let qty := wrap_s32 m.(am_quantity) in
    let o := on_display (update_display m.(am_price) qty 0 false is_bid) s.(io_observer) in
    let ts := if negb (s.(io_bundle_ts) =? 0) then s.(io_bundle_ts) else wrap_u64 m.(am_order_entry_date_time) in
    mkIceObserver (write_book_add ts instrument (side_word is_bid) m.(am_price) qty 0 o) s.(io_bundle_ts).

Definition visit_order_withdrawal (m : OrderWithdrawal) (s : IceObserver) : IceObserver :=
  if negb (m.(ow_instrument_id) =? filter_instrument_id) then s
  else
    let is_bid := m.(ow_side) =? encode_side Buy in
    let o := on_display (update_display m.(ow_price) 0 0 true is_bid) s.(io_observer) in
    mkIceObserver (write_book_delete s.(io_bundle_ts) instrument (side_word is_bid) m.(ow_price) o) s.(io_bundle_ts).

Definition visit_deal_trade (m : DealTrade) (s : IceObserver) : IceObserver :=
  if negb (m.(dt_instrument_id) =? filter_instrument_id) then s
  else
    let qty := wrap_s32 m.(dt_quantity) in
    let agg := if m.(dt_aggressor_side) =? encode_side Buy then 1 else 2 in
    let ts := wrap_u64 m.(dt_timestamp) in
    mkIceObserver
      (write_trade ts instrument m.(dt_price) qty agg (on_display (record_trade m.(dt_price) qty agg ts) s.(io_observer)))
      s.(io_bundle_ts).

Definition trading_state_word (status : Z) : list Z :=
  if status =? Impact.trading_status_code TSContinuous then chars "OPEN"
  else if status =? Impact.trading_status_code TSHalt then chars "HALT"
  else if status =? Impact.trading_status_code TSClosed then chars "CLOSED"
  else if status =? Impact.trading_status_code TSPreOpen then chars "PRE_OPEN"
  else if status =? Impact.trading_status_code TSSettlement then chars "SETTLEMENT"
  else chars "UNKNOWN".
Definition visit_market_status (m : Impact.MarketStatus) (s : IceObserver) : IceObserver :=
  if negb (m.(ms_instrument_id) =? filter_instrument_id) then s
  else
    mkIceObserver (write_status s.(io_bundle_ts) instrument (trading_state_word m.(ms_trading_status)) s.(io_observer))
      s.(io_bundle_ts).

Definition visit_impact (s : IceObserver) (e : ImpactEvent) : IceObserver :=
  match e with
  | on_bundle_start m => visit_bundle_start m s
  | on_bundle_end _ => s
  | on_add_modify_order m => visit_add_modify_order m s
  | on_order_withdrawal m => visit_order_withdrawal m s
  | on_deal_trade m => visit_deal_trade m s
  | on_market_status m => visit_market_status m s
  | on_snapshot_order _ | on_price_level _ | Impact.on_instrument_def _ => s
  end.

(** The messages of a datagram, and whether an error is counted. *)
Definition decode_ice (payload : list Z) (s : IceObserver) : IceObserver * bool :=
  let '(events, consumed) := Impact.decode_messages payload in
  (fold_left visit_impact events s, (consumed =? 0)%nat && (0 <? length payload)%nat).
End ice_visitor.

(** ** Recovery *)

(** [SnapshotVisitor]; the end marker only changes what is logged. *)
Definition visit_snapshot (target_instrument_id : Z) (ds : DisplayState) (e : ImpactEvent) : DisplayState :=
  match e with
  | on_snapshot_order so =>
      if negb (so.(so_instrument_id) =? target_instrument_id) then ds
      else update_display so.(so_price) (wrap_s32 so.(so_quantity)) 1 false (so.(so_side) =? encode_side Buy) ds
  | _ => ds
  end.
(** The frame of the snapshot server; none, if there is no answer. *)
Definition recover_ice (instrument_id : Z) (frame : list Z) (ds : DisplayState) : DisplayState :=
  match frame with
  | [] => ds
  | _ => fold_left (visit_snapshot instrument_id) (Impact.decode_messages frame).1 ds
  end.

(** * KRX *)

Section krx_visitor.
Context (instrument : list Z).

(** A quote sets the level of each best price there is. *)
Definition visit_quote (m : FastQuote) (o : Observer) : Observer :=
  let o := if negb (m.(fq_bid_price) =? 0)
           then on_display (update_display m.(fq_bid_price) (wrap_s32 m.(fq_bid_qty)) 1 false true) o else o in
  if negb (m.(fq_ask_price) =? 0)
  then on_display (update_display m.(fq_ask_price) (wrap_s32 m.(fq_ask_qty)) 1 false false) o else o.

Definition visit_trade (m : FastTrade) (o : Observer) : Observer :=
  let agg := if m.(ft_aggressor_side) =? 0 then 1 else 2 in
  let qty := wrap_s32 m.(ft_quantity) in
  let ts := wrap_u64 m.(ft_timestamp) in
  write_trade ts instrument m.(ft_price) qty agg (on_display (record_trade m.(ft_price) qty agg ts) o).

Definition session_state_word (state : Z) : list Z :=
  if state =? session_u8 Closed then chars "CLOSED"
  else if state =? session_u8 PreOpen then chars "PRE_OPEN"
  else if state =? session_u8 OpeningAuction then chars "OPENING_AUCTION"
  else if state =? session_u8 Continuous then chars "OPEN"
  else if state =? session_u8 PreClose then chars "PRE_CLOSE"
  else if state =? session_u8 ClosingAuction then chars "CLOSING_AUCTION"
  else if state =? session_u8 Halt then chars "HALT"
  else if state =? session_u8 VolatilityAuction then chars "VI_AUCTION"
  else if state =? session_u8 LockLimit then chars "LOCK_LIMIT"
  else chars "UNKNOWN".

Definition visit_fast (o : Observer) (m : FastMessage) : Observer :=
  match m with
  | on_quote m => visit_quote m o
  | on_trade m => visit_trade m o
  | on_status m => write_status (wrap_u64 m.(fs_timestamp)) instrument (session_state_word m.(fs_session_state)) o
  | on_snapshot _ | on_instrument_def _ | on_full_snapshot _ => o
  end.

(** The first message of a datagram, and whether an error is counted. *)
Definition decode_krx (payload : list Z) (o : Observer) : Observer * bool :=
  match decode_message payload with
  | Some (m, _) => (visit_fast o m, false)
  | None => (o, (0 <? length payload)%nat)
  end.
End krx_visitor.

(** ** Recovery *)

(** [int32_t] fields of a level of the snapshot. *)
Definition recovered_level (lv : FastSnapshotLevel) : BookLevel :=
  mkBookLevel lv.(fl_price) (wrap_s32 lv.(fl_quantity)) (wrap_s32 lv.(fl_order_count)).
(** The levels copied: as many as announced, [BOOK_DEPTH] at most. *)
Definition recovered_side (num_levels : Z) (ls : list FastSnapshotLevel) : BookSide :=
  let n := Nat.min (Z.to_nat num_levels) BOOK_DEPTH in
  mkBookSide (recovered_level <$> take n ls ++ replicate (BOOK_DEPTH - n) default_level) n.
Definition set_last_seq (seq : Z) (c : Counters) : Counters :=
  mkCounters c.(total_messages) c.(messages_this_second) c.(msgs_per_sec) c.(decode_errors) c.(total_trades)
    seq c.(seq_gaps).
Definition apply_krx_snapshot (snap : FastFullSnapshot) (ds : DisplayState) : DisplayState :=
  mkDisplay (recovered_side snap.(fu_num_bid_levels) snap.(fu_bids))
    (recovered_side snap.(fu_num_ask_levels) snap.(fu_asks)) ds.(d_tape) ds.(d_prices)
    (set_last_seq snap.(fu_seq_num) ds.(d_counters)).

Definition krx_buffer_size : nat := 2048.
(** The snapshot in a datagram, if it is one of the instrument. *)
Definition matching_full_snapshot (instrument_id : Z) (datagram : list Z) : option FastFullSnapshot :=
  let received := take krx_buffer_size datagram in
  if (length received <=? 4)%nat then None
  else
    match decode_message (drop 4 received) with
    | Some (on_full_snapshot snap, _) => if snap.(fu_instrument_id) =? instrument_id then Some snap else None
    | _ => None
    end.
(** The receive loop: the datagrams until the deadline. *)
Fixpoint recover_krx (instrument_id : Z) (datagrams : list (list Z)) (ds : DisplayState) : DisplayState :=
  match datagrams with
  | [] => ds
  | d :: datagrams' =>
      match matching_full_snapshot instrument_id d with
      | Some snap => apply_krx_snapshot snap ds
      | None => recover_krx instrument_id datagrams' ds
      end
  end.
