(* ===== verification/Secdef.v ===== *)
(** * Discovering instruments

    [cme_secdef.h], [ice_secdef.h] and [krx_secdef.h]: from the instrument
    definitions on a feed to the map of [instrument_info.h].  The definitions of
    a list of products, sent on the CME feed, are found completely and with the
    values of the products. *)

From Stdlib Require Import Ascii String.
From S2P Require Import Prelude Types Wire Sbe Mdp3Messages Fast Impact Mdp3 Mdp3Theorems Products Doubles Text Display ObserverFeeds.

#[local] Open Scope Z_scope.

Record InstrumentInfo : Type := mkInfo {
  ii_security_id : Z; ii_symbol : list Z; ii_description : list Z; ii_product_group : list Z;
  ii_tick_size : Z; ii_lot_size : Z; ii_max_order_size : Z; ii_match_algorithm : Z;
  ii_currency : list Z; ii_display_factor : double
}.
Abbreviation instrument_map := (gmap (list Z) InstrumentInfo).

(** A string up to its last character that is no space; up to a null byte. *)
Fixpoint trim_spaces (s : list Z) : list Z :=
  match s with
  | [] => []
  | c :: s' => match trim_spaces s' with [] => if c =? 32 then [] else [c] | t => c :: t end
  end.
Fixpoint until_nul (s : list Z) : list Z :=
  match s with
  | [] => []
  | c :: s' => if c =? 0 then [] else c :: until_nul s'
  end.

(** What comes behind the sequence number of a datagram, if anything. *)
Definition payload_of (buffer : nat) (datagram : list Z) : option (list Z) :=
  let received := take buffer datagram in
  if (length received <=? 4)%nat then None else Some (drop 4 received).
Definition secdef_buffer : nat := 2048.

(** ** CME *)

Definition price9_to_double (p : PRICE9) : double := ddiv (of_int p.(mantissa)) (of_int 1000000000).

(** The first rule of type 1; one contract if there is none. *)
Definition lot_size_of (lot_types : list InstrDefLotTypeEntry) : Z :=
  match list_find (λ l, l.(lt_lot_type) = 1) lot_types with
  | Some (_, l) => l.(lt_min_lot_size) * PRICE_SCALE
  | None => PRICE_SCALE
  end.

Definition cme_info (root : MDInstrumentDefinitionFuture54) (lot_types : list InstrDefLotTypeEntry) : InstrumentInfo :=
  mkInfo (wrap_u32 root.(i54_security_id)) (trim_spaces root.(i54_symbol)) []
    (trim_spaces root.(i54_security_group))
    (Z.quot root.(i54_min_price_increment).(mantissa) ENGINE_TO_PRICE9_FACTOR)
    (lot_size_of lot_types) (root.(i54_max_trade_vol) * PRICE_SCALE) root.(i54_match_algorithm)
    root.(i54_currency) (price9_to_double root.(i54_display_factor)).

(** What has been found, and how many definitions there are to be, 0 if that is
    not known. *)
Record discovery : Type := mkDiscovery { found : instrument_map; expected_total : Z }.

Definition expect_total (reports : Z) (d : discovery) : Z :=
  if (d.(expected_total) =? 0) && (reports >? 0) then reports else d.(expected_total).
Definition visit_cme_definition (d : discovery) (msg : Decoded) : discovery :=
  match msg with
  | DecodedInstrumentDef54 root _ _ _ lot_types =>
      let info := cme_info root lot_types in
      mkDiscovery (<[info.(ii_symbol) := info]> d.(found)) (expect_total root.(i54_tot_num_reports) d)
  | _ => d
  end.
Definition decode_cme_definition (d : discovery) (msg_buf : list Z) : discovery :=
  match decode_mdp3_message msg_buf with Got msg _ => visit_cme_definition d msg | _ => d end.

(** All the definitions that were announced have been found. *)
Definition complete (d : discovery) : bool :=
  (d.(expected_total) >? 0) && (d.(expected_total) <=? Z.of_nat (size d.(found))).
(** The receive loop, over the datagrams until the time is over. *)
Fixpoint discover (decode : discovery → list Z → discovery) (datagrams : list (list Z)) (d : discovery) : discovery :=
  match datagrams with
  | [] => d
  | bs :: datagrams' =>
      match payload_of secdef_buffer bs with
      | None => discover decode datagrams' d
      | Some msg_buf =>
          let d := decode d msg_buf in
          if complete d then d else discover decode datagrams' d
      end
  end.
Definition discover_cme (datagrams : list (list Z)) : instrument_map :=
  (discover decode_cme_definition datagrams (mkDiscovery ∅ 0)).(found).

(** ** KRX *)

Definition krx_group_name (g : Z) : list Z :=
  if g =? 0 then chars "Futures" else if g =? 1 then chars "Options" else if g =? 2 then chars "FX"
  else if g =? 3 then chars "Bond" else chars "Unknown".
Definition krx_info (def : FastInstrumentDef) : InstrumentInfo :=
  mkInfo def.(fi_instrument_id) (until_nul def.(fi_symbol)) (until_nul def.(fi_description))
    (krx_group_name def.(fi_product_group)) def.(fi_tick_size) def.(fi_lot_size) def.(fi_max_order_size) 70
    (chars "KRW") (ddiv d1 (of_int 10000)).
Definition visit_krx_definition (d : discovery) (def : FastInstrumentDef) : discovery :=
  let info := krx_info def in
  mkDiscovery (<[info.(ii_symbol) := info]> d.(found)) (expect_total def.(fi_total_instruments) d).
Definition decode_krx_definition (d : discovery) (msg_buf : list Z) : discovery :=
  match Fast.decode_message msg_buf with Some (Fast.on_instrument_def def, _) => visit_krx_definition d def | _ => d end.
Definition discover_krx (datagrams : list (list Z)) : instrument_map :=
  (discover decode_krx_definition datagrams (mkDiscovery ∅ 0)).(found).

(** ** ICE *)

Definition ice_info (symbol : list Z) (msg : InstrumentDefinition) : InstrumentInfo :=
  mkInfo (wrap_u32 msg.(id_instrument_id)) symbol (until_nul msg.(id_description))
    (until_nul msg.(id_product_group)) msg.(id_tick_size) msg.(id_lot_size) msg.(id_max_order_size)
    (if msg.(id_match_algo) =? 0 then 70 else 80) (until_nul msg.(id_currency)) (decimal_double false 1 (-4)).
(** The visitor: a symbol is kept as it was defined first; whether one was new. *)
Definition visit_ice_definition (s : instrument_map * bool) (e : ImpactEvent) : instrument_map * bool :=
  match e with
  | Impact.on_instrument_def msg =>
      let symbol := until_nul msg.(id_symbol) in
      match symbol with
      | [] => s
      | _ => match s.1 !! symbol with
             | Some _ => s
             | None => (<[symbol := ice_info symbol msg]> s.1, true)
             end
      end
  | _ => s
  end.

(** A round of the loop: the time at its start, what was received, and the time
    after that, in nanoseconds. *)
Record round : Type := mkRound { now : Z; received : option (list Z); after : Z }.
Definition seconds (ns : Z) : Z := Z.quot ns 1000000000.
Definition IDLE_SECS : Z := 5.

Fixpoint discover_ice_loop (timeout_secs start last_new : Z) (rounds : list round) (result : instrument_map)
    : instrument_map :=
  match rounds with
  | [] => result
  | r :: rounds' =>
      if seconds (r.(now) - start) >=? timeout_secs then result
      else if negb (size result =? 0)%nat && (seconds (r.(now) - last_new) >=? IDLE_SECS) then result
      else
        match r.(received) ≫= payload_of secdef_buffer with
        | None => discover_ice_loop timeout_secs start last_new rounds' result
        | Some msg_buf =>
            let '(result, found_new) := fold_left visit_ice_definition (Impact.decode_messages msg_buf).1 (result, false) in
            discover_ice_loop timeout_secs start (if found_new then r.(after) else last_new) rounds' result
        end
  end.
Definition discover_ice (timeout_secs start : Z) (rounds : list round) : instrument_map :=
  discover_ice_loop timeout_secs start start rounds ∅.

(** * What is found *)

(** ** Padding *)

Definition no_final_space (s : list Z) : Prop := from_option (λ c, c ≠ 32) True (last s).
Lemma trim_spaces_pad n : trim_spaces (replicate n 32) = [].
Proof. induction n as [|n IH]; [done|]. cbn. by rewrite IH. Qed.
Lemma trim_spaces_app s n : no_final_space s → trim_spaces (s ++ replicate n 32) = s.
Proof.
  induction s as [|c s IH]; intros H; [apply trim_spaces_pad|]. cbn. destruct s as [|c' s].
  - rewrite (trim_spaces_pad n : trim_spaces ([] ++ replicate n 32) = []). cbn in H. by rewrite (proj2 (Z.eqb_neq _ _)).
  - by rewrite IH.
Qed.
Lemma trim_padded n s : no_final_space s → (length s <= n)%nat → trim_spaces (space_padded n s) = s.
Proof. intros Hs Hn. unfold space_padded. rewrite Nat.min_l by done. rewrite take_ge by done. by apply trim_spaces_app. Qed.

(** ** One definition *)

(** A product whose values survive the message. *)
Record definable (p : CmeProductConfig) : Prop := {
  df_id : 0 <= p.(cp_instrument_id) < 2 ^ 31;
  df_tick : wire_price p.(cp_tick_size);
  df_lot : wire_lots p.(cp_lot_size);
  df_max : wire_lots p.(cp_max_order_size);
  df_symbol : Forall is_byte p.(cp_symbol) ∧ (length p.(cp_symbol) <= 20)%nat ∧ no_final_space p.(cp_symbol);
  df_group : Forall is_byte p.(cp_product_group)
}.
(** What discovery should say of a product; the group is cut to six characters. *)
Definition info_of (p : CmeProductConfig) : InstrumentInfo :=
  mkInfo p.(cp_instrument_id) p.(cp_symbol) [] (trim_spaces (space_padded 6 p.(cp_product_group))) p.(cp_tick_size)
    p.(cp_lot_size) p.(cp_max_order_size) 70 usd (price9_to_double (mkPRICE9 100000)).

Lemma lots_of_back q : wire_lots q → wrap_s32 (Z.quot q PRICE_SCALE) * PRICE_SCALE = q ∧
  wrap_u32 (engine_qty_to_wire q) * PRICE_SCALE = q.
Proof.
  intros (k & -> & Hk). unfold engine_qty_to_wire. rewrite Z.quot_mul by done.
  rewrite wrap_s32_id by (unfold in_int32; lia). split; [done|]. rewrite wrap_u32_id; [done|]. unfold in_uint32. lia.
Qed.
Lemma cme_info_of p reports w : definable p → price_of w = Some p.(cp_tick_size) →
  cme_info (instrument_root p reports w) [mkInstrDefLotTypeEntry 1 (wrap_s32 (Z.quot p.(cp_lot_size) PRICE_SCALE))] = info_of p.
Proof.
  intros [Hid Ht Hl Hm (Hb & Hn & Hs) Hg] Hw. unfold cme_info, info_of, instrument_root, lot_size_of.
  cbn [i54_security_id i54_symbol i54_security_group i54_min_price_increment i54_max_trade_vol i54_match_algorithm
       i54_currency i54_display_factor list_find lt_lot_type lt_min_lot_size].
  rewrite decide_True by done. cbn [lt_min_lot_size]. destruct (lots_of_back _ Hl) as [-> _], (lots_of_back _ Hm) as [_ ->].
  rewrite trim_padded, wrap_s32_id, wrap_u32_id by (done || (unfold in_int32, in_uint32; lia)).
  unfold price_of in Hw. destruct (price9_is_null w); [done|]. by injection Hw as ->.
Qed.

Lemma decode_definition p reports d : in_uint32 reports → definable p → ∃ bs,
  encode_instrument_definition p reports = Some bs ∧ (1 <= length bs <= 2000)%nat ∧
  decode_cme_definition d bs = mkDiscovery (<[p.(cp_symbol) := info_of p]> d.(found)) (expect_total reports d).
Proof.
  intros Hr Hp. destruct (mdp3_definition_arrives p reports Hr (df_tick _ Hp) (proj1 (df_symbol _ Hp)) (df_group _ Hp))
    as (bs & w & He & Hw & Hd & Hlen). exists bs. split; [exact He|]. split.
  - split; [|unfold MAX_MDP3_ENCODED_SIZE in Hlen; lia]. destruct bs; [discriminate Hd|]. cbn; lia.
  - unfold decode_cme_definition, visit_cme_definition. rewrite Hd. by rewrite (cme_info_of p reports w).
Qed.

(** ** A cycle of definitions *)

Definition definition_packets (reports : Z) (ps : list CmeProductConfig) : option (list (list Z)) :=
  mapM (λ p, encode_instrument_definition p reports) ps.
Definition catalogue (ps : list CmeProductConfig) : instrument_map := list_to_map ((λ p, (p.(cp_symbol), info_of p)) <$> ps).

Lemma payload_mcast seq bs : (1 <= length bs <= 2000)%nat → payload_of secdef_buffer (le_bytes mcast_header_size seq ++ bs) = Some bs.
Proof.
  intros Hl. unfold payload_of. rewrite take_ge by (rewrite length_app, length_le_bytes; unfold secdef_buffer, mcast_header_size; lia).
  rewrite (proj2 (Nat.leb_gt _ _)) by (rewrite length_app, length_le_bytes; unfold mcast_header_size; lia).
  f_equal.
Qed.
Lemma catalogue_snoc ps p : p.(cp_symbol) ∉ cp_symbol <$> ps → catalogue (ps ++ [p]) = <[p.(cp_symbol) := info_of p]> (catalogue ps).
Proof.
  intros Hni. unfold catalogue. rewrite fmap_app. cbn. apply list_to_map_snoc.
  by rewrite <- list_fmap_compose.
Qed.
Lemma size_catalogue ps : NoDup (cp_symbol <$> ps) → size (catalogue ps) = length ps.
Proof.
  intros Hnd. unfold catalogue. rewrite <- (length_map_to_list (list_to_map _)), map_to_list_to_map by by rewrite <- list_fmap_compose.
  by rewrite length_fmap.
Qed.

(** The rest of the cycle; the number announced is that of all the products. *)
Lemma discover_rest reports rest later : in_uint32 reports → 0 < reports → Forall definable rest → ∀ ps seq total,
  reports = Z.of_nat (length (ps ++ rest)) → NoDup (cp_symbol <$> ps ++ rest) → rest ≠ [] → (total = 0 ∨ total = reports) →
  ∃ packets, definition_packets reports rest = Some packets ∧
    discover decode_cme_definition (mcast_feed seq packets ++ later) (mkDiscovery (catalogue ps) total) =
    mkDiscovery (catalogue (ps ++ rest)) reports.
Proof.
  intros Hr Hpos. induction 1 as [|p rest Hp _ IH]; intros ps seq total Hrep Hnd Hne Htot; [done|].
  destruct (decode_definition p reports (mkDiscovery (catalogue ps) total) Hr Hp) as (bs & He & Hl & Hd). cbn [found] in Hd.
  replace (ps ++ p :: rest) with ((ps ++ [p]) ++ rest) in * by by rewrite <- app_assoc.
  assert (Hni : p.(cp_symbol) ∉ cp_symbol <$> ps).
  { rewrite !fmap_app in Hnd. cbn in Hnd. apply NoDup_app in Hnd as [Hnd _]. apply NoDup_app in Hnd as (_ & Hd' & _).
    intros Hin. apply (Hd' _ Hin). by left. }
  rewrite <- catalogue_snoc in Hd by done.
  assert (Hexp : expect_total reports (mkDiscovery (catalogue ps) total) = reports).
  { unfold expect_total. cbn [expected_total]. rewrite (proj2 (Z.gtb_lt _ _)) by done.
    destruct Htot as [->| ->]; [done|]. by rewrite (proj2 (Z.eqb_neq _ _)) by lia. }
  rewrite Hexp in Hd.
  assert (Hcomplete : complete (mkDiscovery (catalogue (ps ++ [p])) reports) = bool_decide (rest = [])).
  { unfold complete. cbn [expected_total found]. rewrite (proj2 (Z.gtb_lt _ _)) by done.
    rewrite fmap_app in Hnd. apply NoDup_app in Hnd as [Hnd _]. rewrite size_catalogue by done.
    rewrite length_app in Hrep. destruct rest; cbn [length] in Hrep.
    - rewrite bool_decide_eq_true_2 by done. apply Z.leb_le. lia.
    - rewrite bool_decide_eq_false_2 by done. apply Z.leb_gt. lia. }
  destruct (decide (rest = [])) as [->|Hrest].
  - exists [bs]. split; [unfold definition_packets; cbn; by rewrite He|]. cbn [mcast_feed mcast_send app discover].
    rewrite payload_mcast by done. rewrite Hd, Hcomplete, bool_decide_eq_true_2 by done. by rewrite app_nil_r.
  - destruct (IH (ps ++ [p]) (wrap_u32 (seq + 1)) reports) as (packets & Hpk & Hdisc); [done|done|done|by right|].
    exists (bs :: packets). split; [unfold definition_packets in *; cbn [mapM]; by rewrite He, Hpk|].
    cbn [mcast_feed mcast_send app discover]. rewrite payload_mcast by done.
    by rewrite Hd, Hcomplete, bool_decide_eq_false_2.
Qed.

(** Discovery finds the products.  From the definitions of a list of
    products with different symbols, sent in any place of a numbered feed with
    their number announced, the observer builds the map that gives every symbol
    its product, with identifier, tick, lot and largest order size, and stops at
    the last of them, whatever comes later. *)
Theorem secdef_discovers_products ps seq later :
  ps ≠ [] → Z.of_nat (length ps) < 2 ^ 32 → Forall definable ps → NoDup (cp_symbol <$> ps) →
  ∃ packets, definition_packets (Z.of_nat (length ps)) ps = Some packets ∧
    let found := discover_cme (mcast_feed seq packets ++ later) in
    dom found = list_to_set (cp_symbol <$> ps) ∧ ∀ p, p ∈ ps → found !! p.(cp_symbol) = Some (info_of p).
Proof.
  intros Hne Hlen Hdef Hnd.
  assert (Hpos : 0 < Z.of_nat (length ps)) by (destruct ps; [done|cbn [length]; lia]).
  destruct (discover_rest (Z.of_nat (length ps)) ps later ltac:(unfold in_uint32; lia) Hpos Hdef [] seq 0)
    as (packets & Hp & Hd); [done|done|done|by left|].
  exists packets. split; [exact Hp|]. cbv zeta. unfold discover_cme. change (catalogue []) with (∅ : instrument_map) in Hd.
  rewrite Hd. cbn [found app]. unfold catalogue. split.
  - rewrite dom_list_to_map_L. by rewrite <- list_fmap_compose.
  - intros p Hin. apply elem_of_list_to_map; [by rewrite <- list_fmap_compose|].
    apply list_elem_of_fmap. by exists p.
Qed.

(** ** The products of the exchange *)

Definition lots_check (q : Quantity) : bool := (q =? Z.quot q PRICE_SCALE * PRICE_SCALE) && (0 <=? Z.quot q PRICE_SCALE) && (Z.quot q PRICE_SCALE <? 2 ^ 31).
Definition definable_check (p : CmeProductConfig) : bool :=
  (0 <=? p.(cp_instrument_id)) && (p.(cp_instrument_id) <? 2 ^ 31) && bool_decide (wire_price p.(cp_tick_size)) &&
  lots_check p.(cp_lot_size) && lots_check p.(cp_max_order_size) && bool_decide (Forall is_byte p.(cp_symbol)) &&
  (length p.(cp_symbol) <=? 20)%nat && negb (bool_decide (last p.(cp_symbol) = Some 32)) &&
  bool_decide (Forall is_byte p.(cp_product_group)).
Lemma lots_check_ok q : lots_check q = true → wire_lots q.
Proof. unfold lots_check. intros H. zbool. exists (Z.quot q PRICE_SCALE). lia. Qed.
Lemma definable_check_ok p : definable_check p = true → definable p.
Proof.
  unfold definable_check. rewrite !andb_true_iff, !Z.leb_le, !Z.ltb_lt, !bool_decide_eq_true, Nat.leb_le, negb_true_iff.
  rewrite bool_decide_eq_false. intros [[[[[[[[? ?] ?] ?] ?] ?] ?] Hs] ?].
  split; auto using lots_check_ok. split_and!; [done..|]. unfold no_final_space. destruct (last _) as [c|]; [|done].
  cbn. congruence.
Qed.
Lemma cme_products_definable : Forall definable get_cme_products.
Proof.
  apply (Forall_impl (λ p, definable_check p = true)); [|apply definable_check_ok].
  apply (bool_decide_eq_true_1 _). by vm_compute.
Qed.

Lemma secdef_discovers_products_witness :
  ∃ packets, definition_packets 8 get_cme_products = Some packets ∧
    let found := discover_cme (mcast_feed 0 packets ++ [[1; 2; 3; 4; 5]]) in
    dom found = list_to_set (cp_symbol <$> get_cme_products) ∧
    ∀ p, p ∈ get_cme_products → found !! p.(cp_symbol) = Some (info_of p).
Proof.
  apply (secdef_discovers_products get_cme_products 0 [[1; 2; 3; 4; 5]]);
    [done|done|apply cme_products_definable|by apply (bool_decide_eq_true_1 _); vm_compute].
Defined.
