(* ===== verification/Tcp.v ===== *)
(** * Framed messages over TCP: [src/tools/tcp_server.cc], [src/tools/tcp_client.h]

    The server's receive buffers and its callbacks, as a system that steps with
    the network: bytes arrive on sockets, [poll] reads what is there in pieces of
    any size, connections come and go.  Whatever the steps, the messages handed to
    the callback are those that were framed.  Callbacks do not call the server
    back. *)

From S2P Require Import Prelude Wire.

#[local] Open Scope Z_scope.

(** ** Memory *)

Definition write_at (pos : nat) (bs buf : list Z) : list Z := take pos buf ++ bs ++ drop (pos + length bs) buf.
Definition slice (pos n : nat) (buf : list Z) : list Z := take n (drop pos buf).
(** [std::vector::resize]. *)
Definition resize (n : nat) (buf : list Z) : list Z := take n buf ++ replicate (n - length buf) 0.

(** ** The receive buffer *)

Definition kHeaderSize : nat := 4.
Definition kMaxMessageSize : Z := 16 * 1024 * 1024.
Definition kInitialBufSize : nat := Z.to_nat (64 * 1024).
#[global] Arguments kInitialBufSize : simpl never.

Record ClientState : Type := mkClient { recv_buf : list Z; read_pos : nat; write_pos : nat }.
Definition new_client : ClientState := mkClient (replicate kInitialBufSize 0) 0 0.

Definition readable (st : ClientState) : nat := st.(write_pos) - st.(read_pos).
Definition writable (st : ClientState) : nat := length st.(recv_buf) - st.(write_pos).
Definition advance_read (n : nat) (st : ClientState) : ClientState :=
  mkClient st.(recv_buf) (st.(read_pos) + n) st.(write_pos).
Definition compact (st : ClientState) : ClientState :=
  if (Nat.div2 (length st.(recv_buf)) <? st.(read_pos))%nat
  then mkClient (write_at 0 (slice st.(read_pos) (readable st) st.(recv_buf)) st.(recv_buf)) 0 (readable st)
  else st.
Definition ensure_capacity (needed : nat) (st : ClientState) : ClientState :=
  if (writable st <? needed)%nat then
    let st := compact st in
    if (length st.(recv_buf) <? needed)%nat then mkClient (resize needed st.(recv_buf)) st.(read_pos) st.(write_pos) else st
  else st.

(** ** Reading *)

(** Space before a call of [recv]. *)
Definition make_room (st : ClientState) : ClientState :=
  if (writable st =? 0)%nat then
    let st := compact st in
    if (writable st =? 0)%nat
    then mkClient (resize (2 * length st.(recv_buf)) st.(recv_buf)) st.(read_pos) st.(write_pos) else st
  else st.
Definition received (bs : list Z) (st : ClientState) : ClientState :=
  mkClient (write_at st.(write_pos) bs st.(recv_buf)) st.(read_pos) (st.(write_pos) + length bs).

(** A call of [recv] gives from what the socket holds one byte at least, and
    at most as many as there is space for; [grants] says how many.  After these
    calls, or when the socket holds nothing, the loop ends. *)
Fixpoint recv_loop (grants : list nat) (socket : list Z) (st : ClientState) : ClientState * list Z :=
  let st := make_room st in
  match grants, socket with
  | g :: grants', _ :: _ =>
      let n := Nat.min (S g) (writable st) in
      recv_loop grants' (drop n socket) (received (take n socket) st)
  | _, _ => (st, socket)
  end.

Inductive frame_result : Type :=
  | Kept (st : ClientState)
  | TooLong
  | OutOfFuel.
(** The complete frames, and the state after them. *)
Fixpoint frame_loop (fuel : nat) (st : ClientState) : list (list Z) * frame_result :=
  if (readable st <? kHeaderSize)%nat then ([], Kept (compact st))
  else
    let payload_len := le_value (slice st.(read_pos) kHeaderSize st.(recv_buf)) in
    if payload_len >? kMaxMessageSize then ([], TooLong)
    else
      let frame_size := (kHeaderSize + Z.to_nat payload_len)%nat in
      if (readable st <? frame_size)%nat then ([], Kept (compact (ensure_capacity frame_size st)))
      else
        match fuel with
        | O => ([], OutOfFuel)
        | S fuel' =>
            let '(messages, r) := frame_loop fuel' (advance_read frame_size st) in
            (slice (st.(read_pos) + kHeaderSize) (Z.to_nat payload_len) st.(recv_buf) :: messages, r)
        end.

(** ** The server *)

Inductive callback : Type :=
  | on_connect (fd : Z)
  | on_message (fd : Z) (data : list Z)
  | on_disconnect (fd : Z).

Record TcpServer : Type := mkServer { clients : gmap Z ClientState; running : bool; calls : list callback }.
Definition set_clients (c : gmap Z ClientState) (s : TcpServer) : TcpServer := mkServer c s.(running) s.(calls).
Definition call (cs : list callback) (s : TcpServer) : TcpServer := mkServer s.(clients) s.(running) (s.(calls) ++ cs).
Definition new_server : TcpServer := mkServer ∅ true [].

Definition remove_client (fd : Z) (s : TcpServer) : TcpServer :=
  let s := call [on_disconnect fd] s in set_clients (delete fd s.(clients)) s.
(** What is left in the socket comes back too. *)
Definition handle_read (fd : Z) (grants : list nat) (socket : list Z) (s : TcpServer) : TcpServer * list Z :=
  match s.(clients) !! fd with
  | None => (s, socket)
  | Some st =>
      let '(st, rest) := recv_loop grants socket st in
      let '(messages, r) := frame_loop (readable st) st in
      let s := call (on_message fd <$> messages) s in
      match r with
      | Kept st => (set_clients (<[fd := st]> s.(clients)) s, rest)
      | TooLong | OutOfFuel => (remove_client fd s, rest)
      end
  end.
Definition drain_and_remove_client (fd : Z) (grants : list nat) (socket : list Z) (s : TcpServer) : TcpServer * list Z :=
  let '(s, rest) := handle_read fd grants socket s in
  (match s.(clients) !! fd with Some _ => remove_client fd s | None => s end, rest).
(** One connection accepted; [registered]: did [epoll_ctl] succeed? *)
Definition accept_connection (fd : Z) (registered : bool) (s : TcpServer) : TcpServer :=
  if registered then
    let s := match s.(clients) !! fd with Some _ => s | None => set_clients (<[fd := new_client]> s.(clients)) s end in
    call [on_connect fd] s
  else s.
(** An event of a client's socket: can it be read, is it closed? *)
Definition client_event (fd : Z) (readable closed : bool) (grants grants' : list nat) (socket : list Z) (s : TcpServer)
    : TcpServer * list Z :=
  let '(s, socket) := if readable then handle_read fd grants socket s else (s, socket) in
  if closed then drain_and_remove_client fd grants' socket s else (s, socket).
Definition disconnect (fd : Z) (s : TcpServer) : TcpServer :=
  match s.(clients) !! fd with Some _ => remove_client fd s | None => s end.
(** The clients in the order in which the map is walked. *)
Definition shutdown (walk : gmap Z ClientState → list Z) (s : TcpServer) : TcpServer :=
  if s.(running) then
    fold_left (λ s fd, remove_client fd s) (walk s.(clients)) (mkServer s.(clients) false s.(calls))
  else s.

(** ** Sending *)

(** [::send] on a socket that does not block takes a part, or fails. *)
Fixpoint send_bytes (grants : list nat) (data : list Z) : list Z * bool :=
  match data with
  | [] => ([], true)
  | _ =>
      match grants with
      | [] => ([], false)
      | g :: grants' =>
          let '(sent, ok) := send_bytes grants' (drop (S g) data) in (take (S g) data ++ sent, ok)
      end
  end.
Definition frame_header (data : list Z) : list Z := le_bytes kHeaderSize (wrap_u32 (Z.of_nat (length data))).
(** What goes out, and whether the call succeeds. *)
Definition send_message (fd : Z) (header_grants grants : list nat) (data : list Z) (s : TcpServer) : list Z * bool :=
  match s.(clients) !! fd with
  | None => ([], false)
  | Some _ =>
      let '(header, ok) := send_bytes header_grants (frame_header data) in
      if ok then let '(sent, ok) := send_bytes grants data in (header ++ sent, ok) else (header, false)
  end.

(** ** The client *)

(** A result of [::send] or [::recv]: some bytes, none yet, or the end; [ready]
    says whether waiting for more is successful. *)
Inductive attempt : Type :=
  | Some_bytes (g : nat)
  | Would_block (ready : bool)
  | Ended.

Fixpoint send_all (tries : list attempt) (data : list Z) : option (list Z * bool) :=
  match data with
  | [] => Some ([], true)
  | _ =>
      match tries with
      | [] => None
      | Some_bytes g :: tries' => '(sent, ok) ← send_all tries' (drop (S g) data); Some (take (S g) data ++ sent, ok)
      | Would_block _ :: tries' => send_all tries' data
      | Ended :: _ => Some ([], false)
      end
  end.

(** [len] bytes from the stream; the calls that are left come back.  [None]: the
    calls do not suffice. *)
Fixpoint recv_all (tries : list attempt) (len : nat) (stream : list Z) : option (option (list Z) * list attempt * list Z) :=
  match len with
  | O => Some (Some [], tries, stream)
  | _ =>
      match tries with
      | [] => None
      | Some_bytes g :: tries' =>
          match stream with
          | [] => Some (None, tries', [])
          | _ =>
              let n := Nat.min (S g) (Nat.min len (length stream)) in
              '(r, tries', stream') ← recv_all tries' (len - n) (drop n stream);
              Some (app (take n stream) <$> (r : option (list Z)), tries', stream')
          end
      | Would_block true :: tries' => recv_all tries' len stream
      | Would_block false :: tries' | Ended :: tries' => Some (None, tries', stream)
      end
  end.
(** [None] is the empty vector: an error, the end, or a message of no bytes. *)
Definition recv_message (tries : list attempt) (stream : list Z) : option (option (list Z) * list attempt * list Z) :=
  '(header, tries, stream) ← recv_all tries kHeaderSize stream;
  match header with
  | None => Some (None, tries, stream)
  | Some header =>
      let frame_len := le_value header in
      if (frame_len =? 0) || (frame_len >? kMaxMessageSize) then Some (None, tries, stream)
      else recv_all tries (Z.to_nat frame_len) stream
  end.

(** ** Buffers hold a queue of bytes *)

Lemma slice_prefix p n buf more : (p + n <= length buf)%nat → slice p n (buf ++ more) = slice p n buf.
Proof.
  intros H. unfold slice. rewrite drop_app_le by lia. rewrite take_app_le; [done|]. rewrite length_drop. lia.
Qed.
Lemma length_write_at pos bs buf : (pos + length bs <= length buf)%nat → length (write_at pos bs buf) = length buf.
Proof. intros H. unfold write_at. rewrite !length_app, length_take, length_drop. lia. Qed.
Lemma resize_grow n buf : (length buf <= n)%nat → resize n buf = buf ++ replicate (n - length buf) 0.
Proof. intros H. unfold resize. by rewrite take_ge. Qed.

Definition content (st : ClientState) : list Z := slice st.(read_pos) (readable st) st.(recv_buf).
Lemma content_of b r w : content (mkClient b r w) = slice r (w - r) b.
Proof. done. Qed.
(** The positions are in order and within the buffer. *)
Record buf_ok (st : ClientState) : Prop := {
  ok_order : (st.(read_pos) <= st.(write_pos))%nat;
  ok_bound : (st.(write_pos) <= length st.(recv_buf))%nat;
  ok_nonempty : (0 < length st.(recv_buf))%nat
}.
Lemma length_content st : buf_ok st → length (content st) = readable st.
Proof. intros []. unfold content, slice, readable. rewrite length_take, length_drop. lia. Qed.

(** [st'] holds the same bytes in a buffer of at least the size. *)
Definition same_bytes (st st' : ClientState) : Prop := buf_ok st' ∧ content st' = content st ∧ readable st' = readable st.
#[global] Instance same_bytes_trans : Transitive same_bytes.
Proof. intros st1 st2 st3 (_ & H1 & H2) (Hok & H3 & H4). split_and!; [done|congruence..]. Qed.
Lemma same_bytes_refl st : buf_ok st → same_bytes st st.
Proof. done. Qed.

Lemma compact_same st : buf_ok st → same_bytes st (compact st) ∧ length (recv_buf (compact st)) = length (recv_buf st).
Proof.
  intros Hok. pose proof (length_content st Hok) as Hlen. unfold compact. case_match; [|done]. fold (content st).
  destruct Hok. assert (Hr : (readable st <= length (recv_buf st))%nat) by (unfold readable; lia).
  assert (Hl : length (write_at 0 (content st) (recv_buf st)) = length (recv_buf st)) by (apply length_write_at; lia).
  split; [|done]. split_and!.
  - split; cbn [recv_buf read_pos write_pos]; lia.
  - rewrite content_of, Nat.sub_0_r, <- Hlen. unfold slice, write_at. rewrite take_0. cbn [app]. by rewrite drop_0, take_app_length.
  - apply Nat.sub_0_r.
Qed.
Lemma grow_same n st : buf_ok st → (length (recv_buf st) <= n)%nat →
  same_bytes st (mkClient (resize n (recv_buf st)) (read_pos st) (write_pos st)) ∧
  length (resize n (recv_buf st)) = n.
Proof.
  intros [] Hn. rewrite resize_grow by done.
  assert (Hl : length (recv_buf st ++ replicate (n - length (recv_buf st)) 0) = n) by (rewrite length_app, length_replicate; lia).
  split; [|done]. split_and!.
  - split; cbn [recv_buf read_pos write_pos]; rewrite ?Hl; lia.
  - unfold content, readable. cbn [recv_buf read_pos write_pos]. apply slice_prefix. lia.
  - done.
Qed.
Lemma ensure_capacity_same n st : buf_ok st → same_bytes st (ensure_capacity n st).
Proof.
  intros Hok. unfold ensure_capacity. case_match; [|by apply same_bytes_refl].
  destruct (compact_same st Hok) as [Hc Hl]. case_match eqn:E; [|done].
  apply Nat.ltb_lt in E. etransitivity; [exact Hc|]. apply grow_same; [apply Hc|lia].
Qed.
Lemma make_room_same st : buf_ok st → same_bytes st (make_room st) ∧ (0 < writable (make_room st))%nat.
Proof.
  intros Hok. unfold make_room. destruct (Nat.eqb_spec (writable st) 0) as [E|E]; [|by split; [apply same_bytes_refl|lia]].
  destruct (compact_same st Hok) as [Hc Hl]. destruct (Nat.eqb_spec (writable (compact st)) 0) as [E'|E']; [|by split; [|lia]].
  destruct Hc as [Hok' Hc]. destruct (grow_same (2 * length (recv_buf (compact st))) (compact st) Hok') as [Hg Hlg]; [lia|].
  split; [etransitivity; [split; [exact Hok'|exact Hc]|exact Hg]|]. unfold writable. cbn [recv_buf write_pos]. rewrite Hlg.
  destruct Hok'. lia.
Qed.
Lemma received_content bs st : buf_ok st → (length bs <= writable st)%nat →
  buf_ok (received bs st) ∧ content (received bs st) = content st ++ bs.
Proof.
  intros [] Hb. unfold writable in Hb. assert (Hl : length (write_at (write_pos st) bs (recv_buf st)) = length (recv_buf st)) by (apply length_write_at; lia).
  split; [split; cbn [received recv_buf read_pos write_pos]; rewrite ?Hl; lia|].
  unfold content, readable, received. cbn [recv_buf read_pos write_pos]. unfold slice, write_at.
  rewrite drop_app_le by (rewrite length_take; lia). rewrite skipn_firstn_comm.
  assert (Hlen : length (take (write_pos st - read_pos st) (drop (read_pos st) (recv_buf st))) = (write_pos st - read_pos st)%nat)
    by (rewrite length_take, length_drop; lia).
  rewrite app_assoc, take_app_le by (rewrite length_app, Hlen; lia). apply take_ge. rewrite length_app, Hlen. lia.
Qed.

Lemma recv_loop_content grants socket st : buf_ok st →
  let '(st', rest) := recv_loop grants socket st in
  buf_ok st' ∧ content st' ++ rest = content st ++ socket ∧ ∃ n, rest = drop n socket.
Proof.
  revert socket st. induction grants as [|g grants IH]; intros socket st Hok; cbn [recv_loop];
    destruct (make_room_same st Hok) as [(Hok' & Hc & _) Hw]; [split_and!; [done|by rewrite Hc|by exists 0%nat]|].
  destruct socket as [|b socket]; [split_and!; [done|by rewrite Hc|by exists 0%nat]|].
  set (n := Nat.min (S g) (writable (make_room st))).
  destruct (received_content (take n (b :: socket)) (make_room st) Hok') as [Hok2 Hc2]; [rewrite length_take; lia|].
  specialize (IH (drop n (b :: socket)) _ Hok2). destruct (recv_loop _ _ _) as [st' rest]. destruct IH as (H1 & H2 & m & ->).
  split_and!; [done| |exists (n + m)%nat; by rewrite drop_drop].
  rewrite H2, Hc2, Hc, <- app_assoc. by rewrite take_drop.
Qed.

(** ** Frames *)

Definition frame (m : list Z) : list Z := frame_header m ++ m.
Definition frames (ms : list (list Z)) : list Z := concat (frame <$> ms).
Definition sendable (m : list Z) : Prop := Forall is_byte m ∧ Z.of_nat (length m) <= kMaxMessageSize.
(** No complete frame, and no header that is refused. *)
Definition incomplete (bs : list Z) : Prop :=
  (length bs < kHeaderSize)%nat ∨
  le_value (take kHeaderSize bs) <= kMaxMessageSize ∧ Z.of_nat (length bs) < 4 + le_value (take kHeaderSize bs).

Lemma le_bytes_value bs : Forall is_byte bs → le_bytes (length bs) (le_value bs) = bs.
Proof.
  induction 1 as [|b bs Hb _ IH]; [done|]. cbn [length le_bytes le_value]. unfold is_byte in Hb.
  rewrite (Z.mul_comm 256), Z.mod_add, Z.mod_small, Z.div_add, Z.div_small, Z.add_0_l by lia. by rewrite IH.
Qed.
Lemma le_value_range bs : Forall is_byte bs → 0 <= le_value bs < 256 ^ Z.of_nat (length bs).
Proof.
  intros H. pose proof (le_value_bytes (length bs) (le_value bs)) as He. rewrite le_bytes_value in He by done.
  rewrite He. apply Z.mod_pos_bound. lia.
Qed.
Lemma frames_cons m ms : frames (m :: ms) = frame m ++ frames ms.
Proof. done. Qed.
Lemma frames_app ms ms' : frames (ms ++ ms') = frames ms ++ frames ms'.
Proof. unfold frames. by rewrite fmap_app, concat_app. Qed.

Lemma header_length m : length (frame_header m) = kHeaderSize.
Proof. apply length_le_bytes. Qed.
Lemma header_value m : sendable m → le_value (frame_header m) = Z.of_nat (length m).
Proof.
  intros [_ Hm]. unfold frame_header, kMaxMessageSize in *. unfold wrap_u32. rewrite Z.mod_small by lia. apply le_value_id.
  change (2 ^ (8 * Z.of_nat kHeaderSize)) with 4294967296. lia.
Qed.
Lemma length_framed m : length (frame m) = (4 + length m)%nat.
Proof. unfold frame. by rewrite length_app, header_length. Qed.
Lemma frame_bytes m : sendable m → Forall is_byte (frame m).
Proof. intros [Hm _]. apply Forall_app. split; [apply le_bytes_byte|done]. Qed.

Lemma take_header m rest : take kHeaderSize (frame m ++ rest) = frame_header m.
Proof. unfold frame. rewrite <- app_assoc. apply take_app_length', (header_length m). Qed.
Lemma frame_complete m rest : sendable m → ¬ incomplete (frame m ++ rest).
Proof.
  intros Hm. unfold incomplete. rewrite take_header, header_value by done.
  rewrite length_app, length_framed. unfold kHeaderSize. lia.
Qed.

(** Bytes that start with a complete frame. *)
Lemma frame_split bs : Forall is_byte bs → (kHeaderSize <= length bs)%nat →
  let len := le_value (take kHeaderSize bs) in
  len <= kMaxMessageSize → 4 + len <= Z.of_nat (length bs) →
  sendable (slice kHeaderSize (Z.to_nat len) bs) ∧
  bs = frame (slice kHeaderSize (Z.to_nat len) bs) ++ drop (kHeaderSize + Z.to_nat len) bs.
Proof.
  intros Hb Hlen len Hmax Hl.
  assert (Hh : Forall is_byte (take kHeaderSize bs)) by by apply Forall_take.
  assert (Ht : length (take kHeaderSize bs) = kHeaderSize) by (rewrite length_take; lia).
  pose proof (le_value_range _ Hh) as Hr. fold len in Hr. rewrite Ht in Hr. change (256 ^ Z.of_nat kHeaderSize) with 4294967296 in Hr.
  assert (Hs : length (slice kHeaderSize (Z.to_nat len) bs) = Z.to_nat len)
    by (unfold slice; rewrite length_take, length_drop; unfold kHeaderSize in *; lia).
  split; [split; [apply Forall_take, Forall_drop, Hb|lia]|].
  unfold frame, frame_header. rewrite Hs, Z2Nat.id by lia. unfold wrap_u32. rewrite Z.mod_small by lia.
  pose proof (le_bytes_value _ Hh) as He. fold len in He. rewrite Ht in He. rewrite He, <- app_assoc. unfold slice.
  by rewrite <- drop_drop, take_drop, take_drop.
Qed.

(** Two ways to read frames from the same bytes agree. *)
Lemma frames_unique ms msgs rest more : Forall sendable ms → Forall sendable msgs → incomplete rest →
  frames ms ++ rest ++ more = frames msgs → ∃ k, ms = take k msgs ∧ rest ++ more = frames (drop k msgs).
Proof.
  intros Hms. revert msgs. induction Hms as [|m ms Hm _ IH]; intros msgs Hmsgs Hrest Heq; [by exists 0%nat|].
  destruct Hmsgs as [|m' msgs Hm' Hmsgs].
  { apply (f_equal length) in Heq. rewrite frames_cons, !length_app, length_framed in Heq. cbn in Heq. lia. }
  rewrite !frames_cons, <- app_assoc in Heq.
  assert (Hhead : frame_header m = frame_header m') by (rewrite <- (take_header m (frames ms ++ rest ++ more)), Heq; apply take_header).
  assert (Hl : length m = length m') by (apply Nat2Z.inj; by rewrite <- !header_value, Hhead).
  apply app_inj_1 in Heq as [Hf Heq]; [|by rewrite !length_framed, Hl]. apply app_inj_1 in Hf as [_ ->]; [|by rewrite !header_length].
  destruct (IH msgs Hmsgs Hrest Heq) as (k & -> & Hk). by exists (S k).
Qed.
Lemma frames_all msgs : Forall sendable msgs → incomplete (frames msgs) → msgs = [].
Proof. intros H Hi. destruct H as [|m msgs Hm _]; [done|]. by apply frame_complete in Hi. Qed.

Lemma content_advance n st : (n <= readable st)%nat → content (advance_read n st) = drop n (content st).
Proof.
  intros Hn. unfold content, slice, readable in *. cbn [advance_read recv_buf read_pos write_pos].
  rewrite skipn_firstn_comm, drop_drop. f_equal. lia.
Qed.
Lemma slice_content p n st : (p + n <= readable st)%nat → slice (read_pos st + p) n (recv_buf st) = slice p n (content st).
Proof.
  intros Hn. unfold content, slice. rewrite skipn_firstn_comm, take_take, drop_drop. f_equal. lia.
Qed.

Lemma frame_loop_frames fuel : ∀ st, buf_ok st → Forall is_byte (content st) → (readable st <= fuel)%nat →
  let '(ms, r) := frame_loop fuel st in
  Forall sendable ms ∧
  match r with
  | Kept st' => buf_ok st' ∧ incomplete (content st') ∧ content st = frames ms ++ content st'
  | TooLong => ∃ rest, content st = frames ms ++ rest ∧ (kHeaderSize <= length rest)%nat ∧ kMaxMessageSize < le_value (take kHeaderSize rest)
  | OutOfFuel => False
  end.
Proof.
  induction fuel as [|fuel IH]; intros st Hok Hb Hf; cbn [frame_loop]; pose proof (length_content st Hok) as Hlen.
  { destruct (Nat.ltb_spec (readable st) kHeaderSize) as [Hs|Hs]; [|unfold kHeaderSize in Hs; lia].
    destruct (compact_same st Hok) as [(Hok' & Hc & _) _]. split_and!; [done..|by left; rewrite Hc, Hlen|by rewrite Hc]. }
  destruct (Nat.ltb_spec (readable st) kHeaderSize) as [Hs|Hs].
  { destruct (compact_same st Hok) as [(Hok' & Hc & _) _]. split_and!; [done..|by left; rewrite Hc, Hlen|by rewrite Hc]. }
  assert (Hhead : slice (read_pos st) kHeaderSize (recv_buf st) = take kHeaderSize (content st)).
  { rewrite <- (Nat.add_0_r (read_pos st)), slice_content by done. unfold slice. by rewrite drop_0. }
  rewrite Hhead. set (len := le_value (take kHeaderSize (content st))).
  assert (Hpos : 0 <= len) by (apply le_value_range; by apply Forall_take).
  case_if as Hmax; zbool; [split; [done|]; exists (content st); split_and!; [done|lia|done]|].
  destruct (Nat.ltb_spec (readable st) (kHeaderSize + Z.to_nat len)) as [Hl|Hl].
  { pose proof (ensure_capacity_same (kHeaderSize + Z.to_nat len) st Hok) as (Hok1 & Hc1 & _).
    destruct (compact_same _ Hok1) as [(Hok2 & Hc2 & _) _]. rewrite Hc1 in Hc2.
    split_and!; [done..| |by rewrite Hc2]. rewrite Hc2. right. rewrite Hlen. unfold kHeaderSize in *. lia. }
  destruct (frame_split (content st) Hb) as [Hsend Hsplit]; [lia..|unfold kHeaderSize in *; lia|]. fold len in Hsend, Hsplit.
  rewrite slice_content by lia.
  specialize (IH (advance_read (kHeaderSize + Z.to_nat len) st)).
  destruct (frame_loop fuel _) as [ms r]. destruct IH as [Hms Hr].
  - destruct Hok. split; cbn [advance_read recv_buf read_pos write_pos]; unfold readable in *; lia.
  - rewrite content_advance by lia. by apply Forall_drop.
  - unfold readable. cbn [advance_read read_pos write_pos]. unfold readable, kHeaderSize in *. lia.
  - rewrite content_advance in Hr by lia. split; [by constructor|].
    destruct r as [st'| |]; [|destruct Hr as (rest & Hr & Hrest)|done].
    + destruct Hr as (Hok' & Hi & Hr). split_and!; [done..|]. by rewrite frames_cons, <- app_assoc, <- Hr.
    + exists rest. split; [|done]. by rewrite frames_cons, <- app_assoc, <- Hr.
Qed.

(** ** The server on a network *)

(** All that has come to a socket, and how much of it has been received. *)
Record socket : Type := mkSocket { arrived : list Z; taken : nat }.
Definition pending (sk : socket) : list Z := drop sk.(taken) sk.(arrived).
Definition left_over (rest : list Z) (sk : socket) : socket := mkSocket sk.(arrived) (length sk.(arrived) - length rest).
Record world : Type := mkWorld { server : TcpServer; sockets : gmap Z socket }.

(** The kernel gives a connection a number that is not in use.  Bytes may have
    come before the connection is accepted. *)
Inductive step : world → world → Prop :=
  | accept_step fd registered early s socks :
      s.(clients) !! fd = None → Forall is_byte early →
      step (mkWorld s socks) (mkWorld (accept_connection fd registered s) (<[fd := mkSocket early 0]> socks))
  | arrive_step fd bs sk s socks :
      Forall is_byte bs → socks !! fd = Some sk →
      step (mkWorld s socks) (mkWorld s (<[fd := mkSocket (sk.(arrived) ++ bs) sk.(taken)]> socks))
  | event_step fd readable closed grants grants' sk s s' rest socks :
      socks !! fd = Some sk → client_event fd readable closed grants grants' (pending sk) s = (s', rest) →
      step (mkWorld s socks) (mkWorld s' (<[fd := left_over rest sk]> socks))
  | disconnect_step fd s socks : step (mkWorld s socks) (mkWorld (disconnect fd s) socks)
  | shutdown_step walk s socks :
      (∀ m, walk m ≡ₚ (map_to_list m).*1) → step (mkWorld s socks) (mkWorld (shutdown walk s) socks).
Definition reachable (w : world) : Prop := rtc step (mkWorld new_server ∅) w.

(** The messages of a connection since it was accepted. *)
Definition hear (fd : Z) (heard : list (list Z)) (c : callback) : list (list Z) :=
  match c with
  | on_connect fd' => if decide (fd' = fd) then [] else heard
  | on_message fd' m => if decide (fd' = fd) then heard ++ [m] else heard
  | on_disconnect _ => heard
  end.
Definition conversation (fd : Z) (s : TcpServer) : list (list Z) := fold_left (hear fd) s.(calls) [].

Lemma conversation_call fd cs s : conversation fd (call cs s) = fold_left (hear fd) cs (conversation fd s).
Proof. unfold conversation. cbn [call calls]. apply fold_left_app. Qed.
Lemma hear_messages fd ms heard : fold_left (hear fd) (on_message fd <$> ms) heard = heard ++ ms.
Proof.
  revert heard. induction ms as [|m ms IH]; intros heard; [by rewrite app_nil_r|]. rewrite fmap_cons. cbn [fold_left hear].
  rewrite decide_True, IH by done. by rewrite <- app_assoc.
Qed.
Lemma hear_others fd fd' ms heard : fd' ≠ fd → fold_left (hear fd) (on_message fd' <$> ms) heard = heard.
Proof. intros Hne. induction ms as [|m ms IH]; [done|]. rewrite fmap_cons. cbn [fold_left hear]. by rewrite decide_False. Qed.

(** What a client's buffer and messages are to what was received. *)
Record follows (sk : socket) (ms : list (list Z)) (st : ClientState) : Prop := {
  fo_taken : (sk.(taken) <= length sk.(arrived))%nat;
  fo_bytes : Forall is_byte sk.(arrived);
  fo_buf : buf_ok st;
  fo_incomplete : incomplete (content st);
  fo_sendable : Forall sendable ms;
  fo_stream : take sk.(taken) sk.(arrived) = frames ms ++ content st
}.
Definition inv (w : world) : Prop :=
  ∀ fd st, w.(server).(clients) !! fd = Some st →
    ∃ sk, w.(sockets) !! fd = Some sk ∧ follows sk (conversation fd w.(server)) st.

Lemma left_over_pending rest n sk : rest = drop n (pending sk) →
  pending (left_over rest sk) = rest ∧ (taken (left_over rest sk) <= length (arrived sk))%nat ∧
  take (taken (left_over rest sk)) (arrived sk) ++ rest = arrived sk.
Proof.
  intros ->. assert (Hp : pending (left_over (drop n (pending sk)) sk) = drop n (pending sk)).
  { unfold pending, left_over. cbn [taken arrived]. rewrite drop_drop, length_drop.
    destruct (decide (taken sk + n <= length (arrived sk))%nat); [f_equal; lia|].
    rewrite (drop_ge (arrived sk) (taken sk + n)) by lia. rewrite drop_ge; [done|lia]. }
  split_and!; [exact Hp|cbn; lia|]. rewrite <- Hp at 2. apply take_drop.
Qed.
Lemma follows_stream sk ms st : follows sk ms st → arrived sk = frames ms ++ content st ++ pending sk.
Proof. intros []. rewrite <- (take_drop (taken sk) (arrived sk)) at 1. by rewrite fo_stream0, <- app_assoc. Qed.

(** Sockets, clients and messages of the other connections are as before. *)
Definition elsewhere (fd : Z) (s s' : TcpServer) : Prop :=
  ∀ fd', fd' ≠ fd → s'.(clients) !! fd' = s.(clients) !! fd' ∧ conversation fd' s' = conversation fd' s.
#[global] Instance elsewhere_trans fd : Transitive (elsewhere fd).
Proof. intros s1 s2 s3 H1 H2 fd' Hne. destruct (H1 fd' Hne), (H2 fd' Hne). split; congruence. Qed.
Lemma remove_elsewhere fd s : elsewhere fd s (remove_client fd s).
Proof.
  intros fd' Hne. split; [by apply lookup_delete_ne|]. unfold remove_client.
  change (conversation fd' (call [on_disconnect fd] s) = conversation fd' s). by rewrite conversation_call.
Qed.
Lemma removed_gone fd s : clients (remove_client fd s) !! fd = None.
Proof. apply lookup_delete_eq. Qed.

(** A read keeps a client unless a header announces too much. *)
Definition refused (sk : socket) : Prop :=
  ∃ ms rest, arrived sk = frames ms ++ rest ∧ Forall sendable ms ∧ (kHeaderSize <= length rest)%nat ∧
    kMaxMessageSize < le_value (take kHeaderSize rest).

Lemma handle_read_follows fd grants sk s st : clients s !! fd = Some st → follows sk (conversation fd s) st →
  let '(s', rest) := handle_read fd grants (pending sk) s in
  elsewhere fd s s' ∧ (∃ n, rest = drop n (pending sk)) ∧
  match clients s' !! fd with
  | Some st' => follows (left_over rest sk) (conversation fd s') st'
  | None => refused sk
  end.
Proof.
  intros Hst Hf. unfold handle_read. rewrite Hst. pose proof (follows_stream _ _ _ Hf) as Hstream. destruct Hf.
  pose proof (recv_loop_content grants (pending sk) st fo_buf0) as Hr. destruct (recv_loop _ _ _) as [st1 rest].
  destruct Hr as (Hok1 & Hc1 & n & Hn). rewrite <- Hc1 in Hstream.
  assert (Hb1 : Forall is_byte (content st1)) by (rewrite Hstream in fo_bytes0; by apply Forall_app in fo_bytes0 as [_ [? _]%Forall_app]).
  pose proof (frame_loop_frames (readable st1) st1 Hok1 Hb1 ltac:(done)) as Hl. destruct (frame_loop _ _) as [ms r].
  destruct Hl as [Hms Hl].
  assert (He : elsewhere fd s (call (on_message fd <$> ms) s)) by (intros fd' Hne; split; [done|]; by rewrite conversation_call, hear_others).
  destruct r as [st2| |]; [|destruct Hl as (bad & Hbad & Hlong)|done].
  - destruct Hl as (Hok2 & Hi & Hc2). split_and!; [|by exists n|].
    + intros fd' Hne. destruct (He fd' Hne) as [H1 H2]. split; [|exact H2]. cbn [set_clients clients]. by rewrite lookup_insert_ne.
    + cbn [set_clients clients]. rewrite lookup_insert_eq. destruct (left_over_pending rest n sk Hn) as (Hp & Ht & Htd).
      change (conversation fd (set_clients _ ?x)) with (conversation fd x). rewrite conversation_call, hear_messages.
      split; [done..|by apply Forall_app|]. apply (app_inv_tail rest). cbn [left_over arrived]. rewrite Htd, Hstream, Hc2, frames_app, <- !app_assoc. done.
  - split_and!; [etransitivity; [exact He|apply remove_elsewhere]|by exists n|].
    rewrite removed_gone. exists (conversation fd s ++ ms), (bad ++ rest). destruct Hlong as [H4 Hlong]. split_and!.
    + by rewrite Hstream, Hbad, frames_app, <- !app_assoc.
    + by apply Forall_app.
    + rewrite length_app. lia.
    + by rewrite take_app_le.
Qed.

Lemma client_event_follows fd readable closed grants grants' sk s st :
  clients s !! fd = Some st → follows sk (conversation fd s) st →
  let '(s', rest) := client_event fd readable closed grants grants' (pending sk) s in
  elsewhere fd s s' ∧ (∃ n, rest = drop n (pending sk)) ∧
  match clients s' !! fd with
  | Some st' => follows (left_over rest sk) (conversation fd s') st'
  | None => closed = true ∨ refused sk
  end.
Proof.
  intros Hst Hf. unfold client_event.
  assert (H1 : let '(s1, rest1) := if readable then handle_read fd grants (pending sk) s else (s, pending sk) in
    elsewhere fd s s1 ∧ (∃ n, rest1 = drop n (pending sk)) ∧
    match clients s1 !! fd with Some st' => follows (left_over rest1 sk) (conversation fd s1) st' | None => refused sk end).
  { destruct readable; [by eapply handle_read_follows|]. split_and!; [done|by exists 0%nat|]. rewrite Hst.
    assert (Hl : left_over (pending sk) sk = sk).
    { destruct Hf. unfold left_over, pending. rewrite length_drop. destruct sk as [a t]. cbn in *. f_equal. lia. }
    by rewrite Hl. }
  destruct (if readable then _ else _) as [s1 rest1]. destruct H1 as (He1 & (n1 & Hn1) & Hm1).
  destruct closed; [|split_and!; [done|by exists n1|]; case_match; [done|by right]].
  unfold drain_and_remove_client. destruct (clients s1 !! fd) as [st1|] eqn:E1.
  - assert (Hp : pending (left_over rest1 sk) = rest1) by by destruct (left_over_pending rest1 n1 sk Hn1).
    pose proof (handle_read_follows fd grants' _ s1 st1 E1 Hm1) as H2. rewrite Hp in H2.
    destruct (handle_read fd grants' rest1 s1) as [s2 rest2]. destruct H2 as (He2 & (n2 & Hn2) & Hm2).
    destruct (clients s2 !! fd) eqn:E2.
    + rewrite removed_gone. split_and!; [|exists (n1 + n2)%nat; by rewrite Hn2, Hn1, drop_drop|by left].
      etransitivity; [exact He1|]. etransitivity; [exact He2|apply remove_elsewhere].
    + rewrite E2. split_and!; [by etransitivity|exists (n1 + n2)%nat; by rewrite Hn2, Hn1, drop_drop|by left].
  - unfold handle_read. rewrite E1, E1. split_and!; [done|by exists n1|rewrite E1; by left].
Qed.
Lemma absent_event fd readable closed grants grants' bs s : clients s !! fd = None →
  client_event fd readable closed grants grants' bs s = (s, bs).
Proof.
  intros Hn. unfold client_event, drain_and_remove_client, handle_read.
  destruct readable, closed; cbn; rewrite ?Hn; try done; by rewrite Hn.
Qed.

(** Fewer clients, the same messages. *)
Definition fewer (s s' : TcpServer) : Prop := clients s' ⊆ clients s ∧ ∀ fd, conversation fd s' = conversation fd s.
Lemma remove_fewer fd s : fewer s (remove_client fd s).
Proof.
  split; [apply delete_subseteq|]. intros fd'. unfold remove_client.
  change (conversation fd' (call [on_disconnect fd] s) = conversation fd' s). by rewrite conversation_call.
Qed.
Lemma remove_all_fewer fds s : fewer s (fold_left (λ s fd, remove_client fd s) fds s).
Proof.
  revert s. induction fds as [|fd fds IH]; intros s; [done|]. cbn [fold_left].
  destruct (IH (remove_client fd s)) as [H1 H2], (remove_fewer fd s) as [H3 H4].
  split; [by etransitivity|]. intros fd'. by rewrite H2.
Qed.
Lemma fewer_inv s s' socks : fewer s s' → inv (mkWorld s socks) → inv (mkWorld s' socks).
Proof. intros [Hc Hm] Hi fd st Hst. cbn in *. rewrite Hm. apply Hi. cbn. eapply lookup_weaken; [exact Hst|exact Hc]. Qed.

Lemma new_client_empty : content new_client = [].
Proof. unfold new_client. rewrite content_of. done. Qed.
Lemma new_client_follows early : Forall is_byte early → follows (mkSocket early 0) [] new_client.
Proof.
  intros Hb. split; cbn [taken arrived]; [lia|done| |left; rewrite new_client_empty; unfold kHeaderSize; cbn; lia|done|by rewrite new_client_empty].
  split; cbn [new_client recv_buf read_pos write_pos]; rewrite ?length_replicate; unfold kInitialBufSize; lia.
Qed.
Lemma conversation_connect fd fd' s : conversation fd' (call [on_connect fd] s) = if decide (fd = fd') then [] else conversation fd' s.
Proof. by rewrite conversation_call. Qed.

Lemma step_inv w w' : step w w' → inv w → inv w'.
Proof.
  intros Hs Hi. destruct Hs as [fd registered early s socks Hn Hb|fd bs sk s socks Hb Hsk|fd r c g g' sk s s' rest socks Hsk He|fd s socks|walk s socks Hw].
  - intros fd' st Hst. cbn [server sockets] in *. unfold accept_connection in *. rewrite Hn in *.
    destruct (decide (fd' = fd)) as [->|Hne].
    + rewrite lookup_insert_eq. exists (mkSocket early 0). split; [done|]. destruct registered; [|by rewrite Hn in Hst].
      cbn [call set_clients clients] in Hst. rewrite lookup_insert_eq in Hst. injection Hst as <-.
      rewrite conversation_connect, decide_True by done. by apply new_client_follows.
    + rewrite lookup_insert_ne by done. destruct registered; [|by apply Hi].
      cbn [call set_clients clients] in Hst. rewrite lookup_insert_ne in Hst by done.
      rewrite conversation_connect, decide_False by done. by apply Hi.
  - intros fd' st Hst. cbn [server sockets] in *. destruct (Hi fd' st Hst) as (sk' & Hsk' & Hf). cbn in Hsk', Hf.
    destruct (decide (fd' = fd)) as [->|Hne]; [|by exists sk'; rewrite lookup_insert_ne].
    rewrite lookup_insert_eq. simplify_eq. eexists. split; [done|]. destruct Hf.
    split; cbn [arrived taken]; [rewrite length_app; lia|by apply Forall_app|done..|by rewrite take_app_le].
  - intros fd' st Hst. cbn [server sockets] in *. destruct (clients s !! fd) as [st0|] eqn:E0.
    + destruct (Hi fd st0 E0) as (sk' & Hsk' & Hf). cbn in Hsk', Hf. simplify_eq.
      pose proof (client_event_follows fd r c g g' _ s st0 E0 Hf) as Hev. rewrite He in Hev. destruct Hev as (Helse & _ & Hm).
      destruct (decide (fd' = fd)) as [->|Hne].
      * rewrite lookup_insert_eq. rewrite Hst in Hm. by eexists.
      * rewrite lookup_insert_ne by done. destruct (Helse fd' Hne) as [H1 H2]. rewrite H2. apply Hi. cbn. by rewrite <- H1.
    + rewrite absent_event in He by done. injection He as <- <-.
      destruct (decide (fd' = fd)) as [->|Hne]; [by rewrite E0 in Hst|]. rewrite lookup_insert_ne by done. by apply Hi.
  - unfold disconnect. case_match; [|done]. eapply fewer_inv; [apply remove_fewer|done].
  - unfold shutdown. case_match; [|done]. eapply fewer_inv; [|exact Hi].
    destruct (remove_all_fewer (walk (clients s)) (mkServer (clients s) false (calls s))) as [H1 H2]. split; [exact H1|exact H2].
Qed.
Lemma reachable_inv w : reachable w → inv w.
Proof.
  assert (H0 : inv (mkWorld new_server ∅)) by (intros fd st Hst; cbn in Hst; by rewrite lookup_empty in Hst).
  unfold reachable. intros H. revert H0. induction H as [|w1 w2 w3 H12 _ IH]; [done|]. intros H0. apply IH. by eapply step_inv.
Qed.

Lemma recv_loop_all grants : ∀ socket st, buf_ok st → (length socket <= length grants)%nat → (recv_loop grants socket st).2 = [].
Proof.
  induction grants as [|g grants IH]; intros socket st Hok Hl; cbn [recv_loop].
  - destruct socket; [done|cbn in Hl; lia].
  - destruct socket as [|b socket]; [done|]. destruct (make_room_same st Hok) as [(Hok' & _) Hw].
    apply IH; [apply received_content; [done|rewrite length_take; lia]|]. rewrite length_drop. cbn [length] in *. lia.
Qed.
Lemma handle_read_all fd grants socket s st : clients s !! fd = Some st → buf_ok st → (length socket <= length grants)%nat →
  (handle_read fd grants socket s).2 = [].
Proof.
  intros Hst Hok Hl. unfold handle_read. rewrite Hst. pose proof (recv_loop_all grants socket st Hok Hl) as Hr.
  destruct (recv_loop _ _ _) as [st1 rest]. cbn in Hr. subst. destruct (frame_loop _ _) as [ms []]; done.
Qed.

(** A stream of frames of the allowed size is not refused, and when all of it is
    in, all its messages are. *)
Lemma well_framed_accepted sk msgs : arrived sk = frames msgs → Forall sendable msgs → ¬ refused sk.
Proof.
  intros Ha Hs (ms & rest & Hr & Hms & Hlen & Hbig). rewrite Ha in Hr. clear Ha sk. revert msgs Hs Hr.
  induction Hms as [|m ms Hm _ IH]; intros msgs Hs Hr.
  - destruct Hs as [|m msgs Hm _]; [destruct rest; [unfold kHeaderSize in Hlen; cbn in Hlen; lia|done]|].
    change (frames [] ++ rest) with rest in Hr. rewrite <- Hr, frames_cons, take_header, header_value in Hbig by done.
    destruct Hm. lia.
  - destruct Hs as [|m' msgs Hm' Hs].
    { apply (f_equal length) in Hr. rewrite frames_cons, !length_app, length_framed in Hr. cbn in Hr. lia. }
    rewrite !frames_cons, <- app_assoc in Hr.
    assert (Hhead : frame_header m' = frame_header m) by (rewrite <- (take_header m' (frames msgs)), Hr; apply take_header).
    assert (Hl : length m' = length m) by (apply Nat2Z.inj; by rewrite <- !header_value, Hhead).
    apply app_inj_1 in Hr as [_ Hr]; [|by rewrite !length_framed, Hl]. by eapply IH.
Qed.
Lemma follows_messages sk ms st msgs : follows sk ms st → arrived sk = frames msgs → Forall sendable msgs →
  (∃ k, ms = take k msgs) ∧ (pending sk = [] → ms = msgs).
Proof.
  intros Hf Ha Hs. pose proof (follows_stream _ _ _ Hf) as Hstream. rewrite Ha in Hstream. destruct Hf.
  destruct (frames_unique ms msgs (content st) (pending sk)) as (k & Hk & Hrest); [done..|by symmetry|].
  split; [by exists k|]. intros Hp. rewrite Hp, app_nil_r in Hrest.
  assert (Hd : drop k msgs = []) by (apply frames_all; [by apply Forall_drop|by rewrite <- Hrest]).
  rewrite Hk. rewrite <- (take_drop k msgs) at 2. by rewrite Hd, app_nil_r.
Qed.

(** C30: The server hears what was framed.  In every state the server and its
    network can come to, whatever connections are made and lost, in whatever
    pieces the bytes arrive and are received: if a connection has been sent a
    sequence of framed messages of at most 16 MB, its callback has had a prefix of
    exactly these messages, in order; all of them if everything that arrived was
    received; and its positions are within its buffer.  Reading does not lose the
    connection, and a read that is given everything delivers everything. *)
Theorem tcp_messages_delivered w fd st sk msgs :
  reachable w → w.(server).(clients) !! fd = Some st → w.(sockets) !! fd = Some sk →
  sk.(arrived) = frames msgs → Forall sendable msgs →
  (∃ k, conversation fd w.(server) = take k msgs) ∧
  (pending sk = [] → conversation fd w.(server) = msgs) ∧
  (st.(read_pos) <= st.(write_pos) <= length st.(recv_buf))%nat ∧
  ∀ grants, let s' := (handle_read fd grants (pending sk) w.(server)).1 in
    is_Some (s'.(clients) !! fd) ∧ ((length (pending sk) <= length grants)%nat → conversation fd s' = msgs).
Proof.
  intros Hw Hst Hsk Ha Hs. destruct (reachable_inv w Hw fd st Hst) as (sk' & Hsk' & Hf). simplify_eq.
  destruct (follows_messages _ _ _ msgs Hf Ha Hs) as [Hk Hall]. pose proof (fo_buf _ _ _ Hf) as Hok.
  split_and!; [done..|apply Hok|apply Hok|]. intros grants. cbv zeta.
  pose proof (handle_read_follows fd grants sk _ st Hst Hf) as Hr. pose proof (handle_read_all fd grants (pending sk) _ st Hst Hok) as Hrest.
  destruct (handle_read _ _ _ _) as [s' rest]. destruct Hr as (_ & [n Hn] & Hm). cbn [fst snd] in *.
  destruct (clients s' !! fd) as [st'|]; [|by apply (well_framed_accepted sk msgs) in Hm]. split; [done|]. intros Hg.
  destruct (follows_messages _ _ _ msgs Hm Ha Hs) as [_ Hall']. apply Hall'.
  destruct (left_over_pending rest n sk Hn) as [-> _]. by apply Hrest.
Qed.

(** ** What is sent *)

Lemma send_bytes_all grants : ∀ data, let '(sent, ok) := send_bytes grants data in
  (∃ k, sent = take k data) ∧ (ok = true → sent = data).
Proof.
  induction grants as [|g grants IH]; intros [|b data]; try (split; [by exists 0%nat|done]).
  cbn [send_bytes]. specialize (IH (drop (S g) (b :: data))). destruct (send_bytes grants _) as [sent ok].
  destruct IH as [[k ->] Hok]. split.
  - exists (S g + k)%nat. by rewrite <- take_take_drop.
  - intros H. rewrite (Hok H). apply take_drop.
Qed.
Lemma sent_frame fd hg g data s out : send_message fd hg g data s = (out, true) → out = frame data.
Proof.
  unfold send_message. case_match; [|done]. pose proof (send_bytes_all hg (frame_header data)) as Hh.
  destruct (send_bytes hg _) as [header [|]]; [|done]. pose proof (send_bytes_all g data) as Hd.
  destruct (send_bytes g data) as [sent ok]. intros [= <- ->]. unfold frame.
  destruct Hh as [_ Hh], Hd as [_ Hd]. by rewrite Hh, Hd.
Qed.
Lemma send_all_sent tries : ∀ data sent, send_all tries data = Some (sent, true) → sent = data.
Proof.
  induction tries as [|[g|b|] tries IH]; intros [|c data] sent; cbn [send_all]; try (by intros [= <-]); try done.
  - destruct (send_all tries _) as [[sent' ok]|] eqn:E; cbn [mbind option_bind]; [|done]. intros [= <- ->].
    rewrite (IH _ _ E). exact (take_drop (S g) (c :: data)).
  - apply IH.
Qed.

(** Calls of [::recv] that do not fail, enough for [n] bytes. *)
Definition gives_bytes (a : attempt) : Prop := match a with Some_bytes _ => True | _ => False end.
#[global] Instance gives_bytes_dec a : Decision (gives_bytes a).
Proof. destruct a; cbn; apply _. Defined.
Definition keeps_on (a : attempt) : Prop := match a with Some_bytes _ | Would_block true => True | _ => False end.
#[global] Instance keeps_on_dec a : Decision (keeps_on a).
Proof. destruct a as [|[]|]; cbn; apply _. Defined.
Definition suffices (n : nat) (tries : list attempt) : Prop :=
  Forall keeps_on tries ∧ (n <= length (filter gives_bytes tries))%nat.

Lemma recv_all_takes tries : ∀ len more stream, (len <= length stream)%nat → suffices (len + more) tries →
  ∃ tries', recv_all tries len stream = Some (Some (take len stream), tries', drop len stream) ∧ suffices more tries'.
Proof.
  induction tries as [|a tries IH]; intros [|len] more stream Hlen [Hk Hn]; cbn [recv_all]; try (by eexists; split; [done|split]).
  - cbn in Hn. lia.
  - apply Forall_cons in Hk as [Ha Hk]. rewrite filter_cons in Hn. destruct a as [g|[|]|]; cbn in Ha; [| |done..].
    + destruct stream as [|b stream]; [cbn in Hlen; lia|].
      destruct (decide (gives_bytes (Some_bytes g))) as [_|Hx]; [|by destruct Hx]. cbn [length] in Hn.
      set (n := Nat.min (S g) (Nat.min (S len) (length (b :: stream)))).
      assert (Hn1 : (1 <= n <= S len)%nat) by (cbn [n length] in *; lia).
      destruct (IH (S len - n)%nat more (drop n (b :: stream))) as (tries' & Hr & Hs); [rewrite length_drop; lia|split; [done|lia]|].
      rewrite Hr. cbn [mbind option_bind]. exists tries'. split; [|done].
      cbn [fmap option_fmap option_map]. rewrite drop_drop. replace (n + (S len - n))%nat with (S len) by lia.
      repeat f_equal. rewrite <- (take_drop n (take (S len) (b :: stream))). rewrite take_take, skipn_firstn_comm. f_equal. f_equal. lia.
    + destruct (decide (gives_bytes (Would_block true))) as [Hx|_]; [by destruct Hx|].
      destruct (IH (S len) more stream Hlen ltac:(by split)) as (tries' & Hr & Hs). by exists tries'.
Qed.

(** What the server sent in full, the client receives, however it is cut up. *)
Lemma reply_received fd hg g data s out tries rest : data ≠ [] → sendable data → send_message fd hg g data s = (out, true) →
  suffices (4 + length data) tries → ∃ tries', recv_message tries (out ++ rest) = Some (Some data, tries', rest).
Proof.
  intros Hne Hs ->%sent_frame Ht. unfold recv_message.
  destruct (recv_all_takes tries kHeaderSize (length data) (frame data ++ rest)) as (tries1 & -> & Ht1); [|done|].
  { rewrite length_app, length_framed. unfold kHeaderSize. lia. }
  cbn [mbind option_bind]. rewrite take_header, header_value by done.
  assert (Hd : drop kHeaderSize (frame data ++ rest) = data ++ rest)
    by (unfold frame; rewrite <- app_assoc; apply drop_app_length', (header_length data)).
  rewrite Hd. destruct data as [|b data]; [done|]. destruct Hs as [_ Hs].
  replace ((Z.of_nat (length (b :: data)) =? 0) || (Z.of_nat (length (b :: data)) >? kMaxMessageSize)) with false
    by (symmetry; apply orb_false_iff; split; [apply Z.eqb_neq; cbn [length]; lia|rewrite Z.gtb_ltb; apply Z.ltb_ge; lia]).
  rewrite Nat2Z.id. destruct (recv_all_takes tries1 (length (b :: data)) 0 ((b :: data) ++ rest)) as (tries2 & -> & _);
    [rewrite length_app; lia|by rewrite Nat.add_0_r|].
  exists tries2. by rewrite take_app_length, drop_app_length.
Qed.

(** ** Runs *)

Definition two_messages : list (list Z) := [[10; 20]; [30]].
Definition first_bytes : list Z := take 7 (frames two_messages).
Definition demo_server : TcpServer := accept_connection 5 true new_server.
Definition demo_socket : socket := mkSocket (first_bytes ++ drop 7 (frames two_messages)) 0.
Lemma demo_reachable : reachable (mkWorld demo_server (<[5 := demo_socket]> (<[5 := mkSocket first_bytes 0]> ∅))).
Proof.
  eapply rtc_l; [apply (accept_step 5 true first_bytes); [done|by apply (bool_decide_unpack _); vm_compute]|].
  apply rtc_once. apply (arrive_step 5 (drop 7 (frames two_messages)) (mkSocket first_bytes 0)); [by apply (bool_decide_unpack _); vm_compute|].
  apply lookup_insert_eq.
Qed.
Lemma demo_sendable : Forall sendable two_messages.
Proof. repeat constructor; try (by apply (bool_decide_unpack _); vm_compute); cbn; lia. Qed.
(** Received byte by byte. *)
Lemma tcp_messages_delivered_witness :
  conversation 5 (handle_read 5 (replicate 11 0%nat) (pending demo_socket) demo_server).1 = two_messages.
Proof.
  refine (proj2 (proj2 (proj2 (proj2 (tcp_messages_delivered
    (mkWorld demo_server (<[5 := demo_socket]> (<[5 := mkSocket first_bytes 0]> ∅))) 5 new_client demo_socket two_messages _ _ _ _ _)))
    (replicate 11 0%nat)) _).
  - apply demo_reachable.
  - apply lookup_insert_eq.
  - apply lookup_insert_eq.
  - by vm_compute.
  - apply demo_sendable.
  - apply Nat.leb_le. by vm_compute.
Defined.

(** The socket is full after two bytes of six: the call fails, and the bytes of
    the next message complete the first. *)
Definition full_after (n : nat) : list nat := [Nat.pred n].
Example partial_send_corrupts :
  let '(out, ok) := send_message 5 (full_after 4) (full_after 2) [1; 2; 3; 4; 5; 6] demo_server in
  let '(out', ok') := send_message 5 (full_after 4) (full_after 2) [7; 8] demo_server in
  ok = false ∧ ok' = true ∧
  (recv_message (replicate 20 (Some_bytes 1)) (out ++ out')) ≫= (λ r, r.1.1) = Some [1; 2; 2; 0; 0; 0].
Proof. vm_compute. done. Qed.
