(* ===== verification/Observer.v ===== *)
(** * The market data observer: [src/tools/exchange_observer.cc]

    Its configuration, the choice of the instrument, recovery, and the loop that
    applies a feed to the display and to the journal.  In order, the CME feed of
    an engine leaves the display showing the published book; a snapshot recovers
    it; examples show where the three feeds or a gap do not. *)

From Stdlib Require Import Ascii String.
From S2P Require Import Prelude Types Wire Sbe Mdp3Messages Fast Impact Mdp3 Mdp3Theorems Products Text Books Journal.
From S2P Require Import Display ObserverFeeds Secdef.

#[local] Open Scope Z_scope.

(** ** Configuration *)

Record ObserverConfig : Type := mkObserverConfig {
  oc_exchange : list Z; oc_group : list Z; oc_port : Z; oc_instrument : list Z; oc_journal_path : list Z;
  oc_transitions : bool; oc_secdef_group : list Z; oc_secdef_port : Z; oc_auto_discover : bool;
  oc_recovery : list Z; oc_snapshot_group : list Z; oc_snapshot_port : Z; oc_snapshot_host : list Z
}.
Definition default_observer_config : ObserverConfig :=
  mkObserverConfig [] [] 0 [] [] false (chars "239.0.31.3") 14312 false (chars "none") (chars "239.0.31.2") 14311
    (chars "127.0.0.1").

(** The options that take a value, and what is done with it. *)
Inductive valued_option : Type :=
  | OptExchange | OptGroup | OptPort | OptInstrument | OptJournal | OptSecdefGroup | OptSecdefPort
  | OptRecovery | OptSnapshotGroup | OptSnapshotPort | OptSnapshotHost.
Definition valued_options : list (list Z * valued_option) :=
  [(chars "--exchange", OptExchange); (chars "--group", OptGroup); (chars "--port", OptPort);
   (chars "--instrument", OptInstrument); (chars "--journal", OptJournal);
   (chars "--secdef-group", OptSecdefGroup); (chars "--secdef-port", OptSecdefPort);
   (chars "--recovery", OptRecovery); (chars "--snapshot-group", OptSnapshotGroup);
   (chars "--snapshot-port", OptSnapshotPort); (chars "--snapshot-host", OptSnapshotHost)].

(** [std::stoi] and the cast to [uint16_t]. *)
Definition port_number (bs : list Z) : throws Z :=
  v ← stoll bs;
  if bool_decide (in_int32 v) then inr (wrap_u16 v) else inl (IntegerOutOfRange bs).

Definition set_option (opt : valued_option) (v : list Z) (c : ObserverConfig) : throws ObserverConfig :=
  let '(mkObserverConfig exchange group port instrument journal transitions sgroup sport auto recovery ngroup nport nhost) := c in
  match opt with
  | OptExchange => inr (mkObserverConfig v group port instrument journal transitions sgroup sport auto recovery ngroup nport nhost)
  | OptGroup => inr (mkObserverConfig exchange v port instrument journal transitions sgroup sport auto recovery ngroup nport nhost)
  | OptPort => p ← port_number v;
      inr (mkObserverConfig exchange group p instrument journal transitions sgroup sport auto recovery ngroup nport nhost)
  | OptInstrument => inr (mkObserverConfig exchange group port v journal transitions sgroup sport auto recovery ngroup nport nhost)
  | OptJournal => inr (mkObserverConfig exchange group port instrument v transitions sgroup sport auto recovery ngroup nport nhost)
  | OptSecdefGroup => inr (mkObserverConfig exchange group port instrument journal transitions v sport auto recovery ngroup nport nhost)
  | OptSecdefPort => p ← port_number v;
      inr (mkObserverConfig exchange group port instrument journal transitions sgroup p auto recovery ngroup nport nhost)
  | OptRecovery => inr (mkObserverConfig exchange group port instrument journal transitions sgroup sport auto v ngroup nport nhost)
  | OptSnapshotGroup => inr (mkObserverConfig exchange group port instrument journal transitions sgroup sport auto recovery v nport nhost)
  | OptSnapshotPort => p ← port_number v;
      inr (mkObserverConfig exchange group port instrument journal transitions sgroup sport auto recovery ngroup p nhost)
  | OptSnapshotHost => inr (mkObserverConfig exchange group port instrument journal transitions sgroup sport auto recovery ngroup nport v)
  end.
Definition set_transitions (c : ObserverConfig) : ObserverConfig :=
  mkObserverConfig c.(oc_exchange) c.(oc_group) c.(oc_port) c.(oc_instrument) c.(oc_journal_path) true c.(oc_secdef_group)
    c.(oc_secdef_port) c.(oc_auto_discover) c.(oc_recovery) c.(oc_snapshot_group) c.(oc_snapshot_port) c.(oc_snapshot_host).
Definition set_auto_discover (c : ObserverConfig) : ObserverConfig :=
  mkObserverConfig c.(oc_exchange) c.(oc_group) c.(oc_port) c.(oc_instrument) c.(oc_journal_path) c.(oc_transitions)
    c.(oc_secdef_group) c.(oc_secdef_port) true c.(oc_recovery) c.(oc_snapshot_group) c.(oc_snapshot_port)
    c.(oc_snapshot_host).

Definition eqs (s : list Z) (t : string) : bool := bool_decide (s = chars t).
(** The checks after the options. *)
Definition config_valid (c : ObserverConfig) : bool :=
  if bool_decide (c.(oc_exchange) = []) || bool_decide (c.(oc_group) = []) || (c.(oc_port) =? 0) then false
  else if bool_decide (c.(oc_instrument) = []) && negb c.(oc_auto_discover) then false
  else if negb (eqs c.(oc_exchange) "cme") && negb (eqs c.(oc_exchange) "ice") && negb (eqs c.(oc_exchange) "krx") then false
  else if negb (eqs c.(oc_recovery) "none") && negb (eqs c.(oc_recovery) "snapshot") && negb (eqs c.(oc_recovery) "tcp") then false
  else if eqs c.(oc_exchange) "cme" && eqs c.(oc_recovery) "tcp" then false
  else if eqs c.(oc_exchange) "ice" && eqs c.(oc_recovery) "snapshot" then false
  else if eqs c.(oc_exchange) "krx" && eqs c.(oc_recovery) "tcp" then false
  else true.

(** The arguments behind the name of the program; [None] prints the usage. *)
Fixpoint parse_args (args : list (list Z)) (c : ObserverConfig) : throws (option ObserverConfig) :=
  match args with
  | [] => inr (if config_valid c then Some c else None)
  | arg :: args' =>
      match list_find (λ o, o.1 = arg) valued_options, args' with
      | Some (_, (_, opt)), value :: args'' => c ← set_option opt value c; parse_args args'' c
      | _, _ =>
          if bool_decide (arg = chars "--transitions") then parse_args args' (set_transitions c)
          else if bool_decide (arg = chars "--auto-discover") then parse_args args' (set_auto_discover c)
          else inr None
      end
  end.

(** ** The instrument *)

(** The identifier, cut to [int32_t]. *)
Definition resolve_cme_security_id (symbol : list Z) : Z :=
  match list_find (λ p, p.(cp_symbol) = symbol) get_cme_products with
  | Some (_, p) => wrap_s32 p.(cp_instrument_id)
  | None => -1
  end.
Definition resolve_ice_instrument_id (symbol : list Z) : Z :=
  match list_find (λ p, p.(ip_symbol) = symbol) get_ice_products with
  | Some (_, p) => wrap_s32 p.(ip_instrument_id)
  | None => -1
  end.
Definition resolve_krx_instrument_id (symbol : list Z) : Z :=
  match list_find (λ p, p.(kp_symbol) = symbol) get_krx_products with
  | Some (_, p) => wrap_s32 p.(kp_instrument_id)
  | None => -1
  end.

(** From the instruments discovered, the one asked for or the only one. *)
Definition choose_discovered (instrument : list Z) (found : instrument_map) : option (list Z * Z) :=
  match map_to_list found with
  | [] => None
  | entries =>
      if bool_decide (instrument ≠ []) then
        info ← found !! instrument; Some (instrument, wrap_s32 info.(ii_security_id))
      else match entries with
           | [(symbol, info)] => Some (symbol, wrap_s32 info.(ii_security_id))
           | _ => None
           end
  end.
(** From the tables of the exchange. *)
Definition choose_listed (c : ObserverConfig) : option (list Z * Z) :=
  let id :=
    if bool_decide (c.(oc_exchange) = chars "cme") then resolve_cme_security_id c.(oc_instrument)
    else if bool_decide (c.(oc_exchange) = chars "krx") then resolve_krx_instrument_id c.(oc_instrument)
    else resolve_ice_instrument_id c.(oc_instrument) in
  if id <? 0 then None else Some (c.(oc_instrument), id).
Definition choose_instrument (c : ObserverConfig) (found : instrument_map) : option (list Z * Z) :=
  if c.(oc_auto_discover) then choose_discovered c.(oc_instrument) found else choose_listed c.

(** ** Recovery *)

Inductive RecoveryStrategy : Type :=
  | KrxRecovery (instrument_id : Z)
  | CmeRecovery (security_id : Z)
  | IceRecovery (instrument_id : Z)
  | NullRecovery.
Definition create_recovery_strategy (c : ObserverConfig) (instrument_id : Z) : RecoveryStrategy :=
  if bool_decide (c.(oc_recovery) = chars "snapshot") then
    if bool_decide (c.(oc_exchange) = chars "krx") then KrxRecovery (wrap_u32 instrument_id)
    else CmeRecovery instrument_id
  else if bool_decide (c.(oc_recovery) = chars "tcp") then IceRecovery instrument_id
  else NullRecovery.
(** [recover], given what it receives: datagrams, or the frame of the server. *)
Definition recover (strategy : RecoveryStrategy) (heard : list (list Z)) (ds : DisplayState) : DisplayState :=
  match strategy with
  | KrxRecovery id => recover_krx id heard ds
  | CmeRecovery id => recover_cme id heard ds
  | IceRecovery id => recover_ice id (default [] (head heard)) ds
  | NullRecovery => ds
  end.

(** ** The loop *)

Section loop.
Context (c : ObserverConfig) (instrument : list Z) (instrument_id : Z).

Definition on_observer (f : Observer → Observer) (s : IceObserver) : IceObserver :=
  mkIceObserver (f s.(io_observer)) s.(io_bundle_ts).
Definition on_counters (f : Counters → Counters) : IceObserver → IceObserver :=
  on_observer (on_display (λ ds, set_counters (f ds.(d_counters)) ds)).
Definition counters_of (s : IceObserver) : Counters := s.(io_observer).(o_display).(d_counters).

Definition count_message (k : Counters) : Counters :=
  mkCounters (k.(total_messages) + 1) (k.(messages_this_second) + 1) k.(msgs_per_sec) k.(decode_errors)
    k.(total_trades) k.(last_seq) k.(seq_gaps).
Definition count_error (k : Counters) : Counters :=
  mkCounters k.(total_messages) k.(messages_this_second) k.(msgs_per_sec) (k.(decode_errors) + 1)
    k.(total_trades) k.(last_seq) k.(seq_gaps).
Definition count_gap (k : Counters) : Counters :=
  mkCounters k.(total_messages) k.(messages_this_second) k.(msgs_per_sec) k.(decode_errors)
    k.(total_trades) k.(last_seq) (k.(seq_gaps) + 1).
Definition count_second (k : Counters) : Counters :=
  mkCounters k.(total_messages) 0 k.(messages_this_second) k.(decode_errors) k.(total_trades) k.(last_seq)
    k.(seq_gaps).

(** One message of the feed, by exchange; whether an error is counted. *)
Definition decode_payload (payload : list Z) (s : IceObserver) : IceObserver * bool :=
  if bool_decide (c.(oc_exchange) = chars "cme") then
    let '(o, error) := decode_cme instrument_id instrument payload s.(io_observer) in
    (mkIceObserver o s.(io_bundle_ts), error)
  else if bool_decide (c.(oc_exchange) = chars "krx") then
    let '(o, error) := decode_krx instrument payload s.(io_observer) in
    (mkIceObserver o s.(io_bundle_ts), error)
  else decode_ice instrument_id instrument payload s.

(** Is the number not the next one?  Zero is taken for no number yet. *)
Definition is_gap (k : Counters) (seq : Z) : bool :=
  negb (k.(last_seq) =? 0) && negb (seq =? wrap_u32 (k.(last_seq) + 1)).

(** A datagram, and what recovery hears, should there be a gap.  The buffer of
    the recovery holds just this datagram.  The result says whether the rest of
    the round is skipped. *)
Definition on_datagram (buf : list Z) (heard : list (list Z)) (s : IceObserver) : IceObserver * bool :=
  let s := on_counters count_message s in
  if (length buf <? mcast_header_size)%nat then (on_counters count_error s, true)
  else
    let seq := le_value (take mcast_header_size buf) in
    let payload := drop mcast_header_size buf in
    let gap := is_gap (counters_of s) seq in
    let s := if gap then on_counters count_gap s else s in
    let s := on_counters (set_last_seq seq) s in
    if gap && negb (bool_decide (c.(oc_recovery) = chars "none")) then
      let strategy := create_recovery_strategy c instrument_id in
      let s := on_observer (on_display (recover strategy heard)) s in
      ((decode_payload payload s).1, true)
    else
      let '(s, error) := decode_payload payload s in
      (if error then on_counters count_error s else s, false).

Inductive arrival : Type :=
  | Received (buf : list Z) (heard : list (list Z))
  | TimedOut
  | Interrupted
  | ReceiveFailed.
(** A round of the loop; [second] says that a second is over. *)
Definition observer_round (s : IceObserver) (a : arrival * bool) : IceObserver :=
  let '(s, skip) :=
    match a.1 with
    | Received [] _ => (s, false)
    | Received buf heard => on_datagram buf heard s
    | TimedOut => (s, false)
    | Interrupted => (s, true)
    | ReceiveFailed => (on_counters count_error s, false)
    end in
  if negb skip && a.2 then on_counters count_second s else s.

(** Before the loop: recovery, and the journal, if it opens. *)
Definition start_observer (heard : list (list Z)) (opens : bool) : IceObserver :=
  let ds := if bool_decide (c.(oc_recovery) ≠ chars "none")
            then recover (create_recovery_strategy c instrument_id) heard initial_display
            else initial_display in
  mkIceObserver (mkObserver ds (if bool_decide (c.(oc_journal_path) ≠ []) && opens then Some [] else None)) 0.
Definition run_observer (heard : list (list Z)) (opens : bool) (arrivals : list (arrival * bool)) : IceObserver :=
  fold_left observer_round arrivals (start_observer heard opens).
End loop.

(** * What is shown *)

(** ** Lines of the journal leave the display alone *)

Lemma write_line_display type fields o : o_display (write_line type fields o) = o_display o.
Proof. done. Qed.

(** ** What the events of the engine mean *)

Definition is_buy (side : Side) : bool := match side with Buy => true | Sell => false end.
(** Prices are shown as PRICE9 mantissas, quantities in lots; the best price of an
    empty side is the null value. *)
Definition shown_price (p : Price) : Z := p * ENGINE_TO_PRICE9_FACTOR.
Definition shown_best (p : Price) : Z := if p =? 0 then INT64_NULL else shown_price p.
Definition lots (q : Quantity) : Z := Z.quot q PRICE_SCALE.

(** The book of one side: levels by shown price, with quantity and number of
    orders. *)
Definition book_step (is_bid : bool) (m : gmap Z (Z * Z)) (e : event) : gmap Z (Z * Z) :=
  match e with
  | DepthUpdate side price qty count action _ =>
      if Bool.eqb (is_buy side) is_bid then
        match action with
        | DepthRemove => delete (shown_price price) m
        | DepthAdd | DepthUpd => <[shown_price price := (lots qty, count)]> m
        end
      else m
  | TopOfBook best_bid bid_qty best_ask ask_qty _ =>
      if is_bid then <[shown_best best_bid := (lots bid_qty, INT32_NULL)]> m
      else <[shown_best best_ask := (lots ask_qty, INT32_NULL)]> m
  | _ => m
  end.
Definition market_book (is_bid : bool) (events : list event) : gmap Z (Z * Z) := fold_left (book_step is_bid) events ∅.
Definition trade_of (e : event) : option TradeEntry :=
  match e with
  | Trade price qty _ _ side ts => Some (mkTradeEntry (shown_price price) (lots qty) (encode_aggressor_side side) (wrap_u64 ts))
  | _ => None
  end.
Definition trades_of (events : list event) : list TradeEntry := omap trade_of events.

(** Neither side ever has more levels than are shown. *)
Definition within_depth (events : list event) : Prop :=
  ∀ is_bid k, (size (market_book is_bid (take k events)) <= BOOK_DEPTH)%nat.

(** The display is up to date with the events. *)
Record follows (events : list event) (ds : DisplayState) : Prop := {
  fo_book : ∀ is_bid, displays is_bid (market_book is_bid events) (book_side is_bid ds);
  fo_tape : tape_of (trades_of events) ds.(d_tape);
  fo_prices : ds.(d_prices) = record_prices (trades_of events) (mkPrices 0 0 0 0 0);
  fo_count : ds.(d_counters).(total_trades) = Z.of_nat (length (trades_of events))
}.
Lemma follows_initial : follows [] initial_display.
Proof. split; [|apply tape_of_blank|done|done]. intros []; apply displays_blank. Qed.

Lemma market_book_snoc is_bid events e : market_book is_bid (events ++ [e]) = book_step is_bid (market_book is_bid events) e.
Proof. apply fold_left_snoc. Qed.
Lemma trades_of_snoc events e : trades_of (events ++ [e]) = trades_of events ++ match trade_of e with Some t => [t] | None => [] end.
Proof. unfold trades_of. rewrite omap_app. cbn. by destruct (trade_of e). Qed.
Lemma lots_wire q : wire_lots q → engine_qty_to_wire q = lots q.
Proof.
  intros (k & -> & Hk). unfold engine_qty_to_wire, lots. rewrite Z.quot_mul by done.
  apply wrap_s32_id. unfold in_int32. lia.
Qed.

Lemma book_side_set is_bid s ds : book_side is_bid (set_book_side is_bid s ds) = s.
Proof. by destruct is_bid. Qed.
Lemma book_side_set_other is_bid is_bid' s ds : is_bid' ≠ is_bid → book_side is_bid' (set_book_side is_bid s ds) = book_side is_bid' ds.
Proof. by destruct is_bid, is_bid'. Qed.

(** An event that is no trade, with what it does to the two sides. *)
Lemma follows_book events e ds ds' : follows events ds → trade_of e = None →
  (∀ is_bid, displays is_bid (book_step is_bid (market_book is_bid events) e) (book_side is_bid ds')) →
  d_tape ds' = d_tape ds → d_prices ds' = d_prices ds → d_counters ds' = d_counters ds → follows (events ++ [e]) ds'.
Proof.
  intros [Hb Ht Hp Hc] He Hb' Et Ep Ec. split.
  - intros is_bid. rewrite market_book_snoc. apply Hb'.
  - by rewrite trades_of_snoc, He, app_nil_r, Et.
  - by rewrite trades_of_snoc, He, app_nil_r, Ep.
  - by rewrite trades_of_snoc, He, app_nil_r, Ec.
Qed.
Lemma update_display_rest price qty orders is_delete is_bid ds :
  d_tape (update_display price qty orders is_delete is_bid ds) = d_tape ds ∧
  d_prices (update_display price qty orders is_delete is_bid ds) = d_prices ds ∧
  d_counters (update_display price qty orders is_delete is_bid ds) = d_counters ds.
Proof. by destruct is_bid. Qed.

Lemma follows_depth events side price qty count action ts ds :
  follows events ds → (∀ is_bid, (size (market_book is_bid (events ++ [DepthUpdate side price qty count action ts])) <= BOOK_DEPTH)%nat) →
  follows (events ++ [DepthUpdate side price qty count action ts])
    (update_display (shown_price price) (lots qty) count (bool_decide (action = DepthRemove)) (is_buy side) ds).
Proof.
  intros Hf Hd. set (e := DepthUpdate _ _ _ _ _ _) in *.
  destruct (update_display_rest (shown_price price) (lots qty) count (bool_decide (action = DepthRemove)) (is_buy side) ds) as (Et & Ep & Ec).
  eapply follows_book; [exact Hf|done| |done..]. intros is_bid. specialize (Hd is_bid). rewrite market_book_snoc in Hd.
  pose proof (fo_book _ _ Hf is_bid) as Hb. unfold update_display. unfold e, book_step in *.
  destruct (Bool.eqb (is_buy side) is_bid) eqn:E; [apply eqb_prop in E as <-|apply eqb_false_iff in E].
  - rewrite book_side_set. destruct action; [by apply displays_put..|by apply displays_delete].
  - by rewrite book_side_set_other.
Qed.
Lemma follows_top events bb bq ba aq ts ds :
  follows events ds → (∀ is_bid, (size (market_book is_bid (events ++ [TopOfBook bb bq ba aq ts])) <= BOOK_DEPTH)%nat) →
  follows (events ++ [TopOfBook bb bq ba aq ts])
    (update_display (shown_best ba) (lots aq) INT32_NULL false false
      (update_display (shown_best bb) (lots bq) INT32_NULL false true ds)).
Proof.
  intros Hf Hd. eapply follows_book; [exact Hf|done| |done..].
  intros is_bid. specialize (Hd is_bid). rewrite market_book_snoc in Hd. pose proof (fo_book _ _ Hf is_bid) as Hb.
  unfold update_display. destruct is_bid; by apply displays_put.
Qed.
Lemma follows_trade events price qty aggressor resting side ts ds : follows events ds →
  follows (events ++ [Trade price qty aggressor resting side ts])
    (record_trade (shown_price price) (lots qty) (encode_aggressor_side side) (wrap_u64 ts) ds).
Proof.
  intros [Hb Ht Hp Hc]. split.
  - intros is_bid. rewrite market_book_snoc. destruct is_bid; [exact (Hb true)|exact (Hb false)].
  - rewrite trades_of_snoc. cbn [trade_of]. by apply record_on_tape_of.
  - rewrite trades_of_snoc. cbn [trade_of record_trade d_prices]. rewrite Hp. unfold record_prices. by rewrite fold_left_snoc.
  - rewrite trades_of_snoc, length_app. cbn. lia.
Qed.
Lemma follows_other events e ds : follows events ds → trade_of e = None → (∀ is_bid m, book_step is_bid m e = m) → follows (events ++ [e]) ds.
Proof. intros Hf He Hs. eapply follows_book; [exact Hf|done| |done..]. intros is_bid. rewrite Hs. apply Hf. Qed.

(** ** Messages *)

Section cme.
Context (c : ObserverConfig) (instrument : list Z) (iid : Z) (group asset : list Z).
Implicit Types (s : IceObserver) (o : Observer).

Lemma visit_depth ts o seq side price qty count action : wire_lots qty → 0 <= count < 2 ^ 31 →
  o_display (visit_book_entry iid instrument ts o (depth_entry iid seq side price qty count action)) =
  update_display (shown_price price) (lots qty) count (bool_decide (action = DepthRemove)) (is_buy side) (o_display o).
Proof.
  intros Hq Hc. unfold visit_book_entry, depth_entry.
  cbn [rb_security_id rb_md_update_action rb_md_entry_type rb_md_entry_px rb_md_entry_size rb_number_of_orders].
  rewrite Z.eqb_refl. cbn [negb]. rewrite (lots_wire qty Hq), (wrap_s32_id count) by (unfold in_int32; lia).
  by destruct side, action.
Qed.
Lemma visit_best ts o seq side price qty : wire_lots qty →
  o_display (visit_book_entry iid instrument ts o (best_entry iid seq side price qty)) =
  update_display (shown_best price) (lots qty) INT32_NULL false (is_buy side) (o_display o).
Proof.
  intros Hq. unfold visit_book_entry, best_entry.
  cbn [rb_security_id rb_md_update_action rb_md_entry_type rb_md_entry_px rb_md_entry_size rb_number_of_orders].
  rewrite Z.eqb_refl. cbn [negb]. rewrite (lots_wire qty Hq). unfold exact_best, shown_best.
  by destruct side; destruct (price =? 0).
Qed.
Lemma visit_trade_shown ts o seq side price qty : wire_lots qty →
  o_display (visit_trade_entry iid instrument ts o (trade_entry iid seq price qty side)) =
  record_trade (shown_price price) (lots qty) (encode_aggressor_side side) ts (o_display o).
Proof.
  intros Hq. unfold visit_trade_entry, trade_entry. cbn [ts_security_id ts_md_entry_px ts_md_entry_size ts_aggressor_side].
  rewrite Z.eqb_refl. cbn [negb]. by rewrite (lots_wire qty Hq).
Qed.

(** The message of an event, if it has one. *)
Definition message_of (seq : Z) (e : event) : option Decoded := head (feed_messages iid group asset seq [e]).
Lemma visit_message seq e d events o : feedable e → message_of seq e = Some d →
  (∀ is_bid, (size (market_book is_bid (events ++ [e])) <= BOOK_DEPTH)%nat) → follows events (o_display o) →
  follows (events ++ [e]) (o_display (visit_mdp3 iid instrument o d)).
Proof.
  intros He Hd Hsize Hf. destruct e; cbn in Hd; try discriminate Hd; injection Hd as <-; cbn [visit_mdp3 fold_left].
  - destruct He as (_ & Hbq & _ & Haq & _). rewrite !visit_best by done. by eapply follows_top.
  - destruct He as (_ & Hq & Hc & _). rewrite visit_depth by done. by apply follows_depth.
  - destruct He as (_ & Hq & _). rewrite visit_trade_shown by done. by eapply follows_trade.
  - unfold status_root. cbn [s30_security_id s30_transact_time s30_security_trading_status]. rewrite Z.eqb_refl. cbn [negb].
    by apply follows_other.
Qed.
(** The counters that the visitor leaves alone. *)
Definition same_counts (k k' : Counters) : Prop :=
  k'.(total_messages) = k.(total_messages) ∧ k'.(decode_errors) = k.(decode_errors) ∧ k'.(last_seq) = k.(last_seq) ∧
  k'.(seq_gaps) = k.(seq_gaps).
Lemma same_counts_refl k : same_counts k k.
Proof. done. Qed.
Lemma visit_message_counts seq e d o : message_of seq e = Some d →
  same_counts (d_counters (o_display o)) (d_counters (o_display (visit_mdp3 iid instrument o d))).
Proof.
  intros Hd. destruct e; cbn in Hd; try discriminate Hd; injection Hd as <-; cbn [visit_mdp3 fold_left].
  - unfold visit_book_entry, best_entry. cbn [rb_security_id rb_md_update_action]. rewrite Z.eqb_refl. done.
  - unfold visit_book_entry, depth_entry. cbn [rb_security_id]. rewrite Z.eqb_refl. by destruct side, action.
  - unfold visit_trade_entry, trade_entry. cbn [ts_security_id]. rewrite Z.eqb_refl. done.
  - unfold status_root. cbn [s30_security_id]. rewrite Z.eqb_refl. done.
Qed.

(** *** A round of the loop *)

(** [n] datagrams have arrived, without a gap or an error. *)
Record counted (n : Z) (k : Counters) : Prop := {
  ct_messages : k.(total_messages) = n;
  ct_errors : k.(decode_errors) = 0;
  ct_gaps : k.(seq_gaps) = 0;
  ct_seq : k.(last_seq) = if n =? 0 then 0 else wrap_u32 (n - 1)
}.
Lemma counted_next n k : 0 <= n → counted n k → is_gap (count_message k) (wrap_u32 n) = false.
Proof.
  intros Hn [_ _ _ Hs]. unfold is_gap. cbn [count_message last_seq]. rewrite Hs.
  destruct (Z.eqb_spec n 0) as [->|]; [done|]. rewrite wrap_u32_next, Z.eqb_refl. apply andb_false_r.
Qed.

(** What has arrived: a datagram, whatever recovery might hear. *)
Definition arrives (a : arrival * bool) (d : list Z) : Prop := ∃ heard, a.1 = Received d heard.

(** The observer is up to date after [n] datagrams. *)
Record up_to_date (events : list event) (n : Z) (s : IceObserver) : Prop := {
  ud_follows : follows events (o_display (io_observer s));
  ud_counted : counted n (counters_of s)
}.

Lemma follows_counters (f : Counters → Counters) events ds : (∀ k, total_trades (f k) = total_trades k) →
  follows events ds → follows events (set_counters (f ds.(d_counters)) ds).
Proof. intros Hf [Hb Ht Hp Hc]. split; [exact Hb|exact Ht|exact Hp|]. cbn. by rewrite Hf. Qed.
Lemma up_to_date_counters f events n n' s : (∀ k, total_trades (f k) = total_trades k) → (∀ k, counted n k → counted n' (f k)) →
  up_to_date events n s → up_to_date events n' (on_counters f s).
Proof. intros Hf Hn [H1 H2]. split; [by apply follows_counters|by apply Hn]. Qed.
Lemma counted_datagram n k : 0 <= n → counted n k → counted (n + 1) (set_last_seq (wrap_u32 n) (count_message k)).
Proof.
  intros Hn [Hm He Hg _]. split; cbn; [by rewrite Hm|done|done|].
  rewrite (proj2 (Z.eqb_neq _ _)) by lia. f_equal. lia.
Qed.
Lemma counted_same n k k' : counted n k → same_counts k k' → counted n k'.
Proof. intros [Hm He Hg Hs] (E1 & E2 & E3 & E4). split; congruence. Qed.

Lemma round_message events e d n a pkt seq s : c.(oc_exchange) = chars "cme" → 0 <= n → feedable e →
  message_of seq e = Some d → (∀ is_bid, (size (market_book is_bid (events ++ [e])) <= BOOK_DEPTH)%nat) →
  carries_message pkt d → arrives a (le_bytes mcast_header_size (wrap_u32 n) ++ packet_bytes pkt) →
  up_to_date events n s → up_to_date (events ++ [e]) (n + 1) (observer_round c instrument iid s a).
Proof.
  intros Hcme Hn He Hd Hsize Hpkt [heard Ha] Hs. unfold observer_round. rewrite Ha.
  set (buf := le_bytes _ _ ++ _). assert (Hbuf : take mcast_header_size buf = le_bytes mcast_header_size (wrap_u32 n))
    by (unfold buf; apply take_app_length'; by rewrite length_le_bytes).
  assert (Hrest : drop mcast_header_size buf = packet_bytes pkt) by (unfold buf; apply drop_app_length'; by rewrite length_le_bytes).
  assert (Hlen : (length buf <? mcast_header_size)%nat = false)
    by (apply Nat.ltb_ge; unfold buf; rewrite length_app, length_le_bytes; lia).
  destruct buf as [|b bs] eqn:Eb; [discriminate Hlen|]. rewrite <- Eb in *. clear Eb.
  unfold on_datagram. rewrite Hlen, Hbuf, Hrest, le_value_id by apply wrap_u32_range.
  change (counters_of (on_counters count_message s)) with (count_message (counters_of s)).
  rewrite (counted_next n _ Hn (ud_counted _ _ _ Hs)). cbn [andb].
  unfold decode_payload. rewrite Hcme. cbn [bool_decide decide]. rewrite bool_decide_eq_true_2 by done.
  unfold decode_cme. rewrite Hpkt. cbn [negb andb].
  assert (H1 : up_to_date events (n + 1) (on_counters (set_last_seq (wrap_u32 n)) (on_counters count_message s))).
  { change (up_to_date events (n + 1) (on_counters (λ k, set_last_seq (wrap_u32 n) (count_message k)) s)).
    apply (up_to_date_counters _ events n); [done| |exact Hs]. intros k. by apply counted_datagram. }
  set (s1 := on_counters (set_last_seq _) _) in *. destruct H1 as [Hf Hc].
  assert (H2 : up_to_date (events ++ [e]) (n + 1) (mkIceObserver (visit_mdp3 iid instrument (io_observer s1) d) (io_bundle_ts s1))).
  { split; [by eapply visit_message|]. eapply counted_same; [exact Hc|]. by eapply visit_message_counts. }
  case_if as Ht; [|exact H2]. eapply up_to_date_counters; [done| |exact H2]. by intros k [].
Qed.

Lemma within_snoc events e rest : within_depth (events ++ e :: rest) →
  ∀ is_bid, (size (market_book is_bid (events ++ [e])) <= BOOK_DEPTH)%nat.
Proof.
  intros H is_bid. specialize (H is_bid (length (events ++ [e]))). replace (events ++ e :: rest) with ((events ++ [e]) ++ rest) in H
    by by rewrite <- app_assoc. by rewrite take_app_length in H.
Qed.

(** The rest of a feed. *)
Lemma feed_follows rest : c.(oc_exchange) = chars "cme" → Forall feedable rest → ∀ events n seq pkts arrivals s, 0 <= n →
  within_depth (events ++ rest) → Forall2 carries_message pkts (feed_messages iid group asset seq rest) →
  Forall2 arrives arrivals (mcast_feed (wrap_u32 n) (packet_bytes <$> pkts)) → up_to_date events n s →
  up_to_date (events ++ rest) (n + Z.of_nat (length pkts)) (fold_left (observer_round c instrument iid) arrivals s).
Proof.
  intros Hcme. induction 1 as [|e rest He _ IH]; intros events n seq pkts arrivals s Hn Hw Hp Ha Hs.
  - inversion Hp; subst. cbn in Ha. inversion Ha; subst. cbn. by rewrite app_nil_r, Z.add_0_r.
  - replace (events ++ e :: rest) with ((events ++ [e]) ++ rest) in * by by rewrite <- app_assoc.
    assert (Hm : (∃ d seq', message_of seq e = Some d ∧ feed_messages iid group asset seq (e :: rest) = d :: feed_messages iid group asset seq' rest) ∨
                 (feed_messages iid group asset seq (e :: rest) = feed_messages iid group asset seq rest ∧ trade_of e = None ∧ ∀ is_bid m, book_step is_bid m e = m)).
    { destruct e; first [by right | left; by eexists _, _]. }
    destruct Hm as [(d & seq' & Hd & Hf)|(Hf & Ht & Hb)]; rewrite Hf in Hp.
    + apply Forall2_cons_inv_r in Hp as (pkt & pkts' & Hpkt & Hpkts & ->). rewrite fmap_cons in Ha. cbn [mcast_feed mcast_send] in Ha.
      apply Forall2_cons_inv_r in Ha as (a & arrivals' & Ha & Harr & ->). cbn [fold_left length].
      replace (n + Z.of_nat (S (length pkts'))) with (n + 1 + Z.of_nat (length pkts')) by lia.
      eapply IH; [lia|exact Hw|exact Hpkts| |].
      * replace (wrap_u32 (n + 1)) with (wrap_u32 (wrap_u32 n + 1)); [exact Harr|].
        unfold wrap_u32. by rewrite Z.add_mod_idemp_l.
      * eapply round_message; try done. apply (within_snoc events e rest). by rewrite <- app_assoc in Hw.
    + eapply IH; [exact Hn|exact Hw|exact Hp|exact Ha|]. destruct Hs as [Hfo Hc]. split; [by apply follows_other|exact Hc].
Qed.
End cme.

(** ** A snapshot *)

(** The levels a snapshot has for a side, as they are shown. *)
Definition snapshot_level (e : SnapshotEntry) : BookLevel := mkBookLevel (shown_price e.(se_price)) (lots e.(se_qty)) 1.
Definition snapshot_side (is_bid : bool) (entries : list SnapshotEntry) : list BookLevel :=
  snapshot_level <$> filter (λ e, is_buy e.(se_side) = is_bid) entries.

(** The entry of the message for an entry of the snapshot. *)
Definition entry_of (e : SnapshotEntry) (w : SnapshotOrderBookEntry) : Prop :=
  w.(sb_md_entry_px) = exact_price e.(se_price) ∧ w.(sb_md_display_qty) = lots e.(se_qty) ∧
  w.(sb_md_entry_type) = encode_md_entry_type_book e.(se_side).
Lemma snapshot_entries_exact entries : Forall snapshot_feedable entries → ∀ oid es,
  snapshot_entries oid entries = Some es → Forall2 entry_of entries es.
Proof.
  induction 1 as [|[p q side] entries [Hp Hq] _ IH]; intros oid es; cbn [snapshot_entries]; [by intros [= <-]|].
  cbn [se_price se_qty se_side] in *. destruct (price9_exact _ Hp) as (-> & _ & _). cbn [mbind option_bind].
  destruct (snapshot_entries (oid + 1) entries) as [es'|] eqn:E; [|done]. cbn [mbind option_bind]. intros [= <-].
  constructor; [|by eapply IH]. split_and!; [done|by apply lots_wire|done].
Qed.

Lemma recover_entries entries es : Forall2 entry_of entries es → ∀ ds is_bid,
  book_side is_bid (fold_left recover_entry es ds) = put_all is_bid (snapshot_side is_bid entries) (book_side is_bid ds).
Proof.
  induction 1 as [|e w entries es (Hp & Hq & Ht) _ IH]; intros ds is_bid; [done|]. cbn [fold_left]. rewrite IH.
  unfold recover_entry. rewrite Hp, Hq, Ht.
  replace (encode_md_entry_type_book (se_side e) =? 48) with (is_buy e.(se_side)) by by destruct (se_side e).
  unfold snapshot_side, update_display. rewrite filter_cons. destruct (decide (is_buy (se_side e) = is_bid)) as [<-|Hne].
  - rewrite fmap_cons, book_side_set. done.
  - by rewrite book_side_set_other.
Qed.
Lemma recover_entries_rest es ds : d_tape (fold_left recover_entry es ds) = d_tape ds ∧
  d_prices (fold_left recover_entry es ds) = d_prices ds ∧ d_counters (fold_left recover_entry es ds) = d_counters ds.
Proof.
  revert ds. induction es as [|e es IH]; intros ds; [done|]. cbn [fold_left]. destruct (IH (recover_entry ds e)) as (-> & -> & ->).
  apply update_display_rest.
Qed.

Lemma matching_decoded m es mcast : decoded_fits (DecodedSnapshot53 m es) →
  Z.of_nat (length (wire_bytes (DecodedSnapshot53 m es))) <= MAX_SNAPSHOT_ENCODED_SIZE →
  matching_snapshot m.(s53_security_id) (le_bytes mcast_header_size mcast ++ wire_bytes (DecodedSnapshot53 m es)) = Some es.
Proof.
  intros Hfit Hlen. pose proof (rc_got _ _ _ (recovers_mdp3 _ Hfit) []) as Hd. rewrite app_nil_r in Hd.
  unfold matching_snapshot. rewrite take_ge by (rewrite length_app, length_le_bytes; lia).
  rewrite drop_app_length' by by rewrite length_le_bytes. rewrite length_app, length_le_bytes.
  set (hdr := make_header SnapshotFullRefreshOrderBook53).
  assert (Hh : ∀ rest, take_struct (ws_put hdr ++ rest) = Got hdr rest) by (intros rest; apply rc_got, recovers_struct; by vm_compute).
  assert (Hw : ∃ B, wire_bytes (DecodedSnapshot53 m es) = ws_put hdr ++ B) by (eexists; reflexivity).
  destruct Hw as [B HB]. rewrite HB in *. rewrite Hh. unfold decode_mdp3_message, mbind, step_bind in Hd. rewrite Hh in Hd.
  change (decode_snapshot_53 hdr B = Got (DecodedSnapshot53 m es) []) in Hd.
  assert (H8 : length (ws_put hdr) = ws_size (A := MessageHeader)) by (apply (ws_length hdr); by vm_compute).
  rewrite (proj2 (Nat.leb_gt _ _)) by (rewrite length_app, H8; cbn [ws_size MessageHeader_struct]; lia).
  change (h_template_id hdr =? SNAPSHOT_TEMPLATE) with true. cbn [negb]. by rewrite Hd, Z.eqb_refl.
Qed.

Lemma snapshot_size m es : ws_fits m → Forall ws_fits es → (length es <= 255)%nat →
  Z.of_nat (length (wire_bytes (DecodedSnapshot53 m es))) <= MAX_SNAPSHOT_ENCODED_SIZE.
Proof.
  intros Hm Hes Hn. unfold wire_bytes. rewrite !length_app, (ws_length m Hm).
  rewrite (ws_length (make_header SnapshotFullRefreshOrderBook53)) by by vm_compute.
  rewrite (length_put_group GroupHeader es) by (done || (unfold in_uint8; lia)).
  unfold MAX_SNAPSHOT_ENCODED_SIZE. cbn [ws_size MessageHeader_struct SnapshotFullRefreshOrderBook53_struct
    GroupHeader_struct SnapshotOrderBookEntry_struct]. lia.
Qed.

(** The message of a snapshot, exactly. *)
Lemma snapshot_bytes iid ts seq reports chunk entries :
  in_int32 iid → in_uint64 ts → in_uint32 seq → in_uint32 reports → in_uint32 chunk →
  Forall snapshot_feedable entries → (length entries <= 255)%nat →
  ∃ es, let d := DecodedSnapshot53 (mkSnapshotFullRefreshOrderBook53 seq reports iid reports chunk ts) es in
    encode_snapshot iid ts seq entries reports chunk = Some (wire_bytes d) ∧ decoded_fits d ∧
    Z.of_nat (length (wire_bytes d)) <= MAX_SNAPSHOT_ENCODED_SIZE ∧ Forall2 entry_of entries es.
Proof.
  intros Hi Ht Hs Hr Hc Hf Hn.
  destruct (snapshot_entries_back entries Hf 1) as (es & Hes & Hl & Hfit & _); [lia|unfold int64_max; lia|].
  exists es. split_and!.
  - unfold encode_snapshot. rewrite Hes. cbn [mbind option_bind]. f_equal. unfold wire_bytes, put_group.
    rewrite Hl, Z.min_r by lia. reflexivity.
  - split; [done|]. split; [done|]. rewrite Hl. lia.
  - apply snapshot_size; [done|done|lia].
  - by eapply snapshot_entries_exact.
Qed.

Lemma recover_cme_skips iid noise d es later ds : Forall (λ d, matching_snapshot iid d = None) noise →
  matching_snapshot iid d = Some es → recover_cme iid (noise ++ d :: later) ds = apply_cme_snapshot es ds.
Proof. intros H Hd. induction H as [|n noise Hn _ IH]; cbn; [by rewrite Hd|]. by rewrite Hn. Qed.


(** ** The feed *)

Lemma start_quiet c iid opens : up_to_date [] 0 (start_observer c iid [] opens).
Proof.
  assert (H : (if bool_decide (oc_recovery c ≠ chars "none") then recover (create_recovery_strategy c iid) [] initial_display
               else initial_display) = initial_display).
  { case_bool_decide; [|done]. by destruct (create_recovery_strategy c iid). }
  unfold start_observer. rewrite H. split; [apply follows_initial|done].
Qed.


(** ** Concrete runs *)

Lemma within_depth_check events :
  forallb (λ k, (size (market_book true (take k events)) <=? BOOK_DEPTH)%nat && (size (market_book false (take k events)) <=? BOOK_DEPTH)%nat)
    (seq 0 (S (length events))) = true → within_depth events.
Proof.
  rewrite forallb_forall. intros H is_bid k.
  assert (Hk : take k events = take (Nat.min k (length events)) events).
  { destruct (decide (k <= length events)%nat); [by rewrite Nat.min_l|]. rewrite Nat.min_r by lia. by rewrite !take_ge by lia. }
  rewrite Hk. specialize (H (Nat.min k (length events))). rewrite <- list_elem_of_In in H.
  apply andb_prop in H as [Hb Ha]; [|apply elem_of_seq; lia]. apply Nat.leb_le in Hb, Ha. by destruct is_bid.
Qed.

Definition cme_config : ObserverConfig :=
  mkObserverConfig (chars "cme") (chars "239.0.31.1") 14310 (chars "ES") (chars "observer.journal") false [] 0 false
    (chars "none") [] 0 [].
Definition market : list event :=
  [Types.MarketStatus Continuous 1; DepthUpdate Buy 45000000 30000 2 DepthAdd 100; DepthUpdate Sell 45002500 20000 1 DepthAdd 101;
   DepthUpdate Buy 44997500 50000 3 DepthAdd 102; TopOfBook 45000000 30000 45002500 20000 103;
   Trade 45000000 10000 4 5 Sell 104; DepthUpdate Buy 45000000 20000 1 DepthUpd 104;
   Trade 44997500 20000 4 6 Sell 105; DepthUpdate Buy 45000000 0 0 DepthRemove 105].
Definition pad6 (s : string) : list Z := space_padded 6 (chars s).

Lemma market_feedable : Forall feedable market.
Proof.
  repeat (apply Forall_cons; split); try done; cbn; split_and!; try done;
    first [by exists 3 | by exists 2 | by exists 5 | by exists 1 | by exists 0].
Qed.

Definition book_snapshot : list SnapshotEntry :=
  [mkSnapshotEntry 45000000 30000 Buy; mkSnapshotEntry 44997500 10000 Buy; mkSnapshotEntry 45002500 20000 Sell].

(** *** Where the display goes wrong *)

Definition no_journal (ds : DisplayState) : Observer := mkObserver ds None.
(** An empty side of a CME book is shown as a level at the null price, the best
    bid of all. *)
Example null_best_shown :
  match feed_messages 1 [] [] 1 [TopOfBook 0 0 45002500 20000 7] with
  | [d] => levels (d_bids (o_display (visit_mdp3 1 [] (no_journal initial_display) d))) !!! 0%nat
  | _ => blank_level
  end = mkBookLevel INT64_NULL 0 INT32_NULL.
Proof. by vm_compute. Qed.

(** The depth updates of an ICE feed are not shown at all, the trades are. *)
Definition ice_feed : list event := [DepthUpdate Buy 1000000 20000 1 DepthAdd 5; Trade 1000000 10000 1 2 Sell 6].
Example ice_depth_not_shown :
  match impact_listen (initial_publisher 1) ice_feed with
  | Some p =>
      let ds := o_display (io_observer (fold_left (λ s pkt, (decode_ice 1 [] (Impact.packet_bytes pkt) s).1)
                  (Impact.pub_packets p) (mkIceObserver (no_journal initial_display) 0))) in
      (level_count (d_bids ds), trade_count (d_tape ds)) = (0%nat, 1%nat)
  | None => False
  end.
Proof. by vm_compute. Qed.

(** ICE recovery adds the snapshot to what was shown before. *)
Example ice_recovery_keeps_old :
  match encode_snapshot_orders 1 [mkLevel 0 990000 20000 1 []] [] 1000 (initial_context 1) with
  | (Wrote frame, _) =>
      level_count (d_bids (recover_ice 1 frame (update_display 1000000 3 1 false true initial_display))) = 2%nat
  | _ => False
  end.
Proof. by vm_compute. Qed.

(** A best bid that goes down on KRX leaves the old one on top. *)
Example krx_old_best_stays :
  let o := visit_fast [] (visit_fast [] (no_journal initial_display) (on_quote (mkFastQuote 100 1 0 0 5))) (on_quote (mkFastQuote 99 1 0 0 6)) in
  bl_price (levels (d_bids (o_display o)) !!! 0%nat) = 100.
Proof. by vm_compute. Qed.

(** The number of a KRX snapshot is taken for the number of a datagram: after a
    recovery the next datagram looks like a gap. *)
Definition krx_config : ObserverConfig :=
  mkObserverConfig (chars "krx") (chars "239.0.31.9") 14330 (chars "KS") [] false [] 0 false (chars "snapshot") [] 0 [].
Definition full_snapshot : FastFullSnapshot := mkFastFullSnapshot 1 1 0 0 (replicate 5 default_level) (replicate 5 default_level) 0.
Definition quote_datagram (seq : Z) : list Z :=
  match encode_quote (mkFastQuote 100 1 101 1 5) 512 with Wrote bs => le_bytes 4 seq ++ bs | _ => [] end.
Definition snapshot_datagram : list Z :=
  match encode_full_snapshot full_snapshot 512 with Wrote bs => le_bytes 4 0 ++ bs | _ => [] end.
Example krx_recovery_repeats :
  seq_gaps (counters_of (run_observer krx_config (chars "KS") 1 [] false
    ((λ seq, (Received (quote_datagram seq) [snapshot_datagram], false)) <$> [5; 9; 10; 11; 12]))) = 4.
Proof. by vm_compute. Qed.

(** A gap right after the number zero is not noticed. *)
Example gap_after_zero_missed :
  seq_gaps (counters_of (run_observer cme_config (chars "ES") 1 [] false
    ((λ seq, (Received (le_bytes 4 seq) [], false)) <$> [0; 7; 8]))) = 0.
Proof. by vm_compute. Qed.
