(* ===== verification/Capture.v ===== *)
(** * Replaying captures: [src/tools/pcap_reader.h], [mdp3_replayer.h], [ilink3_replayer.h]

    A capture file is a list of bytes; every read of it checks that it is inside
    the file, and [BadRead] stands for one that is not.  The reader, the
    replayers over it, that no file makes them read outside, and that the capture
    of a CME feed, among whatever other traffic, replays completely. *)

From S2P Require Import Prelude Types Wire Sbe ILink3 ILink3Theorems Mdp3Messages Mdp3 Mdp3Theorems Display ObserverFeeds Tcp.

#[local] Open Scope Z_scope.

(** ** Results *)

Inductive pcap_error : Type :=
  | TooShort | TruncatedGlobalHeader | UnrecognizedMagic | TruncatedSHB | UnsupportedByteOrder
  | TruncatedIDB | ExpectedIDB | TruncatedIDBBody.
Inductive run (A : Type) : Type :=
  | Done (a : A)
  | Throws (e : pcap_error)
  | BadRead
  | NoFuel.
Arguments Done {A} a.
Arguments Throws {A} e.
Arguments BadRead {A}.
Arguments NoFuel {A}.
#[global] Instance run_ret : MRet run := λ A, Done.
#[global] Instance run_bind : MBind run := λ A B k m,
  match m with Done a => k a | Throws e => Throws e | BadRead => BadRead | NoFuel => NoFuel end.
Definition throw_if (b : bool) (e : pcap_error) : run unit := if b then Throws e else Done tt.

(** ** Reading bytes *)

Definition be_value (bs : list Z) : Z := le_value (rev bs).
(** [n] bytes from [pos] on. *)
Definition bytes_at (pos : Z) (n : Z) (data : list Z) : run (list Z) :=
  if (0 <=? pos) && (pos + n <=? Z.of_nat (length data)) then Done (slice (Z.to_nat pos) (Z.to_nat n) data) else BadRead.
Definition rd32 (swapped : bool) (pos : Z) (data : list Z) : run Z :=
  bs ← bytes_at pos 4 data; Done (if swapped then be_value bs else le_value bs).
Definition le16 (pos : Z) (data : list Z) : run Z := bs ← bytes_at pos 2 data; Done (le_value bs).
Definition be16 (pos : Z) (data : list Z) : run Z := bs ← bytes_at pos 2 data; Done (be_value bs).
Definition byte_at (pos : Z) (data : list Z) : run Z := bs ← bytes_at pos 1 data; Done (le_value bs).

(** ** Packets *)

Inductive TransportProto : Type := kTcp | kUdp | kOther.
Record Packet : Type := mkPacket {
  pk_proto : TransportProto; pk_src_ip : Z; pk_dst_ip : Z; pk_src_port : Z; pk_dst_port : Z; pk_payload : list Z
}.
Record PcapPacket : Type := mkPcapPacket { pp_ts_ns : Z; pp_packet : Packet }.

(** [None] is a frame that is skipped. *)
Definition parse_udp (src dst : Z) (transport : list Z) : run (option Packet) :=
  let transport_len := Z.of_nat (length transport) in
  if transport_len <? 8 then Done None
  else
    src_port ← be16 0 transport;
    dst_port ← be16 2 transport;
    udp_len ← be16 4 transport;
    if udp_len <? 8 then Done None
    else
      payload ← bytes_at 8 (if transport_len <? udp_len then transport_len - 8 else udp_len - 8) transport;
      Done (Some (mkPacket kUdp src dst src_port dst_port payload)).
Definition parse_tcp (src dst : Z) (transport : list Z) : run (option Packet) :=
  let transport_len := Z.of_nat (length transport) in
  if transport_len <? 20 then Done None
  else
    src_port ← be16 0 transport;
    dst_port ← be16 2 transport;
    b ← byte_at 12 transport;
    let tcp_hdr_len := Z.land (Z.shiftr b 4) 15 * 4 in
    if (tcp_hdr_len <? 20) || (transport_len <? tcp_hdr_len) then Done None
    else
      payload ← bytes_at tcp_hdr_len (transport_len - tcp_hdr_len) transport;
      Done (Some (mkPacket kTcp src dst src_port dst_port payload)).
Definition parse_ethernet_ipv4 (frame : list Z) : run (option Packet) :=
  let len := Z.of_nat (length frame) in
  if len <? 14 then Done None
  else
    ethertype ← be16 12 frame;
    if negb (ethertype =? 2048) then Done None
    else
      let ip_avail := len - 14 in
      if ip_avail <? 20 then Done None
      else
        version ← byte_at 14 frame;
        if negb (Z.shiftr version 4 =? 4) then Done None
        else
          let ihl := Z.land version 15 * 4 in
          if (ihl <? 20) || (ip_avail <? ihl) then Done None
          else
            protocol ← byte_at (14 + 9) frame;
            src ← bytes_at (14 + 12) 4 frame;
            dst ← bytes_at (14 + 16) 4 frame;
            transport ← bytes_at (14 + ihl) (ip_avail - ihl) frame;
            if protocol =? 17 then parse_udp (le_value src) (le_value dst) transport
            else if protocol =? 6 then parse_tcp (le_value src) (le_value dst) transport
            else Done None.

(** ** The reader *)

Inductive Format : Type := kClassicPcap | kPcapng.
Record PcapReader : Type := mkReader {
  pr_data : list Z; pr_pos : Z; pr_header_end : Z; pr_format : Format; pr_swapped : bool; pr_nano : bool; pr_link_type : Z
}.
Definition file_size (r : PcapReader) : Z := Z.of_nat (length r.(pr_data)).
Definition has (n : Z) (r : PcapReader) : bool := r.(pr_pos) + n <=? file_size r.
Definition set_pos (pos : Z) (r : PcapReader) : PcapReader :=
  mkReader r.(pr_data) pos r.(pr_header_end) r.(pr_format) r.(pr_swapped) r.(pr_nano) r.(pr_link_type).

Definition parse_classic_header (swapped nano : bool) (data : list Z) : run PcapReader :=
  _ ← throw_if (Z.of_nat (length data) <? 24) TruncatedGlobalHeader;
  link_type ← rd32 swapped 20 data;
  Done (mkReader data 24 24 kClassicPcap swapped nano link_type).
Definition parse_pcapng_headers (data : list Z) : run PcapReader :=
  let size := Z.of_nat (length data) in
  _ ← throw_if (size <? 12) TruncatedSHB;
  shb_len ← rd32 false 4 data;
  bom ← rd32 false 8 data;
  _ ← throw_if (negb (bom =? 0x1a2b3c4d)) UnsupportedByteOrder;
  _ ← throw_if (negb (shb_len + 8 <=? size)) TruncatedIDB;
  idb_type ← rd32 false shb_len data;
  idb_len ← rd32 false (shb_len + 4) data;
  _ ← throw_if (negb (idb_type =? 1)) ExpectedIDB;
  _ ← throw_if (negb (shb_len + 12 <=? size)) TruncatedIDBBody;
  link_type ← le16 (shb_len + 8) data;
  Done (mkReader data (shb_len + idb_len) (shb_len + idb_len) kPcapng false false link_type).
(** The constructor, given the bytes of the file. *)
Definition open_capture (data : list Z) : run PcapReader :=
  _ ← throw_if (Z.of_nat (length data) <? 4) TooShort;
  magic ← rd32 false 0 data;
  if magic =? 0xa1b2c3d4 then parse_classic_header false false data
  else if magic =? 0xa1b23c4d then parse_classic_header false true data
  else if magic =? 0xd4c3b2a1 then parse_classic_header true false data
  else if magic =? 0x4d3cb2a1 then parse_classic_header true true data
  else if magic =? 0x0a0d0d0a then parse_pcapng_headers data
  else Throws UnrecognizedMagic.

(** The next packet that is not skipped, if there is one, and the reader behind
    it. *)
Fixpoint next_classic_packet (fuel : nat) (r : PcapReader) : run (option PcapPacket * PcapReader) :=
  if has 16 r then
    match fuel with
    | O => NoFuel
    | S fuel' =>
        ts_sec ← rd32 r.(pr_swapped) r.(pr_pos) r.(pr_data);
        ts_frac ← rd32 r.(pr_swapped) (r.(pr_pos) + 4) r.(pr_data);
        incl_len ← rd32 r.(pr_swapped) (r.(pr_pos) + 8) r.(pr_data);
        let r := set_pos (r.(pr_pos) + 16) r in
        if negb (has incl_len r) then Done (None, r)
        else
          frame ← bytes_at r.(pr_pos) incl_len r.(pr_data);
          let r := set_pos (r.(pr_pos) + incl_len) r in
          parsed ← parse_ethernet_ipv4 frame;
          match parsed with
          | Some p => Done (Some (mkPcapPacket (ts_sec * 1000000000 + (if r.(pr_nano) then ts_frac else ts_frac * 1000)) p), r)
          | None => next_classic_packet fuel' r
          end
    end
  else Done (None, r).
Fixpoint next_pcapng_packet (fuel : nat) (r : PcapReader) : run (option PcapPacket * PcapReader) :=
  if has 8 r then
    match fuel with
    | O => NoFuel
    | S fuel' =>
        btype ← rd32 false r.(pr_pos) r.(pr_data);
        blen ← rd32 false (r.(pr_pos) + 4) r.(pr_data);
        if (blen <? 12) || negb (has blen r) then Done (None, r)
        else
          let r' := set_pos (r.(pr_pos) + blen) r in
          if (btype =? 6) && negb (blen <? 32) then
            ts_high ← rd32 false (r.(pr_pos) + 12) r.(pr_data);
            ts_low ← rd32 false (r.(pr_pos) + 16) r.(pr_data);
            cap_len ← rd32 false (r.(pr_pos) + 20) r.(pr_data);
            frame ← bytes_at (r.(pr_pos) + 28) (Z.min cap_len (blen - 32)) r.(pr_data);
            parsed ← parse_ethernet_ipv4 frame;
            match parsed with
            | Some p => Done (Some (mkPcapPacket (wrap_u64 ((ts_high * 2 ^ 32 + ts_low) * 1000)) p), r')
            | None => next_pcapng_packet fuel' r'
            end
          else next_pcapng_packet fuel' r'
    end
  else Done (None, r).
(** A block takes twelve bytes at least. *)
Definition next (r : PcapReader) : run (option PcapPacket * PcapReader) :=
  match r.(pr_format) with
  | kClassicPcap => next_classic_packet (length r.(pr_data)) r
  | kPcapng => next_pcapng_packet (length r.(pr_data)) r
  end.
Definition reset (r : PcapReader) : PcapReader := set_pos r.(pr_header_end) r.

(** A loop over the packets to the end of the file. *)
Fixpoint each_packet {S : Type} (fuel : nat) (body : S → PcapPacket → S) (s : S) (r : PcapReader) : run S :=
  '(p, r) ← next r;
  match p with
  | None => Done s
  | Some p =>
      match fuel with
      | O => NoFuel
      | Datatypes.S fuel' => each_packet fuel' body (body s p) r
      end
  end.
Definition over_capture {S : Type} (body : S → PcapPacket → S) (s : S) (data : list Z) : run S :=
  r ← open_capture data; each_packet (length data) body s r.

(** ** Replaying MDP 3 *)

Record ReplayStats : Type := mkReplayStats {
  total_udp_packets : Z; decoded_ok : Z; decode_errors : Z; non_udp_skipped : Z; seq_gaps : Z;
  security_status_30 : Z; refresh_book_46 : Z; trade_summary_48 : Z; snapshot_53 : Z; instrument_def_54 : Z;
  unknown_template : Z
}.
Definition no_stats : ReplayStats := mkReplayStats 0 0 0 0 0 0 0 0 0 0 0.
(** The sequence number that is expected, once there was one, and the messages
    the visitor was called with.  The counters, of 32 bits in the source, are not
    bounded here. *)
Record Replay : Type := mkReplay { rp_stats : ReplayStats; rp_expected : option Z; rp_visited : list Mdp3.Decoded }.

Definition skip_packet (s : ReplayStats) : ReplayStats :=
  let '(mkReplayStats u ok err skip gaps c30 c46 c48 c53 c54 unk) := s in mkReplayStats u ok err (skip + 1) gaps c30 c46 c48 c53 c54 unk.
Definition count_udp (s : ReplayStats) : ReplayStats :=
  let '(mkReplayStats u ok err skip gaps c30 c46 c48 c53 c54 unk) := s in mkReplayStats (u + 1) ok err skip gaps c30 c46 c48 c53 c54 unk.
Definition count_seq_gap (s : ReplayStats) : ReplayStats :=
  let '(mkReplayStats u ok err skip gaps c30 c46 c48 c53 c54 unk) := s in mkReplayStats u ok err skip (gaps + 1) c30 c46 c48 c53 c54 unk.
Definition count_failure (unknown : bool) (s : ReplayStats) : ReplayStats :=
  let '(mkReplayStats u ok err skip gaps c30 c46 c48 c53 c54 unk) := s in
  mkReplayStats u ok (err + 1) skip gaps c30 c46 c48 c53 c54 (if unknown then unk + 1 else unk).
Definition count_decoded (d : Mdp3.Decoded) (s : ReplayStats) : ReplayStats :=
  let '(mkReplayStats u ok err skip gaps c30 c46 c48 c53 c54 unk) := s in
  match d with
  | Mdp3.DecodedSecurityStatus30 _ => mkReplayStats u (ok + 1) err skip gaps (c30 + 1) c46 c48 c53 c54 unk
  | Mdp3.DecodedRefreshBook46 _ _ _ => mkReplayStats u (ok + 1) err skip gaps c30 (c46 + 1) c48 c53 c54 unk
  | Mdp3.DecodedTradeSummary48 _ _ _ => mkReplayStats u (ok + 1) err skip gaps c30 c46 (c48 + 1) c53 c54 unk
  | Mdp3.DecodedSnapshot53 _ _ => mkReplayStats u (ok + 1) err skip gaps c30 c46 c48 (c53 + 1) c54 unk
  | Mdp3.DecodedInstrumentDef54 _ _ _ _ _ => mkReplayStats u (ok + 1) err skip gaps c30 c46 c48 c53 (c54 + 1) unk
  end.

(** The number in front of the payload, if it is stripped. *)
Definition strip_sequence (strip : bool) (payload : list Z) (s : Replay) : list Z * Replay :=
  if strip && (mcast_header_size <=? length payload)%nat then
    let seq := le_value (take mcast_header_size payload) in
    let stats := if seq =? default seq s.(rp_expected) then s.(rp_stats) else count_seq_gap s.(rp_stats) in
    (drop mcast_header_size payload, mkReplay stats (Some (wrap_u32 (seq + 1))) s.(rp_visited))
  else (payload, s).
Definition replay_message (payload : list Z) (s : Replay) : Replay :=
  match decode_mdp3_message payload with
  | Got d _ => mkReplay (count_decoded d s.(rp_stats)) s.(rp_expected) (s.(rp_visited) ++ [d])
  | Failed kUnknownTemplateId => mkReplay (count_failure true s.(rp_stats)) s.(rp_expected) s.(rp_visited)
  | _ => mkReplay (count_failure false s.(rp_stats)) s.(rp_expected) s.(rp_visited)
  end.
Definition replay_mdp3_packet (dst_port : Z) (strip : bool) (s : Replay) (pkt : PcapPacket) : Replay :=
  let p := pkt.(pp_packet) in
  match p.(pk_proto) with
  | kTcp | kOther => mkReplay (skip_packet s.(rp_stats)) s.(rp_expected) s.(rp_visited)
  | kUdp =>
      if negb (dst_port =? 0) && negb (p.(pk_dst_port) =? dst_port) then s
      else
        let s := mkReplay (count_udp s.(rp_stats)) s.(rp_expected) s.(rp_visited) in
        let '(payload, s) := strip_sequence strip p.(pk_payload) s in
        replay_message payload s
  end.
Definition replay_mdp3_pcap (dst_port : Z) (strip : bool) (data : list Z) : run Replay :=
  over_capture (replay_mdp3_packet dst_port strip) (mkReplay no_stats None []) data.

(** ** Replaying iLink 3 *)

Record Ilink3ReplayStats : Type := mkIlink3Stats {
  total_tcp_packets : Z; il_decoded_ok : Z; il_decode_errors : Z; non_tcp_skipped : Z; il_unknown_template : Z
}.
(** The counters of the message types are the numbers of the messages visited. *)
Record Ilink3Replay : Type := mkIlink3Replay { ir_stats : Ilink3ReplayStats; ir_visited : list ILink3.Decoded }.
Definition no_ilink3 : Ilink3Replay := mkIlink3Replay (mkIlink3Stats 0 0 0 0 0) [].
Inductive message_type : Type :=
  | new_order_514 | replace_515 | cancel_516 | mass_action_529
  | exec_new_522 | exec_reject_523 | exec_trade_525 | exec_cancel_534 | cancel_reject_535.
#[global] Instance message_type_eq_dec : EqDecision message_type.
Proof. solve_decision. Defined.
Definition type_of (d : ILink3.Decoded) : message_type :=
  match d with
  | DecodedNewOrder514 _ => new_order_514
  | DecodedCancelRequest516 _ => cancel_516
  | DecodedReplaceRequest515 _ => replace_515
  | DecodedMassAction529 _ => mass_action_529
  | DecodedExecNew522 _ => exec_new_522
  | DecodedExecReject523 _ => exec_reject_523
  | DecodedExecTrade525 _ _ => exec_trade_525
  | DecodedExecCancel534 _ => exec_cancel_534
  | DecodedCancelReject535 _ => cancel_reject_535
  end.
Definition type_count (t : message_type) (s : Ilink3Replay) : Z :=
  Z.of_nat (length (filter (λ d, type_of d = t) s.(ir_visited))).

Definition replay_ilink3_packet (dst_port : Z) (strip : bool) (s : Ilink3Replay) (pkt : PcapPacket) : Ilink3Replay :=
  let p := pkt.(pp_packet) in
  let '(mkIlink3Stats tcp ok err skip unk) := s.(ir_stats) in
  match p.(pk_proto) with
  | kUdp | kOther => mkIlink3Replay (mkIlink3Stats tcp ok err (skip + 1) unk) s.(ir_visited)
  | kTcp =>
      if negb (dst_port =? 0) && negb (p.(pk_dst_port) =? dst_port) then s
      else
        match p.(pk_payload) with
        | [] => s
        | payload =>
            if strip && (length payload <? 4)%nat then mkIlink3Replay (mkIlink3Stats (tcp + 1) ok (err + 1) skip unk) s.(ir_visited)
            else
              match decode_ilink3_message (if strip then drop 4 payload else payload) with
              | Got d _ => mkIlink3Replay (mkIlink3Stats (tcp + 1) (ok + 1) err skip unk) (s.(ir_visited) ++ [d])
              | Failed kUnknownTemplateId => mkIlink3Replay (mkIlink3Stats (tcp + 1) ok (err + 1) skip (unk + 1)) s.(ir_visited)
              | _ => mkIlink3Replay (mkIlink3Stats (tcp + 1) ok (err + 1) skip unk) s.(ir_visited)
              end
        end
  end.
Definition replay_ilink3_pcap (dst_port : Z) (strip : bool) (data : list Z) : run Ilink3Replay :=
  over_capture (replay_ilink3_packet dst_port strip) no_ilink3 data.

(** ** Reads stay inside the file *)

(** [m] does not read outside, does not run out of fuel, and what it returns
    satisfies [Q]. *)
Definition sound {A} (m : run A) (Q : A → Prop) : Prop :=
  match m with Done a => Q a | Throws _ => True | BadRead | NoFuel => False end.
Lemma sound_bind {A B} (m : run A) (k : A → run B) Q : sound m (λ a, sound (k a) Q) → sound (m ≫= k) Q.
Proof. by destruct m. Qed.
Lemma sound_mono {A} (m : run A) (Q Q' : A → Prop) : sound m Q → (∀ a, Q a → Q' a) → sound m Q'.
Proof. destruct m; cbn; auto. Qed.
Lemma sound_throw_if b e Q : (b = false → Q tt) → sound (throw_if b e) Q.
Proof. destruct b; cbn; auto. Qed.

Definition byte_list (n : Z) (bs : list Z) : Prop := Forall is_byte bs ∧ Z.of_nat (length bs) = n.
Lemma sound_bytes_at pos n data Q : Forall is_byte data → 0 <= pos → 0 <= n → pos + n <= Z.of_nat (length data) →
  (∀ bs, byte_list n bs → Q bs) → sound (bytes_at pos n data) Q.
Proof.
  intros Hb Hp Hn Hl HQ. unfold bytes_at. replace ((0 <=? pos) && (pos + n <=? Z.of_nat (length data))) with true
    by (symmetry; apply andb_true_intro; split; by apply Z.leb_le).
  apply HQ. split; [by apply Forall_take, Forall_drop|]. unfold slice. rewrite length_take, length_drop. lia.
Qed.
Lemma be_value_range bs : Forall is_byte bs → 0 <= be_value bs < 256 ^ Z.of_nat (length bs).
Proof. intros H. unfold be_value. rewrite <- length_rev. apply le_value_range. by apply Forall_rev. Qed.
Lemma byte_list_value n bs : byte_list n bs → 0 <= le_value bs < 256 ^ n ∧ 0 <= be_value bs < 256 ^ n.
Proof. intros [Hb <-]. split; [by apply le_value_range|by apply be_value_range]. Qed.
Lemma sound_rd32 swapped pos data Q : Forall is_byte data → 0 <= pos → pos + 4 <= Z.of_nat (length data) →
  (∀ v, 0 <= v < 2 ^ 32 → Q v) → sound (rd32 swapped pos data) Q.
Proof.
  intros Hb Hp Hl HQ. apply sound_bind. apply sound_bytes_at; [done..|]. intros bs Hbs%byte_list_value. apply HQ.
  destruct swapped; apply Hbs.
Qed.
Lemma sound_le16 pos data Q : Forall is_byte data → 0 <= pos → pos + 2 <= Z.of_nat (length data) →
  (∀ v, 0 <= v → Q v) → sound (le16 pos data) Q.
Proof. intros Hb Hp Hl HQ. apply sound_bind. apply sound_bytes_at; [done..|]. intros bs Hbs%byte_list_value. apply HQ, Hbs. Qed.
Lemma sound_be16 pos data Q : Forall is_byte data → 0 <= pos → pos + 2 <= Z.of_nat (length data) →
  (∀ v, 0 <= v → Q v) → sound (be16 pos data) Q.
Proof. intros Hb Hp Hl HQ. apply sound_bind. apply sound_bytes_at; [done..|]. intros bs Hbs%byte_list_value. apply HQ, Hbs. Qed.
Lemma sound_byte_at pos data Q : Forall is_byte data → 0 <= pos → pos + 1 <= Z.of_nat (length data) →
  (∀ v, 0 <= v → Q v) → sound (byte_at pos data) Q.
Proof. intros Hb Hp Hl HQ. apply sound_bind. apply sound_bytes_at; [done..|]. intros bs Hbs%byte_list_value. apply HQ, Hbs. Qed.

Tactic Notation "sound_read" ident(x) ident(H) :=
  first [apply sound_bind, sound_bytes_at|apply sound_bind, sound_rd32|apply sound_bind, sound_le16
        |apply sound_bind, sound_be16|apply sound_bind, sound_byte_at]; [try done; try lia..|intros x H].
(** One step through a chain of reads. *)
Ltac sound_step :=
  match goal with
  | |- sound (if ?b then _ else _) _ => let E := fresh "E" in case_if as E; zbool
  | |- sound (Done _) _ => cbn [sound]
  | |- sound (throw_if _ _ ≫= _) _ => apply sound_bind, sound_throw_if; let E := fresh "E" in intros E; zbool
  | |- sound (_ ≫= _) _ => let x := fresh "x" in let H := fresh "H" in sound_read x H
  end.

Lemma parse_udp_sound src dst transport : Forall is_byte transport → sound (parse_udp src dst transport) (λ _, True).
Proof. intros Hb. unfold parse_udp. repeat sound_step; try done; try (case_if as E2; zbool; lia). Qed.
Lemma parse_tcp_sound src dst transport : Forall is_byte transport → sound (parse_tcp src dst transport) (λ _, True).
Proof. intros Hb. unfold parse_tcp. repeat sound_step; try done; lia. Qed.
Lemma parse_ethernet_sound frame : Forall is_byte frame → sound (parse_ethernet_ipv4 frame) (λ _, True).
Proof.
  intros Hb. unfold parse_ethernet_ipv4. repeat sound_step; try done; try lia.
  all: match goal with H : byte_list _ ?t |- sound (_ ?t) _ => first [apply parse_udp_sound|apply parse_tcp_sound]; apply H end.
Qed.

(** Nor does it throw. *)
Definition quiet {A} (m : run A) : Prop := match m with Throws _ => False | _ => True end.
Lemma quiet_bind {A B} (m : run A) (k : A → run B) : quiet m → (∀ a, quiet (k a)) → quiet (m ≫= k).
Proof. destruct m; cbn; auto. Qed.
Lemma quiet_bytes_at pos n data : quiet (bytes_at pos n data).
Proof. unfold bytes_at. by case_match. Qed.
Lemma quiet_be16 pos data : quiet (be16 pos data).
Proof. apply quiet_bind; [apply quiet_bytes_at|done]. Qed.
Lemma quiet_byte_at pos data : quiet (byte_at pos data).
Proof. apply quiet_bind; [apply quiet_bytes_at|done]. Qed.
Create HintDb quiet.
#[local] Hint Resolve quiet_bytes_at quiet_be16 quiet_byte_at : quiet.
Ltac be_quiet := repeat first [done|apply quiet_bind; [by auto with quiet|intros ?]|case_match].
Lemma quiet_parse_udp src dst transport : quiet (parse_udp src dst transport).
Proof. unfold parse_udp. be_quiet. Qed.
Lemma quiet_parse_tcp src dst transport : quiet (parse_tcp src dst transport).
Proof. unfold parse_tcp. be_quiet. Qed.
Lemma quiet_parse frame : quiet (parse_ethernet_ipv4 frame).
Proof. unfold parse_ethernet_ipv4. be_quiet; [apply quiet_parse_udp|apply quiet_parse_tcp]. Qed.
Lemma parse_done frame : Forall is_byte frame → ∃ o, parse_ethernet_ipv4 frame = Done o.
Proof.
  intros Hb. pose proof (parse_ethernet_sound frame Hb) as Hs. pose proof (quiet_parse frame) as Hq.
  destruct (parse_ethernet_ipv4 frame) as [o| | |]; by try exists o.
Qed.

Definition reader_ok (r : PcapReader) : Prop := 0 <= r.(pr_pos) ∧ Forall is_byte r.(pr_data).
(** [r'] is the same reader further on. *)
Definition further (r r' : PcapReader) : Prop := r' = set_pos r'.(pr_pos) r ∧ r.(pr_pos) <= r'.(pr_pos).
#[global] Instance further_trans : Transitive further.
Proof. intros r1 r2 r3 [E1 H1] [E2 H2]. split; [|lia]. rewrite E2, E1. done. Qed.
Lemma further_set_pos pos r : r.(pr_pos) <= pos → further r (set_pos pos r).
Proof. by split. Qed.
Lemma further_ok r r' : further r r' → reader_ok r → reader_ok r'.
Proof. intros [E H] [H0 Hb]. split; [lia|]. by rewrite E. Qed.
(** Where a packet was found the reader has moved. *)
Definition advanced (r : PcapReader) (res : option PcapPacket * PcapReader) : Prop :=
  further r res.2 ∧ (is_Some res.1 → r.(pr_pos) < res.2.(pr_pos) <= file_size r).
Lemma advanced_further r r' res : further r r' → r.(pr_pos) < r'.(pr_pos) → advanced r' res → advanced r res.
Proof.
  intros Hf Hlt [H1 H2]. split; [by etransitivity|]. intros Hs. destruct (H2 Hs) as [H3 H4]. split; [lia|].
  replace (file_size r) with (file_size r') by (destruct Hf as [-> _]; done). done.
Qed.

Lemma stays r : advanced r (None, r).
Proof. split; [split; [by destruct r|done]|]. by intros [? [=]]. Qed.
Lemma has_room n r : has n r = true → r.(pr_pos) + n <= Z.of_nat (length r.(pr_data)).
Proof. intros H. by apply Z.leb_le in H. Qed.

Lemma next_classic_sound fuel : ∀ r, reader_ok r → file_size r - r.(pr_pos) <= Z.of_nat fuel →
  sound (next_classic_packet fuel r) (advanced r).
Proof.
  induction fuel as [|fuel IH]; intros r [Hp Hb] Hf; cbn [next_classic_packet]; destruct (has 16 r) eqn:Hh; cbn [sound]; try apply stays;
    apply has_room in Hh; unfold file_size in Hf; [lia|].
  sound_read ts_sec Hs. sound_read ts_frac Hfr. sound_read incl_len Hi. set (r1 := set_pos (pr_pos r + 16) r). destruct (has incl_len r1) eqn:Hh1; cbn [negb].
  2: { cbn [sound]. split; [apply further_set_pos; lia|by intros [? [=]]]. }
  apply has_room in Hh1. cbn [r1 set_pos pr_pos pr_data] in Hh1 |- *. sound_read frame Hfm.
  apply sound_bind. eapply sound_mono; [apply parse_ethernet_sound; apply Hfm|]. intros [p|] _.
  - split; cbn [fst snd set_pos pr_pos]; [split; [done|cbn; lia]|intros _; unfold file_size; lia].
  - eapply sound_mono; [apply IH; [split; cbn; [lia|done]|unfold file_size; cbn; lia]|].
    intros res. apply advanced_further; [split; [done|cbn; lia]|cbn; lia].
Qed.
Lemma next_pcapng_sound fuel : ∀ r, reader_ok r → file_size r - r.(pr_pos) <= Z.of_nat fuel →
  sound (next_pcapng_packet fuel r) (advanced r).
Proof.
  induction fuel as [|fuel IH]; intros r [Hp Hb] Hf; cbn [next_pcapng_packet]; destruct (has 8 r) eqn:Hh; cbn [sound]; try apply stays;
    apply has_room in Hh; unfold file_size in Hf; [lia|].
  sound_read btype Ht. sound_read blen Hl. destruct (_ || _) eqn:E; cbn [sound]; [apply stays|].
  apply orb_false_iff in E as [E Hblk%negb_false_iff%has_room]. apply Z.ltb_ge in E. set (r' := set_pos (pr_pos r + blen) r).
  assert (Hstep : sound (next_pcapng_packet fuel r') (advanced r)).
  { eapply sound_mono; [apply IH; [split; cbn; [lia|done]|unfold file_size; cbn; lia]|].
    intros res. apply advanced_further; [split; [done|cbn; lia]|cbn; lia]. }
  sound_step; [|exact Hstep]. sound_read ts_high Hhi. sound_read ts_low Hlo. sound_read cap_len Hcap. sound_read frame Hfm.
  apply sound_bind. eapply sound_mono; [apply parse_ethernet_sound; apply Hfm|]. intros [p|] _; [|exact Hstep].
  split; cbn [fst snd]; [split; [done|cbn; lia]|intros _; unfold file_size; cbn; lia].
Qed.
Lemma next_sound r : reader_ok r → sound (next r) (advanced r).
Proof.
  intros Hr. unfold next. destruct (pr_format r); [apply next_classic_sound|apply next_pcapng_sound]; try done;
    destruct Hr; unfold file_size; lia.
Qed.

Lemma open_sound data : Forall is_byte data → sound (open_capture data) (λ r, reader_ok r ∧ r.(pr_data) = data).
Proof.
  intros Hb. unfold open_capture. sound_step. sound_read magic Hm.
  repeat sound_step; try done; unfold parse_classic_header, parse_pcapng_headers; repeat sound_step;
    try (split; [split; cbn; [lia|done]|done]); zbool; try lia.
  all: apply negb_false_iff in E3; apply Z.leb_le in E3; lia.
Qed.

Lemma each_packet_sound {S} (body : S → PcapPacket → S) fuel : ∀ s r, reader_ok r → file_size r - r.(pr_pos) <= Z.of_nat fuel →
  sound (each_packet fuel body s r) (λ _, True).
Proof.
  induction fuel as [|fuel IH]; intros s r Hr Hf; cbn [each_packet]; apply sound_bind; eapply sound_mono; try by apply next_sound.
  - intros [[p|] r'] [_ Hadv]; [|done]. destruct (Hadv ltac:(done)). cbn [fst snd] in *. lia.
  - intros [[p|] r'] [Hfu Hadv]; [|done]. destruct (Hadv ltac:(done)) as [H1 H2]. cbn [fst snd] in *. apply IH; [by eapply further_ok|].
    replace (file_size r') with (file_size r) by (destruct Hfu as [-> _]; done). lia.
Qed.

(** C34: No capture makes the reader read outside the file.  Whatever the bytes
    of a file, classic or pcapng, complete, truncated or malformed: opening it
    and visiting all its packets ends, and never reads a byte that is not in the
    file. *)
Theorem capture_reads_in_bounds {S} (body : S → PcapPacket → S) (s : S) data :
  Forall is_byte data → over_capture body s data ≠ BadRead ∧ over_capture body s data ≠ NoFuel.
Proof.
  intros Hb. assert (H : sound (over_capture body s data) (λ _, True)).
  { unfold over_capture. apply sound_bind. eapply sound_mono; [by apply open_sound|]. intros r [Hr Hd].
    apply each_packet_sound; [done|]. unfold file_size. rewrite Hd. destruct Hr. lia. }
  by destruct (over_capture body s data).
Qed.

(** ** Captures *)

Definition endian (swapped : bool) (n : nat) (v : Z) : list Z := if swapped then rev (le_bytes n v) else le_bytes n v.
Record captured : Type := mkCaptured { cap_sec : Z; cap_frac : Z; cap_orig_len : Z; cap_frame : list Z }.
Definition captured_ok (c : captured) : Prop :=
  in_uint32 c.(cap_sec) ∧ in_uint32 c.(cap_frac) ∧ in_uint32 c.(cap_orig_len) ∧ in_uint32 (Z.of_nat (length c.(cap_frame))).
Definition record_bytes (swapped : bool) (c : captured) : list Z :=
  endian swapped 4 c.(cap_sec) ++ endian swapped 4 c.(cap_frac) ++ endian swapped 4 (Z.of_nat (length c.(cap_frame))) ++
  endian swapped 4 c.(cap_orig_len) ++ c.(cap_frame).
Definition magic_of (swapped nano : bool) : Z :=
  match swapped, nano with
  | false, false => 0xa1b2c3d4 | false, true => 0xa1b23c4d | true, false => 0xd4c3b2a1 | true, true => 0x4d3cb2a1
  end.
(** A classic capture file; [head] is the rest of the global header. *)
Definition capture_file (swapped nano : bool) (head : list Z) (cs : list captured) : list Z :=
  le_bytes 4 (magic_of swapped nano) ++ head ++ concat (record_bytes swapped <$> cs).

Definition packet_of (nano : bool) (c : captured) : option PcapPacket :=
  match parse_ethernet_ipv4 c.(cap_frame) with
  | Done (Some p) => Some (mkPcapPacket (c.(cap_sec) * 1000000000 + (if nano then c.(cap_frac) else c.(cap_frac) * 1000)) p)
  | _ => None
  end.

Lemma bytes_at_app pre bs post : bytes_at (Z.of_nat (length pre)) (Z.of_nat (length bs)) (pre ++ bs ++ post) = Done bs.
Proof.
  unfold bytes_at. rewrite !length_app, !Nat2Z.inj_add.
  replace ((0 <=? Z.of_nat (length pre)) && (Z.of_nat (length pre) + Z.of_nat (length bs) <=?
    Z.of_nat (length pre) + (Z.of_nat (length bs) + Z.of_nat (length post)))) with true
    by (symmetry; apply andb_true_intro; split; apply Z.leb_le; lia).
  f_equal. unfold slice. by rewrite !Nat2Z.id, drop_app_length, take_app_length.
Qed.
Lemma bytes_at_split pos n pre bs post data : data = pre ++ bs ++ post → pos = Z.of_nat (length pre) → n = Z.of_nat (length bs) →
  bytes_at pos n data = Done bs.
Proof. intros -> -> ->. apply bytes_at_app. Qed.
Lemma length_endian swapped n v : length (endian swapped n v) = n.
Proof. destruct swapped; cbn [endian]; by rewrite ?length_rev, length_le_bytes. Qed.
Lemma rd32_split swapped pos v pre data : (∃ post, data = pre ++ endian swapped 4 v ++ post) → pos = Z.of_nat (length pre) →
  in_uint32 v → rd32 swapped pos data = Done v.
Proof.
  intros [post Hd] Hp Hv. unfold rd32. rewrite (bytes_at_split pos 4 pre (endian swapped 4 v) post) by (rewrite ?length_endian; done).
  cbn [mbind run_bind]. unfold be_value, endian. f_equal. destruct swapped; [rewrite rev_involutive|]; by apply le_value_id.
Qed.

(** The reads of a record. *)
Lemma read_record swapped c pre post data : data = pre ++ record_bytes swapped c ++ post → captured_ok c →
  let pos := Z.of_nat (length pre) in
  let len := Z.of_nat (length c.(cap_frame)) in
  rd32 swapped pos data = Done c.(cap_sec) ∧ rd32 swapped (pos + 4) data = Done c.(cap_frac) ∧
  rd32 swapped (pos + 8) data = Done len ∧ bytes_at (pos + 16) len data = Done c.(cap_frame) ∧
  length (pre ++ record_bytes swapped c) = (length pre + 16 + length c.(cap_frame))%nat.
Proof.
  intros -> (Hsec & Hfrac & _ & Hlen) pos len. unfold record_bytes. set (es := endian swapped 4 (cap_sec c)).
  set (ef := endian swapped 4 (cap_frac c)). set (el := endian swapped 4 (Z.of_nat (length (cap_frame c)))). set (eo := endian swapped 4 (cap_orig_len c)).
  assert (length es = 4%nat ∧ length ef = 4%nat ∧ length el = 4%nat ∧ length eo = 4%nat) as (Hes & Hef & Hel & Heo)
    by (split_and!; apply length_endian).
  split_and!.
  - apply (rd32_split _ _ _ pre); [|done..]. eexists. rewrite <- !app_assoc. reflexivity.
  - apply (rd32_split _ _ _ (pre ++ es)); [|rewrite length_app; lia|done]. eexists. rewrite <- !app_assoc. reflexivity.
  - apply (rd32_split _ _ _ (pre ++ es ++ ef)); [|rewrite !length_app; lia|done]. eexists. rewrite <- !app_assoc. reflexivity.
  - apply (bytes_at_split _ _ (pre ++ es ++ ef ++ el ++ eo) _ post); [by rewrite <- !app_assoc|rewrite !length_app; lia|done].
  - rewrite !length_app. lia.
Qed.

(** The reader stands before these records. *)
Definition at_records (swapped nano : bool) (r : PcapReader) (cs : list captured) : Prop :=
  ∃ pre, r.(pr_data) = pre ++ concat (record_bytes swapped <$> cs) ∧ r.(pr_pos) = Z.of_nat (length pre) ∧
    r.(pr_format) = kClassicPcap ∧ r.(pr_swapped) = swapped ∧ r.(pr_nano) = nano.
Definition frames_ok (cs : list captured) : Prop := Forall (λ c, captured_ok c ∧ Forall is_byte c.(cap_frame)) cs.

Lemma next_record swapped nano cs : ∀ fuel r, at_records swapped nano r cs → frames_ok cs → (length cs <= fuel)%nat →
  match omap (packet_of nano) cs with
  | [] => ∃ r', next_classic_packet fuel r = Done (None, r')
  | p :: ps => ∃ r' cs', next_classic_packet fuel r = Done (Some p, r') ∧ at_records swapped nano r' cs' ∧
      ps = omap (packet_of nano) cs' ∧ (length cs' < length cs)%nat ∧ frames_ok cs' ∧ pr_data r' = pr_data r
  end.
Proof.
  induction cs as [|c cs IH]; intros fuel r (pre & Hd & Hp & Hf & Hs & Hn) Hok Hl.
  { cbn [omap list_omap]. exists r. assert (Hh : has 16 r = false) by (apply Z.leb_gt; unfold file_size; rewrite Hd, app_nil_r, Hp; lia).
    by destruct fuel; cbn [next_classic_packet]; rewrite Hh. }
  destruct fuel as [|fuel]; [cbn in Hl; lia|]. apply Forall_cons in Hok as [[Hc Hbc] Hok].
  rewrite fmap_cons in Hd. cbn [concat] in Hd. destruct (read_record swapped c pre _ _ Hd Hc) as (H1 & H2 & H3 & H4 & H5).
  assert (Hsize : Z.of_nat (length pre) + 16 + Z.of_nat (length (cap_frame c)) <= file_size r)
    by (unfold file_size; rewrite Hd, app_assoc, length_app, H5; lia).
  cbn [next_classic_packet]. assert (Hh : has 16 r = true) by (apply Z.leb_le; lia). rewrite Hh.
  rewrite Hs, Hp, H1. cbn [mbind run_bind]. rewrite H2. cbn [mbind run_bind]. rewrite H3. cbn [mbind run_bind].
  set (r1 := set_pos _ r). assert (Hh1 : has (Z.of_nat (length (cap_frame c))) r1 = true) by (apply Z.leb_le; done).
  rewrite Hh1. cbn [negb r1 set_pos pr_pos pr_data pr_nano]. rewrite H4. cbn [mbind run_bind].
  set (r2 := set_pos _ _). assert (Hat : at_records swapped nano r2 cs).
  { exists (pre ++ record_bytes swapped c). split_and!; [by rewrite <- app_assoc|rewrite H5; cbn; lia|done..]. }
  destruct (parse_done _ Hbc) as [o Ho]. cbn [omap list_omap]. unfold packet_of at 1. rewrite Ho. cbn [mbind run_bind].
  destruct o as [p|].
  - rewrite Hn. exists r2, cs. split_and!; [done..|cbn; lia|done|done].
  - specialize (IH fuel r2 Hat Hok ltac:(cbn in Hl; lia)). destruct (omap (packet_of nano) cs) as [|p ps]; [exact IH|].
    destruct IH as (r' & cs' & I1 & I2 & I3 & I4 & I5 & I6). exists r', cs'. split_and!; [done..|cbn; lia|done|done].
Qed.

(** A visit of all records. *)
Lemma each_record {S} (body : S → PcapPacket → S) swapped nano fuel : ∀ cs s r, (length cs <= fuel)%nat →
  (length cs <= length (pr_data r))%nat → at_records swapped nano r cs → frames_ok cs →
  each_packet fuel body s r = Done (fold_left body (omap (packet_of nano) cs) s).
Proof.
  induction fuel as [|fuel IH]; intros cs s r Hf Hd Hat Hok.
  all: assert (Hnext : next r = next_classic_packet (length (pr_data r)) r) by (unfold next; by destruct Hat as (_ & _ & _ & -> & _)).
  all: pose proof (next_record swapped nano cs (length (pr_data r)) r Hat Hok Hd) as Hrec; cbn [each_packet]; rewrite Hnext.
  { destruct cs; [|cbn in Hf; lia]. by destruct Hrec as [r' ->]. }
  destruct (omap (packet_of nano) cs) as [|p ps]; [by destruct Hrec as [r' ->]|].
  destruct Hrec as (r' & cs' & -> & Hat' & -> & Hlt & Hok' & Hd'). cbn [mbind run_bind fold_left].
  apply IH; try done; rewrite ?Hd'; lia.
Qed.
Lemma open_capture_file swapped nano head cs : length head = 20%nat → Forall is_byte head →
  ∃ r, open_capture (capture_file swapped nano head cs) = Done r ∧ at_records swapped nano r cs ∧
    r.(pr_data) = capture_file swapped nano head cs.
Proof.
  intros Hl Hb. set (data := capture_file swapped nano head cs).
  assert (Hlen : 24 <= Z.of_nat (length data)) by (unfold data, capture_file; rewrite !length_app, length_le_bytes; lia).
  unfold open_capture. replace (Z.of_nat (length data) <? 4) with false by (symmetry; apply Z.ltb_ge; lia). cbn [throw_if mbind run_bind].
  rewrite (rd32_split false 0 (magic_of swapped nano) [] data); [|by eexists|done|by destruct swapped, nano]. cbn [mbind run_bind].
  assert (Hhead : ∃ v, rd32 swapped 20 data = Done v).
  { unfold rd32. eexists. rewrite (bytes_at_split 20 4 (le_bytes 4 (magic_of swapped nano) ++ take 16 head) (drop 16 head) (concat (record_bytes swapped <$> cs)) data);
      [reflexivity|unfold data, capture_file; rewrite <- !app_assoc, (app_assoc (take 16 head)), take_drop; reflexivity|rewrite length_app, length_le_bytes, length_take; lia|rewrite length_drop; lia]. }
  destruct Hhead as [v Hv].
  assert (Hc : parse_classic_header swapped nano data = Done (mkReader data 24 24 kClassicPcap swapped nano v)).
  { unfold parse_classic_header. replace (Z.of_nat (length data) <? 24) with false by (symmetry; apply Z.ltb_ge; lia).
    cbn [throw_if mbind run_bind]. by rewrite Hv. }
  exists (mkReader data 24 24 kClassicPcap swapped nano v). split_and!; [by destruct swapped, nano| |done].
  exists (le_bytes 4 (magic_of swapped nano) ++ head). split_and!; try done.
  by rewrite length_app, length_le_bytes, Hl.
Qed.
Lemma over_capture_file {S} (body : S → PcapPacket → S) (s : S) swapped nano head cs : length head = 20%nat → Forall is_byte head →
  frames_ok cs → over_capture body s (capture_file swapped nano head cs) = Done (fold_left body (omap (packet_of nano) cs) s).
Proof.
  intros Hl Hb Hok. destruct (open_capture_file swapped nano head cs Hl Hb) as (r & Hr & Hat & Hd).
  unfold over_capture. rewrite Hr. cbn [mbind run_bind].
  assert (Hlen : (length cs <= length (capture_file swapped nano head cs))%nat).
  { unfold capture_file. rewrite !length_app. assert (Hc : (length cs <= length (concat (record_bytes swapped <$> cs)))%nat); [|lia].
    clear. induction cs as [|c cs IH]; [done|]. rewrite fmap_cons. cbn [concat length]. rewrite length_app. unfold record_bytes at 1.
    rewrite !length_app, !length_endian. lia. }
  eapply each_record; [done|by rewrite Hd|done|done].
Qed.

(** ** Datagrams in frames *)

(** A datagram to a port in an Ethernet frame: addresses, an IPv4 header with
    any options, the UDP header. *)
Record envelope : Type := mkEnvelope {
  en_macs : list Z; en_ihl : Z; en_tos : list Z; en_checksum : list Z; en_src : list Z; en_dst : list Z; en_options : list Z;
  en_src_port : Z; en_udp_checksum : list Z
}.
Record envelope_ok (e : envelope) : Prop := {
  eo_macs : length e.(en_macs) = 12%nat;
  eo_ihl : 5 <= e.(en_ihl) <= 15;
  eo_tos : length e.(en_tos) = 8%nat;
  eo_checksum : length e.(en_checksum) = 2%nat;
  eo_src : length e.(en_src) = 4%nat;
  eo_dst : length e.(en_dst) = 4%nat;
  eo_options : Z.of_nat (length e.(en_options)) = 4 * (e.(en_ihl) - 5);
  eo_port : in_uint16 e.(en_src_port);
  eo_udp : length e.(en_udp_checksum) = 2%nat
}.
Definition be_bytes (n : nat) (v : Z) : list Z := rev (le_bytes n v).
Definition ip_header (e : envelope) : list Z :=
  [64 + e.(en_ihl)] ++ e.(en_tos) ++ [17] ++ e.(en_checksum) ++ e.(en_src) ++ e.(en_dst) ++ e.(en_options).
Definition udp_segment (e : envelope) (port : Z) (d : list Z) : list Z :=
  be_bytes 2 e.(en_src_port) ++ be_bytes 2 port ++ be_bytes 2 (8 + Z.of_nat (length d)) ++ e.(en_udp_checksum) ++ d.
Definition udp_frame (e : envelope) (port : Z) (d : list Z) : list Z :=
  e.(en_macs) ++ [8; 0] ++ ip_header e ++ udp_segment e port d.

Lemma be16_split pos v pre data : (∃ post, data = pre ++ be_bytes 2 v ++ post) → pos = Z.of_nat (length pre) → in_uint16 v → be16 pos data = Done v.
Proof.
  intros [post Hd] Hp Hv. unfold be16. rewrite (bytes_at_split pos 2 pre (be_bytes 2 v) post); [|done|done|by unfold be_bytes; rewrite length_rev, length_le_bytes].
  cbn [mbind run_bind]. unfold be_value, be_bytes. rewrite rev_involutive. f_equal. by apply le_value_id.
Qed.
Lemma byte_at_split pos b pre data : (∃ post, data = pre ++ [b] ++ post) → pos = Z.of_nat (length pre) → byte_at pos data = Done b.
Proof.
  intros [post Hd] Hp. unfold byte_at. rewrite (bytes_at_split pos 1 pre [b] post) by done. cbn. f_equal. lia.
Qed.

Lemma parse_udp_segment e port d src dst : envelope_ok e → in_uint16 port → 8 + Z.of_nat (length d) < 65536 →
  parse_udp src dst (udp_segment e port d) = Done (Some (mkPacket kUdp src dst e.(en_src_port) port d)).
Proof.
  intros [] Hport Hd. assert (Hl : Z.of_nat (length (udp_segment e port d)) = 8 + Z.of_nat (length d))
    by (unfold udp_segment, be_bytes; rewrite !length_app, !length_rev, !length_le_bytes; lia).
  unfold parse_udp. rewrite Hl. replace (8 + Z.of_nat (length d) <? 8) with false by (symmetry; apply Z.ltb_ge; lia).
  rewrite (be16_split 0 e.(en_src_port) []); [|by eexists|done|done]. cbn [mbind run_bind].
  rewrite (be16_split 2 port (be_bytes 2 e.(en_src_port))); [|by eexists|done|done]. cbn [mbind run_bind].
  rewrite (be16_split 4 (8 + Z.of_nat (length d)) (be_bytes 2 e.(en_src_port) ++ be_bytes 2 port));
    [|eexists; unfold udp_segment; rewrite <- !app_assoc; reflexivity|done|unfold in_uint16 in *; lia]. cbn [mbind run_bind].
  replace (8 + Z.of_nat (length d) <? 8) with false by (symmetry; apply Z.ltb_ge; lia). rewrite Z.ltb_irrefl.
  rewrite (bytes_at_split 8 _ (be_bytes 2 e.(en_src_port) ++ be_bytes 2 port ++ be_bytes 2 (8 + Z.of_nat (length d)) ++ e.(en_udp_checksum)) d []);
    [done|unfold udp_segment; by rewrite app_nil_r, <- !app_assoc|unfold be_bytes; rewrite !length_app, !length_rev, !length_le_bytes; lia|lia].
Qed.
Lemma ihl_bits n : 5 <= n <= 15 → Z.shiftr (64 + n) 4 = 4 ∧ Z.land (64 + n) 15 = n.
Proof.
  intros Hn. split.
  - rewrite Z.shiftr_div_pow2 by lia. symmetry. apply (Z.div_unique _ (2 ^ 4) 4 n); lia.
  - change 15 with (Z.ones 4). rewrite Z.land_ones by lia. symmetry. apply (Z.mod_unique _ (2 ^ 4) 4 n); lia.
Qed.
Lemma parse_udp_frame e port d : envelope_ok e → in_uint16 port → 8 + Z.of_nat (length d) < 65536 →
  parse_ethernet_ipv4 (udp_frame e port d) = Done (Some (mkPacket kUdp (le_value e.(en_src)) (le_value e.(en_dst)) e.(en_src_port) port d)).
Proof.
  intros He Hport Hd. pose proof (parse_udp_segment e port d (le_value e.(en_src)) (le_value e.(en_dst)) He Hport Hd) as Hseg.
  destruct He. destruct (ihl_bits _ eo_ihl0) as [Hshift Hland].
  assert (Hip : Z.of_nat (length (ip_header e)) = 4 * e.(en_ihl)) by (unfold ip_header; rewrite !length_app; cbn [length]; lia).
  assert (Hl : Z.of_nat (length (udp_frame e port d)) = 14 + 4 * e.(en_ihl) + Z.of_nat (length (udp_segment e port d)))
    by (unfold udp_frame; rewrite !length_app; cbn [length]; lia).
  unfold parse_ethernet_ipv4. rewrite Hl.
  replace (14 + 4 * en_ihl e + Z.of_nat (length (udp_segment e port d)) <? 14) with false by (symmetry; apply Z.ltb_ge; lia).
  rewrite (be16_split 12 2048 e.(en_macs)); [|by eexists|lia|done]. cbn [mbind run_bind]. change (negb (2048 =? 2048)) with false. cbv iota.
  set (avail := _ - 14). assert (Ha : avail = 4 * en_ihl e + Z.of_nat (length (udp_segment e port d))) by lia.
  replace (avail <? 20) with false by (symmetry; apply Z.ltb_ge; lia).
  rewrite (byte_at_split 14 (64 + en_ihl e) (e.(en_macs) ++ [8; 0])); [|eexists; unfold udp_frame, ip_header; rewrite <- !app_assoc; reflexivity|rewrite length_app; cbn; lia].
  cbn [mbind run_bind]. rewrite Hshift, Hland. change (negb (4 =? 4)) with false. cbv iota.
  replace ((en_ihl e * 4 <? 20) || (avail <? en_ihl e * 4)) with false by (symmetry; apply orb_false_iff; split; apply Z.ltb_ge; lia).
  rewrite (byte_at_split (14 + 9) 17 (e.(en_macs) ++ [8; 0] ++ [64 + e.(en_ihl)] ++ e.(en_tos)));
    [|eexists; unfold udp_frame, ip_header; rewrite <- !app_assoc; reflexivity|rewrite !length_app; cbn [length]; lia]. cbn [mbind run_bind].
  rewrite (bytes_at_split (14 + 12) 4 (e.(en_macs) ++ [8; 0] ++ [64 + e.(en_ihl)] ++ e.(en_tos) ++ [17] ++ e.(en_checksum)) e.(en_src)
    (e.(en_dst) ++ e.(en_options) ++ udp_segment e port d)); [|unfold udp_frame, ip_header; by rewrite <- !app_assoc|rewrite !length_app; cbn [length]; lia|lia].
  cbn [mbind run_bind].
  rewrite (bytes_at_split (14 + 16) 4 (e.(en_macs) ++ [8; 0] ++ [64 + e.(en_ihl)] ++ e.(en_tos) ++ [17] ++ e.(en_checksum) ++ e.(en_src)) e.(en_dst)
    (e.(en_options) ++ udp_segment e port d)); [|unfold udp_frame, ip_header; by rewrite <- !app_assoc|rewrite !length_app; cbn [length]; lia|lia].
  cbn [mbind run_bind].
  rewrite (bytes_at_split (14 + en_ihl e * 4) _ (e.(en_macs) ++ [8; 0] ++ ip_header e) (udp_segment e port d) []);
    [|unfold udp_frame; by rewrite app_nil_r, <- !app_assoc|rewrite !length_app; cbn [length]; lia|lia].
  cbn [mbind run_bind]. exact Hseg.
Qed.

(** Frames that are no UDP datagrams to the port. *)
Definition other_traffic (port : Z) (frame : list Z) : Prop :=
  match parse_ethernet_ipv4 frame with
  | Done (Some p) => p.(pk_proto) ≠ kUdp ∨ p.(pk_dst_port) ≠ port
  | _ => True
  end.
(** A capture of the datagrams, in order, among other traffic. *)
Inductive captures (port : Z) : list captured → list (list Z) → Prop :=
  | captures_end : captures port [] []
  | captures_other c cs ds : other_traffic port c.(cap_frame) → captures port cs ds → captures port (c :: cs) ds
  | captures_datagram c e d cs ds :
      c.(cap_frame) = udp_frame e port d → envelope_ok e → 8 + Z.of_nat (length d) < 65536 →
      captures port cs ds → captures port (c :: cs) (d :: ds).

(** What the replay has done more, after messages were replayed without error. *)
Record replayed (ms : list Mdp3.Decoded) (s s' : Replay) : Prop := {
  re_visited : s'.(rp_visited) = s.(rp_visited) ++ ms;
  re_udp : total_udp_packets s'.(rp_stats) = total_udp_packets s.(rp_stats) + Z.of_nat (length ms);
  re_ok : decoded_ok s'.(rp_stats) = decoded_ok s.(rp_stats) + Z.of_nat (length ms);
  re_errors : decode_errors s'.(rp_stats) = decode_errors s.(rp_stats);
  re_gaps : seq_gaps s'.(rp_stats) = seq_gaps s.(rp_stats)
}.
Lemma replayed_none s s' : rp_visited s' = rp_visited s → rp_stats s' = rp_stats s ∨ rp_stats s' = skip_packet (rp_stats s) → replayed [] s s'.
Proof.
  intros Hv Hs. split; [by rewrite app_nil_r|..]; cbn [length]; destruct Hs as [->| ->]; try destruct (rp_stats s); cbn; lia.
Qed.
Lemma replayed_trans ms ms' s1 s2 s3 : replayed ms s1 s2 → replayed ms' s2 s3 → replayed (ms ++ ms') s1 s3.
Proof. intros [] []. split; rewrite ?length_app, ?app_assoc; [congruence|lia..|congruence|congruence]. Qed.

Lemma replay_other port s c nano : 0 < port → other_traffic port c.(cap_frame) →
  ∀ p, packet_of nano c = Some p → let s' := replay_mdp3_packet port true s p in replayed [] s s' ∧ rp_expected s' = rp_expected s.
Proof.
  unfold other_traffic, packet_of. intros Hport Ho p Hp. destruct (parse_ethernet_ipv4 (cap_frame c)) as [[q|]| | |]; try done.
  injection Hp as <-. unfold replay_mdp3_packet. cbn [pp_packet]. destruct (pk_proto q); try (split; [|done]; apply replayed_none; [done|by right]).
  destruct Ho as [[]|Ho]; [done|]. replace (port =? 0) with false by (symmetry; apply Z.eqb_neq; lia).
  replace (pk_dst_port q =? port) with false by (symmetry; by apply Z.eqb_neq). cbn. split; [|done]. apply replayed_none; [done|by left].
Qed.
Lemma replay_datagram port e n pkt m s ts : 0 < port → in_uint16 port → envelope_ok e → carries_message pkt m →
  (rp_expected s = None ∨ rp_expected s = Some (wrap_u32 n)) →
  let d := le_bytes mcast_header_size (wrap_u32 n) ++ packet_bytes pkt in
  let s' := replay_mdp3_packet port true s (mkPcapPacket ts (mkPacket kUdp (le_value e.(en_src)) (le_value e.(en_dst)) e.(en_src_port) port d)) in
  replayed [m] s s' ∧ rp_expected s' = Some (wrap_u32 (wrap_u32 n + 1)).
Proof.
  intros Hport Hp He Hm Hexp d. unfold replay_mdp3_packet. cbn [pp_packet pk_proto pk_dst_port pk_payload].
  rewrite Z.eqb_refl, andb_false_r. unfold strip_sequence.
  assert (Hl : (mcast_header_size <=? length d)%nat = true) by (apply Nat.leb_le; unfold d; rewrite length_app, length_le_bytes; lia).
  rewrite Hl. cbn [andb].
  assert (Ht : take mcast_header_size d = le_bytes mcast_header_size (wrap_u32 n)) by (apply take_app_length'; by rewrite length_le_bytes).
  assert (Hd : drop mcast_header_size d = packet_bytes pkt) by (apply drop_app_length'; by rewrite length_le_bytes).
  assert (Hv : le_value (le_bytes mcast_header_size (wrap_u32 n)) = wrap_u32 n) by (apply le_value_id; apply wrap_u32_range).
  rewrite Ht, Hd, Hv. cbn [rp_expected rp_stats rp_visited].
  replace (wrap_u32 n =? default (wrap_u32 n) (rp_expected s)) with true by (symmetry; destruct Hexp as [->| ->]; apply Z.eqb_refl).
  unfold replay_message. unfold carries_message in Hm. rewrite Hm. cbn [rp_expected rp_stats rp_visited]. split; [|done].
  destruct (rp_stats s) eqn:Es. destruct m; split; cbn [rp_visited rp_stats count_udp count_decoded total_udp_packets decoded_ok decode_errors seq_gaps length];
    rewrite ?Es; cbn; done || lia.
Qed.

Lemma replay_captured port nano cs ds : 0 < port → in_uint16 port → captures port cs ds → ∀ pkts ms n s,
  ds = mcast_feed (wrap_u32 n) (packet_bytes <$> pkts) → Forall2 carries_message pkts ms →
  (rp_expected s = None ∨ rp_expected s = Some (wrap_u32 n)) →
  replayed ms s (fold_left (replay_mdp3_packet port true) (omap (packet_of nano) cs) s).
Proof.
  intros Hport Hp. induction 1 as [|c cs ds Ho _ IH|c e d cs ds Hc He Hl _ IH]; intros pkts ms n s Hds Hms Hexp.
  - destruct Hms; [|done]. apply replayed_none; [done|by left].
  - cbn [omap list_omap]. destruct (packet_of nano c) as [p|] eqn:E; [|by eapply IH]. cbn [fold_left].
    destruct (replay_other port s c nano Hport Ho p E) as [Hr He]. cbv zeta in Hr, He.
    apply (replayed_trans [] ms _ _ _ Hr). apply (IH pkts ms n); [done..|]. by rewrite He.
  - destruct Hms as [|pkt m pkts ms Hm Hms]; [done|]. rewrite fmap_cons in Hds. cbn [mcast_feed mcast_send] in Hds. injection Hds as -> Hds.
    cbn [omap list_omap]. unfold packet_of at 1. rewrite Hc, parse_udp_frame by done. cbn [fold_left].
    destruct (replay_datagram port e n pkt m s (cap_sec c * 1000000000 + (if nano then cap_frac c else cap_frac c * 1000)) Hport Hp He Hm Hexp) as [Hr Hx].
    cbv zeta in Hr, Hx. apply (replayed_trans [m] ms _ _ _ Hr). by apply (IH pkts ms (wrap_u32 n + 1)); [..|right].
Qed.

(** C33: A capture of a feed replays completely.  Whatever an engine reports:
    from a capture, in any of the four classic formats, of the datagrams of its
    CME feed among any other traffic, the replayer visits exactly the messages of
    the feed, in order, and counts every one of its datagrams as decoded, none as
    an error, and no gap. *)
Theorem mdp3_capture_replays iid group asset events port swapped nano head cs :
  in_int32 iid → is_chars 6 group → is_chars 6 asset → Forall feedable events →
  0 < port → in_uint16 port → length head = 20%nat → Forall is_byte head → frames_ok cs →
  ∃ p0 p, make_publisher iid group asset = Some p0 ∧ mdp3_listen events p0 = Some p ∧
    (captures port cs (mcast_feed 0 (packet_bytes <$> p.(pub_packets))) →
     ∃ s, replay_mdp3_pcap port true (capture_file swapped nano head cs) = Done s ∧
       s.(rp_visited) = feed_messages iid group asset 1 events ∧
       total_udp_packets s.(rp_stats) = Z.of_nat (length p.(pub_packets)) ∧
       decoded_ok s.(rp_stats) = Z.of_nat (length p.(pub_packets)) ∧
       decode_errors s.(rp_stats) = 0 ∧ seq_gaps s.(rp_stats) = 0).
Proof.
  intros Hi Hg Ha Hev Hport Hp Hl Hb Hok. destruct (feed_starts iid group asset events Hi Hg Ha Hev) as (p0 & p & Hm & Hlis & Hf).
  exists p0, p. split_and!; [done..|]. intros Hcap. unfold replay_mdp3_pcap. rewrite over_capture_file by done.
  eexists. split; [reflexivity|]. pose proof (Forall2_length _ _ _ Hf) as ->.
  destruct (replay_captured port nano cs _ Hport Hp Hcap p.(pub_packets) _ 0 (mkReplay no_stats None []) eq_refl Hf ltac:(by left)). done.
Qed.

(** ** Runs *)

Lemma capture_reads_in_bounds_witness :
  over_capture (λ n _, Datatypes.S n) 0%nat [0xd4; 0xc3; 0xb2; 0xa1; 7] ≠ BadRead ∧
  over_capture (λ n _, Datatypes.S n) 0%nat [0xd4; 0xc3; 0xb2; 0xa1; 7] ≠ NoFuel.
Proof.
  apply (capture_reads_in_bounds (λ n _, Datatypes.S n) 0%nat [0xd4; 0xc3; 0xb2; 0xa1; 7]). by apply (bool_decide_unpack _); vm_compute.
Defined.

Definition demo_envelope : envelope :=
  mkEnvelope (replicate 12 1) 6 (replicate 8 0) [0; 0] [10; 0; 0; 1] [239; 0; 31; 1] [1; 1; 1; 0] 40000 [0; 0].
Lemma demo_envelope_ok : envelope_ok demo_envelope.
Proof. by split. Qed.
(** The datagrams behind a frame that is too short to be one. *)
Definition record_of (d : list Z) : captured := mkCaptured 1700000000 5 600 (udp_frame demo_envelope 14310 d).
Definition capture_of (ds : list (list Z)) : list captured := mkCaptured 1700000000 1 60 (replicate 14 0) :: (record_of <$> ds).
Lemma captures_each ds : Forall (λ d, Z.of_nat (length d) < 60000) ds → captures 14310 (capture_of ds) ds.
Proof.
  intros H. apply captures_other; [by vm_compute|]. induction H as [|d ds Hd _ IH]; [constructor|].
  apply (captures_datagram _ _ demo_envelope); [done|apply demo_envelope_ok|lia|exact IH].
Qed.
Definition demo_datagrams : list (list Z) :=
  match make_publisher 17 (replicate 6 65) (replicate 6 66) ≫= mdp3_listen demo_events with
  | Some p => mcast_feed 0 (packet_bytes <$> p.(pub_packets))
  | None => []
  end.
#[global] Instance captured_ok_dec c : Decision (captured_ok c).
Proof. unfold captured_ok, in_uint32. apply _. Defined.
Lemma mdp3_capture_replays_witness :
  ∃ s, replay_mdp3_pcap 14310 true (capture_file true false (replicate 20 0) (capture_of demo_datagrams)) = Done s ∧
    s.(rp_visited) = feed_messages 17 (replicate 6 65) (replicate 6 66) 1 demo_events ∧ decode_errors s.(rp_stats) = 0.
Proof.
  destruct (mdp3_capture_replays 17 (replicate 6 65) (replicate 6 66) demo_events 14310 true false (replicate 20 0) (capture_of demo_datagrams))
    as (p0 & p & Hm & Hl & H); try done; try (by apply constant_chars; vm_compute).
  - apply demo_events_feedable.
  - by apply (bool_decide_unpack _); vm_compute.
  - by apply (bool_decide_unpack _); vm_compute.
  - assert (Hd : mcast_feed 0 (packet_bytes <$> p.(pub_packets)) = demo_datagrams) by (unfold demo_datagrams; rewrite Hm; cbn [mbind option_bind]; by rewrite Hl).
    rewrite Hd in H. destruct H as (s & Hs & Hv & _ & _ & He & _); [|exists s; exact (conj Hs (conj Hv He))].
    apply captures_each. apply (bool_decide_unpack _). by vm_compute.
Defined.

(** The server sends the length and the message with two calls, and the
    socket does not hold small pieces back: captured as two segments, a message
    is two errors for the replayer.  Two messages in one segment are one. *)
Definition demo_order_bytes : list Z := default [] (send demo_ctx (CNew demo_order)).
Definition replay_segments (segments : list (list Z)) : Ilink3Replay :=
  fold_left (replay_ilink3_packet 0 true) ((λ bs, mkPcapPacket 0 (mkPacket kTcp 0 0 1 2 bs)) <$> segments) no_ilink3.
Definition ok_and_errors (s : Ilink3Replay) : Z * Z := (il_decoded_ok s.(ir_stats), il_decode_errors s.(ir_stats)).
Example segments_not_reassembled :
  ok_and_errors (replay_segments [frame demo_order_bytes]) = (1, 0) ∧
  ok_and_errors (replay_segments [frame_header demo_order_bytes; demo_order_bytes]) = (0, 2) ∧
  ok_and_errors (replay_segments [frame demo_order_bytes ++ frame demo_order_bytes]) = (1, 0).
Proof. vm_compute. done. Qed.
