(* ===== verification/Reconciler.v ===== *)
(** * Reconciling journals: [src/tools/journal_reconciler.h]

    The lines of the traders' journals and of the observer's journal, the eight
    checks of one against the other, and what each of them says about the two
    sides. *)

From Stdlib Require Import Ascii String Sorted.
From S2P Require Import Prelude Types Text Journal.

#[local] Open Scope Z_scope.

(** ** Lines *)

Inductive line_kind : Type := ActionLine | ExpectLine.
#[global] Instance line_kind_eq_dec : EqDecision line_kind.
Proof. solve_decision. Defined.

Record FlatJournalLine : Type := mkFlatLine { fj_kind : line_kind; fj_type : list Z; fj_fields : field_map }.

(** A field that is missing reads as 0, or as the empty string. *)
Definition get_int (l : FlatJournalLine) (key : list Z) : throws Z :=
  match l.(fj_fields) !! key with Some v => stoll v | None => inr 0 end.
Definition get_str (l : FlatJournalLine) (key : list Z) : list Z := default [] (l.(fj_fields) !! key).
Definition has_field (l : FlatJournalLine) (key : list Z) : bool := bool_decide (is_Some (l.(fj_fields) !! key)).
Definition line_ts (l : FlatJournalLine) : throws Z := get_int l (chars "ts").

(** The words after the type; those without an equals sign are skipped. *)
Fixpoint flat_fields (tokens : list (list Z)) (out : field_map) : field_map :=
  match tokens with
  | [] => out
  | tok :: tokens' =>
      flat_fields tokens' (match split_at 61 tok with Some (key, value) => <[key := value]> out | None => out end)
  end.
Definition parse_flat_line (raw : list Z) : option FlatJournalLine :=
  let line := strip_cr raw in
  match first_visible line with
  | None | Some 35 => None
  | Some _ =>
      match split line with
      | keyword :: type :: tokens =>
          if bool_decide (keyword = chars "ACTION") then Some (mkFlatLine ActionLine type (flat_fields tokens ∅))
          else if bool_decide (keyword = chars "EXPECT") then Some (mkFlatLine ExpectLine type (flat_fields tokens ∅))
          else None
      | _ => None
      end
  end.
Definition parse_flat_journal (content : list Z) : list FlatJournalLine := omap parse_flat_line (lines content).

(** ** The report *)

Record ReconciliationReport : Type := mkReport {
  observer_trades : Z; matched_trades : Z; unmatched_trades : Z;
  observer_book_adds : Z; book_adds_traced : Z;
  observer_book_deletes : Z; book_deletes_traced_to_cancel : Z; book_deletes_traced_to_fill : Z;
  ordering_violations : Z; phantom_trades : Z; phantom_book_adds : Z;
  accepted_without_book_add_or_trade : Z; fill_without_trade : Z; cancelled_without_book_delete : Z;
  final_book_levels : Z; price_mismatches : Z; qty_mismatches : Z;
  total_observer_events : Z; total_client_journals : Z
}.
Definition all_pass (r : ReconciliationReport) : bool :=
  (r.(unmatched_trades) =? 0) && (r.(observer_book_adds) =? r.(book_adds_traced)) &&
  (r.(observer_book_deletes) =? r.(book_deletes_traced_to_cancel) + r.(book_deletes_traced_to_fill)) &&
  (r.(ordering_violations) =? 0) && (r.(phantom_trades) =? 0) && (r.(phantom_book_adds) =? 0) &&
  (r.(accepted_without_book_add_or_trade) =? 0) && (r.(fill_without_trade) =? 0) &&
  (r.(cancelled_without_book_delete) =? 0) && (r.(final_book_levels) =? 0) &&
  (r.(price_mismatches) =? 0) && (r.(qty_mismatches) =? 0).

(** ** Consolidation and indexes *)

Definition is_type (t : string) (l : FlatJournalLine) : bool := bool_decide (l.(fj_type) = chars t).
Definition is_expect (l : FlatJournalLine) : bool := bool_decide (l.(fj_kind) = ExpectLine).
Definition is_fill (l : FlatJournalLine) : bool := is_type "EXEC_FILL" l || is_type "EXEC_PARTIAL_FILL" l.

(** Lines of one kind of all journals, sorted by time: the times are read if
    there are two lines to compare.  The order of equal times does not matter
    to what follows. *)
Definition earlier (a b : Z * FlatJournalLine) : Prop := a.1 <= b.1.
#[global] Instance earlier_decision : RelDecision earlier.
Proof. intros a b. unfold earlier. apply _. Defined.
Definition consolidate (kind : line_kind) (journals : list (list FlatJournalLine)) : throws (list FlatJournalLine) :=
  let all := filter (λ l, l.(fj_kind) = kind) (concat journals) in
  if (length all <=? 1)%nat then inr all
  else times ← mapM line_ts all; inr (merge_sort earlier (zip times all)).*2.

Abbreviation FillIndex := (gmap (Z * Z) (list FlatJournalLine)).
Definition fill_key (l : FlatJournalLine) : throws (Z * Z) :=
  price ← get_int l (chars "fill_price"); qty ← get_int l (chars "fill_qty"); inr (price, qty).
Definition index_fill (idx : FillIndex) (key : Z * Z) (l : FlatJournalLine) : FillIndex :=
  <[key := default [] (idx !! key) ++ [l]]> idx.
Fixpoint build_fill_index (expects : list FlatJournalLine) (idx : FillIndex) : throws FillIndex :=
  match expects with
  | [] => inr idx
  | l :: expects' =>
      if is_fill l then key ← fill_key l; build_fill_index expects' (index_fill idx key l)
      else build_fill_index expects' idx
  end.

(** The identifiers of the lines that pass a test. *)
Fixpoint order_ids (test : FlatJournalLine → throws bool) (expects : list FlatJournalLine) (ids : gset Z) : throws (gset Z) :=
  match expects with
  | [] => inr ids
  | l :: expects' =>
      b ← test l;
      if b : bool then id ← get_int l (chars "order_id"); order_ids test expects' ({[id]} ∪ ids)
      else order_ids test expects' ids
  end.
Definition is_cancelled (l : FlatJournalLine) : throws bool :=
  inr (is_type "ORDER_CANCELLED" l && has_field l (chars "order_id")).
Definition is_full_fill (l : FlatJournalLine) : throws bool :=
  if is_fill l && has_field l (chars "leaves_qty") then leaves ← get_int l (chars "leaves_qty"); inr (leaves =? 0)
  else inr false.
Definition build_cancel_set (expects : list FlatJournalLine) : throws (gset Z) := order_ids is_cancelled expects ∅.
Definition build_full_fill_set (expects : list FlatJournalLine) : throws (gset Z) := order_ids is_full_fill expects ∅.

(** ** The checks *)

(** 1: every trade takes two fills of its price and quantity. *)
Definition trade_key (l : FlatJournalLine) : throws (Z * Z) :=
  price ← get_int l (chars "price"); qty ← get_int l (chars "qty"); inr (price, qty).
Fixpoint check_inv1 (obs_trades : list FlatJournalLine) (idx : FillIndex) : throws (Z * Z * FillIndex) :=
  match obs_trades with
  | [] => inr (0, 0, idx)
  | trade :: obs_trades' =>
      key ← trade_key trade;
      match idx !! key with
      | Some (_ :: _ :: fills) =>
          '(matched, unmatched, idx) ← check_inv1 obs_trades' (<[key := fills]> idx);
          inr (matched + 1, unmatched, idx)
      | _ =>
          '(matched, unmatched, idx) ← check_inv1 obs_trades' idx;
          inr (matched, unmatched + 1, idx)
      end
  end.

(** 2: every new level is that of an order accepted after its action. *)
Record AcceptedOrder : Type := mkAccepted { ao_price : Z; ao_side : list Z; ao_consumed : bool }.
Fixpoint contains (word s : list Z) : bool :=
  bool_decide (word `prefix_of` s) || match s with [] => false | _ :: s' => contains word s' end.
Fixpoint accepted_in (pending : option FlatJournalLine) (journal : list FlatJournalLine) : throws (list AcceptedOrder) :=
  match journal with
  | [] => inr []
  | l :: journal' =>
      match l.(fj_kind), pending with
      | ActionLine, _ => accepted_in (if contains (chars "NEW_ORDER") l.(fj_type) then Some l else None) journal'
      | ExpectLine, Some action =>
          if is_type "ORDER_ACCEPTED" l then
            price ← get_int action (chars "price");
            rest ← accepted_in None journal';
            inr (mkAccepted price (get_str action (chars "side")) false :: rest)
          else accepted_in pending journal'
      | ExpectLine, None => accepted_in pending journal'
      end
  end.
Fixpoint accepted_orders (journals : list (list FlatJournalLine)) : throws (list AcceptedOrder) :=
  match journals with
  | [] => inr []
  | j :: journals' => orders ← accepted_in None j; rest ← accepted_orders journals'; inr (orders ++ rest)
  end.
(** The first order of the price and side that is not consumed is consumed. *)
Fixpoint consume (price : Z) (side : list Z) (orders : list AcceptedOrder) : option (list AcceptedOrder) :=
  match orders with
  | [] => None
  | o :: orders' =>
      if negb o.(ao_consumed) && (o.(ao_price) =? price) && bool_decide (o.(ao_side) = side)
      then Some (mkAccepted o.(ao_price) o.(ao_side) true :: orders')
      else orders' ← consume price side orders'; Some (o :: orders')
  end.
Fixpoint check_inv2 (obs_book_adds : list FlatJournalLine) (orders : list AcceptedOrder) : throws Z :=
  match obs_book_adds with
  | [] => inr 0
  | add :: obs_book_adds' =>
      price ← get_int add (chars "price");
      match consume price (get_str add (chars "side")) orders with
      | Some orders => traced ← check_inv2 obs_book_adds' orders; inr (traced + 1)
      | None => check_inv2 obs_book_adds' orders
      end
  end.

(** 3: deletes are put down to cancels, then to fills, by number. *)
Definition check_inv3 (total_deletes cancel_count fill_count : Z) : Z * Z :=
  let traced_to_cancel := Z.min total_deletes cancel_count in
  (traced_to_cancel, Z.min (total_deletes - traced_to_cancel) fill_count).

(** 4: times do not decrease. *)
Fixpoint check_inv4 (prev_ts : Z) (obs_events : list FlatJournalLine) : throws Z :=
  match obs_events with
  | [] => inr 0
  | e :: obs_events' =>
      ts ← line_ts e;
      violations ← check_inv4 ts obs_events';
      inr (if ts <? prev_ts then violations + 1 else violations)
  end.

(** 6: what the traders saw and the observer did not, by number. *)
Definition count_type (t : string) (ls : list FlatJournalLine) : Z := Z.of_nat (length (filter (λ l, is_type t l = true) ls)).
Definition count_fills (ls : list FlatJournalLine) : Z := Z.of_nat (length (filter (λ l, is_fill l = true) ls)).
Definition check_inv6 (expects : list FlatJournalLine) (trades adds deletes : Z) : throws (Z * Z * Z) :=
  immediately_filled ← build_full_fill_set expects;
  let expected_book_adds := count_type "ORDER_ACCEPTED" expects - Z.of_nat (size (immediately_filled : gset Z)) in
  let expected_trades := Z.quot (count_fills expects) 2 in
  inr (Z.max 0 (expected_book_adds - adds), Z.max 0 (expected_trades - trades),
       Z.max 0 (count_type "ORDER_CANCELLED" expects - deletes)).

(** 7: the levels left, adds less deletes. *)
Abbreviation LevelCount := (gmap (list Z * Z) Z).
Fixpoint count_levels (delta : Z) (ls : list FlatJournalLine) (book : LevelCount) : throws LevelCount :=
  match ls with
  | [] => inr book
  | l :: ls' =>
      price ← get_int l (chars "price");
      let key := (get_str l (chars "side"), price) in
      count_levels delta ls' (<[key := default 0 (book !! key) + delta]> book)
  end.
Definition check_inv7 (obs_book_adds obs_book_deletes : list FlatJournalLine) : throws Z :=
  book ← count_levels 1 obs_book_adds ∅;
  book ← count_levels (-1) obs_book_deletes book;
  inr (sum_by (λ kv : (list Z * Z) * Z, if kv.2 >? 0 then kv.2 else 0) (map_to_list book)).

(** 8: trades without a fill of their price and quantity left; fills of the same
    price or quantity are looked for in the order in which the map is walked. *)
Class BucketOrder : Type := {
  walk_buckets : FillIndex → list ((Z * Z) * list FlatJournalLine);
  walk_buckets_perm : ∀ m, walk_buckets m ≡ₚ map_to_list m
}.
Inductive mismatch : Type := QtyMismatch | PriceMismatch.
Fixpoint first_mismatch_in (key : Z * Z) (buckets : list ((Z * Z) * list FlatJournalLine)) : option mismatch :=
  match buckets with
  | [] => None
  | ((fk_price, fk_qty), fills) :: buckets' =>
      match fills with
      | [] => first_mismatch_in key buckets'
      | _ =>
          if (fk_price =? key.1) && negb (fk_qty =? key.2) then Some QtyMismatch
          else if (fk_qty =? key.2) && negb (fk_price =? key.1) then Some PriceMismatch
          else first_mismatch_in key buckets'
      end
  end.
Fixpoint check_inv8 `{BucketOrder} (obs_trades : list FlatJournalLine) (idx : FillIndex) : throws (Z * Z) :=
  match obs_trades with
  | [] => inr (0, 0)
  | trade :: obs_trades' =>
      key ← trade_key trade;
      '(prices, qtys) ← check_inv8 obs_trades' idx;
      inr match idx !! key with
          | Some (_ :: _) => (prices, qtys)
          | _ =>
              match first_mismatch_in key (walk_buckets idx) with
              | Some QtyMismatch => (prices, qtys + 1)
              | Some PriceMismatch => (prices + 1, qtys)
              | None => (prices, qtys)
              end
          end
  end.

(** ** Reconciliation *)

Definition of_type (t : string) (ls : list FlatJournalLine) : list FlatJournalLine := filter (λ l, is_type t l = true) ls.

Definition reconcile `{BucketOrder} (traders : list (list FlatJournalLine)) (observer : list FlatJournalLine)
    : throws ReconciliationReport :=
  expects ← consolidate ExpectLine traders;
  _ ← consolidate ActionLine traders;
  idx ← build_fill_index expects ∅;
  cancel_set ← build_cancel_set expects;
  full_fill_set ← build_full_fill_set expects;
  let events := filter (λ l, is_expect l = true) observer in
  let obs_trades := of_type "MD_TRADE" events in
  let obs_book_adds := of_type "MD_BOOK_ADD" events in
  let obs_book_deletes := of_type "MD_BOOK_DELETE" events in
  let count ls := Z.of_nat (length (ls : list FlatJournalLine)) in
  '(matched, unmatched, idx) ← check_inv1 obs_trades idx;
  orders ← accepted_orders traders;
  traced ← check_inv2 obs_book_adds orders;
  let '(to_cancel, to_fill) :=
    check_inv3 (count obs_book_deletes) (Z.of_nat (size (cancel_set : gset Z))) (Z.of_nat (size (full_fill_set : gset Z))) in
  violations ← check_inv4 0 events;
  '(lost_adds, lost_trades, lost_deletes) ← check_inv6 expects (count obs_trades) (count obs_book_adds) (count obs_book_deletes);
  levels ← check_inv7 obs_book_adds obs_book_deletes;
  '(prices, qtys) ← check_inv8 obs_trades idx;
  inr (mkReport (count obs_trades) matched unmatched (count obs_book_adds) traced (count obs_book_deletes) to_cancel to_fill
         violations unmatched (count obs_book_adds - traced) lost_adds lost_trades lost_deletes levels prices qtys
         (count observer) (Z.of_nat (length traders))).

Implicit Types (l : FlatJournalLine) (ls : list FlatJournalLine) (idx : FillIndex).

(** ** Reading numbers *)

Definition int_of (l : FlatJournalLine) (key : list Z) : Z := match get_int l key with inr v => v | inl _ => 0 end.
Definition int_keys : list (list Z) :=
  [chars "ts"; chars "price"; chars "qty"; chars "fill_price"; chars "fill_qty"; chars "order_id"; chars "leaves_qty"].
(** The numbers of a line that the checks read are numbers. *)
Definition readable (l : FlatJournalLine) : Prop := Forall (λ key, get_int l key = inr (int_of l key)) int_keys.
#[global] Instance int_read_dec l key : Decision (get_int l key = inr (int_of l key)).
Proof. unfold int_of. destruct (get_int l key); [by right|by left]. Defined.
#[global] Instance readable_dec l : Decision (readable l).
Proof. unfold readable. apply _. Defined.
Lemma readable_int l key : readable l → key ∈ int_keys → get_int l key = inr (int_of l key).
Proof. unfold readable. rewrite Forall_forall. auto. Qed.
Ltac reads H := rewrite (readable_int _ _ H) by (apply (bool_decide_eq_true_1 _); vm_compute; reflexivity); cbn [mbind throws_bind].

Lemma line_ts_read l : readable l → line_ts l = inr (int_of l (chars "ts")).
Proof. intros H. unfold line_ts. by reads H. Qed.

(** ** Counting *)

(** How often a key occurs. *)
Definition times {K} `{EqDecision K} (key : FlatJournalLine → K) (k : K) (ls : list FlatJournalLine) : nat :=
  length (filter (λ l, key l = k) ls).
Lemma times_cons {K} `{EqDecision K} (key : FlatJournalLine → K) k l ls :
  times key k (l :: ls) = ((if decide (key l = k) then 1 else 0) + times key k ls)%nat.
Proof. unfold times. rewrite filter_cons. by destruct (decide (key l = k)). Qed.
#[global] Instance times_proper {K} `{EqDecision K} (key : FlatJournalLine → K) k : Proper ((≡ₚ) ==> (=)) (times key k).
Proof. intros ls ls' H. unfold times. by rewrite H. Qed.

Definition fill_of l : Z * Z := (int_of l (chars "fill_price"), int_of l (chars "fill_qty")).
Definition trade_at l : Z * Z := (int_of l (chars "price"), int_of l (chars "qty")).
Definition level_at l : Z * list Z := (int_of l (chars "price"), get_str l (chars "side")).
Definition fills_of ls : list FlatJournalLine := filter (λ l, is_fill l = true) ls.
#[global] Instance fills_of_proper : Proper ((≡ₚ) ==> (≡ₚ)) fills_of.
Proof. intros ls ls' H. unfold fills_of. by rewrite H. Qed.

(** ** Consolidation *)

Lemma consolidate_perm kind journals : Forall readable (concat journals) →
  ∃ ls, consolidate kind journals = inr ls ∧ ls ≡ₚ filter (λ l, l.(fj_kind) = kind) (concat journals).
Proof.
  intros H. unfold consolidate. set (all := filter _ _). destruct (length all <=? 1)%nat; [by exists all|].
  assert (Hm : mapM line_ts all = inr ((λ l, int_of l (chars "ts")) <$> all)).
  { assert (Ha : Forall readable all) by (apply Forall_forall; intros l [_ Hl]%list_elem_of_filter; rewrite Forall_forall in H; by apply H).
    induction Ha as [|l ls Hl _ IH]; [done|]. cbn [mapM]. rewrite line_ts_read by done. cbn [mbind throws_bind]. by rewrite IH. }
  rewrite Hm. cbn [mbind throws_bind]. eexists. split; [done|]. rewrite merge_sort_Permutation, snd_zip; [done|].
  by rewrite length_fmap.
Qed.

(** ** Fills and trades *)

Definition bucket idx (k : Z * Z) : nat := length (default [] (idx !! k)).

Lemma fill_index_buckets ls : Forall readable ls → ∀ idx, ∃ idx', build_fill_index ls idx = inr idx' ∧
  ∀ k, bucket idx' k = (bucket idx k + times fill_of k (fills_of ls))%nat.
Proof.
  unfold fills_of. induction 1 as [|l ls Hl _ IH]; intros idx.
  - exists idx. split; [done|]. intros k. cbn. lia.
  - cbn [build_fill_index]. rewrite filter_cons. destruct (is_fill l); cbn [decide].
    + unfold fill_key. reads Hl. reads Hl. destruct (IH (index_fill idx (fill_of l) l)) as (idx' & Hb & Hk).
      exists idx'. split; [exact Hb|]. intros k. rewrite Hk. destruct (decide (true = true)); [|done].
      rewrite times_cons. unfold bucket, index_fill. destruct (decide (fill_of l = k)) as [<-|Hne].
      * rewrite lookup_insert_eq. cbn. rewrite length_app. cbn. lia.
      * by rewrite lookup_insert_ne.
    + destruct (IH idx) as (idx' & Hb & Hk). exists idx'. split; [exact Hb|]. intros k. by rewrite Hk.
Qed.

Lemma inv1_matches ls : Forall readable ls → ∀ idx, ∃ m u idx', check_inv1 ls idx = inr (m, u, idx') ∧ 0 <= m ∧ 0 <= u ∧
  m + u = Z.of_nat (length ls) ∧
  (u = 0 → ∀ k, (bucket idx' k + 2 * times trade_at k ls)%nat = bucket idx k) ∧
  ((∀ k, (2 * times trade_at k ls <= bucket idx k)%nat) → u = 0).
Proof.
  induction 1 as [|l ls Hl _ IH]; intros idx.
  - exists 0, 0, idx. split_and!; [done..|intros _ k; cbn; lia|done].
  - cbn [check_inv1]. unfold trade_key. reads Hl. reads Hl. change (int_of l _, int_of l _) with (trade_at l).
    assert (Hb : ∀ fills, idx !! trade_at l = Some fills → bucket idx (trade_at l) = length fills) by (intros fills E; unfold bucket; by rewrite E).
    destruct (idx !! trade_at l) as [[|f1 [|f2 fills]]|] eqn:E.
    3: { destruct (IH (<[trade_at l := fills]> idx)) as (m & u & idx' & Hc & Hm & Hu & Hmu & Hleft & Hall). rewrite Hc. cbn [mbind throws_bind].
      assert (Hbk : ∀ k, bucket (<[trade_at l := fills]> idx) k = (bucket idx k - (if decide (trade_at l = k) then 2 else 0))%nat).
      { intros k. unfold bucket. destruct (decide (trade_at l = k)) as [<-|Hne].
        - rewrite lookup_insert_eq, E. cbn. lia.
        - rewrite lookup_insert_ne by done. lia. }
      exists (m + 1), u, idx'. cbn [length]. split_and!; [done|lia..| |].
      - intros Hu0 k. specialize (Hleft Hu0 k). rewrite Hbk in Hleft. rewrite times_cons. specialize (Hb _ eq_refl). cbn in Hb.
        destruct (decide (trade_at l = k)) as [<-|]; lia.
      - intros Hk. apply Hall. intros k. rewrite Hbk. specialize (Hk k). rewrite times_cons in Hk. destruct (decide (trade_at l = k)); lia. }
    all: destruct (IH idx) as (m & u & idx' & Hc & Hm & Hu & Hmu & _); rewrite Hc; cbn [mbind throws_bind].
    all: exists m, (u + 1), idx'; cbn [length]; split_and!; [done|lia..|].
    all: intros Hk; specialize (Hk (trade_at l)); rewrite times_cons, decide_True in Hk by done; unfold bucket in Hk; rewrite E in Hk; cbn in Hk; lia.
Qed.

Lemma buckets_without_mismatch key buckets : first_mismatch_in key buckets = None ↔
  ∀ k fills, (k, fills) ∈ buckets → fills ≠ [] → k = key ∨ k.1 ≠ key.1 ∧ k.2 ≠ key.2.
Proof.
  induction buckets as [|[[p q] fills] buckets IH]; cbn [first_mismatch_in].
  - split; [|done]. intros _ k fills Hin. by apply elem_of_nil in Hin.
  - destruct fills as [|f fills].
    + rewrite IH. split; intros H k fills Hin Hne; [|apply (H k fills); [by right|done]].
      apply elem_of_cons in Hin as [[= -> ->]|Hin]; [done|by eapply H].
    + destruct key as [kp kq]. cbn [fst snd] in *. destruct (Z.eqb_spec p kp) as [->|Hp], (Z.eqb_spec q kq) as [->|Hq]; cbn [andb negb].
      * rewrite IH. split; intros H k fills' Hin Hne; [|apply (H k fills'); [by right|done]].
        apply elem_of_cons in Hin as [[= -> ->]|Hin]; [by left|by eapply H].
      * split; [done|]. intros H. specialize (H (kp, q) (f :: fills) (list_elem_of_here _ _) ltac:(done)) as [[= ->]|[Hx _]]; done.
      * split; [done|]. intros H. specialize (H (p, kq) (f :: fills) (list_elem_of_here _ _) ltac:(done)) as [[= ->]|[_ Hx]]; done.
      * rewrite IH. split; intros H k fills' Hin Hne; [|apply (H k fills'); [by right|done]].
        apply elem_of_cons in Hin as [[= -> ->]|Hin]; [by right|by eapply H].
Qed.

(** No fills of the price or of the quantity of a trade are left beside those of
    both. *)
Definition no_mismatch idx (key : Z * Z) : Prop :=
  bucket idx key = 0%nat → ∀ k, (0 < bucket idx k)%nat → k.1 ≠ key.1 ∧ k.2 ≠ key.2.

Lemma mismatch_free `{BucketOrder} idx key : bucket idx key = 0%nat →
  first_mismatch_in key (walk_buckets idx) = None ↔ no_mismatch idx key.
Proof.
  intros Hb. rewrite buckets_without_mismatch. unfold no_mismatch. split.
  - intros H0 _ k Hk. unfold bucket in Hk. destruct (idx !! k) as [fills|] eqn:E; [|cbn in Hk; lia].
    assert (Hin : (k, fills) ∈ walk_buckets idx) by (rewrite walk_buckets_perm; by apply elem_of_map_to_list).
    destruct (H0 k fills Hin) as [->|?]; [by intros ->; cbn in Hk; lia| |done].
    unfold bucket in Hb. rewrite E in Hb. cbn in *. lia.
  - intros H0 k fills Hin Hne. right. apply (H0 Hb). rewrite walk_buckets_perm in Hin. apply elem_of_map_to_list in Hin.
    unfold bucket. rewrite Hin. destruct fills; [done|cbn; lia].
Qed.

Lemma inv8_mismatches `{BucketOrder} ls idx : Forall readable ls → ∃ p q, check_inv8 ls idx = inr (p, q) ∧ 0 <= p ∧ 0 <= q ∧
  (p = 0 ∧ q = 0 ↔ Forall (λ l, no_mismatch idx (trade_at l)) ls).
Proof.
  induction 1 as [|l ls Hl _ (p & q & Hc & Hp & Hq & Hiff)]; [by exists 0, 0|].
  cbn [check_inv8]. unfold trade_key. reads Hl. reads Hl. change (int_of l _, int_of l _) with (trade_at l).
  rewrite Hc. cbn [mbind throws_bind].
  destruct (decide (bucket idx (trade_at l) = 0%nat)) as [Hb|Hb].
  - assert (Hm : match idx !! trade_at l with
                 | Some (_ :: _) => (p, q)
                 | _ => match first_mismatch_in (trade_at l) (walk_buckets idx) with
                        | Some QtyMismatch => (p, q + 1) | Some PriceMismatch => (p + 1, q) | None => (p, q) end
                 end = match first_mismatch_in (trade_at l) (walk_buckets idx) with
                        | Some QtyMismatch => (p, q + 1) | Some PriceMismatch => (p + 1, q) | None => (p, q) end)
      by (unfold bucket in Hb; by destruct (idx !! trade_at l) as [[|]|]).
    rewrite Hm. pose proof (mismatch_free idx (trade_at l) Hb) as Hfree.
    destruct (first_mismatch_in _ _) as [[]|].
    + eexists _, _. split; [done|]. split_and!; [lia..|]. rewrite Forall_cons, <- Hfree. split; [lia|by intros [? _]].
    + eexists _, _. split; [done|]. split_and!; [lia..|]. rewrite Forall_cons, <- Hfree. split; [lia|by intros [? _]].
    + exists p, q. split_and!; [done..|]. rewrite Forall_cons, <- Hfree, Hiff. naive_solver.
  - assert (Hm : ∃ f fills, idx !! trade_at l = Some (f :: fills))
      by (unfold bucket in Hb; destruct (idx !! trade_at l) as [[|f fills]|]; [done|by eexists _, _|done]).
    destruct Hm as (f & fills & ->). exists p, q. split_and!; [done..|]. rewrite Forall_cons, Hiff.
    split; [intros ?; split; [by intros ?|done]|by intros [_ ?]].
Qed.

(** ** New levels *)

(** The price and side of the orders accepted, in order. *)
Fixpoint accepted_at (pending : option FlatJournalLine) (journal : list FlatJournalLine) : list (Z * list Z) :=
  match journal with
  | [] => []
  | l :: journal' =>
      match l.(fj_kind), pending with
      | ActionLine, _ => accepted_at (if contains (chars "NEW_ORDER") l.(fj_type) then Some l else None) journal'
      | ExpectLine, Some action =>
          if is_type "ORDER_ACCEPTED" l then level_at action :: accepted_at None journal' else accepted_at pending journal'
      | ExpectLine, None => accepted_at pending journal'
      end
  end.
Definition fresh (k : Z * list Z) : AcceptedOrder := mkAccepted k.1 k.2 false.

Lemma accepted_in_at journal : Forall readable journal → ∀ pending, from_option readable True pending →
  accepted_in pending journal = inr (fresh <$> accepted_at pending journal).
Proof.
  induction 1 as [|l journal Hl _ IH]; intros pending Hp; [done|]. cbn [accepted_in accepted_at].
  destruct (fj_kind l); [by apply IH; case_match|]. destruct pending as [action|]; [|by apply IH].
  destruct (is_type _ l); [|by apply IH]. cbn in Hp. reads Hp. rewrite IH by done. cbn [mbind throws_bind]. done.
Qed.
Lemma accepted_orders_at journals : Forall (Forall readable) journals →
  accepted_orders journals = inr (fresh <$> (journals ≫= accepted_at None)).
Proof.
  induction 1 as [|j journals Hj _ IH]; [done|]. cbn [accepted_orders]. rewrite accepted_in_at by done. cbn [mbind throws_bind].
  rewrite IH. cbn [mbind throws_bind]. by rewrite bind_cons, fmap_app.
Qed.

(** The orders of a price and side that are not consumed. *)
Definition available (orders : list AcceptedOrder) (k : Z * list Z) : nat :=
  length (filter (λ o, ao_consumed o = false ∧ (ao_price o, ao_side o) = k) orders).
Lemma available_cons o orders k : available (o :: orders) k =
  ((if decide (ao_consumed o = false ∧ (ao_price o, ao_side o) = k) then 1 else 0) + available orders k)%nat.
Proof. unfold available. rewrite filter_cons. by destruct (decide _). Qed.
Lemma consume_available price side orders :
  match consume price side orders with
  | Some orders' => ∀ k, available orders k = ((if decide ((price, side) = k) then 1 else 0) + available orders' k)%nat
  | None => available orders (price, side) = 0%nat
  end.
Proof.
  induction orders as [|o orders IH]; [done|]. cbn [consume].
  destruct (negb (ao_consumed o) && (ao_price o =? price) && bool_decide (ao_side o = side)) eqn:E.
  - apply andb_prop in E as [[Hc%negb_true_iff Hp%Z.eqb_eq]%andb_prop Hs%bool_decide_eq_true]. intros k.
    rewrite !available_cons. cbn [ao_consumed ao_price ao_side]. rewrite Hp, Hs.
    rewrite (decide_False (P := true = false ∧ _)) by (by intros [? _]).
    destruct (decide ((price, side) = k)) as [?|?]; [rewrite decide_True by done|rewrite decide_False by (by intros [_ ?])]; lia.
  - assert (Hno : ¬ (ao_consumed o = false ∧ (ao_price o, ao_side o) = (price, side))).
    { intros [Hc [= Hp Hs]]. rewrite Hc, Hp, Z.eqb_refl, bool_decide_eq_true_2 in E by done. done. }
    destruct (consume price side orders) as [orders'|]; cbn [mbind option_bind].
    + intros k. rewrite !available_cons. rewrite IH. lia.
    + rewrite available_cons, decide_False by done. exact IH.
Qed.

Lemma inv2_traced ls : Forall readable ls → ∀ orders, ∃ t, check_inv2 ls orders = inr t ∧ 0 <= t <= Z.of_nat (length ls) ∧
  (t = Z.of_nat (length ls) ↔ ∀ k, (times level_at k ls <= available orders k)%nat).
Proof.
  induction 1 as [|l ls Hl _ IH]; intros orders.
  - exists 0. split_and!; [done..|]. split; [intros _ k; cbn; lia|done].
  - cbn [check_inv2]. reads Hl. pose proof (consume_available (int_of l (chars "price")) (get_str l (chars "side")) orders) as Hcons.
    change (int_of l (chars "price"), get_str l (chars "side")) with (level_at l) in Hcons. cbn [length].
    destruct (consume _ _ orders) as [orders'|].
    + destruct (IH orders') as (t & Ht & Hr & Hiff). rewrite Ht. cbn [mbind throws_bind]. exists (t + 1). split_and!; [done|lia..|].
      assert (Heq : t + 1 = Z.of_nat (S (length ls)) ↔ t = Z.of_nat (length ls)) by lia. rewrite Heq, Hiff.
      split; intros H0 k; specialize (H0 k); specialize (Hcons k); rewrite times_cons in *; destruct (decide (level_at l = k)); lia.
    + destruct (IH orders) as (t & Ht & Hr & Hiff). rewrite Ht. exists t. split_and!; [done|lia..|]. split; [lia|].
      intros H0. specialize (H0 (level_at l)). rewrite times_cons, decide_True in H0 by done. lia.
Qed.
Lemma available_fresh ks k : available (fresh <$> ks) k = length (filter (λ k', k' = k) ks).
Proof.
  induction ks as [|k' ks IH]; [done|]. rewrite fmap_cons, available_cons, filter_cons, IH.
  cbn [fresh ao_consumed ao_price ao_side]. destruct k' as [p s]. cbn [fst snd]. destruct (decide ((p, s) = k)).
  - rewrite decide_True by done. done.
  - rewrite decide_False by (by intros [_ ?]). done.
Qed.

(** ** Deletes, times and identifiers *)

Lemma inv3_covers d c f : 0 <= d → 0 <= c → 0 <= f → d = (check_inv3 d c f).1 + (check_inv3 d c f).2 ↔ d <= c + f.
Proof. intros. cbn. lia. Qed.

Definition time_of l : Z := int_of l (chars "ts").
Lemma inv4_ordered ls : Forall readable ls → ∀ prev, ∃ v, check_inv4 prev ls = inr v ∧ 0 <= v ∧
  (v = 0 ↔ Sorted Z.le (prev :: (time_of <$> ls))).
Proof.
  induction 1 as [|l ls Hl _ IH]; intros prev.
  - exists 0. split_and!; [done..|]. split; [|done]. repeat constructor.
  - cbn [check_inv4]. rewrite line_ts_read by done. cbn [mbind throws_bind]. fold (time_of l).
    destruct (IH (time_of l)) as (v & Hv & H0 & Hiff). rewrite Hv. cbn [mbind throws_bind]. rewrite fmap_cons.
    eexists. split; [done|]. destruct (Z.ltb_spec (time_of l) prev); split; try lia; split.
    + lia.
    + intros [_ Hhd]%Sorted_inv. apply HdRel_inv in Hhd. lia.
    + intros ->. constructor; [by apply Hiff|by constructor].
    + intros [Hs _]%Sorted_inv. by apply Hiff.
Qed.

Definition ids (test : FlatJournalLine → bool) ls : gset Z :=
  list_to_set ((λ l, int_of l (chars "order_id")) <$> filter (λ l, test l = true) ls).
#[global] Instance ids_proper test : Proper ((≡ₚ) ==> (=)) (ids test).
Proof. intros ls ls' H. unfold ids. apply leibniz_equiv. by rewrite H. Qed.
Definition cancelled l : bool := is_type "ORDER_CANCELLED" l && has_field l (chars "order_id").
Definition filled_whole l : bool := is_fill l && has_field l (chars "leaves_qty") && (int_of l (chars "leaves_qty") =? 0).

Lemma order_ids_set test (b : FlatJournalLine → bool) ls : (∀ l, readable l → test l = inr (b l)) → Forall readable ls →
  ∀ s, order_ids test ls s = inr (ids b ls ∪ s).
Proof.
  intros Ht. unfold ids. induction 1 as [|l ls Hl _ IH]; intros s; cbn [order_ids].
  - f_equal. set_solver.
  - rewrite (Ht l Hl). cbn [mbind throws_bind]. rewrite filter_cons. destruct (b l).
    + reads Hl. rewrite IH. destruct (decide _); [|done]. rewrite fmap_cons, list_to_set_cons. f_equal. set_solver.
    + rewrite IH. by destruct (decide _).
Qed.
Lemma cancel_set_read ls : Forall readable ls → build_cancel_set ls = inr (ids cancelled ls).
Proof. intros H. unfold build_cancel_set. rewrite (order_ids_set _ cancelled) by done. f_equal. set_solver. Qed.
Lemma full_fill_set_read ls : Forall readable ls → build_full_fill_set ls = inr (ids filled_whole ls).
Proof.
  intros H. unfold build_full_fill_set. rewrite (order_ids_set _ filled_whole); [f_equal; set_solver| |done].
  intros l Hl. unfold is_full_fill, filled_whole. destruct (is_fill l && _); [|done]. by reads Hl.
Qed.

(** ** Levels left *)

Definition net_level (book : LevelCount) (k : Z * list Z) : Z := default 0 (book !! (k.2, k.1)).
Lemma count_levels_net d ls : Forall readable ls → ∀ book, ∃ book', count_levels d ls book = inr book' ∧
  ∀ k, net_level book' k = net_level book k + d * Z.of_nat (times level_at k ls).
Proof.
  induction 1 as [|l ls Hl _ IH]; intros book; cbn [count_levels].
  - exists book. split; [done|]. intros k. cbn. lia.
  - reads Hl. destruct (IH (<[(get_str l (chars "side"), int_of l (chars "price")) :=
      default 0 (book !! (get_str l (chars "side"), int_of l (chars "price"))) + d]> book)) as (book' & Hb & Hk).
    exists book'. split; [done|]. intros k. rewrite Hk, times_cons. unfold net_level, level_at.
    destruct (decide ((int_of l (chars "price"), get_str l (chars "side")) = k)) as [<-|Hne]; cbn [fst snd].
    + rewrite lookup_insert_eq. cbn. lia.
    + rewrite lookup_insert_ne; [lia|]. intros [= H1 H2]. apply Hne. destruct k. cbn in *. congruence.
Qed.

Lemma inv7_cleared adds deletes : Forall readable adds → Forall readable deletes → ∃ n, check_inv7 adds deletes = inr n ∧ 0 <= n ∧
  (n = 0 ↔ ∀ k, (times level_at k adds <= times level_at k deletes)%nat).
Proof.
  intros Ha Hd. unfold check_inv7.
  destruct (count_levels_net 1 adds Ha ∅) as (b1 & E1 & H1). rewrite E1. cbn [mbind throws_bind].
  destruct (count_levels_net (-1) deletes Hd b1) as (b2 & E2 & H2). rewrite E2. cbn [mbind throws_bind].
  set (f := λ kv : (list Z * Z) * Z, if kv.2 >? 0 then kv.2 else 0).
  assert (Hf : Forall (λ kv, 0 <= f kv) (map_to_list b2)) by (apply Forall_forall; intros kv _; unfold f; case_match; zbool; lia).
  eexists. split; [done|]. split; [by apply sum_by_nonneg|].
  assert (Hn : ∀ k, net_level b2 k = Z.of_nat (times level_at k adds) - Z.of_nat (times level_at k deletes)).
  { intros k. rewrite H2, H1. unfold net_level. rewrite lookup_empty. cbn. lia. }
  split.
  - intros H0 k. specialize (Hn k). unfold net_level in Hn. destruct (b2 !! (k.2, k.1)) as [v|] eqn:E; [|cbn in Hn; lia].
    apply elem_of_map_to_list in E. pose proof (sum_by_elem_le f _ _ Hf E) as Hle. rewrite H0 in Hle. unfold f in Hle. cbn in *.
    case_match; zbool; lia.
  - intros Hk. rewrite (sum_by_ext _ (λ _, 0)); [clear; by induction (map_to_list b2)|].
    apply Forall_forall. intros [[s p] v] Hin%elem_of_map_to_list. unfold f. cbn [snd]. specialize (Hn (p, s)). specialize (Hk (p, s)).
    unfold net_level in Hn. cbn [fst snd] in Hn. rewrite Hin in Hn. cbn in Hn. case_match; zbool; lia.
Qed.

(** ** The whole *)

Section Sides.
Context (traders : list (list FlatJournalLine)) (observer : list FlatJournalLine).

(** What the traders were told, and what the observer saw. *)
Definition told : list FlatJournalLine := filter (λ l, fj_kind l = ExpectLine) (concat traders).
Definition seen : list FlatJournalLine := filter (λ l, is_expect l = true) observer.
Definition fills_left (k : Z * Z) : nat := times fill_of k (fills_of told) - 2 * times trade_at k (of_type "MD_TRADE" seen).

Record consistent : Prop := {
  (** Every trade is two fills of its price and quantity. *)
  trades_filled : ∀ k, (2 * times trade_at k (of_type "MD_TRADE" seen) <= times fill_of k (fills_of told))%nat;
  (** Every new level is an order accepted at its price and side. *)
  adds_accepted : ∀ k, (times level_at k (of_type "MD_BOOK_ADD" seen) <=
                        length (filter (λ k', k' = k) (traders ≫= accepted_at None)))%nat;
  (** There are no more deletes than orders cancelled or filled. *)
  deletes_explained : (length (of_type "MD_BOOK_DELETE" seen) <= size (ids cancelled told) + size (ids filled_whole told))%nat;
  (** The observer's times do not decrease. *)
  times_ordered : Sorted Z.le (0 :: (time_of <$> seen));
  (** Nothing the traders were told is missing, by number. *)
  accepts_seen : (length (of_type "ORDER_ACCEPTED" told) <= length (of_type "MD_BOOK_ADD" seen) + size (ids filled_whole told))%nat;
  fills_seen : (length (fills_of told) / 2 <= length (of_type "MD_TRADE" seen))%nat;
  cancels_seen : (length (of_type "ORDER_CANCELLED" told) <= length (of_type "MD_BOOK_DELETE" seen))%nat;
  (** No level is left. *)
  levels_deleted : ∀ k, (times level_at k (of_type "MD_BOOK_ADD" seen) <= times level_at k (of_type "MD_BOOK_DELETE" seen))%nat;
  (** A trade that took the last fills of its price and quantity leaves no
      other fill at its price, nor of its quantity. *)
  none_beside : Forall (λ t, fills_left (trade_at t) = 0%nat → ∀ k, (0 < fills_left k)%nat →
                           k.1 ≠ (trade_at t).1 ∧ k.2 ≠ (trade_at t).2) (of_type "MD_TRADE" seen)
}.
End Sides.

Lemma inv6_read expects trades adds deletes : Forall readable expects →
  check_inv6 expects trades adds deletes =
  inr (Z.max 0 (count_type "ORDER_ACCEPTED" expects - Z.of_nat (size (ids filled_whole expects)) - adds),
       Z.max 0 (Z.quot (count_fills expects) 2 - trades), Z.max 0 (count_type "ORDER_CANCELLED" expects - deletes)).
Proof. intros H. unfold check_inv6. by rewrite full_fill_set_read. Qed.

Lemma readable_filter (P : FlatJournalLine → Prop) `{∀ l, Decision (P l)} ls : Forall readable ls → Forall readable (filter P ls).
Proof. rewrite !Forall_forall. intros Hr l [_ Hl]%list_elem_of_filter. by apply Hr. Qed.

(** What is left of the fills decides the mismatches, once every trade has taken
    its two. *)
Lemma left_mismatches traders observer idx : (∀ k, bucket idx k = fills_left traders observer k) →
  Forall (λ l, no_mismatch idx (trade_at l)) (of_type "MD_TRADE" (seen observer)) ↔
  Forall (λ t, fills_left traders observer (trade_at t) = 0%nat → ∀ k, (0 < fills_left traders observer k)%nat →
            k.1 ≠ (trade_at t).1 ∧ k.2 ≠ (trade_at t).2) (of_type "MD_TRADE" (seen observer)).
Proof.
  intros Hb. rewrite !Forall_forall. unfold no_mismatch.
  split; intros H t Ht H0 k Hk; apply (H t Ht); by rewrite ?Hb in *.
Qed.

(** C38: Reconciling journals whose numbers can be read never throws, and the
    report passes exactly when the two sides are consistent: two fills to every
    trade, an accepted order to every new level, no delete without a cancel or a
    fill, times in order, nothing lost, no level left, and no stray fills beside
    those a trade has used up.  The order in which the map is walked does not
    matter. *)
Theorem reconcile_characterized `{BucketOrder} (traders : list (list FlatJournalLine)) (observer : list FlatJournalLine) :
  Forall (Forall readable) traders → Forall readable observer →
  ∃ r, reconcile traders observer = inr r ∧ (all_pass r = true ↔ consistent traders observer).
Proof.
  intros Ht Ho. assert (Hc : Forall readable (concat traders)) by by apply Forall_concat.
  destruct (consolidate_perm ExpectLine traders Hc) as (expects & Ee & Pe). fold (told traders) in Pe.
  destruct (consolidate_perm ActionLine traders Hc) as (actions & Ea & _).
  assert (He : Forall readable expects) by (rewrite Pe; by apply readable_filter).
  assert (Hs : Forall readable (seen observer)) by by apply readable_filter.
  assert (Hy : ∀ t, Forall readable (of_type t (seen observer))) by (intros; by apply readable_filter).
  destruct (fill_index_buckets expects He ∅) as (idx & Ei & Hidx). setoid_rewrite Pe in Hidx.
  destruct (inv1_matches _ (Hy "MD_TRADE"%string) idx) as (m & u & idx' & E1 & _ & Hu & _ & Hleft & Hall).
  destruct (inv2_traced _ (Hy "MD_BOOK_ADD"%string) (fresh <$> (traders ≫= accepted_at None))) as (t & E2 & _ & H2).
  setoid_rewrite available_fresh in H2.
  destruct (inv4_ordered _ Hs 0) as (v & E4 & _ & H4).
  destruct (inv7_cleared _ _ (Hy "MD_BOOK_ADD"%string) (Hy "MD_BOOK_DELETE"%string)) as (n & E7 & _ & H7).
  destruct (inv8_mismatches _ idx' (Hy "MD_TRADE"%string)) as (p & q & E8 & _ & _ & H8).
  unfold reconcile. rewrite Ee, Ea. cbn [mbind throws_bind]. rewrite Ei, cancel_set_read, full_fill_set_read by done. cbn [mbind throws_bind].
  change (filter (λ l, is_expect l = true) observer) with (seen observer).
  rewrite E1. cbn [mbind throws_bind]. rewrite accepted_orders_at by done. cbn [mbind throws_bind]. rewrite E2.
  cbn [mbind throws_bind check_inv3]. rewrite E4, inv6_read by done. cbn [mbind throws_bind]. rewrite E7. cbn [mbind throws_bind]. rewrite E8.
  cbn [mbind throws_bind]. eexists. split; [done|].
  unfold all_pass. cbn. rewrite !andb_true_iff, !Z.eqb_eq.
  assert (Hct : ∀ s, count_type s expects = Z.of_nat (length (of_type s (told traders)))) by (intros s; unfold count_type, of_type; by rewrite Pe).
  assert (Hcf : Z.quot (count_fills expects) 2 = Z.of_nat (length (fills_of (told traders)) / 2))
    by (unfold count_fills; rewrite Pe, Z.quot_div_nonneg, Nat2Z.inj_div by lia; done).
  rewrite !Hct, Hcf, !(ids_proper _ _ _ Pe).
  assert (Hb : u = 0 → ∀ k, bucket idx' k = fills_left traders observer k).
  { intros H0 k. specialize (Hleft H0 k). rewrite Hidx in Hleft. change (bucket ∅ k) with 0%nat in Hleft. unfold fills_left. lia. }
  split.
  - intros [[[[[[[[[[[H1 Ha] Hd] Hv] _] _] H6a] H6f] H6c] Hn] Hp] Hq]. constructor; [|apply H2; lia|lia|by apply H4|lia|lia|lia|by apply H7|].
    + intros k. specialize (Hleft H1 k). rewrite Hidx in Hleft. change (bucket ∅ k) with 0%nat in Hleft. lia.
    + apply (left_mismatches traders observer idx'); [by apply Hb|by apply H8].
  - intros []. assert (H1 : u = 0) by (apply Hall; intros k; rewrite Hidx; change (bucket ∅ k) with 0%nat; auto).
    destruct (proj2 H8) as [Hp Hq]; [by apply (left_mismatches traders observer idx'); [by apply Hb|done]|].
    apply H2 in adds_accepted0. apply H4 in times_ordered0. apply H7 in levels_deleted0. split_and!; lia.
Qed.

Section Examples.
#[local] Instance in_order : BucketOrder := {| walk_buckets := map_to_list; walk_buckets_perm := λ m, reflexivity _ |}.
Definition journal_of (ls : list string) : list FlatJournalLine := omap (λ s, parse_flat_line (chars s)) ls.
Definition buyer : list FlatJournalLine := journal_of [
  "# a comment"; "ACTION ILINK3_NEW_ORDER ts=1000 price=100 qty=5 side=BUY"; "EXPECT ORDER_ACCEPTED ts=1001 order_id=1";
  "EXPECT EXEC_FILL ts=2002 order_id=1 fill_price=100 fill_qty=5 leaves_qty=0"]%string.
Definition seller : list FlatJournalLine := journal_of [
  "ACTION ILINK3_NEW_ORDER ts=2000 price=100 qty=5 side=SELL"; "EXPECT ORDER_ACCEPTED ts=2001 order_id=2";
  "EXPECT EXEC_FILL ts=2002 order_id=2 fill_price=100 fill_qty=5 leaves_qty=0"]%string.
Definition watcher : list FlatJournalLine := journal_of [
  "EXPECT MD_BOOK_ADD ts=1001 side=BUY price=100 qty=5"; "EXPECT MD_TRADE ts=2002 price=100 qty=5";
  "EXPECT MD_BOOK_DELETE ts=2002 side=BUY price=100"]%string.

Lemma reconcile_characterized_witness :
  ∃ r, reconcile [buyer; seller] watcher = inr r ∧ (all_pass r = true ↔ consistent [buyer; seller] watcher).
Proof.
  apply (reconcile_characterized [buyer; seller] watcher).
  - apply (bool_decide_unpack _). by vm_compute.
  - apply (bool_decide_unpack _). by vm_compute.
Defined.

Example two_sides_pass : (reconcile [buyer; seller] watcher ≫= λ r, inr (all_pass r)) = inr true.
Proof. by vm_compute. Qed.

(** A third trader's fill, of another quantity, lost on its way to the
    observer: the trade that matches its two fills is reported as a mismatch of
    quantity, since those two are used up when fills are looked for. *)
Definition third : list FlatJournalLine := journal_of [
  "EXPECT EXEC_FILL ts=2003 order_id=3 fill_price=100 fill_qty=7 leaves_qty=1"]%string.
Example matched_trade_mismatches :
  (reconcile [buyer; seller; third] watcher ≫= λ r,
    inr (matched_trades r, unmatched_trades r, fill_without_trade r, qty_mismatches r)) = inr (1, 0, 0, 1).
Proof. by vm_compute. Qed.
End Examples.
