(* ===== verification/VenueSimulators.v ===== *)
(** * The simulators of CME and ICE: [cme_simulator.h], [ice_simulator.h]

    A venue's simulator loads its products, one engine each, and walks them
    through the trading day.  ICE keeps two pools, for the two matching
    algorithms of its products, and routes by a table. *)

From S2P Require Import Prelude Types MatchAlgo Books Trackers Engine EngineFills EngineMatch Exchanges Impact Mdp3 ExchangeSimulator.

(** [EngineConfig{...}] of a product: the fields not named are zero. *)
Definition product_config (tick : Price) (lot max_order : Quantity) : EngineConfig :=
  mkConfig tick lot 0 0 max_order 0 0 (mkThrottle 0 0) (mkVolatility 0 0).

(** ** CME *)

Module CmeSimulator.
Section cme.
Context {params : EngineParams} {algo : MatchAlgorithm} {iteration : Iteration}.
Variable junk : loc → Order.
#[local] Existing Instance Cme.cme_hooks.

(** [band_pct_{5}]. *)
#[local] Instance cme_fresh : Fresh Cme.CmeExchange :=
  {| initial_members := Cme.mkCme 5; slot_junk := junk |}.

Abbreviation CmeSim := (M (simulator Cme.CmeExchange)).
Implicit Types (ts : Timestamp).

Definition product_instrument (p : CmeProductConfig) : InstrumentConfig :=
  mkInstrument p.(cp_instrument_id) p.(cp_symbol)
    (product_config p.(cp_tick_size) p.(cp_lot_size) p.(cp_max_order_size)).

Definition load_product (p : CmeProductConfig) : CmeSim (outcome sim_error unit) :=
  attempt (add_instrument (product_instrument p)) (λ _,
    on_found p.(cp_instrument_id) (Cme.set_band_percentage p.(cp_band_pct)) ;;
    mret (Returns tt)).

Definition load_products (products : list CmeProductConfig) : CmeSim (outcome sim_error unit) :=
  attempt_each products load_product.

Definition start_trading_day ts : CmeSim unit := set_session_state PreOpen ts.

Definition open_market (fuel : nat) ts : CmeSim unit :=
  execute_all_auctions fuel ts ;;
  set_session_state Continuous ts.

Definition close_market (fuel : nat) ts : CmeSim unit :=
  set_session_state PreClose ts ;;
  execute_all_auctions fuel (ts + 1) ;;
  set_session_state Closed (ts + 2).

Definition end_of_day ts : CmeSim unit := trigger_expiry ts DAY.
End cme.
End CmeSimulator.

(** ** ICE *)

Module IceSimulator.
Record ice_simulator : Type := mkIceSim {
  fifo_sim : simulator Ice.IceExchange;
  gtbpr_sim : simulator Ice.IceExchange;
  is_gtbpr : gmap Z bool
}.

Definition set_fifo_sim (v : simulator Ice.IceExchange) (s : ice_simulator) : ice_simulator :=
  mkIceSim v s.(gtbpr_sim) s.(is_gtbpr).
Definition set_gtbpr_sim (v : simulator Ice.IceExchange) (s : ice_simulator) : ice_simulator :=
  mkIceSim s.(fifo_sim) v s.(is_gtbpr).
Definition set_is_gtbpr (v : gmap Z bool) (s : ice_simulator) : ice_simulator :=
  mkIceSim s.(fifo_sim) s.(gtbpr_sim) v.

Section ice.
Context {params : EngineParams} {iteration : Iteration}.
(** The matching algorithms of the two pools. *)
Variables (fifo gtbpr : MatchAlgorithm).
Variable junk : loc → Order.
#[local] Existing Instance Ice.ice_hooks.
#[local] Instance ice_fresh : Fresh Ice.IceExchange :=
  {| initial_members := Ice.initial; slot_junk := junk |}.

Abbreviation IceSim := (M ice_simulator).
Implicit Types (s : ice_simulator) (ts : Timestamp) (id : Z).

Definition on_fifo {A} (m : M (simulator Ice.IceExchange) A) : IceSim A := λ s,
  match m s.(fifo_sim) with
  | Ok (a, v) => Ok (a, set_fifo_sim v s)
  | Fuel => Fuel
  | UB => UB
  end.
Definition on_gtbpr {A} (m : M (simulator Ice.IceExchange) A) : IceSim A := λ s,
  match m s.(gtbpr_sim) with
  | Ok (a, v) => Ok (a, set_gtbpr_sim v s)
  | Fuel => Fuel
  | UB => UB
  end.

Definition product_instrument (p : IceProductConfig) : InstrumentConfig :=
  mkInstrument p.(ip_instrument_id) p.(ip_symbol)
    (product_config p.(ip_tick_size) p.(ip_lot_size) p.(ip_max_order_size)).

(** [set_ipl_width] and [set_smp_action] on the engine. *)
Definition configure (p : IceProductConfig) (e : engine Ice.IceExchange) : engine Ice.IceExchange :=
  set_derived (Ice.set_smp_action p.(ip_smp_action) (Ice.set_ipl_width p.(ip_ipl_width) e.(derived))) e.

Definition is_gtbpr_product (p : IceProductConfig) : bool :=
  match p.(ip_match_algo) with AlgoGTBPR => true | AlgoFIFO => false end.

Definition load_product (p : IceProductConfig) : IceSim (outcome sim_error unit) :=
  let id := p.(ip_instrument_id) in
  modify (λ s, set_is_gtbpr (<[id := is_gtbpr_product p]> s.(is_gtbpr)) s) ;;
  (if is_gtbpr_product p then
     attempt (on_gtbpr (add_instrument (product_instrument p))) (λ _,
       on_gtbpr (on_found id (configure p)) ;; mret (Returns tt))
   else
     attempt (on_fifo (add_instrument (product_instrument p))) (λ _,
       on_fifo (on_found id (configure p)) ;; mret (Returns tt))).

Definition load_products (products : list IceProductConfig) : IceSim (outcome sim_error unit) :=
  attempt_each products load_product.

(** The table, then one of the two pools. *)
Definition dispatch id (gtbpr_call fifo_call : M (simulator Ice.IceExchange) (outcome sim_error unit))
    : IceSim (outcome sim_error unit) :=
  s ← get;
  match s.(is_gtbpr) !! id with
  | None => mret (Throws UnknownInstrument)
  | Some true => on_gtbpr gtbpr_call
  | Some false => on_fifo fifo_call
  end.

Definition new_order (fuel : nat) id (req : OrderRequest) : IceSim (outcome sim_error unit) :=
  dispatch id (ExchangeSimulator.new_order (algo := gtbpr) fuel id req)
    (ExchangeSimulator.new_order (algo := fifo) fuel id req).
Definition cancel_order id (order : OrderId) ts : IceSim (outcome sim_error unit) :=
  dispatch id (ExchangeSimulator.cancel_order id order ts) (ExchangeSimulator.cancel_order id order ts).
Definition modify_order (fuel : nat) id (req : ModifyRequest) : IceSim (outcome sim_error unit) :=
  dispatch id (ExchangeSimulator.modify_order (algo := gtbpr) fuel id req)
    (ExchangeSimulator.modify_order (algo := fifo) fuel id req).

Definition instrument_count s : nat :=
  (ExchangeSimulator.instrument_count s.(fifo_sim) + ExchangeSimulator.instrument_count s.(gtbpr_sim))%nat.
Definition is_gtbpr_instrument id s : bool :=
  match s.(is_gtbpr) !! id with Some b => b | None => false end.
Definition get_fifo_engine id s : option (engine Ice.IceExchange) := get_engine id s.(fifo_sim).
Definition get_gtbpr_engine id s : option (engine Ice.IceExchange) := get_engine id s.(gtbpr_sim).

Definition both (m : M (simulator Ice.IceExchange) unit) : IceSim unit :=
  on_fifo m ;;
  on_gtbpr m.

Definition set_session_state (state : SessionState) ts : IceSim unit :=
  both (ExchangeSimulator.set_session_state state ts).
Definition start_trading_day ts : IceSim unit := set_session_state PreOpen ts.
Definition open_market (fuel : nat) ts : IceSim unit :=
  on_fifo (execute_all_auctions fuel ts ;; ExchangeSimulator.set_session_state Continuous ts) ;;
  on_gtbpr (execute_all_auctions fuel ts ;; ExchangeSimulator.set_session_state Continuous ts).
Definition close_market ts : IceSim unit := set_session_state Closed ts.
Definition end_of_day ts : IceSim unit := both (trigger_expiry ts DAY).
Definition session_state s : SessionState := s.(fifo_sim).(sim_session).

Definition new_ice_simulator : ice_simulator := mkIceSim new_simulator new_simulator ∅.
End ice.
End IceSimulator.
