(* ===== verification/VenueTheorems.v ===== *)
(** * Trading days

    What the openings and closings of the CME and ICE simulators do to every
    instrument, and how ICE routes. *)

From S2P Require Import Prelude Types MatchAlgo Books Trackers Engine EngineInvariant EngineRules EngineFills EngineMatch EngineLoop EngineOrders EngineEntry EngineTheorems Auction AuctionRun AuctionTheorems.
From S2P Require Import Exchanges Impact Mdp3 Products ExchangeSimulator SimulatorTheorems VenueSimulators.

Section day.
Context {D : Type} {params : EngineParams} {hooks : Hooks D} {algo : MatchAlgorithm} {iteration : Iteration}.
(** No venue vetoes a change of session. *)
Hypothesis accepting : ∀ (e : engine D) from to ts, on_session_transition e from to ts = true.
Implicit Types (s : simulator D) (i : InstrumentState D) (e : engine D) (ts : Timestamp) (st : SessionState).

Lemma in_session_state st ts e : (in_session st ts e).(current_state) = st.
Proof using accepting.
  unfold in_session. rewrite accepting. case_bool_decide; [done|]. cbn. by case_if as E.
Qed.

(** What an engine has traded on the way. *)
Definition trades (q : Quantity) e e' : Prop := ∃ evs, e'.(trace) = e.(trace) ++ evs ∧ traded evs = q.

Lemma trades_none e e' evs : e'.(trace) = e.(trace) ++ evs → Forall (λ ev, trade_qty ev = 0) evs → trades 0 e e'.
Proof.
  intros Ht Hz. exists evs. split; [done|]. unfold traded. clear Ht. induction Hz as [|ev evs E _ IH]; cbn; lia.
Qed.

Lemma trades_trans q1 q2 e1 e2 e3 : trades q1 e1 e2 → trades q2 e2 e3 → trades (q1 + q2) e1 e3.
Proof.
  intros (evs1 & Ht1 & Hq1) (evs2 & Ht2 & Hq2). exists (evs1 ++ evs2).
  rewrite Ht2, Ht1, app_assoc. split; [done|]. unfold traded in *. by rewrite sum_by_app, Hq1, Hq2.
Qed.

Lemma in_session_trades st ts e : trades 0 e (in_session st ts e).
Proof.
  destruct (in_session_trace st ts e) as (evs & Ht & He). eapply trades_none; [exact Ht|].
  eapply Forall_impl; [exact He|]. by intros ev <-.
Qed.

Lemma expired_trades ts tif e e' : expired_at ts tif e e' → trades 0 e e'.
Proof.
  intros [_ [_ _ _ _ (evs & Ht & He)] _]. eapply trades_none; [exact Ht|].
  eapply Forall_impl; [exact He|]. intros ev [Hm|[id ->]]; [|done]. by destruct ev.
Qed.

(** An auction and a new session. *)
Record auctioned_into st ts i i' : Prop := {
  ai_config : i'.(inst_config) = i.(inst_config);
  ai_ohlcv : i'.(inst_ohlcv) = if bool_decide (st = PreOpen) || bool_decide (st = Closed) then ohlcv_reset else i.(inst_ohlcv);
  ai_engine : ∃ e1, auction_run i.(inst_ohlcv).(v_close) i.(inst_engine) e1 ∧ i'.(inst_engine) = in_session st ts e1
}.

Lemma wp_auctions_then fuel ts st ts' s :
  engines_ok s → auction_fuel fuel s →
  wp (execute_all_auctions fuel ts ;; set_session_state st ts')
    (λ _ s', s'.(sim_session) = st ∧ per_instrument (auctioned_into st ts') s s') s.
Proof.
  intros Hok Hf. apply wp_bind. eapply wp_mono; [by apply wp_execute_all_auctions|]. intros [] s1 [_ H1].
  unfold wp. rewrite set_session_state_each. split; [done|].
  eapply per_instrument_trans; [|exact H1|eapply (per_instrument_fmap (λ i i', i' = instrument_in_session st ts' i)); [done|by intros id i _]].
  intros i1 i2 i3 [Hc Ho He] ->. split; cbn; [done|by rewrite Ho|]. by exists i2.(inst_engine).
Qed.

(** What a client sees of it. *)
Record auction_result st i i' : Prop := {
  ar_config : i'.(inst_config) = i.(inst_config);
  ar_inv : inv [] i'.(inst_engine);
  ar_state : i'.(inst_engine).(current_state) = st;
  ar_traded : trades (auction_volume i.(inst_ohlcv).(v_close) i.(inst_engine)) i.(inst_engine) i'.(inst_engine);
  ar_uncrossed : Forall plain (entries i.(inst_engine).(bids) ++ entries i.(inst_engine).(asks)) → uncrossed i'.(inst_engine)
}.

Lemma auctioned_into_result st ts i i' : inv [] i.(inst_engine) → auctioned_into st ts i i' → auction_result st i i'.
Proof using accepting.
  intros Hi [Hc _ (e1 & Hr & He)]. pose proof (auction_run_done _ _ _ Hi Hr) as [Hi1 _ _ _ _ (evs & Ht & Hq & _) _].
  destruct (in_session_same st ts e1) as [Hb Ha _ _ _ Hinv]. split; rewrite ?He.
  - done.
  - by apply Hinv.
  - apply in_session_state.
  - rewrite <- (Z.add_0_r (auction_volume _ _)). eapply trades_trans; [by exists evs|apply in_session_trades].
  - intros Hp. pose proof (auction_run_uncrossed _ _ _ Hi Hp Hr) as Hu. unfold uncrossed in *. by rewrite Hb, Ha.
Qed.

(** The end of the day, from the closing auction to the expiry of DAY orders. *)
Record day_closed ts i i' : Prop := {
  dc_config : i'.(inst_config) = i.(inst_config);
  dc_ohlcv : i'.(inst_ohlcv) = ohlcv_reset;
  dc_inv : inv [] i'.(inst_engine);
  dc_state : i'.(inst_engine).(current_state) = Closed;
  dc_traded : trades (auction_volume i.(inst_ohlcv).(v_close) i.(inst_engine)) i.(inst_engine) i'.(inst_engine);
  dc_kept : ∃ e1, auction_run i.(inst_ohlcv).(v_close) (in_session PreClose ts i.(inst_engine)) e1 ∧
    all_entries i'.(inst_engine) ≡ₚ filter (λ x, x.2.(o_tif) ≠ DAY) (all_entries e1)
}.

Lemma not_expired_day ts o : ¬ expired ts DAY o ↔ o.(o_tif) ≠ DAY.
Proof. unfold expired. intuition congruence. Qed.

Lemma day_closed_run ts ts2 ts3 i i1 i' :
  inv [] i.(inst_engine) → auctioned_into Closed ts2 (instrument_in_session PreClose ts i) i1 →
  on_own_engine (expired_at ts3 DAY) i1 i' → day_closed ts i i'.
Proof using accepting.
  intros Hi Hau [Hc2 Ho2 Hex]. destruct (in_session_same PreClose ts i.(inst_engine)) as [_ _ _ _ _ Hinv].
  pose proof (auctioned_into_result _ _ (instrument_in_session PreClose ts i) _ (Hinv Hi) Hau) as [_ _ Hst Htr _]. cbn in Htr.
  destruct Hau as [Hc Ho (e1 & Hr & He)]. cbn in *. split.
  - congruence.
  - by rewrite Ho2, Ho.
  - apply Hex.
  - rewrite (sc_state _ _ _ _ (ex_scan _ _ _ _ Hex)). done.
  - replace (auction_volume _ _) with (0 + (auction_volume i.(inst_ohlcv).(v_close) i.(inst_engine) + 0)) by lia.
    eapply trades_trans; [apply in_session_trades|]. eapply trades_trans; [|by eapply expired_trades].
    unfold auction_volume in Htr. rewrite in_session_price in Htr. exact Htr.
  - exists e1. split; [done|]. rewrite (ex_entries _ _ _ _ Hex), He.
    rewrite (same_orders_entries _ _ (in_session_same Closed ts2 e1)).
    erewrite filter_ext_in; [done|]. intros x _. apply not_expired_day.
Qed.

(** The sessions and the closing auction of every instrument. *)
Lemma wp_close_day fuel ts ts1 ts2 ts3 s :
  engines_ok s → auction_fuel fuel s →
  wp (set_session_state PreClose ts ;; (execute_all_auctions fuel ts1 ;; set_session_state Closed ts2) ;; trigger_expiry ts3 DAY)
    (λ _ s', s'.(sim_session) = Closed ∧ per_instrument (day_closed ts) s s') s.
Proof using accepting.
  intros Hok Hf. apply wp_bind. unfold wp at 1. rewrite set_session_state_each. set (s1 := mkSimulator _ _).
  assert (Hok1 : engines_ok s1).
  { intros id i. cbn. rewrite lookup_fmap. intros (i0 & Hi0 & ->)%fmap_Some.
    apply (so_inv _ _ (in_session_same PreClose ts i0.(inst_engine))). by eapply Hok. }
  assert (Hf1 : auction_fuel fuel s1).
  { intros id i. cbn. rewrite lookup_fmap. intros (i0 & Hi0 & ->)%fmap_Some. cbn. rewrite in_session_price. by eapply Hf. }
  apply wp_bind. eapply wp_mono; [by apply wp_auctions_then|]. intros [] s2 [Hs2 H2].
  assert (Hok2 : engines_ok s2).
  { eapply (per_instrument_all (λ i i', inv [] i.(inst_engine) ∧ auctioned_into Closed ts2 i i')).
    - intros i i' [Hi Ha]. apply (ar_inv _ _ _ (auctioned_into_result _ _ _ _ Hi Ha)).
    - eapply per_instrument_impl; [|exact H2]. intros id i i' Hi Ha. split; [by eapply Hok1|done]. }
  eapply wp_mono; [by apply wp_sim_trigger_expiry|]. intros [] s3 [Hs3 H3]. split; [congruence|].
  eapply (per_instrument_trans (λ i i1, inv [] i.(inst_engine) ∧ i1 = instrument_in_session PreClose ts i)
    (λ i1 i', ∃ i2, auctioned_into Closed ts2 i1 i2 ∧ on_own_engine (expired_at ts3 DAY) i2 i')).
  - intros i i1 i' [Hi ->] (i2 & Ha & He). by eapply day_closed_run.
  - apply (per_instrument_fmap _ (instrument_in_session PreClose ts) s s1 eq_refl). intros id i Hi. split; [by eapply Hok|done].
  - eapply per_instrument_trans; [|exact H2|exact H3]. eauto.
Qed.
End day.

Lemma bind_assoc {S A B C} (m : M S A) (k : A → M S B) (h : B → M S C) s :
  ((m ≫= k) ≫= h) s = (m ≫= λ a, k a ≫= h) s.
Proof. unfold mbind, M_bind. by destruct (m s) as [[a s']| |]. Qed.

(** ** Loading *)

Section loading.
Context {D : Type} {params : EngineParams} {hooks : Hooks D} {fresh : Fresh D}.
Implicit Types (s : simulator D) (cfg : InstrumentConfig).

(** A new instrument, and what [on_found] makes of its engine. *)
Definition fresh_instrument cfg : InstrumentState D :=
  mkInstState cfg (init_engine cfg.(ic_engine_config) initial_members slot_junk) ohlcv_reset.

(** Loading while the simulator is closed. *)
Lemma load_run {A} (describe : A → InstrumentConfig) (configure : A → engine D → engine D) (p : A) s :
  s.(sim_session) = Closed → s.(instruments) !! (describe p).(ic_id) = None →
  attempt (add_instrument (describe p)) (λ _, on_found (describe p).(ic_id) (configure p) ;; mret (Returns tt)) s =
  Ok (Returns tt, mkSimulator
    (<[(describe p).(ic_id) := set_inst_engine (configure p (fresh_instrument (describe p)).(inst_engine)) (fresh_instrument (describe p))]> s.(instruments)) Closed).
Proof.
  intros Hs Hn. unfold attempt, add_instrument, mbind, M_bind, get, get_instrument. rewrite Hn.
  cbn. rewrite bool_decide_eq_true_2 by done. cbn. unfold on_found. cbn. rewrite lookup_insert_eq.
  cbn. rewrite insert_insert_eq. unfold set_instruments. cbn. by rewrite Hs.
Qed.

Definition loaded {A} (describe : A → InstrumentConfig) (configure : A → engine D → engine D) (p : A)
    : InstrumentState D :=
  set_inst_engine (configure p (fresh_instrument (describe p)).(inst_engine)) (fresh_instrument (describe p)).

(** A list of products with distinct identifiers. *)
Lemma load_all {A} (describe : A → InstrumentConfig) (configure : A → engine D → engine D) (load : A → M (simulator D) (outcome sim_error unit)) ps s :
  (∀ p s, load p s = attempt (add_instrument (describe p)) (λ _, on_found (describe p).(ic_id) (configure p) ;; mret (Returns tt)) s) →
  s.(sim_session) = Closed → NoDup ((λ p, (describe p).(ic_id)) <$> ps) →
  (∀ p, p ∈ ps → s.(instruments) !! (describe p).(ic_id) = None) →
  ∃ s', attempt_each ps load s = Ok (Returns tt, s') ∧ s'.(sim_session) = Closed ∧
    (∀ p, p ∈ ps → s'.(instruments) !! (describe p).(ic_id) = Some (loaded describe configure p)) ∧
    ∀ id, id ∉ ((λ p, (describe p).(ic_id)) <$> ps) → s'.(instruments) !! id = s.(instruments) !! id.
Proof.
  intros Hload. revert s. induction ps as [|p ps IH]; intros s Hs Hnd Hnone.
  { exists s. split_and!; [done|done|by intros p ?%not_elem_of_nil|done]. }
  apply NoDup_cons in Hnd as [Hp Hnd]. cbn [attempt_each]. unfold attempt at 1, mbind, M_bind.
  rewrite Hload, load_run; [|done|apply Hnone; by left].
  match goal with |- context [attempt_each ps load ?st] => set (s1 := st) end.
  destruct (IH s1) as (s' & E & Hs' & Hin & Hout); [done|done| |].
  { intros p' Hp'. cbn. rewrite lookup_insert_ne; [by apply Hnone; right|].
    intros He. apply Hp. rewrite He. apply (list_elem_of_fmap_2 (λ p, (describe p).(ic_id)) _ _ Hp'). }
  exists s'. split_and!; [exact E|done| |].
  - intros p' [->|Hp']%elem_of_cons; [|by apply Hin]. rewrite Hout by done. cbn. by rewrite lookup_insert_eq.
  - intros id [Hne Hid]%not_elem_of_cons. rewrite Hout by done. cbn. by rewrite lookup_insert_ne.
Qed.
End loading.

(** ** CME *)

Section cme.
Context {params : EngineParams} {algo : MatchAlgorithm} {iteration : Iteration} (junk : loc → Order).
#[local] Existing Instance Cme.cme_hooks.
#[local] Instance cme_members : Fresh Cme.CmeExchange := CmeSimulator.cme_fresh junk.
Implicit Types (s : simulator Cme.CmeExchange) (ts : Timestamp).

Lemma cme_accepts (e : engine Cme.CmeExchange) from to ts : on_session_transition e from to ts = true.
Proof. done. Qed.

(** The opening of CME returns and leaves the market in continuous
    trading: every instrument keeps its configuration, its engine is well
    formed, has traded exactly the volume of its opening auction at the
    reference of its last close, and unless it holds hidden quantity its book
    is not crossed. *)
Theorem cme_open_market_exact fuel ts s :
  engines_ok s → auction_fuel fuel s →
  ∃ s', CmeSimulator.open_market fuel ts s = Ok (tt, s') ∧ s'.(sim_session) = Continuous ∧
    per_instrument (auction_result Continuous) s s'.
Proof.
  intros Hok Hf. apply wp_eq_unit. eapply wp_mono; [by apply wp_auctions_then|]. intros [] s' [Hs H].
  split; [done|]. eapply per_instrument_impl; [|exact H]. intros id i i' Hi.
  apply auctioned_into_result; [apply cme_accepts|by eapply Hok].
Qed.

(** C21: The trading day of CME ends: [close_market] and then [end_of_day]
    return, every engine is closed and well formed with its statistics reset,
    has traded exactly the volume of its closing auction, and what is left of
    its orders is what the auction left of them without any DAY order. *)
Theorem cme_day_ends fuel ts ts' s :
  engines_ok s → auction_fuel fuel s →
  ∃ s', (CmeSimulator.close_market fuel ts ;; CmeSimulator.end_of_day ts') s = Ok (tt, s') ∧
    s'.(sim_session) = Closed ∧ per_instrument (day_closed ts) s s'.
Proof.
  intros Hok Hf. apply wp_eq_unit. unfold wp, CmeSimulator.close_market. rewrite bind_assoc.
  apply (wp_close_day cme_accepts fuel ts (ts + 1) (ts + 2) ts'); done.
Qed.

(** Loading products with distinct identifiers into a new CME simulator
    succeeds; every product then has an instrument with its tick, lot and
    maximal size, an empty engine and its price band, and there are no others. *)
Theorem cme_load_products_exact ps :
  NoDup (cp_instrument_id <$> ps) →
  ∃ s', CmeSimulator.load_products junk ps new_simulator = Ok (Returns tt, s') ∧ s'.(sim_session) = Closed ∧
    (∀ p, p ∈ ps → s'.(instruments) !! p.(cp_instrument_id) =
       Some (loaded CmeSimulator.product_instrument (λ p, Cme.set_band_percentage p.(cp_band_pct)) p)) ∧
    dom s'.(instruments) = list_to_set (cp_instrument_id <$> ps).
Proof.
  intros Hnd. destruct (load_all CmeSimulator.product_instrument (λ p, Cme.set_band_percentage p.(cp_band_pct))
    (CmeSimulator.load_product junk) ps new_simulator) as (s' & E & Hs & Hin & Hout); try done.
  exists s'. split_and!; try done. apply set_eq. intros id. rewrite elem_of_dom, elem_of_list_to_set. split.
  - intros Hi. destruct (decide (id ∈ cp_instrument_id <$> ps)) as [|Hno]; [done|]. rewrite Hout in Hi by done.
    by destruct Hi.
  - intros (p & -> & Hp)%list_elem_of_fmap. eexists. exact (Hin p Hp).
Qed.
End cme.

(** ** ICE *)

Section ice.
Context {params : EngineParams} {iteration : Iteration} (fifo gtbpr : MatchAlgorithm) (junk : loc → Order).
#[local] Existing Instance Ice.ice_hooks.
#[local] Instance ice_members : Fresh Ice.IceExchange := IceSimulator.ice_fresh junk.
Import IceSimulator.
Implicit Types (s : ice_simulator) (ts : Timestamp) (id : Z) (b : bool) (p : IceProductConfig).

(** One pool or the other. *)
Definition pool b s : simulator Ice.IceExchange := if b then s.(gtbpr_sim) else s.(fifo_sim).
Definition set_pool b (v : simulator Ice.IceExchange) s : ice_simulator := if b then set_gtbpr_sim v s else set_fifo_sim v s.
Definition on_pool {A} b (m : M (simulator Ice.IceExchange) A) : M ice_simulator A := if b then on_gtbpr m else on_fifo m.
Definition pool_algorithm b : MatchAlgorithm := if b then gtbpr else fifo.

Lemma on_pool_run {A} b (m : M (simulator Ice.IceExchange) A) s a v :
  m (pool b s) = Ok (a, v) → on_pool b m s = Ok (a, set_pool b v s).
Proof. unfold on_pool, on_gtbpr, on_fifo, pool, set_pool. by destruct b; intros ->. Qed.

Lemma pool_set b b' v s : pool b' (set_pool b v s) = if bool_decide (b' = b) then v else pool b' s.
Proof. by destruct b, b'. Qed.

(** The table knows the instruments, each in one pool. *)
Definition routing_ok s : Prop := ∀ id b,
  is_Some ((pool b s).(instruments) !! id) ↔ s.(is_gtbpr) !! id = Some b.

(** The engine that requests for an identifier reach. *)
Definition routed_engine id s : option (engine Ice.IceExchange) :=
  b ← s.(is_gtbpr) !! id; ExchangeSimulator.get_engine id (pool b s).

Lemma load_product_run p s :
  (∀ b, (pool b s).(sim_session) = Closed) → (∀ b, (pool b s).(instruments) !! p.(ip_instrument_id) = None) →
  let b := is_gtbpr_product p in
  load_product junk p s = Ok (Returns tt,
    set_pool b (mkSimulator (<[p.(ip_instrument_id) := loaded product_instrument configure p]> (pool b s).(instruments)) Closed)
      (set_is_gtbpr (<[p.(ip_instrument_id) := b]> s.(is_gtbpr)) s)).
Proof.
  intros Hs Hn. cbn zeta. set (b := is_gtbpr_product p). specialize (Hs b). specialize (Hn b).
  unfold load_product, modify. fold b. unfold attempt, add_instrument, get_instrument, mbind, M_bind, on_gtbpr, on_fifo, get.
  destruct b; cbn in Hs, Hn |- *; rewrite Hn; cbn; rewrite bool_decide_eq_true_2 by done; cbn;
    unfold on_found; cbn; rewrite lookup_insert_eq; cbn; rewrite insert_insert_eq;
    unfold set_instruments; cbn; by rewrite Hs.
Qed.

Lemma new_routing_ok : routing_ok new_ice_simulator.
Proof. intros id b. destruct b; cbn; rewrite !lookup_empty; split; (by intros [? ?]) || done. Qed.

(** Loading where the identifiers are free. *)
Lemma load_products_step ps s :
  NoDup (ip_instrument_id <$> ps) → (∀ b, (pool b s).(sim_session) = Closed) →
    routing_ok s → (∀ p, p ∈ ps → s.(is_gtbpr) !! p.(ip_instrument_id) = None) →
    ∃ s', attempt_each ps (load_product junk) s = Ok (Returns tt, s') ∧ routing_ok s' ∧
      (∀ id, id ∉ ip_instrument_id <$> ps → s'.(is_gtbpr) !! id = s.(is_gtbpr) !! id ∧
        ∀ b, (pool b s').(instruments) !! id = (pool b s).(instruments) !! id) ∧
      ∀ p, p ∈ ps → s'.(is_gtbpr) !! p.(ip_instrument_id) = Some (is_gtbpr_product p) ∧
        (pool (is_gtbpr_product p) s').(instruments) !! p.(ip_instrument_id) = Some (loaded product_instrument configure p).
Proof.
  revert s. induction ps as [|p ps IH]; intros s Hnd Hs Hr Hn.
  { exists s. split_and!; [done|done|done|by intros p ?%not_elem_of_nil]. }
  apply NoDup_cons in Hnd as [Hp Hnd]. cbn [attempt_each]. unfold attempt at 1, mbind at 1, M_bind.
  set (id := p.(ip_instrument_id)) in *. set (b := is_gtbpr_product p).
  assert (Hfree : ∀ b, (pool b s).(instruments) !! id = None).
  { intros b'. apply eq_None_not_Some. intros Hi%Hr. pose proof (Hn p ltac:(by left)) as Hno. fold id in Hno. congruence. }
  rewrite load_product_run by done. fold id b.
  match goal with |- context [attempt_each ps _ ?st] => set (s1 := st) end.
  assert (Ht1 : is_gtbpr s1 = <[id := b]> s.(is_gtbpr)) by (by unfold s1; destruct b).
  assert (Hp1 : ∀ b' id', (pool b' s1).(instruments) !! id' =
    if bool_decide (b' = b ∧ id' = id) then Some (loaded product_instrument configure p) else (pool b' s).(instruments) !! id').
  { intros b' id'. unfold s1. rewrite pool_set. destruct (decide (b' = b)) as [->|Hb].
    - rewrite bool_decide_eq_true_2 by done. cbn. destruct (decide (id' = id)) as [->|Hne].
      + by rewrite lookup_insert_eq, bool_decide_eq_true_2.
      + rewrite lookup_insert_ne, bool_decide_eq_false_2 by (done || by intros [_ ?]). by destruct b.
    - rewrite bool_decide_eq_false_2, bool_decide_eq_false_2 by (done || by intros [? _]). by destruct b'. }
  destruct (IH s1) as (s' & E & Hr' & Hout & Hin); [done| | | |].
  { intros b'. unfold s1. rewrite pool_set. case_bool_decide; [done|]. by destruct b', b; cbn; apply (Hs true) || apply (Hs false). }
  { intros id' b'. rewrite Ht1, Hp1. destruct (decide (id' = id)) as [->|Hne].
    - rewrite lookup_insert_eq, Hfree. destruct (decide (b' = b)) as [->|Hb].
      + rewrite bool_decide_eq_true_2 by done. split; [done|by eexists].
      + rewrite bool_decide_eq_false_2 by (by intros [? _]). split; [by intros [? ?]|by intros [= ->]].
    - rewrite lookup_insert_ne, bool_decide_eq_false_2 by (done || by intros [_ ?]). apply Hr. }
  { intros p' Hp'. rewrite Ht1, lookup_insert_ne; [by apply Hn; right|].
    intros He. apply Hp. rewrite He. by apply list_elem_of_fmap_2. }
  exists s'. split_and!; [exact E|done| |].
  - intros id' [Hne Hid]%not_elem_of_cons. destruct (Hout id' Hid) as [Ht' Hp']. split.
    + by rewrite Ht', Ht1, lookup_insert_ne.
    + intros b'. rewrite Hp', Hp1, bool_decide_eq_false_2 by (by intros [_ ?]). done.
  - intros p' [->|Hp']%elem_of_cons; [|by apply Hin]. destruct (Hout id Hp) as [Ht' Hp']. fold id b. split.
    + by rewrite Ht', Ht1, lookup_insert_eq.
    + by rewrite Hp', Hp1, bool_decide_eq_true_2.
Qed.

(** Loading products with distinct identifiers into a new ICE simulator
    succeeds; afterwards the table, the FIFO pool and the GTBPR pool agree on
    where every instrument is, and every product's requests reach an empty
    engine, of the pool of its algorithm, with its interval price limit and its
    self match action. *)
Theorem ice_load_products_routes ps :
  NoDup (ip_instrument_id <$> ps) →
  ∃ s', load_products junk ps new_ice_simulator = Ok (Returns tt, s') ∧ routing_ok s' ∧
    ∀ p, p ∈ ps → s'.(is_gtbpr) !! p.(ip_instrument_id) = Some (is_gtbpr_product p) ∧
      routed_engine p.(ip_instrument_id) s' =
        Some (init_engine (product_config p.(ip_tick_size) p.(ip_lot_size) p.(ip_max_order_size))
          (Ice.mkIce p.(ip_ipl_width) p.(ip_smp_action) 0 0 false 0) junk).
Proof.
  intros Hnd.
  destruct (load_products_step ps new_ice_simulator Hnd) as (s' & E & Hr & _ & Hin).
  { by intros []. }
  { apply new_routing_ok. }
  { intros p _. apply lookup_empty. }
  exists s'. split_and!; [done|done|]. intros p Hp. destruct (Hin p Hp) as [Ht Hi]. split; [done|].
  unfold routed_engine. rewrite Ht. cbn. unfold ExchangeSimulator.get_engine, get_instrument. by rewrite Hi.
Qed.

(** A new order for an instrument of an ICE simulator reaches the engine
    the table names, under the algorithm of its pool, with the outcome the
    engine promises, and leaves every other instrument's engine as it was; an
    order for an identifier the table does not know throws and changes
    nothing. *)
Theorem ice_new_order_routed fuel id req s :
  routing_ok s →
  match routed_engine id s with
  | Some e => ready e → (Z.to_nat req.(r_quantity) + budget e + 1 <= fuel)%nat →
      ∃ s' e', new_order fifo gtbpr fuel id req s = Ok (Returns tt, s') ∧ routing_ok s' ∧
        routed_engine id s' = Some e' ∧ submitted req e e' ∧
        ∀ id', id' ≠ id → routed_engine id' s' = routed_engine id' s
  | None => new_order fifo gtbpr fuel id req s = Ok (Throws UnknownInstrument, s)
  end.
Proof.
  intros Hr. unfold routed_engine at 1. destruct (is_gtbpr s !! id) as [b|] eqn:Hb; cbn.
  2: { unfold new_order, dispatch, mbind, M_bind, get. by rewrite Hb. }
  destruct (proj2 (Hr id b) Hb) as [i Hi].
  unfold ExchangeSimulator.get_engine, get_instrument. rewrite Hi. cbn. intros Hrdy Hfuel.
  destruct (wp_eq _ _ _ (wp_new_order (algo := pool_algorithm b) fuel req _ Hrdy Hfuel)) as ([] & e' & E & Hsub).
  set (v := set_instruments (<[id := set_inst_engine e' i]> (pool b s).(instruments)) (pool b s)).
  assert (Hrun : new_order fifo gtbpr fuel id req s = Ok (Returns tt, set_pool b v s)).
  { unfold new_order, dispatch, mbind, M_bind, get. rewrite Hb. unfold v. destruct b; cbn [pool pool_algorithm] in *.
    all: unfold on_gtbpr, on_fifo, ExchangeSimulator.new_order, route, mbind, M_bind, get,
      ExchangeSimulator.get_engine, get_instrument, on_instrument, on_engine; rewrite Hi; cbn [fmap option_fmap option_map]; by rewrite Hi, E. }
  exists (set_pool b v s), e'.
  assert (Ht : is_gtbpr (set_pool b v s) = is_gtbpr s) by by destruct b.
  assert (Hp : ∀ b' id', (pool b' (set_pool b v s)).(instruments) !! id' =
    if bool_decide (b' = b ∧ id' = id) then Some (set_inst_engine e' i) else (pool b' s).(instruments) !! id').
  { intros b' id'. rewrite pool_set. destruct (decide (b' = b)) as [->|Hne].
    - rewrite bool_decide_eq_true_2 by done. cbn. destruct (decide (id' = id)) as [->|Hid].
      + by rewrite lookup_insert_eq, bool_decide_eq_true_2.
      + by rewrite lookup_insert_ne, bool_decide_eq_false_2 by (done || by intros [_ ?]).
    - by rewrite !bool_decide_eq_false_2 by (done || by intros [? _]). }
  split_and!; [done| | |done|].
  - intros id' b'. rewrite Ht, Hp, <- (Hr id' b'). case_bool_decide as Hc; [|done].
    destruct Hc as [-> ->]. rewrite Hi. split; intros _; by eexists.
  - unfold routed_engine. rewrite Ht, Hb. cbn. unfold ExchangeSimulator.get_engine, get_instrument.
    by rewrite Hp, bool_decide_eq_true_2.
  - intros id' Hne. unfold routed_engine. rewrite Ht. destruct (is_gtbpr s !! id') as [b'|]; [|done]. cbn.
    unfold ExchangeSimulator.get_engine, get_instrument. rewrite Hp. rewrite bool_decide_eq_false_2; [done|]. by intros [_ ?].
Qed.
End ice.
