(* ===== verification/SpreadSimulator.v ===== *)
(** * Spread books beside the outright engines: [spread_simulator.h],
      [multi_leg_coordinator.h]

    [SpreadSimulator] owns the strategies and the spread books and reaches the
    outright engines through [engine_lookup_].  Whoever owns the engines is a
    world [W]; the class [EngineLookup] is that function with the write through
    the pointer it returns, and makes every world a set of outrights for
    [SpreadBook].  A book keeps the events it reports; the world is lent to the
    book that runs. *)

From S2P Require Import Prelude Types MatchAlgo Books Trackers Engine EngineInvariant EngineRules EngineFills EngineMatch EngineImplied.
From S2P Require Import Spread SpreadBook SpreadImplied Products ExchangeSimulator.

(** ** Engines *)

Class EngineLookup (D W : Type) : Type := {
  engine_lookup : W → Z → option (engine D);
  engine_store : Z → engine D → W → W;
  engine_stored : ∀ id id' e e' w, engine_lookup w id = Some e →
    engine_lookup (engine_store id e' w) id' = if id =? id' then Some e' else engine_lookup w id'
}.

Section outrights.
Context {D W : Type} {params : EngineParams} {hooks : Hooks D} {lookup : EngineLookup D W}.
Implicit Types (w : W) (id : Z) (e : engine D) (ts : Timestamp).

Definition engine_bbo e : LegBBO :=
  let '(bid, bid_q) := match e.(bids) with lv :: _ => (lv.(lv_price), lv.(lv_total_quantity)) | [] => (0, 0) end in
  let '(ask, ask_q) := match e.(asks) with lv :: _ => (lv.(lv_price), lv.(lv_total_quantity)) | [] => (0, 0) end in
  mkBBO bid bid_q ask ask_q.

#[export] Instance engine_outrights : Outrights W := {|
  bbo_provider w id := match engine_lookup w id with Some e => engine_bbo e | None => mkBBO 0 0 0 0 end;
  best_order_provider w id side :=
    match engine_lookup w id with Some e => best_order_id side e | None => None end;
  fill_applier id fills ts := λ w,
    match engine_lookup w id with
    | None => Ok (false, w)
    | Some e =>
        match apply_implied_fills fills ts e with
        | Ok (b, e') => Ok (b, engine_store id e' w)
        | Fuel => Fuel
        | UB => UB
        end
    end
|}.
End outrights.

(** [regular_sim_.get_engine]. *)
#[export] Instance simulator_lookup {D} : EngineLookup D (simulator D).
Proof.
  refine {|
    engine_lookup s id := get_engine id s;
    engine_store id e s :=
      match s.(instruments) !! id with
      | Some i => set_instruments (<[id := set_inst_engine e i]> s.(instruments)) s
      | None => s
      end
  |}.
  intros id id' e e' s. unfold get_engine, get_instrument. intros (i & Hi & _)%fmap_Some. rewrite Hi. cbn.
  destruct (Z.eqb_spec id id') as [->|Hne]; [by rewrite lookup_insert_eq|by rewrite lookup_insert_ne].
Defined.

(** ** The simulator *)

Inductive spread_error : Type :=
  | SpreadExists (symbol : list Z)
  | RegistrationFailed (e : RegisterError)
  | UnknownSpread.

Record spread_simulator (W : Type) : Type := mkSpreadSim {
  registry : SpreadStrategyRegistry;
  spread_books : gmap Z (spread_book W);
  leg_to_spreads : gmap Z (gset Z);
  ss_world : W
}.
Arguments mkSpreadSim {W}.
Arguments registry {W}.
Arguments spread_books {W}.
Arguments leg_to_spreads {W}.
Arguments ss_world {W}.

Section spread_simulator_ops.
Context {W : Type} {outrights : Outrights W} {params : SpreadParams} {iteration : Iteration}.
Variable junk : loc → Order.
Abbreviation SS := (M (spread_simulator W)).
Implicit Types (s : spread_simulator W) (ts : Timestamp) (id : Z).

Definition set_registry (v : SpreadStrategyRegistry) s : spread_simulator W :=
  mkSpreadSim v s.(spread_books) s.(leg_to_spreads) s.(ss_world).
Definition set_spread_books (v : gmap Z (spread_book W)) s : spread_simulator W :=
  mkSpreadSim s.(registry) v s.(leg_to_spreads) s.(ss_world).
Definition set_leg_to_spreads (v : gmap Z (gset Z)) s : spread_simulator W :=
  mkSpreadSim s.(registry) s.(spread_books) v s.(ss_world).
Definition set_ss_world (v : W) s : spread_simulator W :=
  mkSpreadSim s.(registry) s.(spread_books) s.(leg_to_spreads) v.

(** The registry has no validator. *)
Definition new_spread_simulator (w : W) : spread_simulator W :=
  mkSpreadSim (empty_strategies None) ∅ ∅ w.

Definition get_spread_book id s : option (spread_book W) := s.(spread_books) !! id.
Definition spread_count s : nat := size s.(spread_books).

(** Run a book over the world and keep both. *)
Definition on_book {A} id (m : M (spread_book W) A) : SS A := λ s,
  match s.(spread_books) !! id with
  | None => UB
  | Some b =>
      match m (put_world s.(ss_world) b) with
      | Ok (a, b') => Ok (a, set_ss_world b'.(sb_world) (set_spread_books (<[id := b']> s.(spread_books)) s))
      | Fuel => Fuel
      | UB => UB
      end
  end.

(** [leg_to_spreads_[leg.instrument_id].insert(id)]. *)
Definition track_leg id (m : gmap Z (gset Z)) (leg : StrategyLeg) : gmap Z (gset Z) :=
  <[leg.(leg_instrument_id) := {[id]} ∪ (m !!! leg.(leg_instrument_id))]> m.

Definition add_spread_instrument (cfg : SpreadInstrumentConfig) : SS (outcome spread_error unit) :=
  s ← get;
  match get_spread_book cfg.(si_id) s with
  | Some _ => mret (Throws (SpreadExists cfg.(si_symbol)))
  | None =>
      strategy ← deref (build_strategy cfg);
      let '(registry, err) := register_strategy cfg.(si_id) strategy s.(registry) in
      modify (set_registry registry) ;;
      match err with
      | Some e => mret (Throws (RegistrationFailed e))
      | None =>
          strat ← deref (lookup_strategy cfg.(si_id) registry);
          let book := set_callbacks (make_spread_book strat cfg.(si_id) junk s.(ss_world)) in
          modify (λ s, set_leg_to_spreads (fold_left (track_leg cfg.(si_id)) strat.(st_legs) s.(leg_to_spreads)) s) ;;
          modify (λ s, set_spread_books (<[cfg.(si_id) := book]> s.(spread_books)) s) ;;
          mret (Returns tt)
      end
  end.

(** ** Order routing *)

Definition new_spread_order id (req : SpreadOrderRequest) : SS (outcome spread_error OrderId) :=
  s ← get;
  match get_spread_book id s with
  | None => mret (Throws UnknownSpread)
  | Some _ =>
      order ← on_book id (SpreadBook.new_order req);
      (if order =? 0 then mret 0 else on_book id (try_implied_in req.(sr_timestamp))) ;;
      mret (Returns order)
  end.

Definition cancel_spread_order id (req : SpreadCancelRequest) : SS bool :=
  s ← get;
  match get_spread_book id s with
  | None => mret false
  | Some _ => on_book id (SpreadBook.cancel_order req)
  end.

Definition modify_spread_order id (req : SpreadModifyRequest) : SS bool :=
  s ← get;
  match get_spread_book id s with
  | None => mret false
  | Some _ => on_book id (SpreadBook.modify_order req)
  end.

(** ** The trigger of implied matching *)

Fixpoint trigger_spreads (ids : list Z) ts (total_fills : Z) : SS Z :=
  match ids with
  | [] => mret total_fills
  | id :: ids =>
      s ← get;
      match get_spread_book id s with
      | None => trigger_spreads ids ts total_fills
      | Some _ =>
          n ← on_book id (SpreadBook.on_outright_bbo_change ts);
          trigger_spreads ids ts (total_fills + n)
      end
  end.

Definition on_outright_bbo_change (outright_id : Z) ts : SS Z :=
  s ← get;
  match s.(leg_to_spreads) !! outright_id with
  | None => mret 0
  | Some ids => trigger_spreads (visit ids) ts 0
  end.
End spread_simulator_ops.

(** ** MultiLegCoordinator *)

Record MultiLegCoordinator (W : Type) : Type := mkCoordinator {
  validator : option (W → Z → list LegFill → bool);
  applier : option (Z → list LegFill → Timestamp → M W bool);
  fills_by_instrument : gmap Z (list LegFill)
}.
Arguments mkCoordinator {W}.
Arguments validator {W}.
Arguments applier {W}.
Arguments fills_by_instrument {W}.

Section coordinator.
Context {W : Type} {iteration : Iteration}.
Implicit Types (c : MultiLegCoordinator W) (ts : Timestamp).

Definition new_coordinator : MultiLegCoordinator W := mkCoordinator None None ∅.
Definition set_validator (v : W → Z → list LegFill → bool) c : MultiLegCoordinator W :=
  mkCoordinator (Some v) c.(applier) c.(fills_by_instrument).
Definition set_applier (v : Z → list LegFill → Timestamp → M W bool) c : MultiLegCoordinator W :=
  mkCoordinator c.(validator) (Some v) c.(fills_by_instrument).
Definition add_leg_fill (id : Z) (fill : LegFill) c : MultiLegCoordinator W :=
  mkCoordinator c.(validator) c.(applier)
    (<[id := (c.(fills_by_instrument) !!! id) ++ [fill]]> c.(fills_by_instrument)).
Definition clear c : MultiLegCoordinator W := mkCoordinator c.(validator) c.(applier) ∅.

Definition pending c : list (Z * list LegFill) :=
  (λ id, (id, c.(fills_by_instrument) !!! id)) <$> visit (dom c.(fills_by_instrument)).

Definition all_valid c (w : W) : bool :=
  match c.(validator) with
  | Some v => forallb (λ x, v w x.1 x.2) (pending c)
  | None => true
  end.

Fixpoint apply_all (apply : Z → list LegFill → Timestamp → M W bool) (batch : list (Z * list LegFill)) ts
    : M W bool :=
  match batch with
  | [] => mret true
  | (id, fills) :: batch =>
      ok ← apply id fills ts;
      if ok : bool then apply_all apply batch ts else mret false
  end.

Definition execute c ts : M W bool :=
  if bool_decide (c.(fills_by_instrument) = ∅) then mret true
  else
    w ← get;
    if negb (all_valid c w) then mret false
    else
      match c.(applier) with
      | Some apply => apply_all apply (pending c) ts
      | None => mret true
      end.

Definition total_fill_count c : nat := list_sum (length <$> (pending c).*2).
End coordinator.
