(* ===== verification/SpreadSimulatorTheorems.v ===== *)
(** * Spreads over real engines

    Engines that satisfy their invariant are outrights a spread book can rely
    on, the batches of leg fills reach them in order, the coordinator applies a
    batch to all of them or to none, and every request to a spread simulator
    returns and keeps all books and engines well formed. *)

From S2P Require Import Prelude Types MatchAlgo Books Trackers Engine EngineInvariant EngineRules EngineFills EngineMatch EngineImplied EngineEntry EngineTheorems.
From S2P Require Import Spread SpreadTheorems SpreadBook SpreadInvariant SpreadMatching SpreadBookTheorems SpreadImplied Products ExchangeSimulator SimulatorTheorems SpreadSimulator.

Section engines.
Context {D W : Type} {params : EngineParams} {hooks : Hooks D} {lookup : EngineLookup D W}.
Implicit Types (w : W) (id : Z) (e : engine D) (ts : Timestamp) (side : Side).

(** ** Engines as outrights *)

Definition world_engines_ok w : Prop := ∀ id e, engine_lookup w id = Some e → inv [] e.
Definition can_take w id (oid : OrderId) : Prop := ∀ e, engine_lookup w id = Some e → not_parked oid e.

Lemma book_entry_order side e l o : inv [] e → (l, o) ∈ entries (side_levels side e) → o.(o_type) = Limit.
Proof.
  intros H (lv & Hin & Hlv)%list_elem_of_bind. pose proof (inv_sides [] e (OnBook side) H) as [_ Hl].
  rewrite Forall_forall in Hl. destruct (Hl _ Hlv) as [_ _ _ Ho]. rewrite Forall_forall in Ho.
  by destruct (Ho _ Hin) as (_ & ? & _).
Qed.

Lemma booked_not_parked side e l o : inv [] e → (l, o) ∈ entries (side_levels side e) → not_parked o.(o_id) e.
Proof.
  intros H Hin sd l' o' Hin' Hid. pose proof (book_entry_order _ _ _ _ H Hin) as Hty.
  assert (H1 : live_order o.(o_id) e = Some o).
  { apply live_order_Some; [done|]. split; [done|]. by exists (OnBook side), l. }
  assert (H2 : live_order o.(o_id) e = Some o').
  { apply live_order_Some; [done|]. split; [done|]. by exists (OnStop sd), l'. }
  rewrite H1 in H2. injection H2 as <-.
  apply list_elem_of_bind in Hin' as (lv & Hin' & Hlv). pose proof (inv_sides [] e (OnStop sd) H) as [_ Hl].
  rewrite Forall_forall in Hl. destruct (Hl _ Hlv) as [_ _ _ Ho]. rewrite Forall_forall in Ho.
  destruct (Ho _ Hin') as (_ & Hst & _). cbn in Hst. by rewrite Hty in Hst.
Qed.

Lemma best_order_booked side e oid : best_order_id side e = Some oid →
  ∃ l o, (l, o) ∈ entries (side_levels side e) ∧ o.(o_id) = oid.
Proof.
  unfold best_order_id. destruct (side_levels side e) as [|lv rest]; [done|].
  destruct (lv_queue lv) as [|[l o] q] eqn:Hq; [done|]. intros [= <-]. exists l, o.
  split; [|done]. unfold entries. cbn. rewrite Hq. by left.
Qed.

(** A leg fill at an engine. *)
Definition engine_traded (q : Quantity) e e' : Prop :=
  ∃ evs, e'.(trace) = e.(trace) ++ evs ∧ EngineFills.traded evs = q.

Lemma engine_traded_0 e : engine_traded 0 e e.
Proof. exists []. by rewrite app_nil_r. Qed.
Lemma engine_traded_trans q1 q2 e1 e2 e3 :
  engine_traded q1 e1 e2 → engine_traded q2 e2 e3 → engine_traded (q1 + q2) e1 e3.
Proof.
  intros (evs1 & Ht1 & Hq1) (evs2 & Ht2 & Hq2). exists (evs1 ++ evs2).
  rewrite Ht2, Ht1, app_assoc. split; [done|]. unfold EngineFills.traded in *. by rewrite sum_by_app, Hq1, Hq2.
Qed.

(** Every engine has traded its volume, no engine came or went. *)
Definition legs_taken (vol : Z → Quantity) w w' : Prop :=
  ∀ id, option_Forall2 (engine_traded (vol id)) (engine_lookup w id) (engine_lookup w' id).

Lemma legs_taken_0 w : legs_taken (const 0) w w.
Proof. intros id. destruct (engine_lookup w id); constructor. apply engine_traded_0. Qed.
Lemma legs_taken_trans v1 v2 w1 w2 w3 :
  legs_taken v1 w1 w2 → legs_taken v2 w2 w3 → legs_taken (λ id, v1 id + v2 id) w1 w3.
Proof.
  intros H1 H2 id. specialize (H1 id). specialize (H2 id).
  destruct H1 as [e1 e2 H1|]; inversion H2; subst; constructor. by eapply engine_traded_trans.
Qed.

(** What the fill applier does with the batch of one instrument. *)
Definition instrument_valid w id (fills : list LegFill) : bool :=
  match engine_lookup w id with
  | Some e => forallb (implied_fill_valid e) fills
  | None => false
  end.

Lemma applier_batch id fills ts w :
  world_engines_ok w → NoDup (leg_order_id <$> fills) → Forall (λ f, can_take w id f.(leg_order_id)) fills →
  ∃ w', fill_applier id fills ts w = Ok (instrument_valid w id fills, w') ∧
    if instrument_valid w id fills then
      world_engines_ok w' ∧ (∀ id' oid, can_take w id' oid → can_take w' id' oid) ∧
      legs_taken (λ id', if id =? id' then sum_by leg_fill_qty fills else 0) w w' ∧
      (∀ id', id ≠ id' → engine_lookup w' id' = engine_lookup w id') ∧
      ∃ e e', engine_lookup w id = Some e ∧ engine_lookup w' id = Some e' ∧ batch_filled fills e e'
    else legs_taken (const 0) w w' ∧ ∀ id', engine_lookup w' id' = engine_lookup w id'.
Proof.
  intros Hw Hnd Hp. cbn. unfold instrument_valid. destruct (engine_lookup w id) as [e|] eqn:He.
  2: { exists w. split; [done|]. split; [apply legs_taken_0|done]. }
  assert (Hpe : Forall (λ f, not_parked f.(leg_order_id) e) fills).
  { eapply Forall_impl; [exact Hp|]. intros f Hf. by apply Hf. }
  destruct (wp_eq _ _ _ (wp_apply_implied_fills fills ts e (Hw _ _ He) Hnd Hpe)) as (b & e' & -> & -> & Hb).
  exists (engine_store id e' w). split; [done|].
  assert (Hl : ∀ id', engine_lookup (engine_store id e' w) id' = if id =? id' then Some e' else engine_lookup w id').
  { intros id'. by eapply engine_stored. }
  destruct (forallb _ _).
  - split_and!.
    + intros id' e1. rewrite Hl. case_if as E; [|by apply Hw]. intros [= <-]. apply Hb.
    + intros id' oid Hc e1. rewrite Hl. case_if as E; [|by apply Hc]. apply Z.eqb_eq in E as <-.
      intros [= <-]. by apply (bf_parked _ _ _ Hb), Hc.
    + intros id'. rewrite Hl. case_if as E.
      * apply Z.eqb_eq in E as <-. rewrite He. constructor. destruct (bf_trace _ _ _ Hb) as (evs & ? & ?). by exists evs.
      * destruct (engine_lookup w id'); constructor. apply engine_traded_0.
    + intros id' Hne. rewrite Hl. by rewrite (proj2 (Z.eqb_neq id id')).
    + exists e, e'. rewrite Hl, Z.eqb_refl. done.
  - subst e'. assert (Hsame : ∀ id', engine_lookup (engine_store id e w) id' = engine_lookup w id').
    { intros id'. rewrite Hl. case_if as E; [|done]. apply Z.eqb_eq in E as <-. by rewrite He. }
    split; [|done]. intros id'. rewrite Hsame. destruct (engine_lookup w id'); constructor. apply engine_traded_0.
Qed.

Lemma world_ok_same w w' : (∀ id, engine_lookup w' id = engine_lookup w id) → world_engines_ok w → world_engines_ok w'.
Proof. intros H Hw id e. rewrite H. apply Hw. Qed.

#[export] Instance engine_outrights_total : OutrightsTotal W.
Proof.
  refine {| world_ok := world_engines_ok; fillable := can_take; world_moves := legs_taken;
            moves_none := legs_taken_0; moves_more := legs_taken_trans |}.
  - intros v v' w w' Hv H id. rewrite <- Hv. apply H.
  - intros w id side oid Hw. cbn. intros Hb e He. rewrite He in Hb.
    destruct (best_order_booked _ _ _ Hb) as (l & o & Hin & <-). by eapply booked_not_parked; [eapply Hw|].
  - intros id fill ts w Hw Hf.
    destruct (applier_batch id [fill] ts w Hw) as (w' & E & Hb); [apply NoDup_singleton|by constructor|].
    exists (instrument_valid w id [fill]), w'. split; [exact E|]. destruct (instrument_valid w id [fill]).
    + destruct Hb as (H1 & H2 & Ht & _). split_and!; [done| |done]. intros id'. specialize (Ht id'). cbn in Ht.
      unfold leg_volume. cbn. rewrite !Z.add_0_r in *. exact Ht.
    + destruct Hb as [Ht Hs]. split_and!; [by eapply world_ok_same|done|]. intros id' oid Hc e. rewrite Hs. apply Hc.
Defined.

(** ** The coordinator *)

Definition acceptable w (x : Z * list LegFill) : Prop :=
  NoDup (leg_order_id <$> x.2) ∧ Forall (λ f, can_take w x.1 f.(leg_order_id)) x.2 ∧ instrument_valid w x.1 x.2 = true.

(** A batch that is valid for every instrument is applied to all of them. *)
Lemma apply_all_filled batch ts w :
  world_engines_ok w → NoDup batch.*1 → Forall (acceptable w) batch →
  ∃ w', apply_all fill_applier batch ts w = Ok (true, w') ∧ world_engines_ok w' ∧
    (∀ id, id ∉ batch.*1 → engine_lookup w' id = engine_lookup w id) ∧
    ∀ id fills, (id, fills) ∈ batch →
      ∃ e e', engine_lookup w id = Some e ∧ engine_lookup w' id = Some e' ∧ batch_filled fills e e'.
Proof.
  revert w. induction batch as [|[id fills] batch IH]; intros w Hw Hnd Hok; cbn [apply_all].
  { exists w. split_and!; [done..|]. by intros id fills ?%not_elem_of_nil. }
  apply NoDup_cons in Hnd as [Hid Hnd]. apply Forall_cons in Hok as [(Hu & Hp & Hv) Hok]. cbn in Hu, Hp, Hv, Hid.
  destruct (applier_batch id fills ts w Hw Hu Hp) as (w1 & E & Hb). rewrite Hv in E, Hb.
  destruct Hb as (Hw1 & Hmono & _ & Hother & e & e' & He & He' & Hf).
  unfold mbind, M_bind. rewrite E.
  destruct (IH w1 Hw1 Hnd) as (w' & E' & Hw' & Hout & Hin).
  { apply Forall_forall. intros [id1 fills1] Hx. rewrite Forall_forall in Hok. destruct (Hok _ Hx) as (Hu1 & Hp1 & Hv1).
    assert (id ≠ id1) by (intros ->; apply Hid; apply list_elem_of_fmap; by exists (id1, fills1)).
    split_and!; [done| |by unfold instrument_valid in *; cbn in *; rewrite Hother].
    eapply Forall_impl; [exact Hp1|]. intros f. apply Hmono. }
  exists w'. split_and!; [done|done| |].
  - intros id1 [Hne Hn]%not_elem_of_cons. cbn in Hne. by rewrite Hout, Hother.
  - intros id1 fills1 [[= -> ->]|Hx]%elem_of_cons.
    + exists e, e'. by rewrite Hout.
    + destruct (Hin _ _ Hx) as (e1 & e1' & He1 & He1' & Hf1). exists e1, e1'.
      rewrite Hother in He1; [done|]. intros ->. apply Hid. apply list_elem_of_fmap. by exists (id1, fills1).
Qed.

Lemma pending_elem {iteration : Iteration} (c : MultiLegCoordinator W) id fills :
  (id, fills) ∈ pending c ↔ c.(fills_by_instrument) !! id = Some fills.
Proof.
  unfold pending. rewrite list_elem_of_fmap. setoid_rewrite visit_perm. setoid_rewrite elem_of_elements.
  setoid_rewrite elem_of_dom. split.
  - intros (id' & [= -> ->] & [x Hx]). by rewrite Hx, (lookup_total_correct _ _ _ Hx).
  - intros Hx. exists id. split; [by rewrite (lookup_total_correct _ _ _ Hx)|by exists fills].
Qed.

Lemma pending_ids {iteration : Iteration} (c : MultiLegCoordinator W) : (pending c).*1 = visit (dom c.(fills_by_instrument)).
Proof. unfold pending. rewrite <- list_fmap_compose. apply list_fmap_id. Qed.

End engines.

(** ** Any sequence of requests *)

Section safety.
Context {W : Type} {outrights : Outrights W} {total : OutrightsTotal W} {sparams : SpreadParams} {iteration : Iteration}.
Variable junk : loc → Order.
Implicit Types (s : spread_simulator W) (b : spread_book W) (id : Z) (ts : Timestamp) (w : W).

Inductive spread_request : Type :=
  | NewSpreadOrder (id : Z) (req : SpreadOrderRequest)
  | CancelSpreadOrder (id : Z) (req : SpreadCancelRequest)
  | ModifySpreadOrder (id : Z) (req : SpreadModifyRequest)
  | OutrightBboChange (outright : Z) (ts : Timestamp).

Definition serve (r : spread_request) : M (spread_simulator W) unit :=
  match r with
  | NewSpreadOrder id req => new_spread_order id req ;; mret tt
  | CancelSpreadOrder id req => cancel_spread_order id req ;; mret tt
  | ModifySpreadOrder id req => modify_spread_order id req ;; mret tt
  | OutrightBboChange id ts => on_outright_bbo_change id ts ;; mret tt
  end.

(** A modification wants a free level in its book. *)
Definition admissible (r : spread_request) s : Prop :=
  match r with
  | ModifySpreadOrder id _ => ∀ b, get_spread_book id s = Some b → b.(sb_level_pool) ≠ []
  | _ => True
  end.

(** A book, with whatever world it last saw. *)
Record book_ok b : Prop := {
  bo_inv : sinv [] b;
  bo_weighted : weighted b.(strategy)
}.

Record ss_ok s : Prop := {
  ss_books : map_Forall (λ _, book_ok) s.(spread_books);
  ss_outrights : world_ok s.(ss_world)
}.

Lemma wp_on_book {A} id (m : M (spread_book W) A) b (Q : A → spread_simulator W → Prop) s :
  ss_ok s → get_spread_book id s = Some b →
  (∀ b0, wbook b0 → weighted b0.(strategy) → (b.(sb_level_pool) ≠ [] → b0.(sb_level_pool) ≠ []) →
     wp m (λ _ b', wbook b' ∧ weighted b'.(strategy)) b0) →
  (∀ a s', ss_ok s' → (∀ id', is_Some (get_spread_book id' s) → is_Some (get_spread_book id' s')) → Q a s') →
  wp (on_book id m) Q s.
Proof.
  intros [Hb Hw] Hid Hm HQ. unfold get_spread_book in *. destruct (Hb _ _ Hid) as [Hi Hwt].
  assert (Hwb : wbook (put_world s.(ss_world) b)) by (split; [by apply sinv_world|done]).
  destruct (wp_eq _ _ _ (Hm (put_world s.(ss_world) b) Hwb Hwt (λ H, H)))
    as (a & b' & E & [Hi' Hw'] & Hwt').
  unfold wp, on_book. rewrite Hid, E. apply HQ.
  - split; [|done]. cbn. apply map_Forall_insert_2; [by split|done].
  - intros id' [x Hx]. cbn. unfold get_spread_book. cbn. destruct (decide (id' = id)) as [->|];
      [rewrite lookup_insert_eq|rewrite lookup_insert_ne by done]; eauto.
Qed.

Lemma wbook_unchanged b b' : wbook b → unchanged b b' → sinv [] b' → wbook b'.
Proof. intros [_ Hw] [_ _ E] Hi. split; [done|]. by rewrite E. Qed.
Lemma weighted_unchanged b b' : weighted b.(strategy) → unchanged b b' → weighted b'.(strategy).
Proof. intros Hw [E _ _]. by rewrite E. Qed.

Lemma wp_book_request {A} (m : M (spread_book W) A) b :
  (∃ a b', m b = Ok (a, b') ∧ sinv [] b' ∧ unchanged b b') → wbook b → weighted b.(strategy) →
  wp m (λ _ b', wbook b' ∧ weighted b'.(strategy)) b.
Proof.
  intros (a & b' & E & Hi & Hu) Hb Hw. unfold wp. rewrite E.
  split; [by eapply wbook_unchanged|by eapply weighted_unchanged].
Qed.

Lemma ordered_unchanged req b id b' : ordered req b id b' → sinv [] b' ∧ unchanged b b'.
Proof.
  intros [Hi H]. split; [done|]. destruct (spread_accepts req b).
  - destruct H as (_ & a & []). done.
  - by destruct H as (_ & [? _]).
Qed.

Lemma wp_new_spread_order id req s : ss_ok s → wp (new_spread_order id req) (λ _ s', ss_ok s') s.
Proof.
  intros Hok. unfold new_spread_order. wp_steps. destruct (get_spread_book id s) as [b|] eqn:Hb; [|by wp_steps].
  apply wp_bind. eapply wp_on_book; [done|exact Hb| |].
  { intros b0 Hb0 Hw0 _. apply wp_book_request; [|done|done].
    destruct (wp_eq _ _ _ (wp_spread_new_order req b0 (wb_inv _ Hb0))) as (oid & b' & E & Ho).
    exists oid, b'. split; [done|]. by eapply ordered_unchanged. }
  intros oid s1 Hok1 Hmono. apply wp_bind. destruct (oid =? 0); [by wp_steps|].
  destruct (Hmono id (mk_is_Some _ _ Hb)) as [b1 Hb1].
  eapply wp_on_book; [done|exact Hb1| |intros n s2 Hok2 _; by wp_steps].
  intros b0 Hb0 Hw0 _. eapply wp_mono; [by apply wp_try_implied_in|]. intros n b' H. cbv beta in H.
  destruct (sb_wired b0); [destruct H as (n1 & b1' & _ & [? ? _]); done|by destruct H as [_ ->]].
Qed.

Lemma wp_trigger_spreads ids ts n s : ss_ok s → wp (trigger_spreads ids ts n) (λ _ s', ss_ok s') s.
Proof.
  revert n s. induction ids as [|id ids IH]; intros n s Hok; cbn [trigger_spreads]; [by wp_steps|].
  wp_steps. destruct (get_spread_book id s) as [b|] eqn:Hb; [|by apply IH].
  apply wp_bind. eapply wp_on_book; [done|exact Hb| |intros m s1 Hok1 _; by apply IH].
  intros b0 Hb0 Hw0 _. eapply wp_mono; [by apply wp_spread_bbo_change|]. intros m b' H. cbv beta in H.
  destruct (sb_wired b0); [destruct H as (n1 & b1' & _ & [? ? _]); done|by destruct H as [_ ->]].
Qed.

Lemma wp_serve r s : ss_ok s → admissible r s → wp (serve r) (λ _ s', ss_ok s') s.
Proof.
  intros Hok Had. destruct r as [id req|id req|id req|id ts]; cbn [serve]; apply wp_bind.
  - eapply wp_mono; [by apply wp_new_spread_order|]. intros o s' H. by wp_steps.
  - unfold cancel_spread_order. wp_steps. destruct (get_spread_book id s) as [b|] eqn:Hb; [|by wp_steps].
    eapply wp_on_book; [done|exact Hb| |intros o s' H _; by wp_steps].
    intros b0 Hb0 Hw0 _. apply wp_book_request; [|done|done].
    destruct (spread_cancel_exact req b0 (wb_inv _ Hb0)) as (o & b' & ? & ? & ? & _). by exists o, b'.
  - unfold modify_spread_order. wp_steps. destruct (get_spread_book id s) as [b|] eqn:Hb; [|by wp_steps].
    eapply wp_on_book; [done|exact Hb| |intros o s' H _; by wp_steps].
    intros b0 Hb0 Hw0 Hp. apply wp_book_request; [|done|done].
    destruct (spread_modify_exact req b0 (wb_inv _ Hb0)) as (o & b' & ? & ? & ? & _); [by apply Hp, Had|]. by exists o, b'.
  - unfold on_outright_bbo_change. wp_steps. destruct (s.(leg_to_spreads) !! id) as [ids|]; [|by wp_steps].
    eapply wp_mono; [by apply wp_trigger_spreads|]. intros o s' H. by wp_steps.
Qed.

(** ** Adding spreads *)

(** Weights are signed by the ratio alone. *)
Definition unsigned_weights (cfg : SpreadInstrumentConfig) : Prop :=
  Forall (λ leg, 0 <= leg.(leg_price_multiplier)) cfg.(si_legs).

Lemma admitted_weighted validator id st :
  strategy_admitted validator id st → Forall (λ leg, 0 <= leg.(leg_price_multiplier)) st.(st_legs) → weighted st.
Proof.
  intros [H2 _ Hl] Hm. split.
  - apply Forall_forall. intros leg Hin. rewrite Forall_forall in Hl, Hm.
    destruct (Hl _ Hin) as [[Hr _] _]. split; [done|by apply Hm].
  - intros E. rewrite E in H2. cbn in H2. lia.
Qed.

Lemma build_strategy_legs cfg st : build_strategy cfg = Some st → st.(st_legs) = cfg.(si_legs).
Proof. unfold build_strategy, make_strategy. intros (lot & _ & [= <-])%bind_Some. done. Qed.

Lemma add_spread_ok cfg s o s' : ss_ok s → unsigned_weights cfg →
  add_spread_instrument junk cfg s = Ok (o, s') → ss_ok s'.
Proof.
  intros Hok Hu. unfold add_spread_instrument, mbind, M_bind, get. destruct (get_spread_book (si_id cfg) s); [by intros [= <- <-]|].
  destruct (build_strategy cfg) as [st|] eqn:Hst; [|done]. cbn.
  destruct (register_strategy (si_id cfg) st (registry s)) as [r e] eqn:Hr.
  pose proof (register_exact _ _ _ _ _ Hr) as [He Hl]. cbn. destruct e as [e|].
  { intros [= <- <-]. by destruct Hok. }
  destruct (proj1 He eq_refl) as [_ Had]. destruct Hl as (-> & _). cbn. intros [= <- <-].
  destruct Hok as [Hb Hw]. split; [|done]. cbn. apply map_Forall_insert_2; [|done]. split.
  - pose proof (sinv_init st (si_id cfg) junk (ss_world s)) as [H1 H2 H3 H4 H5 H6]. by split.
  - apply (admitted_weighted (reg_validator (registry s)) (si_id cfg) st Had). by rewrite (build_strategy_legs _ _ Hst).
Qed.

(** Everything a spread simulator can come to: spreads are added, requests are
    served, and the outrights trade by themselves in between. *)
Inductive reachable (w0 : W) : spread_simulator W → Prop :=
  | reach_new : reachable w0 (new_spread_simulator w0)
  | reach_add cfg s o s' : reachable w0 s → unsigned_weights cfg →
      add_spread_instrument junk cfg s = Ok (o, s') → reachable w0 s'
  | reach_serve r s s' : reachable w0 s → admissible r s → serve r s = Ok (tt, s') → reachable w0 s'
  | reach_world w s : reachable w0 s → world_ok w → reachable w0 (set_ss_world w s).

Lemma reachable_ok w0 s : world_ok w0 → reachable w0 s → ss_ok s.
Proof.
  intros Hw H. induction H as [|cfg s o s' _ IH Hu E|r s s' _ IH Had E|w s _ IH Hw'].
  - split; [apply map_Forall_empty|done].
  - by eapply add_spread_ok.
  - pose proof (wp_serve r s IH Had) as H. unfold wp in H. by rewrite E in H.
  - destruct IH. by split.
Qed.

End safety.
