(* ===== verification/KrxSimulator.v ===== *)
(** * The simulator of KRX: [krx_simulator.h]

    Two pools of engines, for the regular and the after-hours session, with
    the spread books beside the regular one.  The spread simulator looks
    engines up in [regular_sim_]: its world is that pool, lent to it while it
    runs. *)

From S2P Require Import Prelude Types MatchAlgo Books Trackers Engine EngineFills EngineMatch Exchanges.
From S2P Require Import Spread SpreadBook Products ExchangeSimulator VenueSimulators SpreadSimulator.

Module KrxSimulator.
Abbreviation Sim := (simulator Krx.KrxExchange).

Record krx_simulator : Type := mkKrxSim {
  regular_sim : Sim;
  after_hours_sim : Sim;
  after_hours_active : bool;
  products : list KrxProductConfig;
  spread_sim : option (spread_simulator Sim)
}.

Definition set_regular_sim (v : Sim) (s : krx_simulator) : krx_simulator :=
  mkKrxSim v s.(after_hours_sim) s.(after_hours_active) s.(products) s.(spread_sim).
Definition set_after_hours_sim (v : Sim) (s : krx_simulator) : krx_simulator :=
  mkKrxSim s.(regular_sim) v s.(after_hours_active) s.(products) s.(spread_sim).
Definition set_after_hours_active (v : bool) (s : krx_simulator) : krx_simulator :=
  mkKrxSim s.(regular_sim) s.(after_hours_sim) v s.(products) s.(spread_sim).
Definition set_products (v : list KrxProductConfig) (s : krx_simulator) : krx_simulator :=
  mkKrxSim s.(regular_sim) s.(after_hours_sim) s.(after_hours_active) v s.(spread_sim).
Definition set_spread_sim (v : option (spread_simulator Sim)) (s : krx_simulator) : krx_simulator :=
  mkKrxSim s.(regular_sim) s.(after_hours_sim) s.(after_hours_active) s.(products) v.

Definition new_krx_simulator : krx_simulator := mkKrxSim new_simulator new_simulator false [] None.

Section krx.
Context {params : EngineParams} {algo : MatchAlgorithm} {sparams : SpreadParams} {iteration : Iteration}.
Variable junk : loc → Order.
#[local] Existing Instance Krx.krx_hooks.
#[local] Instance krx_fresh : Fresh Krx.KrxExchange :=
  {| initial_members := Krx.initial; slot_junk := junk |}.

Abbreviation KrxSim := (M krx_simulator).
Implicit Types (s : krx_simulator) (ts : Timestamp) (id : Z).

Definition on_regular {A} (m : M Sim A) : KrxSim A := λ s,
  match m s.(regular_sim) with
  | Ok (a, v) => Ok (a, set_regular_sim v s)
  | Fuel => Fuel
  | UB => UB
  end.
Definition on_after_hours {A} (m : M Sim A) : KrxSim A := λ s,
  match m s.(after_hours_sim) with
  | Ok (a, v) => Ok (a, set_after_hours_sim v s)
  | Fuel => Fuel
  | UB => UB
  end.
(** [active_sim()]. *)
Definition on_active {A} (m : M Sim A) : KrxSim A :=
  s ← get; if s.(after_hours_active) then on_after_hours m else on_regular m.

(** ** Products and prices *)

Definition product_instrument (p : KrxProductConfig) : InstrumentConfig :=
  mkInstrument p.(kp_instrument_id) p.(kp_symbol)
    (product_config p.(kp_tick_size) p.(kp_lot_size) p.(kp_max_order_size)).

Definition configure_product (p : KrxProductConfig) (e : engine Krx.KrxExchange) : engine Krx.KrxExchange :=
  set_derived (Krx.set_static_band_percentage p.(kp_vi_static_pct)
    (Krx.set_vi_dynamic_percentage p.(kp_vi_dynamic_pct)
      (Krx.set_band_percentage p.(kp_dynamic_band_pct) e.(derived)))) e.

Definition add_product_to_sim (p : KrxProductConfig) : M Sim (outcome sim_error unit) :=
  attempt (add_instrument (product_instrument p)) (λ _,
    on_found p.(kp_instrument_id) (configure_product p) ;;
    mret (Returns tt)).

Definition load_products (ps : list KrxProductConfig) : KrxSim (outcome sim_error unit) :=
  modify (set_products ps) ;;
  attempt_each ps (λ p,
    attempt (on_regular (add_product_to_sim p)) (λ _,
    on_after_hours (add_product_to_sim p))).

Definition configure_engine (reference prior_close : Price) (e : engine Krx.KrxExchange) : engine Krx.KrxExchange :=
  let e1 := Krx.set_reference_price reference e in
  set_derived (Krx.set_prior_close_price prior_close e1.(derived)) e1.

Definition set_prices id (reference prior_close : Price) : KrxSim unit :=
  on_regular (on_found id (configure_engine reference prior_close)) ;;
  on_after_hours (on_found id (configure_engine reference prior_close)).

(** [for_each_instrument] with a setter. *)
Definition for_each_engine (g : engine Krx.KrxExchange → engine Krx.KrxExchange) : M Sim unit :=
  each (on_engine (modify g)).

Definition set_all_prices (reference prior_close : Price) : KrxSim unit :=
  on_regular (for_each_engine (configure_engine reference prior_close)) ;;
  on_after_hours (for_each_engine (configure_engine reference prior_close)).

Definition sidecar (active : bool) (e : engine Krx.KrxExchange) : engine Krx.KrxExchange :=
  set_derived (Krx.set_sidecar active e.(derived)) e.
Definition activate_sidecar : KrxSim unit := on_regular (for_each_engine (sidecar true)).
Definition deactivate_sidecar : KrxSim unit := on_regular (for_each_engine (sidecar false)).

(** ** Order routing *)

Definition new_order (fuel : nat) id (req : OrderRequest) : KrxSim (outcome sim_error unit) :=
  on_active (ExchangeSimulator.new_order fuel id req).
Definition cancel_order id (order : OrderId) ts : KrxSim (outcome sim_error unit) :=
  on_active (ExchangeSimulator.cancel_order id order ts).
Definition modify_order (fuel : nat) id (req : ModifyRequest) : KrxSim (outcome sim_error unit) :=
  on_active (ExchangeSimulator.modify_order fuel id req).

(** ** Spreads *)

(** Run the spread simulator over the regular engines; [absent] is the answer
    while there is none. *)
Definition on_spreads {A} (absent : A) (m : M (spread_simulator Sim) A) : KrxSim A := λ s,
  match s.(spread_sim) with
  | None => Ok (absent, s)
  | Some sp =>
      match m (set_ss_world s.(regular_sim) sp) with
      | Ok (a, sp') => Ok (a, set_spread_sim (Some sp') (set_regular_sim sp'.(ss_world) s))
      | Fuel => Fuel
      | UB => UB
      end
  end.

Definition load_spreads (spreads : list SpreadInstrumentConfig) : KrxSim (outcome spread_error unit) :=
  modify (λ s, set_spread_sim (Some (new_spread_simulator s.(regular_sim))) s) ;;
  on_spreads (Returns tt) (attempt_each spreads (add_spread_instrument junk)).

Definition new_spread_order id (req : SpreadOrderRequest) : KrxSim (outcome spread_error OrderId) :=
  on_spreads (Returns 0) (SpreadSimulator.new_spread_order id req).
Definition cancel_spread_order id (req : SpreadCancelRequest) : KrxSim bool :=
  on_spreads false (SpreadSimulator.cancel_spread_order id req).
Definition modify_spread_order id (req : SpreadModifyRequest) : KrxSim bool :=
  on_spreads false (SpreadSimulator.modify_spread_order id req).
Definition on_outright_bbo_change (outright_id : Z) ts : KrxSim Z :=
  on_spreads 0 (SpreadSimulator.on_outright_bbo_change outright_id ts).
Definition is_spread id s : bool :=
  match s.(spread_sim) with Some sp => Spread.is_spread id sp.(registry) | None => false end.

(** ** Access *)

Definition get_engine id s : option (engine Krx.KrxExchange) :=
  ExchangeSimulator.get_engine id (if s.(after_hours_active) then s.(after_hours_sim) else s.(regular_sim)).
Definition instrument_count s : nat := ExchangeSimulator.instrument_count s.(regular_sim).
Definition session_state s : SessionState :=
  (if s.(after_hours_active) then s.(after_hours_sim) else s.(regular_sim)).(sim_session).

(** ** Sessions *)

Definition start_regular_session ts : KrxSim unit :=
  modify (set_after_hours_active false) ;;
  on_regular (ExchangeSimulator.set_session_state PreOpen ts).
Definition open_regular_market (fuel : nat) ts : KrxSim unit :=
  on_regular (execute_all_auctions fuel ts ;; ExchangeSimulator.set_session_state Continuous (ts + 1)).
Definition pre_close_regular ts : KrxSim unit :=
  on_regular (ExchangeSimulator.set_session_state PreClose ts).
Definition close_regular_session (fuel : nat) ts : KrxSim unit :=
  on_regular (execute_all_auctions fuel ts ;; ExchangeSimulator.set_session_state Closed (ts + 1)).
Definition start_after_hours ts : KrxSim unit :=
  modify (set_after_hours_active true) ;;
  on_after_hours (ExchangeSimulator.set_session_state Continuous ts).
Definition close_after_hours ts : KrxSim unit :=
  on_after_hours (ExchangeSimulator.set_session_state Closed ts) ;;
  modify (set_after_hours_active false).
Definition end_of_day ts : KrxSim unit :=
  on_regular (trigger_expiry ts DAY) ;;
  on_after_hours (trigger_expiry ts DAY).
Definition set_session_state (state : SessionState) ts : KrxSim unit :=
  on_active (ExchangeSimulator.set_session_state state ts).
End krx.
End KrxSimulator.
