(* ===== verification/KrxTheorems.v ===== *)
(** * KRX: two sessions and their spreads *)

From S2P Require Import Prelude Types MatchAlgo Books Trackers Engine EngineInvariant EngineRules EngineFills EngineMatch EngineImplied EngineLoop EngineOrders EngineEntry EngineTheorems Auction AuctionRun AuctionTheorems.
From S2P Require Import Exchanges Spread SpreadBook SpreadInvariant SpreadBookTheorems SpreadImplied Products ExchangeSimulator SimulatorTheorems VenueSimulators VenueTheorems SpreadSimulator SpreadSimulatorTheorems KrxSimulator.
Import KrxSimulator.

Section krx.
Context {params : EngineParams} {algo : MatchAlgorithm} {sparams : SpreadParams} {iteration : Iteration}.
#[local] Existing Instance Krx.krx_hooks.
Implicit Types (s : krx_simulator) (ts : Timestamp) (id : Z).

Lemma krx_accepts (e : engine Krx.KrxExchange) from to ts : on_session_transition e from to ts = true.
Proof. done. Qed.

Lemma wp_on_regular {A} (m : M (simulator Krx.KrxExchange) A) (Q : A → krx_simulator → Prop) s :
  wp m (λ a v, Q a (set_regular_sim v s)) s.(regular_sim) → wp (on_regular m) Q s.
Proof. unfold wp, on_regular. by destruct (m _) as [[a v]| |]. Qed.
Lemma wp_on_after_hours {A} (m : M (simulator Krx.KrxExchange) A) (Q : A → krx_simulator → Prop) s :
  wp m (λ a v, Q a (set_after_hours_sim v s)) s.(after_hours_sim) → wp (on_after_hours m) Q s.
Proof. unfold wp, on_after_hours. by destruct (m _) as [[a v]| |]. Qed.

(** ** The end of the day *)

(** A regular instrument from the closing auction to the expiry. *)
Record regular_closed ts (i i' : InstrumentState Krx.KrxExchange) : Prop := {
  rc_config : i'.(inst_config) = i.(inst_config);
  rc_ohlcv : i'.(inst_ohlcv) = ohlcv_reset;
  rc_inv : inv [] i'.(inst_engine);
  rc_state : i'.(inst_engine).(current_state) = Closed;
  rc_traded : trades (auction_volume i.(inst_ohlcv).(v_close) i.(inst_engine)) i.(inst_engine) i'.(inst_engine);
  rc_kept : ∃ e1, auction_run i.(inst_ohlcv).(v_close) i.(inst_engine) e1 ∧
    all_entries i'.(inst_engine) ≡ₚ filter (λ x, x.2.(o_tif) ≠ DAY) (all_entries e1)
}.

Lemma regular_closed_run ts ts' i i1 i' :
  inv [] i.(inst_engine) → auctioned_into Closed ts i i1 → on_own_engine (expired_at ts' DAY) i1 i' →
  regular_closed ts i i'.
Proof.
  intros Hi Hau [Hc2 Ho2 Hex].
  pose proof (auctioned_into_result krx_accepts _ _ _ _ Hi Hau) as [_ _ Hst Htr _].
  destruct Hau as [Hc Ho (e1 & Hr & He)]. cbn in Ho. split.
  - congruence.
  - by rewrite Ho2, Ho.
  - apply Hex.
  - by rewrite (sc_state _ _ _ _ (ex_scan _ _ _ _ Hex)).
  - rewrite <- (Z.add_0_r (auction_volume _ _)). eapply trades_trans; [exact Htr|by eapply expired_trades].
  - exists e1. split; [done|]. rewrite (ex_entries _ _ _ _ Hex), He.
    rewrite (same_orders_entries _ _ (in_session_same Closed ts e1)).
    erewrite filter_ext_in; [done|]. intros x _. apply not_expired_day.
Qed.

(** The trading day of KRX ends: [close_regular_session] and then
    [end_of_day] return; every regular engine has traded exactly the volume of
    its closing auction, is closed and holds no DAY order; the after-hours
    engines lose their DAY orders and are otherwise untouched, and which
    session is active does not change. *)
Theorem krx_day_ends fuel ts ts' s :
  engines_ok s.(regular_sim) → engines_ok s.(after_hours_sim) → auction_fuel fuel s.(regular_sim) →
  ∃ s', (close_regular_session fuel ts ;; end_of_day ts') s = Ok (tt, s') ∧
    s'.(regular_sim).(sim_session) = Closed ∧
    per_instrument (regular_closed (ts + 1)) s.(regular_sim) s'.(regular_sim) ∧
    s'.(after_hours_sim).(sim_session) = s.(after_hours_sim).(sim_session) ∧
    per_instrument (on_own_engine (expired_at ts' DAY)) s.(after_hours_sim) s'.(after_hours_sim) ∧
    s'.(after_hours_active) = s.(after_hours_active).
Proof.
  intros Hok Hah Hf. apply wp_eq_unit. apply wp_bind, wp_on_regular.
  eapply wp_mono; [by apply wp_auctions_then|]. intros [] v1 [Hs1 H1].
  apply wp_bind, wp_on_regular. eapply wp_mono.
  { apply wp_sim_trigger_expiry. cbn.
    eapply (per_instrument_all (λ i i', inv [] i.(inst_engine) ∧ auctioned_into Closed (ts + 1) i i')).
    - intros i i' [Hi Ha]. apply (ar_inv _ _ _ (auctioned_into_result krx_accepts _ _ _ _ Hi Ha)).
    - eapply per_instrument_impl; [|exact H1]. intros id i i' Hi Ha. split; [by eapply Hok|done]. }
  intros [] v2 [Hs2 H2]. apply wp_on_after_hours. eapply wp_mono; [by apply wp_sim_trigger_expiry|].
  intros [] v3 [Hs3 H3]. cbn in *. split_and!; [congruence| |done..].
  eapply per_instrument_impl; [|eapply (per_instrument_trans _ _ (λ i i', ∃ i1, auctioned_into Closed (ts + 1) i i1 ∧
    on_own_engine (expired_at ts' DAY) i1 i') _ _ _ (λ i1 i2 i3 H H', ex_intro _ i2 (conj H H')) H1 H2)].
  intros id i i' Hi (i1 & Ha & He). eapply regular_closed_run; [by eapply Hok|done|done].
Qed.

(** ** Sessions apart *)

Inductive outright_request : Type :=
  | NewOutright (fuel : nat) (id : Z) (req : OrderRequest)
  | CancelOutright (id : Z) (order : OrderId) (ts : Timestamp)
  | ModifyOutright (fuel : nat) (id : Z) (req : ModifyRequest).

Definition request_outright (r : outright_request) : M krx_simulator (outcome sim_error unit) :=
  match r with
  | NewOutright fuel id req => KrxSimulator.new_order fuel id req
  | CancelOutright id order ts => KrxSimulator.cancel_order id order ts
  | ModifyOutright fuel id req => KrxSimulator.modify_order fuel id req
  end.
Definition request_spread (r : spread_request) : M krx_simulator unit :=
  match r with
  | NewSpreadOrder id req => new_spread_order id req ;; mret tt
  | CancelSpreadOrder id req => cancel_spread_order id req ;; mret tt
  | ModifySpreadOrder id req => modify_spread_order id req ;; mret tt
  | OutrightBboChange id ts => on_outright_bbo_change id ts ;; mret tt
  end.

(** A request of a client, and what can come of any sequence of them. *)
Inductive client_step : krx_simulator → krx_simulator → Prop :=
  | step_outright r o s s' : request_outright r s = Ok (o, s') → client_step s s'
  | step_spread r s s' : request_spread r s = Ok (tt, s') → client_step s s'.
Inductive outright_step : krx_simulator → krx_simulator → Prop :=
  | only_outright r o s s' : request_outright r s = Ok (o, s') → outright_step s s'.

Lemma on_active_other {A} (m : M (simulator Krx.KrxExchange) A) s a s' :
  on_active m s = Ok (a, s') →
  s'.(after_hours_active) = s.(after_hours_active) ∧ s'.(spread_sim) = s.(spread_sim) ∧
  if s.(after_hours_active) then s'.(regular_sim) = s.(regular_sim) else s'.(after_hours_sim) = s.(after_hours_sim).
Proof.
  unfold on_active, on_after_hours, on_regular, mbind, M_bind, get.
  destruct (after_hours_active s) eqn:E; [destruct (m (after_hours_sim s)) as [[b v]| |]|destruct (m (regular_sim s)) as [[b v]| |]];
    intros [= <- <-]; by rewrite ?E.
Qed.

Lemma request_outright_active r : ∃ m, request_outright r = on_active m.
Proof. destruct r; by eexists. Qed.

Lemma on_spreads_other {A} (x : A) m s a s' :
  on_spreads x m s = Ok (a, s') →
  s'.(after_hours_active) = s.(after_hours_active) ∧ s'.(after_hours_sim) = s.(after_hours_sim).
Proof.
  unfold on_spreads. destruct (spread_sim s) as [sp|]; [|by intros [= <- <-]].
  destruct (m _) as [[b sp']| |]; by intros [= <- <-].
Qed.

Lemma on_spreads_done {A} (x : A) m s : (on_spreads x m ;; mret tt) s = on_spreads tt (m ;; mret tt) s.
Proof.
  unfold on_spreads, mbind, M_bind. destruct (spread_sim s) as [sp|]; [|done]. by destruct (m _) as [[a sp']| |].
Qed.

Lemma request_spread_run r s : request_spread r s = on_spreads tt (serve r) s.
Proof. destruct r; apply on_spreads_done. Qed.

(** C20: The sessions of KRX are apart.  Whatever sequence of requests clients
    send, orders for outrights and for spreads, while the regular session is
    the active one, the after-hours engines stay exactly as they are; and
    whatever orders for outrights they send while the after-hours session is
    active, the regular engines and the spread books do.  No request changes
    which session is active. *)
Theorem krx_sessions_isolated s s' :
  (rtc client_step s s' → s.(after_hours_active) = false →
     s'.(after_hours_active) = false ∧ s'.(after_hours_sim) = s.(after_hours_sim)) ∧
  (rtc outright_step s s' → s.(after_hours_active) = true →
     s'.(after_hours_active) = true ∧ s'.(regular_sim) = s.(regular_sim) ∧ s'.(spread_sim) = s.(spread_sim)).
Proof.
  split; induction 1 as [s|s s1 s' Hstep _ IH]; intros Ha; [done| |done|].
  - assert (Hs : s1.(after_hours_active) = false ∧ s1.(after_hours_sim) = s.(after_hours_sim)).
    { destruct Hstep as [r o s s1 E|r s s1 E].
      - destruct (request_outright_active r) as [m Hm]. rewrite Hm in E.
        destruct (on_active_other _ _ _ _ E) as (? & _ & ?). rewrite Ha in *. done.
      - rewrite request_spread_run in E. destruct (on_spreads_other _ _ _ _ _ E). by rewrite <- Ha. }
    destruct Hs as [Hs1 Hs2]. destruct (IH Hs1) as [? ?]. split; congruence.
  - destruct Hstep as [r o s s1 E]. destruct (request_outright_active r) as [m Hm]. rewrite Hm in E.
    destruct (on_active_other _ _ _ _ E) as (Hs1 & Hs2 & Hs3). rewrite Ha in *.
    destruct (IH Hs1) as (? & ? & ?). split_and!; congruence.
Qed.

(** ** Spreads over the regular engines *)

Record krx_ok s : Prop := {
  ko_regular : engines_ok s.(regular_sim);
  ko_after_hours : engines_ok s.(after_hours_sim);
  ko_books : ∀ sp, s.(spread_sim) = Some sp → map_Forall (λ _, book_ok) sp.(spread_books)
}.

Lemma engines_ok_world (w : simulator Krx.KrxExchange) : engines_ok w ↔ world_engines_ok w.
Proof.
  unfold engines_ok, all_instruments, world_engines_ok. cbn. unfold ExchangeSimulator.get_engine, get_instrument. split.
  - intros H id e (i & Hi & ->)%fmap_Some. by eapply H.
  - intros H id i Hi. apply (H id). by rewrite Hi.
Qed.

(** A request for a spread on KRX, served by the spread simulator over the
    regular engines, returns, keeps every spread book and every engine of both
    sessions well formed, and leaves the after-hours session alone. *)
Theorem krx_spread_requests_safe r s :
  krx_ok s → (∀ sp, s.(spread_sim) = Some sp → admissible r sp) →
  ∃ s', request_spread r s = Ok (tt, s') ∧ krx_ok s' ∧ s'.(after_hours_sim) = s.(after_hours_sim) ∧
    s'.(after_hours_active) = s.(after_hours_active).
Proof.
  intros [Hr Ha Hb] Had. rewrite request_spread_run. unfold on_spreads.
  destruct (spread_sim s) as [sp|] eqn:Hsp; [|exists s; split_and!; [done|split; [done|done|by rewrite Hsp]|done..]].
  assert (Hok : ss_ok (set_ss_world s.(regular_sim) sp)) by (split; [exact (Hb sp eq_refl)|by apply engines_ok_world]).
  assert (Had' : admissible r (set_ss_world s.(regular_sim) sp)) by (specialize (Had sp eq_refl); by destruct r).
  destruct (wp_eq_unit _ _ _ (wp_serve r _ Hok Had')) as (sp' & -> & [Hb' Hw']). eexists. split; [done|].
  split_and!; [|done..]. split; [by apply engines_ok_world|done|]. by intros sp1 [= <-].
Qed.
End krx.
