(* ===== verification/SimulatorDemo.v ===== *)
(** * A small market

    Two instruments on CME and KRX engines with small pools, brought to their
    states by the simulators' own operations, at which the theorems about
    simulators are applied; and runs that show what the code does where it may
    surprise. *)

From S2P Require Import Prelude Types MatchAlgo MatchAlgoFacts MatchAlgoPriority Books Trackers Engine EngineInvariant EngineRules EngineFills EngineMatch EngineImplied EngineLoop EngineOrders EngineEntry EngineTheorems Auction AuctionRun AuctionTheorems.
From S2P Require Import Exchanges Spread SpreadTheorems SpreadBook SpreadInvariant SpreadMatching SpreadBookTheorems SpreadImplied Impact Mdp3 Products ExchangeSimulator SimulatorTheorems VenueSimulators VenueTheorems SpreadSimulator SpreadSimulatorTheorems KrxSimulator KrxTheorems.

#[local] Existing Instance demo_params.
#[local] Instance fifo_here : MatchAlgorithm := fifo_algorithm.

(** ** Running engines *)

Section ready.
Context {D : Type} {hooks : Hooks D} {hooks_ok : HooksOk D}.
Implicit Types (e : engine D).

Definition depth_within (k : nat) e : bool :=
  (k + stop_count e <=? kMaxFills)%nat &&
  forallb (λ lv, (length (lv_queue lv) + k + stop_count e <=? kMaxFills)%nat) (e.(bids) ++ e.(asks)).

Lemma depth_within_ok k e : depth_within k e = true → depth_ok k e.
Proof.
  intros [H1 H2]%andb_true_iff. split; [apply Nat.leb_le; by vm_compute|]. intros lv Hlv.
  rewrite forallb_forall in H2. apply Nat.leb_le, H2. by apply list_elem_of_In.
Qed.

(** An engine after a new order. *)
Definition ordered (req : OrderRequest) e : engine D := final (Engine.new_order 60 req) e.

Lemma ordered_ready req e :
  ready e → (Z.to_nat req.(r_quantity) + budget e + 1 <=? 60)%nat && depth_within 1 (ordered req e) = true →
  ready (ordered req e).
Proof using hooks_ok.
  intros Hr [Hf Hd]%andb_true_iff. apply Nat.leb_le in Hf. apply depth_within_ok in Hd.
  destruct (wp_eq _ _ _ (wp_new_order 60 req e Hr Hf)) as ([] & e' & E & Hs).
  unfold ordered in *. rewrite (final_run _ _ _ E) in *.
  destruct Hs as [r t _ _ ->|t evs _ _ _ _ _ ? ? _ _ _]; split; try done; apply Hr.
Qed.

Lemma in_session_ready st ts e : ready e → ready (in_session st ts e).
Proof using hooks_ok.
  intros [Hi Hd Hdep]. destruct (in_session_same st ts e) as [Hb Ha [Hbs Hss] _ Hde Hinv].
  split; [by apply Hinv|by rewrite Hde|].
  unfold depth_ok, stop_count in *. by rewrite Hb, Ha, Hbs, Hss.
Qed.
End ready.

(** An engine that a venue has just loaded. *)
Lemma loaded_ready {D} {hooks : Hooks D} {hooks_ok : HooksOk D} cfg (d d' : D) (junk : loc → Order) :
  derived_ok d' → ready (set_derived d' (init_engine cfg d junk)).
Proof. intros Hd. split; [apply inv_init|done|apply depth_within_ok; by vm_compute]. Qed.

#[local] Instance listed : Iteration.
Proof. refine {| visit X := elements X |}. done. Defined.
(** The other way round. *)
Definition backwards : Iteration.
Proof. refine {| visit X := reverse (elements X) |}. intros X. apply reverse_Permutation. Defined.

Definition junk : loc → Order := λ _, blank_order.

(** ** CME *)

Module CmeDemo.
#[local] Existing Instance Cme.cme_hooks.
#[local] Instance members : Fresh Cme.CmeExchange := CmeSimulator.cme_fresh junk.

Definition near : CmeProductConfig := mkCmeProduct 1 [78] [] [] 1 1 50 10.
Definition far : CmeProductConfig := mkCmeProduct 2 [70] [] [] 1 1 50 10.
Definition fresh_engine : engine Cme.CmeExchange :=
  Cme.set_band_percentage 10 (init_engine (CmeSimulator.product_instrument near).(ic_engine_config) initial_members junk).

(** The orders of a pre-opening: 10 to buy at 105, 6 to sell at 101, and 4 to
    sell at 101 good till cancelled. *)
Definition collected : engine Cme.CmeExchange :=
  ordered (demo_request 3 Sell Limit GTC 101 4 0)
    (ordered (demo_request 2 Sell Limit DAY 101 6 0)
      (ordered (demo_request 1 Buy Limit DAY 105 8 0) (in_session PreOpen 1 fresh_engine))).

Lemma collected_ready : ready collected.
Proof.
  repeat (apply ordered_ready; [|by vm_compute]). apply in_session_ready, loaded_ready. done.
Qed.

Definition instrument (p : CmeProductConfig) (e : engine Cme.CmeExchange) : InstrumentState Cme.CmeExchange :=
  mkInstState (CmeSimulator.product_instrument p) e ohlcv_reset.
Definition pre_open : simulator Cme.CmeExchange :=
  mkSimulator {[1 := instrument near collected; 2 := instrument far (in_session PreOpen 1 fresh_engine)]} PreOpen.

Lemma two_instruments (P : InstrumentState Cme.CmeExchange → Prop) e1 e2 st :
  P (instrument near e1) → P (instrument far e2) →
  all_instruments P (mkSimulator {[1 := instrument near e1; 2 := instrument far e2]} st).
Proof.
  intros H1 H2 id i Hi. cbn in Hi. apply lookup_insert_Some in Hi as [[_ <-]|[_ Hi]]; [done|].
  by apply lookup_singleton_Some in Hi as [_ <-].
Qed.

Lemma pre_open_ok : engines_ok pre_open.
Proof.
  apply two_instruments; [apply collected_ready|]. by apply in_session_same, inv_init.
Qed.

Lemma pre_open_fuel : auction_fuel 20 pre_open.
Proof. apply two_instruments; apply Nat.leb_le; by vm_compute. Qed.
End CmeDemo.

Lemma cme_open_market_exact_witness :
  auction_volume 0 CmeDemo.collected = 8 ∧
  ∃ s', CmeSimulator.open_market 20 9 CmeDemo.pre_open = Ok (tt, s') ∧ s'.(sim_session) = Continuous ∧
    per_instrument (auction_result Continuous) CmeDemo.pre_open s'.
Proof.
  split; [by vm_compute|].
  apply cme_open_market_exact; [apply CmeDemo.pre_open_ok|apply CmeDemo.pre_open_fuel].
Defined.

Lemma cme_day_ends_witness :
  ∃ s', (CmeSimulator.close_market 20 50 ;; CmeSimulator.end_of_day 60) CmeDemo.pre_open = Ok (tt, s') ∧
    s'.(sim_session) = Closed ∧ per_instrument (day_closed (hooks := Cme.cme_hooks) 50) CmeDemo.pre_open s'.
Proof. apply cme_day_ends; [apply CmeDemo.pre_open_ok|apply CmeDemo.pre_open_fuel]. Defined.

Lemma cme_load_products_exact_witness :
  ∃ s', CmeSimulator.load_products junk get_cme_products new_simulator = Ok (Returns tt, s') ∧
    s'.(sim_session) = Closed ∧
    (∀ p, p ∈ get_cme_products → s'.(instruments) !! p.(cp_instrument_id) =
       Some (loaded (fresh := CmeDemo.members) CmeSimulator.product_instrument
               (λ p, Cme.set_band_percentage p.(cp_band_pct)) p)) ∧
    dom s'.(instruments) = list_to_set (cp_instrument_id <$> get_cme_products).
Proof. apply cme_load_products_exact. by apply (bool_decide_unpack _). Defined.

Lemma exchange_wide_order_irrelevant_witness :
  let s := CmeDemo.pre_open in
  visit (Iteration := listed) (dom s.(instruments)) ≠ visit (Iteration := backwards) (dom s.(instruments)) ∧
  set_session_state (hooks := Cme.cme_hooks) (iteration := listed) Continuous 9 s =
    set_session_state (hooks := Cme.cme_hooks) (iteration := backwards) Continuous 9 s ∧
  execute_all_auctions (iteration := listed) 20 9 s =
    execute_all_auctions (iteration := backwards) 20 9 s ∧
  trigger_expiry (iteration := listed) 9 DAY s = trigger_expiry (iteration := backwards) 9 DAY s ∧
  mass_cancel_all (iteration := listed) 9 s = mass_cancel_all (iteration := backwards) 9 s.
Proof.
  split; [by vm_compute|].
  apply (exchange_wide_order_irrelevant (hooks := Cme.cme_hooks) listed backwards 20 Continuous 9 DAY);
    [apply CmeDemo.pre_open_ok|apply CmeDemo.pre_open_fuel].
Defined.

(** ** ICE *)

Module IceDemo.
#[local] Existing Instance Ice.ice_hooks.
Import IceSimulator.
Definition market : ice_simulator :=
  final (load_products junk get_ice_products ;; mret tt) new_ice_simulator.

(** One FIFO product and one GTBPR product. *)
Definition brent : IceProductConfig := mkIceProduct 1 [66] [] [] 1 1 50 AlgoFIFO 40 5 15 120 CancelNewest.
Definition euribor : IceProductConfig := mkIceProduct 2 [73] [] [] 1 1 50 AlgoGTBPR 40 5 15 120 CancelOldest.
Definition venue : ice_simulator := final (load_products junk [brent; euribor] ;; mret tt) new_ice_simulator.

Lemma venue_routing : routing_ok venue.
Proof.
  destruct (load_products_step junk [brent; euribor] new_ice_simulator) as (s' & E & Hr & _).
  - by apply (bool_decide_unpack _).
  - by intros [].
  - apply new_routing_ok.
  - intros p _. apply lookup_empty.
  - unfold venue. rewrite (final_run _ _ s'); [done|]. unfold mbind, M_bind. unfold load_products. by rewrite E.
Qed.

(** The same identifier in both pools: the second product shadows the first,
    whose engine no request reaches any more. *)
Definition twin : IceProductConfig := mkIceProduct 1 [66] [] [] 1 1 50 AlgoGTBPR 40 5 15 120 CancelNewest.
Lemma duplicate_across_pools :
  match load_products junk [brent; twin] new_ice_simulator with
  | Ok (Returns _, s) => instrument_count s = 2%nat ∧ from_option (const true) false (get_fifo_engine 1 s) = true ∧ is_gtbpr_instrument 1 s = true
  | _ => False
  end.
Proof. by vm_compute. Qed.

Definition engine_of (p : IceProductConfig) : engine Ice.IceExchange :=
  configure p (init_engine (product_instrument p).(ic_engine_config) Ice.initial junk).
End IceDemo.

Lemma ice_load_products_routes_witness :
  let ps := get_ice_products in
  ∃ s', IceSimulator.load_products junk ps IceSimulator.new_ice_simulator = Ok (Returns tt, s') ∧ routing_ok s' ∧
    ∀ p, p ∈ ps → s'.(IceSimulator.is_gtbpr) !! p.(ip_instrument_id) = Some (IceSimulator.is_gtbpr_product p) ∧
      routed_engine p.(ip_instrument_id) s' = Some (IceDemo.engine_of p).
Proof. apply ice_load_products_routes. by apply (bool_decide_unpack _). Defined.

Lemma ice_new_order_routed_witness :
  let s := IceDemo.venue in
  let req := demo_request 1 Buy Limit DAY 105 8 0 in
  ∃ e, routed_engine 2 s = Some e ∧
  ∃ s' e', IceSimulator.new_order fifo_here prorata_algorithm 60 2 req s = Ok (Returns tt, s') ∧ routing_ok s' ∧
    routed_engine 2 s' = Some e' ∧ submitted (hooks := Ice.ice_hooks) req e e' ∧
    ∀ id', id' ≠ 2 → routed_engine id' s' = routed_engine id' s.
Proof.
  cbn zeta. exists (IceDemo.engine_of IceDemo.euribor). split; [reflexivity|].
  pose proof (ice_new_order_routed fifo_here prorata_algorithm 60 2 (demo_request 1 Buy Limit DAY 105 8 0) IceDemo.venue
    IceDemo.venue_routing) as H.
  change (routed_engine 2 IceDemo.venue) with (Some (IceDemo.engine_of IceDemo.euribor)) in H.
  apply H; [|apply Nat.leb_le; by vm_compute].
  apply loaded_ready. right. by left.
Defined.

(** ** Spreads over CME engines *)

Module SpreadMarket.
#[local] Existing Instance Cme.cme_hooks.

Definition calendar : SpreadInstrumentConfig :=
  mkSpreadInstrument 1001 [67] CalendarSpread [mkLeg 1 1 1 1 1; mkLeg 2 (-1) 1 1 1] 0 0.

(** Ten offered at 100 in the near month; ten bid at 90 in the far month, or,
    in [thin], in two orders of five. *)
Definition sell (qty : Z) : OrderRequest := demo_request 1 Sell Limit DAY 100 qty 0.
Definition buy (account qty : Z) : OrderRequest := demo_request account Buy Limit DAY 90 qty 0.
Definition near_engine : engine Cme.CmeExchange := ordered (sell 10) CmeDemo.fresh_engine.
Definition far_engine : engine Cme.CmeExchange := ordered (buy 2 10) CmeDemo.fresh_engine.
Definition thin_engine : engine Cme.CmeExchange := ordered (buy 3 5) (ordered (buy 2 5) CmeDemo.fresh_engine).
Definition market (far : engine Cme.CmeExchange) : simulator Cme.CmeExchange :=
  mkSimulator {[1 := CmeDemo.instrument CmeDemo.near near_engine; 2 := CmeDemo.instrument CmeDemo.far far]} Continuous.

Lemma near_ready : ready near_engine.
Proof. apply ordered_ready; [by apply loaded_ready|by vm_compute]. Qed.
Lemma far_ready : ready far_engine.
Proof. apply ordered_ready; [by apply loaded_ready|by vm_compute]. Qed.
Lemma thin_ready : ready thin_engine.
Proof. do 2 (apply ordered_ready; [|by vm_compute]). by apply loaded_ready. Qed.

Lemma market_ok far : ready far → world_engines_ok (market far).
Proof.
  intros Hf id e. cbn. unfold get_engine, get_instrument. intros (i & Hi & ->)%fmap_Some.
  apply (CmeDemo.two_instruments (λ i, inv [] i.(inst_engine)) near_engine far Continuous
    (rd_inv _ near_ready) (rd_inv _ Hf) _ _ Hi).
Qed.

Definition empty_market (w : simulator Cme.CmeExchange) : spread_simulator (simulator Cme.CmeExchange) :=
  final (add_spread_instrument junk calendar ;; mret tt) (new_spread_simulator w).

Lemma empty_market_reachable w : reachable junk w (empty_market w).
Proof.
  apply (reach_add _ _ calendar (new_spread_simulator w) (Returns tt)); [apply reach_new|by repeat constructor|].
  reflexivity.
Qed.

(** Four spreads wanted at 12; the outrights offer them at 10. *)
Definition order : SpreadOrderRequest := mkSpreadRequest 9 5 Buy DAY 12 8 2000.
Definition placed (w : simulator Cme.CmeExchange) : spread_simulator (simulator Cme.CmeExchange) :=
  final (new_spread_order 1001 order ;; mret tt) (empty_market w).

(** What the engines have traded and what rests of the spread order. *)
Definition traded_at (id : Z) (s : spread_simulator (simulator Cme.CmeExchange)) : Quantity :=
  match get_engine id s.(ss_world) with Some e => EngineFills.traded e.(trace) | None => 0 end.
Definition spread_rest (s : spread_simulator (simulator Cme.CmeExchange)) : Quantity :=
  match get_spread_book 1001 s with
  | Some b => sum_by (λ x, x.2.(o_remaining_quantity)) (entries b.(sb_bids))
  | None => 0
  end.
End SpreadMarket.


(** The spread order is filled from both legs, in ratio. *)
Lemma implied_in_fills :
  let s := SpreadMarket.placed (SpreadMarket.market SpreadMarket.far_engine) in
  SpreadMarket.traded_at 1 s = 8 ∧ SpreadMarket.traded_at 2 s = 8 ∧ SpreadMarket.spread_rest s = 0.
Proof. by vm_compute. Qed.

(** The far bid is ten in two orders: the batch asks the first of them for
    eight, which is refused, after the near leg has traded. *)
Lemma refused_leg_leaves_first :
  let s := SpreadMarket.placed (SpreadMarket.market SpreadMarket.thin_engine) in
  SpreadMarket.traded_at 1 s = 8 ∧ SpreadMarket.traded_at 2 s = 0 ∧ SpreadMarket.spread_rest s = 8.
Proof. by vm_compute. Qed.

(** ** Implied matching over CME engines *)

Module ImpliedDemo.
#[local] Existing Instance Cme.cme_hooks.
Import SpreadMarket.
Definition world : simulator Cme.CmeExchange := market far_engine.

(** A book for the calendar with a resting order to buy eight at 12. *)
Definition strategy : SpreadStrategy := mkStrategy CalendarSpread calendar.(si_legs) 1 1.
Definition empty_book : spread_book (simulator Cme.CmeExchange) :=
  set_callbacks (make_spread_book strategy 1001 junk world).
Definition buy_request : SpreadOrderRequest := mkSpreadRequest 9 5 Buy DAY 12 8 2000.
Definition sell_request : SpreadOrderRequest := mkSpreadRequest 9 5 Sell DAY 8 8 2000.
Definition book_with (req : SpreadOrderRequest) : spread_book (simulator Cme.CmeExchange) :=
  final (SpreadBook.new_order req ;; mret tt) empty_book.

Lemma book_ok req : wbook (book_with req) ∧ weighted (book_with req).(SpreadBook.strategy).
Proof.
  assert (Hi : sinv [] empty_book) by (destruct (sinv_init strategy 1001 junk world) as [? ? ? ? ? ?]; by split).
  destruct (wp_eq _ _ _ (wp_spread_new_order req _ Hi)) as (id & b & E & Ho).
  destruct (ordered_unchanged _ _ _ _ Ho) as [Hi' [Hs _ Hw]].
  unfold book_with. rewrite (final_run _ _ b) by (unfold mbind, M_bind; by rewrite E).
  split; [split; [done|]|].
  - rewrite Hw. apply market_ok, far_ready.
  - rewrite Hs. split; [by repeat constructor|done].
Qed.
End ImpliedDemo.



(** ** Batches *)

Module BatchDemo.
#[local] Existing Instance Cme.cme_hooks.
Import SpreadMarket.

(** Decidable for a concrete engine. *)
Lemma no_stops_not_parked id (e : engine Cme.CmeExchange) :
  e.(buy_stops) = [] → e.(sell_stops) = [] → not_parked id e.
Proof. intros Hb Hs sd l o Hin. destruct sd; cbn in Hin; rewrite ?Hb, ?Hs in Hin; by apply not_elem_of_nil in Hin. Qed.

Definition near_fill : LegFill := mkLegFill 1 100 4.
Definition far_fill (qty : Quantity) : LegFill := mkLegFill 1 90 qty.
Definition coordinator (qty : Quantity) : MultiLegCoordinator (simulator Cme.CmeExchange) :=
  add_leg_fill 2 (far_fill qty) (add_leg_fill 1 near_fill
    (set_applier fill_applier (set_validator instrument_valid new_coordinator))).

Lemma coordinator_fills qty :
  map_Forall (λ id fills, NoDup (leg_order_id <$> fills) ∧
    Forall (λ f, can_take (market thin_engine) id f.(leg_order_id)) fills) (coordinator qty).(fills_by_instrument).
Proof.
  assert (Hp : ∀ id oid, can_take (market thin_engine) id oid).
  { intros id oid e. cbn. unfold get_engine, get_instrument. intros (i & Hi & ->)%fmap_Some.
    apply (CmeDemo.two_instruments (λ i, not_parked oid i.(inst_engine)) near_engine thin_engine Continuous
      (no_stops_not_parked oid near_engine eq_refl eq_refl) (no_stops_not_parked oid thin_engine eq_refl eq_refl) _ _ Hi). }
  intros id fills H. cbn in H. apply lookup_insert_Some in H as [[_ <-]|[_ H]].
  - split; [apply NoDup_singleton|by constructor].
  - apply lookup_insert_Some in H as [[_ <-]|[_ H]]; [|done]. split; [apply NoDup_singleton|by constructor].
Qed.
End BatchDemo.



(** ** KRX *)

Module KrxDemo.
#[local] Existing Instance Krx.krx_hooks.
Import KrxSimulator.

Definition product : KrxProductConfig := mkKrxProduct 1 [75] [] KrxFutures 1 1 50 [8; 15; 20] 5 3 10 5.
Definition engine_now : engine Krx.KrxExchange :=
  ordered (demo_request 2 Sell Limit DAY 101 6 0) (ordered (demo_request 1 Buy Limit DAY 105 8 0)
    (in_session PreClose 1 (configure_product product
       (init_engine (product_instrument product).(ic_engine_config) Krx.initial junk)))).
Definition pool_with (e : engine Krx.KrxExchange) st : simulator Krx.KrxExchange :=
  mkSimulator {[1 := mkInstState (product_instrument product) e ohlcv_reset]} st.
Definition closing : krx_simulator :=
  mkKrxSim (pool_with engine_now PreClose) (pool_with engine_now Continuous) false [product] None.

Lemma engine_now_ready : ready engine_now.
Proof. repeat (apply ordered_ready; [|by vm_compute]). by apply in_session_ready, loaded_ready. Qed.

Lemma pool_with_all (P : InstrumentState Krx.KrxExchange → Prop) e st :
  P (mkInstState (product_instrument product) e ohlcv_reset) → all_instruments P (pool_with e st).
Proof. intros H id i Hi. cbn in Hi. by apply lookup_singleton_Some in Hi as [_ <-]. Qed.

Lemma pool_ok st : engines_ok (pool_with engine_now st).
Proof. apply pool_with_all, engine_now_ready. Qed.

(** The spread books of the regular session. *)
Definition spreads : spread_simulator (simulator Krx.KrxExchange) :=
  final (add_spread_instrument junk SpreadMarket.calendar ;; mret tt) (new_spread_simulator (pool_with engine_now PreClose)).
Definition with_spreads : krx_simulator := set_spread_sim (Some spreads) closing.

Lemma with_spreads_ok : krx_ok with_spreads.
Proof.
  split; [apply pool_ok..|]. intros sp [= <-]. eapply (reachable_ok junk (pool_with engine_now PreClose)).
  - apply engines_ok_world, pool_ok.
  - apply (reach_add _ _ SpreadMarket.calendar (new_spread_simulator (pool_with engine_now PreClose)) (Returns tt));
      [apply reach_new|by repeat constructor|reflexivity].
Qed.

Definition requests : list outright_request :=
  [NewOutright 60 1 (demo_request 4 Buy Limit DAY 90 2 0); CancelOutright 1 1 70].
End KrxDemo.

Lemma krx_day_ends_witness :
  let s := KrxDemo.closing in
  auction_volume 0 KrxDemo.engine_now = 6 ∧
  ∃ s', (KrxSimulator.close_regular_session 20 50 ;; KrxSimulator.end_of_day 60) s = Ok (tt, s') ∧
    s'.(KrxSimulator.regular_sim).(sim_session) = Closed ∧
    per_instrument (regular_closed 51) s.(KrxSimulator.regular_sim) s'.(KrxSimulator.regular_sim) ∧
    s'.(KrxSimulator.after_hours_sim).(sim_session) = s.(KrxSimulator.after_hours_sim).(sim_session) ∧
    per_instrument (on_own_engine (expired_at 60 DAY)) s.(KrxSimulator.after_hours_sim) s'.(KrxSimulator.after_hours_sim) ∧
    s'.(KrxSimulator.after_hours_active) = s.(KrxSimulator.after_hours_active).
Proof.
  split; [by vm_compute|]. apply (krx_day_ends 20 50 60 KrxDemo.closing); [apply KrxDemo.pool_ok..|].
  apply KrxDemo.pool_with_all, Nat.leb_le. by vm_compute.
Defined.

Lemma krx_spread_requests_safe_witness :
  let s := KrxDemo.with_spreads in
  let r := NewSpreadOrder 1001 SpreadMarket.order in
  ∃ s', request_spread r s = Ok (tt, s') ∧ krx_ok s' ∧
    s'.(KrxSimulator.after_hours_sim) = s.(KrxSimulator.after_hours_sim) ∧
    s'.(KrxSimulator.after_hours_active) = s.(KrxSimulator.after_hours_active).
Proof. by apply (krx_spread_requests_safe (NewSpreadOrder 1001 SpreadMarket.order) _ KrxDemo.with_spreads_ok). Defined.

(** A cancellation in the regular session of KRX. *)
Lemma krx_sessions_isolated_witness :
  let s := KrxDemo.closing in
  ∃ o s', KrxSimulator.cancel_order 1 1 70 s = Ok (o, s') ∧ s'.(KrxSimulator.regular_sim) ≠ s.(KrxSimulator.regular_sim) ∧
    s'.(KrxSimulator.after_hours_active) = false ∧
    s'.(KrxSimulator.after_hours_sim) = s.(KrxSimulator.after_hours_sim).
Proof.
  destruct (KrxSimulator.cancel_order 1 1 70 KrxDemo.closing) as [[o s']| |] eqn:E; [|by vm_compute in E..].
  exists o, s'. split; [exact E|]. split.
  - intros H. apply (f_equal (λ v, length ∘ trace <$> get_engine 1 v)) in H. vm_compute in E.
    injection E as <- <-. by vm_compute in H.
  - apply (krx_sessions_isolated KrxDemo.closing s'); [|done].
    apply rtc_once. eapply (step_outright (CancelOutright 1 1 70)). exact E.
Defined.

(** ** What else the runs show *)

(** KS-MKS, quoted in ticks of 200 although its legs move by 500: buying KS at
    120500 and selling MKS at 23800 costs 1500, and the level implied for it
    offers the spread at 1400. *)
Lemma override_misprices :
  let legs := [mkLeg 1 1 1 500 10000; mkLeg 2 (-5) 5 200 10000] in
  let bbos := [mkBBO 120000 50000 120500 50000; mkBBO 23800 50000 23900 50000] in
  spread_price_loop legs [120500; 23800] 0 = 1500 ∧
  il_price <$> compute_implied_out_ask legs bbos 200 = Some 1400.
Proof. by vm_compute. Qed.
